(* ===== verification/_CoqProject ===== *)
-Q . S2P
Prelude.v
Bytes.v
OsFile.v
QcowHeader.v
QcowHeaderOk.v
QcowImage.v
QcowLayout.v
QcowInv.v
QcowRead.v
QcowFrame.v
QcowRefcount.v
QcowAlloc.v
QcowPublish.v
QcowWrite.v
QcowOwners.v
QcowOpen.v
Disk.v
DiskSpec.v
GuestMem.v
VirtioModern.v
VirtioModernSpec.v
VirtioQueue.v
VirtioBlk.v
VirtioBlkSpec.v
VirtioBlkDurable.v
VirtioNet.v
VirtioNetSpec.v
GpuImage.v
VirtioGpu.v
VirtioGpuSpec.v
VirtioGpuRequest.v
VirtioAccess.v
VirtioSound.v
VirtioSoundSpec.v
VirtioSoundPlay.v
Framebuffer.v
FramebufferSpec.v
FramebufferConsole.v
RdpBitmap.v
RdpBitmapSpec.v
RdpClient.v
Pci.v
PciSpec.v
MachineDevices.v
SharedIrq.v
Serial.v
IoDevices.v
UefiFlash.v
UefiPower.v
FwCfg.v
Ps2.v
Ps2Spec.v
Atapi.v
AtapiSpec.v
BootParam.v
Ebda.v
Loader.v
LoaderSpec.v
H264Bits.v
H264BitsSpec.v
H264ReadSpec.v
H264Syntax.v
H264Nal.v
H264NalSpec.v
H264NalStream.v
H264ParamsEnc.v
H264ParamsDec.v
H264ParamsSpec.v
H264ParamsTrip.v
H264ParamsUnit.v
H264ParamsSafe.v
H264Size.v
