(* ===== verification/Prelude.v ===== *)
(** * Verification of gokvm

    gokvm is a virtual machine monitor: src/internal/machine assembles a machine
    around KVM, gives it guest memory, loads a kernel or UEFI firmware and
    attaches devices; the devices are virtio devices on a PCI bus and legacy
    devices on I/O ports; disks are raw or QCOW2 files.  This development models
    the parts of it that compute, as functions on explicit states, and proves
    what makes them correct for every guest, every image file and every failure
    of the host.

    ** Conventions (Prelude.v, Bytes.v, OsFile.v, GuestMem.v)

    An integer of w bits is a [Z], and [u8] ... [u64], [i64] are written where an
    operation can wrap.  Slices are lists, indexed by [Z]; an index out of range
    is a [Panic].  A method that changes state is a function in the monad
    [M S A]: it returns [Ok], [Err], [Panic] or [OutOfFuel] together with the
    state, which survives an error return as it does in Go.  [wp m s Q E] says
    that [m] returns, with [Q] after a value and [E] after an error; it excludes
    panics and loops that do not end.  Host files (OsFile.v) carry a schedule of
    faults, so a theorem about every file is a theorem about every combination
    of failing and short reads and writes.  The guest can change its memory
    between any two accesses of a device: the transport carries the stores it
    will make.  Methods that the code runs under a mutex are single steps;
    interleavings of different actors are explicit sequences of steps.

    Components meet in type classes: [ImageOps]/[ImageLaws] (Disk.v) between
    disk images and the block device, [ModernDevice]/[ModernDeviceLaws]
    (VirtioModern.v) between the transport and a virtio device, [PciDevice] and
    [PciDeviceLaws] (Pci.v, PciSpec.v) between the bus and its functions.  The
    client is verified against the laws, each implementation discharges them.

    ** Disk images (src/internal/disk)

    QcowHeader.v models the header and its validation (qcow2.go, qcow2_header.go),
    QcowImage.v the driver: reading, writing, allocation, reference counts and
    the recovery of torn entries (qcow2.go, qcow2_write.go), QcowLayout.v opening
    and the ownership check (image.go, qcow2_layout.go), Disk.v the interface and
    raw images.  QcowInv.v defines the virtual disk an image denotes and the
    invariant of the driver; QcowHeaderOk, QcowRead, QcowFrame, QcowRefcount,
    QcowAlloc, QcowPublish, QcowWrite, QcowOwners and QcowOpen prove the
    operations; DiskSpec.v states the results: reads and writes refine reads and
    writes of an array of bytes under every failure of the host, opening ends on
    every file and establishes the invariant, what was written is found again
    after reopening, allocated clusters are new, and writes succeed when the host
    does not fail.  The driver checks an offset it allocates against the range of
    an int64 only, while an entry has 56 bits: the theorems on writes ask that the
    clusters a write may add stay below 2^56 ([encodable]), which clusters of at
    most 256 KiB always do.  Loops have fuel from the length of the request, of a
    table or of the header; the theorems show that it never runs out.

    ** Virtio (src/internal/virtio)

    VirtioModern.v models the transport (modern.go, common.go), VirtioQueue.v the
    accesses to the rings, VirtioBlk.v the block device (blk.go), VirtioNet.v the
    network device (net.go), VirtioGpu.v the graphics device (gpu.go) over the
    images and the pixel conversion of GpuImage.v (gpu.go, display.go and what
    they use of Go's image packages).  VirtioModernSpec.v: guest accesses of sufficient
    width never break the transport, registers read back, queues are published
    exactly when their areas are guest memory, negotiation takes the features
    both sides have, the interrupt line follows the causes, the capabilities
    describe the BAR; a write shorter than its register panics.  VirtioBlkSpec.v
    and VirtioNetSpec.v: no guest makes the processing of a queue panic or leave
    guest memory; requests read and write the disk at their sectors and complete
    once; packets reach the backend and the buffers of the driver, in order.
    VirtioBlkDurable.v pairs an image with what a crash leaves of it: without the
    flush feature a write that is reported successful survives a crash, and so do
    all writes before a flush that succeeds.  VirtioGpuSpec.v and
    VirtioGpuRequest.v: no interleaving of the callers of the graphics device
    makes it panic, but for register writes that are shorter than the register,
    or exceed its memory limits; a transfer fills exactly its
    rectangle from the scatter-gather backing, a flush publishes exactly the
    damaged pixels, and a request is answered once, with its fence.  The reader
    of the backing has two rounds of fuel per entry and the walk of a chain one
    per descriptor, which the theorems show to be enough; [drain] keeps its bound
    as an argument, because a guest can keep it busy.

    VirtioAccess.v holds what an access to the rings touches.  VirtioSound.v models
    the sound card (sound.go): its queues, the walk of a chain, the commands of the
    stream, the periods that wait and the playback clock, whose instants are
    inputs.  VirtioSoundSpec.v and VirtioSoundPlay.v: no guest makes the card
    loop or, but for short register writes, panic, its pending periods stay within guest memory and within the
    buffer of the stream; the periods a driver queues reach the sink completely
    and in order within boundedly many passes of the worker, and go back with
    their status.  The walk of a chain has one round of fuel more than the queue
    has entries, which is shown to be enough.

    ** Displays (src/internal/virtio, src/internal/rdp)

    Framebuffer.v models the frame a display publishes: complete and partial
    publications with the versions of its tiles, readers that catch up at their
    own pace, slices that are handed out without a copy, the text console of the
    serial port and the fallbacks for firmware graphics (framebuffer.go,
    framebuffer_damage.go, [FlushDamage] of rdp_cursor.go).  FramebufferSpec.v and
    FramebufferConsole.v: in every sequence of these operations nothing panics, a
    reader that refreshes its copy has the current frame and is told where it
    changed, and a slice that was handed out never changes.  The loops over tiles
    have one round of fuel per tile.  RdpBitmap.v models the damage package and the
    bitmap encoder of an RDP session (damage/region.go, bitmap.go), RdpBitmapSpec.v
    shows what its updates do to the screen of a client that follows the protocol,
    and RdpClient.v puts the loop of the session (rdp.go) on top of the
    framebuffer: after every turn that may send (the display ready, the output not
    suppressed, the frame due) and ends without an error the client shows the frame.

    ** The PCI bus and the machine (src/internal/pci, src/internal/machine)

    Pci.v models pci.go; PciSpec.v shows that every reachable bus is well-formed
    and no configuration access panics, that a BAR probe answers the size and an
    assigned BAR decodes where the guest put it.  MachineDevices.v holds the
    functions of a machine (the device headers and machine.go) and shows that
    their memory windows are disjoint however devices are attached.  SharedIrq.v
    (pci_irq.go) shows that a shared line is the disjunction of its devices,
    also when updates fail, composed with the transports that drive it.
    UefiFlash.v (uefi_flash.go and the placement of uefi.go) shows that the file
    of the variable store agrees with the chip, and that updates reach it.
    UefiPower.v (uefi_power.go) shows that the SCI follows the registers through
    failures of the line.

    ** Memory and boot

    Loader.v models memory.go and loader.go, BootParam.v the zero page
    (src/internal/bootparam), Ebda.v the MP table (src/internal/ebda).
    LoaderSpec.v: the memory map describes exactly the RAM and leaves the PCI
    window free; the ramdisk gets the highest free place and is refused only
    when there is none, in at most one round of the search per occupied range,
    which is the fuel of the model; preparing a boot never panics, and when it
    succeeds every image and table is in memory and none overwrote another.
    BootParam.v and Ebda.v: a kernel that follows the boot protocol and the MP
    specification reads back the header, the memory map and the processors.

    ** Legacy devices (src/internal/serial, src/internal/iodev)

    Serial.v: the console keeps its input in order.  IoDevices.v: the ACPI timer
    does not drift or overflow, the clock and memory registers of the CMOS decode
    to the time of day and the memory size.  FwCfg.v: firmware finds every file
    of the configuration and reads its contents.  Ps2.v (ps2.go, ps2_keymap.go,
    ps2_pointer.go) and Ps2Spec.v: every byte of keyboard and mouse reaches the
    guest in order, and with one interrupt while the guest keeps interrupts on,
    where the interrupts are injected outside of the mutex in any order of the
    callers; key events decode to the keys pressed, and
    the pointer follows the remote pointer; a movement takes at most 517 packets,
    below the 600 rounds of fuel of [enqueueMouseMotion].  Atapi.v (atapi_cdrom.go)
    and AtapiSpec.v: no access leaves the buffers of the drive, READ delivers the
    sectors of the disc through the PACKET protocol, errors reach the guest through
    REQUEST SENSE, capacity and table of contents describe the disc.

    ** The H.264 codec (src/pkg/h264)

    Of the codec the part from the configuration of a video to the parameter sets
    in the decoder is modelled.  H264Bits.v holds the bit strings of both sides
    (common/golomb_common_h.go, decoder/dec_golomb_h.go, bit_stream.go), H264Nal.v
    the NAL units of the encoder and the scan of the decoder (encoder/nal_encap.go,
    [WelsDecodeBs] and [RawDataWrapIsClean] of decoder/decoder.go), H264ParamsEnc.v and H264ParamsDec.v the
    sequence and picture parameter sets (encoder/au_set.go, decoder/au_parser.go)
    with the buffers of the decoder and its handling of a unit.  H264BitsSpec,
    H264ReadSpec and H264Syntax: elements are read back as written, whatever the
    alignment in the 32-bit caches.  H264NalSpec and H264NalStream: the units of a
    frame come out of the scan unchanged, no start code appears inside a unit, and
    the scan of any bytes ends within its buffers.  H264ParamsSpec, H264ParamsTrip
    and H264ParamsUnit: the sets of the encoder arrive in the buffers of the
    decoder field by field.  H264ParamsSafe: a set of arbitrary bytes does not
    make the decoder panic.  H264Size: the pictures announced have the configured
    size.  The scan has one round of fuel per byte, which is shown to be enough;
    slices are parameters of the handling of a unit.

    ** Not modelled

    KVM and its system calls (kvm), the run loop and the registers of the vCPUs,
    threads, timers and descriptors of the host, because their behaviour is the
    kernel's; where a component depends on them their outcomes are arguments.
    The input devices appear on the bus with their identities only.  The
    drawing of text with a font is a parameter of the framebuffer.  The protocol of
    RDP below its bitmap updates, its graphics channel, the VNC server, the gateway,
    certificates and configuration files are network and host services.  PVH boot,
    the ACPI tables and the seed images are left out so far, as are the slices,
    macroblocks, prediction, transforms and rate control of the H.264 codec, and its
    floating-point frame rates, which are arguments. *)

From Stdlib Require Export ZArith Lia Bool String.
From stdpp Require Export base gmap list numbers option.

#[global] Open Scope Z_scope.
#[global] Set Default Goal Selector "!".

Declare Scope go_scope.
Delimit Scope go_scope with go.
#[global] Open Scope go_scope.

Create HintDb go.
Create Rewrite HintDb golen.

(** ** Go integers

    A Go unsigned integer of width w is a [Z] in [0, 2^w); the conversions
    below are Go's truncating conversions and are written wherever an operation
    of the source can wrap. *)

Definition u8 (x : Z) : Z := x mod 2 ^ 8.
Definition u16 (x : Z) : Z := x mod 2 ^ 16.
Definition u32 (x : Z) : Z := x mod 2 ^ 32.
Definition u64 (x : Z) : Z := x mod 2 ^ 64.
Definition i8 (x : Z) : Z := (x + 2 ^ 7) mod 2 ^ 8 - 2 ^ 7.
Definition i16 (x : Z) : Z := (x + 2 ^ 15) mod 2 ^ 16 - 2 ^ 15.
Definition i32 (x : Z) : Z := (x + 2 ^ 31) mod 2 ^ 32 - 2 ^ 31.
Definition i64 (x : Z) : Z := (x + 2 ^ 63) mod 2 ^ 64 - 2 ^ 63.

Definition maxInt64 : Z := 2 ^ 63 - 1.

(** Go's [x & mask != 0]. *)
Definition has_bits (x mask : Z) : bool := negb (Z.land x mask =? 0).

Infix "&&&" := Z.land (at level 40, left associativity) : go_scope.
Infix "|||" := Z.lor (at level 50, left associativity) : go_scope.
Infix "&^" := Z.ldiff (at level 40, left associativity) : go_scope.

Definition is_u8 (x : Z) : Prop := 0 <= x < 2 ^ 8.
Definition is_u16 (x : Z) : Prop := 0 <= x < 2 ^ 16.
Definition is_u32 (x : Z) : Prop := 0 <= x < 2 ^ 32.
Definition is_u64 (x : Z) : Prop := 0 <= x < 2 ^ 64.

(** ** Slices

    Go slices of integers are lists indexed by [Z].  [zget] is the total read
    with default 0; [zlookup] makes the bounds check of an index expression
    explicit and [zinsert] is an in-range assignment [l[i] = x]. *)

Definition zlen {A} (l : list A) : Z := Z.of_nat (length l).

Definition zget (l : list Z) (i : Z) : Z :=
  if i <? 0 then 0 else nth (Z.to_nat i) l 0.

Definition zlookup {A} (l : list A) (i : Z) : option A :=
  if i <? 0 then None else l !! Z.to_nat i.

Definition zinsert {A} (i : Z) (x : A) (l : list A) : list A :=
  if i <? 0 then l else <[Z.to_nat i := x]> l.

(** [zslice l o n] is [l[o : o+n]] for an in-range slice expression. *)
Definition zslice {A} (l : list A) (o n : Z) : list A :=
  take (Z.to_nat n) (drop (Z.to_nat o) l).

Definition zeros (n : Z) : list Z := replicate (Z.to_nat n) 0.

(** Overwrite [b] at offset [o], extending the list with zeros when the write
    ends past its end; an empty write changes nothing. *)
Definition zwrite (l : list Z) (o : Z) (b : list Z) : list Z :=
  match b with
  | [] => l
  | _ => let base := l ++ zeros (o - zlen l) in
         take (Z.to_nat o) base ++ b ++ drop (Z.to_nat (o + zlen b)) base
  end.

(** Cut the list to [n] elements or extend it with zeros. *)
Definition zresize (l : list Z) (n : Z) : list Z :=
  take (Z.to_nat n) l ++ zeros (n - zlen l).

(** Go's [copy(dst, src)] on the prefix of [dst]. *)
Definition zcopy (dst src : list Z) : list Z :=
  take (Nat.min (length dst) (length src)) src ++ drop (length src) dst.

(** ** Results

    A Go call that returns [(T, error)] yields [Ok] or [Err]; [Panic] is a
    run-time panic and [OutOfFuel] marks a bounded loop of the model that did
    not reach its exit. *)

Inductive error : Type :=
| EMsg (msg : string)
| EEOF
| EIO
| EShortWrite
| EWrap (msg : string) (e : error)
| EJoin (e1 e2 : error)
| ECode (code : Z).

Inductive result (A : Type) : Type :=
| Ok (a : A)
| Err (e : error)
| Panic
| OutOfFuel.
Arguments Ok {A} a.
Arguments Err {A} e.
Arguments Panic {A}.
Arguments OutOfFuel {A}.

#[global] Instance error_eq_dec : EqDecision error.
Proof. solve_decision. Defined.

(** Stateful Go code: the state is threaded through every call and survives
    an error return. *)
Definition M (S A : Type) : Type := S -> result A * S.

Definition ret {S A} (a : A) : M S A := fun s => (Ok a, s).
Definition throw {S A} (e : error) : M S A := fun s => (Err e, s).
Definition panic {S A} : M S A := fun s => (Panic, s).
Definition gget {S} : M S S := fun s => (Ok s, s).
Definition gupd {S} (f : S -> S) : M S unit := fun s => (Ok tt, f s).

Definition gbind {S A B} (m : M S A) (k : A -> M S B) : M S B := fun s =>
  match m s with
  | (Ok a, s') => k a s'
  | (Err e, s') => (Err e, s')
  | (Panic, s') => (Panic, s')
  | (OutOfFuel, s') => (OutOfFuel, s')
  end.

(** [if err := m(); err != nil { ... }]: the error becomes a value. *)
Definition gtry {S A} (m : M S A) : M S (A + error) := fun s =>
  match m s with
  | (Ok a, s') => (Ok (inl a), s')
  | (Err e, s') => (Ok (inr e), s')
  | (Panic, s') => (Panic, s')
  | (OutOfFuel, s') => (OutOfFuel, s')
  end.

(** An index expression: out of range panics. *)
Definition gindex {S A} (l : list A) (i : Z) : M S A :=
  match zlookup l i with
  | Some x => ret x
  | None => panic
  end.

Notation "'let!' x ':=' m 'in' k" := (gbind m (fun x => k))
  (at level 10, x pattern, m at level 100, k at level 200) : go_scope.
Notation "'do!' m 'in' k" := (gbind m (fun _ => k))
  (at level 10, m at level 100, k at level 200) : go_scope.
Notation "'check!' c 'else' e 'in' k" :=
  (if (c : bool) then throw e else k)
  (at level 10, c at level 100, e at level 100, k at level 200) : go_scope.

(** ** Record updates

    [r <| field := v |>] for the records that declare their eta expansion as
    an instance of [Settable]. *)

Class Settable (R : Type) := eta_record : R -> R.
Class Setter {R E : Type} (proj : R -> E) := set_field : (E -> E) -> R -> R.
Arguments set_field {R E} proj {_} _ _ /.

(** Replace [proj r] in the eta expansion of [r]. *)
Ltac find_setter R E proj :=
  let eta := eval hnf in (_ : Settable R) in
  exact (fun (f : E -> E) (r : R) => ltac:(
    let b := eval cbv beta in (eta r) in
    match b with context C [proj r] => let b' := context C [f (proj r)] in exact b' end)).

#[export] Hint Extern 1 (@Setter ?R ?E ?proj) => find_setter R E proj : typeclass_instances.

#[warnings="-postfix-notation-not-level-1"]
Notation "x <| proj := v |>" := (set_field proj (fun _ => v) x)
  (at level 12, left associativity, format "x  <| proj  :=  v |>") : go_scope.

(** ** Tactics *)

Ltac destruct_match_in H :=
  match type of H with
  | context [match ?x with _ => _ end] => destruct x eqn:?
  end.

Ltac destruct_match_goal :=
  match goal with
  | |- context [match ?x with _ => _ end] => destruct x eqn:?
  end.

(** Turn boolean comparisons in the context into propositions. *)
Ltac zbool :=
  repeat match goal with
  | H : (_ <? _) = true |- _ => apply Z.ltb_lt in H
  | H : (_ <? _) = false |- _ => apply Z.ltb_ge in H
  | H : (_ <=? _) = true |- _ => apply Z.leb_le in H
  | H : (_ <=? _) = false |- _ => apply Z.leb_gt in H
  | H : (_ =? _) = true |- _ => apply Z.eqb_eq in H
  | H : (_ =? _) = false |- _ => apply Z.eqb_neq in H
  | H : negb _ = true |- _ => apply negb_true_iff in H
  | H : negb _ = false |- _ => apply negb_false_iff in H
  | H : _ || _ = false |- _ => apply orb_false_iff in H; destruct H
  | H : _ && _ = true |- _ => apply andb_true_iff in H; destruct H
  end.

(** Split a conjunction without looking through definitions. *)
(** Case analysis on the comparisons of the goal. *)
Ltac zcases :=
  repeat match goal with
  | |- context [?a <=? ?b] => destruct (a <=? b) eqn:?
  | |- context [?a <? ?b] => destruct (a <? b) eqn:?
  | |- context [?a =? ?b] => destruct (a =? b) eqn:?
  end; cbn [andb orb negb]; zbool.

Ltac splits := repeat match goal with |- _ /\ _ => split end.

Ltac zbits := apply Z.bits_inj'; intros ?n ?Hn.

(** ** Lemmas on machine integers *)

Lemma u8_small x : 0 <= x < 2 ^ 8 -> u8 x = x.
Proof. intros; unfold u8; apply Z.mod_small; lia. Qed.

Lemma u16_small x : 0 <= x < 2 ^ 16 -> u16 x = x.
Proof. intros; unfold u16; apply Z.mod_small; lia. Qed.

Lemma u32_small x : 0 <= x < 2 ^ 32 -> u32 x = x.
Proof. intros; unfold u32; apply Z.mod_small; lia. Qed.

Lemma u64_small x : 0 <= x < 2 ^ 64 -> u64 x = x.
Proof. intros; unfold u64; apply Z.mod_small; lia. Qed.

Lemma i64_small x : 0 <= x < 2 ^ 63 -> i64 x = x.
Proof. intros; unfold i64; rewrite Z.mod_small; lia. Qed.

Lemma i16_small x : - 2 ^ 15 <= x < 2 ^ 15 -> i16 x = x.
Proof. intros; unfold i16; rewrite Z.mod_small; lia. Qed.

Lemma i32_small x : - 2 ^ 31 <= x < 2 ^ 31 -> i32 x = x.
Proof. intros; unfold i32; rewrite Z.mod_small; lia. Qed.

Lemma u8_range x : 0 <= u8 x < 2 ^ 8.
Proof. apply Z.mod_pos_bound; lia. Qed.

Lemma u16_range x : 0 <= u16 x < 2 ^ 16.
Proof. apply Z.mod_pos_bound; lia. Qed.

Lemma u32_range x : 0 <= u32 x < 2 ^ 32.
Proof. apply Z.mod_pos_bound; lia. Qed.

Lemma u64_range x : 0 <= u64 x < 2 ^ 64.
Proof. apply Z.mod_pos_bound; lia. Qed.

#[export] Hint Resolve u8_range u16_range u32_range u64_range : go.

(** A number below [2^n] has no bit at or above [n]. *)
Lemma testbit_high x n i : 0 <= x < 2 ^ n -> n <= i -> Z.testbit x i = false.
Proof.
  intros Hx Hi. destruct (Z.eq_dec x 0) as [->|]; [apply Z.bits_0|].
  apply Z.bits_above_log2; [lia|].
  apply Z.log2_lt_pow2; [lia|].
  eapply Z.lt_le_trans; [apply Hx|]. apply Z.pow_le_mono_r; lia.
Qed.

Lemma land_range x y n : 0 <= x < 2 ^ n -> 0 <= y -> 0 <= n -> 0 <= Z.land x y < 2 ^ n.
Proof.
  intros Hx Hy Hn. split; [apply Z.land_nonneg; lia|].
  destruct (Z.eq_dec (Z.land x y) 0) as [->|]; [lia|].
  assert (0 <= Z.land x y) by (apply Z.land_nonneg; lia).
  apply Z.log2_lt_pow2; [lia|].
  eapply Z.le_lt_trans; [apply Z.log2_land; lia|].
  destruct (Z.eq_dec x 0) as [->|]; [rewrite Z.land_0_l in *; lia|].
  eapply Z.le_lt_trans; [apply Z.le_min_l|]. apply Z.log2_lt_pow2; lia.
Qed.

Lemma lor_range x y n : 0 <= x < 2 ^ n -> 0 <= y < 2 ^ n -> 0 <= n -> 0 <= Z.lor x y < 2 ^ n.
Proof.
  intros Hx Hy Hn. assert (0 <= Z.lor x y) by (apply Z.lor_nonneg; lia). split; [done|].
  destruct (Z.eq_dec n 0) as [->|]; [cbn in *; assert (x = 0 /\ y = 0) as [-> ->] by lia; done|].
  destruct (Z.eq_dec (Z.lor x y) 0) as [->|]; [lia|].
  apply Z.log2_lt_pow2; [lia|]. rewrite Z.log2_lor by lia.
  apply Z.max_lub_lt.
  - destruct (Z.eq_dec x 0) as [->|]; [cbn; lia|]. apply Z.log2_lt_pow2; lia.
  - destruct (Z.eq_dec y 0) as [->|]; [cbn; lia|]. apply Z.log2_lt_pow2; lia.
Qed.

(** Masking with [2^n - 1] is the remainder modulo [2^n]. *)
Lemma land_mask_mod x n : 0 <= n -> Z.land x (2 ^ n - 1) = x mod 2 ^ n.
Proof. intros. rewrite <- Z.land_ones by lia. f_equal. rewrite Z.ones_equiv. lia. Qed.

(** Disjoint bits: an OR with a number below the lowest bit is a sum. *)
Lemma lor_low p n v : 0 <= n -> 0 <= v < 2 ^ n -> Z.lor (p * 2 ^ n) v = p * 2 ^ n + v.
Proof.
  intros Hn Hv. assert (Hd : Z.land (p * 2 ^ n) v = 0).
  { zbits. rewrite Z.land_spec, Z.bits_0. destruct (Z.lt_ge_cases n0 n).
    - rewrite Z.mul_pow2_bits_low by lia. done.
    - rewrite (testbit_high v n) by lia. apply andb_false_r. }
  rewrite Z.add_nocarry_lxor by done. symmetry. by apply Z.lxor_lor.
Qed.

Lemma ldiff_low p n : 0 <= n -> Z.ldiff p (2 ^ n - 1) = p / 2 ^ n * 2 ^ n.
Proof.
  intros Hn. replace (2 ^ n - 1) with (Z.ones n) by (rewrite Z.ones_equiv; lia).
  rewrite Z.ldiff_ones_r, Z.shiftr_div_pow2, Z.shiftl_mul_pow2 by lia. done.
Qed.

(** A test of a single bit. *)
Lemma has_bits_testbit x k : 0 <= k -> has_bits x (2 ^ k) = Z.testbit x k.
Proof.
  intros Hk. unfold has_bits. destruct (Z.testbit x k) eqn:E.
  - apply negb_true_iff, Z.eqb_neq. intros H. apply (f_equal (fun y => Z.testbit y k)) in H.
    by rewrite Z.land_spec, E, Z.pow2_bits_true, Z.bits_0 in H by lia.
  - apply negb_false_iff, Z.eqb_eq. zbits. rewrite Z.land_spec, Z.bits_0, Z.pow2_bits_eqb by lia.
    destruct (k =? n) eqn:?; zbool; [subst; by rewrite E|apply andb_false_r].
Qed.

Lemma land_pow2_zero x k : 0 <= k -> (Z.land x (2 ^ k) =? 0) = negb (Z.testbit x k).
Proof. intros Hk. rewrite <- has_bits_testbit by done. unfold has_bits. by rewrite negb_involutive. Qed.

(** ** Lemmas on slices *)

Section Slices.
Context {A : Type}.
Implicit Types (l b : list A) (i o n : Z).

Lemma zlen_nonneg l : 0 <= zlen l.
Proof. unfold zlen; lia. Qed.

Lemma zlen_nil : zlen (@nil A) = 0.
Proof. reflexivity. Qed.

Lemma zlen_cons x l : zlen (x :: l) = 1 + zlen l.
Proof. unfold zlen; cbn [length]; lia. Qed.

Lemma zlen_app l b : zlen (l ++ b) = zlen l + zlen b.
Proof. unfold zlen; rewrite length_app; lia. Qed.

Lemma zlen_replicate n (x : A) : zlen (replicate (Z.to_nat n) x) = Z.max 0 n.
Proof. unfold zlen; rewrite length_replicate; lia. Qed.

Lemma zlen_slice l o n : 0 <= o -> 0 <= n -> o + n <= zlen l -> zlen (zslice l o n) = n.
Proof. unfold zlen, zslice; intros; rewrite length_take, length_drop; lia. Qed.

Lemma zlen_insert l i x : zlen (zinsert i x l) = zlen l.
Proof. unfold zlen, zinsert. destruct (i <? 0); [done|]. by rewrite length_insert. Qed.

Lemma zlookup_Some l i : 0 <= i < zlen l -> exists x, zlookup l i = Some x.
Proof.
  unfold zlookup, zlen. intros. destruct (i <? 0) eqn:E; zbool; [lia|].
  apply lookup_lt_is_Some. lia.
Qed.

Lemma zlookup_range l i x : zlookup l i = Some x -> 0 <= i < zlen l.
Proof.
  unfold zlookup, zlen. destruct (i <? 0) eqn:E; [done|]. zbool.
  intros ?%lookup_lt_Some. lia.
Qed.

Lemma zlookup_insert l i j x :
  0 <= i < zlen l -> zlookup (zinsert i x l) j = if j =? i then Some x else zlookup l j.
Proof.
  unfold zlookup, zinsert, zlen. intros.
  destruct (i <? 0) eqn:Ei; zbool; [lia|].
  destruct (j =? i) eqn:Eji; zbool.
  - subst. destruct (i <? 0) eqn:?; zbool; [lia|]. apply list_lookup_insert_eq. lia.
  - destruct (j <? 0) eqn:?; zbool; [done|]. apply list_lookup_insert_ne. lia.
Qed.

Lemma zlookup_cons x l i : zlookup (x :: l) i = if i =? 0 then Some x else zlookup l (i - 1).
Proof.
  unfold zlookup. destruct (i =? 0) eqn:?, (i <? 0) eqn:?, (i - 1 <? 0) eqn:?; zbool; try lia; subst; try done.
  replace (Z.to_nat i) with (S (Z.to_nat (i - 1))) by lia. done.
Qed.

Lemma zslice_all l n : zlen l = n -> zslice l 0 n = l.
Proof.
  unfold zslice, zlen. intros <-. rewrite drop_0. apply take_ge. lia.
Qed.

Lemma zslice_app_l l b n : zlen l = n -> zslice (l ++ b) 0 n = l.
Proof.
  unfold zslice, zlen. intros <-. rewrite drop_0, Nat2Z.id. apply take_app_length.
Qed.

End Slices.

Lemma zlen_zeros n : zlen (zeros n) = Z.max 0 n.
Proof. apply zlen_replicate. Qed.

#[export] Hint Rewrite @zlen_nil @zlen_cons @zlen_app @zlen_insert zlen_zeros : golen.
#[export] Hint Resolve zlen_nonneg : go.

Lemma zget_lookup l i : zget l i = default 0 (zlookup l i).
Proof.
  unfold zget, zlookup. destruct (i <? 0); [done|].
  destruct (l !! Z.to_nat i) eqn:E; cbn.
  - by apply nth_lookup_Some.
  - rewrite nth_overflow; [done|]. by apply lookup_ge_None.
Qed.

Lemma zlookup_zget l i : 0 <= i < zlen l -> zlookup l i = Some (zget l i).
Proof.
  intros H. destruct (zlookup_Some l i H) as [x Hx].
  by rewrite zget_lookup, Hx.
Qed.

Lemma zget_out l i : i < 0 \/ zlen l <= i -> zget l i = 0.
Proof.
  unfold zget, zlen. intros. destruct (i <? 0) eqn:E; [done|]. zbool.
  apply nth_overflow. lia.
Qed.

Lemma zget_insert l i j x :
  0 <= i < zlen l -> zget (zinsert i x l) j = if j =? i then x else zget l j.
Proof.
  intros. rewrite !zget_lookup, zlookup_insert by lia. by destruct (j =? i).
Qed.

Lemma zget_app l b i :
  zget (l ++ b) i = if i <? zlen l then zget l i else zget b (i - zlen l).
Proof.
  unfold zget, zlen. destruct (i <? 0) eqn:E; zbool.
  - destruct (i <? Z.of_nat (length l)) eqn:?; zbool; lia.
  - destruct (i <? Z.of_nat (length l)) eqn:?; zbool.
    + by rewrite app_nth1 by lia.
    + rewrite app_nth2 by lia. destruct (i - _ <? 0) eqn:?; zbool; [lia|]. f_equal; lia.
Qed.

Lemma zget_zeros n i : zget (zeros n) i = 0.
Proof.
  unfold zget, zeros. destruct (i <? 0); [done|].
  destruct (nth_in_or_default (Z.to_nat i) (replicate (Z.to_nat n) 0) 0) as [H|H]; [|done].
  apply list_elem_of_In, elem_of_replicate in H. tauto.
Qed.

Lemma zget_take l n i : 0 <= n -> zget (take (Z.to_nat n) l) i = if i <? n then zget l i else 0.
Proof.
  intros. rewrite !zget_lookup. unfold zlookup. destruct (i <? 0) eqn:?; zbool.
  - destruct (i <? n); done.
  - destruct (i <? n) eqn:?; zbool.
    + rewrite lookup_take_lt by lia. done.
    + rewrite lookup_take_ge by lia. done.
Qed.

Lemma zget_drop l n i : 0 <= n -> 0 <= i -> zget (drop (Z.to_nat n) l) i = zget l (n + i).
Proof.
  intros. rewrite !zget_lookup. unfold zlookup.
  destruct (i <? 0) eqn:?; zbool; [lia|]. destruct (n + i <? 0) eqn:?; zbool; [lia|].
  rewrite lookup_drop. repeat f_equal; lia.
Qed.

Lemma zget_slice l o n i :
  0 <= o -> 0 <= n -> 0 <= i < n -> zget (zslice l o n) i = zget l (o + i).
Proof.
  intros. unfold zslice. rewrite zget_take by lia.
  destruct (i <? n) eqn:?; zbool; [|lia]. apply zget_drop; lia.
Qed.

(** Extensionality of slices through [zget]. *)
Lemma zlist_eq l1 l2 :
  zlen l1 = zlen l2 -> (forall i, 0 <= i < zlen l1 -> zget l1 i = zget l2 i) -> l1 = l2.
Proof.
  intros Hlen Hget. apply list_eq_same_length with (n := length l1); [unfold zlen in *; lia|done|].
  intros i x y Hi Hx Hy.
  specialize (Hget (Z.of_nat i) ltac:(unfold zlen; lia)).
  rewrite !zget_lookup in Hget. unfold zlookup in Hget.
  destruct (Z.of_nat i <? 0) eqn:E; zbool; [lia|].
  by rewrite Nat2Z.id, Hx, Hy in Hget.
Qed.

Lemma zlen_write l o b :
  0 <= o -> zlen (zwrite l o b) = if zlen b =? 0 then zlen l else Z.max (zlen l) (o + zlen b).
Proof.
  intros. destruct b as [|x b]; [done|]. cbn [zwrite].
  destruct (zlen (x :: b) =? 0) eqn:E; zbool; [unfold zlen in E; cbn in E; lia|].
  unfold zlen in *. rewrite !length_app, length_take, length_drop, length_app.
  unfold zeros. rewrite length_replicate. cbn [length] in *. lia.
Qed.

Lemma zlen_write_in l o b : 0 <= o -> o + zlen b <= zlen l -> zlen (zwrite l o b) = zlen l.
Proof. intros. rewrite zlen_write by lia. pose proof (zlen_nonneg b). destruct (_ =? 0); lia. Qed.

Lemma Forall_zlookup {A} (P : A -> Prop) (l : list A) i x : Forall P l -> zlookup l i = Some x -> P x.
Proof. intros H. unfold zlookup. destruct (i <? 0); [done|]. intros E. exact (Forall_lookup_1 _ _ _ _ H E). Qed.

Lemma zget_write l o b i :
  0 <= o -> 0 <= i ->
  zget (zwrite l o b) i =
    if (o <=? i) && (i <? o + zlen b) then zget b (i - o) else zget l i.
Proof.
  intros. destruct b as [|x b].
  { destruct ((o <=? i) && (i <? o + zlen [])) eqn:E; zbool; [unfold zlen in *; cbn in *; lia|done]. }
  set (c := x :: b). assert (0 < zlen c) by (unfold c, zlen; cbn; lia).
  change (zwrite l o c) with
    (take (Z.to_nat o) (l ++ zeros (o - zlen l)) ++ c ++
     drop (Z.to_nat (o + zlen c)) (l ++ zeros (o - zlen l))).
  assert (Hb : forall k, zget (l ++ zeros (o - zlen l)) k = zget l k).
  { intros k. rewrite zget_app, zget_zeros. destruct (k <? zlen l) eqn:?; zbool; [done|].
    symmetry; apply zget_out; lia. }
  assert (Hlt : zlen (take (Z.to_nat o) (l ++ zeros (o - zlen l))) = o).
  { unfold zlen, zeros in *. rewrite length_take, length_app, length_replicate. lia. }
  rewrite zget_app, Hlt, zget_take, Hb by lia.
  destruct (i <? o) eqn:?; zbool.
  { destruct (o <=? i) eqn:?; zbool; [lia|done]. }
  destruct (o <=? i) eqn:?; zbool; [|lia]. cbn [andb].
  rewrite zget_app. destruct (i - o <? zlen c) eqn:?; zbool.
  - destruct (i <? o + zlen c) eqn:?; zbool; [done|lia].
  - destruct (i <? o + zlen c) eqn:?; zbool; [lia|].
    rewrite zget_drop, Hb by lia. f_equal; lia.
Qed.

Lemma zget_write_out l o b i :
  0 <= o -> 0 <= i -> i < o \/ o + zlen b <= i -> zget (zwrite l o b) i = zget l i.
Proof.
  intros Ho Hi Hr. rewrite zget_write by done. pose proof (zlen_nonneg b).
  destruct ((o <=? i) && (i <? o + zlen b)) eqn:E; zbool; [lia|done].
Qed.

Lemma zget_write_in l o b i :
  0 <= o -> o <= i < o + zlen b -> zget (zwrite l o b) i = zget b (i - o).
Proof.
  intros Ho Hr. rewrite zget_write by lia.
  destruct ((o <=? i) && (i <? o + zlen b)) eqn:E; zbool; [done|].
  apply andb_false_iff in E as [?|?]; zbool; lia.
Qed.

Lemma zlen_take (b : list Z) m : 0 <= m <= zlen b -> zlen (take (Z.to_nat m) b) = m.
Proof. unfold zlen. rewrite length_take. lia. Qed.

Lemma zlen_drop (b : list Z) m : 0 <= m <= zlen b -> zlen (drop (Z.to_nat m) b) = zlen b - m.
Proof. unfold zlen. rewrite length_drop. lia. Qed.

Lemma zlen_resize l n : 0 <= n -> zlen (zresize l n) = n.
Proof.
  intros. unfold zresize, zlen, zeros in *.
  rewrite length_app, length_take, length_replicate. lia.
Qed.

Lemma zget_resize l n i : 0 <= n -> zget (zresize l n) i = if i <? n then zget l i else 0.
Proof.
  intros. unfold zresize. rewrite zget_app, zget_take, zget_zeros by lia.
  assert (Hlt : zlen (take (Z.to_nat n) l) = Z.min n (zlen l)).
  { unfold zlen. rewrite length_take. lia. }
  rewrite Hlt. destruct (i <? n) eqn:?; zbool; destruct (i <? Z.min n (zlen l)) eqn:?; zbool;
    try lia; try done. symmetry; apply zget_out; lia.
Qed.

(** A call that comes back with a value or an error. *)
Definition returns {A} (r : result A) : Prop :=
  match r with Ok _ | Err _ => True | Panic | OutOfFuel => False end.

(** ** Weakest preconditions

    [wp m s Q E] says that [m] run from [s] returns, with [Q] of the value and
    the final state, or with [E] of the error and the final state.  It excludes
    panics and unfinished loops. *)

Definition wp {S A} (m : M S A) (s : S) (Q : A -> S -> Prop) (E : error -> S -> Prop) : Prop :=
  match m s with
  | (Ok a, s') => Q a s'
  | (Err e, s') => E e s'
  | (Panic, _) | (OutOfFuel, _) => False
  end.

Section WP.
Context {S A B : Type}.
Implicit Types (s : S) (E : error -> S -> Prop).

Lemma wp_mono (m : M S A) s (Q Q' : A -> S -> Prop) E E' :
  wp m s Q E -> (forall a s', Q a s' -> Q' a s') -> (forall e s', E e s' -> E' e s') ->
  wp m s Q' E'.
Proof. unfold wp. destruct (m s) as [[] ?]; auto. Qed.

Lemma wp_bind (m : M S A) (k : A -> M S B) s Q E :
  wp m s (fun a s' => wp (k a) s' Q E) E -> wp (gbind m k) s Q E.
Proof. unfold wp, gbind. destruct (m s) as [[] ?]; auto. Qed.

Lemma wp_try (m : M S A) s (Q : A + error -> S -> Prop) E :
  wp m s (fun a s' => Q (inl a) s') (fun e s' => Q (inr e) s') -> wp (gtry m) s Q E.
Proof. unfold wp, gtry. destruct (m s) as [[] ?]; auto. Qed.

Lemma wp_ret (a : A) s (Q : A -> S -> Prop) E : Q a s -> wp (ret a) s Q E.
Proof. auto. Qed.

Lemma wp_throw e s (Q : A -> S -> Prop) E : E e s -> wp (throw e) s Q E.
Proof. auto. Qed.

Lemma wp_gget s (Q : S -> S -> Prop) E : Q s s -> wp gget s Q E.
Proof. auto. Qed.

Lemma wp_gupd f s (Q : unit -> S -> Prop) E : Q tt (f s) -> wp (gupd f) s Q E.
Proof. auto. Qed.

Lemma wp_gindex (l : list A) i x s (Q : A -> S -> Prop) E :
  zlookup l i = Some x -> Q x s -> wp (gindex l i) s Q E.
Proof. unfold wp, gindex. intros ->. auto. Qed.

Lemma wp_run (m : M S A) s Q E : wp m s Q E -> returns (fst (m s)).
Proof. unfold wp. destruct (m s) as [[] ?]; cbn; auto. Qed.

Lemma wp_Ok (m : M S A) s Q : wp m s Q (fun _ _ => False) -> exists a s', m s = (Ok a, s') /\ Q a s'.
Proof. unfold wp. destruct (m s) as [[] ?]; [eauto|done..]. Qed.

End WP.

Definition wp_if_check {S A} (c : bool) e (k : M S A) s Q (E : error -> S -> Prop) :
  (c = true -> E e s) -> (c = false -> wp k s Q E) ->
  wp (if c then throw e else k) s Q E :=
  fun Ht Hf => match c as c0 return (c0 = true -> E e s) -> (c0 = false -> wp k s Q E) ->
                     wp (if c0 then throw e else k) s Q E with
               | true => fun H _ => H eq_refl
               | false => fun _ H => H eq_refl
               end Ht Hf.

(** One step of symbolic execution of a monadic program. *)
Ltac wstep :=
  lazymatch goal with
  | |- wp (gbind _ _) _ _ _ => apply wp_bind
  | |- wp (gtry _) _ _ _ => apply wp_try
  | |- wp (ret _) _ _ _ => apply wp_ret
  | |- wp (throw _) _ _ _ => apply wp_throw
  | |- wp gget _ _ _ => apply wp_gget
  | |- wp (gupd _) _ _ _ => apply wp_gupd
  | |- wp (if _ then throw _ else _) _ _ _ => apply wp_if_check; intros
  end.
Ltac wsteps := repeat wstep.

(** The two branches of a conditional, with what was decided. *)
Tactic Notation "wif" ident(E) :=
  cbv beta; lazymatch goal with |- wp (if ?b then _ else _) _ _ _ => destruct b eqn:E end.

(** Continue after a call whose specification is [H]. *)
Tactic Notation "wcall" uconstr(H) := eapply wp_mono; [eapply H| |].
