(* ===== verification/Bytes.v ===== *)
(** Byte strings: encoding/binary as the sources use it.

    [le_bytes]/[be_bytes] are the PutUint functions and [le_val]/[be_val] the
    Uint functions of Go's [encoding/binary]; the lemmas are the round trips
    and the frame property (a decoded field depends on its own bytes only). *)

From S2P Require Import Prelude.

Fixpoint le_val (l : list Z) : Z :=
  match l with
  | [] => 0
  | b :: t => b + 256 * le_val t
  end.

Fixpoint le_bytes (n : nat) (v : Z) : list Z :=
  match n with
  | O => []
  | S n' => v mod 256 :: le_bytes n' (v / 256)
  end.

Definition be_val (l : list Z) : Z := le_val (rev l).
Definition be_bytes (n : nat) (v : Z) : list Z := rev (le_bytes n v).

(** [binary.BigEndian.UintN(l[o:])] and [binary.LittleEndian.UintN(l[o:])]. *)
Definition be_uint16 (l : list Z) (o : Z) : Z := be_val (zslice l o 2).
Definition be_uint32 (l : list Z) (o : Z) : Z := be_val (zslice l o 4).
Definition be_uint64 (l : list Z) (o : Z) : Z := be_val (zslice l o 8).
Definition le_uint16 (l : list Z) (o : Z) : Z := le_val (zslice l o 2).
Definition le_uint32 (l : list Z) (o : Z) : Z := le_val (zslice l o 4).
Definition le_uint64 (l : list Z) (o : Z) : Z := le_val (zslice l o 8).

Definition bytes_ok (l : list Z) : Prop := Forall is_u8 l.

(** Decision procedure for concrete strings. *)
Definition bytes_okb (l : list Z) : bool := forallb (fun b => (0 <=? b) && (b <? 256)) l.

Lemma length_le_bytes n v : length (le_bytes n v) = n.
Proof. revert v. induction n; intros; cbn; auto. Qed.

Lemma zlen_le_bytes n v : zlen (le_bytes n v) = Z.of_nat n.
Proof. unfold zlen. by rewrite length_le_bytes. Qed.

Lemma zlen_be_bytes n v : zlen (be_bytes n v) = Z.of_nat n.
Proof. unfold zlen, be_bytes. by rewrite length_rev, length_le_bytes. Qed.

#[export] Hint Rewrite zlen_le_bytes zlen_be_bytes : golen.

Lemma le_bytes_ok n v : bytes_ok (le_bytes n v).
Proof.
  revert v. unfold bytes_ok. induction n; intros; cbn; [constructor|].
  constructor; [|apply IHn]. unfold is_u8. apply Z.mod_pos_bound. lia.
Qed.

Lemma be_bytes_ok n v : bytes_ok (be_bytes n v).
Proof. apply Forall_rev, le_bytes_ok. Qed.

Lemma le_val_range l : bytes_ok l -> 0 <= le_val l < 256 ^ zlen l.
Proof.
  induction 1 as [|b t Hb Ht IH]; [split; [done|reflexivity]|]. cbn [le_val]. rewrite zlen_cons.
  pose proof (zlen_nonneg t). rewrite Z.pow_add_r, Z.pow_1_r by lia. unfold is_u8 in Hb. lia.
Qed.

Lemma le_val_bytes n v : le_val (le_bytes n v) = v mod 256 ^ Z.of_nat n.
Proof.
  revert v. induction n as [|n IH]; intros; [cbn; symmetry; apply Z.mod_1_r|].
  cbn [le_bytes le_val]. rewrite IH, Nat2Z.inj_succ, Z.pow_succ_r by lia.
  rewrite Z.rem_mul_r by lia. lia.
Qed.

Lemma le_bytes_val l : bytes_ok l -> le_bytes (length l) (le_val l) = l.
Proof.
  induction 1 as [|b t Hb Ht IH]; [done|]. cbn [length le_bytes le_val].
  unfold is_u8 in Hb. rewrite (Z.mul_comm 256), Z.mod_add, Z.div_add, Z.mod_small, Z.div_small by lia.
  by rewrite Z.add_0_l, IH.
Qed.

Lemma be_val_bytes n v : 0 <= v < 256 ^ Z.of_nat n -> be_val (be_bytes n v) = v.
Proof.
  intros. unfold be_val, be_bytes. rewrite rev_involutive, le_val_bytes.
  apply Z.mod_small. lia.
Qed.

Lemma be_val_range l : bytes_ok l -> 0 <= be_val l < 256 ^ zlen l.
Proof.
  intros H. unfold be_val. replace (zlen l) with (zlen (rev l)) by (unfold zlen; by rewrite length_rev).
  apply le_val_range, Forall_rev, H.
Qed.

Lemma be_val_inj l1 l2 :
  bytes_ok l1 -> bytes_ok l2 -> length l1 = length l2 -> be_val l1 = be_val l2 -> l1 = l2.
Proof.
  intros H1 H2 Hl Hv. unfold be_val in Hv.
  rewrite <- (rev_involutive l1), <- (rev_involutive l2). f_equal.
  rewrite <- (le_bytes_val (rev l1)), <- (le_bytes_val (rev l2)) by (by apply Forall_rev).
  rewrite !length_rev. congruence.
Qed.

Lemma bytes_ok_slice l o n : bytes_ok l -> bytes_ok (zslice l o n).
Proof. intros. by apply Forall_take, Forall_drop. Qed.

Lemma bytes_ok_zget l i : bytes_ok l -> 0 <= zget l i < 256.
Proof.
  intros H. rewrite zget_lookup. unfold zlookup. destruct (i <? 0); [cbn; lia|].
  destruct (l !! Z.to_nat i) eqn:E; cbn; [|lia].
  apply (proj1 (Forall_lookup is_u8 l) H _ _ E).
Qed.

Lemma bytes_ok_zeros n : bytes_ok (zeros n).
Proof. unfold zeros. apply Forall_replicate. unfold is_u8; lia. Qed.

Lemma bytes_ok_write l o b : bytes_ok l -> bytes_ok b -> bytes_ok (zwrite l o b).
Proof.
  intros Hl Hb. destruct b as [|x b]; [done|]. cbn [zwrite].
  assert (bytes_ok (l ++ zeros (o - zlen l))) by (apply Forall_app; split; [done|apply bytes_ok_zeros]).
  apply Forall_app; split; [by apply Forall_take|]. apply Forall_app; split; [done|by apply Forall_drop].
Qed.

Lemma bytes_ok_insert l i x : bytes_ok l -> is_u8 x -> bytes_ok (zinsert i x l).
Proof.
  unfold zinsert, bytes_ok. intros. destruct (i <? 0); [done|]. by apply Forall_insert.
Qed.

Lemma bytes_ok_resize l n : bytes_ok l -> bytes_ok (zresize l n).
Proof. intros. apply Forall_app; split; [by apply Forall_take|apply bytes_ok_zeros]. Qed.

Lemma le_uint16_range l o : bytes_ok l -> is_u16 (le_uint16 l o).
Proof.
  intros Hb. unfold le_uint16, is_u16.
  pose proof (le_val_range _ (bytes_ok_slice l o 2 Hb)) as Hr.
  assert (zlen (zslice l o 2) <= 2) by (unfold zlen, zslice; rewrite length_take; lia).
  assert (256 ^ zlen (zslice l o 2) <= 256 ^ 2) by (apply Z.pow_le_mono_r; lia). lia.
Qed.

Lemma le_uint32_range l o : bytes_ok l -> is_u32 (le_uint32 l o).
Proof.
  intros Hb. unfold le_uint32, is_u32.
  pose proof (le_val_range _ (bytes_ok_slice l o 4 Hb)) as Hr.
  assert (zlen (zslice l o 4) <= 4) by (unfold zlen, zslice; rewrite length_take; lia).
  assert (256 ^ zlen (zslice l o 4) <= 256 ^ 4) by (apply Z.pow_le_mono_r; lia). lia.
Qed.

Lemma le_uint64_range l o : bytes_ok l -> is_u64 (le_uint64 l o).
Proof.
  intros Hb. unfold le_uint64, is_u64.
  pose proof (le_val_range _ (bytes_ok_slice l o 8 Hb)) as Hr.
  assert (zlen (zslice l o 8) <= 8) by (unfold zlen, zslice; rewrite length_take; lia).
  assert (256 ^ zlen (zslice l o 8) <= 256 ^ 8) by (apply Z.pow_le_mono_r; lia). lia.
Qed.

#[export] Hint Resolve le_bytes_ok be_bytes_ok bytes_ok_slice bytes_ok_zget bytes_ok_zeros
  bytes_ok_write bytes_ok_resize
  le_uint16_range le_uint32_range le_uint64_range : go.

(** Frame: two strings that agree on a range have the same slice there. *)
Lemma zslice_agree l1 l2 o n :
  0 <= o -> 0 <= n -> o + n <= zlen l1 -> o + n <= zlen l2 ->
  (forall i, o <= i < o + n -> zget l1 i = zget l2 i) -> zslice l1 o n = zslice l2 o n.
Proof.
  intros Ho Hn H1 H2 H. apply zlist_eq; [by rewrite !zlen_slice by lia|].
  intros i. rewrite zlen_slice by lia. intros. rewrite !zget_slice by lia. apply H. lia.
Qed.

(** Reading back what was written. *)
Lemma zslice_write l o b :
  0 <= o -> zslice (zwrite l o b) o (zlen b) = b.
Proof.
  intros Ho. pose proof (zlen_nonneg b). pose proof (zlen_nonneg l).
  destruct b as [|x b]; [cbn; unfold zslice; cbn; done|].
  set (c := x :: b) in *. assert (0 < zlen c) by (unfold c; rewrite zlen_cons; pose proof (zlen_nonneg b); lia).
  assert (Hl : o + zlen c <= zlen (zwrite l o c)).
  { rewrite zlen_write by lia. destruct (zlen c =? 0) eqn:?; zbool; lia. }
  apply zlist_eq; [by rewrite zlen_slice by lia|].
  intros i. rewrite zlen_slice by lia. intros. rewrite zget_slice, zget_write by lia.
  destruct (o <=? o + i) eqn:?; zbool; [|lia]. destruct (o + i <? o + zlen c) eqn:?; zbool; [|lia].
  cbn. f_equal. lia.
Qed.

Lemma zslice_cons (l : list Z) pos x n :
  zlookup l pos = Some x -> 0 <= n -> zslice l pos (1 + n) = x :: zslice l (pos + 1) n.
Proof.
  intros Hx Hn. pose proof (zlookup_range _ _ _ Hx). unfold zlookup in Hx. destruct (pos <? 0); [done|].
  unfold zslice. rewrite (drop_S l x (Z.to_nat pos) Hx). replace (Z.to_nat (1 + n)) with (S (Z.to_nat n)) by lia.
  cbn [take]. by replace (S (Z.to_nat pos)) with (Z.to_nat (pos + 1)) by lia.
Qed.

Lemma zslice_slice {A} (l : list A) o n o' n' :
  0 <= o -> 0 <= o' -> 0 <= n' -> o' + n' <= n -> zslice (zslice l o n) o' n' = zslice l (o + o') n'.
Proof.
  intros. unfold zslice. rewrite skipn_firstn_comm, take_take, drop_drop.
  f_equal; [lia|]. f_equal; lia.
Qed.

Lemma bytes_okb_ok l : bytes_okb l = true -> bytes_ok l.
Proof.
  induction l as [|x l IH]; cbn; intros H; [constructor|]. zbool.
  constructor; [unfold is_u8; lia|by apply IH].
Qed.
