(* ===== verification/OsFile.v ===== *)
(** The operating-system file under a disk image ([*os.File]).

    A file is its byte contents together with the schedule of faults the host
    will inject: every call consumes one element of the schedule.  [None] (and
    an exhausted schedule) lets the call succeed; [Some k] makes it fail after
    [k] bytes were transferred, which is how a short read or a short write of
    the host appears to the caller.  Theorems quantified over the schedule hold
    for every combination of I/O failures; theorems about fault-free runs take
    the empty schedule. *)

From S2P Require Import Prelude Bytes.

Record osFile : Type := mkFile {
  f_data : list Z;
  f_faults : list (option Z)
}.

Definition f_size (f : osFile) : Z := zlen (f_data f).

Definition next_fault (f : osFile) : option Z :=
  match f_faults f with
  | Some k :: _ => Some k
  | _ => None
  end.

Definition with_data (f : osFile) (d : list Z) : osFile :=
  {| f_data := d; f_faults := tail (f_faults f) |}.

Definition clamp (k n : Z) : Z := Z.max 0 (Z.min k n).

(** [file.Stat()]: the size. *)
Definition f_stat (f : osFile) : result Z * osFile :=
  let f' := with_data f (f_data f) in
  match next_fault f with
  | Some _ => (Err EIO, f')
  | None => (Ok (f_size f), f')
  end.

(** [file.ReadAt(buf, off)]: the buffer after the call, the count and the error. *)
Definition f_readAt (f : osFile) (buf : list Z) (off : Z) : list Z * Z * option error * osFile :=
  let f' := with_data f (f_data f) in
  if off <? 0 then (buf, 0, Some (EMsg "negative offset"), f')
  else
    let avail := clamp (f_size f - off) (zlen buf) in
    let filled n := zslice (f_data f) off n ++ drop (Z.to_nat n) buf in
    match next_fault f with
    | Some k => let n := clamp k avail in (filled n, n, Some EIO, f')
    | None => (filled avail, avail,
               if avail <? zlen buf then Some EEOF else None, f')
    end.

(** [file.WriteAt(b, off)]: the count and the error. *)
Definition f_writeAt (f : osFile) (b : list Z) (off : Z) : Z * option error * osFile :=
  if off <? 0 then (0, Some (EMsg "negative offset"), with_data f (f_data f))
  else
    match next_fault f with
    | Some k =>
        let n := clamp k (zlen b) in
        (n, Some EIO, with_data f (zwrite (f_data f) off (take (Z.to_nat n) b)))
    | None => (zlen b, None, with_data f (zwrite (f_data f) off b))
    end.

Definition f_truncate (f : osFile) (n : Z) : result unit * osFile :=
  if n <? 0 then (Err EIO, with_data f (f_data f))
  else
    match next_fault f with
    | Some _ => (Err EIO, with_data f (f_data f))
    | None => (Ok tt, with_data f (zresize (f_data f) n))
    end.

Definition f_sync (f : osFile) : result unit * osFile :=
  let f' := with_data f (f_data f) in
  match next_fault f with
  | Some _ => (Err EIO, f')
  | None => (Ok tt, f')
  end.

(** No fault is scheduled. *)
Definition fault_free (f : osFile) : Prop := Forall (fun o => o = None) (f_faults f).

Lemma fault_free_next f : fault_free f -> next_fault f = None.
Proof.
  unfold fault_free, next_fault. destruct (f_faults f) as [|[k|] t]; [done| |done].
  inversion 1; done.
Qed.

Lemma fault_free_with f d : fault_free f -> fault_free (with_data f d).
Proof.
  unfold fault_free, with_data; cbn. destruct (f_faults f); [done|]. by inversion 1.
Qed.

#[export] Hint Resolve fault_free_next fault_free_with : go.

Lemma clamp_range k n : 0 <= n -> 0 <= clamp k n <= n.
Proof. unfold clamp. lia. Qed.

(** Whatever the fault, a write changes bytes of its own range only, each to
    the byte that was to be written there, and the file never shrinks. *)
Lemma f_writeAt_effect f b off n err f' :
  0 <= off -> f_writeAt f b off = (n, err, f') ->
  exists m, 0 <= m <= zlen b /\
    (forall i, 0 <= i ->
       zget (f_data f') i =
         if (off <=? i) && (i <? off + m) then zget b (i - off) else zget (f_data f) i) /\
    f_size f' = (if m =? 0 then f_size f else Z.max (f_size f) (off + m)) /\
    (err = None -> m = zlen b /\ n = zlen b) /\
    (bytes_ok (f_data f) -> bytes_ok b -> bytes_ok (f_data f')) /\ n = m.
Proof.
  intros Hoff. unfold f_writeAt. destruct (off <? 0) eqn:?; zbool; [lia|].
  pose proof (zlen_nonneg b).
  destruct (next_fault f) as [k|] eqn:Hf; intros [= <- <- <-].
  - pose proof (clamp_range k (zlen b) ltac:(lia)) as Hc. set (m := clamp k (zlen b)) in *.
    assert (Hm : zlen (take (Z.to_nat m) b) = m).
    { unfold zlen in *. rewrite length_take. lia. }
    exists m. cbn. splits; [lia|lia| | |done| |done].
    + intros i Hi. rewrite zget_write, Hm by lia.
      destruct (_ && _) eqn:E; [|done]. zbool. rewrite zget_take by lia.
      destruct (i - off <? m) eqn:?; zbool; [done|lia].
    + unfold f_size; cbn. rewrite zlen_write, Hm by lia. done.
    + intros. apply bytes_ok_write; [done|]. by apply Forall_take.
  - exists (zlen b). cbn. splits; [lia|lia| | |done|auto with go|done].
    + intros i Hi. by rewrite zget_write by lia.
    + unfold f_size; cbn. by rewrite zlen_write by lia.
Qed.

Lemma f_writeAt_ok f b off :
  0 <= off -> next_fault f = None ->
  f_writeAt f b off = (zlen b, None, with_data f (zwrite (f_data f) off b)).
Proof. intros ? Hf. unfold f_writeAt. destruct (off <? 0) eqn:?; zbool; [lia|]. by rewrite Hf. Qed.

(** A read never changes the contents; a successful one returns the slice. *)
Lemma f_readAt_data f buf off buf' n err f' :
  f_readAt f buf off = (buf', n, err, f') -> f_data f' = f_data f.
Proof.
  unfold f_readAt. destruct (off <? 0); [by intros [= <- <- <- <-]|].
  destruct (next_fault f); by intros [= <- <- <- <-].
Qed.

Lemma f_readAt_None f buf off buf' n f' :
  f_readAt f buf off = (buf', n, None, f') ->
  0 <= off /\ n = zlen buf /\ buf' = zslice (f_data f) off (zlen buf) /\
  (zlen buf = 0 \/ off + zlen buf <= f_size f).
Proof.
  unfold f_readAt. destruct (off <? 0) eqn:E; [done|].
  destruct (next_fault f); [done|]. intros [= <- <- Herr <-]. zbool.
  destruct (_ <? _) eqn:Hlt in Herr; [done|]. zbool.
  unfold clamp in *. pose proof (zlen_nonneg buf).
  assert (Hn : Z.max 0 (Z.min (f_size f - off) (zlen buf)) = zlen buf) by lia.
  rewrite Hn. splits; [lia|done| |lia].
  rewrite drop_ge by (unfold zlen; lia). by rewrite app_nil_r.
Qed.

Lemma f_readAt_ok f buf off :
  0 <= off -> off + zlen buf <= f_size f -> next_fault f = None ->
  f_readAt f buf off = (zslice (f_data f) off (zlen buf), zlen buf, None, with_data f (f_data f)).
Proof.
  intros Ho Hn Hf. unfold f_readAt. destruct (off <? 0) eqn:?; zbool; [lia|]. rewrite Hf.
  pose proof (zlen_nonneg buf).
  assert (clamp (f_size f - off) (zlen buf) = zlen buf) as -> by (unfold clamp; lia).
  rewrite Z.ltb_irrefl. rewrite drop_ge by (unfold zlen; lia). by rewrite app_nil_r.
Qed.

Lemma f_readAt_length f buf off buf' n err f' :
  f_readAt f buf off = (buf', n, err, f') -> zlen buf' = zlen buf.
Proof.
  unfold f_readAt. destruct (off <? 0) eqn:E; [by intros [= <- <- <- <-]|]. zbool.
  pose proof (zlen_nonneg buf). pose proof (zlen_nonneg (f_data f)).
  assert (Hlen : forall m, 0 <= m -> m <= clamp (f_size f - off) (zlen buf) ->
            zlen (zslice (f_data f) off m ++ drop (Z.to_nat m) buf) = zlen buf).
  { intros m Hm0 Hm. unfold clamp, f_size in *. unfold zslice, zlen in *.
    rewrite length_app, length_take, !length_drop. lia. }
  pose proof (clamp_range (f_size f - off) (zlen buf) ltac:(lia)) as Hr.
  destruct (next_fault f) as [k|]; intros [= <- <- <- <-]; apply Hlen; try lia.
  - pose proof (clamp_range k _ (proj1 Hr)). lia.
  - pose proof (clamp_range k _ (proj1 Hr)). lia.
Qed.

Lemma f_readAt_bytes f buf off buf' n err f' :
  f_readAt f buf off = (buf', n, err, f') -> bytes_ok (f_data f) -> bytes_ok buf -> bytes_ok buf'.
Proof.
  unfold f_readAt. intros E Hd Hb.
  assert (Hm : forall m, bytes_ok (zslice (f_data f) off m ++ drop (Z.to_nat m) buf)).
  { intros m. apply Forall_app. split; [by apply bytes_ok_slice|by apply Forall_drop]. }
  destruct (off <? 0); [by injection E as <- _ _ _|].
  destruct (next_fault f); injection E as <- _ _ _; apply Hm.
Qed.

Lemma f_truncate_effect f n r f' :
  f_truncate f n = (r, f') ->
  (exists e, r = Err e /\ f_data f' = f_data f) \/
  (0 <= n /\ r = Ok tt /\ f_data f' = zresize (f_data f) n).
Proof.
  unfold f_truncate. destruct (n <? 0) eqn:?; zbool; [intros [= <- <-]; eauto|].
  destruct (next_fault f); intros [= <- <-]; eauto.
Qed.

Lemma f_truncate_ok f n :
  0 <= n -> next_fault f = None -> f_truncate f n = (Ok tt, with_data f (zresize (f_data f) n)).
Proof. intros ? Hf. unfold f_truncate. destruct (n <? 0) eqn:?; zbool; [lia|]. by rewrite Hf. Qed.

Lemma f_stat_effect f r f' :
  f_stat f = (r, f') -> f_data f' = f_data f /\ (r = Ok (f_size f) \/ r = Err EIO).
Proof. unfold f_stat. destruct (next_fault f); intros [= <- <-]; auto. Qed.
