(* ===== verification/QcowHeader.v ===== *)
(** QCOW2 image header (src/internal/disk/qcow2.go, qcow2_header.go): the header
    fields, their decoding and every validation the driver performs before it
    trusts one of them. *)

From S2P Require Import Prelude Bytes.

Definition qcow2Version2 : Z := 2.
Definition qcow2Version3 : Z := 3.
Definition qcow2HeaderV2Len : Z := 72.
Definition qcow2HeaderV3Len : Z := 104.
Definition qcow2CryptNone : Z := 0.
Definition qcow2IncompatibleDirty : Z := 1.
Definition qcow2IncompatibleCorrupt : Z := 2.
Definition qcow2IncompatibleExternal : Z := 4.
Definition qcow2IncompatibleCompression : Z := 8.
Definition qcow2IncompatibleExtendedL2 : Z := 16.
Definition qcow2RefcountOrder16 : Z := 4.
Definition qcow2MaxL1Bytes : Z := 32 * 2 ^ 20.
Definition qcow2MaxRefcountTableBytes : Z := 8 * 2 ^ 20.
Definition qcow2ExtensionBackingFormat : Z := 0xe2792aca.
Definition qcow2ExtensionFeatureNames : Z := 0x6803f857.
Definition qcow2ExtensionBitmaps : Z := 0x23852875.
Definition qcow2ExtensionEncryption : Z := 0x0537be77.
Definition qcow2ExtensionExternalData : Z := 0x44415441.
Definition qcow2FeatureNameEntrySize : Z := 48.

(** The magic "QFI\xfb". *)
Definition qcow2Magic : list Z := [0x51; 0x46; 0x49; 0xfb].

Record qcow2Header : Type := {
  h_version : Z;
  h_backingFileOffset : Z;
  h_backingFileSize : Z;
  h_clusterBits : Z;
  h_size : Z;
  h_cryptMethod : Z;
  h_l1Size : Z;
  h_l1TableOffset : Z;
  h_refcountTableOffset : Z;
  h_refcountTableClusters : Z;
  h_nbSnapshots : Z;
  h_snapshotsOffset : Z;
  h_incompatibleFeatures : Z;
  h_autoclearFeatures : Z;
  h_refcountOrder : Z;
  h_headerLength : Z
}.

(** The fields common to both versions, read from the first 72 bytes. *)
Definition parseHeaderV2 (b : list Z) : qcow2Header := {|
  h_version := be_uint32 b 4;
  h_backingFileOffset := be_uint64 b 8;
  h_backingFileSize := be_uint32 b 16;
  h_clusterBits := be_uint32 b 20;
  h_size := be_uint64 b 24;
  h_cryptMethod := be_uint32 b 32;
  h_l1Size := be_uint32 b 36;
  h_l1TableOffset := be_uint64 b 40;
  h_refcountTableOffset := be_uint64 b 48;
  h_refcountTableClusters := be_uint32 b 56;
  h_nbSnapshots := be_uint32 b 60;
  h_snapshotsOffset := be_uint64 b 64;
  h_incompatibleFeatures := 0;
  h_autoclearFeatures := 0;
  h_refcountOrder := qcow2RefcountOrder16;
  h_headerLength := qcow2HeaderV2Len
|}.

(** The version 3 fields, from bytes 72 to 103. *)
Definition parseHeaderV3 (h : qcow2Header) (b : list Z) : qcow2Header := {|
  h_version := h_version h;
  h_backingFileOffset := h_backingFileOffset h;
  h_backingFileSize := h_backingFileSize h;
  h_clusterBits := h_clusterBits h;
  h_size := h_size h;
  h_cryptMethod := h_cryptMethod h;
  h_l1Size := h_l1Size h;
  h_l1TableOffset := h_l1TableOffset h;
  h_refcountTableOffset := h_refcountTableOffset h;
  h_refcountTableClusters := h_refcountTableClusters h;
  h_nbSnapshots := h_nbSnapshots h;
  h_snapshotsOffset := h_snapshotsOffset h;
  h_incompatibleFeatures := be_uint64 b 72;
  h_autoclearFeatures := be_uint64 b 88;
  h_refcountOrder := be_uint32 b 96;
  h_headerLength := be_uint32 b 100
|}.

Definition clusterSizeOf (h : qcow2Header) : Z := u64 (Z.shiftl 1 (h_clusterBits h)).

Definition alignUp (v align : Z) : Z :=
  if v mod align =? 0 then v else u64 (v + align - v mod align).

Definition validateHeaderGeometry (h : qcow2Header) : option error :=
  let clusterSize := clusterSizeOf h in
  if clusterSize <? h_headerLength h then Some (EMsg "qcow2: header exceeds cluster size") else
  let l1Bytes := u64 (h_l1Size h * 8) in
  if qcow2MaxL1Bytes <? l1Bytes then Some (EMsg "qcow2: l1 table exceeds supported size") else
  let refcountBytes := u64 (h_refcountTableClusters h * clusterSize) in
  if qcow2MaxRefcountTableBytes <? refcountBytes
  then Some (EMsg "qcow2: refcount table exceeds supported size") else
  if (u64 (maxInt64 - l1Bytes) <? h_l1TableOffset h) ||
     (u64 (maxInt64 - refcountBytes) <? h_refcountTableOffset h)
  then Some (EMsg "qcow2: metadata table offset exceeds supported file size") else
  let l1Coverage := u64 (clusterSize * (clusterSize / 8)) in
  let requiredL1 := h_size h / l1Coverage in
  let requiredL1 := if h_size h mod l1Coverage =? 0 then requiredL1 else u64 (requiredL1 + 1) in
  if h_l1Size h <? requiredL1
  then Some (EMsg "qcow2: l1 table is too small for virtual disk size") else None.

Definition knownIncompatible : Z :=
  qcow2IncompatibleDirty ||| qcow2IncompatibleCorrupt ||| qcow2IncompatibleExternal
  ||| qcow2IncompatibleCompression ||| qcow2IncompatibleExtendedL2.

Definition validateHeader (h : qcow2Header) : option error :=
  if negb (h_backingFileOffset h =? 0) || negb (h_backingFileSize h =? 0)
  then Some (EMsg "qcow2: backing files are unsupported") else
  if (h_clusterBits h <? 9) || (21 <? h_clusterBits h)
  then Some (EMsg "qcow2: unsupported cluster_bits") else
  if maxInt64 <? h_size h then Some (EMsg "qcow2: virtual disk is too large") else
  if negb (h_cryptMethod h =? qcow2CryptNone) then Some (EMsg "qcow2: encryption is unsupported") else
  if h_l1Size h =? 0 then Some (EMsg "qcow2: empty l1 table") else
  if (h_l1TableOffset h =? 0) || (h_refcountTableOffset h =? 0)
  then Some (EMsg "qcow2: missing metadata table") else
  if h_refcountTableClusters h =? 0 then Some (EMsg "qcow2: missing refcount table") else
  if negb (h_nbSnapshots h =? 0) || negb (h_snapshotsOffset h =? 0)
  then Some (EMsg "qcow2: internal snapshots are unsupported") else
  if has_bits (h_incompatibleFeatures h) qcow2IncompatibleDirty
  then Some (EMsg "qcow2: dirty images are unsupported") else
  if has_bits (h_incompatibleFeatures h) qcow2IncompatibleCorrupt
  then Some (EMsg "qcow2: corrupt images are unsupported") else
  if has_bits (h_incompatibleFeatures h) qcow2IncompatibleExternal
  then Some (EMsg "qcow2: external data files are unsupported") else
  if has_bits (h_incompatibleFeatures h) qcow2IncompatibleCompression
  then Some (EMsg "qcow2: non-default compression is unsupported") else
  if has_bits (h_incompatibleFeatures h) qcow2IncompatibleExtendedL2
  then Some (EMsg "qcow2: extended l2 entries are unsupported") else
  if negb (h_incompatibleFeatures h &^ knownIncompatible =? 0)
  then Some (EMsg "qcow2: unknown incompatible features") else
  if negb (h_autoclearFeatures h =? 0)
  then Some (EMsg "qcow2: autoclear features are unsupported") else
  if negb (h_refcountOrder h =? qcow2RefcountOrder16)
  then Some (EMsg "qcow2: unsupported refcount_order") else
  if (h_version h =? qcow2Version3) &&
     ((h_headerLength h <? qcow2HeaderV3Len) || negb (h_headerLength h mod 8 =? 0))
  then Some (EMsg "qcow2: invalid header_length") else
  let clusterSize := clusterSizeOf h in
  if negb (h_l1TableOffset h mod clusterSize =? 0) ||
     negb (h_refcountTableOffset h mod clusterSize =? 0)
  then Some (EMsg "qcow2: unaligned metadata table") else
  validateHeaderGeometry h.

(** The feature-name table: entries of 48 bytes with a type and a bit number. *)
Fixpoint validateFeatureNames (fuel : nat) (data : list Z) (offset : Z) : result unit :=
  match fuel with
  | O => OutOfFuel
  | S fuel' =>
      if offset <? zlen data then
        if (2 <? zget data offset) || (63 <? zget data (offset + 1))
        then Err (EMsg "qcow2: invalid feature name table entry")
        else validateFeatureNames fuel' data (offset + qcow2FeatureNameEntrySize)
      else Ok tt
  end.

Definition validateHeaderExtension (kind : Z) (data : list Z) : result unit :=
  if kind =? qcow2ExtensionBackingFormat then
    Err (EMsg "qcow2: backing format extension is unsupported without a backing file")
  else if kind =? qcow2ExtensionFeatureNames then
    if negb (zlen data mod qcow2FeatureNameEntrySize =? 0)
    then Err (EMsg "qcow2: invalid feature name table length")
    else validateFeatureNames (S (length data)) data 0
  else if kind =? qcow2ExtensionBitmaps then
    Err (EMsg "qcow2: bitmap extensions are unsupported")
  else if kind =? qcow2ExtensionEncryption then
    Err (EMsg "qcow2: encryption extension requires unsupported encryption method")
  else if kind =? qcow2ExtensionExternalData then
    Err (EMsg "qcow2: external data extension requires unsupported external data feature")
  else Ok tt.

(** One pass over the extension area.  Every iteration that continues consumes
    at least eight bytes, so the length of the area bounds the iterations. *)
Fixpoint headerExtensions (fuel : nat) (seen : gset Z) (area : list Z) : result unit :=
  match fuel with
  | O => OutOfFuel
  | S fuel' =>
      if zlen area =? 0 then Ok tt else
      if zlen area <? 8 then Err (EMsg "qcow2: truncated header extension") else
      let kind := be_uint32 area 0 in
      let length := be_uint32 area 4 in
      if kind =? 0 then
        if negb (length =? 0) then Err (EMsg "qcow2: invalid header extension terminator") else Ok tt
      else if bool_decide (kind ∈ seen) then Err (EMsg "qcow2: duplicate header extension") else
      let padded := alignUp length 8 in
      if zlen area - 8 <? padded then Err (EMsg "qcow2: header extension exceeds first cluster") else
      match validateHeaderExtension kind (zslice area 8 length) with
      | Ok _ => headerExtensions fuel' ({[kind]} ∪ seen) (drop (Z.to_nat (8 + padded)) area)
      | r => r
      end
  end.

Definition validateHeaderExtensions (area : list Z) : result unit :=
  headerExtensions (S (length area)) ∅ area.

(** The checks on the header cluster that follow [validateHeader]. *)
Definition validateHeaderClusterBytes (h : qcow2Header) (cluster : list Z) : result unit :=
  if (h_version h =? qcow2Version3) && (qcow2HeaderV3Len <? h_headerLength h) then
    if negb (zget cluster 104 =? 0) then
      Err (EMsg "qcow2: compression type requires unsupported incompatible feature")
    else if existsb (fun v => negb (v =? 0)) (zslice cluster 105 7) then
      Err (EMsg "qcow2: nonzero header padding")
    else validateHeaderExtensions (drop (Z.to_nat (h_headerLength h)) cluster)
  else validateHeaderExtensions (drop (Z.to_nat (h_headerLength h)) cluster).
