(* ===== verification/QcowHeaderOk.v ===== *)
(** Header validation: the loops over the extension area end, and an accepted
    header describes a geometry the driver can use without overflow. *)

From S2P Require Import Prelude Bytes OsFile QcowHeader.

(** ** Termination of the extension loops *)

Lemma validateFeatureNames_returns fuel : forall data off,
  0 <= off -> zlen data - off < Z.of_nat fuel -> fuel <> O -> returns (validateFeatureNames fuel data off).
Proof.
  induction fuel as [|fuel IH]; intros data off Ho Hf Hn; [done|]. cbn [validateFeatureNames].
  destruct (off <? zlen data) eqn:E; zbool; [|done]. destruct (_ || _); [done|].
  unfold qcow2FeatureNameEntrySize. apply IH; lia.
Qed.

Lemma validateHeaderExtension_returns kind data : returns (validateHeaderExtension kind data).
Proof.
  unfold validateHeaderExtension. repeat (destruct (_ =? _); try done).
  destruct (negb _); [done|]. apply validateFeatureNames_returns; unfold zlen; lia.
Qed.

Lemma be_uint32_range b o : bytes_ok b -> 0 <= be_uint32 b o < 2 ^ 32.
Proof.
  intros H. unfold be_uint32. pose proof (be_val_range (zslice b o 4) (bytes_ok_slice _ _ _ H)).
  assert (zlen (zslice b o 4) <= 4) by (unfold zlen, zslice; rewrite length_take; lia).
  pose proof (zlen_nonneg (zslice b o 4)).
  assert (256 ^ zlen (zslice b o 4) <= 256 ^ 4) by (apply Z.pow_le_mono_r; lia). lia.
Qed.

Lemma alignUp8_ge n : 0 <= n < 2 ^ 32 -> n <= alignUp n 8.
Proof.
  intros Hn. unfold alignUp. pose proof (Z.mod_pos_bound n 8 ltac:(lia)).
  destruct (_ =? 0) eqn:?; zbool; [lia|]. rewrite u64_small by lia. lia.
Qed.

Lemma headerExtensions_returns fuel : forall seen area,
  bytes_ok area -> (length area < fuel)%nat -> returns (headerExtensions fuel seen area).
Proof.
  induction fuel as [|fuel IH]; intros seen area Hb Hf; [lia|]. cbn [headerExtensions].
  destruct (zlen area =? 0) eqn:E0; [done|]. destruct (zlen area <? 8) eqn:E8; [done|]. zbool.
  destruct (_ =? 0); [by destruct (negb _)|]. destruct (bool_decide _); [done|].
  destruct (_ <? _) eqn:Ep; [done|]. zbool.
  pose proof (validateHeaderExtension_returns (be_uint32 area 0) (zslice area 8 (be_uint32 area 4))) as Hr.
  destruct (validateHeaderExtension _ _); try done. apply IH; [by apply Forall_drop|].
  pose proof (be_uint32_range area 4 Hb). pose proof (alignUp8_ge (be_uint32 area 4) ltac:(lia)).
  rewrite length_drop. unfold zlen in *. lia.
Qed.

Lemma validateHeaderClusterBytes_returns h b : bytes_ok b -> returns (validateHeaderClusterBytes h b).
Proof.
  intros Hb. unfold validateHeaderClusterBytes, validateHeaderExtensions.
  assert (Hr : returns (headerExtensions (S (length (drop (Z.to_nat (h_headerLength h)) b))) ∅
                          (drop (Z.to_nat (h_headerLength h)) b))).
  { apply headerExtensions_returns; [by apply Forall_drop|lia]. }
  destruct (_ && _); [|done]. destruct (negb _); [done|]. by destruct (existsb _ _).
Qed.

(** ** Accepted geometries *)

Record header_ranges (h : qcow2Header) : Prop := {
  hr_size : is_u64 (h_size h);
  hr_l1Size : is_u32 (h_l1Size h);
  hr_l1Off : is_u64 (h_l1TableOffset h);
  hr_rtOff : is_u64 (h_refcountTableOffset h);
  hr_rtClusters : is_u32 (h_refcountTableClusters h)
}.

Record header_geometry (h : qcow2Header) : Prop := {
  hg_bits : 9 <= h_clusterBits h <= 21;
  hg_cs : clusterSizeOf h = 2 ^ h_clusterBits h;
  hg_size : 0 <= h_size h <= maxInt64;
  hg_l1 : 0 < h_l1Size h /\ h_l1Size h * 8 <= qcow2MaxL1Bytes;
  hg_rt : 0 < h_refcountTableClusters h /\
          h_refcountTableClusters h * clusterSizeOf h <= qcow2MaxRefcountTableBytes;
  hg_l1off : 0 < h_l1TableOffset h /\ h_l1TableOffset h + h_l1Size h * 8 <= maxInt64 /\
             h_l1TableOffset h mod clusterSizeOf h = 0;
  hg_rtoff : 0 < h_refcountTableOffset h /\
             h_refcountTableOffset h + h_refcountTableClusters h * clusterSizeOf h <= maxInt64 /\
             h_refcountTableOffset h mod clusterSizeOf h = 0;
  hg_cover : h_size h <= h_l1Size h * (clusterSizeOf h / 8 * clusterSizeOf h)
}.

Ltac vstep H :=
  match type of H with
  | (if ?c then Some _ else _) = None => let E := fresh "E" in destruct c eqn:E; [discriminate H|]
  end.

Lemma clusterSizeOf_pow h : 9 <= h_clusterBits h <= 21 ->
  clusterSizeOf h = 2 ^ h_clusterBits h /\ 512 <= clusterSizeOf h <= 2 ^ 21.
Proof.
  intros Hb. unfold clusterSizeOf. rewrite Z.shiftl_1_l.
  assert (2 ^ 9 <= 2 ^ h_clusterBits h <= 2 ^ 21) by (split; apply Z.pow_le_mono_r; lia).
  rewrite u64_small by lia. split; [done|lia].
Qed.

(** The virtual disk fits the tables below the L1 table. *)
Lemma required_cover size l1 cov : 0 < cov -> 0 <= size <= maxInt64 -> 512 * 8 <= cov ->
  (if size mod cov =? 0 then size / cov else u64 (size / cov + 1)) <= l1 -> size <= l1 * cov.
Proof.
  intros Hc Hs Hcov H. pose proof (Z.div_mod size cov ltac:(lia)). pose proof (Z.mod_pos_bound size cov Hc).
  assert (0 <= size / cov < 2 ^ 63).
  { unfold maxInt64 in Hs. split; [apply Z.div_pos; lia|]. apply Z.div_lt_upper_bound; lia. }
  destruct (_ =? 0) eqn:E; zbool; [nia|]. rewrite u64_small in H by lia. nia.
Qed.

(** The tests of [validateHeader] that the geometry depends on. *)
Lemma validateHeader_tests h : validateHeader h = None ->
  (h_clusterBits h <? 9) || (21 <? h_clusterBits h) = false /\ (maxInt64 <? h_size h) = false /\
  (h_l1Size h =? 0) = false /\ (h_l1TableOffset h =? 0) || (h_refcountTableOffset h =? 0) = false /\
  (h_refcountTableClusters h =? 0) = false /\
  negb (h_l1TableOffset h mod clusterSizeOf h =? 0) ||
    negb (h_refcountTableOffset h mod clusterSizeOf h =? 0) = false /\
  validateHeaderGeometry h = None.
Proof. intros H. unfold validateHeader in H. cbv zeta in H. repeat vstep H. by splits. Qed.

Lemma validateHeaderGeometry_tests h : 512 <= clusterSizeOf h <= 2 ^ 21 -> header_ranges h ->
  validateHeaderGeometry h = None ->
  h_l1Size h * 8 <= qcow2MaxL1Bytes /\
  h_refcountTableClusters h * clusterSizeOf h <= qcow2MaxRefcountTableBytes /\
  h_l1TableOffset h + h_l1Size h * 8 <= maxInt64 /\
  h_refcountTableOffset h + h_refcountTableClusters h * clusterSizeOf h <= maxInt64 /\
  (if h_size h mod (clusterSizeOf h * (clusterSizeOf h / 8)) =? 0
   then h_size h / (clusterSizeOf h * (clusterSizeOf h / 8))
   else u64 (h_size h / (clusterSizeOf h * (clusterSizeOf h / 8)) + 1)) <= h_l1Size h.
Proof.
  intros Hc [Hs Hl1 Hlo Hro Hrc] H. unfold is_u32, is_u64 in *. unfold validateHeaderGeometry in H. cbv zeta in H.
  assert (Hc8 : 64 <= clusterSizeOf h / 8 <= 2 ^ 18)
    by (split; [apply Z.div_le_lower_bound; lia|apply Z.div_le_upper_bound; lia]).
  set (cov := clusterSizeOf h * (clusterSizeOf h / 8)) in *.
  assert (Hcov : u64 cov = cov) by (apply u64_small; unfold cov; nia).
  set (rtb := h_refcountTableClusters h * clusterSizeOf h) in *.
  assert (Hrtb : 0 <= rtb < 2 ^ 54) by (unfold rtb; nia). rewrite Hcov in H. clear Hcov.
  rewrite (u64_small (h_l1Size h * 8)), (u64_small rtb) in H by lia. clearbody rtb cov.
  destruct (clusterSizeOf h <? h_headerLength h); [done|].
  destruct (qcow2MaxL1Bytes <? h_l1Size h * 8) eqn:E1; [done|].
  destruct (qcow2MaxRefcountTableBytes <? rtb) eqn:E2; [done|].
  unfold qcow2MaxL1Bytes, qcow2MaxRefcountTableBytes, maxInt64 in *. zbool.
  rewrite !u64_small in H by lia. destruct (_ || _) eqn:E3; [done|].
  destruct (_ <? _) eqn:E4 in H; [done|]. zbool. splits; lia || done.
Qed.

Lemma validateHeader_geometry h : header_ranges h -> validateHeader h = None -> header_geometry h.
Proof.
  intros Hr (H1 & H2 & H3 & H4 & H5 & H6 & H)%validateHeader_tests. pose proof Hr as [Hs Hl1 Hlo Hro Hrc].
  zbool. unfold is_u32, is_u64 in *.
  assert (Hb : 9 <= h_clusterBits h <= 21) by lia. destruct (clusterSizeOf_pow h Hb) as [Hcs Hc].
  destruct (validateHeaderGeometry_tests h Hc Hr H) as (G1 & G2 & G3 & G4 & G5).
  constructor; try done; try lia.
  rewrite (Z.mul_comm (clusterSizeOf h / 8)).
  assert (Hc8 : 64 <= clusterSizeOf h / 8) by (apply Z.div_le_lower_bound; lia).
  apply required_cover; [nia|lia|nia|done].
Qed.
