(* ===== verification/QcowImage.v ===== *)
(** The QCOW2 driver (src/internal/disk/qcow2.go, qcow2_write.go): its state and
    one definition per method.

    The methods run under the image mutex, so each is a function on the state.
    [QM] threads that state through calls and keeps it across error returns, as
    the Go code does.  [file] carries the host's fault schedule (OsFile). *)

From S2P Require Import Prelude Bytes OsFile QcowHeader.

Definition qcow2RefcountCacheBytes : Z := 4 * 1024 * 1024.
Definition qcow2OFlagZero : Z := 1.
Definition qcow2OFlagCompressed : Z := 2 ^ 62.
Definition qcow2OFlagCopied : Z := 2 ^ 63.
Definition qcow2OffsetMask : Z := 0x00fffffffffffe00.
Definition qcow2RefcountOffsetMask : Z := 0xfffffffffffffe00.
Definition qcow2ReservedL2Mask : Z := 0x3f000000000001fe.

(** A cached refcount block; [rb_data = None] is the nil slice left behind by
    an invalidation. *)
Record qcow2RefcountBlock : Type := mkBlock {
  rb_offset : Z;
  rb_data : option (list Z)
}.

Record qcow2Image : Type := mkImage {
  file : osFile;
  q_version : Z;
  writeFault : option error;
  q_size : Z;
  clusterSize : Z;
  q_l1TableOffset : Z;
  l1 : list Z;
  q_refcountTableOffset : Z;
  refcountTable : list Z;
  refcountBlockEntries : Z;
  refcountCache : gmap Z Z;
  refcountBlocks : list qcow2RefcountBlock;
  refcountCacheNext : Z;
  l2Entries : Z;
  l2Cache : gmap Z (list Z)
}.

Abbreviation QM := (M qcow2Image).

(** Field assignments. *)
Definition set_file (f : osFile) (q : qcow2Image) : qcow2Image :=
  mkImage f (q_version q) (writeFault q) (q_size q) (clusterSize q) (q_l1TableOffset q) (l1 q)
    (q_refcountTableOffset q) (refcountTable q) (refcountBlockEntries q) (refcountCache q)
    (refcountBlocks q) (refcountCacheNext q) (l2Entries q) (l2Cache q).

Definition set_writeFault (e : option error) (q : qcow2Image) : qcow2Image :=
  mkImage (file q) (q_version q) e (q_size q) (clusterSize q) (q_l1TableOffset q) (l1 q)
    (q_refcountTableOffset q) (refcountTable q) (refcountBlockEntries q) (refcountCache q)
    (refcountBlocks q) (refcountCacheNext q) (l2Entries q) (l2Cache q).

Definition set_l1 (t : list Z) (q : qcow2Image) : qcow2Image :=
  mkImage (file q) (q_version q) (writeFault q) (q_size q) (clusterSize q) (q_l1TableOffset q) t
    (q_refcountTableOffset q) (refcountTable q) (refcountBlockEntries q) (refcountCache q)
    (refcountBlocks q) (refcountCacheNext q) (l2Entries q) (l2Cache q).

Definition set_refcountTable (t : list Z) (q : qcow2Image) : qcow2Image :=
  mkImage (file q) (q_version q) (writeFault q) (q_size q) (clusterSize q) (q_l1TableOffset q) (l1 q)
    (q_refcountTableOffset q) t (refcountBlockEntries q) (refcountCache q)
    (refcountBlocks q) (refcountCacheNext q) (l2Entries q) (l2Cache q).

Definition set_refcounts (c : gmap Z Z) (b : list qcow2RefcountBlock) (n : Z)
    (q : qcow2Image) : qcow2Image :=
  mkImage (file q) (q_version q) (writeFault q) (q_size q) (clusterSize q) (q_l1TableOffset q) (l1 q)
    (q_refcountTableOffset q) (refcountTable q) (refcountBlockEntries q) c b n
    (l2Entries q) (l2Cache q).

Definition set_l2Cache (c : gmap Z (list Z)) (q : qcow2Image) : qcow2Image :=
  mkImage (file q) (q_version q) (writeFault q) (q_size q) (clusterSize q) (q_l1TableOffset q) (l1 q)
    (q_refcountTableOffset q) (refcountTable q) (refcountBlockEntries q) (refcountCache q)
    (refcountBlocks q) (refcountCacheNext q) (l2Entries q) c.

(** ** File calls lifted to the image *)

Definition fileStat : QM Z := fun q =>
  let '(r, f) := f_stat (file q) in (r, set_file f q).

(** A read that fails with any error, short reads included, reports the error. *)
Definition fileReadAt (buf : list Z) (off : Z) : QM (list Z * option error) := fun q =>
  let '(b, n, err, f) := f_readAt (file q) buf off in (Ok (b, err), set_file f q).

Definition fileRead (n off : Z) : QM (list Z) :=
  let! (b, err) := fileReadAt (zeros n) off in
  match err with
  | Some e => throw e
  | None => ret b
  end.

Definition fileWriteAt (b : list Z) (off : Z) : QM (Z * option error) := fun q =>
  let '(n, err, f) := f_writeAt (file q) b off in (Ok (n, err), set_file f q).

Definition fileTruncate (n : Z) : QM unit := fun q =>
  let '(r, f) := f_truncate (file q) n in (r, set_file f q).

(** ** Pure helpers *)

Definition clusterOffset (entry : Z) : Z := entry &&& qcow2OffsetMask.

Definition minUint64 (a b : Z) : Z := if a <? b then a else b.

Definition checkedInt (v : Z) : result Z :=
  if maxInt64 <? v then Err (EMsg "qcow2: value is too large") else Ok v.

Definition lift {A} (r : result A) : QM A := fun q => (r, q).

Definition qcow2FileRange (fileSize offset length : Z) (kind : string) : result unit :=
  if (fileSize <? offset) || (fileSize - offset <? length)
  then Err (EWrap kind (EMsg "exceeds image file bounds")) else Ok tt.

(** [for i := range table { table[i] = binary.BigEndian.Uint64(buf[i*8:(i+1)*8]) }] *)
Definition decodeTable (buf : list Z) (entries : Z) : list Z :=
  (fun i => be_uint64 buf (i * 8)) <$> seqZ 0 entries.

Definition readUint64Table (off entries : Z) : QM (list Z) :=
  check! ((entries <? 0) || (qcow2MaxL1Bytes / 8 <? entries))
  else EMsg "qcow2: table is too large" in
  let! fsize := fileStat in
  do! lift (qcow2FileRange fsize off (entries * 8) "metadata table") in
  let! buf := fileRead (entries * 8) (i64 off) in
  ret (decodeTable buf entries).

Definition validateL2Entry (entry : Z) (q : qcow2Image) : option error :=
  if (q_version q =? qcow2Version2) && has_bits entry qcow2OFlagZero then
    Some (EMsg "qcow2: zero cluster flag is invalid in version 2")
  else if (clusterOffset entry =? 0) && has_bits entry qcow2OFlagCopied then
    Some (EMsg "qcow2: copied cluster has no host offset")
  else if has_bits entry qcow2OFlagCompressed then
    Some (EMsg "qcow2: compressed clusters are unsupported")
  else if has_bits entry qcow2ReservedL2Mask then
    Some (EMsg "qcow2: reserved l2 bits set")
  else None.

Definition checkL2Entry (entry : Z) : QM unit := fun q =>
  match validateL2Entry entry q with
  | Some e => (Err e, q)
  | None => (Ok tt, q)
  end.

(** ** Metadata writes *)

Definition disableWrites {A} (err : error) : QM A := fun q =>
  let f := EWrap "qcow2: metadata recovery failed; further writes disabled" err in
  (Err f, set_writeFault (Some f) q).

Definition writeMetadata (data : list Z) (offset : Z) : QM unit :=
  let! (n, err) := fileWriteAt data (i64 offset) in
  match err with
  | None => if n =? zlen data then ret tt else throw EShortWrite
  | Some e => throw e
  end.

Definition writeMetadataEntry (offset previous next : Z) : QM unit :=
  let! r := gtry (writeMetadata (be_bytes 8 next) offset) in
  match r with
  | inl _ => ret tt
  | inr err =>
      let! r' := gtry (writeMetadata (be_bytes 8 previous) offset) in
      match r' with
      | inr restoreErr => disableWrites (EJoin err restoreErr)
      | inl _ => throw err
      end
  end.

(** ** Refcounts *)

(** [(refBlockOff, blockIndex, ok)]. *)
Definition refcountLocation (clusterOff : Z) : QM (Z * Z * bool) := fun q =>
  if negb (clusterOff mod clusterSize q =? 0) then (Err (EMsg "qcow2: unaligned cluster"), q) else
  let clusterIndex := clusterOff / clusterSize q in
  let tableIndex := clusterIndex / refcountBlockEntries q in
  let blockIndex := clusterIndex mod refcountBlockEntries q in
  match zlookup (refcountTable q) tableIndex with
  | None => (Err (EMsg "qcow2: refcount table is too small"), q)
  | Some entry =>
      if entry =? 0 then (Ok (0, blockIndex, false), q) else
      let refBlockOff := entry &&& qcow2RefcountOffsetMask in
      if negb (refBlockOff mod clusterSize q =? 0)
      then (Err (EMsg "qcow2: unaligned refcount block"), q)
      else (Ok (refBlockOff, blockIndex, true), q)
  end.

Definition cacheRefcountBlock (offset : Z) (block : list Z) : QM unit :=
  let! q := gget in
  match refcountCache q !! offset with
  | Some index =>
      let! old := gindex (refcountBlocks q) index in
      gupd (set_refcounts (refcountCache q)
              (zinsert index (mkBlock (rb_offset old) (Some block)) (refcountBlocks q))
              (refcountCacheNext q))
  | None =>
      let limit := qcow2RefcountCacheBytes / clusterSize q in
      let index := zlen (refcountBlocks q) in
      let entry := mkBlock offset (Some block) in
      if index <? limit then
        gupd (set_refcounts (<[offset := index]> (refcountCache q))
                (refcountBlocks q ++ [entry]) (refcountCacheNext q))
      else
        let index := refcountCacheNext q in
        let! old := gindex (refcountBlocks q) index in
        let cache := match rb_data old with
                     | Some _ => delete (rb_offset old) (refcountCache q)
                     | None => refcountCache q
                     end in
        gupd (set_refcounts (<[offset := index]> cache)
                (zinsert index entry (refcountBlocks q)) ((index + 1) mod limit))
  end.

Definition invalidateRefcountBlock (offset : Z) : QM unit :=
  let! q := gget in
  match refcountCache q !! offset with
  | Some index =>
      let! old := gindex (refcountBlocks q) index in
      gupd (set_refcounts (delete offset (refcountCache q))
              (zinsert index (mkBlock (rb_offset old) None) (refcountBlocks q))
              (refcountCacheNext q))
  | None => ret tt
  end.

(** [binary.BigEndian.Uint16(data[i:])] of a slice that may be nil or short. *)
Definition blockUint16 (data : option (list Z)) (i : Z) : QM Z :=
  match data with
  | Some d => if (i <? 0) || (zlen d <? i + 2) then panic else ret (be_uint16 d i)
  | None => panic
  end.

Definition refcount (clusterOff : Z) : QM Z :=
  let! (refBlockOff, blockIndex, ok) := refcountLocation clusterOff in
  if negb ok then ret 0 else
  let! q := gget in
  match refcountCache q !! refBlockOff with
  | Some index =>
      let! b := gindex (refcountBlocks q) index in
      blockUint16 (rb_data b) (blockIndex * 2)
  | None =>
      let! block := fileRead (clusterSize q) (i64 refBlockOff) in
      do! cacheRefcountBlock refBlockOff block in
      blockUint16 (Some block) (blockIndex * 2)
  end.

Definition setRefcount (clusterOff rc : Z) : QM unit :=
  let! (refBlockOff, blockIndex, ok) := refcountLocation clusterOff in
  if negb ok then throw (EMsg "qcow2: missing refcount block") else
  let! r := gtry (writeMetadata (be_bytes 2 rc) (u64 (refBlockOff + blockIndex * 2))) in
  match r with
  | inr err => do! invalidateRefcountBlock refBlockOff in throw err
  | inl _ =>
      let! q := gget in
      match refcountCache q !! refBlockOff with
      | Some index =>
          let! b := gindex (refcountBlocks q) index in
          match rb_data b with
          | Some d =>
              if zlen d <? blockIndex * 2 + 2 then panic else
              gupd (set_refcounts (refcountCache q)
                      (zinsert index (mkBlock (rb_offset b)
                          (Some (zwrite d (blockIndex * 2) (be_bytes 2 rc)))) (refcountBlocks q))
                      (refcountCacheNext q))
          | None => panic
          end
      | None => ret tt
      end
  end.

(** ** Allocation *)

(** At most one block boundary can be crossed before a block with room for the
    data cluster is reached; three iterations always suffice. *)
Fixpoint appendCapacity (fuel : nat) (offset : Z) : QM unit :=
  match fuel with
  | O => fun q => (OutOfFuel, q)
  | S fuel' =>
      let! q := gget in
      check! (maxInt64 - clusterSize q <? offset) else EMsg "qcow2: host image is too large" in
      let! (_, _, exists_) := refcountLocation offset in
      if exists_ then ret tt else
      check! (maxInt64 - 2 * clusterSize q <? offset) else EMsg "qcow2: host image is too large" in
      let next := u64 (offset + clusterSize q) in
      if next / clusterSize q / refcountBlockEntries q =?
         offset / clusterSize q / refcountBlockEntries q
      then ret tt
      else appendCapacity fuel' next
  end.

Definition validateAppendCapacity (offset : Z) : QM unit := appendCapacity 3 offset.

Definition appendRefcountBlock (offset oldSize : Z) : QM unit :=
  let! q := gget in
  let clusterIndex := offset / clusterSize q in
  let tableIndex := clusterIndex / refcountBlockEntries q in
  let blockIndex := clusterIndex mod refcountBlockEntries q in
  let block := zwrite (zeros (clusterSize q)) (blockIndex * 2) (be_bytes 2 1) in
  let! r := gtry (writeMetadata block offset) in
  match r with
  | inr err =>
      let writeErr := EWrap "qcow2: append refcount block" err in
      let! t := gtry (fileTruncate oldSize) in
      match t with
      | inr truncateErr => disableWrites (EJoin writeErr truncateErr)
      | inl _ => throw writeErr
      end
  | inl _ =>
      let tableOffset := u64 (q_refcountTableOffset q + tableIndex * 8) in
      let! r' := gtry (writeMetadataEntry tableOffset 0 offset) in
      match r' with
      | inr err =>
          let! q' := gget in
          match writeFault q' with
          | Some _ => throw err
          | None =>
              let! t := gtry (fileTruncate oldSize) in
              match t with
              | inr truncateErr => disableWrites (EJoin err truncateErr)
              | inl _ => throw err
              end
          end
      | inl _ =>
          do! gindex (refcountTable q) tableIndex in
          do! gupd (fun s => set_refcountTable (zinsert tableIndex offset (refcountTable s)) s) in
          cacheRefcountBlock offset block
      end
  end.

(** The loop that appends missing refcount blocks; returns the offset of the
    data cluster and the size to truncate to if it cannot be used. *)
Fixpoint appendRefcountBlocks (fuel : nat) (offset oldSize : Z) : QM (Z * Z) :=
  match fuel with
  | O => fun q => (OutOfFuel, q)
  | S fuel' =>
      let! (_, _, exists_) := refcountLocation offset in
      if exists_ then ret (offset, oldSize) else
      do! appendRefcountBlock offset oldSize in
      let! q := gget in
      let offset' := u64 (offset + clusterSize q) in
      appendRefcountBlocks fuel' offset' (i64 offset')
  end.

Definition allocateCluster : QM Z :=
  let! oldSize := fileStat in
  check! (oldSize <? 0) else EMsg "qcow2: invalid file size" in
  let! q := gget in
  let offset := alignUp oldSize (clusterSize q) in
  do! validateAppendCapacity offset in
  let! (offset, oldSize) := appendRefcountBlocks 3 offset oldSize in
  do! fileTruncate (i64 (u64 (offset + clusterSize q))) in
  let! r := gtry (setRefcount offset 1) in
  match r with
  | inl _ => ret offset
  | inr err =>
      let! r' := gtry (setRefcount offset 0) in
      match r' with
      | inr restoreErr => disableWrites (EJoin err restoreErr)
      | inl _ =>
          let! t := gtry (fileTruncate oldSize) in
          match t with
          | inr truncateErr => disableWrites (EJoin err truncateErr)
          | inl _ => throw err
          end
      end
  end.

Definition rollbackNewCluster {A} (offset : Z) (writeErr : error) : QM A :=
  let! q := gget in
  match writeFault q with
  | Some _ => throw writeErr
  | None =>
      let! r := gtry (setRefcount offset 0) in
      match r with
      | inr err => disableWrites (EJoin writeErr err)
      | inl _ =>
          let! t := gtry (fileTruncate (i64 offset)) in
          match t with
          | inr err => disableWrites (EJoin writeErr err)
          | inl _ => throw writeErr
          end
      end
  end.

(** ** Tables *)

Definition tableIndexes (guestOff : Z) : QM (Z * Z) := fun q =>
  let guestCluster := guestOff / clusterSize q in
  let l1Index := guestCluster / l2Entries q in
  let l2Index := guestCluster mod l2Entries q in
  if zlen (l1 q) <=? l1Index then (Err (EMsg "qcow2: l1 table is too small"), q)
  else (Ok (l1Index, l2Index), q).

Definition loadL2 (l1Index : Z) : QM (list Z) :=
  let! q := gget in
  match l2Cache q !! l1Index with
  | Some l2 => ret l2
  | None =>
      let! entry := gindex (l1 q) l1Index in
      let l2Off := clusterOffset entry in
      check! (l2Off =? 0) else EMsg "qcow2: missing l2 table" in
      check! (negb (l2Off mod clusterSize q =? 0)) else EMsg "qcow2: unaligned l2 table" in
      let! l2Len := lift (checkedInt (l2Entries q)) in
      let! r := gtry (readUint64Table l2Off l2Len) in
      match r with
      | inr err => throw (EWrap "qcow2: read l2 table" err)
      | inl l2 =>
          do! gupd (fun s => set_l2Cache (<[l1Index := l2]> (l2Cache s)) s) in
          ret l2
      end
  end.

Definition updateL1Entry (l1Index entry : Z) : QM unit :=
  let! q := gget in
  let! previous := gindex (l1 q) l1Index in
  do! writeMetadataEntry (u64 (q_l1TableOffset q + l1Index * 8)) previous entry in
  gupd (fun s => set_l1 (zinsert l1Index entry (l1 s)) s).

Definition updateL2Entry (l1Index l2Index entry : Z) : QM unit :=
  let! l2 := loadL2 l1Index in
  let! q := gget in
  let! l1Entry := gindex (l1 q) l1Index in
  let l2Off := clusterOffset l1Entry in
  check! (l2Off =? 0) else EMsg "qcow2: cannot update an unpublished l2 table" in
  let! previous := gindex l2 l2Index in
  do! writeMetadataEntry (u64 (l2Off + l2Index * 8)) previous entry in
  gupd (fun s => set_l2Cache (<[l1Index := zinsert l2Index entry l2]> (l2Cache s)) s).

Definition ensureL2Table (l1Index : Z) : QM (list Z) :=
  let! q := gget in
  match l2Cache q !! l1Index with
  | Some l2 => ret l2
  | None =>
      check! (zlen (l1 q) <=? l1Index) else EMsg "qcow2: l1 table is too small" in
      let! entry := gindex (l1 q) l1Index in
      if negb (entry =? 0) then
        let l2Off := clusterOffset entry in
        check! (l2Off =? 0) else EMsg "qcow2: invalid l1 entry" in
        let! rc := refcount l2Off in
        check! (negb (rc =? 1)) else EMsg "qcow2: l2 copy-on-write refcount is unsupported" in
        loadL2 l1Index
      else
        let! l2Len := lift (checkedInt (l2Entries q)) in
        let! l2Off := allocateCluster in
        let l2 := zeros l2Len in
        let! r := gtry (updateL1Entry l1Index (l2Off ||| qcow2OFlagCopied)) in
        match r with
        | inr err => rollbackNewCluster l2Off err
        | inl _ =>
            do! gupd (fun s => set_l2Cache (<[l1Index := l2]> (l2Cache s)) s) in
            ret l2
        end
  end.

Definition zeroCluster (clusterOff : Z) : QM unit :=
  let! q := gget in
  let! zeroLen := lift (checkedInt (clusterSize q)) in
  let! (_, err) := fileWriteAt (zeros zeroLen) (i64 clusterOff) in
  match err with
  | Some e => throw e
  | None => ret tt
  end.

Definition prepareMappedCluster (l1Index l2Index entry clusterOff : Z) : QM unit :=
  let! rc := refcount clusterOff in
  check! (negb (rc =? 1)) else EMsg "qcow2: copy-on-write refcount is unsupported" in
  if negb (has_bits entry qcow2OFlagZero) then ret tt else
  do! zeroCluster clusterOff in
  updateL2Entry l1Index l2Index (clusterOff ||| qcow2OFlagCopied).

Definition ensureWritableCluster (guestOff : Z) : QM Z :=
  let! (l1Index, l2Index) := tableIndexes guestOff in
  let! l2 := ensureL2Table l1Index in
  let! entry := gindex l2 l2Index in
  do! checkL2Entry entry in
  let! q := gget in
  let inCluster := guestOff &&& (clusterSize q - 1) in
  let clusterOff := clusterOffset entry in
  if negb (entry =? 0) && negb (clusterOff =? 0) then
    do! prepareMappedCluster l1Index l2Index entry clusterOff in
    ret (u64 (clusterOff + inCluster))
  else
    let! clusterOff := allocateCluster in
    let! r := gtry (updateL2Entry l1Index l2Index (clusterOff ||| qcow2OFlagCopied)) in
    match r with
    | inr err => rollbackNewCluster clusterOff err
    | inl _ => ret (u64 (clusterOff + inCluster))
    end.

(** [(l2, l2Index)]; a nil table is [None]. *)
Definition l2Table (guestOff : Z) : QM (option (list Z) * Z) :=
  let! (l1Index, l2Index) := tableIndexes guestOff in
  let! q := gget in
  check! (zlen (l1 q) <=? l1Index) else EMsg "qcow2: l1 table is too small" in
  let! entry := gindex (l1 q) l1Index in
  if clusterOffset entry =? 0 then ret (None, l2Index) else
  let! l2 := loadL2 l1Index in
  ret (Some l2, l2Index).

(** [(hostOff, zero)]. *)
Definition hostOffset (guestOff : Z) : QM (Z * bool) :=
  let! (t, l2Index) := l2Table guestOff in
  match t with
  | None => ret (0, true)
  | Some l2 =>
      let! entry := gindex l2 l2Index in
      if entry =? 0 then ret (0, true) else
      do! checkL2Entry entry in
      if has_bits entry qcow2OFlagZero then ret (0, true) else
      let clusterOff := clusterOffset entry in
      if clusterOff =? 0 then ret (0, true) else
      let! q := gget in
      ret (u64 (clusterOff + (guestOff &&& (clusterSize q - 1))), false)
  end.

(** ** ReadAt and WriteAt

    Both return the count and the error together, as in Go; the loops advance
    by at least one byte per iteration, so the length bounds them. *)

Fixpoint readLoop (fuel : nat) (b : list Z) (off remaining done : Z) : QM (list Z * Z * option error) :=
  match fuel with
  | O => fun q => (OutOfFuel, q)
  | S fuel' =>
      if done <? remaining then
        let! q := gget in
        let guestOff := u64 (off + done) in
        let inCluster := guestOff &&& (clusterSize q - 1) in
        let chunk := minUint64 (remaining - done) (clusterSize q - inCluster) in
        let! r := gtry (hostOffset guestOff) in
        match r with
        | inr err => ret (b, done, Some err)
        | inl (hostOff, zero) =>
            let buf := zslice b done chunk in
            if zero then
              readLoop fuel' (zwrite b done (zeros chunk)) off remaining (done + chunk)
            else
              let! (buf', err) := fileReadAt buf (i64 hostOff) in
              let b' := zwrite b done buf' in
              match err with
              | Some e => ret (b', done, Some e)
              | None => readLoop fuel' b' off remaining (done + chunk)
              end
        end
      else ret (b, done, None)
  end.

Definition ReadAt (b : list Z) (off : Z) : QM (list Z * Z * option error) :=
  let! q := gget in
  if zlen b =? 0 then ret (b, 0, None) else
  if off <? 0 then ret (b, 0, Some (EMsg "qcow2: negative read offset")) else
  if q_size q <=? off then ret (b, 0, Some EEOF) else
  let remaining := if q_size q - off <? zlen b then q_size q - off else zlen b in
  let! (b', done, err) := readLoop (S (length b)) b off remaining 0 in
  match err with
  | Some e => ret (b', done, Some e)
  | None => if done <? zlen b then ret (b', done, Some EEOF) else ret (b', done, None)
  end.

Fixpoint writeLoop (fuel : nat) (b : list Z) (off done : Z) : QM (Z * option error) :=
  match fuel with
  | O => fun q => (OutOfFuel, q)
  | S fuel' =>
      if done <? zlen b then
        let! q := gget in
        let guestOff := u64 (off + done) in
        let inCluster := guestOff &&& (clusterSize q - 1) in
        let chunk := minUint64 (zlen b - done) (clusterSize q - inCluster) in
        let! r := gtry (ensureWritableCluster guestOff) in
        match r with
        | inr err => ret (done, Some err)
        | inl hostOff =>
            let! (_, err) := fileWriteAt (zslice b done chunk) (i64 hostOff) in
            match err with
            | Some e => ret (done, Some e)
            | None => writeLoop fuel' b off (done + chunk)
            end
        end
      else ret (done, None)
  end.

Definition WriteAt (b : list Z) (off : Z) : QM (Z * option error) :=
  let! q := gget in
  if zlen b =? 0 then ret (0, None) else
  match writeFault q with
  | Some e => ret (0, Some e)
  | None =>
      if off <? 0 then ret (0, Some (EMsg "qcow2: negative write offset")) else
      if (q_size q <=? off) || (q_size q - off <? zlen b)
      then ret (0, Some (EMsg "qcow2: write exceeds virtual disk size")) else
      writeLoop (S (length b)) b off 0
  end.

Definition Size (q : qcow2Image) : Z := i64 (q_size q).

Definition Sync : QM unit := fun q =>
  let '(r, f) := f_sync (file q) in
  (match writeFault q, r with
   | Some e, Err e' => Err (EJoin e e')
   | Some e, _ => Err e
   | None, r => r
   end, set_file f q).
