(* ===== verification/QcowLayout.v ===== *)
(** Opening an image (src/internal/disk/image.go, qcow2.go, qcow2_layout.go): the
    header read, the ownership check of every host cluster and the raw/QCOW2
    dispatch. *)

From S2P Require Import Prelude Bytes OsFile QcowHeader QcowImage.

Definition qcow2OwnershipPageClusters : Z := 4096.
Definition qcow2MaxOwnershipPages : Z :=
  64 * 2 ^ 20 / (qcow2OwnershipPageClusters / 8).

(** Pages of 64 words, one bit per host cluster. *)
Abbreviation qcow2ClusterOwners := (gmap Z (list Z)).

Fixpoint claimLoop (fuel : nat) (owners : qcow2ClusterOwners) (cluster last : Z)
    (kind : string) : result qcow2ClusterOwners :=
  match fuel with
  | O => OutOfFuel
  | S fuel' =>
      if cluster <? last then
        let pageIndex := cluster / qcow2OwnershipPageClusters in
        let bit := cluster mod qcow2OwnershipPageClusters in
        let mask := u64 (Z.shiftl 1 (bit mod 64)) in
        match owners !! pageIndex with
        | None =>
            if qcow2MaxOwnershipPages <=? Z.of_nat (size owners)
            then Err (EMsg "qcow2: fragmented image exceeds validation memory limit")
            else
              let page := zinsert (bit / 64) mask (zeros (qcow2OwnershipPageClusters / 64)) in
              claimLoop fuel' (<[pageIndex := page]> owners) (cluster + 1) last kind
        | Some page =>
            if has_bits (zget page (bit / 64)) mask
            then Err (EWrap kind (EMsg "qcow2: overlapping"))
            else
              let page' := zinsert (bit / 64) (zget page (bit / 64) ||| mask) page in
              claimLoop fuel' (<[pageIndex := page']> owners) (cluster + 1) last kind
        end
      else Ok owners
  end.

Definition claim (owners : qcow2ClusterOwners) (offset length cs : Z) (kind : string)
    : result qcow2ClusterOwners :=
  let first := offset / cs in
  let count := u64 (length + cs - 1) / cs in
  claimLoop (S (Z.to_nat count)) owners first (u64 (first + count)) kind.

Fixpoint checkRefcountsLoop (fuel : nat) (cluster last : Z) : QM unit :=
  match fuel with
  | O => fun q => (OutOfFuel, q)
  | S fuel' =>
      if cluster <? last then
        let! q := gget in
        let! rc := refcount cluster in
        check! (negb (rc =? 1)) else EMsg "qcow2: host cluster has refcount, expected 1" in
        checkRefcountsLoop fuel' (u64 (cluster + clusterSize q)) last
      else ret tt
  end.

Definition checkRefcounts (offset length : Z) : QM unit :=
  let! q := gget in
  checkRefcountsLoop (S (Z.to_nat (u64 (length + clusterSize q - 1) / clusterSize q)))
    offset (u64 (offset + length)).

(** The [for _, entry := range table] loops over the two tables. *)
Fixpoint claimRefcountBlocks (table : list Z) (owners : qcow2ClusterOwners) (fileSize cs : Z)
    : result qcow2ClusterOwners :=
  match table with
  | [] => Ok owners
  | entry :: rest =>
      if entry =? 0 then claimRefcountBlocks rest owners fileSize cs else
      if negb (entry &^ qcow2RefcountOffsetMask =? 0) || negb (entry mod cs =? 0)
      then Err (EMsg "qcow2: invalid refcount block offset or reserved bits") else
      match qcow2FileRange fileSize entry cs "refcount block" with
      | Ok _ =>
          match claim owners entry cs cs "refcount block" with
          | Ok owners' => claimRefcountBlocks rest owners' fileSize cs
          | r => r
          end
      | Err e => Err e
      | Panic => Panic
      | OutOfFuel => OutOfFuel
      end
  end.

Fixpoint claimL2Tables (table : list Z) (owners : qcow2ClusterOwners) (fileSize cs : Z)
    : result qcow2ClusterOwners :=
  match table with
  | [] => Ok owners
  | entry :: rest =>
      if entry =? 0 then claimL2Tables rest owners fileSize cs else
      if negb (entry &^ (qcow2OffsetMask ||| qcow2OFlagCopied) =? 0)
      then Err (EMsg "qcow2: reserved l1 bits set") else
      let offset := clusterOffset entry in
      if (offset =? 0) || negb (offset mod cs =? 0)
      then Err (EMsg "qcow2: invalid l2 table offset") else
      match qcow2FileRange fileSize offset cs "l2 table" with
      | Ok _ =>
          match claim owners offset cs cs "l2 table" with
          | Ok owners' => claimL2Tables rest owners' fileSize cs
          | r => r
          end
      | Err e => Err e
      | Panic => Panic
      | OutOfFuel => OutOfFuel
      end
  end.

Fixpoint validateDataMappings (l2 : list Z) (owners : qcow2ClusterOwners) (fileSize : Z)
    : QM qcow2ClusterOwners :=
  match l2 with
  | [] => ret owners
  | entry :: rest =>
      do! checkL2Entry entry in
      let! q := gget in
      let offset := clusterOffset entry in
      if offset =? 0 then validateDataMappings rest owners fileSize else
      check! (negb (offset mod clusterSize q =? 0)) else EMsg "qcow2: unaligned data cluster" in
      do! lift (qcow2FileRange fileSize offset (clusterSize q) "data cluster") in
      let! owners' := lift (claim owners offset (clusterSize q) (clusterSize q) "data cluster") in
      do! checkRefcounts offset (clusterSize q) in
      validateDataMappings rest owners' fileSize
  end.

(** The three fixed metadata regions: offset, length, name. *)
Definition metadataRegions (q : qcow2Image) (h : qcow2Header) : list (Z * Z * string) :=
  [ (0, clusterSize q, "header"%string);
    (q_l1TableOffset q, u64 (h_l1Size h * 8), "l1 table"%string);
    (q_refcountTableOffset q, u64 (h_refcountTableClusters h * clusterSize q),
     "refcount table"%string) ].

Fixpoint claimRegions (regions : list (Z * Z * string)) (owners : qcow2ClusterOwners)
    (fileSize cs : Z) : result qcow2ClusterOwners :=
  match regions with
  | [] => Ok owners
  | (offset, length, name) :: rest =>
      match qcow2FileRange fileSize offset length name with
      | Ok _ =>
          match claim owners offset length cs name with
          | Ok owners' => claimRegions rest owners' fileSize cs
          | r => r
          end
      | Err e => Err e
      | Panic => Panic
      | OutOfFuel => OutOfFuel
      end
  end.

Fixpoint checkRegions (regions : list (Z * Z * string)) : QM unit :=
  match regions with
  | [] => ret tt
  | (offset, length, _) :: rest =>
      do! checkRefcounts offset length in checkRegions rest
  end.

Fixpoint checkRefcountBlocks (table : list Z) : QM unit :=
  match table with
  | [] => ret tt
  | entry :: rest =>
      if entry =? 0 then checkRefcountBlocks rest else
      let! q := gget in
      do! checkRefcounts entry (clusterSize q) in checkRefcountBlocks rest
  end.

Fixpoint validateL2Tables (table : list Z) (owners : qcow2ClusterOwners) (fileSize : Z) : QM unit :=
  match table with
  | [] => ret tt
  | entry :: rest =>
      if entry =? 0 then validateL2Tables rest owners fileSize else
      let! q := gget in
      let offset := clusterOffset entry in
      do! checkRefcounts offset (clusterSize q) in
      let! l2 := readUint64Table offset (i64 (l2Entries q)) in
      let! owners' := validateDataMappings l2 owners fileSize in
      validateL2Tables rest owners' fileSize
  end.

Definition validateLayout (h : qcow2Header) : QM unit :=
  let! fileSize := fileStat in
  let! q := gget in
  let regions := metadataRegions q h in
  let! owners := lift (claimRegions regions ∅ fileSize (clusterSize q)) in
  let! owners := lift (claimRefcountBlocks (refcountTable q) owners fileSize (clusterSize q)) in
  let! owners := lift (claimL2Tables (l1 q) owners fileSize (clusterSize q)) in
  do! checkRegions regions in
  do! checkRefcountBlocks (refcountTable q) in
  validateL2Tables (l1 q) owners fileSize.

(** ** Open *)

Definition wrapErr {A} (msg : string) (m : QM A) : QM A :=
  let! r := gtry m in
  match r with
  | inl a => ret a
  | inr e => throw (EWrap msg e)
  end.

Definition validateHeaderCluster (h : qcow2Header) : QM unit :=
  let! cluster := wrapErr "qcow2: read header cluster" (fileRead (clusterSizeOf h) 0) in
  lift (validateHeaderClusterBytes h cluster).

Definition checkHeader (h : qcow2Header) : QM qcow2Header :=
  match validateHeader h with
  | Some e => throw e
  | None => do! validateHeaderCluster h in ret h
  end.

Definition readHeader : QM qcow2Header :=
  let! b := wrapErr "qcow2: read header" (fileRead qcow2HeaderV2Len 0) in
  check! (negb (bool_decide (take 4 b = qcow2Magic))) else EMsg "qcow2: invalid magic" in
  let h := parseHeaderV2 b in
  if h_version h =? qcow2Version2 then checkHeader h
  else if h_version h =? qcow2Version3 then
    let! b' := wrapErr "qcow2: read v3 header"
                 (fileRead (qcow2HeaderV3Len - qcow2HeaderV2Len) qcow2HeaderV2Len) in
    checkHeader (parseHeaderV3 h (b ++ b'))
  else throw (EMsg "qcow2: unsupported version").

Definition emptyImage (f : osFile) : qcow2Image :=
  mkImage f 0 None 0 0 0 [] 0 [] 0 ∅ [] 0 0 ∅.

(** The assignments of [open] from the decoded header. *)
Definition set_geometry (h : qcow2Header) (q : qcow2Image) : qcow2Image :=
  let cs := clusterSizeOf h in
  mkImage (file q) (h_version h) (writeFault q) (h_size h) cs (h_l1TableOffset h) (l1 q)
    (h_refcountTableOffset h) (refcountTable q) (cs / 2) (refcountCache q) (refcountBlocks q)
    (refcountCacheNext q) (cs / 8) (l2Cache q).

Definition openImage : QM unit :=
  let! h := readHeader in
  do! gupd (set_geometry h) in
  let! q := gget in
  let! l1Len := lift (checkedInt (h_l1Size h)) in
  let! t := wrapErr "qcow2: read l1 table" (readUint64Table (h_l1TableOffset h) l1Len) in
  do! gupd (set_l1 t) in
  let! rtLen := lift (checkedInt (u64 (h_refcountTableClusters h * clusterSize q) / 8)) in
  let! rt := wrapErr "qcow2: read refcount table"
               (readUint64Table (h_refcountTableOffset h) rtLen) in
  do! gupd (set_refcountTable rt) in
  validateLayout h.

Definition openQCOW2 (f : osFile) : result qcow2Image :=
  match openImage (emptyImage f) with
  | (Ok _, q) => Ok q
  | (Err e, _) => Err e
  | (Panic, _) => Panic
  | (OutOfFuel, _) => OutOfFuel
  end.

(** ** Raw images and the format dispatch *)

Record rawImage : Type := mkRaw {
  r_file : osFile;
  r_size : Z;
  r_readOnly : bool
}.

Inductive Image : Type :=
| RawImage (r : rawImage)
| Qcow2Image (q : qcow2Image).

Definition openFile (f : osFile) (readOnly : bool) : result Image :=
  let '(magic, n, err, f1) := f_readAt f (zeros 4) 0 in
  match err with
  | Some EEOF | None =>
      if (n =? 4) && bool_decide (magic = qcow2Magic) then
        match openQCOW2 f1 with
        | Ok q => Ok (Qcow2Image q)
        | Err e => Err e
        | Panic => Panic
        | OutOfFuel => OutOfFuel
        end
      else
        match f_stat f1 with
        | (Ok sz, f2) => Ok (RawImage (mkRaw f2 sz readOnly))
        | (Err e, _) => Err e
        | (Panic, _) => Panic
        | (OutOfFuel, _) => OutOfFuel
        end
  | Some e => Err e
  end.

Definition raw_WriteAt (r : rawImage) (b : list Z) (off : Z) : Z * option error * rawImage :=
  if zlen b =? 0 then (0, None, r) else
  if (off <? 0) || (r_size r <? off) || (r_size r - off <? zlen b)
  then (0, Some (EMsg "raw: write exceeds disk size"), r) else
  let '(n, err, f) := f_writeAt (r_file r) b off in
  (n, err, mkRaw f (r_size r) (r_readOnly r)).

Definition raw_ReadAt (r : rawImage) (b : list Z) (off : Z)
    : list Z * Z * option error * rawImage :=
  let '(b', n, err, f) := f_readAt (r_file r) b off in
  (b', n, err, mkRaw f (r_size r) (r_readOnly r)).

Definition raw_Sync (r : rawImage) : result unit * rawImage :=
  if r_readOnly r then (Ok tt, r) else
  let '(res, f) := f_sync (r_file r) in (res, mkRaw f (r_size r) (r_readOnly r)).
