(* ===== verification/QcowInv.v ===== *)
(** Invariant and abstraction of the QCOW2 driver.

    [vbyte q o] is the byte of the virtual disk at guest offset [o]; [owns]
    relates every host cluster to the one structure that uses it; [wf] is the
    structural invariant that holds whatever I/O failed, and [synced] is the
    stronger agreement between the cached metadata and the file that holds as
    long as no recovery failed. *)

From S2P Require Import Prelude Bytes OsFile QcowHeader QcowImage.

(** ** Abstraction *)

Definition D (q : qcow2Image) : list Z := f_data (file q).
Definition flen (q : qcow2Image) : Z := f_size (file q).
Definition ff (q : qcow2Image) : Prop := fault_free (file q).

(** A table of [n] big-endian entries stored at [off]. *)
Definition diskTable (d : list Z) (off n : Z) : list Z := decodeTable (zslice d off (n * 8)) n.

(** The L2 table of an L1 index: the cached one, or the one on disk. *)
Definition tableOf (q : qcow2Image) (i : Z) : list Z :=
  match l2Cache q !! i with
  | Some t => t
  | None =>
      if clusterOffset (zget (l1 q) i) =? 0 then []
      else diskTable (D q) (clusterOffset (zget (l1 q) i)) (l2Entries q)
  end.

(** The L2 entry of a guest cluster. *)
Definition mapping (q : qcow2Image) (g : Z) : Z :=
  zget (tableOf q (g / l2Entries q)) (g mod l2Entries q).

(** An entry that reads as zeros without touching a host cluster. *)
Definition reads_zero (e : Z) : bool :=
  has_bits e qcow2OFlagZero || (clusterOffset e =? 0).

Definition vbyte (q : qcow2Image) (o : Z) : Z :=
  let e := mapping q (o / clusterSize q) in
  if reads_zero e then 0 else zget (D q) (clusterOffset e + o mod clusterSize q).

(** The refcount of a host cluster as stored in the file. *)
Definition drc (q : qcow2Image) (c : Z) : Z :=
  let e := zget (refcountTable q) (c / refcountBlockEntries q) in
  if e =? 0 then 0 else be_uint16 (D q) (e + c mod refcountBlockEntries q * 2).

(** ** Ownership of host clusters *)

Inductive owner : Type :=
| OHeader
| OL1
| ORefTable
| ORefBlock (i : Z)
| OL2 (i : Z)
| OData (g : Z).

#[export] Instance owner_eq_dec : EqDecision owner.
Proof. solve_decision. Defined.

Definition owns (q : qcow2Image) (w : owner) (c : Z) : Prop :=
  match w with
  | OHeader => c = 0
  | OL1 => q_l1TableOffset q / clusterSize q <= c <
             (q_l1TableOffset q + zlen (l1 q) * 8 + clusterSize q - 1) / clusterSize q
  | ORefTable => q_refcountTableOffset q / clusterSize q <= c <
             (q_refcountTableOffset q + zlen (refcountTable q) * 8) / clusterSize q
  | ORefBlock i => zget (refcountTable q) i <> 0 /\ c = zget (refcountTable q) i / clusterSize q
  | OL2 i => zget (l1 q) i <> 0 /\ c = clusterOffset (zget (l1 q) i) / clusterSize q
  | OData g => clusterOffset (mapping q g) <> 0 /\
               c = clusterOffset (mapping q g) / clusterSize q
  end.

(** Everything owned lies below the host offset [B]. *)
Definition below (q : qcow2Image) (B : Z) : Prop :=
  q_l1TableOffset q + zlen (l1 q) * 8 <= B /\
  forall w c, w <> OL1 -> owns q w c -> (c + 1) * clusterSize q <= B.

(** ** Invariants *)

Record geometry (q : qcow2Image) : Prop := {
  g_bits : exists cb, 9 <= cb <= 21 /\ clusterSize q = 2 ^ cb;
  g_l2 : l2Entries q = clusterSize q / 8;
  g_rb : refcountBlockEntries q = clusterSize q / 2;
  g_version : q_version q = qcow2Version2 \/ q_version q = qcow2Version3;
  g_size : 0 <= q_size q <= maxInt64;
  g_l1off : 0 < q_l1TableOffset q <= maxInt64 /\ q_l1TableOffset q mod clusterSize q = 0;
  g_rtoff : 0 < q_refcountTableOffset q <= maxInt64 /\ q_refcountTableOffset q mod clusterSize q = 0;
  g_l1len : 0 < zlen (l1 q) /\ zlen (l1 q) * 8 <= qcow2MaxL1Bytes;
  g_rtlen : 0 < zlen (refcountTable q) /\ zlen (refcountTable q) * 8 <= qcow2MaxRefcountTableBytes /\
            (zlen (refcountTable q) * 8) mod clusterSize q = 0;
  g_cover : q_size q <= zlen (l1 q) * (l2Entries q * clusterSize q)
}.

(** The refcount table describes no cluster whose offset does not fit an L2
    entry.  It follows from the size limits when clusters are at most 256 KiB,
    and is no part of the invariant: the code accepts larger tables, and only an
    allocation beyond 2^56 would need it. *)
Definition cap_ok (q : qcow2Image) : Prop :=
  zlen (refcountTable q) * refcountBlockEntries q * clusterSize q <= 2 ^ 56.

(** A published L1 entry, refcount table entry and L2 entry. *)
Definition l1entry_ok (q : qcow2Image) (e : Z) : Prop :=
  is_u64 e /\ clusterOffset e mod clusterSize q = 0 /\ (e <> 0 -> clusterOffset e <> 0).

Definition rtentry_ok (q : qcow2Image) (e : Z) : Prop :=
  is_u64 e /\ e mod clusterSize q = 0 /\ e &&& qcow2RefcountOffsetMask = e.

Definition l2entry_ok (q : qcow2Image) (e : Z) : Prop :=
  is_u64 e /\ clusterOffset e mod clusterSize q = 0 /\ validateL2Entry e q = None.

(** The FIFO cache of refcount blocks indexes blocks that belong to the image. *)
Record rcache_ok (q : qcow2Image) : Prop := {
  rc_entry : forall o i, refcountCache q !! o = Some i ->
    (exists b, zlookup (refcountBlocks q) i = Some (mkBlock o (Some b)) /\ zlen b = clusterSize q) /\
    o <> 0 /\ exists k, zget (refcountTable q) k = o;
  rc_len : zlen (refcountBlocks q) <= qcow2RefcountCacheBytes / clusterSize q;
  rc_next : 0 <= refcountCacheNext q < qcow2RefcountCacheBytes / clusterSize q
}.

Record wf (q : qcow2Image) : Prop := {
  wf_geo : geometry q;
  wf_bytes : bytes_ok (D q);
  wf_flen : flen q <= maxInt64;
  wf_l1 : forall i, l1entry_ok q (zget (l1 q) i);
  wf_rt : forall i, rtentry_ok q (zget (refcountTable q) i);
  wf_map : forall g, l2entry_ok q (mapping q g);
  wf_excl : forall w1 w2 c, owns q w1 c -> owns q w2 c -> w1 = w2;
  wf_below : below q (flen q);
  wf_l2cache : forall i t, l2Cache q !! i = Some t ->
    0 <= i < zlen (l1 q) /\ zlen t = l2Entries q /\ zget (l1 q) i <> 0;
  wf_rcache : rcache_ok q
}.

(** The header stored in a file, and its agreement with the geometry in use. *)
Definition headerOf (d : list Z) : qcow2Header :=
  let h := parseHeaderV2 (zslice d 0 qcow2HeaderV2Len) in
  if h_version h =? qcow2Version3 then parseHeaderV3 h (zslice d 0 qcow2HeaderV3Len) else h.

Definition header_matches (q : qcow2Image) (h : qcow2Header) : Prop :=
  h_version h = q_version q /\ h_size h = q_size q /\ clusterSizeOf h = clusterSize q /\
  h_l1TableOffset h = q_l1TableOffset q /\ h_refcountTableOffset h = q_refcountTableOffset q /\
  h_l1Size h = zlen (l1 q) /\ h_refcountTableClusters h * clusterSize q = zlen (refcountTable q) * 8.

Record synced (q : qcow2Image) : Prop := {
  sy_hdr : header_matches q (headerOf (D q));
  sy_l1 : diskTable (D q) (q_l1TableOffset q) (zlen (l1 q)) = l1 q;
  sy_rt : diskTable (D q) (q_refcountTableOffset q) (zlen (refcountTable q)) = refcountTable q;
  sy_l2 : forall i t, l2Cache q !! i = Some t ->
    t = diskTable (D q) (clusterOffset (zget (l1 q) i)) (l2Entries q);
  sy_rb : forall o i b, refcountCache q !! o = Some i ->
    zlookup (refcountBlocks q) i = Some b -> rb_data b = Some (zslice (D q) o (clusterSize q));
  sy_rc : forall w c, owns q w c -> drc q c = 1
}.

Definition Inv (q : qcow2Image) : Prop := wf q /\ (writeFault q = None -> synced q).

(** The fields no operation changes. *)
Record static (q q' : qcow2Image) : Prop := {
  st_version : q_version q' = q_version q;
  st_size : q_size q' = q_size q;
  st_cs : clusterSize q' = clusterSize q;
  st_l1off : q_l1TableOffset q' = q_l1TableOffset q;
  st_rtoff : q_refcountTableOffset q' = q_refcountTableOffset q;
  st_rbe : refcountBlockEntries q' = refcountBlockEntries q;
  st_l2e : l2Entries q' = l2Entries q;
  st_l1len : zlen (l1 q') = zlen (l1 q);
  st_rtlen : zlen (refcountTable q') = zlen (refcountTable q)
}.

(** The state as seen by the guest is unchanged. *)
Definition same_view (q q' : qcow2Image) : Prop :=
  static q q' /\ forall o, 0 <= o -> vbyte q' o = vbyte q o.

(** ** Entries *)

Lemma offsetMask_shift : qcow2OffsetMask = Z.shiftl (Z.ones 47) 9.
Proof. reflexivity. Qed.

Lemma land_offsetMask e :
  0 <= e < 2 ^ 56 -> e mod 512 = 0 -> Z.land e qcow2OffsetMask = e.
Proof.
  intros He Hm. rewrite offsetMask_shift. zbits. rewrite Z.land_spec.
  destruct (Z.testbit e n) eqn:Hb; [|done]. cbn.
  destruct (Z.le_gt_cases 56 n); [rewrite (testbit_high e 56 n) in Hb by lia; done|].
  destruct (Z.le_gt_cases 9 n).
  - rewrite Z.shiftl_spec by lia. apply Z.ones_spec_low. lia.
  - apply (f_equal (fun x => Z.testbit x n)) in Hm.
    change 512 with (2 ^ 9) in Hm. rewrite Z.mod_pow2_bits_low, Z.bits_0 in Hm by lia. congruence.
Qed.

Lemma clusterOffset_range e : 0 <= e -> 0 <= clusterOffset e < 2 ^ 56 /\ clusterOffset e mod 512 = 0.
Proof.
  intros He. unfold clusterOffset. split.
  - rewrite Z.land_comm. apply land_range; unfold qcow2OffsetMask; lia.
  - change 512 with (2 ^ 9). rewrite <- Z.land_ones by lia. rewrite <- Z.land_assoc.
    change (Z.land qcow2OffsetMask (Z.ones 9)) with 0. apply Z.land_0_r.
Qed.

Lemma clusterOffset_zero : clusterOffset 0 = 0.
Proof. reflexivity. Qed.

Section Copied.
Context (off : Z) (Hoff : 0 <= off < 2 ^ 56) (Hal : off mod 512 = 0).

Lemma land_copied m : Z.land qcow2OffsetMask m = 0 -> Z.land qcow2OFlagCopied m = 0 ->
  Z.land (off ||| qcow2OFlagCopied) m = 0.
Proof.
  intros H1 H2. rewrite Z.land_lor_distr_l, H2, Z.lor_0_r.
  rewrite <- (land_offsetMask off) by done. by rewrite <- Z.land_assoc, H1, Z.land_0_r.
Qed.

Lemma clusterOffset_copied : clusterOffset (off ||| qcow2OFlagCopied) = off.
Proof.
  unfold clusterOffset. rewrite Z.land_lor_distr_l, land_offsetMask by done.
  change (Z.land qcow2OFlagCopied qcow2OffsetMask) with 0. apply Z.lor_0_r.
Qed.

Lemma copied_u64 : is_u64 (off ||| qcow2OFlagCopied).
Proof. apply lor_range; unfold qcow2OFlagCopied; lia. Qed.

Lemma copied_not_zero : has_bits (off ||| qcow2OFlagCopied) qcow2OFlagZero = false.
Proof. unfold has_bits. by rewrite land_copied by done. Qed.

Lemma copied_nonzero : off ||| qcow2OFlagCopied <> 0.
Proof. intros H. apply Z.lor_eq_0_iff in H. destruct H as [_ H]. unfold qcow2OFlagCopied in H. lia. Qed.

Lemma copied_valid q : off <> 0 -> validateL2Entry (off ||| qcow2OFlagCopied) q = None.
Proof.
  intros Hnz. unfold validateL2Entry. rewrite copied_not_zero, andb_false_r, clusterOffset_copied.
  destruct (off =? 0) eqn:?; zbool; [done|]. cbn. unfold has_bits.
  by rewrite !land_copied by done.
Qed.

End Copied.

Lemma clusterOffset_l1_nonzero q e : l1entry_ok q e -> (clusterOffset e =? 0) = (e =? 0).
Proof.
  intros (_ & _ & H). destruct (e =? 0) eqn:E; zbool; [by subst|].
  apply Z.eqb_neq. auto.
Qed.

(** ** Geometry *)

Lemma geo_facts q : geometry q ->
  512 <= clusterSize q <= 2 ^ 21 /\ clusterSize q mod 512 = 0 /\
  l2Entries q * 8 = clusterSize q /\ refcountBlockEntries q * 2 = clusterSize q /\
  0 < l2Entries q /\ 256 <= refcountBlockEntries q.
Proof.
  intros [(cb & Hcb & Hcs) Hl2 Hrb _ _ _ _ _ _ _].
  assert (Hp : clusterSize q = 512 * 2 ^ (cb - 9)).
  { rewrite Hcs. change 512 with (2 ^ 9). rewrite <- Z.pow_add_r by lia. f_equal. lia. }
  assert (0 < 2 ^ (cb - 9)) by lia.
  assert (2 ^ (cb - 9) <= 2 ^ 12) by (apply Z.pow_le_mono_r; lia).
  set (p := 2 ^ (cb - 9)) in *. rewrite Hl2, Hrb, Hp. splits; try lia.
  - rewrite Z.mul_comm. apply Z.mod_mul. lia.
  - replace (512 * p) with (64 * p * 8) by lia. rewrite Z.div_mul; lia.
  - replace (512 * p) with (256 * p * 2) by lia. rewrite Z.div_mul; lia.
  - replace (512 * p) with (64 * p * 8) by lia. rewrite Z.div_mul; lia.
  - replace (512 * p) with (256 * p * 2) by lia. rewrite Z.div_mul; lia.
Qed.

Lemma inCluster_mod q o : geometry q -> Z.land o (clusterSize q - 1) = o mod clusterSize q.
Proof.
  intros [(cb & Hcb & ->) _ _ _ _ _ _ _ _ _]. apply land_mask_mod. lia.
Qed.

Lemma cs_aligned_512 q x : geometry q -> x mod clusterSize q = 0 -> x mod 512 = 0.
Proof.
  intros Hg Hx. destruct (geo_facts q Hg) as (Hcs & Hm & _).
  apply Z.mod_divide; [lia|]. apply Z.mod_divide in Hx; [|lia]. apply Z.mod_divide in Hm; [|lia].
  by transitivity (clusterSize q).
Qed.

(** ** Tables *)

Lemma zlen_decodeTable b n : 0 <= n -> zlen (decodeTable b n) = n.
Proof. intros. unfold decodeTable, zlen. rewrite length_fmap, length_seqZ. lia. Qed.

Lemma zget_decodeTable b n i : 0 <= i < n -> zget (decodeTable b n) i = be_uint64 b (i * 8).
Proof.
  intros Hi. rewrite zget_lookup. unfold zlookup, decodeTable.
  destruct (i <? 0) eqn:?; zbool; [lia|].
  rewrite list_lookup_fmap, lookup_seqZ_lt by lia. cbn. f_equal. lia.
Qed.

Lemma zlen_diskTable d off n : 0 <= n -> zlen (diskTable d off n) = n.
Proof. apply zlen_decodeTable. Qed.

Lemma zget_diskTable d off n i :
  0 <= off -> 0 <= i < n -> zget (diskTable d off n) i = be_uint64 d (off + i * 8).
Proof.
  intros Ho Hi. unfold diskTable. rewrite zget_decodeTable by lia.
  unfold be_uint64. by rewrite zslice_slice by lia.
Qed.

(** A table depends on its own bytes only. *)
Lemma diskTable_agree d d' off n :
  0 <= off -> 0 <= n -> off + n * 8 <= zlen d -> off + n * 8 <= zlen d' ->
  (forall i, off <= i < off + n * 8 -> zget d' i = zget d i) ->
  diskTable d' off n = diskTable d off n.
Proof.
  intros. unfold diskTable. f_equal. apply zslice_agree; auto; lia.
Qed.

Lemma be_uint64_range d o : bytes_ok d -> 0 <= be_uint64 d o < 2 ^ 64.
Proof.
  intros H. unfold be_uint64. pose proof (be_val_range (zslice d o 8) (bytes_ok_slice _ _ _ H)).
  assert (zlen (zslice d o 8) <= 8) by (unfold zlen, zslice; rewrite length_take; lia).
  pose proof (zlen_nonneg (zslice d o 8)).
  assert (256 ^ zlen (zslice d o 8) <= 256 ^ 8) by (apply Z.pow_le_mono_r; lia). lia.
Qed.

(** Storing one entry in a table. *)
Lemma diskTable_write d off n i e :
  0 <= off -> 0 <= i < n -> off + n * 8 <= zlen d -> is_u64 e ->
  diskTable (zwrite d (off + i * 8) (be_bytes 8 e)) off n = zinsert i e (diskTable d off n).
Proof.
  intros Ho Hi Hl He.
  assert (Hlen : zlen (zwrite d (off + i * 8) (be_bytes 8 e)) = zlen d).
  { rewrite zlen_write, zlen_be_bytes by lia. change (Z.of_nat 8) with 8.
    destruct (8 =? 0) eqn:?; zbool; lia. }
  apply zlist_eq; [by rewrite zlen_insert, !zlen_diskTable by lia|].
  intros j. rewrite zlen_diskTable by lia. intros Hj.
  rewrite zget_insert by (rewrite zlen_diskTable by lia; lia).
  rewrite !zget_diskTable by lia. destruct (j =? i) eqn:Eji; zbool.
  - subst j. unfold be_uint64.
    replace 8 with (zlen (be_bytes 8 e)) at 3 by apply zlen_be_bytes.
    rewrite zslice_write by lia. apply be_val_bytes. exact He.
  - unfold be_uint64. f_equal. apply zslice_agree; try lia.
    intros k Hk. rewrite zget_write, zlen_be_bytes by lia.
    destruct (_ && _) eqn:E; zbool; [lia|done].
Qed.

(** ** Schedules

    File calls advance the fault schedule; nothing else depends on it. *)

Definition resched (fl : list (option Z)) (q : qcow2Image) : qcow2Image :=
  set_file (mkFile (D q) fl) q.

Definition sched (q q' : qcow2Image) : Prop :=
  exists fl, q' = resched fl q /\ (ff q -> ff q').

Lemma geometry_resched fl q : geometry q -> geometry (resched fl q).
Proof. intros []; constructor; assumption. Qed.

Lemma wf_resched fl q : wf q -> wf (resched fl q).
Proof.
  intros []; constructor; try assumption; [by apply geometry_resched|].
  destruct wf_rcache0; constructor; assumption.
Qed.

Lemma synced_resched fl q : synced q -> synced (resched fl q).
Proof. intros []; constructor; assumption. Qed.

Lemma static_refl q : static q q.
Proof. constructor; reflexivity. Qed.

Lemma static_trans q1 q2 q3 : static q1 q2 -> static q2 q3 -> static q1 q3.
Proof. intros [] []; constructor; congruence. Qed.

Lemma static_resched fl q : static q (resched fl q).
Proof. constructor; reflexivity. Qed.

Lemma same_view_refl q : same_view q q.
Proof. split; [apply static_refl|done]. Qed.

Lemma same_view_trans q1 q2 q3 : same_view q1 q2 -> same_view q2 q3 -> same_view q1 q3.
Proof.
  intros [S1 V1] [S2 V2]. split; [by eapply static_trans|].
  intros o Ho. by rewrite V2, V1.
Qed.

Lemma same_view_resched fl q : same_view q (resched fl q).
Proof. split; [apply static_resched|done]. Qed.

#[export] Hint Resolve geometry_resched wf_resched synced_resched static_refl static_resched
  same_view_refl same_view_resched : go.

(** ** File calls *)

Lemma wp_fileStat q :
  wp fileStat q (fun n q' => n = flen q /\ sched q q') (fun _ q' => sched q q' /\ ~ ff q).
Proof.
  unfold wp, fileStat, f_stat. destruct (next_fault (file q)) eqn:Hf.
  - split; [eexists; split; [reflexivity|]|].
    + apply fault_free_with.
    + intros H. apply fault_free_next in H. congruence.
  - split; [done|]. eexists; split; [reflexivity|]. apply fault_free_with.
Qed.

Lemma wp_fileReadAt q buf off :
  0 <= off -> off + zlen buf <= flen q ->
  wp (fileReadAt buf off) q
    (fun r q' => sched q q' /\ zlen (fst r) = zlen buf /\
       (bytes_ok (D q) -> bytes_ok buf -> bytes_ok (fst r)) /\
       match snd r with
       | None => fst r = zslice (D q) off (zlen buf)
       | Some _ => ~ ff q
       end)
    (fun _ _ => False).
Proof.
  intros Ho Hl. unfold wp, fileReadAt.
  destruct (f_readAt (file q) buf off) as [[[b n] err] f] eqn:E.
  pose proof (f_readAt_length _ _ _ _ _ _ _ E) as Hlen.
  pose proof (f_readAt_data _ _ _ _ _ _ _ E) as Hd. cbn.
  assert (Hs : sched q (set_file f q)).
  { exists (f_faults f). split; [unfold resched, D; rewrite <- Hd; by destruct f|].
    unfold ff; cbn. unfold f_readAt in E.
    destruct (off <? 0); [injection E as <- <- <- <-; apply fault_free_with|].
    destruct (next_fault (file q)); injection E as <- <- <- <-; apply fault_free_with. }
  splits; [done|done|by apply (f_readAt_bytes _ _ _ _ _ _ _ E)|]. destruct err as [e|].
  - intros Hff. rewrite (f_readAt_ok (file q) buf off Ho Hl (fault_free_next _ Hff)) in E. done.
  - by apply f_readAt_None in E as (_ & _ & -> & _).
Qed.

Lemma wp_fileRead q n off :
  0 <= n -> 0 <= off -> off + n <= flen q ->
  wp (fileRead n off) q
    (fun b q' => b = zslice (D q) off n /\ sched q q') (fun _ q' => sched q q' /\ ~ ff q).
Proof.
  intros Hn Ho Hl. assert (Hz : zlen (zeros n) = n) by (rewrite zlen_zeros; lia).
  unfold fileRead. wstep. eapply wp_mono.
  - apply wp_fileReadAt; rewrite ?Hz; lia.
  - intros [b [e|]] q' (Hs & Hb & _ & H); cbn in *; wsteps.
    + auto.
    + rewrite Hz in H. auto.
  - done.
Qed.

Lemma wp_readUint64Table q off n :
  0 <= n <= qcow2MaxL1Bytes / 8 -> 0 <= off <= maxInt64 -> off + n * 8 <= flen q ->
  wp (readUint64Table off n) q
    (fun t q' => t = diskTable (D q) off n /\ sched q q') (fun _ q' => sched q q' /\ ~ ff q).
Proof.
  intros Hn Ho Hl. unfold readUint64Table. wstep.
  { zbool. destruct (n <? 0) eqn:?, (qcow2MaxL1Bytes / 8 <? n) eqn:?; zbool; try done; lia. }
  wstep. eapply wp_mono; [apply wp_fileStat| |auto].
  intros sz q1 [-> (fl & -> & Hff1)]. wstep.
  assert (Hr : qcow2FileRange (flen q) off (n * 8) "metadata table" = Ok tt).
  { unfold qcow2FileRange. destruct (flen q <? off) eqn:?; zbool; [lia|].
    destruct (flen q - off <? n * 8) eqn:?; zbool; [lia|done]. }
  unfold wp at 1, lift. rewrite Hr. wstep.
  eapply wp_mono; [apply wp_fileRead| |].
  - lia.
  - rewrite i64_small by (unfold maxInt64 in *; lia). lia.
  - rewrite i64_small by (unfold maxInt64 in *; lia). exact Hl.
  - intros b q2 [-> (fl2 & -> & Hff2)]. wsteps.
    rewrite i64_small by (unfold maxInt64 in *; lia).
    split; [done|]. exists fl2. split; [done|]. auto.
  - intros e q2 [(fl2 & -> & Hff2) Hnf]. split; [exists fl2; split; [done|auto]|auto].
Qed.

(** ** Preservation of the invariant

    [keeps q q']: the operation that led from [q] to [q'] left every mapping and
    every mapped byte alone. *)

Record keeps (q q' : qcow2Image) : Prop := {
  k_static : static q q';
  k_map : forall g, mapping q' g = mapping q g;
  k_data : forall g i, clusterOffset (mapping q g) <> 0 -> 0 <= i < clusterSize q ->
    zget (D q') (clusterOffset (mapping q g) + i) = zget (D q) (clusterOffset (mapping q g) + i);
  k_ff : ff q -> ff q'
}.

Lemma keeps_refl q : keeps q q.
Proof. constructor; auto with go. Qed.

Lemma keeps_trans q1 q2 q3 : keeps q1 q2 -> keeps q2 q3 -> keeps q1 q3.
Proof.
  intros [S1 M1 D1 F1] [S2 M2 D2 F2]. constructor.
  - by eapply static_trans.
  - intros. by rewrite M2.
  - intros g i Hg Hi. rewrite <- (D1 g i Hg Hi), <- M1. apply D2.
    + by rewrite M1.
    + by rewrite (st_cs _ _ S1).
  - auto.
Qed.

Lemma keeps_sched q q' : sched q q' -> keeps q q'.
Proof. intros (fl & -> & Hff). constructor; auto with go. Qed.

Lemma keeps_view q q' : geometry q -> keeps q q' -> same_view q q'.
Proof.
  intros Hg [S M HD _]. split; [done|]. intros o Ho. unfold vbyte.
  rewrite (st_cs _ _ S), M.
  destruct (reads_zero _) eqn:E; [done|]. unfold reads_zero in E. zbool.
  apply HD; [done|]. destruct (geo_facts q Hg). apply Z.mod_pos_bound. lia.
Qed.

#[export] Hint Resolve keeps_refl keeps_trans keeps_sched keeps_view : go.

(** Two states with the same tables and mappings have the same owners. *)
Lemma owns_same q q' :
  static q q' -> l1 q' = l1 q -> refcountTable q' = refcountTable q ->
  (forall g, mapping q' g = mapping q g) -> forall w c, owns q' w c <-> owns q w c.
Proof.
  intros [] Hl1 Hrt HM w c. destruct w; cbn; rewrite ?HM, ?Hl1, ?Hrt, ?st_cs0, ?st_l1off0, ?st_rtoff0; done.
Qed.

Lemma geometry_static q q' : geometry q -> static q q' -> geometry q'.
Proof.
  intros [] []. constructor;
    rewrite ?st_version0, ?st_size0, ?st_cs0, ?st_l1off0, ?st_rtoff0, ?st_rbe0, ?st_l2e0,
      ?st_l1len0, ?st_rtlen0; done.
Qed.

Lemma wf_same q q' :
  wf q -> static q q' -> l1 q' = l1 q -> refcountTable q' = refcountTable q ->
  (forall g, mapping q' g = mapping q g) ->
  bytes_ok (D q') -> flen q' <= maxInt64 -> below q (flen q') ->
  (forall i t, l2Cache q' !! i = Some t ->
     0 <= i < zlen (l1 q) /\ zlen t = l2Entries q /\ zget (l1 q) i <> 0) ->
  rcache_ok q' -> wf q'.
Proof.
  intros W S Hl1 Hrt HM Hb Hfl Hbel Hc Hrc. pose proof (owns_same _ _ S Hl1 Hrt HM) as HO.
  pose proof (st_cs _ _ S) as Ecs. constructor.
  - by eapply geometry_static; [apply W|].
  - done.
  - done.
  - intros i. rewrite Hl1. pose proof (wf_l1 q W i) as H. unfold l1entry_ok in *. by rewrite Ecs.
  - intros i. rewrite Hrt. pose proof (wf_rt q W i) as H. unfold rtentry_ok in *. by rewrite Ecs.
  - intros g. rewrite HM. pose proof (wf_map q W g) as H. unfold l2entry_ok, validateL2Entry in *.
    by rewrite Ecs, (st_version _ _ S).
  - intros w1 w2 c. rewrite !HO. apply W.
  - destruct Hbel as [H1 H2]. split; [by rewrite (st_l1off _ _ S), Hl1|].
    intros w c Hw Hown%HO. rewrite Ecs. by apply (H2 w).
  - intros i t H. rewrite Hl1, (st_l2e _ _ S). eauto.
  - done.
Qed.

(** The L2 table of a published L1 entry. *)
Lemma tableOf_length q i :
  wf q -> zget (l1 q) i <> 0 -> zlen (tableOf q i) = l2Entries q.
Proof.
  intros W Hi. unfold tableOf. destruct (l2Cache q !! i) eqn:E; [by destruct (wf_l2cache q W _ _ E) as (_ & ? & _)|].
  rewrite (clusterOffset_l1_nonzero q) by apply W.
  destruct (zget (l1 q) i =? 0) eqn:?; zbool; [done|].
  apply zlen_diskTable. destruct (geo_facts q (wf_geo q W)). lia.
Qed.

Lemma l1_nonzero_range q i : zget (l1 q) i <> 0 -> 0 <= i < zlen (l1 q).
Proof.
  intros H. destruct (Z.lt_ge_cases i 0); [rewrite zget_out in H by lia; done|].
  destruct (Z.lt_ge_cases i (zlen (l1 q))); [lia|]. rewrite zget_out in H by lia. done.
Qed.

Lemma div_mul_aligned x c : 0 < c -> x mod c = 0 -> x / c * c = x.
Proof. intros. pose proof (Z.div_mod x c). lia. Qed.

(** Published L2 tables and data clusters are whole clusters inside the file. *)
Lemma l2_in_file q i : wf q -> zget (l1 q) i <> 0 ->
  0 < clusterOffset (zget (l1 q) i) /\
  clusterOffset (zget (l1 q) i) + clusterSize q <= flen q.
Proof.
  intros W Hi. destruct (geo_facts q (wf_geo q W)) as (Hcs & _).
  destruct (wf_l1 q W i) as (Hu & Hal & Hnz).
  destruct (clusterOffset_range (zget (l1 q) i)) as [? _]; [apply Hu|].
  split; [specialize (Hnz Hi); lia|].
  destruct (wf_below q W) as [_ Hb].
  specialize (Hb (OL2 i) (clusterOffset (zget (l1 q) i) / clusterSize q) ltac:(done) (conj Hi eq_refl)).
  pose proof (div_mul_aligned _ (clusterSize q) ltac:(lia) Hal). lia.
Qed.

Lemma data_in_file q g : wf q -> clusterOffset (mapping q g) <> 0 ->
  0 < clusterOffset (mapping q g) /\ clusterOffset (mapping q g) + clusterSize q <= flen q.
Proof.
  intros W Hg. destruct (geo_facts q (wf_geo q W)) as (Hcs & _).
  destruct (wf_map q W g) as (Hu & Hal & _).
  destruct (clusterOffset_range (mapping q g)) as [? _]; [apply Hu|].
  split; [lia|]. destruct (wf_below q W) as [_ Hb].
  specialize (Hb (OData g) (clusterOffset (mapping q g) / clusterSize q) ltac:(done) (conj Hg eq_refl)).
  pose proof (div_mul_aligned _ (clusterSize q) ltac:(lia) Hal). lia.
Qed.

Lemma flen_nonneg q : 0 <= flen q.
Proof. apply zlen_nonneg. Qed.

(** ** Loading L2 tables *)

Section CacheL2.
Context (q : qcow2Image) (W : wf q) (i : Z) (Hi : zget (l1 q) i <> 0).
Let q' := set_l2Cache (<[i := tableOf q i]> (l2Cache q)) q.

Lemma cacheL2_table j : tableOf q' j = tableOf q j.
Proof.
  unfold tableOf at 1. cbn. destruct (decide (i = j)) as [->|Hij].
  - by rewrite lookup_insert_eq.
  - by rewrite lookup_insert_ne by done.
Qed.

Lemma cacheL2_map g : mapping q' g = mapping q g.
Proof. unfold mapping. by rewrite cacheL2_table. Qed.

Lemma cacheL2_keeps : keeps q q'.
Proof. constructor; auto using cacheL2_map. by constructor. Qed.

Lemma cacheL2_wf : wf q'.
Proof.
  apply (wf_same q); try done.
  - apply cacheL2_map.
  - apply (wf_bytes q W).
  - apply (wf_flen q W).
  - apply (wf_below q W).
  - intros j t. cbn. destruct (decide (i = j)) as [->|Hij].
    + rewrite lookup_insert_eq. intros [= <-]. split; [by apply l1_nonzero_range|].
      split; [by apply tableOf_length|done].
    + rewrite lookup_insert_ne by done. apply (wf_l2cache q W).
  - destruct (wf_rcache q W). by constructor.
Qed.

Lemma cacheL2_synced : synced q -> synced q'.
Proof.
  intros [H0 H1 H2 H3 H4 H5]. constructor; try assumption.
  - intros j t. cbn. destruct (decide (i = j)) as [->|Hij].
    + rewrite lookup_insert_eq. intros [= <-]. unfold tableOf.
      destruct (l2Cache q !! j) eqn:E; [eauto|].
      rewrite (clusterOffset_l1_nonzero q) by apply W.
      destruct (zget (l1 q) j =? 0) eqn:?; zbool; [done|]. done.
    + rewrite lookup_insert_ne by done. apply H3.
  - intros w c Hw. apply (H5 w c). revert Hw.
    apply (owns_same q q'); auto using cacheL2_map. by constructor.
Qed.

End CacheL2.

(** The part of the state that loading a table may change. *)
Record loads (q q' : qcow2Image) : Prop := {
  ld_keeps : keeps q q';
  ld_wf : wf q';
  ld_synced : synced q -> synced q';
  ld_fault : writeFault q' = writeFault q;
  ld_l1 : l1 q' = l1 q;
  ld_rt : refcountTable q' = refcountTable q;
  ld_data : D q' = D q
}.

Lemma loads_sched q q' : wf q -> sched q q' -> loads q q'.
Proof. intros W Hs. pose proof Hs as (fl & -> & Hff). constructor; auto with go. Qed.

Lemma loads_trans q1 q2 q3 : loads q1 q2 -> loads q2 q3 -> loads q1 q3.
Proof. intros [] []. constructor; [by eapply keeps_trans|done|auto|congruence..]. Qed.

Lemma loads_Inv q q' : Inv q -> loads q q' -> Inv q'.
Proof. intros [W Sy] []. split; [done|]. rewrite ld_fault0. auto. Qed.

Lemma wp_loadL2 q i :
  wf q -> zget (l1 q) i <> 0 ->
  wp (loadL2 i) q
    (fun t q' => t = tableOf q i /\ l2Cache q' !! i = Some t /\ loads q q')
    (fun _ q' => loads q q' /\ ~ ff q).
Proof.
  intros W Hi. destruct (geo_facts q (wf_geo q W)) as (Hcs & _ & Hl2 & _).
  destruct (l2_in_file q i W Hi) as [Hpos Hin]. destruct (wf_l1 q W i) as (Hu & Hal & Hnz).
  pose proof (wf_flen q W).
  unfold loadL2. wsteps. destruct (l2Cache q !! i) as [t|] eqn:E.
  { wsteps. splits; [unfold tableOf; by rewrite E|done|].
    apply loads_sched; [done|]. exists (f_faults (file q)).
    split; [unfold resched, D; by destruct q as [[]]|auto]. }
  wstep. eapply wp_gindex; [apply zlookup_zget, l1_nonzero_range, Hi|]. wstep; [zbool; lia|].
  wstep; [zbool; congruence|]. wstep. unfold checkedInt.
  destruct (maxInt64 <? l2Entries q) eqn:?; zbool; [unfold maxInt64 in *; lia|].
  unfold wp at 1, lift. wsteps.
  eapply wp_mono; [apply wp_readUint64Table| |].
  - change (qcow2MaxL1Bytes / 8) with (2 ^ 22). lia.
  - unfold maxInt64 in *. lia.
  - lia.
  - intros t q1 [-> (fl & -> & Hff)]. wsteps. cbn. rewrite lookup_insert_eq.
    assert (Ht : diskTable (D q) (clusterOffset (zget (l1 q) i)) (l2Entries q) = tableOf (resched fl q) i).
    { unfold tableOf. cbn. rewrite E. destruct (_ =? 0) eqn:?; zbool; [lia|done]. }
    splits; [done|done|]. rewrite Ht.
    assert (W1 : wf (resched fl q)) by auto with go.
    eapply loads_trans; [apply (loads_sched q (resched fl q)); [done|by exists fl]|].
    constructor; try done.
    + exact (cacheL2_keeps (resched fl q) i Hi).
    + exact (cacheL2_wf (resched fl q) W1 i Hi).
    + exact (cacheL2_synced (resched fl q) W1 i Hi).
  - intros e q1 [Hs Hnf]. wsteps. split; [by apply loads_sched|done].
Qed.
