(* ===== verification/QcowRead.v ===== *)
(** Reading the virtual disk: [ReadAt] returns the bytes of the abstraction,
    whatever I/O fails it changes nothing the guest can see, and it terminates
    without a panic. *)

From S2P Require Import Prelude Bytes OsFile QcowHeader QcowImage QcowInv.

(** Guest offsets below the virtual size select an existing L1 entry. *)
Lemma l1Index_range q o : geometry q -> 0 <= o < q_size q ->
  0 <= o / clusterSize q / l2Entries q < zlen (l1 q).
Proof.
  intros Hg Ho. destruct (geo_facts q Hg) as (Hcs & _ & Hl2 & _ & Hl2p & _).
  pose proof (g_cover q Hg) as Hc. rewrite Z.div_div by lia.
  split; [apply Z.div_pos; lia|]. apply Z.div_lt_upper_bound; lia.
Qed.

Lemma wp_tableIndexes q o Q E : geometry q -> 0 <= o < q_size q ->
  Q (o / clusterSize q / l2Entries q, o / clusterSize q mod l2Entries q) q ->
  wp (tableIndexes o) q Q E.
Proof.
  intros Hg Ho HQ. pose proof (l1Index_range q o Hg Ho). unfold wp, tableIndexes.
  destruct (zlen (l1 q) <=? _) eqn:?; zbool; [lia|done].
Qed.

Lemma wp_checkL2Entry q e Q E : validateL2Entry e q = None -> Q tt q -> wp (checkL2Entry e) q Q E.
Proof. unfold wp, checkL2Entry. by intros ->. Qed.

Lemma mapping_unpublished q g : wf q ->
  zget (l1 q) (g / l2Entries q) = 0 -> mapping q g = 0.
Proof.
  intros W H. unfold mapping, tableOf.
  destruct (l2Cache q !! (g / l2Entries q)) eqn:E.
  - destruct (wf_l2cache q W _ _ E) as (_ & _ & ?). done.
  - rewrite H. cbn. unfold zget. destruct (_ <? 0); [done|]. by destruct (Z.to_nat _).
Qed.

Lemma validateL2Entry_loads q q' e : loads q q' -> validateL2Entry e q' = validateL2Entry e q.
Proof. intros L. unfold validateL2Entry. by rewrite (st_version _ _ (k_static _ _ (ld_keeps _ _ L))). Qed.

Lemma wp_hostOffset q o : wf q -> 0 <= o < q_size q ->
  wp (hostOffset o) q
    (fun r q' => loads q q' /\
       let e := mapping q (o / clusterSize q) in
       snd r = reads_zero e /\ (snd r = false -> fst r = clusterOffset e + o mod clusterSize q))
    (fun _ q' => loads q q' /\ ~ ff q).
Proof.
  intros W Ho. pose proof (wf_geo q W) as Hg. pose proof (l1Index_range q o Hg Ho) as Hi.
  destruct (geo_facts q Hg) as (Hcs & _ & Hl2 & _ & Hl2p & _).
  set (g := o / clusterSize q) in *.
  assert (Hself : sched q q).
  { exists (f_faults (file q)). split; [unfold resched, D; by destruct q as [[]]|auto]. }
  unfold hostOffset, l2Table. wsteps. apply wp_tableIndexes; [done..|]. fold g. wsteps; [zbool; lia|].
  eapply wp_gindex; [by apply zlookup_zget|].
  rewrite (clusterOffset_l1_nonzero q) by apply W.
  destruct (zget (l1 q) (g / l2Entries q) =? 0) eqn:E1; zbool.
  { wsteps. rewrite (mapping_unpublished q g W E1). split; [by apply loads_sched|]. by split. }
  wsteps. wcall wp_loadL2; [done|done| |done].
  intros t q1 (-> & Hc & L). wsteps.
  assert (Hz : zlookup (tableOf q (g / l2Entries q)) (g mod l2Entries q) = Some (mapping q g)).
  { apply zlookup_zget. rewrite tableOf_length by done. apply Z.mod_pos_bound. lia. }
  eapply wp_gindex; [exact Hz|].
  destruct (wf_map q W g) as (Hu & Hal & Hv).
  destruct (mapping q g =? 0) eqn:E2; zbool.
  { wsteps. rewrite E2. split; [done|]. by split. }
  wstep. apply wp_checkL2Entry; [by rewrite (validateL2Entry_loads q)|].
  destruct (has_bits (mapping q g) qcow2OFlagZero) eqn:E3.
  { wsteps. unfold reads_zero. rewrite E3. split; [done|]. by split. }
  destruct (clusterOffset (mapping q g) =? 0) eqn:E4.
  { wsteps. unfold reads_zero. rewrite E4, orb_true_r. split; [done|]. by split. }
  wsteps. unfold reads_zero. rewrite E3, E4. split; [done|]. split; [done|]. intros _.
  rewrite (st_cs _ _ (k_static _ _ (ld_keeps _ _ L))), inCluster_mod by done. zbool.
  destruct (data_in_file q g W E4). pose proof (wf_flen q W). unfold maxInt64 in *.
  pose proof (Z.mod_pos_bound o (clusterSize q) ltac:(lia)).
  cbn. rewrite u64_small by lia. done.
Qed.

(** The cluster arithmetic of one loop iteration. *)
Lemma same_cluster o o' c : 0 < c -> o <= o' < o + (c - o mod c) -> 
  o' / c = o / c /\ o' mod c = o mod c + (o' - o).
Proof.
  intros Hc H. pose proof (Z.div_mod o c ltac:(lia)). pose proof (Z.mod_pos_bound o c Hc).
  assert (Hd : o' / c = o / c) by (symmetry; apply (Z.div_unique_pos o' c _ (o mod c + (o' - o))); lia).
  split; [done|]. pose proof (Z.div_mod o' c ltac:(lia)). rewrite Hd in *. lia.
Qed.

Lemma vbyte_chunk q o o' :
  geometry q -> o <= o' < o + (clusterSize q - o mod clusterSize q) ->
  vbyte q o' =
    let e := mapping q (o / clusterSize q) in
    if reads_zero e then 0 else zget (D q) (clusterOffset e + o mod clusterSize q + (o' - o)).
Proof.
  intros Hg H. destruct (geo_facts q Hg) as (Hcs & _).
  destruct (same_cluster o o' (clusterSize q) ltac:(lia) H) as [Hd Hm].
  unfold vbyte. cbn. rewrite Hd, Hm. destruct (reads_zero _); [done|]. f_equal. lia.
Qed.

Lemma minUint64_min a b : minUint64 a b = Z.min a b.
Proof. unfold minUint64. destruct (a <? b) eqn:?; zbool; lia. Qed.

(** What a read returns, relative to the disk it started from. *)
Definition read_post (q : qcow2Image) (off : Z) (b : list Z) (done stop : Z)
    (r : list Z * Z * option error) (q' : qcow2Image) : Prop :=
  let '(b', n, err) := r in
  loads q q' /\ zlen b' = zlen b /\ done <= n <= stop /\
  (forall i, 0 <= i < n -> zget b' i = if i <? done then zget b i else vbyte q (off + i)) /\
  (match err with None => n = stop | Some _ => ~ ff q end) /\
  (bytes_ok b -> bytes_ok b').

Lemma wp_readLoop fuel : forall q b off remaining done,
  wf q -> 0 <= off -> 0 <= done <= remaining -> remaining <= zlen b ->
  off + remaining <= q_size q -> remaining - done < Z.of_nat fuel ->
  wp (readLoop fuel b off remaining done) q (read_post q off b done remaining) (fun _ _ => False).
Proof.
  induction fuel as [|fuel IH]; intros q b off remaining done W Hoff Hdone Hrem Hsz Hfuel; [lia|].
  pose proof (wf_geo q W) as Hg. destruct (geo_facts q Hg) as (Hcs & _).
  pose proof (g_size q Hg) as Hsz63. unfold maxInt64 in Hsz63.
  cbn [readLoop]. destruct (done <? remaining) eqn:Hlt; zbool.
  2:{ wsteps. assert (done = remaining) as -> by lia. unfold read_post. splits; try done; try lia.
      intros i Hi. destruct (i <? remaining) eqn:?; zbool; [done|lia]. }
  rewrite u64_small by lia. wsteps.
  rewrite inCluster_mod, minUint64_min by done.
  set (o := off + done) in *. set (c := clusterSize q) in *.
  pose proof (Z.mod_pos_bound o c ltac:(lia)) as Hmod.
  set (chunk := Z.min (remaining - done) (c - o mod c)).
  assert (Hch : 0 < chunk <= remaining - done /\ chunk <= c - o mod c) by lia.
  wcall wp_hostOffset; [done|lia| |].
  2:{ intros e q1 [L Hnf]. wsteps. unfold read_post. splits; try done; try lia.
      intros i Hi. destruct (i <? done) eqn:?; zbool; [done|lia]. }
  intros [h z] q1 (L & Hz & Hh). cbn [fst snd] in *. fold c in Hz, Hh.
  (* the iteration stores exactly the bytes of the virtual disk *)
  assert (Hstep : forall d q2, loads q q2 -> zlen d = chunk -> (bytes_ok b -> bytes_ok d) ->
            (forall i, 0 <= i < chunk -> zget d i = vbyte q (o + i)) ->
            wp (readLoop fuel (zwrite b done d) off remaining (done + chunk)) q2
               (read_post q off b done remaining) (fun _ _ => False)).
  { intros d q2 L2 Hd Hbd Hget.
    assert (Hlb : zlen (zwrite b done d) = zlen b).
    { rewrite zlen_write, Hd by lia. destruct (chunk =? 0) eqn:?; zbool; lia. }
    pose proof (k_static _ _ (ld_keeps _ _ L2)) as S2.
    eapply wp_mono; [apply IH| |done]; try (rewrite ?Hlb, ?(st_size _ _ S2); lia); [apply L2|].
    intros [[b' n] err] q3 (L3 & Hlen & Hn & Hg' & Herr & Hbok).
    unfold read_post. splits; [by eapply loads_trans|by rewrite Hlen|lia|lia| | |].
    - intros i Hi. rewrite Hg' by lia.
      destruct (keeps_view q q2 Hg (ld_keeps _ _ L2)) as [_ HV].
      destruct (i <? done + chunk) eqn:?, (i <? done) eqn:?; zbool; try lia.
      + rewrite zget_write by lia. destruct (_ && _) eqn:?; zbool; [lia|done].
      + rewrite zget_write, Hd by lia. destruct (_ && _) eqn:E.
        * zbool. rewrite Hget by lia. f_equal. unfold o. lia.
        * apply andb_false_iff in E. destruct E; zbool; lia.
      + apply HV. lia.
    - destruct err; [|done]. intros Hq. apply Herr. by apply (k_ff _ _ (ld_keeps _ _ L2)).
    - intros Hb. apply Hbok. apply bytes_ok_write; auto. }
  destruct z.
  - apply Hstep; [done|rewrite zlen_zeros; lia|intros; apply bytes_ok_zeros|]. intros i Hi. rewrite zget_zeros.
    rewrite (vbyte_chunk q o) by (done || (fold c; lia)). cbn. fold c. by rewrite <- Hz.
  - specialize (Hh eq_refl). set (e := mapping q (o / c)) in *.
    assert (Hco : clusterOffset e <> 0).
    { unfold reads_zero in Hz. symmetry in Hz. zbool. done. }
    destruct (data_in_file q (o / c) W Hco) as [Hp Hin]. fold e c in Hp, Hin.
    pose proof (wf_flen q W). unfold maxInt64 in *.
    assert (Hlc : zlen (zslice b done chunk) = chunk) by (apply zlen_slice; lia).
    assert (Hfl : flen q1 = flen q).
    { unfold flen, f_size. change (zlen (D q1) = zlen (D q)). by rewrite (ld_data _ _ L). }
    wstep. rewrite i64_small by lia. eapply wp_mono; [apply wp_fileReadAt| |done].
    + lia.
    + rewrite Hlc, Hfl. lia.
    + intros [d err] q2 (Hs & Hld & Hdb & Hd). cbn [fst snd] in *. rewrite Hlc in *.
      assert (Hdb' : bytes_ok b -> bytes_ok d).
      { intros Hb. apply Hdb; [rewrite (ld_data _ _ L); apply (wf_bytes q W)|by apply bytes_ok_slice]. }
      assert (L2 : loads q q2) by (eapply loads_trans; [done|]; by apply loads_sched; [apply L|]).
      destruct err as [err|].
      * wsteps. unfold read_post. splits; try done; try lia.
        -- rewrite zlen_write, Hld by lia. destruct (chunk =? 0) eqn:?; zbool; lia.
        -- intros i Hi. destruct (i <? done) eqn:?; zbool; [|lia].
           rewrite zget_write by lia. destruct (_ && _) eqn:?; zbool; [lia|done].
        -- intros Hq. apply Hd. by apply (k_ff _ _ (ld_keeps _ _ L)).
        -- intros Hb. apply bytes_ok_write; auto.
      * apply Hstep; [done|done|done|]. intros i Hi. subst d.
        rewrite (ld_data _ _ L), zget_slice, (vbyte_chunk q o) by (done || (fold c; lia)).
        cbn. fold c e. rewrite <- Hz, Hh. f_equal. lia.
Qed.

(** ReadAt implements a read of the virtual disk. *)
Lemma wp_ReadAt q b off : Inv q ->
  wp (ReadAt b off) q
    (fun r q' => let '(b', n, err) := r in
       Inv q' /\ same_view q q' /\ zlen b' = zlen b /\ 0 <= n <= zlen b /\
       (forall i, 0 <= i < n -> zget b' i = vbyte q (off + i)) /\
       (ff q -> 0 <= off -> n = Z.max 0 (Z.min (zlen b) (q_size q - off)) /\
                err = if n <? zlen b then Some EEOF else None) /\
       (ff q -> ff q') /\ (bytes_ok b -> bytes_ok b'))
    (fun _ _ => False).
Proof.
  intros HI. pose proof (proj1 HI) as W. pose proof (wf_geo q W) as Hg.
  pose proof (g_size q Hg). pose proof (zlen_nonneg b).
  assert (Hself : Inv q /\ same_view q q) by auto with go. destruct Hself.
  unfold ReadAt. wsteps. destruct (zlen b =? 0) eqn:?; zbool.
  { wsteps. splits; try done; try lia. intros.
    split; [lia|]. destruct (0 <? zlen b) eqn:?; zbool; [lia|done]. }
  destruct (off <? 0) eqn:?; zbool.
  { wsteps. splits; try done; try lia; intros; lia. }
  destruct (q_size q <=? off) eqn:?; zbool.
  { wsteps. splits; try done; try lia. intros.
    split; [lia|]. destruct (0 <? zlen b) eqn:?; zbool; [done|lia]. }
  set (remaining := if q_size q - off <? zlen b then q_size q - off else zlen b).
  assert (Hr : remaining = Z.min (zlen b) (q_size q - off)).
  { unfold remaining. destruct (_ <? _) eqn:?; zbool; lia. }
  wsteps. eapply wp_mono; [apply wp_readLoop| |done]; try done; try lia.
  { unfold zlen in *. lia. }
  intros [[b' n] err] q' (L & Hl & Hn & Hget & Herr & Hbok). cbn.
  assert (HI' : Inv q') by (by eapply loads_Inv).
  assert (HV : same_view q q') by (apply keeps_view; [done|apply L]).
  assert (Hget' : forall i, 0 <= i < n -> zget b' i = vbyte q (off + i)).
  { intros i Hi. rewrite Hget by lia. destruct (i <? 0) eqn:?; zbool; [lia|done]. }
  destruct err as [e|]; [wsteps|destruct (n <? zlen b) eqn:Hlt; zbool; wsteps];
    (splits; try done; try lia); try apply (ld_keeps _ _ L); intros; try done; split; try lia.
  - destruct (n <? zlen b) eqn:?; zbool; [done|lia].
  - destruct (n <? zlen b) eqn:?; zbool; [lia|done].
Qed.
