(* ===== verification/QcowFrame.v ===== *)
(** Frame lemmas: which parts of the invariant a change of the file touches.

    A write that stays away from data clusters and from L2 tables that are only
    on disk cannot change a mapping or a mapped byte ([file_change]); each
    component of [synced] depends on its own region of the file. *)

From S2P Require Import Prelude Bytes OsFile QcowHeader QcowImage QcowInv.

(** Positions outside every data cluster and every uncached L2 table. *)
Definition safe (q : qcow2Image) (P : Z -> Prop) : Prop := forall i, P i ->
  (forall g, clusterOffset (mapping q g) <> 0 ->
     ~ (clusterOffset (mapping q g) <= i < clusterOffset (mapping q g) + clusterSize q)) /\
  (forall k, zget (l1 q) k <> 0 -> l2Cache q !! k = None ->
     ~ (clusterOffset (zget (l1 q) k) <= i < clusterOffset (zget (l1 q) k) + clusterSize q)).

Lemma in_cluster_div x i c : 0 < c -> x mod c = 0 -> x <= i < x + c -> i / c = x / c.
Proof.
  intros Hc Hx Hi. symmetry. pose proof (div_mul_aligned x c Hc Hx).
  apply (Z.div_unique_pos i c _ (i - x)); lia.
Qed.

Lemma div_in_cluster x i c : 0 < c -> x mod c = 0 -> i / c = x / c -> x <= i < x + c.
Proof.
  intros Hc Hx Hi. pose proof (div_mul_aligned x c Hc Hx).
  pose proof (Z.div_mod i c ltac:(lia)). pose proof (Z.mod_pos_bound i c Hc). rewrite Hi in *. lia.
Qed.

Lemma safe_owner q w0 c0 :
  wf q -> owns q w0 c0 -> (forall g, w0 <> OData g) ->
  (forall k, w0 = OL2 k -> l2Cache q !! k <> None) -> safe q (fun i => i / clusterSize q = c0).
Proof.
  intros W Ho Hd Hl i Hi. destruct (geo_facts q (wf_geo q W)) as (Hcs & _). split.
  - intros g Hg Hin. destruct (wf_map q W g) as (_ & Hal & _).
    apply (Hd g). apply (wf_excl q W w0 (OData g) c0); [done|]. split; [done|].
    rewrite <- Hi. apply in_cluster_div; [lia|done|done].
  - intros k Hk Hc Hin. destruct (wf_l1 q W k) as (_ & Hal & _).
    apply (Hl k); [|done]. apply (wf_excl q W w0 (OL2 k) c0); [done|]. split; [done|].
    rewrite <- Hi. apply in_cluster_div; [lia|done|done].
Qed.

Lemma safe_free q c0 : wf q -> (forall w, ~ owns q w c0) -> safe q (fun i => i / clusterSize q = c0).
Proof.
  intros W Ho i Hi. destruct (geo_facts q (wf_geo q W)) as (Hcs & _). split.
  - intros g Hg Hin. destruct (wf_map q W g) as (_ & Hal & _).
    apply (Ho (OData g)). split; [done|]. rewrite <- Hi. by apply in_cluster_div; [lia| |].
  - intros k Hk Hc Hin. destruct (wf_l1 q W k) as (_ & Hal & _).
    apply (Ho (OL2 k)). split; [done|]. rewrite <- Hi. by apply in_cluster_div; [lia| |].
Qed.

Lemma safe_beyond q B : wf q -> below q B -> safe q (fun i => B <= i).
Proof.
  intros W [_ Hb] i Hi. destruct (geo_facts q (wf_geo q W)) as (Hcs & _). split.
  - intros g Hg Hin. destruct (wf_map q W g) as (_ & Hal & _).
    specialize (Hb (OData g) _ ltac:(done) (conj Hg eq_refl)).
    pose proof (div_mul_aligned _ (clusterSize q) ltac:(lia) Hal). lia.
  - intros k Hk Hc Hin. destruct (wf_l1 q W k) as (_ & Hal & _).
    specialize (Hb (OL2 k) _ ltac:(done) (conj Hk eq_refl)).
    pose proof (div_mul_aligned _ (clusterSize q) ltac:(lia) Hal). lia.
Qed.

Lemma safe_or q P1 P2 : safe q P1 -> safe q P2 -> safe q (fun i => P1 i \/ P2 i).
Proof. intros H1 H2 i [|]; auto. Qed.

Lemma safe_weaken q (P1 P2 : Z -> Prop) : safe q P1 -> (forall i, P2 i -> P1 i) -> safe q P2.
Proof. intros H1 H i Hi. auto. Qed.

Lemma below_mono q B B' : below q B -> B <= B' -> below q B'.
Proof. intros [H1 H2] HB. split; [lia|]. intros w c Hw Ho. specialize (H2 w c Hw Ho). lia. Qed.

Lemma l2_below q B k : wf q -> below q B -> zget (l1 q) k <> 0 ->
  clusterOffset (zget (l1 q) k) + clusterSize q <= B.
Proof.
  intros W [_ Hb] Hk. destruct (geo_facts q (wf_geo q W)) as (Hcs & _).
  destruct (wf_l1 q W k) as (_ & Hal & _).
  specialize (Hb (OL2 k) _ ltac:(done) (conj Hk eq_refl)).
  pose proof (div_mul_aligned _ (clusterSize q) ltac:(lia) Hal). lia.
Qed.

Lemma l1_offset_nonneg q k : wf q -> 0 <= clusterOffset (zget (l1 q) k).
Proof. intros W. destruct (wf_l1 q W k) as (Hu & _). apply clusterOffset_range, Hu. Qed.

(** Everything but the file, the refcount cache and the write fault is equal. *)
Record same_tables (q q' : qcow2Image) : Prop := {
  sm_static : static q q';
  sm_l1 : l1 q' = l1 q;
  sm_rt : refcountTable q' = refcountTable q;
  sm_l2c : l2Cache q' = l2Cache q
}.

Lemma same_tables_refl q : same_tables q q.
Proof. by constructor. Qed.

Lemma same_tables_trans q1 q2 q3 : same_tables q1 q2 -> same_tables q2 q3 -> same_tables q1 q3.
Proof. intros [] []. constructor; [by eapply static_trans|congruence..]. Qed.

#[export] Hint Resolve same_tables_refl : go.

(** ** A change of the file away from the guest's data *)

(** Positions outside every L2 table that is only on disk. *)
Definition safe_tables (q : qcow2Image) (P : Z -> Prop) : Prop := forall i, P i ->
  forall k, zget (l1 q) k <> 0 -> l2Cache q !! k = None ->
    ~ (clusterOffset (zget (l1 q) k) <= i < clusterOffset (zget (l1 q) k) + clusterSize q).

Section TablesChange.
Context (q q' : qcow2Image) (W : wf q) (P : Z -> Prop).
Context (Htab : safe_tables q P) (Hst : same_tables q q').
Context (Hsame : forall i, 0 <= i -> ~ P i -> zget (D q') i = zget (D q) i).
Context (Hbelow : below q (flen q')).

Lemma tables_table k : tableOf q' k = tableOf q k.
Proof.
  destruct Hst as [[] Hl1 _ Hc]. unfold tableOf. rewrite Hc, Hl1.
  destruct (l2Cache q !! k) eqn:E; [done|].
  rewrite (clusterOffset_l1_nonzero q) by apply (wf_l1 q W).
  destruct (zget (l1 q) k =? 0) eqn:Hk; [done|]. zbool.
  destruct (geo_facts q (wf_geo q W)) as (Hcs & _ & Hl2 & _ & ? & _).
  pose proof (l2_below q _ k W Hbelow Hk). pose proof (l2_below q _ k W (wf_below q W) Hk).
  pose proof (l1_offset_nonneg q k W). rewrite st_l2e.
  unfold flen, f_size, D in *.
  apply diskTable_agree; try lia. intros i Hi. apply Hsame; [lia|].
  intros HP. apply (Htab i HP k Hk E). lia.
Qed.

Lemma tables_map g : mapping q' g = mapping q g.
Proof. unfold mapping. by rewrite tables_table, (st_l2e _ _ (sm_static _ _ Hst)). Qed.

Lemma tables_wf : bytes_ok (D q') -> flen q' <= maxInt64 -> rcache_ok q' -> wf q'.
Proof.
  intros Hb Hm Hr. apply (wf_same q); try done; try apply Hst.
  - apply tables_map.
  - rewrite (sm_l2c _ _ Hst). apply (wf_l2cache q W).
Qed.

Lemma tables_owns w c : owns q' w c <-> owns q w c.
Proof. apply owns_same; try apply Hst. apply tables_map. Qed.

End TablesChange.

Section FileChange.
Context (q q' : qcow2Image) (W : wf q) (P : Z -> Prop).
Context (Hsafe : safe q P) (Hst : same_tables q q').
Context (Hsame : forall i, 0 <= i -> ~ P i -> zget (D q') i = zget (D q) i).
Context (Hbelow : below q (flen q')).

Lemma safe_safe_tables : safe_tables q P.
Proof using Hsafe. intros i Hi. apply (Hsafe i Hi). Qed.

Lemma change_map g : mapping q' g = mapping q g.
Proof. exact (tables_map q q' W P safe_safe_tables Hst Hsame Hbelow g). Qed.

Lemma change_keeps : (ff q -> ff q') -> keeps q q'.
Proof.
  intros Hff. constructor; [apply Hst|apply change_map| |done].
  intros g i Hg Hi. apply Hsame.
  - destruct (data_in_file q g W Hg). lia.
  - intros HP. destruct (Hsafe _ HP) as [Hno _]. apply (Hno g Hg). lia.
Qed.

Lemma change_wf : bytes_ok (D q') -> flen q' <= maxInt64 -> rcache_ok q' -> wf q'.
Proof. exact (tables_wf q q' W P safe_safe_tables Hst Hsame Hbelow). Qed.

Lemma change_owns w c : owns q' w c <-> owns q w c.
Proof. exact (tables_owns q q' W P safe_safe_tables Hst Hsame Hbelow w c). Qed.

End FileChange.

(** ** Frames of the synchronisation predicates *)

(** Two byte strings agree on the host cluster [c]. *)
Definition agree_cluster (cs : Z) (d d' : list Z) (c : Z) : Prop :=
  forall i, 0 <= i -> i / cs = c -> zget d' i = zget d i.

(** [d'] agrees with the file on the bytes that [w] uses of cluster [c]: the
    last cluster of the L1 table may be cut off by the end of the file. *)
Definition agree_owned (q : qcow2Image) (d' : list Z) (w : owner) (c : Z) : Prop :=
  forall i, 0 <= i -> i / clusterSize q = c ->
    (w = OL1 -> i < q_l1TableOffset q + zlen (l1 q) * 8) -> zget d' i = zget (D q) i.

Lemma agree_cluster_owned q d' w c : agree_cluster (clusterSize q) (D q) d' c -> agree_owned q d' w c.
Proof. intros H i Hi Hc _. by apply H. Qed.

#[export] Hint Resolve agree_cluster_owned : go.

Section SyncFrame.
Context (q : qcow2Image) (W : wf q) (d' : list Z) (Hbelow : below q (zlen d')).

Lemma frame_l1 :
  (forall c, owns q OL1 c -> agree_owned q d' OL1 c) ->
  diskTable d' (q_l1TableOffset q) (zlen (l1 q)) =
  diskTable (D q) (q_l1TableOffset q) (zlen (l1 q)).
Proof.
  intros H. pose proof (wf_geo q W) as Hg. destruct (geo_facts q Hg) as (Hcs & _).
  destruct (g_l1off q Hg) as [? Hal]. pose proof (zlen_nonneg (l1 q)).
  destruct Hbelow as [Hb _]. destruct (wf_below q W) as [Hb2 _]. unfold flen, f_size in Hb2.
  change (f_data (file q)) with (D q) in Hb2.
  apply diskTable_agree; try lia. intros i Hi. apply (H (i / clusterSize q)); try done; try lia.
  cbn. split; [apply Z.div_le_mono; lia|].
  apply Z.div_lt_upper_bound; [lia|].
  pose proof (Z.div_mod (q_l1TableOffset q + zlen (l1 q) * 8 + clusterSize q - 1) (clusterSize q) ltac:(lia)).
  pose proof (Z.mod_pos_bound (q_l1TableOffset q + zlen (l1 q) * 8 + clusterSize q - 1) (clusterSize q) ltac:(lia)).
  lia.
Qed.

Lemma frame_hdr : agree_owned q d' OHeader 0 -> headerOf d' = headerOf (D q).
Proof.
  intros H. destruct (geo_facts q (wf_geo q W)) as (Hcs & _).
  destruct Hbelow as [_ Hb]. destruct (wf_below q W) as [_ Hb2].
  specialize (Hb OHeader 0 ltac:(done) eq_refl). specialize (Hb2 OHeader 0 ltac:(done) eq_refl).
  unfold flen, f_size in Hb2. change (f_data (file q)) with (D q) in Hb2.
  assert (Ha : forall n, 0 <= n <= 104 -> zslice d' 0 n = zslice (D q) 0 n).
  { intros n Hn. apply zslice_agree; try lia. intros i Hi. apply H; [lia| |done]. apply Z.div_small. lia. }
  unfold headerOf. rewrite !Ha by (unfold qcow2HeaderV2Len, qcow2HeaderV3Len; lia). done.
Qed.

Lemma reftable_end :
  (q_refcountTableOffset q + zlen (refcountTable q) * 8) / clusterSize q * clusterSize q =
  q_refcountTableOffset q + zlen (refcountTable q) * 8.
Proof.
  pose proof (wf_geo q W) as Hg. destruct (geo_facts q Hg) as (Hcs & _).
  destruct (g_rtoff q Hg) as [_ Ha]. destruct (g_rtlen q Hg) as (_ & _ & Hb).
  apply div_mul_aligned; [lia|]. rewrite Z.add_mod, Ha, Hb by lia. apply Z.mod_0_l. lia.
Qed.

Lemma reftable_below B : below q B -> q_refcountTableOffset q + zlen (refcountTable q) * 8 <= B.
Proof.
  intros [_ Hb]. pose proof (wf_geo q W) as Hg. destruct (geo_facts q Hg) as (Hcs & _).
  pose proof reftable_end as He. destruct (g_rtoff q Hg) as [? Ha]. destruct (g_rtlen q Hg) as (? & _ & _).
  set (e := (q_refcountTableOffset q + zlen (refcountTable q) * 8) / clusterSize q) in *.
  assert (Hlt : q_refcountTableOffset q / clusterSize q < e).
  { pose proof (div_mul_aligned _ (clusterSize q) ltac:(lia) Ha). nia. }
  specialize (Hb ORefTable (e - 1) ltac:(done)). cbn in Hb. fold e in Hb.
  specialize (Hb ltac:(lia)). lia.
Qed.

Lemma frame_rt :
  (forall c, owns q ORefTable c -> agree_owned q d' ORefTable c) ->
  diskTable d' (q_refcountTableOffset q) (zlen (refcountTable q)) =
  diskTable (D q) (q_refcountTableOffset q) (zlen (refcountTable q)).
Proof.
  intros H. pose proof (wf_geo q W) as Hg. destruct (geo_facts q Hg) as (Hcs & _).
  destruct (g_rtoff q Hg) as [? Hal]. pose proof (zlen_nonneg (refcountTable q)).
  pose proof (reftable_below _ Hbelow). pose proof (reftable_below _ (wf_below q W)) as Hb2.
  unfold flen, f_size in Hb2. change (f_data (file q)) with (D q) in Hb2.
  apply diskTable_agree; try lia. intros i Hi. apply (H (i / clusterSize q)); try done; try lia.
  cbn. split; [apply Z.div_le_mono; lia|].
  apply Z.div_lt_upper_bound; [lia|]. pose proof reftable_end. lia.
Qed.

Lemma frame_l2 k : zget (l1 q) k <> 0 ->
  agree_owned q d' (OL2 k) (clusterOffset (zget (l1 q) k) / clusterSize q) ->
  diskTable d' (clusterOffset (zget (l1 q) k)) (l2Entries q) =
  diskTable (D q) (clusterOffset (zget (l1 q) k)) (l2Entries q).
Proof.
  intros Hk H. pose proof (wf_geo q W) as Hg. destruct (geo_facts q Hg) as (Hcs & _ & Hl2 & _ & ? & _).
  pose proof (l2_below q _ k W Hbelow Hk). pose proof (l2_below q _ k W (wf_below q W) Hk) as Hb2.
  unfold flen, f_size in Hb2. change (f_data (file q)) with (D q) in Hb2.
  pose proof (l1_offset_nonneg q k W). destruct (wf_l1 q W k) as (_ & Hal & _).
  apply diskTable_agree; try lia. intros i Hi. apply H; [lia| |done]. apply in_cluster_div; [lia|done|lia].
Qed.

Lemma refblock_below B k : below q B -> zget (refcountTable q) k <> 0 ->
  zget (refcountTable q) k + clusterSize q <= B.
Proof.
  intros [_ Hb] Hk. destruct (geo_facts q (wf_geo q W)) as (Hcs & _).
  destruct (wf_rt q W k) as (_ & Hal & _).
  specialize (Hb (ORefBlock k) _ ltac:(done) (conj Hk eq_refl)).
  pose proof (div_mul_aligned _ (clusterSize q) ltac:(lia) Hal). lia.
Qed.

Lemma frame_rb k : zget (refcountTable q) k <> 0 ->
  agree_owned q d' (ORefBlock k) (zget (refcountTable q) k / clusterSize q) ->
  zslice d' (zget (refcountTable q) k) (clusterSize q) =
  zslice (D q) (zget (refcountTable q) k) (clusterSize q).
Proof.
  intros Hk H. destruct (geo_facts q (wf_geo q W)) as (Hcs & _).
  pose proof (refblock_below _ k Hbelow Hk). pose proof (refblock_below _ k (wf_below q W) Hk) as Hb2.
  unfold flen, f_size in Hb2. change (f_data (file q)) with (D q) in Hb2.
  destruct (wf_rt q W k) as (Hu & Hal & _). unfold is_u64 in Hu.
  apply zslice_agree; try lia. intros i Hi. apply H; [lia| |done]. apply in_cluster_div; [lia|done|lia].
Qed.

End SyncFrame.

(** The refcount of [c] depends on the block slice only. *)
Lemma drc_block q c : wf q -> zget (refcountTable q) (c / refcountBlockEntries q) <> 0 ->
  drc q c = be_uint16 (zslice (D q) (zget (refcountTable q) (c / refcountBlockEntries q)) (clusterSize q))
              (c mod refcountBlockEntries q * 2).
Proof.
  intros W He. pose proof (geo_facts q (wf_geo q W)) as (Hcs & _ & _ & Hrb & _ & ?).
  destruct (wf_rt q W (c / refcountBlockEntries q)) as (Hu & _). unfold is_u64 in Hu.
  unfold drc. destruct (_ =? 0) eqn:?; zbool; [done|].
  pose proof (Z.mod_pos_bound c (refcountBlockEntries q) ltac:(lia)).
  unfold be_uint16. rewrite zslice_slice by lia. done.
Qed.

(** The cached refcount blocks agree with the file. *)
Definition rsync (q : qcow2Image) : Prop :=
  forall o i b, refcountCache q !! o = Some i ->
    zlookup (refcountBlocks q) i = Some b -> rb_data b = Some (zslice (D q) o (clusterSize q)).

Lemma drc_agree q q' c :
  wf q -> same_tables q q' -> below q (flen q') ->
  (zget (refcountTable q) (c / refcountBlockEntries q) <> 0 ->
   agree_owned q (D q') (ORefBlock (c / refcountBlockEntries q))
     (zget (refcountTable q) (c / refcountBlockEntries q) / clusterSize q)) ->
  drc q' c = drc q c.
Proof.
  intros W [[] Hl1 Hrt _] Hb Ha. unfold drc. rewrite Hrt, st_rbe.
  set (k := c / refcountBlockEntries q) in *.
  destruct (zget (refcountTable q) k =? 0) eqn:Hz; zbool; [done|].
  pose proof (geo_facts q (wf_geo q W)) as (Hcs & _ & _ & Hrb & _ & ?).
  destruct (wf_rt q W k) as (Hu & Hal & _). unfold is_u64 in Hu.
  pose proof (Z.mod_pos_bound c (refcountBlockEntries q) ltac:(lia)).
  pose proof (refblock_below q W _ k Hb Hz). pose proof (refblock_below q W _ k (wf_below q W) Hz).
  unfold flen, f_size in *. unfold be_uint16. f_equal.
  apply zslice_agree; unfold D in *; try lia. intros i Hi. apply (Ha Hz); [lia| |done].
  apply in_cluster_div; [lia|done|lia].
Qed.

(** A change confined to the clusters of one owner keeps every other part of
    the synchronisation. *)
Lemma synced_change q q' w0 :
  wf q -> synced q -> same_tables q q' -> below q (flen q') ->
  (forall w c, owns q w c -> w <> w0 -> agree_owned q (D q') w c) ->
  (forall w c, owns q' w c <-> owns q w c) -> rsync q' ->
  (w0 <> OHeader /\ w0 <> OL1 /\ w0 <> ORefTable /\ forall k, w0 <> OL2 k) ->
  (forall w c k, w0 = ORefBlock k -> owns q w c -> drc q' c = 1) -> synced q'.
Proof.
  intros W Sy Hst Hb Ha Ho Hr (N0 & N1 & N2 & N3) Hrc. pose proof Hst as [St Hl1 Hrt Hc].
  constructor.
  - rewrite (frame_hdr q W); [|done|by apply Ha]. pose proof (sy_hdr q Sy) as Hh. unfold header_matches in *.
    by rewrite (st_version _ _ St), (st_size _ _ St), (st_cs _ _ St), (st_l1off _ _ St), (st_rtoff _ _ St), Hl1, Hrt.
  - rewrite Hl1, (st_l1off _ _ St). etransitivity; [|apply (sy_l1 q Sy)].
    apply frame_l1; try done. intros c Hw. apply (Ha OL1); auto.
  - rewrite Hrt, (st_rtoff _ _ St). etransitivity; [|apply (sy_rt q Sy)].
    apply frame_rt; try done. intros c Hw. apply (Ha ORefTable); auto.
  - intros k t Hk. rewrite Hc in Hk. rewrite Hl1, (st_l2e _ _ St), (sy_l2 q Sy k t Hk).
    destruct (wf_l2cache q W k t Hk) as (_ & _ & Hnz). symmetry.
    apply frame_l2; try done. by apply (Ha (OL2 k)); [split|].
  - exact Hr.
  - intros w c Hw%Ho. destruct w0 as [| | |k|k|g] eqn:E; try done.
    + eauto.
    + by destruct (N3 k).
    + rewrite (drc_agree q q'); try done; [exact (sy_rc q Sy w c Hw)|].
      intros Hk; by apply (Ha (ORefBlock (c / refcountBlockEntries q))).
Qed.

(** A change away from every owned cluster. *)
Lemma synced_outside q q' :
  wf q -> synced q -> same_tables q q' -> below q (flen q') ->
  (forall w c, owns q w c -> agree_owned q (D q') w c) ->
  (forall w c, owns q' w c <-> owns q w c) -> rsync q' -> synced q'.
Proof.
  intros W Sy Hst Hb Ha Ho Hr. apply (synced_change q q' (OData 0)); try done. eauto.
Qed.
