(* ===== verification/QcowRefcount.v ===== *)
(** Refcounts and metadata writes: the FIFO cache of refcount blocks, the
    lookup and update of one refcount, and the recovery of a torn table entry
    (src/internal/disk/qcow2.go:722-830, qcow2_write.go). *)

From S2P Require Import Prelude Bytes OsFile QcowHeader QcowImage QcowInv QcowFrame.

(** Only the refcount cache differs. *)
Definition recached (q q' : qcow2Image) : Prop := exists c b n, q' = set_refcounts c b n q.

(** Every cached block but that of [o] agrees with the file. *)
Definition rsync_but (o : Z) (q : qcow2Image) : Prop :=
  forall o' i b, o' <> o -> refcountCache q !! o' = Some i ->
    zlookup (refcountBlocks q) i = Some b -> rb_data b = Some (zslice (D q) o' (clusterSize q)).

Lemma rsync_weaken o q : rsync q -> rsync_but o q.
Proof. intros H o' i b _. apply H. Qed.

Lemma rlimit_pos q : geometry q -> 2 <= qcow2RefcountCacheBytes / clusterSize q.
Proof.
  intros Hg. destruct (geo_facts q Hg) as (Hcs & _). unfold qcow2RefcountCacheBytes.
  apply Z.div_le_lower_bound; lia.
Qed.

Lemma zlookup_app_old {A} (l m : list A) i x : zlookup l i = Some x -> zlookup (l ++ m) i = Some x.
Proof.
  unfold zlookup. destruct (i <? 0); [done|]. intros H. by apply lookup_app_l_Some.
Qed.

Lemma zlookup_app_end {A} (l : list A) x : zlookup (l ++ [x]) (zlen l) = Some x.
Proof.
  unfold zlookup, zlen. destruct (_ <? 0) eqn:?; zbool; [lia|]. rewrite Nat2Z.id.
  by apply list_lookup_middle.
Qed.

Section Cache.
Context (q : qcow2Image) (G : geometry q) (R : rcache_ok q).

(** A slot is indexed by at most one offset, the one it holds. *)
Lemma slot_offset o i b : refcountCache q !! o = Some i -> zlookup (refcountBlocks q) i = Some b ->
  rb_offset b = o /\ exists d, rb_data b = Some d.
Proof using R.
  intros Ho Hb. destruct (rc_entry q R o i Ho) as [(d & Hd & _) _].
  rewrite Hd in Hb. injection Hb as <-. eauto.
Qed.

Lemma wp_invalidateRefcountBlock o :
  wp (invalidateRefcountBlock o) q
    (fun _ q' => recached q q' /\ rcache_ok q' /\ (rsync_but o q -> rsync q')) (fun _ _ => False).
Proof using R.
  clear G.
  pose proof (rc_len q R). pose proof (rc_next q R).
  unfold invalidateRefcountBlock. wsteps. destruct (refcountCache q !! o) as [i|] eqn:Ei.
  - destruct (rc_entry q R o i Ei) as [(d & Hd & _) _]. pose proof (zlookup_range _ _ _ Hd).
    wstep. eapply wp_gindex; [done|]. wsteps. split; [by do 3 eexists|].
    assert (Hk : forall o' j, delete o (refcountCache q) !! o' = Some j ->
      o' <> o /\ refcountCache q !! o' = Some j /\
      zlookup (zinsert i (mkBlock o None) (refcountBlocks q)) j = zlookup (refcountBlocks q) j).
    { intros o' j [Hne Hj]%lookup_delete_Some. splits; try done.
      rewrite zlookup_insert by lia. destruct (j =? i) eqn:Eji; zbool; [|done]. subst j.
      by destruct (slot_offset o' i _ Hj Hd). }
    split; [constructor; cbn|].
    + intros o' j Hj. destruct (Hk o' j Hj) as (_ & Hq & ->). apply (rc_entry q R o' j Hq).
    + by rewrite zlen_insert.
    + done.
    + intros Hs o' j b Hj Hb. cbn in Hj, Hb. destruct (Hk o' j Hj) as (Hne & Hq & He).
      rewrite He in Hb. by apply (Hs o' j b).
  - wsteps. split; [by exists (refcountCache q), (refcountBlocks q), (refcountCacheNext q); destruct q|].
    split; [done|]. intros Hs o' i b Ho'. apply (Hs o'); [congruence|done].
Qed.

Context (o : Z) (Hnz : o <> 0) (Ht : exists k, zget (refcountTable q) k = o).
Context (blk : list Z) (Hblk : zlen blk = clusterSize q).

(** Storing a block in slot [i], after dropping whatever used that slot. *)
Lemma store_ok cache blocks n i :
  (forall o' j, o' <> o -> cache !! o' = Some j ->
     j <> i /\ refcountCache q !! o' = Some j /\ zlookup blocks j = zlookup (refcountBlocks q) j) ->
  zlookup blocks i = Some (mkBlock o (Some blk)) ->
  zlen blocks <= qcow2RefcountCacheBytes / clusterSize q ->
  0 <= n < qcow2RefcountCacheBytes / clusterSize q ->
  let q' := set_refcounts (<[o := i]> cache) blocks n q in
  rcache_ok q' /\ (rsync_but o q -> blk = zslice (D q) o (clusterSize q) -> rsync q').
Proof.
  intros Hold Hnew Hlen Hn q'. split.
  - constructor; try done. intros o' j. cbn. destruct (decide (o' = o)) as [->|Hne].
    + rewrite lookup_insert_eq. intros [= <-]. eauto.
    + rewrite lookup_insert_ne by done. intros Hj.
      destruct (Hold o' j Hne Hj) as (_ & Hq & Hb). rewrite Hb. apply (rc_entry q R o' j Hq).
  - intros Hs Hd o' j b. cbn. destruct (decide (o' = o)) as [->|Hne].
    + rewrite lookup_insert_eq. intros [= <-] Hb. rewrite Hnew in Hb.
      injection Hb as <-. cbn. by f_equal.
    + rewrite lookup_insert_ne by done. intros Hj Hb.
      destruct (Hold o' j Hne Hj) as (_ & Hq & Hbl). rewrite Hbl in Hb. by apply (Hs o' j b).
Qed.

Lemma wp_cacheRefcountBlock :
  wp (cacheRefcountBlock o blk) q
    (fun _ q' => recached q q' /\ rcache_ok q' /\
       (rsync_but o q -> blk = zslice (D q) o (clusterSize q) -> rsync q'))
    (fun _ _ => False).
Proof.
  pose proof (rlimit_pos q G) as Hlim. pose proof (rc_len q R). pose proof (rc_next q R).
  unfold cacheRefcountBlock. wsteps. destruct (refcountCache q !! o) as [i|] eqn:Ei.
  - destruct (rc_entry q R o i Ei) as [(d & Hd & _) _]. pose proof (zlookup_range _ _ _ Hd).
    wstep. eapply wp_gindex; [done|]. wsteps. cbn. split; [by do 3 eexists|].
    rewrite <- (insert_id (refcountCache q) o i Ei).
    apply store_ok; [|by rewrite zlookup_insert, Z.eqb_refl by lia|by rewrite zlen_insert|done].
    intros o' j Hne Hj. assert (j <> i).
    { intros ->. destruct (slot_offset o' i _ Hj Hd) as [He _]. by apply Hne. }
    splits; try done. rewrite zlookup_insert by lia. by destruct (j =? i) eqn:?; zbool.
  - destruct (_ <? _) eqn:E; zbool.
    + wsteps. split; [by do 3 eexists|]. apply store_ok; [|apply zlookup_app_end| |done].
      * intros o' j Hne Hj. destruct (rc_entry q R o' j Hj) as [(d & Hd & _) _].
        pose proof (zlookup_range _ _ _ Hd).
        splits; [lia|done|]. rewrite Hd. by apply zlookup_app_old.
      * rewrite zlen_app. change (zlen [_]) with 1. lia.
    + destruct (zlookup_Some (refcountBlocks q) (refcountCacheNext q)) as [old Hold]; [lia|].
      wstep. eapply wp_gindex; [done|]. wsteps. split; [by do 3 eexists|].
      apply store_ok;
        [|by rewrite zlookup_insert, Z.eqb_refl by lia|by rewrite zlen_insert|apply Z.mod_pos_bound; lia].
      intros o' j Hne Hj.
      assert (Hq : refcountCache q !! o' = Some j /\ j <> refcountCacheNext q).
      { destruct (rb_data old) eqn:Ed.
        - apply lookup_delete_Some in Hj as [Hn Hj]. split; [done|]. intros ->.
          by destruct (slot_offset o' _ _ Hj Hold).
        - split; [done|]. intros ->. destruct (slot_offset o' _ _ Hj Hold) as [_ [? ?]]. congruence. }
      destruct Hq as [Hq Hj']. splits; try done. rewrite zlookup_insert by lia.
      by destruct (j =? _) eqn:?; zbool.
Qed.

End Cache.

(** ** Looking up a refcount *)

(** What a refcount lookup needs of the state; it holds before the data
    mappings are known, so opening an image can use it too. *)
Record rready (q : qcow2Image) : Prop := {
  rr_geo : geometry q;
  rr_rt : forall k, rtentry_ok q (zget (refcountTable q) k);
  rr_in : forall k, zget (refcountTable q) k <> 0 ->
    zget (refcountTable q) k + clusterSize q <= flen q;
  rr_flen : flen q <= maxInt64;
  rr_cache : rcache_ok q;
  rr_sync : rsync q
}.

Lemma wf_rready q : wf q -> rsync q -> rready q.
Proof.
  intros W S. constructor; try done; try apply W.
  intros k Hk. by apply refblock_below; [|apply wf_below|].
Qed.

(** Only the schedule and the refcount cache moved. *)
Definition rloads (q q' : qcow2Image) : Prop :=
  (exists fl c b n, q' = set_refcounts c b n (resched fl q)) /\ (ff q -> ff q') /\
  rcache_ok q' /\ rsync q'.

Lemma rloads_sched q q' : rcache_ok q -> rsync q -> sched q q' -> rloads q q'.
Proof.
  intros [] S (fl & -> & Hff). split; [|splits; [done|by constructor|done]].
  by exists fl, (refcountCache q), (refcountBlocks q), (refcountCacheNext q).
Qed.

Lemma rloads_refl q : rcache_ok q -> rsync q -> rloads q q.
Proof.
  intros. apply rloads_sched; try done. exists (f_faults (file q)). split; [|done].
  unfold resched, D. by destruct q as [[]].
Qed.

Lemma rloads_trans q1 q2 q3 : rloads q1 q2 -> rloads q2 q3 -> rloads q1 q3.
Proof.
  intros [(f1 & c1 & b1 & n1 & ->) [F1 _]] [(f2 & c2 & b2 & n2 & ->) (F2 & R & S)].
  split; [by exists f2, c2, b2, n2|]. auto.
Qed.

Lemma rloads_rready q q' : rready q -> rloads q q' -> rready q'.
Proof.
  intros [G Hrt Hin Hm _ _] [(fl & c & b & n & ->) (_ & R & S)].
  constructor; try done. destruct G; by constructor.
Qed.

Lemma rloads_loads q q' : wf q -> rloads q q' -> loads q q'.
Proof.
  intros W [(fl & c & b & n & ->) (Hff & R & S)].
  assert (St : same_tables q (set_refcounts c b n (resched fl q))) by by constructor.
  assert (HD : forall i, 0 <= i -> ~ False -> zget (D (set_refcounts c b n (resched fl q))) i = zget (D q) i)
    by done.
  assert (Hsafe : safe q (fun _ => False)) by done.
  constructor; try done.
  - apply (change_wf q _ W (fun _ => False)); try done; [apply (wf_below q W)|
      apply (wf_bytes q W)|apply (wf_flen q W)].
  - intros Sy. apply (synced_outside q); try done. apply W.
Qed.

Definition tableIndexOf (q : qcow2Image) (o : Z) : Z :=
  o / clusterSize q / refcountBlockEntries q.

Lemma refcountLocation_eq q o :
  geometry q -> (forall k, rtentry_ok q (zget (refcountTable q) k)) ->
  0 <= o -> o mod clusterSize q = 0 -> tableIndexOf q o < zlen (refcountTable q) ->
  let e := zget (refcountTable q) (tableIndexOf q o) in
  refcountLocation o q =
    (Ok (e, (o / clusterSize q) mod refcountBlockEntries q, negb (e =? 0)), q).
Proof.
  intros G Hrt Ho Hal Ht e. destruct (geo_facts q G) as (Hcs & _ & _ & _ & _ & Hrb).
  assert (0 <= tableIndexOf q o) by (apply Z.div_pos; [apply Z.div_pos|]; lia).
  unfold refcountLocation. rewrite Hal. cbn. fold (tableIndexOf q o).
  rewrite zlookup_zget by lia. fold e. destruct (e =? 0) eqn:He; zbool.
  - by rewrite He.
  - destruct (Hrt (tableIndexOf q o)) as (_ & Ha & Hm). fold e in Ha, Hm.
    by rewrite Hm, Ha.
Qed.

Lemma blockIndex_bound q o : geometry q ->
  0 <= (o / clusterSize q) mod refcountBlockEntries q * 2 <= clusterSize q - 2.
Proof.
  intros G. destruct (geo_facts q G) as (_ & _ & _ & Hrb & _ & ?).
  pose proof (Z.mod_pos_bound (o / clusterSize q) (refcountBlockEntries q) ltac:(lia)). lia.
Qed.

Lemma wp_blockUint16 q d i (Q : Z -> qcow2Image -> Prop) E :
  0 <= i -> i + 2 <= zlen d -> Q (be_uint16 d i) q -> wp (blockUint16 (Some d) i) q Q E.
Proof.
  intros Hi Hl HQ. unfold blockUint16. destruct (_ || _) eqn:Hc; [|done].
  apply orb_true_iff in Hc as [?|?]; zbool; lia.
Qed.

Lemma wp_refcount q o :
  rready q -> 0 <= o -> o mod clusterSize q = 0 ->
  wp (refcount o) q
    (fun v q' => v = drc q (o / clusterSize q) /\ rloads q q')
    (fun _ q' => rloads q q' /\ (~ ff q \/ zlen (refcountTable q) <= tableIndexOf q o)).
Proof.
  intros [G Hrt Hin Hm R S] Ho Hal. destruct (geo_facts q G) as (Hcs & _ & _ & Hrb & _ & Hrb2).
  pose proof (rloads_refl q R S) as Hrefl. pose proof (blockIndex_bound q o G) as Hbi.
  assert (0 <= tableIndexOf q o) by (apply Z.div_pos; [apply Z.div_pos|]; lia).
  unfold refcount. wstep. destruct (Z.lt_ge_cases (tableIndexOf q o) (zlen (refcountTable q))) as [Ht|Ht].
  2: { unfold wp at 1, refcountLocation. rewrite Hal. cbn. fold (tableIndexOf q o).
       destruct (zlookup (refcountTable q) (tableIndexOf q o)) eqn:Hl; [apply zlookup_range in Hl; lia|].
       split; [done|by right]. }
  unfold wp at 1. rewrite refcountLocation_eq by done. cbn.
  unfold drc. fold (tableIndexOf q o). set (e := zget (refcountTable q) (tableIndexOf q o)) in *.
  destruct (e =? 0) eqn:He; cbn; zbool; [wsteps; done|].
  destruct (Hrt (tableIndexOf q o)) as (Hu & Ha & _). fold e in Hu, Ha. unfold is_u64 in Hu.
  specialize (Hin (tableIndexOf q o) He). fold e in Hin.
  assert (Hv : be_uint16 (zslice (D q) e (clusterSize q)) ((o / clusterSize q) mod refcountBlockEntries q * 2) =
    be_uint16 (D q) (e + (o / clusterSize q) mod refcountBlockEntries q * 2)).
  { unfold be_uint16. by rewrite zslice_slice by lia. }
  wsteps. destruct (refcountCache q !! e) as [i|] eqn:Ei.
  - destruct (rc_entry q R e i Ei) as [(d & Hd & Hdl) _]. wstep. eapply wp_gindex; [done|].
    pose proof (S e i _ Ei Hd) as Hs. cbn in Hs. injection Hs as ->.
    apply wp_blockUint16; [lia|lia|]. done.
  - wstep. rewrite i64_small by (unfold maxInt64 in *; lia).
    eapply wp_mono; [apply wp_fileRead; lia| |].
    + intros b q1 [-> Hs]. pose proof Hs as (fl & -> & Hff).
      destruct (rloads_sched q _ R S Hs) as [_ (_ & R1 & S1)].
      assert (Hl : zlen (zslice (D q) e (clusterSize q)) = clusterSize q).
      { unfold flen, f_size in Hin. apply zlen_slice; unfold D; lia. }
      wstep. eapply wp_mono.
      { apply (wp_cacheRefcountBlock (resched fl q)); [by apply geometry_resched|done|done|by eexists|done]. }
      * intros _ q2 ((c & b & n & ->) & R2 & S2). apply wp_blockUint16; [lia|lia|].
        split; [done|]. split; [by exists fl, c, b, n|]. splits; try done.
        apply S2; [by apply rsync_weaken|done].
      * done.
    + intros e1 q1 [Hs Hn]. split; [by apply rloads_sched|by left].
Qed.

(** ** Writes *)

(** The file holds [d]; nothing else changed. *)
Definition rewrote (q q' : qcow2Image) (d : list Z) : Prop :=
  (exists fl, q' = set_file (mkFile d fl) q) /\ (ff q -> ff q').

Lemma rewrote_same q q' : rewrote q q' (D q) <-> sched q q'.
Proof.
  split.
  - intros [(fl & ->) Hff]. by exists fl.
  - intros (fl & -> & Hff). split; [by exists fl|done].
Qed.

Lemma rewrote_trans q1 q2 q3 d2 d3 : rewrote q1 q2 d2 -> rewrote q2 q3 d3 -> rewrote q1 q3 d3.
Proof. intros [(f1 & ->) F1] [(f2 & ->) F2]. split; [by exists f2|auto]. Qed.

Lemma rewrote_D q q' d : rewrote q q' d -> D q' = d.
Proof. by intros [(fl & ->) _]. Qed.

Lemma wp_fileWriteAt q b off :
  0 <= off ->
  wp (fileWriteAt b off) q
    (fun r q' => exists m, 0 <= m <= zlen b /\
       rewrote q q' (zwrite (D q) off (take (Z.to_nat m) b)) /\
       match snd r with
       | None => m = zlen b /\ fst r = zlen b
       | Some _ => ~ ff q
       end)
    (fun _ _ => False).
Proof.
  intros Ho. pose proof (zlen_nonneg b) as Hb. unfold wp, fileWriteAt, f_writeAt.
  destruct (off <? 0) eqn:?; zbool; [lia|]. destruct (next_fault (file q)) as [k|] eqn:Hf.
  - exists (clamp k (zlen b)). split; [by apply clamp_range|].
    split; [split; [by eexists|apply fault_free_with]|].
    intros H. apply fault_free_next in H. congruence.
  - exists (zlen b). split; [lia|]. rewrite take_ge by (unfold zlen; lia).
    split; [split; [by eexists|apply fault_free_with]|done].
Qed.

Lemma wp_fileTruncate q n :
  0 <= n ->
  wp (fileTruncate n) q (fun _ q' => rewrote q q' (zresize (D q) n))
    (fun _ q' => sched q q' /\ ~ ff q).
Proof.
  intros Hn. unfold wp, fileTruncate, f_truncate. destruct (n <? 0) eqn:?; zbool; [lia|].
  destruct (next_fault (file q)) eqn:Hf.
  - split; [eexists; split; [done|apply fault_free_with]|].
    intros H. apply fault_free_next in H. congruence.
  - split; [by eexists|apply fault_free_with].
Qed.

(** A write that stays inside the file does not change its length. *)
Lemma zlen_write_inside d off b m :
  0 <= off -> 0 <= m <= zlen b -> off + zlen b <= zlen d ->
  zlen (zwrite d off (take (Z.to_nat m) b)) = zlen d.
Proof.
  intros. rewrite zlen_write, zlen_take by lia. destruct (m =? 0) eqn:?; zbool; lia.
Qed.

Lemma zget_write_outside d off b m i :
  0 <= off -> 0 <= m <= zlen b -> 0 <= i -> ~ (off <= i < off + zlen b) ->
  zget (zwrite d off (take (Z.to_nat m) b)) i = zget d i.
Proof.
  intros. rewrite zget_write, zlen_take by lia. destruct (_ && _) eqn:E; zbool; [lia|done].
Qed.

Lemma wp_writeMetadata q b off :
  0 <= off <= maxInt64 ->
  wp (writeMetadata b off) q
    (fun _ q' => rewrote q q' (zwrite (D q) off b))
    (fun _ q' => ~ ff q /\ exists m, 0 <= m <= zlen b /\
       rewrote q q' (zwrite (D q) off (take (Z.to_nat m) b))).
Proof.
  intros Ho. unfold writeMetadata. wstep. rewrite i64_small by (unfold maxInt64 in *; lia).
  eapply wp_mono; [apply wp_fileWriteAt; lia| |done].
  intros [n [e|]] q' (m & Hm & Hw & H); cbn in *; wsteps; [by eauto|].
  destruct H as [-> ->]. rewrite Z.eqb_refl. wsteps. rewrite take_ge in Hw by (unfold zlen; lia). done.
Qed.

(** The bytes of one range were torn and further writes are disabled. *)
Definition torn (q q' : qcow2Image) (off n : Z) : Prop :=
  exists d fl f, q' = set_writeFault (Some f) (set_file (mkFile d fl) q) /\ zlen d = flen q /\
    (forall i, 0 <= i -> ~ (off <= i < off + n) -> zget d i = zget (D q) i) /\
    (bytes_ok (D q) -> bytes_ok d).

Lemma wp_writeMetadataEntry q off previous next :
  0 <= off -> off + 8 <= flen q -> flen q <= maxInt64 -> zslice (D q) off 8 = be_bytes 8 previous ->
  wp (writeMetadataEntry off previous next) q
    (fun _ q' => rewrote q q' (zwrite (D q) off (be_bytes 8 next)))
    (fun _ q' => ~ ff q /\ (sched q q' \/ torn q q' off 8)).
Proof.
  intros Ho Hl Hm Hprev. unfold flen, f_size in *. fold (D q) in *.
  assert (H8 : forall v, zlen (be_bytes 8 v) = 8) by (intros; apply zlen_be_bytes).
  unfold writeMetadataEntry. wsteps. eapply wp_mono; [apply wp_writeMetadata; lia| |].
  - intros [] q' Hw. by wsteps.
  - intros e q1 (Hf & m & Hm1 & Hw1). rewrite H8 in Hm1. wsteps.
    pose proof (rewrote_D _ _ _ Hw1) as HD1.
    eapply wp_mono; [apply wp_writeMetadata; lia| |].
    + intros [] q2 Hw2. wsteps. split; [done|]. left. apply rewrote_same.
      rewrite HD1 in Hw2.
      assert (He : zwrite (zwrite (D q) off (take (Z.to_nat m) (be_bytes 8 next))) off (be_bytes 8 previous) = D q).
      { apply zlist_eq.
        - rewrite zlen_write, H8, zlen_write_inside by (rewrite ?H8; lia). cbn. lia.
        - intros i Hi. rewrite zlen_write, H8, zlen_write_inside in Hi by (rewrite ?H8; lia). cbn in Hi.
          rewrite zget_write, H8 by lia. destruct (_ && _) eqn:E; zbool.
          + rewrite <- Hprev, zget_slice by lia. f_equal. lia.
          + apply zget_write_outside; rewrite ?H8; lia. }
      rewrite He in Hw2. by eapply rewrote_trans.
    + intros e2 q2 (Hf2 & m2 & Hm2 & Hw2). rewrite H8 in Hm2. wsteps. split; [done|]. right.
      rewrite HD1 in Hw2. destruct Hw1 as [(fl1 & ->) _], Hw2 as [(fl2 & ->) _].
      eexists _, fl2, _. split; [reflexivity|]. splits.
      * by rewrite !zlen_write_inside by (rewrite ?H8, ?zlen_write_inside; rewrite ?H8; lia).
      * intros i Hi Hn. by rewrite !zget_write_outside by (rewrite ?H8; lia).
      * intros Hb. apply bytes_ok_write; [apply bytes_ok_write|]; [done|..]; apply Forall_take, be_bytes_ok.
Qed.

(** ** Updating a refcount *)

(** The file offset of the refcount of the cluster at [o]. *)
Definition slotOf (q : qcow2Image) (o : Z) : Z :=
  zget (refcountTable q) (tableIndexOf q o) + (o / clusterSize q) mod refcountBlockEntries q * 2.

(** The block that holds the refcount of [o] exists. *)
Definition covered (q : qcow2Image) (o : Z) : Prop :=
  0 <= o /\ o mod clusterSize q = 0 /\ tableIndexOf q o < zlen (refcountTable q) /\
  zget (refcountTable q) (tableIndexOf q o) <> 0.

Lemma slot_in_block q o : rready q -> covered q o ->
  let e := zget (refcountTable q) (tableIndexOf q o) in
  0 < e /\ e <= slotOf q o /\ slotOf q o + 2 <= e + clusterSize q /\ e + clusterSize q <= flen q.
Proof.
  intros R (Ho & Hal & Ht & Hnz) e. pose proof (blockIndex_bound q o (rr_geo q R)).
  destruct (rr_rt q R (tableIndexOf q o)) as (Hu & _). unfold is_u64 in Hu. fold e in Hu, Hnz.
  pose proof (rr_in q R _ Hnz). unfold slotOf. fold e in H0 |- *. lia.
Qed.

(** Two cluster-aligned offsets are equal or a cluster apart. *)
Lemma aligned_apart a b c : 0 < c -> a mod c = 0 -> b mod c = 0 -> a <> b -> a + c <= b \/ b + c <= a.
Proof.
  intros Hc Ha Hb Hne. pose proof (div_mul_aligned a c Hc Ha). pose proof (div_mul_aligned b c Hc Hb).
  destruct (Z.lt_trichotomy (a / c) (b / c)) as [?|[He|?]]; [left; nia|congruence|right; nia].
Qed.

Lemma rsync_but_write q q1 o b m :
  rready q -> covered q o -> zlen b = 2 -> 0 <= m <= 2 ->
  rewrote q q1 (zwrite (D q) (slotOf q o) (take (Z.to_nat m) b)) ->
  rsync_but (zget (refcountTable q) (tableIndexOf q o)) q1.
Proof.
  intros R C Hb Hm [(fl & ->) _] o' i blk Hne Hi Hblk. cbn in *.
  destruct (slot_in_block q o R C) as (He & Hs1 & Hs2 & Hfl).
  destruct (geo_facts q (rr_geo q R)) as (Hcs & _).
  destruct (rc_entry q (rr_cache q R) o' i Hi) as (_ & Hnz & k & Hk).
  rewrite (rr_sync q R o' i blk Hi Hblk). f_equal.
  pose proof (rr_in q R k) as Hin. destruct (rr_rt q R k) as (Hu & Ha & _). rewrite Hk in *.
  destruct (rr_rt q R (tableIndexOf q o)) as (_ & Ha2 & _). unfold is_u64 in Hu.
  specialize (Hin Hnz). unfold flen, f_size in *. fold (D q) in *.
  apply zslice_agree; rewrite ?zlen_write_inside by lia; try lia.
  intros j Hj. symmetry. apply zget_write_outside; try lia.
  destruct (aligned_apart _ _ (clusterSize q) ltac:(lia) Ha Ha2 Hne); lia.
Qed.

(** The effect of an update that wrote the first [m] bytes of the refcount. *)
Definition refWritten (q q' : qcow2Image) (o rc m : Z) : Prop :=
  exists q1, rewrote q q1 (zwrite (D q) (slotOf q o) (take (Z.to_nat m) (be_bytes 2 rc))) /\
    recached q1 q' /\ rcache_ok q' /\ rsync q'.

Lemma wp_setRefcount_raw q o rc :
  rready q -> covered q o ->
  wp (setRefcount o rc) q (fun _ q' => refWritten q q' o rc 2)
    (fun _ q' => ~ ff q /\ exists m, 0 <= m <= 2 /\ refWritten q q' o rc m).
Proof.
  intros R C. destruct (slot_in_block q o R C) as (He & Hs1 & Hs2 & Hfl).
  pose proof C as (Ho & Hal & Ht & Hnz). pose proof R as [G Hrt _ Hmax Rc Sy].
  assert (H2 : zlen (be_bytes 2 rc) = 2) by apply zlen_be_bytes.
  pose proof (blockIndex_bound q o G) as Hbi. unfold maxInt64 in *.
  unfold setRefcount. wstep. unfold wp at 1. rewrite refcountLocation_eq by done. cbn -[slotOf be_bytes].
  destruct (_ =? 0) eqn:E0; zbool; [done|]. cbn -[slotOf be_bytes]. fold (slotOf q o).
  wsteps. rewrite u64_small by (unfold maxInt64 in *; lia).
  eapply wp_mono; [apply wp_writeMetadata; unfold maxInt64; lia| |].
  - intros [] q1 Hw. pose proof Hw as Hw'. rewrite <- (take_ge (be_bytes 2 rc) (Z.to_nat 2)) in Hw' by (cbn; lia).
    pose proof (rsync_but_write q q1 o _ 2 R C H2 ltac:(lia) Hw') as Hb.
    pose proof Hw as [(fl & ->) Hff]. wsteps. cbn -[slotOf be_bytes].
    set (e := zget (refcountTable q) (tableIndexOf q o)) in *.
    assert (Hout : forall q', recached (set_file (mkFile (zwrite (D q) (slotOf q o) (be_bytes 2 rc)) fl) q) q' ->
      rcache_ok q' -> rsync q' -> refWritten q q' o rc 2) by (intros; by eexists).
    destruct (refcountCache q !! e) as [i|] eqn:Ei.
    + destruct (rc_entry q Rc e i Ei) as [(d & Hd & Hdl) _]. pose proof (zlookup_range _ _ _ Hd).
      wstep. eapply wp_gindex; [done|]. cbn -[slotOf be_bytes].
      destruct (_ <? _) eqn:?; zbool; [lia|]. wsteps.
      pose proof (Sy e i _ Ei Hd) as Hs. cbn in Hs. injection Hs as ->.
      set (bi := (o / clusterSize q) mod refcountBlockEntries q * 2) in *.
      assert (Hblk : zwrite (zslice (D q) e (clusterSize q)) bi (be_bytes 2 rc) =
                zslice (zwrite (D q) (slotOf q o) (be_bytes 2 rc)) e (clusterSize q)).
      { unfold flen, f_size in *. fold (D q) in *. assert (slotOf q o = e + bi) as -> by reflexivity.
        apply zlist_eq.
        - rewrite zlen_write, H2, !zlen_slice by (try (rewrite zlen_write, H2 by lia); cbn; lia). cbn; lia.
        - intros j Hj. rewrite zlen_write, H2, zlen_slice in Hj by lia. cbn in Hj.
          rewrite zget_slice by lia. rewrite !zget_write, H2 by lia.
          destruct (bi <=? j) eqn:?, (j <? bi + 2) eqn:?, (e + bi <=? e + j) eqn:?,
            (e + j <? e + bi + 2) eqn:?; zbool; try lia; cbn; rewrite ?zget_slice by lia; f_equal; lia. }
      apply Hout; [by do 3 eexists| |].
      * destruct Rc as [Re Rl Rn]. constructor; cbn -[slotOf be_bytes]; [|by rewrite zlen_insert|done].
        intros o' j Hj. rewrite zlookup_insert by lia. destruct (j =? i) eqn:Eji; zbool; [|by apply Re].
        subst j. destruct (Re o' i Hj) as [(d' & Hd' & _) Hrest]. rewrite Hd in Hd'. injection Hd' as <- <-.
        split; [|done]. eexists. split; [done|]. rewrite zlen_write, H2 by lia. cbn. lia.
      * intros o' j b Hj. cbn -[slotOf be_bytes] in *. rewrite zlookup_insert by lia.
        destruct (j =? i) eqn:Eji; zbool.
        -- subst j. intros [= <-]. cbn. f_equal.
           destruct (rc_entry q Rc o' i Hj) as [(d' & Hd' & _) _]. rewrite Hd in Hd'. by injection Hd' as <- _.
        -- intros Hbl. apply (Hb o' j b); try done. intros ->. congruence.
    + wsteps. apply Hout; [by do 3 eexists|destruct Rc; by constructor|].
      intros o' j b Hj Hbl. apply (Hb o' j b); try done. intros ->. cbn in Hj. congruence.
  - intros e1 q1 (Hf & m & Hm & Hw). rewrite H2 in Hm.
    pose proof (rsync_but_write q q1 o _ m R C H2 Hm Hw) as Hb.
    pose proof Hw as [(fl & ->) Hff]. wsteps.
    eapply wp_mono; [apply wp_invalidateRefcountBlock; destruct Rc; constructor; assumption| |done].
    intros [] q2 (Hr & Rc2 & Sy2). wsteps. split; [done|]. exists m. split; [done|].
    eexists. splits; [exact Hw|exact Hr|done|auto].
Qed.
