(* ===== verification/QcowAlloc.v ===== *)
(** Allocation of host clusters (src/internal/disk/qcow2.go:619-720,
    qcow2_write.go): refcount updates of free clusters, new refcount blocks,
    the new cluster itself and its rollback. *)

From S2P Require Import Prelude Bytes OsFile QcowHeader QcowImage QcowInv QcowFrame QcowRefcount.

(** The state in which a write may start. *)
Definition Good (q : qcow2Image) : Prop := wf q /\ synced q /\ writeFault q = None.

Definition unowned (q : qcow2Image) (c : Z) : Prop := forall w, ~ owns q w c.

Lemma Good_Inv q : Good q -> Inv q.
Proof. by intros (W & S & _). Qed.

Lemma Good_rready q : Good q -> rready q.
Proof. intros (W & S & _). apply wf_rready; [done|exact (sy_rb q S)]. Qed.

Lemma Good_geo q : Good q -> geometry q.
Proof. intros (W & _). apply W. Qed.

#[export] Hint Resolve Good_Inv Good_rready Good_geo : go.

(** ** Refcount of a free cluster *)

Record refstep (q q' : qcow2Image) : Prop := {
  rs_keeps : keeps q q';
  rs_tables : same_tables q q';
  rs_good : Good q';
  rs_flen : flen q' = flen q;
  rs_owns : forall w c, owns q' w c <-> owns q w c;
  rs_agree : forall c, (forall k, ~ owns q (ORefBlock k) c) -> agree_cluster (clusterSize q) (D q) (D q') c
}.

Section SetRefcount.
Context (q q' : qcow2Image) (Hq : Good q) (o rc m : Z) (C : covered q o) (Hm : 0 <= m <= 2).
Context (Hw : refWritten q q' o rc m).
Let k0 := tableIndexOf q o.
Let e := zget (refcountTable q) k0.

Lemma refWritten_tables : same_tables q q'.
Proof using Hw. destruct Hw as (q1 & [(fl & ->) _] & (c & b & n & ->) & _). by constructor. Qed.

Lemma refWritten_get i : 0 <= i -> ~ (slotOf q o <= i < slotOf q o + 2) -> zget (D q') i = zget (D q) i.
Proof using Hq C Hm Hw.
  intros Hi Hn. destruct (slot_in_block q o (Good_rready q Hq) C) as (? & ? & _).
  destruct Hw as (q1 & Hr & (c & b & n & ->) & _). apply rewrote_D in Hr.
  change (D (set_refcounts c b n q1)) with (D q1). rewrite Hr.
  apply zget_write_outside; rewrite ?zlen_be_bytes; lia.
Qed.

Lemma refWritten_flen : flen q' = flen q.
Proof using Hq C Hm Hw.
  destruct (slot_in_block q o (Good_rready q Hq) C) as (? & ? & ? & ?).
  destruct Hw as (q1 & Hr & (c & b & n & ->) & _). apply rewrote_D in Hr.
  unfold flen, f_size in *. change (f_data (file (set_refcounts c b n q1))) with (D q1). rewrite Hr.
  fold (D q) in *. apply zlen_write_inside; rewrite ?zlen_be_bytes; lia.
Qed.

Lemma slot_cluster i : slotOf q o <= i < slotOf q o + 2 -> i / clusterSize q = e / clusterSize q.
Proof using Hq C.
  intros Hi. destruct (slot_in_block q o (Good_rready q Hq) C) as (? & ? & ? & ?).
  destruct (rr_rt q (Good_rready q Hq) k0) as (_ & Ha & _).
  destruct (geo_facts q (Good_geo q Hq)) as (Hcs & _).
  apply in_cluster_div; [lia|done|]. unfold e, k0. lia.
Qed.

Lemma slot_owner : owns q (ORefBlock k0) (e / clusterSize q).
Proof using C. destruct C as (_ & _ & _ & Hnz). by split. Qed.

Lemma refWritten_agree c : c <> e / clusterSize q -> agree_cluster (clusterSize q) (D q) (D q') c.
Proof using Hq C Hm Hw.
  intros Hc i Hi Hic. apply refWritten_get; [done|]. intros Hs. apply slot_cluster in Hs. congruence.
Qed.

Lemma refWritten_drc c : c <> o / clusterSize q -> drc q' c = drc q c.
Proof using Hq C Hm Hw.
  intros Hc. pose proof Hq as (W & _). pose proof refWritten_tables as T.
  destruct (geo_facts q (wf_geo q W)) as (Hcs & _ & _ & Hrb & _ & Hrb2).
  destruct (Z.eq_dec (c / refcountBlockEntries q) k0) as [Ek|Ek].
  - unfold drc. rewrite (sm_rt _ _ T), (st_rbe _ _ (sm_static _ _ T)), Ek. fold e.
    destruct (e =? 0); [done|]. destruct (slot_in_block q o (Good_rready q Hq) C) as (? & ? & ? & ?).
    unfold be_uint16. f_equal. fold k0 in H, H0, H1, H2. fold e in H, H0, H1, H2.
    pose proof (Z.mod_pos_bound c (refcountBlockEntries q) ltac:(lia)).
    pose proof refWritten_flen. unfold flen, f_size in *. fold (D q) (D q') in *.
    apply zslice_agree; try lia. intros i Hi. apply refWritten_get; [lia|].
    assert (c mod refcountBlockEntries q <> (o / clusterSize q) mod refcountBlockEntries q).
    { intros Hmod. apply Hc. rewrite (Z.div_mod c (refcountBlockEntries q)) by lia.
      rewrite (Z.div_mod (o / clusterSize q) (refcountBlockEntries q)) by lia.
      rewrite Hmod, Ek. reflexivity. }
    unfold slotOf. fold k0. fold e. lia.
  - apply drc_agree; try done; [rewrite refWritten_flen; apply W|].
    intros Hnz. apply agree_cluster_owned, refWritten_agree. intros Heq. apply Ek.
    assert (Hor : ORefBlock (c / refcountBlockEntries q) = ORefBlock k0).
    { apply (wf_excl q W _ _ (e / clusterSize q)); [by split|apply slot_owner]. }
    by injection Hor.
Qed.

Lemma refWritten_drc_same : 0 <= rc < 2 ^ 16 -> m = 2 -> drc q' (o / clusterSize q) = rc.
Proof using Hq C Hm Hw.
  intros Hrc Em. pose proof refWritten_tables as T. pose proof C as (_ & _ & _ & Hnz).
  destruct (slot_in_block q o (Good_rready q Hq) C) as (? & ? & _).
  unfold drc. rewrite (sm_rt _ _ T), (st_rbe _ _ (sm_static _ _ T)). fold (tableIndexOf q o).
  destruct (_ =? 0) eqn:?; zbool; [done|]. fold (slotOf q o).
  destruct Hw as (q1 & Hr & (c & b & n & ->) & _). apply rewrote_D in Hr.
  change (D (set_refcounts c b n q1)) with (D q1). rewrite Hr, Em.
  rewrite (take_ge (be_bytes 2 rc)) by (cbn; lia). unfold be_uint16.
  change 2 with (zlen (be_bytes 2 rc)) at 1. rewrite zslice_write by lia.
  apply be_val_bytes. done.
Qed.

Lemma refWritten_step : unowned q (o / clusterSize q) -> refstep q q'.
Proof using Hq C Hm Hw.
  intros Hfree. pose proof Hq as (W & Sy & Hf). pose proof refWritten_tables as T.
  set (P := fun i => i / clusterSize q = e / clusterSize q).
  assert (HP : safe q P) by (by apply (safe_owner q (ORefBlock k0)); [|apply slot_owner| |]).
  assert (Hsame : forall i, 0 <= i -> ~ P i -> zget (D q') i = zget (D q) i).
  { intros i Hi HPi. apply refWritten_get; [done|]. intros Hs. by apply HPi, slot_cluster. }
  assert (Hb : below q (flen q')) by (rewrite refWritten_flen; apply W).
  assert (Ho : forall w c, owns q' w c <-> owns q w c) by (intros; by apply (change_owns q q' W P)).
  destruct Hw as (q1 & Hr & Hrc & Rc & Rs).
  assert (Hff : ff q -> ff q') by (destruct Hr as [_ Hff], Hrc as (? & ? & ? & ->); exact Hff).
  constructor; try done; [by apply (change_keeps q q' W P)| |apply refWritten_flen|].
  - split; [|split].
    + apply (change_wf q q' W P); try done; [|rewrite refWritten_flen; apply W].
      destruct Hrc as (? & ? & ? & ->). apply rewrote_D in Hr.
      change (bytes_ok (D q1)). rewrite Hr. apply bytes_ok_write; [apply W|]. apply Forall_take, be_bytes_ok.
    + apply (synced_change q q' (ORefBlock k0)); try done.
      * intros w c Hc Hne. apply agree_cluster_owned, refWritten_agree. intros ->. apply Hne.
        apply (wf_excl q W _ _ _ Hc slot_owner).
      * intros w c k _ Hc. rewrite refWritten_drc; [by apply (sy_rc q Sy w)|].
        intros ->. by apply (Hfree w).
    + destruct Hr as [(fl & ->) _], Hrc as (? & ? & ? & ->). done.
  - intros c Hc. apply refWritten_agree. intros ->. apply (Hc k0), slot_owner.
Qed.

End SetRefcount.

Lemma wp_setRefcount q o rc :
  Good q -> covered q o -> unowned q (o / clusterSize q) -> 0 <= rc < 2 ^ 16 ->
  wp (setRefcount o rc) q
    (fun _ q' => refstep q q' /\ drc q' (o / clusterSize q) = rc)
    (fun _ q' => refstep q q' /\ ~ ff q).
Proof.
  intros G C Hf Hrc. eapply wp_mono; [apply wp_setRefcount_raw; auto with go| |].
  - intros [] q' Hw. split; [|by eapply (refWritten_drc_same q q' G o rc 2)].
    by apply (refWritten_step q q' G o rc 2).
  - intros e q' (Hn & m & Hm & Hw). split; [|done]. by apply (refWritten_step q q' G o rc m).
Qed.

(** ** Changing the length of the file *)

Record tailstep (q q' : qcow2Image) (n : Z) : Prop := {
  ts_keeps : keeps q q';
  ts_tables : same_tables q q';
  ts_good : Good q';
  ts_flen : flen q' = n;
  ts_owns : forall w c, owns q' w c <-> owns q w c;
  ts_get : forall i, zget (D q') i = if i <? n then zget (D q) i else 0;
  ts_rc : forall c, covered q (c * clusterSize q) -> drc q' c = drc q c
}.

Lemma owned_bytes q w c i B : wf q -> below q B -> owns q w c -> 0 <= i -> i / clusterSize q = c ->
  (w = OL1 -> i < q_l1TableOffset q + zlen (l1 q) * 8) -> i < B.
Proof.
  intros W [Hb1 Hb2] Ho Hi Hc Hl. destruct (geo_facts q (wf_geo q W)) as (Hcs & _).
  destruct (decide (w = OL1)) as [->|Hw]; [specialize (Hl eq_refl); lia|].
  specialize (Hb2 w c Hw Ho). pose proof (Z.div_mod i (clusterSize q) ltac:(lia)).
  pose proof (Z.mod_pos_bound i (clusterSize q) ltac:(lia)). nia.
Qed.

(** Cached refcount blocks below the kept length stay in agreement. *)
Lemma rsync_agree q q' :
  wf q -> rsync q -> same_tables q q' -> below q (flen q') ->
  refcountCache q' = refcountCache q -> refcountBlocks q' = refcountBlocks q ->
  (forall k c, owns q (ORefBlock k) c -> agree_owned q (D q') (ORefBlock k) c) -> rsync q'.
Proof.
  intros W S T Hb Hc Hbl Ha o i b Ho Hi. rewrite Hc in Ho. rewrite Hbl in Hi.
  rewrite (S o i b Ho Hi), (st_cs _ _ (sm_static _ _ T)). f_equal.
  destruct (rc_entry q (wf_rcache q W) o i Ho) as (_ & Hnz & k & <-).
  symmetry. apply frame_rb; try done. by apply Ha; split.
Qed.

Lemma truncate_step q q' n :
  Good q -> below q n -> 0 <= n <= maxInt64 -> rewrote q q' (zresize (D q) n) -> tailstep q q' n.
Proof.
  intros (W & Sy & Hf) Hb Hn [(fl & ->) Hff].
  set (q' := set_file (mkFile (zresize (D q) n) fl) q) in *.
  assert (Hg : forall i, zget (D q') i = if i <? n then zget (D q) i else 0)
    by (intros; apply zget_resize; lia).
  assert (Hl : flen q' = n) by (apply zlen_resize; lia).
  assert (T : same_tables q q') by by constructor.
  set (P := fun i => n <= i).
  assert (HP : safe q P) by by apply safe_beyond.
  assert (Hsame : forall i, 0 <= i -> ~ P i -> zget (D q') i = zget (D q) i).
  { intros i Hi HPi. rewrite Hg. destruct (i <? n) eqn:?; zbool; [done|]. by destruct HPi. }
  assert (Hb' : below q (flen q')) by by rewrite Hl.
  assert (Ha : forall w c, owns q w c -> agree_owned q (D q') w c).
  { intros w c Ho i Hi Hc Hlt. apply Hsame; [done|]. unfold P.
    pose proof (owned_bytes q w c i n W Hb Ho Hi Hc Hlt). lia. }
  assert (Ho : forall w c, owns q' w c <-> owns q w c) by (intros; by apply (change_owns q q' W P)).
  constructor; try done; [by apply (change_keeps q q' W P)| |].
  - split; [|split; [|done]].
    + apply (change_wf q q' W P); try done; [|lia|destruct (wf_rcache q W); constructor; assumption].
      apply bytes_ok_resize, W.
    + apply (synced_outside q q'); try done. apply (rsync_agree q q'); auto. exact (sy_rb q Sy).
  - intros c Hc. apply drc_agree; try done. intros Hz. apply Ha. by split.
Qed.

(** A torn write past the end, cut back to the old length, leaves no trace. *)
Lemma resize_write d off b m : 0 <= m <= zlen b -> zlen d <= off ->
  zresize (zwrite d off (take (Z.to_nat m) b)) (zlen d) = d.
Proof.
  intros Hm Ho. pose proof (zlen_nonneg d).
  apply zlist_eq; [by rewrite zlen_resize by lia|]. intros i Hi. rewrite zlen_resize in Hi by lia.
  rewrite zget_resize by lia. destruct (i <? zlen d) eqn:?; zbool; [|lia].
  rewrite zget_write, zlen_take by lia. destruct (_ && _) eqn:?; zbool; [lia|done].
Qed.

(** The stored bytes of an entry of a synchronised table. *)
Lemma table_entry_bytes d off n t i :
  bytes_ok d -> 0 <= off -> off + n * 8 <= zlen d -> diskTable d off n = t -> 0 <= i < n ->
  zslice d (off + i * 8) 8 = be_bytes 8 (zget t i).
Proof.
  intros Hb Ho Hl <- Hi. rewrite zget_diskTable by lia. unfold be_uint64.
  apply be_val_inj; auto with go.
  - unfold be_bytes. rewrite length_rev, length_le_bytes.
    unfold zslice. rewrite length_take, length_drop. unfold zlen in *. lia.
  - rewrite be_val_bytes; [done|]. change (256 ^ Z.of_nat 8) with (2 ^ 64). by apply be_uint64_range.
Qed.

(** ** A new refcount block *)

Lemma land_refcountMask e : 0 <= e < 2 ^ 64 -> e mod 512 = 0 -> e &&& qcow2RefcountOffsetMask = e.
Proof.
  intros He Hm. change qcow2RefcountOffsetMask with (Z.shiftl (Z.ones 55) 9). zbits. rewrite Z.land_spec.
  destruct (Z.testbit e n) eqn:Hb; [|done]. cbn.
  destruct (Z.le_gt_cases 64 n); [rewrite (testbit_high e 64 n) in Hb by lia; done|].
  destruct (Z.le_gt_cases 9 n).
  - rewrite Z.shiftl_spec by lia. apply Z.ones_spec_low. lia.
  - apply (f_equal (fun x => Z.testbit x n)) in Hm.
    change 512 with (2 ^ 9) in Hm. rewrite Z.mod_pow2_bits_low, Z.bits_0 in Hm by lia. congruence.
Qed.

(** [extends q q']: the file grew and refcount blocks may have been added. *)
Record extends (q q' : qcow2Image) : Prop := {
  ex_keeps : keeps q q';
  ex_good : Good q';
  ex_l1 : l1 q' = l1 q;
  ex_l2c : l2Cache q' = l2Cache q;
  ex_rt : forall i, zget (refcountTable q) i <> 0 -> zget (refcountTable q') i = zget (refcountTable q) i;
  ex_flen : flen q <= flen q'
}.

Lemma extends_refl q : Good q -> extends q q.
Proof. intros. constructor; auto with go. lia. Qed.

Lemma extends_trans q1 q2 q3 : extends q1 q2 -> extends q2 q3 -> extends q1 q3.
Proof.
  intros [K1 _ A1 L1 R1 F1] [K2 G2 A2 L2 R2 F2].
  constructor; [by eapply keeps_trans|done|congruence|congruence| |lia].
  intros i Hi. rewrite R2; rewrite R1; done.
Qed.

(** The failure of an allocation step. *)
Definition fails (q q' : qcow2Image) : Prop := keeps q q' /\ Inv q'.

Section AppendBlock.
Context (q : qcow2Image) (Hq : Good q) (off : Z).
Context (Hal : off mod clusterSize q = 0) (Hend : flen q <= off) (Hmax : off + clusterSize q <= maxInt64).
Let k := tableIndexOf q off.
Context (Hk : k < zlen (refcountTable q)) (Hz : zget (refcountTable q) k = 0).
Let blk := zwrite (zeros (clusterSize q)) ((off / clusterSize q) mod refcountBlockEntries q * 2) (be_bytes 2 1).
Let toff := q_refcountTableOffset q + k * 8.

Lemma append_facts : 512 <= clusterSize q /\ 0 <= k /\ 0 < off /\ zlen blk = clusterSize q /\
  bytes_ok blk /\ 0 < toff /\ toff + 8 <= flen q /\ 
  (forall i, toff <= i < toff + 8 -> owns q ORefTable (i / clusterSize q)).
Proof using Hq Hend Hk.
  pose proof Hq as (W & _). pose proof (wf_geo q W) as G.
  destruct (geo_facts q G) as (Hcs & _ & _ & Hrb & _ & Hrb2).
  pose proof (reftable_below q W _ (wf_below q W)). destruct (g_rtoff q G) as [Hro Hra].
  pose proof (blockIndex_bound q off G) as Hbi. pose proof (zlen_nonneg (refcountTable q)).
  assert (0 < off) by lia.
  assert (Hk0 : 0 <= k) by (apply Z.div_pos; [apply Z.div_pos|]; lia).
  splits; try lia.
  - unfold blk. rewrite zlen_write, zlen_be_bytes, zlen_zeros by lia. change (Z.of_nat 2) with 2. destruct (2 =? 0) eqn:?; zbool; lia.
  - unfold blk. auto with go.
  - intros i Hi. unfold toff in Hi. cbn. split; [apply Z.div_le_mono; lia|].
    apply Z.div_lt_upper_bound; [lia|]. pose proof (reftable_end q W). lia.
Qed.

(** The file after the block and its table entry were written. *)
Let d2 := zwrite (zwrite (D q) off blk) toff (be_bytes 8 off).

Lemma append_len1 : zlen (zwrite (D q) off blk) = off + clusterSize q.
Proof using Hq Hend Hk.
  destruct append_facts as (Hcs & _ & Ho & Hb & _). rewrite zlen_write, Hb by lia.
  unfold flen, f_size in Hend. fold (D q) in Hend. destruct (_ =? 0) eqn:?; zbool; lia.
Qed.

Lemma append_len : zlen d2 = off + clusterSize q.
Proof using Hq Hend Hk.
  destruct append_facts as (Hcs & _ & Ho & Hb & _ & Ht & Ht2 & _). unfold d2.
  rewrite zlen_write, zlen_be_bytes, append_len1 by lia. change (Z.of_nat 8) with 8.
  destruct (8 =? 0) eqn:?; zbool; lia.
Qed.

Lemma append_get i : 0 <= i < off -> ~ (toff <= i < toff + 8) -> zget d2 i = zget (D q) i.
Proof using Hq Hend Hk.
  intros Hi Hn. destruct append_facts as (Hcs & _ & Ho & Hb & _ & Ht & _). unfold d2.
  rewrite zget_write, zlen_be_bytes by lia. destruct (_ && _) eqn:E; zbool; [lia|].
  rewrite zget_write by lia. destruct (off <=? i) eqn:?; zbool; [lia|done].
Qed.

Lemma append_block : zslice d2 off (clusterSize q) = blk.
Proof using Hq Hend Hk.
  destruct append_facts as (Hcs & _ & Ho & Hb & _ & Ht & Ht2 & _).
  pose proof append_len. pose proof append_len1.
  rewrite <- (zslice_write (D q) off blk) at 1 by lia. rewrite Hb.
  apply zslice_agree; try lia. intros i Hi. unfold d2. rewrite (zget_write _ toff), zlen_be_bytes by lia.
  change (Z.of_nat 8) with 8. destruct (_ && _) eqn:?; zbool; [lia|done].
Qed.

Lemma append_agree w c : owns q w c -> w <> ORefTable -> agree_owned q d2 w c.
Proof using Hq Hend Hk.
  intros Hc Hw i Hi Hic Hlt. pose proof Hq as (W & _).
  destruct append_facts as (_ & _ & _ & _ & _ & _ & _ & Hown).
  pose proof (owned_bytes q w c i _ W (wf_below q W) Hc Hi Hic Hlt).
  apply append_get; [lia|]. intros Hin. apply Hw. apply (wf_excl q W w ORefTable c Hc).
  rewrite <- Hic. by apply Hown.
Qed.

Lemma append_safe : safe q (fun i => off <= i \/ toff <= i < toff + 8).
Proof using Hq Hend Hk.
  pose proof Hq as (W & _). destruct append_facts as (_ & _ & _ & _ & _ & _ & _ & Hown).
  apply safe_or.
  - apply safe_beyond; [done|]. by eapply below_mono; [apply W|].
  - intros i Hi. apply (safe_owner q ORefTable (i / clusterSize q) W); try done. by apply Hown.
Qed.

(** Every cluster of the image lies before the new block. *)
Lemma append_fresh w : ~ owns q w (off / clusterSize q).
Proof using Hq Hend Hk Hal.
  intros Ho. pose proof Hq as (W & _). destruct append_facts as (Hcs & _ & Hpos & _).
  destruct (wf_below q W) as [Hb1 Hb2].
  pose proof (div_mul_aligned off (clusterSize q) ltac:(lia) Hal).
  destruct (decide (w = OL1)) as [->|Hw].
  - cbn in Ho. destruct Ho as [_ Ho].
    pose proof (Z.div_mod (q_l1TableOffset q + zlen (l1 q) * 8 + clusterSize q - 1) (clusterSize q) ltac:(lia)).
    pose proof (Z.mod_pos_bound (q_l1TableOffset q + zlen (l1 q) * 8 + clusterSize q - 1) (clusterSize q) ltac:(lia)).
    nia.
  - specialize (Hb2 w _ Hw Ho). lia.
Qed.

(** The state after the new block was entered in the table and cached. *)
Context (q4 : qcow2Image) (St : static q q4) (El1 : l1 q4 = l1 q) (El2c : l2Cache q4 = l2Cache q).
Context (Ert : refcountTable q4 = zinsert k off (refcountTable q)) (ED : D q4 = d2).
Context (Hff : ff q -> ff q4) (Hwf4 : writeFault q4 = None) (Hrc4 : rcache_ok q4) (Hs4 : rsync q4).

(** The same state before the publication. *)
Let q2 := set_refcounts ∅ [] 0 (set_refcountTable (refcountTable q) q4).

Lemma append_flen : flen q4 = off + clusterSize q.
Proof using Hq Hend Hk ED. unfold flen, f_size; fold (D q4). by rewrite ED, append_len. Qed.

Lemma append_before : same_tables q q2 /\ wf q2 /\ keeps q q2 /\ forall w c, owns q2 w c <-> owns q w c.
Proof using Hq Hend Hk Hmax St El1 El2c Ert ED Hff.
  pose proof Hq as (W & _). destruct append_facts as (Hcs & _ & _ & _ & Hbk & _).
  assert (T : same_tables q q2) by (constructor; try done; destruct St; by constructor).
  set (P := fun i => off <= i \/ toff <= i < toff + 8).
  assert (Hsame : forall i, 0 <= i -> ~ P i -> zget (D q2) i = zget (D q) i).
  { intros i Hi HP. change (D q2) with (D q4). rewrite ED. unfold P in HP. apply append_get; [|tauto].
    destruct (Z.lt_ge_cases i off); tauto. }
  assert (Hl : flen q2 = off + clusterSize q) by apply append_flen.
  assert (Hb : below q (flen q2)) by (eapply below_mono; [apply W|lia]).
  pose proof append_safe as HP. splits; [done| | |].
  - apply (change_wf q q2 W P); try done; [|lia|].
    + change (D q2) with (D q4). rewrite ED. unfold d2. pose proof (wf_bytes q W). auto with go.
    + assert (geometry q2) by (eapply geometry_static; [apply W|apply T]).
      pose proof (rlimit_pos q2 H). constructor; cbn in *; [done|..]; unfold zlen; cbn; lia.
  - by apply (change_keeps q q2 W P).
  - intros. by apply (change_owns q q2 W P).
Qed.

Lemma append_rt i : zget (refcountTable q4) i = if i =? k then off else zget (refcountTable q) i.
Proof using Hq Hend Hk Ert. destruct append_facts as (_ & ? & _). rewrite Ert. by apply zget_insert. Qed.

Lemma append_owns w c : owns q4 w c <-> owns q w c \/ (w = ORefBlock k /\ c = off / clusterSize q).
Proof using Hq Hend Hk Hmax Hz St El1 El2c Ert ED Hff.
  destruct append_before as (_ & _ & _ & Ho). destruct append_facts as (_ & _ & Hpos & _).
  assert (Hold : (forall i, w <> ORefBlock i) -> owns q4 w c <-> owns q w c).
  { intros Hw. rewrite <- (Ho w c). destruct w as [| | |i|i|g]; try done.
    - cbn. by rewrite (st_rtlen _ _ St).
    - by destruct (Hw i). }
  destruct w as [| | |i|i|g]; try (rewrite Hold by done; split; [by left|by intros [?|[? ?]]]).
  - cbn. rewrite append_rt, (st_cs _ _ St). destruct (i =? k) eqn:E; zbool; [subst i; rewrite Hz|]; split.
    + intros [_ ->]. by right.
    + intros [[? _]|[_ ->]]; [done|]. split; [lia|done].
    + tauto.
    + intros [H|[[= ->] _]]; done.
Qed.

Lemma append_keeps_wf : wf q4.
Proof using Hq Hend Hk Hmax Hz Hal St El1 El2c Ert ED Hff Hrc4.
  destruct append_before as (T & W2 & _ & Ho). pose proof Hq as (W & _).
  destruct append_facts as (Hcs & _ & Hpos & _). pose proof append_flen as Hfl.
  assert (E : forall w c, owns q4 w c <-> owns q w c \/ (w = ORefBlock k /\ c = off / clusterSize q))
    by exact append_owns.
  constructor.
  - by apply (geometry_static q); [apply W|].
  - exact (wf_bytes q2 W2).
  - exact (wf_flen q2 W2).
  - exact (wf_l1 q2 W2).
  - intros i. rewrite append_rt. unfold rtentry_ok. rewrite (st_cs _ _ St).
    destruct (i =? k); [|apply W]. pose proof (cs_aligned_512 q off (wf_geo q W) Hal).
    splits; [unfold is_u64, maxInt64 in *; lia|done|]. by apply land_refcountMask; unfold maxInt64 in *; [lia|].
  - exact (wf_map q2 W2).
  - intros w1 w2 c [H1|[-> ->]]%E [H2|[-> Hc]]%E; [by apply (wf_excl q W _ _ c)| | |done].
    + subst c. by destruct (append_fresh w1).
    + by destruct (append_fresh w2).
  - destruct (wf_below q W) as [Hb1 Hb2]. split; [rewrite (st_l1off _ _ St), (st_l1len _ _ St); lia|].
    intros w c Hw [Hc|[-> ->]]%E; rewrite (st_cs _ _ St).
    + specialize (Hb2 w c Hw Hc). lia.
    + pose proof (div_mul_aligned off (clusterSize q) ltac:(lia) Hal). lia.
  - exact (wf_l2cache q2 W2).
  - done.
Qed.

Lemma append_drc_new : drc q4 (off / clusterSize q) = 1.
Proof using Hq Hend Hk Hmax Hz Hal St El1 El2c Ert ED Hff Hrc4.
  pose proof append_keeps_wf as W4. destruct append_facts as (Hcs & _ & Hpos & Hb & _ & Ht & Ht2 & _).
  assert (He : zget (refcountTable q4) (off / clusterSize q / refcountBlockEntries q4) = off).
  { rewrite (st_rbe _ _ St), append_rt. fold (tableIndexOf q off). fold k. by rewrite Z.eqb_refl. }
  rewrite drc_block by (done || (rewrite He; lia)). rewrite He, (st_rbe _ _ St), (st_cs _ _ St), ED.
  rewrite append_block. unfold blk, be_uint16. change 2 with (zlen (be_bytes 2 1)) at 3.
  pose proof (blockIndex_bound q off (Good_geo q Hq)). rewrite zslice_write by lia. reflexivity.
Qed.

Lemma append_drc_old w c : owns q w c -> drc q4 c = 1.
Proof using Hq Hend Hk Hmax Hz Hal St El1 El2c Ert ED Hff Hrc4.
  intros Hc. pose proof Hq as (W & Sy & _). destruct append_before as (T & W2 & _ & _).
  pose proof (sy_rc q Sy w c Hc) as H1. unfold drc in *. rewrite (st_rbe _ _ St), append_rt.
  destruct (_ =? k) eqn:Ek; zbool; [by rewrite Ek, Hz in H1|].
  rewrite <- (sy_rc q Sy w c Hc), <- (drc_agree q q2 c); try done.
  - unfold drc. cbn. by rewrite (st_rbe _ _ St).
  - eapply below_mono; [apply W|]. change (flen q2) with (flen q4). rewrite append_flen. 
    destruct append_facts. lia.
  - intros Hnz. change (D q2) with (D q4). rewrite ED. apply append_agree; [by split|done].
Qed.

Lemma append_synced : synced q4.
Proof using Hq Hend Hk Hmax Hz Hal St El1 El2c Ert ED Hff Hrc4 Hs4.
  pose proof Hq as (W & Sy & _). destruct append_facts as (Hcs & Hk0 & Hpos & Hb & _ & Ht & Ht2 & _).
  assert (Hbel : below q (zlen d2)).
  { rewrite append_len. eapply below_mono; [apply W|lia]. }
  pose proof (wf_geo q W) as G. destruct (g_rtoff q G) as [? _].
  pose proof (reftable_below q W _ (wf_below q W)) as Hrb.
  constructor; rewrite ?El1, ?(st_l1off _ _ St), ?(st_rtoff _ _ St), ?(st_rtlen _ _ St), ?(st_l2e _ _ St), ?ED.
  - rewrite (frame_hdr q W); [|done|by apply append_agree]. pose proof (sy_hdr q Sy) as Hh. unfold header_matches in *.
    by rewrite (st_version _ _ St), (st_size _ _ St), (st_cs _ _ St), (st_l1off _ _ St), (st_rtoff _ _ St), El1, (st_rtlen _ _ St).
  - etransitivity; [|apply (sy_l1 q Sy)]. apply frame_l1; try done. intros c Hc. by apply append_agree.
  - rewrite Ert. unfold d2, toff. rewrite diskTable_write; try lia.
    + f_equal. etransitivity; [|apply (sy_rt q Sy)].
      pose proof (zlen_nonneg (refcountTable q)). pose proof append_len1.
      unfold flen, f_size in *. fold (D q) in *. apply diskTable_agree; try lia. intros i Hi.
      rewrite zget_write by lia. destruct (off <=? i) eqn:?; zbool; [lia|done].
    + rewrite append_len1. lia.
    + unfold is_u64, maxInt64 in *. lia.
  - intros i t Hi. rewrite El2c in Hi. rewrite (sy_l2 q Sy i t Hi).
    destruct (wf_l2cache q W i t Hi) as (_ & _ & Hnz). symmetry. apply frame_l2; try done.
    by apply append_agree; [split|].
  - rewrite <- ED. exact Hs4.
  - intros w c [Hc|[-> ->]]%append_owns; [by eapply append_drc_old|apply append_drc_new].
Qed.

Lemma append_extends : extends q q4.
Proof using Hq Hend Hk Hmax Hz Hal St El1 El2c Ert ED Hff Hwf4 Hrc4 Hs4.
  destruct append_before as (_ & _ & K & _). destruct append_facts as (Hcs & _).
  constructor; [destruct K; by constructor| |done|done| |rewrite append_flen; lia].
  - split; [apply append_keeps_wf|split; [apply append_synced|done]].
  - intros i Hi. rewrite append_rt. destruct (i =? k) eqn:?; zbool; [by subst i|done].
Qed.

End AppendBlock.

Lemma fails_damaged q q' P f :
  Good q -> safe q P -> same_tables q q' ->
  (forall i, 0 <= i -> ~ P i -> zget (D q') i = zget (D q) i) ->
  flen q <= flen q' <= maxInt64 -> bytes_ok (D q') -> rcache_ok q' -> writeFault q' = Some f ->
  (ff q -> ff q') -> fails q q'.
Proof.
  intros (W & _) HP T Hsame Hl Hb Hr Hf Hff.
  assert (Hbel : below q (flen q')) by (eapply below_mono; [apply W|lia]).
  split; [by apply (change_keeps q q' W P)|].
  split; [|congruence]. by apply (change_wf q q' W P); try done; lia.
Qed.

Lemma fails_sched q q' : Good q -> sched q q' -> fails q q'.
Proof.
  intros G Hs. pose proof G as (W & _). pose proof (loads_sched q q' W Hs) as L.
  split; [apply L|]. eapply loads_Inv; [by apply Good_Inv|done].
Qed.

Lemma rcache_same q q' :
  rcache_ok q -> refcountCache q' = refcountCache q -> refcountBlocks q' = refcountBlocks q ->
  refcountCacheNext q' = refcountCacheNext q -> refcountTable q' = refcountTable q ->
  clusterSize q' = clusterSize q -> rcache_ok q'.
Proof.
  intros [] E1 E2 E3 E4 E5. constructor; [intros o i|..]; rewrite ?E1, ?E2, ?E3, ?E4, ?E5; auto.
Qed.

Section AppendWp.
Context (q : qcow2Image) (Hq : Good q) (off : Z).
Context (Hal : off mod clusterSize q = 0) (Hend : flen q <= off) (Hmax : off + clusterSize q <= maxInt64).
Context (Hk : tableIndexOf q off < zlen (refcountTable q)).
Context (Hz : zget (refcountTable q) (tableIndexOf q off) = 0).
Let toff := q_refcountTableOffset q + tableIndexOf q off * 8.
Let blk := zwrite (zeros (clusterSize q)) ((off / clusterSize q) mod refcountBlockEntries q * 2) (be_bytes 2 1).

(** The truncation after a failed append: the state is as before, or writes
    are disabled. *)
Lemma append_undo q1 m (err : error) {A} (Q : A -> qcow2Image -> Prop) :
  0 <= m <= clusterSize q ->
  rewrote q q1 (zwrite (D q) off (take (Z.to_nat m) blk)) -> ~ ff q ->
  wp (let! t := gtry (fileTruncate (flen q)) in
      match t with
      | inr truncateErr => disableWrites (EJoin err truncateErr)
      | inl _ => throw err
      end) q1 Q (fun _ q' => fails q q' /\ ~ ff q).
Proof using Hq Hend Hmax Hk.
  intros Hm Hw Hf. destruct (append_facts q Hq off Hend Hk) as (Hcs & _ & Hpos & Hb & Hok & _).
  fold blk in Hb, Hok. pose proof (flen_nonneg q). wsteps. eapply wp_mono; [apply wp_fileTruncate; lia| |].
  - intros [] q2 Hw2. wsteps. split; [|done]. apply fails_sched; [done|].
    apply rewrote_same. rewrite (rewrote_D _ _ _ Hw) in Hw2.
    change (flen q) with (zlen (D q)) in *. rewrite resize_write in Hw2 by lia.
    by eapply rewrote_trans.
  - intros e q2 [Hs _]. wsteps. split; [|done].
    pose proof Hw as [(fl1 & ->) F1]. destruct Hs as (fl2 & -> & F2).
    pose proof Hq as (W & _). match goal with |- fails _ ?s => set (q2 := s) end.
    assert (HD : D q2 = zwrite (D q) off (take (Z.to_nat m) blk)) by reflexivity.
    eapply (fails_damaged q _ (fun i => off <= i \/ toff <= i < toff + 8)); try done.
    + apply append_safe; done.
    + intros i Hi HP. rewrite HD, zget_write, zlen_take by lia.
      destruct (_ && _) eqn:?; zbool; [lia|done].
    + unfold flen, f_size in *. fold (D q) (D q2) in *. rewrite HD, zlen_write, zlen_take by lia.
      destruct (m =? 0) eqn:?; zbool; [lia|]. lia.
    + rewrite HD. apply bytes_ok_write; [apply W|]. by apply Forall_take.
    + by apply (rcache_same q); [apply W|..].
Qed.

Lemma append_torn q1 q2 :
  rewrote q q1 (zwrite (D q) off blk) -> torn q1 q2 toff 8 -> ~ ff q -> fails q q2.
Proof using Hq Hend Hmax Hk.
  intros Hw (d & fl & f & -> & Hl & Hd & Hbd) Hf. pose proof Hq as (W & _).
  destruct (append_facts q Hq off Hend Hk) as (Hcs & _ & Hpos & Hb & Hok & Ht & _).
  fold blk in Hb, Hok. fold toff in Ht. destruct Hw as [(fl1 & ->) F1].
  change (D (set_file _ q)) with (zwrite (D q) off blk) in Hd, Hbd.
  assert (Hl' : zlen d = off + clusterSize q) by (rewrite Hl; apply (append_len1 q Hq off Hend Hk)).
  eapply (fails_damaged q _ (fun i => off <= i \/ toff <= i < toff + 8)); try done.
  - apply append_safe; done.
  - intros i Hi HP. change (D _) with d at 1. rewrite Hd by tauto. rewrite zget_write, Hb by lia.
    destruct (_ && _) eqn:?; zbool; [lia|done].
  - change (flen (set_writeFault _ _)) with (zlen d). lia.
  - apply Hbd, bytes_ok_write; [apply W|done].
  - by apply (rcache_same q); [apply W|..].
Qed.

Lemma wp_appendRefcountBlock :
  wp (appendRefcountBlock off (flen q)) q
    (fun _ q' => extends q q' /\ flen q' = off + clusterSize q /\
       zget (refcountTable q') (tableIndexOf q off) = off)
    (fun _ q' => fails q q' /\ ~ ff q).
Proof using Hq Hal Hend Hmax Hk Hz.
  pose proof Hq as (W & Sy & Hf).
  destruct (append_facts q Hq off Hend Hk) as (Hcs & Hk0 & Hpos & Hb & Hok & Ht & Ht2 & _).
  fold blk in Hb, Hok. fold toff in Ht, Ht2. pose proof (wf_flen q W).
  unfold appendRefcountBlock. wsteps. fold (tableIndexOf q off). fold blk. fold toff.
  eapply wp_mono; [apply wp_writeMetadata; lia| |].
  2: { intros e q1 (Hn & m & Hm & Hw). rewrite Hb in Hm. by apply (append_undo q1 m). }
  intros [] q1 Hw. wsteps. rewrite u64_small by (unfold maxInt64 in *; lia).
  assert (Hw' : rewrote q q1 (zwrite (D q) off (take (Z.to_nat (clusterSize q)) blk)))
    by (rewrite take_ge by (unfold zlen in Hb; lia); done).
  pose proof (append_len1 q Hq off Hend Hk) as Hl1. fold blk in Hl1.
  assert (Hfl1 : flen q1 = off + clusterSize q).
  { unfold flen, f_size. fold (D q1). by rewrite (rewrote_D _ _ _ Hw). }
  assert (Hfault1 : writeFault q1 = None) by (by destruct Hw as [(fl & ->) _]).
  assert (Hprev : zslice (D q1) toff 8 = be_bytes 8 0).
  { rewrite <- Hz. pose proof (wf_geo q W) as G. destruct (g_rtoff q G) as [? _].
    pose proof (reftable_below q W _ (wf_below q W)) as Hrb.
    rewrite <- (table_entry_bytes (D q) (q_refcountTableOffset q) (zlen (refcountTable q)));
      try done; try lia; [|apply W|apply Sy].
    rewrite (rewrote_D _ _ _ Hw). unfold flen, f_size in *. fold (D q) in *.
    apply zslice_agree; try lia. intros i Hi. rewrite zget_write by lia.
    destruct (off <=? i) eqn:?; zbool; [lia|done]. }
  eapply wp_mono; [apply wp_writeMetadataEntry; try done; lia| |].
  - intros [] q2 Hw2. wsteps. eapply wp_gindex; [apply zlookup_zget; lia|]. wsteps.
    rewrite (rewrote_D _ _ _ Hw) in Hw2. pose proof (rewrote_trans _ _ _ _ _ Hw Hw2) as [(fl & ->) Hff].
    cbn [refcountTable set_file]. set (q3 := set_refcountTable _ _).
    assert (R3 : rcache_ok q3).
    { pose proof (wf_rcache q W) as [Re Rl Rn]. constructor; try done. intros o i Ho.
      destruct (Re o i Ho) as (Hb' & Hnz & k' & Hk'). splits; try done. exists k'. cbn.
      rewrite zget_insert by lia. destruct (k' =? _) eqn:E; zbool; [subst; congruence|done]. }
    assert (St3 : static q q3) by (constructor; try done; cbn; by rewrite zlen_insert).
    eapply wp_mono.
    { apply (wp_cacheRefcountBlock q3); [by eapply geometry_static; [apply W|]|done|lia| |exact Hb].
      exists (tableIndexOf q off). cbn. rewrite zget_insert by lia. by rewrite Z.eqb_refl. }
    + intros [] q4 ((c & b & n & ->) & R4 & S4).
      assert (E : extends q (set_refcounts c b n q3) /\ flen (set_refcounts c b n q3) = off + clusterSize q).
      { split; [|by apply (append_flen q Hq off Hend Hk)]. apply (append_extends q Hq off); try done.
        - destruct St3; by constructor.
        - apply S4; cbn.
          + intros o i bl Hne Ho Hi. rewrite (sy_rb q Sy o i bl Ho Hi). f_equal. symmetry.
            destruct (rc_entry q (wf_rcache q W) o i Ho) as (_ & Hnz & k' & <-).
            change (clusterSize q3) with (clusterSize q).
            apply (frame_rb q W (D q3)); try done.
            * change (zlen (D q3)) with (flen q3). rewrite (append_flen q Hq off Hend Hk q3 eq_refl).
              eapply below_mono; [apply W|lia].
            * apply (append_agree q Hq off Hend Hk); try done.
          + symmetry. apply (append_block q Hq off Hend Hk). }
      destruct E as [E1 E2]. splits; try done. cbn. rewrite zget_insert by lia. by rewrite Z.eqb_refl.
    + done.
  - intros e q2 [Hn [Hs|Ht']]; wsteps.
    + pose proof Hs as (fl & -> & Fs). cbn [writeFault resched set_file]. rewrite Hfault1.
      apply (append_undo (resched fl q1) (clusterSize q)); [lia| |].
      * eapply rewrote_trans; [exact Hw'|]. rewrite <- (rewrote_D _ _ _ Hw').
        by apply rewrote_same.
      * intros Hff. apply Hn. by apply Hw.
    + assert (Hnf : ~ ff q) by (intros Hff; by apply Hn, Hw).
      pose proof Ht' as (d & fl & f & -> & _). cbn. wsteps. split; [|done]. by eapply append_torn.
Qed.

End AppendWp.

(** ** Capacity *)

Lemma refcountLocation_full q o :
  0 <= o -> o mod clusterSize q = 0 -> zlen (refcountTable q) <= tableIndexOf q o ->
  refcountLocation o q = (Err (EMsg "qcow2: refcount table is too small"), q).
Proof.
  intros Ho Hal Ht. unfold refcountLocation. rewrite Hal. cbn. fold (tableIndexOf q o).
  destruct (zlookup (refcountTable q) (tableIndexOf q o)) eqn:E; [apply zlookup_range in E; lia|done].
Qed.

(** A cluster at [o] fits the host offsets and the refcount table. *)
Definition room (q : qcow2Image) (o : Z) : Prop :=
  o + clusterSize q <= maxInt64 /\ tableIndexOf q o < zlen (refcountTable q).

Definition present (q : qcow2Image) (o : Z) : Prop := zget (refcountTable q) (tableIndexOf q o) <> 0.

(** A cluster can be appended at [o], with the refcount blocks it needs. *)
Definition capacity (q : qcow2Image) (o : Z) : Prop :=
  room q o /\
  (present q o \/
   tableIndexOf q (o + clusterSize q) = tableIndexOf q o /\ o + 2 * clusterSize q <= maxInt64 \/
   room q (o + clusterSize q) /\
     (present q (o + clusterSize q) \/ o + 3 * clusterSize q <= maxInt64)).

(** Too close to the limits for another cluster. *)
Definition full (q : qcow2Image) (o : Z) : Prop :=
  maxInt64 < o + 3 * clusterSize q \/
  zlen (refcountTable q) * refcountBlockEntries q * clusterSize q < o + 2 * clusterSize q.

Section Capacity.
Context (q : qcow2Image) (G : geometry q) (Hrt : forall k, rtentry_ok q (zget (refcountTable q) k)).

Lemma next_aligned o : o mod clusterSize q = 0 -> (o + clusterSize q) mod clusterSize q = 0.
Proof using G.
  destruct (geo_facts q G) as (Hcs & _). intros H.
  replace (o + clusterSize q) with (o + 1 * clusterSize q) by lia. by rewrite Z.mod_add by lia.
Qed.

Lemma next_cluster o : (o + clusterSize q) / clusterSize q = o / clusterSize q + 1.
Proof using G.
  destruct (geo_facts q G) as (Hcs & _).
  replace (o + clusterSize q) with (o + 1 * clusterSize q) by lia. by rewrite Z.div_add by lia.
Qed.

(** Two consecutive block boundaries are further apart than two clusters. *)
Lemma next_next_index o :
  tableIndexOf q (o + clusterSize q) <> tableIndexOf q o ->
  tableIndexOf q (o + clusterSize q + clusterSize q) = tableIndexOf q (o + clusterSize q).
Proof using G.
  unfold tableIndexOf. rewrite !next_cluster. destruct (geo_facts q G) as (Hcs & _ & _ & _ & _ & Hrb).
  set (c := o / clusterSize q). set (r := refcountBlockEntries q) in *. intros Hne.
  pose proof (Z.div_mod c r ltac:(lia)). pose proof (Z.mod_pos_bound c r ltac:(lia)).
  assert (Hm : c mod r = r - 1).
  { destruct (Z.eq_dec (c mod r) (r - 1)); [done|]. exfalso. apply Hne. symmetry.
    apply (Z.div_unique_pos (c + 1) r (c / r) (c mod r + 1)); lia. }
  rewrite <- (Z.div_unique_pos (c + 1) r (c / r + 1) 0) by lia.
  symmetry. apply (Z.div_unique_pos (c + 1 + 1) r (c / r + 1) 1); lia.
Qed.

Lemma index_full o : 0 <= o -> o mod clusterSize q = 0 -> zlen (refcountTable q) <= tableIndexOf q o ->
  zlen (refcountTable q) * refcountBlockEntries q * clusterSize q <= o.
Proof using G.
  intros Ho Hal H. destruct (geo_facts q G) as (Hcs & _ & _ & _ & _ & Hrb). unfold tableIndexOf in H.
  pose proof (div_mul_aligned o (clusterSize q) ltac:(lia) Hal).
  assert (zlen (refcountTable q) * refcountBlockEntries q <= o / clusterSize q).
  { transitivity (o / clusterSize q / refcountBlockEntries q * refcountBlockEntries q); [nia|].
    rewrite Z.mul_comm. apply Z.mul_div_le. lia. }
  nia.
Qed.

(** The loop of the capacity check ends within three rounds. *)
Lemma wp_validateAppendCapacity o :
  0 <= o <= maxInt64 + clusterSize q -> o mod clusterSize q = 0 ->
  wp (validateAppendCapacity o) q
    (fun _ q' => q' = q /\ capacity q o) (fun _ q' => q' = q /\ full q o).
Proof using G Hrt.
  intros Ho Hal. destruct (geo_facts q G) as (Hcs & _). pose proof (next_aligned o Hal) as Hal1.
  pose proof (next_aligned _ Hal1) as Hal2. unfold capacity, full, room, present.
  unfold validateAppendCapacity. cbn [appendCapacity]. unfold maxInt64 in *.
  wsteps; [zbool; split; [done|left; lia]|]. zbool. unfold wp at 1.
  destruct (Z.lt_ge_cases (tableIndexOf q o) (zlen (refcountTable q))) as [Ht|Ht].
  2: { rewrite refcountLocation_full by lia. pose proof (index_full o). split; [done|]. right. lia. }
  rewrite refcountLocation_eq by (done || lia). destruct (_ =? 0) eqn:E1; zbool; cbn [negb].
  2: { wsteps. auto 6 with lia. }
  wsteps; [zbool; split; [done|left; lia]|]. zbool. rewrite u64_small by lia.
  fold (tableIndexOf q (o + clusterSize q)) (tableIndexOf q o).
  destruct (tableIndexOf q (o + clusterSize q) =? tableIndexOf q o) eqn:E2; zbool.
  { wsteps. split; [done|]. split; [lia|]. right; left. lia. }
  wsteps; [zbool; split; [done|left; lia]|]. zbool. unfold wp at 1.
  destruct (Z.lt_ge_cases (tableIndexOf q (o + clusterSize q)) (zlen (refcountTable q))) as [Ht1|Ht1].
  2: { rewrite refcountLocation_full by lia. pose proof (index_full (o + clusterSize q)). split; [done|]. right. lia. }
  rewrite refcountLocation_eq by (done || lia). destruct (zget _ (tableIndexOf q (o + _)) =? 0) eqn:E3; zbool; cbn [negb].
  2: { wsteps. split; [done|]. split; [lia|]. right; right. auto with lia. }
  wsteps; [zbool; split; [done|left; lia]|]. zbool. rewrite u64_small by lia.
  fold (tableIndexOf q (o + clusterSize q + clusterSize q)) (tableIndexOf q (o + clusterSize q)).
  rewrite next_next_index by done. rewrite Z.eqb_refl. wsteps.
  split; [done|]. split; [lia|]. right; right. split; [lia|right; lia].
Qed.

End Capacity.

(** ** The append loop *)

Lemma fails_trans q1 q2 q3 : keeps q1 q2 -> fails q2 q3 -> fails q1 q3.
Proof. intros K [K2 I]. split; [by eapply keeps_trans|done]. Qed.

Lemma tableIndexOf_static q q' o : static q q' -> tableIndexOf q' o = tableIndexOf q o.
Proof. intros []. unfold tableIndexOf. by rewrite st_cs, st_rbe. Qed.

Lemma tableIndexOf_nonneg q o : geometry q -> 0 <= o -> 0 <= tableIndexOf q o.
Proof.
  intros G Ho. destruct (geo_facts q G) as (Hcs & _ & _ & _ & _ & Hrb).
  apply Z.div_pos; [apply Z.div_pos|]; lia.
Qed.

(** The place found for a new cluster, at most at [lim]. *)
Record placed (lim : Z) (q : qcow2Image) (o old : Z) (q' : qcow2Image) : Prop := {
  pl_ext : extends q q';
  pl_cov : covered q' o;
  pl_old : flen q' = old;
  pl_end : old <= o;
  pl_max : o + clusterSize q <= maxInt64;
  pl_lim : o <= lim
}.

Lemma placed_trans lim q q1 o old q2 : extends q q1 -> placed lim q1 o old q2 -> placed lim q o old q2.
Proof.
  intros E [E2 C F1 F2 F3]. constructor; try done; [by eapply extends_trans|].
  by rewrite <- (st_cs _ _ (k_static _ _ (ex_keeps _ _ E))).
Qed.

(** One round of the loop, before a possible recursive call. *)
Lemma appendRefcountBlocks_round fuel q o (Q : Z * Z -> qcow2Image -> Prop) :
  Good q -> 0 < o -> o mod clusterSize q = 0 -> flen q <= o -> room q o ->
  (present q o -> Q (o, flen q) q) ->
  (~ present q o -> forall q1, extends q q1 -> flen q1 = o + clusterSize q ->
     present q1 (o + clusterSize q) \/ tableIndexOf q (o + clusterSize q) <> tableIndexOf q o ->
     (forall i, zget (refcountTable q) i <> 0 -> zget (refcountTable q1) i = zget (refcountTable q) i) ->
     wp (appendRefcountBlocks fuel (o + clusterSize q) (o + clusterSize q)) q1 Q
       (fun _ q' => fails q q' /\ ~ ff q)) ->
  wp (appendRefcountBlocks (S fuel) o (flen q)) q Q (fun _ q' => fails q q' /\ ~ ff q).
Proof.
  intros Gq Ho Hal Hend [Hmax Ht] HQ Hnext. pose proof (Good_geo q Gq) as G.
  destruct (geo_facts q G) as (Hcs & _). pose proof Gq as (W & _). unfold maxInt64 in *.
  cbn [appendRefcountBlocks]. wstep. unfold wp at 1. rewrite refcountLocation_eq by (done || apply W || lia).
  destruct (_ =? 0) eqn:E; zbool; cbn [negb]; [|wsteps; by apply HQ].
  wsteps. eapply wp_mono; [by apply wp_appendRefcountBlock| |done].
  intros [] q1 (Ext & Hfl & Hrt). wsteps.
  pose proof (k_static _ _ (ex_keeps _ _ Ext)) as St. rewrite (st_cs _ _ St).
  rewrite u64_small, i64_small by lia. apply Hnext; try done; [unfold present; lia| |apply Ext].
  destruct (Z.eq_dec (tableIndexOf q (o + clusterSize q)) (tableIndexOf q o)) as [Heq|]; [left|by right].
  unfold present. rewrite (tableIndexOf_static q q1) by done. rewrite Heq, Hrt. lia.
Qed.

Lemma wp_appendRefcountBlocks q o :
  Good q -> 0 < o -> o mod clusterSize q = 0 -> flen q <= o -> capacity q o ->
  wp (appendRefcountBlocks 3 o (flen q)) q
    (fun r q' => placed (o + 2 * clusterSize q) q (fst r) (snd r) q') (fun _ q' => fails q q' /\ ~ ff q).
Proof.
  intros Gq Ho Hal Hend [Hroom Hcap]. pose proof (Good_geo q Gq) as G.
  destruct (geo_facts q G) as (Hcs & _). unfold maxInt64 in *.
  assert (Hplace : forall q1 o1, Good q1 -> 0 <= o1 -> o1 mod clusterSize q1 = 0 -> flen q1 <= o1 ->
    room q1 o1 -> present q1 o1 -> o1 <= o + 2 * clusterSize q ->
    placed (o + 2 * clusterSize q) q1 o1 (flen q1) q1).
  { intros q1 o1 G1 Ho1 Ha1 He1 [Hm1 Ht1] Hp1 Hlim. constructor; try done. }
  apply appendRefcountBlocks_round; try done; try lia; [intros; cbn [fst snd]; apply Hplace; try done; lia|].
  intros Habs q1 E1 Hfl1 Hp1 Hrt1. pose proof (k_static _ _ (ex_keeps _ _ E1)) as St1.
  pose proof (ex_good _ _ E1) as G1. pose proof (st_cs _ _ St1) as Ecs1.
  rewrite <- Hfl1 at 2. pose proof (next_aligned q G o Hal) as Hal1.
  assert (Hroom1 : room q1 (o + clusterSize q)).
  { unfold room. rewrite Ecs1, (st_rtlen _ _ St1), (tableIndexOf_static q q1) by done.
    destruct Hcap as [?|[[He ?]|[[? ?] _]]]; [done| |done]. rewrite He. destruct Hroom. unfold maxInt64. lia. }
  eapply wp_mono with (Q := fun r q' => placed (o + 2 * clusterSize q) q1 (fst r) (snd r) q')
    (E := fun _ q' => fails q1 q' /\ ~ ff q1).
  - apply appendRefcountBlocks_round; rewrite ?Ecs1; try done; try lia;
      [intros; cbn [fst snd]; apply Hplace; rewrite ?Ecs1; try done; lia|].
    intros Habs1 q2 E2 Hfl2 Hp2 Hrt2. rewrite ?Ecs1 in Hfl2, Hp2 |- *.
    assert (Hne : tableIndexOf q (o + clusterSize q) <> tableIndexOf q o) by tauto.
    pose proof (k_static _ _ (ex_keeps _ _ E2)) as St2. pose proof (st_cs _ _ St2) as Ecs2.
    rewrite <- Hfl2 at 2. rewrite Ecs1 in Ecs2. pose proof (next_aligned q G _ Hal1) as Hal2.
    assert (Hidx : tableIndexOf q (o + clusterSize q + clusterSize q) = tableIndexOf q (o + clusterSize q))
      by by apply next_next_index.
    assert (Hp : present q2 (o + clusterSize q + clusterSize q)).
    { destruct Hp2 as [|Hp2]; [done|]. rewrite !(tableIndexOf_static q q1) in Hp2 by done. done. }
    assert (Hr2 : room q2 (o + clusterSize q + clusterSize q)).
    { unfold room. rewrite Ecs2, (st_rtlen _ _ St2), (st_rtlen _ _ St1).
      rewrite (tableIndexOf_static q1 q2), (tableIndexOf_static q q1) by done.
      rewrite Hidx. destruct Hcap as [?|[[He ?]|[[? ?] [Hp3|?]]]]; [done|done| |unfold maxInt64; lia].
      exfalso. apply Habs1. unfold present in *. rewrite (tableIndexOf_static q q1) by done.
      by rewrite Hrt1. }
    eapply wp_mono with (Q := fun r q' => placed (o + 2 * clusterSize q) q2 (fst r) (snd r) q')
      (E := fun _ q' => fails q2 q' /\ ~ ff q2).
    + apply appendRefcountBlocks_round; rewrite ?Ecs2; try done; try lia; [apply E2|].
      intros _. cbn [fst snd]. apply Hplace; rewrite ?Ecs2; try done; [apply E2|lia|lia|lia].
    + intros r q' Hp'. by apply (placed_trans _ _ q2).
    + intros e q' [Hf Hn]. split; [eapply fails_trans; [apply E2|done]|]. intros Hff. by apply Hn, E2.
  - intros r q' Hp. by apply (placed_trans _ _ q1).
  - intros e q' [Hf Hn]. split; [eapply fails_trans; [apply E1|done]|]. intros Hff. by apply Hn, E1.
Qed.

(** ** Allocating a cluster *)

Lemma alignUp_spec n c : 0 <= n <= maxInt64 -> 0 < c <= 2 ^ 21 ->
  alignUp n c mod c = 0 /\ n <= alignUp n c < n + c.
Proof.
  intros Hn Hc. unfold alignUp, maxInt64 in *. pose proof (Z.mod_pos_bound n c ltac:(lia)).
  destruct (_ =? 0) eqn:E; zbool; [split; [done|lia]|].
  rewrite u64_small by lia. split; [|lia].
  replace (n + c - n mod c) with ((n / c + 1) * c) by (pose proof (Z.div_mod n c); lia).
  by apply Z.mod_mul; lia.
Qed.

Lemma covered_same q q' o : same_tables q q' -> covered q o -> covered q' o.
Proof.
  intros [St _ Hrt _]. unfold covered. rewrite (tableIndexOf_static q q'), Hrt, (st_cs _ _ St) by done. done.
Qed.

Lemma covered_extends q q' o : extends q q' -> covered q o -> covered q' o.
Proof.
  intros [[St _ _ _] _ _ _ Hrt _] (H1 & H2 & H3 & H4). unfold covered.
  rewrite (tableIndexOf_static q q'), (st_cs _ _ St), (st_rtlen _ _ St) by done.
  splits; try done. by rewrite Hrt.
Qed.

Lemma unowned_beyond q o : wf q -> o mod clusterSize q = 0 -> below q o -> unowned q (o / clusterSize q).
Proof.
  intros W Hal [Hb1 Hb2] w Ho. destruct (geo_facts q (wf_geo q W)) as (Hcs & _).
  pose proof (div_mul_aligned o (clusterSize q) ltac:(lia) Hal).
  destruct (decide (w = OL1)) as [->|Hw].
  - cbn in Ho. destruct Ho as [_ Ho].
    pose proof (Z.div_mod (q_l1TableOffset q + zlen (l1 q) * 8 + clusterSize q - 1) (clusterSize q) ltac:(lia)).
    pose proof (Z.mod_pos_bound (q_l1TableOffset q + zlen (l1 q) * 8 + clusterSize q - 1) (clusterSize q) ltac:(lia)).
    nia.
  - specialize (Hb2 w _ Hw Ho). lia.
Qed.

Lemma below_same q q' B : same_tables q q' -> (forall w c, owns q' w c <-> owns q w c) -> below q B -> below q' B.
Proof.
  intros [St Hl1 _ _] Ho [H1 H2]. split; [by rewrite (st_l1off _ _ St), Hl1|].
  intros w c Hw Hc%Ho. rewrite (st_cs _ _ St). by apply (H2 w).
Qed.

(** A cluster below the refcount table's reach is encodable in an entry. *)
Lemma covered_range q o : wf q -> cap_ok q -> covered q o -> o + clusterSize q <= 2 ^ 56.
Proof.
  intros W Hcap (Ho & Hal & Ht & _). unfold cap_ok in Hcap.
  destruct (geo_facts q (wf_geo q W)) as (Hcs & _ & _ & _ & _ & Hrb). unfold tableIndexOf in Ht.
  pose proof (div_mul_aligned o (clusterSize q) ltac:(lia) Hal).
  assert (o / clusterSize q < zlen (refcountTable q) * refcountBlockEntries q).
  { pose proof (Z.div_mod (o / clusterSize q) (refcountBlockEntries q) ltac:(lia)).
    pose proof (Z.mod_pos_bound (o / clusterSize q) (refcountBlockEntries q) ltac:(lia)). nia. }
  nia.
Qed.

Lemma cap_static q q' : static q q' -> cap_ok q -> cap_ok q'.
Proof. intros St. unfold cap_ok. by rewrite (st_rtlen _ _ St), (st_rbe _ _ St), (st_cs _ _ St). Qed.

(** The offsets of [n] more clusters fit an L2 entry: the refcount table reaches
    no further, or the file does not. *)
Definition encodable (q : qcow2Image) (n : Z) : Prop := cap_ok q \/ flen q + n * clusterSize q <= 2 ^ 56.

Lemma encodable_step q q' k n :
  static q q' -> flen q' <= flen q + k * clusterSize q -> encodable q n -> encodable q' (n - k).
Proof.
  intros St Hl [H|H]; [left; by eapply cap_static|right]. rewrite (st_cs _ _ St). lia.
Qed.

Lemma encodable_mono q n m : 0 <= clusterSize q -> m <= n -> encodable q n -> encodable q m.
Proof. intros Hc Hn [H|H]; [by left|right]. nia. Qed.

(** What an allocation returns: a zeroed cluster at the end of the file with
    refcount one that no structure uses. *)
Record fresh (q : qcow2Image) (off : Z) : Prop := {
  fr_range : off + clusterSize q <= 2 ^ 56;
  fr_al : off mod clusterSize q = 0;
  fr_below : below q off;
  fr_end : off + clusterSize q = flen q;
  fr_cov : covered q off;
  fr_rc : drc q (off / clusterSize q) = 1;
  fr_zero : forall i, off <= i < off + clusterSize q -> zget (D q) i = 0
}.

Lemma fails_disable q q' f : keeps q q' -> wf q' -> fails q (set_writeFault (Some f) q').
Proof.
  intros [[] ? ? ?] W. split; [constructor; try assumption; constructor; assumption|]. split; [|done].
  destruct W as [G ? ? ? ? ? ? ? ? R]. constructor; try assumption.
  - destruct G; constructor; assumption.
  - destruct R; constructor; assumption.
Qed.

(** Releasing a cluster at the end of the file: its refcount is cleared and the
    file is cut back to [old]. *)
Lemma wp_release q off old (err : error) {A} (Q : A -> qcow2Image -> Prop) :
  Good q -> covered q off -> below q old -> old <= off -> old <= maxInt64 ->
  wp (let! r := gtry (setRefcount off 0) in
      match r with
      | inr e => disableWrites (EJoin err e)
      | inl _ =>
          let! t := gtry (fileTruncate old) in
          match t with
          | inr e => disableWrites (EJoin err e)
          | inl _ => throw err
          end
      end) q Q (fun _ q' => fails q q').
Proof.
  intros Gq C Hb Ho Hm. pose proof Gq as (W & _). pose proof C as (_ & Hal & _).
  assert (Hun : unowned q (off / clusterSize q)) by (apply unowned_beyond; try done; by eapply below_mono).
  assert (0 <= old).
  { destruct Hb as [Hb _]. pose proof (zlen_nonneg (l1 q)). destruct (g_l1off q (wf_geo q W)). lia. }
  wsteps. eapply wp_mono; [apply wp_setRefcount; try done; lia| |].
  - intros [] q1 [R _]. wsteps. pose proof (below_same _ _ _ (rs_tables _ _ R) (rs_owns _ _ R) Hb) as Hb1.
    eapply wp_mono; [by apply wp_fileTruncate| |].
    + intros [] q2 Hw. wsteps. apply truncate_step in Hw; [|apply R|done|lia].
      apply (fails_trans _ q1); [apply R|]. split; [apply Hw|]. apply Good_Inv, Hw.
    + intros e q2 [Hs _]. wsteps. apply (fails_trans _ q1); [apply R|].
      destruct (fails_sched q1 q2 (rs_good _ _ R) Hs) as [K [W2 _]]. by apply fails_disable.
  - intros e q1 [R _]. wsteps. apply fails_disable; [apply R|]. apply (rs_good _ _ R).
Qed.

(** The end of an allocation: the file grows by the cluster and its refcount is
    set, or both are undone. *)
Lemma wp_claimCluster q off old :
  Good q -> covered q off -> flen q = old -> old <= off -> off + clusterSize q <= 2 ^ 56 ->
  wp (do! fileTruncate (off + clusterSize q) in
      let! r := gtry (setRefcount off 1) in
      match r with
      | inl _ => ret off
      | inr err =>
          let! r' := gtry (setRefcount off 0) in
          match r' with
          | inr restoreErr => disableWrites (EJoin err restoreErr)
          | inl _ =>
              let! t := gtry (fileTruncate old) in
              match t with
              | inr truncateErr => disableWrites (EJoin err truncateErr)
              | inl _ => throw err
              end
          end
      end) q
    (fun o q' => o = off /\ extends q q' /\ fresh q' off)
    (fun _ q' => fails q q' /\ ~ ff q).
Proof.
  intros Gq C Hold Hoff Hrg. pose proof Gq as (W & _). pose proof (flen_nonneg q).
  assert (Hmx : off + clusterSize q <= maxInt64) by (unfold maxInt64; lia).
  destruct (geo_facts q (wf_geo q W)) as (Hcs & _).
  wsteps. eapply wp_mono; [apply wp_fileTruncate; lia| |].
  2: { intros e q2 [Hs2 Hn]. split; [by apply fails_sched|done]. }
  intros [] q2 Hw. wsteps. apply truncate_step in Hw; [|done| |lia].
  2: { eapply below_mono; [apply W|lia]. }
  pose proof Hw as [K2 T2 G2 F2 O2 Z2 _].
  pose proof (covered_same _ _ _ T2 C) as C2. pose proof (st_cs _ _ (sm_static _ _ T2)) as Ecs2.
  assert (Hb1 : below q old) by (replace old with (flen q) by lia; apply W).
  assert (Hb2 : below q2 old) by by apply (below_same q).
  assert (Hun : unowned q2 (off / clusterSize q2)).
  { apply unowned_beyond; [apply G2|apply C2|by eapply below_mono]. }
  eapply wp_mono; [apply wp_setRefcount; try done; lia| |].
  - intros [] q3 [R Hrc]. wsteps. pose proof (st_cs _ _ (sm_static _ _ (rs_tables _ _ R))) as Ecs3.
    pose proof (rs_flen _ _ R) as F3. splits; [done| |].
    + constructor; [eapply keeps_trans; [exact K2|apply R]|apply R| | | |lia].
      * by rewrite (sm_l1 _ _ (rs_tables _ _ R)), (sm_l1 _ _ T2).
      * by rewrite (sm_l2c _ _ (rs_tables _ _ R)), (sm_l2c _ _ T2).
      * intros i _. by rewrite (sm_rt _ _ (rs_tables _ _ R)), (sm_rt _ _ T2).
    + constructor; [lia|rewrite Ecs3; apply C2| |lia| |by rewrite Ecs3|].
      * eapply (below_mono _ old); [|lia]. by apply (below_same q2); [apply R|apply R|].
      * apply (covered_same q2); [apply R|done].
      * intros i Hi. destruct C2 as (Ho0 & Ha2 & _). rewrite Ecs3 in Hi.
        rewrite (rs_agree _ _ R (off / clusterSize q2)); [|by intros; apply Hun|lia|].
        -- rewrite Z2. destruct (i <? off + clusterSize q) eqn:?; [|reflexivity].
           apply zget_out. right. change (flen q <= i). lia.
        -- apply in_cluster_div; [lia|done|lia].
  - intros e q3 [R Hn]. cbv beta iota. eapply wp_mono; [eapply (wp_release q3 off old e)| |].
    + exact (rs_good _ _ R).
    + apply (covered_same q2); [apply R|done].
    + by apply (below_same q2); [apply R|apply R|].
    + done.
    + lia.
    + intros a q4 Ha. exact Ha.
    + intros e' q4 Hf. split; [|intros Hff; by apply Hn, K2].
      eapply fails_trans; [|exact Hf]. eapply keeps_trans; [exact K2|apply R].
Qed.

Lemma wp_allocateCluster q :
  Good q -> encodable q 4 ->
  wp allocateCluster q
    (fun off q' => extends q q' /\ fresh q' off /\ flen q' <= flen q + 4 * clusterSize q)
    (fun _ q' => fails q q' /\ (~ ff q \/ full q (alignUp (flen q) (clusterSize q)))).
Proof.
  intros Gq Henc. pose proof Gq as (W & Sy & Hf). pose proof (wf_flen q W) as Hm. pose proof (flen_nonneg q).
  destruct (geo_facts q (wf_geo q W)) as (Hcs & _).
  destruct (alignUp_spec (flen q) (clusterSize q)) as [Hal Hup]; [lia|lia|].
  set (o := alignUp (flen q) (clusterSize q)) in *.
  assert (Hpos : 0 < o).
  { destruct (wf_below q W) as [Hb _]. pose proof (zlen_nonneg (l1 q)). destruct (g_l1off q (wf_geo q W)). lia. }
  unfold allocateCluster. wsteps. eapply wp_mono; [apply wp_fileStat| |].
  2: { intros e q1 [Hs Hn]. split; [by apply fails_sched|by left]. }
  intros n q0 [-> Hs]. pose proof Hs as (fl & Hq0 & Hff0).
  assert (G0 : Good q0).
  { subst q0. split; [by apply wf_resched|split; [by apply synced_resched|done]]. }
  assert (K0 : keeps q q0) by by apply keeps_sched.
  assert (E0 : extends q q0) by (subst q0; constructor; try done; lia).
  assert (Ecs0 : clusterSize q0 = clusterSize q) by by subst q0.
  assert (Hfl0 : flen q0 = flen q) by by subst q0.
  pose proof (proj1 G0) as W0. wstep; [zbool; lia|]. wsteps. rewrite Ecs0. fold o. rewrite <- Hfl0.
  eapply wp_mono; [apply wp_validateAppendCapacity; [apply W0|apply W0|lia|by rewrite Ecs0]| |].
  2: { intros e q1 [-> Hfull]. split; [by apply fails_sched|right]. by subst q0. }
  intros [] q1 [-> Hcap]. wstep.
  eapply wp_mono; [apply wp_appendRefcountBlocks; rewrite ?Ecs0; try done; lia| |].
  2: { intros e q1 [Hfl Hn]. split; [by eapply fails_trans|left; auto]. }
  intros [off old] q1 [E C Hold Hend Hmx Hlim]. cbn [fst snd] in *.
  pose proof (st_cs _ _ (k_static _ _ (ex_keeps _ _ E))) as Ecs. pose proof (flen_nonneg q1).
  cbv beta iota. unfold maxInt64 in *. rewrite Ecs0 in *.
  rewrite u64_small, i64_small by lia. rewrite <- Ecs.
  assert (Hrg : off + clusterSize q1 <= 2 ^ 56).
  { destruct Henc as [Hc|Hc]; [|rewrite Ecs in *; lia]. apply covered_range; [apply E| |done].
    eapply cap_static; [apply (ex_keeps _ _ (extends_trans _ _ _ E0 E))|exact Hc]. }
  eapply wp_mono; [apply (wp_claimCluster q1 off old); try done; apply E| |].
  - intros off' q2 (-> & E2 & F2). splits; [|done|].
    + eapply extends_trans; [exact E0|]. by eapply extends_trans.
    + pose proof (st_cs _ _ (k_static _ _ (ex_keeps _ _ E2))). pose proof (fr_end _ _ F2). lia.
  - intros e q2 [Hfl Hn]. split; [|left; intros Hff; apply Hn, (ex_keeps _ _ E), K0, Hff].
    eapply fails_trans; [|exact Hfl]. eapply keeps_trans; [exact K0|apply E].
Qed.
