(* ===== verification/QcowPublish.v ===== *)
(** Publication of new tables and clusters: an L1 entry that points to a fresh,
    zeroed L2 table and an L2 entry that points to a zeroed data cluster keep
    the invariant and leave the virtual disk unchanged
    (src/internal/disk/qcow2.go:480-525, 590-617). *)

From S2P Require Import Prelude Bytes OsFile QcowHeader QcowImage QcowInv QcowRead QcowFrame QcowRefcount QcowAlloc.

Lemma be_val_zeros n : be_val (zeros n) = 0.
Proof.
  unfold be_val, zeros. induction (Z.to_nat n) as [|k IH]; [done|].
  rewrite replicate_S_end, rev_app_distr. cbn [rev app le_val]. by rewrite IH.
Qed.

Lemma diskTable_zero d off n :
  0 <= off -> 0 <= n -> off + n * 8 <= zlen d ->
  (forall j, off <= j < off + n * 8 -> zget d j = 0) -> diskTable d off n = zeros n.
Proof.
  intros Ho Hn Hl Hz. apply zlist_eq; [rewrite zlen_diskTable, zlen_zeros; lia|].
  intros j. rewrite zlen_diskTable by lia. intros Hj. rewrite zget_diskTable, zget_zeros by lia.
  unfold be_uint64. replace (zslice d (off + j * 8) 8) with (zeros 8); [apply be_val_zeros|].
  apply zlist_eq; [rewrite zlen_slice, zlen_zeros; lia|]. intros k. rewrite zlen_zeros. intros Hk.
  rewrite zget_zeros, zget_slice by lia. symmetry. apply Hz. lia.
Qed.

Lemma zget_nil i : zget [] i = 0.
Proof. apply zget_out. unfold zlen. cbn. lia. Qed.

(** A fresh cluster is encodable in an entry and starts after the metadata. *)
Lemma fresh_range q off : wf q -> fresh q off ->
  0 < off < 2 ^ 56 /\ off mod 512 = 0 /\ unowned q (off / clusterSize q).
Proof.
  intros W F. pose proof (fr_range _ _ F).
  destruct (geo_facts q (wf_geo q W)) as (Hcs & _).
  destruct (fr_below _ _ F) as [Hb _]. pose proof (zlen_nonneg (l1 q)). destruct (g_l1off q (wf_geo q W)).
  splits; [lia|lia| |].
  - by apply (cs_aligned_512 q), (fr_al _ _ F); apply W.
  - by apply unowned_beyond; [|apply F|apply F].
Qed.

Section PublishL2.
Context (q : qcow2Image) (Gq : Good q) (off : Z) (F : fresh q off).
Context (i : Z) (Hi : 0 <= i < zlen (l1 q)) (Hz : zget (l1 q) i = 0).
Let e := off ||| qcow2OFlagCopied.
Let a := q_l1TableOffset q + i * 8.
Let d := zwrite (D q) a (be_bytes 8 e).
Context (fl : list (option Z)) (Hff : ff q -> fault_free (mkFile d fl)).
Let q1 := set_file (mkFile d fl) q.
Let q' := set_l2Cache (<[i := zeros (l2Entries q)]> (l2Cache q)) (set_l1 (zinsert i e (l1 q)) q1).

Lemma l1entry_place : 512 <= clusterSize q /\ 0 < a /\ a + 8 <= flen q /\ a + 8 <= off /\
  forall j, a <= j < a + 8 -> owns q OL1 (j / clusterSize q).
Proof using Gq F Hi.
  pose proof Gq as (W & _). pose proof (wf_geo q W) as G. destruct (geo_facts q G) as (Hcs & _).
  destruct (g_l1off q G) as [Ho Ha]. destruct (wf_below q W) as [Hb _]. destruct (fr_below _ _ F) as [Hb2 _].
  splits; try (unfold a; lia). intros j Hj. unfold a in Hj. cbn. split; [apply Z.div_le_mono; lia|].
  apply Z.div_lt_upper_bound; [lia|].
  pose proof (Z.div_mod (q_l1TableOffset q + zlen (l1 q) * 8 + clusterSize q - 1) (clusterSize q) ltac:(lia)).
  pose proof (Z.mod_pos_bound (q_l1TableOffset q + zlen (l1 q) * 8 + clusterSize q - 1) (clusterSize q) ltac:(lia)).
  lia.
Qed.

Lemma l1pub_get j : 0 <= j -> ~ (a <= j < a + 8) -> zget d j = zget (D q) j.
Proof using Gq F Hi.
  intros Hj Hn. destruct l1entry_place as (_ & Ha & _). unfold d. rewrite zget_write, zlen_be_bytes by lia.
  destruct (_ && _) eqn:?; zbool; [lia|done].
Qed.

Lemma l1pub_len : zlen d = flen q.
Proof using Gq F Hi.
  destruct l1entry_place as (_ & Ha & Hl & _). unfold d, flen, f_size in *. fold (D q) in *.
  rewrite zlen_write, zlen_be_bytes by lia. change (Z.of_nat 8) with 8. destruct (8 =? 0) eqn:?; zbool; lia.
Qed.

Lemma l1pub_agree w c : owns q w c -> w <> OL1 -> agree_owned q d w c.
Proof using Gq F Hi.
  intros Hc Hw j Hj Hjc _. destruct l1entry_place as (_ & _ & _ & _ & Hown).
  apply l1pub_get; [done|]. intros Hin. apply Hw. pose proof Gq as (W & _).
  apply (wf_excl q W w OL1 c Hc). rewrite <- Hjc. by apply Hown.
Qed.

Lemma l1pub_before : wf q1 /\ keeps q q1 /\ forall w c, owns q1 w c <-> owns q w c.
Proof using Gq F Hi Hff.
  pose proof Gq as (W & _). destruct l1entry_place as (_ & _ & _ & _ & Hown).
  set (P := fun j => a <= j < a + 8).
  assert (HP : safe q P).
  { intros j Hj. apply (safe_owner q OL1 (j / clusterSize q) W); try done. by apply Hown. }
  assert (T : same_tables q q1) by by constructor.
  assert (Hb : below q (flen q1)).
  { change (flen q1) with (zlen d). rewrite l1pub_len. apply W. }
  assert (Hs : forall j, 0 <= j -> ~ P j -> zget (D q1) j = zget (D q) j) by exact l1pub_get.
  splits.
  - apply (change_wf q q1 W P); try done.
    + change (bytes_ok d). unfold d. pose proof (wf_bytes q W). auto with go.
    + change (flen q1) with (zlen d). rewrite l1pub_len. apply W.
    + apply (rcache_same q); try done. apply W.
  - by apply (change_keeps q q1 W P).
  - by apply (change_owns q q1 W P).
Qed.

Lemma l1pub_table k : tableOf q' k = if k =? i then zeros (l2Entries q) else tableOf q1 k.
Proof using Gq F Hi Hz.
  unfold tableOf. cbn. destruct (k =? i) eqn:E; zbool; [subst k; by rewrite lookup_insert_eq|].
  rewrite lookup_insert_ne by done. rewrite zget_insert by done.
  destruct (k =? i) eqn:?; zbool; done.
Qed.

Lemma l1pub_map g : mapping q' g = mapping q g.
Proof using Gq F Hi Hz Hff.
  destruct l1pub_before as (_ & K & _). unfold mapping at 1. change (l2Entries q') with (l2Entries q).
  rewrite l1pub_table. destruct (_ =? i) eqn:E; zbool.
  - rewrite zget_zeros. symmetry. apply mapping_unpublished; [apply Gq|by rewrite E].
  - exact (k_map _ _ K g).
Qed.

Lemma l1pub_l1 k : zget (l1 q') k = if k =? i then e else zget (l1 q) k.
Proof using Hi. cbn. by apply zget_insert. Qed.

Lemma l1pub_entry : clusterOffset e = off.
Proof using Gq F Hi a. destruct (fresh_range q off (proj1 Gq) F) as (? & ? & _). apply clusterOffset_copied; lia. Qed.

Lemma l1pub_owns w c : owns q' w c <-> owns q w c \/ (w = OL2 i /\ c = off / clusterSize q).
Proof using Gq F Hi Hz Hff.
  assert (Hlen : zlen (zinsert i e (l1 q)) = zlen (l1 q)) by apply zlen_insert.
  destruct w as [| | |k|k|g]; cbn [owns].
  1,3,4: split; [by left|by intros [?|[? _]]].
  - change (l1 q') with (zinsert i e (l1 q)). rewrite Hlen. split; [by left|by intros [?|[? _]]].
  - rewrite l1pub_l1. change (clusterSize q') with (clusterSize q).
    destruct (k =? i) eqn:E; zbool; [subst k; rewrite Hz, l1pub_entry|]; split.
    + intros [_ ->]. by right.
    + intros [[? _]|[_ ->]]; [done|]. split; [|done]. apply copied_nonzero;
        destruct (fresh_range q off (proj1 Gq) F); lia.
    + by left.
    + intros [?|[[= ->] _]]; done.
  - rewrite l1pub_map. split; [by left|by intros [?|[? _]]].
Qed.

Lemma l1pub_wf : wf q'.
Proof using Gq F Hi Hz Hff.
  pose proof Gq as (W & _). destruct l1pub_before as (W1 & _). destruct l1entry_place as (Hcs & _).
  destruct (fresh_range q off W F) as (Hr & H512 & Hfree).
  assert (Hlen : zlen (l1 q') = zlen (l1 q)) by apply zlen_insert.
  assert (St : static q q') by by constructor.
  constructor.
  - by apply (geometry_static q); [apply W|].
  - exact (wf_bytes q1 W1).
  - exact (wf_flen q1 W1).
  - intros k. rewrite l1pub_l1. destruct (k =? i); [|exact (wf_l1 q W k)].
    split; [apply copied_u64; lia|]. rewrite l1pub_entry. split; [apply (fr_al _ _ F)|lia].
  - exact (wf_rt q W).
  - intros g. rewrite l1pub_map. exact (wf_map q W g).
  - intros w1 w2 c [H1|[-> ->]]%l1pub_owns [H2|[-> Hc]]%l1pub_owns; [by apply (wf_excl q W _ _ c)| | |done].
    + subst c. by destruct (Hfree w1).
    + by destruct (Hfree w2).
  - pose proof l1pub_len as Hl. change (flen q') with (zlen d). rewrite Hl.
    destruct (wf_below q W) as [Hb1 Hb2]. split; [by rewrite Hlen|].
    intros w c Hw [Hc|[-> ->]]%l1pub_owns; [by apply (Hb2 w)|].
    pose proof (div_mul_aligned off (clusterSize q) ltac:(lia) (fr_al _ _ F)).
    pose proof (fr_end _ _ F). change (clusterSize q') with (clusterSize q). lia.
  - intros k t. cbn [l2Cache set_l2Cache q']. destruct (decide (k = i)) as [->|Hk].
    + rewrite lookup_insert_eq. intros [= <-]. rewrite Hlen, l1pub_l1, Z.eqb_refl. splits; try lia.
      * rewrite zlen_zeros. change (l2Entries q') with (l2Entries q).
        destruct (geo_facts q (wf_geo q W)). lia.
      * apply copied_nonzero; lia.
    + rewrite lookup_insert_ne by done. intros Ht. rewrite Hlen, l1pub_l1.
      destruct (k =? i) eqn:?; zbool; [done|]. exact (wf_l2cache q W k t Ht).
  - apply (rcache_same q); try done. apply W.
Qed.

Lemma l1pub_drc c : drc q' c = drc q c.
Proof using Gq F Hi Hff.
  pose proof Gq as (W & _). change (drc q' c) with (drc q1 c). apply drc_agree; [done|by constructor| |].
  - change (flen q1) with (zlen d). rewrite l1pub_len. apply W.
  - intros Hnz. change (D q1) with d. apply l1pub_agree; [by split|done].
Qed.

Lemma l1pub_synced : synced q'.
Proof using Gq F Hi Hz Hff.
  pose proof Gq as (W & Sy & _). destruct l1entry_place as (Hcs & Ha & Hal & Hao & _).
  destruct (fresh_range q off W F) as (Hr & _ & _). pose proof (wf_geo q W) as G.
  destruct (geo_facts q G) as (_ & _ & Hl2 & _ & Hl2p & _).
  assert (Hlen : zlen (l1 q') = zlen (l1 q)) by apply zlen_insert.
  assert (Hb : below q (zlen d)) by (rewrite l1pub_len; apply W).
  constructor.
  - change (D q') with d. rewrite (frame_hdr q W); [|done|by apply l1pub_agree].
    pose proof (sy_hdr q Sy) as Hh. unfold header_matches in *. by rewrite Hlen.
  - rewrite Hlen. change (D q') with d. change (q_l1TableOffset q') with (q_l1TableOffset q).
    unfold d, a. destruct (wf_below q W) as [Hb1 _]. unfold flen, f_size in Hb1. fold (D q) in Hb1.
    destruct (g_l1off q G). rewrite diskTable_write; try lia; [|apply copied_u64; lia].
    by rewrite (sy_l1 q Sy).
  - etransitivity; [|exact (sy_rt q Sy)]. apply (frame_rt q W d Hb).
    intros c Hc. by apply l1pub_agree.
  - intros k t. cbn [l2Cache set_l2Cache q']. rewrite l1pub_l1. change (D q') with d.
    change (l2Entries q') with (l2Entries q). destruct (decide (k = i)) as [->|Hk].
    + rewrite lookup_insert_eq, Z.eqb_refl, l1pub_entry. intros [= <-]. symmetry.
      pose proof (fr_end _ _ F). pose proof l1pub_len.
      apply diskTable_zero; try lia. intros j Hj. rewrite l1pub_get by lia. apply (fr_zero _ _ F). lia.
    + rewrite lookup_insert_ne by done. destruct (k =? i) eqn:?; zbool; [done|]. intros Ht.
      rewrite (sy_l2 q Sy k t Ht). destruct (wf_l2cache q W k t Ht) as (_ & _ & Hnz).
      symmetry. apply (frame_l2 q W d Hb); [done|]. apply l1pub_agree; [by split|done].
  - intros o k b Ho Hk. rewrite (sy_rb q Sy o k b Ho Hk). f_equal. symmetry.
    destruct (rc_entry q (wf_rcache q W) o k Ho) as (_ & Hnz & k' & <-).
    apply (frame_rb q W d Hb); [done|]. apply l1pub_agree; [by split|done].
  - intros w c [Hc|[-> ->]]%l1pub_owns; rewrite l1pub_drc; [by apply (sy_rc q Sy w)|apply (fr_rc _ _ F)].
Qed.

Lemma l1pub_good : Good q' /\ keeps q q'.
Proof using Gq F Hi Hz Hff.
  destruct l1pub_before as (_ & K & _). split.
  - split; [apply l1pub_wf|split; [apply l1pub_synced|apply Gq]].
  - destruct K as [_ _ HD _]. constructor; [constructor; try done; apply zlen_insert|apply l1pub_map|exact HD|exact Hff].
Qed.

End PublishL2.

(** A zeroed cluster that only guest cluster [g] may use. *)
Record target (q : qcow2Image) (g off : Z) : Prop := {
  tg_al : off mod clusterSize q = 0;
  tg_range : 0 < off < 2 ^ 56;
  tg_end : off + clusterSize q <= flen q;
  tg_rc : drc q (off / clusterSize q) = 1;
  tg_owner : forall w, owns q w (off / clusterSize q) -> w = OData g;
  tg_zero : forall i, off <= i < off + clusterSize q -> zget (D q) i = 0
}.

Lemma fresh_target q g off : wf q -> fresh q off -> target q g off.
Proof.
  intros W F. destruct (fresh_range q off W F) as (Hr & _ & Hfree). destruct F.
  constructor; try done; [lia|]. intros w Hw. by destruct (Hfree w).
Qed.

Section PublishData.
Context (q : qcow2Image) (Gq : Good q) (g off : Z) (T : target q g off).
Let i := g / l2Entries q.
Let j := g mod l2Entries q.
Context (t : list Z) (Ht : l2Cache q !! i = Some t) (Hzero : reads_zero (mapping q g) = true).
Let e := off ||| qcow2OFlagCopied.
Let l2Off := clusterOffset (zget (l1 q) i).
Let a := l2Off + j * 8.
Let d := zwrite (D q) a (be_bytes 8 e).
Context (fl : list (option Z)) (Hff : ff q -> fault_free (mkFile d fl)).
Let q1 := set_file (mkFile d fl) q.
Let q' := set_l2Cache (<[i := zinsert j e t]> (l2Cache q)) q1.

Lemma l2entry_place : 512 <= clusterSize q /\ 0 <= j < l2Entries q /\ zlen t = l2Entries q /\
  zget (l1 q) i <> 0 /\ 0 < l2Off /\ l2Off + clusterSize q <= flen q /\ l2Entries q * 8 = clusterSize q /\
  owns q (OL2 i) (l2Off / clusterSize q) /\
  forall k, a <= k < a + 8 -> k / clusterSize q = l2Off / clusterSize q.
Proof using Gq T Ht e a.
  pose proof Gq as (W & _). pose proof (wf_geo q W) as G.
  destruct (geo_facts q G) as (Hcs & _ & Hl2 & _ & Hl2p & _).
  destruct (wf_l2cache q W i t Ht) as (Hi & Hlen & Hnz). destruct (l2_in_file q i W Hnz) as [Hp Hin].
  pose proof (Z.mod_pos_bound g (l2Entries q) ltac:(lia)) as Hj. fold j in Hj. fold l2Off in Hp, Hin.
  splits; try done; try lia. intros k Hk. apply in_cluster_div; [lia|apply (wf_l1 q W i)|].
  unfold a in Hk. fold l2Off. lia.
Qed.

Lemma l2pub_get k : 0 <= k -> ~ (a <= k < a + 8) -> zget d k = zget (D q) k.
Proof using Gq T Ht e a.
  intros Hk Hn. destruct l2entry_place as (_ & Hj & _ & _ & Hp & _). unfold d.
  rewrite zget_write, zlen_be_bytes by (unfold a; lia). destruct (_ && _) eqn:?; zbool; [lia|done].
Qed.

Lemma l2pub_len : zlen d = flen q.
Proof using Gq T Ht e a.
  destruct l2entry_place as (_ & Hj & _ & _ & Hp & Hin & H8 & _).
  assert (a + 8 <= flen q) by (unfold a; lia). unfold d, flen, f_size in *. fold (D q) in *.
  rewrite zlen_write, zlen_be_bytes by (unfold a; lia). change (Z.of_nat 8) with 8.
  destruct (8 =? 0) eqn:?; zbool; lia.
Qed.

Lemma l2pub_agree w c : owns q w c -> w <> OL2 i -> agree_owned q d w c.
Proof using Gq T Ht e a.
  intros Hc Hw k Hk Hkc _. destruct l2entry_place as (_ & _ & _ & _ & _ & _ & _ & Ho & Hcl).
  apply l2pub_get; [done|]. intros Hin. apply Hw. pose proof Gq as (W & _).
  apply (wf_excl q W w (OL2 i) c Hc). by rewrite <- Hkc, (Hcl k Hin).
Qed.

Lemma l2pub_safe : safe q (fun k => a <= k < a + 8).
Proof using Gq T Ht e a.
  destruct l2entry_place as (_ & _ & _ & _ & _ & _ & _ & Ho & Hcl). pose proof Gq as (W & _).
  intros k Hk. apply (safe_owner q (OL2 i) (l2Off / clusterSize q) W); try done; [|by apply Hcl].
  intros ? [= <-]. by rewrite Ht.
Qed.

Lemma l2pub_before : wf q1 /\ keeps q q1.
Proof using Gq T Ht e a Hff.
  pose proof Gq as (W & _). pose proof l2pub_safe as HP.
  assert (Tb : same_tables q q1) by by constructor.
  assert (Hb : below q (flen q1)).
  { change (flen q1) with (zlen d). rewrite l2pub_len. apply W. }
  assert (Hs : forall k, 0 <= k -> ~ (a <= k < a + 8) -> zget (D q1) k = zget (D q) k) by exact l2pub_get.
  split; [|by apply (change_keeps q q1 W _ HP)].
  apply (change_wf q q1 W _ HP); try done.
  - change (bytes_ok d). unfold d. pose proof (wf_bytes q W). auto with go.
  - change (flen q1) with (zlen d). rewrite l2pub_len. apply W.
  - apply (rcache_same q); try done. apply W.
Qed.

Lemma l2pub_map g' : mapping q' g' = if g' =? g then e else mapping q g'.
Proof using Gq T Ht e a Hff.
  destruct l2pub_before as (_ & K). destruct l2entry_place as (_ & Hj & Hlen & _).
  unfold mapping at 1. change (l2Entries q') with (l2Entries q). unfold tableOf.
  cbn [l2Cache set_l2Cache q']. destruct (decide (g' / l2Entries q = i)) as [Ei|Ei].
  - rewrite Ei, lookup_insert_eq, zget_insert by lia.
    replace (g' =? g) with (g' mod l2Entries q =? j).
    + destruct (_ =? j) eqn:?; [done|]. rewrite <- (k_map _ _ K). unfold mapping, tableOf.
      change (l2Entries q1) with (l2Entries q). change (l2Cache q1) with (l2Cache q). by rewrite Ei, Ht.
    + apply eq_true_iff_eq. rewrite !Z.eqb_eq. split; [|by intros ->].
      intros Ej. rewrite (Z.div_mod g' (l2Entries q)), (Z.div_mod g (l2Entries q)) by lia.
      fold i j. by rewrite Ei, Ej.
  - rewrite lookup_insert_ne by done. destruct (g' =? g) eqn:?; zbool; [by subst g'|].
    exact (k_map _ _ K g').
Qed.

Lemma l2pub_entry : clusterOffset e = off.
Proof using Gq T Ht e a.
  pose proof (tg_range _ _ _ T). apply clusterOffset_copied; [lia|].
  by eapply cs_aligned_512, (tg_al _ _ _ T); apply Gq.
Qed.

Lemma l2pub_owns w c :
  owns q' w c <-> (w <> OData g /\ owns q w c) \/ (w = OData g /\ c = off / clusterSize q).
Proof using Gq T Ht e a Hff.
  pose proof (tg_range _ _ _ T). destruct w as [| | |k|k|g']; cbn [owns].
  1-5: split; [by left; split|by intros [[_ ?]|[? _]]].
  rewrite l2pub_map. change (clusterSize q') with (clusterSize q).
  destruct (g' =? g) eqn:E; zbool; [subst g'; rewrite l2pub_entry|]; split.
  - intros [_ ->]. by right.
  - intros [[? _]|[_ ->]]; [done|]. split; [lia|done].
  - intros Hc. left. split; [congruence|done].
  - intros [[_ ?]|[[= ->] _]]; done.
Qed.

Lemma l2pub_wf : wf q'.
Proof using Gq T Ht e a Hff.
  pose proof Gq as (W & _). destruct l2pub_before as (W1 & _).
  destruct l2entry_place as (Hcs & Hj & Hlen & Hnz & _). pose proof (tg_range _ _ _ T) as Hr.
  assert (H512 : off mod 512 = 0) by (by eapply cs_aligned_512, (tg_al _ _ _ T); apply W).
  constructor.
  - apply (geometry_static q); [apply W|by constructor].
  - exact (wf_bytes q1 W1).
  - exact (wf_flen q1 W1).
  - exact (wf_l1 q W).
  - exact (wf_rt q W).
  - intros g'. rewrite l2pub_map. destruct (g' =? g); [|exact (wf_map q W g')].
    split; [apply copied_u64; lia|]. rewrite l2pub_entry. split; [exact (tg_al _ _ _ T)|].
    apply copied_valid; [lia|done|lia].
  - intros w1 w2 c [[N1 H1]|[-> ->]]%l2pub_owns [[N2 H2]|[-> Hc]]%l2pub_owns;
      [by apply (wf_excl q W _ _ c)| | |done].
    + subst c. by apply (tg_owner _ _ _ T) in H1.
    + by apply (tg_owner _ _ _ T) in H2.
  - pose proof l2pub_len as Hl. change (flen q') with (zlen d). rewrite Hl.
    destruct (wf_below q W) as [Hb1 Hb2]. split; [done|].
    intros w c Hw [[_ Hc]|[-> ->]]%l2pub_owns; [by apply (Hb2 w)|].
    pose proof (div_mul_aligned off (clusterSize q) ltac:(lia) (tg_al _ _ _ T)).
    pose proof (tg_end _ _ _ T). change (clusterSize q') with (clusterSize q). lia.
  - intros k t'. cbn [l2Cache set_l2Cache q']. destruct (decide (k = i)) as [->|Hk].
    + rewrite lookup_insert_eq. intros [= <-]. rewrite zlen_insert.
      exact (wf_l2cache q W i t Ht).
    + rewrite lookup_insert_ne by done. apply (wf_l2cache q W).
  - apply (rcache_same q); try done. apply W.
Qed.

Lemma l2pub_drc c : drc q' c = drc q c.
Proof using Gq T Ht e a Hff.
  pose proof Gq as (W & _). change (drc q' c) with (drc q1 c). apply drc_agree; [done|by constructor| |].
  - change (flen q1) with (zlen d). rewrite l2pub_len. apply W.
  - intros Hnz. change (D q1) with d. apply l2pub_agree; [by split|done].
Qed.

Lemma l2pub_synced : synced q'.
Proof using Gq T Ht e a Hff.
  pose proof Gq as (W & Sy & _). destruct l2entry_place as (Hcs & Hj & Hlen & Hnz & Hp & Hin & H8 & _).
  assert (Hb : below q (zlen d)) by (rewrite l2pub_len; apply W). pose proof (tg_range _ _ _ T).
  constructor.
  - change (D q') with d. rewrite (frame_hdr q W); [|done|by apply l2pub_agree]. exact (sy_hdr q Sy).
  - etransitivity; [|exact (sy_l1 q Sy)]. apply (frame_l1 q W d Hb). intros c Hc. by apply l2pub_agree.
  - etransitivity; [|exact (sy_rt q Sy)]. apply (frame_rt q W d Hb). intros c Hc. by apply l2pub_agree.
  - intros k t'. cbn [l2Cache set_l2Cache q']. change (D q') with d. change (l1 q') with (l1 q).
    change (l2Entries q') with (l2Entries q). destruct (decide (k = i)) as [->|Hk].
    + rewrite lookup_insert_eq. intros [= <-]. fold l2Off. unfold flen, f_size in Hin. fold (D q) in Hin.
      unfold d, a. rewrite diskTable_write; try lia; [|apply copied_u64; lia].
      f_equal. exact (sy_l2 q Sy i t Ht).
    + rewrite lookup_insert_ne by done. intros Hc. rewrite (sy_l2 q Sy k t' Hc).
      destruct (wf_l2cache q W k t' Hc) as (_ & _ & Hk0).
      symmetry. apply (frame_l2 q W d Hb); [done|]. apply l2pub_agree; [by split|congruence].
  - intros o k b Ho Hk. rewrite (sy_rb q Sy o k b Ho Hk). f_equal. symmetry.
    destruct (rc_entry q (wf_rcache q W) o k Ho) as (_ & Hk0 & k' & <-).
    apply (frame_rb q W d Hb); [done|]. apply l2pub_agree; [by split|done].
  - intros w c [[_ Hc]|[-> ->]]%l2pub_owns; rewrite l2pub_drc; [by apply (sy_rc q Sy w)|exact (tg_rc _ _ _ T)].
Qed.

Lemma l2pub_good : Good q' /\ same_view q q' /\ mapping q' g = e.
Proof using Gq T Ht e a Hzero Hff.
  pose proof Gq as (W & _ & Hf). destruct l2pub_before as (_ & K).
  destruct (geo_facts q (wf_geo q W)) as (Hcs & _).
  assert (Hmap : mapping q' g = e) by (by rewrite l2pub_map, Z.eqb_refl).
  splits; [split; [apply l2pub_wf|split; [apply l2pub_synced|done]]| |done].
  split; [by constructor|]. intros o Ho. unfold vbyte at 1. change (clusterSize q') with (clusterSize q).
  rewrite l2pub_map. destruct (_ =? g) eqn:E; zbool.
  - unfold vbyte. rewrite E, Hzero. destruct (reads_zero e); [done|]. rewrite l2pub_entry.
    pose proof (Z.mod_pos_bound o (clusterSize q) ltac:(lia)) as Hm. pose proof (tg_range _ _ _ T).
    change (D q') with d. rewrite l2pub_get; [apply (tg_zero _ _ _ T); lia|lia|].
    intros Hin. destruct l2entry_place as (_ & _ & _ & _ & _ & _ & _ & Hown & Hcl).
    pose proof (Hcl _ Hin) as Hc. rewrite (in_cluster_div off) in Hc; [|lia|exact (tg_al _ _ _ T)|lia].
    rewrite <- Hc in Hown. apply (tg_owner _ _ _ T) in Hown. done.
  - rewrite <- (proj2 (keeps_view q q1 (wf_geo q W) K) o Ho). unfold vbyte.
    by rewrite (k_map _ _ K).
Qed.

End PublishData.
