(* ===== verification/QcowWrite.v ===== *)
(** Writing the virtual disk: [WriteAt] stores its bytes in the abstraction and
    nothing else, keeps the invariant under every combination of I/O failures,
    and succeeds when no I/O fails and the host image has room. *)

From S2P Require Import Prelude Bytes OsFile QcowHeader QcowImage QcowInv QcowRead QcowFrame QcowRefcount QcowAlloc QcowPublish.

(** ** Bytes of a mapped cluster *)

Section DataWrite.
Context (q q' : qcow2Image) (Gq : Good q) (g : Z).
Let co := clusterOffset (mapping q g).
Context (Hco : co <> 0) (x : Z) (b : list Z).
Context (Hx : 0 <= x) (Hxb : x + zlen b <= clusterSize q) (Hb : bytes_ok b).
Context (Hw : rewrote q q' (zwrite (D q) (co + x) b)).

Lemma dw_place : 512 <= clusterSize q /\ 0 < co /\ co + clusterSize q <= flen q /\
  co mod clusterSize q = 0 /\ owns q (OData g) (co / clusterSize q).
Proof using Gq Hco.
  pose proof Gq as (W & _). destruct (geo_facts q (wf_geo q W)) as (Hcs & _).
  destruct (data_in_file q g W Hco). destruct (wf_map q W g) as (_ & Hal & _). splits; try done; lia.
Qed.

Lemma dw_D : D q' = zwrite (D q) (co + x) b.
Proof using Hw. apply (rewrote_D _ _ _ Hw). Qed.

Lemma dw_get k : 0 <= k -> zget (D q') k =
  if (co + x <=? k) && (k <? co + x + zlen b) then zget b (k - (co + x)) else zget (D q) k.
Proof using Gq Hco Hx Hw. intros Hk. destruct dw_place. rewrite dw_D. apply zget_write; lia. Qed.

Lemma dw_flen : flen q' = flen q.
Proof using Gq Hco Hx Hxb Hw.
  destruct dw_place as (_ & Hp & Hin & _). pose proof (zlen_nonneg b).
  unfold flen, f_size in *. fold (D q) (D q') in *. rewrite dw_D, zlen_write by lia.
  destruct (zlen b =? 0) eqn:?; zbool; lia.
Qed.

Lemma dw_cluster k : co + x <= k < co + x + zlen b -> k / clusterSize q = co / clusterSize q.
Proof using Gq Hco Hx Hxb. intros Hk. destruct dw_place as (? & _ & _ & ? & _). apply in_cluster_div; lia. Qed.

Lemma dw_agree w c : owns q w c -> w <> OData g -> agree_owned q (D q') w c.
Proof using Gq Hco Hx Hxb Hw.
  intros Hc Hne k Hk Hkc _. rewrite dw_get by done. destruct (_ && _) eqn:E; zbool; [|done].
  destruct Hne. destruct dw_place as (_ & _ & _ & _ & Ho). pose proof Gq as (W & _).
  apply (wf_excl q W w (OData g) c Hc). by rewrite <- Hkc, (dw_cluster k).
Qed.

Lemma dw_tables : same_tables q q'.
Proof using Hw. destruct Hw as [(fl & ->) _]. by constructor. Qed.

Let P := fun k => co + x <= k < co + x + zlen b.

Lemma dw_safe : safe_tables q P.
Proof using Gq Hco Hx Hxb.
  intros k Hk i Hi _ Hin. destruct dw_place as (Hcs & _ & _ & _ & Ho). pose proof Gq as (W & _).
  assert (OL2 i = OData g); [|done]. apply (wf_excl q W _ _ (co / clusterSize q)); [|done].
  split; [done|]. rewrite <- (dw_cluster k Hk). apply in_cluster_div; [lia|apply (wf_l1 q W i)|done].
Qed.

Lemma dw_same k : 0 <= k -> ~ P k -> zget (D q') k = zget (D q) k.
Proof using Gq Hco Hx Hw.
  intros Hk HP. rewrite dw_get by done. destruct (_ && _) eqn:E; zbool; [|done]. by destruct HP.
Qed.

Lemma dw_below : below q (flen q').
Proof using Gq Hco Hx Hxb Hw. rewrite dw_flen. apply Gq. Qed.

Lemma dw_map g' : mapping q' g' = mapping q g'.
Proof using Gq Hco Hx Hxb Hw. exact (tables_map q q' (proj1 Gq) P dw_safe dw_tables dw_same dw_below g'). Qed.

Lemma dw_owns w c : owns q' w c <-> owns q w c.
Proof using Gq Hco Hx Hxb Hw. exact (tables_owns q q' (proj1 Gq) P dw_safe dw_tables dw_same dw_below w c). Qed.

Lemma dw_drc c : drc q' c = drc q c.
Proof using Gq Hco Hx Hxb Hw.
  apply drc_agree; [apply Gq|exact dw_tables|exact dw_below|]. intros Hz. by apply dw_agree; [split|].
Qed.

Lemma dw_good : Good q'.
Proof using Gq Hco Hx Hxb Hb Hw.
  pose proof Gq as (W & Sy & Hf). split; [|split].
  - apply (tables_wf q q' W P dw_safe dw_tables dw_same dw_below).
    + rewrite dw_D. apply bytes_ok_write; [apply W|done].
    + rewrite dw_flen. apply W.
    + destruct Hw as [(fl & ->) _]. apply (rcache_same q); try done. apply W.
  - apply (synced_change q q' (OData g)); try done.
    + exact dw_tables.
    + exact dw_below.
    + exact dw_agree.
    + exact dw_owns.
    + apply (rsync_agree q q'); [done|exact (sy_rb q Sy)|exact dw_tables|exact dw_below| | |].
      * by destruct Hw as [(fl & ->) _].
      * by destruct Hw as [(fl & ->) _].
      * intros k c Hc. by apply dw_agree.
  - by destruct Hw as [(fl & ->) _].
Qed.

(** The virtual disk after the write. *)
Lemma dw_view o : 0 <= o -> vbyte q' o =
  if (o / clusterSize q =? g) && negb (reads_zero (mapping q g)) &&
     ((x <=? o mod clusterSize q) && (o mod clusterSize q <? x + zlen b))
  then zget b (o mod clusterSize q - x) else vbyte q o.
Proof using Gq Hco Hx Hxb Hw.
  intros Ho. unfold vbyte at 1. rewrite (st_cs _ _ (sm_static _ _ dw_tables)), dw_map.
  destruct dw_place as (Hcs & Hp & Hin & Hal & Hown). pose proof Gq as (W & _).
  pose proof (Z.mod_pos_bound o (clusterSize q) ltac:(lia)) as Hm.
  destruct (o / clusterSize q =? g) eqn:Eg; zbool; cbn [andb].
  - unfold vbyte. rewrite Eg. destruct (reads_zero (mapping q g)); [done|]. fold co. cbn [negb andb].
    rewrite dw_get by lia.
    destruct (x <=? o mod clusterSize q) eqn:E1, (o mod clusterSize q <? x + zlen b) eqn:E2,
      (co + x <=? co + o mod clusterSize q) eqn:E3, (co + o mod clusterSize q <? co + x + zlen b) eqn:E4;
      zbool; cbn [andb]; try lia. f_equal. lia.
  - unfold vbyte. destruct (reads_zero _) eqn:Er; [done|]. unfold reads_zero in Er. zbool.
    destruct (data_in_file q (o / clusterSize q) W ltac:(done)) as [? _].
    apply dw_same; [lia|]. intros HP. apply dw_cluster in HP.
    assert (Hg : OData (o / clusterSize q) = OData g); [|congruence].
    apply (wf_excl q W _ _ (co / clusterSize q)); [|done]. split; [done|].
    rewrite <- HP. apply in_cluster_div; [lia|apply (wf_map q W)|lia].
Qed.

End DataWrite.

(** ** Table updates *)

Lemma Good_loads q q' : Good q -> loads q q' -> Good q'.
Proof. intros (W & Sy & Hf) L. destruct L. split; [done|split; [auto|congruence]]. Qed.

Lemma loads_flen q q' : loads q q' -> flen q' = flen q.
Proof. intros L. unfold flen, f_size. fold (D q) (D q'). by rewrite (ld_data _ _ L). Qed.

Lemma loads_refl q : wf q -> loads q q.
Proof.
  intros W. apply loads_sched; [done|]. exists (f_faults (file q)).
  split; [unfold resched, D; by destruct q as [[]]|done].
Qed.

Lemma loads_fails q q' : Good q -> loads q q' -> fails q q'.
Proof. intros G L. split; [apply L|]. by apply Good_Inv, (Good_loads q). Qed.

(** The refcount of a cluster in use is one. *)
Lemma wp_refcount_one q w o :
  Good q -> 0 <= o -> o mod clusterSize q = 0 -> owns q w (o / clusterSize q) ->
  wp (refcount o) q (fun v q' => v = 1 /\ loads q q' /\ l2Cache q' = l2Cache q)
    (fun _ q' => loads q q' /\ ~ ff q).
Proof.
  intros Gq Ho Hal Hown. pose proof Gq as (W & Sy & _).
  pose proof (sy_rc q Sy w _ Hown) as Hone.
  eapply wp_mono; [apply wp_refcount; auto with go| |].
  - intros v q' [-> L]. splits; [done|by apply rloads_loads|]. by destruct L as [(? & ? & ? & ? & ->) _].
  - intros e q' [L [Hn|Hfull]]; (split; [by apply rloads_loads|]); [done|].
    unfold drc in Hone. fold (tableIndexOf q o) in Hone. rewrite zget_out in Hone by lia. done.
Qed.

Lemma torn_fails q q' a n :
  Good q -> safe q (fun k => a <= k < a + n) -> torn q q' a n -> ~ ff q -> fails q q'.
Proof.
  intros Gq HP (d & fl & f & -> & Hl & Hd & Hb) Hf. pose proof Gq as (W & _). pose proof (wf_flen q W).
  eapply (fails_damaged q _ _ f); try done.
  - change (flen q <= zlen d <= maxInt64). lia.
  - apply Hb, W.
  - apply (rcache_same q); try done. apply W.
Qed.

Lemma fresh_resched fl q off : fresh q off -> fresh (resched fl q) off.
Proof. intros []. by constructor. Qed.

Lemma Good_resched fl q : Good q -> Good (resched fl q).
Proof. intros (W & Sy & Hf). split; [by apply wf_resched|split; [by apply synced_resched|done]]. Qed.

(** Giving back a cluster whose publication failed. *)
Lemma wp_rollbackNewCluster q q1 off err {A} (Q : A -> qcow2Image -> Prop) :
  Good q -> fresh q off -> (sched q q1 \/ fails q q1 /\ writeFault q1 <> None) ->
  wp (rollbackNewCluster off err) q1 Q (fun _ q' => fails q q').
Proof.
  intros Gq F Hc. unfold rollbackNewCluster. wsteps. pose proof Gq as (W & _).
  destruct (fresh_range q off W F) as (Hr & _). destruct Hc as [Hs|[Hfl Hwf]].
  - pose proof Hs as (fl & -> & Hff). change (writeFault (resched fl q)) with (writeFault q).
    rewrite (proj2 (proj2 Gq)). rewrite i64_small by lia.
    eapply wp_mono; [apply (wp_release (resched fl q) off off err)| |].
    + by apply Good_resched.
    + apply F.
    + apply F.
    + lia.
    + unfold maxInt64. lia.
    + intros a q' Ha. exact Ha.
    + intros e q' Hf. eapply fails_trans; [by apply keeps_sched|done].
  - destruct (writeFault q1) eqn:E; [|done]. wsteps. done.
Qed.

Section UpdateL1.
Context (q : qcow2Image) (Gq : Good q) (i : Z) (Hi : 0 <= i < zlen (l1 q)) (e : Z).
Let a := q_l1TableOffset q + i * 8.

Lemma wp_updateL1Entry :
  wp (updateL1Entry i e) q
    (fun _ q' => exists fl, (ff q -> fault_free (mkFile (zwrite (D q) a (be_bytes 8 e)) fl)) /\
       q' = set_l1 (zinsert i e (l1 q)) (set_file (mkFile (zwrite (D q) a (be_bytes 8 e)) fl) q))
    (fun _ q' => ~ ff q /\ (sched q q' \/ torn q q' a 8)).
Proof using Gq Hi.
  pose proof Gq as (W & Sy & _). pose proof (wf_geo q W) as G. destruct (g_l1off q G) as [Ho Ha].
  destruct (wf_below q W) as [Hb _]. pose proof (wf_flen q W). unfold maxInt64 in *.
  unfold updateL1Entry. wsteps. eapply wp_gindex; [by apply zlookup_zget|]. wsteps.
  rewrite u64_small by lia. fold a.
  eapply wp_mono; [apply wp_writeMetadataEntry; try (unfold a, maxInt64; lia)| |done].
  - unfold a. unfold flen, f_size in Hb. fold (D q) in Hb.
    apply (table_entry_bytes (D q) (q_l1TableOffset q) (zlen (l1 q))); try lia; [apply W|apply Sy].
  - intros [] q1 [(fl & ->) Hff]. wsteps. by exists fl.
Qed.

Lemma l1_entry_safe : safe q (fun k => a <= k < a + 8).
Proof using Gq Hi.
  pose proof Gq as (W & _). pose proof (wf_geo q W) as G. destruct (geo_facts q G) as (Hcs & _).
  destruct (g_l1off q G) as [Ho Ha]. intros k Hk. unfold a in Hk.
  apply (safe_owner q OL1 (k / clusterSize q) W); try done. cbn. split; [apply Z.div_le_mono; lia|].
  apply Z.div_lt_upper_bound; [lia|].
  pose proof (Z.div_mod (q_l1TableOffset q + zlen (l1 q) * 8 + clusterSize q - 1) (clusterSize q) ltac:(lia)).
  pose proof (Z.mod_pos_bound (q_l1TableOffset q + zlen (l1 q) * 8 + clusterSize q - 1) (clusterSize q) ltac:(lia)).
  lia.
Qed.

End UpdateL1.

Section UpdateL2.
Context (q : qcow2Image) (Gq : Good q) (g : Z) (t : list Z).
Let i := g / l2Entries q.
Let j := g mod l2Entries q.
Context (Ht : l2Cache q !! i = Some t) (e : Z).
Let a := clusterOffset (zget (l1 q) i) + j * 8.

Lemma wp_updateL2Entry :
  wp (updateL2Entry i j e) q
    (fun _ q' => exists fl, (ff q -> fault_free (mkFile (zwrite (D q) a (be_bytes 8 e)) fl)) /\
       q' = set_l2Cache (<[i := zinsert j e t]> (l2Cache q))
              (set_file (mkFile (zwrite (D q) a (be_bytes 8 e)) fl) q))
    (fun _ q' => ~ ff q /\ (sched q q' \/ torn q q' a 8)).
Proof using Gq Ht.
  pose proof Gq as (W & Sy & _). pose proof (wf_geo q W) as G.
  destruct (geo_facts q G) as (Hcs & _ & Hl2 & _ & Hl2p & _).
  destruct (wf_l2cache q W i t Ht) as (Hi & Hlen & Hnz). destruct (l2_in_file q i W Hnz) as [Hp Hin].
  pose proof (Z.mod_pos_bound g (l2Entries q) ltac:(lia)) as Hj. fold j in Hj. pose proof (wf_flen q W).
  unfold maxInt64 in *. unfold updateL2Entry, loadL2. wsteps. rewrite Ht. wsteps.
  eapply wp_gindex; [by apply zlookup_zget|]. wstep; [zbool; lia|]. wstep.
  eapply wp_gindex; [apply zlookup_zget; lia|]. wsteps. rewrite u64_small by lia. fold a.
  eapply wp_mono; [apply wp_writeMetadataEntry; try (unfold a, maxInt64; lia)| |done].
  - unfold a. unfold flen, f_size in Hin. fold (D q) in Hin.
    apply (table_entry_bytes (D q) _ (l2Entries q)); try lia; [apply W|].
    symmetry. exact (sy_l2 q Sy i t Ht).
  - intros [] q1 [(fl & ->) Hff]. wsteps. by exists fl.
Qed.

End UpdateL2.

(** ** The L2 table of a guest cluster *)

Lemma wp_ensureL2Table q i :
  Good q -> encodable q 4 -> 0 <= i < zlen (l1 q) ->
  wp (ensureL2Table i) q
    (fun t q' => Good q' /\ keeps q q' /\ l2Cache q' !! i = Some t /\ flen q' <= flen q + 4 * clusterSize q)
    (fun _ q' => fails q q' /\ (~ ff q \/ full q (alignUp (flen q) (clusterSize q)))).
Proof.
  intros Gq Henc Hi. pose proof Gq as (W & Sy & _). pose proof (wf_geo q W) as G.
  destruct (geo_facts q G) as (Hcs & _ & Hl2 & _).
  unfold ensureL2Table. wsteps. destruct (l2Cache q !! i) as [t|] eqn:Ei.
  { wsteps. splits; auto with go. lia. }
  wstep; [zbool; lia|]. wstep. eapply wp_gindex; [by apply zlookup_zget|].
  destruct (zget (l1 q) i =? 0) eqn:Ez; zbool; cbn [negb].
  - wstep. unfold checkedInt. destruct (maxInt64 <? l2Entries q) eqn:?; zbool; [unfold maxInt64 in *; lia|].
    unfold wp at 1, lift. wsteps. eapply wp_mono; [by apply wp_allocateCluster| |done].
    intros off q1 (E & F & Hfl). pose proof (ex_good _ _ E) as G1. wsteps.
    pose proof (k_static _ _ (ex_keeps _ _ E)) as St.
    assert (Hi1 : 0 <= i < zlen (l1 q1)) by by rewrite (st_l1len _ _ St).
    eapply wp_mono; [apply wp_updateL1Entry; done| |].
    + intros [] q2 (fl & Hff & ->). wsteps. cbn [l2Cache set_l1 set_file set_l2Cache]. rewrite <- (st_l2e _ _ St).
      assert (Hz1 : zget (l1 q1) i = 0) by by rewrite (ex_l1 _ _ E).
      destruct (l1pub_good q1 G1 off F i Hi1 Hz1 fl Hff) as [Gp Kp].
      splits; [exact Gp|eapply keeps_trans; [apply E|exact Kp]|by rewrite lookup_insert_eq|].
      pose proof (l1pub_len q1 G1 off F i Hi1) as Hl. etransitivity; [|exact Hfl].
      apply Z.eq_le_incl. exact Hl.
    + intros e q2 [Hn Hc]. wsteps. eapply wp_mono; [apply (wp_rollbackNewCluster q1); try done| |].
      * destruct Hc as [?|Ht]; [by left|right]. split; [by eapply torn_fails, Hn; [..|exact Ht]; try done; apply l1_entry_safe|].
        destruct Ht as (d & fl & f & -> & _). done.
      * intros t q3 Hq3. exact Hq3.
      * intros e' q3 Hf. split; [eapply fails_trans; [apply E|done]|]. left. intros Hff. by apply Hn, E.
  - destruct (wf_l1 q W i) as (Hu & Hal & Hnz). destruct (l2_in_file q i W Ez) as [Hp Hin].
    wstep; [zbool; lia|]. wstep.
    eapply wp_mono; [apply (wp_refcount_one q (OL2 i)); try done; lia| |].
    2: { intros e q1 [L Hn]. split; [by apply loads_fails|by left]. }
    intros v q1 (-> & L & _). wstep; [done|]. pose proof (Good_loads q q1 Gq L) as G1.
    eapply wp_mono; [apply wp_loadL2; [apply G1|by rewrite (ld_l1 _ _ L)]| |].
    + intros t q2 (-> & Hc & L2). pose proof (loads_trans _ _ _ L L2) as L3.
      splits; [by eapply Good_loads|apply L3|done|]. rewrite (loads_flen _ _ L3). lia.
    + intros e q2 [L2 Hn]. pose proof (loads_trans _ _ _ L L2) as L3.
      split; [by apply loads_fails|]. left. intros Hff. apply Hn, (ld_keeps _ _ L), Hff.
Qed.

(** ** A writable host cluster *)

(** An operation that failed before it changed the virtual disk. *)
Definition aborts (q q' : qcow2Image) : Prop := Inv q' /\ same_view q q' /\ (ff q -> ff q').

Lemma fails_aborts q q' : Good q -> fails q q' -> aborts q q'.
Proof. intros G [K I]. unfold aborts. splits; [done|apply keeps_view; auto with go|apply K]. Qed.

Lemma aborts_trans q1 q2 q3 : same_view q1 q2 -> (ff q1 -> ff q2) -> aborts q2 q3 -> aborts q1 q3.
Proof. intros V F (I & V2 & F2). unfold aborts. splits; [done|by eapply same_view_trans|auto]. Qed.

(** The guest cluster [g] is mapped at [co] for writing. *)
Record writable (q : qcow2Image) (g co : Z) (q' : qcow2Image) : Prop := {
  wr_good : Good q';
  wr_view : same_view q q';
  wr_ff : ff q -> ff q';
  wr_map : clusterOffset (mapping q' g) = co;
  wr_nz : co <> 0;
  wr_nonzero : reads_zero (mapping q' g) = false
}.

Lemma copied_reads q off : geometry q -> 0 < off < 2 ^ 56 -> off mod clusterSize q = 0 ->
  clusterOffset (off ||| qcow2OFlagCopied) = off /\ reads_zero (off ||| qcow2OFlagCopied) = false.
Proof.
  intros G Hr Hal. pose proof (cs_aligned_512 q off G Hal).
  assert (E : clusterOffset (off ||| qcow2OFlagCopied) = off) by (apply clusterOffset_copied; lia).
  split; [done|]. unfold reads_zero. rewrite E, copied_not_zero by lia. cbn.
  destruct (off =? 0) eqn:?; zbool; lia.
Qed.

(** Publication of a zeroed cluster for [g], whose table is cached. *)
Lemma wp_publishCluster q g off t :
  Good q -> target q g off -> l2Cache q !! (g / l2Entries q) = Some t ->
  reads_zero (mapping q g) = true ->
  wp (updateL2Entry (g / l2Entries q) (g mod l2Entries q) (off ||| qcow2OFlagCopied)) q
    (fun _ q' => writable q g off q' /\ flen q' = flen q)
    (fun _ q' => ~ ff q /\ (sched q q' \/ fails q q' /\ writeFault q' <> None)).
Proof.
  intros Gq T Ht Hz. eapply wp_mono; [by apply (wp_updateL2Entry q Gq g t Ht)| |].
  - intros [] q' (fl & Hff & ->). destruct (l2pub_good q Gq g off T t Ht Hz fl Hff) as (G' & V & Hm).
    destruct (copied_reads q off (Good_geo q Gq) (tg_range _ _ _ T) (tg_al _ _ _ T)) as [E1 E2].
    split; [|exact (l2pub_len q Gq g off T t Ht)].
    pose proof (tg_range _ _ _ T). constructor; try done; [by rewrite Hm|lia|by rewrite Hm].
  - intros e q' [Hn [Hs|Ht']]; (split; [done|]); [by left|right].
    split; [|by destruct Ht' as (d & fl & f & -> & _)].
    eapply torn_fails; [done|exact (l2pub_safe q Gq g off T t Ht)|exact Ht'|done].
Qed.

Lemma wp_zeroCluster q g :
  Good q -> clusterOffset (mapping q g) <> 0 -> reads_zero (mapping q g) = true ->
  wp (zeroCluster (clusterOffset (mapping q g))) q
    (fun _ q' => Good q' /\ same_view q q' /\ (ff q -> ff q') /\ mapping q' g = mapping q g /\
       l2Cache q' = l2Cache q /\ flen q' = flen q /\ target q' g (clusterOffset (mapping q g)))
    (fun _ q' => aborts q q' /\ ~ ff q).
Proof.
  intros Gq Hco Hz. pose proof Gq as (W & Sy & _). set (co := clusterOffset (mapping q g)) in *.
  destruct (dw_place q Gq g Hco) as (Hcs & Hp & Hin & Hal & Hown). fold co in Hp, Hin, Hal, Hown.
  destruct (wf_map q W g) as (Hu & _). destruct (clusterOffset_range (mapping q g)) as [Hr _]; [apply Hu|].
  fold co in Hr. destruct (geo_facts q (wf_geo q W)) as (Hcs2 & _).
  assert (Hlz : zlen (zeros (clusterSize q)) = clusterSize q) by (rewrite zlen_zeros; lia).
  unfold zeroCluster. wsteps. unfold checkedInt.
  destruct (maxInt64 <? clusterSize q) eqn:?; zbool; [unfold maxInt64 in *; lia|].
  unfold wp at 1, lift. wsteps. rewrite i64_small by lia.
  eapply wp_mono; [apply wp_fileWriteAt; lia| |done].
  intros [n err] q1 (m & Hm & Hw & He). rewrite Hlz in Hm. cbn [snd] in He.
  replace co with (co + 0) in Hw by lia.
  set (b := take (Z.to_nat m) (zeros (clusterSize q))) in *.
  assert (Hb : zlen b = m) by (apply zlen_take; lia).
  assert (Hbz : forall k, zget b k = 0) by (intros; unfold b; rewrite zget_take, zget_zeros by lia; by destruct (_ <? _)).
  assert (Hxb : 0 + zlen b <= clusterSize q) by lia.
  assert (Hok : bytes_ok b) by (apply Forall_take, bytes_ok_zeros).
  pose proof (dw_good q q1 Gq g Hco 0 b ltac:(lia) Hxb Hok Hw) as G1.
  pose proof (dw_tables q q1 g 0 b Hw) as T1.
  assert (V : same_view q q1).
  { split; [apply T1|]. intros o Ho. rewrite (dw_view q q1 Gq g Hco 0 b ltac:(lia) Hxb Hw) by done.
    by rewrite Hz, andb_false_r. }
  destruct err as [e|]; wsteps.
  - split; [|done]. unfold aborts. splits; [by apply Good_Inv|done|apply Hw].
  - destruct He as [-> _]. rewrite Hlz in *. pose proof (dw_flen q q1 Gq g Hco 0 b ltac:(lia) Hxb Hw) as Hfl.
    pose proof (st_cs _ _ (sm_static _ _ T1)) as Ecs.
    splits; try done; [apply Hw|exact (dw_map q q1 Gq g Hco 0 b ltac:(lia) Hxb Hw g)|apply T1|].
    constructor; rewrite ?Ecs; try done; try lia.
    + rewrite (dw_drc q q1 Gq g Hco 0 b ltac:(lia) Hxb Hw). exact (sy_rc q Sy _ _ Hown).
    + intros w Hw2%(dw_owns q q1 Gq g Hco 0 b ltac:(lia) Hxb Hw). exact (wf_excl q W _ _ _ Hw2 Hown).
    + intros k Hk. rewrite (dw_get q q1 Gq g Hco 0 b ltac:(lia) Hw) by lia. fold co. rewrite Hb, Hbz.
      destruct (_ && _) eqn:E; [done|]. apply andb_false_iff in E as [E|E]; zbool; lia.
Qed.

Lemma wp_prepareMappedCluster q g t :
  Good q -> l2Cache q !! (g / l2Entries q) = Some t -> clusterOffset (mapping q g) <> 0 ->
  wp (prepareMappedCluster (g / l2Entries q) (g mod l2Entries q) (mapping q g) (clusterOffset (mapping q g))) q
    (fun _ q' => writable q g (clusterOffset (mapping q g)) q' /\ flen q' = flen q)
    (fun _ q' => aborts q q' /\ ~ ff q).
Proof.
  intros Gq Ht Hco. pose proof Gq as (W & _). destruct (dw_place q Gq g Hco) as (_ & Hp & _ & Hal & Hown).
  unfold prepareMappedCluster. wsteps.
  eapply wp_mono; [apply (wp_refcount_one q (OData g)); try done; lia| |].
  2: { intros e q1 [L Hn]. split; [|done]. by apply fails_aborts, loads_fails. }
  intros v q1 (-> & L & Hc1). wstep; [done|].
  pose proof (Good_loads q q1 Gq L) as G1. pose proof (ld_keeps _ _ L) as K1.
  pose proof (keeps_view q q1 (wf_geo q W) K1) as V1. pose proof (k_map _ _ K1 g) as M1.
  pose proof (st_l2e _ _ (k_static _ _ K1)) as E1. pose proof (k_ff _ _ K1) as F1.
  destruct (has_bits (mapping q g) qcow2OFlagZero) eqn:Ez; cbn [negb].
  - assert (Hrz : reads_zero (mapping q1 g) = true) by (rewrite M1; unfold reads_zero; by rewrite Ez).
    wstep. rewrite <- M1 in Hco |- *.
    eapply wp_mono; [by apply wp_zeroCluster| |].
    2: { intros e q2 [A Hn]. split; [by eapply aborts_trans|auto]. }
    intros [] q2 (G2 & V2 & F2 & M2 & C2 & Fl2 & T2).
    pose proof (st_l2e _ _ (proj1 V2)) as E2.
    replace (l2Entries q) with (l2Entries q2) by congruence.
    eapply wp_mono; [apply (wp_publishCluster q2 g _ t); try done| |].
    + rewrite E2, E1. by rewrite C2, Hc1.
    + by rewrite M2.
    + intros [] q3 [[G3 V3 F3 M3 N3 Z3] Fl3]. split; [constructor; try done|].
      * eapply same_view_trans; [exact V1|]. by eapply same_view_trans.
      * auto.
      * rewrite Fl3, Fl2. by apply loads_flen.
    + intros e q3 [Hn Hc]. split; [|auto]. eapply aborts_trans; [exact V1|done|].
      eapply aborts_trans; [exact V2|done|]. apply fails_aborts; [done|].
      destruct Hc as [Hs|[Hf _]]; [by apply fails_sched|done].
  - wsteps. split; [|by apply loads_flen]. constructor; try done; [by rewrite M1|].
    rewrite M1. unfold reads_zero. rewrite Ez. cbn. destruct (_ =? 0) eqn:?; zbool; done.
Qed.

(** Room for [n] more clusters, refcount blocks included. *)
Definition spare (q : qcow2Image) (n : Z) : Prop :=
  flen q + n * clusterSize q <= maxInt64 /\
  flen q + n * clusterSize q <= zlen (refcountTable q) * refcountBlockEntries q * clusterSize q.

Lemma full_spare q : wf q -> full q (alignUp (flen q) (clusterSize q)) -> ~ spare q 4.
Proof.
  intros W Hf [H1 H2]. destruct (geo_facts q (wf_geo q W)) as (Hcs & _). pose proof (wf_flen q W).
  pose proof (flen_nonneg q). destruct (alignUp_spec (flen q) (clusterSize q)) as [_ ?]; [lia|lia|].
  unfold full in Hf. lia.
Qed.

Lemma spare_step q q' k n : static q q' -> flen q' <= flen q + k * clusterSize q -> spare q n -> spare q' (n - k).
Proof.
  intros St Hl [H1 H2]. unfold spare. rewrite (st_cs _ _ St), (st_rtlen _ _ St), (st_rbe _ _ St). lia.
Qed.

Lemma spare_mono q n m : 0 <= clusterSize q -> m <= n -> spare q n -> spare q m.
Proof. intros Hc Hn [H1 H2]. unfold spare. nia. Qed.

Lemma wp_ensureWritableCluster q o :
  Good q -> encodable q 8 -> 0 <= o < q_size q ->
  let g := o / clusterSize q in
  wp (ensureWritableCluster o) q
    (fun h q' => writable q g (clusterOffset (mapping q' g)) q' /\
       h = clusterOffset (mapping q' g) + o mod clusterSize q /\
       flen q' <= flen q + 8 * clusterSize q)
    (fun _ q' => aborts q q' /\ (~ ff q \/ ~ spare q 8)).
Proof.
  intros Gq Henc Ho g. pose proof Gq as (W & _). pose proof (wf_geo q W) as G.
  pose proof (l1Index_range q o G Ho) as Hi. destruct (geo_facts q G) as (Hcs & _ & Hl2 & _ & Hl2p & _).
  pose proof (Z.mod_pos_bound o (clusterSize q) ltac:(lia)) as Hmod.
  unfold ensureWritableCluster. wsteps. apply wp_tableIndexes; [done..|]. fold g in Hi |- *. wstep.
  eapply wp_mono; [apply wp_ensureL2Table; [done|eapply encodable_mono, Henc; lia|done]| |].
  2: { intros e q1 [Hf Hc]. split; [by apply fails_aborts|]. destruct Hc as [?|Hc]; [by left|right].
       apply full_spare in Hc; [|done]. intros Hs. apply Hc. eapply spare_mono, Hs; lia. }
  intros t q1 (G1 & K1 & Ht & Hfl1). pose proof (k_static _ _ K1) as St1.
  pose proof (keeps_view q q1 G K1) as V1. pose proof (k_ff _ _ K1) as F1. pose proof G1 as (W1 & _).
  rewrite <- (st_l2e _ _ St1) in Ht |- *. wstep.
  assert (Hz : zlookup t (g mod l2Entries q1) = Some (mapping q1 g)).
  { unfold mapping, tableOf. rewrite Ht. apply zlookup_zget.
    destruct (wf_l2cache q1 W1 _ _ Ht) as (_ & -> & _). apply Z.mod_pos_bound.
    rewrite (st_l2e _ _ St1). lia. }
  eapply wp_gindex; [exact Hz|]. wstep. destruct (wf_map q1 W1 g) as (Hu & _ & Hv).
  apply wp_checkL2Entry; [done|]. wsteps.
  rewrite (inCluster_mod q1), (st_cs _ _ St1) by apply W1.
  assert (Hh : forall q2, writable q1 g (clusterOffset (mapping q2 g)) q2 ->
    u64 (clusterOffset (mapping q2 g) + o mod clusterSize q) = clusterOffset (mapping q2 g) + o mod clusterSize q).
  { intros q2 [G2 _ _ _ N2 _]. destruct (dw_place q2 G2 g N2) as (_ & Hp & Hin & _).
    pose proof (wf_flen q2 (proj1 G2)). unfold maxInt64 in *. apply u64_small.
    destruct (geo_facts q2 (Good_geo q2 G2)). lia. }
  assert (Hv12 : forall q2, writable q1 g (clusterOffset (mapping q2 g)) q2 ->
    writable q g (clusterOffset (mapping q2 g)) q2).
  { intros q2 [G2 V2 F2 M2 N2 Z2]. constructor; try done; [by eapply same_view_trans|auto]. }
  destruct (negb (mapping q1 g =? 0) && negb (clusterOffset (mapping q1 g) =? 0)) eqn:E; zbool.
  - wstep. eapply wp_mono; [by apply (wp_prepareMappedCluster q1 g t)| |].
    + intros [] q2 [Wr Hfl]. wsteps. rewrite <- (wr_map _ _ _ _ Wr) in Wr |- *.
      splits; [by apply Hv12|by apply Hh|lia].
    + intros e q2 [A Hn]. split; [by eapply aborts_trans|left; auto].
  - assert (Hrz : reads_zero (mapping q1 g) = true).
    { apply andb_false_iff in E as [E|E]; apply negb_false_iff in E; zbool; unfold reads_zero.
      - by rewrite E. - by rewrite E, orb_true_r. }
    wstep. eapply wp_mono; [apply wp_allocateCluster; [done|exact (encodable_step q q1 4 8 St1 Hfl1 Henc)]| |].
    2: { intros e q2 [Hf Hc]. split; [eapply aborts_trans; [exact V1|done|by apply fails_aborts]|].
         destruct Hc as [?|Hc]; [left; auto|right]. apply full_spare in Hc; [|done]. intros Hs.
         apply Hc. exact (spare_step q q1 4 8 St1 Hfl1 Hs). }
    intros off q2 (E2 & F & Hfl2). pose proof (ex_good _ _ E2) as G2. pose proof (ex_keeps _ _ E2) as K2.
    pose proof (keeps_view q1 q2 (wf_geo q1 W1) K2) as V2. rewrite <- (st_l2e _ _ (k_static _ _ K2)).
    assert (V12 : same_view q q2) by by eapply same_view_trans. rewrite (st_cs _ _ St1) in Hfl2.
    wsteps. eapply wp_mono; [apply (wp_publishCluster q2 g off t); try done| |].
    + apply fresh_target; [apply G2|done].
    + rewrite (ex_l2c _ _ E2), (st_l2e _ _ (k_static _ _ K2)). done.
    + by rewrite (k_map _ _ K2).
    + intros [] q3 [[G3 V3 F3 M3 N3 Z3] Hfl]. wsteps. rewrite <- M3 in *.
      assert (Wr : writable q1 g (clusterOffset (mapping q3 g)) q3).
      { constructor; try done; [by eapply same_view_trans|]. pose proof (k_ff _ _ K2). auto. }
      splits; [by apply Hv12|by apply Hh|lia].
    + intros e q3 [Hn Hc]. wsteps. eapply wp_mono; [by apply (wp_rollbackNewCluster q2)| |].
      * intros h q4 Hq. exact Hq.
      * intros e' q4 Hf. split; [|left; intros Hff; by apply Hn, K2, F1].
        eapply aborts_trans; [exact V12|intros Hff; by apply K2, F1|by apply fails_aborts].
Qed.

(** ** The write loop *)

(** The guest clusters touched by the bytes from [lo] to [hi]. *)
Definition clusters (q : qcow2Image) (lo hi : Z) : Z := (hi - 1) / clusterSize q - lo / clusterSize q + 1.

(** What a write of [b] at [off] that starts with the first [done] bytes already
    stored guarantees, with [n] bytes stored at the end. *)
Record wrote (q : qcow2Image) (b : list Z) (off done n : Z) (err : option error) (q' : qcow2Image) : Prop := {
  wo_inv : Inv q';
  wo_static : static q q';
  wo_n : done <= n <= zlen b;
  wo_outside : forall o, 0 <= o -> ~ (off + done <= o < off + zlen b) -> vbyte q' o = vbyte q o;
  wo_stored : forall o, off + done <= o < off + n -> vbyte q' o = zget b (o - off);
  wo_rest : forall o, off + n <= o < off + zlen b ->
    vbyte q' o = vbyte q o \/ vbyte q' o = zget b (o - off);
  wo_full : err = None -> n = zlen b /\ (0 < zlen b -> writeFault q' = None)
}.

(** An aborted iteration leaves the rest as it was. *)
Lemma wrote_aborts q b off done e q' :
  0 <= off -> 0 <= done <= zlen b -> aborts q q' -> wrote q b off done done (Some e) q'.
Proof.
  intros Ho Hd (I & [St V] & _). constructor; try done; try lia.
  - intros o Ho' _. by apply V.
  - intros o Hr. left. apply V. lia.
Qed.

(** Composition of one iteration with the rest of the loop. *)
Lemma wrote_trans q q2 b off done chunk n err q' :
  0 <= off -> 0 <= done -> 0 < chunk -> done + chunk <= zlen b -> static q q2 ->
  (forall o, 0 <= o -> vbyte q2 o =
     if (off + done <=? o) && (o <? off + done + chunk) then zget b (o - off) else vbyte q o) ->
  wrote q2 b off (done + chunk) n err q' -> wrote q b off done n err q'.
Proof.
  intros Ho Hd Hc Hl St V [I St2 Hn H1 H2 H3 H4]. constructor; try done; [by eapply static_trans|lia|..].
  - intros o Hp Hout. rewrite H1, V by lia. destruct (_ && _) eqn:E; zbool; [lia|done].
  - intros o Hr. destruct (Z.lt_ge_cases o (off + (done + chunk))).
    + rewrite H1, V by lia. destruct (_ && _) eqn:E; [done|].
      apply andb_false_iff in E as [E|E]; zbool; lia.
    + apply H2. lia.
  - intros o Hr. destruct (H3 o Hr) as [E|E]; [|by right]. rewrite E, V by lia.
    destruct (_ && _); auto.
Qed.

(** The data write of one iteration, complete or torn after [m] bytes. *)
Lemma chunk_view q q1 q2 g o chunk m b done off :
  writable q g (clusterOffset (mapping q1 g)) q1 -> o = off + done -> g = o / clusterSize q ->
  0 <= off -> 0 <= done -> bytes_ok b ->
  0 < chunk <= clusterSize q - o mod clusterSize q -> done + chunk <= zlen b -> 0 <= m <= chunk ->
  rewrote q1 q2 (zwrite (D q1) (clusterOffset (mapping q1 g) + o mod clusterSize q)
                   (take (Z.to_nat m) (zslice b done chunk))) ->
  Good q2 /\ static q q2 /\ flen q2 = flen q1 /\
  forall p, 0 <= p -> vbyte q2 p =
    if (off + done <=? p) && (p <? off + done + m) then zget b (p - off) else vbyte q p.
Proof.
  intros [G1 [St V] F M N Hrz] -> -> Ho Hd Hb Hc Hl Hm Hw. set (g := (off + done) / clusterSize q) in *.
  set (bm := take (Z.to_nat m) (zslice b done chunk)) in *. pose proof (st_cs _ _ St) as Ecs.
  destruct (geo_facts q1 (Good_geo q1 G1)) as (Hcs & _). rewrite Ecs in Hcs.
  pose proof (Z.mod_pos_bound (off + done) (clusterSize q) ltac:(lia)) as Hx.
  assert (Hlen : zlen (zslice b done chunk) = chunk) by (apply zlen_slice; lia).
  assert (Hbm : zlen bm = m) by (apply zlen_take; lia).
  assert (Hok : bytes_ok bm) by (by apply Forall_take, bytes_ok_slice).
  assert (Hxb : (off + done) mod clusterSize q + zlen bm <= clusterSize q1) by lia.
  splits.
  - apply (dw_good q1 q2 G1 g N ((off + done) mod clusterSize q) bm); try done; lia.
  - eapply static_trans; [exact St|]. exact (sm_static _ _ (dw_tables q1 q2 g _ bm Hw)).
  - apply (dw_flen q1 q2 G1 g N ((off + done) mod clusterSize q) bm); try done; lia.
  - intros p Hp. rewrite (dw_view q1 q2 G1 g N ((off + done) mod clusterSize q) bm); try done; try lia.
    rewrite Hrz, Ecs, andb_true_r, Hbm, (V p Hp).
    pose proof (Z.div_mod p (clusterSize q) ltac:(lia)). pose proof (Z.mod_pos_bound p (clusterSize q) ltac:(lia)).
    pose proof (Z.div_mod (off + done) (clusterSize q) ltac:(lia)). fold g in H1.
    destruct (p / clusterSize q =? g) eqn:Eg; zbool.
    + destruct (_ <=? p mod clusterSize q) eqn:E1, (p mod clusterSize q <? _) eqn:E2,
        (off + done <=? p) eqn:E3, (p <? off + done + m) eqn:E4; zbool; cbn [andb]; try lia; try done.
      unfold bm. rewrite zget_take by lia. destruct (_ <? m) eqn:?; zbool; [|lia].
      rewrite zget_slice by lia. f_equal. lia.
    + cbn [andb]. destruct (_ && _) eqn:E; zbool; [|done]. exfalso. apply Eg.
      apply (same_cluster (off + done) p (clusterSize q)); lia.
Qed.

Lemma clusters_step q o chunk hi :
  512 <= clusterSize q -> 0 <= o -> o + chunk < hi -> chunk = clusterSize q - o mod clusterSize q ->
  clusters q (o + chunk) hi = clusters q o hi - 1.
Proof.
  intros Hcs Ho Hh ->. unfold clusters.
  pose proof (Z.div_mod o (clusterSize q) ltac:(lia)). pose proof (Z.mod_pos_bound o (clusterSize q) ltac:(lia)).
  rewrite <- (Z.div_unique_pos (o + (clusterSize q - o mod clusterSize q)) (clusterSize q) (o / clusterSize q + 1) 0); lia.
Qed.

Lemma clusters_pos q lo hi : 512 <= clusterSize q -> lo < hi -> 1 <= clusters q lo hi.
Proof. intros Hc H. unfold clusters. assert (lo / clusterSize q <= (hi - 1) / clusterSize q) by (apply Z.div_le_mono; lia). lia. Qed.

Lemma wp_writeLoop fuel b off : forall q done,
  Good q -> bytes_ok b -> 0 <= off -> 0 <= done <= zlen b -> off + zlen b <= q_size q ->
  zlen b - done < Z.of_nat fuel ->
  (done < zlen b -> encodable q (8 * clusters q (off + done) (off + zlen b))) ->
  wp (writeLoop fuel b off done) q
    (fun r q' => wrote q b off done (fst r) (snd r) q' /\
       (ff q -> (done < zlen b -> spare q (8 * clusters q (off + done) (off + zlen b))) -> snd r = None))
    (fun _ _ => False).
Proof.
  induction fuel as [|fuel IH]; intros q done Gq Hb Hoff Hd Hsz Hfuel Henc; [lia|].
  pose proof Gq as (W & _). pose proof (wf_geo q W) as G. destruct (geo_facts q G) as (Hcs & _).
  cbn [writeLoop]. destruct (done <? zlen b) eqn:Hlt; zbool.
  2: { wsteps. cbn [fst snd]. split; [|done]. assert (done = zlen b) by lia. subst done.
       constructor; try done; try lia; try (by apply Good_Inv). split; [done|]. intros _. apply Gq. }
  pose proof (g_size q G) as Hq. unfold maxInt64 in Hq. set (o := off + done) in *.
  wsteps. rewrite u64_small by (unfold o; lia). rewrite inCluster_mod by done.
  pose proof (Z.mod_pos_bound o (clusterSize q) ltac:(lia)) as Hmod. rewrite minUint64_min.
  set (chunk := Z.min (zlen b - done) (clusterSize q - o mod clusterSize q)) in *.
  assert (Hchunk : 0 < chunk <= clusterSize q - o mod clusterSize q /\ done + chunk <= zlen b) by lia.
  pose proof (clusters_pos q o (off + zlen b) ltac:(lia) ltac:(lia)) as Hcl.
  specialize (Henc Hlt).
  eapply wp_mono; [apply wp_ensureWritableCluster; [done|eapply encodable_mono, Henc; lia|unfold o; lia]| |].
  2: { intros e q1 [A Hc]. wsteps. cbn [fst snd]. split; [by apply wrote_aborts; try lia|].
       intros Hff Hs. destruct Hc as [?|Hc]; [done|]. destruct Hc. eapply spare_mono, Hs; lia. }
  intros h q1 (Wr & -> & Hfl). pose proof (wr_good _ _ _ _ Wr) as G1.
  destruct (dw_place q1 G1 _ (wr_nz _ _ _ _ Wr)) as (_ & Hp & Hin & _). pose proof (wf_flen q1 (proj1 G1)).
  pose proof (st_cs _ _ (proj1 (wr_view _ _ _ _ Wr))) as Ecs. unfold maxInt64 in *.
  wsteps. rewrite i64_small by lia. eapply wp_mono; [apply wp_fileWriteAt; lia| |done].
  assert (Hlen : zlen (zslice b done chunk) = chunk) by (apply zlen_slice; lia).
  intros [k err] q2 (m & Hm & Hw & He). rewrite Hlen in Hm. cbn [fst snd] in He.
  destruct (chunk_view q q1 q2 _ o chunk m b done off Wr) as (G2 & St2 & Hfl2 & V2); try done; try lia.
  destruct err as [e|]; wsteps; cbn [fst snd].
  - split; [|intros Hff; destruct He; by apply (wr_ff _ _ _ _ Wr)].
    constructor; try done; try lia; [by apply Good_Inv|..].
    + intros p Hp' Hout. rewrite V2 by done. destruct (_ && _) eqn:E; zbool; [lia|done].
    + intros p Hr. rewrite V2 by lia. destruct (_ && _); auto.
  - destruct He as [-> _]. rewrite Hlen in *.
    assert (Hcl2 : done + chunk < zlen b -> 8 * clusters q2 (off + (done + chunk)) (off + zlen b) = 8 * clusters q o (off + zlen b) - 8).
    { intros Hlt2. replace (clusters q2 (off + (done + chunk)) (off + zlen b)) with (clusters q o (off + zlen b) - 1); [lia|].
      unfold clusters at 2. rewrite (st_cs _ _ St2). replace (off + (done + chunk)) with (o + chunk) by (unfold o; lia).
      symmetry. apply clusters_step; lia. }
    eapply wp_mono; [apply IH; try done; try lia; [by rewrite (st_size _ _ St2)|]| |done].
    { intros Hlt2. rewrite Hcl2 by done. apply (encodable_step q); [done|lia|done]. }
    intros [n err] q' [Wo Hok]. cbn [fst snd] in *. split; [apply (wrote_trans q q2 b off done chunk); try done; lia|].
    intros Hff Hs. apply Hok; [by apply Hw, (wr_ff _ _ _ _ Wr)|]. intros Hlt2. specialize (Hs Hlt).
    rewrite Hcl2 by done. apply (spare_step q); [done|lia|done].
Qed.

(** ** WriteAt *)

Lemma wp_WriteAt q b off :
  Inv q -> bytes_ok b -> (0 < zlen b -> encodable q (8 * clusters q off (off + zlen b))) ->
  wp (WriteAt b off) q
    (fun r q' => (off < 0 -> fst r = 0 /\ static q q' /\ (snd r = None -> zlen b = 0) /\
         forall o, 0 <= o -> vbyte q' o = vbyte q o) /\
       (0 <= off -> wrote q b off 0 (fst r) (snd r) q') /\ Inv q' /\
       (ff q -> writeFault q = None -> 0 <= off -> off + zlen b <= q_size q ->
        (0 < zlen b -> spare q (8 * clusters q off (off + zlen b))) -> snd r = None))
    (fun _ _ => False).
Proof.
  intros I Hb Henc. pose proof I as [W Sy]. pose proof (zlen_nonneg b). unfold WriteAt. wsteps.
  assert (Hself : forall e, 0 <= off -> wrote q b off 0 0 (Some e) q).
  { intros e Ho. apply wrote_aborts; try lia. by split; [|split; [apply same_view_refl|]]. }
  destruct (zlen b =? 0) eqn:Hz; zbool.
  { wsteps. cbn [fst snd]. splits; try done. intros Ho.
    constructor; try done; try lia. }
  destruct (writeFault q) as [e|] eqn:Hf; [wsteps; cbn [fst snd]; by splits; auto with go|].
  destruct (off <? 0) eqn:Ho; zbool; [wsteps; cbn [fst snd]; splits; [intros _; by splits; auto with go|lia|done|lia]|].
  destruct (_ || _) eqn:Hr.
  { wsteps. cbn [fst snd]. splits; auto with go; [lia|]. intros _ _ _ Hsz. apply orb_true_iff in Hr as [?|?]; zbool; lia. }
  apply orb_false_iff in Hr as [? ?]; zbool.
  assert (Gq : Good q) by (split; [done|split; [by apply Sy|done]]).
  eapply wp_mono; [apply wp_writeLoop; try done; try lia; [unfold zlen; lia|by rewrite Z.add_0_r]| |done].
  intros r q' [Wo Hok]. splits; [lia|done|apply Wo|]. intros Hff _ _ _ Hs. apply Hok; [done|].
  by rewrite Z.add_0_r.
Qed.
