(* ===== verification/QcowOwners.v ===== *)
(** The ownership bitmap of the layout check (src/internal/disk/qcow2_layout.go):
    paged bits refine a set of host clusters, a claim succeeds only on clusters
    that were free, and every loop over a table ends. *)

From S2P Require Import Prelude Bytes OsFile QcowHeader QcowImage QcowLayout QcowInv QcowFrame QcowRefcount.

(** The set of clusters a bitmap stands for. *)
Definition claimed (owners : qcow2ClusterOwners) (c : Z) : bool :=
  match owners !! (c / qcow2OwnershipPageClusters) with
  | Some page => Z.testbit (zget page (c mod qcow2OwnershipPageClusters / 64))
                   (c mod qcow2OwnershipPageClusters mod 64)
  | None => false
  end.

Definition pages_ok (owners : qcow2ClusterOwners) : Prop :=
  forall i p, owners !! i = Some p -> zlen p = 64 /\ forall k, is_u64 (zget p k).

Lemma pages_ok_empty : pages_ok ∅.
Proof. intros i p H. by rewrite lookup_empty in H. Qed.

(** Setting the bit of cluster [c] in its page. *)
Lemma claimed_set owners c p x :
  pages_ok owners -> 0 <= c ->
  (forall k, zget p k = match owners !! (c / qcow2OwnershipPageClusters) with
                        | Some page => zget page k | None => 0 end) ->
  zlen p = 64 ->
  let bit := c mod qcow2OwnershipPageClusters in
  let p' := zinsert (bit / 64) (zget p (bit / 64) ||| 2 ^ (bit mod 64)) p in
  0 <= x ->
  claimed (<[c / qcow2OwnershipPageClusters := p']> owners) x = claimed owners x || (x =? c).
Proof.
  intros Hok Hc Hp Hl bit p' Hx. unfold claimed, qcow2OwnershipPageClusters in *.
  assert (Hbit : 0 <= bit < 4096) by (apply Z.mod_pos_bound; lia).
  assert (Hb64 : 0 <= bit / 64 < 64) by (split; [apply Z.div_pos; lia|apply Z.div_lt_upper_bound; lia]).
  assert (Hm64 : 0 <= bit mod 64 < 64) by (apply Z.mod_pos_bound; lia).
  destruct (decide (c / 4096 = x / 4096)) as [Eq|Ne].
  - rewrite <- Eq, lookup_insert_eq. unfold p'. rewrite zget_insert by lia.
    assert (Hold : forall k, zget p k = match owners !! (c / 4096) with Some page => zget page k | None => 0 end) by done.
    set (bx := x mod 4096). assert (0 <= bx < 4096) by (apply Z.mod_pos_bound; lia).
    assert (Hxc : (x =? c) = (bx / 64 =? bit / 64) && (bx mod 64 =? bit mod 64)).
    { apply eq_true_iff_eq. rewrite andb_true_iff, !Z.eqb_eq. split; [by unfold bx; intros ->|].
      intros [E1 E2]. rewrite (Z.div_mod x 4096), (Z.div_mod c 4096) by lia. rewrite Eq.
      fold bx bit. rewrite (Z.div_mod bx 64), (Z.div_mod bit 64) by lia. lia. }
    rewrite Hxc. pose proof (Z.mod_pos_bound bx 64 ltac:(lia)).
    destruct (bx / 64 =? bit / 64) eqn:E; zbool; cbn [andb].
    + rewrite Z.lor_spec, Z.pow2_bits_eqb, Hold, E by lia.
      destruct (owners !! (c / 4096)); rewrite ?Z.bits_0; f_equal; apply Z.eqb_sym.
    + rewrite Hold, orb_false_r. destruct (owners !! (c / 4096)); [done|by rewrite Z.bits_0].
  - rewrite lookup_insert_ne by done. destruct (x =? c) eqn:?; zbool; [by subst x|]. by rewrite orb_false_r.
Qed.

Lemma pages_ok_set owners i p k v :
  pages_ok owners -> zlen p = 64 -> (forall j, is_u64 (zget p j)) -> 0 <= k < 64 -> is_u64 v ->
  pages_ok (<[i := zinsert k v p]> owners).
Proof.
  intros Hok Hl Hu Hk Hv j page. destruct (decide (i = j)) as [->|Hne].
  - rewrite lookup_insert_eq. intros [= <-]. rewrite zlen_insert. split; [done|].
    intros n. rewrite zget_insert by lia. by destruct (n =? k).
  - rewrite lookup_insert_ne by done. apply Hok.
Qed.

Definition claim_post (owners : qcow2ClusterOwners) (first last : Z)
    (r : result qcow2ClusterOwners) : Prop :=
  match r with
  | Ok owners' => pages_ok owners' /\
      (forall x, 0 <= x -> claimed owners' x = claimed owners x || ((first <=? x) && (x <? last))) /\
      (forall x, first <= x < last -> claimed owners x = false)
  | Err _ => True
  | Panic | OutOfFuel => False
  end.

Lemma claimLoop_spec fuel : forall owners first last kind,
  pages_ok owners -> 0 <= first -> 0 <= last - first < Z.of_nat fuel ->
  claim_post owners first last (claimLoop fuel owners first last kind).
Proof.
  induction fuel as [|fuel IH]; intros owners first last kind Hok Hf Hfuel.
  { lia. }
  cbn [claimLoop]. destruct (first <? last) eqn:Hlt; zbool.
  2: { cbn. splits; [done| |lia]. intros x Hx.
       destruct (first <=? x) eqn:?, (x <? last) eqn:?; zbool; try lia; by rewrite orb_false_r. }
  set (bit := first mod qcow2OwnershipPageClusters).
  assert (Hbit : 0 <= bit < 4096) by (apply Z.mod_pos_bound; unfold qcow2OwnershipPageClusters; lia).
  assert (Hb64 : 0 <= bit / 64 < 64) by (split; [apply Z.div_pos; lia|apply Z.div_lt_upper_bound; lia]).
  assert (Hm64 : 0 <= bit mod 64 < 64) by (apply Z.mod_pos_bound; lia).
  assert (Hmask : u64 (Z.shiftl 1 (bit mod 64)) = 2 ^ (bit mod 64)).
  { rewrite Z.shiftl_1_l. apply u64_small. split; [lia|]. apply Z.pow_lt_mono_r; lia. }
  rewrite Hmask. assert (Hpow : 0 <= 2 ^ (bit mod 64) < 2 ^ 64) by (split; [lia|apply Z.pow_lt_mono_r; lia]).
  (* one step: the bit of [first] is set in a page that agrees with the map *)
  assert (Hstep : forall p, zlen p = 64 -> (forall k, is_u64 (zget p k)) ->
    (forall k, zget p k = match owners !! (first / qcow2OwnershipPageClusters) with
                          | Some page => zget page k | None => 0 end) ->
    claimed owners first = false ->
    claim_post owners first last
      (claimLoop fuel (<[first / qcow2OwnershipPageClusters :=
          zinsert (bit / 64) (zget p (bit / 64) ||| 2 ^ (bit mod 64)) p]> owners) (first + 1) last kind)).
  { intros p Hl Hu Hp Hfree. set (owners1 := <[_ := _]> owners).
    assert (Hok1 : pages_ok owners1).
    { apply pages_ok_set; try done. apply lor_range; [apply Hu|done|lia]. }
    assert (H1 : forall x, 0 <= x -> claimed owners1 x = claimed owners x || (x =? first)).
    { intros x Hx. by apply claimed_set. }
    specialize (IH owners1 (first + 1) last kind Hok1 ltac:(lia) ltac:(lia)).
    unfold claim_post in *. destruct (claimLoop _ _ _ _ _) as [owners'|e| |]; try done.
    destruct IH as (H2 & H3 & H4). splits; [done| |].
    - intros x Hx. rewrite H3, H1 by done. rewrite <- orb_assoc. f_equal.
      destruct (x =? first) eqn:?, (first + 1 <=? x) eqn:?, (first <=? x) eqn:?, (x <? last) eqn:?; zbool; lia || done.
    - intros x Hx. destruct (Z.eq_dec x first) as [->|]; [done|]. specialize (H4 x ltac:(lia)).
      rewrite H1 in H4 by lia. by apply orb_false_iff in H4 as [? _]. }
  destruct (owners !! (first / qcow2OwnershipPageClusters)) as [page|] eqn:Ep.
  - rewrite has_bits_testbit by lia. destruct (Z.testbit _ _) eqn:Et; [done|].
    destruct (Hok _ _ Ep) as [Hl Hu]. apply (Hstep page); try done. unfold claimed. by rewrite Ep.
  - destruct (_ <=? Z.of_nat _); [done|].
    change (zeros (qcow2OwnershipPageClusters / 64)) with (zeros 64).
    replace (zinsert (bit / 64) (2 ^ (bit mod 64)) (zeros 64))
      with (zinsert (bit / 64) (zget (zeros 64) (bit / 64) ||| 2 ^ (bit mod 64)) (zeros 64))
      by (by rewrite zget_zeros, Z.lor_0_l).
    apply (Hstep (zeros 64)); [done| | |].
    + intros k. rewrite zget_zeros. unfold is_u64. lia.
    + intros k. by rewrite zget_zeros.
    + unfold claimed. by rewrite Ep.
Qed.

(** A claim covers the clusters of [offset, offset + length). *)
Lemma claim_spec owners offset length cs kind :
  pages_ok owners -> 512 <= cs <= 2 ^ 21 -> 0 <= offset -> 0 < length -> offset + length <= maxInt64 ->
  offset mod cs = 0 ->
  claim_post owners (offset / cs) ((offset + length + cs - 1) / cs) (claim owners offset length cs kind).
Proof.
  intros Hok Hcs Ho Hl Hm Hal. unfold maxInt64 in Hm. unfold claim. rewrite (u64_small (length + cs - 1)) by lia.
  assert (Hsum : offset / cs + (length + cs - 1) / cs = (offset + length + cs - 1) / cs).
  { pose proof (div_mul_aligned offset cs ltac:(lia) Hal) as Hd.
    rewrite <- Hd at 2. replace (offset / cs * cs + length + cs - 1) with (length + cs - 1 + offset / cs * cs) by lia.
    rewrite Z.div_add by lia. lia. }
  assert (0 <= offset / cs) by (apply Z.div_pos; lia). assert (0 <= (length + cs - 1) / cs) by (apply Z.div_pos; lia).
  assert ((offset + length + cs - 1) / cs <= offset + length + cs - 1) by (apply Z.div_le_upper_bound; nia).
  rewrite u64_small by lia. rewrite Hsum. apply claimLoop_spec; [done|done|lia].
Qed.

(** ** Exclusive owners

    [tracks owners O]: every cluster that [O] assigns is claimed, and [O]
    assigns no cluster twice. *)

Record tracks (owners : qcow2ClusterOwners) (O : owner -> Z -> Prop) : Prop := {
  tr_pages : pages_ok owners;
  tr_claimed : forall w c, O w c -> 0 <= c /\ claimed owners c = true;
  tr_excl : forall w1 w2 c, O w1 c -> O w2 c -> w1 = w2
}.

Lemma tracks_sub owners (O O' : owner -> Z -> Prop) :
  tracks owners O -> (forall w c, O' w c -> O w c) -> tracks owners O'.
Proof. intros [] H. constructor; [done|eauto..]. Qed.

Lemma tracks_empty : tracks ∅ (fun _ _ => False).
Proof. constructor; [apply pages_ok_empty|done..]. Qed.

Definition claims (owners : qcow2ClusterOwners) (O : owner -> Z -> Prop) (w0 : owner) (lo hi : Z)
    (r : result qcow2ClusterOwners) : Prop :=
  match r with
  | Ok owners' => tracks owners' (fun w c => O w c \/ (w = w0 /\ lo <= c < hi))
  | Err _ => True
  | Panic | OutOfFuel => False
  end.

Lemma tracks_claim owners O w0 offset length cs kind :
  tracks owners O -> 512 <= cs <= 2 ^ 21 -> 0 <= offset -> 0 < length -> offset + length <= maxInt64 ->
  offset mod cs = 0 ->
  claims owners O w0 (offset / cs) ((offset + length + cs - 1) / cs) (claim owners offset length cs kind).
Proof.
  intros [Hp Hc He] Hcs Ho Hl Hm Hal.
  pose proof (claim_spec owners offset length cs kind Hp Hcs Ho Hl Hm Hal) as H.
  assert (0 <= offset / cs) by (apply Z.div_pos; lia).
  unfold claims, claim_post in *. destruct (claim _ _ _ _ _) as [owners'|e| |]; try done.
  destruct H as (H1 & H2 & H3). constructor; [done| |].
  - intros w c [Hw|[-> Hr]].
    + destruct (Hc w c Hw) as [? E]. split; [done|]. by rewrite H2, E.
    + split; [lia|]. rewrite H2 by lia. apply orb_true_iff. right. apply andb_true_iff.
      rewrite Z.leb_le, Z.ltb_lt. lia.
  - intros w1 w2 c [Hw1|[-> Hr1]] [Hw2|[-> Hr2]]; [eauto| | |done].
    + destruct (Hc w1 c Hw1) as [_ E]. by rewrite H3 in E.
    + destruct (Hc w2 c Hw2) as [_ E]. by rewrite H3 in E.
Qed.

(** Claiming a single cluster. *)
Lemma tracks_claim_one owners O w0 offset cs kind :
  tracks owners O -> 512 <= cs <= 2 ^ 21 -> 0 <= offset -> offset + cs <= maxInt64 -> offset mod cs = 0 ->
  match claim owners offset cs cs kind with
  | Ok owners' => tracks owners' (fun w c => O w c \/ (w = w0 /\ c = offset / cs))
  | Err _ => True
  | Panic | OutOfFuel => False
  end.
Proof.
  intros T Hcs Ho Hm Hal. pose proof (tracks_claim owners O w0 offset cs cs kind T Hcs Ho ltac:(lia) Hm Hal) as H.
  unfold claims in H. destruct (claim _ _ _ _ _) as [owners'|e| |]; try done.
  apply (tracks_sub _ _ _ H). intros w c [Hw|[-> ->]]; [by left|right]. split; [done|].
  replace (offset + cs + cs - 1) with (offset + (cs - 1) + 1 * cs) by lia. rewrite Z.div_add by lia.
  rewrite (in_cluster_div offset (offset + (cs - 1)) cs); try done; lia.
Qed.

Lemma zget_cons x l i : 0 <= i -> zget (x :: l) i = if i =? 0 then x else zget l (i - 1).
Proof.
  intros Hi. change (x :: l) with ([x] ++ l). rewrite zget_app. change (zlen [x]) with 1.
  destruct (i =? 0) eqn:E, (i <? 1) eqn:?; zbool; try lia; by subst i.
Qed.

(** The owners of the clusters that a table's entries point to. *)
Definition table_owns (cs : Z) (mk : Z -> owner) (off : Z -> Z) (t : list Z) (k : Z)
    (w : owner) (c : Z) : Prop :=
  exists i, 0 <= i < zlen t /\ off (zget t i) <> 0 /\ w = mk (k + i) /\ c = off (zget t i) / cs.

Lemma table_owns_cons cs mk off e t k w c :
  table_owns cs mk off (e :: t) k w c ->
  (off e <> 0 /\ w = mk k /\ c = off e / cs) \/ table_owns cs mk off t (k + 1) w c.
Proof.
  intros (i & Hi & Hz & -> & ->). rewrite zlen_cons in Hi. rewrite zget_cons in * by lia.
  destruct (i =? 0) eqn:E; zbool.
  - left. subst i. by rewrite Z.add_0_r.
  - right. exists (i - 1). splits; try done; try lia. f_equal. lia.
Qed.

Lemma ldiff_land e m : Z.ldiff e m = 0 -> Z.land e m = e.
Proof. intros H. rewrite <- (Z.lor_ldiff_and e m) at 2. by rewrite H, Z.lor_0_l. Qed.

Lemma fileRange_ok fs off len kind : qcow2FileRange fs off len kind = Ok tt -> 0 <= off -> off + len <= fs.
Proof. unfold qcow2FileRange. destruct (_ || _) eqn:E; [done|]. intros _ _. zbool. lia. Qed.

Lemma fileRange_cases fs off len kind :
  qcow2FileRange fs off len kind = Ok tt \/ exists e, qcow2FileRange fs off len kind = Err e.
Proof. unfold qcow2FileRange. destruct (_ || _); eauto. Qed.

Definition refblock_entry (cs fs e : Z) : Prop :=
  e <> 0 -> e mod cs = 0 /\ e &&& qcow2RefcountOffsetMask = e /\ e + cs <= fs.

Definition l2table_entry (cs fs e : Z) : Prop :=
  e <> 0 -> clusterOffset e <> 0 /\ clusterOffset e mod cs = 0 /\ clusterOffset e + cs <= fs.

(** What a pass over a table establishes. *)
Definition table_post (owners : qcow2ClusterOwners) (O : owner -> Z -> Prop) (cs : Z) (mk : Z -> owner)
    (off : Z -> Z) (ok : Z -> Prop) (t : list Z) (k : Z) (r : result qcow2ClusterOwners) : Prop :=
  match r with
  | Ok owners' => tracks owners' (fun w c => O w c \/ table_owns cs mk off t k w c) /\ Forall ok t
  | Err _ => True
  | Panic | OutOfFuel => False
  end.

(** One more entry in front of a pass over the rest of the table. *)
Lemma table_post_cons owners owners1 (O : owner -> Z -> Prop) cs mk off (ok : Z -> Prop) e t k r :
  ok e ->
  table_post owners1 (fun w c => O w c \/ (off e <> 0 /\ w = mk k /\ c = off e / cs)) cs mk off ok t (k + 1) r ->
  table_post owners O cs mk off ok (e :: t) k r.
Proof.
  intros He H. unfold table_post in *. destruct r as [owners'|err| |]; try done. destruct H as [H1 H2].
  split; [|by constructor]. apply (tracks_sub _ _ _ H1).
  intros w c [Hw|Hw]; [by left; left|]. apply table_owns_cons in Hw as [Hw|Hw]; [by left; right|by right].
Qed.

Lemma table_post_nil owners O cs mk off ok k : tracks owners O -> table_post owners O cs mk off ok [] k (Ok owners).
Proof.
  intros T. split; [|constructor]. apply (tracks_sub _ _ _ T). intros w c [Hw|(i & Hi & _)]; [done|].
  unfold zlen in Hi. cbn in Hi. lia.
Qed.

Lemma claimRefcountBlocks_spec cs fs t : 512 <= cs <= 2 ^ 21 -> fs <= maxInt64 ->
  Forall is_u64 t -> forall k owners O, tracks owners O ->
  table_post owners O cs ORefBlock (fun e => e) (refblock_entry cs fs) t k (claimRefcountBlocks t owners fs cs).
Proof.
  intros Hcs Hfs. induction 1 as [|e t He Ht IH]; intros k owners O T; [by apply table_post_nil|].
  cbn [claimRefcountBlocks]. destruct (e =? 0) eqn:E0; zbool.
  { apply (table_post_cons owners owners); [done|]. apply IH. apply (tracks_sub _ _ _ T). by intros w c [?|[? _]]. }
  destruct (_ || _) eqn:Ev; [done|]. zbool. destruct (qcow2FileRange _ _ _ _) as [[]|err| |] eqn:Er;
    try (unfold qcow2FileRange in Er; by destruct (_ || _)).
  unfold is_u64 in He. pose proof (fileRange_ok _ _ _ _ Er ltac:(lia)) as Hr.
  pose proof (tracks_claim_one owners O (ORefBlock k) e cs "refcount block" T Hcs ltac:(lia) ltac:(lia) ltac:(done)) as Hc.
  destruct (claim _ _ _ _ _) as [owners1|err| |]; try done.
  apply (table_post_cons owners owners1).
  - intros _. splits; try done. by apply ldiff_land.
  - apply IH. apply (tracks_sub _ _ _ Hc). intros w c [?|[_ [? ?]]]; [by left|by right].
Qed.

Lemma claimL2Tables_spec cs fs t : 512 <= cs <= 2 ^ 21 -> fs <= maxInt64 ->
  Forall is_u64 t -> forall k owners O, tracks owners O ->
  table_post owners O cs OL2 clusterOffset (l2table_entry cs fs) t k (claimL2Tables t owners fs cs).
Proof.
  intros Hcs Hfs. induction 1 as [|e t He Ht IH]; intros k owners O T; [by apply table_post_nil|].
  cbn [claimL2Tables]. destruct (e =? 0) eqn:E0; zbool.
  { apply (table_post_cons owners owners); [done|]. apply IH. apply (tracks_sub _ _ _ T). subst e. by intros w c [?|[? _]]. }
  destruct (negb _) eqn:Em; [done|]. destruct (_ || _) eqn:Ev; [done|]. zbool.
  destruct (qcow2FileRange _ _ _ _) as [[]|err| |] eqn:Er; try (unfold qcow2FileRange in Er; by destruct (_ || _)).
  unfold is_u64 in He. destruct (clusterOffset_range e) as [Hcr _]; [lia|].
  pose proof (fileRange_ok _ _ _ _ Er ltac:(lia)) as Hr.
  pose proof (tracks_claim_one owners O (OL2 k) (clusterOffset e) cs "l2 table" T Hcs ltac:(lia) ltac:(lia) ltac:(done)) as Hc.
  destruct (claim _ _ _ _ _) as [owners1|err| |]; try done.
  apply (table_post_cons owners owners1).
  - intros _. splits; done.
  - apply IH. apply (tracks_sub _ _ _ Hc). intros w c [?|[_ [? ?]]]; [by left|by right].
Qed.
