(* ===== verification/QcowOpen.v ===== *)
(** Opening an image: whatever the file holds, [openQCOW2] returns, and an image
    it accepts satisfies the driver's invariant; reopening the file of a
    consistent image shows the same virtual disk. *)

From S2P Require Import Prelude Bytes OsFile QcowHeader QcowHeaderOk QcowImage QcowLayout QcowInv QcowRead QcowFrame QcowRefcount QcowAlloc QcowOwners.

(** ** Refcount checks *)

Lemma rloads_drc q q' c : rloads q q' -> drc q' c = drc q c.
Proof. by intros [(fl & c0 & b & n & ->) _]. Qed.

Lemma wp_checkRefcountsLoop fuel : forall q o last,
  rready q -> 0 <= o -> o mod clusterSize q = 0 -> o < last + clusterSize q -> last <= maxInt64 ->
  last - o + clusterSize q <= Z.of_nat fuel * clusterSize q ->
  wp (checkRefcountsLoop fuel o last) q
    (fun _ q' => rloads q q' /\ forall c, o <= c * clusterSize q < last -> drc q c = 1) (fun _ _ => True).
Proof.
  induction fuel as [|fuel IH]; intros q o last R Ho Hal Hlt Hm Hf.
  { destruct (geo_facts q (rr_geo q R)) as (Hcs & _). lia. }
  destruct (geo_facts q (rr_geo q R)) as (Hcs & _). cbn [checkRefcountsLoop].
  destruct (o <? last) eqn:E; zbool.
  2: { wsteps. split; [apply rloads_refl; apply R|lia]. }
  wsteps. eapply wp_mono; [by apply wp_refcount| |done]. intros v q1 [-> L]. wstep; [done|]. zbool.
  pose proof (rloads_rready q q1 R L) as R1. pose proof L as [(fl & c0 & b & n & Hq1) _].
  assert (Ecs : clusterSize q1 = clusterSize q) by by rewrite Hq1.
  unfold maxInt64 in *. rewrite u64_small by lia.
  eapply wp_mono; [apply IH; try done; rewrite ?Ecs; try lia| |done].
  - replace (o + clusterSize q) with (o + 1 * clusterSize q) by lia. by rewrite Z.mod_add by lia.
  - intros [] q2 [L2 Hd]. split; [by eapply rloads_trans|]. intros c Hc.
    pose proof (div_mul_aligned o (clusterSize q) ltac:(lia) Hal) as Hdiv.
    destruct (Z.eq_dec c (o / clusterSize q)) as [->|Hne]; [done|].
    rewrite <- (rloads_drc q q1 c L). apply Hd. rewrite Ecs. nia.
Qed.

Lemma wp_checkRefcounts q o len :
  rready q -> 0 <= o -> o mod clusterSize q = 0 -> 0 < len -> o + len <= maxInt64 ->
  wp (checkRefcounts o len) q
    (fun _ q' => rloads q q' /\ forall c, o <= c * clusterSize q < o + len -> drc q c = 1) (fun _ _ => True).
Proof.
  intros R Ho Hal Hl Hm. destruct (geo_facts q (rr_geo q R)) as (Hcs & _). unfold checkRefcounts. wsteps.
  unfold maxInt64 in *. rewrite !u64_small by lia. apply wp_checkRefcountsLoop; try done; try lia.
  assert (0 <= (len + clusterSize q - 1) / clusterSize q) by (apply Z.div_pos; lia).
  rewrite Nat2Z.inj_succ, Z2Nat.id by lia.
  pose proof (Z.div_mod (len + clusterSize q - 1) (clusterSize q) ltac:(lia)).
  pose proof (Z.mod_pos_bound (len + clusterSize q - 1) (clusterSize q) ltac:(lia)). nia.
Qed.

(** The single cluster at an aligned offset. *)
Lemma wp_checkRefcount_one q o :
  rready q -> 0 <= o -> o mod clusterSize q = 0 -> o + clusterSize q <= maxInt64 ->
  wp (checkRefcounts o (clusterSize q)) q
    (fun _ q' => rloads q q' /\ drc q (o / clusterSize q) = 1) (fun _ _ => True).
Proof.
  intros R Ho Hal Hm. destruct (geo_facts q (rr_geo q R)) as (Hcs & _).
  eapply wp_mono; [by apply wp_checkRefcounts; try done; lia| |done].
  intros [] q' [L H]. split; [done|]. apply H.
  pose proof (div_mul_aligned o (clusterSize q) ltac:(lia) Hal). lia.
Qed.

Lemma wp_checkRefcountBlocks t : forall q,
  rready q -> Forall (refblock_entry (clusterSize q) (flen q)) t -> Forall is_u64 t ->
  wp (checkRefcountBlocks t) q
    (fun _ q' => rloads q q' /\ Forall (fun e => e <> 0 -> drc q (e / clusterSize q) = 1) t) (fun _ _ => True).
Proof.
  induction t as [|e t IH]; intros q R He Hu; cbn [checkRefcountBlocks].
  { wsteps. split; [apply rloads_refl; apply R|constructor]. }
  inversion_clear He as [|? ? He1 He2]. inversion_clear Hu as [|? ? Hu1 Hu2].
  destruct (e =? 0) eqn:E; zbool.
  { eapply wp_mono; [by apply IH| |done]. intros [] q' [L H]. split; [done|by constructor]. }
  destruct (He1 E) as (Hal & _ & Hin). unfold is_u64 in Hu1. pose proof (rr_flen q R).
  wsteps. eapply wp_mono; [apply wp_checkRefcount_one; try done; lia| |done].
  intros [] q1 [L H1]. pose proof (rloads_rready q q1 R L) as R1.
  assert (Hsame : clusterSize q1 = clusterSize q /\ flen q1 = flen q) by by destruct L as [(? & ? & ? & ? & ->) _].
  destruct Hsame as [Ecs Efl].
  eapply wp_mono; [apply IH; rewrite ?Ecs, ?Efl; done| |done].
  intros [] q2 [L2 H2]. split; [by eapply rloads_trans|]. constructor; [done|].
  revert H2. rewrite Ecs. apply Forall_impl. intros e' H3 Hz. rewrite <- (rloads_drc q q1); auto.
Qed.

(** ** Data mappings *)

Definition data_entry (q : qcow2Image) (e : Z) : Prop :=
  validateL2Entry e q = None /\
  (clusterOffset e <> 0 -> clusterOffset e mod clusterSize q = 0 /\
     clusterOffset e + clusterSize q <= flen q /\ drc q (clusterOffset e / clusterSize q) = 1).

Lemma rloads_data_entry q q' e : rloads q q' -> data_entry q' e -> data_entry q e.
Proof. by intros [(? & ? & ? & ? & ->) _]. Qed.

Definition data_post (O : owner -> Z -> Prop) (q : qcow2Image) (t : list Z) (k : Z)
    (owners' : qcow2ClusterOwners) : Prop :=
  tracks owners' (fun w c => O w c \/ table_owns (clusterSize q) OData clusterOffset t k w c) /\
  Forall (data_entry q) t.

Lemma wp_validateDataMappings t : forall q k owners O,
  rready q -> Forall is_u64 t -> tracks owners O ->
  wp (validateDataMappings t owners (flen q)) q
    (fun owners' q' => rloads q q' /\ data_post O q t k owners') (fun _ _ => True).
Proof.
  induction t as [|e t IH]; intros q k owners O R Hu T; cbn [validateDataMappings].
  { wsteps. split; [apply rloads_refl; apply R|].
    exact (table_post_nil owners O (clusterSize q) OData clusterOffset (data_entry q) k T). }
  inversion_clear Hu as [|? ? Hu1 Hu2]. destruct (geo_facts q (rr_geo q R)) as (Hcs & _).
  wstep. unfold wp at 1, checkL2Entry. destruct (validateL2Entry e q) eqn:Hv; [done|]. wsteps.
  pose proof (rr_flen q R).
  destruct (clusterOffset e =? 0) eqn:E; zbool.
  { eapply wp_mono; [apply (IH q (k + 1) owners O); done| |done]. intros owners' q' [L H'].
    split; [done|].
    apply (table_post_cons owners owners O (clusterSize q) OData clusterOffset (data_entry q) e t k (Ok owners'));
      [by split|]. destruct H' as [H1 H2]. split; [|done]. apply (tracks_sub _ _ _ H1).
    intros w c [[?|[? _]]|?]; [by left|done|by right]. }
  wstep; [done|]. zbool. unfold is_u64 in Hu1. destruct (clusterOffset_range e) as [Hcr _]; [lia|].
  wstep. unfold wp at 1, lift. destruct (qcow2FileRange _ _ _ _) as [[]|err| |] eqn:Er;
    try (unfold qcow2FileRange in Er; by destruct (_ || _)).
  pose proof (fileRange_ok _ _ _ _ Er ltac:(lia)) as Hr. wstep. unfold wp at 1.
  pose proof (tracks_claim_one owners O (OData k) (clusterOffset e) (clusterSize q) "data cluster" T Hcs
    ltac:(lia) ltac:(lia) ltac:(done)) as Hc.
  destruct (claim _ _ _ _ _) as [owners1|err| |]; try done.
  wstep. eapply wp_mono; [apply wp_checkRefcount_one; try done; lia| |done].
  intros [] q1 [L H1]. pose proof (rloads_rready q q1 R L) as R1.
  assert (Hsame : clusterSize q1 = clusterSize q /\ flen q1 = flen q) by by destruct L as [(? & ? & ? & ? & ->) _].
  destruct Hsame as [Ecs Efl]. rewrite <- Efl.
  eapply wp_mono; [apply (IH q1 (k + 1) owners1 _ R1 Hu2 Hc)| |done].
  intros owners' q2 [L2 [H2 H3]]. split; [by eapply rloads_trans|]. rewrite Ecs in H2.
  apply (table_post_cons owners owners1 O (clusterSize q) OData clusterOffset (data_entry q) e t k (Ok owners')).
  - split; [done|]. intros _. done.
  - split; [|eapply Forall_impl; [|exact H3]; intros; by eapply rloads_data_entry].
    apply (tracks_sub _ _ _ H2). intros w c [[?|[_ ?]]|?]; [by left; left|by left; right|by right].
Qed.

(** ** L2 tables *)

Definition diskL2 (q : qcow2Image) (e : Z) : list Z := diskTable (D q) (clusterOffset e) (l2Entries q).

Definition l2s_owns (q : qcow2Image) (t : list Z) (k : Z) (w : owner) (c : Z) : Prop :=
  exists i, 0 <= i < zlen t /\ zget t i <> 0 /\
    table_owns (clusterSize q) OData clusterOffset (diskL2 q (zget t i)) ((k + i) * l2Entries q) w c.

Lemma l2s_owns_cons q e t k w c :
  l2s_owns q (e :: t) k w c ->
  (e <> 0 /\ table_owns (clusterSize q) OData clusterOffset (diskL2 q e) (k * l2Entries q) w c) \/
  l2s_owns q t (k + 1) w c.
Proof.
  intros (i & Hi & Hz & Ho). rewrite zlen_cons in Hi. rewrite zget_cons in * by lia.
  destruct (i =? 0) eqn:E; zbool.
  - left. subst i. by rewrite Z.add_0_r in Ho.
  - right. exists (i - 1). splits; try done; try lia. by replace (k + 1 + (i - 1)) with (k + i) by lia.
Qed.

Definition l2s_post (O : owner -> Z -> Prop) (q : qcow2Image) (t : list Z) (k : Z) : Prop :=
  (exists owners', tracks owners' (fun w c => O w c \/ l2s_owns q t k w c)) /\
  Forall (fun e => e <> 0 -> drc q (clusterOffset e / clusterSize q) = 1 /\ Forall (data_entry q) (diskL2 q e)) t.

Lemma Forall_diskTable d off n : bytes_ok d -> Forall is_u64 (diskTable d off n).
Proof.
  intros Hb. unfold diskTable, decodeTable. apply Forall_fmap, Forall_true. intros i. unfold compose.
  apply be_uint64_range. by apply bytes_ok_slice.
Qed.

Lemma wp_validateL2Tables t : forall q k owners O,
  rready q -> bytes_ok (D q) -> Forall is_u64 t -> Forall (l2table_entry (clusterSize q) (flen q)) t ->
  tracks owners O ->
  wp (validateL2Tables t owners (flen q)) q
    (fun _ q' => rloads q q' /\ l2s_post O q t k) (fun _ _ => True).
Proof.
  induction t as [|e t IH]; intros q k owners O R Hb Hu He T; cbn [validateL2Tables].
  { wsteps. split; [apply rloads_refl; apply R|]. split; [|constructor].
    exists owners. apply (tracks_sub _ _ _ T). intros w c [?|(i & Hi & _)]; [done|].
    unfold zlen in Hi. cbn in Hi. lia. }
  inversion_clear He as [|? ? He1 He2]. inversion_clear Hu as [|? ? Hu1 Hu2].
  destruct (geo_facts q (rr_geo q R)) as (Hcs & _ & Hl2 & _ & Hl2p & _). pose proof (rr_flen q R).
  destruct (e =? 0) eqn:E; zbool.
  { eapply wp_mono; [apply (IH q (k + 1) owners O); done| |done]. intros [] q' [L [[owners' T'] F]].
    split; [done|]. split; [exists owners'|by constructor]. apply (tracks_sub _ _ _ T').
    intros w c [?|Hw]; [by left|]. apply l2s_owns_cons in Hw as [[? _]|?]; [done|by right]. }
  destruct (He1 E) as (Hnz & Hal & Hin). unfold is_u64 in Hu1. destruct (clusterOffset_range e) as [Hcr _]; [lia|].
  wsteps. eapply wp_mono; [apply wp_checkRefcount_one; try done; lia| |done].
  intros [] q1 [L H1]. pose proof (rloads_rready q q1 R L) as R1. wstep.
  assert (Hsame : clusterSize q1 = clusterSize q /\ flen q1 = flen q /\ D q1 = D q)
    by by destruct L as [(? & ? & ? & ? & ->) _].
  destruct Hsame as (Ecs & Efl & ED). rewrite i64_small by lia. unfold maxInt64 in *.
  eapply wp_mono; [apply wp_readUint64Table; rewrite ?Efl; try lia|..].
  { change (qcow2MaxL1Bytes / 8) with (2 ^ 22). lia. }
  { unfold maxInt64. lia. }
  2: done.
  intros l2 q2 [-> Hs]. rewrite ED. fold (diskL2 q e). wstep.
  assert (L2 : rloads q q2) by (eapply rloads_trans; [exact L|apply rloads_sched; try done; apply R1]).
  pose proof (rloads_rready q q2 R L2) as R2.
  assert (Efl2 : flen q2 = flen q) by by destruct L2 as [(? & ? & ? & ? & ->) _]. rewrite <- Efl2.
  eapply wp_mono; [apply (wp_validateDataMappings (diskL2 q e) q2 (k * l2Entries q) owners O); try done|..].
  { by apply Forall_diskTable. }
  2: done.
  intros owners' q3 [L3 [T3 F3]].
  assert (L4 : rloads q q3) by by eapply rloads_trans.
  assert (Hsame : clusterSize q2 = clusterSize q /\ clusterSize q3 = clusterSize q /\ flen q3 = flen q /\
    flen q3 = flen q2 /\ D q3 = D q).
  { destruct L4 as [(? & ? & ? & ? & ->) _], L2 as [(? & ? & ? & ? & ->) _]. done. }
  destruct Hsame as (Ecs2 & Ecs3 & Efl3 & Efl32 & ED3). rewrite Ecs2 in T3. rewrite <- Efl32.
  pose proof (rloads_rready q q3 R L4) as R3.
  eapply wp_mono; [eapply (IH q3 (k + 1) owners'); [done|by rewrite ED3|done|by rewrite Ecs3, Efl3|exact T3]| |done].
  intros [] q4 [L5 [[owners4 T4] F4]]. split; [by eapply rloads_trans|].
  destruct L4 as [(fl & c0 & b & n & ->) _]. split.
  - exists owners4. apply (tracks_sub _ _ _ T4). intros w c [?|Hw]; [by left; left|].
    apply l2s_owns_cons in Hw as [[_ ?]|?]; [by left; right|by right].
  - constructor; [|exact F4]. intros _. split; [done|].
    eapply Forall_impl; [|exact F3]. intros; by eapply rloads_data_entry.
Qed.

(** ** The whole layout *)

(** The state [open] hands to the layout check. *)
Record loaded (q : qcow2Image) (h : qcow2Header) : Prop := {
  lo_geo : geometry q;
  lo_bytes : bytes_ok (D q);
  lo_flen : flen q <= maxInt64;
  lo_hdr : header_matches q h;
  lo_l1 : l1 q = diskTable (D q) (q_l1TableOffset q) (zlen (l1 q));
  lo_rt : refcountTable q = diskTable (D q) (q_refcountTableOffset q) (zlen (refcountTable q));
  lo_l2c : l2Cache q = ∅;
  lo_rcache : refcountCache q = ∅ /\ refcountBlocks q = [] /\ refcountCacheNext q = 0;
  lo_fault : writeFault q = None
}.

(** What the check establishes of it. *)
Record layout_ok (q : qcow2Image) : Prop := {
  la_excl : forall w1 w2 c, owns q w1 c -> owns q w2 c -> w1 = w2;
  la_rt : Forall (refblock_entry (clusterSize q) (flen q)) (refcountTable q);
  la_l1 : Forall (l2table_entry (clusterSize q) (flen q)) (l1 q);
  la_map : forall g, data_entry q (mapping q g);
  la_rc : forall w c, owns q w c -> drc q c = 1;
  la_end : clusterSize q <= flen q /\ q_l1TableOffset q + zlen (l1 q) * 8 <= flen q /\
           q_refcountTableOffset q + zlen (refcountTable q) * 8 <= flen q
}.

Lemma Forall_zget (P : Z -> Prop) l i : Forall P l -> P 0 -> P (zget l i).
Proof.
  intros H H0. destruct (Z.lt_ge_cases i 0); [by rewrite zget_out by lia|].
  destruct (Z.lt_ge_cases i (zlen l)); [|by rewrite zget_out by lia].
  apply (proj1 (Forall_lookup P l) H (Z.to_nat i)). pose proof (zlookup_zget l i ltac:(lia)) as E.
  unfold zlookup in E. by destruct (i <? 0) eqn:?; zbool; [lia|].
Qed.

Lemma zget_nonzero_range l i : zget l i <> 0 -> 0 <= i < zlen l.
Proof.
  intros H. destruct (Z.lt_ge_cases i 0); [rewrite zget_out in H by lia; done|].
  destruct (Z.lt_ge_cases i (zlen l)); [lia|]. rewrite zget_out in H by lia. done.
Qed.

Section Layout.
Context (q : qcow2Image) (h : qcow2Header) (L : loaded q h).

Lemma loaded_tables : Forall is_u64 (l1 q) /\ Forall is_u64 (refcountTable q).
Proof using L.
  rewrite (lo_l1 q h L), (lo_rt q h L). split; apply Forall_diskTable, (lo_bytes q h L).
Qed.

Lemma mapping_disk g : mapping q g =
  if zget (l1 q) (g / l2Entries q) =? 0 then 0
  else if clusterOffset (zget (l1 q) (g / l2Entries q)) =? 0 then 0
  else zget (diskL2 q (zget (l1 q) (g / l2Entries q))) (g mod l2Entries q).
Proof using L.
  unfold mapping, tableOf. rewrite (lo_l2c q h L), lookup_empty.
  assert (Hnil : forall i, zget [] i = 0) by (intros; apply zget_out; unfold zlen; cbn; lia).
  destruct (zget (l1 q) _ =? 0) eqn:E; zbool; [by rewrite E; cbn; rewrite Hnil|].
  destruct (_ =? 0); [by rewrite Hnil|done].
Qed.

(** The owners recorded by the passes are those of the invariant. *)
Definition passes_own (w : owner) (c : Z) : Prop :=
  (((((False \/ (w = OHeader /\ 0 / clusterSize q <= c < (0 + clusterSize q + clusterSize q - 1) / clusterSize q)) \/
      (w = OL1 /\ q_l1TableOffset q / clusterSize q <= c <
         (q_l1TableOffset q + zlen (l1 q) * 8 + clusterSize q - 1) / clusterSize q)) \/
     (w = ORefTable /\ q_refcountTableOffset q / clusterSize q <= c <
        (q_refcountTableOffset q + zlen (refcountTable q) * 8 + clusterSize q - 1) / clusterSize q)) \/
    table_owns (clusterSize q) ORefBlock (fun e => e) (refcountTable q) 0 w c) \/
   table_owns (clusterSize q) OL2 clusterOffset (l1 q) 0 w c) \/ l2s_owns q (l1 q) 0 w c.

Lemma passes_cover w c :
  Forall (l2table_entry (clusterSize q) (flen q)) (l1 q) -> owns q w c -> passes_own w c.
Proof using L.
  intros Hl1 Ho. destruct (geo_facts q (lo_geo q h L)) as (Hcs & _ & _ & _ & Hl2p & _). unfold passes_own.
  destruct w as [| | |i|i|g]; cbn in Ho.
  - subst c. do 5 left. right. split; [done|]. rewrite Z.div_0_l by lia. split; [lia|].
    assert (1 <= (0 + clusterSize q + clusterSize q - 1) / clusterSize q) by (apply Z.div_le_lower_bound; lia). lia.
  - do 4 left. by right.
  - do 3 left. right. split; [done|]. split; [lia|]. eapply Z.lt_le_trans; [apply Ho|]. apply Z.div_le_mono; lia.
  - do 2 left. right. destruct Ho as [Hz ->]. exists i. by splits; try apply (zget_nonzero_range _ _ Hz).
  - left. right. destruct Ho as [Hz ->]. exists i. pose proof (zget_nonzero_range _ _ Hz).
    splits; try done; try lia. by apply (Forall_zget _ (l1 q) i Hl1).
  - right. destruct Ho as [Hz ->]. revert Hz. rewrite mapping_disk.
    destruct (zget (l1 q) (g / l2Entries q) =? 0) eqn:E1; [done|].
    destruct (clusterOffset (zget (l1 q) (g / l2Entries q)) =? 0) eqn:E2; [done|]. intros Hz. zbool.
    exists (g / l2Entries q). pose proof (zget_nonzero_range _ _ E1).
    splits; try done; try lia. exists (g mod l2Entries q).
    pose proof (Z.mod_pos_bound g (l2Entries q) ltac:(lia)).
    splits; try done; try lia.
    + unfold diskL2. rewrite zlen_diskTable; lia.
    + f_equal. pose proof (Z.div_mod g (l2Entries q)). lia.
Qed.

Lemma wp_claimRegions :
  wp (lift (claimRegions (metadataRegions q h) ∅ (flen q) (clusterSize q))) q
    (fun owners q' => q' = q /\
       tracks owners (fun w c => ((False \/ (w = OHeader /\ 0 / clusterSize q <= c < (0 + clusterSize q + clusterSize q - 1) / clusterSize q)) \/
         (w = OL1 /\ q_l1TableOffset q / clusterSize q <= c <
            (q_l1TableOffset q + zlen (l1 q) * 8 + clusterSize q - 1) / clusterSize q)) \/
         (w = ORefTable /\ q_refcountTableOffset q / clusterSize q <= c <
            (q_refcountTableOffset q + zlen (refcountTable q) * 8 + clusterSize q - 1) / clusterSize q)) /\
       clusterSize q <= flen q /\ q_l1TableOffset q + zlen (l1 q) * 8 <= flen q /\
       q_refcountTableOffset q + zlen (refcountTable q) * 8 <= flen q)
    (fun _ _ => True).
Proof using L.
  pose proof (lo_geo q h L) as G. destruct (geo_facts q G) as (Hcs & _). pose proof (lo_flen q h L) as Hfl.
  destruct (lo_hdr q h L) as (_ & _ & _ & _ & _ & Hl1 & Hrt).
  destruct (g_l1off q G) as [Ho1 Ha1]. destruct (g_rtoff q G) as [Ho2 Ha2].
  destruct (g_l1len q G) as [Hn1 Hm1]. destruct (g_rtlen q G) as (Hn2 & Hm2 & _).
  unfold qcow2MaxL1Bytes, qcow2MaxRefcountTableBytes in *.
  unfold metadataRegions, wp, lift. rewrite Hl1, Hrt, !u64_small by lia. cbn [claimRegions].
  destruct (fileRange_cases (flen q) 0 (clusterSize q) "header") as [Er1|[? Er1]]; rewrite Er1; [|done].
  pose proof (fileRange_ok _ _ _ _ Er1 ltac:(lia)) as Hr1.
  pose proof (tracks_claim ∅ _ OHeader 0 (clusterSize q) (clusterSize q) "header" tracks_empty Hcs
    ltac:(lia) ltac:(lia) ltac:(lia) ltac:(apply Z.mod_0_l; lia)) as T1. unfold claims in T1.
  destruct (claim _ 0 _ _ _) as [own1|?| |]; try done.
  destruct (fileRange_cases (flen q) (q_l1TableOffset q) (zlen (l1 q) * 8) "l1 table") as [Er2|[? Er2]]; rewrite Er2; [|done].
  pose proof (fileRange_ok _ _ _ _ Er2 ltac:(lia)) as Hr2.
  pose proof (tracks_claim own1 _ OL1 (q_l1TableOffset q) (zlen (l1 q) * 8) (clusterSize q) "l1 table" T1 Hcs
    ltac:(lia) ltac:(lia) ltac:(lia) ltac:(done)) as T2. unfold claims in T2.
  destruct (claim own1 _ _ _ _) as [own2|?| |]; try done.
  destruct (fileRange_cases (flen q) (q_refcountTableOffset q) (zlen (refcountTable q) * 8) "refcount table") as [Er3|[? Er3]]; rewrite Er3; [|done].
  pose proof (fileRange_ok _ _ _ _ Er3 ltac:(lia)) as Hr3.
  pose proof (tracks_claim own2 _ ORefTable (q_refcountTableOffset q) (zlen (refcountTable q) * 8) (clusterSize q)
    "refcount table" T2 Hcs ltac:(lia) ltac:(lia) ltac:(lia) ltac:(done)) as T3. unfold claims in T3.
  destruct (claim own2 _ _ _ _) as [own3|?| |]; try done.
Qed.

Lemma loaded_rready : Forall (refblock_entry (clusterSize q) (flen q)) (refcountTable q) -> rready q.
Proof using L.
  intros Hrt. destruct loaded_tables as [_ Hu]. pose proof (lo_geo q h L) as G.
  destruct (geo_facts q G) as (Hcs & _). destruct (lo_rcache q h L) as (Hc & Hb & Hn).
  constructor; try done.
  - intros k. pose proof (Forall_zget is_u64 _ k Hu ltac:(unfold is_u64; lia)) as Hk. split; [done|].
    destruct (Z.eq_dec (zget (refcountTable q) k) 0) as [->|Hz]; [split; [apply Z.mod_0_l; lia|done]|].
    destruct (Forall_zget _ _ k Hrt ltac:(done) Hz) as (H1 & H2 & _). done.
  - intros k Hz. apply (Forall_zget _ _ k Hrt ltac:(done) Hz).
  - apply (lo_flen q h L).
  - pose proof (rlimit_pos q G). constructor; rewrite ?Hc, ?Hb, ?Hn; try lia.
    + intros o i Ho. by rewrite lookup_empty in Ho.
    + unfold zlen; cbn; lia.
  - intros o i b Ho. by rewrite Hc, lookup_empty in Ho.
Qed.

Lemma data_entry_zero : data_entry q 0.
Proof.
  split; [|done]. unfold validateL2Entry, has_bits. rewrite !Z.land_0_l. by rewrite andb_false_r.
Qed.

Lemma layout_assemble :
  Forall (refblock_entry (clusterSize q) (flen q)) (refcountTable q) ->
  Forall (l2table_entry (clusterSize q) (flen q)) (l1 q) ->
  (exists owners, tracks owners passes_own) ->
  (clusterSize q <= flen q /\ q_l1TableOffset q + zlen (l1 q) * 8 <= flen q /\
   q_refcountTableOffset q + zlen (refcountTable q) * 8 <= flen q) ->
  (forall c, 0 <= c * clusterSize q < 0 + clusterSize q -> drc q c = 1) ->
  (forall c, q_l1TableOffset q <= c * clusterSize q < q_l1TableOffset q + zlen (l1 q) * 8 -> drc q c = 1) ->
  (forall c, q_refcountTableOffset q <= c * clusterSize q <
             q_refcountTableOffset q + zlen (refcountTable q) * 8 -> drc q c = 1) ->
  Forall (fun e => e <> 0 -> drc q (e / clusterSize q) = 1) (refcountTable q) ->
  Forall (fun e => e <> 0 -> drc q (clusterOffset e / clusterSize q) = 1 /\
                             Forall (data_entry q) (diskL2 q e)) (l1 q) ->
  layout_ok q.
Proof using L.
  intros Hrt Hl1 [owners T] Hend R0 R1 R2 R3 R4. pose proof (lo_geo q h L) as G.
  destruct (geo_facts q G) as (Hcs & _). destruct (g_l1off q G) as [_ Ha1]. destruct (g_rtoff q G) as [_ Ha2].
  assert (Hmap : forall g, data_entry q (mapping q g)).
  { intros g. rewrite mapping_disk. destruct (zget (l1 q) (g / l2Entries q) =? 0) eqn:E1; [apply data_entry_zero|].
    destruct (clusterOffset (zget (l1 q) (g / l2Entries q)) =? 0) eqn:E2; [apply data_entry_zero|]. zbool.
    destruct (Forall_zget _ _ (g / l2Entries q) R4 ltac:(done) E1) as [_ Hd].
    apply Forall_zget; [done|apply data_entry_zero]. }
  constructor; try done.
  - intros w1 w2 c H1 H2. apply (tr_excl _ _ T w1 w2 c); by apply passes_cover.
  - intros w c Hw. destruct w as [| | |i|i|g]; cbn in Hw.
    + apply R0. subst c. lia.
    + apply R1. pose proof (div_mul_aligned (q_l1TableOffset q) (clusterSize q) ltac:(lia) Ha1). destruct Hw as [Hw1 Hw2].
      pose proof (Z.div_mod (q_l1TableOffset q + zlen (l1 q) * 8 + clusterSize q - 1) (clusterSize q) ltac:(lia)).
      pose proof (Z.mod_pos_bound (q_l1TableOffset q + zlen (l1 q) * 8 + clusterSize q - 1) (clusterSize q) ltac:(lia)).
      nia.
    + apply R2. pose proof (div_mul_aligned (q_refcountTableOffset q) (clusterSize q) ltac:(lia) Ha2). destruct Hw as [Hw1 Hw2].
      pose proof (Z.div_mod (q_refcountTableOffset q + zlen (refcountTable q) * 8) (clusterSize q) ltac:(lia)).
      pose proof (Z.mod_pos_bound (q_refcountTableOffset q + zlen (refcountTable q) * 8) (clusterSize q) ltac:(lia)).
      nia.
    + destruct Hw as [Hz ->]. by apply (Forall_zget _ _ i R3).
    + destruct Hw as [Hz ->]. by apply (Forall_zget _ _ i R4).
    + destruct Hw as [Hz ->]. by apply Hmap.
Qed.

End Layout.

Lemma loaded_resched q h fl : loaded q h -> loaded (resched fl q) h.
Proof. intros []. constructor; try assumption. by apply geometry_resched. Qed.

Lemma layout_resched q fl : layout_ok (resched fl q) -> layout_ok q.
Proof. intros []. constructor; assumption. Qed.

(** A result of a pass, lifted to the image monad. *)
Lemma wp_lift_post q (r : result qcow2ClusterOwners) (Q : qcow2ClusterOwners -> qcow2Image -> Prop) :
  match r with Ok o => Q o q | Err _ => True | Panic | OutOfFuel => False end ->
  wp (lift r) q Q (fun _ _ => True).
Proof. by destruct r. Qed.

Lemma wp_validateLayout q h :
  loaded q h ->
  wp (validateLayout h) q
    (fun _ q' => exists fl, rloads (resched fl q) q' /\ (ff q -> ff (resched fl q)) /\ layout_ok q) (fun _ _ => True).
Proof.
  intros L0. unfold validateLayout. wsteps. eapply wp_mono; [apply wp_fileStat| |done].
  intros fs q1 [-> (fl & -> & Hff)]. pose proof (loaded_resched q h fl L0) as L. wsteps.
  change (flen q) with (flen (resched fl q)). set (q1 := resched fl q) in *.
  eapply wp_mono; [by apply (wp_claimRegions q1 h)| |done]. intros own1 q1' (-> & T1 & Hend). wstep.
  pose proof (lo_geo q1 h L) as G. destruct (geo_facts q1 G) as (Hcs & _). pose proof (lo_flen q1 h L) as Hfl.
  destruct (loaded_tables q1 h L) as [Hu1 Hu2]. destruct (lo_hdr q1 h L) as (_ & _ & _ & _ & _ & El1 & Ert).
  destruct (g_l1off q1 G) as [Ho1 Ha1]. destruct (g_rtoff q1 G) as [Ho2 Ha2].
  destruct (g_l1len q1 G) as [Hn1 Hm1]. destruct (g_rtlen q1 G) as (Hn2 & Hm2 & _).
  unfold qcow2MaxL1Bytes, qcow2MaxRefcountTableBytes in *.
  apply wp_lift_post.
  pose proof (claimRefcountBlocks_spec _ _ (refcountTable q1) Hcs Hfl Hu2 0 own1 _ T1) as P2. unfold table_post in P2.
  destruct (claimRefcountBlocks _ _ _ _) as [own2|?| |]; try done. destruct P2 as [T2 Hrt]. wstep.
  apply wp_lift_post.
  pose proof (claimL2Tables_spec _ _ (l1 q1) Hcs Hfl Hu1 0 own2 _ T2) as P3. unfold table_post in P3.
  destruct (claimL2Tables _ _ _ _) as [own3|?| |]; try done. destruct P3 as [T3 Hl1].
  pose proof (loaded_rready q1 h L Hrt) as R1.
  unfold metadataRegions. rewrite El1, Ert, !u64_small by lia. cbn [checkRegions]. wsteps.
  eapply wp_mono; [apply wp_checkRefcounts; try done; lia| |done].
  intros [] q2 [L2 C0]. pose proof (rloads_rready _ _ R1 L2) as R2. wsteps.
  assert (E2 : clusterSize q2 = clusterSize q1 /\ flen q2 = flen q1) by by destruct L2 as [(? & ? & ? & ? & ->) _].
  eapply wp_mono; [apply wp_checkRefcounts; rewrite ?(proj1 E2); try done; lia| |done].
  intros [] q3 [L3 C1]. pose proof (rloads_trans _ _ _ L2 L3) as L13. pose proof (rloads_rready _ _ R1 L13) as R3. wsteps.
  assert (E3 : clusterSize q3 = clusterSize q1 /\ flen q3 = flen q1) by by destruct L13 as [(? & ? & ? & ? & ->) _].
  eapply wp_mono; [apply wp_checkRefcounts; rewrite ?(proj1 E3); try done; lia| |done].
  intros [] q4 [L4 C2]. pose proof (rloads_trans _ _ _ L13 L4) as L14. pose proof (rloads_rready _ _ R1 L14) as R4. wsteps.
  assert (E4 : clusterSize q4 = clusterSize q1 /\ flen q4 = flen q1) by by destruct L14 as [(? & ? & ? & ? & ->) _].
  eapply wp_mono; [apply wp_checkRefcountBlocks; rewrite ?(proj1 E4), ?(proj2 E4); done| |done].
  intros [] q5 [L5 C3]. pose proof (rloads_trans _ _ _ L14 L5) as L15. pose proof (rloads_rready _ _ R1 L15) as R5.
  assert (E5 : clusterSize q5 = clusterSize q1 /\ flen q5 = flen q1 /\ D q5 = D q1)
    by by destruct L15 as [(? & ? & ? & ? & ->) _].
  rewrite <- (proj1 (proj2 E5)).
  eapply wp_mono; [eapply (wp_validateL2Tables (l1 q1) q5 0 own3); [done| |done| |exact T3]| |done].
  - rewrite (proj2 (proj2 E5)). apply (lo_bytes q1 h L).
  - rewrite (proj1 E5), (proj1 (proj2 E5)). done.
  - intros [] q6 [L6 [T6 C4]]. exists fl. splits; [by eapply rloads_trans|done|]. apply (layout_resched q fl). fold q1.
    destruct L2 as [(? & ? & ? & ? & ->) _], L13 as [(? & ? & ? & ? & ->) _], L14 as [(? & ? & ? & ? & ->) _],
      L15 as [(? & ? & ? & ? & ->) _].
    by apply (layout_assemble q1 h L).
Qed.

(** ** From the checked layout to the invariant *)

Lemma layout_below q h : loaded q h -> layout_ok q -> below q (flen q).
Proof.
  intros L La. pose proof (lo_geo q h L) as G. destruct (geo_facts q G) as (Hcs & _).
  destruct (la_end q La) as (He0 & He1 & He2). destruct (g_rtoff q G) as [? Ha2].
  split; [done|]. intros w c Hw Ho. destruct w as [| | |i|i|g]; cbn in Ho; try done.
  - subst c. lia.
  - destruct (g_rtlen q G) as (_ & _ & Ha3).
    assert (Hal : (q_refcountTableOffset q + zlen (refcountTable q) * 8) mod clusterSize q = 0)
      by (rewrite Z.add_mod, Ha2, Ha3 by lia; apply Z.mod_0_l; lia).
    pose proof (div_mul_aligned (q_refcountTableOffset q + zlen (refcountTable q) * 8) (clusterSize q) ltac:(lia) Hal). nia.
  - destruct Ho as [Hz ->]. destruct (Forall_zget _ _ i (la_rt q La) ltac:(done) Hz) as (Hal & _ & Hin).
    pose proof (div_mul_aligned _ (clusterSize q) ltac:(lia) Hal). lia.
  - destruct Ho as [Hz ->]. destruct (Forall_zget _ _ i (la_l1 q La) ltac:(done) Hz) as (_ & Hal & Hin).
    pose proof (div_mul_aligned _ (clusterSize q) ltac:(lia) Hal). lia.
  - destruct Ho as [Hz ->]. destruct (proj2 (la_map q La g) Hz) as (Hal & Hin & _).
    pose proof (div_mul_aligned _ (clusterSize q) ltac:(lia) Hal). lia.
Qed.

Lemma layout_wf q h : loaded q h -> layout_ok q -> wf q.
Proof.
  intros L La. pose proof (lo_geo q h L) as G. destruct (geo_facts q G) as (Hcs & _ & _ & _ & Hl2p & _).
  destruct (loaded_tables q h L) as [Hu1 Hu2]. pose proof (loaded_rready q h L (la_rt q La)) as R.
  assert (H0 : is_u64 0) by (unfold is_u64; lia). constructor; try done.
  - apply (lo_bytes q h L).
  - apply (lo_flen q h L).
  - intros i. split; [by apply Forall_zget|].
    destruct (Z.eq_dec (zget (l1 q) i) 0) as [->|Hz]; [by split; [apply Z.mod_0_l; lia|]|].
    by destruct (Forall_zget _ _ i (la_l1 q La) ltac:(done) Hz) as (? & ? & _).
  - apply (rr_rt q R).
  - intros g. destruct (la_map q La g) as [Hv Hd]. split.
    + rewrite (mapping_disk q h L). destruct (_ =? 0); [done|]. destruct (_ =? 0); [done|].
      apply Forall_zget; [|done]. apply Forall_diskTable, (lo_bytes q h L).
    + split; [|done]. destruct (Z.eq_dec (clusterOffset (mapping q g)) 0) as [->|Hz]; [apply Z.mod_0_l; lia|].
      by apply Hd.
  - apply (la_excl q La).
  - by apply (layout_below q h).
  - intros i t. by rewrite (lo_l2c q h L), lookup_empty.
  - apply (rr_cache q R).
Qed.

Lemma layout_synced q h : loaded q h -> layout_ok q -> h = headerOf (D q) -> synced q.
Proof.
  intros L La ->. constructor.
  - apply (lo_hdr q _ L).
  - symmetry. apply (lo_l1 q _ L).
  - symmetry. apply (lo_rt q _ L).
  - intros i t. by rewrite (lo_l2c q _ L), lookup_empty.
  - exact (rr_sync q (loaded_rready q _ L (la_rt q La))).
  - apply (la_rc q La).
Qed.

(** ** Reading the header and the tables *)

(** A read at any offset of a file of any length. *)
Lemma wp_fileRead_any q n off : 0 <= n -> 0 <= off ->
  wp (fileRead n off) q
    (fun b q' => b = zslice (D q) off n /\ sched q q' /\ (0 < n -> off + n <= flen q))
    (fun _ q' => sched q q').
Proof.
  intros Hn Ho. assert (Hz : zlen (zeros n) = n) by (rewrite zlen_zeros; lia).
  unfold fileRead. wstep. unfold wp at 1, fileReadAt.
  destruct (f_readAt (file q) (zeros n) off) as [[[b k] err] f] eqn:E.
  pose proof (f_readAt_data _ _ _ _ _ _ _ E) as Hd.
  assert (Hs : sched q (set_file f q)).
  { exists (f_faults f). split; [unfold resched, D; rewrite <- Hd; by destruct f|].
    unfold ff; cbn. unfold f_readAt in E.
    destruct (off <? 0); [injection E as <- <- <- <-; apply fault_free_with|].
    destruct (next_fault (file q)); injection E as <- <- <- <-; apply fault_free_with. }
  destruct err as [e|]; wsteps; [done|]. apply f_readAt_None in E as (_ & _ & -> & Hr). rewrite Hz in *.
  splits; try done. intros. destruct Hr; [lia|done].
Qed.

Lemma wp_wrapErr {A} msg (m : QM A) q Q (E : error -> qcow2Image -> Prop) :
  (forall e q', E e q' -> E (EWrap msg e) q') -> wp m q Q E -> wp (wrapErr msg m) q Q E.
Proof.
  intros He Hm. unfold wrapErr. wsteps. eapply wp_mono; [exact Hm| |]; intros; wsteps; auto.
Qed.

Lemma zslice_app (d : list Z) off n m : 0 <= off -> 0 <= n -> 0 <= m -> off + n + m <= zlen d ->
  zslice d off n ++ zslice d (off + n) m = zslice d off (n + m).
Proof.
  intros. apply zlist_eq; [rewrite zlen_app, !zlen_slice; lia|]. intros i.
  rewrite zlen_app, !zlen_slice by lia. intros Hi. rewrite zget_app, zlen_slice by lia.
  destruct (i <? n) eqn:E; zbool; rewrite !zget_slice by lia; [done|]. f_equal. lia.
Qed.

Definition header_read (q : qcow2Image) (h : qcow2Header) (q' : qcow2Image) : Prop :=
  sched q q' /\ h = headerOf (D q) /\ validateHeader h = None /\
  (h_version h = qcow2Version2 \/ h_version h = qcow2Version3).

Lemma wp_checkHeader q h : bytes_ok (D q) ->
  wp (checkHeader h) q (fun h' q' => h' = h /\ sched q q' /\ validateHeader h = None) (fun _ _ => True).
Proof.
  intros Hb. unfold checkHeader. destruct (validateHeader h) eqn:Hv; [done|].
  unfold validateHeaderCluster. wsteps. apply wp_wrapErr; [done|].
  eapply wp_mono; [apply wp_fileRead_any; [apply Z.mod_pos_bound; lia|lia]| |done].
  intros b q' (-> & Hs & _). unfold wp, lift.
  pose proof (validateHeaderClusterBytes_returns h (zslice (D q) 0 (clusterSizeOf h)) ltac:(by apply bytes_ok_slice)) as Hr.
  destruct (validateHeaderClusterBytes _ _); try done.
Qed.

Lemma headerOf_ranges d : bytes_ok d -> header_ranges (headerOf d).
Proof.
  intros Hb. unfold headerOf. set (b := zslice d 0 qcow2HeaderV2Len).
  assert (Hb2 : bytes_ok b) by by apply bytes_ok_slice.
  assert (Hr : header_ranges (parseHeaderV2 b)).
  { constructor; cbn; unfold is_u32, is_u64; try apply be_uint32_range; try apply be_uint64_range; done. }
  destruct (_ =? _); [|done]. destruct Hr. by constructor.
Qed.

Lemma wp_readHeader q : bytes_ok (D q) ->
  wp readHeader q (fun h q' => header_read q h q') (fun _ _ => True).
Proof.
  intros Hb. unfold readHeader. wstep. apply wp_wrapErr; [done|].
  eapply wp_mono; [apply wp_fileRead_any; unfold qcow2HeaderV2Len; lia| |done].
  intros b q1 (-> & Hs1 & Hl1). wstep; [done|]. pose proof Hs1 as (fl1 & -> & F1).
  set (h := parseHeaderV2 (zslice (D q) 0 qcow2HeaderV2Len)).
  destruct (h_version h =? qcow2Version2) eqn:E2; zbool.
  - eapply wp_mono; [by apply wp_checkHeader| |done]. intros h' q2 (-> & (fl2 & -> & F2) & Hv).
    assert (Hh : h = headerOf (D q)).
    { unfold headerOf. fold h. rewrite E2. done. }
    split; [exists fl2; split; [done|auto]|]. splits; [done|done|by left].
  - destruct (h_version h =? qcow2Version3) eqn:E3; zbool; [|done].
    wstep. apply wp_wrapErr; [done|].
    eapply wp_mono; [apply wp_fileRead_any; unfold qcow2HeaderV2Len, qcow2HeaderV3Len; lia| |done].
    intros b q2 (-> & Hs2 & Hl2). pose proof Hs2 as (fl2 & -> & F2).
    eapply wp_mono; [by apply wp_checkHeader| |done]. intros h' q3 (-> & (fl3 & -> & F3) & Hv).
    change (D (resched fl1 q)) with (D q) in *. change (flen (resched fl1 q)) with (flen q) in *.
    assert (Hh : parseHeaderV3 h (zslice (D q) 0 qcow2HeaderV2Len ++
        zslice (D q) qcow2HeaderV2Len (qcow2HeaderV3Len - qcow2HeaderV2Len)) = headerOf (D q)).
    { unfold headerOf. fold h. rewrite E3. cbn [Z.eqb]. change (qcow2Version3 =? qcow2Version3) with true. cbv iota.
      f_equal. unfold qcow2HeaderV2Len, qcow2HeaderV3Len in *.
      specialize (Hl2 ltac:(lia)). unfold flen, f_size in Hl2. fold (D q) in Hl2.
      change 72 with (0 + 72) at 2. rewrite zslice_app by lia. done. }
    rewrite Hh in *. split; [exists fl3; split; [done|auto]|]. splits; [done|done|right].
    unfold headerOf. fold h. rewrite E3. done.
Qed.

Lemma wp_readUint64Table_any q off n : 0 <= n -> 0 <= off -> flen q <= maxInt64 ->
  wp (readUint64Table off n) q
    (fun t q' => t = diskTable (D q) off n /\ sched q q' /\ off + n * 8 <= flen q) (fun _ _ => True).
Proof.
  intros Hn Ho Hm. unfold readUint64Table. wstep; [done|].
  wstep. eapply wp_mono; [apply wp_fileStat| |done]. intros sz q1 [-> (fl & -> & Hff1)]. wstep.
  unfold wp at 1, lift. destruct (fileRange_cases (flen q) off (n * 8) "metadata table") as [Er|[? Er]]; rewrite Er; [|done].
  pose proof (fileRange_ok _ _ _ _ Er Ho) as Hr. pose proof (flen_nonneg q). unfold maxInt64 in *.
  rewrite i64_small by lia. wstep. eapply wp_mono; [apply wp_fileRead_any; lia| |done].
  intros b q2 (-> & (fl2 & -> & Hff2) & _). wsteps. splits; try done. exists fl2. split; [done|auto].
Qed.

(** What an accepted image looks like. *)
Record opened (f : osFile) (q : qcow2Image) : Prop := {
  op_data : D q = f_data f;
  op_geo : geometry q;
  op_hdr : header_matches q (headerOf (f_data f));
  op_l1 : l1 q = diskTable (D q) (q_l1TableOffset q) (zlen (l1 q));
  op_rt : refcountTable q = diskTable (D q) (q_refcountTableOffset q) (zlen (refcountTable q));
  op_l2c : l2Cache q = ∅;
  op_fault : writeFault q = None;
  op_inv : wf q /\ synced q
}.

Lemma header_loaded q h fl t rt :
  header_geometry h -> (h_version h = qcow2Version2 \/ h_version h = qcow2Version3) ->
  bytes_ok (D q) -> flen q <= maxInt64 ->
  refcountCache q = ∅ -> refcountBlocks q = [] -> refcountCacheNext q = 0 -> l2Cache q = ∅ -> writeFault q = None ->
  t = diskTable (D q) (h_l1TableOffset h) (h_l1Size h) ->
  rt = diskTable (D q) (h_refcountTableOffset h) (h_refcountTableClusters h * clusterSizeOf h / 8) ->
  loaded (set_refcountTable rt (set_l1 t (set_geometry h (resched fl q)))) h.
Proof.
  intros [Hb Hcs Hs Hl Hr Hlo Hro Hcov] Hver Hby Hfl C1 C2 C3 C4 C5 -> ->.
  destruct (clusterSizeOf_pow h Hb) as [_ Hc]. unfold qcow2MaxL1Bytes, qcow2MaxRefcountTableBytes in *.
  assert (H8 : clusterSizeOf h mod 8 = 0).
  { rewrite Hcs. replace (h_clusterBits h) with (3 + (h_clusterBits h - 3)) by lia.
    rewrite Z.pow_add_r by lia. rewrite Z.mul_comm. apply Z.mod_mul. lia. }
  assert (Hdiv : clusterSizeOf h / 8 * 8 = clusterSizeOf h) by (pose proof (Z.div_mod (clusterSizeOf h) 8); lia).
  assert (Hrt8 : h_refcountTableClusters h * clusterSizeOf h / 8 * 8 = h_refcountTableClusters h * clusterSizeOf h).
  { rewrite <- Hdiv at 1. rewrite Z.mul_assoc, Z.div_mul by lia. lia. }
  assert (Hn : 0 < h_refcountTableClusters h * clusterSizeOf h / 8) by nia.
  assert (Hl1 : forall d o, zlen (diskTable d o (h_l1Size h)) = h_l1Size h) by (intros; apply zlen_diskTable; lia).
  assert (Hl2 : forall d o, zlen (diskTable d o (h_refcountTableClusters h * clusterSizeOf h / 8)) =
    h_refcountTableClusters h * clusterSizeOf h / 8) by (intros; apply zlen_diskTable; lia).
  constructor; cbn; try done; try (rewrite ?Hl1, ?Hl2; done).
  - constructor; cbn; rewrite ?Hl1, ?Hl2, ?Hrt8; unfold qcow2MaxL1Bytes, qcow2MaxRefcountTableBytes; try done; try lia.
    + by exists (h_clusterBits h).
    + splits; try lia. apply Z.mod_mul. lia.
  - unfold header_matches. cbn. rewrite Hl1, Hl2, Hrt8. done.
Qed.

Lemma opened_rloads f q h fl q' :
  loaded q h -> layout_ok q -> h = headerOf (D q) -> D q = f_data f -> rloads (resched fl q) q' -> opened f q'.
Proof.
  intros L La Hh HD Lr. pose proof Lr as [(fl2 & c & b & n & Eq) _].
  assert (St : static q q') by (subst q'; by constructor).
  constructor; subst q'; try done; try apply L.
  - eapply geometry_static; [apply L|done].
  - change (header_matches q (headerOf (f_data f))). rewrite <- HD, <- Hh. apply (lo_hdr q h L).
  - assert (W : wf (resched fl q)) by by apply wf_resched, (layout_wf q h).
    assert (Sy : synced (resched fl q)) by by apply synced_resched, (layout_synced q h).
    pose proof (rloads_loads _ _ W Lr) as Ld. split; [apply Ld|by apply Ld].
Qed.

Lemma wp_openImage f : bytes_ok (f_data f) -> f_size f <= maxInt64 ->
  wp openImage (emptyImage f) (fun _ q => opened f q) (fun _ _ => True).
Proof.
  intros Hb Hm. unfold openImage. wsteps. eapply wp_mono; [by apply wp_readHeader| |done].
  intros h q1 ((fl1 & -> & F1) & Hh & Hv & Hver). wsteps. cbn [D emptyImage file f_data] in Hh.
  pose proof (headerOf_ranges (f_data f) Hb) as Hr. change (D (emptyImage f)) with (f_data f) in Hh. rewrite <- Hh in Hr.
  pose proof (validateHeader_geometry h Hr Hv) as Hg. pose proof Hg as [Hbits Hcs Hs Hl Hrt Hlo Hro Hcov].
  destruct (clusterSizeOf_pow h Hbits) as [_ Hc]. unfold qcow2MaxL1Bytes, qcow2MaxRefcountTableBytes in *.
  unfold checkedInt. destruct (maxInt64 <? h_l1Size h) eqn:?; zbool; [unfold maxInt64 in *; lia|].
  unfold wp at 1, lift. wsteps. apply wp_wrapErr; [done|].
  eapply wp_mono; [apply wp_readUint64Table_any; [lia|lia|exact Hm]| |done].
  intros t q2 (-> & (fl2 & -> & F2) & _). wsteps. cbn [clusterSize set_geometry].
  change (clusterSize (set_geometry h (resched fl1 (emptyImage f)))) with (clusterSizeOf h).
  rewrite (u64_small (h_refcountTableClusters h * clusterSizeOf h)) by lia.
  assert (0 <= h_refcountTableClusters h * clusterSizeOf h / 8 <= 2 ^ 20)
    by (split; [apply Z.div_pos; lia|apply Z.div_le_upper_bound; lia]).
  destruct (maxInt64 <? _) eqn:?; zbool; [unfold maxInt64 in *; lia|].
  unfold wp at 1. wstep. apply wp_wrapErr; [done|].
  eapply wp_mono; [apply wp_readUint64Table_any; [lia|lia|exact Hm]| |done].
  intros rt q3 (-> & (fl3 & -> & F3) & _). wsteps.
  match goal with |- wp _ ?s _ _ => set (q4 := s) end.
  assert (L : loaded q4 h).
  { apply (header_loaded (emptyImage f) h fl3); done. }
  eapply wp_mono; [by apply (wp_validateLayout q4 h)| |done].
  intros [] q5 (fl & Lr & _ & La). by apply (opened_rloads f q4 h fl).
Qed.

(** ** Reopening *)

Lemma opened_mapping f q g : opened f q -> mapping q g =
  zget (if clusterOffset (zget (l1 q) (g / l2Entries q)) =? 0 then []
        else diskTable (D q) (clusterOffset (zget (l1 q) (g / l2Entries q))) (l2Entries q)) (g mod l2Entries q).
Proof. intros O. unfold mapping, tableOf. by rewrite (op_l2c _ _ O), lookup_empty. Qed.

Lemma synced_mapping q g : wf q -> synced q -> mapping q g =
  zget (if clusterOffset (zget (l1 q) (g / l2Entries q)) =? 0 then []
        else diskTable (D q) (clusterOffset (zget (l1 q) (g / l2Entries q))) (l2Entries q)) (g mod l2Entries q).
Proof.
  intros W Sy. unfold mapping, tableOf. destruct (l2Cache q !! _) as [t|] eqn:E; [|done].
  destruct (wf_l2cache q W _ _ E) as (_ & _ & Hnz). rewrite (clusterOffset_l1_nonzero q) by apply W.
  destruct (_ =? 0) eqn:?; zbool; [done|]. by rewrite (sy_l2 q Sy _ _ E).
Qed.

Lemma opened_view q f q' : Good q -> f_data f = D q -> opened f q' -> same_view q q'.
Proof.
  intros (W & Sy & _) HD O. pose proof (op_hdr _ _ O) as Hh. pose proof (sy_hdr q Sy) as Hq. rewrite HD in Hh.
  destruct Hh as (V' & S' & C' & L' & R' & N' & M'), Hq as (V & S & C & L & R & N & M).
  pose proof (op_geo _ _ O) as G'. pose proof (wf_geo q W) as G. destruct (geo_facts q G) as (Hcs & _).
  assert (Ecs : clusterSize q' = clusterSize q) by congruence.
  assert (El1 : l1 q' = l1 q).
  { rewrite (op_l1 _ _ O), (op_data _ _ O), HD, <- (sy_l1 q Sy). by rewrite <- N', <- L', <- N, <- L. }
  assert (Ht : zlen (refcountTable q') = zlen (refcountTable q)).
  { rewrite Ecs in M'. lia. }
  assert (St : static q q').
  { constructor; try congruence.
    - by rewrite (g_rb q' G'), (g_rb q G), Ecs.
    - by rewrite (g_l2 q' G'), (g_l2 q G), Ecs. }
  split; [done|]. intros o Ho. unfold vbyte.
  assert (HM : forall g, mapping q' g = mapping q g).
  { intros g. rewrite (opened_mapping f q' g O), (synced_mapping q g W Sy).
    by rewrite (op_data _ _ O), HD, El1, (st_l2e _ _ St). }
  by rewrite Ecs, HM, (op_data _ _ O), HD.
Qed.
