(* ===== verification/Disk.v ===== *)
(** The disk image interface (src/internal/disk/image.go, [type Image]): the
    operations a device model uses, the laws it may rely on, and their proofs
    for raw and for QCOW2 images.  The properties of the disk component are
    stated at the end. *)

From S2P Require Import Prelude Bytes OsFile QcowHeader QcowHeaderOk QcowImage QcowLayout QcowInv QcowRead QcowFrame QcowRefcount QcowAlloc QcowPublish QcowWrite QcowOwners QcowOpen.

(** ** The interface *)

Class ImageOps (S : Type) := {
  img_ReadAt : list Z -> Z -> M S (list Z * Z * option error);
  img_WriteAt : list Z -> Z -> M S (Z * option error);
  img_Sync : M S unit;
  img_Size : S -> Z
}.

(** [img_byte s o] is the byte of the disk at offset [o]; [img_quiet s] says
    that the host reports no I/O failure, [img_accepts s off n] that a write of
    [n] bytes at [off] can be carried out. *)
Class ImageModel (S : Type) `{ImageOps S} := {
  img_inv : S -> Prop;
  img_byte : S -> Z -> Z;
  img_quiet : S -> Prop;
  img_accepts : S -> Z -> Z -> Prop
}.

(** The result of a read: [n] bytes of the disk, all that lie below its size
    when nothing fails. *)
Record img_read_spec {S} `{ImageModel S} (s : S) (b : list Z) (off : Z)
    (b' : list Z) (n : Z) (err : option error) (s' : S) : Prop := {
  rd_inv : img_inv s';
  rd_size : img_Size s' = img_Size s;
  rd_view : forall o, 0 <= o -> img_byte s' o = img_byte s o;
  rd_len : zlen b' = zlen b /\ 0 <= n <= zlen b;
  rd_bytes : forall i, 0 <= i < n -> zget b' i = img_byte s (off + i);
  rd_full : img_quiet s -> 0 <= off ->
    n = Z.max 0 (Z.min (zlen b) (img_Size s - off)) /\ err = if n <? zlen b then Some EEOF else None;
  rd_quiet : img_quiet s -> img_quiet s';
  rd_ok : bytes_ok b -> bytes_ok b'
}.

(** The result of a write: [n] bytes are stored, the bytes after them are old
    or new, everything else is untouched. *)
Record img_write_spec {S} `{ImageModel S} (s : S) (b : list Z) (off : Z)
    (n : Z) (err : option error) (s' : S) : Prop := {
  wt_inv : img_inv s';
  wt_size : img_Size s' = img_Size s;
  wt_len : 0 <= n <= zlen b;
  wt_outside : forall o, 0 <= o -> ~ (off <= o < off + zlen b) -> img_byte s' o = img_byte s o;
  wt_stored : forall o, 0 <= o -> off <= o < off + n -> img_byte s' o = zget b (o - off);
  wt_rest : forall o, 0 <= o -> off + n <= o < off + zlen b ->
    img_byte s' o = img_byte s o \/ img_byte s' o = zget b (o - off);
  wt_full : err = None -> n = zlen b;
  wt_accepts : img_accepts s off (zlen b) -> err = None
}.

Class ImageLaws (S : Type) `{ImageModel S} := {
  img_size_range : forall s, img_inv s -> 0 <= img_Size s <= maxInt64;
  img_read_law : forall s b off, img_inv s ->
    wp (img_ReadAt b off) s (fun '(b', n, err) s' => img_read_spec s b off b' n err s') (fun _ _ => False);
  img_write_law : forall s b off, img_inv s -> bytes_ok b ->
    wp (img_WriteAt b off) s (fun '(n, err) s' => img_write_spec s b off n err s') (fun _ _ => False);
  img_sync_law : forall s, img_inv s ->
    wp img_Sync s
      (fun _ s' => img_inv s' /\ img_Size s' = img_Size s /\ forall o, 0 <= o -> img_byte s' o = img_byte s o)
      (fun _ s' => img_inv s' /\ img_Size s' = img_Size s /\ forall o, 0 <= o -> img_byte s' o = img_byte s o)
}.

(** ** QCOW2 images *)

#[export] Instance qcow2_ops : ImageOps qcow2Image := {
  img_ReadAt := ReadAt; img_WriteAt := WriteAt; img_Sync := Sync; img_Size := Size
}.

(** The law for writes holds of every write, so the images are those whose
    allocations are always encodable, as with clusters of at most 256 KiB. *)
#[export] Instance qcow2_model : ImageModel qcow2Image := {
  img_inv q := Inv q /\ cap_ok q;
  img_byte := vbyte;
  img_quiet := ff;
  img_accepts q off n := ff q /\ writeFault q = None /\ 0 <= off /\ off + n <= q_size q /\
    (0 < n -> spare q (8 * clusters q off (off + n)))
}.

Lemma Size_size q : Inv q -> Size q = q_size q.
Proof.
  intros [W _]. pose proof (g_size q (wf_geo q W)). unfold Size, maxInt64 in *. apply i64_small. lia.
Qed.

Lemma wp_Sync q : Inv q -> wp Sync q (fun _ q' => sched q q') (fun _ q' => sched q q').
Proof.
  intros I. unfold wp, Sync, f_sync.
  assert (Hs : sched q (set_file (with_data (file q) (f_data (file q))) q)).
  { eexists. split; [reflexivity|]. apply fault_free_with. }
  destruct (next_fault (file q)), (writeFault q); exact Hs.
Qed.

#[export] Instance qcow2_laws : ImageLaws qcow2Image.
Proof.
  constructor; cbn.
  - intros q [I _]. rewrite Size_size by done. apply (g_size q), (wf_geo q (proj1 I)).
  - intros q b off [I Hcap]. eapply wp_mono; [by apply wp_ReadAt| |done].
    intros [[b' n] err] q' (I' & V & Hl & Hn & Hget & Hfull & Hq & Hbok).
    constructor; cbn; try done; try (rewrite !Size_size by done); [|apply V|apply V|done].
    split; [done|eapply cap_static; [apply V|done]].
  - intros q b off [I Hcap] Hb. eapply wp_mono; [apply wp_WriteAt; [done|done|by left]| |done].
    intros [n err] q' (Hneg & Hwr & I' & Hok). cbn [fst snd] in *.
    destruct (Z.lt_ge_cases off 0) as [Ho|Ho].
    + destruct (Hneg Ho) as (-> & St & Hz & V). pose proof (zlen_nonneg b).
      constructor; cbn; try done; try lia; rewrite ?Size_size by done; [split; [done|by eapply cap_static]|apply St| | |].
      * intros o Hp _. by apply V.
      * intros o Hp Hr. left. by apply V.
      * intros He. by rewrite Hz.
    + destruct (Hwr Ho) as [_ St Hn Hout Hst Hrest Hfl].
      constructor; cbn; try done; rewrite ?Size_size by done; [split; [done|by eapply cap_static]|apply St| | | | |].
      * intros o Hp Hr. apply Hout; lia.
      * intros o Hp Hr. apply Hst. lia.
      * intros o Hp Hr. by apply Hrest.
      * intros He. by apply Hfl.
      * intros (? & ? & ? & ? & ?). by apply Hok.
  - intros q [I Hcap].
    assert (H : forall q', sched q q' -> (Inv q' /\ cap_ok q') /\ Size q' = Size q /\ forall o, 0 <= o -> vbyte q' o = vbyte q o).
    { intros q' Hs. pose proof Hs as (fl & -> & _). split; [split; [|done]|by split].
      eapply loads_Inv; [done|]. by apply loads_sched; [apply I|]. }
    eapply wp_mono; [by apply wp_Sync| |]; intros ? q' Hs; by apply H.
Qed.

(** ** Raw images *)

Definition rawInv (r : rawImage) : Prop :=
  bytes_ok (f_data (r_file r)) /\ f_size (r_file r) = r_size r /\ r_size r <= maxInt64.

#[export] Instance raw_ops : ImageOps rawImage := {
  img_ReadAt b off := fun r => let '(b', n, err, r') := raw_ReadAt r b off in (Ok (b', n, err), r');
  img_WriteAt b off := fun r => let '(n, err, r') := raw_WriteAt r b off in (Ok (n, err), r');
  img_Sync := raw_Sync;
  img_Size := r_size
}.

#[export] Instance raw_model : ImageModel rawImage := {
  img_inv := rawInv;
  img_byte r o := zget (f_data (r_file r)) o;
  img_quiet r := fault_free (r_file r);
  img_accepts r off n := fault_free (r_file r) /\ 0 <= off /\ off + n <= r_size r
}.

Lemma raw_read_ok r b off : rawInv r ->
  let '(b', n, err, r') := raw_ReadAt r b off in img_read_spec r b off b' n err r'.
Proof.
  intros (Hb & Hs & Hm). unfold raw_ReadAt. destruct (f_readAt (r_file r) b off) as [[[b' n] err] f] eqn:E.
  pose proof (f_readAt_data _ _ _ _ _ _ _ E) as Hd. pose proof (f_readAt_length _ _ _ _ _ _ _ E) as Hl.
  assert (Hrest : fault_free (r_file r) -> fault_free f).
  { unfold f_readAt in E. destruct (off <? 0); [injection E as <- <- <- <-; apply fault_free_with|].
    destruct (next_fault (r_file r)); injection E as <- <- <- <-; apply fault_free_with. }
  assert (Hbytes : 0 <= n <= zlen b /\ (forall i, 0 <= i < n -> zget b' i = zget (f_data (r_file r)) (off + i)) /\
    (next_fault (r_file r) = None -> 0 <= off ->
     n = clamp (f_size (r_file r) - off) (zlen b) /\ err = if n <? zlen b then Some EEOF else None)).
  { unfold f_readAt in E. pose proof (zlen_nonneg b). destruct (off <? 0) eqn:?; zbool.
    { injection E as <- <- <- <-. splits; lia. }
    pose proof (clamp_range (f_size (r_file r) - off) (zlen b) ltac:(lia)) as Hc.
    assert (Hget : forall k, 0 <= k <= clamp (f_size (r_file r) - off) (zlen b) -> forall i, 0 <= i < k ->
      zget (zslice (f_data (r_file r)) off k ++ drop (Z.to_nat k) b) i = zget (f_data (r_file r)) (off + i)).
    { intros k Hk i Hi. unfold clamp, f_size in *. rewrite zget_app, zlen_slice by lia.
      destruct (i <? k) eqn:?; zbool; [|lia]. apply zget_slice; lia. }
    destruct (next_fault (r_file r)) as [k|] eqn:Hf; injection E as <- <- <- <-.
    - pose proof (clamp_range k _ (proj1 Hc)). splits; try lia; [|done]. intros i Hi. apply Hget; lia.
    - splits; try lia; [|done]. intros i Hi. apply Hget; lia. }
  destruct Hbytes as (Hn & Hget & Hfull).
  constructor; cbn; try done;
    [by unfold rawInv; cbn; unfold f_size in *; rewrite Hd|by rewrite Hd| |by apply (f_readAt_bytes _ _ _ _ _ _ _ E)].
  intros Hq Ho. destruct (Hfull (fault_free_next _ Hq) Ho) as [-> ->]. split; [|done]. unfold clamp. lia.
Qed.

Lemma raw_write_ok r b off : rawInv r -> bytes_ok b ->
  let '(n, err, r') := raw_WriteAt r b off in img_write_spec r b off n err r'.
Proof.
  intros (Hb & Hs & Hm) Hbb. unfold raw_WriteAt. pose proof (zlen_nonneg b).
  destruct (zlen b =? 0) eqn:Hz; zbool.
  { constructor; cbn; try done; lia. }
  destruct (_ || _) eqn:E; [|zbool].
  { constructor; cbn; try done; lia. }
  destruct (f_writeAt (r_file r) b off) as [[n err] f] eqn:Ew.
  destruct (f_writeAt_effect (r_file r) b off n err f ltac:(lia) Ew) as (m & Hm1 & Hget & Hsz & Herr & Hok & <-).
  constructor; cbn; try done.
  - unfold rawInv. cbn. splits; [by apply Hok| |done]. rewrite Hsz. destruct (n =? 0); lia.
  - intros o Ho Hr. rewrite Hget by lia. destruct (_ && _) eqn:E2; zbool; [lia|done].
  - intros o Ho Hr. rewrite Hget by lia. destruct (_ && _) eqn:E2; zbool; [done|lia].
  - intros o Ho Hr. left. rewrite Hget by lia. destruct (_ && _) eqn:E2; zbool; [lia|done].
  - intros He. by destruct (Herr He).
  - intros (Hq & _). rewrite f_writeAt_ok in Ew by (lia || by apply fault_free_next). by injection Ew as <- <- <-.
Qed.

#[export] Instance raw_laws : ImageLaws rawImage.
Proof.
  constructor; cbn.
  - intros r (_ & <- & Hm). split; [apply zlen_nonneg|lia].
  - intros r b off I. pose proof (raw_read_ok r b off I) as Hr. unfold wp.
    destruct (raw_ReadAt r b off) as [[[b' n] err] r']. exact Hr.
  - intros r b off I Hb. pose proof (raw_write_ok r b off I Hb) as Hr. unfold wp.
    destruct (raw_WriteAt r b off) as [[n err] r']. exact Hr.
  - intros r I. unfold wp, raw_Sync, f_sync. destruct (r_readOnly r); [done|].
    destruct (next_fault (r_file r)); done.
Qed.
