(* ===== verification/DiskSpec.v ===== *)
(** The properties of the disk component, each with a concrete instance on a
    small image that the model opens, writes and reads. *)

From S2P Require Import Prelude Bytes OsFile QcowHeader QcowHeaderOk QcowImage QcowLayout QcowInv QcowRead QcowFrame QcowRefcount QcowAlloc QcowPublish QcowWrite QcowOwners QcowOpen Disk.

(** ** A sample image: version 3, 512-byte clusters, 64 KiB of virtual disk *)

Definition sampleHeader : list Z :=
  qcow2Magic ++ be_bytes 4 3 ++ be_bytes 8 0 ++ be_bytes 4 0 ++ be_bytes 4 9 ++ be_bytes 8 65536 ++
  be_bytes 4 0 ++ be_bytes 4 2 ++ be_bytes 8 1536 ++ be_bytes 8 512 ++ be_bytes 4 1 ++ be_bytes 4 0 ++
  be_bytes 8 0 ++ be_bytes 8 0 ++ be_bytes 8 0 ++ be_bytes 8 0 ++ be_bytes 4 4 ++ be_bytes 4 104.

Definition sampleBytes : list Z :=
  zwrite (zwrite (zwrite (zeros 2048) 0 sampleHeader) 512 (be_bytes 8 1024)) 1024
    (be_bytes 2 1 ++ be_bytes 2 1 ++ be_bytes 2 1 ++ be_bytes 2 1).

Definition openOr (r : result qcow2Image) : qcow2Image :=
  match r with Ok q => q | _ => emptyImage (mkFile [] []) end.

Definition sample (faults : list (option Z)) : qcow2Image :=
  set_file (mkFile sampleBytes faults) (openOr (openQCOW2 (mkFile sampleBytes []))).

Definition sampleWritten : qcow2Image := snd (WriteAt [1; 2; 3; 4; 5] 510 (sample [])).

Lemma openQCOW2_image f q : openQCOW2 f = Ok q -> openImage (emptyImage f) = (Ok tt, q).
Proof. unfold openQCOW2. destruct (openImage _) as [[[]|e| |] q']; try done. by intros [= ->]. Qed.

Lemma openQCOW2_opened f q :
  bytes_ok (f_data f) -> f_size f <= maxInt64 -> openQCOW2 f = Ok q -> opened f q.
Proof.
  intros Hb Hm H%openQCOW2_image. pose proof (wp_openImage f Hb Hm) as Hw. unfold wp in Hw. by rewrite H in Hw.
Qed.

Lemma sample_bytes : bytes_ok sampleBytes.
Proof. apply bytes_okb_ok. vm_compute. reflexivity. Qed.

Lemma sample_opened : openQCOW2 (mkFile sampleBytes []) = Ok (openOr (openQCOW2 (mkFile sampleBytes []))).
Proof. vm_compute. reflexivity. Qed.

Lemma cap_ok_small q : geometry q -> clusterSize q <= 2 ^ 18 -> cap_ok q.
Proof.
  intros G Hc. destruct (geo_facts q G) as (Hcs & _ & _ & Hrb & _ & Hrb2).
  destruct (g_rtlen q G) as (Hl & Hm & _). unfold qcow2MaxRefcountTableBytes in Hm. unfold cap_ok.
  assert (zlen (refcountTable q) <= 2 ^ 20) by lia. assert (refcountBlockEntries q <= 2 ^ 17) by lia.
  assert (zlen (refcountTable q) * refcountBlockEntries q <= 2 ^ 20 * 2 ^ 17) by (apply Z.mul_le_mono_nonneg; lia).
  change (2 ^ 56) with (2 * (2 ^ 20 * 2 ^ 17 * 2 ^ 18)). nia.
Qed.

Lemma sample_good faults : Good (sample faults).
Proof.
  pose proof (openQCOW2_opened (mkFile sampleBytes []) _ sample_bytes ltac:(vm_compute; discriminate) sample_opened) as O.
  set (q := openOr _) in O.
  destruct (op_inv _ _ O) as [W Sy].
  assert (E : sample faults = resched faults q).
  { unfold sample, resched. fold q. by rewrite (op_data _ _ O). }
  rewrite E. split; [by apply wf_resched|split; [by apply synced_resched|]]. apply (op_fault _ _ O).
Qed.

(** ** Properties *)

(** C1: WriteAt refines a write of the virtual disk.  For every schedule of host
    I/O failures (failing and torn writes, failing truncates and stats) a write
    returns, the invariant is kept, the [n] bytes it reports are stored, the
    bytes after them in the written range are old or new, no byte outside the
    range changes, and a write without error is complete.  The clusters it may
    allocate must have offsets below 2^56: the file is small enough, or the
    refcount table, which with clusters of at most 256 KiB is always so. *)
Theorem WriteAt_refines q b off :
  Inv q -> bytes_ok b -> 0 <= off -> encodable q (8 * clusters q off (off + zlen b)) ->
  exists n err q', WriteAt b off q = (Ok (n, err), q') /\ Inv q' /\ (cap_ok q -> cap_ok q') /\ 0 <= n <= zlen b /\
    (forall o, off <= o < off + n -> vbyte q' o = zget b (o - off)) /\
    (forall o, off + n <= o < off + zlen b -> vbyte q' o = vbyte q o \/ vbyte q' o = zget b (o - off)) /\
    (forall o, 0 <= o -> ~ (off <= o < off + zlen b) -> vbyte q' o = vbyte q o) /\
    (err = None -> n = zlen b).
Proof.
  intros I Hb Ho Henc. destruct (wp_Ok _ _ _ (wp_WriteAt q b off I Hb (fun _ => Henc))) as ([n err] & q' & E & _ & Hw & _ & _).
  destruct (Hw Ho) as [I' St Hn Hout Hst Hrest Hf]. cbn [fst snd] in *. rewrite Z.add_0_r in *.
  exists n, err, q'. splits; try done; try lia; [by apply cap_static|]. intros He. by apply Hf.
Qed.

(** A write of five bytes whose third host call is torn after one byte. *)
Lemma WriteAt_refines_witness :
  exists n err q', WriteAt [1; 2; 3; 4; 5] 510 (sample [None; None; Some 1; None; None]) = (Ok (n, err), q') /\
    Inv q' /\ 0 <= n <= 5.
Proof.
  destruct (WriteAt_refines (sample [None; None; Some 1; None; None]) [1; 2; 3; 4; 5] 510)
    as (n & err & q' & E & I & _ & Hn & _).
  - apply Good_Inv, sample_good.
  - repeat constructor; discriminate.
  - discriminate.
  - right. vm_compute. discriminate.
  - exists n, err, q'. split; [exact E|]. split; [exact I|exact Hn].
Defined.

(** C2: ReadAt refines a read of the virtual disk.  It changes nothing the guest
    can see, the [n] bytes it reports are those of the disk, and when no host
    call fails it delivers every byte below the disk size, with io.EOF exactly
    when the request reaches past it. *)
Theorem ReadAt_refines q b off : Inv q -> 0 <= off ->
  exists b' n err q', ReadAt b off q = (Ok (b', n, err), q') /\ Inv q' /\ (cap_ok q -> cap_ok q') /\ same_view q q' /\
    zlen b' = zlen b /\ 0 <= n <= zlen b /\
    (forall i, 0 <= i < n -> zget b' i = vbyte q (off + i)) /\
    (ff q -> n = Z.max 0 (Z.min (zlen b) (q_size q - off)) /\
             err = if n <? zlen b then Some EEOF else None).
Proof.
  intros I Ho. destruct (wp_Ok _ _ _ (wp_ReadAt q b off I)) as ([[b' n] err] & q' & E & H).
  destruct H as (I' & V & Hl & Hn & Hget & Hf & _). exists b', n, err, q'. splits; try done; try lia; [apply cap_static, V|]. intros Hq. by apply Hf.
Qed.

Lemma ReadAt_refines_witness :
  exists b' n err q', ReadAt (zeros 8) 65532 (sample []) = (Ok (b', n, err), q') /\ n = 4 /\ err = Some EEOF.
Proof.
  destruct (ReadAt_refines (sample []) (zeros 8) 65532) as (b' & n & err & q' & E & _ & _ & _ & _ & _ & _ & Hf).
  - apply Good_Inv, sample_good.
  - discriminate.
  - exists b', n, err, q'. split; [exact E|]. destruct (Hf (List.Forall_nil _)) as [Hn He].
    split; [rewrite Hn; vm_compute; reflexivity|]. rewrite He, Hn. vm_compute. reflexivity.
Defined.

(** C3: an image that openQCOW2 accepts, of any cluster size, satisfies the
    invariant: geometry without overflow, valid entries, every structure inside
    the file, no host cluster with two owners, refcount one for every cluster in
    use, caches in agreement with the file.  With clusters of at most 256 KiB
    all its allocations are encodable. *)
Theorem openQCOW2_establishes_inv f q :
  bytes_ok (f_data f) -> f_size f <= maxInt64 -> openQCOW2 f = Ok q ->
  Inv q /\ writeFault q = None /\ f_data (file q) = f_data f /\ (clusterSize q <= 2 ^ 18 -> cap_ok q).
Proof.
  intros Hb Hm H. pose proof (openQCOW2_opened f q Hb Hm H) as O.
  destruct (op_inv _ _ O) as [W Sy]. splits; [done|apply O|apply (op_data _ _ O)|by apply cap_ok_small, O].
Qed.

Lemma openQCOW2_establishes_inv_witness : Inv (openOr (openQCOW2 (mkFile sampleBytes []))).
Proof.
  apply (openQCOW2_establishes_inv (mkFile sampleBytes [])).
  - exact sample_bytes.
  - vm_compute. discriminate.
  - exact sample_opened.
Defined.

(** C4: opening terminates without a panic on every file: whatever bytes the
    file holds and whatever host calls fail, openQCOW2 returns an image or an
    error. *)
Theorem openQCOW2_returns f : bytes_ok (f_data f) -> f_size f <= maxInt64 -> returns (openQCOW2 f).
Proof.
  intros Hb Hm. pose proof (wp_run _ _ _ _ (wp_openImage f Hb Hm)) as Hr.
  unfold openQCOW2. by destruct (openImage (emptyImage f)) as [[] ?].
Qed.

Lemma openQCOW2_returns_witness : returns (openQCOW2 (mkFile (zwrite sampleBytes 300 [255; 255]) [None; Some 3])).
Proof.
  apply openQCOW2_returns.
  - apply bytes_okb_ok. vm_compute. reflexivity.
  - vm_compute. discriminate.
Defined.

(** C5: durability.  As long as no metadata recovery failed, a later open of the
    file shows the same virtual disk: every write that was acknowledged is in
    the file, whatever was cached. *)
Theorem reopen_same_disk q faults q' :
  Inv q -> writeFault q = None -> openQCOW2 (mkFile (f_data (file q)) faults) = Ok q' ->
  q_size q' = q_size q /\ forall o, 0 <= o -> vbyte q' o = vbyte q o.
Proof.
  intros [W Sy] Hf H. assert (G : Good q) by (split; [done|split; [by apply Sy|done]]).
  pose proof (openQCOW2_opened _ q' (wf_bytes q W : bytes_ok (f_data (mkFile (f_data (file q)) faults))) (wf_flen q W) H) as O.
  destruct (opened_view q (mkFile (f_data (file q)) faults) q' G eq_refl O) as [St V]. split; [apply St|done].
Qed.

Lemma sampleWritten_good : Inv sampleWritten /\ writeFault sampleWritten = None.
Proof.
  assert (Hb : bytes_ok [1; 2; 3; 4; 5]) by (by apply bytes_okb_ok).
  assert (Henc : encodable (sample []) (8 * clusters (sample []) 510 515)) by (right; vm_compute; discriminate).
  destruct (wp_Ok _ _ _ (wp_WriteAt (sample []) [1; 2; 3; 4; 5] 510 (Good_Inv _ (sample_good [])) Hb (fun _ => Henc)))
    as (r & q' & E & _ & _ & I & _).
  assert (Eq : sampleWritten = q') by (unfold sampleWritten; by rewrite E).
  split; [by rewrite Eq|vm_compute; reflexivity].
Qed.

Lemma reopen_same_disk_witness :
  vbyte (openOr (openQCOW2 (mkFile (f_data (file sampleWritten)) []))) 512 = 3.
Proof.
  destruct (reopen_same_disk sampleWritten [] (openOr (openQCOW2 (mkFile (f_data (file sampleWritten)) [])))) as [_ V].
  - apply sampleWritten_good.
  - apply sampleWritten_good.
  - vm_compute. reflexivity.
  - rewrite V by discriminate. vm_compute. reflexivity.
Defined.

(** A write without error followed by a read of the same range returns the
    written bytes, all of them, when the read meets no host failure. *)
Theorem write_read_roundtrip q b off n q1 :
  Inv q -> bytes_ok b -> 0 <= off -> off + zlen b <= q_size q -> encodable q (8 * clusters q off (off + zlen b)) ->
  WriteAt b off q = (Ok (n, None), q1) -> ff q1 ->
  exists q2, ReadAt (zeros (zlen b)) off q1 = (Ok (b, zlen b, None), q2).
Proof.
  intros I Hb Ho Hs Henc E Hff. destruct (wp_Ok _ _ _ (wp_WriteAt q b off I Hb (fun _ => Henc))) as (r & q' & E' & _ & Hw & I1 & _).
  rewrite E in E'. injection E' as <- <-. destruct (Hw Ho) as [_ St Hn Hout Hst Hrest Hf]. cbn [fst snd] in *.
  destruct (Hf eq_refl) as [-> _]. pose proof (zlen_nonneg b) as Hl.
  destruct (wp_Ok _ _ _ (wp_ReadAt q1 (zeros (zlen b)) off I1)) as ([[b' n'] err] & q2 & E2 & H).
  destruct H as (_ & _ & Hl' & _ & Hget & Hfull & _). destruct (Hfull Hff Ho) as [Hn' He].
  rewrite zlen_zeros, (st_size _ _ St) in *. assert (Hnb : n' = zlen b) by lia.
  assert (Hnone : err = None) by (rewrite He; destruct (_ <? _) eqn:?; zbool; [lia|done]).
  exists q2. rewrite E2, Hnb, Hnone. assert (b' = b) as ->; [|done]. apply zlist_eq; [lia|].
  intros i Hi. rewrite Hget, Hst by lia. f_equal. lia.
Qed.

Lemma write_read_roundtrip_witness :
  exists q2, ReadAt (zeros 5) 510 sampleWritten = (Ok ([1; 2; 3; 4; 5], 5, None), q2).
Proof.
  apply (write_read_roundtrip (sample []) [1; 2; 3; 4; 5] 510 5 sampleWritten).
  - apply Good_Inv, sample_good.
  - by apply bytes_okb_ok.
  - discriminate.
  - vm_compute. discriminate.
  - right. vm_compute. discriminate.
  - vm_compute. reflexivity.
  - vm_compute. apply List.Forall_nil.
Defined.

(** C6: liveness of writes.  When no host call fails, no recovery failed before,
    the range lies inside the disk and the host image has room for eight
    clusters per guest cluster touched (a table, its data and the refcount
    blocks they may need) with offsets below 2^56, the write succeeds completely. *)
Theorem WriteAt_succeeds q b off :
  Inv q -> bytes_ok b -> ff q -> writeFault q = None -> 0 <= off -> off + zlen b <= q_size q ->
  spare q (8 * clusters q off (off + zlen b)) -> encodable q (8 * clusters q off (off + zlen b)) ->
  exists q', WriteAt b off q = (Ok (zlen b, None), q') /\
    forall i, 0 <= i < zlen b -> vbyte q' (off + i) = zget b i.
Proof.
  intros I Hb Hff Hf Ho Hs Hsp Henc. destruct (wp_Ok _ _ _ (wp_WriteAt q b off I Hb (fun _ => Henc))) as ([n err] & q' & E & _ & Hw & _ & Hok).
  cbn [fst snd] in *. specialize (Hok Hff Hf Ho Hs (fun _ => Hsp)). subst err.
  destruct (Hw Ho) as [_ _ Hn _ Hst _ Hfl]. destruct (Hfl eq_refl) as [-> _].
  exists q'. split; [done|]. intros i Hi. rewrite Hst by lia. f_equal. lia.
Qed.

Lemma WriteAt_succeeds_witness :
  exists q', WriteAt [7; 8] 511 (sample []) = (Ok (2, None), q') /\
    forall i, 0 <= i < 2 -> vbyte q' (511 + i) = zget [7; 8] i.
Proof.
  apply (WriteAt_succeeds (sample []) [7; 8] 511).
  - apply Good_Inv, sample_good.
  - by apply bytes_okb_ok.
  - apply List.Forall_nil.
  - vm_compute. reflexivity.
  - discriminate.
  - vm_compute. discriminate.
  - split; vm_compute; discriminate.
  - right. vm_compute. discriminate.
Defined.

(** What allocateCluster returns is new: aligned, at the end of the file,
    zero-filled, with refcount one and used by no structure of the image; no
    mapping and no mapped byte changes, and on failure the invariant holds with
    the disk as it was. *)
Theorem allocateCluster_fresh q : Good q -> encodable q 4 ->
  match allocateCluster q with
  | (Ok off, q') => Good q' /\ keeps q q' /\ off mod clusterSize q = 0 /\
      off + clusterSize q = flen q' /\ drc q' (off / clusterSize q) = 1 /\
      (forall w, ~ owns q' w (off / clusterSize q)) /\
      (forall i, off <= i < off + clusterSize q -> zget (f_data (file q')) i = 0)
  | (Err _, q') => Inv q' /\ keeps q q'
  | (Panic, _) | (OutOfFuel, _) => False
  end.
Proof.
  intros G Henc. pose proof (wp_allocateCluster q G Henc) as H. unfold wp in H.
  destruct (allocateCluster q) as [[off|e| |] q']; try done; [|destruct H as [[K I] _]; by split].
  destruct H as (E & F & _). pose proof (ex_good _ _ E) as G'.
  destruct (fresh_range q' off (proj1 G') F) as (_ & _ & Hfree).
  pose proof (st_cs _ _ (k_static _ _ (ex_keeps _ _ E))) as Ecs. destruct F. rewrite Ecs in *.
  splits; try done. apply E.
Qed.

Lemma allocateCluster_fresh_witness :
  match allocateCluster (sample []) with
  | (Ok off, q') => off = 2048 /\ drc q' 4 = 1
  | _ => False
  end.
Proof.
  assert (Henc : encodable (sample []) 4) by (right; vm_compute; discriminate).
  pose proof (allocateCluster_fresh (sample []) (sample_good []) Henc) as H.
  assert (E : fst (allocateCluster (sample [])) = Ok 2048) by (vm_compute; reflexivity).
  destruct (allocateCluster (sample [])) as [r q']. cbn [fst] in E. rewrite E in H |- *.
  destruct H as (_ & _ & _ & _ & Hrc & _). split; [reflexivity|].
  assert (Ec : 2048 / clusterSize (sample []) = 4) by (vm_compute; reflexivity). rewrite Ec in Hrc. exact Hrc.
Defined.

(** The ownership bitmap is exact.  A claim that succeeds found every cluster
    of its range free, and afterwards the claimed clusters are the old ones and
    those of the range; a claim always ends. *)
Theorem claim_exclusive owners offset length cs kind :
  pages_ok owners -> 512 <= cs <= 2 ^ 21 -> 0 <= offset -> 0 < length -> offset + length <= maxInt64 ->
  offset mod cs = 0 ->
  match claim owners offset length cs kind with
  | Ok owners' =>
      (forall c, offset / cs <= c < (offset + length + cs - 1) / cs -> claimed owners c = false) /\
      (forall c, 0 <= c -> claimed owners' c =
         claimed owners c || ((offset / cs <=? c) && (c <? (offset + length + cs - 1) / cs)))
  | Err _ => True
  | Panic | OutOfFuel => False
  end.
Proof.
  intros Hp Hcs Ho Hl Hm Ha. pose proof (claim_spec owners offset length cs kind Hp Hcs Ho Hl Hm Ha) as H.
  unfold claim_post in H. destruct (claim _ _ _ _ _); try done. by destruct H as (_ & ? & ?).
Qed.

Lemma claim_exclusive_witness :
  match claim ∅ 1024 1024 512 "data cluster" with
  | Ok owners' => claimed owners' 2 = true /\ claimed owners' 3 = true /\ claimed owners' 4 = false
  | _ => False
  end.
Proof.
  pose proof (claim_exclusive ∅ 1024 1024 512 "data cluster" pages_ok_empty) as H.
  destruct H as [_ H]; [split; discriminate|discriminate|reflexivity|discriminate|reflexivity|].
  split; [rewrite (H 2) by discriminate; reflexivity|].
  split; [rewrite (H 3) by discriminate; reflexivity|].
  rewrite (H 4) by discriminate. reflexivity.
Defined.

(** A header that validateHeader accepts has a usable geometry: cluster sizes
    from 512 bytes to 2 MiB, tables within their limits and below 2^63, both
    aligned, and an L1 table that covers the whole virtual disk; none of the
    checks wraps around. *)
Theorem validateHeader_sound h : header_ranges h -> validateHeader h = None ->
  9 <= h_clusterBits h <= 21 /\ clusterSizeOf h = 2 ^ h_clusterBits h /\
  h_l1TableOffset h mod clusterSizeOf h = 0 /\ h_refcountTableOffset h mod clusterSizeOf h = 0 /\
  h_l1TableOffset h + h_l1Size h * 8 <= maxInt64 /\
  h_refcountTableOffset h + h_refcountTableClusters h * clusterSizeOf h <= maxInt64 /\
  h_size h <= h_l1Size h * (clusterSizeOf h / 8 * clusterSizeOf h) /\ h_size h <= maxInt64.
Proof.
  intros Hr Hv. destruct (validateHeader_geometry h Hr Hv) as [? ? ? ? ? (? & ? & ?) (? & ? & ?) ?].
  by splits; try done; lia.
Qed.

Lemma validateHeader_sound_witness : clusterSizeOf (headerOf sampleBytes) = 512.
Proof.
  destruct (validateHeader_sound (headerOf sampleBytes)) as (_ & H & _).
  - apply headerOf_ranges, sample_bytes.
  - vm_compute. reflexivity.
  - rewrite H. vm_compute. reflexivity.
Defined.
