(* ===== verification/GuestMem.v ===== *)
(** Guest-physical memory shared by the device models
    (src/internal/guestmem/memory.go).

    Guest RAM is one byte slice indexed by guest-physical address.  The guest
    runs concurrently with the device models and may store to its memory
    between any two accesses of a device: such interference is a list of
    stores, applied where a model yields to the guest. *)

From S2P Require Import Prelude Bytes.

Definition MMIOStart : Z := 0xd0000000.
Definition HighRAMStart : Z := 2 ^ 32.

(** [ValidRange(mem, addr, size)]. *)
Definition ValidRange (mem : list Z) (addr size : Z) : bool :=
  if (zlen mem <? addr) || (zlen mem - addr <? size) then false
  else (HighRAMStart <=? addr) || ((addr <=? MMIOStart) && (size <=? MMIOStart - addr)).

(** One address of RAM: not beyond the slice and not in the device hole. *)
Definition is_ram (mem : list Z) (a : Z) : Prop :=
  0 <= a < zlen mem /\ (a < MMIOStart \/ HighRAMStart <= a).

(** Stores of the guest: bytes outside the slice do not reach the memory. *)
Definition guestStores : Type := list (Z * Z).

Definition guestStore (mem : list Z) (st : Z * Z) : list Z :=
  if (0 <=? fst st) && (fst st <? zlen mem) then zinsert (fst st) (u8 (snd st)) mem else mem.

Definition runGuest (mem : list Z) (st : guestStores) : list Z := fold_left guestStore st mem.

(** Little-endian stores to memory. *)
Definition put_le (mem : list Z) (a : Z) (n : nat) (v : Z) : list Z := zwrite mem a (le_bytes n v).

(** ** Lemmas *)

Lemma ValidRange_spec mem addr size :
  0 <= addr -> 0 <= size ->
  ValidRange mem addr size = true ->
  addr + size <= zlen mem /\ forall a, addr <= a < addr + size -> is_ram mem a.
Proof.
  unfold ValidRange, is_ram. intros Ha Hs.
  destruct ((zlen mem <? addr) || (zlen mem - addr <? size)) eqn:E; [done|]. zbool.
  intros Hv. apply orb_true_iff in Hv. split; [lia|]. intros a Hr. split; [lia|].
  destruct Hv as [Hv|Hv]; zbool; lia.
Qed.

Lemma ValidRange_len mem mem' addr size :
  zlen mem' = zlen mem -> ValidRange mem' addr size = ValidRange mem addr size.
Proof. unfold ValidRange. by intros ->. Qed.

Lemma ValidRange_sub mem addr size a n :
  0 <= addr -> 0 <= n -> addr <= a -> a + n <= addr + size ->
  ValidRange mem addr size = true -> ValidRange mem a n = true.
Proof.
  unfold ValidRange. intros Ha Hn Hl Hr.
  destruct ((zlen mem <? addr) || (zlen mem - addr <? size)) eqn:E; [done|]. zbool.
  replace ((zlen mem <? a) || (zlen mem - a <? n)) with false by (symmetry; apply orb_false_iff; lia).
  rewrite !orb_true_iff. intros [Hv|Hv]; zbool; [left|right]; lia.
Qed.

Lemma zlen_guestStore mem st : zlen (guestStore mem st) = zlen mem.
Proof. unfold guestStore. destruct (_ && _); [apply zlen_insert|done]. Qed.

Lemma zlen_runGuest mem st : zlen (runGuest mem st) = zlen mem.
Proof.
  revert mem. induction st as [|x st IH]; intros mem; [done|]. cbn.
  unfold runGuest in IH. by rewrite IH, zlen_guestStore.
Qed.

Lemma bytes_ok_runGuest mem st : bytes_ok mem -> bytes_ok (runGuest mem st).
Proof.
  revert mem. induction st as [|x st IH]; intros mem Hm; [done|]. cbn.
  apply IH. unfold guestStore. destruct (_ && _); [|done].
  apply bytes_ok_insert; [done|]. apply u8_range.
Qed.

Lemma zlen_put_le mem a n v :
  0 <= a -> a + Z.of_nat n <= zlen mem -> zlen (put_le mem a n v) = zlen mem.
Proof.
  intros. unfold put_le. rewrite zlen_write, zlen_le_bytes by lia. destruct (_ =? 0); lia.
Qed.

Lemma bytes_ok_put_le mem a n v : bytes_ok mem -> bytes_ok (put_le mem a n v).
Proof. intros. apply bytes_ok_write; [done|apply le_bytes_ok]. Qed.

(** A store leaves every byte outside of it alone. *)
Lemma zget_put_le_out mem a n v i :
  0 <= a -> 0 <= i -> ~ (a <= i < a + Z.of_nat n) -> zget (put_le mem a n v) i = zget mem i.
Proof.
  intros. unfold put_le. rewrite zget_write, zlen_le_bytes by lia.
  destruct (_ && _) eqn:E; zbool; [lia|done].
Qed.

(** Reading back a little-endian store. *)
Lemma zslice_put_le mem a n v :
  0 <= a -> a + Z.of_nat n <= zlen mem ->
  le_val (zslice (put_le mem a n v) a (Z.of_nat n)) = v mod 256 ^ Z.of_nat n.
Proof.
  intros. unfold put_le. rewrite <- le_val_bytes.
  rewrite <- (zlen_le_bytes n v) at 1. by rewrite zslice_write.
Qed.

(** The slice does not see a store beside it. *)
Lemma zslice_put_le_out mem a n v o k :
  0 <= a -> a + Z.of_nat n <= zlen mem -> 0 <= o -> 0 <= k -> o + k <= zlen mem ->
  o + k <= a \/ a + Z.of_nat n <= o ->
  zslice (put_le mem a n v) o k = zslice mem o k.
Proof.
  intros. apply zslice_agree; try rewrite zlen_put_le by lia; try lia.
  intros i Hi. apply zget_put_le_out; lia.
Qed.

#[export] Hint Rewrite zlen_runGuest zlen_guestStore : golen.
#[export] Hint Resolve bytes_ok_runGuest bytes_ok_put_le : go.
