(* ===== verification/VirtioModern.v ===== *)
(** The modern (virtio 1.0) PCI transport
    (src/internal/virtio/modern.go, common.go).

    [ModernTransport] is the register file a driver programs through the memory
    BAR; the device behind it is an instance of [ModernDevice].  A queue the
    driver enables is handed to the device as a [SplitQueue] of guest-physical
    addresses, which stand for the pointers into guest memory. *)

From S2P Require Import Prelude Bytes GuestMem.

Definition QueueSize : Z := 32.

Definition featureVersion1 : Z := 2 ^ 32.

Definition commonCfgOffset : Z := 0x0000.
Definition commonCfgLen : Z := 0x38.
Definition isrCfgOffset : Z := 0x1000.
Definition isrCfgLen : Z := 0x04.
Definition deviceCfgOffset : Z := 0x2000.
Definition notifyCfgOffset : Z := 0x3000.
Definition notifyCfgLen : Z := 0x0100.
Definition modernBARSize : Z := 0x4000.

Definition capVendor : Z := 0x09.
Definition cfgTypeCommon : Z := 0x1.
Definition cfgTypeNotify : Z := 0x2.
Definition cfgTypeISR : Z := 0x3.
Definition cfgTypeDevice : Z := 0x4.

Definition capCommonAt : Z := 0x40.
Definition capNotifyAt : Z := 0x50.
Definition capISRAt : Z := 0x64.
Definition capDeviceAt : Z := 0x74.

Definition descFNext : Z := 0x1.
Definition descFWrite : Z := 0x2.

(** ** The virtqueue as laid out in guest memory

    [unsafe.Sizeof] of the three areas, and the offsets of their fields. *)

Record SplitDesc : Type := mkDesc { d_Addr : Z; d_Len : Z; d_Flags : Z; d_Next : Z }.
Record SplitUsedElem : Type := mkUsedElem { ue_ID : Z; ue_Len : Z }.

Definition sizeofDescTable : Z := 16 * QueueSize.
Definition sizeofSplitAvail : Z := 4 + 2 * QueueSize + 2.
Definition sizeofSplitUsed : Z := 264.

(** The addresses stand for the pointers [Desc], [Avail] and [Used]. *)
Record SplitQueue : Type := mkSplitQueue { sq_Desc : Z; sq_Avail : Z; sq_Used : Z; sq_Size : Z }.

Definition decodeDesc (b : list Z) : SplitDesc :=
  mkDesc (le_uint64 b 0) (le_uint32 b 8) (le_uint16 b 12) (le_uint16 b 14).
Definition encodeUsedElem (e : SplitUsedElem) : list Z := le_bytes 4 (ue_ID e) ++ le_bytes 4 (ue_Len e).

(** ** The interrupt line

    The callbacks [setIRQLevel] and [inject] belong to the machine.  The level
    they drive and the injections are recorded, and a schedule says which calls
    report an error. *)

Record irqLine : Type := mkIrqLine {
  irq_level : bool;
  irq_injected : Z;
  irq_faults : list bool
}.
#[export] Instance irqLine_eta : Settable irqLine := fun r =>
  mkIrqLine (irq_level r) (irq_injected r) (irq_faults r).

Definition irq_next (l : irqLine) : bool :=
  match irq_faults l with b :: _ => b | [] => false end.
Definition irq_used (l : irqLine) : irqLine := l <| irq_faults := tail (irq_faults l) |>.

(** ** State *)

Record queueState : Type := mkQueueState {
  vq_size : Z;
  vq_msixVector : Z;
  vq_enable : Z;
  vq_desc : Z;
  vq_driver : Z;
  vq_device : Z
}.
#[export] Instance queueState_eta : Settable queueState := fun r =>
  mkQueueState (vq_size r) (vq_msixVector r) (vq_enable r) (vq_desc r) (vq_driver r)
    (vq_device r).

(** [setIRQLevel] says whether the level callback is installed, [irqWake]
    whether the one-element channel of that name is full, and [guest] is what
    the guest stores between the accesses of the device to its memory. *)
Record ModernTransport : Type := mkModernTransport {
  setIRQLevel : bool;
  irqError : option error;
  irqWake : bool;
  irq : irqLine;
  Mem : list Z;
  guest : list guestStores;
  features : Z;
  configLen : Z;
  deviceFeatureSel : Z;
  driverFeatureSel : Z;
  driverFeature : list Z;
  deviceStatus : Z;
  configGen : Z;
  msixConfig : Z;
  queueSel : Z;
  queues : list queueState;
  isr : Z
}.
#[export] Instance modernTransport_eta : Settable ModernTransport := fun r =>
  mkModernTransport (setIRQLevel r) (irqError r) (irqWake r) (irq r) (Mem r) (guest r) (features r)
    (configLen r) (deviceFeatureSel r) (driverFeatureSel r) (driverFeature r) (deviceStatus r)
    (configGen r) (msixConfig r) (queueSel r) (queues r) (isr r).

(** The device behind the transport. *)
Class ModernDevice (D : Type) := {
  DeviceFeatures : D -> Z;
  NumQueues : D -> Z;
  DeviceConfigLen : D -> Z;
  ReadDeviceConfig : D -> Z -> list Z -> list Z;
  WriteDeviceConfig : Z -> list Z -> D -> D;
  QueueReady : Z -> SplitQueue -> D -> D;
  Notify : Z -> D -> D;
  Reset : option (D -> D)
}.

Definition freshQueue : queueState := mkQueueState QueueSize 0 0 0 0 0.

(** [NewModernTransport]; the line is the one the machine wires up. *)
Definition NewModernTransport {D} `{ModernDevice D} (dev : D) (mem : list Z)
    (guest : list guestStores) (line : irqLine) : ModernTransport :=
  mkModernTransport false None false line mem guest (DeviceFeatures dev ||| featureVersion1)
    (DeviceConfigLen dev) 0 0 [0; 0] 0 0 0 0
    (replicate (Z.to_nat (NumQueues dev)) freshQueue) 0.

(** ** Access to guest memory

    The guest may store to its memory before every access.  An access outside
    guest RAM is a fault of the host process. *)

Definition yieldGuest : M ModernTransport unit := gupd (fun t =>
  match guest t with
  | [] => t
  | st :: rest => t <| Mem := runGuest (Mem t) st |> <| guest := rest |>
  end).

Definition memLoad (a n : Z) : M ModernTransport (list Z) :=
  do! yieldGuest in
  let! t := gget in
  if ValidRange (Mem t) a n then ret (zslice (Mem t) a n) else panic.

Definition memPut (a : Z) (b : list Z) : M ModernTransport unit :=
  let! t := gget in
  if ValidRange (Mem t) a (zlen b) then gupd (fun t => t <| Mem := zwrite (Mem t) a b |>) else panic.

Definition memStore (a : Z) (b : list Z) : M ModernTransport unit :=
  do! yieldGuest in memPut a b.

(** The fields of the queue, through the pointers of [SplitQueue]. *)
Definition loadDesc (q : SplitQueue) (i : Z) : M ModernTransport SplitDesc :=
  let! b := memLoad (sq_Desc q + 16 * i) 16 in ret (decodeDesc b).
Definition loadAvailIdx (q : SplitQueue) : M ModernTransport Z :=
  let! b := memLoad (sq_Avail q + 2) 2 in ret (le_uint16 b 0).
Definition loadAvailRing (q : SplitQueue) (i : Z) : M ModernTransport Z :=
  let! b := memLoad (sq_Avail q + 4 + 2 * i) 2 in ret (le_uint16 b 0).
Definition loadUsedIdx (q : SplitQueue) : M ModernTransport Z :=
  let! b := memLoad (sq_Used q + 2) 2 in ret (le_uint16 b 0).
Definition storeUsedRing (q : SplitQueue) (i : Z) (e : SplitUsedElem) : M ModernTransport unit :=
  memStore (sq_Used q + 4 + 8 * i) (encodeUsedElem e).

(** [StoreAddU16(&q.Used.Idx, delta)]. *)
Definition addUsedIdx (q : SplitQueue) (delta : Z) : M ModernTransport unit :=
  let! v := loadUsedIdx q in memStore (sq_Used q + 2) (le_bytes 2 (u16 (v + delta))).

(** ** Features *)

Definition negotiatedFeatures (t : ModernTransport) : Z :=
  if deviceStatus t &&& 0x08 =? 0 then 0
  else (Z.shiftl (zget (driverFeature t) 1) 32 ||| zget (driverFeature t) 0) &&& features t.

Definition deviceFeature (t : ModernTransport) (sel : Z) : Z :=
  if sel =? 0 then u32 (features t)
  else if sel =? 1 then u32 (Z.shiftr (features t) 32)
  else 0.

(** ** Interrupts *)

(** The callbacks: [setIRQLevel(level)] and [inject()]. *)
Definition callSetLevel (level : bool) : M ModernTransport unit := fun t =>
  if irq_next (irq t) then (Err EIO, t <| irq := irq_used (irq t) |>)
  else (Ok tt, t <| irq := irq_used (irq t) <| irq_level := level |> |>).

Definition callInject : M ModernTransport unit := fun t =>
  if irq_next (irq t) then (Err EIO, t <| irq := irq_used (irq t) |>)
  else (Ok tt, t <| irq := irq_used (irq t) <| irq_injected := irq_injected (irq t) + 1 |> |>).

Definition SetIRQLine (t : ModernTransport) : ModernTransport := t <| setIRQLevel := true |>.

Definition raiseIRQ : M ModernTransport unit :=
  let! t := gget in
  match irqError t with
  | Some e => throw e
  | None => if setIRQLevel t then callSetLevel true else callInject
  end.

Definition setPendingInterrupt (bits : Z) (t : ModernTransport) : ModernTransport :=
  let t' := t <| isr := isr t ||| bits |> in
  if isr t =? 0 then t' <| irqWake := true |> else t'.

Definition Interrupt : M ModernTransport unit :=
  do! gupd (setPendingInterrupt 0x1) in raiseIRQ.

Definition ConfigChanged : M ModernTransport unit :=
  do! gupd (fun t => t <| configGen := u32 (configGen t + 1) |>) in
  do! gupd (setPendingInterrupt 0x2) in raiseIRQ.

Definition interruptPending (t : ModernTransport) : bool := negb (isr t =? 0).

Definition ReinjectIfPending : M ModernTransport unit :=
  let! t := gget in
  if interruptPending t then raiseIRQ
  else match irqError t with Some e => throw e | None => ret tt end.

Definition clearInterrupt : M ModernTransport Z :=
  let! t := gget in
  let status := u8 (isr t) in
  do! gupd (fun t => t <| isr := 0 |>) in
  do! (if setIRQLevel t then
         let! r := gtry (callSetLevel false) in
         match r with
         | inr e => gupd (fun t => t <| irqError := Some e |>)
         | inl _ => ret tt
         end
       else ret tt) in
  ret status.

(** ** Capabilities *)

Definition virtioCap (capLen cfgType next offset length : Z) : list Z :=
  let b := zeros capLen in
  let b := zinsert 0 capVendor b in
  let b := zinsert 1 next b in
  let b := zinsert 2 capLen b in
  let b := zinsert 3 cfgType b in
  let b := zinsert 4 0 b in
  let b := put_le b 8 4 offset in
  put_le b 12 4 length.

Definition Capabilities (t : ModernTransport) : list Z :=
  virtioCap 16 cfgTypeCommon capNotifyAt commonCfgOffset commonCfgLen ++
  virtioCap 20 cfgTypeNotify capISRAt notifyCfgOffset notifyCfgLen ++
  virtioCap 16 cfgTypeISR capDeviceAt isrCfgOffset isrCfgLen ++
  virtioCap 16 cfgTypeDevice 0x00 deviceCfgOffset (u32 (configLen t)).

(** ** The common configuration structure *)

Definition curQueue (t : ModernTransport) : option queueState :=
  if zlen (queues t) <=? queueSel t then None else zlookup (queues t) (queueSel t).

Definition commonImage (t : ModernTransport) : list Z :=
  let b := zeros commonCfgLen in
  let b := put_le b 0 4 (deviceFeatureSel t) in
  let b := put_le b 4 4 (deviceFeature t (deviceFeatureSel t)) in
  let b := put_le b 8 4 (driverFeatureSel t) in
  let b := put_le b 12 4 (zget (driverFeature t) (driverFeatureSel t &&& 0x1)) in
  let b := put_le b 16 2 (msixConfig t) in
  let b := put_le b 18 2 (u16 (zlen (queues t))) in
  let b := zinsert 20 (deviceStatus t) b in
  let b := zinsert 21 (u8 (configGen t)) b in
  let b := put_le b 22 2 (queueSel t) in
  match curQueue t with
  | None => b
  | Some q =>
      let b := put_le b 24 2 (vq_size q) in
      let b := put_le b 26 2 (vq_msixVector q) in
      let b := put_le b 28 2 (vq_enable q) in
      let b := put_le b 30 2 0 in
      let b := put_le b 32 8 (vq_desc q) in
      let b := put_le b 40 8 (vq_driver q) in
      put_le b 48 8 (vq_device q)
  end.

Definition setLoHi (p half v : Z) : Z :=
  if half =? 0 then (p &^ 0xffffffff) ||| v
  else (p &&& 0xffffffff) ||| u64 (Z.shiftl v 32).

Definition writeQueueAddr (q : queueState) (which half v : Z) : queueState :=
  if which =? 0 then q <| vq_desc := setLoHi (vq_desc q) half v |>
  else if which =? 1 then q <| vq_driver := setLoHi (vq_driver q) half v |>
  else if which =? 2 then q <| vq_device := setLoHi (vq_device q) half v |>
  else q.

(** Assignment through the pointer [curQueue] returns. *)
Definition onCurQueue (f : queueState -> queueState) (t : ModernTransport) : ModernTransport :=
  match curQueue t with
  | None => t
  | Some q => t <| queues := zinsert (queueSel t) (f q) (queues t) |>
  end.

Definition validArea (mem : list Z) (addr size align : Z) : bool :=
  (addr mod align =? 0) && ValidRange mem addr size.

(** [mapQueue]: the queue to publish, or the queue disabled again. *)
Definition mapQueue (mem : list Z) (q : queueState) : option SplitQueue * queueState :=
  if (vq_size q =? 0) || (QueueSize <? vq_size q) || negb (vq_size q &&& (vq_size q - 1) =? 0) ||
     negb (validArea mem (vq_desc q) sizeofDescTable 16) ||
     negb (validArea mem (vq_driver q) sizeofSplitAvail 2) ||
     negb (validArea mem (vq_device q) sizeofSplitUsed 4)
  then (None, q <| vq_enable := 0 |>)
  else (Some (mkSplitQueue (vq_desc q) (vq_driver q) (vq_device q) (vq_size q)), q).

(** [le.Uint16(data)] and [le.Uint32(data)] panic on a shorter slice. *)
Definition dataUint16 {S} (data : list Z) : M S Z :=
  if zlen data <? 2 then panic else ret (le_uint16 data 0).
Definition dataUint32 {S} (data : list Z) : M S Z :=
  if zlen data <? 4 then panic else ret (le_uint32 data 0).

Section Transport.
Context {D : Type} `{ModernDevice D}.

(** A transport together with the device it drives. *)
Definition onT {A} (m : M ModernTransport A) : M (ModernTransport * D) A := fun s =>
  let '(r, t) := m (fst s) in (r, (t, snd s)).
Definition updT (f : ModernTransport -> ModernTransport) : M (ModernTransport * D) unit :=
  gupd (fun s => (f (fst s), snd s)).
Definition updD (f : D -> D) : M (ModernTransport * D) unit :=
  gupd (fun s => (fst s, f (snd s))).

Definition resetRegisters (t : ModernTransport) : ModernTransport :=
  t <| deviceFeatureSel := 0 |> <| driverFeatureSel := 0 |> <| driverFeature := [0; 0] |>
    <| queueSel := 0 |> <| msixConfig := 0 |>
    <| queues := map (fun _ => freshQueue) (queues t) |>.

(** One 32-bit half of a queue address register. *)
Definition queueAddrWrite (which half : Z) (data : list Z) : M (ModernTransport * D) unit :=
  let! v := dataUint32 data in
  updT (onCurQueue (fun q => writeQueueAddr q which half v)).

(** Write of queue_enable: a queue that maps is published to the device once
    the register lock is released. *)
Definition queueEnableWrite (data : list Z) : M (ModernTransport * D) unit :=
  let! s := gget in
  match curQueue (fst s) with
  | None => ret tt
  | Some q =>
      let! v := dataUint16 data in
      let q := q <| vq_enable := v |> in
      if vq_enable q =? 1 then
        let '(ready, q') := mapQueue (Mem (fst s)) q in
        do! updT (onCurQueue (fun _ => q')) in
        match ready with
        | Some sq => updD (QueueReady (queueSel (fst s)) sq)
        | None => ret tt
        end
      else updT (onCurQueue (fun _ => q))
  end.

(** A 16-bit register of the selected queue. *)
Definition queueWrite16 (f : Z -> queueState -> queueState) (data : list Z) : M (ModernTransport * D) unit :=
  let! s := gget in
  match curQueue (fst s) with
  | None => ret tt
  | Some _ => let! v := dataUint16 data in updT (onCurQueue (f v))
  end.

Definition commonWrite (off : Z) (data : list Z) : M (ModernTransport * D) unit :=
  if off =? 0 then let! v := dataUint32 data in updT (fun t => t <| deviceFeatureSel := v |>)
  else if off =? 8 then let! v := dataUint32 data in updT (fun t => t <| driverFeatureSel := v |>)
  else if off =? 12 then
    let! v := dataUint32 data in
    updT (fun t => t <| driverFeature := zinsert (driverFeatureSel t &&& 0x1) v (driverFeature t) |>)
  else if off =? 16 then let! v := dataUint16 data in updT (fun t => t <| msixConfig := v |>)
  else if off =? 20 then
    do! (if zget data 0 =? 0 then updT resetRegisters else ret tt) in
    updT (fun t => t <| deviceStatus := zget data 0 |>)
  else if off =? 22 then let! v := dataUint16 data in updT (fun t => t <| queueSel := v |>)
  else if off =? 24 then queueWrite16 (fun v q => q <| vq_size := v |>) data
  else if off =? 26 then queueWrite16 (fun v q => q <| vq_msixVector := v |>) data
  else if off =? 28 then queueEnableWrite data
  else if off =? 32 then queueAddrWrite 0 0 data
  else if off =? 36 then queueAddrWrite 0 1 data
  else if off =? 40 then queueAddrWrite 1 0 data
  else if off =? 44 then queueAddrWrite 1 1 data
  else if off =? 48 then queueAddrWrite 2 0 data
  else if off =? 52 then queueAddrWrite 2 1 data
  else ret tt.

(** [mmioCommonCfg]; [data] is not empty.  The result is the content of [data]
    afterwards. *)
Definition mmioCommonCfg (off : Z) (data : list Z) (isWrite : bool) : M (ModernTransport * D) (list Z) :=
  if negb isWrite then
    let! s := gget in
    if commonCfgLen <=? off then ret (zeros (zlen data))
    else
      let last := Z.min (off + zlen data) commonCfgLen in
      ret (zcopy (zeros (zlen data)) (zslice (commonImage (fst s)) off (last - off)))
  else
    do! (if (off =? 20) && (zget data 0 =? 0) then
           do! (match Reset with Some f => updD f | None => ret tt end) in
           do! onT clearInterrupt in ret tt
         else ret tt) in
    do! commonWrite off data in
    ret data.

Definition pad2 (data : list Z) : list Z :=
  if 2 <=? zlen data then data else [zget data 0; 0].

(** [MMIO]: dispatch of an access within the BAR. *)
Definition MMIO (offset : Z) (data : list Z) (isWrite : bool) : M (ModernTransport * D) (list Z) :=
  if zlen data =? 0 then ret data
  else if offset <? commonCfgOffset + commonCfgLen then
    mmioCommonCfg (offset - commonCfgOffset) data isWrite
  else if (isrCfgOffset <=? offset) && (offset <? isrCfgOffset + isrCfgLen) then
    if isWrite then ret data
    else let! status := onT clearInterrupt in ret (zinsert 0 status (zeros (zlen data)))
  else if (deviceCfgOffset <=? offset) && (offset <? deviceCfgOffset + 0x1000) then
    if isWrite then do! updD (WriteDeviceConfig (offset - deviceCfgOffset) data) in ret data
    else let! s := gget in ret (ReadDeviceConfig (snd s) (offset - deviceCfgOffset) data)
  else if (notifyCfgOffset <=? offset) && (offset <? notifyCfgOffset + notifyCfgLen) then
    if isWrite then do! updD (Notify (le_uint16 (pad2 data) 0)) in ret data else ret data
  else ret data.

End Transport.

(** ** Invariant

    The registers keep their widths.  [queue_ok] is what a device may rely on
    for a queue it is handed: every view lies in guest RAM. *)

Definition queue_regs (q : queueState) : Prop :=
  is_u16 (vq_size q) /\ is_u16 (vq_msixVector q) /\ is_u16 (vq_enable q) /\
  is_u64 (vq_desc q) /\ is_u64 (vq_driver q) /\ is_u64 (vq_device q).

Record twf (t : ModernTransport) : Prop := {
  tw_dfs : is_u32 (deviceFeatureSel t);
  tw_rfs : is_u32 (driverFeatureSel t);
  tw_rf : exists a b, driverFeature t = [a; b] /\ is_u32 a /\ is_u32 b;
  tw_status : is_u8 (deviceStatus t);
  tw_msix : is_u16 (msixConfig t);
  tw_sel : is_u16 (queueSel t);
  tw_queues : Forall queue_regs (queues t);
  tw_features : is_u64 (features t);
  tw_mem : bytes_ok (Mem t)
}.

(** A view in guest RAM. *)
Definition in_ram (mem : list Z) (a n : Z) : Prop := 0 <= a /\ ValidRange mem a n = true.

Record queue_ok (mem : list Z) (q : SplitQueue) : Prop := {
  qo_size : exists k, 0 <= k <= 5 /\ sq_Size q = 2 ^ k;
  qo_desc : in_ram mem (sq_Desc q) sizeofDescTable;
  qo_avail : in_ram mem (sq_Avail q) sizeofSplitAvail;
  qo_used : in_ram mem (sq_Used q) sizeofSplitUsed
}.

(** What a device promises to the transport: its invariant survives the
    callbacks, which pass it only queues that are [queue_ok]. *)
Class ModernDeviceLaws (D : Type) `{ModernDevice D} := {
  dev_inv : list Z -> D -> Prop;
  dev_inv_config : forall mem d off data, dev_inv mem d -> dev_inv mem (WriteDeviceConfig off data d);
  dev_inv_ready : forall mem d i q, dev_inv mem d -> queue_ok mem q -> dev_inv mem (QueueReady i q d);
  dev_inv_notify : forall mem d i, dev_inv mem d -> dev_inv mem (Notify i d);
  dev_inv_reset : forall mem d f, Reset = Some f -> dev_inv mem d -> dev_inv mem (f d)
}.

(** ** Lemmas *)

(** The sizes accepted by the bit test are the powers of two up to 32. *)
Lemma pow2_size s :
  0 < s <= QueueSize -> s &&& (s - 1) = 0 -> exists k, 0 <= k <= 5 /\ s = 2 ^ k.
Proof.
  unfold QueueSize. intros Hs Hb.
  assert (Hc : forall n : nat, (n < 33)%nat ->
    (Z.of_nat n =? 0) || negb (Z.of_nat n &&& (Z.of_nat n - 1) =? 0) ||
    existsb (fun k => Z.of_nat n =? 2 ^ k) [0; 1; 2; 3; 4; 5] = true).
  { intros n Hn. do 33 (destruct n as [|n]; [reflexivity|]). lia. }
  specialize (Hc (Z.to_nat s) ltac:(lia)). rewrite Z2Nat.id in Hc by lia.
  rewrite Hb in Hc. cbn [Z.eqb negb] in Hc. destruct (s =? 0) eqn:?; zbool; [lia|].
  cbn [orb] in Hc. apply existsb_exists in Hc as (k & Hk & He). zbool.
  exists k. split; [|done]. cbn in Hk. lia.
Qed.

Lemma mapQueue_ok mem q sq q' :
  queue_regs q -> mapQueue mem q = (Some sq, q') ->
  queue_ok mem sq /\ q' = q /\ sq = mkSplitQueue (vq_desc q) (vq_driver q) (vq_device q) (vq_size q).
Proof.
  intros (Hs & _ & _ & Hd & Hr & Hu). unfold mapQueue.
  destruct (_ || _) eqn:E; [done|]. intros [= <- <-]. zbool.
  unfold validArea, is_u64, is_u16 in *. zbool.
  splits; try done. constructor; cbn [sq_Size sq_Desc sq_Avail sq_Used].
  - apply pow2_size; [lia|done].
  - split; [lia|done].
  - split; [lia|done].
  - split; [lia|done].
Qed.

Lemma setLoHi_lo p v : is_u32 v -> setLoHi p 0 v = p / 2 ^ 32 * 2 ^ 32 + v.
Proof.
  unfold is_u32, setLoHi. intros. change 0xffffffff with (2 ^ 32 - 1). cbn [Z.eqb].
  rewrite ldiff_low by lia. by apply lor_low.
Qed.

Lemma setLoHi_hi p v : is_u32 v -> setLoHi p 1 v = v * 2 ^ 32 + p mod 2 ^ 32.
Proof.
  unfold is_u32, setLoHi. intros. change 0xffffffff with (2 ^ 32 - 1). cbn [Z.eqb].
  rewrite land_mask_mod, Z.shiftl_mul_pow2, Z.lor_comm by lia.
  rewrite u64_small by lia. apply lor_low; [lia|]. apply Z.mod_pos_bound. lia.
Qed.

Lemma setLoHi_range p half v : is_u64 p -> is_u32 v -> half = 0 \/ half = 1 -> is_u64 (setLoHi p half v).
Proof.
  intros Hp Hv [-> | ->]; [rewrite setLoHi_lo by done|rewrite setLoHi_hi by done];
    unfold is_u64, is_u32 in *.
  - assert (0 <= p / 2 ^ 32 < 2 ^ 32) by (split; [apply Z.div_pos|apply Z.div_lt_upper_bound]; lia). lia.
  - pose proof (Z.mod_pos_bound p (2 ^ 32)). lia.
Qed.

Section TransportLemmas.
Context {D : Type} `{ModernDevice D}.
Implicit Types (s : ModernTransport * D).

Lemma wp_onT {A} (m : M ModernTransport A) s Q E :
  wp m (fst s) (fun a t => Q a (t, snd s)) (fun e t => E e (t, snd s)) -> wp (onT m) s Q E.
Proof. unfold wp, onT. destruct (m (fst s)) as [[] t]; done. Qed.

Lemma wp_updT f s Q E : Q tt (f (fst s), snd s) -> wp (updT f) s Q E.
Proof. done. Qed.

Lemma wp_updD f s Q E : Q tt (fst s, f (snd s)) -> wp (updD f) s Q E.
Proof. done. Qed.

Lemma wp_dataUint16 {S} data (s : S) Q E :
  2 <= zlen data -> Q (le_uint16 data 0) s -> wp (dataUint16 data) s Q E.
Proof. unfold dataUint16. intros. destruct (zlen data <? 2) eqn:?; zbool; [lia|done]. Qed.

Lemma wp_dataUint32 {S} data (s : S) Q E :
  4 <= zlen data -> Q (le_uint32 data 0) s -> wp (dataUint32 data) s Q E.
Proof. unfold dataUint32. intros. destruct (zlen data <? 4) eqn:?; zbool; [lia|done]. Qed.

(** The interrupt acknowledgement always returns and touches only the
    interrupt state. *)
Lemma wp_clearInterrupt t :
  wp clearInterrupt t
    (fun status t' => status = u8 (isr t) /\ isr t' = 0 /\
       exists l e, t' = t <| isr := 0 |> <| irq := l |> <| irqError := e |>)
    (fun _ _ => False).
Proof.
  unfold clearInterrupt. wsteps. destruct (setIRQLevel t) eqn:Hl.
  - wsteps. unfold callSetLevel, wp. cbn. destruct (irq_next _); cbn.
    + splits; try done. by exists (irq_used (irq t)), (Some EIO).
    + splits; try done. eexists _, (irqError t). reflexivity.
  - wsteps. splits; try done. exists (irq t), (irqError t). by destruct t.
Qed.

(** The bytes an access must supply for the register it writes. *)
Definition common_width (off : Z) : Z :=
  if existsb (Z.eqb off) [0; 8; 12; 32; 36; 40; 44; 48; 52] then 4
  else if existsb (Z.eqb off) [16; 22; 24; 26; 28] then 2
  else 1.

Lemma curQueue_range t q :
  twf t -> curQueue t = Some q -> queue_regs q /\ 0 <= queueSel t < zlen (queues t).
Proof.
  intros T. unfold curQueue. destruct (_ <=? _) eqn:E; zbool; [done|].
  intros Hq. pose proof (zlookup_range _ _ _ Hq). split; [|done].
  unfold zlookup in Hq. destruct (_ <? _); [done|].
  eapply Forall_lookup_1; [apply (tw_queues t T)|done].
Qed.

Lemma onCurQueue_twf t f :
  twf t -> (forall q, curQueue t = Some q -> queue_regs q -> queue_regs (f q)) -> twf (onCurQueue f t).
Proof.
  intros T Hf. unfold onCurQueue. destruct (curQueue t) as [q|] eqn:Hq; [|done].
  destruct (curQueue_range t q T Hq) as [Hr Hs]. destruct T.
  constructor; cbn; try done. unfold zinsert. destruct (_ <? _); [done|].
  apply Forall_insert; auto.
Qed.

End TransportLemmas.

Section TransportSafety.
Context {D : Type} `{ModernDeviceLaws D}.

Definition tinv (s : ModernTransport * D) : Prop :=
  twf (fst s) /\ dev_inv (Mem (fst s)) (snd s).

(** The postcondition of every access: the invariant holds and the memory and
    the offered features are the same. *)
Definition tstep (s s' : ModernTransport * D) : Prop :=
  tinv s' /\ Mem (fst s') = Mem (fst s) /\ features (fst s') = features (fst s) /\
  zlen (queues (fst s')) = zlen (queues (fst s)).

Lemma onCurQueue_same t f :
  Mem (onCurQueue f t) = Mem t /\ features (onCurQueue f t) = features t /\
  zlen (queues (onCurQueue f t)) = zlen (queues t).
Proof. unfold onCurQueue. destruct (curQueue t); splits; try done. apply zlen_insert. Qed.

(** An update of the selected queue that keeps its registers in range. *)
Lemma onCurQueue_step s f :
  tinv s -> (forall q, curQueue (fst s) = Some q -> queue_regs q -> queue_regs (f q)) ->
  tstep s (onCurQueue f (fst s), snd s).
Proof.
  intros [T Hd] Hf. destruct (onCurQueue_same (fst s) f) as (Hm & Hv & Hl).
  unfold tstep, tinv; cbn. splits; try done; [by apply onCurQueue_twf|by rewrite Hm].
Qed.

Lemma writeQueueAddr_regs q which half v :
  queue_regs q -> is_u32 v -> half = 0 \/ half = 1 -> queue_regs (writeQueueAddr q which half v).
Proof.
  intros (? & ? & ? & ? & ? & ?) Hv Hh. unfold writeQueueAddr.
  repeat destruct (_ =? _); unfold queue_regs; cbn; splits; try done; by apply setLoHi_range.
Qed.

Lemma wp_queueAddrWrite which half data s :
  tinv s -> bytes_ok data -> 4 <= zlen data -> half = 0 \/ half = 1 ->
  wp (queueAddrWrite which half data) s (fun _ s' => tstep s s') (fun _ _ => False).
Proof.
  intros I Hb Hl Hh. unfold queueAddrWrite. wstep. apply wp_dataUint32; [done|]. apply wp_updT.
  apply onCurQueue_step; [done|]. intros q _ Hq. apply writeQueueAddr_regs; auto with go.
Qed.

Lemma wp_queueWrite16 f data s :
  tinv s -> bytes_ok data -> 2 <= zlen data ->
  (forall v q, is_u16 v -> queue_regs q -> queue_regs (f v q)) ->
  wp (queueWrite16 f data) s (fun _ s' => tstep s s') (fun _ _ => False).
Proof.
  intros I Hb Hl Hf. unfold queueWrite16. wsteps. destruct (curQueue (fst s)) as [q|]; [|by wsteps].
  wstep. apply wp_dataUint16; [done|]. apply wp_updT. apply onCurQueue_step; [done|]. auto with go.
Qed.

Lemma wp_queueEnableWrite data s :
  tinv s -> bytes_ok data -> 2 <= zlen data ->
  wp (queueEnableWrite data) s (fun _ s' => tstep s s') (fun _ _ => False).
Proof.
  intros I Hb Hl. unfold queueEnableWrite. wsteps. destruct (curQueue (fst s)) as [q|] eqn:Hq; [|by wsteps].
  destruct (curQueue_range _ _ (proj1 I) Hq) as [Hr Hs].
  wstep. apply wp_dataUint16; [done|]. cbn [vq_enable].
  assert (Hr' : queue_regs (q <| vq_enable := le_uint16 data 0 |>)).
  { destruct Hr as (? & ? & ? & ? & ? & ?). unfold queue_regs; cbn. splits; auto with go. }
  destruct (_ =? 1); [|apply wp_updT, onCurQueue_step; [done|]; auto].
  destruct (mapQueue _ _) as [[sq|] q'] eqn:Hm.
  - destruct (mapQueue_ok _ _ _ _ Hr' Hm) as (Ho & -> & _).
    destruct (onCurQueue_step s (fun _ => q <| vq_enable := le_uint16 data 0 |>) I (fun _ _ _ => Hr')) as ([T Hd] & Hmem & Hrest).
    wstep. apply wp_updT, wp_updD. unfold tstep, tinv; cbn in *. splits; try apply Hrest; try done.
    apply dev_inv_ready; [done|by rewrite Hmem].
  - wstep. apply wp_updT. wstep. apply onCurQueue_step; [done|].
    intros _ _ _. unfold mapQueue in Hm. destruct (_ || _); [injection Hm as <-|done].
    destruct Hr' as (? & ? & ? & ? & ? & ?). unfold queue_regs; cbn. by splits.
Qed.

Lemma driverFeature_insert a b sel v :
  is_u32 a -> is_u32 b -> is_u32 v -> 0 <= sel ->
  exists a' b', zinsert (sel &&& 0x1) v [a; b] = [a'; b'] /\ is_u32 a' /\ is_u32 b'.
Proof.
  intros Ha Hb Hv Hs. change 0x1 with (2 ^ 1 - 1). rewrite land_mask_mod by lia.
  assert (Hm : sel mod 2 ^ 1 = 0 \/ sel mod 2 ^ 1 = 1) by (pose proof (Z.mod_pos_bound sel (2 ^ 1)); lia).
  destruct Hm as [-> | ->]; cbn; eauto.
Qed.

Lemma tstep_refl s : tinv s -> tstep s s.
Proof. by unfold tstep. Qed.

(** Writes of the common structure. *)
Lemma wp_commonWrite off data s :
  tinv s -> bytes_ok data -> common_width off <= zlen data ->
  wp (commonWrite off data) s (fun _ s' => tstep s s') (fun _ _ => False).
Proof.
  intros I Hb Hw. pose proof I as [T Hd]. pose proof (le_uint32_range data 0 Hb).
  pose proof (le_uint16_range data 0 Hb). pose proof (bytes_ok_zget data 0 Hb).
  unfold commonWrite.
  repeat match goal with
  | |- wp (if off =? ?k then _ else _) _ _ _ =>
      destruct (Z.eqb_spec off k) as [->|?]; [cbn in Hw|]
  end; [..|by wsteps; apply tstep_refl];
  lazymatch goal with
  | |- wp (queueAddrWrite _ _ _) _ _ _ => apply wp_queueAddrWrite; auto
  | |- wp (queueWrite16 _ _) _ _ _ =>
      apply wp_queueWrite16; [done..|]; intros v q ? (? & ? & ? & ? & ? & ?); unfold queue_regs; cbn; by splits
  | |- wp (queueEnableWrite _) _ _ _ => by apply wp_queueEnableWrite
  | _ => idtac
  end;
  try (wstep; first [apply wp_dataUint32; [done|]|apply wp_dataUint16; [done|]]; apply wp_updT;
       destruct T as [? ? (a & b & Hrf & Ha & Hc) ? ? ? ? ? ?]; unfold tstep, tinv; cbn; splits; try done;
       constructor; cbn; try done; eauto).
  - rewrite Hrf. apply driverFeature_insert; auto. unfold is_u32 in *. lia.
  - wstep. assert (Hr : twf (resetRegisters (fst s))).
    { destruct T. constructor; cbn; try done; [by exists 0, 0|].
      apply Forall_map, Forall_true. intros. unfold queue_regs, freshQueue, is_u16, is_u64, QueueSize; cbn. lia. }
    destruct (_ =? 0); [apply wp_updT|wstep]; apply wp_updT; unfold tstep, tinv; cbn; splits; try done.
    + destruct Hr. constructor; cbn in *; try done.
    + unfold zlen. by rewrite length_map.
    + destruct T. constructor; cbn in *; done.
Qed.

(** Every access returns and keeps the invariant, provided a write of a
    multi-byte register supplies its bytes. *)
Lemma wp_MMIO offset data isWrite s :
  tinv s -> 0 <= offset -> bytes_ok data ->
  (isWrite = true -> common_width offset <= zlen data) ->
  wp (MMIO offset data isWrite) s (fun _ s' => tstep s s') (fun _ _ => False).
Proof.
  intros I Ho Hb Hw. pose proof I as [T Hd]. unfold MMIO.
  destruct (zlen data =? 0); [by wsteps; apply tstep_refl|].
  destruct (offset <? _) eqn:Hc.
  - unfold mmioCommonCfg. change commonCfgOffset with 0. rewrite Z.sub_0_r. destruct isWrite; cbn [negb].
    + wstep. eapply wp_mono with (Q := fun _ s' => tstep s s') (E := fun _ _ => False); [|..|done].
      * destruct (_ && _); [|by wsteps; apply tstep_refl]. wstep.
        assert (Hack : forall s1, tstep s s1 ->
          wp (do! onT clearInterrupt in ret tt) s1 (fun _ s' => tstep s s') (fun _ _ => False)).
        { intros s1 ([T1 Hd1] & Hm & Hf & Hq). wstep. apply wp_onT.
          eapply wp_mono; [apply wp_clearInterrupt| |done]. intros st t' (_ & _ & l & e & ->). wstep.
          unfold tstep, tinv; cbn. splits; try done. destruct T1. constructor; cbn; done. }
        destruct Reset as [f|] eqn:Hrs; [apply wp_updD|wstep]; apply Hack; [|by apply tstep_refl].
        unfold tstep, tinv; cbn. splits; try done. by apply dev_inv_reset.
      * intros [] s1 (I1 & Hm & Hf & Hq). wstep.
        eapply wp_mono; [by apply wp_commonWrite; auto| |done].
        intros [] s2 (I2 & Hm2 & Hf2 & Hq2). wstep. unfold tstep. by rewrite Hm2, Hf2, Hq2.
    + wsteps. destruct (_ <=? _); wsteps; by apply tstep_refl.
  - destruct (_ && _); [|destruct (_ && _); [|destruct (_ && _)]]; destruct isWrite; wsteps; try by apply tstep_refl.
    + apply wp_onT. eapply wp_mono; [apply wp_clearInterrupt| |done]. intros st t' (_ & _ & l & e & ->). wstep.
      unfold tstep, tinv; cbn. splits; try done. destruct T. constructor; cbn; done.
    + apply wp_updD. wstep. unfold tstep, tinv; cbn. splits; try done. by apply dev_inv_config.
    + apply wp_updD. wstep. unfold tstep, tinv; cbn. splits; try done. by apply dev_inv_notify.
Qed.

(** A write that supplies fewer bytes than the register has. *)
Definition short_write (offset : Z) (data : list Z) (isWrite : bool) : bool :=
  isWrite && (0 <? zlen data) && (zlen data <? common_width offset).

(** Such a write panics, or meets a queue register while no queue is selected. *)
Lemma commonWrite_short off data s :
  1 < common_width off -> zlen data < common_width off ->
  commonWrite off data s = (Panic, s) \/ commonWrite off data s = (Ok tt, s).
Proof.
  intros Hlong Hw. unfold commonWrite, queueAddrWrite, queueWrite16, queueEnableWrite.
  repeat match goal with
  | |- context[if off =? ?k then _ else _] => destruct (Z.eqb_spec off k) as [->|?]; [cbn in Hlong, Hw|]
  end; try (by right); try lia; unfold gbind, gget; try (destruct (curQueue (fst s)); [|by right]);
  unfold dataUint32, dataUint16; rewrite (proj2 (Z.ltb_lt _ _)) by done; by left.
Qed.

(** Every access returns and keeps the invariant, but for writes that are
    shorter than their register, which may panic. *)
Lemma MMIO_total offset data isWrite s :
  tinv s -> 0 <= offset -> bytes_ok data ->
  match MMIO offset data isWrite s with
  | (Ok _, s') => tstep s s'
  | (Panic, _) => short_write offset data isWrite = true
  | _ => False
  end.
Proof.
  intros I Ho Hb. destruct (short_write offset data isWrite) eqn:E; unfold short_write in E.
  - destruct isWrite; [cbn [andb] in E; zbool|done]. unfold MMIO. rewrite (proj2 (Z.eqb_neq _ _)) by lia. assert (Hlong : 1 < common_width offset) by lia.
    assert (Hoff : offset < commonCfgOffset + commonCfgLen /\ offset <> 20).
    { unfold common_width in Hlong. destruct (existsb _ [0; _; _; _; _; _; _; _; _]) eqn:E1.
      - apply existsb_exists in E1 as (k & Hk & ->%Z.eqb_eq). cbn in Hk. unfold commonCfgOffset, commonCfgLen. lia.
      - destruct (existsb _ [16; _; _; _; _]) eqn:E2; [|lia]. apply existsb_exists in E2 as (k & Hk & ->%Z.eqb_eq). cbn in Hk.
        unfold commonCfgOffset, commonCfgLen. lia. }
    rewrite (proj2 (Z.ltb_lt _ _)) by tauto. unfold mmioCommonCfg. change commonCfgOffset with 0. rewrite Z.sub_0_r.
    rewrite (proj2 (Z.eqb_neq offset 20)) by tauto. cbn [andb negb]. unfold gbind, ret.
    destruct (commonWrite_short offset data s Hlong) as [-> | ->]; [done|done|by apply tstep_refl].
  - destruct (Z.eqb_spec (zlen data) 0) as [Hz|Hz].
    + unfold MMIO. rewrite Hz, Z.eqb_refl. by apply tstep_refl.
    + pose proof (zlen_nonneg data). assert (Hw : wp (MMIO offset data isWrite) s (fun _ s' => tstep s s') (fun _ _ => False)).
      { apply wp_MMIO; try done. intros ->. cbn [andb] in E. rewrite (proj2 (Z.ltb_lt _ _)) in E by lia.
        cbn [andb] in E. zbool. lia. }
      unfold wp in Hw. by destruct (MMIO offset data isWrite s) as [[] s'].
Qed.

End TransportSafety.

(** ** Guest memory accesses

    [yields t t']: only the guest ran. *)

Definition yields (t t' : ModernTransport) : Prop :=
  exists m g, t' = t <| Mem := m |> <| guest := g |> /\ zlen m = zlen (Mem t) /\
    (bytes_ok (Mem t) -> bytes_ok m).

(** [stored a b t t']: the guest ran, then [b] was stored at [a]. *)
Definition stored (a : Z) (b : list Z) (t t' : ModernTransport) : Prop :=
  exists t1, yields t t1 /\ t' = t1 <| Mem := zwrite (Mem t1) a b |>.

Lemma yields_refl t : yields t t.
Proof. exists (Mem t), (guest t). by destruct t. Qed.

Lemma yields_mem t t' :
  yields t t' -> zlen (Mem t') = zlen (Mem t) /\ (bytes_ok (Mem t) -> bytes_ok (Mem t')).
Proof. by intros (m & g & -> & ? & ?). Qed.

Lemma yields_trans t1 t2 t3 : yields t1 t2 -> yields t2 t3 -> yields t1 t3.
Proof.
  intros (m1 & g1 & -> & Hl1 & Hb1) (m & g & -> & Hl & Hb). exists m, g. cbn in *. splits; auto. congruence.
Qed.

Lemma wp_yieldGuest t : wp yieldGuest t (fun _ t' => yields t t') (fun _ _ => False).
Proof.
  unfold wp, yieldGuest, gupd. destruct (guest t) as [|st rest] eqn:Hg; [apply yields_refl|].
  eexists _, _. split; [reflexivity|]. split; [apply zlen_runGuest|apply bytes_ok_runGuest].
Qed.

(** Without interference the accesses are plain reads and writes. *)
Lemma memLoad_quiet a n t :
  guest t = [] -> ValidRange (Mem t) a n = true -> memLoad a n t = (Ok (zslice (Mem t) a n), t).
Proof. intros Hg Hv. unfold memLoad, yieldGuest, gbind, gupd, gget. by rewrite Hg, Hv. Qed.

Lemma memStore_quiet a b t :
  guest t = [] -> ValidRange (Mem t) a (zlen b) = true ->
  memStore a b t = (Ok tt, t <| Mem := zwrite (Mem t) a b |>).
Proof. intros Hg Hv. unfold memStore, memPut, yieldGuest, gbind, gupd, gget. by rewrite Hg, Hv. Qed.

Lemma wp_memLoad a n t :
  ValidRange (Mem t) a n = true ->
  wp (memLoad a n) t (fun b t' => yields t t' /\ b = zslice (Mem t') a n) (fun _ _ => False).
Proof.
  intros Hv. unfold memLoad. wstep. wcall wp_yieldGuest; [|done]. intros [] t' Hy. wsteps.
  destruct (yields_mem _ _ Hy) as (Hl & _). rewrite (ValidRange_len _ _ _ _ Hl), Hv. by wsteps.
Qed.

Lemma wp_memPut a b t :
  ValidRange (Mem t) a (zlen b) = true ->
  wp (memPut a b) t (fun _ t' => t' = t <| Mem := zwrite (Mem t) a b |>) (fun _ _ => False).
Proof. intros Hv. unfold memPut. wsteps. rewrite Hv. by wsteps. Qed.

Lemma wp_memStore a b t :
  ValidRange (Mem t) a (zlen b) = true ->
  wp (memStore a b) t (fun _ t' => stored a b t t') (fun _ _ => False).
Proof.
  intros Hv. unfold memStore. wstep. wcall wp_yieldGuest; [|done]. intros [] t' Hy.
  destruct (yields_mem _ _ Hy) as (Hl & _).
  wcall wp_memPut; [by rewrite (ValidRange_len _ _ _ _ Hl)| |done]. intros [] t2 ->. by exists t'.
Qed.

(** The ranges of a queue that its accessors touch. *)
Lemma in_ram_range mem a n o k :
  in_ram mem a n -> 0 <= k -> 0 <= o -> o + k <= n -> ValidRange mem (a + o) k = true.
Proof. intros (Ha & Hv) Hk Ho He. apply (ValidRange_sub mem a n); try done; lia. Qed.

Lemma queue_ok_len mem mem' q : zlen mem' = zlen mem -> queue_ok mem q -> queue_ok mem' q.
Proof.
  intros Hl [? Hd Ha Hu]. constructor; [done|..]; unfold in_ram in *; by rewrite (ValidRange_len _ _ _ _ Hl).
Qed.

Section QueueAccess.
Variables (t : ModernTransport) (q : SplitQueue).
Hypothesis Hq : queue_ok (Mem t) q.

Lemma wp_loadDesc i :
  0 <= i < QueueSize ->
  wp (loadDesc q i) t
    (fun d t' => yields t t' /\ d = decodeDesc (zslice (Mem t') (sq_Desc q + 16 * i) 16)) (fun _ _ => False).
Proof using Hq.
  unfold QueueSize. intros Hi. unfold loadDesc. wstep. wcall wp_memLoad; [| |done].
  - eapply in_ram_range; [apply (qo_desc _ _ Hq)|unfold sizeofDescTable, QueueSize; lia..].
  - intros b t' [Hy ->]. by wstep.
Qed.

Lemma wp_loadAvailIdx :
  wp (loadAvailIdx q) t
    (fun v t' => yields t t' /\ v = le_uint16 (Mem t') (sq_Avail q + 2)) (fun _ _ => False).
Proof using Hq.
  unfold loadAvailIdx. wstep. wcall wp_memLoad; [| |done].
  - eapply in_ram_range; [apply (qo_avail _ _ Hq)|unfold sizeofSplitAvail, QueueSize; lia..].
  - intros b t' [Hy ->]. wstep. split; [done|].
    unfold le_uint16. rewrite zslice_slice; [by rewrite Z.add_0_r|pose proof (qo_avail _ _ Hq) as [? _]; lia..].
Qed.

Lemma wp_loadAvailRing i :
  0 <= i < QueueSize ->
  wp (loadAvailRing q i) t
    (fun v t' => yields t t' /\ v = le_uint16 (Mem t') (sq_Avail q + 4 + 2 * i)) (fun _ _ => False).
Proof using Hq.
  unfold QueueSize. intros Hi. unfold loadAvailRing. wstep. wcall wp_memLoad; [| |done].
  - rewrite <- Z.add_assoc. eapply in_ram_range; [apply (qo_avail _ _ Hq)|unfold sizeofSplitAvail, QueueSize; lia..].
  - intros b t' [Hy ->]. wstep. split; [done|].
    unfold le_uint16. rewrite zslice_slice; [by rewrite Z.add_0_r|pose proof (qo_avail _ _ Hq) as [? _]; lia..].
Qed.

Lemma wp_loadUsedIdx :
  wp (loadUsedIdx q) t
    (fun v t' => yields t t' /\ v = le_uint16 (Mem t') (sq_Used q + 2)) (fun _ _ => False).
Proof using Hq.
  unfold loadUsedIdx. wstep. wcall wp_memLoad; [| |done].
  - eapply in_ram_range; [apply (qo_used _ _ Hq)|unfold sizeofSplitUsed, QueueSize; lia..].
  - intros b t' [Hy ->]. wstep. split; [done|].
    unfold le_uint16. rewrite zslice_slice; [by rewrite Z.add_0_r|pose proof (qo_used _ _ Hq) as [? _]; lia..].
Qed.

Lemma wp_storeUsedRing i e :
  0 <= i < QueueSize ->
  wp (storeUsedRing q i e) t
    (fun _ t' => stored (sq_Used q + 4 + 8 * i) (encodeUsedElem e) t t') (fun _ _ => False).
Proof using Hq.
  unfold QueueSize. intros Hi. unfold storeUsedRing. apply wp_memStore.
  change (zlen (encodeUsedElem e)) with 8. rewrite <- Z.add_assoc.
  eapply in_ram_range; [apply (qo_used _ _ Hq)|unfold sizeofSplitUsed; lia..].
Qed.

End QueueAccess.

Lemma wp_addUsedIdx t q delta :
  queue_ok (Mem t) q ->
  wp (addUsedIdx q delta) t
    (fun _ t' => exists t1, yields t t1 /\
       stored (sq_Used q + 2) (le_bytes 2 (u16 (le_uint16 (Mem t1) (sq_Used q + 2) + delta))) t1 t')
    (fun _ _ => False).
Proof.
  intros Hq. unfold addUsedIdx. wstep. wcall wp_loadUsedIdx; [done| |done]. intros v t1 [Hy ->].
  destruct (yields_mem _ _ Hy) as (Hl & _). wcall wp_memStore; [| |done].
  - rewrite (ValidRange_len _ _ _ _ Hl). change (zlen (le_bytes 2 _)) with 2.
    eapply in_ram_range; [apply (qo_used _ _ Hq)|unfold sizeofSplitUsed; lia..].
  - intros [] t2 Hs. by exists t1.
Qed.

(** Raising the interrupt touches only the interrupt state. *)
Definition irq_only (t t' : ModernTransport) : Prop :=
  exists w l i, t' = t <| irqWake := w |> <| irq := l |> <| isr := i |>.

Lemma wp_Interrupt t : wp Interrupt t (fun _ t' => irq_only t t') (fun _ t' => irq_only t t').
Proof.
  assert (Hr : forall t1, (forall l, irq_only t (t1 <| irq := l |>)) ->
    wp raiseIRQ t1 (fun _ t' => irq_only t t') (fun _ t' => irq_only t t')).
  { intros t1 Hl. unfold raiseIRQ. do 2 wstep. destruct (irqError t1).
    { wstep. specialize (Hl (irq t1)). by destruct t1. }
    unfold wp, callSetLevel, callInject. destruct (setIRQLevel t1), (irq_next (irq t1)); apply Hl. }
  unfold Interrupt. do 2 wstep. apply Hr. intros l. unfold setPendingInterrupt.
  destruct (isr t =? 0); [by exists true, l, (isr t ||| 1)|].
  exists (irqWake t), l, (isr t ||| 1). by destruct t.
Qed.

(** Whatever the line does, the cause is pending afterwards. *)
Lemma Interrupt_sets t : exists r t', Interrupt t = (r, t') /\ returns r /\ irq_only t t' /\ isr t' = isr t ||| 1.
Proof.
  pose proof (wp_Interrupt t) as Hw. unfold wp in Hw.
  assert (Hi : isr (snd (Interrupt t)) = isr t ||| 1).
  { unfold Interrupt, gbind, gupd, raiseIRQ, gget, setPendingInterrupt, callSetLevel, callInject, throw.
    destruct (isr t =? 0); cbn; destruct (irqError t), (setIRQLevel t); cbn; try done; destruct (irq_next (irq t)); done. }
  destruct (Interrupt t) as [[] t']; try done; eexists _, t'; by splits.
Qed.
