(* ===== verification/VirtioModernSpec.v ===== *)
(** Properties of the modern virtio transport (src/internal/virtio/modern.go):
    safety of guest accesses, register round trips, queue setup, feature
    negotiation, reset, the interrupt line and the capability list. *)

From S2P Require Import Prelude Bytes GuestMem VirtioModern.

(** ** Little-endian words inside the register image *)

Lemma le_bytes_app n m v : le_bytes (n + m) v = le_bytes n v ++ le_bytes m (v / 256 ^ Z.of_nat n).
Proof.
  revert v. induction n as [|n IH]; intros v; cbn [le_bytes Nat.add app].
  - by rewrite Z.div_1_r.
  - rewrite IH, Z.div_div, <- Z.pow_succ_r by lia. by rewrite <- Nat2Z.inj_succ.
Qed.

Lemma le_bytes_mod n v : le_bytes n (v mod 256 ^ Z.of_nat n) = le_bytes n v.
Proof.
  rewrite <- le_val_bytes. transitivity (le_bytes (length (le_bytes n v)) (le_val (le_bytes n v))).
  - by rewrite length_le_bytes.
  - apply le_bytes_val, le_bytes_ok.
Qed.

(** The bytes of an access are those of the value it stores. *)
Lemma le_bytes_uint16 data : zlen data = 2 -> bytes_ok data -> le_bytes 2 (le_uint16 data 0) = data.
Proof.
  intros Hl Hb. unfold le_uint16. rewrite zslice_all by done.
  replace 2%nat with (length data) by (unfold zlen in Hl; lia). by apply le_bytes_val.
Qed.

Lemma le_bytes_uint32 data : zlen data = 4 -> bytes_ok data -> le_bytes 4 (le_uint32 data 0) = data.
Proof.
  intros Hl Hb. unfold le_uint32. rewrite zslice_all by done.
  replace 4%nat with (length data) by (unfold zlen in Hl; lia). by apply le_bytes_val.
Qed.

Lemma le_bytes_lo p v : is_u32 v -> le_bytes 4 (setLoHi p 0 v) = le_bytes 4 v.
Proof.
  intros Hv. rewrite setLoHi_lo by done. rewrite <- le_bytes_mod.
  change (256 ^ Z.of_nat 4) with (2 ^ 32).
  rewrite Z.add_comm, Z.mod_add by lia. by rewrite Z.mod_small.
Qed.

Lemma le_bytes_hi p v : is_u32 v -> le_bytes 4 (setLoHi p 1 v / 2 ^ 32) = le_bytes 4 v.
Proof.
  intros Hv. rewrite setLoHi_hi by done.
  rewrite Z.div_add_l by lia. rewrite (Z.div_small (p mod 2 ^ 32)); [by rewrite Z.add_0_r|].
  apply Z.mod_pos_bound. lia.
Qed.

(** ** Reading the register image *)

Lemma zlen_commonImage t : zlen (commonImage t) = commonCfgLen.
Proof. unfold commonImage. destruct (curQueue t); reflexivity. Qed.

Section Registers.
Context {D : Type} `{ModernDevice D}.
Implicit Types (t : ModernTransport) (d : D).

Lemma MMIO_read_common t d off n :
  0 <= off -> 0 < n -> off + n <= commonCfgLen ->
  MMIO off (zeros n) false (t, d) = (Ok (zslice (commonImage t) off n), (t, d)).
Proof.
  intros Ho Hn He. unfold MMIO, mmioCommonCfg. rewrite zlen_zeros, Z.max_r by lia.
  change commonCfgOffset with 0. rewrite Z.sub_0_r, Z.add_0_l.
  destruct (n =? 0) eqn:?; zbool; [lia|]. destruct (off <? commonCfgLen) eqn:?; zbool; [|lia].
  cbn [negb]. unfold gbind, gget. destruct (commonCfgLen <=? off) eqn:?; zbool; [lia|].
  rewrite Z.min_l by lia. replace (off + n - off) with n by lia. cbn [fst]. unfold ret. repeat f_equal.
  assert (Hl : zlen (zslice (commonImage t) off n) = n) by (apply zlen_slice; rewrite ?zlen_commonImage; lia).
  unfold zcopy. unfold zlen in Hl.
  assert (length (zeros n) = Z.to_nat n) by apply length_replicate.
  rewrite (take_ge _ (Nat.min _ _)), (drop_ge (zeros n)), app_nil_r by lia. done.
Qed.

Lemma MMIO_write_common t d off data :
  0 <= off < commonCfgLen -> off <> 20 -> 0 < zlen data ->
  MMIO off data true (t, d) = gbind (commonWrite off data) (fun _ => ret data) (t, d).
Proof.
  intros Ho Hn Hd. unfold MMIO, mmioCommonCfg. change commonCfgOffset with 0. rewrite Z.sub_0_r, Z.add_0_l.
  destruct (zlen data =? 0) eqn:?; zbool; [lia|]. destruct (off <? commonCfgLen) eqn:?; zbool; [|lia].
  cbn [negb]. destruct (off =? 20) eqn:?; zbool; [lia|]. done.
Qed.

End Registers.

(** Offsets and widths of the registers a driver reads back as written. *)
Definition common_rw : list (Z * Z) :=
  [(0, 4); (8, 4); (12, 4); (16, 2); (22, 2); (24, 2); (26, 2);
   (32, 4); (36, 4); (40, 4); (44, 4); (48, 4); (52, 4)].

Lemma dataUint16_eq {S} data (s : S) : 2 <= zlen data -> dataUint16 data s = (Ok (le_uint16 data 0), s).
Proof. intros. unfold dataUint16. destruct (zlen data <? 2) eqn:?; zbool; [lia|done]. Qed.

Lemma dataUint32_eq {S} data (s : S) : 4 <= zlen data -> dataUint32 data s = (Ok (le_uint32 data 0), s).
Proof. intros. unfold dataUint32. destruct (zlen data <? 4) eqn:?; zbool; [lia|done]. Qed.

Lemma curQueue_onCurQueue f t q :
  twf t -> curQueue t = Some q -> curQueue (onCurQueue f t) = Some (f q).
Proof.
  intros T Hq. destruct (curQueue_range t q T Hq) as [_ Hs]. unfold onCurQueue. rewrite Hq.
  unfold curQueue. cbn. rewrite zlen_insert, zlookup_insert by lia.
  destruct (_ <=? _) eqn:?; zbool; [lia|]. by rewrite Z.eqb_refl.
Qed.

(** The registers of the selected queue in the image. *)
Lemma image_queue t q :
  curQueue t = Some q ->
  zslice (commonImage t) 24 2 = le_bytes 2 (vq_size q) /\
  zslice (commonImage t) 26 2 = le_bytes 2 (vq_msixVector q) /\
  zslice (commonImage t) 28 2 = le_bytes 2 (vq_enable q) /\
  zslice (commonImage t) 32 8 = le_bytes 8 (vq_desc q) /\
  zslice (commonImage t) 40 8 = le_bytes 8 (vq_driver q) /\
  zslice (commonImage t) 48 8 = le_bytes 8 (vq_device q).
Proof. intros Hq. unfold commonImage. rewrite Hq. splits; reflexivity. Qed.

Lemma image_regs t :
  zslice (commonImage t) 0 4 = le_bytes 4 (deviceFeatureSel t) /\
  zslice (commonImage t) 4 4 = le_bytes 4 (deviceFeature t (deviceFeatureSel t)) /\
  zslice (commonImage t) 8 4 = le_bytes 4 (driverFeatureSel t) /\
  zslice (commonImage t) 12 4 = le_bytes 4 (zget (driverFeature t) (driverFeatureSel t &&& 0x1)) /\
  zslice (commonImage t) 16 2 = le_bytes 2 (msixConfig t) /\
  zslice (commonImage t) 18 2 = le_bytes 2 (u16 (zlen (queues t))) /\
  zslice (commonImage t) 20 1 = [deviceStatus t] /\
  zslice (commonImage t) 22 2 = le_bytes 2 (queueSel t).
Proof. unfold commonImage. destruct (curQueue t); splits; reflexivity. Qed.

(** One half of an address register. *)
Lemma half_slice img a p v half :
  (half = 0 \/ half = 1) -> is_u32 v -> 0 <= a ->
  zslice img a 8 = le_bytes 8 (setLoHi p half v) -> zslice img (a + 4 * half) 4 = le_bytes 4 v.
Proof.
  intros Hh Hv Ha He.
  assert (Hs : zslice (zslice img a 8) (4 * half) 4 = zslice img (a + 4 * half) 4) by (apply zslice_slice; lia).
  rewrite <- Hs, He. change 8%nat with (4 + 4)%nat. rewrite le_bytes_app.
  destruct Hh as [-> | ->].
  - rewrite zslice_app_l by apply zlen_le_bytes. by apply le_bytes_lo.
  - rewrite <- (le_bytes_hi p v Hv). reflexivity.
Qed.

(** A queue address write, read back. *)
Lemma queueAddrWrite_reads {D} t (d : D) q which half data :
  twf t -> curQueue t = Some q -> zlen data = 4 -> bytes_ok data ->
  0 <= which <= 2 -> half = 0 \/ half = 1 ->
  exists t', queueAddrWrite which half data (t, d) = (Ok tt, (t', d)) /\
    zslice (commonImage t') (32 + 8 * which + 4 * half) 4 = data.
Proof.
  intros T Hq Hl Hb Hw Hh. unfold queueAddrWrite, gbind. rewrite dataUint32_eq by lia.
  set (v := le_uint32 data 0). eexists. split; [reflexivity|].
  pose proof (curQueue_onCurQueue (fun q => writeQueueAddr q which half v) t q T Hq) as Hc.
  destruct (image_queue _ _ Hc) as (_ & _ & _ & Hd & Hr & Hu).
  assert (Hv : is_u32 v) by (apply le_uint32_range; done).
  transitivity (le_bytes 4 v); [|by apply le_bytes_uint32].
  assert (Hc3 : which = 0 \/ which = 1 \/ which = 2) by lia.
  destruct Hc3 as [-> | [-> | ->]]; [eapply (half_slice _ 32)|eapply (half_slice _ 40)|eapply (half_slice _ 48)];
    try done; [exact Hd|exact Hr|exact Hu].
Qed.

Lemma queueWrite16_reads {D} t (d : D) q f data :
  twf t -> curQueue t = Some q -> zlen data = 2 -> 
  queueWrite16 f data (t, d) = (Ok tt, (onCurQueue (f (le_uint16 data 0)) t, d)) /\
  curQueue (onCurQueue (f (le_uint16 data 0)) t) = Some (f (le_uint16 data 0) q).
Proof.
  intros T Hq Hl. split; [|by apply curQueue_onCurQueue].
  unfold queueWrite16, gbind, gget. cbn [fst]. rewrite Hq, dataUint16_eq by lia. done.
Qed.

(** A write of a register and the image afterwards. *)
Lemma commonWrite_reads {D} `{ModernDevice D} t (d : D) off n data :
  twf t -> (off, n) ∈ common_rw -> zlen data = n -> bytes_ok data -> off < 24 \/ curQueue t <> None ->
  exists t', commonWrite off data (t, d) = (Ok tt, (t', d)) /\ zslice (commonImage t') off n = data.
Proof.
  intros T Hin Hl Hb Hq. pose proof (tw_rf t T) as (a & b & Hrf & _). pose proof (tw_rfs t T).
  assert (Hq' : off < 24 \/ exists q, curQueue t = Some q) by (destruct (curQueue t); naive_solver).
  clear Hq. unfold common_rw in Hin. repeat (apply elem_of_cons in Hin as [Hin|Hin];
    [injection Hin as -> ->|]); [..|by apply elem_of_nil in Hin].
  all: try (destruct Hq' as [?|[q Hq]]; [lia|]).
  all: lazymatch goal with
  | |- context [commonWrite ?k _ _] =>
      lazymatch k with
      | 32 => refine (queueAddrWrite_reads t d q 0 0 data T Hq Hl Hb _ _); lia
      | 36 => refine (queueAddrWrite_reads t d q 0 1 data T Hq Hl Hb _ _); lia
      | 40 => refine (queueAddrWrite_reads t d q 1 0 data T Hq Hl Hb _ _); lia
      | 44 => refine (queueAddrWrite_reads t d q 1 1 data T Hq Hl Hb _ _); lia
      | 48 => refine (queueAddrWrite_reads t d q 2 0 data T Hq Hl Hb _ _); lia
      | 52 => refine (queueAddrWrite_reads t d q 2 1 data T Hq Hl Hb _ _); lia
      | 24 => idtac | 26 => idtac
      | _ => unfold commonWrite, gbind; cbn [Z.eqb Pos.eqb];
             rewrite ?dataUint32_eq, ?dataUint16_eq by lia; eexists; split; [reflexivity|]
      end
  end.
  - etransitivity; [apply image_regs|]. by apply le_bytes_uint32.
  - etransitivity; [apply image_regs|]. by apply le_bytes_uint32.
  - etransitivity; [apply image_regs|]. cbn. rewrite Hrf, zget_insert, Z.eqb_refl; [by apply le_bytes_uint32|].
    pose proof (land_mask_mod (driverFeatureSel t) 1 ltac:(lia)) as Hm.
    change (2 ^ 1 - 1) with 1 in Hm. rewrite Hm.
    by apply Z.mod_pos_bound.
  - etransitivity; [apply image_regs|]. by apply le_bytes_uint16.
  - etransitivity; [apply image_regs|]. by apply le_bytes_uint16.
  - destruct (queueWrite16_reads t d q (fun v q => q <| vq_size := v |>) data T Hq Hl) as [Hw Hc].
    eexists. split; [exact Hw|]. etransitivity; [apply (image_queue _ _ Hc)|]. by apply le_bytes_uint16.
  - destruct (queueWrite16_reads t d q (fun v q => q <| vq_msixVector := v |>) data T Hq Hl) as [Hw Hc].
    eexists. split; [exact Hw|]. etransitivity; [apply (image_queue _ _ Hc)|]. by apply le_bytes_uint16.
Qed.

(** A value of the register's own width written to a writable register of the
    common configuration structure is read back unchanged, for every register a driver
    reads back as written (feature selectors and words, vectors, queue selector, queue
    size and the halves of the three queue addresses); the per-queue registers need an
    existing selected queue. *)
Theorem common_register_roundtrip {D} `{ModernDevice D} (t : ModernTransport) (d : D) off n data :
  twf t -> (off, n) ∈ common_rw -> zlen data = n -> bytes_ok data -> off < 24 \/ curQueue t <> None ->
  exists s', MMIO off data true (t, d) = (Ok data, s') /\ fst (MMIO off (zeros n) false s') = Ok data.
Proof.
  intros T Hin Hl Hb Hq.
  assert (Hr : 0 <= off < commonCfgLen /\ off <> 20 /\ 0 < n /\ off + n <= commonCfgLen).
  { unfold common_rw, commonCfgLen in *. set_unfold in Hin. naive_solver lia. }
  destruct Hr as (Ho & Hs & Hn & He). rewrite MMIO_write_common by lia.
  destruct (commonWrite_reads t d off n data T Hin Hl Hb Hq) as (t' & Hw & Hd).
  exists (t', d). unfold gbind. rewrite Hw. split; [done|]. by rewrite MMIO_read_common, Hd by lia.
Qed.

(** ** Programming a queue *)

Section Setup.
Context {D : Type} `{ModernDevice D}.

(** Register writes of a driver, in order. *)
Fixpoint mmioWrites (ws : list (Z * list Z)) : M (ModernTransport * D) unit :=
  match ws with
  | [] => ret tt
  | (off, data) :: ws => do! MMIO off data true in mmioWrites ws
  end.

(** The two halves of a 64-bit register at [off]. *)
Definition write64 (off v : Z) : list (Z * list Z) :=
  [(off, le_bytes 4 v); (off + 4, le_bytes 4 (v / 2 ^ 32))].

Definition queueSetup (idx size desc driver device : Z) : list (Z * list Z) :=
  [(22, le_bytes 2 idx); (24, le_bytes 2 size)] ++ write64 32 desc ++ write64 40 driver ++
  write64 48 device ++ [(28, le_bytes 2 1)].

(** Queues the device must be given: a power of two of at most 32 entries, with
    the three areas aligned and inside guest RAM. *)
Definition setup_valid (mem : list Z) (size desc driver device : Z) : bool :=
  existsb (Z.eqb size) [1; 2; 4; 8; 16; 32] &&
  (desc mod 16 =? 0) && ValidRange mem desc 512 &&
  (driver mod 2 =? 0) && ValidRange mem driver 70 &&
  (device mod 4 =? 0) && ValidRange mem device 264.

Lemma le_uint32_le v : le_uint32 (le_bytes 4 v) 0 = v mod 2 ^ 32.
Proof. unfold le_uint32. rewrite zslice_all by apply zlen_le_bytes. apply le_val_bytes. Qed.

Lemma le_uint16_le v : le_uint16 (le_bytes 2 v) 0 = v mod 2 ^ 16.
Proof. unfold le_uint16. rewrite zslice_all by apply zlen_le_bytes. apply le_val_bytes. Qed.

(** Both halves written make up the value. *)
Lemma setLoHi_both p v : is_u64 v -> setLoHi (setLoHi p 0 (v mod 2 ^ 32)) 1 ((v / 2 ^ 32) mod 2 ^ 32) = v.
Proof.
  intros Hv. unfold is_u64 in Hv. pose proof (Z.mod_pos_bound v (2 ^ 32)).
  assert (0 <= v / 2 ^ 32 < 2 ^ 32) by (split; [apply Z.div_pos|apply Z.div_lt_upper_bound]; lia).
  rewrite (Z.mod_small (v / _)) by lia.
  rewrite setLoHi_lo, setLoHi_hi by (unfold is_u32; lia).
  rewrite (Z.add_comm (p / _ * _)), Z.mod_add, Z.mod_mod by lia.
  pose proof (Z.div_mod v (2 ^ 32)). lia.
Qed.

(** The transport with queue [idx] selected and its registers being [q]. *)
Definition atQueue (t : ModernTransport) (idx : Z) (q : queueState) : ModernTransport :=
  t <| queueSel := idx |> <| queues := zinsert idx q (queues t) |>.

Section AtQueue.
Variables (t : ModernTransport) (d : D) (idx : Z).
Hypothesis Hidx : 0 <= idx < zlen (queues t).

Lemma curQueue_at q : curQueue (atQueue t idx q) = Some q.
Proof using Hidx.
  unfold curQueue; cbn. rewrite zlen_insert, zlookup_insert, Z.eqb_refl by lia.
  destruct (_ <=? _) eqn:?; zbool; [lia|done].
Qed.

Lemma onCurQueue_at f q : onCurQueue f (atQueue t idx q) = atQueue t idx (f q).
Proof using Hidx.
  unfold onCurQueue. rewrite curQueue_at. unfold atQueue; cbn. f_equal.
  unfold zinsert. destruct (idx <? 0) eqn:?; [done|]. apply list_insert_insert_eq.
Qed.

Lemma mmio_select q :
  idx < 2 ^ 16 -> zlookup (queues t) idx = Some q ->
  MMIO 22 (le_bytes 2 idx) true (t, d) = (Ok (le_bytes 2 idx), (atQueue t idx q, d)).
Proof using Hidx.
  intros Hi Hq. rewrite MMIO_write_common by done. unfold commonWrite, gbind; cbn [Z.eqb Pos.eqb].
  rewrite dataUint16_eq, le_uint16_le, Z.mod_small by (rewrite ?zlen_le_bytes; lia).
  unfold updT, gupd, ret; cbn [fst snd]. repeat f_equal. unfold atQueue. destruct t; cbn in *. f_equal.
  unfold zinsert, zlookup in *. destruct (idx <? 0); [done|]. by rewrite list_insert_id.
Qed.

Lemma mmio_size q v :
  MMIO 24 (le_bytes 2 v) true (atQueue t idx q, d) =
    (Ok (le_bytes 2 v), (atQueue t idx (q <| vq_size := v mod 2 ^ 16 |>), d)).
Proof using Hidx.
  rewrite MMIO_write_common by done. unfold commonWrite; cbn [Z.eqb Pos.eqb].
  unfold queueWrite16, gbind, gget; cbn [fst snd].
  rewrite curQueue_at, dataUint16_eq, le_uint16_le by (rewrite ?zlen_le_bytes; lia).
  unfold updT, gupd; cbn [fst snd]. by rewrite onCurQueue_at.
Qed.

Lemma mmio_addr which half q v :
  0 <= which <= 2 -> half = 0 \/ half = 1 ->
  MMIO (32 + 8 * which + 4 * half) (le_bytes 4 v) true (atQueue t idx q, d) =
    (Ok (le_bytes 4 v), (atQueue t idx (writeQueueAddr q which half (v mod 2 ^ 32)), d)).
Proof using Hidx.
  intros Hw Hh. rewrite MMIO_write_common by (unfold commonCfgLen; rewrite ?zlen_le_bytes; lia).
  assert (Hc : commonWrite (32 + 8 * which + 4 * half) (le_bytes 4 v) (atQueue t idx q, d) =
    queueAddrWrite which half (le_bytes 4 v) (atQueue t idx q, d)).
  { assert (Hc3 : which = 0 \/ which = 1 \/ which = 2) by lia.
    destruct Hc3 as [-> | [-> | ->]], Hh as [-> | ->]; reflexivity. }
  unfold gbind. rewrite Hc. unfold queueAddrWrite, gbind.
  rewrite dataUint32_eq, le_uint32_le by (rewrite ?zlen_le_bytes; lia).
  unfold updT, gupd; cbn [fst snd]. by rewrite onCurQueue_at.
Qed.

Lemma mmio_enable q :
  MMIO 28 (le_bytes 2 1) true (atQueue t idx q, d) =
    let '(ready, q') := mapQueue (Mem t) (q <| vq_enable := 1 |>) in
    (Ok (le_bytes 2 1),
     (atQueue t idx q', match ready with Some sq => QueueReady idx sq d | None => d end)).
Proof using Hidx.
  rewrite MMIO_write_common by done. unfold commonWrite; cbn [Z.eqb Pos.eqb].
  unfold queueEnableWrite, gbind, gget; cbn [fst snd].
  rewrite curQueue_at, dataUint16_eq, le_uint16_le by (rewrite ?zlen_le_bytes; lia).
  cbn [vq_enable Mem atQueue set_field]. change (1 mod 2 ^ 16) with 1. cbn [Z.eqb Pos.eqb].
  destruct (mapQueue _ _) as [[sq|] q']; unfold updT, updD, gupd; cbn [fst snd]; by rewrite onCurQueue_at.
Qed.

End AtQueue.
End Setup.

Lemma size_test s :
  0 <= s ->
  (s =? 0) || (QueueSize <? s) || negb (s &&& (s - 1) =? 0) = negb (existsb (Z.eqb s) [1; 2; 4; 8; 16; 32]).
Proof.
  intros Hs. unfold QueueSize. destruct (32 <? s) eqn:E; zbool.
  - rewrite orb_true_r. cbn [existsb]. symmetry. apply negb_true_iff.
    repeat (apply orb_false_iff; split); lia.
  - assert (Hc : forall n : nat, (n < 33)%nat ->
      (Z.of_nat n =? 0) || false || negb (Z.of_nat n &&& (Z.of_nat n - 1) =? 0) =
      negb (existsb (Z.eqb (Z.of_nat n)) [1; 2; 4; 8; 16; 32])).
    { intros n Hn. do 33 (destruct n as [|n]; [reflexivity|]). lia. }
    specialize (Hc (Z.to_nat s) ltac:(lia)). by rewrite Z2Nat.id in Hc by lia.
Qed.

Lemma mapQueue_valid mem q :
  0 <= vq_size q ->
  mapQueue mem q =
    if setup_valid mem (vq_size q) (vq_desc q) (vq_driver q) (vq_device q)
    then (Some (mkSplitQueue (vq_desc q) (vq_driver q) (vq_device q) (vq_size q)), q)
    else (None, q <| vq_enable := 0 |>).
Proof.
  intros Hs. unfold mapQueue, setup_valid. rewrite size_test by done. unfold validArea.
  change sizeofDescTable with 512. change sizeofSplitAvail with 70. change sizeofSplitUsed with 264.
  destruct (existsb _ _), (_ =? 0), (ValidRange mem (vq_desc q) 512), (_ =? 0),
    (ValidRange mem (vq_driver q) 70), (_ =? 0), (ValidRange mem (vq_device q) 264); done.
Qed.

(** The register sequence with which a driver sets up a queue (select, size, three
    addresses in halves, enable) hands the device exactly the queue it describes when
    the size is a power of two of at most 32 and the three areas are aligned and
    inside guest memory, and otherwise leaves the device untouched and reads back as
    not enabled. *)
Theorem queue_setup_published {D} `{ModernDevice D} (t : ModernTransport) (d : D) idx size desc driver device :
  0 <= idx < zlen (queues t) -> idx < 2 ^ 16 -> is_u16 size -> is_u64 desc -> is_u64 driver -> is_u64 device ->
  let valid := setup_valid (Mem t) size desc driver device in
  exists t' q,
    mmioWrites (queueSetup idx size desc driver device) (t, d) =
      (Ok tt, (t', if valid then QueueReady idx (mkSplitQueue desc driver device size) d else d)) /\
    curQueue t' = Some q /\ vq_enable q = (if valid then 1 else 0).
Proof.
  intros Hi Hi' Hs Hd Hr Hu valid. destruct (zlookup_Some (queues t) idx Hi) as [q Hq].
  unfold queueSetup, write64. cbn [app mmioWrites].
  unfold gbind at 1. rewrite (mmio_select t d idx Hi q Hi' Hq).
  unfold gbind at 1. rewrite mmio_size by done.
  unfold gbind at 1. rewrite (mmio_addr t d idx Hi 0 0) by lia.
  unfold gbind at 1. rewrite (mmio_addr t d idx Hi 0 1) by lia.
  unfold gbind at 1. rewrite (mmio_addr t d idx Hi 1 0) by lia.
  unfold gbind at 1. rewrite (mmio_addr t d idx Hi 1 1) by lia.
  unfold gbind at 1. rewrite (mmio_addr t d idx Hi 2 0) by lia.
  unfold gbind at 1. rewrite (mmio_addr t d idx Hi 2 1) by lia.
  unfold gbind at 1. rewrite mmio_enable by done.
  unfold is_u16 in Hs. cbn -[setLoHi Z.div Z.modulo Z.pow mapQueue]. rewrite !setLoHi_both by done.
  rewrite (Z.mod_small size) by lia. rewrite mapQueue_valid by (cbn; lia). cbn -[setup_valid atQueue]. fold valid.
  destruct valid; eexists _, _; (split; [reflexivity|split; [by apply curQueue_at|done]]).
Qed.

(** ** Feature negotiation *)

(** A driver accepting the features [want] and setting [status]. *)
Definition negotiation (want status : Z) : list (Z * list Z) :=
  [(8, le_bytes 4 0); (12, le_bytes 4 want); (8, le_bytes 4 1); (12, le_bytes 4 (want / 2 ^ 32));
   (20, [status])].

Lemma mmio_featureSel {D} `{ModernDevice D} t (d : D) v :
  MMIO 8 (le_bytes 4 v) true (t, d) = (Ok (le_bytes 4 v), (t <| driverFeatureSel := v mod 2 ^ 32 |>, d)).
Proof.
  rewrite MMIO_write_common by done. unfold commonWrite, gbind; cbn [Z.eqb Pos.eqb].
  by rewrite dataUint32_eq, le_uint32_le by (rewrite ?zlen_le_bytes; lia).
Qed.

Lemma mmio_feature {D} `{ModernDevice D} t (d : D) v :
  MMIO 12 (le_bytes 4 v) true (t, d) =
    (Ok (le_bytes 4 v),
     (t <| driverFeature := zinsert (driverFeatureSel t &&& 0x1) (v mod 2 ^ 32) (driverFeature t) |>, d)).
Proof.
  rewrite MMIO_write_common by done. unfold commonWrite, gbind; cbn [Z.eqb Pos.eqb].
  by rewrite dataUint32_eq, le_uint32_le by (rewrite ?zlen_le_bytes; lia).
Qed.

(** A one-byte write of the device status. *)
Lemma mmio_status_eq {D} `{ModernDevice D} v (s : ModernTransport * D) :
  MMIO 20 [v] true s =
    (do! (if v =? 0 then
            do! (match Reset with Some f => updD f | None => ret tt end) in
            do! onT clearInterrupt in ret tt
          else ret tt) in
     do! (do! (if v =? 0 then updT resetRegisters else ret tt) in
          updT (fun t => t <| deviceStatus := v |>)) in
     ret [v]) s.
Proof. reflexivity. Qed.

Lemma mmio_status {D} `{ModernDevice D} t (d : D) v :
  v <> 0 -> MMIO 20 [v] true (t, d) = (Ok [v], (t <| deviceStatus := v |>, d)).
Proof.
  intros Hv. rewrite mmio_status_eq. destruct (v =? 0) eqn:?; zbool; [lia|]. reflexivity.
Qed.

(** After the driver writes both feature words and the device status, the features
    the device uses are those both sides have, and none before the driver set
    FEATURES_OK. *)
Theorem negotiation_accepts_offered {D} `{ModernDevice D} (t : ModernTransport) (d : D) want status :
  twf t -> is_u64 want -> is_u8 status -> status <> 0 ->
  exists t', mmioWrites (negotiation want status) (t, d) = (Ok tt, (t', d)) /\
    negotiatedFeatures t' = if Z.testbit status 3 then want &&& features t else 0.
Proof.
  intros T Hw Hs Hz. destruct (tw_rf t T) as (a & b & Hrf & _).
  unfold negotiation, mmioWrites.
  unfold gbind at 1. rewrite mmio_featureSel. unfold gbind at 1. rewrite mmio_feature.
  unfold gbind at 1. rewrite mmio_featureSel. unfold gbind at 1. rewrite mmio_feature.
  unfold gbind at 1. rewrite mmio_status by done.
  eexists. split; [reflexivity|]. unfold negotiatedFeatures. cbn -[Z.land Z.lor Z.shiftl Z.modulo Z.div Z.pow Z.testbit zget].
  rewrite Hrf. change (0 mod 2 ^ 32 &&& 1) with 0. change (1 mod 2 ^ 32 &&& 1) with 1. cbn [zinsert].
  change 8 with (2 ^ 3). rewrite land_pow2_zero by lia. unfold is_u64 in Hw.
  destruct (Z.testbit status 3); cbn [negb]; [|done]. f_equal.
  change (zget _ 1) with ((want / 2 ^ 32) mod 2 ^ 32). change (zget _ 0) with (want mod 2 ^ 32).
  assert (0 <= want / 2 ^ 32 < 2 ^ 32) by (split; [apply Z.div_pos|apply Z.div_lt_upper_bound]; lia).
  rewrite (Z.mod_small (want / _)), Z.shiftl_mul_pow2, lor_low by (try apply Z.mod_pos_bound; lia).
  pose proof (Z.div_mod want (2 ^ 32)). lia.
Qed.

(** ** Reset *)

(** Writing 0 to the device status resets the device and puts the transport's
    registers back to those of a new transport (the configuration generation apart),
    with no pending interrupt, no negotiated feature and guest memory untouched,
    whatever the interrupt line does. *)
Theorem reset_restores_initial {D} `{ModernDevice D} (t : ModernTransport) (d : D) :
  features t = DeviceFeatures d ||| featureVersion1 ->
  length (queues t) = Z.to_nat (NumQueues d) ->
  exists t', MMIO 20 [0] true (t, d) = (Ok [0], (t', match Reset with Some f => f d | None => d end)) /\
    isr t' = 0 /\ Mem t' = Mem t /\ negotiatedFeatures t' = 0 /\
    commonImage t' = commonImage (NewModernTransport d (Mem t) (guest t) (irq t) <| configGen := configGen t |>).
Proof.
  intros Hf Hq. rewrite mmio_status_eq. change (0 =? 0) with true. cbv iota.
  pose proof (wp_clearInterrupt t) as Hc. unfold wp in Hc.
  destruct (clearInterrupt t) as [[st| | |] tc] eqn:Ec; [|done..].
  destruct Hc as (_ & _ & l & e & ->).
  assert (Hdev : forall d' : D, onT clearInterrupt (t, d') =
    (Ok st, (t <| isr := 0 |> <| irq := l |> <| irqError := e |>, d'))).
  { intros d'. unfold onT; cbn [fst snd]. by rewrite Ec. }
  unfold gbind at 1 2 3. destruct Reset as [f|]; unfold updD, gupd, ret at 1; cbn [fst snd];
    rewrite Hdev; eexists; (split; [reflexivity|]); cbn [fst snd]; splits; try done.
  all: unfold commonImage, deviceFeature, curQueue, NewModernTransport, resetRegisters; cbn -[put_le zlen replicate zinsert u16];
    rewrite Hf; replace (map (fun _ => freshQueue) (queues t)) with (replicate (Z.to_nat (NumQueues d)) freshQueue); [done|].
  all: rewrite <- Hq; clear; induction (queues t); cbn; congruence.
Qed.

(** ** The interrupt line *)

(** Interrupt sources of the device, the periodic re-assertion of its worker
    and the driver's read of the ISR byte. *)
Inductive irqOp : Type := OpInterrupt | OpConfigChanged | OpReinject | OpReadISR.

Definition runIrqOp (op : irqOp) : M ModernTransport (list Z) :=
  match op with
  | OpInterrupt => do! Interrupt in ret []
  | OpConfigChanged => do! ConfigChanged in ret []
  | OpReinject => do! ReinjectIfPending in ret []
  | OpReadISR => let! status := clearInterrupt in ret [status]
  end.

Fixpoint runIrqOps (ops : list irqOp) : M ModernTransport (list Z) :=
  match ops with
  | [] => ret []
  | op :: ops => let! a := runIrqOp op in let! b := runIrqOps ops in ret (a ++ b)
  end.

(** The causes pending after each operation, and the values read. *)
Fixpoint irqSpec (ops : list irqOp) (pending : Z) : list Z * Z :=
  match ops with
  | [] => ([], pending)
  | OpInterrupt :: ops => irqSpec ops (pending ||| 1)
  | OpConfigChanged :: ops => irqSpec ops (pending ||| 2)
  | OpReinject :: ops => irqSpec ops pending
  | OpReadISR :: ops => let '(reads, last) := irqSpec ops 0 in (pending :: reads, last)
  end.

(** A level-triggered line that works. *)
Definition line_works (t : ModernTransport) : Prop :=
  setIRQLevel t = true /\ irqError t = None /\ Forall (fun b => b = false) (irq_faults (irq t)).

Definition line_follows (t : ModernTransport) : Prop :=
  line_works t /\ is_u8 (isr t) /\ irq_level (irq t) = interruptPending t.

Lemma line_next l : Forall (fun b => b = false) (irq_faults l) ->
  irq_next l = false /\ Forall (fun b => b = false) (irq_faults (irq_used l)).
Proof.
  unfold irq_next, irq_used. cbn. destruct (irq_faults l) as [|b r]; [done|].
  intros Hf. inversion Hf; subst. done.
Qed.

Lemma raiseIRQ_works t :
  line_works t ->
  raiseIRQ t = (Ok tt, t <| irq := irq_used (irq t) <| irq_level := true |> |>).
Proof.
  intros (Hl & He & Hf). destruct (line_next _ Hf) as [Hn _].
  unfold raiseIRQ, gbind, gget. rewrite He, Hl. unfold callSetLevel. by rewrite Hn.
Qed.

Lemma pending_lor x b : is_u8 x -> is_u8 b -> b <> 0 -> is_u8 (x ||| b) /\ (x ||| b =? 0) = false.
Proof.
  intros Hx Hb Hz. split; [by apply (lor_range x b 8)|]. apply Z.eqb_neq.
  intros He%Z.lor_eq_0_iff. lia.
Qed.

(** One operation keeps the line equal to the pending state. *)
Lemma runIrqOp_follows op t :
  line_follows t ->
  exists out t', runIrqOp op t = (Ok out, t') /\ line_follows t' /\
    forall ops, irqSpec (op :: ops) (isr t) = (out ++ fst (irqSpec ops (isr t')), snd (irqSpec ops (isr t'))).
Proof.
  intros (W & Hi & Hl). pose proof W as (Hs & He & Hf). destruct (line_next _ Hf) as [Hn Hf'].
  assert (Hset : forall b t1, b = 1 \/ b = 2 -> setIRQLevel t1 = true -> irqError t1 = None ->
    irq t1 = irq t -> isr t1 = isr t ->
    exists t', (do! gupd (setPendingInterrupt b) in raiseIRQ) t1 = (Ok tt, t') /\ line_follows t' /\
      isr t' = isr t ||| b).
  { intros b t1 Hb Hs1 He1 Hi1 Hr1. assert (Hz : is_u8 b /\ b <> 0) by (unfold is_u8; lia). destruct Hz as [Hb8 Hz].
    destruct (pending_lor (isr t) b Hi Hb8 Hz) as [Hp Hpz].
    unfold gbind at 1, gupd. eexists. rewrite raiseIRQ_works.
    - split; [reflexivity|]. unfold line_follows, line_works, interruptPending, setPendingInterrupt.
      rewrite Hr1. destruct (isr t =? 0); cbn; rewrite ?Hr1, ?Hi1, ?Hpz; splits; done.
    - unfold line_works, setPendingInterrupt. destruct (isr t1 =? 0); cbn; rewrite ?Hi1; splits; done. }
  destruct op; cbn [runIrqOp].
  - destruct (Hset 1 t) as (t' & Hr & Hw & Ht); try done; [by left|].
    exists [], t'. unfold Interrupt, gbind at 1. rewrite Hr. splits; [done|done|].
    intros ops. cbn [irqSpec]. rewrite Ht. by destruct (irqSpec ops _).
  - destruct (Hset 2 (t <| configGen := u32 (configGen t + 1) |>)) as (t' & Hr & Hw & Ht); try done; [by right|].
    exists [], t'. unfold ConfigChanged. unfold gbind at 1 2, gupd at 1. rewrite Hr. splits; [done|done|].
    intros ops. cbn [irqSpec]. rewrite Ht. by destruct (irqSpec ops _).
  - unfold ReinjectIfPending, gbind, gget. destruct (interruptPending t) eqn:Hp.
    + rewrite raiseIRQ_works by done. eexists _, _. splits; [reflexivity|by splits|].
      intros ops. cbn. by destruct (irqSpec ops _).
    + rewrite He. exists [], t. splits; [done|by unfold line_follows; rewrite Hp|].
      intros ops. cbn. by destruct (irqSpec ops _).
  - unfold clearInterrupt, gbind, gget, gupd. rewrite Hs. unfold gtry, callSetLevel; cbn. rewrite Hn.
    eexists _, _. splits; [reflexivity|by splits|]. intros ops. cbn. rewrite u8_small by done.
    by destruct (irqSpec ops 0).
Qed.

(** For every interleaving of queue interrupts, configuration changes, re-
    assertions and ISR reads, each read returns the causes raised since the previous
    read, and the level of the interrupt line is high exactly while a cause is
    pending. *)
Theorem intx_line_follows_isr ops t :
  line_follows t ->
  exists t', runIrqOps ops t = (Ok (fst (irqSpec ops (isr t))), t') /\
    isr t' = snd (irqSpec ops (isr t)) /\ irq_level (irq t') = negb (isr t' =? 0).
Proof.
  revert t. induction ops as [|op ops IH]; intros t Hf.
  - exists t. splits; try done. apply Hf.
  - destruct (runIrqOp_follows op t Hf) as (out & t1 & Hr & Hf1 & Hspec).
    destruct (IH t1 Hf1) as (t2 & Hr2 & Hi2 & Hl2). exists t2. rewrite Hspec. cbn [fst snd].
    splits; try done. cbn [runIrqOps]. unfold gbind at 1. rewrite Hr. unfold gbind. by rewrite Hr2.
Qed.

(** ** The capability list *)

(** The structures a driver finds by following the capability pointers of the
    configuration space: type, offset in the BAR and length. *)
Fixpoint capWalk (fuel : nat) (cfg : list Z) (ptr : Z) : list (Z * Z * Z) :=
  match fuel with
  | O => []
  | S fuel =>
      if ptr =? 0 then []
      else (zget cfg (ptr + 3), le_uint32 cfg (ptr + 8), le_uint32 cfg (ptr + 12)) ::
           capWalk fuel cfg (zget cfg (ptr + 1))
  end.

Definition region_disjoint (a b : Z * Z * Z) : Prop :=
  snd (fst a) + snd a <= snd (fst b) \/ snd (fst b) + snd b <= snd (fst a).

(** A driver that follows the capability pointers of the configuration space finds
    the common, notify, ISR and device structures in that order, each inside the BAR
    and no two of them overlapping. *)
Theorem capabilities_describe_bar t :
  0 <= configLen t <= 0x1000 ->
  let caps := capWalk 5 (zeros 0x40 ++ Capabilities t) capCommonAt in
  caps = [(cfgTypeCommon, commonCfgOffset, commonCfgLen); (cfgTypeNotify, notifyCfgOffset, notifyCfgLen);
          (cfgTypeISR, isrCfgOffset, isrCfgLen); (cfgTypeDevice, deviceCfgOffset, configLen t)] /\
  Forall (fun c => 0 <= snd (fst c) /\ snd (fst c) + snd c <= modernBARSize) caps /\
  ForallOrdPairs region_disjoint caps.
Proof.
  intros Hc. cbv zeta.
  assert (Hw : capWalk 5 (zeros 0x40 ++ Capabilities t) capCommonAt =
    [(cfgTypeCommon, commonCfgOffset, commonCfgLen); (cfgTypeNotify, notifyCfgOffset, notifyCfgLen);
     (cfgTypeISR, isrCfgOffset, isrCfgLen); (cfgTypeDevice, deviceCfgOffset, le_val (le_bytes 4 (u32 (configLen t))))])
    by reflexivity.
  rewrite Hw, le_val_bytes, u32_small, Z.mod_small by (change (256 ^ Z.of_nat 4) with (2 ^ 32); lia).
  splits; [done| |].
  - repeat constructor; cbn; unfold modernBARSize, commonCfgOffset, commonCfgLen, notifyCfgOffset, notifyCfgLen,
      isrCfgOffset, isrCfgLen, deviceCfgOffset; lia.
  - unfold region_disjoint, commonCfgOffset, commonCfgLen, notifyCfgOffset, notifyCfgLen,
      isrCfgOffset, isrCfgLen, deviceCfgOffset; repeat constructor; cbn; lia.
Qed.

(** ** Safety of guest accesses *)

(** An access of a guest to the BAR, of any offset and any length except a write
    shorter than the register it hits, returns without a panic, keeps the invariants
    of the transport and of the device, and does not change guest memory, the offered
    features or the number of queues. *)
Theorem MMIO_safe {D} `{ModernDeviceLaws D} offset data isWrite (s : ModernTransport * D) :
  twf (fst s) -> dev_inv (Mem (fst s)) (snd s) -> 0 <= offset -> bytes_ok data ->
  (isWrite = true -> common_width offset <= zlen data) ->
  exists data' s', MMIO offset data isWrite s = (Ok data', s') /\
    twf (fst s') /\ dev_inv (Mem (fst s')) (snd s') /\ Mem (fst s') = Mem (fst s) /\
    features (fst s') = features (fst s) /\ zlen (queues (fst s')) = zlen (queues (fst s)).
Proof.
  intros T Hd Ho Hb Hw. pose proof (wp_MMIO offset data isWrite s (conj T Hd) Ho Hb Hw) as Hs.
  unfold wp in Hs. destruct (MMIO _ _ _ s) as [[data'| | |] s']; [|done..].
  destruct Hs as ([T' Hd'] & Hm & Hf & Hq). by exists data', s'.
Qed.

(** A guest write of one to three bytes to any 32-bit register of the common
    configuration structure panics: the handler decodes four bytes without checking
    the length of the access. *)
Theorem short_register_write_panics {D} `{ModernDevice D} off data (s : ModernTransport * D) :
  off ∈ [0; 8; 12; 32; 36; 40; 44; 48; 52] -> 0 < zlen data < 4 -> fst (MMIO off data true s) = Panic.
Proof.
  intros Hin Hl. destruct s as [t d].
  assert (Hr : 0 <= off < commonCfgLen /\ off <> 20) by (unfold commonCfgLen; set_unfold in Hin; lia).
  rewrite MMIO_write_common by lia.
  assert (Hp : forall A k, fst (gbind (dataUint32 data) k (t, d)) = @Panic A).
  { intros A k. unfold gbind, dataUint32. destruct (zlen data <? 4) eqn:?; zbool; [done|lia]. }
  assert (Hc : fst (commonWrite off data (t, d)) = Panic).
  { repeat (apply elem_of_cons in Hin as [->|Hin]; [apply Hp|]). by apply elem_of_nil in Hin. }
  unfold gbind. destruct (commonWrite off data (t, d)) as [r s']. cbn in Hc. by subst r.
Qed.
