(* ===== verification/VirtioQueue.v ===== *)
(** Split virtqueues as the devices see them (the ring accesses of
    src/internal/virtio/blk.go and net.go): the fields of a queue in guest
    memory, the accesses of a device when the guest does not interfere, and the
    memory after an element was put on the used ring. *)

From S2P Require Import Prelude Bytes GuestMem VirtioModern.

(** The errors of [net.go] that the block device shares. *)
Definition ErrNoTxPacket : error := EMsg "no packet for tx".
Definition ErrVQNotInit : error := EMsg "vq not initialized".

(** The ring size the devices use: the negotiated one, or the maximum. *)
Definition ringSize (q : SplitQueue) : Z :=
  if negb (sq_Size q =? 0) && (sq_Size q <=? QueueSize) then sq_Size q else QueueSize.

(** ** The queue in memory *)

Definition descAt (mem : list Z) (q : SplitQueue) (i : Z) : SplitDesc :=
  decodeDesc (zslice mem (sq_Desc q + 16 * i) 16).
Definition availIdxAt (mem : list Z) (q : SplitQueue) : Z := le_uint16 mem (sq_Avail q + 2).
Definition availRingAt (mem : list Z) (q : SplitQueue) (i : Z) : Z := le_uint16 mem (sq_Avail q + 4 + 2 * i).
Definition usedIdxAt (mem : list Z) (q : SplitQueue) : Z := le_uint16 mem (sq_Used q + 2).
Definition usedElemAt (mem : list Z) (q : SplitQueue) (i : Z) : Z * Z :=
  (le_uint32 mem (sq_Used q + 4 + 8 * i), le_uint32 mem (sq_Used q + 8 + 8 * i)).

Definition apart (a n b m : Z) : Prop := a + n <= b \/ b + m <= a.

(** The used ring with one more element. *)
Definition usedMem (mem : list Z) (q : SplitQueue) (id len : Z) : list Z :=
  let u := usedIdxAt mem q in
  zwrite (zwrite mem (sq_Used q + 4 + 8 * (u mod ringSize q)) (encodeUsedElem (mkUsedElem id len)))
    (sq_Used q + 2) (le_bytes 2 (u16 (u + 1))).

Lemma ringSize_pos mem q : queue_ok mem q -> 0 < ringSize q <= QueueSize.
Proof.
  intros Hq. destruct (qo_size _ _ Hq) as (k & Hk & Hs). pose proof (Z.pow_pos_nonneg 2 k).
  unfold ringSize, QueueSize. destruct (_ && _) eqn:E; zbool; lia.
Qed.

Lemma decodeDesc_range b :
  bytes_ok b -> is_u64 (d_Addr (decodeDesc b)) /\ is_u32 (d_Len (decodeDesc b)) /\ is_u16 (d_Next (decodeDesc b)).
Proof. intros Hb. cbn. splits; auto with go. Qed.

(** ** Accesses without interference *)

Section Quiet.
Context {D : Type}.
Implicit Types (t : ModernTransport) (d : D) (q : SplitQueue).

Lemma load_quiet a n t d :
  guest t = [] -> ValidRange (Mem t) a n = true ->
  onT (memLoad a n) (t, d) = (Ok (zslice (Mem t) a n), (t, d)).
Proof. intros Hg Hv. unfold onT; cbn [fst snd]. by rewrite memLoad_quiet. Qed.

Lemma store_quiet a b t d :
  guest t = [] -> ValidRange (Mem t) a (zlen b) = true ->
  onT (memStore a b) (t, d) = (Ok tt, (t <| Mem := zwrite (Mem t) a b |>, d)).
Proof. intros Hg Hv. unfold onT; cbn [fst snd]. by rewrite memStore_quiet. Qed.

Lemma loadDesc_quiet q i t d :
  guest t = [] -> queue_ok (Mem t) q -> 0 <= i < QueueSize ->
  onT (loadDesc q i) (t, d) = (Ok (descAt (Mem t) q i), (t, d)).
Proof.
  intros Hg Hq Hi. unfold loadDesc. unfold onT; cbn [fst snd]. unfold gbind. rewrite memLoad_quiet; [done|done|].
  unfold QueueSize in Hi. eapply in_ram_range; [apply (qo_desc _ _ Hq)|unfold sizeofDescTable, QueueSize; lia..].
Qed.

Lemma loadUsedIdx_quiet q t d :
  guest t = [] -> queue_ok (Mem t) q -> onT (loadUsedIdx q) (t, d) = (Ok (usedIdxAt (Mem t) q), (t, d)).
Proof.
  intros Hg Hq. unfold onT, loadUsedIdx, gbind; cbn [fst snd]. rewrite memLoad_quiet; [|done|].
  - unfold usedIdxAt, le_uint16, ret. rewrite zslice_slice; [by rewrite Z.add_0_r|..]; try lia.
    destruct (qo_used _ _ Hq). lia.
  - eapply in_ram_range; [apply (qo_used _ _ Hq)|unfold sizeofSplitUsed; lia..].
Qed.

Lemma loadAvailIdx_quiet q t d :
  guest t = [] -> queue_ok (Mem t) q -> onT (loadAvailIdx q) (t, d) = (Ok (availIdxAt (Mem t) q), (t, d)).
Proof.
  intros Hg Hq. unfold onT, loadAvailIdx, gbind; cbn [fst snd]. rewrite memLoad_quiet; [|done|].
  - unfold availIdxAt, le_uint16, ret. rewrite zslice_slice; [by rewrite Z.add_0_r|..]; try lia.
    destruct (qo_avail _ _ Hq). lia.
  - eapply in_ram_range; [apply (qo_avail _ _ Hq)|unfold sizeofSplitAvail, QueueSize; lia..].
Qed.

Lemma loadAvailRing_quiet q i t d :
  guest t = [] -> queue_ok (Mem t) q -> 0 <= i < QueueSize ->
  onT (loadAvailRing q i) (t, d) = (Ok (availRingAt (Mem t) q i), (t, d)).
Proof.
  unfold QueueSize. intros Hg Hq Hi. unfold onT, loadAvailRing, gbind; cbn [fst snd]. rewrite memLoad_quiet; [|done|].
  - unfold availRingAt, le_uint16, ret. rewrite zslice_slice; [by rewrite Z.add_0_r|..]; try lia.
    destruct (qo_avail _ _ Hq). lia.
  - rewrite <- Z.add_assoc. eapply in_ram_range; [apply (qo_avail _ _ Hq)|unfold sizeofSplitAvail, QueueSize; lia..].
Qed.

Lemma used_slot_range mem q :
  queue_ok mem q -> 0 <= usedIdxAt mem q mod ringSize q < QueueSize.
Proof.
  intros Hq. pose proof (ringSize_pos _ _ Hq). pose proof (Z.mod_pos_bound (usedIdxAt mem q) (ringSize q)).
  unfold QueueSize in *. lia.
Qed.

Lemma addUsedIdx_quiet q delta t d :
  guest t = [] -> queue_ok (Mem t) q ->
  onT (addUsedIdx q delta) (t, d) =
    (Ok tt, (t <| Mem := zwrite (Mem t) (sq_Used q + 2) (le_bytes 2 (u16 (usedIdxAt (Mem t) q + delta))) |>, d)).
Proof.
  intros Hg Hq. pose proof (loadUsedIdx_quiet q t d Hg Hq) as Hl. unfold onT in *; cbn [fst snd] in *.
  unfold addUsedIdx, gbind. destruct (loadUsedIdx q t) as [[v| | |] t1]; try done. injection Hl as -> ->.
  rewrite memStore_quiet; [done|done|]. change (zlen (le_bytes 2 _)) with 2.
  eapply in_ram_range; [apply (qo_used _ _ Hq)|unfold sizeofSplitUsed; lia..].
Qed.

Lemma storeUsedRing_quiet q e t d :
  guest t = [] -> queue_ok (Mem t) q ->
  onT (storeUsedRing q (usedIdxAt (Mem t) q mod ringSize q) e) (t, d) =
    (Ok tt, (t <| Mem := zwrite (Mem t) (sq_Used q + 4 + 8 * (usedIdxAt (Mem t) q mod ringSize q)) (encodeUsedElem e) |>, d)).
Proof.
  intros Hg Hq. unfold storeUsedRing. apply store_quiet; [done|]. pose proof (used_slot_range _ _ Hq).
  rewrite <- Z.add_assoc. change (zlen (encodeUsedElem _)) with 8. unfold QueueSize in *.
  eapply in_ram_range; [apply (qo_used _ _ Hq)|unfold sizeofSplitUsed; lia..].
Qed.

End Quiet.

(** ** The used ring *)

Section Used.
Variables (mem : list Z) (q : SplitQueue) (id len : Z).
Hypotheses (Hq : queue_ok mem q).

#[local] Abbreviation slot := (usedIdxAt mem q mod ringSize q).
#[local] Abbreviation after := (usedMem mem q id len).

Lemma slot_range : 0 <= slot < QueueSize.
Proof using Hq. by apply used_slot_range. Qed.

Lemma used_bounds : 0 <= sq_Used q /\ sq_Used q + sizeofSplitUsed <= zlen mem.
Proof using Hq.
  destruct (qo_used _ _ Hq) as [Hu Hv].
  destruct (ValidRange_spec mem (sq_Used q) sizeofSplitUsed Hu ltac:(done) Hv) as [He _]. done.
Qed.

(** The bytes that do not change. *)
Lemma usedMem_out x :
  0 <= x -> ~ (sq_Used q <= x < sq_Used q + sizeofSplitUsed) -> zget after x = zget mem x.
Proof using Hq.
  intros Hx Ho. pose proof slot_range. pose proof used_bounds. unfold usedMem, sizeofSplitUsed, QueueSize in *. cbv zeta.
  rewrite !zget_write_out; [done|..]; change (zlen (le_bytes 2 _)) with 2; change (zlen (encodeUsedElem _)) with 8; lia.
Qed.

Lemma zlen_usedMem : zlen after = zlen mem.
Proof using Hq.
  pose proof slot_range. pose proof used_bounds. unfold usedMem, sizeofSplitUsed, QueueSize in *. cbv zeta.
  rewrite zlen_write by lia. change (zlen (le_bytes 2 _)) with 2.
  rewrite zlen_write by lia. change (zlen (encodeUsedElem _)) with 8. cbn [Z.eqb]. lia.
Qed.

Lemma bytes_ok_usedMem : bytes_ok mem -> bytes_ok after.
Proof.
  intros Hb. repeat apply bytes_ok_write; try done; [apply Forall_app; split|]; apply le_bytes_ok.
Qed.

Lemma usedMem_idx : usedIdxAt after q = u16 (usedIdxAt mem q + 1).
Proof using Hq.
  pose proof used_bounds. unfold usedIdxAt at 1, le_uint16, usedMem. cbv zeta.
  set (m2 := zwrite mem _ _). set (v := u16 _).
  pose proof (zslice_write m2 (sq_Used q + 2) (le_bytes 2 v) ltac:(lia)) as Hw.
  change (zlen (le_bytes 2 v)) with 2 in Hw. rewrite Hw, le_val_bytes. apply Z.mod_small, u16_range.
Qed.

Lemma usedMem_elem : usedElemAt after q slot = (u32 id, u32 len).
Proof using Hq.
  pose proof slot_range. pose proof used_bounds. unfold usedElemAt, le_uint32, usedMem, sizeofSplitUsed, QueueSize in *.
  cbv zeta. set (a := sq_Used q + 4 + 8 * slot). set (e := encodeUsedElem (mkUsedElem id len)).
  assert (Hl2 : zlen (zwrite mem a e) = zlen mem).
  { rewrite zlen_write by lia. change (zlen e) with 8. cbn [Z.eqb]. lia. }
  assert (Hs : forall o, 0 <= o -> o + 4 <= 8 ->
    zslice (zwrite (zwrite mem a e) (sq_Used q + 2) (le_bytes 2 (u16 (usedIdxAt mem q + 1)))) (a + o) 4 = zslice e o 4).
  { intros o Ho He.
    assert (Hz : zslice (zwrite mem a e) a 8 = e) by (change 8 with (zlen e); apply zslice_write; lia).
    rewrite <- Hz at 2. rewrite zslice_slice by lia.
    fold (put_le (zwrite mem a e) (sq_Used q + 2) 2 (u16 (usedIdxAt mem q + 1))). apply zslice_put_le_out; lia. }
  replace (sq_Used q + 8 + 8 * slot) with (a + 4) by (unfold a; lia).
  rewrite <- (Z.add_0_r a) at 2. rewrite !Hs by lia.
  unfold e, encodeUsedElem. cbn [ue_ID ue_Len]. f_equal.
  - rewrite zslice_app_l by apply zlen_le_bytes. apply le_val_bytes.
  - transitivity (le_val (le_bytes 4 len)); [reflexivity|apply le_val_bytes].
Qed.

(** The other elements stay. *)
Lemma usedMem_other j : 0 <= j < QueueSize -> j <> slot -> usedElemAt after q j = usedElemAt mem q j.
Proof using Hq.
  intros Hj Hn. pose proof slot_range. pose proof used_bounds. pose proof zlen_usedMem as Hl.
  unfold sizeofSplitUsed, QueueSize in *.
  assert (Ho : forall o, 0 <= o <= 4 -> zslice after (sq_Used q + 4 + 8 * j + o) 4 = zslice mem (sq_Used q + 4 + 8 * j + o) 4).
  { intros o Ho. apply zslice_agree; try lia. intros i Hi. unfold usedMem. cbv zeta.
    rewrite zget_write_out by (change (zlen (le_bytes 2 _)) with 2; lia).
    apply zget_write_out; change (zlen (encodeUsedElem _)) with 8; lia. }
  unfold usedElemAt, le_uint32. replace (sq_Used q + 8 + 8 * j) with (sq_Used q + 4 + 8 * j + 4) by lia.
  rewrite <- (Z.add_0_r (sq_Used q + 4 + 8 * j)) at 1 3. by rewrite !Ho by lia.
Qed.

End Used.

(** An element stored and the index advanced. *)
Lemma putUsed_quiet {D} q id len t (d : D) :
  guest t = [] -> queue_ok (Mem t) q ->
  gbind (onT (storeUsedRing q (usedIdxAt (Mem t) q mod ringSize q) (mkUsedElem id len)))
    (fun _ => onT (addUsedIdx q 1)) (t, d) = (Ok tt, (t <| Mem := usedMem (Mem t) q id len |>, d)).
Proof.
  intros Hg Hq. unfold gbind. rewrite storeUsedRing_quiet by done.
  set (t1 := t <| Mem := _ |>). pose proof (used_slot_range _ _ Hq). pose proof (used_bounds _ _ Hq).
  unfold sizeofSplitUsed, QueueSize in *.
  assert (Hl : zlen (Mem t1) = zlen (Mem t)).
  { unfold t1; cbn [Mem set_field]. rewrite zlen_write by lia. change (zlen (encodeUsedElem _)) with 8. cbn [Z.eqb]. lia. }
  assert (Hi : usedIdxAt (Mem t1) q = usedIdxAt (Mem t) q).
  { unfold usedIdxAt, le_uint16. f_equal. apply zslice_agree; try lia. intros i Hi. unfold t1; cbn [Mem set_field].
    apply zget_write_out; change (zlen (encodeUsedElem _)) with 8; lia. }
  rewrite addUsedIdx_quiet; [by rewrite Hi|done|by apply (queue_ok_len _ _ _ Hl)].
Qed.

(** The index is not affected by a store beside the used ring. *)
Lemma usedIdxAt_out mem q a b :
  queue_ok mem q -> 0 <= a -> a + zlen b <= zlen mem -> apart a (zlen b) (sq_Used q) sizeofSplitUsed ->
  usedIdxAt (zwrite mem a b) q = usedIdxAt mem q.
Proof.
  intros Hq Ha He Hap. pose proof (used_bounds mem q Hq). pose proof (zlen_nonneg b).
  unfold apart, sizeofSplitUsed, usedIdxAt, le_uint16 in *. f_equal.
  assert (Hl : zlen (zwrite mem a b) = zlen mem) by (rewrite zlen_write by done; destruct (_ =? 0); lia).
  apply zslice_agree; try lia. intros i Hi. apply zget_write_out; lia.
Qed.

(** ** Walking chains *)

(** The descriptors of the table that were not visited. *)
Fixpoint unseen (seen : list bool) : nat :=
  match seen with [] => 0 | b :: rest => (if b then 0 else 1) + unseen rest end.

Lemma zlookup_unseen j : 0 <= j < QueueSize -> zlookup (replicate (Z.to_nat QueueSize) false) j = Some false.
Proof.
  unfold QueueSize. intros Hj. unfold zlookup. destruct (j <? 0) eqn:E; zbool; [lia|].
  apply lookup_replicate_2. lia.
Qed.

Lemma unseen_insert seen i : zlookup seen i = Some false -> unseen seen = S (unseen (zinsert i true seen)).
Proof.
  unfold zlookup, zinsert. destruct (i <? 0); [done|]. generalize (Z.to_nat i). clear i.
  induction seen as [|b seen IH]; intros n Hn; [done|]. destruct n as [|n]; cbn in *.
  - by injection Hn as ->.
  - rewrite (IH n Hn). destruct b; reflexivity.
Qed.

Lemma in_ram_prefix mem a n k : in_ram mem a n -> 0 <= k <= n -> in_ram mem a k.
Proof. intros [Ha Hv] Hk. split; [done|]. apply (ValidRange_sub _ a n); try done; lia. Qed.

(** The entries of the available ring a device did not take yet. *)
Lemma count_waiting last n idx :
  idx = u16 (last + n) -> is_u16 last -> 0 < n <= QueueSize -> u16 (idx - last) = n /\ (last =? idx) = false.
Proof.
  unfold is_u16, QueueSize. intros -> Hl Hn.
  assert (Hm : u16 (u16 (last + n) - last) = n).
  { unfold u16. rewrite Zminus_mod_idemp_l. replace (last + n - last) with n by lia. apply Z.mod_small. lia. }
  split; [done|]. apply Z.eqb_neq. intros He. rewrite <- He, Z.sub_diag in Hm. change (u16 0) with 0 in Hm. lia.
Qed.
