(* ===== verification/VirtioBlk.v ===== *)
(** The virtio block device (src/internal/virtio/blk.go).

    A [Blk] is a transport together with the device state.  The backing image
    is any type with the operations of [Disk.ImageOps]; the properties use its
    laws ([Disk.ImageLaws]) only, so they hold for raw and QCOW2 images. *)

From S2P Require Import Prelude Bytes Disk GuestMem VirtioModern VirtioQueue.

Definition SectorSize : Z := 512.

Definition blkFeatureRO : Z := 2 ^ 5.
Definition blkFeatureFlush : Z := 2 ^ 9.

Definition blkNumQueues : Z := 1.
Definition blkQueue : Z := 0.

Definition errReadOnlyBlk : error := EMsg "virtio-blk: write to read-only device".
Definition ErrBlkDesc : error := EMsg "invalid virtio-blk descriptor chain".
Definition ErrClosedPipe : error := EMsg "io: read/write on closed pipe".

(** [kick] counts the elements of the channel of that name, [done] says that
    the channel [done] is closed. *)
Record blkDev (I : Type): Type := mkBlkDev {
  image : I;
  capacity : Z;
  readOnly : bool;
  VirtQueue : option SplitQueue;
  LastAvailIdx : Z;
  kick : Z;
  done_ : bool;
  dirty : bool
}.
Arguments mkBlkDev {I}.
Arguments image {I}.
Arguments capacity {I}.
Arguments readOnly {I}.
Arguments VirtQueue {I}.
Arguments LastAvailIdx {I}.
Arguments kick {I}.
Arguments done_ {I}.
Arguments dirty {I}.
#[export] Instance blkDev_eta {I : Type} : Settable (blkDev I) := fun r =>
  mkBlkDev (image r) (capacity r) (readOnly r) (VirtQueue r) (LastAvailIdx r) (kick r) (done_ r)
    (dirty r).

(** A request whose fields were validated.  [c_status] and [c_data] are the
    guest address of the status byte and the slice of guest memory. *)
Record blkPendingRequest : Type := mkPending {
  c_id : Z;
  c_length : Z;
  c_status : option Z;
  c_data : Z * Z;
  c_offset : Z;
  c_result : Z;
  c_write : bool;
  c_flush : bool
}.
#[export] Instance blkPendingRequest_eta : Settable blkPendingRequest := fun r =>
  mkPending (c_id r) (c_length r) (c_status r) (c_data r) (c_offset r) (c_result r) (c_write r)
    (c_flush r).

Definition noRequest : blkPendingRequest := mkPending 0 0 None (0, 0) 0 0 false false.

Section Blk.
Context {I : Type} `{ImageOps I}.

Definition Blk : Type := ModernTransport * blkDev I.

Definition updB (f : blkDev I -> blkDev I) : M Blk unit := gupd (fun s => (fst s, f (snd s))).

(** An operation of the image. *)
Definition onImage {A} (m : M I A) : M Blk A := fun s =>
  let '(r, i) := m (image (snd s)) in (r, (fst s, snd s <| image := i |>)).

(** ** The device behind the transport *)

Definition blkReadDeviceConfig (d : blkDev I) (offset : Z) (data : list Z) : list Z :=
  let cfg := le_bytes 8 (capacity d) in
  if 8 <=? offset then zeros (zlen data)
  else
    let last := Z.min (offset + zlen data) 8 in
    zcopy (zeros (zlen data)) (zslice cfg offset (last - offset)).

Definition blkNotify (d : blkDev I) : blkDev I := d <| kick := Z.min QueueSize (kick d + 1) |>.

Definition blkQueueReady (idx : Z) (q : SplitQueue) (d : blkDev I) : blkDev I :=
  if idx =? blkQueue then blkNotify (d <| VirtQueue := Some q |> <| LastAvailIdx := 0 |>) else d.

Definition blkReset (d : blkDev I) : blkDev I := d <| VirtQueue := None |> <| LastAvailIdx := 0 |>.

#[export] Instance blk_device : ModernDevice (blkDev I) := {
  DeviceFeatures d := if readOnly d then blkFeatureRO ||| blkFeatureFlush else blkFeatureFlush;
  NumQueues _ := blkNumQueues;
  DeviceConfigLen _ := 8;
  ReadDeviceConfig := blkReadDeviceConfig;
  WriteDeviceConfig _ _ d := d;
  QueueReady := blkQueueReady;
  Notify _ d := blkNotify d;
  Reset := Some blkReset
}.

(** [newBlk]. *)
Definition newBlk (img : I) (ro : bool) (mem : list Z) (guest : list guestStores) (line : irqLine) : Blk :=
  let d := mkBlkDev img (img_Size img / SectorSize) ro None 0 0 false false in
  (NewModernTransport d mem guest line, d).

(** ** Requests *)

(** The fields of the request header, read when [j = 0]. *)
Definition readHeaderFields (writeback : bool) (addr : Z) (c : blkPendingRequest) : M Blk blkPendingRequest :=
  let! tb := onT (memLoad addr 4) in
  let typ := le_uint32 tb 0 in
  let! sb := onT (memLoad (addr + 8) 8) in
  let sector := le_uint64 sb 0 in
  let! s := gget in
  let flush := (typ =? 4) && writeback in
  let c := c <| c_write := typ =? 1 |> <| c_flush := flush |> in
  let c := if capacity (snd s) <? sector then c <| c_result := 1 |>
           else c <| c_offset := i64 (u64 (sector * SectorSize)) |> in
  ret (if negb (typ =? 0) && negb (typ =? 1) && negb flush then c <| c_result := 2 |> else c).

(** The loop of [snapshotRequest]: [n] rounds are left, [j] are done. *)
Fixpoint snapshotLoop (q : SplitQueue) (queueSize : Z) (writeback : bool) (n : nat) (j descID : Z)
    (seen : list bool) (c : blkPendingRequest) : M Blk blkPendingRequest :=
  match n with
  | O => ret c
  | S n =>
      if (queueSize <=? descID) || default false (zlookup seen descID) then throw ErrBlkDesc
      else
        let! desc := onT (loadDesc q descID) in
        let! s := gget in
        if negb (ValidRange (Mem (fst s)) (d_Addr desc) (d_Len desc)) || ((j =? 0) && (d_Len desc <? 16))
        then throw ErrBlkDesc
        else
          let c := c <| c_length := u32 (c_length c + d_Len desc) |> in
          let! c := if j =? 0 then readHeaderFields writeback (d_Addr desc) c
                    else ret (if negb (c_result c =? 2) && negb (c_flush c) && (j =? 1)
                              then c <| c_data := (d_Addr desc, d_Len desc) |> else c) in
          let last := if (c_result c =? 2) || c_flush c then d_Flags desc &&& descFNext =? 0 else j =? 2 in
          if last then
            if (j =? 0) || (d_Len desc =? 0) ||
               (((c_result c =? 2) || c_flush c) && (d_Flags desc &&& descFWrite =? 0))
            then throw ErrBlkDesc
            else
              let c := c <| c_status := Some (d_Addr desc) |> in
              ret (if c_flush c then c <| c_length := 1 |> else c)
          else snapshotLoop q queueSize writeback n (j + 1) (d_Next desc) (zinsert descID true seen) c
  end.

Definition snapshotRequest (q : SplitQueue) (queueSize descID : Z) (writeback : bool) : M Blk blkPendingRequest :=
  let! c := snapshotLoop q queueSize writeback (Z.to_nat queueSize) 0 descID
              (replicate (Z.to_nat QueueSize) false) (noRequest <| c_id := descID |>) in
  match c_status c with
  | None => throw ErrBlkDesc
  | Some _ =>
      let! s := gget in
      if (c_result c =? 0) && negb (c_flush c) then
        let capacityBytes := u64 (capacity (snd s) * SectorSize) in
        let offset := u64 (c_offset c) in
        if (capacityBytes <? offset) || (capacityBytes - offset <? snd (c_data c))
        then ret (c <| c_result := 1 |>) else ret c
      else ret c
  end.

(** The requests at [LastAvailIdx + i], ..., of which [n] are left. *)
Fixpoint snapshotAll (q : SplitQueue) (queueSize : Z) (writeback : bool) (n : nat) (i : Z)
    : M Blk (list blkPendingRequest) :=
  match n with
  | O => ret []
  | S n =>
      let! s := gget in
      let! head := onT (loadAvailRing q (u16 (LastAvailIdx (snd s) + i) mod queueSize)) in
      let! c := snapshotRequest q queueSize head writeback in
      let! rest := snapshotAll q queueSize writeback n (i + 1) in
      ret (c :: rest)
  end.

Definition syncImage : M Blk unit :=
  do! onImage img_Sync in
  updB (fun d => d <| dirty := false |>).

(** Write the slice of guest memory to the image, and read the image into it.
    The image call sees the memory as it is when the call starts. *)
Definition writeData (c : blkPendingRequest) : M Blk (option error) :=
  let! b := onT (memLoad (fst (c_data c)) (snd (c_data c))) in
  let! r := onImage (img_WriteAt b (c_offset c)) in
  ret (snd r).

Definition readData (c : blkPendingRequest) : M Blk (option error) :=
  let! b := onT (memLoad (fst (c_data c)) (snd (c_data c))) in
  let! r := onImage (img_ReadAt b (c_offset c)) in
  do! onT (memPut (fst (c_data c)) (fst (fst r))) in
  ret (snd r).

(** The image operation of one request: the request with its result, and
    whether the image was written. *)
Definition processRequest (c : blkPendingRequest) : M Blk (blkPendingRequest * bool) :=
  if c_result c =? 0 then
    let! s := gget in
    let! r :=
      if c_flush c then
        let! r := gtry syncImage in
        ret (match r with inl _ => None | inr e => Some e end, false)
      else if c_write c && readOnly (snd s) then ret (Some errReadOnlyBlk, false)
      else if c_write c then
        do! updB (fun d => d <| dirty := true |>) in
        let! err := writeData c in
        ret (err, true)
      else
        let! err := readData c in
        ret (err, false) in
    ret (match fst r with None => c | Some _ => c <| c_result := 1 |> end, snd r)
  else ret (c, false).

(** The stores of [completeRequests], [i] requests after [usedIdx]. *)
Fixpoint completeLoop (q : SplitQueue) (queueSize usedIdx i : Z) (pending : list blkPendingRequest) : M Blk unit :=
  match pending with
  | [] => ret tt
  | c :: rest =>
      match c_status c with
      | None => panic
      | Some a =>
          do! onT (memStore a [c_result c]) in
          do! onT (storeUsedRing q (u16 (usedIdx + i) mod queueSize) (mkUsedElem (c_id c) (c_length c))) in
          completeLoop q queueSize usedIdx (i + 1) rest
      end
  end.

Definition completeRequests (q : SplitQueue) (queueSize : Z) (pending : list blkPendingRequest) : M Blk unit :=
  let count := u16 (zlen pending) in
  let! usedIdx := onT (loadUsedIdx q) in
  do! completeLoop q queueSize usedIdx 0 pending in
  do! onT (addUsedIdx q count) in
  do! updB (fun d => d <| LastAvailIdx := u16 (LastAvailIdx d + count) |>) in
  onT Interrupt.

(** The loop over the pending requests: their results, whether the image was
    written, and the first interrupt error. *)
Fixpoint processAll (q : SplitQueue) (queueSize : Z) (writeback : bool) (pending : list blkPendingRequest)
    (needsSync : bool) (interruptErr : option error) : M Blk (list blkPendingRequest * bool * option error) :=
  match pending with
  | [] => ret ([], needsSync, interruptErr)
  | c :: rest =>
      let! r := processRequest c in
      let c := fst r in
      let needsSync := needsSync || snd r in
      let! interruptErr :=
        if writeback then
          let! x := gtry (completeRequests q queueSize [c]) in
          ret (match x, interruptErr with inr e, None => Some e | _, _ => interruptErr end)
        else ret interruptErr in
      let! r := processAll q queueSize writeback rest needsSync interruptErr in
      let '(done, needsSync, interruptErr) := r in
      ret (c :: done, needsSync, interruptErr)
  end.

(** The part of [IO] after the snapshot. *)
Definition runRequests (q : SplitQueue) (queueSize : Z) (writeback : bool) (pending : list blkPendingRequest)
    : M Blk unit :=
  let! r := processAll q queueSize writeback pending false None in
  let '(pending, needsSync, interruptErr) := r in
  if writeback then match interruptErr with Some e => throw e | None => ret tt end
  else
    let! pending :=
      if needsSync then
        let! r := gtry syncImage in
        match r with
        | inl _ => ret pending
        | inr _ => ret (map (fun c => if c_write c then c <| c_result := 1 |> else c) pending)
        end
      else ret pending in
    completeRequests q queueSize pending.

(** [IO]: one batch of requests. *)
Definition IO : M Blk unit :=
  let! s := gget in
  if done_ (snd s) then throw ErrClosedPipe
  else match VirtQueue (snd s) with
  | None => throw ErrVQNotInit
  | Some q =>
      let queueSize := ringSize q in
      let writeback := negb (negotiatedFeatures (fst s) &&& blkFeatureFlush =? 0) in
      let! idx := onT (loadAvailIdx q) in
      let count := u16 (idx - LastAvailIdx (snd s)) in
      if count =? 0 then throw ErrNoTxPacket
      else if queueSize <? count then throw ErrBlkDesc
      else
        let! pending := snapshotAll q queueSize writeback (Z.to_nat count) 0 in
        runRequests q queueSize writeback pending
  end.

(** [Close]; the argument is the outcome of closing the image.  The error is
    that of the first call. *)
Definition Close (imageClose : option error) : M Blk (option error) :=
  do! updB (fun d => d <| done_ := true |>) in
  let! s := gget in
  let! syncErr :=
    if dirty (snd s) then
      let! r := gtry syncImage in ret (match r with inl _ => None | inr e => Some e end)
    else ret None in
  ret (match syncErr, imageClose with
       | Some a, Some b => Some (EJoin a b)
       | Some a, None => Some a
       | None, e => e
       end).

End Blk.

(** ** Invariant *)

Section BlkInv.
Context {I : Type} `{ImageLaws I}.
Implicit Types (s : Blk (I := I)) (c : blkPendingRequest) (d : blkDev I).

Definition blkQueueOk (mem : list Z) (d : blkDev I) : Prop :=
  match VirtQueue d with Some q => queue_ok mem q | None => True end /\ is_u16 (LastAvailIdx d).

Record binv (s : Blk) : Prop := {
  bi_t : twf (fst s);
  bi_q : blkQueueOk (Mem (fst s)) (snd s);
  bi_img : img_inv (image (snd s));
  bi_cap : capacity (snd s) = img_Size (image (snd s)) / SectorSize
}.

#[export] Instance blk_laws : ModernDeviceLaws (blkDev I).
Proof.
  refine {| dev_inv := blkQueueOk |}.
  - done.
  - intros mem d i q [Hq Hl] Ho. unfold QueueReady, blk_device, blkQueueReady.
    destruct (i =? _); [|done]. split; cbn; [done|]. unfold is_u16. lia.
  - intros mem d i [Hq Hl]. done.
  - intros mem d f [= <-] _. split; cbn; [done|]. unfold is_u16. lia.
Defined.

(** A validated request: its addresses are in guest RAM and a request that is
    to be carried out lies within the capacity. *)
Record req_ok (mem : list Z) (cap : Z) (c : blkPendingRequest) : Prop := {
  rq_status : exists a, c_status c = Some a /\ in_ram mem a 1;
  rq_data : in_ram mem (fst (c_data c)) (snd (c_data c)) /\ 0 <= snd (c_data c);
  rq_range : c_result c = 0 -> c_flush c = false ->
    0 <= c_offset c /\ c_offset c + snd (c_data c) <= cap * SectorSize;
  rq_result : is_u8 (c_result c)
}.

(** What every step of the device leaves alone: the queue, the geometry, and of
    the disk everything beyond the capacity and, if it is read-only, all. *)
Record bframe (s s' : Blk) : Prop := {
  bf_len : zlen (Mem (fst s')) = zlen (Mem (fst s));
  bf_queue : VirtQueue (snd s') = VirtQueue (snd s);
  bf_cap : capacity (snd s') = capacity (snd s);
  bf_ro : readOnly (snd s') = readOnly (snd s);
  bf_done : done_ (snd s') = done_ (snd s);
  bf_size : img_Size (image (snd s')) = img_Size (image (snd s));
  bf_beyond : forall o, capacity (snd s) * SectorSize <= o ->
    img_byte (image (snd s')) o = img_byte (image (snd s)) o;
  bf_readonly : readOnly (snd s) = true ->
    forall o, 0 <= o -> img_byte (image (snd s')) o = img_byte (image (snd s)) o
}.

Definition bstep s s' : Prop := binv s' /\ bframe s s'.

Lemma bframe_refl s : bframe s s.
Proof. by constructor. Qed.

Lemma capacity_range s : binv s -> 0 <= capacity (snd s) /\ capacity (snd s) * SectorSize <= maxInt64.
Proof.
  intros B. rewrite (bi_cap s B). pose proof (img_size_range _ (bi_img s B)) as Hr. unfold SectorSize.
  pose proof (Z.mul_div_le (img_Size (image (snd s))) 512).
  pose proof (Z.div_pos (img_Size (image (snd s))) 512). lia.
Qed.

Lemma bframe_trans s1 s2 s3 : binv s1 -> bframe s1 s2 -> bframe s2 s3 -> bframe s1 s3.
Proof.
  intros B [? ? Hc ? ? ? Hb2 Hr2] [? ? ? ? ? ? Hb3 Hr3]. pose proof (capacity_range s1 B).
  constructor; try congruence.
  - intros o Ho. rewrite Hb3 by (rewrite Hc; done). by apply Hb2.
  - intros Hr o Ho. rewrite Hr3 by (congruence || done). by apply Hr2.
Qed.

Lemma bstep_refl s : binv s -> bstep s s.
Proof. intros B. split; [done|apply bframe_refl]. Qed.

Lemma bstep_trans s1 s2 s3 : binv s1 -> bstep s1 s2 -> bstep s2 s3 -> bstep s1 s3.
Proof. intros B [_ F12] [B3 F23]. split; [done|]. by apply (bframe_trans s1 s2 s3). Qed.

Lemma req_ok_len mem mem' cap c : zlen mem' = zlen mem -> req_ok mem cap c -> req_ok mem' cap c.
Proof.
  intros Hl [(a & Hs & Ha) Hd Hr ?].
  constructor; [exists a; split; [done|]|..]; unfold in_ram in *; rewrite ?(ValidRange_len _ _ _ _ Hl); done.
Qed.

(** The guest ran, or the device stored to guest memory. *)
Lemma bstep_mem s m g :
  binv s -> zlen m = zlen (Mem (fst s)) -> bytes_ok m ->
  bstep s (fst s <| Mem := m |> <| guest := g |>, snd s).
Proof.
  intros [T [Hq Hl] Hi Hc] Hm Hb. split; [|by constructor].
  constructor; cbn; try done; [destruct T; by constructor|].
  split; [|done]. destruct (VirtQueue (snd s)); [|done]. by apply (queue_ok_len _ _ _ Hm).
Qed.

Lemma bstep_yields s t' : binv s -> yields (fst s) t' -> bstep s (t', snd s).
Proof.
  intros B (m & g & -> & Hl & Hb). apply bstep_mem; [done|done|]. apply Hb, (tw_mem _ (bi_t s B)).
Qed.

Lemma zlen_zwrite_in mem a b :
  in_ram mem a (zlen b) -> zlen (zwrite mem a b) = zlen mem.
Proof.
  intros [Ha Hv]. destruct (ValidRange_spec mem a (zlen b) Ha (zlen_nonneg b) Hv) as [He _].
  rewrite zlen_write by done. destruct (_ =? 0); lia.
Qed.

Lemma bstep_put s a b :
  binv s -> in_ram (Mem (fst s)) a (zlen b) -> bytes_ok b ->
  bstep s (fst s <| Mem := zwrite (Mem (fst s)) a b |>, snd s).
Proof.
  intros B Ha Hb. pose proof (bi_t s B) as T.
  pose proof (bstep_mem s (zwrite (Mem (fst s)) a b) (guest (fst s)) B) as Hs.
  replace (fst s <| Mem := zwrite (Mem (fst s)) a b |>)
    with (fst s <| Mem := zwrite (Mem (fst s)) a b |> <| guest := guest (fst s) |>) by (by destruct s as [[] ?]).
  apply Hs; [by apply zlen_zwrite_in|]. apply bytes_ok_write; [apply (tw_mem _ T)|done].
Qed.

Lemma bstep_stored s a b t' :
  binv s -> in_ram (Mem (fst s)) a (zlen b) -> bytes_ok b -> stored a b (fst s) t' -> bstep s (t', snd s).
Proof.
  intros B Ha Hb (t1 & Hy & ->). pose proof (bstep_yields s t1 B Hy) as Hs1.
  eapply bstep_trans; [done|exact Hs1|]. apply (bstep_put (t1, snd s)); [apply Hs1| |done].
  destruct (yields_mem _ _ Hy) as (Hl & _). cbn. unfold in_ram in *. by rewrite (ValidRange_len _ _ _ _ Hl).
Qed.

End BlkInv.

(** ** Every step is safe *)

Section BlkSafe.
Context {I : Type} `{ImageLaws I}.
Implicit Types (s : Blk (I := I)) (c : blkPendingRequest).

(** Reading guest memory: only the guest may have run. *)
Definition reads s s' : Prop := bstep s s' /\ snd s' = snd s.

Lemma reads_refl s : binv s -> reads s s.
Proof. intros B. split; [by apply bstep_refl|done]. Qed.

Lemma reads_trans s1 s2 s3 : binv s1 -> reads s1 s2 -> reads s2 s3 -> reads s1 s3.
Proof. intros B [H12 E12] [H23 E23]. split; [by apply (bstep_trans s1 s2 s3)|congruence]. Qed.

Lemma reads_yields s t' : binv s -> yields (fst s) t' -> reads s (t', snd s).
Proof. intros B Hy. split; [by apply bstep_yields|done]. Qed.

Lemma wp_load s a n :
  binv s -> in_ram (Mem (fst s)) a n ->
  wp (onT (memLoad a n)) s (fun b s' => reads s s' /\ b = zslice (Mem (fst s')) a n) (fun _ _ => False).
Proof.
  intros B [Ha Hv]. apply wp_onT. wcall wp_memLoad; [done| |done].
  intros b t' [Hy ->]. split; [by apply reads_yields|done].
Qed.

Lemma in_ram_same mem mem' a n : zlen mem' = zlen mem -> in_ram mem a n -> in_ram mem' a n.
Proof. unfold in_ram. intros Hl. by rewrite (ValidRange_len _ _ _ _ Hl). Qed.

Lemma reads_len s s' : reads s s' -> zlen (Mem (fst s')) = zlen (Mem (fst s)).
Proof. intros [[_ F] _]. apply F. Qed.

(** The fields of a request while its chain is followed. *)
Record partial (mem : list Z) (cap : Z) (c : blkPendingRequest) : Prop := {
  pa_status : forall a, c_status c = Some a -> in_ram mem a 1;
  pa_data : in_ram mem (fst (c_data c)) (snd (c_data c)) /\ 0 <= snd (c_data c);
  pa_offset : c_result c = 0 -> 0 <= c_offset c <= cap * SectorSize;
  pa_result : is_u8 (c_result c)
}.

Lemma partial_len mem mem' cap c : zlen mem' = zlen mem -> partial mem cap c -> partial mem' cap c.
Proof.
  intros Hl [Hs [Hd ?] ? ?]. constructor; try done; [intros a Ha|split; [|done]]; eapply in_ram_same; eauto.
Qed.

Lemma wp_readHeaderFields writeback addr c s :
  binv s -> in_ram (Mem (fst s)) addr 16 -> partial (Mem (fst s)) (capacity (snd s)) c -> c_result c = 0 ->
  wp (readHeaderFields writeback addr c) s
    (fun c' s' => reads s s' /\ partial (Mem (fst s')) (capacity (snd s')) c') (fun _ _ => False).
Proof.
  intros B Ha Hp Hz. unfold readHeaderFields. wstep. wcall (wp_load s addr 4); [done| | |done].
  { split; [apply Ha|]. rewrite <- (Z.add_0_r addr). apply (in_ram_range _ _ 16); try lia. done. }
  intros tb s1 [R1 ->]. wstep. wcall (wp_load s1 (addr + 8) 8); [apply R1| | |done].
  { pose proof (in_ram_same _ _ _ _ (reads_len _ _ R1) Ha) as Ha1. split; [destruct Ha; lia|].
    apply (in_ram_range _ _ 16); try lia. done. }
  intros sb s2 [R2 ->]. wsteps. set (typ := le_uint32 _ 0). set (sector := le_uint64 _ 0).
  assert (R : reads s s2) by (eapply reads_trans; [done|exact R1|exact R2]).
  split; [done|]. rewrite (proj2 R).
  assert (Hsec : is_u64 sector).
  { apply le_uint64_range, bytes_ok_slice. apply (tw_mem _ (bi_t s2 (proj1 (proj1 R2)))). }
  pose proof (capacity_range s B) as Hc. unfold is_u64, maxInt64, SectorSize in *.
  destruct (partial_len _ _ _ _ (reads_len _ _ R) Hp) as [Hst Hd Ho Hr].
  destruct (capacity (snd s) <? sector) eqn:E1; zbool.
  - destruct (_ && _); constructor; cbn; try done; unfold is_u8; lia.
  - assert (Hof : i64 (u64 (sector * 512)) = sector * 512) by (rewrite u64_small, i64_small; lia).
    destruct (_ && _); constructor; cbn; try done; unfold is_u8; rewrite ?Hof; try lia.
    intros _. unfold SectorSize. lia.
Qed.

Lemma wp_loadDesc_s q i s :
  binv s -> queue_ok (Mem (fst s)) q -> 0 <= i < QueueSize ->
  wp (onT (loadDesc q i)) s
    (fun desc s' => reads s s' /\ is_u64 (d_Addr desc) /\ is_u32 (d_Len desc) /\ is_u16 (d_Next desc))
    (fun _ _ => False).
Proof.
  intros B Hq Hi. apply wp_onT. wcall wp_loadDesc; [done|done| |done].
  intros desc t' [Hy ->]. split; [by apply reads_yields|]. apply decodeDesc_range, bytes_ok_slice.
  apply (yields_mem _ _ Hy), (tw_mem _ (bi_t s B)).
Qed.

Lemma wp_snapshotLoop q queueSize writeback n j descID seen c s :
  binv s -> queue_ok (Mem (fst s)) q -> 0 < queueSize <= QueueSize -> 0 <= descID -> 0 <= j ->
  partial (Mem (fst s)) (capacity (snd s)) c -> (j = 0 -> c_result c = 0) ->
  wp (snapshotLoop q queueSize writeback n j descID seen c) s
    (fun c' s' => reads s s' /\ partial (Mem (fst s')) (capacity (snd s')) c')
    (fun e s' => e = ErrBlkDesc /\ reads s s').
Proof.
  revert j descID seen c s. induction n as [|n IH]; intros j descID seen c s B Hq Hqs Hd Hj Hp Hz; cbn [snapshotLoop].
  { wstep. split; [by apply reads_refl|done]. }
  destruct (_ || _) eqn:E; [wstep; split; [done|by apply reads_refl]|]. zbool.
  wstep. wcall wp_loadDesc_s; [done|done|lia| |done]. intros desc s1 (R1 & Ha & Hln & Hnx). do 2 wstep. cbv beta.
  destruct (_ || _) eqn:E2; [wstep; split; [done|done]|]. zbool. pose proof (reads_len _ _ R1) as L1.
  set (c1 := c <| c_length := _ |>).
  assert (Hp1 : partial (Mem (fst s1)) (capacity (snd s1)) c1).
  { rewrite (proj2 R1). destruct (partial_len _ _ _ _ L1 Hp). by constructor. }
  assert (Hram : in_ram (Mem (fst s1)) (d_Addr desc) (d_Len desc)).
  { split; [unfold is_u64 in Ha; lia|done]. }
  wstep. apply wp_mono with
    (Q := fun c2 s2 => reads s s2 /\ partial (Mem (fst s2)) (capacity (snd s2)) c2) (E := fun _ _ => False); [|..|done].
  - destruct (j =? 0) eqn:Ej; zbool.
    + wcall wp_readHeaderFields; [apply R1| |done|by apply Hz| |done].
      * destruct Hram. split; [lia|]. apply (ValidRange_sub _ (d_Addr desc) (d_Len desc)); try done; lia.
      * intros c2 s2 [R2 Hp2]. split; [by eapply reads_trans|done].
    + wstep. split; [done|]. destruct (negb _ && negb _ && _); [|exact Hp1].
      destruct Hp1. constructor; try done. cbn. unfold is_u32 in *. split; [done|lia].
  - intros c2 s2 [R2 Hp2]. cbv beta. pose proof (reads_len _ _ R2) as L2.
    destruct (if (_ : bool) then _ else _).
    + destruct (_ || _) eqn:E3; [wstep; done|]. zbool. wstep. split; [done|].
      assert (Hst : partial (Mem (fst s2)) (capacity (snd s2)) (c2 <| c_status := Some (d_Addr desc) |>)).
      { destruct Hp2. constructor; try done. cbn. intros a [= <-]. apply (in_ram_same _ _ _ _ (eq_trans L2 (eq_sym L1))).
        destruct Hram. split; [done|]. apply (ValidRange_sub _ (d_Addr desc) (d_Len desc)); try done.
        unfold is_u32 in *. lia. }
      destruct (c_flush _); [|done]. destruct Hst. by constructor.
    + wcall (IH (j + 1)); try lia; try done.
      * apply R2.
      * by apply (queue_ok_len _ _ _ L2).
      * unfold is_u16 in *. lia.
      * intros c3 s3 [R3 Hp3]. split; [by eapply reads_trans|done].
      * intros e s3 [-> R3]. split; [done|by eapply reads_trans].
Qed.

Lemma wp_snapshotRequest q queueSize descID writeback s :
  binv s -> queue_ok (Mem (fst s)) q -> 0 < queueSize <= QueueSize -> 0 <= descID ->
  wp (snapshotRequest q queueSize descID writeback) s
    (fun c s' => reads s s' /\ req_ok (Mem (fst s')) (capacity (snd s')) c)
    (fun e s' => e = ErrBlkDesc /\ reads s s').
Proof.
  intros B Hq Hqs Hd. unfold snapshotRequest. wstep. wcall wp_snapshotLoop; try done.
  { constructor; cbn; try done; [|intros _; pose proof (capacity_range s B); unfold SectorSize in *; lia].
    split; [|done]. split; [done|]. unfold ValidRange.
    pose proof (zlen_nonneg (Mem (fst s))). replace (_ || _) with false by (symmetry; apply orb_false_iff; lia). done. }
  intros c s1 [R [Hs Hda Ho Hr]]. destruct (c_status c) as [a|] eqn:Hst; [|by wstep].
  do 2 wstep. cbv beta. pose proof (capacity_range s1 (proj1 (proj1 R))) as Hc. unfold maxInt64, SectorSize in *.
  assert (Hok : forall r, is_u8 r -> (r = 0 -> c_result c = 0 /\
    (c_flush c = false -> c_offset c + snd (c_data c) <= capacity (snd s1) * SectorSize)) ->
    req_ok (Mem (fst s1)) (capacity (snd s1)) (c <| c_result := r |>)).
  { intros r Hr8 Hr0. constructor; cbn; try done; [exists a; auto|].
    intros -> Hf. destruct (Hr0 eq_refl) as [Hz Hle]. split; [apply (Ho Hz)|by apply Hle]. }
  destruct (_ && _) eqn:E1; zbool.
  - destruct (_ || _) eqn:E2; zbool; wstep; (split; [done|]).
    + apply Hok; [done|]. intros. lia.
    + specialize (Hok (c_result c) Hr). replace (c <| c_result := _ |>) with c in Hok by (by destruct c). apply Hok.
      intros _. split; [done|]. intros _. specialize (Ho ltac:(done)). destruct Hda as [_ Hn].
      rewrite !u64_small in * by lia. unfold SectorSize. lia.
  - wstep. split; [done|]. specialize (Hok (c_result c) Hr).
    replace (c <| c_result := _ |>) with c in Hok by (by destruct c). apply Hok.
    intros Hz. split; [done|]. intros Hf. rewrite Hz, Hf in E1. done.
Qed.

Lemma wp_snapshotAll q queueSize writeback n i s :
  binv s -> queue_ok (Mem (fst s)) q -> 0 < queueSize <= QueueSize ->
  wp (snapshotAll q queueSize writeback n i) s
    (fun cs s' => reads s s' /\ length cs = n /\ Forall (req_ok (Mem (fst s')) (capacity (snd s'))) cs)
    (fun e s' => e = ErrBlkDesc /\ reads s s').
Proof.
  revert i s. induction n as [|n IH]; intros i s B Hq Hqs; cbn [snapshotAll].
  { wstep. splits; [by apply reads_refl|done|done]. }
  do 3 wstep. apply wp_onT. wcall wp_loadAvailRing; [done| | |done].
  { unfold QueueSize in *. pose proof (Z.mod_pos_bound (u16 (LastAvailIdx (snd s) + i)) queueSize). lia. }
  intros head t1 [Hy ->]. pose proof (reads_yields s t1 B Hy) as R1. pose proof (reads_len _ _ R1) as L1.
  cbn in L1. wstep. wcall wp_snapshotRequest; [apply R1|by apply (queue_ok_len _ _ _ L1)|done| | |].
  { pose proof (le_uint16_range (Mem t1) (sq_Avail q + 4 + 2 * (u16 (LastAvailIdx (snd s) + i) mod queueSize))
      (tw_mem _ (bi_t _ (proj1 (proj1 R1))))) as Hr. unfold is_u16 in Hr. lia. }
  2: { intros e s2 [-> R2]. split; [done|by eapply reads_trans]. }
  intros c s2 [R2 Hc]. assert (R : reads s s2) by (by eapply reads_trans). wstep.
  wcall (IH (i + 1) s2); [apply R|by apply (queue_ok_len _ _ _ (reads_len _ _ R))|done| |].
  2: { intros e s3 [-> R3]. split; [done|by eapply reads_trans]. }
  intros cs s3 (R3 & Hn & Hcs). wstep. splits; [by eapply reads_trans|cbn; by rewrite Hn|].
  constructor; [|done]. rewrite (proj2 R3). by apply (req_ok_len _ _ _ _ (reads_len _ _ R3)).
Qed.

Definition same_disk s s' : Prop :=
  forall o, 0 <= o -> img_byte (image (snd s')) o = img_byte (image (snd s)) o.

(** An image operation that keeps the disk. *)
Lemma bstep_image s i b :
  binv s -> img_inv i -> img_Size i = img_Size (image (snd s)) ->
  (forall o, capacity (snd s) * SectorSize <= o -> img_byte i o = img_byte (image (snd s)) o) ->
  (readOnly (snd s) = true -> forall o, 0 <= o -> img_byte i o = img_byte (image (snd s)) o) ->
  bstep s (fst s, snd s <| image := i |> <| dirty := b |>).
Proof.
  intros [T Hq Hi Hc] Hi' Hs Hb Hr. split; constructor; cbn; try done. by rewrite Hs.
Qed.

Lemma wp_syncImage s :
  binv s ->
  wp syncImage s
    (fun _ s' => bstep s s' /\ same_disk s s' /\ exists i, s' = (fst s, snd s <| image := i |> <| dirty := false |>))
    (fun _ s' => bstep s s' /\ same_disk s s' /\ exists i, s' = (fst s, snd s <| image := i |> <| dirty := dirty (snd s) |>)).
Proof.
  intros B. unfold syncImage. wstep. unfold onImage. pose proof (img_sync_law _ (bi_img s B)) as Hs.
  pose proof (capacity_range s B). unfold SectorSize in *.
  unfold wp in *. destruct (img_Sync (image (snd s))) as [[x|e| |] i]; try done; cbn in Hs |- *.
  - destruct Hs as (Hi & Hz & Hb). splits; [|done|by eexists].
    apply bstep_image; auto. intros o Ho. apply Hb. unfold SectorSize in *. lia.
  - destruct Hs as (Hi & Hz & Hb).
    splits; [|done|exists i; by destruct s as [? []]].
    assert (Hst : bstep s (fst s, snd s <| image := i |> <| dirty := dirty (snd s) |>)).
    { apply bstep_image; auto. intros o Ho. apply Hb. unfold SectorSize in *. lia. }
    by destruct s as [? []].
Qed.

(** A write of guest memory to the image; the image sees the memory [b]. *)
Lemma wp_writeData c s :
  binv s -> req_ok (Mem (fst s)) (capacity (snd s)) c -> c_result c = 0 -> c_flush c = false ->
  readOnly (snd s) = false ->
  wp (writeData c) s
    (fun err s' => bstep s s' /\ exists t' b n i, yields (fst s) t' /\
       b = zslice (Mem t') (fst (c_data c)) (snd (c_data c)) /\
       img_write_spec (image (snd s)) b (c_offset c) n err i /\ s' = (t', snd s <| image := i |>))
    (fun _ _ => False).
Proof.
  intros B [_ [Hd Hn] Hr _] Hz Hf Hro. destruct (Hr Hz Hf) as [Ho He]. unfold writeData. wstep. apply wp_onT.
  wcall wp_memLoad; [apply Hd| |done]. intros b t' [Hy ->]. pose proof (bstep_yields s t' B Hy) as S1.
  set (b := zslice (Mem t') _ _).
  assert (Hb : bytes_ok b) by (apply bytes_ok_slice, (tw_mem _ (bi_t _ (proj1 S1)))).
  pose proof (img_write_law (image (snd s)) b (c_offset c) (bi_img s B) Hb) as Hw.
  wstep. unfold onImage, wp in *. cbn [fst snd].
  destruct (img_WriteAt b (c_offset c) (image (snd s))) as [[[n err]|e| |] i]; try done. cbn.
  assert (Hlen : zlen b = snd (c_data c)).
  { destruct (ValidRange_spec _ _ _ (proj1 Hd) Hn (proj2 Hd)) as [Hl _]. destruct (yields_mem _ _ Hy) as [Hm _].
    unfold b. apply zlen_slice; [apply Hd|done|lia]. }
  split; [|by exists t', b, n, i]. eapply bstep_trans; [done|exact S1|].
  pose proof (capacity_range s B). destruct Hw as [Hi Hs _ Hout _ _ _ _]. unfold SectorSize in *.
  assert (Hst : bstep (t', snd s) (t', snd s <| image := i |> <| dirty := dirty (snd s) |>)).
  { apply (bstep_image (t', snd s)); try done; cbn; [apply S1| |congruence].
    intros o Hoc. apply Hout; unfold SectorSize in *; lia. }
  by destruct s as [? []].
Qed.

(** A read of the image into guest memory. *)
Lemma wp_readData c s :
  binv s -> req_ok (Mem (fst s)) (capacity (snd s)) c -> c_result c = 0 -> c_flush c = false ->
  wp (readData c) s
    (fun err s' => bstep s s' /\ same_disk s s' /\ exists t' b b' n i, yields (fst s) t' /\
       b = zslice (Mem t') (fst (c_data c)) (snd (c_data c)) /\
       img_read_spec (image (snd s)) b (c_offset c) b' n err i /\
       s' = (t' <| Mem := zwrite (Mem t') (fst (c_data c)) b' |>, snd s <| image := i |>))
    (fun _ _ => False).
Proof.
  intros B [_ [Hd Hn] Hr _] Hz Hf. destruct (Hr Hz Hf) as [Ho He]. unfold readData. wstep. apply wp_onT.
  wcall wp_memLoad; [apply Hd| |done]. intros b t' [Hy ->]. pose proof (bstep_yields s t' B Hy) as S1.
  set (b := zslice (Mem t') _ _). pose proof (img_read_law (image (snd s)) b (c_offset c) (bi_img s B)) as Hw.
  assert (Hb : bytes_ok b) by (apply bytes_ok_slice, (tw_mem _ (bi_t _ (proj1 S1)))).
  assert (Hlen : zlen b = snd (c_data c)).
  { destruct (ValidRange_spec _ _ _ (proj1 Hd) Hn (proj2 Hd)) as [Hl _]. destruct (yields_mem _ _ Hy) as [Hm _].
    unfold b. apply zlen_slice; [apply Hd|done|lia]. }
  pose proof (capacity_range s B). unfold SectorSize in *.
  wstep. unfold onImage. unfold wp at 1. unfold wp in Hw. cbn [fst snd] in *.
  destruct (img_ReadAt b (c_offset c) (image (snd s))) as [[[[b' n] err]|e| |] i]; try done.
  pose proof Hw as [Hi Hs Hv [Hl' _] _ _ _ Hok]. cbn [fst snd].
  assert (Hst : bstep (t', snd s) (t', snd s <| image := i |> <| dirty := dirty (snd s) |>)).
  { apply (bstep_image (t', snd s)); try done; cbn; [apply S1|].
    intros o Hoc. apply Hv. unfold SectorSize in *. lia. }
  assert (Hst' : bstep (t', snd s) (t', snd s <| image := i |>)) by (by destruct s as [? []]).
  assert (Hr' : in_ram (Mem t') (fst (c_data c)) (zlen b')).
  { rewrite Hl', Hlen. apply (in_ram_same (Mem (fst s))); [apply (yields_mem _ _ Hy)|done]. }
  wstep. apply wp_onT. wcall wp_memPut; [apply Hr'| |done]. intros [] t2 ->. wstep.
  assert (S2 : bstep s (t', snd s <| image := i |>)) by (by eapply bstep_trans).
  splits.
  - eapply bstep_trans; [done|exact S2|].
    apply (bstep_put (t', snd s <| image := i |>)); [apply S2|done|by apply Hok].
  - intros o Hoo. cbn. by apply Hv.
  - by exists t', b, b', n, i.
Qed.

(** The request after processing: only its result may have changed. *)
Definition processed c c' : Prop :=
  c' = c \/ c_result c = 0 /\ c' = c <| c_result := 1 |>.

Lemma processed_ok mem cap c c' : processed c c' -> req_ok mem cap c -> req_ok mem cap c'.
Proof. intros [-> | [_ ->]] Hr; [done|]. destruct Hr. by constructor. Qed.

Definition result_of c (err : option error) : blkPendingRequest :=
  match err with None => c | Some _ => c <| c_result := 1 |> end.

Lemma result_of_processed c err : c_result c = 0 -> processed c (result_of c err).
Proof. intros Hz. destruct err; [by right|by left]. Qed.

(** One request: the disk changes only if it is an executed write, and then
    the image is marked dirty. *)
Lemma wp_processRequest c s :
  binv s -> req_ok (Mem (fst s)) (capacity (snd s)) c ->
  wp (processRequest c) s
    (fun r s' => bstep s s' /\ LastAvailIdx (snd s') = LastAvailIdx (snd s) /\ processed c (fst r) /\
       (snd r = true -> c_write c = true) /\
       (snd r = false -> same_disk s s' /\ (dirty (snd s') = true -> dirty (snd s) = true)))
    (fun _ _ => False).
Proof.
  intros B Hr. unfold processRequest. destruct (c_result c =? 0) eqn:Hz; zbool.
  2: { wstep. splits; try done. by left. }
  do 3 wstep. destruct (c_flush c) eqn:Hf.
  { wstep. wstep. wcall wp_syncImage; [done|..]; intros ? s1 (S & Hs & i & ->); do 2 wstep; cbn [fst snd].
    - splits; try done. by left.
    - splits; try done. by right. }
  destruct (c_write c && readOnly (snd s)) eqn:Hro; zbool.
  { do 2 wstep. splits; try done. by right. }
  destruct (c_write c) eqn:Hw.
  - cbn [andb] in Hro. wstep. unfold updB. wstep. set (s1 := (fst s, snd s <| dirty := true |>)).
    assert (S1 : bstep s s1).
    { pose proof (bstep_image s (image (snd s)) true B (bi_img s B)) as Hst.
      destruct s as [? []]. by apply Hst. }
    wstep. wcall (wp_writeData c s1); try done; [apply S1|]. intros err s2 (S2 & t' & b & n & i & Hy & _ & _ & ->).
    do 2 wstep. splits; try done; [by eapply bstep_trans|by apply result_of_processed].
  - wstep. wcall (wp_readData c s); try done. intros err s2 (S2 & Hs & t' & b & b' & n & i & Hy & _ & _ & ->).
    do 2 wstep. splits; try done. by apply result_of_processed.
Qed.

Lemma bstep_irq s t' : binv s -> irq_only (fst s) t' -> bstep s (t', snd s).
Proof.
  intros [T Hq Hi Hc] (w & l & i & ->). split; [|by constructor].
  constructor; try done. destruct T. by constructor.
Qed.

Lemma wp_completeLoop q queueSize usedIdx i cs s :
  binv s -> queue_ok (Mem (fst s)) q -> 0 < queueSize <= QueueSize ->
  Forall (req_ok (Mem (fst s)) (capacity (snd s))) cs ->
  wp (completeLoop q queueSize usedIdx i cs) s (fun _ s' => reads s s') (fun _ _ => False).
Proof.
  revert i s. induction cs as [|c cs IH]; intros i s B Hq Hqs Hcs; cbn [completeLoop].
  { wstep. by apply reads_refl. }
  inversion Hcs as [|? ? Hc Hcs']; subst. destruct (rq_status _ _ _ Hc) as (a & -> & Ha).
  wstep. apply wp_onT. wcall wp_memStore; [apply Ha| |done]. intros [] t1 Hs1.
  assert (R1 : reads s (t1, snd s)).
  { split; [|done]. eapply (bstep_stored s a [c_result c]); [done|exact Ha| |exact Hs1]. constructor; [|constructor]. apply (rq_result _ _ _ Hc). }
  pose proof (reads_len _ _ R1) as L1. cbn [fst] in L1.
  wstep. apply wp_onT. wcall wp_storeUsedRing; [by apply (queue_ok_len _ _ _ L1)| | |done].
  { unfold QueueSize in *. pose proof (Z.mod_pos_bound (u16 (usedIdx + i)) queueSize). lia. }
  intros [] t2 Hs2. cbn [fst snd] in *.
  assert (R2 : reads s (t2, snd s)).
  { eapply reads_trans; [done|exact R1|]. split; [|done].
    eapply (bstep_stored (t1, snd s)); [apply R1| | |exact Hs2]; cbn [fst].
    - apply (in_ram_same _ _ _ _ L1). split; [unfold QueueSize in *|];
      pose proof (Z.mod_pos_bound (u16 (usedIdx + i)) queueSize); pose proof (qo_used _ _ Hq) as Hu.
      + destruct Hu. lia.
      + rewrite <- Z.add_assoc. change (zlen _) with 8.
        eapply in_ram_range; [exact Hu|unfold sizeofSplitUsed, QueueSize in *; lia..].
    - apply Forall_app. split; apply le_bytes_ok. }
  pose proof (reads_len _ _ R2) as L2.
  wcall IH; [apply R2|by apply (queue_ok_len _ _ _ L2)|done| | |done].
  { eapply Forall_impl; [|exact Hcs']. intros c'. by apply req_ok_len. }
  intros [] s3 R3. by eapply reads_trans.
Qed.

(** The requests are handed back: only guest memory, the interrupt state and
    the ring position change. *)
Definition completed (n : Z) s s' : Prop :=
  bstep s s' /\ snd s' = snd s <| LastAvailIdx := u16 (LastAvailIdx (snd s) + u16 n) |>.

Lemma wp_completeRequests q queueSize cs s :
  binv s -> queue_ok (Mem (fst s)) q -> 0 < queueSize <= QueueSize ->
  Forall (req_ok (Mem (fst s)) (capacity (snd s))) cs ->
  wp (completeRequests q queueSize cs) s (fun _ s' => completed (zlen cs) s s') (fun _ s' => completed (zlen cs) s s').
Proof.
  intros B Hq Hqs Hcs. unfold completeRequests. wstep. apply wp_onT. wcall wp_loadUsedIdx; [done| |done].
  intros v t1 [Hy _]. pose proof (reads_yields s t1 B Hy) as R1. pose proof (reads_len _ _ R1) as L1. cbn [fst] in L1.
  wstep. wcall (wp_completeLoop q queueSize v 0 cs (t1, snd s)); try done;
    [apply R1|by apply (queue_ok_len _ _ _ L1)| |].
  { eapply Forall_impl; [|exact Hcs]. intros c'. by apply req_ok_len. }
  intros [] s2 R2. assert (R : reads s s2) by (by eapply reads_trans). pose proof (reads_len _ _ R) as L2.
  wstep. apply wp_onT. wcall wp_addUsedIdx; [by apply (queue_ok_len _ _ _ L2)| |done].
  intros [] t3 (t2 & Hy2 & Hs3).
  assert (R3 : reads s (t3, snd s2)).
  { eapply reads_trans; [done|exact R|]. pose proof (reads_yields s2 t2 (proj1 (proj1 R)) Hy2) as Ry.
    eapply reads_trans; [apply R|exact Ry|]. split; [|done].
    eapply (bstep_stored (t2, snd s2)); [apply Ry| |apply le_bytes_ok|exact Hs3]; cbn [fst].
    apply (in_ram_same (Mem (fst s))); [pose proof (reads_len _ _ Ry) as L; cbn in L; congruence|].
    pose proof (qo_used _ _ Hq) as Hu. split; [destruct Hu; lia|].
    change (zlen _) with 2. eapply in_ram_range; [exact Hu|unfold sizeofSplitUsed; lia..]. }
  wstep. unfold updB. wstep. cbn [fst snd] in *. apply wp_onT. cbn [fst snd].
  assert (Hfin : forall t4, irq_only t3 t4 ->
    completed (zlen cs) s (t4, snd s2 <| LastAvailIdx := u16 (LastAvailIdx (snd s2) + u16 (zlen cs)) |>)).
  { intros t4 Hi. rewrite (proj2 R). split; [|done].
    pose proof (bstep_irq (t3, snd s2) t4 (proj1 (proj1 R3)) Hi) as S4.
    assert (S : bstep s (t4, snd s2)) by (eapply bstep_trans; [done|apply R3|exact S4]).
    rewrite (proj2 R) in S. destruct S as [[T4 [Hq4 Hl4] Hi4 Hc4] [? ? ? ? ? ? ? ?]].
    split; constructor; cbn in *; try done. split; [done|]. apply u16_range. }
  eapply wp_mono; [apply wp_Interrupt| |]; intros ? t4 Hi; by apply Hfin.
Qed.

(** The loop over the batch. *)
Definition batch_post (writeback : bool) (cs : list blkPendingRequest) (needsSync : bool) s
    (r : list blkPendingRequest * bool * option error) s' : Prop :=
  let '(cs', needsSync', _) := r in
  bstep s s' /\ Forall2 processed cs cs' /\
  (dirty (snd s') = true -> dirty (snd s) = true \/ needsSync' = true) /\
  (needsSync = true -> needsSync' = true) /\
  (writeback = false -> LastAvailIdx (snd s') = LastAvailIdx (snd s)).

Lemma wp_processAll q queueSize writeback cs needsSync ierr s :
  binv s -> queue_ok (Mem (fst s)) q -> 0 < queueSize <= QueueSize ->
  Forall (req_ok (Mem (fst s)) (capacity (snd s))) cs ->
  wp (processAll q queueSize writeback cs needsSync ierr) s (batch_post writeback cs needsSync s) (fun _ _ => False).
Proof.
  revert needsSync ierr s. induction cs as [|c cs IH]; intros ns ierr s B Hq Hqs Hcs; cbn [processAll].
  { wstep. unfold batch_post. splits; auto using bstep_refl. }
  inversion Hcs as [|? ? Hc Hcs']; subst. wstep. wcall wp_processRequest; [done|done| |done].
  intros [c1 w] s1 (S1 & Hlast & Hp & Hw & Hn). cbn [fst snd] in *. cbv zeta.
  pose proof (bf_len _ _ (proj2 S1)) as L1. pose proof (bf_cap _ _ (proj2 S1)) as C1.
  assert (Hc1 : req_ok (Mem (fst s1)) (capacity (snd s1)) c1).
  { rewrite C1. apply (req_ok_len _ _ _ _ L1). by apply (processed_ok _ _ c). }
  assert (Hd1 : dirty (snd s1) = true -> dirty (snd s) = true \/ w = true).
  { intros Hd. destruct w; [by right|]. left. by apply Hn. }
  wstep. eapply wp_mono with (E := fun _ _ => False) (Q := fun _ s2 => bstep s s2 /\ dirty (snd s2) = dirty (snd s1) /\
    (writeback = false -> LastAvailIdx (snd s2) = LastAvailIdx (snd s))); [|..|done].
  - destruct writeback; [|wstep; done]. wstep. wstep.
    wcall wp_completeRequests; [apply S1|by apply (queue_ok_len _ _ _ L1)|done|by constructor; [|constructor]|..];
      intros x s2 [S2 He]; wstep; (splits; [by eapply bstep_trans|by rewrite He|done]).
  - intros ie s2 (S2 & Hd2 & Hl2). wstep.
    pose proof (bf_len _ _ (proj2 S2)) as L2. pose proof (bf_cap _ _ (proj2 S2)) as C2.
    wcall (IH (ns || w) ie s2); [apply S2|by apply (queue_ok_len _ _ _ L2)|done| | |done].
    { rewrite C2. eapply Forall_impl; [|exact Hcs']. intros c'. by apply req_ok_len. }
    intros [[cs' ns'] ie'] s3 (S3 & Hf & Hdirty & Hmono & Hl3). wstep. unfold batch_post. splits.
    + by eapply bstep_trans.
    + by constructor.
    + intros Hd. destruct (Hdirty Hd) as [Hd'|Hd']; [|by right]. rewrite Hd2 in Hd'.
      destruct (Hd1 Hd') as [?| ->]; [by left|]. right. apply Hmono. apply orb_true_r.
    + intros ->. by apply Hmono.
    + intros Hwb. by rewrite Hl3, Hl2.
Qed.

Lemma Forall2_req_ok mem cap cs cs' :
  Forall2 processed cs cs' -> Forall (req_ok mem cap) cs -> Forall (req_ok mem cap) cs'.
Proof.
  induction 1 as [|c c' cs cs' Hp _ IH]; [done|]. intros Hf. inversion Hf; subst.
  constructor; [by apply (processed_ok _ _ c)|auto].
Qed.

(** What a request keeps until it is completed. *)
Definition same_request c c' : Prop :=
  c_id c' = c_id c /\ c_status c' = c_status c /\ c_write c' = c_write c /\ c_length c' = c_length c.

Lemma processed_same c c' : processed c c' -> same_request c c'.
Proof. by intros [-> | [_ ->]]. Qed.

Definition fail_write c : blkPendingRequest := if c_write c then c <| c_result := 1 |> else c.

(** How a batch without write-back ends: as it was processed, after a
    synchronization that succeeds, or with its writes failed by one that does
    not. *)
Definition batch_end (cs1 : list blkPendingRequest) (needsSync : bool) s1 (cs' : list blkPendingRequest) s' : Prop :=
  if needsSync then
    syncImage s1 = (Ok tt, s') /\ cs' = cs1 \/ (exists e, syncImage s1 = (Err e, s')) /\ cs' = map fail_write cs1
  else cs' = cs1 /\ s' = s1.

(** Without write-back the batch is completed as a whole. *)
Lemma runRequests_writethrough q queueSize cs s :
  binv s -> queue_ok (Mem (fst s)) q -> 0 < queueSize <= QueueSize ->
  Forall (req_ok (Mem (fst s)) (capacity (snd s))) cs ->
  exists cs' s1, runRequests q queueSize false cs s = completeRequests q queueSize cs' s1 /\
    bstep s s1 /\ LastAvailIdx (snd s1) = LastAvailIdx (snd s) /\ Forall2 same_request cs cs' /\
    Forall (req_ok (Mem (fst s1)) (capacity (snd s1))) cs' /\
    exists cs1 needsSync ierr s0,
      processAll q queueSize false cs false None s = (Ok (cs1, needsSync, ierr), s0) /\ batch_end cs1 needsSync s0 cs' s1.
Proof.
  intros B Hq Hqs Hcs. pose proof (wp_processAll q queueSize false cs false None s B Hq Hqs Hcs) as Hp.
  unfold wp in Hp. unfold runRequests. unfold gbind at 1.
  destruct (processAll _ _ _ _ _ _ s) as [[[[cs1 ns] ie]|e| |] s1] eqn:Hpa; try done.
  destruct Hp as (S1 & Hf & Hdirty & _ & Hl1). specialize (Hl1 eq_refl).
  assert (Hok : Forall (req_ok (Mem (fst s1)) (capacity (snd s1))) cs1).
  { eapply Forall2_req_ok; [exact Hf|]. rewrite (bf_cap _ _ (proj2 S1)).
    eapply Forall_impl; [|exact Hcs]. intros c'. apply req_ok_len, (bf_len _ _ (proj2 S1)). }
  assert (Hsame : Forall2 same_request cs cs1) by (eapply Forall2_impl; [apply processed_same|exact Hf]).
  unfold gbind at 1. destruct ns.
  2: { exists cs1, s1. splits; try done. by exists cs1, false, ie, s1. }
  unfold gbind at 1, gtry. pose proof (wp_syncImage s1 (proj1 S1)) as Hs. unfold wp in Hs.
  destruct (syncImage s1) as [[[]|e| |] s2] eqn:Hsy; try done; destruct Hs as (S2 & _ & i & ->).
  - eexists cs1, _. split; [reflexivity|]. splits; try done; [by eapply bstep_trans|].
    exists cs1, true, ie, s1. split; [done|]. by left.
  - eexists (map fail_write cs1), _. split; [reflexivity|].
    splits; try done; [by eapply bstep_trans| | |].
    + clear -Hsame. induction Hsame as [|c c' cs cs' Hs _ IH]; cbn; constructor; [|done].
      unfold fail_write. destruct (c_write c') eqn:?; [|done]. destruct Hs as (? & ? & ? & ?).
      unfold same_request; cbn. splits; done.
    + cbn. apply Forall_map. eapply Forall_impl; [|exact Hok]. intros c [? ? ? ?]. unfold fail_write.
      destruct (c_write c); by constructor.
    + exists cs1, true, ie, s1. split; [done|]. right. split; [by exists e|done].
Qed.

Lemma wp_runRequests q queueSize writeback cs s :
  binv s -> queue_ok (Mem (fst s)) q -> 0 < queueSize <= QueueSize ->
  Forall (req_ok (Mem (fst s)) (capacity (snd s))) cs ->
  wp (runRequests q queueSize writeback cs) s (fun _ s' => bstep s s') (fun _ s' => bstep s s').
Proof.
  intros B Hq Hqs Hcs. destruct writeback.
  - unfold runRequests. wstep. wcall wp_processAll; try done. intros [[cs' ns] ie] s1 (S1 & _).
    destruct ie; by wstep.
  - destruct (runRequests_writethrough q queueSize cs s B Hq Hqs Hcs) as (cs' & s1 & He & S1 & _ & _ & Hok & _).
    unfold wp. rewrite He. apply (wp_completeRequests q queueSize cs' s1) in Hok; try done; [|apply S1|].
    + unfold wp in Hok. destruct (completeRequests _ _ _ s1) as [[]]; try done; destruct Hok as [Hs _]; by eapply bstep_trans.
    + apply (queue_ok_len _ _ _ (bf_len _ _ (proj2 S1)) Hq).
Qed.

(** [IO] gives up before it touches the device, or runs a batch of validated
    requests. *)
Lemma IO_cases s :
  binv s ->
  (exists e s', IO s = (Err e, s') /\ reads s s') \/
  (exists q cs s2, VirtQueue (snd s) = Some q /\ queue_ok (Mem (fst s2)) q /\ 0 < ringSize q <= QueueSize /\
     reads s s2 /\ Forall (req_ok (Mem (fst s2)) (capacity (snd s2))) cs /\
     IO s = runRequests q (ringSize q) (negb (negotiatedFeatures (fst s) &&& blkFeatureFlush =? 0)) cs s2).
Proof.
  intros B. pose proof (bi_q s B) as [Hq Hl].
  remember (IO s) as res eqn:Hres. unfold IO in Hres. unfold gbind at 1, gget in Hres.
  destruct (done_ (snd s)); [left; exists ErrClosedPipe, s; split; [done|by apply reads_refl]|].
  destruct (VirtQueue (snd s)) as [q|]; [|left; exists ErrVQNotInit, s; split; [done|by apply reads_refl]].
  pose proof (ringSize_pos _ _ Hq) as Hqs.
  pose proof (wp_loadAvailIdx (fst s) q Hq) as Ha. unfold wp in Ha. unfold gbind at 1, onT in Hres.
  destruct (loadAvailIdx q (fst s)) as [[v| | |] t1]; try done. destruct Ha as [Hy _].
  pose proof (reads_yields s t1 B Hy) as R1. pose proof (reads_len _ _ R1) as L1. cbn [fst] in L1. cbv zeta in Hres.
  set (count := u16 _) in Hres. destruct (count =? 0); [left; by eexists ErrNoTxPacket, _|].
  destruct (ringSize q <? count); [left; by eexists ErrBlkDesc, _|].
  set (wb := negb _) in *.
  pose proof (wp_snapshotAll q (ringSize q) wb (Z.to_nat count) 0 (t1, snd s) (proj1 (proj1 R1))
    (queue_ok_len _ _ _ L1 Hq) Hqs) as Hs. unfold wp in Hs. unfold gbind in Hres.
  destruct (snapshotAll _ _ _ _ _ _) as [[cs|e| |] s2]; try done.
  - destruct Hs as (R2 & _ & Hcs). assert (R : reads s s2) by (by eapply reads_trans).
    right. exists q, cs, s2. splits; try done; try apply Hqs. by apply (queue_ok_len _ _ _ (reads_len _ _ R)).
  - destruct Hs as [-> R2]. left. eexists _, s2. split; [done|]. by eapply reads_trans.
Qed.

(** One batch of requests, under any behaviour of the guest. *)
Lemma wp_IO s : binv s -> wp IO s (fun _ s' => bstep s s') (fun _ s' => bstep s s').
Proof.
  intros B. unfold wp. destruct (IO_cases s B) as [(e & s' & -> & R)|(q & cs & s2 & _ & Hq & Hqs & R & Hcs & ->)].
  - apply R.
  - pose proof (wp_runRequests q (ringSize q) (negb (negotiatedFeatures (fst s) &&& blkFeatureFlush =? 0)) cs s2
      (proj1 (proj1 R)) Hq Hqs Hcs) as Hw. unfold wp in Hw.
    destruct (runRequests _ _ _ _ _) as [[]]; try done; (eapply bstep_trans; [done|apply R|done]).
Qed.

End BlkSafe.
