(* ===== verification/VirtioBlkSpec.v ===== *)
(** Properties of the virtio block device (src/internal/virtio/blk.go), for
    every backing image that satisfies [Disk.ImageLaws]. *)

From S2P Require Import Prelude Bytes OsFile QcowLayout Disk GuestMem VirtioModern VirtioModernSpec VirtioQueue VirtioBlk.

(** ** Requests as a driver lays them out *)

(** A read or write request: header, data and status descriptors. *)
Record rw_chain (mem : list Z) (q : SplitQueue) (head typ sector dataA dataL statusA length : Z) : Prop := {
  ch_ids : let i1 := d_Next (descAt mem q head) in let i2 := d_Next (descAt mem q i1) in
    head <> i1 /\ head <> i2 /\ i1 <> i2 /\ 0 <= head < ringSize q /\ 0 <= i1 < ringSize q /\ 0 <= i2 < ringSize q;
  ch_header : let d := descAt mem q head in
    ValidRange mem (d_Addr d) (d_Len d) = true /\ 16 <= d_Len d /\
    typ = le_uint32 mem (d_Addr d) /\ sector = le_uint64 mem (d_Addr d + 8);
  ch_data : let d := descAt mem q (d_Next (descAt mem q head)) in
    ValidRange mem (d_Addr d) (d_Len d) = true /\ dataA = d_Addr d /\ dataL = d_Len d;
  ch_status : let d := descAt mem q (d_Next (descAt mem q (d_Next (descAt mem q head)))) in
    ValidRange mem (d_Addr d) (d_Len d) = true /\ 0 < d_Len d /\ statusA = d_Addr d /\
    length = u32 (u32 (u32 (d_Len (descAt mem q head)) + dataL) + d_Len d)
}.

Section Quiet.
Context {I : Type} `{ImageLaws I}.
Implicit Types (t : ModernTransport) (d : blkDev I).

Lemma readHeaderFields_quiet writeback addr c t d :
  guest t = [] -> 0 <= addr -> ValidRange (Mem t) addr 16 = true ->
  readHeaderFields writeback addr c (t, d) =
    (let typ := le_uint32 (Mem t) addr in let sector := le_uint64 (Mem t) (addr + 8) in
     let flush := (typ =? 4) && writeback in
     let c := c <| c_write := typ =? 1 |> <| c_flush := flush |> in
     let c := if capacity d <? sector then c <| c_result := 1 |>
              else c <| c_offset := i64 (u64 (sector * SectorSize)) |> in
     (Ok (if negb (typ =? 0) && negb (typ =? 1) && negb flush then c <| c_result := 2 |> else c), (t, d))).
Proof.
  intros Hg Ha Hv. unfold readHeaderFields. unfold gbind at 1. rewrite load_quiet; [|done|].
  2: { apply (ValidRange_sub _ addr 16); try done; lia. }
  unfold gbind at 1. rewrite load_quiet; [|done|].
  2: { apply (ValidRange_sub _ addr 16); try done; lia. }
  unfold gbind, gget, ret. cbn [fst snd].
  unfold le_uint32, le_uint64. rewrite !zslice_slice, !Z.add_0_r by lia. done.
Qed.

(** One round of the loop on a valid descriptor. *)
Lemma loop_step q qs writeback n j i seen c t d :
  guest t = [] -> queue_ok (Mem t) q -> 0 <= i < qs -> qs <= QueueSize ->
  zlookup seen i = Some false ->
  ValidRange (Mem t) (d_Addr (descAt (Mem t) q i)) (d_Len (descAt (Mem t) q i)) = true ->
  (j = 0 -> 16 <= d_Len (descAt (Mem t) q i)) ->
  snapshotLoop q qs writeback (S n) j i seen c (t, d) =
    (let desc := descAt (Mem t) q i in
     let c := c <| c_length := u32 (c_length c + d_Len desc) |> in
     let! c := if j =? 0 then readHeaderFields writeback (d_Addr desc) c
               else ret (if negb (c_result c =? 2) && negb (c_flush c) && (j =? 1)
                         then c <| c_data := (d_Addr desc, d_Len desc) |> else c) in
     let last := if (c_result c =? 2) || c_flush c then d_Flags desc &&& descFNext =? 0 else j =? 2 in
     if last then
       if (j =? 0) || (d_Len desc =? 0) ||
          (((c_result c =? 2) || c_flush c) && (d_Flags desc &&& descFWrite =? 0))
       then throw ErrBlkDesc
       else
         let c := c <| c_status := Some (d_Addr desc) |> in
         ret (if c_flush c then c <| c_length := 1 |> else c)
     else snapshotLoop q qs writeback n (j + 1) (d_Next desc) (zinsert i true seen) c) (t, d).
Proof.
  intros Hg Hq Hi Hqs Hs Hv Hj. cbn [snapshotLoop]. rewrite Hs. change (default false (Some false)) with false.
  destruct (qs <=? i) eqn:?; zbool; [lia|]. cbn [orb]. unfold gbind at 1.
  rewrite loadDesc_quiet by (done || lia). unfold gbind at 1, gget at 1. cbn [fst]. rewrite Hv. cbn [negb orb].
  destruct (_ && _) eqn:E; [zbool; lia|]. done.
Qed.

(** The snapshot of a read or write request. *)
Lemma snapshot_rw q writeback head typ sector dataA dataL statusA length t d :
  binv (t, d) -> guest t = [] -> queue_ok (Mem t) q -> 0 < ringSize q <= QueueSize ->
  rw_chain (Mem t) q head typ sector dataA dataL statusA length -> typ = 0 \/ typ = 1 ->
  sector * SectorSize + dataL <= capacity d * SectorSize ->
  snapshotRequest q (ringSize q) head writeback (t, d) =
    (Ok (mkPending head length (Some statusA) (dataA, dataL) (sector * SectorSize) 0 (typ =? 1) false), (t, d)).
Proof.
  intros B Hg Hq Hqs [Hids Hh Hd Hs] Htyp Hfit. cbv zeta in *.
  pose proof (tw_mem _ (bi_t _ B)) as Hmem. cbn [fst] in Hmem.
  pose proof (capacity_range _ B) as [Hc0 Hc1]. cbn [snd] in Hc0, Hc1.
  assert (Hdesc : forall i, is_u64 (d_Addr (descAt (Mem t) q i)) /\ is_u32 (d_Len (descAt (Mem t) q i)) /\
    is_u16 (d_Next (descAt (Mem t) q i))).
  { intros i. apply decodeDesc_range. by apply bytes_ok_slice. }
  destruct (Hdesc head) as (A0 & _). destruct (Hdesc (d_Next (descAt (Mem t) q head))) as (_ & U1 & _).
  remember (descAt (Mem t) q head) as d0 eqn:E0. remember (descAt (Mem t) q (d_Next d0)) as d1 eqn:E1.
  remember (descAt (Mem t) q (d_Next d1)) as d2 eqn:E2.
  destruct Hids as (N01 & N02 & N12 & R0 & R1 & R2). destruct Hh as (V0 & L0 & Ht & Hsec).
  destruct Hd as (V1 & -> & ->). destruct Hs as (V2 & L2 & -> & ->).
  assert (Hsr : is_u64 sector) by (rewrite Hsec; by apply le_uint64_range).
  unfold is_u64, is_u32, maxInt64, SectorSize, QueueSize in *.
  assert (Hn : exists n, Z.to_nat (ringSize q) = S (S (S n))) by (exists (Z.to_nat (ringSize q - 3)); lia).
  destruct Hn as [n Hn]. unfold snapshotRequest. rewrite Hn. unfold gbind at 1.
  assert (Hf : forall i, 0 <= i < ringSize q -> zlookup (replicate (Z.to_nat QueueSize) false) i = Some false).
  { intros i Hi. unfold zlookup, QueueSize. destruct (i <? 0) eqn:?; zbool; [lia|]. apply lookup_replicate_2. lia. }
  assert (Hl : zlen (replicate (Z.to_nat QueueSize) false) = 32) by (by rewrite zlen_replicate).
  assert (Hf1 : zlookup (zinsert head true (replicate (Z.to_nat QueueSize) false)) (d_Next d0) = Some false).
  { rewrite zlookup_insert by lia. destruct (_ =? _) eqn:?; zbool; [lia|]. by apply Hf. }
  assert (Hf2 : zlookup (zinsert (d_Next d0) true (zinsert head true (replicate (Z.to_nat QueueSize) false))) (d_Next d1) = Some false).
  { rewrite zlookup_insert by (rewrite zlen_insert; lia). destruct (_ =? _) eqn:?; zbool; [lia|].
    rewrite zlookup_insert by lia. destruct (_ =? _) eqn:?; zbool; [lia|]. by apply Hf. }
  rewrite loop_step by (rewrite <- ?E0; auto; unfold QueueSize; lia). rewrite <- E0. cbv zeta. change (0 =? 0) with true. cbv iota.
  unfold gbind at 1. rewrite readHeaderFields_quiet by (try done; try lia; apply (ValidRange_sub _ (d_Addr d0) (d_Len d0)); try done; lia).
  cbv zeta. rewrite <- Ht, <- Hsec. destruct (capacity d <? sector) eqn:?; zbool; [lia|].
  assert (Hflags : negb (typ =? 0) && negb (typ =? 1) && negb ((typ =? 4) && writeback) = false /\
    (typ =? 4) && writeback = false) by (destruct Htyp as [-> | ->]; done).
  destruct Hflags as [-> ->]. cbn -[snapshotLoop Z.to_nat u32 i64 u64 SectorSize zinsert].
  rewrite loop_step by (rewrite <- ?E1; auto; unfold QueueSize; lia). rewrite <- E1. cbv zeta.
  change (0 + 1) with 1. unfold gbind at 1. cbn -[snapshotLoop Z.to_nat u32 i64 u64 SectorSize zinsert].
  rewrite loop_step by (rewrite <- ?E2; auto; unfold QueueSize; lia). rewrite <- E2. cbv zeta.
  change (1 + 1) with 2. unfold gbind at 1. cbn -[snapshotLoop Z.to_nat u32 i64 u64 SectorSize zinsert].
  destruct (d_Len d2 =? 0) eqn:?; zbool; [lia|]. cbn -[snapshotLoop Z.to_nat u32 i64 u64 SectorSize zinsert].
  unfold gbind, gget, SectorSize. cbn [fst snd].
  rewrite i64_small, !u64_small by (rewrite ?u64_small; lia).
  destruct (_ || _) eqn:E; [apply orb_true_iff in E; destruct E; zbool; lia|]. done.
Qed.

End Quiet.

(** ** Completion of one request *)

(** The memory after the status byte and the used element were stored. *)
Definition completedMem (mem : list Z) (q : SplitQueue) (statusA res head length : Z) : list Z :=
  usedMem (zwrite mem statusA [res]) q head length.

Section Single.
Context {I : Type} `{ImageLaws I}.
Implicit Types (t : ModernTransport) (d : blkDev I) (q : SplitQueue).

(** Completion of one request without interference. *)
Lemma completeOne_quiet q c a t d :
  guest t = [] -> bytes_ok (Mem t) -> queue_ok (Mem t) q -> 0 < ringSize q <= QueueSize ->
  c_status c = Some a -> in_ram (Mem t) a 1 -> apart a 1 (sq_Used q) sizeofSplitUsed ->
  exists r t', completeRequests q (ringSize q) [c] (t, d) =
      (r, (t', d <| LastAvailIdx := u16 (LastAvailIdx d + 1) |>)) /\ returns r /\
    irq_only (t <| Mem := completedMem (Mem t) q a (c_result c) (c_id c) (c_length c) |>) t'.
Proof.
  intros Hg Hb Hq Hqs Hs Ha Hap. set (m := Mem t) in *. pose proof Ha as [Ha0 Hav].
  destruct (ValidRange_spec m a 1 Ha0 ltac:(lia) Hav) as [Hae _].
  unfold completeRequests. unfold gbind at 1. rewrite loadUsedIdx_quiet by done. fold m.
  assert (Hui : is_u16 (usedIdxAt m q)) by (by apply le_uint16_range). unfold is_u16 in Hui.
  unfold gbind at 1. cbn [completeLoop]. rewrite Hs, Z.add_0_r, (u16_small (usedIdxAt m q)) by done.
  unfold gbind at 1. rewrite store_quiet by (done || apply Ha). unfold gbind at 1. fold m.
  set (m1 := zwrite m a [c_result c]).
  assert (Hl1 : zlen m1 = zlen m) by (apply zlen_zwrite_in; done).
  assert (Hq1 : queue_ok m1 q) by (by apply (queue_ok_len _ _ _ Hl1)).
  assert (Hi1 : usedIdxAt m1 q = usedIdxAt m q) by (apply usedIdxAt_out; done). rewrite <- Hi1.
  pose proof (slot_range m1 q Hq1) as Hsl. pose proof (used_bounds m1 q Hq1) as (Hu & Hul).
  unfold storeUsedRing. rewrite store_quiet; [|done|].
  2: { cbn [Mem set_field]. rewrite <- Z.add_assoc. change (zlen (encodeUsedElem _)) with 8. unfold QueueSize in *.
       eapply in_ram_range; [apply (qo_used _ _ Hq1)|unfold sizeofSplitUsed; lia..]. }
  cbn [Mem set_field]. set (ea := sq_Used q + 4 + 8 * _). set (m2 := zwrite m1 ea _).
  unfold sizeofSplitUsed, QueueSize in *.
  assert (Hl2 : zlen m2 = zlen m1).
  { unfold m2. rewrite zlen_write by lia. change (zlen (encodeUsedElem _)) with 8. cbn [Z.eqb]. unfold ea. lia. }
  assert (Hidx : usedIdxAt m2 q = usedIdxAt m1 q).
  { unfold usedIdxAt, le_uint16. f_equal. apply zslice_agree; try lia. intros i Hi. unfold m2, ea.
    apply zget_write_out; change (zlen (encodeUsedElem _)) with 8; lia. }
  unfold ret at 1. unfold gbind at 1. change (u16 (zlen [c])) with 1.
  rewrite addUsedIdx_quiet; [|done|by apply (queue_ok_len _ _ _ Hl2)]. cbn [Mem set_field]. rewrite Hidx.
  unfold gbind at 1, updB, gupd. cbn [fst snd]. unfold onT; cbn [fst snd].
  match goal with |- context [Interrupt ?x] => pose proof (wp_Interrupt x) as Hi end.
  unfold wp in Hi. destruct (Interrupt _) as [[] t'] eqn:Ei; try done; eexists _, t'; (split; [reflexivity|]); done.
Qed.

(** A batch of one request: what is completed, and from which state. *)
Lemma runRequests_one q n (wb : bool) c c' w (s s1 : Blk) :
  binv s1 -> processRequest c s = (Ok (c', w), s1) ->
  exists c2 s2, snd (runRequests q n wb [c] s) = snd (completeRequests q n [c2] s2) /\
    (returns (fst (completeRequests q n [c2] s2)) -> returns (fst (runRequests q n wb [c] s))) /\
    (c2 = c' /\ s2 = s1 \/
     wb = false /\ w = true /\ (c2 = c' \/ c2 = fail_write c') /\ same_disk s1 s2 /\
       exists i b, s2 = (fst s1, snd s1 <| image := i |> <| dirty := b |>)).
Proof.
  intros B Hp. destruct wb.
  - assert (E : runRequests q n true [c] s = completeRequests q n [c'] s1).
    { unfold runRequests, gbind at 1. cbn [processAll]. unfold gbind at 1. rewrite Hp. cbn [fst snd].
      unfold gbind, gtry, ret, throw. by destruct (completeRequests q n [c'] s1) as [[[]|e| |] s3]. }
    exists c', s1. rewrite E. splits; try done. by left.
  - assert (E : runRequests q n false [c] s =
      (let! cs := if w then
                    let! r := gtry syncImage in
                    match r with inl _ => ret [c'] | inr _ => ret [fail_write c'] end
                  else ret [c'] in completeRequests q n cs) s1).
    { unfold runRequests, gbind at 1. cbn [processAll]. unfold gbind at 1. rewrite Hp. by destruct w. }
    rewrite E. unfold gbind at 1 3. destruct w.
    + pose proof (wp_syncImage s1 B) as Hs. unfold wp in Hs. unfold gbind, gtry.
      destruct (syncImage s1) as [[[]|e| |] s2]; try done; destruct Hs as (_ & Hd & i & ->).
      * eexists c', _. splits; [reflexivity|done|]. right. splits; eauto.
      * eexists (fail_write c'), _. splits; [reflexivity|done|]. right. splits; eauto.
    + exists c', s1. splits; try done. by left.
Qed.

(** One request waits in the queue of a driver that is quiet: the transport and
    the device are as their invariants say, the chain is well formed, it fits
    the disk, and its buffers do not overlap the used ring. *)
Record one_request (s : Blk (I := I)) (q : SplitQueue) (head typ sector dataA dataL statusA length : Z) : Prop := {
  or_inv : binv s;
  or_quiet : guest (fst s) = [];
  or_queue : VirtQueue (snd s) = Some q;
  or_open : done_ (snd s) = false;
  or_idx : availIdxAt (Mem (fst s)) q = u16 (LastAvailIdx (snd s) + 1);
  or_head : availRingAt (Mem (fst s)) q (LastAvailIdx (snd s) mod ringSize q) = head;
  or_chain : rw_chain (Mem (fst s)) q head typ sector dataA dataL statusA length;
  or_fits : sector * SectorSize + dataL <= capacity (snd s) * SectorSize;
  or_status : apart statusA 1 (sq_Used q) sizeofSplitUsed;
  or_data : apart dataA dataL (sq_Used q) sizeofSplitUsed;
  or_buffers : apart statusA 1 dataA dataL
}.

(** The batch is that request. *)
Lemma IO_one (s : Blk) q head typ sector dataA dataL statusA length :
  one_request s q head typ sector dataA dataL statusA length -> typ = 0 \/ typ = 1 ->
  let c := mkPending head length (Some statusA) (dataA, dataL) (sector * SectorSize) 0 (typ =? 1) false in
  let wb := negb (negotiatedFeatures (fst s) &&& blkFeatureFlush =? 0) in
  IO s = runRequests q (ringSize q) wb [c] s /\ req_ok (Mem (fst s)) (capacity (snd s)) c /\
  queue_ok (Mem (fst s)) q /\ 0 < ringSize q <= QueueSize.
Proof.
  intros [B Hg Hv Ho Hidx Hhead Hc Hf _ _ _] Ht. cbv zeta. set (wb := negb _).
  pose proof (bi_q s B) as [Hq Hl]. rewrite Hv in Hq.
  pose proof (ringSize_pos _ _ Hq) as Hqs.
  destruct s as [t d]. cbn [fst snd] in *.
  pose proof (snapshot_rw q wb head typ sector dataA dataL statusA length t d B Hg Hq Hqs Hc Ht Hf) as Hsnap.
  set (c := mkPending _ _ _ _ _ _ _ _) in *.
  assert (Hn : u16 (u16 (LastAvailIdx d + 1) - LastAvailIdx d) = 1).
  { unfold u16. rewrite Zminus_mod_idemp_l. replace (LastAvailIdx d + 1 - LastAvailIdx d) with 1 by lia. done. }
  splits; [|..].
  - unfold IO. unfold gbind at 1, gget at 1. cbn [fst snd]. rewrite Ho, Hv. fold wb.
    unfold gbind at 1. rewrite loadAvailIdx_quiet by done. rewrite Hidx, Hn. cbn [Z.eqb].
    destruct (ringSize q <? 1) eqn:?; zbool; [lia|]. unfold gbind at 1.
    pose proof (Z.mod_pos_bound (LastAvailIdx d) (ringSize q)) as Hm. unfold QueueSize in *.
    assert (Hall : snapshotAll q (ringSize q) wb 1 0 (t, d) = (Ok [c], (t, d))).
    { cbn [snapshotAll]. unfold gbind at 1, gget at 1. cbn [fst snd].
      rewrite Z.add_0_r, (u16_small (LastAvailIdx d)) by done. unfold gbind at 1.
      rewrite loadAvailRing_quiet by (done || unfold QueueSize; lia). rewrite Hhead.
      unfold gbind at 1. by rewrite Hsnap. }
    change (Z.to_nat 1) with 1%nat. by rewrite Hall.
  - pose proof (wp_snapshotRequest q (ringSize q) head wb (t, d) B Hq Hqs) as Hw.
    unfold wp in Hw. rewrite Hsnap in Hw. apply Hw. destruct (ch_ids _ _ _ _ _ _ _ _ _ Hc) as (_ & _ & _ & Hh & _). lia.
  - done.
  - apply Hqs.
  - apply Hqs.
Qed.

(** The image operations of a request, without interference. *)
Lemma process_write c t d :
  binv (t, d) -> guest t = [] -> req_ok (Mem t) (capacity d) c ->
  c_result c = 0 -> c_flush c = false -> c_write c = true -> readOnly d = false ->
  exists n err i,
    img_write_spec (image d) (zslice (Mem t) (fst (c_data c)) (snd (c_data c))) (c_offset c) n err i /\
    processRequest c (t, d) = (Ok (result_of c err, true), (t, d <| dirty := true |> <| image := i |>)).
Proof.
  intros B Hg Hr Hz Hf Hw Hro. destruct (rq_data _ _ _ Hr) as [[_ Hv] _].
  assert (Hb : bytes_ok (zslice (Mem t) (fst (c_data c)) (snd (c_data c)))).
  { apply bytes_ok_slice, (tw_mem _ (bi_t _ B)). }
  pose proof (img_write_law (image d) _ (c_offset c) (bi_img _ B) Hb) as Hl. unfold wp in Hl. cbn [snd] in Hl.
  unfold processRequest. rewrite Hz. cbn [Z.eqb]. unfold gbind at 1, gget at 1. cbn [fst snd]. rewrite Hf, Hw, Hro.
  cbn [andb]. unfold gbind at 1 2, updB, gupd. cbn [fst snd]. unfold gbind at 1.
  unfold writeData, gbind at 1. rewrite load_quiet by done.
  unfold gbind at 1. unfold onImage. cbn [fst snd image set_field].
  destruct (img_WriteAt _ _ (image d)) as [[[n err]|e| |] i]; try done. exists n, err, i. split; [done|]. by destruct d.
Qed.

Lemma process_read c t d :
  binv (t, d) -> guest t = [] -> req_ok (Mem t) (capacity d) c ->
  c_result c = 0 -> c_flush c = false -> c_write c = false ->
  exists b' n err i,
    img_read_spec (image d) (zslice (Mem t) (fst (c_data c)) (snd (c_data c))) (c_offset c) b' n err i /\
    processRequest c (t, d) =
      (Ok (result_of c err, false), (t <| Mem := zwrite (Mem t) (fst (c_data c)) b' |>, d <| image := i |>)).
Proof.
  intros B Hg Hr Hz Hf Hw. destruct (rq_data _ _ _ Hr) as [[Ha Hv] Hn].
  pose proof (img_read_law (image d) (zslice (Mem t) (fst (c_data c)) (snd (c_data c))) (c_offset c) (bi_img _ B)) as Hl.
  unfold wp in Hl. cbn [snd] in Hl.
  unfold processRequest. rewrite Hz. cbn [Z.eqb]. unfold gbind at 1, gget at 1. cbn [fst snd]. rewrite Hf, Hw.
  cbn [andb]. unfold gbind at 1. unfold gbind at 1. unfold readData, gbind at 1. rewrite load_quiet by done.
  unfold gbind at 1. unfold onImage. cbn [fst snd image set_field].
  destruct (img_ReadAt _ _ (image d)) as [[[[b' n] err]|e| |] i]; try done.
  assert (Hlen : zlen b' = snd (c_data c)).
  { destruct (rd_len _ _ _ _ _ _ _ Hl) as [-> _]. destruct (ValidRange_spec _ _ _ Ha Hn Hv). apply zlen_slice; lia. }
  exists b', n, err, i. split; [done|]. unfold gbind at 1, onT, memPut, gbind, gget, gupd. cbn [fst snd].
  rewrite Hlen, Hv. done.
Qed.

(** The request was handed back to the driver with one used element. *)
Record completion (s s' : Blk (I := I)) (q : SplitQueue) (head length : Z) : Prop := {
  cp_idx : usedIdxAt (Mem (fst s')) q = u16 (usedIdxAt (Mem (fst s)) q + 1);
  cp_elem : usedElemAt (Mem (fst s')) q (usedIdxAt (Mem (fst s)) q mod ringSize q) = (head, length);
  cp_last : LastAvailIdx (snd s') = u16 (LastAvailIdx (snd s) + 1)
}.

(** From the processed request to the end of the batch.  [t1] is the transport
    before completion: its used ring is still that of [s]. *)
Lemma finish_one (s : Blk) q head typ sector dataA dataL statusA length wb c' w t1 d1 :
  one_request s q head typ sector dataA dataL statusA length -> typ = 0 \/ typ = 1 ->
  let c := mkPending head length (Some statusA) (dataA, dataL) (sector * SectorSize) 0 (typ =? 1) false in
  req_ok (Mem (fst s)) (capacity (snd s)) c -> queue_ok (Mem (fst s)) q -> 0 < ringSize q <= QueueSize ->
  processRequest c s = (Ok (c', w), (t1, d1)) -> bstep s (t1, d1) -> processed c c' ->
  guest t1 = [] -> usedIdxAt (Mem t1) q = usedIdxAt (Mem (fst s)) q ->
  LastAvailIdx d1 = LastAvailIdx (snd s) ->
  exists r s' st, runRequests q (ringSize q) wb [c] s = (r, s') /\ returns r /\ st = zget (Mem (fst s')) statusA /\
    completion s s' q head length /\ same_disk (t1, d1) s' /\ (st = 0 \/ st = 1) /\
    (st = 0 -> c_result c' = 0) /\ (wb = true \/ w = false -> st = c_result c') /\
    (forall x, 0 <= x -> x <> statusA -> ~ (sq_Used q <= x < sq_Used q + sizeofSplitUsed) ->
       zget (Mem (fst s')) x = zget (Mem t1) x).
Proof.
  intros O Ht c Hr Hq Hqs Hp S1 Hpr Hg Hidx Hlast.
  pose proof (bf_len _ _ (proj2 S1)) as L1. cbn [fst] in L1.
  destruct (rq_status _ _ _ Hr) as (a & [= <-] & Ha).
  destruct (runRequests_one q (ringSize q) wb c c' w s (t1, d1) (proj1 S1) Hp) as (c2 & s2 & Hsnd & Hret & Hc2).
  assert (Hs2 : fst s2 = t1 /\ same_disk (t1, d1) s2 /\ LastAvailIdx (snd s2) = LastAvailIdx (snd s) /\
    (c2 = c' \/ c2 = c' <| c_result := 1 |>) /\ (wb = true \/ w = false -> c2 = c')).
  { destruct Hc2 as [[-> ->]|(-> & -> & Hcc & Hd & i & b & ->)]; splits; try done; [by left| |naive_solver].
    destruct Hcc as [-> | ->]; [by left|]. unfold fail_write. destruct (c_write c'); [by right|by left]. }
  destruct Hs2 as (Hf2 & Hd2 & Hl2 & Hcc & Hwb). clear Hc2. destruct s2 as [t2 d2]. cbn [fst snd] in *. subst t2.
  assert (Hres : c_result c' = 0 \/ c_result c' = 1) by (destruct Hpr as [-> | [_ ->]]; cbn; auto).
  assert (Hsame : c_status c2 = Some statusA /\ c_id c2 = head /\ c_length c2 = length /\
    (c_result c2 = 0 -> c_result c' = 0) /\ (c_result c2 = 0 \/ c_result c2 = 1)).
  { destruct Hpr as [-> | [_ ->]], Hcc as [-> | ->]; cbn; splits; auto; lia. }
  destruct Hsame as (Es & Ei & El & Er & Er2).
  destruct (completeOne_quiet q c2 statusA t1 d2) as (r & t3 & Hc3 & Hrr & w3 & l3 & i3 & ->); try done.
  { apply (tw_mem _ (bi_t _ (proj1 S1))). }
  { by apply (queue_ok_len _ _ _ L1). }
  { by apply (in_ram_same _ _ _ _ L1). }
  { apply O. }
  rewrite Hc3 in Hsnd, Hret. cbn [fst snd] in Hret.
  destruct (runRequests q (ringSize q) wb [c] s) as [r' s'] eqn:Erun. cbn [fst snd] in Hsnd, Hret. subst s'.
  assert (Hst1 : in_ram (Mem t1) statusA 1) by (by apply (in_ram_same _ _ _ _ L1)).
  assert (Hq1 : queue_ok (Mem t1) q) by (by apply (queue_ok_len _ _ _ L1)).
  pose proof Hst1 as [Ha0 Hav]. destruct (ValidRange_spec (Mem t1) statusA 1 Ha0 ltac:(lia) Hav) as [Hae _].
  set (m1 := zwrite (Mem t1) statusA [c_result c2]).
  assert (Hl1 : zlen m1 = zlen (Mem t1)) by (by apply zlen_zwrite_in).
  assert (Hqm : queue_ok m1 q) by (by apply (queue_ok_len _ _ _ Hl1)).
  assert (Hi1 : usedIdxAt m1 q = usedIdxAt (Mem t1) q) by (apply usedIdxAt_out; try done; apply O).
  assert (Hout : 0 <= statusA -> ~ (sq_Used q <= statusA < sq_Used q + sizeofSplitUsed)).
  { pose proof (or_status _ _ _ _ _ _ _ _ _ O) as Hap. unfold apart, sizeofSplitUsed in *. lia. }
  rewrite Ei, El. eexists r', _, (c_result c2). splits; [done|by apply Hret| | |done|done|done| |].
  - cbn [fst snd Mem set_field]. symmetry. unfold completedMem. rewrite usedMem_out by (done || by apply Hout).
    rewrite zget_write_in by (change (zlen [_]) with 1; lia). by rewrite Z.sub_diag.
  - pose proof (ch_ids _ _ _ _ _ _ _ _ _ (or_chain _ _ _ _ _ _ _ _ _ O)) as Hids. cbv zeta in Hids.
    constructor; cbn [fst snd Mem set_field].
    + unfold completedMem. fold m1. by rewrite usedMem_idx, Hi1, Hidx by done.
    + rewrite <- Hidx, <- Hi1. unfold completedMem. fold m1. rewrite usedMem_elem by done. unfold QueueSize in *. f_equal.
      * apply u32_small. lia.
      * destruct (ch_status _ _ _ _ _ _ _ _ _ (or_chain _ _ _ _ _ _ _ _ _ O)) as (_ & _ & _ & ->).
        apply Z.mod_mod. lia.
    + cbn. by rewrite Hl2.
  - intros Hcase. by rewrite (Hwb Hcase).
  - intros x Hx Hxs Hu. cbn [fst snd Mem set_field]. unfold completedMem. fold m1. rewrite usedMem_out by done.
    apply zget_write_out; change (zlen [_]) with 1; lia.
Qed.

End Single.

(** ** Properties *)

(** C21: one write request of a driver that waits for it: the device completes exactly
    that request with one used element; if the status byte says success the bytes of
    the buffer are on the disk at the sector, no other byte of the disk and, outside
    the status byte and the used ring, no byte of guest memory changes; and when the
    image accepts the range the request succeeds. *)
Theorem blk_write_request {I} `{ImageLaws I} (s : Blk (I := I)) q head sector dataA dataL statusA length :
  one_request s q head 1 sector dataA dataL statusA length -> readOnly (snd s) = false ->
  exists r s' st, IO s = (r, s') /\ returns r /\ st = zget (Mem (fst s')) statusA /\ (st = 0 \/ st = 1) /\
    completion s s' q head length /\
    (st = 0 -> forall i, 0 <= i < dataL ->
       img_byte (image (snd s')) (sector * SectorSize + i) = zget (Mem (fst s)) (dataA + i)) /\
    (forall o, 0 <= o -> ~ (sector * SectorSize <= o < sector * SectorSize + dataL) ->
       img_byte (image (snd s')) o = img_byte (image (snd s)) o) /\
    (forall x, 0 <= x -> x <> statusA -> ~ (sq_Used q <= x < sq_Used q + sizeofSplitUsed) ->
       zget (Mem (fst s')) x = zget (Mem (fst s)) x) /\
    (img_accepts (image (snd s)) (sector * SectorSize) dataL ->
     negotiatedFeatures (fst s) &&& blkFeatureFlush <> 0 -> st = 0).
Proof.
  intros O Hro. destruct (IO_one s _ _ _ _ _ _ _ _ O (or_intror eq_refl)) as (Hio & Hr & Hq & Hqs).
  rewrite Hio. set (wb := negb _). destruct s as [t d]. cbn [fst snd] in *.
  destruct (process_write _ t d (or_inv _ _ _ _ _ _ _ _ _ O) (or_quiet _ _ _ _ _ _ _ _ _ O) Hr eq_refl eq_refl eq_refl Hro)
    as (n & err & i & Hw & Hp). cbn [c_data fst snd c_offset] in Hw.
  pose proof (wp_processRequest _ (t, d) (or_inv _ _ _ _ _ _ _ _ _ O) Hr) as Hwp. unfold wp in Hwp. rewrite Hp in Hwp.
  destruct Hwp as (S1 & Hl & Hpr & _). cbn [fst snd] in *.
  destruct (finish_one (t, d) q head 1 sector dataA dataL statusA length wb _ true _ _ O (or_intror eq_refl) Hr Hq Hqs Hp S1 Hpr)
    as (r & s' & st & Hrun & Hret & Hst & Hc & Hd & H01 & Hzero & Hwb & Hmem); try done.
  { apply (or_quiet _ _ _ _ _ _ _ _ _ O). }
  destruct (rq_data _ _ _ Hr) as [[Ha Hv] Hn]. cbn [c_data fst snd] in Ha, Hv, Hn.
  destruct (rq_range _ _ _ Hr eq_refl eq_refl) as [Ho _]. cbn [c_offset] in Ho.
  destruct (ValidRange_spec _ _ _ Ha Hn Hv) as [He _].
  assert (Hlen : zlen (zslice (Mem t) dataA dataL) = dataL) by (apply zlen_slice; done).
  pose proof (zlen_nonneg (zslice (Mem t) dataA dataL)). cbn [c_data fst snd] in *.
  exists r, s', st. splits; try done.
  - intros Hz k Hk. specialize (Hzero Hz).
    assert (He0 : err = None) by (destruct err; [cbn in Hzero; lia|done]).
    pose proof (wt_full _ _ _ _ _ _ Hw He0). rewrite Hd by (cbn; lia). cbn.
    rewrite (wt_stored _ _ _ _ _ _ Hw) by lia. rewrite zget_slice by lia. f_equal. lia.
  - intros o Ho' Hout. rewrite Hd by done. cbn. apply (wt_outside _ _ _ _ _ _ Hw); lia.
  - intros Hacc Hflush. rewrite Hwb.
    + rewrite <- Hlen in Hacc at 1. by rewrite (wt_accepts _ _ _ _ _ _ Hw Hacc).
    + left. unfold wb. destruct (Z.eqb_spec (negotiatedFeatures t &&& blkFeatureFlush) 0); done.
Qed.

(** One read request of a driver that waits for it: it is completed with one used
    element, the disk does not change, guest memory changes only in the data buffer,
    the status byte and the used ring, and without host failures the buffer holds the
    bytes of the disk. *)
Theorem blk_read_request {I} `{ImageLaws I} (s : Blk (I := I)) q head sector dataA dataL statusA length :
  one_request s q head 0 sector dataA dataL statusA length ->
  exists r s' st, IO s = (r, s') /\ returns r /\ st = zget (Mem (fst s')) statusA /\ (st = 0 \/ st = 1) /\
    completion s s' q head length /\
    (forall o, 0 <= o -> img_byte (image (snd s')) o = img_byte (image (snd s)) o) /\
    (forall x, 0 <= x -> x <> statusA -> ~ (sq_Used q <= x < sq_Used q + sizeofSplitUsed) ->
       ~ (dataA <= x < dataA + dataL) -> zget (Mem (fst s')) x = zget (Mem (fst s)) x) /\
    (img_quiet (image (snd s)) -> st = 0 /\ forall i, 0 <= i < dataL ->
       zget (Mem (fst s')) (dataA + i) = img_byte (image (snd s)) (sector * SectorSize + i)).
Proof.
  intros O. destruct (IO_one s _ _ _ _ _ _ _ _ O (or_introl eq_refl)) as (Hio & Hr & Hq & Hqs).
  rewrite Hio. set (wb := negb _). destruct s as [t d]. cbn [fst snd] in *.
  pose proof (or_inv _ _ _ _ _ _ _ _ _ O) as B.
  destruct (process_read _ t d B (or_quiet _ _ _ _ _ _ _ _ _ O) Hr eq_refl eq_refl eq_refl)
    as (b' & n & err & i & Hw & Hp). cbn [c_data fst snd c_offset] in Hw.
  pose proof (wp_processRequest _ (t, d) B Hr) as Hwp. unfold wp in Hwp. rewrite Hp in Hwp.
  destruct Hwp as (S1 & Hl & Hpr & _). cbn [fst snd c_data] in *.
  destruct (rq_data _ _ _ Hr) as [[Ha Hv] Hn]. cbn [c_data fst snd] in Ha, Hv, Hn.
  destruct (rq_range _ _ _ Hr eq_refl eq_refl) as [Ho Hfit]. cbn [c_offset c_data snd] in Ho, Hfit.
  destruct (ValidRange_spec _ _ _ Ha Hn Hv) as [He _].
  assert (Hlen : zlen (zslice (Mem t) dataA dataL) = dataL) by (apply zlen_slice; done).
  destruct (rd_len _ _ _ _ _ _ _ Hw) as [Hlb Hnb]. rewrite Hlen in Hlb, Hnb.
  pose proof (used_bounds _ q Hq) as Hub. unfold sizeofSplitUsed in Hub.
  destruct (rq_status _ _ _ Hr) as (a & [= <-] & Hst).
  pose proof (or_data _ _ _ _ _ _ _ _ _ O) as Hap. unfold apart, sizeofSplitUsed in Hap.
  destruct (finish_one (t, d) q head 0 sector dataA dataL statusA length wb _ false _ _ O (or_introl eq_refl) Hr Hq Hqs Hp S1 Hpr)
    as (r & s' & st & Hrun & Hret & Hsta & Hc & Hd & H01 & Hzero & Hwb & Hmem); try done.
  { apply (or_quiet _ _ _ _ _ _ _ _ _ O). }
  { unfold usedIdxAt, le_uint16. cbn. f_equal.
    assert (Hzl : zlen (zwrite (Mem t) dataA b') = zlen (Mem t)) by (apply zlen_zwrite_in; split; [done|by rewrite Hlb]).
    apply zslice_agree; try lia. intros k Hk. apply zget_write_out; lia. }
  cbn [fst snd Mem set_field c_data] in *. exists r, s', st. splits; try done.
  - intros o Ho'. rewrite Hd by done. cbn. by apply (rd_view _ _ _ _ _ _ _ Hw).
  - intros x Hx Hxs Hxu Hxd. rewrite Hmem by done. apply zget_write_out; lia.
  - intros Hqt. destruct (rd_full _ _ _ _ _ _ _ Hw Hqt Ho) as [Hnn Herr].
    pose proof (bi_cap _ B) as Hcap. cbn [snd] in Hcap. pose proof (Z.mul_div_le (img_Size (image d)) SectorSize).
    unfold SectorSize in *. assert (Hnd : n = dataL) by lia.
    assert (err = None) as ->.
    { rewrite Herr, Hlen, Hnd. destruct (dataL <? dataL) eqn:?; zbool; [lia|done]. }
    split; [by rewrite Hwb by (by right)|]. intros k Hk.
    pose proof (or_buffers _ _ _ _ _ _ _ _ _ O) as Hab. unfold apart in Hab.
    rewrite Hmem by (unfold sizeofSplitUsed; lia). rewrite zget_write_in by lia.
    rewrite <- (rd_bytes _ _ _ _ _ _ _ Hw) by lia. f_equal. lia.
Qed.

(** C20: whatever a guest writes into its memory before and while a batch of requests
    is processed, the batch terminates without a panic or an access outside guest
    memory, keeps the device invariant, never touches the disk beyond its capacity,
    and a read-only disk never changes. *)
Theorem blk_io_safe {I} `{ImageLaws I} (s : Blk (I := I)) :
  binv s ->
  exists r s', IO s = (r, s') /\ returns r /\ binv s' /\
    VirtQueue (snd s') = VirtQueue (snd s) /\ zlen (Mem (fst s')) = zlen (Mem (fst s)) /\
    (forall o, capacity (snd s) * SectorSize <= o -> img_byte (image (snd s')) o = img_byte (image (snd s)) o) /\
    (readOnly (snd s) = true ->
       forall o, 0 <= o -> img_byte (image (snd s')) o = img_byte (image (snd s)) o).
Proof.
  intros B. pose proof (wp_IO s B) as Hw. unfold wp in Hw. destruct (IO s) as [r s'].
  exists r, s'. destruct r; try done; destruct Hw as [B' [? ? ? ? ? ? Hb Hr]]; by splits.
Qed.

(** ** A concrete device

    A raw disk of four sectors behind a queue of four descriptors with one
    request: a header at 0x600, sixteen bytes of data at 0x640 and the status
    byte at 0x6a4. *)

Definition sampleDesc (mem : list Z) (i addr len flags next : Z) : list Z :=
  put_le (put_le (put_le (put_le mem (16 * i) 8 addr) (16 * i + 8) 4 len) (16 * i + 12) 2 flags) (16 * i + 14) 2 next.

Definition sampleMem (typ sector : Z) : list Z :=
  let m := zeros 0x800 in
  let m := sampleDesc m 0 0x600 16 1 1 in
  let m := sampleDesc m 1 0x640 16 1 2 in
  let m := sampleDesc m 2 0x6a4 1 2 0 in
  let m := put_le m 0x202 2 1 in
  let m := put_le (put_le m 0x600 4 typ) 0x608 8 sector in
  zwrite m 0x640 [1; 2; 3; 4; 5; 6; 7; 8; 9; 10; 11; 12; 13; 14; 15; 16].

Definition sampleQueue : SplitQueue := mkSplitQueue 0 0x200 0x400 4.

Definition sampleRaw : rawImage := mkRaw (mkFile (replicate 2048 7) []) 2048 false.

Definition sampleBlk (typ sector : Z) : Blk (I := rawImage) :=
  let d := mkBlkDev sampleRaw 4 false (Some sampleQueue) 0 0 false false in
  (NewModernTransport d (sampleMem typ sector) [] (mkIrqLine false 0 [])
     <| deviceStatus := 15 |> <| driverFeature := [512; 1] |>, d).

Lemma sampleBlk_twf typ sector : twf (fst (sampleBlk typ sector)).
Proof.
  constructor; unfold is_u8, is_u16, is_u32, is_u64; cbn -[sampleMem Z.lor Z.pow]; try lia.
  - exists 512, 1. unfold is_u32. split; [done|lia].
  - constructor; [|constructor]. unfold queue_regs, is_u16, is_u64, freshQueue, QueueSize; cbn. lia.
  - vm_compute. split; [discriminate|reflexivity].
  - repeat apply bytes_ok_write; try apply le_bytes_ok; [apply bytes_ok_zeros|]. by apply bytes_okb_ok.
Qed.

Lemma zlen_sampleMem typ sector : zlen (sampleMem typ sector) = 0x800.
Proof. vm_compute. reflexivity. Qed.

Lemma sample_queue_ok typ sector : queue_ok (sampleMem typ sector) sampleQueue.
Proof.
  constructor; [by exists 2|..]; unfold in_ram, ValidRange; rewrite zlen_sampleMem; (split; [done|reflexivity]).
Qed.

Lemma sampleBlk_inv typ sector : binv (sampleBlk typ sector).
Proof.
  constructor; [apply sampleBlk_twf| | |done].
  - split; [apply sample_queue_ok|]. unfold is_u16. cbn. lia.
  - split; [|done]. apply bytes_okb_ok. reflexivity.
Qed.

Lemma sample_request typ : typ = 0 \/ typ = 1 -> one_request (sampleBlk typ 1) sampleQueue 0 typ 1 0x640 16 0x6a4 33.
Proof.
  intros Ht. constructor; [apply sampleBlk_inv|reflexivity|reflexivity|reflexivity|..];
    try lazymatch goal with |- apart _ _ _ _ => unfold apart, sizeofSplitUsed, sampleQueue; cbn [sq_Used]; lia end;
    destruct Ht as [-> | ->]; try (vm_compute; first [reflexivity|discriminate]).
  all: constructor; vm_compute; splits; try reflexivity; try discriminate.
Qed.

Lemma blk_write_request_witness :
  exists r s', IO (sampleBlk 1 1) = (r, s') /\ zget (Mem (fst s')) 0x6a4 = 0 /\
    img_byte (image (snd s')) (1 * SectorSize + 3) = zget (Mem (fst (sampleBlk 1 1))) (0x640 + 3).
Proof.
  destruct (blk_write_request (sampleBlk 1 1) sampleQueue 0 1 0x640 16 0x6a4 33
    (sample_request 1 (or_intror eq_refl)) eq_refl) as (r & s' & st & Hio & _ & Hst & _ & _ & Hw & _ & _ & Hacc).
  assert (Hz : st = 0).
  { apply Hacc; [|vm_compute; discriminate]. split; [constructor|split; discriminate]. }
  exists r, s'. splits; [exact Hio|by rewrite <- Hst|]. exact (Hw Hz 3 ltac:(lia)).
Defined.

Lemma blk_read_request_witness :
  exists r s', IO (sampleBlk 0 1) = (r, s') /\ zget (Mem (fst s')) 0x6a4 = 0 /\
    zget (Mem (fst s')) (0x640 + 5) = img_byte (image (snd (sampleBlk 0 1))) (1 * SectorSize + 5).
Proof.
  destruct (blk_read_request (sampleBlk 0 1) sampleQueue 0 1 0x640 16 0x6a4 33 (sample_request 0 (or_introl eq_refl)))
    as (r & s' & st & Hio & _ & Hst & _ & _ & _ & _ & Hq).
  destruct (Hq ltac:(constructor)) as [Hz Hd].
  exists r, s'. splits; [exact Hio|by rewrite <- Hst|]. exact (Hd 5 ltac:(lia)).
Defined.

Lemma blk_io_safe_witness : exists r s', IO (sampleBlk 7 9) = (r, s') /\ returns r /\ binv s'.
Proof.
  destruct (blk_io_safe (sampleBlk 7 9) (sampleBlk_inv 7 9)) as (r & s' & Hio & Hr & B & _).
  exists r, s'. exact (conj Hio (conj Hr B)).
Defined.

(** Witnesses of the transport properties, for this device. *)

Lemma common_register_roundtrip_witness :
  exists s', MMIO 36 [1; 2; 3; 4] true (sampleBlk 0 0) = (Ok [1; 2; 3; 4], s') /\
    fst (MMIO 36 (zeros 4) false s') = Ok [1; 2; 3; 4].
Proof.
  apply (common_register_roundtrip (fst (sampleBlk 0 0)) (snd (sampleBlk 0 0)) 36 4);
    [apply sampleBlk_twf|unfold common_rw; set_solver|done|by apply bytes_okb_ok|right; discriminate].
Defined.

Lemma queue_setup_published_witness :
  exists t' q, mmioWrites (queueSetup 0 4 0 0x200 0x400) (sampleBlk 0 0) =
      (Ok tt, (t', QueueReady 0 sampleQueue (snd (sampleBlk 0 0)))) /\
    curQueue t' = Some q /\ vq_enable q = 1.
Proof.
  assert (Hv : setup_valid (Mem (fst (sampleBlk 0 0))) 4 0 0x200 0x400 = true) by (vm_compute; reflexivity).
  pose proof (queue_setup_published (fst (sampleBlk 0 0)) (snd (sampleBlk 0 0)) 0 4 0 0x200 0x400) as Hp.
  cbv zeta in Hp. rewrite Hv in Hp. apply Hp; unfold is_u16, is_u64; try lia. split; [lia|reflexivity].
Defined.

Lemma negotiation_accepts_offered_witness :
  exists t', mmioWrites (negotiation (2 ^ 32 + 0x3ff) 11) (sampleBlk 0 0) = (Ok tt, (t', snd (sampleBlk 0 0))) /\
    negotiatedFeatures t' = 2 ^ 32 + 0x200.
Proof.
  apply (negotiation_accepts_offered (fst (sampleBlk 0 0)) (snd (sampleBlk 0 0)) (2 ^ 32 + 0x3ff) 11);
    [apply sampleBlk_twf|unfold is_u64, is_u8; lia..].
Defined.

Lemma reset_restores_initial_witness :
  exists t', MMIO 20 [0] true (sampleBlk 0 0) = (Ok [0], (t', blkReset (snd (sampleBlk 0 0)))) /\ isr t' = 0.
Proof.
  destruct (reset_restores_initial (fst (sampleBlk 0 0)) (snd (sampleBlk 0 0)) eq_refl eq_refl) as (t' & Hm & Hi & _).
  exists t'. exact (conj Hm Hi).
Defined.

Lemma intx_line_follows_isr_witness :
  exists t', runIrqOps [OpInterrupt; OpConfigChanged; OpReadISR; OpInterrupt]
      (SetIRQLine (fst (sampleBlk 0 0))) = (Ok [3], t') /\ isr t' = 1 /\ irq_level (irq t') = negb (isr t' =? 0).
Proof.
  apply (intx_line_follows_isr [OpInterrupt; OpConfigChanged; OpReadISR; OpInterrupt] (SetIRQLine (fst (sampleBlk 0 0)))).
  done.
Defined.

Lemma capabilities_describe_bar_witness :
  capWalk 5 (zeros 0x40 ++ Capabilities (fst (sampleBlk 0 0))) capCommonAt =
    [(1, 0, 0x38); (2, 0x3000, 0x100); (3, 0x1000, 4); (4, 0x2000, 8)].
Proof. apply (capabilities_describe_bar (fst (sampleBlk 0 0))). cbn. lia. Defined.

Lemma MMIO_safe_witness :
  exists data' s', MMIO 28 [1; 0] true (sampleBlk 0 0) = (Ok data', s') /\ twf (fst s').
Proof.
  destruct (MMIO_safe 28 [1; 0] true (sampleBlk 0 0)) as (data' & s' & Hm & T & _).
  - apply sampleBlk_twf.
  - apply (bi_q _ (sampleBlk_inv 0 0)).
  - lia.
  - by apply bytes_okb_ok.
  - intros _. discriminate.
  - exists data', s'. exact (conj Hm T).
Defined.

Lemma short_register_write_panics_witness : fst (MMIO 0 [1] true (sampleBlk 0 0)) = Panic.
Proof. apply (short_register_write_panics 0 [1] (sampleBlk 0 0)); [set_solver|by split]. Defined.
