(* ===== verification/VirtioBlkDurable.v ===== *)
(** Durability of the virtio block device (src/internal/virtio/blk.go): what
    survives a crash of the host when a request is reported to the guest.

    The image is paired with what a crash leaves of it: a write changes the
    image alone, and a Sync that succeeds makes the image as it is stable.  The
    device is the one of [VirtioBlk], over this pair in place of the image. *)

From S2P Require Import Prelude Bytes OsFile QcowLayout Disk GuestMem VirtioModern VirtioModernSpec VirtioQueue VirtioBlk VirtioBlkSpec.

(** ** Images that lose what was not synchronized *)

Record crashable (I : Type) := mkCrash { cr_image : I; cr_stable : I }.
Arguments mkCrash {I} _ _.
Arguments cr_image {I} _.
Arguments cr_stable {I} _.

Lemma wp_and {S A} (m : M S A) (x : S) Q E Q' E' :
  wp m x Q E -> wp m x Q' E' -> wp m x (fun a x' => Q a x' /\ Q' a x') (fun e x' => E e x' /\ E' e x').
Proof. unfold wp. by destruct (m x) as [[] ?]. Qed.

Section Crashable.
Context {I : Type} `{ImageLaws I}.

(** An operation on the image; the stable state is as it was. *)
Definition onVisible {A} (m : M I A) : M (crashable I) A := fun d =>
  let '(r, i) := m (cr_image d) in (r, mkCrash i (cr_stable d)).

Definition crashSync : M (crashable I) unit := fun d =>
  let '(r, i) := img_Sync (cr_image d) in
  (r, mkCrash i (match r with Ok _ => i | _ => cr_stable d end)).

#[export] Instance crash_ops : ImageOps (crashable I) := {
  img_ReadAt b off := onVisible (img_ReadAt b off);
  img_WriteAt b off := onVisible (img_WriteAt b off);
  img_Sync := crashSync;
  img_Size d := img_Size (cr_image d)
}.

#[export] Instance crash_model : ImageModel (crashable I) := {
  img_inv d := img_inv (cr_image d);
  img_byte d := img_byte (cr_image d);
  img_quiet d := img_quiet (cr_image d);
  img_accepts d := img_accepts (cr_image d)
}.

Lemma wp_onVisible {A} (m : M I A) d Q E :
  wp m (cr_image d) (fun a i => Q a (mkCrash i (cr_stable d))) (fun e i => E e (mkCrash i (cr_stable d))) ->
  wp (onVisible m) d Q E.
Proof. unfold wp, onVisible. by destruct (m (cr_image d)) as [[] i]. Qed.

#[export] Instance crash_laws : ImageLaws (crashable I).
Proof.
  constructor.
  - intros d Hi. exact (img_size_range (cr_image d) Hi).
  - intros d b off Hi. apply wp_onVisible. eapply wp_mono; [by apply img_read_law| |done].
    intros [[b' n] err] i [? ? ? ? ? ? ? ?]. by constructor.
  - intros d b off Hi Hb. apply wp_onVisible. eapply wp_mono; [by apply img_write_law| |done].
    intros [n err] i [? ? ? ? ? ? ? ?]. by constructor.
  - intros d Hi. pose proof (img_sync_law (cr_image d) Hi) as Hs. unfold wp in *. cbn [img_Sync crash_ops].
    unfold crashSync. by destruct (img_Sync (cr_image d)) as [[] i].
Qed.

(** ** Durable states *)

Implicit Types (s : Blk (I := crashable I)) (c : blkPendingRequest).

(** Every byte of the disk survives a crash. *)
Definition durable s : Prop := forall o, 0 <= o ->
  img_byte (cr_stable (image (snd s))) o = img_byte (cr_image (image (snd s))) o.

(** The device keeps track of what is not durable. *)
Definition clean s : Prop := dirty (snd s) = false -> durable s.

Lemma durable_image s s' : image (snd s') = image (snd s) -> durable s -> durable s'.
Proof. unfold durable. by intros ->. Qed.

Lemma clean_same s s' : image (snd s') = image (snd s) -> dirty (snd s') = dirty (snd s) -> clean s -> clean s'.
Proof. intros Hi Hd Hc Hf. rewrite Hd in Hf. by apply (durable_image s), Hc. Qed.

(** A synchronization that succeeds makes the disk durable; one that fails
    leaves what was durable durable, and the device dirty. *)
Lemma wp_syncImage_durable s :
  binv s ->
  wp syncImage s (fun _ s' => durable s')
    (fun _ s' => (durable s -> durable s') /\ dirty (snd s') = dirty (snd s)).
Proof.
  intros B. pose proof (img_sync_law (cr_image (image (snd s))) (bi_img s B)) as Hs.
  unfold syncImage, wp in *. unfold gbind, onImage, updB, gupd. cbn [img_Sync crash_ops]. unfold crashSync.
  destruct (img_Sync (cr_image (image (snd s)))) as [[[]|e| |] i]; try done; cbn.
  split; [|done]. destruct Hs as (_ & _ & Hb). intros Hd o Ho. cbn. rewrite Hb by done. by apply Hd.
Qed.

(** A read changes neither the disk nor its stable state. *)
Lemma readData_stable c s : cr_stable (image (snd (snd (readData c s)))) = cr_stable (image (snd s)).
Proof.
  unfold readData, gbind, onT, onImage. destruct (memLoad _ _ (fst s)) as [[b|e| |] t1]; try done. cbn [fst snd].
  cbn [img_ReadAt crash_ops]. unfold onVisible.
  destruct (img_ReadAt b (c_offset c) (cr_image (image (snd s)))) as [[[[b' n] err]|e| |] i]; try done. cbn [fst snd].
  by destruct (memPut _ _ _) as [[] ?].
Qed.

Lemma wp_readData_durable c s :
  binv s -> req_ok (Mem (fst s)) (capacity (snd s)) c -> c_result c = 0 -> c_flush c = false ->
  wp (readData c) s (fun _ s' => (durable s -> durable s') /\ dirty (snd s') = dirty (snd s)) (fun _ _ => False).
Proof.
  intros B Hr Hz Hf. pose proof (wp_readData c s B Hr Hz Hf) as Hw. pose proof (readData_stable c s) as Hs.
  unfold wp in *. destruct (readData c s) as [[err|e| |] s']; try done. cbn [snd] in Hs.
  destruct Hw as (_ & Hd & t' & b & b' & n & i & _ & _ & _ & ->). split; [|done].
  intros Hds o Ho. rewrite Hs, (Hds o Ho). symmetry. by apply Hd.
Qed.

(** One request: a flush that succeeds leaves a durable disk, and a write that
    succeeds a durable disk or the demand to synchronize. *)
Record processed_durable c s (r : blkPendingRequest * bool) s' : Prop := {
  pd_clean : clean s -> clean s';
  pd_keeps : snd r = false -> durable s -> durable s';
  pd_write : c_write (fst r) = true -> c_result (fst r) = 0 -> snd r = true \/ durable s';
  pd_flush : c_flush c = true -> c_result (fst r) = 0 -> durable s'
}.

Lemma wp_processRequest_durable c s :
  binv s -> req_ok (Mem (fst s)) (capacity (snd s)) c ->
  wp (processRequest c) s (processed_durable c s) (fun _ _ => False).
Proof.
  intros B Hr. unfold processRequest. destruct (c_result c =? 0) eqn:Hz; zbool.
  2: { wstep. constructor; cbn; auto; congruence. }
  do 3 wstep. destruct (c_flush c) eqn:Hf.
  { do 2 wstep. eapply wp_mono; [by apply wp_syncImage_durable|..].
    - intros [] s1 Hd. do 2 wstep. constructor; cbn; auto. by intros _ _.
    - intros e s1 [Hd Hdirty]. do 2 wstep. constructor; cbn; auto; [|done..].
      intros Hc Hf1. rewrite Hdirty in Hf1. auto. }
  destruct (c_write c && readOnly (snd s)) eqn:Hro; zbool.
  { do 2 wstep. constructor; cbn; auto; done. }
  destruct (c_write c) eqn:Hw.
  - cbn [andb] in Hro. wstep. unfold updB. wstep. set (s1 := (fst s, snd s <| dirty := true |>)).
    assert (S1 : bstep s s1).
    { pose proof (bstep_image s (image (snd s)) true B (bi_img s B)) as Hst.
      destruct s as [? []]. by apply Hst. }
    wstep. wcall (wp_writeData c s1); try done; [apply S1|]. intros err s2 (S2 & t' & b & n & i & Hy & _ & _ & ->).
    do 2 wstep. constructor; cbn; auto; [by intros _|done|congruence].
  - wstep. wcall wp_readData_durable; try done. intros err s2 [Hd Hdirty].
    do 2 wstep. constructor; cbn; auto.
    + intros Hc Hf2. rewrite Hdirty in Hf2. auto.
    + destruct err; cbn; congruence.
    + congruence.
Qed.

(** The batch: without a demand to synchronize, every write reported
    successful is durable. *)
Record batch_durable (needsSync : bool) s (r : list blkPendingRequest * bool * option error) s' : Prop := {
  bd_clean : clean s -> clean s';
  bd_mono : needsSync = true -> snd (fst r) = true;
  bd_keeps : snd (fst r) = false -> durable s -> durable s';
  bd_writes : snd (fst r) = false -> Forall (fun c => c_write c = true -> c_result c = 0 -> durable s') (fst (fst r))
}.

(** Handing a request back leaves the image alone. *)
Lemma completed_store n s s' : completed n s s' -> image (snd s') = image (snd s) /\ dirty (snd s') = dirty (snd s).
Proof. by intros [_ ->]. Qed.

Lemma wp_processAll_durable q queueSize writeback cs needsSync ierr s :
  binv s -> queue_ok (Mem (fst s)) q -> 0 < queueSize <= QueueSize ->
  Forall (req_ok (Mem (fst s)) (capacity (snd s))) cs ->
  wp (processAll q queueSize writeback cs needsSync ierr) s (batch_durable needsSync s) (fun _ _ => False).
Proof.
  revert needsSync ierr s. induction cs as [|c cs IH]; intros ns ierr s B Hq Hqs Hcs; cbn [processAll].
  { wstep. by constructor. }
  inversion Hcs as [|? ? Hc Hcs']; subst. wstep.
  eapply wp_mono; [apply (wp_and _ _ _ _ _ _ (wp_processRequest c s B Hc) (wp_processRequest_durable c s B Hc))| |].
  2: { by intros e s1 []. }
  intros [c1 w] s1 [(S1 & _ & Hp & _) [Hc1 Hk1 Hw1 _]]. cbn [fst snd] in *. cbv zeta.
  pose proof (bf_len _ _ (proj2 S1)) as L1. pose proof (bf_cap _ _ (proj2 S1)) as C1.
  assert (Hok : req_ok (Mem (fst s1)) (capacity (snd s1)) c1).
  { rewrite C1. apply (req_ok_len _ _ _ _ L1). by apply (processed_ok _ _ c). }
  wstep. eapply wp_mono with (E := fun _ _ => False) (Q := fun _ s2 => bstep s s2 /\
    image (snd s2) = image (snd s1) /\ dirty (snd s2) = dirty (snd s1)); [|..|done].
  - destruct writeback; [|wstep; done]. wstep. wstep.
    wcall wp_completeRequests; [apply S1|by apply (queue_ok_len _ _ _ L1)|done|by constructor; [|constructor]|..];
      intros x s2 S2; wstep; (split; [eapply bstep_trans; [done|done|apply S2]|by apply (completed_store 1)]).
  - intros ie s2 (S2 & Hi2 & Hd2). wstep.
    pose proof (bf_len _ _ (proj2 S2)) as L2. pose proof (bf_cap _ _ (proj2 S2)) as C2.
    wcall (IH (ns || w) ie s2); [apply S2|by apply (queue_ok_len _ _ _ L2)|done| | |done].
    { rewrite C2. eapply Forall_impl; [|exact Hcs']. intros c'. by apply req_ok_len. }
    intros [[cs' ns'] ie'] s3 [Hc3 Hm3 Hk3 Hw3]. cbn [fst snd] in *. wstep.
    assert (Hmono : ns || w = false \/ ns' = true) by (destruct (ns || w); auto).
    constructor; cbn [fst snd].
    + intros Hcl. apply Hc3, (clean_same s1); auto.
    + intros ->. by apply Hm3.
    + intros Hn Hd. apply Hk3, (durable_image s1); auto. apply Hk1; [|done].
      destruct Hmono as [[_ ?]%orb_false_iff|]; congruence.
    + intros Hn. constructor; [|by apply Hw3]. intros Hwr Hz. apply Hk3, (durable_image s1); auto.
      destruct (Hw1 Hwr Hz) as [->|]; [|done]. rewrite orb_true_r in Hmono. destruct Hmono; congruence.
Qed.

(** A batch without write-back is completed as a whole, in a state where every
    write that is reported successful is durable. *)
Lemma runRequests_durable q queueSize cs s :
  binv s -> queue_ok (Mem (fst s)) q -> 0 < queueSize <= QueueSize ->
  Forall (req_ok (Mem (fst s)) (capacity (snd s))) cs ->
  exists cs' s1, runRequests q queueSize false cs s = completeRequests q queueSize cs' s1 /\
    bstep s s1 /\ LastAvailIdx (snd s1) = LastAvailIdx (snd s) /\ (clean s -> clean s1) /\
    Forall2 same_request cs cs' /\ Forall (req_ok (Mem (fst s1)) (capacity (snd s1))) cs' /\
    Forall (fun c => c_write c = true -> c_result c = 0 -> durable s1) cs'.
Proof.
  intros B Hq Hqs Hcs.
  destruct (runRequests_writethrough q queueSize cs s B Hq Hqs Hcs)
    as (cs' & s1 & He & S1 & Hl & Hsame & Hok & cs1 & ns & ie & s0 & Hpa & Hend).
  pose proof (wp_processAll q queueSize false cs false None s B Hq Hqs Hcs) as Hp.
  pose proof (wp_processAll_durable q queueSize false cs false None s B Hq Hqs Hcs) as Hd.
  unfold wp in Hp, Hd. rewrite Hpa in Hp, Hd. destruct Hp as [S0 _], Hd as [Hcl _ _ Hw]. cbn [fst snd] in *.
  pose proof (wp_syncImage_durable s0 (proj1 S0)) as Hs. unfold wp in Hs.
  exists cs', s1. destruct ns; cbn [batch_end] in Hend.
  2: { destruct Hend as [-> ->]. splits; auto. }
  destruct Hend as [[Hsy ->]|[[e Hsy] ->]]; rewrite Hsy in Hs.
  - splits; try done; [by intros _ _|by apply Forall_true].
  - destruct Hs as [Hk Hdirty]. splits; try done.
    + intros Hc Hf. rewrite Hdirty in Hf. by apply Hk, Hcl.
    + apply Forall_map, Forall_true. intros c. unfold fail_write. destruct (c_write c) eqn:Hw'; cbn; [done|].
      by rewrite Hw'.
Qed.

(** A batch keeps track of what is not durable, with write-back or without. *)
Lemma IO_clean s : binv s -> clean s -> wp IO s (fun _ s' => clean s') (fun _ s' => clean s').
Proof.
  intros B Hc. unfold wp. destruct (IO_cases s B) as [(e & s' & -> & R)|(q & cs & s2 & _ & Hq & Hqs & R & Hcs & ->)].
  { by apply (clean_same s); rewrite ?(proj2 R). }
  assert (Hc2 : clean s2) by (by apply (clean_same s); rewrite ?(proj2 R)).
  pose proof (proj1 (proj1 R)) as B2. destruct (negb _).
  - pose proof (wp_processAll_durable q (ringSize q) true cs false None s2 B2 Hq Hqs Hcs) as Hp.
    unfold runRequests, gbind, wp in *.
    destruct (processAll _ _ _ _ _ _ s2) as [[[[cs' ns] [e|]]|e| |] s3]; try done; by apply Hp.
  - destruct (runRequests_durable q (ringSize q) cs s2 B2 Hq Hqs Hcs)
      as (cs' & s3 & -> & S3 & _ & Hcl & _ & Hok & _).
    pose proof (wp_completeRequests q (ringSize q) cs' s3 (proj1 S3)
      (queue_ok_len _ _ _ (bf_len _ _ (proj2 S3)) Hq) Hqs Hok) as Hw. unfold wp in Hw.
    destruct (completeRequests _ _ _ s3) as [[] s4]; try done;
      (destruct (completed_store _ _ _ Hw); apply (clean_same s3); auto).
Qed.

(** A flush request that succeeds leaves a durable disk. *)
Lemma flush_durable c s :
  binv s -> req_ok (Mem (fst s)) (capacity (snd s)) c -> c_flush c = true ->
  wp (processRequest c) s (fun r s' => c_result (fst r) = 0 -> durable s') (fun _ _ => False).
Proof.
  intros B Hr Hf. eapply wp_mono; [by apply wp_processRequest_durable| |done].
  intros r s' Hd. by apply (pd_flush _ _ _ _ Hd).
Qed.

(** A device that closes without error leaves a durable disk. *)
Lemma Close_durable s : binv s -> clean s ->
  wp (Close None) s (fun err s' => err = None -> durable s') (fun _ _ => False).
Proof.
  intros B Hc. unfold Close, updB. wstep. wstep. set (s1 := (fst s, snd s <| done_ := true |>)).
  assert (B1 : binv s1) by (by destruct B as [? [? ?] ? ?]; constructor).
  wstep. wstep. wstep. destruct (dirty (snd s1)) eqn:Hd.
  - do 2 wstep. eapply wp_mono; [by apply wp_syncImage_durable|..].
    + intros [] s2 Hs. do 2 wstep. by intros _.
    + intros e s2 _. do 2 wstep. done.
  - do 2 wstep. intros _. by apply Hc.
Qed.
End Crashable.

(** ** Write-through *)

(** C22: when the driver did not accept the flush feature, every write of a batch
    that is reported successful survives a crash: before any request of the batch is
    completed, every byte of the disk has reached stable storage, or the writes of the
    batch are reported failed.  The device's dirty flag stays a true record of it. *)
Theorem blk_writethrough_durable {I} `{ImageLaws I} (s : Blk (I := crashable I)) :
  binv s -> negotiatedFeatures (fst s) &&& blkFeatureFlush = 0 -> clean s ->
  (exists e s', IO s = (Err e, s') /\ snd s' = snd s) \/
  (exists q cs s1, VirtQueue (snd s) = Some q /\ IO s = completeRequests q (ringSize q) cs s1 /\
     LastAvailIdx (snd s1) = LastAvailIdx (snd s) /\ clean s1 /\
     Forall (fun c => c_write c = true -> c_result c = 0 -> durable s1) cs).
Proof.
  intros B Hf Hc. destruct (IO_cases s B) as [(e & s' & -> & R)|(q & cs & s2 & Hv & Hq & Hqs & R & Hcs & ->)].
  - left. exists e, s'. split; [done|apply R].
  - right. rewrite Hf. change (negb (0 =? 0)) with false.
    destruct (runRequests_durable q (ringSize q) cs s2 (proj1 (proj1 R)) Hq Hqs Hcs)
      as (cs' & s3 & -> & _ & Hl3 & Hcl & _ & _ & Hdur).
    exists q, cs', s3. splits; try done; [by rewrite Hl3, (proj2 R)|].
    apply Hcl, (clean_same s); by rewrite ?(proj2 R).
Qed.

(** ** A concrete device

    The write request of [VirtioBlkSpec], on a raw disk of which nothing is
    lost yet, when the driver did not accept the flush feature. *)
Definition sampleThrough : Blk (I := crashable rawImage) :=
  (fst (sampleBlk 1 1) <| driverFeature := [0; 1] |>,
   mkBlkDev (mkCrash sampleRaw sampleRaw) 4 false (Some sampleQueue) 0 0 false false).

Lemma sampleThrough_inv : binv sampleThrough.
Proof.
  destruct (sampleBlk_inv 1 1) as [T Hq Hi Hc]. constructor; try done.
  destruct T. constructor; try done. exists 0, 1. unfold is_u32. split; [done|lia].
Qed.

(** The request is carried out, and a crash then leaves its bytes on the disk. *)
Lemma blk_writethrough_durable_witness :
  zslice (f_data (r_file (cr_stable (image (snd (snd (IO sampleThrough))))))) 512 4 = [1; 2; 3; 4] /\
  ((exists e s', IO sampleThrough = (Err e, s') /\ snd s' = snd sampleThrough) \/
  (exists q cs s1, VirtQueue (snd sampleThrough) = Some q /\ IO sampleThrough = completeRequests q (ringSize q) cs s1 /\
     LastAvailIdx (snd s1) = LastAvailIdx (snd sampleThrough) /\ clean s1 /\
     Forall (fun c => c_write c = true -> c_result c = 0 -> durable s1) cs)).
Proof.
  split; [vm_compute; reflexivity|].
  apply (blk_writethrough_durable sampleThrough sampleThrough_inv eq_refl). by intros _ o _.
Defined.
