(* ===== verification/VirtioNet.v ===== *)
(** The virtio network device (src/internal/virtio/net.go).

    The backend ([tap], an [io.ReadWriter]) is its environment: the packets it
    will deliver, the frames it was given and the outcome of its writes. *)

From S2P Require Import Prelude Bytes GuestMem VirtioModern VirtioQueue.

Definition ErrNoRxPacket : error := EMsg "no packet for rx".
Definition ErrNoRxBuf : error := EMsg "no buffer found for rx".
Definition ErrNetDesc : error := EMsg "invalid virtio-net descriptor chain".

Definition netHdrLen : Z := 12.
Definition netRxQueue : Z := 0.
Definition netTxQueue : Z := 1.
Definition netNumQueues : Z := 2.

(** ** The backend

    [tap_in] lists the outcomes of reads, [None] being an error; [tap_writes]
    those of writes: [None] takes the whole frame, [Some n] reports [n] bytes
    and a negative number an error. *)
Record tapState : Type := mkTap {
  tap_in : list (option (list Z));
  tap_out : list (list Z);
  tap_writes : list (option Z)
}.
#[export] Instance tapState_eta : Settable tapState := fun r =>
  mkTap (tap_in r) (tap_out r) (tap_writes r).

Definition tapRead (limit : Z) (t : tapState) : option (list Z) * tapState :=
  match tap_in t with
  | [] => (None, t)
  | x :: rest => (option_map (take (Z.to_nat limit)) x, t <| tap_in := rest |>)
  end.

(** The number of bytes written, or an error. *)
Definition tapWrite (b : list Z) (t : tapState) : result Z * tapState :=
  let used := t <| tap_writes := tail (tap_writes t) |> in
  match tap_writes t with
  | Some n :: _ => if n <? 0 then (Err EIO, used) else (Ok n, used <| tap_out := tap_out t ++ [take (Z.to_nat n) b] |>)
  | _ => (Ok (zlen b), used <| tap_out := tap_out t ++ [b] |>)
  end.

(** ** State *)

(** The queues and positions are indexed by [netRxQueue] and [netTxQueue];
    [txKick] counts the elements of that channel, [rxNotify] says whether the
    one-element channel of that name is full. *)
Record netDev : Type := mkNetDev {
  tap : tapState;
  n_VirtQueue : list (option SplitQueue);
  n_LastAvailIdx : list Z;
  txKick : Z;
  rxNotify : bool;
  n_done : bool;
  n_closeErr : option error
}.
#[export] Instance netDev_eta : Settable netDev := fun r =>
  mkNetDev (tap r) (n_VirtQueue r) (n_LastAvailIdx r) (txKick r) (rxNotify r) (n_done r) (n_closeErr r).

Definition Net : Type := ModernTransport * netDev.

Definition updN (f : netDev -> netDev) : M Net unit := gupd (fun s => (fst s, f (snd s))).

Definition netNotify (idx : Z) (d : netDev) : netDev :=
  if idx =? netRxQueue then d <| rxNotify := true |>
  else if idx =? netTxQueue then d <| txKick := Z.min QueueSize (txKick d + 1) |>
  else d.

Definition netQueueReady (idx : Z) (q : SplitQueue) (d : netDev) : netDev :=
  if (idx <? 0) || (netNumQueues <=? idx) then d
  else netNotify idx (d <| n_VirtQueue := zinsert idx (Some q) (n_VirtQueue d) |>
                        <| n_LastAvailIdx := zinsert idx 0 (n_LastAvailIdx d) |>).

Definition netReset (d : netDev) : netDev :=
  d <| n_VirtQueue := [None; None] |> <| n_LastAvailIdx := [0; 0] |>.

#[export] Instance net_device : ModernDevice netDev := {
  DeviceFeatures _ := 0;
  NumQueues _ := netNumQueues;
  DeviceConfigLen _ := 12;
  ReadDeviceConfig _ _ data := zeros (zlen data);
  WriteDeviceConfig _ _ d := d;
  QueueReady := netQueueReady;
  Notify := netNotify;
  Reset := Some netReset
}.

Definition NewNet (t : tapState) (mem : list Z) (guest : list guestStores) (line : irqLine) : Net :=
  let d := mkNetDev t [None; None] [0; 0] 0 false false None in
  (NewModernTransport d mem guest line, d).

Definition queueOf (d : netDev) (sel : Z) : option SplitQueue :=
  match zlookup (n_VirtQueue d) sel with Some (Some q) => Some q | _ => None end.
Definition lastOf (d : netDev) (sel : Z) : Z := zget (n_LastAvailIdx d) sel.
Definition advance (sel : Z) (d : netDev) : netDev :=
  d <| n_LastAvailIdx := zinsert sel (u16 (lastOf d sel + 1)) (n_LastAvailIdx d) |>.

(** ** Receive *)

(** [rxBuffers], with [n] rounds left: the writable buffers of the chain. *)
Fixpoint rxBuffers (q : SplitQueue) (n : nat) (descID : Z) (buffers : list (Z * Z)) (capacity : Z)
    : M Net (list (Z * Z) * Z) :=
  match n with
  | O => throw ErrNetDesc
  | S n =>
      if ringSize q <=? descID then throw ErrNetDesc
      else
        let! desc := onT (loadDesc q descID) in
        let! s := gget in
        if (d_Flags desc &&& descFWrite =? 0) ||
           negb (d_Flags desc &^ (descFWrite ||| descFNext) =? 0) ||
           negb (ValidRange (Mem (fst s)) (d_Addr desc) (d_Len desc))
        then throw ErrNetDesc
        else
          let buffers := buffers ++ [(d_Addr desc, d_Len desc)] in
          let capacity := capacity + d_Len desc in
          if d_Flags desc &&& descFNext =? 0 then ret (buffers, capacity)
          else rxBuffers q n (d_Next desc) buffers capacity
  end.

(** [copy] the packet over the buffers. *)
Fixpoint copyBuffers (buffers : list (Z * Z)) (packet : list Z) : M Net unit :=
  match buffers with
  | [] => ret tt
  | (a, n) :: rest =>
      let copied := Z.to_nat (Z.min n (zlen packet)) in
      do! onT (memStore a (take copied packet)) in
      let packet := drop copied packet in
      if zlen packet =? 0 then ret tt else copyBuffers rest packet
  end.

(** The header: [num_buffers] is 1, everything else 0. *)
Definition netHeader : list Z := zinsert 10 1 (zeros netHdrLen).

Definition Rx : M Net unit :=
  let! s := gget in
  if n_done (snd s) then throw ErrNoRxPacket
  else match queueOf (snd s) netRxQueue with
  | None => throw ErrVQNotInit
  | Some q =>
      let last := lastOf (snd s) netRxQueue in
      let! idx := onT (loadAvailIdx q) in
      let count := u16 (idx - last) in
      if count =? 0 then throw ErrNoRxBuf
      else if ringSize q <? count then throw ErrNetDesc
      else
        let! head := onT (loadAvailRing q (last mod ringSize q)) in
        let! r := rxBuffers q (Z.to_nat (ringSize q)) head [] 0 in
        let '(buffers, capacity) := r in
        let! s := gget in
        let '(p, tap') := tapRead 65536 (tap (snd s)) in
        do! updN (fun d => d <| tap := tap' |>) in
        match p with
        | None => throw ErrNoRxPacket
        | Some payload =>
            if zlen payload =? 0 then throw ErrNoRxPacket
            else
              let packet := netHeader ++ payload in
              let! uidx := onT (loadUsedIdx q) in
              do! onT (storeUsedRing q (uidx mod ringSize q) (mkUsedElem head 0)) in
              do! (if zlen packet <=? capacity then
                     do! onT (memStore (sq_Used q + 8 + 8 * (uidx mod ringSize q)) (le_bytes 4 (zlen packet))) in
                     copyBuffers buffers packet
                   else ret tt) in
              do! updN (advance netRxQueue) in
              do! onT (addUsedIdx q 1) in
              onT Interrupt
        end
  end.

(** ** Transmit *)

(** The inner loop of [Tx]: append the buffers of a chain. *)
Fixpoint txGather (fuel : nat) (q : SplitQueue) (descID : Z) (seen : list bool) (buf : list Z) : M Net (list Z) :=
  match fuel with
  | O => fun s => (OutOfFuel, s)
  | S fuel =>
      if (ringSize q <=? descID) || default false (zlookup seen descID) then throw ErrNetDesc
      else
        let! desc := onT (loadDesc q descID) in
        let! s := gget in
        if negb (d_Flags desc &^ descFNext =? 0) ||
           negb (ValidRange (Mem (fst s)) (d_Addr desc) (d_Len desc)) ||
           (netHdrLen + 65536 - zlen buf <? d_Len desc)
        then throw ErrNetDesc
        else
          let! b := onT (memLoad (d_Addr desc) (d_Len desc)) in
          let buf := buf ++ b in
          if d_Flags desc &&& descFNext =? 0 then ret buf
          else txGather fuel q (d_Next desc) (zinsert descID true seen) buf
  end.

(** One round of the loop of [Tx]. *)
Definition txOne (q : SplitQueue) : M Net unit :=
  let! s := gget in
  if n_done (snd s) then throw ErrNoTxPacket
  else
    let! head := onT (loadAvailRing q (lastOf (snd s) netTxQueue mod ringSize q)) in
    let! buf := txGather (Z.to_nat (QueueSize + 1)) q head (replicate (Z.to_nat QueueSize) false) [] in
    if zlen buf <? netHdrLen then throw ErrNetDesc
    else
      let payload := drop (Z.to_nat netHdrLen) buf in
      let! s := gget in
      let '(r, tap') := tapWrite payload (tap (snd s)) in
      do! updN (fun d => d <| tap := tap' |>) in
      match r with
      | Err e => throw e
      | Ok n =>
          if negb (n =? zlen payload) then throw EShortWrite
          else
            let! uidx := onT (loadUsedIdx q) in
            do! onT (storeUsedRing q (uidx mod ringSize q) (mkUsedElem head (zlen buf))) in
            do! onT (addUsedIdx q 1) in
            updN (advance netTxQueue)
      | Panic => panic
      | OutOfFuel => fun s => (OutOfFuel, s)
      end.

Fixpoint txLoop (q : SplitQueue) (count : nat) : M Net unit :=
  match count with
  | O => ret tt
  | S n => do! txOne q in txLoop q n
  end.

Definition Tx : M Net unit :=
  let! s := gget in
  if n_done (snd s) then throw ErrNoTxPacket
  else match queueOf (snd s) netTxQueue with
  | None => throw ErrVQNotInit
  | Some q =>
      let last := lastOf (snd s) netTxQueue in
      let! idx := onT (loadAvailIdx q) in
      if last =? idx then throw ErrNoTxPacket
      else
        let! idx := onT (loadAvailIdx q) in
        let count := u16 (idx - last) in
        if ringSize q <? count then throw ErrNetDesc
        else
          do! txLoop q (Z.to_nat count) in
          onT Interrupt
  end.

(** [Close], with the outcome of closing the backend when it can be closed. *)
Definition netClose (tapClose : option (option error)) (d : netDev) : option error * netDev :=
  let d := if n_done d then d
           else d <| n_done := true |>
                  <| n_closeErr := match tapClose with Some e => e | None => n_closeErr d end |> in
  (n_closeErr d, d).

(** ** Invariant *)

Definition netQueuesOk (mem : list Z) (d : netDev) : Prop :=
  (exists a b, n_VirtQueue d = [a; b] /\ (forall q, a = Some q \/ b = Some q -> queue_ok mem q)) /\
  (exists i j, n_LastAvailIdx d = [i; j] /\ is_u16 i /\ is_u16 j).

Definition packet_ok (p : option (list Z)) : Prop := match p with Some b => bytes_ok b | None => True end.

Record ninv (s : Net) : Prop := {
  ni_t : twf (fst s);
  ni_q : netQueuesOk (Mem (fst s)) (snd s);
  ni_tap : Forall packet_ok (tap_in (tap (snd s)))
}.

#[export] Instance net_laws : ModernDeviceLaws netDev.
Proof.
  refine {| dev_inv := netQueuesOk |}.
  - done.
  - intros mem d i q Hd Hk. pose proof Hd as [(a & b & Hq & Ho) (x & y & Hl & Hx & Hy)]. unfold QueueReady, net_device, netQueueReady.
    destruct (_ || _) eqn:E; [done|]. zbool. unfold netNumQueues in *.
    assert (is_u16 0) by (unfold is_u16; lia).
    assert (Hi : i = 0 \/ i = 1) by lia. destruct Hi as [-> | ->]; cbn; rewrite Hq, Hl; cbn; split.
    + eexists _, _. split; [reflexivity|]. intros q' [[= <-]| ->]; auto.
    + by eexists _, _.
    + eexists _, _. split; [reflexivity|]. intros q' [-> |[= <-]]; auto.
    + by eexists _, _.
  - intros mem d i Hd. unfold Notify, net_device, netNotify. by repeat destruct (_ =? _).
  - intros mem d f [= <-] _. split; [exists None, None|exists 0, 0]; cbn; (split; [done|]); [naive_solver|].
    unfold is_u16. lia.
Defined.

Record nframe (s s' : Net) : Prop := {
  nf_len : zlen (Mem (fst s')) = zlen (Mem (fst s));
  nf_queue : n_VirtQueue (snd s') = n_VirtQueue (snd s);
  nf_done : n_done (snd s') = n_done (snd s)
}.

Definition nstep (s s' : Net) : Prop := ninv s' /\ nframe s s'.

Lemma nstep_refl s : ninv s -> nstep s s.
Proof. intros B. by split. Qed.

Lemma nstep_trans s1 s2 s3 : nstep s1 s2 -> nstep s2 s3 -> nstep s1 s3.
Proof. intros [_ [? ? ?]] [? [? ? ?]]. split; [done|]. constructor; congruence. Qed.

Lemma queueOf_ok mem d sel q : netQueuesOk mem d -> queueOf d sel = Some q -> queue_ok mem q.
Proof.
  intros [(a & b & Hq & Ho) _]. unfold queueOf, zlookup. rewrite Hq. destruct (sel <? 0); [done|].
  destruct (Z.to_nat sel) as [|[|n]]; cbn; [destruct a|destruct b|destruct n]; intros [= <-]; auto.
Qed.

Lemma netQueuesOk_len mem mem' d : zlen mem' = zlen mem -> netQueuesOk mem d -> netQueuesOk mem' d.
Proof.
  intros Hl [(a & b & Hq & Ho) Hlast]. split; [|done]. exists a, b. split; [done|].
  intros q Hc. by apply (queue_ok_len _ _ _ Hl), Ho.
Qed.

(** Memory accesses keep the invariant. *)
Lemma nstep_mem s m g :
  ninv s -> zlen m = zlen (Mem (fst s)) -> bytes_ok m -> nstep s (fst s <| Mem := m |> <| guest := g |>, snd s).
Proof.
  intros [T Hq Ht] Hl Hb. split; [|by constructor]. constructor; cbn; [destruct T; by constructor| |done].
  by apply (netQueuesOk_len _ _ _ Hl).
Qed.

Lemma nstep_yields s t' : ninv s -> yields (fst s) t' -> nstep s (t', snd s).
Proof.
  intros B (m & g & -> & Hl & Hb). apply nstep_mem; [done|done|]. apply Hb, (tw_mem _ (ni_t s B)).
Qed.

Lemma nstep_stored s a b t' :
  ninv s -> in_ram (Mem (fst s)) a (zlen b) -> bytes_ok b -> stored a b (fst s) t' -> nstep s (t', snd s).
Proof.
  intros B Ha Hb (t1 & Hy & ->). pose proof (nstep_yields s t1 B Hy) as S1.
  eapply nstep_trans; [exact S1|].
  pose proof (nstep_mem (t1, snd s) (zwrite (Mem t1) a b) (guest t1) (proj1 S1)) as Hm. cbn [fst snd] in Hm.
  destruct (yields_mem _ _ Hy) as (Hl & Hbk). destruct Ha as [Ha0 Hav].
  assert (Hr : in_ram (Mem t1) a (zlen b)) by (split; [done|by rewrite (ValidRange_len _ _ _ _ Hl)]).
  destruct (ValidRange_spec _ _ _ (proj1 Hr) (zlen_nonneg b) (proj2 Hr)) as [He _].
  replace (t1 <| Mem := zwrite (Mem t1) a b |>) with (t1 <| Mem := zwrite (Mem t1) a b |> <| guest := guest t1 |>)
    by (by destruct t1).
  apply Hm; [rewrite zlen_write by done; destruct (_ =? 0); lia|].
  apply bytes_ok_write; [apply Hbk, (tw_mem _ (ni_t s B))|done].
Qed.

Lemma nstep_irq s t' : ninv s -> irq_only (fst s) t' -> nstep s (t', snd s).
Proof.
  intros [T Hq Ht] (w & l & i & ->). split; [|by constructor]. constructor; try done. destruct T. by constructor.
Qed.

Lemma nstep_advance s sel : ninv s -> sel = 0 \/ sel = 1 -> nstep s (fst s, advance sel (snd s)).
Proof.
  intros [T [Hq (i & j & Hl & Hi & Hj)] Ht] Hs. split; [|by constructor]. constructor; try done. split; [done|].
  pose proof (u16_range (lastOf (snd s) sel + 1)) as Hr.
  unfold advance; cbn. rewrite Hl. destruct Hs as [-> | ->]; cbn; by eexists _, _.
Qed.

Lemma nstep_tap s t : ninv s -> Forall packet_ok (tap_in t) -> nstep s (fst s, snd s <| tap := t |>).
Proof. intros [T Hq Ht] Hp. split; by constructor. Qed.

(** ** Every step is safe *)

(** Reading guest memory. *)
Definition nreads (s s' : Net) : Prop := nstep s s' /\ snd s' = snd s.

Lemma nreads_trans s1 s2 s3 : nreads s1 s2 -> nreads s2 s3 -> nreads s1 s3.
Proof. intros [H12 E12] [H23 E23]. split; [by eapply nstep_trans|congruence]. Qed.

Lemma nreads_yields s t' : ninv s -> yields (fst s) t' -> nreads s (t', snd s).
Proof. intros B Hy. split; [by apply nstep_yields|done]. Qed.

Lemma nreads_queue s s' q : nreads s s' -> queue_ok (Mem (fst s)) q -> queue_ok (Mem (fst s')) q.
Proof. intros [[_ F] _]. apply queue_ok_len, (nf_len _ _ F). Qed.

Lemma wp_netDesc q i s :
  ninv s -> queue_ok (Mem (fst s)) q -> 0 <= i < QueueSize ->
  wp (onT (loadDesc q i)) s
    (fun desc s' => nreads s s' /\ is_u64 (d_Addr desc) /\ is_u32 (d_Len desc) /\ is_u16 (d_Next desc))
    (fun _ _ => False).
Proof.
  intros B Hq Hi. apply wp_onT. wcall wp_loadDesc; [done|done| |done].
  intros desc t' [Hy ->]. split; [by apply nreads_yields|]. apply decodeDesc_range, bytes_ok_slice.
  apply (yields_mem _ _ Hy), (tw_mem _ (ni_t s B)).
Qed.

Definition buffers_ok (mem : list Z) (bufs : list (Z * Z)) : Prop :=
  Forall (fun b => in_ram mem (fst b) (snd b) /\ 0 <= snd b) bufs.

Lemma buffers_ok_len mem mem' bufs : zlen mem' = zlen mem -> buffers_ok mem bufs -> buffers_ok mem' bufs.
Proof.
  intros Hl. apply Forall_impl. intros b [[? Hv] ?]. split; [|done]. split; [done|]. by rewrite (ValidRange_len _ _ _ _ Hl).
Qed.

Lemma wp_rxBuffers q n descID bufs cap s :
  ninv s -> queue_ok (Mem (fst s)) q -> 0 <= descID -> buffers_ok (Mem (fst s)) bufs ->
  wp (rxBuffers q n descID bufs cap) s
    (fun r s' => nreads s s' /\ buffers_ok (Mem (fst s')) (fst r))
    (fun e s' => e = ErrNetDesc /\ nreads s s').
Proof.
  revert descID bufs cap s. induction n as [|n IH]; intros descID bufs cap s B Hq Hd Hb; cbn [rxBuffers].
  { wstep. split; [done|]. by split; [apply nstep_refl|]. }
  pose proof (ringSize_pos _ _ Hq) as Hqs.
  destruct (_ <=? _) eqn:E; [wstep; split; [done|by split; [apply nstep_refl|]]|]. zbool.
  wstep. wcall wp_netDesc; [done|done|unfold QueueSize in *; lia| |done].
  intros desc s1 (R1 & Ha & Hl & Hn). do 2 wstep. cbv beta.
  destruct (_ || _) eqn:E2; [by wstep|]. zbool. cbv zeta.
  assert (Hb1 : buffers_ok (Mem (fst s1)) (bufs ++ [(d_Addr desc, d_Len desc)])).
  { apply Forall_app. split; [apply (buffers_ok_len (Mem (fst s))); [apply R1|done]|].
    constructor; [|constructor]. unfold is_u64, is_u32 in *. cbn. split; [split; [lia|done]|lia]. }
  destruct (_ =? 0); [by wstep|].
  wcall IH; [apply R1|by apply (nreads_queue s)|unfold is_u16 in *; lia|done| |].
  - intros r s2 [R2 Hr]. split; [by eapply nreads_trans|done].
  - intros e s2 [-> R2]. split; [done|by eapply nreads_trans].
Qed.

Lemma wp_copyBuffers bufs packet s :
  ninv s -> buffers_ok (Mem (fst s)) bufs -> bytes_ok packet ->
  wp (copyBuffers bufs packet) s (fun _ s' => nreads s s') (fun _ _ => False).
Proof.
  revert packet s. induction bufs as [|[a n] bufs IH]; intros packet s B Hb Hp; cbn [copyBuffers].
  { wstep. by split; [apply nstep_refl|]. }
  inversion Hb as [|? ? [Ha Hn] Hb']; subst. cbn [fst snd] in *. pose proof (zlen_nonneg packet).
  set (k := Z.to_nat (Z.min n (zlen packet))).
  assert (Hk : zlen (take k packet) = Z.min n (zlen packet)).
  { unfold zlen in *. rewrite length_take. unfold k. lia. }
  assert (Hr : in_ram (Mem (fst s)) a (zlen (take k packet))) by (rewrite Hk; apply (in_ram_prefix _ _ n); [done|lia]).
  wstep. apply wp_onT. wcall wp_memStore; [apply Hr| |done]. intros [] t1 Hs.
  assert (R1 : nreads s (t1, snd s)) by (split; [|done]; eapply nstep_stored; [done|exact Hr|by apply Forall_take|exact Hs]).
  destruct (_ =? 0); [by wstep|].
  wcall IH; [apply R1|apply (buffers_ok_len (Mem (fst s))); [apply R1|done]|by apply Forall_drop| |done].
  intros [] s2 R2. by eapply nreads_trans.
Qed.

Lemma wp_netStore q s a b o :
  ninv s -> queue_ok (Mem (fst s)) q -> a = sq_Used q + o -> 0 <= o -> o + zlen b <= sizeofSplitUsed -> bytes_ok b ->
  wp (onT (memStore a b)) s (fun _ s' => nreads s s') (fun _ _ => False).
Proof.
  intros B Hq -> Ho He Hb. pose proof (zlen_nonneg b).
  assert (Hr : in_ram (Mem (fst s)) (sq_Used q + o) (zlen b)).
  { destruct (qo_used _ _ Hq) as [Hu Hv]. split; [lia|]. eapply in_ram_range; [split; [exact Hu|exact Hv]|lia..]. }
  apply wp_onT. wcall wp_memStore; [apply Hr| |done]. intros [] t1 Hs. split; [|done]. by eapply nstep_stored.
Qed.

Lemma wp_netUsedRing q s i e :
  ninv s -> queue_ok (Mem (fst s)) q -> 0 <= i < QueueSize ->
  wp (onT (storeUsedRing q i e)) s (fun _ s' => nreads s s') (fun _ _ => False).
Proof.
  unfold QueueSize. intros B Hq Hi. unfold storeUsedRing. eapply (wp_netStore q _ _ _ (4 + 8 * i)); try done; try lia.
  - change (zlen _) with 8. unfold sizeofSplitUsed. lia.
  - apply Forall_app. split; apply le_bytes_ok.
Qed.

Lemma wp_netAddUsed q s n :
  ninv s -> queue_ok (Mem (fst s)) q -> wp (onT (addUsedIdx q n)) s (fun _ s' => nreads s s') (fun _ _ => False).
Proof.
  intros B Hq. apply wp_onT. wcall wp_addUsedIdx; [done| |done]. intros [] t2 (t1 & Hy & Hs).
  pose proof (nreads_yields s t1 B Hy) as R1. eapply nreads_trans; [exact R1|]. split; [|done].
  eapply (nstep_stored (t1, snd s)); [apply R1| |apply le_bytes_ok|exact Hs]; cbn [fst].
  pose proof (nreads_queue _ _ _ R1 Hq) as Hq1. cbn [fst] in Hq1.
  destruct (qo_used _ _ Hq1) as [Hu Hv]. split; [lia|]. change (zlen _) with 2.
  eapply in_ram_range; [split; [exact Hu|exact Hv]|unfold sizeofSplitUsed; lia..].
Qed.

Lemma wp_netInterrupt s : ninv s -> wp (onT Interrupt) s (fun _ s' => nstep s s') (fun _ s' => nstep s s').
Proof. intros B. apply wp_onT. eapply wp_mono; [apply wp_Interrupt| |]; intros ? t' Hi; by apply nstep_irq. Qed.

Lemma wp_Rx s : ninv s -> wp Rx s (fun _ s' => nstep s s') (fun _ s' => nstep s s').
Proof.
  intros B. unfold Rx. do 2 wstep. destruct (n_done (snd s)); [wstep; by apply nstep_refl|].
  destruct (queueOf (snd s) netRxQueue) as [q|] eqn:Hqo; [|wstep; by apply nstep_refl].
  pose proof (queueOf_ok _ _ _ _ (ni_q s B) Hqo) as Hq. pose proof (ringSize_pos _ _ Hq) as Hqs.
  unfold QueueSize in Hqs. cbv zeta. wstep. apply wp_onT. wcall wp_loadAvailIdx; [done| |done].
  intros idx t1 [Hy1 _]. pose proof (nreads_yields s t1 B Hy1) as R1. pose proof (nreads_queue _ _ _ R1 Hq) as Hq1.
  destruct (_ =? 0); [wstep; apply R1|]. destruct (_ <? _); [wstep; apply R1|].
  wstep. apply wp_onT. cbn [fst snd] in *. wcall wp_loadAvailRing; [done| | |done].
  { unfold QueueSize. pose proof (Z.mod_pos_bound (lastOf (snd s) netRxQueue) (ringSize q)). lia. }
  intros head t2 [Hy2 ->]. pose proof (nreads_yields (t1, snd s) t2 (proj1 (proj1 R1)) Hy2) as R2'.
  pose proof (nreads_trans _ _ _ R1 R2') as R2. pose proof (nreads_queue _ _ _ R2 Hq) as Hq2. clear R2'.
  set (head := le_uint16 _ _).
  assert (Hh : is_u16 head) by (apply le_uint16_range, (tw_mem _ (ni_t _ (proj1 (proj1 R2))))).
  wstep. wcall wp_rxBuffers; [apply R2|done|unfold is_u16 in *; cbn; lia|constructor| |].
  2: { intros e s3 [_ R3]. eapply nstep_trans; [apply R2|apply R3]. }
  intros [bufs cap] s3 [R3' Hb]. cbn [fst] in Hb. pose proof (nreads_trans _ _ _ R2 R3') as R3.
  do 2 wstep. cbv beta. destruct (tapRead 65536 (tap (snd s3))) as [p tap'] eqn:Htap.
  assert (Hp : packet_ok p /\ Forall packet_ok (tap_in tap')).
  { pose proof (ni_tap _ (proj1 (proj1 R3))) as Hin. unfold tapRead in Htap.
    destruct (tap_in (tap (snd s3))) as [|x rest] eqn:Ein; injection Htap as <- <-; [by rewrite Ein|].
    inversion Hin; subst. split; [|done]. destruct x; [|done]. by apply Forall_take. }
  destruct Hp as [Hp Hin]. unfold updN. do 2 wstep. cbn [fst snd].
  set (s4 := (fst s3, snd s3 <| tap := tap' |>)).
  assert (S4 : nstep s s4) by (eapply nstep_trans; [apply R3|by apply nstep_tap; [apply R3|]]).
  destruct p as [payload|]; [|wstep; done]. destruct (_ =? 0); [wstep; done|]. cbv zeta.
  assert (Hpk : bytes_ok (netHeader ++ payload)) by (apply Forall_app; split; [by apply bytes_okb_ok|done]).
  assert (Hq4 : queue_ok (Mem (fst s4)) q) by (apply (queue_ok_len _ _ _ (nf_len _ _ (proj2 S4)) Hq)).
  wstep. apply wp_onT. wcall wp_loadUsedIdx; [done| |done]. intros u t5 [Hy5 _].
  pose proof (nreads_yields s4 t5 (proj1 S4) Hy5) as R5. pose proof (nreads_queue _ _ _ R5 Hq4) as Hq5.
  assert (Hu : 0 <= u mod ringSize q < 32) by (pose proof (Z.mod_pos_bound u (ringSize q)); lia).
  wstep. wcall (wp_netUsedRing q (t5, snd s4)); [apply R5|done|done| |done]. intros [] s6 R6'.
  pose proof (nreads_trans _ _ _ R5 R6') as R6. pose proof (nreads_queue _ _ _ R6 Hq4) as Hq6.
  wstep. apply wp_mono with (Q := fun _ s7 => nreads s4 s7) (E := fun _ _ => False); [|..|done].
  - destruct (_ <=? _); [|by wstep]. wstep.
    wcall (wp_netStore q s6 _ _ (8 + 8 * (u mod ringSize q))); [apply R6|done|lia|lia| |apply le_bytes_ok| |done].
    { rewrite zlen_le_bytes. unfold sizeofSplitUsed. lia. }
    intros [] s7 R7'. pose proof (nreads_trans _ _ _ R6 R7') as R7.
    wcall wp_copyBuffers; [apply R7| |done| |done].
    { apply (buffers_ok_len (Mem (fst s3))); [apply (nf_len _ _ (proj2 (proj1 R7)))|done]. }
    intros [] s8 R8. by eapply nreads_trans.
  - intros [] s7 R7. pose proof (nreads_queue _ _ _ R7 Hq4) as Hq7. wstep. wstep.
    pose proof (nstep_advance s7 netRxQueue (proj1 (proj1 R7)) (or_introl eq_refl)) as S8.
    wstep. wcall wp_netAddUsed; [apply S8|done| |done]. intros [] s9 R9.
    assert (S9 : nstep s s9).
    { eapply nstep_trans; [exact S4|]. eapply nstep_trans; [apply R7|]. eapply nstep_trans; [exact S8|apply R9]. }
    eapply wp_mono; [apply wp_netInterrupt, S9| |]; intros ? s10 S10; by eapply nstep_trans.
Qed.

(** *** Transmit *)

(** The loop ends before its fuel does. *)
Lemma wp_txGather fuel q descID seen buf s :
  ninv s -> queue_ok (Mem (fst s)) q -> 0 <= descID -> zlen seen = QueueSize -> bytes_ok buf ->
  (unseen seen < fuel)%nat ->
  wp (txGather fuel q descID seen buf) s (fun b s' => nreads s s' /\ bytes_ok b)
    (fun e s' => e = ErrNetDesc /\ nreads s s').
Proof.
  revert descID seen buf s. induction fuel as [|fuel IH]; intros descID seen buf s B Hq Hd Hs Hb Hf; [lia|].
  cbn [txGather]. pose proof (ringSize_pos _ _ Hq) as Hqs.
  destruct (_ || _) eqn:E; [wstep; split; [done|by split; [apply nstep_refl|]]|]. zbool.
  assert (Hsf : zlookup seen descID = Some false).
  { destruct (zlookup_Some seen descID) as [[] Hl]; [lia|by rewrite Hl in *|done]. }
  pose proof (unseen_insert _ _ Hsf).
  wstep. wcall wp_netDesc; [done|done|lia| |done]. intros desc s1 (R1 & Ha & Hl & Hn). do 2 wstep. cbv beta.
  destruct (_ || _) eqn:E2; [by wstep|]. zbool. wstep. apply wp_onT.
  wcall wp_memLoad; [done| |done]. intros b t2 [Hy ->].
  pose proof (nreads_yields s1 t2 (proj1 (proj1 R1)) Hy) as R2'. pose proof (nreads_trans _ _ _ R1 R2') as R2.
  assert (Hb2 : bytes_ok (buf ++ zslice (Mem t2) (d_Addr desc) (d_Len desc))).
  { apply Forall_app. split; [done|]. apply bytes_ok_slice, (tw_mem _ (ni_t _ (proj1 (proj1 R2)))). }
  cbv zeta. destruct (_ =? 0); [by wstep|].
  wcall IH; [apply R2|by apply (nreads_queue s)|unfold is_u16 in *; lia|by rewrite zlen_insert|done|lia| |].
  - intros r s3 [R3 Hr]. split; [by eapply nreads_trans|done].
  - intros e s3 [-> R3]. split; [done|by eapply nreads_trans].
Qed.

Lemma wp_txOne q s : ninv s -> queue_ok (Mem (fst s)) q ->
  wp (txOne q) s (fun _ s' => nstep s s') (fun _ s' => nstep s s').
Proof.
  intros B Hq. unfold txOne. do 2 wstep. destruct (n_done (snd s)); [wstep; by apply nstep_refl|].
  pose proof (ringSize_pos _ _ Hq) as Hqs. unfold QueueSize in Hqs.
  wstep. apply wp_onT. wcall wp_loadAvailRing; [done| | |done].
  { unfold QueueSize. pose proof (Z.mod_pos_bound (lastOf (snd s) netTxQueue) (ringSize q)). lia. }
  intros head t1 [Hy1 ->]. pose proof (nreads_yields s t1 B Hy1) as R1. pose proof (nreads_queue _ _ _ R1 Hq) as Hq1.
  set (head := le_uint16 _ _).
  assert (Hh : is_u16 head) by (apply le_uint16_range, (tw_mem _ (ni_t _ (proj1 (proj1 R1))))).
  wstep. wcall wp_txGather; [apply R1|done|unfold is_u16 in *; lia|done|exact (Forall_nil_2 _)|by vm_compute; lia| |].
  2: { intros e s2 [_ R2]. eapply nstep_trans; [apply R1|apply R2]. }
  intros buf s2 [R2' Hb]. pose proof (nreads_trans _ _ _ R1 R2') as R2.
  destruct (_ <? _); [wstep; apply R2|]. cbv zeta. do 2 wstep. cbv beta.
  destruct (tapWrite _ (tap (snd s2))) as [r tap'] eqn:Htap.
  assert (Hin : Forall packet_ok (tap_in tap') /\ returns r).
  { pose proof (ni_tap _ (proj1 (proj1 R2))) as Hin. unfold tapWrite in Htap.
    destruct (tap_writes (tap (snd s2))) as [|[n|] rest]; [| destruct (n <? 0)|]; injection Htap as <- <-; done. }
  destruct Hin as [Hin Hret]. unfold updN at 1. do 2 wstep. set (s3 := (fst s2, snd s2 <| tap := tap' |>)).
  assert (S3 : nstep s s3) by (eapply nstep_trans; [apply R2|by apply nstep_tap; [apply R2|]]).
  destruct r as [n|e| |]; [|by wstep|done|done]. destruct (negb _); [by wstep|].
  assert (Hq3 : queue_ok (Mem (fst s3)) q) by (apply (queue_ok_len _ _ _ (nf_len _ _ (proj2 S3)) Hq)).
  wstep. apply wp_onT. wcall wp_loadUsedIdx; [done| |done]. intros u t4 [Hy4 _].
  pose proof (nreads_yields s3 t4 (proj1 S3) Hy4) as R4. pose proof (nreads_queue _ _ _ R4 Hq3) as Hq4.
  wstep. wcall (wp_netUsedRing q (t4, snd s3)); [apply R4|done| | |done].
  { unfold QueueSize. pose proof (Z.mod_pos_bound u (ringSize q)). lia. }
  intros [] s5 R5'. pose proof (nreads_trans _ _ _ R4 R5') as R5.
  wstep. wcall wp_netAddUsed; [apply R5|by apply (nreads_queue s3)| |done]. intros [] s6 R6'.
  pose proof (nreads_trans _ _ _ R5 R6') as R6. unfold updN. wstep.
  eapply nstep_trans; [exact S3|]. eapply nstep_trans; [apply R6|].
  apply nstep_advance; [apply R6|by right].
Qed.

Lemma wp_txLoop q n s : ninv s -> queue_ok (Mem (fst s)) q ->
  wp (txLoop q n) s (fun _ s' => nstep s s') (fun _ s' => nstep s s').
Proof.
  revert s. induction n as [|n IH]; intros s B Hq; cbn [txLoop]; [wstep; by apply nstep_refl|].
  wstep. wcall wp_txOne; [done|done| |done]. intros [] s1 S1.
  eapply wp_mono; [apply IH; [apply S1|apply (queue_ok_len _ _ _ (nf_len _ _ (proj2 S1)) Hq)]| |];
    intros ? s2 S2; by eapply nstep_trans.
Qed.

Lemma wp_Tx s : ninv s -> wp Tx s (fun _ s' => nstep s s') (fun _ s' => nstep s s').
Proof.
  intros B. unfold Tx. do 2 wstep. destruct (n_done (snd s)); [wstep; by apply nstep_refl|].
  destruct (queueOf (snd s) netTxQueue) as [q|] eqn:Hqo; [|wstep; by apply nstep_refl].
  pose proof (queueOf_ok _ _ _ _ (ni_q s B) Hqo) as Hq. cbv zeta.
  wstep. apply wp_onT. wcall wp_loadAvailIdx; [done| |done]. intros i1 t1 [Hy1 _].
  pose proof (nreads_yields s t1 B Hy1) as R1. pose proof (nreads_queue _ _ _ R1 Hq) as Hq1.
  destruct (_ =? _); [wstep; apply R1|]. wstep. apply wp_onT. cbn [fst snd] in *.
  wcall wp_loadAvailIdx; [done| |done]. intros i2 t2 [Hy2 _].
  pose proof (nreads_yields (t1, snd s) t2 (proj1 (proj1 R1)) Hy2) as R2'.
  pose proof (nreads_trans _ _ _ R1 R2') as R2. pose proof (nreads_queue _ _ _ R2 Hq) as Hq2.
  destruct (_ <? _); [wstep; apply R2|]. wstep. cbn [fst snd] in *.
  wcall wp_txLoop; [apply R2|done| |].
  - intros [] s3 S3. eapply wp_mono; [apply wp_netInterrupt, S3| |]; intros ? s4 S4;
      (eapply nstep_trans; [apply R2|by eapply nstep_trans]).
  - intros e s3 S3. eapply nstep_trans; [apply R2|done].
Qed.
