(* ===== verification/VirtioNetSpec.v ===== *)
(** Properties of the virtio network device (src/internal/virtio/net.go): the
    frames a driver transmits reach the backend, the packets of the backend
    reach the driver's buffers, and no guest or backend breaks the device. *)

From S2P Require Import Prelude Bytes GuestMem VirtioModern VirtioQueue VirtioNet.

(** ** Memory that changes only in the used ring *)

Definition ring_only (q : SplitQueue) (mem mem' : list Z) : Prop :=
  zlen mem' = zlen mem /\
  forall x, 0 <= x -> ~ (sq_Used q <= x < sq_Used q + sizeofSplitUsed) -> zget mem' x = zget mem x.

Lemma ring_only_refl q mem : ring_only q mem mem.
Proof. done. Qed.

Lemma ring_only_trans q m1 m2 m3 : ring_only q m1 m2 -> ring_only q m2 m3 -> ring_only q m1 m3.
Proof. intros [L1 H1] [L2 H2]. split; [congruence|]. intros x Hx Ho. by rewrite H2, H1. Qed.

Lemma ring_only_used mem q id len : queue_ok mem q -> ring_only q mem (usedMem mem q id len).
Proof. intros Hq. split; [by apply zlen_usedMem|]. intros. by apply usedMem_out. Qed.

Lemma ring_only_slice q mem mem' a n :
  ring_only q mem mem' -> 0 <= a -> 0 <= n -> a + n <= zlen mem -> apart a n (sq_Used q) sizeofSplitUsed ->
  zslice mem' a n = zslice mem a n.
Proof.
  intros [Hl Ho] Ha Hn He Hap. unfold apart in Hap. apply zslice_agree; try lia. intros i Hi. apply Ho; lia.
Qed.

(** A driver keeps its three rings apart. *)
Record rings_apart (q : SplitQueue) : Prop := {
  ra_desc : apart (sq_Desc q) sizeofDescTable (sq_Used q) sizeofSplitUsed;
  ra_avail : apart (sq_Avail q) sizeofSplitAvail (sq_Used q) sizeofSplitUsed
}.

Lemma in_ram_bounds mem a n : in_ram mem a n -> 0 <= n -> 0 <= a /\ a + n <= zlen mem.
Proof. intros [Ha Hv] Hn. by destruct (ValidRange_spec mem a n Ha Hn Hv). Qed.

Section RingOnly.
Variables (q : SplitQueue) (mem mem' : list Z).
Hypotheses (R : ring_only q mem mem') (Hq : queue_ok mem q) (A : rings_apart q).

Lemma ring_only_desc i : 0 <= i < QueueSize -> descAt mem' q i = descAt mem q i.
Proof using R Hq A.
  intros Hi. pose proof (in_ram_bounds _ _ _ (qo_desc _ _ Hq) ltac:(done)). pose proof (ra_desc _ A) as Hap.
  unfold descAt. f_equal. unfold sizeofDescTable, QueueSize, apart in *.
  apply (ring_only_slice q); unfold apart; try done; lia.
Qed.

Lemma ring_only_avail i : 0 <= i < QueueSize -> availRingAt mem' q i = availRingAt mem q i.
Proof using R Hq A.
  intros Hi. pose proof (in_ram_bounds _ _ _ (qo_avail _ _ Hq) ltac:(done)). pose proof (ra_avail _ A) as Hap.
  unfold availRingAt, le_uint16. f_equal. unfold sizeofSplitAvail, QueueSize, apart in *.
  apply (ring_only_slice q); unfold apart; try done; lia.
Qed.

Lemma ring_only_queue : queue_ok mem' q.
Proof using R Hq. apply (queue_ok_len mem); [apply R|done]. Qed.

End RingOnly.

(** ** Transmission *)

(** The descriptors [ids] are a chain of device-readable buffers. *)
Fixpoint linked (mem : list Z) (q : SplitQueue) (ids : list Z) : Prop :=
  match ids with
  | [] => False
  | i :: rest =>
      match rest with
      | [] => d_Flags (descAt mem q i) = 0
      | j :: _ => d_Flags (descAt mem q i) = descFNext /\ d_Next (descAt mem q i) = j /\ linked mem q rest
      end
  end.

Definition descBytes (mem : list Z) (q : SplitQueue) (i : Z) : list Z :=
  zslice mem (d_Addr (descAt mem q i)) (d_Len (descAt mem q i)).

Definition chainBytes (mem : list Z) (q : SplitQueue) (ids : list Z) : list Z :=
  concat (map (descBytes mem q) ids).

Definition desc_ok (mem : list Z) (q : SplitQueue) (i : Z) : Prop :=
  0 <= i < ringSize q /\ 0 <= d_Addr (descAt mem q i) /\ 0 <= d_Len (descAt mem q i) /\
  ValidRange mem (d_Addr (descAt mem q i)) (d_Len (descAt mem q i)) = true /\
  apart (d_Addr (descAt mem q i)) (d_Len (descAt mem q i)) (sq_Used q) sizeofSplitUsed.

(** A packet as a driver posts it: header and frame, spread over the chain. *)
Record tx_packet (mem : list Z) (q : SplitQueue) (ids : list Z) : Prop := {
  tp_linked : linked mem q ids;
  tp_nodup : NoDup ids;
  tp_descs : Forall (desc_ok mem q) ids;
  tp_len : netHdrLen <= zlen (chainBytes mem q ids) <= netHdrLen + 65536
}.

Lemma linked_frame q mem mem' ids :
  (forall i, i ∈ ids -> descAt mem' q i = descAt mem q i) -> linked mem q ids -> linked mem' q ids.
Proof.
  induction ids as [|i [|j rest] IH]; intros Hd; [done|cbn [linked]; by rewrite Hd by set_solver|].
  intros (Hf & Hn & Hl). split; [by rewrite Hd by set_solver|]. split; [by rewrite Hd by set_solver|].
  apply IH; [set_solver|done].
Qed.

Section TxFrame.
Variables (q : SplitQueue) (mem mem' : list Z).
Hypotheses (R : ring_only q mem mem') (Hq : queue_ok mem q) (A : rings_apart q).

Lemma desc_same i : desc_ok mem q i -> descAt mem' q i = descAt mem q i.
Proof using R Hq A.
  intros (Hi & _). pose proof (ringSize_pos _ _ Hq). apply (ring_only_desc q mem); try done. lia.
Qed.

Lemma descBytes_same i : desc_ok mem q i -> descBytes mem' q i = descBytes mem q i.
Proof using R Hq A.
  intros Hi. pose proof Hi as (_ & Ha & Hn & Hv & Hap). unfold descBytes. rewrite (desc_same i Hi).
  destruct (ValidRange_spec _ _ _ Ha Hn Hv). apply (ring_only_slice q); done.
Qed.

Lemma chainBytes_same ids : Forall (desc_ok mem q) ids -> chainBytes mem' q ids = chainBytes mem q ids.
Proof using R Hq A.
  unfold chainBytes. induction 1 as [|i ids Hi _ IH]; [done|]. cbn [map concat]. by rewrite IH, descBytes_same.
Qed.

Lemma tx_packet_same ids : tx_packet mem q ids -> tx_packet mem' q ids.
Proof using R Hq A.
  intros [Hl Hn Hd Hz]. rewrite list.Forall_forall in Hd. constructor.
  - apply (linked_frame q mem); [|done]. intros i Hi. apply desc_same. apply Hd, Hi.
  - done.
  - apply list.Forall_forall. intros i Hi. unfold desc_ok. rewrite (desc_same i (Hd i Hi)).
    rewrite (ValidRange_len mem mem') by apply R. by apply Hd.
  - rewrite chainBytes_same; [done|]. by apply list.Forall_forall.
Qed.

End TxFrame.

Lemma zlen_chain_cons mem q i ids :
  zlen (chainBytes mem q (i :: ids)) = zlen (descBytes mem q i) + zlen (chainBytes mem q ids).
Proof. unfold chainBytes. cbn [map concat]. apply zlen_app. Qed.

Lemma zlen_descBytes mem q i : desc_ok mem q i -> zlen (descBytes mem q i) = d_Len (descAt mem q i).
Proof.
  intros (_ & Ha & Hn & Hv & _). destruct (ValidRange_spec _ _ _ Ha Hn Hv). by apply zlen_slice.
Qed.

Lemma head_linked mem q i ids : linked mem q (i :: ids) ->
  (d_Flags (descAt mem q i) = 0 /\ ids = []) \/
  (d_Flags (descAt mem q i) = descFNext /\ exists j rest, ids = j :: rest /\ d_Next (descAt mem q i) = j /\ linked mem q ids).
Proof. destruct ids as [|j rest]; cbn [linked]; [by left|]. intros (? & ? & ?). right. split; [done|]. by exists j, rest. Qed.

(** Gathering a chain reads its bytes in order. *)
Lemma txGather_quiet q fuel ids i seen buf t (d : netDev) :
  guest t = [] -> queue_ok (Mem t) q ->
  linked (Mem t) q (i :: ids) -> NoDup (i :: ids) -> Forall (desc_ok (Mem t) q) (i :: ids) ->
  zlen seen = QueueSize -> (forall j, j ∈ i :: ids -> zlookup seen j = Some false) ->
  zlen buf + zlen (chainBytes (Mem t) q (i :: ids)) <= netHdrLen + 65536 -> (length (i :: ids) <= fuel)%nat ->
  txGather fuel q i seen buf (t, d) = (Ok (buf ++ chainBytes (Mem t) q (i :: ids)), (t, d)).
Proof.
  intros Hg Hq. revert ids i seen buf. induction fuel as [|fuel IH]; intros ids i seen buf Hl Hn Hd Hs Hseen Hz Hf;
    [cbn in Hf; lia|].
  apply list.NoDup_cons in Hn as [Hni Hn]. apply list.Forall_cons in Hd as [Hi Hd]. pose proof Hi as (Hir & Ha & Hlen & Hv & _).
  pose proof (ringSize_pos _ _ Hq). rewrite zlen_chain_cons, (zlen_descBytes _ _ _ Hi) in Hz.
  pose proof (zlen_nonneg (chainBytes (Mem t) q ids)). cbn [txGather].
  destruct (ringSize q <=? i) eqn:E; zbool; [lia|]. rewrite (Hseen i) by set_solver. cbn [default from_option orb id].
  unfold gbind at 1. rewrite loadDesc_quiet by (done || lia). unfold gbind at 1, gget. cbn [fst].
  rewrite Hv. cbn [negb orb].
  destruct (_ <? d_Len _) eqn:E2; zbool; [lia|]. rewrite orb_false_r.
  destruct (head_linked _ _ _ _ Hl) as [[-> ->]|[-> (j & rest & -> & -> & Hl')]]; cbn [negb orb Z.eqb].
  - change (0 &^ descFNext) with 0. change (0 &&& descFNext) with 0. cbn [negb orb Z.eqb].
    unfold gbind. rewrite load_quiet by done. fold (descBytes (Mem t) q i). unfold ret.
    unfold chainBytes. cbn [map concat]. by rewrite app_nil_r.
  - change (descFNext &^ descFNext) with 0. change (descFNext &&& descFNext) with 1. cbn [negb orb Z.eqb].
    unfold gbind. rewrite load_quiet by done. fold (descBytes (Mem t) q i). rewrite (IH rest); [|done..| | | |].
    + unfold chainBytes. cbn [map concat]. by rewrite !app_assoc.
    + by rewrite zlen_insert.
    + intros k Hk. rewrite zlookup_insert by (unfold QueueSize in *; lia). destruct (k =? i) eqn:Ek; zbool; [set_solver|].
      apply Hseen. set_solver.
    + rewrite zlen_app, (zlen_descBytes _ _ _ Hi). lia.
    + cbn in Hf |- *. lia.
Qed.

(** The ring size divides the range of the free-running indices. *)
Lemma slot_u16 mem q x : queue_ok mem q -> u16 x mod ringSize q = x mod ringSize q.
Proof.
  intros Hq. pose proof (ringSize_pos _ _ Hq). destruct (qo_size _ _ Hq) as (k & Hk & Hs).
  assert (Hr : ringSize q = 2 ^ k).
  { unfold ringSize, QueueSize. assert (2 ^ k <= 2 ^ 5) by (apply Z.pow_le_mono_r; lia).
    pose proof (Z.pow_pos_nonneg 2 k). rewrite Hs. destruct (2 ^ k =? 0) eqn:?, (2 ^ k <=? 32) eqn:?; zbool; try lia; done. }
  unfold u16. rewrite Hr in *. apply Z.mod_mod_divide.
  exists (2 ^ (16 - k)). rewrite <- Z.pow_add_r by lia. f_equal. lia.
Qed.

Lemma slot_distinct mem q u k : queue_ok mem q -> 0 < k < ringSize q -> (u + k) mod ringSize q <> u mod ringSize q.
Proof.
  intros Hq Hk He. pose proof (Z.div_mod (u + k) (ringSize q)). pose proof (Z.div_mod u (ringSize q)).
  assert ((u + k) / ringSize q = u / ringSize q \/ (u + k) / ringSize q <> u / ringSize q) as [Hc|Hc] by lia; [nia|].
  assert (u / ringSize q <= (u + k) / ringSize q) by (apply Z.div_le_mono; lia). nia.
Qed.

Definition frameOf (mem : list Z) (q : SplitQueue) (ids : list Z) : list Z :=
  drop (Z.to_nat netHdrLen) (chainBytes mem q ids).

(** A backend that takes every frame. *)
Definition tap_accepts (d : netDev) : Prop := tap_writes (tap d) = [].

Definition sentFrame (payload : list Z) (d : netDev) : netDev :=
  advance netTxQueue (d <| tap := tap d <| tap_out := tap_out (tap d) ++ [payload] |> |>).

Lemma txOne_quiet q i ids t d :
  guest t = [] -> queue_ok (Mem t) q -> n_done d = false -> tap_accepts d ->
  tx_packet (Mem t) q (i :: ids) -> (length ids < 32)%nat ->
  availRingAt (Mem t) q (lastOf d netTxQueue mod ringSize q) = i ->
  txOne q (t, d) =
    (Ok tt, (t <| Mem := usedMem (Mem t) q i (zlen (chainBytes (Mem t) q (i :: ids))) |>,
             sentFrame (frameOf (Mem t) q (i :: ids)) d)).
Proof.
  intros Hg Hq Hdone Ht [Hl Hn Hd Hz] Hlen Hi. pose proof (ringSize_pos _ _ Hq).
  pose proof (Z.mod_pos_bound (lastOf d netTxQueue) (ringSize q)). unfold tap_accepts in Ht.
  unfold txOne. unfold gbind at 1, gget. cbn [snd]. rewrite Hdone.
  unfold gbind at 1. rewrite loadAvailRing_quiet, Hi by (done || unfold QueueSize in *; lia).
  unfold gbind at 1. rewrite (txGather_quiet q _ ids); [|try done..].
  2: { intros j Hj. rewrite list.Forall_forall in Hd. destruct (Hd j Hj) as (Hr & _). apply zlookup_unseen. lia. }
  2: { rewrite zlen_nil. lia. }
  2: { cbn [length]. unfold QueueSize. lia. }
  cbn [app]. destruct (_ <? netHdrLen) eqn:E; zbool; [lia|]. cbv zeta.
  unfold gbind at 1, gget. cbn [snd]. unfold tapWrite. rewrite Ht. unfold gbind at 1, updN, gupd. cbn [fst snd].
  rewrite Z.eqb_refl. cbn [negb]. unfold gbind at 1. rewrite loadUsedIdx_quiet by done.
  match goal with |- gbind ?a (fun _ => gbind ?b ?c) ?s = _ =>
    transitivity (gbind (gbind a (fun _ => b)) c s); [|unfold gbind at 1; rewrite putUsed_quiet by done] end.
  - unfold gbind. by destruct (onT _ _) as [[[]| | |] ?].
  - unfold gbind, frameOf, sentFrame. cbn [fst snd]. do 3 f_equal. destruct d as [[]]; cbn in *. by subst.
Qed.

(** The packets [pkts] wait in the ring from position [last] on. *)
Definition waiting (mem : list Z) (q : SplitQueue) (last : Z) (pkts : list (list Z)) : Prop :=
  forall k ids, pkts !! k = Some ids ->
    tx_packet mem q ids /\ (length ids <= 32)%nat /\
    hd_error ids = Some (availRingAt mem q ((last + Z.of_nat k) mod ringSize q)).

Lemma waiting_same q mem mem' last pkts :
  ring_only q mem mem' -> queue_ok mem q -> rings_apart q -> waiting mem q last pkts -> waiting mem' q last pkts.
Proof.
  intros R Hq A W k ids Hk. destruct (W k ids Hk) as (Hp & Hl & Hh). pose proof (ringSize_pos _ _ Hq).
  splits; [by apply (tx_packet_same q mem)|done|]. rewrite Hh. f_equal. symmetry.
  apply (ring_only_avail q mem); try done.
  pose proof (Z.mod_pos_bound (last + Z.of_nat k) (ringSize q)). unfold QueueSize in *. lia.
Qed.

(** What a batch of packets did: every frame handed to the backend in order and
    one used element per packet, nothing else in memory changed. *)
Record tx_done (q : SplitQueue) (pkts : list (list Z)) (mem mem' : list Z) (d d' : netDev) : Prop := {
  td_mem : ring_only q mem mem';
  td_frames : tap_out (tap d') = tap_out (tap d) ++ map (frameOf mem q) pkts;
  td_last : lastOf d' netTxQueue = u16 (lastOf d netTxQueue + zlen pkts);
  td_idx : usedIdxAt mem' q = u16 (usedIdxAt mem q + zlen pkts);
  td_elems : forall k ids, pkts !! k = Some ids ->
    exists i, hd_error ids = Some i /\
      usedElemAt mem' q ((usedIdxAt mem q + Z.of_nat k) mod ringSize q) = (u32 i, zlen (chainBytes mem q ids));
  td_other : forall j, 0 <= j < QueueSize ->
    (forall k, 0 <= k < zlen pkts -> j <> (usedIdxAt mem q + k) mod ringSize q) ->
    usedElemAt mem' q j = usedElemAt mem q j
}.

Lemma sentFrame_facts payload d :
  zlen (n_LastAvailIdx d) = 2 ->
  tap_out (tap (sentFrame payload d)) = tap_out (tap d) ++ [payload] /\
  lastOf (sentFrame payload d) netTxQueue = u16 (lastOf d netTxQueue + 1) /\
  zlen (n_LastAvailIdx (sentFrame payload d)) = 2 /\
  (n_done d = false -> n_done (sentFrame payload d) = false) /\
  (tap_accepts d -> tap_accepts (sentFrame payload d)).
Proof.
  intros Hl. splits; try done.
  - unfold lastOf at 1, sentFrame, advance. cbn [n_LastAvailIdx set_field].
    rewrite zget_insert, Z.eqb_refl; [done|]. cbn. unfold netTxQueue. lia.
  - unfold sentFrame, advance. cbn [n_LastAvailIdx set_field]. by rewrite zlen_insert.
Qed.

Lemma tx_done_cons q i ids pkts mem d mem2 d2 :
  let p := i :: ids in
  let mem1 := usedMem mem q i (zlen (chainBytes mem q p)) in
  let d1 := sentFrame (frameOf mem q p) d in
  queue_ok mem q -> rings_apart q -> zlen (n_LastAvailIdx d) = 2 ->
  1 + zlen pkts <= ringSize q -> tx_packet mem q p -> waiting mem q (lastOf d netTxQueue + 1) pkts ->
  tx_done q pkts mem1 mem2 d1 d2 -> tx_done q (p :: pkts) mem mem2 d d2.
Proof.
  intros p mem1 d1 Hq A Hl Hfit Hp W [Tm Tf Tl Ti Te To].
  assert (R1 : ring_only q mem mem1) by (by apply ring_only_used).
  destruct (sentFrame_facts (frameOf mem q p) d Hl) as (Ho1 & Hl1 & _). fold d1 in Ho1, Hl1.
  pose proof (zlen_nonneg pkts). assert (Hu1 : usedIdxAt mem1 q = u16 (usedIdxAt mem q + 1)) by (by apply usedMem_idx).
  assert (Hdiv : forall k, (usedIdxAt mem1 q + k) mod ringSize q = (usedIdxAt mem q + (1 + k)) mod ringSize q).
  { intros k. rewrite Hu1, Z.add_assoc. rewrite <- (slot_u16 mem) by done. unfold u16. rewrite Zplus_mod_idemp_l.
    fold (u16 (usedIdxAt mem q + 1 + k)). by apply (slot_u16 mem). }
  assert (Hsame : forall k ids', pkts !! k = Some ids' -> Forall (desc_ok mem q) ids').
  { intros k ids' Hk. apply (tp_descs mem q), (W k ids' Hk). }
  constructor.
  - by eapply ring_only_trans.
  - rewrite Tf, Ho1. cbn [map]. rewrite <- app_assoc. cbn [app]. do 2 f_equal. apply map_ext_in.
    intros ids' Hin. apply list_elem_of_In, list_elem_of_lookup in Hin as [k Hk].
    unfold frameOf. f_equal. by apply (chainBytes_same q mem mem1); [..|eapply Hsame].
  - rewrite Tl, Hl1, zlen_cons. unfold u16. rewrite Zplus_mod_idemp_l. f_equal. lia.
  - rewrite Ti, Hu1, zlen_cons. unfold u16. rewrite Zplus_mod_idemp_l. f_equal. lia.
  - intros [|k] ids' Hk; cbn in Hk.
    + injection Hk as <-. exists i. split; [done|]. rewrite Z.add_0_r, To; [|by apply used_slot_range|].
      * unfold mem1. rewrite usedMem_elem by done. f_equal. apply u32_small. pose proof (tp_len _ _ _ Hp). unfold netHdrLen in *. lia.
      * intros k Hk. rewrite Hdiv. apply not_eq_sym, (slot_distinct mem); [done|lia].
    + destruct (Te k ids' Hk) as (i' & Hi' & He). exists i'. split; [done|]. rewrite Hdiv in He.
      rewrite (chainBytes_same q mem mem1) in He; [|done..|by eapply Hsame]. rewrite <- He. do 2 f_equal. lia.
  - intros j Hj Hn. rewrite To; [|done|].
    + apply usedMem_other; [done..|]. specialize (Hn 0). rewrite zlen_cons, Z.add_0_r in Hn. apply Hn. lia.
    + intros k Hk. rewrite Hdiv. apply Hn. rewrite zlen_cons. lia.
Qed.

Lemma txLoop_quiet q pkts t d :
  guest t = [] -> queue_ok (Mem t) q -> bytes_ok (Mem t) -> rings_apart q -> n_done d = false -> tap_accepts d ->
  zlen (n_LastAvailIdx d) = 2 -> is_u16 (lastOf d netTxQueue) ->
  zlen pkts <= ringSize q -> waiting (Mem t) q (lastOf d netTxQueue) pkts ->
  exists mem' d', txLoop q (length pkts) (t, d) = (Ok tt, (t <| Mem := mem' |>, d')) /\
    tx_done q pkts (Mem t) mem' d d'.
Proof.
  intros Hg Hq Hb A. revert t d Hg Hq Hb. induction pkts as [|p pkts IH]; intros t d Hg Hq Hb Hd Ht Hl Hi Hfit W.
  { exists (Mem t), d. split; [by destruct t|]. constructor; rewrite ?app_nil_r, ?zlen_nil, ?Z.add_0_r; try done.
    - by rewrite u16_small.
    - rewrite u16_small; [done|]. by apply le_uint16_range. }
  rewrite zlen_cons in Hfit. destruct (W 0%nat p eq_refl) as (Hp & Hlen & Hh).
  destruct p as [|i ids]; [by apply (tp_linked _ _ _) in Hp|]. injection Hh as Hi'. rewrite Z.add_0_r in Hi'.
  assert (W' : waiting (Mem t) q (lastOf d netTxQueue + 1) pkts).
  { intros k ids' Hk. destruct (W (S k) ids' Hk) as (? & ? & ->). splits; try done. do 3 f_equal. lia. }
  set (mem1 := usedMem (Mem t) q i (zlen (chainBytes (Mem t) q (i :: ids)))).
  set (d1 := sentFrame (frameOf (Mem t) q (i :: ids)) d).
  assert (R1 : ring_only q (Mem t) mem1) by (by apply ring_only_used).
  destruct (sentFrame_facts (frameOf (Mem t) q (i :: ids)) d Hl) as (_ & Hl1 & Hz1 & Hd1 & Ht1). fold d1 in Hl1, Hz1, Hd1, Ht1.
  destruct (IH (t <| Mem := mem1 |>) d1) as (mem2 & d2 & Hr & Hdone); auto.
  - by apply (ring_only_queue q (Mem t)).
  - by apply bytes_ok_usedMem.
  - rewrite Hl1. apply u16_range.
  - cbn [set_field Mem]. lia.
  - cbn [set_field Mem]. apply (waiting_same q (Mem t)); try done. intros k ids' Hk.
    destruct (W' k ids' Hk) as (? & ? & ->). splits; try done. do 2 f_equal. rewrite Hl1.
    rewrite <- (slot_u16 (Mem t) q (_ + _)), <- (slot_u16 (Mem t) q (u16 _ + _)) by done. unfold u16. by rewrite Zplus_mod_idemp_l.
  - exists mem2, d2. cbn [length txLoop]. unfold gbind at 1. rewrite (txOne_quiet q i ids); try done.
    fold mem1 d1. rewrite Hr. split; [by destruct t|]. apply (tx_done_cons q i ids pkts (Mem t) d mem2 d2); try done.
Qed.

(** ** A waiting batch *)

(** A driver posted the packets [pkts] and waits; the backend takes frames. *)
Record tx_ready (s : Net) (q : SplitQueue) (pkts : list (list Z)) : Prop := {
  tr_inv : ninv s;
  tr_quiet : guest (fst s) = [];
  tr_queue : queueOf (snd s) netTxQueue = Some q;
  tr_apart : rings_apart q;
  tr_open : n_done (snd s) = false;
  tr_tap : tap_accepts (snd s);
  tr_some : 0 < zlen pkts <= ringSize q;
  tr_idx : availIdxAt (Mem (fst s)) q = u16 (lastOf (snd s) netTxQueue + zlen pkts);
  tr_pkts : waiting (Mem (fst s)) q (lastOf (snd s) netTxQueue) pkts
}.

(** C24: a batch of packets a driver posted and waits for: every frame reaches the
    backend, in the order of the available ring and without its header; each
    packet gets one used element with its head and length; the used index and
    the device's position advance by the number of packets; memory outside the
    used ring is unchanged and the interrupt cause is pending. *)
Theorem net_tx_transmits (s : Net) q pkts :
  tx_ready s q pkts ->
  exists r t' mem' d', Tx s = (r, (t', d')) /\ returns r /\
    tx_done q pkts (Mem (fst s)) mem' (snd s) d' /\ irq_only (fst s <| Mem := mem' |>) t' /\
    isr t' = isr (fst s) ||| 1.
Proof.
  destruct s as [t d]. intros [B Hg Hqo A Hd Ht Hn Hidx W]. cbn [fst snd] in *.
  pose proof (ni_q _ B) as Hqs. cbn [fst snd] in Hqs. pose proof (queueOf_ok _ _ _ _ Hqs Hqo) as Hq.
  destruct Hqs as [_ (x & y & Hl & Hx & Hy)]. pose proof (tw_mem _ (ni_t _ B)) as Hb. cbn [fst] in Hb.
  assert (Hlast : is_u16 (lastOf d netTxQueue)) by (unfold lastOf; by rewrite Hl).
  pose proof (ringSize_pos _ _ Hq).
  destruct (count_waiting _ _ _ Hidx Hlast) as [Hc Hne]; [lia|].
  destruct (txLoop_quiet q pkts t d) as (mem' & d' & Hr & Hdone); try done; [by rewrite Hl|lia|].
  destruct (Interrupt_sets (t <| Mem := mem' |>)) as (r & t' & Hi & Hret & Ho & His).
  exists r, t', mem', d'. splits; try done.
  unfold Tx. unfold gbind at 1, gget. cbn [snd]. rewrite Hd, Hqo.
  unfold gbind at 1. rewrite loadAvailIdx_quiet, Hne by done.
  unfold gbind at 1. rewrite loadAvailIdx_quiet, Hc by done.
  destruct (_ <? _) eqn:E; zbool; [lia|]. unfold gbind. replace (Z.to_nat (zlen pkts)) with (length pkts) by (unfold zlen; lia).
  rewrite Hr. unfold onT; cbn [fst snd]. rewrite Hi. by destruct r.
Qed.

(** ** Reception *)

(** A chain of device-writable buffers. *)
Inductive rx_chain (mem : list Z) (q : SplitQueue) : Z -> list (Z * Z) -> Prop :=
| rx_last i :
    desc_ok mem q i -> d_Flags (descAt mem q i) = descFWrite ->
    rx_chain mem q i [(d_Addr (descAt mem q i), d_Len (descAt mem q i))]
| rx_next i bufs :
    desc_ok mem q i -> d_Flags (descAt mem q i) = descFWrite ||| descFNext ->
    rx_chain mem q (d_Next (descAt mem q i)) bufs ->
    rx_chain mem q i ((d_Addr (descAt mem q i), d_Len (descAt mem q i)) :: bufs).

Definition capacityOf (bufs : list (Z * Z)) : Z := fold_right (fun b n => snd b + n) 0 bufs.

Lemma rxBuffers_quiet q n i bufs acc cap t (d : netDev) :
  guest t = [] -> queue_ok (Mem t) q -> rx_chain (Mem t) q i bufs -> (length bufs <= n)%nat ->
  rxBuffers q n i acc cap (t, d) = (Ok (acc ++ bufs, cap + capacityOf bufs), (t, d)).
Proof.
  intros Hg Hq Hc. revert n acc cap. pose proof (ringSize_pos _ _ Hq).
  induction Hc as [i Hi Hf|i bufs Hi Hf Hc IH]; intros [|n] acc cap Hn; cbn [length] in Hn; try lia;
    pose proof Hi as (Hr & _ & _ & Hv & _); cbn [rxBuffers];
    (destruct (ringSize q <=? i) eqn:E; zbool; [lia|]);
    unfold gbind at 1; rewrite loadDesc_quiet by (done || lia); unfold gbind at 1, gget; cbn [fst];
    rewrite Hf, Hv.
  - change (descFWrite &&& descFWrite) with 2. change (descFWrite &^ (descFWrite ||| descFNext)) with 0.
    change (descFWrite &&& descFNext) with 0. cbn [Z.eqb negb orb capacityOf fold_right snd]. by rewrite Z.add_0_r.
  - change ((descFWrite ||| descFNext) &&& descFWrite) with 2.
    change ((descFWrite ||| descFNext) &^ (descFWrite ||| descFNext)) with 0.
    change ((descFWrite ||| descFNext) &&& descFNext) with 1. cbn [Z.eqb negb orb]. rewrite IH by lia.
    cbn [capacityOf fold_right snd]. rewrite <- app_assoc. by rewrite Z.add_assoc.
Qed.

(** The buffers filled with a packet. *)
Fixpoint fillBuffers (mem : list Z) (bufs : list (Z * Z)) (packet : list Z) : list Z :=
  match bufs with
  | [] => mem
  | (a, n) :: rest =>
      let copied := Z.to_nat (Z.min n (zlen packet)) in
      let mem := zwrite mem a (take copied packet) in
      if zlen (drop copied packet) =? 0 then mem else fillBuffers mem rest (drop copied packet)
  end.

Definition bufferBytes (mem : list Z) (bufs : list (Z * Z)) : list Z :=
  concat (map (fun b => zslice mem (fst b) (snd b)) bufs).

Definition bufs_disjoint (bufs : list (Z * Z)) : Prop :=
  ForallOrdPairs (fun b c => apart (fst b) (snd b) (fst c) (snd c)) bufs.

(** The store of one step. *)
Lemma fill_store mem a n packet :
  in_ram mem a n -> 0 <= n ->
  let c := Z.min n (zlen packet) in
  zlen (take (Z.to_nat c) packet) = c /\ zlen (drop (Z.to_nat c) packet) = zlen packet - c /\ ValidRange mem a c = true /\
  zlen (zwrite mem a (take (Z.to_nat c) packet)) = zlen mem /\
  forall x, 0 <= x -> ~ (a <= x < a + n) -> zget (zwrite mem a (take (Z.to_nat c) packet)) x = zget mem x.
Proof.
  intros Hr Hn c. pose proof (zlen_nonneg packet). pose proof (in_ram_bounds _ _ _ Hr Hn) as [Ha He].
  assert (Hc : zlen (take (Z.to_nat c) packet) = c) by (apply zlen_take; lia).
  splits; [done|apply zlen_drop; lia| | |].
  - apply (in_ram_prefix mem a n c Hr). lia.
  - rewrite zlen_write, Hc by lia. destruct (c =? 0) eqn:?; zbool; lia.
  - intros x Hx Ho. apply zget_write_out; rewrite ?Hc; lia.
Qed.

(** Every byte outside the buffers stays. *)
Lemma fillBuffers_out bufs mem packet :
  buffers_ok mem bufs ->
  zlen (fillBuffers mem bufs packet) = zlen mem /\
  forall x, 0 <= x -> Forall (fun b => ~ (fst b <= x < fst b + snd b)) bufs ->
    zget (fillBuffers mem bufs packet) x = zget mem x.
Proof.
  revert mem packet. induction bufs as [|[a n] rest IH]; intros mem packet Hb; [done|].
  apply list.Forall_cons in Hb as [[Hr Hn] Hb]. cbn [fst snd] in Hr, Hn. cbn [fillBuffers].
  destruct (fill_store mem a n packet Hr Hn) as (Hc & _ & _ & Hl & Ho).
  set (mem1 := zwrite mem a _) in *. destruct (_ =? 0).
  - split; [done|]. intros x Hx Hn'. apply list.Forall_cons in Hn' as [Hx' _]. by apply Ho.
  - destruct (IH mem1 (drop (Z.to_nat (Z.min n (zlen packet))) packet)) as [Hl2 Ho2]; [by apply (buffers_ok_len mem)|].
    split; [congruence|]. intros x Hx Hn'. apply list.Forall_cons in Hn' as [Hx' Hn']. by rewrite Ho2, Ho.
Qed.

Lemma copyBuffers_quiet bufs packet t (d : netDev) :
  guest t = [] -> buffers_ok (Mem t) bufs ->
  copyBuffers bufs packet (t, d) = (Ok tt, (t <| Mem := fillBuffers (Mem t) bufs packet |>, d)).
Proof.
  revert t packet. induction bufs as [|[a n] rest IH]; intros t packet Hg Hb; [by destruct t|].
  apply list.Forall_cons in Hb as [[Hr Hn] Hb]. cbn [fst snd] in Hr, Hn. cbn [copyBuffers fillBuffers].
  destruct (fill_store (Mem t) a n packet Hr Hn) as (Hc & _ & Hv & Hl & _).
  unfold gbind. rewrite store_quiet; [|done|by rewrite Hc].
  destruct (_ =? 0); [done|]. rewrite IH; [by destruct t|done|]. by apply (buffers_ok_len (Mem t)).
Qed.

(** The buffers hold the packet. *)
Lemma fillBuffers_packet bufs mem packet :
  buffers_ok mem bufs -> bufs_disjoint bufs -> zlen packet <= capacityOf bufs ->
  take (length packet) (bufferBytes (fillBuffers mem bufs packet) bufs) = packet.
Proof.
  revert mem packet. induction bufs as [|[a n] rest IH]; intros mem packet Hb Hd Hz.
  { cbn in Hz. destruct packet; [done|]. rewrite zlen_cons in Hz. pose proof (zlen_nonneg packet). lia. }
  apply list.Forall_cons in Hb as [[Hr Hn] Hb]. cbn [fst snd] in Hr, Hn. cbn [capacityOf fold_right snd] in Hz.
  fold (capacityOf rest) in Hz. inversion Hd as [|x l Hap Hd']; subst. cbn [fillBuffers].
  destruct (fill_store mem a n packet Hr Hn) as (Hc & Hdr & _ & Hl & _). pose proof (in_ram_bounds _ _ _ Hr Hn) as [Ha He].
  set (c := Z.min n (zlen packet)) in *. set (mem1 := zwrite mem a _) in *. rewrite Hdr.
  assert (Hw : zslice mem1 a c = take (Z.to_nat c) packet) by (rewrite <- Hc at 1; by apply zslice_write).
  unfold bufferBytes. cbn [map concat fst snd]. destruct (_ =? 0) eqn:E; zbool.
  - replace c with (zlen packet) in Hw by lia. unfold zlen in Hw at 2. rewrite Nat2Z.id, firstn_all in Hw.
    rewrite take_app_le.
    + rewrite <- Hw at 2. unfold zslice. rewrite take_take. unfold zlen in *. f_equal. lia.
    + pose proof (zlen_slice mem1 a n Ha Hn ltac:(lia)). unfold zlen in *. lia.
  - assert (Hcn : c = n) by lia. rewrite Hcn in *.
    assert (Hb1 : buffers_ok mem1 rest) by (by apply (buffers_ok_len mem)).
    destruct (fillBuffers_out rest mem1 (drop (Z.to_nat n) packet) Hb1) as [Hl2 Ho2].
    set (mem2 := fillBuffers mem1 rest _) in *.
    assert (Hs : zslice mem2 a n = take (Z.to_nat n) packet).
    { rewrite <- Hw. apply zslice_agree; try lia. intros i Hi. apply Ho2; [lia|].
      eapply Forall_impl; [|exact Hap]. intros b Hb'. unfold apart in Hb'. cbn in Hb'. lia. }
    rewrite Hs. rewrite <- (take_drop (Z.to_nat n) packet) at 3. rewrite take_app, length_take.
    rewrite Nat.min_l by (unfold zlen in *; lia). rewrite take_take, Nat.min_r by (unfold zlen in *; lia). f_equal.
    specialize (IH mem1 (drop (Z.to_nat n) packet) Hb1 Hd' ltac:(lia)). fold mem2 in IH. rewrite length_drop in IH. exact IH.
Qed.

Lemma zwrite_tail l o x y y' :
  0 <= o -> o + zlen x + zlen y <= zlen l -> zlen y' = zlen y ->
  zwrite (zwrite l o (x ++ y)) (o + zlen x) y' = zwrite l o (x ++ y').
Proof.
  intros Ho Hl Hy. pose proof (zlen_nonneg x). pose proof (zlen_nonneg y).
  assert (Hin : forall b o', 0 <= o' -> o' + zlen b <= zlen l -> zlen (zwrite l o' b) = zlen l).
  { intros b o' Hb He. rewrite zlen_write by done. destruct (_ =? 0); lia. }
  assert (Hz1 : zlen (zwrite l o (x ++ y)) = zlen l) by (apply Hin; rewrite ?zlen_app; lia).
  assert (Hz2 : zlen (zwrite l o (x ++ y')) = zlen l) by (apply Hin; rewrite ?zlen_app; lia).
  apply zlist_eq.
  { rewrite zlen_write, Hz1, Hz2 by lia. destruct (_ =? 0); lia. }
  intros i [Hi _]. rewrite !zget_write by lia. rewrite !zlen_app, !zget_app.
  destruct (o <=? i) eqn:?, (o + zlen x <=? i) eqn:?, (i <? o + zlen x + zlen y') eqn:?, (i <? o + (zlen x + zlen y)) eqn:?,
    (i <? o + (zlen x + zlen y')) eqn:?, (i - o <? zlen x) eqn:?; zbool; try lia; cbn [andb]; try done. f_equal. lia.
Qed.

(** Memories that agree on the used ring. *)
Lemma used_same q mem mem' :
  queue_ok mem q -> zlen mem' = zlen mem ->
  (forall x, sq_Used q <= x < sq_Used q + sizeofSplitUsed -> zget mem' x = zget mem x) ->
  usedIdxAt mem' q = usedIdxAt mem q /\ forall j, 0 <= j < QueueSize -> usedElemAt mem' q j = usedElemAt mem q j.
Proof.
  intros Hq Hl Hs. pose proof (used_bounds _ _ Hq). unfold sizeofSplitUsed, QueueSize in *.
  unfold usedIdxAt, usedElemAt, le_uint16, le_uint32.
  split; [f_equal; apply zslice_agree; try lia; intros; apply Hs; lia|].
  intros j Hj. f_equal; f_equal; apply zslice_agree; try lia; intros; apply Hs; lia.
Qed.

(** A driver posted a chain of receive buffers and the backend has a packet. *)
Record rx_ready (s : Net) (q : SplitQueue) (head : Z) (bufs : list (Z * Z)) (payload : list Z)
    (rest : list (option (list Z))) : Prop := {
  rr_inv : ninv s;
  rr_quiet : guest (fst s) = [];
  rr_queue : queueOf (snd s) netRxQueue = Some q;
  rr_open : n_done (snd s) = false;
  rr_count : 0 < u16 (availIdxAt (Mem (fst s)) q - lastOf (snd s) netRxQueue) <= ringSize q;
  rr_head : availRingAt (Mem (fst s)) q (lastOf (snd s) netRxQueue mod ringSize q) = head;
  rr_chain : rx_chain (Mem (fst s)) q head bufs;
  rr_len : zlen bufs <= ringSize q;
  rr_bufs : bufs_disjoint bufs;
  rr_packet : tap_in (tap (snd s)) = Some payload :: rest;
  rr_size : 0 < zlen payload <= 65536
}.

Lemma rx_chain_bufs mem q i bufs :
  rx_chain mem q i bufs ->
  buffers_ok mem bufs /\ Forall (fun b => apart (fst b) (snd b) (sq_Used q) sizeofSplitUsed) bufs.
Proof.
  assert (Ho : forall i, desc_ok mem q i ->
    let b := (d_Addr (descAt mem q i), d_Len (descAt mem q i)) in
    (in_ram mem (fst b) (snd b) /\ 0 <= snd b) /\ apart (fst b) (snd b) (sq_Used q) sizeofSplitUsed).
  { intros j (_ & Ha & Hl & Hv & Hap). by splits. }
  induction 1 as [i Hi _|i bufs Hi _ _ [IH1 IH2]]; destruct (Ho i Hi); split; constructor; done.
Qed.

(** The memory after a packet was put into the buffers. *)
Definition rxMem (mem : list Z) (q : SplitQueue) (head : Z) (bufs : list (Z * Z)) (packet : list Z) : list Z :=
  let fits := zlen packet <=? capacityOf bufs in
  let m2 := zwrite mem (sq_Used q + 4 + 8 * (usedIdxAt mem q mod ringSize q))
              (encodeUsedElem (mkUsedElem head (if fits then zlen packet else 0))) in
  let m3 := if fits then fillBuffers m2 bufs packet else m2 in
  zwrite m3 (sq_Used q + 2) (le_bytes 2 (u16 (usedIdxAt mem q + 1))).

Section RxMem.
Variables (mem : list Z) (q : SplitQueue) (head : Z) (bufs : list (Z * Z)) (packet : list Z).
Hypotheses (Hq : queue_ok mem q) (Hb : buffers_ok mem bufs)
  (Hap : Forall (fun b => apart (fst b) (snd b) (sq_Used q) sizeofSplitUsed) bufs).

#[local] Abbreviation fits := (zlen packet <=? capacityOf bufs).
#[local] Abbreviation len := (if fits then zlen packet else 0).
#[local] Abbreviation m2 := (zwrite mem (sq_Used q + 4 + 8 * (usedIdxAt mem q mod ringSize q)) (encodeUsedElem (mkUsedElem head len))).
#[local] Abbreviation m3 := (if fits then fillBuffers m2 bufs packet else m2).

Lemma rx_stored :
  zlen m2 = zlen mem /\ zlen m3 = zlen mem /\
  (forall x, sq_Used q <= x < sq_Used q + sizeofSplitUsed -> zget m3 x = zget m2 x) /\
  (forall x, 0 <= x -> ~ (sq_Used q <= x < sq_Used q + sizeofSplitUsed) ->
     fits = false \/ Forall (fun b => ~ (fst b <= x < fst b + snd b)) bufs -> zget m3 x = zget mem x) /\
  usedIdxAt m3 q = usedIdxAt mem q.
Proof using Hq Hb Hap.
  pose proof (used_slot_range _ _ Hq). pose proof (used_bounds _ _ Hq). unfold sizeofSplitUsed, QueueSize in *.
  assert (Hl2 : zlen m2 = zlen mem).
  { rewrite zlen_write by lia. change (zlen (encodeUsedElem _)) with 8. cbn [Z.eqb]. lia. }
  assert (Hf : zlen m3 = zlen m2 /\ forall x, 0 <= x ->
    fits = false \/ Forall (fun b => ~ (fst b <= x < fst b + snd b)) bufs -> zget m3 x = zget m2 x).
  { revert Hl2. destruct fits; [|done]. intros Hl2. edestruct (fillBuffers_out bufs) as [Hl Ho]; [by apply (buffers_ok_len mem)|].
    split; [done|]. intros x Hx [?|Hx']; [done|]. by apply Ho. }
  destruct Hf as [Hl3 Ho3].
  assert (Hin : forall x, sq_Used q <= x < sq_Used q + 264 -> zget m3 x = zget m2 x).
  { intros x Hx. apply Ho3; [lia|]. right. eapply Forall_impl; [|exact Hap]. intros b Hb'. unfold apart in Hb'. lia. }
  splits; try done; [congruence| |].
  - intros x Hx Ho Hc. rewrite Ho3 by done. apply zget_write_out; change (zlen (encodeUsedElem _)) with 8; lia.
  - assert (Hq2 : queue_ok m2 q) by (by apply (queue_ok_len mem)).
    rewrite (proj1 (used_same q m2 m3 Hq2 Hl3 Hin)).
    unfold usedIdxAt at 1, le_uint16. unfold usedIdxAt at 2, le_uint16. f_equal. apply zslice_agree; try lia.
    intros i Hi. apply zget_write_out; change (zlen (encodeUsedElem _)) with 8; lia.
Qed.

Lemma rxMem_used :
  usedIdxAt (rxMem mem q head bufs packet) q = u16 (usedIdxAt mem q + 1) /\
  usedElemAt (rxMem mem q head bufs packet) q (usedIdxAt mem q mod ringSize q) = (u32 head, u32 len).
Proof using Hq Hb Hap.
  destruct rx_stored as (Hl2 & Hl3 & Hs & _). pose proof (used_bounds _ _ Hq) as [Hu0 Hu1]. unfold sizeofSplitUsed in *.
  destruct (used_same q (usedMem mem q head len) (rxMem mem q head bufs packet)) as [Hi He].
  - apply (queue_ok_len mem); [by apply zlen_usedMem|done].
  - rewrite zlen_usedMem by done. unfold rxMem. cbv zeta. rewrite zlen_write, Hl3 by lia. change (zlen (le_bytes 2 _)) with 2.
    cbn [Z.eqb]. lia.
  - unfold sizeofSplitUsed. intros x Hx. unfold rxMem, usedMem. cbv zeta. rewrite !(zget_write _ (sq_Used q + 2)) by lia.
    destruct (_ && _); [done|]. by apply Hs.
  - rewrite Hi, He by (by apply used_slot_range). split; [by apply usedMem_idx|by apply usedMem_elem].
Qed.

Lemma rxMem_out x :
  0 <= x -> ~ (sq_Used q <= x < sq_Used q + sizeofSplitUsed) ->
  fits = false \/ Forall (fun b => ~ (fst b <= x < fst b + snd b)) bufs ->
  zget (rxMem mem q head bufs packet) x = zget mem x.
Proof using Hq Hb Hap.
  intros Hx Ho Hc. destruct rx_stored as (_ & _ & _ & Hm & _). pose proof (used_bounds _ _ Hq). unfold sizeofSplitUsed in *.
  unfold rxMem. cbv zeta. rewrite zget_write_out; [by apply Hm|lia..|]. change (zlen (le_bytes 2 _)) with 2. lia.
Qed.

Lemma rxMem_packet :
  bufs_disjoint bufs -> fits = true -> take (length packet) (bufferBytes (rxMem mem q head bufs packet) bufs) = packet.
Proof using Hq Hb Hap.
  intros Hd Hf. destruct rx_stored as (Hl2 & Hl3 & _). pose proof (used_bounds _ _ Hq). unfold sizeofSplitUsed in *.
  assert (Hb2 : buffers_ok m2 bufs) by (by apply (buffers_ok_len mem)). revert Hl2 Hl3 Hb2. unfold rxMem. cbv zeta. rewrite Hf.
  intros Hl2 Hl3 Hb2. zbool. etransitivity; [|apply (fillBuffers_packet bufs _ packet Hb2 Hd); lia]. f_equal.
  unfold bufferBytes. f_equal. apply map_ext_in. intros b Hin. apply list_elem_of_In in Hin.
  unfold buffers_ok in Hb2. rewrite list.Forall_forall in Hap, Hb2. specialize (Hap b Hin). destruct (Hb2 b Hin) as [Hr Hn].
  pose proof (in_ram_bounds _ _ _ Hr Hn) as [Ha He]. unfold apart in Hap.
  apply zslice_agree; try lia.
  - rewrite zlen_write by lia. change (zlen (le_bytes 2 _)) with 2. cbn [Z.eqb]. lia.
  - intros i Hi. apply zget_write_out; change (zlen (le_bytes 2 _)) with 2; lia.
Qed.

End RxMem.

Lemma storeLen_quiet q head len t (d : netDev) :
  guest t = [] -> queue_ok (Mem t) q ->
  let ea := sq_Used q + 4 + 8 * (usedIdxAt (Mem t) q mod ringSize q) in
  let t1 := t <| Mem := zwrite (Mem t) ea (encodeUsedElem (mkUsedElem head 0)) |> in
  onT (memStore (sq_Used q + 8 + 8 * (usedIdxAt (Mem t) q mod ringSize q)) (le_bytes 4 len)) (t1, d) =
    (Ok tt, (t <| Mem := zwrite (Mem t) ea (encodeUsedElem (mkUsedElem head len)) |>, d)).
Proof.
  intros Hg Hq ea t1. pose proof (used_slot_range _ _ Hq). pose proof (used_bounds _ _ Hq).
  unfold sizeofSplitUsed, QueueSize in *.
  assert (Hl : zlen (Mem t1) = zlen (Mem t)).
  { unfold t1; cbn [Mem set_field]. rewrite zlen_write by (unfold ea; lia). change (zlen (encodeUsedElem _)) with 8. cbn [Z.eqb]. unfold ea. lia. }
  rewrite store_quiet; [|done|].
  - pose proof (zwrite_tail (Mem t) ea (le_bytes 4 head) (le_bytes 4 0) (le_bytes 4 len)) as Hw.
    rewrite !zlen_le_bytes in Hw. unfold encodeUsedElem; cbn [ue_ID ue_Len]. rewrite <- Hw by (unfold ea; lia).
    unfold t1, ea. cbn [set_field]. do 4 f_equal. lia.
  - rewrite (ValidRange_len (Mem t)) by done. rewrite zlen_le_bytes, <- Z.add_assoc.
    eapply in_ram_range; [apply (qo_used _ _ Hq)|unfold sizeofSplitUsed; lia..].
Qed.

(** The part of [Rx] after the packet was read. *)
Lemma rxDeliver_quiet q head bufs packet t d :
  guest t = [] -> queue_ok (Mem t) q -> buffers_ok (Mem t) bufs ->
  Forall (fun b => apart (fst b) (snd b) (sq_Used q) sizeofSplitUsed) bufs ->
  exists r t',
    (let! uidx := onT (loadUsedIdx q) in
     do! onT (storeUsedRing q (uidx mod ringSize q) (mkUsedElem head 0)) in
     do! (if zlen packet <=? capacityOf bufs then
            do! onT (memStore (sq_Used q + 8 + 8 * (uidx mod ringSize q)) (le_bytes 4 (zlen packet))) in
            copyBuffers bufs packet
          else ret tt) in
     do! updN (advance netRxQueue) in
     do! onT (addUsedIdx q 1) in
     onT Interrupt) (t, d) = (r, (t', advance netRxQueue d)) /\ returns r /\
    irq_only (t <| Mem := rxMem (Mem t) q head bufs packet |>) t' /\ isr t' = isr t ||| 1.
Proof.
  intros Hg Hq Hb Hap. destruct (rx_stored (Mem t) q head bufs packet Hq Hb Hap) as (Hl2 & Hl3 & _ & _ & Hu).
  destruct (Interrupt_sets (t <| Mem := rxMem (Mem t) q head bufs packet |>)) as (r & t' & Hi & Hret & Ho & His).
  exists r, t'. splits; try done.
  unfold gbind at 1. rewrite loadUsedIdx_quiet by done. unfold gbind at 1. rewrite storeUsedRing_quiet by done.
  unfold rxMem in Hi. cbv zeta in Hi.
  destruct (zlen packet <=? capacityOf bufs).
  - unfold gbind at 1 2. rewrite storeLen_quiet by done. rewrite copyBuffers_quiet by (done || by apply (buffers_ok_len (Mem t))).
    unfold gbind at 1, updN, gupd. cbn [fst snd]. unfold gbind at 1.
    rewrite addUsedIdx_quiet by (done || by apply (queue_ok_len (Mem t))). cbn [Mem set_field]. rewrite Hu.
    unfold onT; cbn [fst snd].
    match type of Hi with Interrupt ?x = _ => match goal with |- context [Interrupt ?y] => change y with x end end.
    rewrite Hi. by destruct r.
  - unfold gbind at 1, ret. unfold gbind at 1, updN, gupd. cbn [fst snd]. unfold gbind at 1.
    rewrite addUsedIdx_quiet by (done || by apply (queue_ok_len (Mem t))). cbn [Mem set_field]. rewrite Hu.
    unfold onT; cbn [fst snd].
    match type of Hi with Interrupt ?x = _ => match goal with |- context [Interrupt ?y] => change y with x end end.
    rewrite Hi. by destruct r.
Qed.

(** C25: a packet of the backend and a receive chain a driver posted: the chain is
    handed back with one used element; when header and packet fit, the element
    has their length and the buffers hold the header followed by the packet,
    otherwise the length is 0 and no buffer changes; memory outside the used
    ring and the buffers is unchanged, exactly this packet was taken from the
    backend, and the interrupt cause is pending. *)
Theorem net_rx_delivers (s : Net) q head bufs payload rest :
  rx_ready s q head bufs payload rest ->
  let packet := netHeader ++ payload in
  let fits := zlen packet <=? capacityOf bufs in
  let mem := Mem (fst s) in
  exists r s', Rx s = (r, s') /\ returns r /\
    usedIdxAt (Mem (fst s')) q = u16 (usedIdxAt mem q + 1) /\
    usedElemAt (Mem (fst s')) q (usedIdxAt mem q mod ringSize q) = (u32 head, if fits then zlen packet else 0) /\
    (fits = true -> take (length packet) (bufferBytes (Mem (fst s')) bufs) = packet) /\
    (forall x, 0 <= x -> ~ (sq_Used q <= x < sq_Used q + sizeofSplitUsed) ->
       fits = false \/ Forall (fun b => ~ (fst b <= x < fst b + snd b)) bufs ->
       zget (Mem (fst s')) x = zget mem x) /\
    lastOf (snd s') netRxQueue = u16 (lastOf (snd s) netRxQueue + 1) /\
    tap_in (tap (snd s')) = rest /\ isr (fst s') = isr (fst s) ||| 1.
Proof.
  destruct s as [t d]. intros [B Hg Hqo Hd Hn Hh Hc Hl Hdis Hp Hz] packet fits mem. cbn [fst snd] in *.
  pose proof (ni_q _ B) as Hqs. cbn [fst snd] in Hqs. pose proof (queueOf_ok _ _ _ _ Hqs Hqo) as Hq.
  destruct Hqs as [_ (x & y & Hli & Hx & Hy)]. pose proof (ringSize_pos _ _ Hq).
  destruct (rx_chain_bufs _ _ _ _ Hc) as [Hb Hap].
  set (d1 := d <| tap := tap d <| tap_in := rest |> |>).
  destruct (rxDeliver_quiet q head bufs packet t d1 Hg Hq Hb Hap) as (r & t' & Hr & Hret & (w & l & i & Ht) & Hi).
  assert (Hm : Mem t' = rxMem mem q head bufs packet) by (by rewrite Ht). clear Ht.
  destruct (rxMem_used mem q head bufs packet Hq Hb Hap) as [Hu He].
  exists r, (t', advance netRxQueue d1). cbn [fst snd]. rewrite Hm. splits; try done.
  - unfold Rx. unfold gbind at 1, gget. cbn [snd]. rewrite Hd, Hqo. pose proof (Z.mod_pos_bound (lastOf d netRxQueue) (ringSize q)).
    unfold gbind at 1. rewrite loadAvailIdx_quiet by done.
    destruct (_ =? 0) eqn:E1; zbool; [lia|]. destruct (_ <? _) eqn:E2; zbool; [lia|].
    unfold gbind at 1. rewrite loadAvailRing_quiet, Hh by (done || unfold QueueSize in *; lia).
    unfold gbind at 1. rewrite (rxBuffers_quiet q _ head bufs); [|done..|unfold zlen in Hl; lia]. cbn [app]. rewrite Z.add_0_l.
    unfold gbind at 1, gget. cbn [snd]. unfold tapRead. rewrite Hp. cbn [option_map].
    unfold gbind at 1, updN, gupd. cbn [fst snd]. rewrite take_ge by (unfold zlen in Hz; lia).
    destruct (_ =? 0) eqn:E3; zbool; [lia|]. exact Hr.
  - rewrite He. f_equal. fold fits. destruct fits; [|done]. apply u32_small. unfold packet. rewrite zlen_app.
    change (zlen netHeader) with 12. lia.
  - intros Hf. by apply rxMem_packet.
  - intros a Ha Ho Hcase. by apply rxMem_out.
  - unfold lastOf at 1, advance. cbn [n_LastAvailIdx set_field]. rewrite zget_insert, Z.eqb_refl; [done|].
    change (n_LastAvailIdx d1) with (n_LastAvailIdx d). by rewrite Hli.
Qed.

(** ** Safety *)

(** C23: whatever a guest writes into its memory before and while a packet is
    received or transmitted, and whatever the backend answers, both handlers
    return without a panic or an access outside guest memory, and keep the
    device invariant, the queues and the size of guest memory. *)
Theorem net_io_safe (s : Net) (receive : bool) :
  ninv s ->
  exists r s', (if receive then Rx else Tx) s = (r, s') /\ returns r /\ ninv s' /\
    n_VirtQueue (snd s') = n_VirtQueue (snd s) /\ zlen (Mem (fst s')) = zlen (Mem (fst s)).
Proof.
  intros B.
  assert (Hw : wp (if receive then Rx else Tx) s (fun _ s' => nstep s s') (fun _ s' => nstep s s'))
    by (destruct receive; [by apply wp_Rx|by apply wp_Tx]).
  unfold wp in Hw. destruct ((if receive then Rx else Tx) s) as [r s']. exists r, s'.
  destruct r; try done; destruct Hw as [B' [Hl Hq Hd]]; by splits.
Qed.

(** ** A concrete device

    Both queues have four descriptors; the transmit queue is at 0 and the
    receive queue at 0x800.  Two packets wait for transmission, the second of
    them malformed when [bad] is set, and one receive chain of two buffers. *)

Definition netDesc (mem : list Z) (table i addr len flags next : Z) : list Z :=
  put_le (put_le (put_le (put_le mem (table + 16 * i) 8 addr) (table + 16 * i + 8) 4 len)
    (table + 16 * i + 12) 2 flags) (table + 16 * i + 14) 2 next.

Definition netMem (bad : bool) : list Z :=
  let m := zeros 0x1000 in
  let m := netDesc m 0 0 0x600 12 1 1 in
  let m := netDesc m 0 1 0x620 4 0 0 in
  let m := netDesc m 0 2 0x640 16 (if bad then 2 else 0) 0 in
  let m := put_le (put_le (put_le m 0x202 2 2) 0x204 2 0) 0x206 2 2 in
  let m := zwrite m 0x620 [1; 2; 3; 4] in
  let m := zwrite m 0x64c [5; 6; 7; 8] in
  let m := netDesc m 0x800 0 0xe00 14 3 1 in
  let m := netDesc m 0x800 1 0xe20 8 2 0 in
  put_le (put_le m 0xa02 2 1) 0xa04 2 0.

Definition netTxQ : SplitQueue := mkSplitQueue 0 0x200 0x400 4.
Definition netRxQ : SplitQueue := mkSplitQueue 0x800 0xa00 0xc00 4.

Definition netSample (bad : bool) : Net :=
  let d := mkNetDev (mkTap [Some [9; 8; 7; 6]] [] []) [Some netRxQ; Some netTxQ] [0; 0] 0 false false None in
  (NewModernTransport d (netMem bad) [] (mkIrqLine false 0 []), d).

Lemma zlen_netMem bad : zlen (netMem bad) = 0x1000.
Proof. by destruct bad; vm_compute. Qed.

Lemma netSample_inv bad : ninv (netSample bad).
Proof.
  constructor.
  - constructor; unfold is_u8, is_u16, is_u32, is_u64; cbn -[netMem Z.lor Z.pow]; try lia.
    + exists 0, 0. unfold is_u32. split; [done|lia].
    + repeat constructor; unfold is_u16, is_u64, freshQueue, QueueSize; cbn; lia.
    + vm_compute. split; [discriminate|reflexivity].
    + apply bytes_okb_ok. by destruct bad; vm_compute.
  - split.
    + exists (Some netRxQ), (Some netTxQ). split; [done|]. change (Mem _) with (netMem bad). intros q [[= <-]|[= <-]];
        (constructor; [by exists 2|..]; unfold in_ram, ValidRange; rewrite zlen_netMem; (split; [done|reflexivity])).
    + exists 0, 0. unfold is_u16. split; [done|lia].
  - constructor; [by apply bytes_okb_ok|constructor].
Qed.

Lemma netSample_desc_ok (bad : bool) q i :
  (q = netTxQ /\ i ∈ [0; 1; 2]) \/ (q = netRxQ /\ i ∈ [0; 1]) -> desc_ok (netMem bad) q i.
Proof.
  intros [[-> Hi]|[-> Hi]];
    repeat (apply elem_of_cons in Hi as [->|Hi]; [destruct bad; vm_compute; splits; (reflexivity || discriminate || (left; discriminate) || (right; discriminate))|]);
    by apply elem_of_nil in Hi.
Qed.

Lemma net_tx_transmits_witness :
  exists r t' d', Tx (netSample false) = (r, (t', d')) /\ tap_out (tap d') = [[1; 2; 3; 4]; [5; 6; 7; 8]].
Proof.
  assert (Hr : tx_ready (netSample false) netTxQ [[0; 1]; [2]]).
  { constructor; [apply netSample_inv|reflexivity|reflexivity|..]; try (vm_compute; (reflexivity || (split; (reflexivity || discriminate)))).
    - constructor; left; vm_compute; discriminate.
    - intros [|[|k]] ids Hk; [injection Hk as <-|injection Hk as <-|by destruct k].
      + split; [|split; [cbn; lia|reflexivity]]. constructor.
        * vm_compute. splits; reflexivity.
        * by apply (bool_decide_unpack _).
        * apply list.Forall_forall. intros i Hi. apply netSample_desc_ok. left. split; [done|set_solver].
        * vm_compute. split; discriminate.
      + split; [|split; [cbn; lia|reflexivity]]. constructor.
        * vm_compute. reflexivity.
        * by apply (bool_decide_unpack _).
        * apply list.Forall_forall. intros i Hi. apply netSample_desc_ok. left. split; [done|set_solver].
        * vm_compute. split; discriminate. }
  destruct (net_tx_transmits (netSample false) netTxQ _ Hr) as (r & t' & mem' & d' & Ht & _ & Hd & _).
  exists r, t', d'. split; [exact Ht|]. rewrite (td_frames _ _ _ _ _ _ Hd). vm_compute. reflexivity.
Defined.

Lemma net_rx_delivers_witness :
  exists r s', Rx (netSample false) = (r, s') /\
    take 16 (bufferBytes (Mem (fst s')) [(0xe00, 14); (0xe20, 8)]) = netHeader ++ [9; 8; 7; 6].
Proof.
  assert (Hr : rx_ready (netSample false) netRxQ 0 [(0xe00, 14); (0xe20, 8)] [9; 8; 7; 6] []).
  { constructor; [apply netSample_inv|reflexivity|reflexivity|reflexivity|..];
      try (vm_compute; (reflexivity || discriminate || (split; (reflexivity || discriminate)))).
    - change (Mem _) with (netMem false).
      assert (Ho : forall i, i ∈ [0; 1] -> desc_ok (netMem false) netRxQ i) by (intros i Hi; apply netSample_desc_ok; by right).
      pose proof (rx_last (netMem false) netRxQ 1 (Ho 1 ltac:(set_solver)) eq_refl) as H1.
      exact (rx_next (netMem false) netRxQ 0 _ (Ho 0 ltac:(set_solver)) eq_refl H1).
    - repeat constructor. vm_compute. discriminate. }
  destruct (net_rx_delivers (netSample false) netRxQ 0 _ _ [] Hr) as (r & s' & Hx & _ & _ & _ & Hp & _).
  exists r, s'. split; [exact Hx|]. exact (Hp eq_refl).
Defined.

Lemma net_io_safe_witness : exists r s', Rx (netSample true) = (r, s') /\ returns r /\ ninv s'.
Proof.
  destruct (net_io_safe (netSample true) true (netSample_inv true)) as (r & s' & Hx & Hr & Hi & _).
  exists r, s'. splits; [exact Hx|exact Hr|exact Hi].
Defined.

(** A packet that was transmitted and put on the used ring is not announced
    when a later packet of the same batch is malformed: the handler returns the
    error without raising the interrupt. *)
Theorem net_tx_error_unannounced :
  let s := netSample true in
  let s' := snd (Tx s) in
  fst (Tx s) = Err ErrNetDesc /\ tap_out (tap (snd s')) = [[1; 2; 3; 4]] /\
  usedIdxAt (Mem (fst s')) netTxQ = usedIdxAt (Mem (fst s)) netTxQ + 1 /\
  isr (fst s') = 0 /\ irq_injected (irq (fst s')) = irq_injected (irq (fst s)).
Proof. vm_compute. splits; reflexivity. Qed.
