(* ===== verification/GpuImage.v ===== *)
(** Images of the display path: the part of Go's [image] and [image/draw]
    packages the GPU uses, the conversion of guest pixels to RGBA
    (src/internal/virtio/gpu.go) and the composition of the hardware cursor
    (src/internal/virtio/display.go). *)

From S2P Require Import Prelude Bytes.

(** ** Rectangles ([image.Rectangle]) *)

Record Point : Type := mkPt { p_X : Z; p_Y : Z }.
Record Rectangle : Type := mkRect { minX : Z; minY : Z; maxX : Z; maxY : Z }.

#[export] Instance Rectangle_eq_dec : EqDecision Rectangle.
Proof. solve_decision. Defined.

Definition ZR : Rectangle := mkRect 0 0 0 0.

(** [image.Rect] swaps coordinates that are out of order. *)
Definition Rect (x0 y0 x1 y1 : Z) : Rectangle :=
  mkRect (Z.min x0 x1) (Z.min y0 y1) (Z.max x0 x1) (Z.max y0 y1).

Definition Dx (r : Rectangle) : Z := maxX r - minX r.
Definition Dy (r : Rectangle) : Z := maxY r - minY r.
Definition Min (r : Rectangle) : Point := mkPt (minX r) (minY r).
Definition Empty (r : Rectangle) : bool := (maxX r <=? minX r) || (maxY r <=? minY r).
Definition Add (r : Rectangle) (p : Point) : Rectangle :=
  mkRect (minX r + p_X p) (minY r + p_Y p) (maxX r + p_X p) (maxY r + p_Y p).
Definition Sub (r : Rectangle) (p : Point) : Rectangle :=
  mkRect (minX r - p_X p) (minY r - p_Y p) (maxX r - p_X p) (maxY r - p_Y p).
Definition Intersect (r s : Rectangle) : Rectangle :=
  let m := mkRect (Z.max (minX r) (minX s)) (Z.max (minY r) (minY s))
             (Z.min (maxX r) (maxX s)) (Z.min (maxY r) (maxY s)) in
  if Empty m then ZR else m.
Definition Overlaps (r s : Rectangle) : bool :=
  negb (Empty r) && negb (Empty s) &&
  (minX r <? maxX s) && (minX s <? maxX r) && (minY r <? maxY s) && (minY s <? maxY r).

Definition inside (r : Rectangle) (x y : Z) : Prop := minX r <= x < maxX r /\ minY r <= y < maxY r.
Definition insideb (r : Rectangle) (x y : Z) : bool :=
  (minX r <=? x) && (x <? maxX r) && (minY r <=? y) && (y <? maxY r).

(** ** Images ([image.RGBA]) *)

Record RGBA : Type := mkRGBA { Pix : list Z; Stride : Z; Bounds : Rectangle }.
#[export] Instance RGBA_eta : Settable RGBA := fun r => mkRGBA (Pix r) (Stride r) (Bounds r).

Definition NewRGBA (r : Rectangle) : RGBA := mkRGBA (zeros (4 * Dx r * Dy r)) (4 * Dx r) r.
Definition PixOffset (img : RGBA) (x y : Z) : Z :=
  (y - minY (Bounds img)) * Stride img + (x - minX (Bounds img)) * 4.

(** ** Drawing ([image/draw])

    [drawCopySrc] copies a row, [drawCopyOver] blends premultiplied pixels. *)

Inductive drawOp : Type := Src | Over.

Definition overChannel (d s sa : Z) : Z := u8 (Z.shiftr (d * ((0xffff - sa * 0x101) * 0x101) / 0xffff + s * 0x101) 8).

Fixpoint overRow (dst src : list Z) : list Z :=
  match dst, src with
  | d0 :: d1 :: d2 :: d3 :: dst, s0 :: s1 :: s2 :: s3 :: src =>
      overChannel d0 s0 s3 :: overChannel d1 s1 s3 :: overChannel d2 s2 s3 :: overChannel d3 s3 s3 :: overRow dst src
  | _, _ => dst
  end.

Definition drawRow (op : drawOp) (dst src : list Z) : list Z :=
  match op with Src => src | Over => overRow dst src end.

(** The rows of the clipped rectangle [r], of which [n] are left from [y]. *)
Fixpoint drawRows (op : drawOp) (n : nat) (y : Z) (r : Rectangle) (src : RGBA) (delta : Point) (dst : RGBA) : RGBA :=
  match n with
  | O => dst
  | S n =>
      let len := 4 * Dx r in
      let di := PixOffset dst (minX r) y in
      let si := PixOffset src (minX r + p_X delta) (y + p_Y delta) in
      let row := drawRow op (zslice (Pix dst) di len) (zslice (Pix src) si len) in
      drawRows op n (y + 1) r src delta (dst <| Pix := zwrite (Pix dst) di row |>)
  end.

(** [draw.Draw(dst, r, src, sp, op)]. *)
Definition Draw (dst : RGBA) (r : Rectangle) (src : RGBA) (sp : Point) (op : drawOp) : RGBA :=
  let delta := mkPt (p_X sp - minX r) (p_Y sp - minY r) in
  let r := Intersect (Intersect r (Bounds dst)) (Sub (Bounds src) delta) in
  if Empty r then dst else drawRows op (Z.to_nat (Dy r)) (minY r) r src delta dst.

(** ** The cursor ([DisplayCursor], [compositeCursor]) *)

Record DisplayCursor : Type := mkDisplayCursor {
  c_Image : option RGBA; c_X : Z; c_Y : Z; c_HotX : Z; c_HotY : Z
}.

(** The image to show, and the storage kept for the next composition. *)
Definition compositeCursor (frame : RGBA) (storage : option RGBA) (cursor : DisplayCursor) : RGBA * option RGBA :=
  match c_Image cursor with
  | None => (frame, storage)
  | Some shape =>
      let rect := Add (Bounds shape) (mkPt (c_X cursor - minX (Bounds shape)) (c_Y cursor - minY (Bounds shape))) in
      if negb (Overlaps rect (Bounds frame)) then (frame, storage)
      else
        let img := match storage with
                   | Some img => if decide (Bounds img = Bounds frame) then img else NewRGBA (Bounds frame)
                   | None => NewRGBA (Bounds frame)
                   end in
        let img := Draw img (Bounds img) frame (Min (Bounds frame)) Src in
        let img := Draw img rect shape (Min (Bounds shape)) Over in
        (img, Some img)
  end.

(** ** Guest pixels (gpu.go) *)

Definition gpuBytesPerPixel : Z := 4.

Definition gpuFormatB8G8R8A8 : Z := 1.
Definition gpuFormatB8G8R8X8 : Z := 2.
Definition gpuFormatA8R8G8B8 : Z := 3.
Definition gpuFormatX8R8G8B8 : Z := 4.
Definition gpuFormatR8G8B8A8 : Z := 67.
Definition gpuFormatX8B8G8R8 : Z := 68.
Definition gpuFormatA8B8G8R8 : Z := 121.
Definition gpuFormatR8G8B8X8 : Z := 134.

Definition gpuFormats : list Z :=
  [gpuFormatB8G8R8A8; gpuFormatB8G8R8X8; gpuFormatA8R8G8B8; gpuFormatX8R8G8B8;
   gpuFormatR8G8B8A8; gpuFormatX8B8G8R8; gpuFormatA8B8G8R8; gpuFormatR8G8B8X8].

Record gpuMemEntry : Type := mkMemEntry { e_addr : Z; e_length : Z }.

Record gpuResource : Type := mkResource {
  res_width : Z;
  res_height : Z;
  res_format : Z;
  res_data : list Z;
  res_backing : list gpuMemEntry
}.
#[export] Instance gpuResource_eta : Settable gpuResource := fun r =>
  mkResource (res_width r) (res_height r) (res_format r) (res_data r) (res_backing r).

Record channels : Type := mkChannels { rOff : Z; gOff : Z; bOff : Z; aOff : Z; hasAlpha : bool }.

Definition formatOffsets (format : Z) : channels :=
  if format =? gpuFormatB8G8R8A8 then mkChannels 2 1 0 3 true
  else if format =? gpuFormatB8G8R8X8 then mkChannels 2 1 0 0 false
  else if format =? gpuFormatA8R8G8B8 then mkChannels 1 2 3 0 true
  else if format =? gpuFormatX8R8G8B8 then mkChannels 1 2 3 0 false
  else if format =? gpuFormatR8G8B8A8 then mkChannels 0 1 2 3 true
  else if format =? gpuFormatX8B8G8R8 then mkChannels 3 2 1 0 false
  else if format =? gpuFormatA8B8G8R8 then mkChannels 3 2 1 0 true
  else if format =? gpuFormatR8G8B8X8 then mkChannels 0 1 2 0 false
  else mkChannels 2 1 0 0 false.

(** A cursor takes its alpha from the unused byte of a format without one. *)
Definition channelsOf (format : Z) (cursor : bool) : channels :=
  let c := formatOffsets format in
  if cursor && negb (hasAlpha c) then
    mkChannels (rOff c) (gOff c) (bOff c) (6 - rOff c - gOff c - bOff c) true
  else c.

(** The whole-word conversion of BGRX pixels. *)
Definition wordPixel (alpha pixel : Z) : Z :=
  (pixel &&& 0xff00ff00) ||| (Z.shiftr pixel 16 &&& 0xff) ||| Z.shiftl (pixel &&& 0xff) 16 ||| alpha.

Fixpoint wordRow (alpha : Z) (src : list Z) : list Z :=
  match src with
  | b0 :: b1 :: b2 :: b3 :: src => le_bytes 4 (wordPixel alpha (le_val [b0; b1; b2; b3])) ++ wordRow alpha src
  | _ => []
  end.

(** The conversion by channel. *)
Definition channelPixel (c : channels) (p : list Z) : list Z :=
  [zget p (rOff c); zget p (gOff c); zget p (bOff c); if hasAlpha c then zget p (aOff c) else 0xff].

Fixpoint channelRow (c : channels) (src : list Z) : list Z :=
  match src with
  | b0 :: b1 :: b2 :: b3 :: src => channelPixel c [b0; b1; b2; b3] ++ channelRow c src
  | _ => []
  end.

Definition convertRow (c : channels) (src : list Z) : list Z :=
  if (rOff c =? 2) && (gOff c =? 1) && (bOff c =? 0) then wordRow (if hasAlpha c then 0 else 0xff000000) src
  else channelRow c src.

(** A slice expression [l[a:b]] with its bounds check. *)
Definition slice (l : list Z) (a b : Z) : option (list Z) :=
  if (0 <=? a) && (a <=? b) && (b <=? zlen l) then Some (zslice l a (b - a)) else None.

(** The row loop of [resourceImageRectInto] with [n] rows left from [y];
    [None] is a slice bounds panic. *)
Fixpoint convertRows (n : nat) (y : Z) (c : channels) (res : gpuResource) (rect : Rectangle) (origin : Point)
    (img : RGBA) : option RGBA :=
  match n with
  | O => Some img
  | S n =>
      let si := (y * res_width res + minX rect) * gpuBytesPerPixel in
      let di := PixOffset img (minX rect - p_X origin) (y - p_Y origin) in
      let pixels := Z.min (Dx rect * gpuBytesPerPixel) (zlen (res_data res) - si) &^ 3 in
      if pixels <=? 0 then Some img
      else match slice (res_data res) si (si + pixels), slice (Pix img) di (di + pixels) with
           | Some src, Some _ =>
               convertRows n (y + 1) c res rect origin (img <| Pix := zwrite (Pix img) di (convertRow c src) |>)
           | _, _ => None
           end
  end.

Definition resBounds (res : gpuResource) : Rectangle := Rect 0 0 (res_width res) (res_height res).

Definition resourceImageRectInto (res : gpuResource) (cursor : bool) (img : RGBA) (rect : Rectangle) (origin : Point)
    : option RGBA :=
  let rect := Intersect (Intersect rect (resBounds res)) (Add (Bounds img) origin) in
  convertRows (Z.to_nat (Dy rect)) (minY rect) (channelsOf (res_format res) cursor) res rect origin img.

Definition resourceImageInto (res : gpuResource) (cursor : bool) (img : option RGBA) : option RGBA :=
  let bounds := resBounds res in
  let img := match img with
             | Some img => if decide (Bounds img = bounds) then img else NewRGBA bounds
             | None => NewRGBA bounds
             end in
  resourceImageRectInto res cursor img bounds (mkPt 0 0).

Definition resourceImage (res : gpuResource) (cursor : bool) : option RGBA := resourceImageInto res cursor None.

(** ** Rows of bytes

    [putRows n base stride rows] stores [n] rows, [stride] apart. *)

Fixpoint putRows (n : nat) (base stride : Z) (rows : Z -> list Z) (pix : list Z) : list Z :=
  match n with
  | O => pix
  | S n => zwrite (putRows n base stride rows pix) (base + Z.of_nat n * stride) (rows (Z.of_nat n))
  end.

Lemma putRows_first n base stride rows pix :
  putRows (S n) base stride rows pix =
  putRows n (base + stride) stride (fun k => rows (k + 1)) (zwrite pix base (rows 0)).
Proof.
  induction n as [|n IH]; [cbn; by rewrite Z.add_0_r|].
  change (putRows (S (S n)) base stride rows pix) with
    (zwrite (putRows (S n) base stride rows pix) (base + Z.of_nat (S n) * stride) (rows (Z.of_nat (S n)))).
  rewrite IH. cbn [putRows]. f_equal; [lia|f_equal; lia].
Qed.

Lemma putRows_ext n base stride rows rows' pix :
  (forall k, 0 <= k < Z.of_nat n -> rows k = rows' k) -> putRows n base stride rows pix = putRows n base stride rows' pix.
Proof.
  intros He. induction n as [|n IH]; [done|]. cbn [putRows]. rewrite IH by (intros; apply He; lia). by rewrite He by lia.
Qed.

Section Rows.
Variables (base stride len : Z) (rows : Z -> list Z) (pix : list Z) (total : nat).
Hypotheses (Hbase : 0 <= base) (Hlen : 0 <= len <= stride)
  (Hrows : forall k, 0 <= k < Z.of_nat total -> zlen (rows k) = len)
  (Hend : forall k, 0 <= k < Z.of_nat total -> base + k * stride + len <= zlen pix).

Lemma zlen_putRows n : (n <= total)%nat -> zlen (putRows n base stride rows pix) = zlen pix.
Proof using Hbase Hlen Hrows Hend.
  intros Hn. induction n as [|n IH]; [done|]. cbn [putRows].
  specialize (Hend (Z.of_nat n) ltac:(lia)). rewrite zlen_write, IH, Hrows by nia. destruct (_ =? 0); lia.
Qed.

Lemma zget_putRows_in n k c :
  (n <= total)%nat -> 0 <= k < Z.of_nat n -> 0 <= c < len ->
  zget (putRows n base stride rows pix) (base + k * stride + c) = zget (rows k) c.
Proof using Hbase Hlen Hrows.
  intros Hn Hk Hc. induction n as [|n IH]; [lia|]. cbn [putRows].
  destruct (decide (k = Z.of_nat n)) as [->|Hne].
  - rewrite zget_write_in; [f_equal; lia|nia|rewrite Hrows by lia; lia].
  - rewrite zget_write_out; [apply IH; lia|nia|nia|]. left. nia.
Qed.

Lemma zget_putRows_out n i :
  (n <= total)%nat -> 0 <= i ->
  (forall k, 0 <= k < Z.of_nat n -> i < base + k * stride \/ base + k * stride + len <= i) ->
  zget (putRows n base stride rows pix) i = zget pix i.
Proof using Hbase Hlen Hrows.
  intros Hn Hi Hout. induction n as [|n IH]; [done|]. cbn [putRows].
  rewrite zget_write_out; [apply IH; [lia|intros k Hk; apply Hout; lia]|nia|done|].
  rewrite Hrows by lia. apply Hout. lia.
Qed.

Lemma bytes_ok_putRows n :
  bytes_ok pix -> (forall k, 0 <= k < Z.of_nat n -> bytes_ok (rows k)) -> bytes_ok (putRows n base stride rows pix).
Proof.
  intros Hp Hr. induction n as [|n IH]; [done|]. cbn [putRows].
  apply bytes_ok_write; [apply IH; intros; apply Hr; lia|apply Hr; lia].
Qed.
End Rows.

(** ** Well-formed images and resources *)

Record image_ok (img : RGBA) : Prop := {
  io_dx : 0 <= Dx (Bounds img);
  io_dy : 0 <= Dy (Bounds img);
  io_stride : Stride img = 4 * Dx (Bounds img);
  io_len : zlen (Pix img) = 4 * Dx (Bounds img) * Dy (Bounds img);
  io_bytes : bytes_ok (Pix img)
}.

Record pixels_ok (res : gpuResource) : Prop := {
  po_width : 0 < res_width res;
  po_height : 0 < res_height res;
  po_len : zlen (res_data res) = 4 * res_width res * res_height res;
  po_bytes : bytes_ok (res_data res)
}.

Lemma NewRGBA_ok r : 0 <= Dx r -> 0 <= Dy r -> image_ok (NewRGBA r).
Proof.
  intros Hx Hy. constructor; cbn [NewRGBA Bounds Pix Stride]; try done; [|apply bytes_ok_zeros].
  rewrite zlen_zeros. nia.
Qed.

Lemma Empty_spec r : Empty r = false <-> minX r < maxX r /\ minY r < maxY r.
Proof. unfold Empty. rewrite orb_false_iff, !Z.leb_gt. lia. Qed.

Lemma insideb_spec r x y : reflect (inside r x y) (insideb r x y).
Proof.
  apply iff_reflect. unfold inside, insideb. rewrite !andb_true_iff, !Z.leb_le, !Z.ltb_lt. lia.
Qed.

Lemma Intersect_inside r s x y : inside (Intersect r s) x y <-> inside r x y /\ inside s x y.
Proof.
  unfold Intersect. destruct (Empty _) eqn:E.
  - unfold inside, ZR; cbn. unfold Empty in E; cbn in E. apply orb_true_iff in E. rewrite !Z.leb_le in E. lia.
  - unfold inside; cbn. lia.
Qed.

(** An intersection is a rectangle of both, or the empty one. *)
Lemma Intersect_cases r s :
  Intersect r s = ZR \/
  (Empty (Intersect r s) = false /\
   minX r <= minX (Intersect r s) /\ maxX (Intersect r s) <= maxX r /\
   minY r <= minY (Intersect r s) /\ maxY (Intersect r s) <= maxY r /\
   minX s <= minX (Intersect r s) /\ maxX (Intersect r s) <= maxX s /\
   minY s <= minY (Intersect r s) /\ maxY (Intersect r s) <= maxY s).
Proof. unfold Intersect. destruct (Empty _) eqn:E; [by left|right]. cbn. splits; try done; lia. Qed.

(** ** Pixel conversion *)

(** The reference conversion of one guest pixel: red, green, blue, alpha. *)
Definition convertPixel (format : Z) (cursor : bool) (p : list Z) : list Z := channelPixel (channelsOf format cursor) p.

Lemma testbit_byte b r n :
  is_u8 b -> 0 <= n -> Z.testbit (b + 256 * r) n = if n <? 8 then Z.testbit b n else Z.testbit r (n - 8).
Proof.
  unfold is_u8. intros Hb Hn. replace (b + 256 * r) with (Z.lor (r * 2 ^ 8) b) by (rewrite lor_low; lia).
  rewrite Z.lor_spec. destruct (n <? 8) eqn:E; zbool.
  - by rewrite Z.mul_pow2_bits_low.
  - rewrite Z.mul_pow2_bits by lia. rewrite (testbit_high b 8 n) by lia. by rewrite orb_false_r.
Qed.

(** A byte of a word. *)
Lemma byte_of_word v k b :
  0 <= k -> is_u8 b -> (forall n, 0 <= n < 8 -> Z.testbit v (n + k) = Z.testbit b n) -> v / 2 ^ k mod 256 = b.
Proof.
  intros Hk Hb Hn. change 256 with (2 ^ 8). rewrite <- Z.land_ones by lia. rewrite <- Z.shiftr_div_pow2 by done.
  zbits. rewrite Z.land_spec, Z.shiftr_spec, Z.testbit_ones by lia.
  destruct (decide (n < 8)).
  - rewrite Hn by lia. replace ((0 <=? n) && (n <? 8)) with true by (symmetry; apply andb_true_iff; lia). apply andb_true_r.
  - replace ((0 <=? n) && (n <? 8)) with false by (symmetry; apply andb_false_iff; lia).
    rewrite andb_false_r. symmetry. apply (testbit_high b 8); [done|lia].
Qed.

(** The whole-word conversion agrees with the conversion by channel. *)
Lemma wordPixel_channels b0 b1 b2 b3 (opaque : bool) :
  bytes_ok [b0; b1; b2; b3] ->
  le_bytes 4 (wordPixel (if opaque then 0xff000000 else 0) (le_val [b0; b1; b2; b3])) =
  [b2; b1; b0; if opaque then 0xff else b3].
Proof.
  intros Hb. unfold bytes_ok in Hb. rewrite !list.Forall_cons in Hb. destruct Hb as (H0 & H1 & H2 & H3 & _).
  set (alpha := if opaque then _ else _). set (v := wordPixel _ _). cbn [le_bytes].
  assert (Hbit : forall n, 0 <= n < 32 -> Z.testbit v n =
    (if n <? 8 then Z.testbit b2 n else if n <? 16 then Z.testbit b1 (n - 8)
     else if n <? 24 then Z.testbit b0 (n - 16) else (if opaque then true else Z.testbit b3 (n - 24)))).
  { assert (Hw : forall n, 0 <= n -> Z.testbit (le_val [b0; b1; b2; b3]) n =
      if n <? 8 then Z.testbit b0 n else if n <? 16 then Z.testbit b1 (n - 8)
      else if n <? 24 then Z.testbit b2 (n - 16) else Z.testbit b3 (n - 24)).
    { intros n Hn. cbn [le_val].
      rewrite testbit_byte by done. destruct (n <? 8) eqn:E0; zbool; [done|].
      rewrite testbit_byte by (done || lia). destruct (n <? 16) eqn:E1, (n - 8 <? 8) eqn:E2; zbool; try lia; [done|].
      rewrite testbit_byte by (done || lia). destruct (n <? 24) eqn:E3, (n - 8 - 8 <? 8) eqn:E4; zbool; try lia; [f_equal; lia|].
      rewrite testbit_byte by (done || lia). destruct (n - 8 - 8 - 8 <? 8) eqn:E5; zbool; [f_equal; lia|].
      rewrite Z.bits_0. symmetry. apply (testbit_high b3 8); [done|lia]. }
    intros n Hn. unfold v, wordPixel. rewrite !Z.lor_spec, !Z.land_spec, Z.shiftr_spec by lia.
    rewrite Z.shiftl_spec, Z.land_spec by lia.
    assert (Hc : exists k : nat, (k < 32)%nat /\ n = Z.of_nat k) by (exists (Z.to_nat n); lia).
    destruct Hc as (k & Hk & ->). unfold alpha. clear Hn v alpha H0 H1 H2 H3.
    do 32 (destruct k as [|k]; [rewrite ?Hw by lia; destruct opaque; cbn -[Z.testbit le_val]; cbn;
      rewrite ?andb_true_r, ?andb_false_r, ?orb_false_r, ?orb_true_r; reflexivity|]). lia. }
  assert (Hbyte : forall k b, 0 <= k <= 24 -> is_u8 b ->
    (forall n, 0 <= n < 8 -> Z.testbit v (n + k) = Z.testbit b n) -> v / 2 ^ k mod 256 = b).
  { intros k b Hk. apply byte_of_word. lia. }
  rewrite !Z.div_div by lia.
  assert (Hz : v mod 256 = v / 2 ^ 0 mod 256) by (by rewrite Z.div_1_r).
  assert (Hff : forall n, 0 <= n < 8 -> Z.testbit 0xff n = true).
  { intros n Hn. change 0xff with (Z.ones 8). rewrite Z.testbit_ones by lia. apply andb_true_iff. lia. }
  rewrite Hz. change (256 * 256 * 256) with (2 ^ 24). change (256 * 256) with (2 ^ 16).
  change (v / 256) with (v / 2 ^ 8).
  f_equal; [|f_equal; [|f_equal; [|f_equal]]]; (apply Hbyte; [lia|by destruct opaque|]); intros n Hn;
    rewrite Hbit by lia; zcases; zbool; try lia; try (f_equal; lia).
  destruct opaque; [by rewrite Hff|f_equal; lia].
Qed.

(** Induction over the pixels of a row. *)
Lemma row_ind (P : list Z -> Prop) :
  P [] -> (forall b0 b1 b2 b3 l, P l -> P (b0 :: b1 :: b2 :: b3 :: l)) ->
  forall m l, zlen l = 4 * Z.of_nat m -> P l.
Proof.
  intros H0 HS m. induction m as [|m IH]; intros l Hl.
  - destruct l; [done|unfold zlen in Hl; cbn in Hl; lia].
  - destruct l as [|b0 [|b1 [|b2 [|b3 l]]]]; unfold zlen in Hl; cbn in Hl; try lia.
    apply HS, IH. unfold zlen. lia.
Qed.

Lemma bgr_alpha format cursor :
  let c := channelsOf format cursor in
  (rOff c =? 2) && (gOff c =? 1) && (bOff c =? 0) = true -> hasAlpha c = true -> aOff c = 3.
Proof.
  cbv zeta. unfold channelsOf, formatOffsets.
  repeat match goal with |- context [format =? ?k] => destruct (format =? k) end; destruct cursor; cbn; try done.
Qed.

Lemma convertRow_channels format cursor m src :
  zlen src = 4 * Z.of_nat m -> bytes_ok src ->
  convertRow (channelsOf format cursor) src = channelRow (channelsOf format cursor) src.
Proof.
  intros Hl. unfold convertRow. pose proof (bgr_alpha format cursor) as Ha. cbv zeta in Ha.
  set (c := channelsOf _ _) in *. destruct (_ && _) eqn:E; [|done]. specialize (Ha eq_refl). zbool.
  revert m src Hl. apply (row_ind (fun l => bytes_ok l -> wordRow _ l = channelRow c l)); [done|].
  intros b0 b1 b2 b3 l IH Hb. change (b0 :: b1 :: b2 :: b3 :: l) with ([b0; b1; b2; b3] ++ l) in Hb.
  apply Forall_app in Hb as [Hp Hb]. cbn [wordRow channelRow]. rewrite IH by done. f_equal.
  pose proof (wordPixel_channels b0 b1 b2 b3 (negb (hasAlpha c)) Hp) as Hw.
  unfold channelPixel. repeat match goal with H : _ = _ :> Z |- _ => rewrite H end.
  destruct (hasAlpha c); cbn [negb] in Hw; rewrite Hw; [rewrite Ha by done|]; done.
Qed.

Lemma zlen_channelRow c m src : zlen src = 4 * Z.of_nat m -> zlen (channelRow c src) = zlen src.
Proof.
  revert m src. apply (row_ind (fun l => zlen (channelRow c l) = zlen l)); [done|].
  intros b0 b1 b2 b3 l IH. cbn [channelRow]. rewrite zlen_app, IH. unfold zlen; cbn [length channelPixel]. lia.
Qed.

Lemma zget_channelRow c m src i ch :
  zlen src = 4 * Z.of_nat m -> 0 <= i < Z.of_nat m -> 0 <= ch < 4 ->
  zget (channelRow c src) (4 * i + ch) = zget (channelPixel c (zslice src (4 * i) 4)) ch.
Proof.
  intros Hl Hi Hc. revert src i Hl Hi. induction m as [|m IH]; intros src i Hl Hi; [lia|].
  destruct src as [|b0 [|b1 [|b2 [|b3 l]]]]; unfold zlen in Hl; cbn in Hl; try lia.
  cbn [channelRow]. rewrite zget_app. change (zlen (channelPixel c _)) with 4.
  destruct (decide (i = 0)) as [->|].
  - destruct (_ <? 4) eqn:E; zbool; [|lia]. by replace (4 * 0 + ch) with ch by lia.
  - destruct (_ <? 4) eqn:E; zbool; [lia|]. replace (4 * i + ch - 4) with (4 * (i - 1) + ch) by lia.
    rewrite IH by (unfold zlen; lia). f_equal. f_equal. unfold zslice. f_equal.
    replace (Z.to_nat (4 * i)) with (4 + Z.to_nat (4 * (i - 1)))%nat by lia. done.
Qed.

Lemma channelsOf_range format cursor :
  let c := channelsOf format cursor in
  0 <= rOff c < 4 /\ 0 <= gOff c < 4 /\ 0 <= bOff c < 4 /\ 0 <= aOff c < 4.
Proof.
  cbv zeta. unfold channelsOf, formatOffsets.
  repeat match goal with |- context [format =? ?k] => destruct (format =? k) end; destruct cursor; cbn; lia.
Qed.

Lemma channelPixel_ok c p : bytes_ok p -> bytes_ok (channelPixel c p).
Proof.
  intros Hp. pose proof (fun i => bytes_ok_zget p i Hp) as Hz.
  unfold bytes_ok, channelPixel. rewrite !list.Forall_cons. splits; try apply Hz; [|constructor].
  destruct (hasAlpha c); [apply Hz|unfold is_u8; lia].
Qed.

Lemma channelRow_ok c m src : zlen src = 4 * Z.of_nat m -> bytes_ok src -> bytes_ok (channelRow c src).
Proof.
  revert m src. apply (row_ind (fun l => bytes_ok l -> bytes_ok (channelRow c l))); [done|].
  intros b0 b1 b2 b3 l IH Hb. change (b0 :: b1 :: b2 :: b3 :: l) with ([b0; b1; b2; b3] ++ l) in Hb.
  apply Forall_app in Hb as [Hp Hb]. cbn [channelRow]. apply Forall_app. split; [by apply channelPixel_ok|by apply IH].
Qed.

(** ** Images by pixel *)

Definition chan (img : RGBA) (x y ch : Z) : Z := zget (Pix img) (PixOffset img x y + ch).
Definition guestPixel (res : gpuResource) (x y : Z) : list Z := zslice (res_data res) (4 * (y * res_width res + x)) 4.

Definition contained (r s : Rectangle) : Prop := minX s <= minX r /\ maxX r <= maxX s /\ minY s <= minY r /\ maxY r <= maxY s.

(** Rows stored at the rectangle [r] change its pixels and no others. *)
Section RectRows.
Variables (img : RGBA) (rc : Rectangle) (rows : Z -> list Z).
Hypotheses (Hi : image_ok img) (He : Empty rc = false) (Hr : contained rc (Bounds img))
  (Hrows : forall k, 0 <= k < Dy rc -> zlen (rows k) = 4 * Dx rc /\ bytes_ok (rows k)).

#[local] Abbreviation img' :=
  (img <| Pix := putRows (Z.to_nat (Dy rc)) (PixOffset img (minX rc) (minY rc)) (Stride img) rows (Pix img) |>).

Lemma rect_rows_fit k :
  0 <= k < Dy rc -> PixOffset img (minX rc) (minY rc) + k * Stride img + 4 * Dx rc <= zlen (Pix img).
Proof using Hi He Hr.
  apply Empty_spec in He. destruct Hi as [? ? Hs Hl _], Hr as (? & ? & ? & ?). unfold PixOffset, Dx, Dy in *.
  rewrite Hs, Hl. nia.
Qed.

Lemma rect_rows_base : 0 <= PixOffset img (minX rc) (minY rc).
Proof using Hi Hr. destruct Hi as [? ? Hs _ _], Hr as (? & ? & ? & ?). unfold PixOffset, Dx in *. rewrite Hs. nia. Qed.

Lemma rect_rows_width : 0 <= 4 * Dx rc <= Stride img.
Proof using Hi He Hr.
  apply Empty_spec in He. destruct Hi as [? ? Hs _ _], Hr as (? & ? & ? & ?). unfold Dx in *. rewrite Hs. lia.
Qed.

Lemma rect_rows_ok : image_ok img'.
Proof using Hi He Hr Hrows.
  pose proof rect_rows_fit as Hf. pose proof rect_rows_base. pose proof rect_rows_width.
  pose proof Hi as [? ? ? Hl Hb]. constructor; cbn; try done.
  - rewrite (zlen_putRows _ _ (4 * Dx rc) _ _ (Z.to_nat (Dy rc))); try done; intros k Hk; [apply Hrows|apply Hf]; lia.
  - apply bytes_ok_putRows; [done|]. intros k Hk. apply Hrows. lia.
Qed.

Lemma rect_rows_chan x y ch :
  inside (Bounds img) x y -> 0 <= ch < 4 ->
  chan img' x y ch = if insideb rc x y then zget (rows (y - minY rc)) (4 * (x - minX rc) + ch) else chan img x y ch.
Proof using Hi He Hr Hrows.
  intros Hin Hch. pose proof rect_rows_fit as Hf. pose proof rect_rows_base as Hb. pose proof rect_rows_width as Hw.
  pose proof He as He'. apply Empty_spec in He'. pose proof Hi as [? ? Hs Hl _]. pose proof Hr as (? & ? & ? & ?).
  assert (Hz : forall k, 0 <= k < Z.of_nat (Z.to_nat (Dy rc)) -> zlen (rows k) = 4 * Dx rc) by (intros k Hk; apply Hrows; lia).
  unfold chan. change (PixOffset img' x y) with (PixOffset img x y). cbn [Pix set_field].
  assert (Ho : PixOffset img x y = PixOffset img (minX rc) (minY rc) + (y - minY rc) * Stride img + 4 * (x - minX rc))
    by (unfold PixOffset; lia).
  unfold inside, Dx, Dy in *. destruct (insideb_spec rc x y) as [Hir|Hir]; unfold inside in Hir.
  - rewrite Ho, <- Z.add_assoc. apply (zget_putRows_in _ _ (4 * Dx rc) _ _ (Z.to_nat (maxY rc - minY rc))); try done; unfold Dx; lia.
  - apply (zget_putRows_out _ _ (4 * Dx rc) _ _ (Z.to_nat (maxY rc - minY rc))); try done.
    { unfold PixOffset. rewrite Hs. nia. }
    intros k Hk. rewrite Ho, Hs. unfold Dx in *.
    assert (Hc : y < minY rc \/ maxY rc <= y \/ minY rc <= y < maxY rc) by lia.
    destruct (decide (k = y - minY rc)) as [->|]; [lia|].
    assert (k < y - minY rc \/ y - minY rc < k) as [Hk'|Hk'] by lia; [right|left]; nia.
Qed.
End RectRows.

Lemma ldiff_3 x : Z.ldiff (4 * x) 3 = 4 * x.
Proof. change 3 with (2 ^ 2 - 1). rewrite ldiff_low by lia. change (2 ^ 2) with 4. rewrite (Z.mul_comm 4 x), Z.div_mul; lia. Qed.

Lemma slice_ok l a b : 0 <= a <= b -> b <= zlen l -> slice l a b = Some (zslice l a (b - a)).
Proof. intros. unfold slice. replace (_ && _) with true; [done|]. symmetry. rewrite !andb_true_iff, !Z.leb_le. lia. Qed.

(** *** Conversion *)

Section Convert.
Variables (res : gpuResource) (cursor : bool) (rc : Rectangle) (origin : Point).
Hypotheses (Hres : pixels_ok res) (He : Empty rc = false) (Hin : contained rc (resBounds res)).

#[local] Abbreviation c := (channelsOf (res_format res) cursor).
Definition sourceRow (y : Z) : list Z := zslice (res_data res) (4 * (y * res_width res + minX rc)) (4 * Dx rc).

Lemma rc_range : 0 <= minX rc < maxX rc /\ maxX rc <= res_width res /\ 0 <= minY rc < maxY rc /\ maxY rc <= res_height res.
Proof using Hres He Hin.
  apply Empty_spec in He. destruct Hres, Hin as (? & ? & ? & ?). unfold resBounds, Rect in *; cbn in *. lia.
Qed.

Lemma sourceRow_len y : minY rc <= y < maxY rc -> zlen (sourceRow y) = 4 * Dx rc.
Proof using Hres He Hin.
  intros Hy. pose proof rc_range. unfold sourceRow, Dx. apply zlen_slice; [nia|lia|].
  rewrite (po_len res Hres). nia.
Qed.

Lemma convertRows_rows n y img :
  image_ok img -> contained (Sub rc origin) (Bounds img) ->
  minY rc <= y -> y + Z.of_nat n <= maxY rc ->
  convertRows n y c res rc origin img =
  Some (img <| Pix := putRows n (PixOffset img (minX rc - p_X origin) (y - p_Y origin)) (Stride img)
                        (fun k => channelRow c (sourceRow (y + k))) (Pix img) |>).
Proof using Hres He Hin.
  revert y img. induction n as [|n IH]; intros y img Hi Hc Hy Hn; [by destruct img|].
  pose proof rc_range as Hr. pose proof (sourceRow_len y ltac:(lia)) as Hl. cbn [convertRows]. unfold gpuBytesPerPixel.
  pose proof (po_len res Hres) as Hd. pose proof Hi as [? ? Hs Hp Hbp]. destruct Hc as (Hc1 & Hc2 & Hc3 & Hc4).
  unfold Sub in Hc1, Hc2, Hc3, Hc4; cbn in Hc1, Hc2, Hc3, Hc4.
  assert (Hfit : 4 * (y * res_width res + minX rc) + 4 * Dx rc <= zlen (res_data res)) by (unfold Dx; nia).
  assert (Hbase : 0 <= PixOffset img (minX rc - p_X origin) (y - p_Y origin)).
  { unfold PixOffset, Dx in *. rewrite Hs. nia. }
  assert (Hend : PixOffset img (minX rc - p_X origin) (y - p_Y origin) + 4 * Dx rc <= zlen (Pix img)).
  { unfold PixOffset, Dx, Dy in *. rewrite Hs, Hp. nia. }
  replace ((y * res_width res + minX rc) * 4) with (4 * (y * res_width res + minX rc)) by lia.
  replace (Z.min (Dx rc * 4) (zlen (res_data res) - 4 * (y * res_width res + minX rc))) with (4 * Dx rc) by (unfold Dx in *; lia).
  rewrite ldiff_3. destruct (_ <=? 0) eqn:E; zbool; [unfold Dx in *; lia|].
  rewrite !slice_ok by (unfold Dx in *; nia). rewrite Z.add_simpl_l.
  fold (sourceRow y). rewrite (convertRow_channels _ _ (Z.to_nat (Dx rc)));
    [|unfold Dx in *; lia|apply bytes_ok_slice, (po_bytes res Hres)].
  assert (Hrow : zlen (channelRow c (sourceRow y)) = 4 * Dx rc).
  { rewrite (zlen_channelRow _ (Z.to_nat (Dx rc))) by (unfold Dx in *; lia). done. }
  set (img1 := img <| Pix := _ |>).
  assert (Hi1 : image_ok img1).
  { constructor; cbn; try done; [rewrite zlen_write, Hrow by done; destruct (_ =? 0); lia|].
    apply bytes_ok_write; [done|]. apply (channelRow_ok _ (Z.to_nat (Dx rc))); [unfold Dx in *; lia|].
    apply bytes_ok_slice, (po_bytes res Hres). }
  rewrite (IH (y + 1) img1 Hi1); [|by unfold contained, Sub; cbn|lia|lia].
  rewrite putRows_first. unfold img1; cbn [Pix Stride Bounds set_field]. rewrite Z.add_0_r.
  replace (PixOffset _ _ (y + 1 - p_Y origin)) with
    (PixOffset img (minX rc - p_X origin) (y - p_Y origin) + Stride img) by (unfold PixOffset; cbn; lia).
  do 2 f_equal. apply putRows_ext. intros k Hk. do 2 f_equal. lia.
Qed.
End Convert.

Lemma insideb_true r x y : inside r x y -> insideb r x y = true.
Proof. by destruct (insideb_spec r x y). Qed.

Lemma insideb_Intersect r s x y : insideb (Intersect r s) x y = insideb r x y && insideb s x y.
Proof.
  pose proof (Intersect_inside r s x y) as Hi.
  destruct (insideb_spec (Intersect r s) x y), (insideb_spec r x y), (insideb_spec s x y); cbn; tauto.
Qed.

Lemma insideb_Sub r p x y : insideb (Sub r p) x y = insideb r (x + p_X p) (y + p_Y p).
Proof.
  destruct (insideb_spec (Sub r p) x y) as [H|H], (insideb_spec r (x + p_X p) (y + p_Y p)) as [H'|H']; try done;
    unfold inside, Sub in *; cbn in *; lia.
Qed.

Lemma insideb_Add r p x y : insideb (Add r p) x y = insideb r (x - p_X p) (y - p_Y p).
Proof.
  destruct (insideb_spec (Add r p) x y) as [H|H], (insideb_spec r (x - p_X p) (y - p_Y p)) as [H'|H']; try done;
    unfold inside, Add in *; cbn in *; lia.
Qed.


(** The conversion writes exactly the pixels of the rectangle that the resource
    has, and never leaves a slice. *)
Lemma resourceImageRectInto_spec res cursor img rect origin :
  pixels_ok res -> image_ok img ->
  exists img', resourceImageRectInto res cursor img rect origin = Some img' /\ image_ok img' /\ Bounds img' = Bounds img /\
    forall x y ch, inside (Bounds img) x y -> 0 <= ch < 4 ->
      chan img' x y ch =
      if insideb rect (x + p_X origin) (y + p_Y origin) && insideb (resBounds res) (x + p_X origin) (y + p_Y origin)
      then zget (convertPixel (res_format res) cursor (guestPixel res (x + p_X origin) (y + p_Y origin))) ch
      else chan img x y ch.
Proof.
  intros Hres Hi. unfold resourceImageRectInto.
  set (rc := Intersect (Intersect rect (resBounds res)) (Add (Bounds img) origin)).
  assert (Hrc : forall x y, inside (Bounds img) x y -> insideb (Sub rc origin) x y =
    insideb rect (x + p_X origin) (y + p_Y origin) && insideb (resBounds res) (x + p_X origin) (y + p_Y origin)).
  { intros x y Hxy. unfold rc. rewrite insideb_Sub, !insideb_Intersect, insideb_Add, !Z.add_simpl_r.
    rewrite (insideb_true (Bounds img)) by done. apply andb_true_r. }
  destruct (Intersect_cases (Intersect rect (resBounds res)) (Add (Bounds img) origin)) as [Hz|Hz]; fold rc in Hz.
  { rewrite Hz in Hrc |- *. exists img. splits; try done. intros x y ch Hxy Hch. rewrite <- Hrc by done.
    destruct (insideb_spec (Sub ZR origin) x y) as [H|H]; [unfold inside, Sub, ZR in H; cbn in H; lia|done]. }
  destruct Hz as (He & H1 & H2 & H3 & H4 & H5 & H6 & H7 & H8).
  assert (Hin : contained rc (resBounds res)).
  { destruct (Intersect_cases rect (resBounds res)) as [Hz|Hz]; [|unfold contained; lia].
    rewrite Hz in H1, H2. apply Empty_spec in He. cbn in *. lia. }
  assert (Hc : contained (Sub rc origin) (Bounds img)) by (unfold contained, Sub, Add in *; cbn in *; lia).
  assert (Hes : Empty (Sub rc origin) = false) by (apply Empty_spec in He; apply Empty_spec; cbn; lia).
  pose proof He as He'. apply Empty_spec in He'.
  rewrite (convertRows_rows res cursor rc origin Hres He Hin); [|done|done|lia|unfold Dy; lia].
  set (rows := fun k : Z => _). assert (Hd : Dy (Sub rc origin) = Dy rc) by (unfold Dy; cbn; lia).
  assert (Hdx : Dx (Sub rc origin) = Dx rc) by (unfold Dx; cbn; lia).
  assert (Hrows : forall k, 0 <= k < Dy (Sub rc origin) -> zlen (rows k) = 4 * Dx (Sub rc origin) /\ bytes_ok (rows k)).
  { rewrite Hd, Hdx. intros k Hk. unfold Dy in Hk. pose proof (sourceRow_len res rc Hres He Hin (minY rc + k) ltac:(lia)) as Hl.
    assert (Hl' : zlen (sourceRow res rc (minY rc + k)) = 4 * Z.of_nat (Z.to_nat (Dx rc))) by (rewrite Hl; unfold Dx; lia).
    unfold rows. rewrite (zlen_channelRow _ _ _ Hl'). split; [done|]. apply (channelRow_ok _ _ _ Hl').
    apply bytes_ok_slice, (po_bytes res Hres). }
  rewrite <- Hd. eexists. splits; [reflexivity| |done|].
  - by apply (rect_rows_ok img (Sub rc origin) rows).
  - intros x y ch Hxy Hch. rewrite (rect_rows_chan img (Sub rc origin) rows) by done. rewrite (Hrc x y Hxy).
    destruct (insideb rect _ _ && _) eqn:E; [|done]. rewrite <- (Hrc x y Hxy) in E.
    destruct (insideb_spec (Sub rc origin) x y) as [Hir|]; [|done]. unfold inside, Sub in Hir; cbn in Hir.
    unfold rows. cbn [Sub minX minY].
    rewrite (zget_channelRow _ (Z.to_nat (Dx rc))); [|rewrite (sourceRow_len res rc) by (try done; lia)|..|done]; try (unfold Dx; lia).
    unfold convertPixel, sourceRow, guestPixel. f_equal. f_equal. pose proof (rc_range res rc Hres He Hin).
    rewrite zslice_slice; [f_equal; lia|..]; unfold Dx; try lia; try nia.
Qed.

(** *** Drawing *)

(** One channel of a drawn pixel: of the destination [d] and source [s] with alpha [sa]. *)
Definition drawChannel (op : drawOp) (d s sa : Z) : Z := match op with Src => s | Over => overChannel d s sa end.

Lemma drawRow_spec op m dst src :
  zlen dst = 4 * Z.of_nat m -> zlen src = 4 * Z.of_nat m -> bytes_ok src ->
  zlen (drawRow op dst src) = 4 * Z.of_nat m /\ bytes_ok (drawRow op dst src) /\
  forall i ch, 0 <= i < Z.of_nat m -> 0 <= ch < 4 ->
    zget (drawRow op dst src) (4 * i + ch) =
    drawChannel op (zget dst (4 * i + ch)) (zget src (4 * i + ch)) (zget src (4 * i + 3)).
Proof.
  intros Hd Hs Hb. destruct op; [done|]. cbn [drawRow drawChannel].
  revert dst src Hd Hs Hb. induction m as [|m IH]; intros dst src Hd Hs Hb.
  { destruct dst; [|unfold zlen in Hd; cbn in Hd; lia]. splits; try done; [constructor|lia]. }
  destruct dst as [|d0 [|d1 [|d2 [|d3 dst]]]]; unfold zlen in Hd; cbn in Hd; try lia.
  destruct src as [|s0 [|s1 [|s2 [|s3 src]]]]; unfold zlen in Hs; cbn in Hs; try lia.
  change (s0 :: s1 :: s2 :: s3 :: src) with ([s0; s1; s2; s3] ++ src) in Hb. apply Forall_app in Hb as [_ Hb].
  destruct (IH dst src) as (IHl & IHb & IHg); [unfold zlen; lia|unfold zlen; lia|done|]. cbn [overRow].
  splits.
  - rewrite !zlen_cons, IHl. lia.
  - repeat (apply list.Forall_cons; split; [apply u8_range|]). done.
  - intros i ch Hi Hc. destruct (decide (i = 0)) as [->|].
    + assert (ch = 0 \/ ch = 1 \/ ch = 2 \/ ch = 3) as [-> | [-> | [-> | ->]]] by lia; reflexivity.
    + assert (Ht : forall a b c d (l : list Z) k, 4 <= k -> zget (a :: b :: c :: d :: l) k = zget l (k - 4)).
      { intros a b c d l k Hk. unfold zget. destruct (k <? 0) eqn:?, (k - 4 <? 0) eqn:?; zbool; try lia.
        by replace (Z.to_nat k) with (4 + Z.to_nat (k - 4))%nat by lia. }
      rewrite !Ht by lia. replace (4 * i + ch - 4) with (4 * (i - 1) + ch) by lia.
      replace (4 * i + 3 - 4) with (4 * (i - 1) + 3) by lia. apply IHg; lia.
Qed.

Section DrawSpec.
Variables (op : drawOp) (rc : Rectangle) (src : RGBA) (delta : Point).
Hypotheses (Hsrc : image_ok src) (He : Empty rc = false) (Hsc : contained (Add rc delta) (Bounds src)).

Definition drawnRow (dst : RGBA) (y : Z) : list Z :=
  drawRow op (zslice (Pix dst) (PixOffset dst (minX rc) y) (4 * Dx rc))
    (zslice (Pix src) (PixOffset src (minX rc + p_X delta) (y + p_Y delta)) (4 * Dx rc)).

(** The slices of a row are in range. *)
Lemma row_fits img y p :
  image_ok img -> contained (Add rc p) (Bounds img) -> minY rc <= y < maxY rc ->
  0 <= PixOffset img (minX rc + p_X p) (y + p_Y p) /\
  PixOffset img (minX rc + p_X p) (y + p_Y p) + 4 * Dx rc <= zlen (Pix img).
Proof using He.
  intros [? ? Hs Hl _] (H1 & H2 & H3 & H4) Hy. apply Empty_spec in He. unfold Add, PixOffset, Dx, Dy in *; cbn in *.
  rewrite Hs, Hl. split; nia.
Qed.

Lemma drawnRow_spec dst y :
  image_ok dst -> contained rc (Bounds dst) -> minY rc <= y < maxY rc ->
  zlen (drawnRow dst y) = 4 * Dx rc /\ bytes_ok (drawnRow dst y) /\
  forall x ch, minX rc <= x < maxX rc -> 0 <= ch < 4 ->
    zget (drawnRow dst y) (4 * (x - minX rc) + ch) =
    drawChannel op (chan dst x y ch) (chan src (x + p_X delta) (y + p_Y delta) ch) (chan src (x + p_X delta) (y + p_Y delta) 3).
Proof using Hsrc He Hsc.
  intros Hd Hc Hy. pose proof (row_fits src y delta Hsrc Hsc Hy) as [Hs0 Hs1].
  destruct (row_fits dst y (mkPt 0 0) Hd) as [Hd0 Hd1]; [unfold contained, Add in *; cbn in *; lia|done|].
  cbn [p_X p_Y] in Hd0, Hd1. rewrite !Z.add_0_r in Hd0, Hd1.
  apply Empty_spec in He. assert (Hm : 4 * Dx rc = 4 * Z.of_nat (Z.to_nat (Dx rc))) by (unfold Dx; lia).
  assert (0 <= 4 * Dx rc) by (unfold Dx; lia).
  destruct (drawRow_spec op (Z.to_nat (Dx rc)) (zslice (Pix dst) (PixOffset dst (minX rc) y) (4 * Dx rc))
    (zslice (Pix src) (PixOffset src (minX rc + p_X delta) (y + p_Y delta)) (4 * Dx rc))) as (Hl & Hb & Hg).
  { rewrite zlen_slice by lia. done. }
  { rewrite zlen_slice by lia. done. }
  { apply bytes_ok_slice, (io_bytes src Hsrc). }
  fold (drawnRow dst y) in Hl, Hb, Hg. splits; [lia|done|]. intros x ch Hx Hch.
  rewrite Hg by (unfold Dx; lia). rewrite !zget_slice by (unfold Dx in *; lia).
  unfold chan, PixOffset. f_equal; f_equal; lia.
Qed.

Lemma drawRows_rows n y dst :
  image_ok dst -> contained rc (Bounds dst) -> minY rc <= y -> y + Z.of_nat n <= maxY rc ->
  drawRows op n y rc src delta dst =
  dst <| Pix := putRows n (PixOffset dst (minX rc) y) (Stride dst) (fun k => drawnRow dst (y + k)) (Pix dst) |>.
Proof using Hsrc He Hsc.
  revert y dst. induction n as [|n IH]; intros y dst Hd Hc Hy Hn; [by destruct dst|].
  cbn [drawRows]. change (drawRow op _ _) with (drawnRow dst y).
  destruct (drawnRow_spec dst y Hd Hc ltac:(lia)) as (Hl & Hb & _).
  assert (Hfit : forall z, minY rc <= z < maxY rc -> 0 <= PixOffset dst (minX rc) z /\
    PixOffset dst (minX rc) z + 4 * Dx rc <= zlen (Pix dst)).
  { intros z Hz. destruct (row_fits dst z (mkPt 0 0) Hd) as [H0 H1]; [unfold contained, Add in *; cbn in *; lia|done|].
    cbn [p_X p_Y] in H0, H1. by rewrite !Z.add_0_r in H0, H1. }
  destruct (Hfit y ltac:(lia)) as [Hf0 Hf1]. pose proof Hd as [? ? Hs Hp Hbp].
  apply Empty_spec in He as He'. assert (Hw : 4 * Dx rc <= Stride dst) by (unfold contained, Dx in *; lia).
  set (dst1 := dst <| Pix := _ |>). assert (Hlen : zlen (Pix dst1) = zlen (Pix dst)).
  { cbn. rewrite zlen_write, Hl by done. destruct (_ =? 0); lia. }
  assert (Hd1 : image_ok dst1) by (constructor; try done; [by rewrite Hlen|by apply bytes_ok_write]).
  rewrite (IH (y + 1) dst1 Hd1); [|done|lia|lia]. rewrite putRows_first. rewrite Z.add_0_r.
  change (Stride dst1) with (Stride dst).
  replace (PixOffset dst1 (minX rc) (y + 1)) with (PixOffset dst (minX rc) y + Stride dst) by (unfold PixOffset; cbn; lia).
  transitivity (dst <| Pix := putRows n (PixOffset dst (minX rc) y + Stride dst) (Stride dst)
    (fun k => drawnRow dst1 (y + 1 + k)) (Pix dst1) |>); [done|]. cbn [set_field]. f_equal.
  apply putRows_ext. intros k Hk. replace (y + (k + 1)) with (y + 1 + k) by lia.
  unfold drawnRow. f_equal. destruct (Hfit (y + 1 + k) ltac:(lia)) as [Hk0 Hk1].
  change (PixOffset dst1) with (PixOffset dst). apply zslice_agree; try lia; [unfold Dx; lia|].
  intros i Hi. cbn [Pix dst1 set_field]. apply zget_write_out; [done|lia|]. rewrite Hl. right.
  unfold PixOffset in *. nia.
Qed.
End DrawSpec.

Lemma Draw_spec dst rect src sp op :
  image_ok dst -> image_ok src ->
  let delta := mkPt (p_X sp - minX rect) (p_Y sp - minY rect) in
  image_ok (Draw dst rect src sp op) /\ Bounds (Draw dst rect src sp op) = Bounds dst /\
  forall x y ch, inside (Bounds dst) x y -> 0 <= ch < 4 ->
    chan (Draw dst rect src sp op) x y ch =
    if insideb rect x y && insideb (Bounds src) (x + p_X delta) (y + p_Y delta)
    then drawChannel op (chan dst x y ch) (chan src (x + p_X delta) (y + p_Y delta) ch)
           (chan src (x + p_X delta) (y + p_Y delta) 3)
    else chan dst x y ch.
Proof.
  intros Hd Hs delta. unfold Draw. fold delta. cbv zeta.
  set (rc := Intersect (Intersect rect (Bounds dst)) (Sub (Bounds src) delta)).
  assert (Hrc : forall x y, inside (Bounds dst) x y -> insideb rc x y =
    insideb rect x y && insideb (Bounds src) (x + p_X delta) (y + p_Y delta)).
  { intros x y Hxy. unfold rc. rewrite !insideb_Intersect, insideb_Sub, (insideb_true (Bounds dst)) by done.
    by rewrite andb_true_r. }
  destruct (Empty rc) eqn:He.
  { splits; try done. intros x y ch Hxy Hch. rewrite <- Hrc by done.
    destruct (insideb_spec rc x y) as [[] |]; [|done]. unfold Empty in He. apply orb_true_iff in He. rewrite !Z.leb_le in He. lia. }
  apply Empty_spec in He as He'.
  destruct (Intersect_cases (Intersect rect (Bounds dst)) (Sub (Bounds src) delta)) as [Hz|Hz]; fold rc in Hz;
    [rewrite Hz in He'; cbn in He'; lia|]. destruct Hz as (_ & H1 & H2 & H3 & H4 & H5 & H6 & H7 & H8).
  assert (Hc : contained rc (Bounds dst)).
  { destruct (Intersect_cases rect (Bounds dst)) as [Hz|Hz]; [|unfold contained; lia].
    rewrite Hz in H1, H2. cbn in *. lia. }
  assert (Hsc : contained (Add rc delta) (Bounds src)) by (unfold contained, Sub, Add in *; cbn in *; lia).
  rewrite (drawRows_rows op rc src delta Hs He Hsc); [|done|done|lia|unfold Dy; lia].
  set (rows := fun k : Z => _).
  assert (Hrows : forall k, 0 <= k < Dy rc -> zlen (rows k) = 4 * Dx rc /\ bytes_ok (rows k)).
  { intros k Hk. destruct (drawnRow_spec op rc src delta Hs He Hsc dst (minY rc + k)) as (? & ? & _); [done|done|unfold Dy in Hk; lia|done]. }
  splits; [by apply rect_rows_ok|done|]. intros x y ch Hxy Hch. rewrite rect_rows_chan by done. rewrite (Hrc x y Hxy).
  destruct (insideb rect x y && _) eqn:E; [|done]. rewrite <- (Hrc x y Hxy) in E.
  destruct (insideb_spec rc x y) as [[Hx Hy]|]; [|done]. unfold rows. rewrite Zplus_minus.
  destruct (drawnRow_spec op rc src delta Hs He Hsc dst y) as (_ & _ & Hg); [done|done|lia|]. by apply Hg.
Qed.

Definition image_opt (o : option RGBA) : Prop := forall img, o = Some img -> image_ok img.

(** The composition: every pixel of the frame, under the cursor where it is. *)
Definition cursorOver (frame : RGBA) (cursor : DisplayCursor) (x y ch : Z) : Z :=
  match c_Image cursor with
  | None => chan frame x y ch
  | Some shape =>
      let x' := x - c_X cursor + minX (Bounds shape) in
      let y' := y - c_Y cursor + minY (Bounds shape) in
      if insideb (Bounds shape) x' y' then overChannel (chan frame x y ch) (chan shape x' y' ch) (chan shape x' y' 3)
      else chan frame x y ch
  end.

Lemma compositeCursor_spec frame storage cursor :
  image_ok frame -> image_opt storage -> image_opt (c_Image cursor) ->
  let '(img, storage') := compositeCursor frame storage cursor in
  image_ok img /\ image_opt storage' /\ Bounds img = Bounds frame /\
  forall x y ch, inside (Bounds frame) x y -> 0 <= ch < 4 -> chan img x y ch = cursorOver frame cursor x y ch.
Proof.
  intros Hf Hst Hc. unfold compositeCursor, cursorOver. destruct (c_Image cursor) as [shape|] eqn:Ei; [|done].
  specialize (Hc shape eq_refl). set (rect := Add (Bounds shape) _).
  assert (Hr : forall x y, insideb rect x y =
    insideb (Bounds shape) (x - c_X cursor + minX (Bounds shape)) (y - c_Y cursor + minY (Bounds shape))).
  { intros x y. unfold rect. rewrite insideb_Add. cbn [p_X p_Y]. f_equal; lia. }
  destruct (Overlaps rect (Bounds frame)) eqn:Ho; cbn [negb].
  - set (img0 := match storage with Some img => _ | None => _ end).
    assert (H0 : image_ok img0 /\ Bounds img0 = Bounds frame).
    { pose proof (NewRGBA_ok (Bounds frame) (io_dx _ Hf) (io_dy _ Hf)) as Hn. unfold img0.
      destruct storage as [img|]; [|done]. destruct (decide _); [|done]. split; [by apply Hst|done]. }
    destruct H0 as [H0 Hb0]. destruct (Draw_spec img0 (Bounds img0) frame (Min (Bounds frame)) Src H0 Hf) as (H1 & Hb1 & Hg1).
    set (img1 := Draw img0 _ _ _ _) in *.
    destruct (Draw_spec img1 rect shape (Min (Bounds shape)) Over H1 Hc) as (H2 & Hb2 & Hg2). set (img2 := Draw img1 _ _ _ _) in *.
    splits; [done|by intros ? [= <-]|congruence|]. intros x y ch Hxy Hch. rewrite Hb1, Hb0 in Hg2. rewrite Hg2 by done.
    assert (Hframe : forall k, 0 <= k < 4 -> chan img1 x y k = chan frame x y k).
    { intros k Hk. rewrite Hb0 in Hg1. rewrite Hg1 by done. cbn [p_X p_Y Min].
      replace (x + (minX (Bounds frame) - minX (Bounds frame))) with x by lia.
      replace (y + (minY (Bounds frame) - minY (Bounds frame))) with y by lia. by rewrite insideb_true. }
    cbn [p_X p_Y Min drawChannel]. rewrite Hr, !Hframe by done. unfold rect, Add; cbn [minX minY p_X p_Y].
    replace (x + (minX (Bounds shape) - (minX (Bounds shape) + (c_X cursor - minX (Bounds shape)))))
      with (x - c_X cursor + minX (Bounds shape)) by lia.
    replace (y + (minY (Bounds shape) - (minY (Bounds shape) + (c_Y cursor - minY (Bounds shape)))))
      with (y - c_Y cursor + minY (Bounds shape)) by lia.
    by rewrite andb_diag.
  - splits; try done. intros x y ch Hxy Hch. cbv zeta. rewrite <- Hr.
    destruct (insideb_spec rect x y) as [Hin|]; [|done].
    assert (Ho' : Overlaps rect (Bounds frame) = true); [|congruence].
    unfold Overlaps, inside in *. rewrite !andb_true_iff, !negb_true_iff, !Empty_spec, !Z.ltb_lt. lia.
Qed.

(** A snapshot of a whole resource. *)
Lemma resourceImage_ok res cursor :
  pixels_ok res -> exists img, resourceImage res cursor = Some img /\ image_ok img /\ Bounds img = resBounds res.
Proof.
  intros Hres. unfold resourceImage, resourceImageInto. destruct Hres as [Hw Hh ? ?] eqn:E.
  destruct (resourceImageRectInto_spec res cursor (NewRGBA (resBounds res)) (resBounds res) (mkPt 0 0) Hres)
    as (img & Hi & Ho & Hb & _); [apply NewRGBA_ok; unfold Dx, Dy, resBounds, Rect; cbn; lia|]. by exists img.
Qed.
