(* ===== verification/VirtioGpu.v ===== *)
(** The virtio graphics device (src/internal/virtio/gpu.go).

    The display is its environment: which of the optional interfaces it
    implements, and the calls it received. *)

From S2P Require Import Prelude Bytes GuestMem VirtioModern VirtioQueue GpuImage.

Definition ErrNoGPUReq : error := EMsg "no virtio-gpu request".
Definition ErrGPUDisplaySize : error :=
  EMsg "GPU display size must be even, 200..4096 per dimension, and at most 4096x2160 pixels".
Definition ErrClosedPipe : error := EMsg "io: read/write on closed pipe".

Definition gpuControlQueue : Z := 0.
Definition gpuCursorQueue : Z := 1.
Definition gpuNumQueues : Z := 2.
Definition gpuCtrlHdrLen : Z := 24.
Definition gpuRectLen : Z := 16.
Definition gpuDisplayOneLen : Z := 24.
Definition gpuMaxScanouts : Z := 16.
Definition gpuConfigLen : Z := 16.
Definition gpuNumScanouts : Z := 1.
Definition gpuDefaultWidth : Z := 1024.
Definition gpuDefaultHeight : Z := 768.
Definition gpuCursorSize : Z := 64.
Definition gpuEventDisplay : Z := 1.
Definition gpuMaxDimension : Z := 4096.
Definition gpuMaxPixels : Z := 4096 * 2160.
Definition gpuMaxResources : Z := 1024.
Definition gpuResourceLimit : Z := 256 * 1024 * 1024.
Definition gpuMaxBacking : Z := gpuMaxPixels * gpuBytesPerPixel / 4096.
Definition gpuMaxRequest : Z := gpuCtrlHdrLen + 8 + gpuMaxBacking * 16.
Definition gpuFlagFence : Z := 0x1.

Definition gpuCmdGetDisplayInfo : Z := 0x0100.
Definition gpuCmdResourceCreate2D : Z := 0x0101.
Definition gpuCmdResourceUnref : Z := 0x0102.
Definition gpuCmdSetScanout : Z := 0x0103.
Definition gpuCmdResourceFlush : Z := 0x0104.
Definition gpuCmdTransferToHost2D : Z := 0x0105.
Definition gpuCmdResourceAttachBacking : Z := 0x0106.
Definition gpuCmdResourceDetachBacking : Z := 0x0107.
Definition gpuCmdUpdateCursor : Z := 0x0300.
Definition gpuCmdMoveCursor : Z := 0x0301.

Definition gpuRespOKNoData : Z := 0x1100.
Definition gpuRespOKDisplayInfo : Z := 0x1101.
Definition gpuRespErrUnspec : Z := 0x1200.
Definition gpuRespErrOutOfMemory : Z := 0x1201.
Definition gpuRespErrInvalidScanoutID : Z := 0x1202.
Definition gpuRespErrInvalidResourceID : Z := 0x1203.
Definition gpuRespErrInvalidParameter : Z := 0x1205.

(** ** The display *)

Inductive displayCall : Type :=
  | Flush (width height : Z) (img : RGBA)
  | FlushDamage (width height : Z) (img : RGBA) (damage : list Rectangle)
  | SetCursor (cursor : DisplayCursor)
  | GraphicsReset
  | CloseDisplay.

(** [isCursor], [isDamage] and [isReset]: the display implements
    [CursorDisplay], [DamageDisplay] and [GraphicsResetDisplay].  Its errors are
    only logged, except that of [Close]. *)
Record Display : Type := mkDisplay {
  isCursor : bool;
  isDamage : bool;
  isReset : bool;
  disp_closeErr : option error;
  disp_calls : list displayCall
}.
#[export] Instance Display_eta : Settable Display := fun r =>
  mkDisplay (isCursor r) (isDamage r) (isReset r) (disp_closeErr r) (disp_calls r).

Definition callDisplay (c : displayCall) (p : Display) : Display := p <| disp_calls := disp_calls p ++ [c] |>.

(** ** State *)

Record gpuCursor : Type := mkGpuCursor { cur_image : option RGBA; cur_x : Z; cur_y : Z; cur_hotX : Z; cur_hotY : Z }.
#[export] Instance gpuCursor_eta : Settable gpuCursor := fun r =>
  mkGpuCursor (cur_image r) (cur_x r) (cur_y r) (cur_hotX r) (cur_hotY r).

(** The one scanout is [scanout]; [g_kick] counts the elements of that channel. *)
Record gpuDev : Type := mkGpuDev {
  g_width : Z;
  g_height : Z;
  display : option Display;
  events : Z;
  resourceBytes : Z;
  g_closed : bool;
  g_closeErr : option error;
  resources : gmap Z gpuResource;
  scanout : Z;
  scanoutRect : Rectangle;
  frame : option RGBA;
  composite : option RGBA;
  g_cursor : gpuCursor;
  g_VirtQueue : list (option SplitQueue);
  g_LastAvailIdx : list Z;
  g_kick : Z
}.
#[export] Instance gpuDev_eta : Settable gpuDev := fun r =>
  mkGpuDev (g_width r) (g_height r) (display r) (events r) (resourceBytes r) (g_closed r) (g_closeErr r) (resources r)
    (scanout r) (scanoutRect r) (frame r) (composite r) (g_cursor r) (g_VirtQueue r) (g_LastAvailIdx r) (g_kick r).

Definition GPU : Type := ModernTransport * gpuDev.

Definition updG (f : gpuDev -> gpuDev) : M GPU unit := gupd (fun s => (fst s, f (snd s))).
Definition orPanic {S A} (o : option A) : M S A := match o with Some a => ret a | None => panic end.

Definition noCursor : gpuCursor := mkGpuCursor None 0 0 0 0.

(** ** Presentation *)

(** [present]: the cursor to displays that take it, the composed desktop to the
    others. *)
Definition displayCursor (c : gpuCursor) : DisplayCursor :=
  mkDisplayCursor (cur_image c) (cur_x c) (cur_y c) (cur_hotX c) (cur_hotY c).

Definition present (d : gpuDev) : gpuDev :=
  match display d with
  | None => d
  | Some p =>
      if isCursor p then d <| display := Some (callDisplay (SetCursor (displayCursor (g_cursor d))) p) |>
      else match frame d with
      | None => d
      | Some f =>
          if scanout d =? 0 then d
          else
            let '(img, storage) := compositeCursor f (composite d) (displayCursor (g_cursor d)) in
            d <| composite := storage |>
              <| display := Some (callDisplay (Flush (Dx (Bounds img)) (Dy (Bounds img)) img) p) |>
      end
  end.

(** [flushDamage]; [None] is a slice bounds panic. *)
Definition flushDamage (res : gpuResource) (damage : Rectangle) (d : gpuDev) : option gpuDev :=
  match display d with
  | None => Some d
  | Some p =>
      if (res_width res =? 0) || (res_height res =? 0) then Some d
      else
        let source := if Empty (scanoutRect d) then Rect 0 0 (res_width res) (res_height res) else scanoutRect d in
        let damage := Intersect damage source in
        if Empty damage then Some d
        else
          let bounds := Rect 0 0 (Dx source) (Dy source) in
          let '(f, damage) :=
            match frame d with
            | Some f => if decide (Bounds f = bounds) then (f, damage) else (NewRGBA bounds, source)
            | None => (NewRGBA bounds, source)
            end in
          match resourceImageRectInto res false f damage (Min source) with
          | None => None
          | Some f =>
              let d := d <| frame := Some f |> in
              Some (if isCursor p then
                      d <| display := Some (callDisplay
                             (if isDamage p then FlushDamage (Dx bounds) (Dy bounds) f [Sub damage (Min source)]
                              else Flush (Dx bounds) (Dy bounds) f) p) |>
                    else present d)
          end
  end.

(** ** The device behind the transport *)

Definition gpuReadDeviceConfig (d : gpuDev) (offset : Z) (data : list Z) : list Z :=
  let cfg := put_le (put_le (zeros gpuConfigLen) 0 4 (events d)) 8 4 gpuNumScanouts in
  let data := zeros (zlen data) in
  if zlen cfg <=? offset then data
  else
    let last := Z.min (offset + zlen data) (zlen cfg) in
    zcopy data (zslice cfg offset (last - offset)).

(** The bytes of a write that fall on [events_clear]; [i] counts the bytes of
    [data] passed. *)
Fixpoint clearBytes (offset i : Z) (data clear : list Z) : list Z :=
  match data with
  | [] => clear
  | value :: data =>
      clearBytes offset (i + 1) data
        (if (offset <=? 7) && (i <=? 7 - offset) && (4 <=? offset + i) then zinsert (offset + i - 4) value clear else clear)
  end.

Definition gpuWriteDeviceConfig (offset : Z) (data : list Z) (d : gpuDev) : gpuDev :=
  d <| events := events d &^ le_uint32 (clearBytes offset 0 data [0; 0; 0; 0]) 0 |>.

Definition gpuNotify (idx : Z) (d : gpuDev) : gpuDev := d <| g_kick := Z.min QueueSize (g_kick d + 1) |>.

Definition gpuQueueReady (idx : Z) (q : SplitQueue) (d : gpuDev) : gpuDev :=
  if negb (g_closed d) && (0 <=? idx) && (idx <? gpuNumQueues) then
    gpuNotify idx (d <| g_VirtQueue := zinsert idx (Some q) (g_VirtQueue d) |>
                     <| g_LastAvailIdx := zinsert idx 0 (g_LastAvailIdx d) |>)
  else d.

Definition resetLocked (d : gpuDev) : gpuDev :=
  d <| g_VirtQueue := [None; None] |> <| g_LastAvailIdx := [0; 0] |> <| resources := ∅ |> <| resourceBytes := 0 |>
    <| scanout := 0 |> <| scanoutRect := ZR |> <| frame := None |> <| composite := None |>
    <| g_cursor := noCursor |> <| events := 0 |>.

Definition gpuReset (d : gpuDev) : gpuDev :=
  let hadCursor := bool_decide (is_Some (cur_image (g_cursor d))) in
  let d := resetLocked d in
  if g_closed d then d
  else
    let d := if hadCursor then present d else d in
    match display d with
    | Some p => if isReset p then d <| display := Some (callDisplay GraphicsReset p) |> else d
    | None => d
    end.

#[export] Instance gpu_device : ModernDevice gpuDev := {
  DeviceFeatures _ := 0;
  NumQueues _ := gpuNumQueues;
  DeviceConfigLen _ := gpuConfigLen;
  ReadDeviceConfig := gpuReadDeviceConfig;
  WriteDeviceConfig := gpuWriteDeviceConfig;
  QueueReady := gpuQueueReady;
  Notify := gpuNotify;
  Reset := Some gpuReset
}.

Definition NewGPU (p : option Display) (mem : list Z) (guest : list guestStores) (line : irqLine) : GPU :=
  let d := mkGpuDev gpuDefaultWidth gpuDefaultHeight p 0 0 false None ∅ 0 ZR None None noCursor [None; None] [0; 0] 0 in
  (NewModernTransport d mem guest line, d).

(** [Close]; the error of the first call is kept. *)
Definition gpuClose (d : gpuDev) : option error * gpuDev :=
  let d := if g_closed d then d
           else
             let d := resetLocked (d <| g_closed := true |>) in
             match display d with
             | Some p => d <| display := Some (callDisplay CloseDisplay p) |> <| g_closeErr := disp_closeErr p |>
             | None => d
             end in
  (g_closeErr d, d).

(** The arguments are Go ints. *)
Definition SetDisplaySize (width height : Z) : M GPU unit :=
  if (width <? 200) || (height <? 200) || (gpuMaxDimension <? width) || (gpuMaxDimension <? height) ||
     negb (Z.rem width 2 =? 0) || negb (Z.rem height 2 =? 0) || (gpuMaxPixels <? u64 (u64 width * u64 height))
  then throw ErrGPUDisplaySize
  else
    let! s := gget in
    if g_closed (snd s) then throw ErrClosedPipe
    else if (g_width (snd s) =? u32 width) && (g_height (snd s) =? u32 height) then ret tt
    else
      do! updG (fun d => d <| g_width := u32 width |> <| g_height := u32 height |>
                           <| events := events d ||| gpuEventDisplay |>) in
      onT ConfigChanged.

(** ** Reading the backing of a resource *)

Record gpuBackingReader : Type := mkReader { entries : list gpuMemEntry; pos : Z }.

(** [read]: the reader afterwards and the new contents of [dst]. *)
Fixpoint read (fuel : nat) (r : gpuBackingReader) (off : Z) (dst : list Z) : M GPU (gpuBackingReader * list Z) :=
  match fuel with
  | O => fun s => (OutOfFuel, s)
  | S fuel =>
      match entries r with
      | [] => ret (r, dst)
      | e :: rest =>
          if zlen dst =? 0 then ret (r, dst)
          else
            let entryEnd := u64 (pos r + e_length e) in
            if entryEnd <=? off then read fuel (mkReader rest entryEnd) off dst
            else
              let skip := u64 (off - pos r) in
              let n := Z.min (u64 (e_length e - skip)) (zlen dst) in
              let src := u64 (e_addr e + skip) in
              let! s := gget in
              let! chunk := (if ValidRange (Mem (fst s)) src n then onT (memLoad src n)
                             else ret (take (Z.to_nat n) dst)) in
              let! rest := read fuel r (u64 (off + n)) (drop (Z.to_nat n) dst) in
              ret (fst rest, chunk ++ snd rest)
      end
  end.

(** Two rounds per entry, and the last. *)
Definition readFuel (r : gpuBackingReader) : nat := 2 * length (entries r) + 2.

Definition backingRead (res : gpuResource) (off : Z) (dst : list Z) : M GPU (list Z) :=
  let r := mkReader (res_backing res) 0 in
  let! p := read (readFuel r) r off dst in ret (snd p).

(** The row loop of [transferToHost2D], with [n] rows left: the new pixels. *)
Fixpoint transferRows (n : nat) (row : Z) (r : gpuBackingReader) (stride x y w offset : Z) (data : list Z) : M GPU (list Z) :=
  match n with
  | O => ret data
  | S n =>
      let src := u64 (offset + u64 (stride * row)) in
      let dst := u32 (u32 (u32 (y + row) * stride) + u32 (x * gpuBytesPerPixel)) in
      if zlen data <=? dst then ret data
      else
        let len := u32 (w * gpuBytesPerPixel) in
        let len := if zlen data <? dst + len then zlen data - dst else len in
        let! p := (let! b := orPanic (slice data dst (dst + len)) in read (readFuel r) r src b) in
        transferRows n (row + 1) (fst p) stride x y w offset (zwrite data dst (snd p))
  end.

Definition transferToHost2D (res : gpuResource) (x y w h offset : Z) : M GPU (list Z) :=
  let stride := u32 (res_width res * gpuBytesPerPixel) in
  if (offset =? 0) && (x =? 0) && (y =? 0) && (w =? res_width res) then
    let total := stride * Z.min h (res_height res) in
    let total := Z.min total (zlen (res_data res)) in
    let! b := orPanic (slice (res_data res) 0 total) in
    let! b := backingRead res 0 b in
    ret (zwrite (res_data res) 0 b)
  else transferRows (Z.to_nat h) 0 (mkReader (res_backing res) 0) stride x y w offset (res_data res).

(** ** Control commands *)

Definition reqU32 (req : list Z) (o : Z) : Z := le_uint32 req (gpuCtrlHdrLen + o).
Definition reqU64 (req : list Z) (o : Z) : Z := le_uint64 req (gpuCtrlHdrLen + o).

Definition respNoData (respType : Z) : list Z := put_le (zeros gpuCtrlHdrLen) 0 4 respType.

Definition cmdGetDisplayInfo : M GPU (list Z) :=
  let! s := gget in
  let b := zeros (gpuCtrlHdrLen + gpuMaxScanouts * gpuDisplayOneLen) in
  let b := put_le b 0 4 gpuRespOKDisplayInfo in
  let b := put_le b (gpuCtrlHdrLen + 8) 4 (g_width (snd s)) in
  let b := put_le b (gpuCtrlHdrLen + 12) 4 (g_height (snd s)) in
  ret (put_le b (gpuCtrlHdrLen + 16) 4 1).

Definition cmdResourceCreate2D (req : list Z) : M GPU (list Z) :=
  if zlen req <? gpuCtrlHdrLen + 16 then ret (respNoData gpuRespErrUnspec)
  else
    let id := reqU32 req 0 in
    let format := reqU32 req 4 in
    let width := reqU32 req 8 in
    let height := reqU32 req 12 in
    let! s := gget in
    if (id =? 0) || bool_decide (is_Some (resources (snd s) !! id)) then ret (respNoData gpuRespErrInvalidResourceID)
    else
      let pixels := u64 (width * height) in
      if (width =? 0) || (height =? 0) || (gpuMaxDimension <? width) || (gpuMaxDimension <? height) ||
         (gpuMaxPixels <? pixels)
      then ret (respNoData gpuRespErrInvalidParameter)
      else if negb (existsb (Z.eqb format) gpuFormats) then ret (respNoData gpuRespErrInvalidParameter)
      else
        let bytes := u64 (pixels * gpuBytesPerPixel) in
        if (u64 (gpuResourceLimit - resourceBytes (snd s)) <? bytes) ||
           (gpuMaxResources <=? Z.of_nat (size (resources (snd s))))
        then ret (respNoData gpuRespErrOutOfMemory)
        else
          do! updG (fun d => d <| resources := <[id := mkResource width height format (zeros bytes) []]> (resources d) |>
                               <| resourceBytes := u64 (resourceBytes d + bytes) |>) in
          ret (respNoData gpuRespOKNoData).

Definition cmdResourceUnref (req : list Z) : M GPU (list Z) :=
  if zlen req <? gpuCtrlHdrLen + 8 then ret (respNoData gpuRespErrUnspec)
  else
    let id := reqU32 req 0 in
    let! s := gget in
    do! (match resources (snd s) !! id with
         | Some res =>
             do! updG (fun d => d <| resourceBytes := u64 (resourceBytes d - zlen (res_data res)) |>
                                  <| resources := delete id (resources d) |>) in
             if scanout (snd s) =? id then
               updG (fun d => d <| scanout := 0 |> <| scanoutRect := ZR |> <| frame := None |> <| composite := None |>)
             else ret tt
         | None => ret tt
         end) in
    ret (respNoData gpuRespOKNoData).

Definition bindScanout (resourceID : Z) (rect : Rectangle) (d : gpuDev) : gpuDev :=
  let d := if negb (scanout d =? resourceID) || negb (bool_decide (scanoutRect d = rect))
           then d <| frame := None |> <| composite := None |> else d in
  d <| scanout := resourceID |> <| scanoutRect := rect |>.

Definition cmdSetScanout (req : list Z) : M GPU (list Z) :=
  if zlen req <? gpuCtrlHdrLen + gpuRectLen + 8 then ret (respNoData gpuRespErrUnspec)
  else
    let scanoutID := reqU32 req gpuRectLen in
    let resourceID := reqU32 req (gpuRectLen + 4) in
    if gpuNumScanouts <=? scanoutID then ret (respNoData gpuRespErrInvalidScanoutID)
    else if resourceID =? 0 then do! updG (bindScanout 0 ZR) in ret (respNoData gpuRespOKNoData)
    else
      let! s := gget in
      match resources (snd s) !! resourceID with
      | None => ret (respNoData gpuRespErrInvalidResourceID)
      | Some res =>
          let x := reqU32 req 0 in
          let y := reqU32 req 4 in
          let w := reqU32 req 8 in
          let h := reqU32 req 12 in
          if (w =? 0) || (h =? 0) || (res_width res <? x) || (res_height res <? y) ||
             (u32 (res_width res - x) <? w) || (u32 (res_height res - y) <? h)
          then ret (respNoData gpuRespErrInvalidParameter)
          else
            do! updG (bindScanout resourceID (Rect x y (u32 (x + w)) (u32 (y + h)))) in
            ret (respNoData gpuRespOKNoData)
      end.

Definition cmdResourceFlush (req : list Z) : M GPU (list Z) :=
  if zlen req <? gpuCtrlHdrLen + gpuRectLen + 8 then ret (respNoData gpuRespErrUnspec)
  else
    let resourceID := reqU32 req gpuRectLen in
    let! s := gget in
    match resources (snd s) !! resourceID with
    | None => ret (respNoData gpuRespErrInvalidResourceID)
    | Some res =>
        let x := reqU32 req 0 in
        let y := reqU32 req 4 in
        let w := reqU32 req 8 in
        let h := reqU32 req 12 in
        if (res_width res <? x) || (res_height res <? y) ||
           (u32 (res_width res - x) <? w) || (u32 (res_height res - y) <? h)
        then ret (respNoData gpuRespErrInvalidParameter)
        else
          do! (if scanout (snd s) =? resourceID then
                 let! d := orPanic (flushDamage res (Rect x y (u32 (x + w)) (u32 (y + h))) (snd s)) in
                 updG (fun _ => d)
               else ret tt) in
          ret (respNoData gpuRespOKNoData)
    end.

(** Replace the contents of a resource, which the map holds by pointer. *)
Definition setResource (id : Z) (res : gpuResource) : M GPU unit :=
  updG (fun d => d <| resources := <[id := res]> (resources d) |>).

Definition cmdTransferToHost2D (req : list Z) : M GPU (list Z) :=
  if zlen req <? gpuCtrlHdrLen + gpuRectLen + 16 then ret (respNoData gpuRespErrUnspec)
  else
    let x := reqU32 req 0 in
    let y := reqU32 req 4 in
    let w := reqU32 req 8 in
    let h := reqU32 req 12 in
    let offset := reqU64 req gpuRectLen in
    let resourceID := reqU32 req (gpuRectLen + 8) in
    let! s := gget in
    match resources (snd s) !! resourceID with
    | None => ret (respNoData gpuRespErrInvalidResourceID)
    | Some res =>
        if (res_width res <? x) || (res_height res <? y) || (u32 (res_width res - x) <? w) ||
           (u32 (res_height res - y) <? h) || (zlen (res_data res) <? offset)
        then ret (respNoData gpuRespErrInvalidParameter)
        else
          let! data := transferToHost2D res x y w h offset in
          do! setResource resourceID (res <| res_data := data |>) in
          ret (respNoData gpuRespOKNoData)
    end.

(** The entries of an attach request from [off], [n] of them left; [None] when
    one is not guest memory. *)
Fixpoint readEntries (mem req : list Z) (n : nat) (off : Z) : option (list gpuMemEntry) :=
  match n with
  | O => Some []
  | S n =>
      if zlen req <? off + 16 then Some []
      else
        let addr := le_uint64 req off in
        let length := le_uint32 req (off + 8) in
        if negb (ValidRange mem addr length) then None
        else match readEntries mem req n (off + 16) with
             | Some l => Some (mkMemEntry addr length :: l)
             | None => None
             end
  end.

Definition cmdResourceAttachBacking (req : list Z) : M GPU (list Z) :=
  if zlen req <? gpuCtrlHdrLen + 8 then ret (respNoData gpuRespErrUnspec)
  else
    let resourceID := reqU32 req 0 in
    let nr := reqU32 req 4 in
    let! s := gget in
    match resources (snd s) !! resourceID with
    | None => ret (respNoData gpuRespErrInvalidResourceID)
    | Some res =>
        if (gpuMaxBacking <? nr) || (zlen req - (gpuCtrlHdrLen + 8) <? nr * 16)
        then ret (respNoData gpuRespErrInvalidParameter)
        else match readEntries (Mem (fst s)) req (Z.to_nat nr) (gpuCtrlHdrLen + 8) with
        | None => ret (respNoData gpuRespErrInvalidParameter)
        | Some l =>
            do! setResource resourceID (res <| res_backing := l |>) in
            ret (respNoData gpuRespOKNoData)
        end
    end.

Definition cmdResourceDetachBacking (req : list Z) : M GPU (list Z) :=
  if zlen req <? gpuCtrlHdrLen + 8 then ret (respNoData gpuRespErrUnspec)
  else
    let! s := gget in
    do! (match resources (snd s) !! reqU32 req 0 with
         | Some res => setResource (reqU32 req 0) (res <| res_backing := [] |>)
         | None => ret tt
         end) in
    ret (respNoData gpuRespOKNoData).

Definition echoFence (req resp : list Z) : list Z :=
  if (zlen req <? gpuCtrlHdrLen) || (zlen resp <? gpuCtrlHdrLen) then resp
  else if le_uint32 req 4 &&& gpuFlagFence =? 0 then resp
  else zwrite (put_le resp 4 4 gpuFlagFence) 8 (zslice req 8 16).

(** The switch of [handleControl]. *)
Definition runCommand (req : list Z) : M GPU (list Z) :=
  let cmd := le_uint32 req 0 in
  if cmd =? gpuCmdGetDisplayInfo then cmdGetDisplayInfo
  else if cmd =? gpuCmdResourceCreate2D then cmdResourceCreate2D req
  else if cmd =? gpuCmdResourceUnref then cmdResourceUnref req
  else if cmd =? gpuCmdSetScanout then cmdSetScanout req
  else if cmd =? gpuCmdResourceFlush then cmdResourceFlush req
  else if cmd =? gpuCmdTransferToHost2D then cmdTransferToHost2D req
  else if cmd =? gpuCmdResourceAttachBacking then cmdResourceAttachBacking req
  else if cmd =? gpuCmdResourceDetachBacking then cmdResourceDetachBacking req
  else ret (respNoData gpuRespErrUnspec).

Definition handleControl (req : list Z) : M GPU (list Z) :=
  if zlen req <? gpuCtrlHdrLen then ret (respNoData gpuRespErrUnspec)
  else let! resp := runCommand req in ret (echoFence req resp).

(** ** Cursor commands *)

Definition handleCursor (req : list Z) : M GPU bool :=
  if zlen req <? gpuCtrlHdrLen + 32 then ret false
  else if gpuNumScanouts <=? reqU32 req 0 then ret false
  else
    let move := updG (fun d => d <| g_cursor := g_cursor d <| cur_x := i32 (reqU32 req 4) |>
                                                           <| cur_y := i32 (reqU32 req 8) |> |>) in
    let cmd := le_uint32 req 0 in
    if cmd =? gpuCmdUpdateCursor then
      let resourceID := reqU32 req 16 in
      if resourceID =? 0 then
        do! updG (fun d => d <| g_cursor := g_cursor d <| cur_image := None |> |>) in
        do! move in ret true
      else
        let hotX := reqU32 req 20 in
        let hotY := reqU32 req 24 in
        let! s := gget in
        match resources (snd s) !! resourceID with
        | None => ret false
        | Some res =>
            if negb (res_width res =? gpuCursorSize) || negb (res_height res =? gpuCursorSize) ||
               (gpuCursorSize <=? hotX) || (gpuCursorSize <=? hotY)
            then ret false
            else
              let! img := orPanic (resourceImage res true) in
              do! updG (fun d => d <| g_cursor := g_cursor d <| cur_image := Some img |>
                                                  <| cur_hotX := hotX |> <| cur_hotY := hotY |> |>) in
              do! move in ret true
        end
    else if cmd =? gpuCmdMoveCursor then do! move in ret true
    else ret false.

(** ** Queues *)

(** [collectChain]: the request and the writable segments, both empty when the
    chain is not valid. *)
Fixpoint collectChain (fuel : nat) (q : SplitQueue) (descID : Z) (visited : list bool) (req : list Z)
    (wr : list (Z * Z)) : M GPU (list Z * list (Z * Z)) :=
  match fuel with
  | O => fun s => (OutOfFuel, s)
  | S fuel =>
      if (ringSize q <=? descID) || default false (zlookup visited descID) then ret ([], [])
      else
        let! desc := onT (loadDesc q descID) in
        let! s := gget in
        if negb (d_Flags desc &^ (descFWrite ||| descFNext) =? 0) ||
           negb (ValidRange (Mem (fst s)) (d_Addr desc) (d_Len desc))
        then ret ([], [])
        else
          let next req wr :=
            if d_Flags desc &&& descFNext =? 0 then ret (req, wr)
            else collectChain fuel q (d_Next desc) (zinsert descID true visited) req wr in
          if negb (d_Flags desc &&& descFWrite =? 0) then next req (wr ++ [(d_Addr desc, d_Len desc)])
          else if negb (zlen wr =? 0) || (u64 (gpuMaxRequest - zlen req) <? d_Len desc) then ret ([], [])
          else
            let! b := onT (memLoad (d_Addr desc) (d_Len desc)) in
            next (req ++ b) wr
  end.

Fixpoint writeResponse (wr : list (Z * Z)) (resp : list Z) (written : Z) : M GPU Z :=
  match wr with
  | [] => ret written
  | (addr, length) :: wr =>
      if zlen resp =? 0 then ret written
      else
        let n := Z.min length (zlen resp) in
        let! s := gget in
        do! (if ValidRange (Mem (fst s)) addr n then onT (memStore addr (take (Z.to_nat n) resp)) else ret tt) in
        writeResponse wr (drop (Z.to_nat n) resp) (u32 (written + n))
  end.

Definition gpuQueueOf (d : gpuDev) (sel : Z) : option SplitQueue :=
  match zlookup (g_VirtQueue d) sel with Some (Some q) => Some q | _ => None end.
Definition gpuLastOf (d : gpuDev) (sel : Z) : Z := zget (g_LastAvailIdx d) sel.
Definition setLast (sel v : Z) (d : gpuDev) : gpuDev := d <| g_LastAvailIdx := zinsert sel v (g_LastAvailIdx d) |>.

(** One round of the loop of [process]: whether the cursor changed. *)
Definition processOne (q : SplitQueue) (sel : Z) (control : bool) : M GPU bool :=
  let! s := gget in
  let! head := onT (loadAvailRing q (gpuLastOf (snd s) sel mod ringSize q)) in
  let! chain := collectChain (Z.to_nat (QueueSize + 1)) q head (replicate (Z.to_nat QueueSize) false) [] [] in
  let! r := (if control then
               let! resp := handleControl (fst chain) in
               let! used := writeResponse (snd chain) resp 0 in ret (used, false)
             else let! changed := handleCursor (fst chain) in ret (0, changed)) in
  let! uidx := onT (loadUsedIdx q) in
  do! onT (storeUsedRing q (uidx mod ringSize q) (mkUsedElem head (fst r))) in
  do! onT (addUsedIdx q 1) in
  do! updG (fun d => setLast sel (u16 (gpuLastOf d sel + 1)) d) in
  ret (snd r).

Fixpoint processLoop (n : nat) (q : SplitQueue) (sel : Z) (control cursorChanged : bool) : M GPU bool :=
  match n with
  | O => ret cursorChanged
  | S n =>
      let! idx := onT (loadAvailIdx q) in
      let! s := gget in
      if gpuLastOf (snd s) sel =? idx then ret cursorChanged
      else
        let! changed := processOne q sel control in
        processLoop n q sel control (changed || cursorChanged)
  end.

Definition process (sel : Z) (control : bool) : M GPU unit :=
  let! s := gget in
  if g_closed (snd s) then throw ErrClosedPipe
  else match gpuQueueOf (snd s) sel with
  | None => throw ErrVQNotInit
  | Some q =>
      let last := gpuLastOf (snd s) sel in
      let! idx := onT (loadAvailIdx q) in
      if ringSize q <? u16 (idx - last) then
        let! idx := onT (loadAvailIdx q) in
        do! updG (setLast sel idx) in throw ErrNoGPUReq
      else
        let! idx := onT (loadAvailIdx q) in
        if last =? idx then throw ErrNoGPUReq
        else
          let! changed := processLoop (Z.to_nat (ringSize q)) q sel control false in
          do! (if changed then updG present else ret tt) in
          onT Interrupt
  end.

Definition ProcessControlQueue : M GPU unit := process gpuControlQueue true.
Definition ProcessCursorQueue : M GPU unit := process gpuCursorQueue false.

(** [for f() == nil {}], with [fuel] rounds. *)
Fixpoint untilError (fuel : nat) (m : M GPU unit) : M GPU unit :=
  match fuel with
  | O => fun s => (OutOfFuel, s)
  | S fuel =>
      let! r := gtry m in
      match r with inl _ => untilError fuel m | inr _ => ret tt end
  end.

(** [drain], with a bound on the rounds of its loops. *)
Definition drain (fuel : nat) : M GPU unit :=
  do! untilError fuel ProcessControlQueue in
  do! untilError fuel ProcessCursorQueue in
  let! s := gget in
  if g_closed (snd s) then ret tt
  else do! gtry (onT ReinjectIfPending) in ret tt.

(** ** Interleavings

    The vCPU threads access the BAR, the worker processes the queues, display
    backends ask for another size, and the machine closes the device; each call
    holds the mutex of the device, so an execution is a sequence of them.
    [ActGuest] sets what the guest stores during the calls that follow. *)
Inductive gpuAction : Type :=
  | ActAccess (offset : Z) (data : list Z) (isWrite : bool)
  | ActControl
  | ActCursor
  | ActReinject
  | ActResize (width height : Z)
  | ActClose
  | ActGuest (stores : list guestStores).

Definition runAction (a : gpuAction) : M GPU unit :=
  match a with
  | ActAccess offset data isWrite => do! MMIO offset data isWrite in ret tt
  | ActControl => ProcessControlQueue
  | ActCursor => ProcessCursorQueue
  | ActReinject => let! s := gget in if g_closed (snd s) then ret tt else onT ReinjectIfPending
  | ActResize width height => SetDisplaySize width height
  | ActClose => updG (fun d => snd (gpuClose d))
  | ActGuest stores => updT (fun t => t <| guest := stores |>)
  end.

(** Every action in turn, whatever the ones before returned. *)
Fixpoint runActions (l : list gpuAction) (s : GPU) : list (result unit) * GPU :=
  match l with
  | [] => ([], s)
  | a :: l =>
      let '(r, s) := runAction a s in
      let '(rs, s) := runActions l s in (r :: rs, s)
  end.
