(* ===== verification/VirtioGpuSpec.v ===== *)
(** Correctness of the graphics device: its invariant, safety against every
    guest (register writes that are shorter than the register panic in the
    transport and are told apart), and what its commands do to the pixels. *)

From S2P Require Import Prelude Bytes GuestMem VirtioModern VirtioQueue GpuImage VirtioGpu.

(** ** Invariant *)

Record res_ok (mem : list Z) (res : gpuResource) : Prop := {
  ro_width : res_width res <= gpuMaxDimension;
  ro_height : res_height res <= gpuMaxDimension;
  ro_pixels : pixels_ok res;
  ro_format : res_format res ∈ gpuFormats;
  ro_backing : Forall (fun e => is_u64 (e_addr e) /\ is_u32 (e_length e) /\ ValidRange mem (e_addr e) (e_length e) = true)
                 (res_backing res);
  ro_count : zlen (res_backing res) <= gpuMaxBacking
}.

(** The bytes of host memory the resources hold. *)
Definition allocated (m : gmap Z gpuResource) : Z := map_fold (fun _ res acc => zlen (res_data res) + acc) 0 m.

Definition gpuQueuesOk (mem : list Z) (d : gpuDev) : Prop :=
  (exists a b, g_VirtQueue d = [a; b] /\ (forall q, a = Some q \/ b = Some q -> queue_ok mem q)) /\
  (exists i j, g_LastAvailIdx d = [i; j] /\ is_u16 i /\ is_u16 j).

(** The scanout shows a part of a resource, or nothing. *)
Definition scanoutOk (d : gpuDev) : Prop :=
  (scanout d = 0 /\ scanoutRect d = ZR) \/
  (scanout d <> 0 /\ Empty (scanoutRect d) = false /\
   exists res, resources d !! scanout d = Some res /\ contained (scanoutRect d) (resBounds res)).

Record gpuOk (mem : list Z) (d : gpuDev) : Prop := {
  go_mem : zlen mem < 2 ^ 63;
  go_queues : gpuQueuesOk mem d;
  go_zero : resources d !! 0 = None;
  go_res : map_Forall (fun _ res => res_ok mem res) (resources d);
  go_bytes : resourceBytes d = allocated (resources d);
  go_limit : resourceBytes d <= gpuResourceLimit;
  go_count : Z.of_nat (size (resources d)) <= gpuMaxResources;
  go_scanout : scanoutOk d;
  go_frame : forall f, frame d = Some f ->
    image_ok f /\ Bounds f = Rect 0 0 (Dx (scanoutRect d)) (Dy (scanoutRect d)) /\ scanout d <> 0;
  go_composite : image_opt (composite d);
  go_cursor : forall img, cur_image (g_cursor d) = Some img ->
    image_ok img /\ Bounds img = Rect 0 0 gpuCursorSize gpuCursorSize;
  go_size : is_u32 (g_width d) /\ is_u32 (g_height d) /\ is_u32 (events d)
}.

Definition ginv (s : GPU) : Prop := twf (fst s) /\ gpuOk (Mem (fst s)) (snd s).

(** *** The amount of memory *)

Lemma allocated_insert m i res :
  m !! i = None -> allocated (<[i := res]> m) = zlen (res_data res) + allocated m.
Proof. intros Hi. unfold allocated. rewrite map_fold_insert_L; [done| |done]. intros. lia. Qed.

Lemma allocated_delete m i res :
  m !! i = Some res -> allocated (delete i m) = allocated m - zlen (res_data res).
Proof.
  intros Hi. pose proof (allocated_insert (delete i m) i res (lookup_delete_eq _ _)) as H.
  rewrite insert_delete_id in H by done. lia.
Qed.

(** Replacing a resource by one of the same size. *)
Lemma allocated_replace m i res res' :
  m !! i = Some res -> zlen (res_data res') = zlen (res_data res) -> allocated (<[i := res']> m) = allocated m.
Proof.
  intros Hi Hl. rewrite <- (insert_delete_eq m i res'). rewrite allocated_insert by apply lookup_delete_eq.
  rewrite (allocated_delete _ _ _ Hi). lia.
Qed.

Lemma allocated_nonneg m : 0 <= allocated m.
Proof.
  induction m as [|i res m Hi IH] using map_ind; [done|]. rewrite allocated_insert by done.
  pose proof (zlen_nonneg (res_data res)). lia.
Qed.

(** *** Memory accesses keep the invariant *)

Lemma res_ok_len mem mem' res : zlen mem' = zlen mem -> res_ok mem res -> res_ok mem' res.
Proof.
  intros Hl []. constructor; try done. eapply list.Forall_impl; [done|]. intros e (? & ? & ?). by rewrite (ValidRange_len _ _ _ _ Hl).
Qed.

Lemma gpuQueuesOk_len mem mem' d : zlen mem' = zlen mem -> gpuQueuesOk mem d -> gpuQueuesOk mem' d.
Proof.
  intros Hl [(a & b & Hq & Ho) Hlast]. split; [|done]. exists a, b. split; [done|].
  intros q Hc. by apply (queue_ok_len _ _ _ Hl), Ho.
Qed.

Lemma gpuOk_len mem mem' d : zlen mem' = zlen mem -> gpuOk mem d -> gpuOk mem' d.
Proof.
  intros Hl []. constructor; try done; [lia|by apply (gpuQueuesOk_len mem)|].
  eapply map_Forall_impl; [done|]. intros i res. by apply res_ok_len.
Qed.

Lemma stored_yields a b t t' : in_ram (Mem t) a (zlen b) -> bytes_ok b -> stored a b t t' -> yields t t'.
Proof.
  intros [Ha Hv] Hb (t1 & Hy & ->). eapply yields_trans; [exact Hy|]. destruct (yields_mem _ _ Hy) as [Hl _].
  exists (zwrite (Mem t1) a b), (guest t1). split; [by destruct t1|].
  destruct (ValidRange_spec _ _ _ Ha (zlen_nonneg b) Hv) as [He _].
  split; [rewrite zlen_write by done; destruct (_ =? 0); lia|]. intros Hm. by apply bytes_ok_write.
Qed.

Lemma twf_yields t t' : twf t -> yields t t' -> twf t'.
Proof. intros T (m & g & -> & Hl & Hb). destruct T. constructor; cbn; auto. Qed.

Lemma ginv_yields s t' : ginv s -> yields (fst s) t' -> ginv (t', snd s).
Proof. intros [T G] Hy. split; [by eapply twf_yields|]. eapply gpuOk_len; [|exact G]. apply (yields_mem _ _ Hy). Qed.

(** Only guest memory changed. *)
Definition greads (s s' : GPU) : Prop := yields (fst s) (fst s') /\ snd s' = snd s.

Lemma greads_inv s s' : ginv s -> greads s s' -> ginv s'.
Proof. destruct s'. intros B [Hy [= ->]]. by apply (ginv_yields s). Qed.

Lemma greads_refl s : greads s s.
Proof. split; [apply yields_refl|done]. Qed.

Lemma greads_trans s1 s2 s3 : greads s1 s2 -> greads s2 s3 -> greads s1 s3.
Proof. intros [Hy1 E1] [Hy2 E2]. split; [by eapply yields_trans|congruence]. Qed.

Lemma greads_queue s s' q : greads s s' -> queue_ok (Mem (fst s)) q -> queue_ok (Mem (fst s')) q.
Proof. intros [Hy _]. apply queue_ok_len, (yields_mem _ _ Hy). Qed.

#[export] Hint Resolve greads_refl : go.

(** ** Reading the backing

    The address of byte [o] of the concatenated entries. *)
Fixpoint backingAt (ents : list gpuMemEntry) (o : Z) : option Z :=
  match ents with
  | [] => None
  | e :: rest => if o <? e_length e then Some (e_addr e + o) else backingAt rest (o - e_length e)
  end.

(** What a read from offset [o] leaves in [dst]: the bytes of the backing, and
    the old ones past its end. *)
Definition backingByte (mem : list Z) (ents : list gpuMemEntry) (o old : Z) : Z :=
  match backingAt ents o with Some a => zget mem a | None => old end.
Definition backingBytes (mem : list Z) (ents : list gpuMemEntry) (o : Z) (dst : list Z) : list Z :=
  imap (fun i old => backingByte mem ents (o + Z.of_nat i) old) dst.

Definition entry_ok (mem : list Z) (e : gpuMemEntry) : Prop :=
  is_u64 (e_addr e) /\ is_u32 (e_length e) /\ ValidRange mem (e_addr e) (e_length e) = true.
Definition total (ents : list gpuMemEntry) : Z := foldr (fun e acc => e_length e + acc) 0 ents.

Lemma total_nonneg mem ents : Forall (entry_ok mem) ents -> 0 <= total ents.
Proof. induction 1 as [|e ents (_ & He & _) _ IH]; [done|]. unfold total, is_u32 in *. cbn. lia. Qed.

Lemma total_cons e ents : total (e :: ents) = e_length e + total ents.
Proof. done. Qed.

Lemma zlen_backingBytes mem ents o dst : zlen (backingBytes mem ents o dst) = zlen dst.
Proof. unfold zlen, backingBytes. by rewrite length_imap. Qed.

Lemma zget_backingBytes mem ents o dst i :
  0 <= i < zlen dst -> zget (backingBytes mem ents o dst) i = backingByte mem ents (o + i) (zget dst i).
Proof.
  intros Hi. rewrite (zget_lookup (backingBytes _ _ _ _)). pose proof (zlookup_zget dst i Hi) as Hd. unfold zlookup in *.
  destruct (i <? 0) eqn:E; zbool; [lia|]. unfold backingBytes. rewrite list_lookup_imap, Hd. cbn. by rewrite Z2Nat.id by lia.
Qed.

Lemma backingBytes_nil mem ents o : backingBytes mem ents o [] = [].
Proof. done. Qed.

(** A chunk within the first entry. *)
Lemma backingBytes_chunk mem e rest o dst n :
  entry_ok mem e -> 0 <= o -> 0 < n <= zlen dst -> o + n <= e_length e ->
  zslice mem (e_addr e + o) n ++ backingBytes mem (e :: rest) (o + n) (drop (Z.to_nat n) dst) =
  backingBytes mem (e :: rest) o dst.
Proof.
  intros (Ha & Hl & Hv) Ho Hn He. unfold is_u64, is_u32 in *.
  destruct (ValidRange_spec mem (e_addr e) (e_length e)) as [Hr _]; [lia|lia|done|].
  assert (Hz : zlen (zslice mem (e_addr e + o) n) = n) by (apply zlen_slice; lia).
  apply zlist_eq.
  { rewrite zlen_app, !zlen_backingBytes, Hz, zlen_drop by lia. lia. }
  intros i Hi. rewrite zlen_app, zlen_backingBytes, Hz, zlen_drop in Hi by lia. rewrite zget_app, Hz.
  rewrite (zget_backingBytes _ _ o dst i) by lia. destruct (i <? n) eqn:E; zbool.
  - rewrite zget_slice by lia. unfold backingByte; cbn. destruct (o + i <? e_length e) eqn:E2; zbool; [f_equal; lia|lia].
  - rewrite zget_backingBytes by (rewrite zlen_drop; lia). rewrite zget_drop by lia. f_equal; [lia|f_equal; lia].
Qed.

(** Bytes past the first entry. *)
Lemma backingBytes_skip mem e rest o dst :
  is_u32 (e_length e) -> e_length e <= o -> backingBytes mem (e :: rest) o dst = backingBytes mem rest (o - e_length e) dst.
Proof.
  intros Hl Ho. apply zlist_eq; [by rewrite !zlen_backingBytes|]. intros i Hi. rewrite zlen_backingBytes in Hi.
  rewrite !zget_backingBytes by lia. unfold backingByte; cbn. destruct (_ <? _) eqn:E; zbool; [lia|].
  by replace (o + i - e_length e) with (o - e_length e + i) by lia.
Qed.

Lemma backingBytes_none mem o dst : backingBytes mem [] o dst = dst.
Proof. apply zlist_eq; [apply zlen_backingBytes|]. intros i Hi. rewrite zlen_backingBytes in Hi. by rewrite zget_backingBytes. Qed.

Record reader_ok (mem : list Z) (r : gpuBackingReader) (off : Z) : Prop := {
  rd_pos : 0 <= pos r <= off;
  rd_entries : Forall (entry_ok mem) (entries r);
  rd_total : pos r + total (entries r) < 2 ^ 63
}.

(** What a read promises about the reader: it lost only entries that lie before
    the end of the read. *)
Record advanced (mem : list Z) (r r' : gpuBackingReader) (last : Z) : Prop := {
  ad_ok : reader_ok mem r' last;
  ad_len : (length (entries r') <= length (entries r))%nat;
  ad_rest : forall o, last <= o -> backingAt (entries r') (o - pos r') = backingAt (entries r) (o - pos r)
}.

Lemma advanced_refl mem r off n : reader_ok mem r off -> 0 <= n -> advanced mem r r (off + n).
Proof. intros [] Hn. constructor; [constructor; [lia|done|done]|lia|done]. Qed.

Lemma reader_ok_len mem mem' r off : zlen mem' = zlen mem -> reader_ok mem r off -> reader_ok mem' r off.
Proof.
  intros Hl [? He ?]. constructor; [done| |done]. eapply list.Forall_impl; [exact He|].
  intros e (? & ? & ?). split; [done|split; [done|by rewrite (ValidRange_len _ _ _ _ Hl)]].
Qed.

Lemma advanced_len mem mem' r r' off : zlen mem' = zlen mem -> advanced mem r r' off -> advanced mem' r r' off.
Proof. intros Hl []. constructor; [by apply (reader_ok_len mem)|done|done]. Qed.

Lemma reader_skip mem e rest p off :
  reader_ok mem (mkReader (e :: rest) p) off -> p + e_length e <= off ->
  reader_ok mem (mkReader rest (p + e_length e)) off /\ u64 (p + e_length e) = p + e_length e.
Proof.
  intros [Hp He Ht] Hle. cbn [pos entries] in *. rewrite total_cons in Ht. inversion He as [|? ? (Ha & Hl & Hv) Hrest]; subst.
  pose proof (total_nonneg _ _ Hrest). unfold is_u32 in Hl. split; [constructor; cbn [pos entries]; [lia|done|lia]|].
  apply u64_small. lia.
Qed.

Lemma advanced_skip mem e rest p r' last :
  is_u32 (e_length e) -> p + e_length e <= last ->
  advanced mem (mkReader rest (p + e_length e)) r' last -> advanced mem (mkReader (e :: rest) p) r' last.
Proof.
  intros Hl Hle [Ho Hn Hr]. constructor; cbn in *; [done|lia|]. intros o Hlo. rewrite Hr by done. unfold is_u32 in Hl.
  destruct (o - p <? e_length e) eqn:E; zbool; [lia|]. f_equal. lia.
Qed.

Lemma wp_memLoad_quiet a n t :
  ValidRange (Mem t) a n = true ->
  wp (memLoad a n) t (fun b t' => yields t t' /\ b = zslice (Mem t') a n /\ (guest t = [] -> t' = t)) (fun _ _ => False).
Proof.
  intros Hv. pose proof (wp_memLoad a n t Hv) as Hw. unfold wp in *.
  destruct (memLoad a n t) as [[b| | |] t'] eqn:E; try done. destruct Hw as [Hy ->]. splits; try done.
  intros Hg. rewrite memLoad_quiet in E by done. congruence.
Qed.

Definition read_post (r : gpuBackingReader) (off : Z) (dst : list Z) (s : GPU) (p : gpuBackingReader * list Z) (s' : GPU) : Prop :=
  greads s s' /\ zlen (snd p) = zlen dst /\ (bytes_ok dst -> bytes_ok (snd p)) /\
  advanced (Mem (fst s)) r (fst p) (off + zlen dst) /\
  (guest (fst s) = [] -> s' = s /\ snd p = backingBytes (Mem (fst s)) (entries r) (off - pos r) dst).

Lemma wp_read ents p off dst fuel s :
  ginv s -> reader_ok (Mem (fst s)) (mkReader ents p) off -> off + zlen dst < 2 ^ 63 -> (2 * length ents + 1 <= fuel)%nat ->
  wp (read fuel (mkReader ents p) off dst) s (read_post (mkReader ents p) off dst s) (fun _ _ => False).
Proof.
  revert p off dst fuel s. induction ents as [|e rest IH]; intros p off dst fuel s B Hr Hoff Hf; pose proof (zlen_nonneg dst);
    (destruct fuel as [|fuel]; [cbn in Hf; lia|]); cbn [read entries pos].
  { wstep. unfold read_post; cbn [fst snd]. splits; auto with go; [by apply advanced_refl|]. intros _.
    split; [done|]. cbn [entries]. by rewrite backingBytes_none. }
  assert (Hskip : forall off dst fuel s, ginv s -> reader_ok (Mem (fst s)) (mkReader (e :: rest) p) off -> off + zlen dst < 2 ^ 63 ->
    p + e_length e <= off -> (2 * length rest + 1 <= fuel)%nat ->
    wp (read fuel (mkReader rest (u64 (p + e_length e))) off dst) s (read_post (mkReader (e :: rest) p) off dst s) (fun _ _ => False)).
  { clear dst off fuel s B Hr Hoff Hf H. intros off dst fuel s B Hr Hoff Hle Hf. pose proof (zlen_nonneg dst).
    destruct (reader_skip _ _ _ _ _ Hr Hle) as [Hr' ->]. pose proof (rd_entries _ _ _ Hr) as He. cbn in He.
    inversion He as [|? ? (_ & Hel & _) _]; subst.
    wcall IH; [done|done|done|done| |done]. intros pr s' (G & Hl & Hb & Ha & Hq). unfold read_post. splits; auto.
    - apply advanced_skip; [done|lia|done].
    - intros Hg. destruct (Hq Hg) as [-> ->]. split; [done|]. cbn [entries pos].
      rewrite backingBytes_skip by (done || lia). f_equal. lia. }
  pose proof (rd_entries _ _ _ Hr) as He. cbn in He. inversion He as [|? ? Hent _]; subst.
  pose proof Hent as (Hea & Hel & Hev). pose proof (rd_pos _ _ _ Hr) as Hp. cbn [pos] in Hp. unfold is_u64, is_u32 in Hea, Hel.
  pose proof (rd_total _ _ _ Hr) as Ht. cbn [pos entries] in Ht. rewrite total_cons in Ht.
  assert (Hrt : 0 <= total rest) by (apply (total_nonneg (Mem (fst s))); by inversion He).
  destruct (zlen dst =? 0) eqn:Ed; zbool.
  { wstep. unfold read_post; cbn [fst snd]. splits; auto with go; [by apply advanced_refl|]. intros _. split; [done|].
    destruct dst; [done|]. rewrite zlen_cons in *. pose proof (zlen_nonneg dst). lia. }
  cbv zeta. rewrite !(u64_small (p + _)) by lia.
  destruct (p + e_length e <=? off) eqn:Eo; zbool.
  { replace (p + e_length e) with (u64 (p + e_length e)) by (apply u64_small; lia). apply Hskip; try done. cbn in Hf. lia. }
  destruct (ValidRange_spec _ _ _ (proj1 Hea) (proj1 Hel) Hev) as [Hend _].
  rewrite (u64_small (off - p)), (u64_small (e_length e - _)) by lia.
  set (n := Z.min (e_length e - (off - p)) (zlen dst)). assert (Hn : 0 < n) by lia.
  pose proof (go_mem _ _ (proj2 B)) as Hmem. rewrite (u64_small (e_addr e + _)), (u64_small (off + n)) by lia.
  assert (Hv : ValidRange (Mem (fst s)) (e_addr e + (off - p)) n = true)
    by (apply (ValidRange_sub _ (e_addr e) (e_length e)); try done; lia).
  wstep. wstep. wstep. rewrite Hv. apply wp_onT. wcall wp_memLoad_quiet; [done| |done]. intros chunk t1 (Hy & -> & Hquiet). cbv beta.
  set (s1 := (t1, snd s)). assert (G1 : greads s s1) by done. pose proof (greads_inv _ _ B G1) as B1.
  destruct (yields_mem _ _ Hy) as [Hml Hmb].
  assert (Hr1 : reader_ok (Mem t1) (mkReader (e :: rest) p) (off + n)).
  { apply (reader_ok_len (Mem (fst s))); [done|]. destruct Hr. constructor; [cbn [pos]; lia|done|done]. }
  assert (Hd1 : zlen (drop (Z.to_nat n) dst) = zlen dst - n) by (apply zlen_drop; lia).
  wstep. apply wp_mono with (Q := read_post (mkReader (e :: rest) p) (off + n) (drop (Z.to_nat n) dst) s1) (E := fun _ _ => False); [|..|done].
  - destruct fuel as [|fuel]; [cbn in Hf; lia|]. cbn [read entries pos]. rewrite Hd1.
    destruct (zlen dst - n =? 0) eqn:E2; zbool.
    + wstep. unfold read_post; cbn [fst snd]. splits; auto with go; [by rewrite Hd1; apply advanced_refl; [|lia]|]. intros _.
      split; [done|]. destruct (drop (Z.to_nat n) dst) as [|x l]; [done|]. rewrite zlen_cons in Hd1. pose proof (zlen_nonneg l). lia.
    + cbv zeta. rewrite (u64_small (p + _)) by lia. destruct (_ <=? _) eqn:E3; zbool; [|lia].
      replace (p + e_length e) with (u64 (p + e_length e)) by (apply u64_small; lia).
      apply Hskip; try done; [lia|cbn in Hf; lia].
  - intros [r' b'] s2 (G2 & Hl2 & Hb2 & Ha2 & Hq2). cbn [fst snd] in *. wstep. unfold read_post. cbn [fst snd].
    assert (Hz : zlen (zslice (Mem t1) (e_addr e + (off - p)) n) = n) by (apply zlen_slice; lia).
    splits.
    + by eapply greads_trans.
    + rewrite zlen_app, Hz, Hl2, Hd1. lia.
    + intros Hb. apply Forall_app. split; [apply bytes_ok_slice, (tw_mem _ (proj1 B1))|apply Hb2, Forall_drop, Hb].
    + rewrite Hd1 in Ha2. replace (off + n + (zlen dst - n)) with (off + zlen dst) in Ha2 by lia.
      by apply (advanced_len (Mem t1)).
    + intros Hg. specialize (Hquiet Hg). subst t1. destruct (Hq2 Hg) as [-> ->].
      split; [by destruct s|]. cbn [entries pos]. rewrite <- (backingBytes_chunk _ e rest (off - p) dst n); try done; try lia.
      f_equal. f_equal. lia.
Qed.

(** ** Transfers *)

(** The reference: every row of the rectangle is read from its place in the
    backing. *)
Definition transferRow (mem : list Z) (res : gpuResource) (x y w offset : Z) (data : list Z) (row : Z) : list Z :=
  backingBytes mem (res_backing res) (offset + 4 * res_width res * row)
    (zslice data (4 * ((y + row) * res_width res + x)) (4 * w)).
Definition transferred (mem : list Z) (res : gpuResource) (x y w h offset : Z) : list Z :=
  putRows (Z.to_nat h) (4 * (y * res_width res + x)) (4 * res_width res)
    (transferRow mem res x y w offset (res_data res)) (res_data res).

Lemma backingBytes_ext mem ents ents' o o' dst :
  (forall i, 0 <= i < zlen dst -> backingAt ents (o + i) = backingAt ents' (o' + i)) ->
  backingBytes mem ents o dst = backingBytes mem ents' o' dst.
Proof.
  intros He. apply zlist_eq; [by rewrite !zlen_backingBytes|]. intros i Hi. rewrite zlen_backingBytes in Hi.
  rewrite !zget_backingBytes by done. unfold backingByte. by rewrite He.
Qed.

Lemma reader_ok_mono mem r off off' : reader_ok mem r off -> off <= off' -> reader_ok mem r off'.
Proof. intros [] Hle. constructor; [lia|done|done]. Qed.

Definition transfer_post (data : list Z) (s : GPU) (ref : list Z) (data' : list Z) (s' : GPU) : Prop :=
  greads s s' /\ zlen data' = zlen data /\ (bytes_ok data -> bytes_ok data') /\ (guest (fst s) = [] -> s' = s /\ data' = ref).

Section Transfer.
Variables (res : gpuResource) (x y w h offset : Z).
Hypotheses (Hx : 0 <= x) (Hy : 0 <= y) (Hw : 0 <= w) (Hh : 0 <= h) (Ho : 0 <= offset)
  (Hxw : x + w <= res_width res) (Hyh : y + h <= res_height res).

#[local] Abbreviation W := (res_width res).

Lemma row_in_data (data : list Z) row :
  zlen data = 4 * W * res_height res -> 0 <= row < h -> 0 <= 4 * ((y + row) * W + x) /\
  4 * ((y + row) * W + x) + 4 * w <= zlen data.
Proof using Hx Hy Hw Hh Ho Hxw Hyh. intros -> Hr. split; nia. Qed.

(** Rows written above do not change what a later row reads. *)
Lemma transferRow_above mem data row b k :
  zlen data = 4 * W * res_height res -> 0 <= row -> zlen b = 4 * w -> row < k < h ->
  transferRow mem res x y w offset (zwrite data (4 * ((y + row) * W + x)) b) k =
  transferRow mem res x y w offset data k.
Proof using Hx Hy Hw Hh Ho Hxw Hyh.
  intros Hd Hr Hb Hk. unfold transferRow. f_equal. destruct (row_in_data data row Hd) as [? ?]; [lia|].
  destruct (row_in_data data k Hd) as [? ?]; [lia|].
  assert (zlen (zwrite data (4 * ((y + row) * W + x)) b) = zlen data) by (rewrite zlen_write by done; destruct (_ =? 0); lia).
  apply zslice_agree; try lia. intros i Hi. apply zget_write_out; try lia. right. nia.
Qed.

Lemma wp_transferRows n row r data s :
  ginv s -> 0 < W <= gpuMaxDimension -> res_height res <= gpuMaxDimension ->
  zlen data = 4 * W * res_height res -> offset <= zlen data ->
  0 <= row -> row + Z.of_nat n = h ->
  reader_ok (Mem (fst s)) r (offset + 4 * W * row) ->
  (forall o, offset + 4 * W * row <= o -> backingAt (entries r) (o - pos r) = backingAt (res_backing res) o) ->
  wp (transferRows n row r (4 * W) x y w offset data) s
    (transfer_post data s (putRows n (4 * ((y + row) * W + x)) (4 * W)
       (fun k => transferRow (Mem (fst s)) res x y w offset data (row + k)) data))
    (fun _ _ => False).
Proof using Hx Hy Hw Hh Ho Hxw Hyh.
  unfold gpuMaxDimension. intros B HW HH.
  revert row r data s B. induction n as [|n IH]; intros row r data s B Hd Hof Hrow Hn Hr Hrest; cbn [transferRows].
  { wstep. unfold transfer_post. splits; auto with go. }
  destruct (row_in_data data row Hd) as [Hd0 Hd1]; [lia|]. unfold gpuBytesPerPixel. cbv zeta.
  assert (Hb1 : (y + row) * (4 * W) <= 4096 * (4 * 4096)) by (apply Z.mul_le_mono_nonneg; lia).
  assert (Hb2 : 4 * W * row <= 4 * 4096 * 4096) by (apply Z.mul_le_mono_nonneg; lia).
  assert (Hb3 : zlen data <= 4 * 4096 * 4096) by (rewrite Hd; apply Z.mul_le_mono_nonneg; lia).
  rewrite (u32_small (y + row)), (u32_small (_ * _)), (u32_small (x * 4)), u32_small by nia.
  replace ((y + row) * (4 * W) + x * 4) with (4 * ((y + row) * W + x)) by lia.
  rewrite (u64_small (4 * W * row)), u64_small, (u32_small (w * 4)) by nia.
  assert (Hfirst : forall b, zlen b = 4 * w ->
    b = transferRow (Mem (fst s)) res x y w offset data row ->
    putRows (S n) (4 * ((y + row) * W + x)) (4 * W) (fun k => transferRow (Mem (fst s)) res x y w offset data (row + k)) data =
    putRows n (4 * ((y + (row + 1)) * W + x)) (4 * W)
      (fun k => transferRow (Mem (fst s)) res x y w offset (zwrite data (4 * ((y + row) * W + x)) b) (row + 1 + k))
      (zwrite data (4 * ((y + row) * W + x)) b)).
  { intros b Hb ->. rewrite putRows_first, Z.add_0_r.
    replace (4 * ((y + (row + 1)) * W + x)) with (4 * ((y + row) * W + x) + 4 * W) by lia.
    apply putRows_ext. intros k Hk. rewrite transferRow_above by (done || lia). f_equal. lia. }
  destruct (zlen data <=? _) eqn:E; zbool.
  { assert (w = 0) by lia. wstep. unfold transfer_post. splits; auto with go. intros _. split; [done|].
    assert (Hz : forall m base rows, (forall k, 0 <= k -> rows k = []) -> putRows m base (4 * W) rows data = data).
    { induction m as [|m IHm]; intros base rows Hrs; [done|]. cbn [putRows]. rewrite IHm by done. by rewrite Hrs by lia. }
    symmetry. apply Hz. intros k Hk. unfold transferRow. subst w. done. }
  destruct (zlen data <? _) eqn:E2; zbool; [lia|].
  wstep. wstep. rewrite slice_ok by lia. unfold orPanic. wstep. replace (4 * ((y + row) * W + x) + w * 4 - 4 * ((y + row) * W + x)) with (4 * w) by lia.
  set (old := zslice data _ (4 * w)). assert (Hold : zlen old = 4 * w) by (apply zlen_slice; lia).
  destruct r as [ents p]. wcall wp_read; [done|done|rewrite Hold; lia|unfold readFuel; cbn; lia| |done].
  intros [r' b] s1 (G1 & Hbl & Hbb & Ha & Hq). cbn [fst snd] in *. rewrite Hold in Ha. pose proof (greads_inv _ _ B G1) as B1.
  assert (Hd' : zlen (zwrite data (4 * ((y + row) * W + x)) b) = zlen data) by (rewrite zlen_write by done; destruct (_ =? 0); lia).
  assert (Hml : zlen (Mem (fst s1)) = zlen (Mem (fst s))) by apply (yields_mem _ _ (proj1 G1)).
  wcall IH; [done|by rewrite Hd'|by rewrite Hd'|lia|lia| | | |done].
  { apply (reader_ok_len (Mem (fst s))); [done|]. eapply reader_ok_mono; [apply (ad_ok _ _ _ _ Ha)|nia]. }
  { intros o Hlo. rewrite (ad_rest _ _ _ _ Ha) by nia. apply Hrest. nia. }
  intros data' s2 (G2 & Hl2 & Hb2' & Hq2). unfold transfer_post. splits.
  - by eapply greads_trans.
  - by rewrite Hl2.
  - intros Hb. apply Hb2', bytes_ok_write; [done|]. apply Hbb, bytes_ok_slice, Hb.
  - intros Hg. destruct (Hq Hg) as [-> Hbe]. destruct (Hq2 Hg) as [-> ->]. split; [done|].
    rewrite (Hfirst b); [done|lia|]. rewrite Hbe. unfold transferRow. fold old. apply backingBytes_ext.
    intros i Hi. cbn [entries pos]. cbn [entries pos] in Hrest. rewrite <- Hrest by lia. f_equal. lia.
Qed.
End Transfer.

(** Full rows are contiguous in the backing and in the resource. *)
Lemma transferred_full mem res h :
  pixels_ok res -> 0 <= h <= res_height res ->
  zwrite (res_data res) 0 (backingBytes mem (res_backing res) 0 (zslice (res_data res) 0 (4 * res_width res * h))) =
  transferred mem res 0 0 (res_width res) h 0.
Proof.
  intros Hp Hh. pose proof Hp as [HW HH Hl _]. set (W := res_width res) in *. set (data := res_data res) in *.
  set (b := backingBytes _ _ _ _). assert (Hsl : zlen (zslice data 0 (4 * W * h)) = 4 * W * h) by (apply zlen_slice; nia).
  assert (Hb : zlen b = 4 * W * h) by (unfold b; by rewrite zlen_backingBytes).
  assert (Hrows : forall k, 0 <= k < Z.of_nat (Z.to_nat h) ->
    zlen (transferRow mem res 0 0 W 0 data k) = 4 * W /\ 4 * (0 * W + 0) + k * (4 * W) + 4 * W <= zlen data).
  { intros k Hk. assert (0 + 4 * W * k + 4 * W <= zlen data) by nia.
    split; [|lia]. unfold transferRow. rewrite zlen_backingBytes. fold W. apply zlen_slice; nia. }
  unfold transferred. fold W data. apply zlist_eq.
  { rewrite (zlen_putRows _ _ (4 * W) _ _ (Z.to_nat h)); try lia; try (intros k Hk; by apply Hrows).
    rewrite zlen_write, Hb by lia. destruct (_ =? 0); nia. }
  intros i Hi. assert (Hi' : 0 <= i < zlen data) by (rewrite zlen_write, Hb in Hi by lia; destruct (_ =? 0); nia).
  destruct (decide (i < 4 * W * h)) as [Hlt|Hge].
  - rewrite zget_write_in by lia. rewrite Z.sub_0_r.
    assert (Hq : i = 4 * (0 * W + 0) + i / (4 * W) * (4 * W) + i mod (4 * W)) by (pose proof (Z.div_mod i (4 * W)); lia).
    assert (Hr : 0 <= i / (4 * W) < h) by (split; [apply Z.div_pos|apply Z.div_lt_upper_bound]; lia).
    pose proof (Z.mod_pos_bound i (4 * W)) as Hm. rewrite Hq at 2.
    rewrite (zget_putRows_in _ _ (4 * W) _ _ (Z.to_nat h)); try lia; try (intros k Hk; by apply Hrows).
    unfold b, transferRow. rewrite zget_backingBytes by lia. fold W.
    rewrite zget_backingBytes by (rewrite zlen_slice by nia; lia). rewrite !zget_slice by nia. unfold backingByte.
    replace (0 + i) with i by lia. replace (0 + 4 * W * (i / (4 * W)) + i mod (4 * W)) with i by lia.
    destruct (backingAt _ i); [done|]. f_equal. lia.
  - rewrite zget_write_out by lia. symmetry.
    apply (zget_putRows_out _ _ (4 * W) _ _ (Z.to_nat h)); try lia; try (intros k Hk; by apply Hrows).
    intros k Hk. right. nia.
Qed.

Lemma total_bound mem ents : Forall (entry_ok mem) ents -> total ents <= 2 ^ 32 * zlen ents.
Proof. induction 1 as [|e ents (_ & He & _) _ IH]; [done|]. rewrite total_cons, zlen_cons. unfold is_u32 in He. lia. Qed.

Lemma reader_start mem res off : res_ok mem res -> 0 <= off -> reader_ok mem (mkReader (res_backing res) 0) off.
Proof.
  intros [_ _ _ _ Hb Hc] Ho. change gpuMaxBacking with 8640 in Hc. pose proof (total_bound mem _ Hb).
  constructor; cbn [pos entries]; [lia|done|lia].
Qed.

Lemma wp_transferToHost2D res x y w h offset s :
  ginv s -> res_ok (Mem (fst s)) res -> 0 <= x -> 0 <= y -> 0 <= w -> 0 <= h ->
  x + w <= res_width res -> y + h <= res_height res -> 0 <= offset <= zlen (res_data res) ->
  wp (transferToHost2D res x y w h offset) s
    (transfer_post (res_data res) s (transferred (Mem (fst s)) res x y w h offset)) (fun _ _ => False).
Proof.
  intros B Hres Hx Hy Hw Hh Hxw Hyh Ho. pose proof Hres as [HW HH Hp _ _ _]. pose proof Hp as [HW0 HH0 Hl Hb].
  unfold gpuMaxDimension in *. unfold transferToHost2D. rewrite u32_small by (unfold gpuBytesPerPixel; lia).
  replace (res_width res * gpuBytesPerPixel) with (4 * res_width res) by (unfold gpuBytesPerPixel; lia).
  destruct (_ && _) eqn:E; zbool; subst; cbv zeta.
  - rewrite (Z.min_l h) by lia. rewrite Z.min_l by nia.
    assert (Hsl : zlen (zslice (res_data res) 0 (4 * res_width res * h)) = 4 * res_width res * h) by (apply zlen_slice; nia).
    wstep. rewrite slice_ok by nia. unfold orPanic. wstep. rewrite Z.sub_0_r. unfold backingRead. wstep. wstep.
    assert (4 * res_width res * h <= 4 * 4096 * 4096) by (apply Z.mul_le_mono_nonneg; lia).
    wcall wp_read; [done|by apply reader_start|rewrite Hsl; lia|unfold readFuel; cbn; lia| |done].
    intros [r b] s1 (G & Hbl & Hbb & _ & Hq). cbn [fst snd entries pos] in *. wstep. wstep. unfold transfer_post. splits.
    + done.
    + rewrite zlen_write, Hbl, Hsl by lia. destruct (_ =? 0); nia.
    + intros _. apply bytes_ok_write; [done|]. apply Hbb, bytes_ok_slice, Hb.
    + intros Hg. destruct (Hq Hg) as [-> ->]. split; [done|]. rewrite Z.sub_0_r. by apply transferred_full.
  - wcall (wp_transferRows res x y w h offset); try done; try lia.
    + rewrite Z.mul_0_r, Z.add_0_r. apply reader_start; [done|lia].
    + intros o _. cbn [entries pos]. by rewrite Z.sub_0_r.
    + intros a s'. unfold transferred. by rewrite Z.add_0_r.
Qed.

(** ** Presentation *)

Lemma display_ok mem d p : gpuOk mem d -> gpuOk mem (d <| display := p |>).
Proof. by intros []. Qed.

Lemma composite_ok mem d c : gpuOk mem d -> image_opt c -> gpuOk mem (d <| composite := c |>).
Proof. by intros []. Qed.

(** What [present] shows on a display without cursor support. *)
Lemma present_spec mem d p f :
  gpuOk mem d -> display d = Some p -> isCursor p = false -> frame d = Some f ->
  exists img storage,
    present d = d <| composite := storage |> <| display := Some (callDisplay (Flush (Dx (Bounds f)) (Dy (Bounds f)) img) p) |> /\
    image_opt storage /\ image_ok img /\ Bounds img = Bounds f /\
    forall x y ch, inside (Bounds f) x y -> 0 <= ch < 4 -> chan img x y ch = cursorOver f (displayCursor (g_cursor d)) x y ch.
Proof.
  intros G Hp Hc Hf. destruct (go_frame _ _ G f Hf) as (Hfo & _ & Hs). unfold present. rewrite Hp, Hc, Hf.
  destruct (_ =? 0) eqn:E; zbool; [done|].
  pose proof (compositeCursor_spec f (composite d) (displayCursor (g_cursor d)) Hfo (go_composite _ _ G)) as Hcc.
  destruct (compositeCursor _ _ _) as [img storage]. destruct Hcc as (Hi & Hst & Hb & Hpx).
  { intros img' Hi. by apply (go_cursor _ _ G). }
  exists img, storage. rewrite Hb. by splits.
Qed.

Lemma present_ok mem d : gpuOk mem d -> gpuOk mem (present d).
Proof.
  intros G. destruct (display d) as [p|] eqn:Hp; [|unfold present; by rewrite Hp].
  destruct (isCursor p) eqn:Hc; [unfold present; rewrite Hp, Hc; by apply display_ok|].
  destruct (frame d) as [f|] eqn:Hf; [|unfold present; by rewrite Hp, Hc, Hf].
  destruct (present_spec mem d p f G Hp Hc Hf) as (img & storage & -> & Hst & _). by apply display_ok, composite_ok.
Qed.

Lemma present_same d : g_VirtQueue (present d) = g_VirtQueue d /\ g_closed (present d) = g_closed d.
Proof.
  unfold present. destruct (display d) as [p|]; [|done]. destruct (isCursor p); [done|]. destruct (frame d) as [f|]; [|done].
  destruct (_ =? 0); [done|]. by destruct (compositeCursor _ _ _).
Qed.

(** Where a frame gets its pixels from after a flush: from the resource inside
    the damage, and from the frame before elsewhere. *)
Definition flushedPixel (res : gpuResource) (src area : Rectangle) (old : option RGBA) (x y ch : Z) : Z :=
  let new := zget (convertPixel (res_format res) false (guestPixel res (x + minX src) (y + minY src))) ch in
  match old with
  | Some f => if insideb area (x + minX src) (y + minY src) then new else chan f x y ch
  | None => new
  end.

(** What the display is told about a flush that left the frame [f]. *)
Definition flushCall (d : gpuDev) (p : Display) (area : Rectangle) (f : RGBA) (c : displayCall) : Prop :=
  let src := scanoutRect d in
  if isCursor p then
    c = if isDamage p then
          FlushDamage (Dx src) (Dy src) f [Sub (if decide (frame d = None) then src else area) (Min src)]
        else Flush (Dx src) (Dy src) f
  else exists img, c = Flush (Dx src) (Dy src) img /\ Bounds img = Bounds f /\
    forall x y ch, inside (Bounds f) x y -> 0 <= ch < 4 -> chan img x y ch = cursorOver f (displayCursor (g_cursor d)) x y ch.

Lemma Rect_size w h : 0 <= w -> 0 <= h -> Rect 0 0 w h = mkRect 0 0 w h.
Proof. intros. unfold Rect. f_equal; lia. Qed.

Lemma frame_ok mem d f :
  gpuOk mem d -> scanout d <> 0 -> image_ok f -> Bounds f = Rect 0 0 (Dx (scanoutRect d)) (Dy (scanoutRect d)) ->
  gpuOk mem (d <| frame := Some f |>).
Proof. intros G Hs Hf Hb. destruct G. constructor; try done. by intros f' [= <-]. Qed.

Lemma flushDamage_spec mem d p res damage :
  gpuOk mem d -> display d = Some p -> scanout d <> 0 -> resources d !! scanout d = Some res ->
  let src := scanoutRect d in
  let area := Intersect damage src in
  Empty area = false ->
  exists d' f c, flushDamage res damage d = Some d' /\ gpuOk mem d' /\ frame d' = Some f /\
    Bounds f = Rect 0 0 (Dx src) (Dy src) /\
    d' = d <| frame := Some f |> <| composite := composite d' |> <| display := Some (callDisplay c p) |> /\
    flushCall d p area f c /\
    forall x y ch, inside (Bounds f) x y -> 0 <= ch < 4 -> chan f x y ch = flushedPixel res src area (frame d) x y ch.
Proof.
  intros G Hp Hs Hres src area Ha. destruct (go_scanout _ _ G) as [[? _]|(_ & He & res' & Hr' & Hcon)]; [done|].
  rewrite Hres in Hr'. injection Hr' as <-. pose proof (go_res _ _ G _ _ Hres) as Hro. pose proof (ro_pixels _ _ Hro) as Hpx.
  unfold flushDamage. rewrite Hp. destruct (_ || _) eqn:E0; [destruct Hpx; zbool; lia|].
  rewrite He. fold src area. rewrite Ha. set (bounds := Rect 0 0 (Dx src) (Dy src)).
  set (old := match frame d with Some f => _ | None => _ end).
  assert (Hold : old = (default (NewRGBA bounds) (frame d), if decide (frame d = None) then src else area)).
  { unfold old. destruct (frame d) as [f|] eqn:Hf; [|done]. destruct (go_frame _ _ G f Hf) as (_ & Hb & _).
    rewrite decide_True by done. by rewrite decide_False. }
  rewrite Hold. clear old Hold. set (dmg := if decide _ then src else area). set (f0 := default _ _).
  apply Empty_spec in He as He'. fold src in He', Hcon.
  assert (Hf0 : image_ok f0 /\ Bounds f0 = bounds).
  { unfold f0. destruct (frame d) as [f|] eqn:Hf; [by destruct (go_frame _ _ G f Hf) as (? & ? & _)|]. split; [|done].
    apply NewRGBA_ok; unfold bounds, Rect, Dx, Dy; cbn; lia. }
  destruct Hf0 as [Hf0 Hb0].
  destruct (resourceImageRectInto_spec res false f0 dmg (Min src) Hpx Hf0) as (f & -> & Hfo & Hb & Hpix).
  rewrite Hb0 in Hb, Hpix. set (d1 := d <| frame := Some f |>).
  assert (G1 : gpuOk mem d1) by by apply frame_ok.
  assert (Hdx : Dx bounds = Dx src /\ Dy bounds = Dy src) by (unfold bounds, Rect, Dx, Dy; cbn; lia). destruct Hdx as [Hdx Hdy].
  assert (Hpixels : forall x y ch, inside (Bounds f) x y -> 0 <= ch < 4 -> chan f x y ch = flushedPixel res src area (frame d) x y ch).
  { intros x y ch Hxy Hch. rewrite Hb in Hxy. rewrite Hpix by done. cbn [p_X p_Y Min]. unfold flushedPixel, dmg, f0.
    assert (Hin : inside src (x + minX src) (y + minY src)).
    { unfold bounds, inside, Rect, Dx, Dy in *; cbn in Hxy. lia. }
    rewrite (insideb_true (resBounds res)) by (unfold inside, contained in *; lia). rewrite andb_true_r.
    destruct (frame d) as [f1|] eqn:Hf; [by rewrite decide_False by done|].
    rewrite decide_True by done. by rewrite insideb_true. }
  rewrite Hdx, Hdy. unfold flushCall. destruct (isCursor p) eqn:Hc.
  - eexists _, f, _. splits; [reflexivity|by apply display_ok|done|done|by destruct d|by destruct (isDamage p)|done].
  - destruct (present_spec mem d1 p f G1 Hp Hc eq_refl) as (img & storage & Hpr & Hst & Hio & Hib & Hover).
    rewrite Hb, Hdx, Hdy in Hpr. exists (present d1), f, (Flush (Dx src) (Dy src) img).
    splits; [done|by apply present_ok|by rewrite Hpr|done|by rewrite Hpr|by exists img|done].
Qed.

(** ** Commands keep the invariant *)


Record gstep (s s' : GPU) : Prop := {
  gs_inv : ginv s';
  gs_len : zlen (Mem (fst s')) = zlen (Mem (fst s));
  gs_queues : g_VirtQueue (snd s') = g_VirtQueue (snd s);
  gs_closed : g_closed (snd s') = g_closed (snd s)
}.

Lemma gstep_refl s : ginv s -> gstep s s.
Proof. by constructor. Qed.

Lemma gstep_trans s1 s2 s3 : gstep s1 s2 -> gstep s2 s3 -> gstep s1 s3.
Proof. intros [] []. constructor; [done|congruence..]. Qed.

Lemma greads_step s s' : ginv s -> greads s s' -> gstep s s'.
Proof.
  intros B G. constructor; [by eapply greads_inv|apply (yields_mem _ _ (proj1 G))|by rewrite (proj2 G)|by rewrite (proj2 G)].
Qed.

Lemma gstep_dev s d :
  ginv s -> gpuOk (Mem (fst s)) d -> g_VirtQueue d = g_VirtQueue (snd s) -> g_closed d = g_closed (snd s) -> gstep s (fst s, d).
Proof. intros [T _] G Hq Hc. constructor; try done. Qed.

(** A command returns a response; its only access to guest memory is reading. *)
Record cmd_ok (s : GPU) (resp : list Z) (s' : GPU) : Prop := {
  co_step : gstep s s';
  co_bytes : bytes_ok resp;
  co_len : gpuCtrlHdrLen <= zlen resp < 2 ^ 32;
  co_quiet : guest (fst s) = [] -> fst s' = fst s;
  co_last : g_LastAvailIdx (snd s') = g_LastAvailIdx (snd s)
}.

Lemma respNoData_ok t : bytes_ok (respNoData t).
Proof. apply bytes_ok_put_le, bytes_ok_zeros. Qed.

Lemma zlen_respNoData t : zlen (respNoData t) = gpuCtrlHdrLen.
Proof. done. Qed.

Lemma cmd_dev s d t :
  ginv s -> gpuOk (Mem (fst s)) d -> g_VirtQueue d = g_VirtQueue (snd s) -> g_closed d = g_closed (snd s) ->
  g_LastAvailIdx d = g_LastAvailIdx (snd s) -> cmd_ok s (respNoData t) (fst s, d).
Proof.
  intros. constructor; [by apply gstep_dev|apply respNoData_ok| |done|done]. rewrite zlen_respNoData. unfold gpuCtrlHdrLen. lia.
Qed.

Lemma cmd_refuse s t : ginv s -> cmd_ok s (respNoData t) s.
Proof. intros B. destruct s. apply cmd_dev; try done. apply B. Qed.

#[export] Hint Resolve respNoData_ok cmd_refuse gstep_refl : go.

Lemma reqU32_range req o : bytes_ok req -> is_u32 (reqU32 req o).
Proof. apply le_uint32_range. Qed.

(** Replacing a resource by one of the same shape. *)
Lemma gpuOk_replace mem d id res res' :
  gpuOk mem d -> resources d !! id = Some res -> res_ok mem res' ->
  res_width res' = res_width res -> res_height res' = res_height res ->
  gpuOk mem (d <| resources := <[id := res']> (resources d) |>).
Proof.
  intros G Hid Hr Hw Hh. pose proof (go_res _ _ G _ _ Hid) as Hr0.
  assert (Hl : zlen (res_data res') = zlen (res_data res)).
  { rewrite (po_len _ (ro_pixels _ _ Hr)), (po_len _ (ro_pixels _ _ Hr0)). congruence. }
  destruct G. constructor; cbn; try done.
  - rewrite lookup_insert_ne; [done|congruence].
  - by apply map_Forall_insert_2.
  - by rewrite (allocated_replace _ _ res).
  - rewrite map_size_insert_Some by by exists res. done.
  - destruct go_scanout0 as [?|(Hs & He & r & Hl' & Hc)]; [by left|right]. cbn. splits; try done.
    destruct (decide (id = scanout d)) as [->|Hne].
    + exists res'. rewrite lookup_insert_eq. split; [done|]. rewrite Hid in Hl'. injection Hl' as <-.
      unfold resBounds in *. by rewrite Hw, Hh.
    + exists r. by rewrite lookup_insert_ne.
Qed.

Lemma wp_cmdGetDisplayInfo s : ginv s -> wp cmdGetDisplayInfo s (cmd_ok s) (fun _ _ => False).
Proof.
  intros B. unfold cmdGetDisplayInfo. do 2 wstep. cbv zeta. wstep. constructor; [by apply gstep_refl| |unfold gpuCtrlHdrLen; vm_compute; split; [discriminate|reflexivity]|done|done].
  repeat apply bytes_ok_put_le. apply bytes_ok_zeros.
Qed.

Lemma u64_mul_small a b : 0 <= a <= 4096 -> 0 <= b <= 4096 -> u64 (a * b) = a * b.
Proof. intros. apply u64_small. nia. Qed.

Lemma wp_cmdResourceCreate2D req s : ginv s -> bytes_ok req -> wp (cmdResourceCreate2D req) s (cmd_ok s) (fun _ _ => False).
Proof.
  intros B Hb. unfold cmdResourceCreate2D. destruct (_ <? _); [wstep; auto with go|]. cbv zeta.
  pose proof (reqU32_range req 8 Hb) as Hw. pose proof (reqU32_range req 12 Hb) as Hh. unfold is_u32 in Hw, Hh.
  set (id := reqU32 req 0). set (w := reqU32 req 8) in *. set (h := reqU32 req 12) in *.
  do 2 wstep. wif E1; [wstep; auto with go|]. wif E2; [wstep; auto with go|]. wif E3; [wstep; auto with go|].
  zbool. unfold gpuMaxDimension, gpuBytesPerPixel in *. rewrite !(u64_mul_small w h) in * by lia.
  assert (Hpx : 0 < w * h <= 4096 * 4096) by nia. rewrite !(u64_small (w * h * 4)) by lia. pose proof (proj2 B) as G.
  assert (Hres : 0 <= resourceBytes (snd s) <= gpuResourceLimit).
  { split; [rewrite (go_bytes _ _ G); apply allocated_nonneg|apply G]. }
  wif E4; [wstep; auto with go|]. zbool.
  rewrite (u64_small (gpuResourceLimit - _)) in * by (unfold gpuResourceLimit in *; lia).
  assert (Hnone : resources (snd s) !! id = None).
  { destruct (resources (snd s) !! id); [|done]. by rewrite bool_decide_true in * by by eexists. }
  unfold updG. do 3 wstep. apply cmd_dev; try done. destruct G.
  assert (Hfmt : reqU32 req 4 ∈ gpuFormats).
  { destruct (existsb _ _) eqn:Ex; [|done]. apply existsb_exists in Ex as (k & Hk & He). zbool. subst.
    by apply list_elem_of_In. }
  constructor; cbn; try done.
  - by rewrite lookup_insert_ne.
  - apply map_Forall_insert_2; [|done]. constructor; cbn; try done; try (unfold gpuMaxDimension; lia).
    constructor; cbn; [lia|lia| |apply bytes_ok_zeros]. rewrite zlen_zeros. lia.
  - rewrite allocated_insert by done. cbn. rewrite zlen_zeros, u64_small by (unfold gpuResourceLimit in *; lia). lia.
  - rewrite u64_small by (unfold gpuResourceLimit in *; lia). lia.
  - rewrite map_size_insert_None by done. lia.
  - destruct go_scanout0 as [?|(Hs & He & r & Hl & Hc)]; [by left|right]. cbn. splits; try done.
    exists r. rewrite lookup_insert_ne by congruence. done.
Qed.

Lemma gpuOk_noScanout mem d :
  gpuOk mem d ->
  gpuOk mem (d <| scanout := 0 |> <| scanoutRect := ZR |> <| frame := None |> <| composite := None |>).
Proof. intros []. constructor; try done. by left. Qed.

(** Without a binding to it, a resource can go. *)
Lemma gpuOk_delete mem d id res :
  gpuOk mem d -> resources d !! id = Some res -> scanout d <> id ->
  gpuOk mem (d <| resourceBytes := u64 (resourceBytes d - zlen (res_data res)) |> <| resources := delete id (resources d) |>).
Proof.
  intros G Hid Hs. pose proof (allocated_delete _ _ _ Hid) as Hd. pose proof (allocated_nonneg (delete id (resources d))).
  pose proof (zlen_nonneg (res_data res)).
  assert (Hb : u64 (resourceBytes d - zlen (res_data res)) = allocated (delete id (resources d))).
  { rewrite (go_bytes _ _ G), <- Hd. apply u64_small. pose proof (go_bytes _ _ G). pose proof (go_limit _ _ G).
    unfold gpuResourceLimit in *. lia. }
  destruct G. constructor; cbn; try done.
  - by apply lookup_delete_None; right.
  - by apply map_Forall_delete.
  - rewrite Hb. lia.
  - rewrite map_size_delete_Some by by exists res. lia.
  - destruct go_scanout0 as [?|(Hn & He & r & Hl & Hc)]; [by left|right]. cbn. splits; try done.
    exists r. by rewrite lookup_delete_ne.
Qed.

Lemma wp_cmdResourceUnref req s : ginv s -> wp (cmdResourceUnref req) s (cmd_ok s) (fun _ _ => False).
Proof.
  intros B. unfold cmdResourceUnref. destruct (_ <? _); [wstep; auto with go|]. cbv zeta. set (id := reqU32 req 0).
  do 3 wstep. pose proof (proj2 B) as G. destruct (resources (snd s) !! id) as [res|] eqn:Hid; [|do 2 wstep; auto with go].
  unfold updG. do 2 wstep. destruct (scanout (snd s) =? id) eqn:E; zbool; do 2 wstep; apply (cmd_dev s); try done; cbn [fst snd].
  - pose proof (gpuOk_noScanout _ _ G) as G'.
    set (d' := snd s <| scanout := 0 |> <| scanoutRect := ZR |> <| frame := None |> <| composite := None |>) in G'.
    assert (id <> 0) by (intros H0; rewrite H0, (go_zero _ _ G) in Hid; done).
    apply (gpuOk_delete _ d' id res) in G'; [exact G'|done|done].
  - by apply gpuOk_delete.
Qed.

Lemma bindScanout_ok mem d id res rect :
  gpuOk mem d -> id <> 0 -> resources d !! id = Some res -> Empty rect = false -> contained rect (resBounds res) ->
  gpuOk mem (bindScanout id rect d).
Proof.
  intros G Hid Hres He Hc. unfold bindScanout. destruct (_ || _) eqn:E.
  - destruct G. constructor; cbn; try done. right. cbn. splits; try done. by exists res.
  - zbool. destruct G. constructor; cbn; try done; [right; cbn; splits; try done; by exists res|].
    intros f Hf. destruct (go_frame0 f Hf) as (? & Hb & ?). destruct (bool_decide _) eqn:E2; [|done].
    apply bool_decide_eq_true in E2. by rewrite <- E2.
Qed.

Lemma bindScanout_none mem d : gpuOk mem d -> gpuOk mem (bindScanout 0 ZR d).
Proof.
  intros G. unfold bindScanout. destruct (_ || _) eqn:E.
  - by apply gpuOk_noScanout.
  - zbool. destruct G. constructor; cbn; try done; [by left|]. intros f Hf. destruct (go_frame0 f Hf) as (_ & _ & ?). lia.
Qed.

(** A rectangle that passed the checks of a command. *)
Lemma rect_checked res x y w h :
  is_u32 x -> is_u32 y -> is_u32 w -> is_u32 h ->
  0 < res_width res <= gpuMaxDimension -> 0 < res_height res <= gpuMaxDimension ->
  (res_width res <? x) || (res_height res <? y) || (u32 (res_width res - x) <? w) || (u32 (res_height res - y) <? h) = false ->
  x + w <= res_width res /\ y + h <= res_height res /\ u32 (x + w) = x + w /\ u32 (y + h) = y + h /\
  Rect x y (x + w) (y + h) = mkRect x y (x + w) (y + h).
Proof.
  unfold is_u32, gpuMaxDimension. intros Hx Hy Hw Hh HW HH E. zbool.
  rewrite (u32_small (res_width res - x)), (u32_small (res_height res - y)) in * by lia.
  rewrite !u32_small by lia. splits; try lia. unfold Rect. f_equal; lia.
Qed.

Lemma res_dims mem res : res_ok mem res -> 0 < res_width res <= gpuMaxDimension /\ 0 < res_height res <= gpuMaxDimension.
Proof. intros [? ? [? ? _ _] _ _ _]. lia. Qed.

Lemma wp_cmdSetScanout req s : ginv s -> bytes_ok req -> wp (cmdSetScanout req) s (cmd_ok s) (fun _ _ => False).
Proof.
  intros B Hb. pose proof (proj2 B) as G. unfold cmdSetScanout. wif E0; [wstep; auto with go|]. cbv zeta. wif E1; [wstep; auto with go|].
  unfold updG. wif E2.
  { do 3 wstep. apply cmd_dev; try done; [by apply bindScanout_none|..];
      unfold bindScanout; by destruct (_ || _). }
  do 2 wstep. cbv beta. zbool. set (id := reqU32 req (gpuRectLen + 4)) in *.
  destruct (resources (snd s) !! id) as [res|] eqn:Hid; [|wstep; auto with go].
  wif E3; [wstep; auto with go|]. rewrite <- !orb_assoc in E3. apply orb_false_iff in E3 as [Ew E3].
  apply orb_false_iff in E3 as [Eh E3]. rewrite !orb_assoc in E3.
  pose proof (fun o => reqU32_range req o Hb) as Hr. pose proof (res_dims _ _ (go_res _ _ G _ _ Hid)) as [HW HH].
  destruct (rect_checked res _ _ _ _ (Hr 0) (Hr 4) (Hr 8) (Hr 12) HW HH E3) as (Hx & Hy & -> & -> & ->).
  pose proof (Hr 0) as H0. pose proof (Hr 4) as H4. pose proof (Hr 8) as H8. pose proof (Hr 12) as H12. unfold is_u32 in *. zbool.
  do 3 wstep. apply cmd_dev; try done; [|unfold bindScanout; by destruct (_ || _)..].
  apply (bindScanout_ok _ _ _ res); try done; [apply Empty_spec; cbn; lia|]. unfold contained, resBounds, Rect; cbn. lia.
Qed.

Lemma wp_cmdResourceFlush req s : ginv s -> bytes_ok req -> wp (cmdResourceFlush req) s (cmd_ok s) (fun _ _ => False).
Proof.
  intros B Hb. pose proof (proj2 B) as G. unfold cmdResourceFlush. wif E0; [wstep; auto with go|]. cbv zeta. do 2 wstep. cbv beta.
  set (id := reqU32 req gpuRectLen). destruct (resources (snd s) !! id) as [res|] eqn:Hid; [|wstep; auto with go].
  wif E1; [wstep; auto with go|]. wstep. wif E2; [|do 2 wstep; auto with go]. zbool. set (damage := Rect _ _ _ _).
  assert (Hf : exists d', flushDamage res damage (snd s) = Some d' /\ gpuOk (Mem (fst s)) d' /\
    g_VirtQueue d' = g_VirtQueue (snd s) /\ g_closed d' = g_closed (snd s) /\ g_LastAvailIdx d' = g_LastAvailIdx (snd s)).
  { destruct (display (snd s)) as [p|] eqn:Hp; [|unfold flushDamage; rewrite Hp; by exists (snd s)].
    assert (Hs : scanout (snd s) <> 0) by (intros Hz0; rewrite Hz0 in E2; by rewrite <- E2, (go_zero _ _ G) in Hid).
    destruct (Empty (Intersect damage (scanoutRect (snd s)))) eqn:He.
    - exists (snd s). split; [|done]. unfold flushDamage. rewrite Hp. destruct (_ || _); [done|].
      destruct (go_scanout _ _ G) as [[? _]|(_ & -> & _)]; [done|]. by rewrite He.
    - rewrite <- E2 in Hid. destruct (flushDamage_spec _ _ p res damage G Hp Hs Hid He) as (d' & f & c & Hfl & G' & _ & _ & Hd' & _).
      exists d'. splits; [done|done|by rewrite Hd'..]. }
  destruct Hf as (d' & -> & G' & Hq & Hc & Hlast). unfold orPanic, updG. do 4 wstep. by apply cmd_dev.
Qed.

Lemma wp_cmdTransferToHost2D req s : ginv s -> bytes_ok req -> wp (cmdTransferToHost2D req) s (cmd_ok s) (fun _ _ => False).
Proof.
  intros B Hb. pose proof (proj2 B) as G. unfold cmdTransferToHost2D. wif E0; [wstep; auto with go|]. cbv zeta. do 2 wstep. cbv beta.
  set (id := reqU32 req (gpuRectLen + 8)). destruct (resources (snd s) !! id) as [res|] eqn:Hid; [|wstep; auto with go].
  wif E1; [wstep; auto with go|]. apply orb_false_iff in E1 as [E1 Eo]. apply Z.ltb_ge in Eo.
  pose proof (fun o => reqU32_range req o Hb) as Hr. pose proof (go_res _ _ G _ _ Hid) as Hres. pose proof (res_dims _ _ Hres) as [HW HH].
  destruct (rect_checked res _ _ _ _ (Hr 0) (Hr 4) (Hr 8) (Hr 12) HW HH E1) as (Hx & Hy & _ & _ & _).
  pose proof (Hr 0) as H0. pose proof (Hr 4) as H4. pose proof (Hr 8) as H8. pose proof (Hr 12) as H12. unfold is_u32 in *.
  assert (Ho : 0 <= reqU64 req gpuRectLen) by apply (le_uint64_range req _ Hb).
  wstep. wcall wp_transferToHost2D; try done; try lia. intros data s1 (G1 & Hl & Hbd & Hq).
  pose proof (greads_inv _ _ B G1) as B1. unfold setResource, updG. do 3 wstep.
  assert (S1 : gstep s s1) by by apply greads_step.
  constructor; [|apply respNoData_ok|rewrite zlen_respNoData; unfold gpuCtrlHdrLen; lia|intros Hg; by destruct (Hq Hg) as [-> _]|cbn; by rewrite (proj2 G1)].
  eapply gstep_trans; [exact S1|]. rewrite (proj2 G1). apply gstep_dev; try done; [|by rewrite (proj2 G1)..]. destruct G1 as [_ Hsnd]. rewrite <- Hsnd in Hid |- *.
  pose proof (go_res _ _ (proj2 B1) _ _ Hid) as Hres1.
  apply (gpuOk_replace _ _ id res); try done; [apply B1|]. destruct Hres1 as [? ? [? ? ? ?] ? ? ?]. constructor; try done.
  constructor; cbn; try done; [congruence|auto].
Qed.

Lemma readEntries_ok mem req n off l :
  bytes_ok req -> readEntries mem req n off = Some l -> Forall (entry_ok mem) l /\ zlen l <= Z.of_nat n.
Proof.
  intros Hb. revert off l. induction n as [|n IH]; intros off l; cbn [readEntries]; [by intros [= <-]|].
  destruct (_ <? _); [intros [= <-]; split; [constructor|unfold zlen; cbn; lia]|].
  destruct (ValidRange _ _ _) eqn:Ev; [|done]. cbn [negb]. destruct (readEntries mem req n (off + 16)) as [l'|] eqn:E; [|done].
  intros [= <-]. destruct (IH _ _ E) as [Hl Hn]. rewrite zlen_cons. split; [|lia]. constructor; [|done].
  split; [by apply le_uint64_range|]. split; [by apply le_uint32_range|done].
Qed.

Lemma wp_cmdResourceAttachBacking req s :
  ginv s -> bytes_ok req -> wp (cmdResourceAttachBacking req) s (cmd_ok s) (fun _ _ => False).
Proof.
  intros B Hb. pose proof (proj2 B) as G. unfold cmdResourceAttachBacking. wif E0; [wstep; auto with go|]. cbv zeta. do 2 wstep. cbv beta.
  set (id := reqU32 req 0). destruct (resources (snd s) !! id) as [res|] eqn:Hid; [|wstep; auto with go].
  wif E1; [wstep; auto with go|]. zbool. pose proof (reqU32_range req 4 Hb) as Hn. unfold is_u32 in Hn.
  destruct (readEntries _ _ _ _) as [l|] eqn:El; [|wstep; auto with go]. destruct (readEntries_ok _ _ _ _ _ Hb El) as [Hl Hz].
  unfold setResource, updG. do 3 wstep. apply cmd_dev; try done.
  apply (gpuOk_replace _ _ id res); try done. destruct (go_res _ _ G _ _ Hid). constructor; try done; [by destruct ro_pixels0|cbn; lia].
Qed.

Lemma wp_cmdResourceDetachBacking req s : ginv s -> wp (cmdResourceDetachBacking req) s (cmd_ok s) (fun _ _ => False).
Proof.
  intros B. pose proof (proj2 B) as G. unfold cmdResourceDetachBacking. wif E0; [wstep; auto with go|]. do 3 wstep. cbv beta.
  destruct (resources (snd s) !! reqU32 req 0) as [res|] eqn:Hid; [|do 2 wstep; auto with go].
  unfold setResource, updG. do 2 wstep. apply cmd_dev; try done.
  apply (gpuOk_replace _ _ _ res); try done. destruct (go_res _ _ G _ _ Hid). constructor; try done; by destruct ro_pixels0.
Qed.

Lemma echoFence_ok req resp : bytes_ok req -> bytes_ok resp -> bytes_ok (echoFence req resp).
Proof.
  intros Hq Hr. unfold echoFence. destruct (_ || _); [done|]. destruct (_ =? 0); [done|].
  apply bytes_ok_write; [by apply bytes_ok_put_le|by apply bytes_ok_slice].
Qed.

Lemma zlen_echoFence req resp : zlen (echoFence req resp) = zlen resp.
Proof.
  unfold echoFence. destruct (_ || _) eqn:E; [done|]. zbool. destruct (_ =? 0); [done|]. unfold gpuCtrlHdrLen in *.
  rewrite zlen_write by lia. rewrite zlen_put_le by lia. rewrite zlen_slice by lia. cbn [Z.eqb]. lia.
Qed.

Lemma wp_handleControl req s : ginv s -> bytes_ok req -> wp (handleControl req) s (cmd_ok s) (fun _ _ => False).
Proof.
  intros B Hb. unfold handleControl. wif E0; [wstep; auto with go|]. wstep. unfold runCommand. cbv zeta.
  apply wp_mono with (Q := cmd_ok s) (E := fun _ _ => False); [|..|done].
  - repeat (wif E; [clear E; auto using wp_cmdGetDisplayInfo, wp_cmdResourceCreate2D, wp_cmdResourceUnref, wp_cmdSetScanout,
      wp_cmdResourceFlush, wp_cmdTransferToHost2D, wp_cmdResourceAttachBacking, wp_cmdResourceDetachBacking|clear E]).
    wstep. auto with go.
  - intros resp s' []. wstep. constructor; [done|by apply echoFence_ok|by rewrite zlen_echoFence|done|done].
Qed.

(** ** Cursor commands *)

Lemma cursor_ok mem d c :
  gpuOk mem d -> (forall img, cur_image c = Some img -> image_ok img /\ Bounds img = Rect 0 0 gpuCursorSize gpuCursorSize) ->
  gpuOk mem (d <| g_cursor := c |>).
Proof. intros [] Hc. by constructor. Qed.

Lemma wp_handleCursor req s : ginv s -> bytes_ok req -> wp (handleCursor req) s (fun _ s' => gstep s s') (fun _ _ => False).
Proof.
  intros B Hb. pose proof (proj2 B) as G. pose proof (go_cursor _ _ G) as Hc. unfold handleCursor.
  wif E0; [wstep; auto with go|]. wif E1; [wstep; auto with go|]. cbv zeta. unfold updG. wif E2.
  - wif E3.
    { do 5 wstep. apply (gstep_dev s); try done. by repeat apply cursor_ok. }
    do 2 wstep. cbv beta. destruct (resources (snd s) !! _) as [res|] eqn:Hid; [|wstep; auto with go].
    wif E4; [wstep; auto with go|]. zbool. pose proof (go_res _ _ G _ _ Hid) as Hres.
    destruct (resourceImage_ok res true (ro_pixels _ _ Hres)) as (img & -> & Hio & Hib).
    unfold orPanic. do 6 wstep. apply (gstep_dev s); try done.
    assert (Hi : image_ok img /\ Bounds img = Rect 0 0 gpuCursorSize gpuCursorSize).
    { split; [done|]. rewrite Hib. unfold resBounds. congruence. }
    repeat apply cursor_ok; cbn; try done; by intros ? [= <-].
  - wif E3; [|wstep; auto with go]. do 3 wstep. apply (gstep_dev s); try done. by apply cursor_ok.
Qed.

(** ** Queues *)

Lemma wp_gpuDesc q i s :
  ginv s -> queue_ok (Mem (fst s)) q -> 0 <= i < QueueSize ->
  wp (onT (loadDesc q i)) s
    (fun desc s' => greads s s' /\ is_u64 (d_Addr desc) /\ is_u32 (d_Len desc) /\ is_u16 (d_Next desc))
    (fun _ _ => False).
Proof.
  intros B Hq Hi. apply wp_onT. wcall wp_loadDesc; [done|done| |done].
  intros desc t' [Hy ->]. split; [done|]. apply decodeDesc_range, bytes_ok_slice, (yields_mem _ _ Hy), (tw_mem _ (proj1 B)).
Qed.

(** The writable segments are guest memory. *)
Definition segs_ok (mem : list Z) (wr : list (Z * Z)) : Prop :=
  Forall (fun b => in_ram mem (fst b) (snd b) /\ 0 <= snd b) wr.

Lemma segs_ok_len mem mem' wr : zlen mem' = zlen mem -> segs_ok mem wr -> segs_ok mem' wr.
Proof.
  intros Hl Hw. eapply list.Forall_impl; [exact Hw|]. intros b [[? Hv] ?]. split; [|done]. split; [done|].
  by rewrite (ValidRange_len _ _ _ _ Hl).
Qed.

Definition chain_ok (s : GPU) (c : list Z * list (Z * Z)) (s' : GPU) : Prop :=
  greads s s' /\ bytes_ok (fst c) /\ segs_ok (Mem (fst s')) (snd c).

Lemma chain_ok_nil s s' : greads s s' -> chain_ok s ([], []) s'.
Proof. intros G. split; [done|]. split; constructor. Qed.

Lemma chain_ok_step s s1 c s2 : greads s s1 -> chain_ok s1 c s2 -> chain_ok s c s2.
Proof. intros G1 (G2 & Hr & Hw). split; [by eapply greads_trans|done]. Qed.

Lemma wp_collectChain fuel q descID seen req wr s :
  ginv s -> queue_ok (Mem (fst s)) q -> 0 <= descID -> zlen seen = QueueSize -> bytes_ok req -> segs_ok (Mem (fst s)) wr ->
  (unseen seen < fuel)%nat ->
  wp (collectChain fuel q descID seen req wr) s (chain_ok s) (fun _ _ => False).
Proof.
  revert descID seen req wr s. induction fuel as [|fuel IH]; intros descID seen req wr s B Hq Hd Hs Hb Hw Hf; [lia|].
  cbn [collectChain]. pose proof (ringSize_pos _ _ Hq) as Hqs. wif E; [wstep; apply chain_ok_nil; auto with go|]. zbool.
  assert (Hsf : zlookup seen descID = Some false).
  { destruct (zlookup_Some seen descID) as [[] Hl]; [lia|by rewrite Hl in *|done]. }
  pose proof (unseen_insert _ _ Hsf). wstep. wcall wp_gpuDesc; [done|done|lia| |done].
  intros desc s1 (G1 & Ha & Hl & Hn). pose proof (greads_inv _ _ B G1) as B1. do 2 wstep.
  wif E1; [wstep; by apply chain_ok_nil|]. zbool. cbv zeta. unfold is_u64, is_u32, is_u16 in *.
  assert (Hlen : zlen (Mem (fst s1)) = zlen (Mem (fst s))) by apply (yields_mem _ _ (proj1 G1)).
  assert (Hnext : forall req wr s2, greads s s2 -> bytes_ok req -> segs_ok (Mem (fst s2)) wr ->
    wp (if d_Flags desc &&& descFNext =? 0 then ret (req, wr)
        else collectChain fuel q (d_Next desc) (zinsert descID true seen) req wr) s2 (chain_ok s) (fun _ _ => False)).
  { intros req' wr' s2 G2 Hb' Hw'. wif E2; [wstep; by split|].
    wcall IH; [by apply (greads_inv s)|by apply (greads_queue s)|lia|by rewrite zlen_insert|done|done|lia| |done].
    intros c s3. by apply chain_ok_step. }
  apply (segs_ok_len _ (Mem (fst s1))) in Hw; [|done]. wif E2.
  - apply Hnext; [done|done|]. apply Forall_app. split; [done|]. constructor; [|constructor]. cbn. split; [split; [lia|done]|lia].
  - wif E3; [wstep; by apply chain_ok_nil|]. wstep. apply wp_onT. wcall wp_memLoad; [done| |done]. intros b t2 [Hy ->].
    assert (G2 : greads s (t2, snd s1)) by (eapply greads_trans; [exact G1|done]).
    destruct (yields_mem _ _ Hy) as [Hl2 Hb2]. apply Hnext; [done| |by apply (segs_ok_len (Mem (fst s1)))].
    apply Forall_app. split; [done|]. apply bytes_ok_slice, Hb2, (tw_mem _ (proj1 B1)).
Qed.

Lemma wp_writeResponse wr resp written s :
  ginv s -> segs_ok (Mem (fst s)) wr -> bytes_ok resp ->
  wp (writeResponse wr resp written) s (fun _ s' => greads s s') (fun _ _ => False).
Proof.
  revert resp written s. induction wr as [|[a n] wr IH]; intros resp written s B Hw Hb; cbn [writeResponse]; [wstep; auto with go|].
  wif E; [wstep; auto with go|]. inversion Hw as [|? ? [Ha Hn] Hw']; subst. cbn [fst snd] in *. cbv zeta. pose proof (zlen_nonneg resp).
  set (k := Z.min n (zlen resp)). assert (Hk : zlen (take (Z.to_nat k) resp) = k) by (apply zlen_take; lia).
  assert (Hr : in_ram (Mem (fst s)) a (zlen (take (Z.to_nat k) resp))) by (rewrite Hk; apply (in_ram_prefix _ _ n); [done|lia]).
  pose proof (proj2 Hr) as Hv. rewrite Hk in Hv. do 3 wstep. rewrite Hv. apply wp_onT. wcall wp_memStore; [apply Hr| |done].
  intros [] t1 Hs. assert (Hy : yields (fst s) t1) by (eapply stored_yields; [exact Hr|by apply Forall_take|exact Hs]).
  cbv beta. wcall IH; [by apply (ginv_yields s)| |by apply Forall_drop| |done].
  - apply (segs_ok_len (Mem (fst s))); [apply (yields_mem _ _ Hy)|done].
  - intros u s2 G2. eapply greads_trans; [|exact G2]. done.
Qed.

Lemma wp_gpuStore q s a b o :
  ginv s -> queue_ok (Mem (fst s)) q -> a = sq_Used q + o -> 0 <= o -> o + zlen b <= sizeofSplitUsed -> bytes_ok b ->
  wp (onT (memStore a b)) s (fun _ s' => greads s s') (fun _ _ => False).
Proof.
  intros B Hq -> Ho He Hb. pose proof (zlen_nonneg b).
  assert (Hr : in_ram (Mem (fst s)) (sq_Used q + o) (zlen b)).
  { destruct (qo_used _ _ Hq) as [Hu Hv]. split; [lia|]. eapply in_ram_range; [split; [exact Hu|exact Hv]|lia..]. }
  apply wp_onT. wcall wp_memStore; [apply Hr| |done]. intros [] t1 Hs. split; [|done]. by eapply stored_yields.
Qed.

Lemma wp_gpuUsedRing q s i e :
  ginv s -> queue_ok (Mem (fst s)) q -> 0 <= i < QueueSize ->
  wp (onT (storeUsedRing q i e)) s (fun _ s' => greads s s') (fun _ _ => False).
Proof.
  unfold QueueSize. intros B Hq Hi. apply (wp_gpuStore q s _ _ (4 + 8 * i)); [done|done|lia|lia| |].
  - change (zlen _) with 8. unfold sizeofSplitUsed. lia.
  - apply Forall_app. split; apply le_bytes_ok.
Qed.

Lemma wp_gpuAddUsed q s n :
  ginv s -> queue_ok (Mem (fst s)) q -> wp (onT (addUsedIdx q n)) s (fun _ s' => greads s s') (fun _ _ => False).
Proof.
  intros B Hq. apply wp_onT. wcall wp_addUsedIdx; [done| |done]. intros [] t2 (t1 & Hy1 & Hs2).
  split; [|done]. cbn [fst]. eapply yields_trans; [exact Hy1|].
  eapply stored_yields; [|apply le_bytes_ok|exact Hs2]. change (zlen _) with 2.
  destruct (qo_used _ _ Hq) as [Hu Hv]. split; [lia|]. rewrite (ValidRange_len (Mem (fst s))) by apply (yields_mem _ _ Hy1).
  eapply in_ram_range; [split; [exact Hu|exact Hv]|unfold sizeofSplitUsed; lia..].
Qed.

Lemma setLast_ok mem d sel v : gpuOk mem d -> is_u16 v -> sel = 0 \/ sel = 1 -> gpuOk mem (setLast sel v d).
Proof.
  intros G Hv Hs. destruct G. destruct go_queues0 as [Hq (i & j & Hl & Hi & Hj)]. constructor; try done.
  split; [done|]. unfold setLast; cbn. rewrite Hl. destruct Hs as [-> | ->]; cbn; by eexists _, _.
Qed.

Lemma gpuQueueOf_ok mem d sel q : gpuQueuesOk mem d -> gpuQueueOf d sel = Some q -> queue_ok mem q.
Proof.
  intros [(a & b & Hq & Ho) _]. unfold gpuQueueOf, zlookup. rewrite Hq. destruct (sel <? 0); [done|].
  destruct (Z.to_nat sel) as [|[|n]]; cbn; [destruct a|destruct b|destruct n]; intros [= <-]; auto.
Qed.

Lemma ring_slot mem q i : queue_ok mem q -> 0 <= i mod ringSize q < QueueSize.
Proof. intros Hq. pose proof (ringSize_pos _ _ Hq). pose proof (Z.mod_pos_bound i (ringSize q)). lia. Qed.

Lemma wp_processOne q sel control s :
  ginv s -> queue_ok (Mem (fst s)) q -> sel = 0 \/ sel = 1 ->
  wp (processOne q sel control) s (fun _ s' => gstep s s') (fun _ _ => False).
Proof.
  intros B Hq Hsel. unfold processOne. do 3 wstep. apply wp_onT. wcall wp_loadAvailRing; [done|by eapply ring_slot| |done].
  intros head t1 [Hy1 Hh]. assert (G1 : greads s (t1, snd s)) by done. pose proof (greads_inv _ _ B G1) as B1.
  assert (Hhead : 0 <= head) by (rewrite Hh; apply le_uint16_range, (tw_mem _ (proj1 B1))).
  wstep. wcall wp_collectChain; [done|by apply (greads_queue s)|done|done|constructor|constructor|by vm_compute; lia| |done].
  intros [req wr] s2 (G2' & Hreq & Hwr). cbn [fst snd] in Hreq, Hwr |- *.
  pose proof (greads_trans _ _ _ G1 G2') as G2. pose proof (greads_inv _ _ B G2) as B2.
  wstep. apply wp_mono with (Q := fun _ s' => gstep s2 s') (E := fun _ _ => False); [|..|done].
  { destruct control; wstep.
    - wcall wp_handleControl; [done|done| |done]. intros resp s3 [S3 Hresp _ _ _]. wstep.
      wcall wp_writeResponse; [apply S3| |done| |done]; [apply (segs_ok_len (Mem (fst s2))); [apply S3|done]|].
      intros used s4 G4. wstep. eapply gstep_trans; [exact S3|]. apply greads_step; [apply S3|done].
    - wcall wp_handleCursor; [done|done| |done]. intros c s3 S3. by wstep. }
  intros [used changed] s3 S3'. cbn [fst snd].
  assert (S3 : gstep s s3) by (eapply gstep_trans; [by apply greads_step|done]). pose proof (gs_inv _ _ S3) as B3.
  assert (Hq3 : queue_ok (Mem (fst s3)) q) by (apply (queue_ok_len _ _ _ (gs_len _ _ S3) Hq)).
  wstep. apply wp_onT. wcall wp_loadUsedIdx; [done| |done]. intros u t4 [Hy4 _].
  assert (G4 : greads s3 (t4, snd s3)) by done. pose proof (greads_queue _ _ _ G4 Hq3) as Hq4.
  wstep. wcall wp_gpuUsedRing; [by apply (greads_inv s3)|done|by eapply ring_slot| |done]. intros [] s5 G5'.
  pose proof (greads_trans _ _ _ G4 G5') as G5.
  wstep. wcall wp_gpuAddUsed; [by apply (greads_inv s3)|by apply (greads_queue s3)| |done]. intros [] s6 G6'.
  pose proof (greads_trans _ _ _ G5 G6') as G6. pose proof (greads_inv _ _ B3 G6) as B6.
  unfold updG. do 3 wstep. eapply gstep_trans; [exact S3|]. eapply gstep_trans; [by apply greads_step|].
  apply gstep_dev; try done. apply setLast_ok; [apply B6|apply u16_range|done].
Qed.

Lemma wp_processLoop n q sel control changed s :
  ginv s -> queue_ok (Mem (fst s)) q -> sel = 0 \/ sel = 1 ->
  wp (processLoop n q sel control changed) s (fun _ s' => gstep s s') (fun _ _ => False).
Proof.
  intros B Hq Hsel. revert changed s B Hq. induction n as [|n IH]; intros changed s B Hq; cbn [processLoop]; [wstep; auto with go|].
  wstep. apply wp_onT. wcall wp_loadAvailIdx; [done| |done]. intros idx t1 [Hy1 _].
  assert (G1 : greads s (t1, snd s)) by done. pose proof (greads_inv _ _ B G1) as B1. pose proof (greads_queue _ _ _ G1 Hq) as Hq1.
  do 2 wstep. wif E; [wstep; by apply greads_step|]. wstep. wcall wp_processOne; [done|done|done| |done].
  intros c s2 S2. wcall IH; [apply S2|apply (queue_ok_len _ _ _ (gs_len _ _ S2) Hq1)| |done].
  intros c' s3 S3. eapply gstep_trans; [exact (greads_step _ _ B G1)|]. exact (gstep_trans _ _ _ S2 S3).
Qed.

Lemma twf_irq t t' : twf t -> irq_only t t' -> twf t'.
Proof. intros T (w & l & i & ->). destruct T. by constructor. Qed.

Lemma wp_gpuInterrupt s : ginv s -> wp (onT Interrupt) s (fun _ s' => gstep s s') (fun _ s' => gstep s s').
Proof.
  intros [T G]. apply wp_onT. eapply wp_mono; [apply wp_Interrupt| |]; intros ? t' Hi; pose proof (twf_irq _ _ T Hi);
    destruct Hi as (w & l & i & ->); constructor; try done.
Qed.

Lemma wp_process sel control s :
  ginv s -> sel = 0 \/ sel = 1 -> wp (process sel control) s (fun _ s' => gstep s s') (fun _ s' => gstep s s').
Proof.
  intros B Hsel. unfold process. do 2 wstep. wif E0; [wstep; auto with go|].
  destruct (gpuQueueOf (snd s) sel) as [q|] eqn:Hqo; [|wstep; auto with go].
  pose proof (gpuQueueOf_ok _ _ _ _ (go_queues _ _ (proj2 B)) Hqo) as Hq. cbv zeta.
  wstep. apply wp_onT. wcall wp_loadAvailIdx; [done| |done]. intros i1 t1 [Hy1 _].
  assert (G1 : greads s (t1, snd s)) by done. pose proof (greads_inv _ _ B G1) as B1. pose proof (greads_queue _ _ _ G1 Hq) as Hq1.
  wif E1; wstep; apply wp_onT; (wcall wp_loadAvailIdx; [done| |done]); intros i2 t2 [Hy2 Hi2]; cbn [fst snd] in *;
    assert (G2 : greads s (t2, snd s)) by (split; [by eapply yields_trans|done]); pose proof (greads_inv _ _ B G2) as B2.
  - unfold updG. do 3 wstep. eapply gstep_trans; [exact (greads_step _ _ B G2)|]. apply gstep_dev; try done.
    apply setLast_ok; [apply B2| |done]. rewrite Hi2. apply le_uint16_range, (tw_mem _ (proj1 B2)).
  - wif E2; [wstep; by apply greads_step|]. wstep. wcall wp_processLoop; [done|by apply (greads_queue s)|done| |done].
    intros changed s3 S3'. assert (S3 : gstep s s3) by (eapply gstep_trans; [exact (greads_step _ _ B G2)|done]).
    wstep. apply wp_mono with (Q := fun _ s' => gstep s s') (E := fun _ _ => False); [|..|done].
    + destruct changed; [unfold updG|]; wstep; [|done]. destruct (present_same (snd s3)) as [Hpq Hpc].
      eapply gstep_trans; [exact S3|]. apply gstep_dev; try done; [apply S3|apply present_ok, S3].
    + intros [] s4 S4. eapply wp_mono; [apply wp_gpuInterrupt, S4| |]; intros ? s5 S5; exact (gstep_trans _ _ _ S4 S5).
Qed.

(** ** The device behind the transport *)

Lemma resetLocked_ok mem d : gpuOk mem d -> gpuOk mem (resetLocked d).
Proof.
  intros []. constructor; cbn; try done.
  - split; [exists None, None|exists 0, 0]; (split; [done|]); [naive_solver|]. unfold is_u16. lia.
  - by left.
  - destruct go_size0 as (? & ? & _). splits; try done.
Qed.

Lemma gpuReset_ok mem d : gpuOk mem d -> gpuOk mem (gpuReset d).
Proof.
  intros G. unfold gpuReset. pose proof (resetLocked_ok _ _ G) as G1. set (d1 := resetLocked d) in *.
  destruct (g_closed d1); [done|]. set (d2 := if bool_decide _ then present d1 else d1).
  assert (G2 : gpuOk mem d2) by (unfold d2; destruct (bool_decide _); [by apply present_ok|done]).
  destruct (display d2) as [p|]; [|done]. destruct (isReset p); [by apply display_ok|done].
Qed.

Lemma closed_ok mem d b : gpuOk mem d -> gpuOk mem (d <| g_closed := b |>).
Proof. intros []. by constructor. Qed.

Lemma closeErr_ok mem d e : gpuOk mem d -> gpuOk mem (d <| g_closeErr := e |>).
Proof. intros []. by constructor. Qed.

Lemma gpuClose_ok mem d : gpuOk mem d -> gpuOk mem (snd (gpuClose d)).
Proof.
  intros G. unfold gpuClose; cbn [snd]. destruct (g_closed d); [exact G|].
  pose proof (resetLocked_ok _ _ (closed_ok _ _ true G)) as G1.
  destruct (display (resetLocked _)) as [p|]; [|exact G1]. by apply closeErr_ok, display_ok.
Qed.

Lemma ldiff_range x y n : 0 <= x < 2 ^ n -> 0 <= n -> 0 <= Z.ldiff x y < 2 ^ n.
Proof.
  intros Hx Hn. assert (H0 : 0 <= Z.ldiff x y) by (apply Z.ldiff_nonneg; lia). split; [done|].
  destruct (Z.eq_dec (Z.ldiff x y) 0) as [->|]; [lia|]. apply Z.log2_lt_pow2; [lia|].
  pose proof (Z.bit_log2 (Z.ldiff x y) ltac:(lia)) as Hb. rewrite Z.ldiff_spec in Hb. apply andb_true_iff in Hb as [Hb _].
  destruct (Z_lt_ge_dec (Z.log2 (Z.ldiff x y)) n); [done|]. by rewrite (testbit_high x n) in Hb by lia.
Qed.

#[export] Instance gpu_laws : ModernDeviceLaws gpuDev.
Proof.
  refine {| dev_inv := gpuOk |}.
  - intros mem d off data []. constructor; try done. cbn. destruct go_size0 as (? & ? & ?). splits; try done.
    by apply ldiff_range.
  - intros mem d i q G Hk. unfold QueueReady, gpu_device, gpuQueueReady. destruct (_ && _) eqn:E; [|done]. zbool.
    unfold gpuNumQueues in *. destruct G. destruct go_queues0 as [(a & b & Hq & Ho) (x & y & Hl & Hx & Hy)].
    assert (is_u16 0) by (unfold is_u16; lia). assert (Hi : i = 0 \/ i = 1) by lia.
    constructor; try done. destruct Hi as [-> | ->]; cbn; rewrite Hq, Hl; cbn; split.
    + eexists _, _. split; [reflexivity|]. intros q' [[= <-]| ->]; auto.
    + by eexists _, _.
    + eexists _, _. split; [reflexivity|]. intros q' [-> |[= <-]]; auto.
    + by eexists _, _.
  - intros mem d i []. by constructor.
  - intros mem d f Hf. apply Some_inj in Hf. rewrite <- Hf. apply gpuReset_ok.
Defined.

(** The data of an access are bytes. *)
Definition action_ok (a : gpuAction) : Prop :=
  match a with ActAccess offset data _ => 0 <= offset /\ bytes_ok data | _ => True end.

(** A register write that supplies fewer bytes than the register has. *)
Definition short_action (a : gpuAction) : bool :=
  match a with ActAccess offset data isWrite => short_write offset data isWrite | _ => false end.

(** Raising the line, whether or not it works. *)
Lemma wp_raiseIRQ t : wp raiseIRQ t (fun _ t' => exists l, t' = t <| irq := l |>) (fun _ t' => exists l, t' = t <| irq := l |>).
Proof.
  unfold raiseIRQ. do 2 wstep. destruct (irqError t); [wstep; exists (irq t); by destruct t|].
  unfold wp, callSetLevel, callInject. destruct (setIRQLevel t), (irq_next (irq t)); by eexists.
Qed.

Lemma ginv_irq s l : ginv s -> ginv (fst s <| irq := l |>, snd s).
Proof. intros [T G]. split; [|done]. destruct T. by constructor. Qed.

Lemma wp_gpuRaise s : ginv s -> wp (onT raiseIRQ) s (fun _ s' => ginv s') (fun _ s' => ginv s').
Proof.
  intros B. apply wp_onT. eapply wp_mono; [apply wp_raiseIRQ| |]; intros ? t' (l & ->); by apply ginv_irq.
Qed.

Lemma wp_SetDisplaySize w h s : ginv s -> wp (SetDisplaySize w h) s (fun _ s' => ginv s') (fun _ s' => ginv s').
Proof.
  intros B. unfold SetDisplaySize. wif E0; [by wstep|]. do 2 wstep. wif E1; [by wstep|]. wif E2; [by wstep|].
  unfold updG. do 2 wstep. set (d' := snd s <| g_width := _ |> <| g_height := _ |> <| events := _ |>).
  assert (G' : gpuOk (Mem (fst s)) d').
  { destruct (proj2 B). constructor; try done. destruct go_size0 as (_ & _ & He). splits; [apply u32_range..|].
    apply lor_range; [done|unfold gpuEventDisplay; lia|lia]. }
  change (wp (onT ConfigChanged) (fst s, d') (fun _ s' => ginv s') (fun _ s' => ginv s')).
  clear E0 E1 E2. apply wp_onT. unfold ConfigChanged. do 4 wstep. cbn [fst].
  eapply wp_mono; [apply wp_raiseIRQ| |]; intros ? t' (l & ->); cbn [snd];
    (split; [|unfold setPendingInterrupt; destruct (_ =? 0); exact G']);
    destruct (proj1 B); unfold setPendingInterrupt; destruct (_ =? 0); by constructor.
Qed.

(** The calls of the host and the workers. *)
Lemma wp_runAction a s :
  ginv s -> match a with ActAccess _ _ _ => False | _ => True end ->
  wp (runAction a) s (fun _ s' => ginv s') (fun _ s' => ginv s').
Proof.
  intros B Ha. destruct a as [off data w| | | |w h| |st]; cbn [runAction].
  - done.
  - eapply wp_mono; [apply wp_process; [done|by left]| |]; intros ? s' S1; apply S1.
  - eapply wp_mono; [apply wp_process; [done|by right]| |]; intros ? s' S1; apply S1.
  - do 2 wstep. wif E; [by wstep|]. apply wp_onT. unfold ReinjectIfPending. do 2 wstep. cbv beta.
    destruct (interruptPending _).
    + eapply wp_mono; [apply wp_raiseIRQ| |]; intros ? t' (l & ->); by apply ginv_irq.
    + destruct s as [t d]. destruct (irqError _); by wstep.
  - by apply wp_SetDisplaySize.
  - unfold updG. wstep. split; [apply B|apply gpuClose_ok, B].
  - apply wp_updT. destruct B as [T G]. split; [|done]. destruct T. by constructor.
Qed.

Lemma NewGPU_inv p mem guest line : bytes_ok mem -> zlen mem < 2 ^ 63 -> ginv (NewGPU p mem guest line).
Proof.
  intros Hb Hl. split.
  - constructor; cbn; try done; try (unfold is_u32, is_u16, is_u8, is_u64; lia); [by exists 0, 0|].
    repeat constructor; cbn; unfold QueueSize; lia.
  - constructor; cbn; try done.
    + split; [exists None, None|exists 0, 0]; (split; [done|]); [naive_solver|]. unfold is_u16. lia.
    + by left.
Qed.

(** Every call returns, but for a short register write that panics. *)
Lemma runAction_safe a s : ginv s -> action_ok a ->
  returns (fst (runAction a s)) /\ ginv (snd (runAction a s)) \/ short_action a = true /\ fst (runAction a s) = Panic.
Proof.
  intros B Ha. assert (Hw : forall m : M GPU unit, wp m s (fun _ s' => ginv s') (fun _ s' => ginv s') ->
    returns (fst (m s)) /\ ginv (snd (m s))).
  { intros m. unfold wp. by destruct (m s) as [[] s']. }
  destruct a as [off data w| | | |w h| |st]; try (left; by apply Hw, wp_runAction).
  destruct Ha as [Ho Hb]. pose proof (MMIO_total off data w s B Ho Hb) as Hm. cbn [runAction short_action]. unfold gbind.
  destruct (MMIO off data w s) as [[x| | |] s']; try done; [left|by right]. destruct Hm as [I _]. by split.
Qed.

(** An execution that a short register write ends. *)
Definition ends_in_panic (l : list gpuAction) (s : GPU) : Prop :=
  exists l1 a l2, l = l1 ++ a :: l2 /\ short_action a = true /\ Forall returns (fst (runActions l1 s)) /\
    fst (runAction a (snd (runActions l1 s))) = Panic.

Lemma runActions_safe l s :
  ginv s -> Forall action_ok l ->
  Forall returns (fst (runActions l s)) /\ ginv (snd (runActions l s)) \/ ends_in_panic l s.
Proof.
  revert s. induction l as [|a l IH]; intros s B Hl; [by left|]. inversion Hl as [|? ? Ha Hl']; subst.
  destruct (runAction_safe a s B Ha) as [[Hr Hi]|[Hs Hp]].
  2: { right. exists [], a, l. by splits. }
  destruct (IH (snd (runAction a s)) Hi Hl') as [[Hrs Hi']|(l1 & b & l2 & -> & Hb & Hrs & Hp)].
  - left. cbn [runActions]. destruct (runAction a s) as [r s1]. cbn [fst snd] in *.
    destruct (runActions l s1) as [rs s2]. split; [by constructor|done].
  - right. exists (a :: l1), b, l2. cbn [runActions]. destruct (runAction a s) as [r s1]. cbn [fst snd] in *.
    destruct (runActions l1 s1) as [rs s2]. splits; [done|done|by constructor|done].
Qed.

(** ** What transfers and flushes do *)

(** The bytes after a transfer, pixel by pixel. *)
Lemma transferred_byte mem res x y w h offset px py c :
  pixels_ok res -> 0 <= x -> 0 <= y -> 0 <= w -> 0 <= h -> x + w <= res_width res -> y + h <= res_height res ->
  0 <= px < res_width res -> 0 <= py < res_height res -> 0 <= c < 4 ->
  let i := 4 * (py * res_width res + px) + c in
  zget (transferred mem res x y w h offset) i =
  if insideb (mkRect x y (x + w) (y + h)) px py
  then backingByte mem (res_backing res) (offset + 4 * ((py - y) * res_width res + (px - x)) + c) (zget (res_data res) i)
  else zget (res_data res) i.
Proof.
  intros [HW HH Hl _] Hx Hy Hw Hh Hxw Hyh Hpx Hpy Hc i. set (W := res_width res) in *. unfold transferred. fold W.
  assert (Hrow : forall k, 0 <= k < Z.of_nat (Z.to_nat h) -> zlen (transferRow mem res x y w offset (res_data res) k) = 4 * w).
  { intros k Hk. unfold transferRow. rewrite zlen_backingBytes. fold W. apply zlen_slice; nia. }
  destruct (insideb_spec (mkRect x y (x + w) (y + h)) px py) as [Hin|Hout]; unfold inside in *; cbn in *.
  - assert (Hi : i = 4 * (y * W + x) + (py - y) * (4 * W) + (4 * (px - x) + c)) by (unfold i; lia). rewrite Hi.
    rewrite (zget_putRows_in _ _ (4 * w) _ _ (Z.to_nat h)); try done; try lia; try nia.
    unfold transferRow. fold W. rewrite zget_backingBytes by (rewrite zlen_slice by nia; lia).
    rewrite zget_slice by nia. f_equal; [lia|f_equal; lia].
  - apply (zget_putRows_out _ _ (4 * w) _ _ (Z.to_nat h)); try done; try lia; try (unfold i; nia).
    intros k Hk. unfold i. destruct (decide (k = py - y)) as [->|]; [lia|].
    assert (k < py - y \/ py - y < k) as [Hk'|Hk'] by lia; [right|left]; nia.
Qed.

(** The checks of a command that a rectangle inside the resource passes. *)
Lemma rect_accepted res x y w h :
  is_u32 x -> is_u32 y -> is_u32 w -> is_u32 h ->
  0 < res_width res <= gpuMaxDimension -> 0 < res_height res <= gpuMaxDimension ->
  x + w <= res_width res -> y + h <= res_height res ->
  (res_width res <? x) || (res_height res <? y) || (u32 (res_width res - x) <? w) || (u32 (res_height res - y) <? h) = false.
Proof.
  unfold is_u32, gpuMaxDimension. intros. rewrite !u32_small by lia. rewrite !orb_false_iff, !Z.ltb_ge. lia.
Qed.

(** C27: TRANSFER_TO_HOST_2D of a rectangle inside the resource, while the guest
    waits: every pixel of the rectangle gets the bytes of its place in the
    scatter-gather backing, where the backing has them, whatever way the entries
    cut it and whether or not the rectangle takes the contiguous path; every
    other pixel and all other device state stay. *)
Theorem gpu_transfer_pixels (s : GPU) (req : list Z) (res : gpuResource) :
  let x := reqU32 req 0 in
  let y := reqU32 req 4 in
  let w := reqU32 req 8 in
  let h := reqU32 req 12 in
  let offset := reqU64 req gpuRectLen in
  let id := reqU32 req (gpuRectLen + 8) in
  let W := res_width res in
  ginv s -> guest (fst s) = [] -> bytes_ok req -> gpuCtrlHdrLen + gpuRectLen + 16 <= zlen req ->
  resources (snd s) !! id = Some res ->
  x + w <= W -> y + h <= res_height res -> offset <= zlen (res_data res) ->
  exists data,
    cmdTransferToHost2D req s =
      (Ok (respNoData gpuRespOKNoData),
       (fst s, snd s <| resources := <[id := res <| res_data := data |>]> (resources (snd s)) |>)) /\
    zlen data = zlen (res_data res) /\
    forall px py c, 0 <= px < W -> 0 <= py < res_height res -> 0 <= c < 4 ->
      let i := 4 * (py * W + px) + c in
      zget data i =
      if insideb (mkRect x y (x + w) (y + h)) px py
      then backingByte (Mem (fst s)) (res_backing res) (offset + 4 * ((py - y) * W + (px - x)) + c) (zget (res_data res) i)
      else zget (res_data res) i.
Proof.
  intros x y w h offset id W B Hg Hb Hl Hid Hxw Hyh Ho. pose proof (go_res _ _ (proj2 B) _ _ Hid) as Hres.
  pose proof (fun o => reqU32_range req o Hb) as Hr. pose proof (res_dims _ _ Hres) as [HW HH].
  pose proof (Hr 0) as H0. pose proof (Hr 4) as H4. pose proof (Hr 8) as H8. pose proof (Hr 12) as H12.
  fold x in H0. fold y in H4. fold w in H8. fold h in H12.
  assert (Ho0 : 0 <= offset) by apply (le_uint64_range req _ Hb).
  pose proof (rect_accepted res x y w h H0 H4 H8 H12 HW HH Hxw Hyh) as Hok. unfold is_u32 in *.
  pose proof (wp_transferToHost2D res x y w h offset s B Hres) as Hw. unfold wp in Hw.
  destruct (transferToHost2D res x y w h offset s) as [[data| | |] s1] eqn:Et; try (exfalso; apply Hw; lia).
  destruct Hw as (_ & Hlen & _ & Hq); try lia. destruct (Hq Hg) as [-> ->].
  exists (transferred (Mem (fst s)) res x y w h offset). splits; [|done|].
  - unfold cmdTransferToHost2D. apply Z.ltb_ge in Hl. rewrite Hl. unfold gbind at 1, gget. cbv beta iota zeta. fold x y w h offset id. rewrite Hid.
    rewrite Hok. destruct (zlen (res_data res) <? offset) eqn:E; zbool; [lia|]. cbn [orb]. unfold gbind at 1. rewrite Et. done.
  - intros px py c Hpx Hpy Hc. apply transferred_byte; try lia. apply Hres.
Qed.

(** C28: RESOURCE_FLUSH of the resource on the scanout: the frame takes the
    pixels of the damaged part of the viewport from the resource, converted from
    its format, all of them when the scanout was rebound, and keeps its other
    pixels; the display is told once, with the damage in viewport coordinates
    if it supports that, and with the cursor drawn over the frame if it cannot
    show one itself; nothing else of the device changes. *)
Theorem gpu_flush_shows (s : GPU) (req : list Z) (p : Display) (res : gpuResource) :
  let x := reqU32 req 0 in
  let y := reqU32 req 4 in
  let w := reqU32 req 8 in
  let h := reqU32 req 12 in
  let src := scanoutRect (snd s) in
  let area := Intersect (mkRect x y (x + w) (y + h)) src in
  ginv s -> bytes_ok req -> gpuCtrlHdrLen + gpuRectLen + 8 <= zlen req ->
  display (snd s) = Some p -> scanout (snd s) = reqU32 req gpuRectLen ->
  resources (snd s) !! scanout (snd s) = Some res ->
  x + w <= res_width res -> y + h <= res_height res -> Empty area = false ->
  exists d' f c,
    cmdResourceFlush req s = (Ok (respNoData gpuRespOKNoData), (fst s, d')) /\
    d' = snd s <| frame := Some f |> <| composite := composite d' |> <| display := Some (callDisplay c p) |> /\
    Bounds f = Rect 0 0 (Dx src) (Dy src) /\ flushCall (snd s) p area f c /\
    forall px py ch, inside (Bounds f) px py -> 0 <= ch < 4 ->
      chan f px py ch = flushedPixel res src area (frame (snd s)) px py ch.
Proof.
  intros x y w h src area B Hb Hl Hp Hs Hid Hxw Hyh He. pose proof (go_res _ _ (proj2 B) _ _ Hid) as Hres.
  pose proof (fun o => reqU32_range req o Hb) as Hr. pose proof (res_dims _ _ Hres) as [HW HH].
  pose proof (rect_accepted res x y w h (Hr 0) (Hr 4) (Hr 8) (Hr 12) HW HH Hxw Hyh) as Hok.
  destruct (rect_checked res x y w h (Hr 0) (Hr 4) (Hr 8) (Hr 12) HW HH Hok) as (_ & _ & Hxw' & Hyh' & HR).
  assert (Hs0 : scanout (snd s) <> 0) by (intros Hz; rewrite Hz, (go_zero _ _ (proj2 B)) in Hid; done).
  destruct (flushDamage_spec _ _ p res _ (proj2 B) Hp Hs0 Hid He) as (d' & f & c & Hfl & G' & Hf & Hbd & Hd' & Hcall & Hpx).
  exists d', f, c. splits; try done. unfold cmdResourceFlush. apply Z.ltb_ge in Hl. rewrite Hl.
  unfold gbind at 1, gget. cbv beta iota zeta. fold x y w h. rewrite <- Hs, Hid, Hok, Z.eqb_refl, Hxw', Hyh', HR.
  unfold gbind at 1. unfold gbind at 1. rewrite Hfl. done.
Qed.

(** ** Safety *)

(** C26: in every execution of the device, in which guest accesses to the BAR,
    both queue workers, mode changes, interrupts and the shutdown interleave
    while the guest stores what it likes, either every call returns without a
    panic or an access outside guest memory, or the execution ends in the one
    panic the device has, a guest write to a register of the transport that is
    shorter than the register.  When every call returns, the host memory the guest made
    the device allocate is exactly what the device accounts for, and within its
    limits; every resource has the pixels of its size and a backing of guest
    memory; and the scanout shows a part of an existing resource or nothing. *)
Theorem gpu_execution_safe (p : option Display) (mem : list Z) (guest : list guestStores) (line : irqLine) (l : list gpuAction) :
  bytes_ok mem -> zlen mem < 2 ^ 63 -> Forall action_ok l ->
  let rs := fst (runActions l (NewGPU p mem guest line)) in
  let s := snd (runActions l (NewGPU p mem guest line)) in
  ends_in_panic l (NewGPU p mem guest line) \/
  Forall returns rs /\ ginv s /\
  resourceBytes (snd s) = allocated (resources (snd s)) /\ allocated (resources (snd s)) <= gpuResourceLimit /\
  Z.of_nat (size (resources (snd s))) <= gpuMaxResources /\
  (forall id res, resources (snd s) !! id = Some res -> res_ok (Mem (fst s)) res) /\
  scanoutOk (snd s).
Proof.
  intros Hb Hm Hl rs s. destruct (runActions_safe l _ (NewGPU_inv p mem guest line Hb Hm) Hl) as [[Hr B]|Hp]; [right|by left].
  fold rs in Hr. fold s in B. pose proof (proj2 B) as G. pose proof (go_bytes _ _ G) as Hbytes. splits; try done; try apply G.
  rewrite <- Hbytes. apply G.
Qed.
