(* ===== verification/VirtioGpuRequest.v ===== *)
(** Control requests of the graphics device from the queue to the used ring, and
    a concrete device. *)

From S2P Require Import Prelude Bytes GuestMem VirtioModern VirtioQueue GpuImage VirtioGpu VirtioGpuSpec.

(** ** One request *)

(** A driver posted one control request, [reqL] bytes at [reqA] followed by a
    response buffer of [respL] bytes at [respA], and waits. *)
Record gpu_request (s : GPU) (q : SplitQueue) (head reqA reqL respA respL : Z) : Prop := {
  ge_inv : ginv s;
  ge_quiet : guest (fst s) = [];
  ge_open : g_closed (snd s) = false;
  ge_queue : gpuQueueOf (snd s) gpuControlQueue = Some q;
  ge_idx : availIdxAt (Mem (fst s)) q = u16 (gpuLastOf (snd s) gpuControlQueue + 1);
  ge_head : availRingAt (Mem (fst s)) q (gpuLastOf (snd s) gpuControlQueue mod ringSize q) = head;
  ge_range : 0 <= head < ringSize q;
  ge_chain : exists next n, descAt (Mem (fst s)) q head = mkDesc reqA reqL descFNext next /\
    descAt (Mem (fst s)) q next = mkDesc respA respL descFWrite n /\ 0 <= next < ringSize q /\ next <> head;
  ge_req : in_ram (Mem (fst s)) reqA reqL /\ 0 <= reqL <= gpuMaxRequest;
  ge_resp : in_ram (Mem (fst s)) respA respL /\ 0 <= respL;
  ge_apart : apart respA respL (sq_Avail q) sizeofSplitAvail /\ apart respA respL (sq_Used q) sizeofSplitUsed /\
    apart (sq_Avail q) sizeofSplitAvail (sq_Used q) sizeofSplitUsed
}.

Lemma gbind_assoc {S A B C} (m : M S A) (k : M S B) (f : B -> M S C) s :
  gbind m (fun _ => gbind k f) s = gbind (gbind m (fun _ => k)) f s.
Proof. unfold gbind. by destruct (m s) as [[]]. Qed.

Lemma zlookup_fresh i : 0 <= i < QueueSize -> zlookup (replicate (Z.to_nat QueueSize) false) i = Some false.
Proof.
  intros Hi. unfold zlookup. destruct (i <? 0) eqn:E; zbool; [lia|]. apply lookup_replicate. unfold QueueSize in *. split; [done|lia].
Qed.

(** A readable descriptor with a successor, and a last writable one. *)
Lemma collectChain_read fuel q i seen req t d a l next :
  guest t = [] -> queue_ok (Mem t) q -> 0 <= i < ringSize q -> zlookup seen i = Some false ->
  descAt (Mem t) q i = mkDesc a l descFNext next -> ValidRange (Mem t) a l = true -> 0 <= l ->
  zlen req + l <= gpuMaxRequest ->
  collectChain (S fuel) q i seen req [] (t, d) =
  collectChain fuel q next (zinsert i true seen) (req ++ zslice (Mem t) a l) [] (t, d).
Proof.
  intros Hg Hq Hi Hs Hd Hv Hl0 Hl. pose proof (ringSize_pos _ _ Hq). pose proof (zlen_nonneg req).
  assert (Hm : gpuMaxRequest < 2 ^ 32) by (vm_compute; reflexivity).
  cbn [collectChain]. destruct (ringSize q <=? i) eqn:E; zbool; [lia|]. rewrite Hs. change (default false (Some false)) with false. cbn [orb].
  unfold gbind at 1. rewrite loadDesc_quiet by (done || lia). rewrite Hd. unfold gbind at 1, gget.
  cbn [d_Flags d_Addr d_Len d_Next fst]. rewrite Hv. change (negb (descFNext &^ _ =? 0)) with false. cbn [negb orb].
  change (descFNext &&& descFWrite =? 0) with true. change (descFNext &&& descFNext =? 0) with false. cbn [negb].
  change (zlen [] =? 0) with true. cbn [negb orb]. rewrite u64_small by lia.
  destruct (gpuMaxRequest - zlen req <? l) eqn:E2; zbool; [lia|]. unfold gbind at 1. by rewrite load_quiet.
Qed.

Lemma collectChain_last fuel q i seen req t d a l next :
  guest t = [] -> queue_ok (Mem t) q -> 0 <= i < ringSize q -> zlookup seen i = Some false ->
  descAt (Mem t) q i = mkDesc a l descFWrite next -> ValidRange (Mem t) a l = true ->
  collectChain (S fuel) q i seen req [] (t, d) = (Ok (req, [(a, l)]), (t, d)).
Proof.
  intros Hg Hq Hi Hs Hd Hv. pose proof (ringSize_pos _ _ Hq).
  cbn [collectChain]. destruct (ringSize q <=? i) eqn:E; zbool; [lia|]. rewrite Hs. change (default false (Some false)) with false. cbn [orb].
  unfold gbind at 1. rewrite loadDesc_quiet by (done || lia). rewrite Hd. unfold gbind at 1, gget.
  cbn [d_Flags d_Addr d_Len d_Next fst]. rewrite Hv. change (negb (descFWrite &^ _ =? 0)) with false. cbn [negb orb].
  change (descFWrite &&& descFWrite =? 0) with false. by change (descFWrite &&& descFNext =? 0) with true.
Qed.

(** The chain of the request. *)
Lemma collectChain_request s q head reqA reqL respA respL :
  gpu_request s q head reqA reqL respA respL -> queue_ok (Mem (fst s)) q ->
  collectChain (Z.to_nat (QueueSize + 1)) q head (replicate (Z.to_nat QueueSize) false) [] [] s =
  (Ok (zslice (Mem (fst s)) reqA reqL, [(respA, respL)]), s).
Proof.
  intros R Hq. destruct s as [t d]. pose proof (ge_quiet _ _ _ _ _ _ _ R) as Hg. pose proof (ge_range _ _ _ _ _ _ _ R) as Hh.
  destruct (ge_chain _ _ _ _ _ _ _ R) as (next & n & Hd1 & Hd2 & Hn & Hne). destruct (ge_req _ _ _ _ _ _ _ R) as [[_ Hv1] Hl].
  destruct (ge_resp _ _ _ _ _ _ _ R) as [[_ Hv2] _]. cbn [fst snd] in *. pose proof (ringSize_pos _ _ Hq) as Hr.
  change (Z.to_nat (QueueSize + 1)) with (S (S 31)).
  rewrite (collectChain_read _ _ _ _ _ _ _ reqA reqL next); try done; try lia; [|apply zlookup_fresh; lia|rewrite zlen_nil; lia].
  cbn [app]. apply (collectChain_last _ _ _ _ _ _ _ respA respL n); try done.
  rewrite zlookup_insert by (unfold zlen; rewrite length_replicate; unfold QueueSize in *; lia).
  destruct (next =? head) eqn:E; zbool; [done|]. apply zlookup_fresh. lia.
Qed.

(** The response in guest memory, and its length. *)
Definition respLen (resp : list Z) (respL : Z) : Z := Z.min respL (zlen resp).
Definition respMem (mem : list Z) (respA respL : Z) (resp : list Z) : list Z :=
  zwrite mem respA (take (Z.to_nat (respLen resp respL)) resp).

Lemma writeResponse_quiet t d respA respL resp :
  guest t = [] -> in_ram (Mem t) respA respL -> 0 <= respL -> 0 < zlen resp < 2 ^ 32 ->
  writeResponse [(respA, respL)] resp 0 (t, d) =
  (Ok (respLen resp respL), (t <| Mem := respMem (Mem t) respA respL resp |>, d)).
Proof.
  intros Hg Hr Hl Hz. unfold writeResponse. destruct (zlen resp =? 0) eqn:E; zbool; [lia|]. cbv zeta.
  fold (respLen resp respL). assert (Hn : 0 <= respLen resp respL <= zlen resp) by (unfold respLen; lia).
  assert (Hv : ValidRange (Mem t) respA (respLen resp respL) = true).
  { apply (in_ram_prefix _ _ respL); [done|]. unfold respLen. lia. }
  unfold gbind at 1, gget. cbn [fst]. rewrite Hv. unfold gbind. rewrite store_quiet; [|done|by rewrite zlen_take].
  unfold ret. by rewrite Z.add_0_l, u32_small by lia.
Qed.

(** What a control request does to the device when nothing interferes. *)
Lemma handleControl_quiet req s :
  ginv s -> guest (fst s) = [] -> bytes_ok req ->
  exists resp d, handleControl req s = (Ok resp, (fst s, d)) /\ ginv (fst s, d) /\ bytes_ok resp /\
    gpuCtrlHdrLen <= zlen resp < 2 ^ 32 /\ g_LastAvailIdx d = g_LastAvailIdx (snd s).
Proof.
  intros B Hg Hb. pose proof (wp_handleControl req s B Hb) as Hw. unfold wp in Hw.
  destruct (handleControl req s) as [[resp| | |] [t d]]; try done. destruct Hw as [[] Hbr Hl Hq Hlast].
  cbn [fst snd] in *. rewrite (Hq Hg) in *. by exists resp, d.
Qed.

Section Request.
Variables (s : GPU) (q : SplitQueue) (head reqA reqL respA respL : Z) (resp : list Z) (d1 : gpuDev).
Hypotheses (R : gpu_request s q head reqA reqL respA respL)
  (Hh : handleControl (zslice (Mem (fst s)) reqA reqL) s = (Ok resp, (fst s, d1)))
  (Hresp : gpuCtrlHdrLen <= zlen resp < 2 ^ 32) (Hlast : g_LastAvailIdx d1 = g_LastAvailIdx (snd s)).

#[local] Abbreviation mem := (Mem (fst s)).
#[local] Abbreviation last := (gpuLastOf (snd s) gpuControlQueue).
#[local] Abbreviation mem1 := (respMem mem respA respL resp).
#[local] Abbreviation mem2 := (usedMem mem1 q head (respLen resp respL)).
#[local] Abbreviation d2 := (setLast gpuControlQueue (u16 (last + 1)) d1).

Lemma request_queue : queue_ok mem q.
Proof using R. eapply gpuQueueOf_ok; [apply (ge_inv _ _ _ _ _ _ _ R)|apply (ge_queue _ _ _ _ _ _ _ R)]. Qed.

Lemma respLen_range : 0 <= respLen resp respL <= respL /\ respLen resp respL <= zlen resp.
Proof using R. destruct (ge_resp _ _ _ _ _ _ _ R) as [_ Hl]. pose proof (zlen_nonneg resp). unfold respLen. lia. Qed.

Lemma zlen_resp : zlen (take (Z.to_nat (respLen resp respL)) resp) = respLen resp respL.
Proof using R. pose proof respLen_range. apply zlen_take. lia. Qed.

Lemma resp_bounds : 0 <= respA /\ respA + respL <= zlen mem.
Proof using R.
  destruct (ge_resp _ _ _ _ _ _ _ R) as [[Ha Hv] Hl]. destruct (ValidRange_spec _ _ _ Ha Hl Hv) as [He _]. done.
Qed.

Lemma zlen_respMem : zlen mem1 = zlen mem.
Proof using R.
  pose proof resp_bounds. pose proof respLen_range. pose proof zlen_resp. unfold respMem.
  rewrite zlen_write, zlen_resp by lia. destruct (_ =? 0); lia.
Qed.

Lemma request_queue1 : queue_ok mem1 q.
Proof using R. apply (queue_ok_len mem); [apply zlen_respMem|apply request_queue]. Qed.

(** The available index survives the response and the used element. *)
Lemma request_avail : availIdxAt mem2 q = availIdxAt mem q.
Proof using R.
  pose proof resp_bounds. pose proof respLen_range. pose proof zlen_resp as Hzr. destruct (ge_apart _ _ _ _ _ _ _ R) as (A1 & A2 & A3).
  pose proof (qo_avail _ _ request_queue) as [Ha Hv]. destruct (ValidRange_spec mem (sq_Avail q) sizeofSplitAvail Ha ltac:(done) Hv) as [He _].
  unfold apart, sizeofSplitAvail, sizeofSplitUsed, QueueSize in *. unfold availIdxAt, le_uint16. f_equal.
  apply zslice_agree; try lia; [rewrite zlen_usedMem, zlen_respMem by apply request_queue1; lia|].
  intros i Hi. rewrite usedMem_out; [|apply request_queue1|lia|unfold sizeofSplitUsed; lia]. unfold respMem.
  apply zget_write_out; lia.
Qed.

Lemma processOne_request :
  processOne q gpuControlQueue true s = (Ok false, (fst s <| Mem := mem2 |>, d2)).
Proof using R Hh Hresp Hlast.
  pose proof request_queue as Hq. pose proof request_queue1 as Hq1. pose proof (ge_quiet _ _ _ _ _ _ _ R) as Hg.
  pose proof (collectChain_request _ _ _ _ _ _ _ R Hq) as Hc. pose proof (ge_head _ _ _ _ _ _ _ R) as Hhd.
  destruct (ge_resp _ _ _ _ _ _ _ R) as [Hr Hl]. unfold gpuCtrlHdrLen in Hresp.
  unfold processOne. unfold gbind at 1, gget. cbv beta iota. destruct s as [t d]. cbn [fst snd] in *.
  unfold gbind at 1. rewrite loadAvailRing_quiet by (done || by apply (ring_slot (Mem t))). rewrite Hhd.
  unfold gbind at 1. rewrite Hc. cbn [fst snd]. unfold gbind at 1. unfold gbind at 1. rewrite Hh.
  unfold gbind at 1. rewrite writeResponse_quiet by (done || lia). unfold ret at 1. cbn [fst snd].
  unfold gbind at 1. set (t1 := t <| Mem := _ |>).
  rewrite loadUsedIdx_quiet by done. rewrite gbind_assoc. unfold gbind at 1. rewrite putUsed_quiet by done.
  unfold gbind, updG, gupd, ret. cbn [fst snd]. unfold gpuLastOf. rewrite Hlast. done.
Qed.
End Request.

Lemma processLoop_idle n q sel control changed t (d : gpuDev) :
  guest t = [] -> queue_ok (Mem t) q -> availIdxAt (Mem t) q = gpuLastOf d sel ->
  processLoop n q sel control changed (t, d) = (Ok changed, (t, d)).
Proof.
  intros Hg Hq He. destruct n as [|n]; [done|]. cbn [processLoop]. unfold gbind at 1. rewrite loadAvailIdx_quiet by done.
  unfold gbind, gget. cbn [snd]. by rewrite He, Z.eqb_refl.
Qed.

Lemma gpuLast_range s : ginv s -> is_u16 (gpuLastOf (snd s) gpuControlQueue) /\ zlen (g_LastAvailIdx (snd s)) = 2.
Proof. intros [_ G]. destruct (go_queues _ _ G) as [_ (i & j & Hl & Hi & Hj)]. unfold gpuLastOf. by rewrite Hl. Qed.

(** A fenced request gets its fence back. *)
Definition fenced (req : list Z) : Prop := gpuCtrlHdrLen <= zlen req /\ le_uint32 req 4 &&& gpuFlagFence <> 0.

Lemma echoFence_fenced req resp :
  fenced req -> gpuCtrlHdrLen <= zlen resp ->
  le_uint32 (echoFence req resp) 4 = gpuFlagFence /\ zslice (echoFence req resp) 8 16 = zslice req 8 16.
Proof.
  unfold fenced, gpuCtrlHdrLen. intros [Hl Hf] Hr. unfold echoFence, gpuCtrlHdrLen.
  destruct (_ || _) eqn:E; [apply orb_true_iff in E as [E|E]; zbool; lia|]. clear E.
  destruct (_ =? 0) eqn:E2; zbool; [done|]. clear E2.
  assert (Hs : zlen (zslice req 8 16) = 16) by (apply zlen_slice; lia).
  assert (Hp : zlen (put_le resp 4 4 gpuFlagFence) = zlen resp) by (apply zlen_put_le; lia). split.
  - pose proof (zslice_put_le resp 4 4 gpuFlagFence ltac:(lia) ltac:(lia)) as Hz. change (Z.of_nat 4) with 4 in Hz.
    change gpuFlagFence with (gpuFlagFence mod 256 ^ 4) at 2. rewrite <- Hz. unfold le_uint32. f_equal.
    apply zslice_agree; try lia; [rewrite zlen_write, Hs by lia; cbn [Z.eqb]; lia|]. intros i Hi. apply zget_write_out; lia.
  - rewrite <- Hs at 2. rewrite zslice_write by lia. done.
Qed.

Lemma handleControl_fenced req s resp s' :
  ginv s -> bytes_ok req -> fenced req -> handleControl req s = (Ok resp, s') ->
  le_uint32 resp 4 = gpuFlagFence /\ zslice resp 8 16 = zslice req 8 16.
Proof.
  intros B Hb Hf Hh. pose proof (wp_handleControl req s B Hb) as Hw. unfold wp in Hw. rewrite Hh in Hw.
  destruct Hw as [_ _ [Hl _] _ _]. unfold handleControl in Hh. destruct (_ <? _) eqn:E; zbool; [destruct Hf; lia|].
  unfold gbind at 1 in Hh. destruct (runCommand req s) as [[r| | |] s1]; try done. injection Hh as <- _.
  rewrite zlen_echoFence in Hl. by apply echoFence_fenced.
Qed.

(** C29: one control request a driver posted and waits for: the response of its
    command is stored in the writable buffer as far as it fits, the chain is put
    on the used ring once, with the length written, no other byte of guest
    memory changes, the device advances by one request and the interrupt cause
    is pending; and a fenced request has the fence flag and its fence in the
    response. *)
Theorem gpu_request_completes (s : GPU) (q : SplitQueue) (head reqA reqL respA respL : Z) :
  gpu_request s q head reqA reqL respA respL ->
  let mem := Mem (fst s) in
  let req := zslice mem reqA reqL in
  exists resp d1 r s',
    handleControl req s = (Ok resp, (fst s, d1)) /\ ProcessControlQueue s = (r, s') /\ returns r /\
    Mem (fst s') = usedMem (respMem mem respA respL resp) q head (respLen resp respL) /\
    usedIdxAt (Mem (fst s')) q = u16 (usedIdxAt mem q + 1) /\
    usedElemAt (Mem (fst s')) q (usedIdxAt mem q mod ringSize q) = (head, respLen resp respL) /\
    (forall i, 0 <= i < respLen resp respL -> zget (Mem (fst s')) (respA + i) = zget resp i) /\
    (forall x, 0 <= x -> ~ (respA <= x < respA + respL) -> ~ (sq_Used q <= x < sq_Used q + sizeofSplitUsed) ->
       zget (Mem (fst s')) x = zget mem x) /\
    snd s' = setLast gpuControlQueue (u16 (gpuLastOf (snd s) gpuControlQueue + 1)) d1 /\
    isr (fst s') = isr (fst s) ||| 1 /\
    (fenced req -> le_uint32 resp 4 = gpuFlagFence /\ zslice resp 8 16 = zslice req 8 16).
Proof.
  intros R mem req. pose proof (ge_inv _ _ _ _ _ _ _ R) as B. pose proof (ge_quiet _ _ _ _ _ _ _ R) as Hg.
  pose proof (request_queue _ _ _ _ _ _ _ R) as Hq. fold mem in Hq. pose proof (ringSize_pos _ _ Hq) as Hrs. unfold QueueSize in Hrs.
  assert (Hb : bytes_ok req) by (apply bytes_ok_slice, (tw_mem _ (proj1 B))).
  destruct (handleControl_quiet req s B Hg Hb) as (resp & d1 & Hh & B1 & Hrb & Hrl & Hlast).
  pose proof (processOne_request s q head reqA reqL respA respL resp d1 R Hh Hrl Hlast) as Hone. fold mem in Hone.
  pose proof (request_queue1 s q head reqA reqL respA respL resp R) as Hq1. fold mem in Hq1.
  pose proof (request_avail s q head reqA reqL respA respL resp R) as Hav. fold mem in Hav.
  set (mem1 := respMem mem respA respL resp) in *. set (mem2 := usedMem mem1 q head (respLen resp respL)) in *.
  set (d2 := setLast _ _ d1) in *. set (t2 := fst s <| Mem := mem2 |>) in *.
  destruct (gpuLast_range s B) as [Hlr Hl2]. pose proof (ge_idx _ _ _ _ _ _ _ R) as Hidx. fold mem in Hidx.
  destruct (count_waiting _ _ _ Hidx Hlr) as [Hc Hne]; [unfold QueueSize; lia|].
  assert (Hq2 : queue_ok (Mem t2) q) by (apply (queue_ok_len mem1); [apply zlen_usedMem|]; done).
  assert (Hl3 : gpuLastOf d2 gpuControlQueue = u16 (gpuLastOf (snd s) gpuControlQueue + 1)).
  { unfold d2, gpuLastOf at 1, setLast. cbn [g_LastAvailIdx set_field]. rewrite zget_insert by (rewrite Hlast, Hl2; unfold gpuControlQueue; lia). done. }
  assert (Hloop : processLoop (Z.to_nat (ringSize q)) q gpuControlQueue true false s = (Ok false, (t2, d2))).
  { replace (Z.to_nat (ringSize q)) with (S (Z.to_nat (ringSize q - 1))) by lia. cbn [processLoop].
    unfold gbind at 1. destruct s as [t d]. rewrite loadAvailIdx_quiet by done. unfold gbind at 1, gget. cbn [fst snd] in *. fold mem.
    rewrite Hne. unfold gbind at 1. rewrite Hone. apply processLoop_idle; [done|done|].
    rewrite Hl3, <- Hidx. exact Hav. }
  destruct (Interrupt_sets t2) as (r & t3 & Hi & Hr & (wk & ln & ir & Ht3) & Hisr).
  assert (Hm3 : Mem t3 = mem2) by (by rewrite Ht3).
  destruct (ge_apart _ _ _ _ _ _ _ R) as (A1 & A2 & A3).
  pose proof (respLen_range s q head reqA reqL respA respL resp R) as Hlr'.
  pose proof (zlen_resp s q head reqA reqL respA respL resp R) as Hzr.
  pose proof (resp_bounds s q head reqA reqL respA respL R) as Hbd. fold mem in Hbd.
  assert (Hu1 : usedIdxAt mem1 q = usedIdxAt mem q).
  { apply usedIdxAt_out; [done|lia|lia|]. unfold apart in *. lia. }
  exists resp, d1, r, (t3, d2). cbn [fst snd]. rewrite Hm3. unfold apart in *. splits; try done.
  - unfold ProcessControlQueue, process. unfold gbind at 1, gget. cbv beta iota.
    rewrite (ge_open _ _ _ _ _ _ _ R), (ge_queue _ _ _ _ _ _ _ R). cbv zeta. destruct s as [t d]. cbn [fst snd] in *.
    unfold gbind at 1. rewrite loadAvailIdx_quiet by done. fold mem. rewrite Hc.
    replace (ringSize q <? 1) with false by (symmetry; apply Z.ltb_ge; lia).
    unfold gbind at 1. rewrite loadAvailIdx_quiet by done. cbv beta iota. fold mem. rewrite Hne. unfold gbind at 1. rewrite Hloop.
    unfold gbind, ret. unfold onT. cbn [fst snd]. by rewrite Hi.
  - rewrite <- Hu1. apply usedMem_idx. done.
  - rewrite <- Hu1. unfold mem2. rewrite usedMem_elem by done. pose proof (ge_range _ _ _ _ _ _ _ R).
    rewrite !u32_small by lia. done.
  - intros i Hi'. unfold mem2. rewrite usedMem_out; [|done|lia|lia]. unfold mem1, respMem.
    rewrite zget_write_in by lia. rewrite Z.add_simpl_l, zget_take by lia. destruct (i <? _) eqn:E; zbool; [done|lia].
  - intros x Hx Ho Hou. unfold mem2. rewrite usedMem_out; [|done|lia|lia]. unfold mem1, respMem. apply zget_write_out; lia.
  - intros Hf. by apply (handleControl_fenced req s resp (fst s, d1)).
Qed.

(** ** A concrete device

    The control queue has four descriptors at 0; a fenced SET_SCANOUT request
    waits in it.  A resource of 4 by 2 pixels has its backing in two pieces at
    0x800 and 0x900; its lower right 3 by 1 pixels are on the scanout. *)

Definition ctrl (cmd flags fence : Z) (args : list Z) : list Z :=
  le_bytes 4 cmd ++ le_bytes 4 flags ++ le_bytes 8 fence ++ zeros 8 ++ concat (map (le_bytes 4) args).

Definition reqCreate : list Z := ctrl gpuCmdResourceCreate2D 0 0 [1; gpuFormatB8G8R8X8; 4; 2].
Definition reqAttach : list Z := ctrl gpuCmdResourceAttachBacking 0 0 [1; 2; 0x800; 0; 20; 0; 0x900; 0; 12; 0].
Definition reqScanout : list Z := ctrl gpuCmdSetScanout 1 7 [1; 1; 3; 1; 0; 1].
Definition reqTransfer : list Z := ctrl gpuCmdTransferToHost2D 0 0 [1; 0; 2; 2; 4; 0; 1; 0].
Definition reqFlush : list Z := ctrl gpuCmdResourceFlush 0 0 [0; 0; 4; 2; 1; 0].

Definition gpuQ : SplitQueue := mkSplitQueue 0 0x200 0x300 4.

Definition gpuMemory : list Z :=
  let m := map (fun i => Z.of_nat i mod 251) (seq 0 0x1000) in
  let m := zwrite m 0 (le_bytes 8 0x600 ++ le_bytes 4 48 ++ le_bytes 2 1 ++ le_bytes 2 1) in
  let m := zwrite m 16 (le_bytes 8 0x700 ++ le_bytes 4 24 ++ le_bytes 2 2 ++ le_bytes 2 0) in
  let m := zwrite m 0x200 (le_bytes 2 0 ++ le_bytes 2 1 ++ le_bytes 2 0) in
  let m := zwrite m 0x300 (zeros 8) in
  zwrite m 0x600 reqScanout.

Fixpoint runCommands (reqs : list (list Z)) (s : GPU) : GPU :=
  match reqs with [] => s | req :: reqs => runCommands reqs (snd (handleControl req s)) end.

Definition gpuLine : irqLine := mkIrqLine false 0 [].
Definition gpuDisplay : Display := mkDisplay true true true None [].

(** The device with its queue, after the given requests. *)
Definition gpuSample (reqs : list (list Z)) : GPU :=
  let s := NewGPU (Some gpuDisplay) gpuMemory [] gpuLine in
  runCommands reqs (fst s, gpuQueueReady 0 gpuQ (snd s)).

Lemma runCommands_inv reqs s : ginv s -> Forall bytes_ok reqs -> ginv (runCommands reqs s).
Proof.
  revert s. induction reqs as [|req reqs IH]; intros s B Hr; [done|]. inversion Hr as [|? ? Hb Hr']; subst. cbn [runCommands].
  pose proof (wp_handleControl req s B Hb) as Hw. unfold wp in Hw. destruct (handleControl req s) as [[]]; try done.
  apply IH; [|done]. apply Hw.
Qed.

Lemma gpuMemory_ok : bytes_ok gpuMemory.
Proof. apply bytes_okb_ok. vm_compute. reflexivity. Qed.

Lemma gpuQ_ok : queue_ok gpuMemory gpuQ.
Proof.
  constructor; [exists 2; vm_compute; repeat split; discriminate|..]; (split; [vm_compute; discriminate|vm_compute; reflexivity]).
Qed.

Lemma gpuSample_inv reqs : Forall bytes_ok reqs -> ginv (gpuSample reqs).
Proof.
  intros Hr. apply runCommands_inv; [|done].
  pose proof (NewGPU_inv (Some gpuDisplay) gpuMemory [] gpuLine gpuMemory_ok ltac:(vm_compute; reflexivity)) as [T G].
  split; [exact T|]. exact (dev_inv_ready _ _ 0 gpuQ G gpuQ_ok).
Qed.

Lemma bytes_ok_all reqs : forallb bytes_okb reqs = true -> Forall bytes_ok reqs.
Proof.
  intros H. apply list.Forall_forall. intros req Hi. rewrite forallb_forall in H. apply bytes_okb_ok, H. by apply list_elem_of_In.
Qed.

Lemma gpu_transfer_pixels_witness :
  exists data, cmdTransferToHost2D reqTransfer (gpuSample [reqCreate; reqAttach]) =
    (Ok (respNoData gpuRespOKNoData), snd (cmdTransferToHost2D reqTransfer (gpuSample [reqCreate; reqAttach]))) /\
    zget data 20 = zget gpuMemory 0x900 /\ zget data 4 = zget gpuMemory (0x800 + 4) /\ zget data 0 = 0.
Proof.
  pose proof (gpuSample_inv [reqCreate; reqAttach] ltac:(apply bytes_ok_all; vm_compute; reflexivity)) as B.
  remember (gpuSample [reqCreate; reqAttach]) as s eqn:Es.
  assert (Hres : exists res, resources (snd s) !! 1 = Some res /\ res_width res = 4 /\ res_height res = 2 /\
    res_data res = zeros 32 /\ res_backing res = [mkMemEntry 0x800 20; mkMemEntry 0x900 12])
    by (rewrite Es; vm_compute; eexists; repeat split).
  assert (Hm : Mem (fst s) = gpuMemory /\ guest (fst s) = []) by (rewrite Es; vm_compute; split; reflexivity).
  clear Es. destruct Hres as (res & Hid & Hw & Hh & Hd & Hbk). destruct Hm as [Hm Hg].
  destruct (gpu_transfer_pixels s reqTransfer res B Hg ltac:(apply bytes_okb_ok; vm_compute; reflexivity)
    ltac:(vm_compute; discriminate) Hid) as (data & Hc & _ & Hpx).
  - rewrite Hw. vm_compute. discriminate.
  - rewrite Hh. vm_compute. discriminate.
  - rewrite Hd. vm_compute. discriminate.
  - exists data. split; [rewrite Hc; reflexivity|]. rewrite Hw, Hh, Hd, Hbk, Hm in Hpx.
    pose proof (Hpx 1 1 0 ltac:(lia) ltac:(lia) ltac:(lia)) as H1. pose proof (Hpx 1 0 0 ltac:(lia) ltac:(lia) ltac:(lia)) as H2.
    pose proof (Hpx 0 0 0 ltac:(lia) ltac:(lia) ltac:(lia)) as H3.
    splits; [exact H1|exact H2|exact H3].
Defined.

Lemma gpu_flush_shows_witness :
  exists d' f, cmdResourceFlush reqFlush (gpuSample [reqCreate; reqAttach; reqTransfer; reqScanout]) =
    (Ok (respNoData gpuRespOKNoData), (fst (gpuSample [reqCreate; reqAttach; reqTransfer; reqScanout]), d')) /\
    frame d' = Some f /\ Bounds f = mkRect 0 0 3 1 /\ chan f 0 0 0 = zget gpuMemory 0x902 /\ chan f 0 0 3 = 0xff.
Proof.
  pose proof (gpuSample_inv [reqCreate; reqAttach; reqTransfer; reqScanout] ltac:(apply bytes_ok_all; vm_compute; reflexivity)) as B.
  remember (gpuSample [reqCreate; reqAttach; reqTransfer; reqScanout]) as s eqn:Es.
  assert (Hs : exists res, resources (snd s) !! scanout (snd s) = Some res /\ res_width res = 4 /\ res_height res = 2 /\
    res_format res = gpuFormatB8G8R8X8 /\ guestPixel res 1 1 = map (zget gpuMemory) [0x900; 0x901; 0x902; 0x903] /\
    scanoutRect (snd s) = mkRect 1 1 4 2 /\ scanout (snd s) = 1 /\ display (snd s) = Some gpuDisplay /\ frame (snd s) = None)
    by (rewrite Es; vm_compute; eexists; repeat split).
  clear Es. destruct Hs as (res & Hid & Hw & Hh & Hf & Hpix & Hsr & Hs1 & Hdp & Hfr).
  destruct (gpu_flush_shows s reqFlush gpuDisplay res B ltac:(apply bytes_okb_ok; vm_compute; reflexivity)
    ltac:(vm_compute; discriminate) Hdp) as (d' & f & c & Hc & Hd' & Hb & _ & Hpx).
  - rewrite Hs1. vm_compute. reflexivity.
  - exact Hid.
  - rewrite Hw. vm_compute. discriminate.
  - rewrite Hh. vm_compute. discriminate.
  - rewrite Hsr. vm_compute. reflexivity.
  - exists d', f. rewrite Hsr in Hb. change (Rect 0 0 _ _) with (mkRect 0 0 3 1) in Hb.
    pose proof (Hpx 0 0 0) as H0. pose proof (Hpx 0 0 3) as H3. rewrite Hb, Hfr, Hsr in H0, H3.
    unfold flushedPixel in H0, H3. rewrite Hf in H0, H3.
    change (guestPixel res 1 1) with (guestPixel res (0 + minX (mkRect 1 1 4 2)) (0 + minY (mkRect 1 1 4 2))) in Hpix.
    rewrite Hpix in H0, H3.
    splits; [exact Hc|by rewrite Hd'|exact Hb| |].
    + rewrite H0; [vm_compute; reflexivity|vm_compute; repeat split; discriminate|lia].
    + rewrite H3; [vm_compute; reflexivity|vm_compute; repeat split; discriminate|lia].
Defined.

Lemma gpu_request_completes_witness :
  exists r s', ProcessControlQueue (gpuSample [reqCreate]) = (r, s') /\ returns r /\
    zslice (Mem (fst s')) 0x700 24 = le_bytes 4 gpuRespOKNoData ++ le_bytes 4 1 ++ le_bytes 8 7 ++ zeros 8 /\
    usedElemAt (Mem (fst s')) gpuQ 0 = (0, 24).
Proof.
  pose proof (gpuSample_inv [reqCreate] ltac:(apply bytes_ok_all; vm_compute; reflexivity)) as B.
  assert (R : gpu_request (gpuSample [reqCreate]) gpuQ 0 0x600 48 0x700 24).
  { constructor; [exact B|..]; try (vm_compute; reflexivity); try (vm_compute; split; [discriminate|reflexivity]).
    - exists 1, 0. vm_compute. repeat split; discriminate.
    - vm_compute. repeat split; discriminate.
    - vm_compute. repeat split; discriminate.
    - unfold apart. split; [right|split; [right|left]]; vm_compute; discriminate. }
  destruct (gpu_request_completes _ _ _ _ _ _ _ R) as (resp & d1 & r & s' & Hh & Hp & Hr & Hm & _ & Hu & _).
  assert (Hresp : resp = le_bytes 4 gpuRespOKNoData ++ le_bytes 4 1 ++ le_bytes 8 7 ++ zeros 8).
  { assert (He : fst (handleControl (zslice (Mem (fst (gpuSample [reqCreate]))) 0x600 48) (gpuSample [reqCreate])) = Ok resp)
      by (by rewrite Hh). vm_compute in He. injection He as <-. vm_compute. reflexivity. }
  exists r, s'. rewrite Hresp in Hm, Hu. splits; [exact Hp|exact Hr| |].
  - rewrite Hm. vm_compute. reflexivity.
  - exact Hu.
Defined.

(** A guest that boots, sets up the device, changes its mind and stores to its
    rings while they are processed. *)
Definition gpuActions : list gpuAction :=
  [ActAccess 22 [0; 0] true; ActAccess 24 [4; 0] true; ActAccess 32 [0; 0; 0; 0] true; ActAccess 40 [0; 2; 0; 0] true;
   ActAccess 48 [0; 3; 0; 0] true; ActAccess 28 [1; 0] true; ActGuest [[(0x202, 1)]; []; [(0x600, 1); (0x601, 1)]];
   ActControl; ActResize 1280 800; ActAccess 0x2000 [0; 0; 0; 0] false; ActCursor; ActReinject; ActAccess 20 [0] true; ActClose].

Lemma gpu_execution_safe_witness :
  Forall action_ok gpuActions /\
  Forall returns (fst (runActions gpuActions (NewGPU (Some gpuDisplay) gpuMemory [] gpuLine))).
Proof.
  assert (Ha : Forall action_ok gpuActions).
  { unfold gpuActions. repeat match goal with |- Forall _ _ => constructor end; try exact I;
      (split; [vm_compute; discriminate|]); apply bytes_okb_ok; vm_compute; reflexivity. }
  split; [exact Ha|].
  destruct (gpu_execution_safe (Some gpuDisplay) gpuMemory [] gpuLine gpuActions gpuMemory_ok ltac:(vm_compute; reflexivity) Ha)
    as [(l1 & a & l2 & Hl & Hs & _)|[Hr _]]; [exfalso|exact Hr].
  assert (Hno : existsb short_action gpuActions = false) by (vm_compute; reflexivity).
  rewrite Hl, existsb_app in Hno. cbn [existsb] in Hno. rewrite Hs, orb_true_r in Hno. discriminate.
Defined.
