(* ===== verification/VirtioAccess.v ===== *)
(** * What a device stores

    [touches R t t']: the step from [t] to [t'] keeps the transport well formed
    and the size of guest memory, whatever the guest does meanwhile; and when the
    guest does nothing, only bytes in [R] change.  The accesses to queues are
    specified with it once, for devices whose theorems need both. *)
From S2P Require Import Prelude Bytes GuestMem VirtioModern VirtioQueue.

Definition region : Type := Z -> Prop.
Definition rnone : region := fun _ => False.
Definition rng (a n : Z) : region := fun x => a <= x < a + n.
Definition rboth (R1 R2 : region) : region := fun x => R1 x \/ R2 x.

Record touches (R : region) (t t' : ModernTransport) : Prop := {
  to_len : zlen (Mem t') = zlen (Mem t);
  to_wf : twf t -> twf t';
  to_quiet : guest t = [] -> guest t' = [] /\ forall a, 0 <= a -> ~ R a -> zget (Mem t') a = zget (Mem t) a
}.

Lemma touches_refl R t : touches R t t.
Proof. by constructor. Qed.

Lemma touches_trans R t1 t2 t3 : touches R t1 t2 -> touches R t2 t3 -> touches R t1 t3.
Proof.
  intros [L1 W1 Q1] [L2 W2 Q2]. constructor; [congruence|auto|]. intros Hg. destruct (Q1 Hg) as [Hg1 H1]. destruct (Q2 Hg1) as [Hg2 H2].
  split; [done|]. intros a Ha Hr. by rewrite H2, H1.
Qed.

Lemma touches_mono (R R' : region) t t' : (forall a, R a -> R' a) -> touches R t t' -> touches R' t t'.
Proof. intros Hs [L W Q]. constructor; [done|done|]. intros Hg. destruct (Q Hg) as [Hg' H]. split; [done|]. intros a Ha Hr. apply H; auto. Qed.

Lemma touches_more R t1 t2 t3 : touches rnone t1 t2 -> touches R t2 t3 -> touches R t1 t3.
Proof. intros H1. apply touches_trans. revert H1. by apply touches_mono. Qed.

Lemma touches_then R t1 t2 t3 : touches R t1 t2 -> touches rnone t2 t3 -> touches R t1 t3.
Proof. intros H1 H2. eapply touches_trans; [done|]. revert H2. by apply touches_mono. Qed.

Lemma touches_queue R t t' q : touches R t t' -> queue_ok (Mem t) q -> queue_ok (Mem t') q.
Proof. intros T. apply queue_ok_len, T. Qed.

Lemma touches_ram R t t' a n : touches R t t' -> in_ram (Mem t) a n -> in_ram (Mem t') a n.
Proof. intros T [Ha Hv]. split; [done|]. by rewrite (ValidRange_len _ _ _ _ (to_len _ _ _ T)). Qed.

(** A slice beside the bytes that changed. *)
Lemma touches_slice R t t' a n :
  touches R t t' -> guest t = [] -> in_ram (Mem t) a n -> 0 <= n -> (forall x, a <= x < a + n -> ~ R x) ->
  zslice (Mem t') a n = zslice (Mem t) a n.
Proof.
  intros [L _ Q] Hg [Ha Hv] Hn Hr. destruct (Q Hg) as [_ H]. destruct (ValidRange_spec _ _ _ Ha Hn Hv) as [He _].
  apply zslice_agree; try lia. intros i Hi. apply H; [lia|]. apply Hr. lia.
Qed.

Lemma yieldGuest_touches t : wp yieldGuest t (fun _ t' => touches rnone t t' /\ (guest t = [] -> t' = t)) (fun _ _ => False).
Proof.
  pose proof (wp_yieldGuest t) as H. unfold wp in *. unfold yieldGuest, gupd in *. destruct (guest t) as [|st rest] eqn:Hg.
  - split; [apply touches_refl|done].
  - destruct H as (m & g & E & Hl & Hb). rewrite E. split; [|done]. constructor; [done| |by rewrite Hg].
    intros W. destruct W. constructor; try done. by apply Hb.
Qed.

Lemma memLoad_touches a n t :
  in_ram (Mem t) a n -> 0 <= n ->
  wp (memLoad a n) t (fun b t' => touches rnone t t' /\ zlen b = n /\ (twf t -> bytes_ok b) /\ (guest t = [] -> b = zslice (Mem t) a n))
    (fun _ _ => False).
Proof.
  intros [Ha Hv] Hn. unfold memLoad. wstep. wcall yieldGuest_touches; [|done]. intros [] t' [T Hq]. wsteps.
  assert (Hv' : ValidRange (Mem t') a n = true) by (by rewrite (ValidRange_len _ _ _ _ (to_len _ _ _ T))). rewrite Hv'. wsteps.
  destruct (ValidRange_spec _ _ _ Ha Hn Hv') as [He _]. splits; [done|by apply zlen_slice| |].
  - intros W. apply bytes_ok_slice, (tw_mem _ (to_wf _ _ _ T W)).
  - intros Hg. by rewrite Hq.
Qed.

Lemma memStore_touches a b t :
  in_ram (Mem t) a (zlen b) -> bytes_ok b ->
  wp (memStore a b) t (fun _ t' => touches (rng a (zlen b)) t t' /\ (guest t = [] -> Mem t' = zwrite (Mem t) a b)) (fun _ _ => False).
Proof.
  intros [Ha Hv] Hb. unfold memStore. wstep. wcall yieldGuest_touches; [|done]. intros [] t1 [T Hq].
  pose proof (zlen_nonneg b) as Hn.
  assert (Hv' : ValidRange (Mem t1) a (zlen b) = true) by (by rewrite (ValidRange_len _ _ _ _ (to_len _ _ _ T))).
  destruct (ValidRange_spec _ _ _ Ha Hn Hv') as [He _]. wcall wp_memPut; [done| |done]. intros [] t2 ->. cbn [Mem set_field]. split.
  - eapply touches_more; [exact T|]. constructor; cbn.
    + by rewrite zlen_write_in.
    + intros W. destruct W. constructor; try done. by apply bytes_ok_write.
    + intros Hg. split; [done|]. intros x Hx Hr. apply zget_write_out; [done|done|]. unfold rng in Hr. lia.
  - intros Hg. by rewrite (Hq Hg).
Qed.

(** ** Queues *)

Section Queue.
Variables (t : ModernTransport) (q : SplitQueue).
Hypothesis Hq : queue_ok (Mem t) q.

Lemma avail_ram o n : 0 <= o -> 0 <= n -> o + n <= sizeofSplitAvail -> in_ram (Mem t) (sq_Avail q + o) n.
Proof using Hq. intros. destruct (qo_avail _ _ Hq) as [? ?]. split; [lia|]. by apply (in_ram_range _ _ sizeofSplitAvail). Qed.

Lemma used_ram o n : 0 <= o -> 0 <= n -> o + n <= sizeofSplitUsed -> in_ram (Mem t) (sq_Used q + o) n.
Proof using Hq. intros. destruct (qo_used _ _ Hq) as [? ?]. split; [lia|]. by apply (in_ram_range _ _ sizeofSplitUsed). Qed.

Lemma le_uint16_slice mem a : 0 <= a -> le_uint16 (zslice mem a 2) 0 = le_uint16 mem a.
Proof. intros. unfold le_uint16. rewrite zslice_slice by lia. by rewrite Z.add_0_r. Qed.

Lemma loadDesc_touches i :
  0 <= i < QueueSize ->
  wp (loadDesc q i) t (fun d t' => touches rnone t t' /\ (twf t -> is_u64 (d_Addr d) /\ is_u32 (d_Len d) /\ is_u16 (d_Next d)) /\
      (guest t = [] -> d = descAt (Mem t) q i)) (fun _ _ => False).
Proof using Hq.
  unfold QueueSize. intros Hi. unfold loadDesc. wstep. destruct (qo_desc _ _ Hq) as [Hd Hv].
  wcall memLoad_touches; [split; [lia|]; apply (in_ram_range _ _ sizeofDescTable); (done || unfold sizeofDescTable, QueueSize; lia)|lia| |done].
  intros b t' (T & _ & Hb & Hs). wsteps. splits; [done| |]; intros H; [by apply decodeDesc_range, Hb|unfold descAt; by rewrite Hs].
Qed.

Lemma loadAvailIdx_touches :
  wp (loadAvailIdx q) t (fun v t' => touches rnone t t' /\ (twf t -> is_u16 v) /\ (guest t = [] -> v = availIdxAt (Mem t) q)) (fun _ _ => False).
Proof using Hq.
  unfold loadAvailIdx. wstep. wcall memLoad_touches; [apply avail_ram; unfold sizeofSplitAvail, QueueSize; lia|lia| |done].
  intros b t' (T & _ & Hb & Hs). wsteps. splits; [done|intros; by apply le_uint16_range, Hb|]. intros Hg. rewrite Hs by done.
  apply le_uint16_slice. destruct (qo_avail _ _ Hq). lia.
Qed.

Lemma loadAvailRing_touches i :
  0 <= i < QueueSize ->
  wp (loadAvailRing q i) t (fun v t' => touches rnone t t' /\ (twf t -> is_u16 v) /\ (guest t = [] -> v = availRingAt (Mem t) q i)) (fun _ _ => False).
Proof using Hq.
  unfold QueueSize. intros Hi. unfold loadAvailRing. wstep.
  wcall memLoad_touches; [rewrite <- Z.add_assoc; apply avail_ram; unfold sizeofSplitAvail, QueueSize; lia|lia| |done].
  intros b t' (T & _ & Hb & Hs). wsteps. splits; [done|intros; by apply le_uint16_range, Hb|]. intros Hg. rewrite Hs by done.
  apply le_uint16_slice. destruct (qo_avail _ _ Hq). lia.
Qed.

Lemma loadUsedIdx_touches :
  wp (loadUsedIdx q) t (fun v t' => touches rnone t t' /\ (twf t -> is_u16 v) /\ (guest t = [] -> v = usedIdxAt (Mem t) q)) (fun _ _ => False).
Proof using Hq.
  unfold loadUsedIdx. wstep. wcall memLoad_touches; [apply used_ram; unfold sizeofSplitUsed; lia|lia| |done].
  intros b t' (T & _ & Hb & Hs). wsteps. splits; [done|intros; by apply le_uint16_range, Hb|]. intros Hg. rewrite Hs by done.
  apply le_uint16_slice. destruct (qo_used _ _ Hq). lia.
Qed.

(** The bytes of the used ring. *)
Definition rused : region := rng (sq_Used q) sizeofSplitUsed.

Lemma storeUsedRing_touches i e :
  0 <= i < QueueSize -> wp (storeUsedRing q i e) t (fun _ t' => touches rused t t') (fun _ _ => False).
Proof using Hq.
  unfold QueueSize. intros Hi. unfold storeUsedRing.
  wcall memStore_touches; [change (zlen (encodeUsedElem e)) with 8; rewrite <- Z.add_assoc; apply used_ram; unfold sizeofSplitUsed; lia| | |done].
  - apply Forall_app. split; apply le_bytes_ok.
  - intros [] t' [T _]. revert T. apply touches_mono. change (zlen (encodeUsedElem e)) with 8. unfold rused, rng, sizeofSplitUsed. lia.
Qed.

End Queue.

Lemma addUsedIdx_touches t q delta :
  queue_ok (Mem t) q -> wp (addUsedIdx q delta) t (fun _ t' => touches (rused q) t t') (fun _ _ => False).
Proof.
  intros Hq. unfold addUsedIdx. wstep. wcall loadUsedIdx_touches; [done| |done]. intros v t1 (T1 & _).
  wcall memStore_touches; [|apply le_bytes_ok| |done].
  - change (zlen (le_bytes 2 _)) with 2. apply (used_ram t1 q (touches_queue _ _ _ _ T1 Hq)); unfold sizeofSplitUsed; lia.
  - intros [] t2 [T2 _]. eapply touches_more; [exact T1|]. revert T2. apply touches_mono. intros a.
    change (zlen (le_bytes 2 _)) with 2. unfold rused, rng, sizeofSplitUsed. lia.
Qed.

(** ** Interrupts *)

Lemma irq_touches t t' : irq_only t t' -> touches rnone t t'.
Proof. intros (w & l & i & ->). constructor; [done| |by intros]. intros W. destruct W. by constructor. Qed.

Lemma Interrupt_touches t : wp Interrupt t (fun _ t' => touches rnone t t') (fun _ t' => touches rnone t t').
Proof. wcall wp_Interrupt; intros ? ?; apply irq_touches. Qed.

Lemma Reinject_touches t : wp ReinjectIfPending t (fun _ t' => touches rnone t t') (fun _ t' => touches rnone t t').
Proof.
  assert (Hirq : forall l, touches rnone t (t <| irq := l |>)).
  { intros l. constructor; [done| |by intros]. intros W. destruct W. by constructor. }
  unfold ReinjectIfPending. wsteps. destruct (interruptPending t).
  - unfold raiseIRQ. wsteps. destruct (irqError t); wsteps; [apply touches_refl|].
    unfold wp, callSetLevel, callInject. destruct (setIRQLevel t), (irq_next (irq t)); apply Hirq.
  - destruct (irqError t); wsteps; apply touches_refl.
Qed.
