(* ===== verification/VirtioSound.v ===== *)
(** * The virtio sound card (src/internal/virtio/sound.go)

    Playback of one stereo stream.  Control requests drive the state of the
    stream; periods of samples stay in guest memory until their time comes, and
    go to the sink in chunks of 10 ms.  Slices of guest memory are ranges: what
    the sink gets is read when it is played. *)
From S2P Require Import Prelude Bytes GuestMem VirtioModern VirtioQueue.

Definition soundControlQueue : Z := 0.
Definition soundEventQueue : Z := 1.
Definition soundTXQueue : Z := 2.
Definition soundRXQueue : Z := 3.
Definition soundNumQueues : Z := 4.

Definition soundJackInfo : Z := 0x0001.
Definition soundPCMInfo : Z := 0x0100.
Definition soundSetParams : Z := 0x0101.
Definition soundPrepare : Z := 0x0102.
Definition soundRelease : Z := 0x0103.
Definition soundStart : Z := 0x0104.
Definition soundStop : Z := 0x0105.
Definition soundChmapInfo : Z := 0x0200.

Definition soundOK : Z := 0x8000.
Definition soundBadMsg : Z := 0x8001.
Definition soundNotSupp : Z := 0x8002.
Definition soundIOErr : Z := 0x8003.
Definition soundFormat16 : Z := 5.
Definition soundRate48K : Z := 7.

Definition soundBytesPerFrame : Z := 4.
Definition soundBytesPerSecond : Z := 48000 * soundBytesPerFrame.
Definition soundChunkBytes : Z := soundBytesPerSecond / 100.
Definition soundMaxBuffer : Z := 512 * 1024.
Definition soundMaxPeriod : Z := 64 * 1024.

(** Times are in nanoseconds. *)
Definition second : Z := 1000000000.
Definition millisecond : Z := 1000000.

Inductive soundState := soundUnconfigured | soundConfigured | soundPrepared | soundRunning | soundStopped.
#[export] Instance soundState_dec : EqDecision soundState.
Proof. solve_decision. Defined.

(** A slice of guest memory: address and length. *)
Abbreviation segment := (Z * Z)%type.

Record soundBuffer := mkBuffer { b_head : Z; b_response : list segment; b_request : list segment; b_size : Z; b_sent : Z }.
#[export] Instance soundBuffer_eta : Settable soundBuffer := fun b =>
  mkBuffer (b_head b) (b_response b) (b_request b) (b_size b) (b_sent b).

(** [s_next] is [None] for the zero time; [s_sink] holds what was played, and is
    [None] without a sink. *)
Record soundDev := mkSound {
  s_queues : list (option SplitQueue);
  s_lastAvail : list Z;
  s_state : soundState;
  bufferBytes : Z;
  periodBytes : Z;
  s_pending : list soundBuffer;
  pendingSize : Z;
  s_next : option Z;
  s_chunk : list Z;
  s_sink : option (list (list Z));
  s_kick : bool;
  s_closed : bool
}.
#[export] Instance soundDev_eta : Settable soundDev := fun d =>
  mkSound (s_queues d) (s_lastAvail d) (s_state d) (bufferBytes d) (periodBytes d) (s_pending d) (pendingSize d)
    (s_next d) (s_chunk d) (s_sink d) (s_kick d) (s_closed d).

Definition Sound : Type := ModernTransport * soundDev.
Abbreviation SM := (M Sound).

Definition updS (f : soundDev -> soundDev) : SM unit := gupd (fun s => (fst s, f (snd s))).
Definition getS : SM soundDev := let! s := gget in ret (snd s).

(** ** Callbacks of the transport *)

Definition soundConfig : list Z := zeros 4 ++ le_bytes 4 1 ++ le_bytes 4 1.

Definition soundReadConfig (offset : Z) (data : list Z) : list Z :=
  if offset <? zlen soundConfig then zcopy (zeros (zlen data)) (drop (Z.to_nat offset) soundConfig) else zeros (zlen data).

Definition soundNotify (idx : Z) (d : soundDev) : soundDev :=
  if (idx <? 0) || (soundNumQueues <=? idx) then d else d <| s_kick := true |>.

Definition soundQueueReady (idx : Z) (q : SplitQueue) (d : soundDev) : soundDev :=
  if (idx <? 0) || (soundNumQueues <=? idx) then d
  else
    soundNotify idx
      (if s_closed d then d
       else d <| s_queues := zinsert idx (Some q) (s_queues d) |> <| s_lastAvail := zinsert idx 0 (s_lastAvail d) |>).

Definition soundResetLocked (d : soundDev) : soundDev :=
  d <| s_queues := [None; None; None; None] |> <| s_lastAvail := [0; 0; 0; 0] |> <| s_state := soundUnconfigured |>
    <| bufferBytes := 0 |> <| periodBytes := 0 |> <| pendingSize := 0 |> <| s_pending := [] |> <| s_next := None |>.

Definition soundClose (d : soundDev) : soundDev :=
  if s_closed d then d else soundResetLocked (d <| s_closed := true |>).

#[export] Instance sound_device : ModernDevice soundDev := {
  DeviceFeatures _ := 0;
  NumQueues _ := soundNumQueues;
  DeviceConfigLen _ := 12;
  ReadDeviceConfig _ offset data := soundReadConfig offset data;
  WriteDeviceConfig _ _ d := d;
  QueueReady := soundQueueReady;
  Notify := soundNotify;
  Reset := Some soundResetLocked
}.

Definition NewSound (sink : bool) (mem : list Z) (guest : list guestStores) (line : irqLine) : Sound :=
  let d := mkSound [None; None; None; None] [0; 0; 0; 0] soundUnconfigured 0 0 [] 0 None (zeros soundChunkBytes)
             (if sink then Some [] else None) false false in
  (NewModernTransport d mem guest line, d).

(** ** Queues *)

Definition soundQueueSize (q : SplitQueue) : Z :=
  if (sq_Size q =? 0) || (QueueSize <? sq_Size q) then QueueSize else sq_Size q.

Definition soundQueue (d : soundDev) (idx : Z) : option SplitQueue :=
  match zlookup (s_queues d) idx with Some (Some q) => Some q | _ => None end.

Definition setLastAvail (idx v : Z) (d : soundDev) : soundDev := d <| s_lastAvail := zinsert idx v (s_lastAvail d) |>.

Definition pop (idx : Z) : SM (option Z) :=
  let! d := getS in
  match soundQueue d idx with
  | None => ret None
  | Some q =>
      let lastAvail := zget (s_lastAvail d) idx in
      let! i := onT (loadAvailIdx q) in
      let available := u16 (i - lastAvail) in
      if available =? 0 then ret None
      else if soundQueueSize q <? available then
        let! i := onT (loadAvailIdx q) in
        do! updS (setLastAvail idx i) in
        ret None
      else
        let! head := onT (loadAvailRing q (lastAvail mod soundQueueSize q)) in
        do! updS (setLastAvail idx (u16 (lastAvail + 1))) in
        ret (Some head)
  end.

(** Copies of the response into its segments; the number of bytes written. *)
Fixpoint storeSegments (response : list segment) (data : list Z) (written : Z) : SM Z :=
  match response with
  | [] => ret written
  | (a, n) :: rest =>
      let k := Z.min n (zlen data) in
      do! (if 0 <? k then onT (memStore a (take (Z.to_nat k) data)) else ret tt) in
      let data := drop (Z.to_nat k) data in
      if zlen data =? 0 then ret (written + k) else storeSegments rest data (written + k)
  end.

(** An interrupt whose error is only logged. *)
Definition logged {A} (m : SM A) : SM unit := do! gtry m in ret tt.

Definition complete (idx head : Z) (response : list segment) (data : list Z) : SM unit :=
  let! written := storeSegments response data 0 in
  let! d := getS in
  match soundQueue d idx with
  | None => panic
  | Some q =>
      let! uidx := onT (loadUsedIdx q) in
      do! onT (storeUsedRing q (uidx mod soundQueueSize q) (mkUsedElem head written)) in
      do! onT (addUsedIdx q 1) in
      let! flags := onT (memLoad (sq_Avail q) 2) in
      if le_uint16 flags 0 &&& 1 =? 0 then logged (onT Interrupt) else ret tt
  end.

(** The result of [chain]: readable and writable segments with their lengths. *)
Record soundChain := mkChain { readable : list segment; writable : list segment; readBytes : Z; writeBytes : Z }.

Fixpoint chainLoop (fuel : nat) (q : SplitQueue) (head limit : Z) (seen : list bool) (c : soundChain) : SM (option soundChain) :=
  match fuel with
  | O => fun s => (OutOfFuel, s)
  | S fuel =>
      if (soundQueueSize q <=? head) || default false (zlookup seen head) then ret None
      else
        let! d := onT (loadDesc q head) in
        let! s := gget in
        if negb (d_Flags d &^ (descFNext ||| descFWrite) =? 0) || negb (ValidRange (Mem (fst s)) (d_Addr d) (d_Len d)) then ret None
        else
          let! c :=
            (if negb (d_Flags d &&& descFWrite =? 0) then
               if soundMaxBuffer - writeBytes c <? d_Len d then ret None
               else ret (Some (mkChain (readable c) (writable c ++ [(d_Addr d, d_Len d)]) (readBytes c) (writeBytes c + d_Len d)))
             else if negb (zlen (writable c) =? 0) || (limit - readBytes c <? d_Len d) then ret None
             else ret (Some (mkChain (readable c ++ [(d_Addr d, d_Len d)]) (writable c) (readBytes c + d_Len d) (writeBytes c)))) in
          match c with
          | None => ret None
          | Some c =>
              if d_Flags d &&& descFNext =? 0 then ret (Some c)
              else chainLoop fuel q (d_Next d) limit (zinsert head true seen) c
          end
  end.

Definition chain (q : SplitQueue) (head limit : Z) : SM (option soundChain) :=
  chainLoop (Z.to_nat (QueueSize + 1)) q head limit (replicate (Z.to_nat QueueSize) false) (mkChain [] [] 0 0).

(** [soundRead]: at most [n] bytes from [offset] on. *)
Fixpoint soundRead (segments : list segment) (offset n : Z) : SM (list Z) :=
  match segments with
  | [] => ret []
  | (a, len) :: rest =>
      if len <=? offset then soundRead rest (offset - len) n
      else
        let k := Z.min n (len - offset) in
        let! b := (if 0 <? k then onT (memLoad (a + offset) k) else ret []) in
        if n - k =? 0 then ret b
        else let! r := soundRead rest 0 (n - k) in ret (b ++ r)
  end.

Definition soundStatus (status : Z) : list Z := le_bytes 4 status.

(** ** Requests *)

Definition completePCM (b : soundBuffer) (status : Z) : SM unit :=
  complete soundTXQueue (b_head b) (b_response b) (le_bytes 4 status ++ zeros 4).

Definition streamReady (d : soundDev) : bool :=
  match s_state d with soundPrepared | soundRunning | soundStopped => true | _ => false end.

(** One round of [processTX]. *)
Definition txRequest (release : bool) (head : Z) : SM unit :=
  let! d := getS in
  match soundQueue d soundTXQueue with
  | None => panic
  | Some q =>
      let! c := chain q head (soundMaxPeriod + 4) in
      let b := mkBuffer head (match c with Some c => writable c | None => [] end) [] 0 0 in
      let! header := soundRead (match c with Some c => readable c | None => [] end) 0 4 in
      let header := zcopy (zeros 4) header in
      match c with
      | None => completePCM b soundIOErr
      | Some c =>
          if (writeBytes c <? 8) || (readBytes c <? 8) || negb (le_uint32 header 0 =? 0) ||
             negb (Z.rem (readBytes c - 4) soundBytesPerFrame =? 0)
          then completePCM b soundIOErr
          else if release then completePCM b soundOK
          else
            let! d := getS in
            let size := u32 (readBytes c - 4) in
            if negb (streamReady d) || (periodBytes d <? size) || (u32 (bufferBytes d - pendingSize d) <? size) ||
               (QueueSize <=? zlen (s_pending d))
            then completePCM b soundIOErr
            else updS (fun d => d <| pendingSize := u32 (pendingSize d + size) |>
                                  <| s_pending := s_pending d ++ [b <| b_request := readable c |> <| b_size := size |>] |>)
      end
  end.

Fixpoint txRounds (n : nat) (release : bool) : SM unit :=
  match n with
  | O => ret tt
  | S n =>
      let! h := pop soundTXQueue in
      match h with
      | None => ret tt
      | Some head => do! txRequest release head in txRounds n release
      end
  end.

Definition processTX (release : bool) : SM unit := txRounds (Z.to_nat QueueSize) release.

Definition setParams (request : list Z) : SM Z :=
  let! d := getS in
  if negb (zlen request =? 24) ||
     match s_state d with soundUnconfigured | soundConfigured | soundPrepared => false | _ => true end
  then ret soundBadMsg
  else
    let buffer := le_uint32 request 8 in
    let period := le_uint32 request 12 in
    let features := le_uint32 request 16 in
    if negb (features =? 0) || negb (zget request 20 =? 2) || negb (zget request 21 =? soundFormat16) ||
       negb (zget request 22 =? soundRate48K)
    then ret soundNotSupp
    else if (buffer =? 0) || (soundMaxBuffer <? buffer) || (period =? 0) || (soundMaxPeriod <? period) ||
            negb (period mod soundBytesPerFrame =? 0) || negb (buffer mod period =? 0) || negb (zget request 23 =? 0) ||
            negb (zlen (s_pending d) =? 0)
    then ret soundBadMsg
    else
      do! updS (fun d => d <| bufferBytes := buffer |> <| periodBytes := period |> <| s_state := soundConfigured |>) in
      ret soundOK.

Definition soundInfo (code : Z) (request : list Z) (capacity : Z) : list Z :=
  if negb (zlen request =? 16) then soundStatus soundBadMsg
  else
    let start := le_uint32 request 4 in
    let count := le_uint32 request 8 in
    let size := le_uint32 request 12 in
    let total := if code =? soundJackInfo then 0 else 1 in
    let expected := if (code =? soundChmapInfo) || (code =? soundJackInfo) then 24 else 32 in
    if (total <? start) || (u32 (total - start) <? count) || negb (size =? expected) || (capacity <? 4 + count * size)
    then soundStatus soundBadMsg
    else
      let response := put_le (zeros (u32 (4 + count * size))) 0 4 soundOK in
      if count =? 0 then response
      else if code =? soundPCMInfo then
        zinsert 30 2 (zinsert 29 2 (put_le (put_le response 12 8 (Z.shiftl 1 soundFormat16)) 20 8 (Z.shiftl 1 soundRate48K)))
      else zinsert 11 4 (zinsert 10 3 (zinsert 9 2 response)).

(** The loop of RELEASE over the pending buffers. *)
Fixpoint completeAll (l : list soundBuffer) : SM unit :=
  match l with
  | [] => ret tt
  | b :: l => do! completePCM b soundOK in completeAll l
  end.

(** A command on the stream. *)
Definition streamCommand (code : Z) (request : list Z) : SM Z :=
  let! d := getS in
  if code =? soundSetParams then setParams request
  else if code =? soundPrepare then
    match s_state d with
    | soundConfigured | soundPrepared => do! updS (fun d => d <| s_state := soundPrepared |>) in ret soundOK
    | _ => ret soundBadMsg
    end
  else if code =? soundStart then
    match s_state d with
    | soundPrepared | soundStopped => do! updS (fun d => d <| s_state := soundRunning |> <| s_next := None |>) in ret soundOK
    | _ => ret soundBadMsg
    end
  else if code =? soundStop then
    match s_state d with
    | soundRunning => do! updS (fun d => d <| s_state := soundStopped |> <| s_next := None |>) in ret soundOK
    | _ => ret soundBadMsg
    end
  else if code =? soundRelease then
    match s_state d with
    | soundPrepared | soundStopped =>
        do! completeAll (s_pending d) in
        do! updS (fun d => d <| s_pending := [] |> <| pendingSize := 0 |>) in
        do! processTX true in
        do! updS (fun d => d <| s_state := soundConfigured |> <| s_next := None |>) in
        ret soundOK
    | _ => ret soundBadMsg
    end
  else ret soundOK.

Definition control (request : list Z) (capacity : Z) : SM (list Z) :=
  let code := le_uint32 request 0 in
  if (code =? soundPCMInfo) || (code =? soundChmapInfo) || (code =? soundJackInfo) then ret (soundInfo code request capacity)
  else if (code <? soundSetParams) || (soundStop <? code) then ret (soundStatus soundNotSupp)
  else if (zlen request <? 8) || negb (le_uint32 request 4 =? 0) then ret (soundStatus soundBadMsg)
  else let! status := streamCommand code request in ret (soundStatus status).

Definition controlRequest (head : Z) : SM unit :=
  let! d := getS in
  match soundQueue d soundControlQueue with
  | None => panic
  | Some q =>
      let! c := chain q head 64 in
      let! result :=
        (match c with
         | Some c =>
             if 4 <=? writeBytes c then
               if 4 <=? readBytes c then
                 let! request := soundRead (readable c) 0 (readBytes c) in
                 control (zcopy (zeros (readBytes c)) request) (writeBytes c)
               else ret (soundStatus soundBadMsg)
             else ret []
         | None => ret []
         end) in
      complete soundControlQueue head (match c with Some c => writable c | None => [] end) result
  end.

Fixpoint controlRounds (n : nat) : SM unit :=
  match n with
  | O => ret tt
  | S n =>
      let! h := pop soundControlQueue in
      match h with
      | None => ret tt
      | Some head => do! controlRequest head in controlRounds n
      end
  end.

Definition processControl : SM unit := controlRounds (Z.to_nat QueueSize).

Fixpoint rxRounds (n : nat) : SM unit :=
  match n with
  | O => ret tt
  | S n =>
      let! h := pop soundRXQueue in
      match h with
      | None => ret tt
      | Some head =>
          let! d := getS in
          match soundQueue d soundRXQueue with
          | None => panic
          | Some q =>
              let! c := chain q head 4 in
              do! complete soundRXQueue head (match c with Some c => writable c | None => [] end) (le_bytes 4 soundIOErr ++ zeros 4) in
              rxRounds n
          end
      end
  end.

Definition processRX : SM unit := rxRounds (Z.to_nat QueueSize).

(** ** Playback *)

(** The chunk of [b] that is due goes to the sink. *)
Definition playChunk (b : soundBuffer) : SM unit :=
  let n := Z.min soundChunkBytes (b_size b - b_sent b) in
  let! d := getS in
  do! (match s_sink d with
       | None => ret tt
       | Some _ =>
           let! data := soundRead (b_request b) (4 + b_sent b) n in
           updS (fun d => let chunk := zwrite (s_chunk d) 0 data in
                  d <| s_chunk := chunk |> <| s_sink := option_map (fun l => l ++ [zslice chunk 0 n]) (s_sink d) |>)
       end) in
  updS (fun d =>
    d <| s_pending := match s_pending d with _ :: l => b <| b_sent := b_sent b + n |> :: l | [] => [] end |>
      <| s_next := option_map (fun t => t + n * second / soundBytesPerSecond) (s_next d) |>).

(** The first buffer was played. *)
Definition finishBuffer (b : soundBuffer) : SM unit :=
  do! completePCM b soundOK in
  updS (fun d => d <| pendingSize := u32 (pendingSize d - b_size b) |> <| s_pending := tail (s_pending d) |>).

(** The loop of [play]; it never sees the zero time. *)
Fixpoint playLoop (n : nat) (now : Z) : SM unit :=
  match n with
  | O => ret tt
  | S n =>
      let! d := getS in
      match s_next d, s_pending d with
      | Some next, b :: _ =>
          if now <? next then ret tt
          else if b_sent b =? b_size b then
            do! finishBuffer b in
            let! d := getS in
            match s_pending d with
            | [] => updS (fun d => d <| s_next := None |>)
            | b :: _ => do! playChunk b in playLoop n now
            end
          else do! playChunk b in playLoop n now
      | Some next, [] => if now <? next then ret tt else panic
      | None, _ => panic
      end
  end.

Definition play (now : Z) : SM unit :=
  let! d := getS in
  if negb (bool_decide (s_state d = soundRunning)) || (zlen (s_pending d) =? 0) then ret tt
  else
    do! (match s_next d with
         | Some next => if 100 * millisecond <? now - next then updS (fun d => d <| s_next := Some now |>) else ret tt
         | None => updS (fun d => d <| s_next := Some now |>)
         end) in
    playLoop (Z.to_nat QueueSize) now.

Definition process (now : Z) : SM unit :=
  let! d := getS in
  if s_closed d then ret tt
  else
    do! processControl in
    do! processTX false in
    do! processRX in
    do! play now in
    logged (onT ReinjectIfPending).

(** ** Executions *)

(** What happens to the device: the driver's accesses, the worker's passes at
    some instant, and the end of the machine. *)
Inductive soundAction : Type :=
| SndAccess (offset : Z) (data : list Z) (isWrite : bool)
| SndProcess (now : Z)
| SndClose.

Definition runSound (a : soundAction) : M Sound unit :=
  match a with
  | SndAccess offset data isWrite => do! MMIO offset data isWrite in ret tt
  | SndProcess now => process now
  | SndClose => fun s => (Ok tt, (fst s, soundClose (snd s)))
  end.

Fixpoint runSounds (l : list soundAction) (s : Sound) : list (result unit) * Sound :=
  match l with
  | [] => ([], s)
  | a :: l' => let '(r, s') := runSound a s in let '(rs, s'') := runSounds l' s' in (r :: rs, s'')
  end.
