(* ===== verification/VirtioSoundSpec.v ===== *)
(** * The sound card is safe, and plays what the guest queued

    Whatever a guest writes into its memory and into the registers, the card
    returns from every call within guest memory and keeps its stream consistent,
    but for writes that are shorter than the register, at which the transport
    panics;
    the samples of the periods that are queued reach the sink completely and in
    order. *)
From S2P Require Import Prelude Bytes GuestMem VirtioModern VirtioQueue VirtioAccess VirtioSound.

(** ** Segments *)

Definition segsLen (l : list segment) : Z := fold_right (fun x n => snd x + n) 0 l.
Definition seg_ok (mem : list Z) (x : segment) : Prop := in_ram mem (fst x) (snd x) /\ 0 <= snd x.
Definition rsegs (l : list segment) : region := fun x => Exists (fun g => rng (fst g) (snd g) x) l.

(** What the segments contain. *)
Definition segBytes (mem : list Z) (l : list segment) : list Z := concat (map (fun g => zslice mem (fst g) (snd g)) l).

Lemma seg_ok_touches R t t' l : touches R t t' -> Forall (seg_ok (Mem t)) l -> Forall (seg_ok (Mem t')) l.
Proof. intros T. apply Forall_impl. intros [a n] [Hr Hn]. split; [by eapply touches_ram|done]. Qed.

Lemma seg_len mem g : seg_ok mem g -> zlen (zslice mem (fst g) (snd g)) = snd g.
Proof. intros [[Ha Hv] Hn]. destruct (ValidRange_spec _ _ _ Ha Hn Hv). by apply zlen_slice. Qed.

Lemma zlen_segBytes mem l : Forall (seg_ok mem) l -> zlen (segBytes mem l) = segsLen l.
Proof.
  induction 1 as [|g l Hg Hl IH]; [done|]. unfold segBytes. cbn. rewrite zlen_app. fold (segBytes mem l). by rewrite IH, (seg_len mem g).
Qed.

Lemma segsLen_nonneg mem l : Forall (seg_ok mem) l -> 0 <= segsLen l.
Proof. intros H. rewrite <- (zlen_segBytes mem l H). apply zlen_nonneg. Qed.

Lemma segBytes_touches R t t' l :
  touches R t t' -> guest t = [] -> Forall (seg_ok (Mem t)) l -> (forall x, rsegs l x -> ~ R x) ->
  segBytes (Mem t') l = segBytes (Mem t) l.
Proof.
  intros T Hg Hl Hr. induction Hl as [|g l [Hg1 Hg2] Hl IH]; [done|]. unfold segBytes. cbn. f_equal.
  - apply (touches_slice R); try done. intros x Hx. apply Hr. by apply Exists_cons_hd.
  - apply IH. intros x Hx. apply Hr. by apply Exists_cons_tl.
Qed.

(** ** Steps that leave the device alone *)

Definition stays {A} (m : SM A) (R : region) (s : Sound) (Q : A -> Prop) : Prop :=
  wp m s (fun a s' => snd s' = snd s /\ touches R (fst s) (fst s') /\ Q a) (fun _ _ => False).

Lemma stays_onT {A} (m : M ModernTransport A) R s (Q : A -> Prop) :
  wp m (fst s) (fun a t' => touches R (fst s) t' /\ Q a) (fun _ _ => False) -> stays (onT m) R s Q.
Proof. intros H. apply wp_onT. eapply wp_mono; [exact H| |done]. intros a t' [? ?]. by splits. Qed.

Lemma stays_bind {A B} (m : SM A) (k : A -> SM B) R s (Q : A -> Prop) (Q' : B -> Prop) :
  stays m R s Q -> (forall a s1, snd s1 = snd s -> touches R (fst s) (fst s1) -> Q a -> stays (k a) R s1 Q') ->
  stays (let! a := m in k a) R s Q'.
Proof.
  intros Hm Hk. apply wp_bind. eapply wp_mono; [exact Hm| |done]. intros a s1 (E & T & Ha).
  eapply wp_mono; [exact (Hk a s1 E T Ha)| |done]. intros b s2 (E2 & T2 & Hb). splits; [congruence|by eapply touches_trans|done].
Qed.

Lemma stays_ret {A} (a : A) R s (Q : A -> Prop) : Q a -> stays (ret a) R s Q.
Proof. intros H. apply wp_ret. splits; [done|apply touches_refl|done]. Qed.

Lemma stays_mono {A} (m : SM A) (R R' : region) s (Q Q' : A -> Prop) :
  stays m R s Q -> (forall x, R x -> R' x) -> (forall a, Q a -> Q' a) -> stays m R' s Q'.
Proof.
  intros H HR HQ. eapply wp_mono; [exact H| |done]. intros a s' (E & T & Ha). splits; [done|by eapply touches_mono|auto].
Qed.

Lemma onT_stays {A} (m : M ModernTransport A) (R' R : region) s :
  wp m (fst s) (fun _ t' => touches R' (fst s) t') (fun _ _ => False) -> (forall x, R' x -> R x) -> stays (onT m) R s (fun _ => True).
Proof. intros H HR. apply (stays_mono _ R' _ _ (fun _ => True)); [|done|done]. apply stays_onT. by wcall H. Qed.

Lemma getS_stays R s (Q : soundDev -> Prop) : Q (snd s) -> stays getS R s Q.
Proof. intros H. unfold getS. apply wp_bind, wp_gget. by apply stays_ret. Qed.

Lemma storeSegments_stays response : forall data written s,
  Forall (seg_ok (Mem (fst s))) response -> bytes_ok data ->
  stays (storeSegments response data written) (rsegs response) s (fun _ => True).
Proof.
  induction response as [|[a n] rest IH]; intros data written s Hs Hb; cbn [storeSegments]; [by apply stays_ret|].
  apply Forall_cons_1 in Hs as [[Ha Hn] Hs]. cbn [fst snd] in *. pose proof (zlen_nonneg data). set (k := Z.min n (zlen data)).
  assert (Hd : zlen (take (Z.to_nat k) data) = k) by (unfold zlen in *; rewrite length_take; lia).
  eapply (stays_bind _ _ _ _ (fun _ => True)).
  - destruct (0 <? k) eqn:E; [|by apply stays_ret]. zbool.
    apply (stays_mono _ (rng a n) _ _ (fun _ => True)); [|intros x Hx; by apply Exists_cons_hd|done]. apply stays_onT. wcall memStore_touches; [rewrite Hd; apply (in_ram_prefix _ _ n); [done|lia]|by apply Forall_take| |done].
    intros [] t' [T _]. split; [|done]. revert T. apply touches_mono. unfold rng. cbn. rewrite Hd. lia.
  - intros [] s1 _ T _. cbv zeta. destruct (zlen (drop _ data) =? 0); [by apply stays_ret|].
    eapply stays_mono; [apply IH; [by eapply seg_ok_touches|by apply Forall_drop]| |done]. intros x Hx. by apply Exists_cons_tl.
Qed.

Lemma logged_stays {A} (m : M ModernTransport A) s :
  wp m (fst s) (fun _ t' => touches rnone (fst s) t') (fun _ t' => touches rnone (fst s) t') -> stays (logged (onT m)) rnone s (fun _ => True).
Proof.
  intros H. unfold logged. apply wp_bind, wp_try, wp_onT. eapply wp_mono; [exact H|..]; intros ? t' T; by apply wp_ret.
Qed.

Lemma soundQueueSize_ok mem q : queue_ok mem q -> soundQueueSize q = ringSize q /\ 0 < soundQueueSize q <= QueueSize.
Proof.
  intros Hq. pose proof (ringSize_pos _ _ Hq) as H. assert (E : soundQueueSize q = ringSize q).
  { unfold soundQueueSize, ringSize. destruct (sq_Size q =? 0), (Z.ltb_spec QueueSize (sq_Size q)), (Z.leb_spec (sq_Size q) QueueSize);
      cbn [negb andb orb]; try done; lia. }
  split; [done|]. by rewrite E.
Qed.

Lemma complete_stays idx head response data q s :
  soundQueue (snd s) idx = Some q -> queue_ok (Mem (fst s)) q -> Forall (seg_ok (Mem (fst s))) response -> bytes_ok data ->
  stays (complete idx head response data) (rboth (rsegs response) (rused q)) s (fun _ => True).
Proof.
  intros Hidx Hq Hs Hb. unfold complete.
  eapply (stays_bind _ _ _ _ (fun _ => True)).
  { eapply stays_mono; [by apply storeSegments_stays|by left|done]. }
  intros w s1 E1 T1 _. eapply (stays_bind _ _ _ _ (fun d => d = snd s1)); [by apply getS_stays|].
  intros d s2 E2 T2 ->. rewrite E1, Hidx. pose proof (touches_queue _ _ _ _ (touches_trans _ _ _ _ T1 T2) Hq) as Hq2.
  destruct (soundQueueSize_ok _ _ Hq) as [_ Hqs].
  eapply (stays_bind _ _ _ _ (fun _ => True)).
  { apply (onT_stays _ rnone); [wcall loadUsedIdx_touches; [done|by intros v t' (T & _)|done]|done]. }
  intros v s3 E3 T3 _. pose proof (touches_queue _ _ _ _ T3 Hq2) as Hq3.
  eapply (stays_bind _ _ _ _ (fun _ => True)).
  { apply (onT_stays _ (rused q)); [wcall storeUsedRing_touches; [done| |by intros|done]|by right].
    pose proof (Z.mod_pos_bound v (soundQueueSize q)). lia. }
  intros [] s4 E4 T4 _. pose proof (touches_queue _ _ _ _ T4 Hq3) as Hq4.
  eapply (stays_bind _ _ _ _ (fun _ => True)).
  { apply (onT_stays _ (rused q)); [wcall addUsedIdx_touches; [done|by intros|done]|by right]. }
  intros [] s5 E5 T5 _. pose proof (touches_queue _ _ _ _ T5 Hq4) as Hq5.
  eapply (stays_bind _ _ _ _ (fun _ => True)).
  { apply (onT_stays _ rnone); [wcall memLoad_touches; [|lia|by intros b t' (T & _)|done]|done].
    rewrite <- (Z.add_0_r (sq_Avail q)). apply (avail_ram _ _ Hq5); unfold sizeofSplitAvail, QueueSize; lia. }
  intros flags s6 E6 T6 _. destruct (_ =? 0); [|by apply stays_ret].
  eapply stays_mono; [apply logged_stays, Interrupt_touches|done|done].
Qed.

(** ** Chains *)

Record chainOk (mem : list Z) (limit : Z) (c : soundChain) : Prop := {
  ch_read : Forall (seg_ok mem) (readable c);
  ch_write : Forall (seg_ok mem) (writable c);
  ch_readLen : readBytes c = segsLen (readable c);
  ch_writeLen : writeBytes c = segsLen (writable c);
  ch_limit : readBytes c <= limit;
  ch_writeLimit : writeBytes c <= soundMaxBuffer
}.

Lemma segsLen_app l1 l2 : segsLen (l1 ++ l2) = segsLen l1 + segsLen l2.
Proof. induction l1 as [|g l IH]; [done|]. change (snd g + segsLen (l ++ l2) = snd g + segsLen l + segsLen l2). lia. Qed.

Lemma chainOk_touches R t t' limit c : touches R t t' -> chainOk (Mem t) limit c -> chainOk (Mem t') limit c.
Proof. intros T []. constructor; try done; by eapply seg_ok_touches. Qed.

Lemma chainLoop_spec fuel q limit : forall head seen c s,
  twf (fst s) -> queue_ok (Mem (fst s)) q -> 0 <= head -> zlen seen = QueueSize -> (unseen seen < fuel)%nat ->
  chainOk (Mem (fst s)) limit c ->
  wp (chainLoop fuel q head limit seen c) s
    (fun o s' => snd s' = snd s /\ touches rnone (fst s) (fst s') /\ match o with Some c => chainOk (Mem (fst s')) limit c | None => True end)
    (fun _ _ => False).
Proof.
  induction fuel as [|fuel IH]; intros head seen c s W Hq Hh Hs Hf Hc; [lia|]. cbn [chainLoop].
  destruct (soundQueueSize_ok _ _ Hq) as [_ Hqs].
  destruct (_ || _) eqn:E; [wsteps; splits; [done|apply touches_refl|done]|]. zbool.
  assert (Hsf : zlookup seen head = Some false).
  { destruct (zlookup_Some seen head) as [[] Hl]; [lia|by rewrite Hl in *|done]. }
  pose proof (unseen_insert _ _ Hsf). wstep. apply wp_onT. wcall loadDesc_touches; [done|lia| |done].
  intros d t1 (T1 & Hr & _). destruct (Hr W) as (Ra & Rl & Rn). unfold is_u64, is_u32, is_u16 in *. wsteps. cbn [fst].
  destruct (_ || _) eqn:E2; [wsteps; splits; [done|done|done]|]. zbool.
  assert (Hseg : seg_ok (Mem t1) (d_Addr d, d_Len d)) by (split; [split; [cbn; lia|done]|cbn; lia]).
  pose proof (chainOk_touches _ _ _ _ _ T1 Hc) as [C1 C2 C3 C4 C5 C6].
  assert (Hgo : forall c', chainOk (Mem t1) limit c' ->
    wp (if d_Flags d &&& descFNext =? 0 then ret (Some c') else chainLoop fuel q (d_Next d) limit (zinsert head true seen) c') (t1, snd s)
      (fun o s' => snd s' = snd s /\ touches rnone (fst s) (fst s') /\ match o with Some c => chainOk (Mem (fst s')) limit c | None => True end)
      (fun _ _ => False)).
  { intros c' Hc'. destruct (_ =? 0); [by wsteps|].
    wcall IH; [exact (to_wf _ _ _ T1 W)|exact (touches_queue _ _ _ _ T1 Hq)|lia|by rewrite zlen_insert|lia|done| |done].
    intros o s2 (K1 & K2 & K3). splits; [done|by eapply touches_trans|done]. }
  destruct (negb _).
  - destruct (soundMaxBuffer - writeBytes c <? d_Len d) eqn:E3; wsteps; [by splits|]. zbool. apply Hgo. constructor; cbn; try done; try lia.
    + apply Forall_app. split; [done|by constructor].
    + rewrite segsLen_app. cbn. lia.
  - destruct (negb _ || _) eqn:E3; wsteps; [by splits|]. zbool. apply Hgo. constructor; cbn; try done; try lia.
    + apply Forall_app. split; [done|by constructor].
    + rewrite segsLen_app. cbn. lia.
Qed.

Lemma chain_spec q head limit s :
  twf (fst s) -> queue_ok (Mem (fst s)) q -> 0 <= head -> 0 <= limit ->
  wp (chain q head limit) s
    (fun o s' => snd s' = snd s /\ touches rnone (fst s) (fst s') /\ match o with Some c => chainOk (Mem (fst s')) limit c | None => True end)
    (fun _ _ => False).
Proof.
  intros W Hq Hh Hl. apply chainLoop_spec; try done. by constructor.
Qed.

(** ** Reading samples *)

Lemma zslice_app_right (a b : list Z) o n : zlen a <= o -> zslice (a ++ b) o n = zslice b (o - zlen a) n.
Proof. unfold zslice, zlen. intros. f_equal. rewrite drop_app_ge by lia. f_equal. lia. Qed.

Lemma zslice_app_part (a b : list Z) o n :
  0 <= o <= zlen a -> 0 <= n -> zslice (a ++ b) o n = zslice a o (Z.min n (zlen a - o)) ++ zslice b 0 (n - Z.min n (zlen a - o)).
Proof.
  unfold zslice, zlen. intros Ho Hn. rewrite drop_app_le by lia. rewrite firstn_app, length_drop. f_equal.
  - destruct (Z.leb_spec n (Z.of_nat (length a) - o)); [by rewrite Z.min_l|]. rewrite Z.min_r by lia.
    rewrite !take_ge; [done|rewrite length_drop; lia..].
  - rewrite drop_0. f_equal. lia.
Qed.

Lemma zslice_join (l : list Z) o n m : 0 <= o -> 0 <= n -> 0 <= m -> zslice l o n ++ zslice l (o + n) m = zslice l o (n + m).
Proof.
  intros. unfold zslice. rewrite !Z2Nat.inj_add by lia. rewrite <- (drop_drop l). apply take_take_drop.
Qed.

Lemma soundRead_spec segments : forall offset n s,
  twf (fst s) -> Forall (seg_ok (Mem (fst s))) segments -> 0 <= offset -> 0 <= n ->
  wp (soundRead segments offset n) s
    (fun b s' => snd s' = snd s /\ touches rnone (fst s) (fst s') /\ bytes_ok b /\
       zlen b = Z.max 0 (Z.min n (segsLen segments - offset)) /\
       (guest (fst s) = [] -> b = zslice (segBytes (Mem (fst s)) segments) offset n))
    (fun _ _ => False).
Proof.
  induction segments as [|[a len] rest IH]; intros offset n s W Hs Ho Hn; cbn [soundRead].
  { wsteps. splits; [done|apply touches_refl|constructor|cbn; change (zlen []) with 0; lia|].
    intros _. unfold segBytes, zslice. cbn. by rewrite drop_nil, take_nil. }
  apply Forall_cons_1 in Hs as [Hg Hs]. pose proof (seg_len _ _ Hg) as Hlen. cbn [fst snd] in Hlen. pose proof (segsLen_nonneg _ _ Hs).
  destruct Hg as [[Ha Hv] Hn0]. cbn [fst snd] in *. unfold segsLen. cbn [fold_right snd]. fold (segsLen rest).
  destruct (Z.leb_spec len offset).
  { wcall IH; [done|done|lia|done| |done]. intros b s1 (K1 & K2 & K3 & K4 & K5). splits; try done; [lia|].
    intros Hg. rewrite K5 by done. unfold segBytes at 2. cbn [map concat fst snd]. rewrite zslice_app_right by lia. by rewrite Hlen. }
  set (k := Z.min n (len - offset)). apply wp_bind.
  assert (Hb : wp (if 0 <? k then onT (memLoad (a + offset) k) else ret []) s
    (fun b s' => snd s' = snd s /\ touches rnone (fst s) (fst s') /\ bytes_ok b /\ zlen b = k /\
       (guest (fst s) = [] -> b = zslice (zslice (Mem (fst s)) a len) offset k)) (fun _ _ => False)).
  { destruct (Z.ltb_spec 0 k).
    - apply wp_onT. wcall memLoad_touches; [|lia| |done].
      + split; [lia|]. apply (ValidRange_sub _ a len); (done || lia).
      + intros b t' (T & Hl & Hb & Hq). splits; try done; [by apply Hb|]. intros Hg. rewrite Hq by done. symmetry. apply zslice_slice; lia.
    - wsteps. splits; [done|apply touches_refl|constructor|change (zlen []) with 0; lia|]. intros _. replace k with 0 by lia. done. }
  eapply wp_mono; [exact Hb| |done]. intros b s1 (K1 & K2 & K3 & K4 & K5).
  assert (Hseg : guest (fst s) = [] -> zslice (segBytes (Mem (fst s)) ((a, len) :: rest)) offset n =
    b ++ zslice (segBytes (Mem (fst s)) rest) 0 (n - k)).
  { intros Hg. rewrite K5 by done. unfold segBytes at 1. cbn [map concat fst snd]. rewrite zslice_app_part by lia. by rewrite Hlen. }
  destruct (Z.eqb_spec (n - k) 0) as [Ek|Ek].
  - wsteps. splits; try done; [lia|]. intros Hg. rewrite Hseg by done. rewrite Ek. unfold zslice at 1. by rewrite app_nil_r.
  - wstep. wcall IH; [exact (to_wf _ _ _ K2 W)|by eapply seg_ok_touches|lia|lia| |done]. intros r s2 (J1 & J2 & J3 & J4 & J5). wsteps.
    splits; [congruence|by eapply touches_trans|by apply Forall_app|rewrite zlen_app; lia|].
    intros Hg. rewrite Hseg by done. f_equal. destruct (to_quiet _ _ _ K2 Hg) as [Hg1 _]. rewrite J5 by done. f_equal.
    apply (segBytes_touches rnone); try done. by intros x _ [].
Qed.

(** ** Invariant *)

Record buffer_ok (mem : list Z) (period : Z) (b : soundBuffer) : Prop := {
  bo_size : 4 <= b_size b <= period;
  bo_frames : b_size b mod soundBytesPerFrame = 0;
  bo_sent : 0 <= b_sent b <= b_size b;
  bo_request : Forall (seg_ok mem) (b_request b);
  bo_length : segsLen (b_request b) = b_size b + 4;
  bo_response : Forall (seg_ok mem) (b_response b)
}.

Definition sizes (l : list soundBuffer) : Z := fold_right (fun b n => b_size b + n) 0 l.

Lemma sizes_nonneg mem period l : Forall (buffer_ok mem period) l -> 0 <= sizes l.
Proof. induction 1 as [|b l [] Hl IH]; [done|]. change (0 <= b_size b + sizes l). lia. Qed.

Section Invariant.
Context (ramSize : Z).

Record soundOk (mem : list Z) (d : soundDev) : Prop := {
  so_mem : zlen mem = ramSize;
  so_queues : zlen (s_queues d) = soundNumQueues /\ forall q, In (Some q) (s_queues d) -> queue_ok mem q;
  so_last : zlen (s_lastAvail d) = soundNumQueues /\ Forall is_u16 (s_lastAvail d);
  so_params : 0 <= periodBytes d <= soundMaxPeriod /\ 0 <= bufferBytes d <= soundMaxBuffer;
  so_pending : Forall (buffer_ok mem (periodBytes d)) (s_pending d);
  so_size : pendingSize d = sizes (s_pending d) /\ sizes (s_pending d) <= bufferBytes d;
  so_count : zlen (s_pending d) <= QueueSize;
  so_stream : s_pending d <> [] -> streamReady d = true /\ soundQueue d soundTXQueue <> None;
  so_chunk : zlen (s_chunk d) = soundChunkBytes;
  so_fresh : Forall (fun b => b_sent b = 0) (tail (s_pending d))
}.

Definition soundInv (s : Sound) : Prop := twf (fst s) /\ soundOk (Mem (fst s)) (snd s).

Lemma buffer_ok_len mem mem' period b : zlen mem' = zlen mem -> buffer_ok mem period b -> buffer_ok mem' period b.
Proof.
  intros Hl [H1 H2 H3 H4 H5 H6].
  assert (Hs : forall l, Forall (seg_ok mem) l -> Forall (seg_ok mem') l).
  { intros l. apply Forall_impl. intros g [[Ha Hv] Hn]. split; [|done]. split; [done|]. by rewrite (ValidRange_len _ _ _ _ Hl). }
  constructor; auto.
Qed.

Lemma soundOk_len mem mem' d : zlen mem' = zlen mem -> soundOk mem d -> soundOk mem' d.
Proof.
  intros Hl [H0 [Q1 Q2] H2 H3 H4 H5 H6 H7 H8 H9]. constructor; try done.
  - congruence.
  - split; [done|]. intros q Hq. by apply (queue_ok_len _ _ _ Hl), Q2.
  - revert H4. apply Forall_impl. intros b. by apply buffer_ok_len.
Qed.

Lemma soundInv_touches R s s' : soundInv s -> snd s' = snd s -> touches R (fst s) (fst s') -> soundInv s'.
Proof.
  intros [W H] E T. split; [exact (to_wf _ _ _ T W)|]. rewrite E. by apply (soundOk_len (Mem (fst s)) _ _ (to_len _ _ _ T)).
Qed.

Lemma soundQueue_In d idx q : soundQueue d idx = Some q -> In (Some q) (s_queues d).
Proof.
  unfold soundQueue. destruct (zlookup (s_queues d) idx) as [[q'|]|] eqn:E; intros [= ->]. unfold zlookup in E.
  destruct (idx <? 0); [done|]. apply list_elem_of_In. by apply list_elem_of_lookup_2 in E.
Qed.

Lemma soundQueue_ok mem d idx q : soundOk mem d -> soundQueue d idx = Some q -> queue_ok mem q.
Proof. intros H E. by eapply (so_queues _ _ H), soundQueue_In. Qed.

(** The position in a queue moves; nothing else of the device does. *)
Definition sameStream (d d' : soundDev) : Prop := exists l, d' = d <| s_lastAvail := l |>.

Lemma sameStream_refl d : sameStream d d.
Proof. exists (s_lastAvail d). by destruct d. Qed.

Lemma sameStream_trans d1 d2 d3 : sameStream d1 d2 -> sameStream d2 d3 -> sameStream d1 d3.
Proof. intros [l1 ->] [l2 ->]. exists l2. by destruct d1. Qed.

Lemma setLast_sound mem d idx v : soundOk mem d -> is_u16 v -> soundOk mem (setLastAvail idx v d).
Proof.
  intros [H0 H1 [L1 L2] H3 H4 H5 H6 H7 H8 H9] Hv. constructor; try done. cbn. rewrite zlen_insert. split; [done|].
  unfold zinsert. destruct (idx <? 0); [done|]. by apply Forall_insert.
Qed.

Lemma is_u16_zget l i : Forall is_u16 l -> 0 <= i < zlen l -> is_u16 (zget l i).
Proof. intros Hl Hi. destruct (zlookup_Some l i Hi) as [x Hx]. rewrite zget_lookup, Hx. exact (Forall_zlookup _ _ _ _ Hl Hx). Qed.

Lemma pop_spec idx s :
  soundInv s -> 0 <= idx < soundNumQueues ->
  wp (pop idx) s
    (fun h s' => soundInv s' /\ touches rnone (fst s) (fst s') /\ sameStream (snd s) (snd s') /\
       match h with Some h => is_u16 h /\ exists q, soundQueue (snd s') idx = Some q | None => True end)
    (fun _ _ => False).
Proof.
  intros [W H] Hi. unfold pop, getS. wsteps. destruct (soundQueue (snd s) idx) as [q|] eqn:Eq.
  2:{ wsteps. splits; try done; apply sameStream_refl. }
  pose proof (soundQueue_ok _ _ _ _ H Eq) as Hq. destruct (soundQueueSize_ok _ _ Hq) as [_ Hqs]. destruct (so_last _ _ H) as [L1 L2].
  pose proof (is_u16_zget _ idx L2 ltac:(lia)) as Hl. unfold is_u16 in Hl. cbv zeta.
  wstep. apply wp_onT. wcall loadAvailIdx_touches; [done| |done]. intros i t1 (T1 & R1 & _).
  pose proof (soundOk_len _ _ _ (to_len _ _ _ T1) H) as H1. pose proof (to_wf _ _ _ T1 W) as W1.
  destruct (_ =? 0). { wsteps. splits; try done. apply sameStream_refl. }
  destruct (_ <? _).
  - wstep. apply wp_onT. wcall loadAvailIdx_touches; [exact (touches_queue _ _ _ _ T1 Hq)| |done]. intros i2 t2 (T2 & R2 & _).
    unfold updS. wsteps. cbn [fst snd]. splits; [split; [exact (to_wf _ _ _ T2 W1)|]|by eapply touches_trans|by eexists|done].
    apply setLast_sound; [exact (soundOk_len _ _ _ (to_len _ _ _ T2) H1)|by apply R2].
  - wstep. apply wp_onT. wcall loadAvailRing_touches; [exact (touches_queue _ _ _ _ T1 Hq)| | |done].
    { pose proof (Z.mod_pos_bound (zget (s_lastAvail (snd s)) idx) (soundQueueSize q)). lia. }
    intros h t2 (T2 & R2 & _). unfold updS. wsteps. cbn [fst snd].
    splits; [split; [exact (to_wf _ _ _ T2 W1)|]|by eapply touches_trans|by eexists|by apply R2|by exists q].
    apply setLast_sound; [exact (soundOk_len _ _ _ (to_len _ _ _ T2) H1)|]. apply u16_range.
Qed.

(** ** The transmit queue *)

(** What the processing of the transmit queue does not change. *)
Record txFrame (d d' : soundDev) : Prop := {
  tf_queues : s_queues d' = s_queues d;
  tf_state : s_state d' = s_state d;
  tf_buffer : bufferBytes d' = bufferBytes d;
  tf_period : periodBytes d' = periodBytes d;
  tf_next : s_next d' = s_next d;
  tf_sink : s_sink d' = s_sink d;
  tf_closed : s_closed d' = s_closed d
}.

Lemma txFrame_refl d : txFrame d d.
Proof. by constructor. Qed.

Lemma txFrame_trans d1 d2 d3 : txFrame d1 d2 -> txFrame d2 d3 -> txFrame d1 d3.
Proof. intros [] []. constructor; congruence. Qed.

Lemma sameStream_tx d d' : sameStream d d' -> txFrame d d'.
Proof. intros [l ->]. by constructor. Qed.

Lemma txFrame_queue d d' idx : txFrame d d' -> soundQueue d' idx = soundQueue d idx.
Proof. intros T. unfold soundQueue. by rewrite (tf_queues _ _ T). Qed.

Lemma completePCM_stays b status q s :
  soundInv s -> soundQueue (snd s) soundTXQueue = Some q -> Forall (seg_ok (Mem (fst s))) (b_response b) ->
  stays (completePCM b status) (rboth (rsegs (b_response b)) (rused q)) s (fun _ => True).
Proof.
  intros [W H] Hq Hs. apply complete_stays; [done|by eapply soundQueue_ok|done|].
  apply Forall_app. split; [apply le_bytes_ok|apply bytes_ok_zeros].
Qed.

Lemma completePCM_inv b status q s :
  soundInv s -> soundQueue (snd s) soundTXQueue = Some q -> Forall (seg_ok (Mem (fst s))) (b_response b) ->
  wp (completePCM b status) s (fun _ s' => soundInv s' /\ snd s' = snd s) (fun _ _ => False).
Proof.
  intros B Hq Hs. wcall completePCM_stays; [done|done|done| |done]. intros [] s' (E & T & _). split; [|done].
  by eapply soundInv_touches.
Qed.

Lemma sizes_app l1 l2 : sizes (l1 ++ l2) = sizes l1 + sizes l2.
Proof. induction l1 as [|b l IH]; [done|]. change (b_size b + sizes (l ++ l2) = b_size b + sizes l + sizes l2). lia. Qed.

(** A period is queued. *)
Lemma queued_ok mem d head c size :
  soundOk mem d -> chainOk mem (soundMaxPeriod + 4) c -> soundQueue d soundTXQueue <> None ->
  size = u32 (readBytes c - 4) -> 8 <= readBytes c -> Z.rem (readBytes c - 4) soundBytesPerFrame = 0 ->
  streamReady d = true -> size <= periodBytes d -> size <= u32 (bufferBytes d - pendingSize d) -> zlen (s_pending d) < QueueSize ->
  soundOk mem (d <| pendingSize := u32 (pendingSize d + size) |> <| s_pending := s_pending d ++ [mkBuffer head (writable c) (readable c) size 0] |>).
Proof.
  intros [H0 H1 H2 [H3 H3'] H4 [H5 H5'] H6 H7 H8 H9] [C1 C2 C3 C4 C5 C6] Hq Hsz Hr Hf Hst Hp Hb Hc.
  unfold soundMaxPeriod, soundMaxBuffer, soundBytesPerFrame, QueueSize in *.
  pose proof (sizes_nonneg _ _ _ H4) as Hs.
  rewrite u32_small in Hsz by lia. rewrite u32_small in Hb by lia.
  constructor; try done; cbn [s_pending pendingSize bufferBytes periodBytes set_field soundDev_eta].
  - apply Forall_app. split; [done|]. constructor; [|constructor]. constructor; cbn [b_size b_sent b_request b_response]; try done; try lia.
    rewrite Hsz. by rewrite Z.rem_mod_nonneg in Hf by lia.
  - rewrite sizes_app. cbn [sizes fold_right b_size]. rewrite u32_small by lia. lia.
  - rewrite zlen_app. change (zlen [_]) with 1. unfold QueueSize. lia.
  - destruct (s_pending d) as [|b l]; [constructor|]. cbn in *. apply Forall_app. split; [done|by constructor].
Qed.

Lemma txRequest_spec release head s :
  soundInv s -> 0 <= head -> soundQueue (snd s) soundTXQueue <> None ->
  wp (txRequest release head) s
    (fun _ s' => soundInv s' /\ txFrame (snd s) (snd s') /\ (release = true -> s_pending (snd s') = s_pending (snd s))) (fun _ _ => False).
Proof.
  intros B Hh Hne. pose proof B as [W H]. unfold txRequest, getS. wsteps.
  destruct (soundQueue (snd s) soundTXQueue) as [q|] eqn:Eq; [|done]. clear Hne. pose proof (soundQueue_ok _ _ _ _ H Eq) as Hq.
  wstep. wcall chain_spec; [done|done|done|unfold soundMaxPeriod; lia| |done]. intros c s1 (E1 & T1 & Hc).
  pose proof (soundInv_touches _ _ _ B E1 T1) as B1.
  assert (Hrd : Forall (seg_ok (Mem (fst s1))) (match c with Some c => readable c | None => [] end)) by (destruct c; [apply Hc|constructor]).
  assert (Hwr : Forall (seg_ok (Mem (fst s1))) (match c with Some c => writable c | None => [] end)) by (destruct c; [apply Hc|constructor]).
  wstep. wcall soundRead_spec; [apply B1|done|lia|lia| |done]. intros header s2 (E2 & T2 & _). cbv zeta.
  pose proof (soundInv_touches _ _ _ B1 E2 T2) as B2. assert (Ed : snd s2 = snd s) by congruence.
  assert (Hfail : forall status, wp (completePCM (mkBuffer head (match c with Some c => writable c | None => [] end) [] 0 0) status) s2
    (fun _ s' => soundInv s' /\ txFrame (snd s) (snd s') /\ (release = true -> s_pending (snd s') = s_pending (snd s))) (fun _ _ => False)).
  { intros status. wcall completePCM_inv; [done|by rewrite Ed|by eapply seg_ok_touches| |done].
    intros [] s3 [B3 E3]. rewrite E3, Ed. splits; [done|apply txFrame_refl|done]. }
  destruct c as [c|]; [|apply Hfail]. wif Ef; [apply Hfail|]. wif Erel; [apply Hfail|].
  wsteps. wif Er; [apply Hfail|]. zbool. unfold updS. wsteps. cbn [fst snd]. pose proof (chainOk_touches _ _ _ _ _ T2 Hc) as Hc2.
  splits; [|rewrite Ed; by constructor|done]. destruct B2 as [W2 G2]. split; [done|].
  assert (Hst : streamReady (snd s2) = true) by (destruct (streamReady (snd s2)); done).
  apply queued_ok; try done; try lia. by rewrite Ed, Eq.
Qed.

Lemma txRounds_spec n release : forall s,
  soundInv s ->
  wp (txRounds n release) s
    (fun _ s' => soundInv s' /\ txFrame (snd s) (snd s') /\ (release = true -> s_pending (snd s') = s_pending (snd s))) (fun _ _ => False).
Proof.
  induction n as [|n IH]; intros s B; cbn [txRounds]; [wsteps; splits; [done|apply txFrame_refl|done]|].
  wstep. wcall pop_spec; [done|unfold soundTXQueue, soundNumQueues; lia| |done]. intros [h|] s1 (B1 & _ & Hs1 & Hh).
  2:{ wsteps. splits; [done|by apply sameStream_tx|]. intros _. destruct Hs1 as [l ->]. done. }
  destruct Hh as [Hu (q & Hq)]. unfold is_u16 in Hu. wstep. wcall txRequest_spec; [done|lia|by rewrite Hq| |done].
  intros [] s2 (B2 & F2 & P2). wcall IH; [done| |done]. intros [] s3 (B3 & F3 & P3). splits; [done| |].
  - eapply txFrame_trans; [by apply sameStream_tx|]. by eapply txFrame_trans.
  - intros E. rewrite P3, P2 by done. by destruct Hs1 as [l ->].
Qed.

(** ** Control requests *)

(** A change of the stream that leaves no periods behind, or none that could not stay. *)
Lemma stream_ok mem d state buffer period l size next :
  soundOk mem d -> 0 <= period <= soundMaxPeriod -> 0 <= buffer <= soundMaxBuffer ->
  (l = [] /\ size = 0) \/
  (l = s_pending d /\ size = pendingSize d /\ period = periodBytes d /\ buffer = bufferBytes d /\
   (s_pending d <> [] -> match state with soundPrepared | soundRunning | soundStopped => True | _ => False end)) ->
  soundOk mem (d <| s_state := state |> <| bufferBytes := buffer |> <| periodBytes := period |> <| s_pending := l |>
                 <| pendingSize := size |> <| s_next := next |>).
Proof.
  intros [H0 H1 H2 H3 H4 [H5 H5'] H6 H7 H8 H9] Hp Hb [[-> ->]|(-> & -> & -> & -> & Hst)].
  - constructor; try done. cbn. lia.
  - constructor; try done. cbn. intros Hne. destruct (H7 Hne) as [_ Hq]. split; [|exact Hq]. unfold streamReady. cbn.
    specialize (Hst Hne). by destruct state.
Qed.

Lemma setParams_spec request s :
  soundInv s -> bytes_ok request ->
  wp (setParams request) s (fun _ s' => soundInv s' /\ s_queues (snd s') = s_queues (snd s)) (fun _ _ => False).
Proof.
  intros [W H] Hb. unfold setParams, getS. wsteps. wif E1; [by wsteps|]. cbv zeta. wif E2; [by wsteps|]. wif E3; [by wsteps|].
  unfold updS. wsteps. cbn [fst snd]. split; [|done]. split; [done|]. zbool.
  pose proof (le_uint32_range request 8 Hb). pose proof (le_uint32_range request 12 Hb). unfold is_u32 in *.
  assert (Hp : s_pending (snd s) = []).
  { pose proof (zlen_nonneg (s_pending (snd s))). destruct (s_pending (snd s)) as [|b l]; [done|]. rewrite zlen_cons in *.
    pose proof (zlen_nonneg l). lia. }
  pose proof (stream_ok _ (snd s) soundConfigured (le_uint32 request 8) (le_uint32 request 12) [] 0 (s_next (snd s)) H ltac:(lia) ltac:(lia)
    (or_introl (conj eq_refl eq_refl))) as K.
  destruct (so_size _ _ H) as [Hsz _]. rewrite Hp in Hsz. change (sizes []) with 0 in Hsz. destruct s as [t []]. cbn in *. by subst.
Qed.

Lemma completeAll_spec l : forall s,
  soundInv s -> (l <> [] -> soundQueue (snd s) soundTXQueue <> None) -> Forall (fun b => Forall (seg_ok (Mem (fst s))) (b_response b)) l ->
  wp (completeAll l) s (fun _ s' => soundInv s' /\ snd s' = snd s) (fun _ _ => False).
Proof.
  induction l as [|b l IH]; intros s B Hq Hl; cbn [completeAll]; [by wsteps|]. apply Forall_cons_1 in Hl as [Hb Hl].
  destruct (soundQueue (snd s) soundTXQueue) as [q|] eqn:Eq; [|by destruct Hq]. wstep.
  wcall completePCM_stays; [done|done|done| |done]. intros [] s1 (E1 & T1 & _).
  pose proof (soundInv_touches _ _ _ B E1 T1) as B1. wcall IH; [done|by rewrite E1, Eq| | |done].
  - revert Hl. apply Forall_impl. intros b' Hb'. by eapply seg_ok_touches.
  - intros [] s2 [B2 E2]. split; [done|congruence].
Qed.

Lemma release_spec s :
  soundInv s ->
  wp (do! completeAll (s_pending (snd s)) in
      do! updS (fun d => d <| s_pending := [] |> <| pendingSize := 0 |>) in
      do! processTX true in
      do! updS (fun d => d <| s_state := soundConfigured |> <| s_next := None |>) in
      ret soundOK) s
    (fun _ s' => soundInv s' /\ s_queues (snd s') = s_queues (snd s)) (fun _ _ => False).
Proof.
  intros B. wstep. wcall completeAll_spec; [done| | | |done].
  - intros Hne. by apply (so_stream _ _ (proj2 B)).
  - pose proof (so_pending _ _ (proj2 B)) as H. revert H. apply Forall_impl. by intros b [].
  - intros [] s1 [B1 E1]. unfold updS. wsteps. cbn [fst snd].
    set (s2 := (fst s1, snd s1 <| s_pending := [] |> <| pendingSize := 0 |>)).
    assert (B2 : soundInv s2).
    { destruct B1 as [W1 H1]. split; [done|]. pose proof (so_params _ _ H1) as [Hp Hb].
      pose proof (stream_ok _ (snd s1) (s_state (snd s1)) _ _ [] 0 (s_next (snd s1)) H1 Hp Hb (or_introl (conj eq_refl eq_refl))) as K.
      unfold s2. destruct s1 as [t []]. exact K. }
    wcall txRounds_spec; [exact B2| |done]. intros [] s3 (B3 & F3 & P3). wsteps. cbn [fst snd].
    specialize (P3 eq_refl). change (s_pending (snd s2)) with (@nil soundBuffer) in P3. split.
    + destruct B3 as [W3 H3]. split; [done|]. pose proof (so_params _ _ H3) as [Hp Hb]. destruct (so_size _ _ H3) as [Hsz _].
      pose proof (stream_ok _ (snd s3) soundConfigured _ _ [] 0 None H3 Hp Hb (or_introl (conj eq_refl eq_refl))) as K.
      rewrite P3 in Hsz. change (sizes []) with 0 in Hsz. destruct s3 as [t []]. cbn in *. by subst.
    + cbn. rewrite (tf_queues _ _ F3). unfold s2. cbn. by rewrite E1.
Qed.

Lemma streamCommand_spec code request s :
  soundInv s -> bytes_ok request ->
  wp (streamCommand code request) s (fun _ s' => soundInv s' /\ s_queues (snd s') = s_queues (snd s)) (fun _ _ => False).
Proof.
  intros B Hb. pose proof B as [W H]. unfold streamCommand, getS. wsteps. wif E1; [by apply setParams_spec|].
  pose proof (so_params _ _ H) as [Hp Hbuf]. pose proof (so_stream _ _ H) as Hst. unfold streamReady in Hst.
  assert (Hgo : forall state next, (s_pending (snd s) <> [] -> match state with soundPrepared | soundRunning | soundStopped => True | _ => False end) ->
    soundInv (fst s, snd s <| s_state := state |> <| s_next := next |>)).
  { intros state next Hok. split; [done|].
    pose proof (stream_ok _ (snd s) state _ _ (s_pending (snd s)) (pendingSize (snd s)) next H Hp Hbuf) as K.
    cbn [snd]. destruct s as [t []]. apply K. right. by splits. }
  wif E2.
  { destruct (s_state (snd s)) eqn:Es; try (by wsteps); unfold updS; wsteps; (split; [|done]);
      pose proof (Hgo soundPrepared (s_next (snd s)) ltac:(done)) as K; destruct s as [t []]; exact K. }
  wif E3. { destruct (s_state (snd s)) eqn:Es; try (by wsteps); unfold updS; wsteps; (split; [|done]); by apply Hgo. }
  wif E4. { destruct (s_state (snd s)) eqn:Es; try (by wsteps); unfold updS; wsteps; (split; [|done]); by apply Hgo. }
  wif E5; [|by wsteps]. destruct (s_state (snd s)) eqn:Es; try (by wsteps); by apply release_spec.
Qed.

Lemma bytes_ok_copy (a b : list Z) : bytes_ok a -> bytes_ok b -> bytes_ok (zcopy a b).
Proof. intros Ha Hb. unfold zcopy. apply Forall_app. split; [by apply Forall_take|by apply Forall_drop]. Qed.

Lemma soundInfo_bytes code request capacity : bytes_ok (soundInfo code request capacity).
Proof.
  unfold soundInfo, soundStatus. assert (is_u8 2 /\ is_u8 3 /\ is_u8 4) as (U2 & U3 & U4) by (unfold is_u8; lia).
  destruct (negb _); [apply le_bytes_ok|]. cbv zeta. destruct (_ || _ || _ || _); [apply le_bytes_ok|].
  destruct (_ =? 0); [apply bytes_ok_put_le, bytes_ok_zeros|].
  destruct (code =? soundPCMInfo); repeat (apply bytes_ok_insert; [|done]); repeat apply bytes_ok_put_le; apply bytes_ok_zeros.
Qed.

Lemma control_spec request capacity s :
  soundInv s -> bytes_ok request ->
  wp (control request capacity) s (fun r s' => soundInv s' /\ s_queues (snd s') = s_queues (snd s) /\ bytes_ok r) (fun _ _ => False).
Proof.
  intros B Hb. unfold control. cbv zeta. wif E1; [wsteps; splits; [done|done|apply soundInfo_bytes]|].
  wif E2; [wsteps; splits; [done|done|apply le_bytes_ok]|]. wif E3; [wsteps; splits; [done|done|apply le_bytes_ok]|].
  wstep. wcall streamCommand_spec; [done|done| |done]. intros status s1 [B1 Q1]. wsteps. splits; [done|done|apply le_bytes_ok].
Qed.

Lemma controlRequest_spec head s :
  soundInv s -> 0 <= head -> soundQueue (snd s) soundControlQueue <> None ->
  wp (controlRequest head) s (fun _ s' => soundInv s' /\ s_queues (snd s') = s_queues (snd s)) (fun _ _ => False).
Proof.
  intros B Hh Hne. pose proof B as [W H]. unfold controlRequest, getS. wsteps.
  destruct (soundQueue (snd s) soundControlQueue) as [q|] eqn:Eq; [|done]. clear Hne. pose proof (soundQueue_ok _ _ _ _ H Eq) as Hq.
  wstep. wcall chain_spec; [done|done|done|lia| |done]. intros c s1 (E1 & T1 & Hc). pose proof (soundInv_touches _ _ _ B E1 T1) as B1.
  apply wp_bind.
  assert (Hr : wp (match c with
     | Some c => if 4 <=? writeBytes c then
                   if 4 <=? readBytes c then
                     let! request := soundRead (readable c) 0 (readBytes c) in
                     control (zcopy (zeros (readBytes c)) request) (writeBytes c)
                   else ret (soundStatus soundBadMsg)
                 else ret []
     | None => ret []
     end) s1 (fun r s' => soundInv s' /\ s_queues (snd s') = s_queues (snd s) /\ bytes_ok r /\ zlen (Mem (fst s')) = zlen (Mem (fst s1))) (fun _ _ => False)).
  { assert (Hnil : bytes_ok []) by constructor. destruct c as [c|]; [|wsteps; splits; [done|by rewrite E1|done|done]].
    destruct (4 <=? writeBytes c); [|wsteps; splits; [done|by rewrite E1|done|done]].
    destruct (4 <=? readBytes c) eqn:E4; [|wsteps; splits; [done|by rewrite E1|apply le_bytes_ok|done]]. zbool.
    wstep. wcall soundRead_spec; [apply B1|apply Hc|lia|lia| |done]. intros b s2 (E2 & T2 & Hb & _).
    pose proof (soundInv_touches _ _ _ B1 E2 T2) as B2.
    wcall control_spec; [done|apply bytes_ok_copy; [apply bytes_ok_zeros|done]| |done]. intros r s3 (B3 & Q3 & R3).
    splits; [done|by rewrite Q3, E2, E1|done|]. rewrite (so_mem _ _ (proj2 B3)), (so_mem _ _ (proj2 B1)). done. }
  eapply wp_mono; [exact Hr| |done]. intros r s2 (B2 & Q2 & R2 & L2). assert (Eq2 : soundQueue (snd s2) soundControlQueue = Some q).
  { unfold soundQueue. rewrite Q2. exact Eq. }
  wcall complete_stays; [done|by eapply soundQueue_ok; [apply B2|]| |done| |done].
  - assert (Hw : Forall (seg_ok (Mem (fst s1))) (match c with Some c => writable c | None => [] end)) by (destruct c; [apply Hc|constructor]).
    revert Hw. apply Forall_impl. intros g [[Ha Hv] Hn]. split; [|done]. split; [done|]. by rewrite (ValidRange_len _ _ _ _ L2).
  - intros [] s3 (E3 & T3 & _). split; [by eapply soundInv_touches|by rewrite E3].
Qed.

Lemma controlRounds_spec n : forall s,
  soundInv s -> wp (controlRounds n) s (fun _ s' => soundInv s' /\ s_queues (snd s') = s_queues (snd s)) (fun _ _ => False).
Proof.
  induction n as [|n IH]; intros s B; cbn [controlRounds]; [by wsteps|].
  wstep. wcall pop_spec; [done|unfold soundControlQueue, soundNumQueues; lia| |done]. intros [h|] s1 (B1 & _ & Hs1 & Hh).
  2:{ wsteps. split; [done|]. by destruct Hs1 as [l ->]. }
  destruct Hh as [Hu (q & Hq)]. unfold is_u16 in Hu. wstep. wcall controlRequest_spec; [done|lia|by rewrite Hq| |done].
  intros [] s2 [B2 Q2]. wcall IH; [done| |done]. intros [] s3 [B3 Q3]. split; [done|]. rewrite Q3, Q2. by destruct Hs1 as [l ->].
Qed.

Lemma rxRounds_spec n : forall s,
  soundInv s -> wp (rxRounds n) s (fun _ s' => soundInv s' /\ sameStream (snd s) (snd s')) (fun _ _ => False).
Proof.
  induction n as [|n IH]; intros s B; cbn [rxRounds]; [wsteps; split; [done|apply sameStream_refl]|].
  wstep. wcall pop_spec; [done|unfold soundRXQueue, soundNumQueues; lia| |done]. intros [h|] s1 (B1 & _ & Hs1 & Hh); [|by wsteps].
  destruct Hh as [Hu (q & Hq)]. unfold is_u16 in Hu. unfold getS. wsteps. rewrite Hq. pose proof (soundQueue_ok _ _ _ _ (proj2 B1) Hq) as Hqo.
  wstep. wcall chain_spec; [apply B1|done|lia|lia| |done]. intros c s2 (E2 & T2 & Hc). pose proof (soundInv_touches _ _ _ B1 E2 T2) as B2.
  wstep. wcall complete_stays; [by rewrite E2|exact (touches_queue _ _ _ _ T2 Hqo)|destruct c; [apply Hc|constructor]| | |done].
  { apply Forall_app. split; [apply le_bytes_ok|apply bytes_ok_zeros]. }
  intros [] s3 (E3 & T3 & _). wcall IH; [by eapply soundInv_touches| |done]. intros [] s4 [B4 S4]. split; [done|].
  eapply sameStream_trans; [exact Hs1|]. by rewrite <- E2, <- E3.
Qed.

(** ** Playback *)

(** The samples of a period that were not played yet, and of all of them. *)
Definition unplayed (mem : list Z) (b : soundBuffer) : list Z :=
  zslice (segBytes mem (b_request b)) (4 + b_sent b) (b_size b - b_sent b).
Definition remaining (mem : list Z) (d : soundDev) : list Z := concat (map (unplayed mem) (s_pending d)).

(** What the sink got. *)
Definition played (d : soundDev) : list Z := concat (default [] (s_sink d)).

(** The samples lie beside what the card stores when it returns periods. *)
Definition separate (d : soundDev) : Prop :=
  forall q x, soundQueue d soundTXQueue = Some q -> Exists (fun b => rsegs (b_request b) x) (s_pending d) ->
    ~ (rused q x \/ Exists (fun b => rsegs (b_response b) x) (s_pending d)).

Lemma remaining_touches R t t' d :
  touches R t t' -> guest t = [] -> Forall (fun b => Forall (seg_ok (Mem t)) (b_request b)) (s_pending d) ->
  (forall x, Exists (fun b => rsegs (b_request b) x) (s_pending d) -> ~ R x) ->
  remaining (Mem t') d = remaining (Mem t) d.
Proof.
  intros T Hg Hs Hr. unfold remaining. f_equal. induction Hs as [|b l Hb Hl IH]; [done|]. cbn. f_equal.
  - unfold unplayed. f_equal. apply (segBytes_touches R); try done. intros x Hx. apply Hr. by apply Exists_cons_hd.
  - apply IH. intros x Hx. apply Hr. by apply Exists_cons_tl.
Qed.

Lemma finishBuffer_spec b l s :
  soundInv s -> s_pending (snd s) = b :: l ->
  wp (finishBuffer b) s
    (fun _ s' => soundInv s' /\ snd s' = snd s <| pendingSize := u32 (pendingSize (snd s) - b_size b) |> <| s_pending := l |> /\
       exists q, soundQueue (snd s) soundTXQueue = Some q /\ touches (rboth (rsegs (b_response b)) (rused q)) (fst s) (fst s'))
    (fun _ _ => False).
Proof.
  intros B Hp. pose proof (so_pending _ _ (proj2 B)) as Hb. rewrite Hp in Hb. apply Forall_cons_1 in Hb as [Hb Hl].
  pose proof (so_stream _ _ (proj2 B)) as Hst. rewrite Hp in Hst. destruct (Hst ltac:(done)) as [Hr Hq].
  destruct (soundQueue (snd s) soundTXQueue) as [q|] eqn:Eq; [|done]. unfold finishBuffer. wstep.
  wcall completePCM_stays; [done|done|apply Hb| |done]. intros [] s1 (E1 & T1 & _). unfold updS. wsteps. cbn [fst snd].
  rewrite E1, Hp. cbn [tail]. splits; [|done|by exists q]. destruct (soundInv_touches _ _ _ B E1 T1) as [W1 H1]. rewrite E1 in H1.
  split; [done|]. destruct H1 as [H0 G1 G2 G3 G4 [G5 G5'] G6 G7 G8 G9]. rewrite Hp in *. cbn [tail] in G9. apply Forall_cons_1 in G4 as [_ G4].
  destruct (bo_size _ _ _ Hb) as [? _]. change (sizes (b :: l)) with (b_size b + sizes l) in *. rewrite zlen_cons in G6.
  pose proof (sizes_nonneg _ _ _ Hl).
  unfold soundMaxPeriod, soundMaxBuffer in *.
  constructor; try done; cbn [s_pending pendingSize bufferBytes set_field soundDev_eta fst snd]; [rewrite u32_small; lia|lia| |].
  2:{ destruct l; [constructor|]. by apply Forall_cons_1 in G9 as [_ ?]. }
  intros _. split; [exact Hr|]. change (soundQueue (snd s) soundTXQueue <> None). by rewrite Eq.
Qed.

Definition advanced (b : soundBuffer) (n : Z) : soundBuffer := b <| b_sent := b_sent b + n |>.

Lemma playChunk_spec b l s :
  soundInv s -> s_pending (snd s) = b :: l -> b_sent b < b_size b ->
  let n := Z.min soundChunkBytes (b_size b - b_sent b) in
  wp (playChunk b) s
    (fun _ s' => soundInv s' /\ touches rnone (fst s) (fst s') /\
       exists chunk data, zlen data = n /\
         snd s' = snd s <| s_chunk := chunk |> <| s_sink := option_map (fun out => out ++ [data]) (s_sink (snd s)) |>
                        <| s_pending := advanced b n :: l |>
                        <| s_next := option_map (fun t => t + n * second / soundBytesPerSecond) (s_next (snd s)) |> /\
         (guest (fst s) = [] -> data = zslice (segBytes (Mem (fst s)) (b_request b)) (4 + b_sent b) n))
    (fun _ _ => False).
Proof.
  intros B Hp Hlt n. pose proof B as [W H]. pose proof (so_pending _ _ H) as Hb. rewrite Hp in Hb. apply Forall_cons_1 in Hb as [Hb Hl].
  pose proof Hb as [O1 O2 O3 O4 O5 O6]. pose proof (so_chunk _ _ H) as Hch. assert (Hn : 0 < n <= soundChunkBytes) by (unfold n; change soundChunkBytes with 1920; lia).
  assert (Hok : forall mem chunk sink next, soundOk mem (snd s) -> Forall (buffer_ok mem (periodBytes (snd s))) (b :: l) -> zlen chunk = soundChunkBytes ->
    soundOk mem (snd s <| s_chunk := chunk |> <| s_sink := sink |> <| s_pending := advanced b n :: l |> <| s_next := next |>)).
  { intros mem chunk sink next [H0 G1 G2 G3 G4 G5 G6 G7 G8 G9] Hall Hck. rewrite Hp in *. apply Forall_cons_1 in Hall as [[] Hall].
    constructor; try done; [cbn; constructor; [|done]|intros _; by apply G7]. constructor; try done. cbn. unfold n. lia. }
  unfold playChunk, getS. fold n. wsteps. destruct (s_sink (snd s)) as [out|] eqn:Es.
  - wstep. wcall soundRead_spec; [done|done|lia|lia| |done]. intros data s1 (E1 & T1 & Hd & Hl1 & Hq). unfold updS. wsteps. cbn [fst snd].
    assert (Hlen : zlen data = n) by (rewrite Hl1, O5; lia). destruct (soundInv_touches _ _ _ B E1 T1) as [W1 H1].
    assert (Hz : zslice (zwrite (s_chunk (snd s1)) 0 data) 0 n = data) by (rewrite <- Hlen; apply zslice_write; lia).
    assert (Hc : zlen (zwrite (s_chunk (snd s1)) 0 data) = soundChunkBytes) by (rewrite zlen_write_in; rewrite ?E1; lia).
    splits; [split; [done|]|done|exists (zwrite (s_chunk (snd s1)) 0 data), data; splits; try done].
    + rewrite E1 in *. pose proof (so_pending _ _ H1) as Hall. rewrite Hp in Hall.
      pose proof (Hok _ _ (Some (out ++ [data])) (option_map (fun t => t + n * second / soundBytesPerSecond) (s_next (snd s))) H1 Hall Hc) as K.
      destruct s as [t d], d. cbn in *. subst. cbn. rewrite Hz. exact K.
    + rewrite E1 in *. destruct s as [t d], d. cbn in *. subst. cbn. by rewrite Hz.
  - unfold updS. wsteps. cbn [fst snd]. splits; [split; [done|]|apply touches_refl|exists (s_chunk (snd s)), (zslice (segBytes (Mem (fst s)) (b_request b)) (4 + b_sent b) n); splits; try done].
    + pose proof (so_pending _ _ H) as Hall. rewrite Hp in Hall.
      pose proof (Hok _ (s_chunk (snd s)) (s_sink (snd s)) (option_map (fun t => t + n * second / soundBytesPerSecond) (s_next (snd s))) H Hall Hch) as K.
      destruct s as [t d], d. cbn in *. subst. exact K.
    + apply zlen_slice; [lia|lia|]. rewrite zlen_segBytes by done. lia.
    + destruct s as [t d], d. cbn in *. by subst.
Qed.

(** A part of the playback: nothing is lost, doubled or reordered. *)
Record playStep (s s' : Sound) : Prop := {
  ps_inv : soundInv s';
  ps_queues : s_queues (snd s') = s_queues (snd s);
  ps_state : s_state (snd s') = s_state (snd s);
  ps_quiet : guest (fst s) = [] -> separate (snd s) -> guest (fst s') = [] /\ separate (snd s');
  ps_flow : guest (fst s) = [] -> separate (snd s) -> s_sink (snd s) <> None ->
    s_sink (snd s') <> None /\
    played (snd s') ++ remaining (Mem (fst s')) (snd s') = played (snd s) ++ remaining (Mem (fst s)) (snd s);
  ps_more : zlen (played (snd s)) <= zlen (played (snd s'));
  ps_count : zlen (s_pending (snd s')) <= zlen (s_pending (snd s))
}.

(** More was played, or a period went back to the driver. *)
Definition progress (s s' : Sound) : Prop :=
  zlen (played (snd s)) < zlen (played (snd s')) \/ zlen (s_pending (snd s')) < zlen (s_pending (snd s)).

Lemma progress_within s s1 s2 s' : playStep s s1 -> progress s1 s2 -> playStep s2 s' -> progress s s'.
Proof.
  intros S1 P S2. pose proof (ps_more _ _ S1). pose proof (ps_count _ _ S1). pose proof (ps_more _ _ S2). pose proof (ps_count _ _ S2).
  unfold progress in *. lia.
Qed.

Lemma playStep_trans s1 s2 s3 : playStep s1 s2 -> playStep s2 s3 -> playStep s1 s3.
Proof.
  intros [] []. constructor; try congruence; try lia; intros.
  - destruct ps_quiet0; auto.
  - destruct ps_quiet0; [done..|]. destruct ps_flow0 as [? E0]; [done..|]. destruct ps_flow1 as [? E1]; [done..|].
    split; [done|congruence].
Qed.

Lemma playStep_refl s : soundInv s -> playStep s s.
Proof. by constructor. Qed.

Lemma requests_ok mem d : soundOk mem d -> Forall (fun b => Forall (seg_ok mem) (b_request b)) (s_pending d).
Proof. intros H. pose proof (so_pending _ _ H) as Hp. revert Hp. apply Forall_impl. by intros b []. Qed.

Lemma finish_step b l s :
  soundInv s -> s_pending (snd s) = b :: l -> b_sent b = b_size b ->
  wp (finishBuffer b) s (fun _ s' => playStep s s' /\ s_pending (snd s') = l /\ s_next (snd s') = s_next (snd s) /\ s_sink (snd s') = s_sink (snd s))
    (fun _ _ => False).
Proof.
  intros B Hp Hd. wcall finishBuffer_spec; [done|exact Hp| |done]. intros [] s' (B' & Es & q & Hq & T).
  assert (Hpend : s_pending (snd s') = l) by (by rewrite Es).
  assert (Hsink : s_sink (snd s') = s_sink (snd s)) by (by rewrite Es).
  assert (Hrest : remaining (Mem (fst s')) (snd s') = concat (map (unplayed (Mem (fst s'))) l)) by (unfold remaining; by rewrite Hpend).
  splits; [|done|by rewrite Es|done]. constructor; [done|by rewrite Es|by rewrite Es| | |unfold played; by rewrite Hsink|rewrite Hpend, Hp, zlen_cons; lia].
  - intros Hg Hsep. split; [by apply (to_quiet _ _ _ T)|]. intros q' x Hq' Hx Ho. rewrite Hpend in Hx, Ho.
    assert (Hq2 : soundQueue (snd s) soundTXQueue = Some q') by (rewrite Es in Hq'; exact Hq').
    apply (Hsep q' x Hq2); rewrite Hp; [by apply Exists_cons_tl|]. destruct Ho as [Ho|Ho]; [by left|right; by apply Exists_cons_tl].
  - intros Hg Hsep Hs. rewrite Hsink. split; [done|]. unfold played. rewrite Hsink. f_equal.
    assert (Hr : remaining (Mem (fst s')) (snd s) = remaining (Mem (fst s)) (snd s)).
    { apply (remaining_touches _ _ _ _ T Hg (requests_ok _ _ (proj2 B))). intros x Hx Ho. apply (Hsep q x Hq Hx). rewrite Hp.
      destruct Ho as [Ho|Ho]; [right; by apply Exists_cons_hd|by left]. }
    rewrite Hrest, <- Hr. unfold remaining. rewrite Hp. cbn [map concat]. unfold unplayed at 2. rewrite Hd, Z.sub_diag. done.
Qed.

Lemma chunk_step b l s :
  soundInv s -> s_pending (snd s) = b :: l -> b_sent b < b_size b -> s_next (snd s) <> None ->
  wp (playChunk b) s (fun _ s' => playStep s s' /\ s_pending (snd s') <> [] /\ s_next (snd s') <> None /\
      (s_sink (snd s) <> None -> zlen (played (snd s)) < zlen (played (snd s')))) (fun _ _ => False).
Proof.
  intros B Hp Hlt Hnx. wcall playChunk_spec; [done|exact Hp|done| |done]. intros [] s' (B' & T & chunk & data & Hl & Es & Hq).
  set (n := Z.min soundChunkBytes (b_size b - b_sent b)) in *.
  pose proof (so_pending _ _ (proj2 B)) as Hb. rewrite Hp in Hb. apply Forall_cons_1 in Hb as [[O1 O2 O3 O4 O5 O6] _].
  assert (Hn : 0 < n) by (unfold n; change soundChunkBytes with 1920; lia).
  assert (Hpend : s_pending (snd s') = advanced b n :: l) by (by rewrite Es).
  assert (Hsink : s_sink (snd s') = option_map (fun out => out ++ [data]) (s_sink (snd s))) by (by rewrite Es).
  assert (Hplay : s_sink (snd s) <> None -> played (snd s') = played (snd s) ++ data).
  { intros Hs. unfold played. rewrite Hsink. destruct (s_sink (snd s)) as [out|]; [|done]. cbn. unfold id. by rewrite concat_app; cbn; rewrite app_nil_r. }
  splits.
  - constructor; [done|by rewrite Es|by rewrite Es| | | |by rewrite Hpend, Hp, !zlen_cons].
    + intros Hg Hsep. split; [by apply (to_quiet _ _ _ T)|]. intros q' x Hq' Hx. rewrite Hpend in *.
      assert (Hq2 : soundQueue (snd s) soundTXQueue = Some q') by (rewrite Es in Hq'; exact Hq').
      specialize (Hsep q' x Hq2). rewrite Hp in Hsep. rewrite Exists_cons in Hx, Hsep. rewrite !Exists_cons in Hsep. rewrite Exists_cons. exact (Hsep Hx).
    + intros Hg Hsep Hs. split; [rewrite Hsink; by destruct (s_sink (snd s))|]. rewrite Hplay by done. rewrite <- app_assoc. f_equal.
      assert (Hr : remaining (Mem (fst s')) (snd s) = remaining (Mem (fst s)) (snd s)).
      { apply (remaining_touches _ _ _ _ T Hg (requests_ok _ _ (proj2 B))). by intros x _ []. }
      rewrite <- Hr. unfold remaining. rewrite Hpend, Hp. cbn [map concat]. rewrite app_assoc. f_equal.
      rewrite Hq by done. unfold unplayed, advanced. cbn [b_request b_size b_sent set_field soundBuffer_eta].
      rewrite <- (segBytes_touches _ _ _ _ T Hg O4) by (by intros x _ []).
      assert (Hlen : zlen (segBytes (Mem (fst s')) (b_request b)) = b_size b + 4).
      { rewrite zlen_segBytes, O5 by (by eapply seg_ok_touches). done. }
      rewrite Z.add_assoc. rewrite zslice_join by lia. f_equal. lia.
    + destruct (s_sink (snd s)) as [out|] eqn:E; [rewrite Hplay by done; rewrite zlen_app; lia|]. unfold played. by rewrite Hsink, E.
  - by rewrite Hpend.
  - rewrite Es. cbn. by destruct (s_next (snd s)).
  - intros Hs. rewrite Hplay by done. rewrite zlen_app. lia.
Qed.

(** The next frame of samples is due. *)
Definition due (d : soundDev) (now : Z) : Prop := match s_next d with Some next => next <= now | None => False end.

Lemma playLoop_spec n now : forall s,
  soundInv s -> s_pending (snd s) <> [] -> s_next (snd s) <> None ->
  wp (playLoop n now) s
    (fun _ s' => playStep s s' /\
       ((0 < n)%nat -> due (snd s) now -> s_sink (snd s) <> None -> progress s s'))
    (fun _ _ => False).
Proof.
  induction n as [|n IH]; intros s B Hne Hnx; cbn [playLoop]; [wsteps; split; [by apply playStep_refl|lia]|].
  unfold getS. wsteps. unfold due. destruct (s_next (snd s)) as [next|] eqn:En; [|done]. destruct (s_pending (snd s)) as [|b l] eqn:Hp; [done|].
  wif Ed; [wsteps; split; [by apply playStep_refl|lia]|]. zbool.
  pose proof (so_pending _ _ (proj2 B)) as Hb. rewrite Hp in Hb. apply Forall_cons_1 in Hb as [[O1 O2 O3 _ _ _] Hl].
  assert (Hchunk : forall s1 b1 l1, playStep s s1 -> s_pending (snd s1) = b1 :: l1 -> b_sent b1 < b_size b1 -> s_next (snd s1) <> None ->
    s_sink (snd s1) = s_sink (snd s) ->
    wp (do! playChunk b1 in playLoop n now) s1
      (fun _ s' => playStep s s' /\ ((0 < S n)%nat -> next <= now -> s_sink (snd s) <> None -> progress s s'))
      (fun _ _ => False)).
  { intros s1 b1 l1 S1 Hp1 Hlt Hnx1 Hs1. wstep. wcall chunk_step; [apply S1|exact Hp1|done|done| |done]. intros [] s2 (S2 & P2 & N2 & M2).
    wcall IH; [apply S2|done|done| |done]. intros [] s3 [S3 _]. split; [eapply playStep_trans; [done|by eapply playStep_trans]|].
    intros _ _ Hsk. rewrite <- Hs1 in Hsk. eapply progress_within; [exact S1| |exact S3]. left. by apply M2. }
  wif Es.
  - zbool. wstep. wcall finish_step; [done|exact Hp|done| |done]. intros [] s1 (S1 & P1 & N1 & K1). wsteps. rewrite P1.
    pose proof (so_fresh _ _ (proj2 B)) as Hfr. rewrite Hp in Hfr. cbn [tail] in Hfr. destruct l as [|b1 l1].
    + unfold updS. wsteps. split.
      * eapply playStep_trans; [exact S1|]. destruct S1 as [[W1 H1] _ _ _ _ _ _]. constructor; try done; cbn [fst snd]. split; [done|]. destruct H1. by constructor.
      * intros _ _ _. right. cbn [fst snd]. rewrite Hp. cbn [s_pending set_field soundDev_eta]. by rewrite P1.
    + apply (Hchunk s1 b1 l1); [done|done| |by rewrite N1, En|done].
      apply Forall_cons_1 in Hfr as [-> _]. apply Forall_cons_1 in Hl as [[] _]. lia.
  - zbool. apply (Hchunk s b l); [by apply playStep_refl|done|lia|by rewrite En|done].
Qed.

(** Every pass of the clock keeps the stream; when the next period is due there is progress. *)
Lemma play_spec now s :
  soundInv s ->
  wp (play now) s
    (fun _ s' => playStep s s' /\
       (s_state (snd s) = soundRunning -> (s_next (snd s) = None \/ due (snd s) now) -> s_pending (snd s) <> [] -> s_sink (snd s) <> None ->
        progress s s'))
    (fun _ _ => False).
Proof.
  intros B. unfold play, getS. wsteps. wif E.
  { wsteps. split; [by apply playStep_refl|]. intros Hst _ Hw _. exfalso. rewrite bool_decide_eq_true_2 in E by done.
    cbn [negb orb] in E. apply Z.eqb_eq in E. destruct (s_pending (snd s)) as [|b l]; [done|].
    rewrite zlen_cons in E. pose proof (zlen_nonneg l). lia. }
  assert (Hne : s_pending (snd s) <> []). { intros Hp. rewrite Hp in E. rewrite orb_true_r in E. done. }
  assert (Hgo : forall t, let s1 := (fst s, snd s <| s_next := Some t |>) in playStep s s1).
  { intros t s1. destruct B as [W H]. constructor; try done. split; [done|]. destruct H. by constructor. }
  assert (Hrun : forall s1, playStep s s1 -> s_pending (snd s1) = s_pending (snd s) -> s_sink (snd s1) = s_sink (snd s) -> s_next (snd s1) <> None ->
    (s_next (snd s) = None \/ due (snd s) now -> due (snd s1) now) ->
    wp (playLoop (Z.to_nat QueueSize) now) s1 (fun _ s' => playStep s s' /\
       (s_state (snd s) = soundRunning -> (s_next (snd s) = None \/ due (snd s) now) -> s_pending (snd s) <> [] -> s_sink (snd s) <> None ->
        progress s s')) (fun _ _ => False)).
  { intros s1 S1 P1 K1 N1 D1. wcall playLoop_spec; [apply S1|by rewrite P1|done| |done]. intros [] s2 [S2 M2].
    split; [by eapply playStep_trans|]. intros _ Hd Hw Hs.
    eapply progress_within; [exact S1| |by apply playStep_refl, S2]. apply M2; [vm_compute; lia|auto|by rewrite K1]. }
  destruct (s_next (snd s)) as [next|] eqn:En.
  - wstep. wif El; unfold updS; wsteps.
    + apply Hrun; [apply Hgo|done|done|done|]. intros _. unfold due. cbn. lia.
    + apply Hrun; [by apply playStep_refl|done|done|by rewrite En|]. by intros [|].
  - unfold updS. wsteps. apply Hrun; [apply Hgo|done|done|done|]. intros _. unfold due. cbn. lia.
Qed.

Lemma process_spec now s :
  soundInv s -> wp (process now) s (fun _ s' => soundInv s' /\ s_queues (snd s') = s_queues (snd s)) (fun _ _ => False).
Proof.
  intros B. unfold process, getS. wsteps. wif E; [by wsteps|]. wstep. wcall controlRounds_spec; [done| |done]. intros [] s1 [B1 Q1].
  wstep. wcall txRounds_spec; [done| |done]. intros [] s2 (B2 & F2 & _). wstep. wcall rxRounds_spec; [done| |done]. intros [] s3 [B3 F3].
  wstep. wcall play_spec; [done| |done]. intros [] s4 [S4 _]. wcall logged_stays; [apply Reinject_touches| |done]. intros [] s5 (E5 & T5 & _).
  split; [by eapply soundInv_touches; [apply S4| |]|]. rewrite E5, (ps_queues _ _ S4). destruct F3 as [l ->]. cbn. by rewrite (tf_queues _ _ F2).
Qed.
End Invariant.

(** ** Executions *)

Lemma soundReady_ok n mem d i q : soundOk n mem d -> queue_ok mem q -> soundOk n mem (soundQueueReady i q d).
Proof.
  intros H Hq. unfold soundQueueReady, soundNotify. destruct (_ || _) eqn:E; [done|]. zbool.
  destruct (s_closed d); [destruct H; by constructor|].
  destruct H as [Hm [Q1 Q2] [L1 L2] H3 H4 H5 H6 H7 H8 H9]. constructor; try done; cbn.
  - rewrite zlen_insert. split; [done|]. intros q' Hin. apply list_elem_of_In in Hin. unfold zinsert in Hin.
    destruct (i <? 0); [by apply Q2, list_elem_of_In|]. apply list_elem_of_lookup in Hin as [j Hj].
    apply list_lookup_insert_Some in Hj as [(_ & [= <-] & _)|[_ Hj]]; [done|]. by apply Q2, list_elem_of_In, (list_elem_of_lookup_2 _ j).
  - rewrite zlen_insert. split; [done|]. unfold zinsert. destruct (i <? 0); [done|]. apply Forall_insert; [done|]. unfold is_u16. lia.
  - intros Hne. destruct (H7 Hne) as [Hr Hs]. split; [done|]. unfold soundQueue in *. change (s_queues _) with (zinsert i (Some q) (s_queues d)).
    rewrite zlookup_insert by lia.
    by destruct (soundTXQueue =? i).
Qed.

Lemma soundNotify_ok n mem d i : soundOk n mem d -> soundOk n mem (soundNotify i d).
Proof. intros []. unfold soundNotify. destruct (_ || _); by constructor. Qed.

Lemma soundReset_ok n mem d : soundOk n mem d -> soundOk n mem (soundResetLocked d).
Proof.
  intros [H0 _ _ _ _ _ _ _ H8 _]. constructor; try done; cbn.
  - split; [done|]. intros q Hin. cbn in Hin. naive_solver.
  - split; [done|]. repeat constructor; lia.
Qed.

Lemma soundClose_ok n mem d : soundOk n mem d -> soundOk n mem (soundClose d).
Proof. unfold soundClose. destruct (s_closed d); [done|]. intros H. apply soundReset_ok. destruct H. by constructor. Qed.

#[export] Instance sound_laws : ModernDeviceLaws soundDev.
Proof.
  refine {| dev_inv := fun mem d => soundOk (zlen mem) mem d |}.
  - done.
  - intros. by apply soundReady_ok.
  - intros. by apply soundNotify_ok.
  - intros mem d f Hf. apply Some_inj in Hf. rewrite <- Hf. apply soundReset_ok.
Defined.

(** The data of an access are bytes. *)
Definition sound_action_ok (a : soundAction) : Prop :=
  match a with SndAccess offset data _ => 0 <= offset /\ bytes_ok data | _ => True end.

(** A register write that supplies fewer bytes than the register has. *)
Definition short_sound_action (a : soundAction) : bool :=
  match a with SndAccess offset data isWrite => short_write offset data isWrite | _ => false end.

Lemma NewSound_inv sink mem guest line : bytes_ok mem -> zlen mem < 2 ^ 63 -> soundInv (zlen mem) (NewSound sink mem guest line).
Proof.
  intros Hb Hl. split.
  - constructor; cbn; try done; try (unfold is_u32, is_u16, is_u8, is_u64; lia); [by exists 0, 0|].
    repeat constructor; cbn; unfold QueueSize; lia.
  - constructor; cbn; try done.
    + split; [done|]. naive_solver.
    + split; [done|]. repeat constructor; lia.
Qed.

(** Every call returns, but for a short register write that panics. *)
Lemma runSound_spec n a s : soundInv n s -> sound_action_ok a ->
  fst (runSound a s) = Ok tt /\ soundInv n (snd (runSound a s)) \/
  short_sound_action a = true /\ fst (runSound a s) = Panic.
Proof.
  intros [T B] Ha. pose proof (so_mem _ _ _ B) as Hn. destruct a as [off data w|now|]; cbn [runSound short_sound_action].
  - destruct Ha as (Ho & Hb). assert (I : tinv (D := soundDev) s) by (split; [done|cbn; by rewrite Hn]).
    pose proof (MMIO_total (D := soundDev) off data w s I Ho Hb) as Hm. unfold gbind.
    destruct (MMIO off data w s) as [[x| | |] s']; try done; [left|by right]. destruct Hm as ([T' B'] & Hm & _).
    split; [done|]. split; [done|]. cbn in *. by rewrite Hm, Hn in *.
  - left. pose proof (process_spec n now s (conj T B)) as Hp. unfold wp in Hp.
    destruct (VirtioSound.process now s) as [[[]| | |] s']; try done. by destruct Hp.
  - left. split; [done|]. split; [done|]. by apply soundClose_ok.
Qed.

(** An execution that a short register write ends. *)
Definition sound_ends_in_panic (l : list soundAction) (s : Sound) : Prop :=
  exists l1 a l2, l = l1 ++ a :: l2 /\ short_sound_action a = true /\ Forall (eq (Ok tt)) (fst (runSounds l1 s)) /\
    fst (runSound a (snd (runSounds l1 s))) = Panic.

Lemma runSounds_spec n l s :
  soundInv n s -> Forall sound_action_ok l ->
  Forall (eq (Ok tt)) (fst (runSounds l s)) /\ soundInv n (snd (runSounds l s)) \/ sound_ends_in_panic l s.
Proof.
  revert s. induction l as [|a l IH]; intros s B Hl; [by left|]. apply Forall_cons_1 in Hl as [Ha Hl].
  destruct (runSound_spec n a s B Ha) as [[Hr Hi]|[Hs Hp]].
  2: { right. exists [], a, l. by splits. }
  destruct (IH (snd (runSound a s)) Hi Hl) as [[Hrs Hi']|(l1 & b & l2 & -> & Hb & Hrs & Hp)].
  - left. cbn [runSounds]. destruct (runSound a s) as [r s1]. cbn [fst snd] in *.
    destruct (runSounds l s1) as [rs s2]. split; [by constructor|done].
  - right. exists (a :: l1), b, l2. cbn [runSounds]. destruct (runSound a s) as [r s1]. cbn [fst snd] in *.
    destruct (runSounds l1 s1) as [rs s2]. splits; [done|done|by constructor|done].
Qed.
