(* ===== verification/VirtioSoundPlay.v ===== *)
(** * What the sound card promises to its driver

    The card returns from every call, unless the guest writes to a register with
    fewer bytes than it has; the periods that are queued reach the
    sink completely and in order, and go back to the driver; a period that is
    well formed is queued with exactly its samples. *)
From S2P Require Import Prelude Bytes GuestMem VirtioModern VirtioQueue VirtioAccess VirtioSound VirtioSoundSpec.

(** ** Playing everything *)

(** [n] passes of [play], each at the instant [clock] shows. *)
Fixpoint passes (clock : soundDev -> Z) (n : nat) : SM unit :=
  match n with
  | O => ret tt
  | S n => let! d := getS in do! play (clock d) in passes clock n
  end.

(** The worker wakes up no earlier than it asked for. *)
Definition punctual (clock : soundDev -> Z) : Prop := forall d next, s_next d = Some next -> next <= clock d.

Definition work (s : Sound) : Z := zlen (remaining (Mem (fst s)) (snd s)) + zlen (s_pending (snd s)).

Lemma work_progress s s' :
  playStep (zlen (Mem (fst s))) s s' -> guest (fst s) = [] -> separate (snd s) -> s_sink (snd s) <> None ->
  work s' <= work s /\ (progress s s' -> work s' < work s).
Proof.
  intros S Hg Hs Hk. destruct (ps_flow _ _ _ S Hg Hs Hk) as [_ Hf]. apply (f_equal zlen) in Hf. rewrite !zlen_app in Hf.
  pose proof (ps_more _ _ _ S). pose proof (ps_count _ _ _ S). unfold work, progress. lia.
Qed.

Lemma passes_spec ram clock n : forall s,
  soundInv ram s -> guest (fst s) = [] -> separate (snd s) -> s_sink (snd s) <> None -> s_state (snd s) = soundRunning ->
  punctual clock -> work s <= Z.of_nat n ->
  wp (passes clock n) s (fun _ s' => playStep ram s s' /\ s_pending (snd s') = []) (fun _ _ => False).
Proof.
  induction n as [|n IH]; intros s B Hg Hs Hk Hr Hc Hw; cbn [passes].
  - wsteps. split; [by apply playStep_refl|]. unfold work in Hw. pose proof (zlen_nonneg (remaining (Mem (fst s)) (snd s))).
    destruct (s_pending (snd s)) as [|b l]; [done|]. rewrite zlen_cons in Hw. pose proof (zlen_nonneg l). lia.
  - unfold getS. wsteps. wcall play_spec; [done| |done]. intros [] s1 [S1 P1].
    destruct (ps_quiet _ _ _ S1 Hg Hs) as [Hg1 Hs1]. destruct (ps_flow _ _ _ S1 Hg Hs Hk) as [Hk1 _].
    pose proof (so_mem _ _ _ (proj2 B)) as Hm. rewrite <- Hm in S1. destruct (work_progress _ _ S1 Hg Hs Hk) as [W1 W2]. rewrite Hm in S1.
    assert (Hw1 : work s1 <= Z.of_nat n).
    { destruct (s_pending (snd s)) as [|b l] eqn:Hp.
      - assert (work s = 0) by (unfold work, remaining; by rewrite Hp). lia.
      - enough (work s1 < work s) by lia. apply W2, P1; [done| |done|done]. destruct (s_next (snd s)) as [t|] eqn:Et; [right|by left].
        unfold due. rewrite Et. by apply Hc. }
    wcall IH; [apply S1|done|done|done|by rewrite (ps_state _ _ _ S1)|done|done| |done].
    intros [] s2 [S2 P2]. split; [by eapply playStep_trans|done].
Qed.

(** ** A period in the transmit queue *)

(** A chain as a driver builds it: the descriptors [ids], the readable
    segments first, the last descriptor writable. *)
Inductive chained (mem : list Z) (q : SplitQueue) : list Z -> list segment -> list segment -> Prop :=
| chained_last id a n next :
    descAt mem q id = mkDesc a n descFWrite next -> chained mem q [id] [] [(a, n)]
| chained_write id a n id' ids ws :
    descAt mem q id = mkDesc a n (descFNext ||| descFWrite) id' -> chained mem q (id' :: ids) [] ws ->
    chained mem q (id :: id' :: ids) [] ((a, n) :: ws)
| chained_read id a n id' ids rs ws :
    descAt mem q id = mkDesc a n descFNext id' -> chained mem q (id' :: ids) rs ws ->
    chained mem q (id :: id' :: ids) ((a, n) :: rs) ws.

(** The slots a chain uses were not met before. *)
Definition fresh (seen : list bool) (ids : list Z) : Prop := Forall (fun id => zlookup seen id = Some false) ids.

Lemma fresh_insert seen id ids : id ∉ ids -> fresh seen ids -> fresh (zinsert id true seen) ids.
Proof.
  unfold fresh. rewrite !Forall_forall. intros Hn Hf x Hx. specialize (Hf x Hx). pose proof (zlookup_range _ _ _ Hf).
  unfold zinsert. destruct (Z.ltb_spec id 0); [done|]. unfold zlookup in *. destruct (x <? 0); [done|].
  rewrite list_lookup_insert_ne; [done|]. intros E. apply Z2Nat.inj in E; [|lia..]. subst x. by apply Hn, list_elem_of_In.
Qed.

Lemma chainLoop_quiet q limit t d ids rs ws :
  guest t = [] -> queue_ok (Mem t) q -> chained (Mem t) q ids rs ws ->
  forall fuel seen c,
  Forall (fun id => 0 <= id < soundQueueSize q) ids -> NoDup ids -> fresh seen ids -> (length ids <= fuel)%nat ->
  Forall (seg_ok (Mem t)) rs -> Forall (seg_ok (Mem t)) ws ->
  (rs <> [] -> writable c = []) -> readBytes c + segsLen rs <= limit -> writeBytes c + segsLen ws <= soundMaxBuffer ->
  chainLoop fuel q (hd 0 ids) limit seen c (t, d) =
    (Ok (Some (mkChain (readable c ++ rs) (writable c ++ ws) (readBytes c + segsLen rs) (writeBytes c + segsLen ws))), (t, d)).
Proof.
  intros Hg Hq Hch. destruct (soundQueueSize_ok _ _ Hq) as [_ Hqs].
  induction Hch as [id a n next Hd|id a n id' ids ws Hd Hch IH|id a n id' ids rs ws Hd Hch IH]; intros fuel seen c Hid Hnd Hfr Hfu Hrs Hws Hcw Hlr Hlw;
    (destruct fuel as [|fuel]; [cbn in Hfu; lia|]); cbn [chainLoop hd];
    apply Forall_cons_1 in Hid as [Hi Hid]; apply Forall_cons_1 in Hfr as [Hf Hfr]; pose proof (NoDup_cons_1_1 _ _ Hnd) as Hni; apply NoDup_cons_1_2 in Hnd;
    (replace (soundQueueSize q <=? id) with false by lia); rewrite Hf; change (default false (Some false)) with false; cbn [orb];
    unfold gbind at 1; rewrite (loadDesc_quiet q id t d) by (done || lia); rewrite Hd; unfold gbind at 1, gget; cbn [fst snd d_Addr d_Len d_Flags d_Next].
  - apply Forall_cons_1 in Hws as [[[_ Hv] Hn] _]. cbn in Hv, Hn, Hlw. rewrite Hv. cbn. 
    replace (soundMaxBuffer - writeBytes c <? n) with false by lia. cbn. rewrite app_nil_r. unfold gbind, ret. do 4 f_equal; lia.
  - apply Forall_cons_1 in Hws as [[[_ Hv] Hn] Hws]. pose proof (segsLen_nonneg _ _ Hws).
    change (segsLen ((a, n) :: ws)) with (n + segsLen ws) in *. cbn [fst snd] in Hv, Hn. rewrite Hv.
    change (negb _ || negb true) with false. cbv iota. change (negb (_ &&& descFWrite =? 0)) with true. cbv iota.
    replace (soundMaxBuffer - writeBytes c <? n) with false by lia. unfold gbind at 1, ret at 1. cbv iota.
    change (_ &&& descFNext =? 0) with false. cbv iota. change id' with (hd 0 (id' :: ids)). rewrite IH; [|try done..].
    + cbn [readable writable readBytes writeBytes]. rewrite <- app_assoc, Z.add_assoc. done.
    + by apply fresh_insert.
    + cbn in *. lia.
    + cbn [writeBytes]. lia.
  - apply Forall_cons_1 in Hrs as [[[_ Hv] Hn] Hrs]. pose proof (segsLen_nonneg _ _ Hrs).
    change (segsLen ((a, n) :: rs)) with (n + segsLen rs) in *. cbn [fst snd] in Hv, Hn. rewrite Hv, (Hcw ltac:(done)).
    change (negb _ || negb true) with false. cbv iota. change (negb (_ &&& descFWrite =? 0)) with false. cbv iota.
    change (zlen [] =? 0) with true. replace (limit - readBytes c <? n) with false by lia. cbn [negb orb]. unfold gbind at 1, ret at 1. cbv iota.
    change (_ &&& descFNext =? 0) with false. cbv iota. change id' with (hd 0 (id' :: ids)). rewrite IH; [|try done..].
    + cbn [readable writable readBytes writeBytes]. rewrite <- app_assoc, Z.add_assoc. done.
    + by apply fresh_insert.
    + cbn in *. lia.
    + cbn [readBytes]. lia.
Qed.

(** A period of the driver: the head of its chain, its segments and its length. *)
Record period := mkPeriod { p_head : Z; p_request : list segment; p_response : list segment; p_size : Z }.

Definition periodBuffer (p : period) : soundBuffer := mkBuffer (p_head p) (p_response p) (p_request p) (p_size p) 0.
Definition samples (mem : list Z) (p : period) : list Z := zslice (segBytes mem (p_request p)) 4 (p_size p).

(** A well-formed period for stream 0: the stream, whole frames, a status. *)
Record txPeriod (mem : list Z) (q : SplitQueue) (p : period) : Prop := {
  tp_chain : exists ids, chained mem q (p_head p :: ids) (p_request p) (p_response p) /\ NoDup (p_head p :: ids) /\
    Forall (fun id => 0 <= id < soundQueueSize q) (p_head p :: ids) /\ zlen ids < QueueSize;
  tp_request : Forall (seg_ok mem) (p_request p);
  tp_response : Forall (seg_ok mem) (p_response p);
  tp_stream : le_uint32 (segBytes mem (p_request p)) 0 = 0;
  tp_length : segsLen (p_request p) = 4 + p_size p;
  tp_size : 4 <= p_size p <= soundMaxPeriod;
  tp_frames : p_size p mod soundBytesPerFrame = 0;
  tp_status : 8 <= segsLen (p_response p) <= soundMaxBuffer
}.

(** The available ring holds exactly the periods [ps] from [last] on. *)
Fixpoint offered (mem : list Z) (q : SplitQueue) (last : Z) (ps : list period) : Prop :=
  match ps with
  | [] => availIdxAt mem q = last
  | p :: ps =>
      availRingAt mem q (last mod soundQueueSize q) = p_head p /\ txPeriod mem q p /\ offered mem q (u16 (last + 1)) ps
  end.

Definition total (ps : list period) : Z := fold_right (fun p n => p_size p + n) 0 ps.

(** The stream has room for the periods. *)
Record room (d : soundDev) (ps : list period) : Prop := {
  rm_ready : streamReady d = true;
  rm_period : Forall (fun p => p_size p <= periodBytes d) ps;
  rm_buffer : pendingSize d + total ps <= bufferBytes d;
  rm_count : zlen (s_pending d) + zlen ps <= QueueSize
}.

Definition queued (p : period) (d : soundDev) : soundDev :=
  d <| pendingSize := pendingSize d + p_size p |> <| s_pending := s_pending d ++ [periodBuffer p] |>.

Lemma le_uint32_zero_header (l : list Z) : 4 <= zlen l -> le_uint32 (zcopy (zeros 4) (zslice l 0 4)) 0 = le_uint32 l 0.
Proof.
  intros H. unfold zslice, zlen in *. destruct l as [|a [|b [|c [|d l]]]]; cbn in H; try lia. done.
Qed.

Lemma offered_total mem q last ps : offered mem q last ps -> 0 <= total ps.
Proof.
  revert last. induction ps as [|p ps IH]; intros last; cbn [offered]; [done|]. intros (_ & Hp & Ho).
  change (total (p :: ps)) with (p_size p + total ps). specialize (IH _ Ho). destruct (tp_size _ _ _ Hp). lia.
Qed.

Lemma zlen_samples mem q last ps : offered mem q last ps -> zlen (concat (map (samples mem) ps)) = total ps.
Proof.
  revert last. induction ps as [|p ps IH]; intros last; cbn [offered]; [done|]. intros (_ & Hp & Ho).
  cbn [map concat]. rewrite zlen_app, (IH _ Ho). change (total (p :: ps)) with (p_size p + total ps). f_equal.
  pose proof (tp_size _ _ _ Hp). apply zlen_slice; [lia|lia|].
  rewrite (zlen_segBytes _ _ (tp_request _ _ _ Hp)), (tp_length _ _ _ Hp). lia.
Qed.

Section Transmit.
Context (ram : Z) (q : SplitQueue) (t : ModernTransport).
Hypotheses (Hg : guest t = []) (Hwf : twf t).

Lemma chain_quiet p d :
  queue_ok (Mem t) q -> txPeriod (Mem t) q p ->
  chain q (p_head p) (soundMaxPeriod + 4) (t, d) =
    (Ok (Some (mkChain (p_request p) (p_response p) (4 + p_size p) (segsLen (p_response p)))), (t, d)).
Proof.
  intros Hq [(ids & Hc & Hn & Hr & Hl) H1 H2 H3 H4 H5 H6 H7]. destruct (soundQueueSize_ok _ _ Hq) as [_ Hqs]. unfold chain.
  change (p_head p) with (hd 0 (p_head p :: ids)). rewrite (chainLoop_quiet q _ t d _ _ _ Hg Hq Hc); try done.
  - cbn [readable writable readBytes writeBytes]. by rewrite H4.
  - revert Hr. apply Forall_impl. intros i Hi. apply zlookup_unseen. lia.
  - unfold zlen, QueueSize in *. cbn [length]. lia.
  - cbn [readBytes]. lia.
  - cbn [writeBytes]. lia.
Qed.

Lemma soundRead_quiet segs : forall off n d,
  Forall (seg_ok (Mem t)) segs -> 0 <= off -> 0 <= n -> soundRead segs off n (t, d) = (Ok (zslice (segBytes (Mem t) segs) off n), (t, d)).
Proof.
  intros off n d Hs Ho Hn. enough (He : exists b, soundRead segs off n (t, d) = (Ok b, (t, d))).
  { destruct He as [b Hb]. destruct (wp_Ok _ _ _ (soundRead_spec segs off n (t, d) Hwf Hs Ho Hn)) as (h & s' & E & _ & _ & _ & _ & Eh).
    rewrite E in *. injection Hb as <- ->. by rewrite Eh. }
  revert off n Ho Hn. induction Hs as [|[a len] segs [[Ha Hv] Hl] Hs IH]; intros off n Ho Hn; cbn [soundRead]; [by exists []|]. cbn [fst snd] in *.
  destruct (Z.leb_spec len off); [apply IH; lia|]. cbv zeta. set (k := Z.min n (len - off)).
  assert (Hb : exists b, (if 0 <? k then onT (memLoad (a + off) k) else ret []) (t, d) = (Ok b, (t, d))).
  { destruct (Z.ltb_spec 0 k); [|by exists []]. eexists. apply load_quiet; [done|]. apply (ValidRange_sub _ a len); (done || lia). }
  destruct Hb as [b Hb]. unfold gbind at 1. rewrite Hb. destruct (_ =? 0); [by exists b|].
  destruct (IH 0 (n - k)) as [r Hr]; [lia..|]. unfold gbind. rewrite Hr. by eexists.
Qed.

Lemma txRequest_quiet p ps d :
  soundOk ram (Mem t) d -> soundQueue d soundTXQueue = Some q -> txPeriod (Mem t) q p -> 0 <= total ps -> room d (p :: ps) ->
  txRequest false (p_head p) (t, d) = (Ok tt, (t, queued p d)).
Proof.
  intros B Eq Hp Ht [R1 R2 R3 R4]. pose proof (soundQueue_ok _ _ _ _ _ B Eq) as Hq. unfold txRequest. unfold getS at 1, gbind at 1 2, gget, ret at 1.
  cbn [snd]. rewrite Eq. unfold gbind at 1. rewrite (chain_quiet p d Hq Hp). destruct Hp as [_ H1 H2 H3 H4 H5 H6 H7].
  cbn [readable]. unfold gbind at 1. rewrite (soundRead_quiet _ 0 4 d H1) by lia. cbv zeta iota.
  rewrite le_uint32_zero_header by (rewrite (zlen_segBytes _ _ H1); lia). rewrite H3. cbn [readBytes writeBytes writable].
  replace (4 + p_size p - 4) with (p_size p) by lia.
  rewrite zlen_cons in R4. pose proof (zlen_nonneg ps). change (total (p :: ps)) with (p_size p + total ps) in R3.
  apply Forall_cons_1 in R2 as [R2 _]. destruct (so_size _ _ _ B) as [Hs Hs']. destruct (so_params _ _ _ B) as [_ Hbb].
  pose proof (sizes_nonneg _ _ _ (so_pending _ _ _ B)). unfold soundMaxPeriod, soundMaxBuffer, soundBytesPerFrame in *.
  rewrite Z.rem_mod_nonneg, H6 by lia. replace (segsLen (p_response p) <? 8) with false by lia. replace (4 + p_size p <? 8) with false by lia.
  cbn [Z.eqb negb orb]. unfold getS, gbind at 1 2, gget, ret. cbn [snd]. rewrite !u32_small by lia. rewrite R1.
  replace (periodBytes d <? p_size p) with false by lia. replace (bufferBytes d - pendingSize d <? p_size p) with false by lia.
  replace (QueueSize <=? zlen (s_pending d)) with false by lia. cbn [negb orb]. unfold updS, gupd, queued. cbn [fst snd]. rewrite u32_small by lia. done.
Qed.
Lemma offered_idx last ps : is_u16 last -> offered (Mem t) q last ps -> availIdxAt (Mem t) q = u16 (last + zlen ps).
Proof.
  revert last. induction ps as [|p ps IH]; intros last Hl; cbn [offered].
  - intros ->. change (zlen []) with 0. rewrite Z.add_0_r, u16_small; [done|exact Hl].
  - intros (_ & _ & Ho). rewrite (IH _ (u16_range _) Ho), zlen_cons. unfold u16. rewrite Zplus_mod_idemp_l. f_equal. lia.
Qed.

Lemma pop_quiet d p ps :
  soundOk ram (Mem t) d -> soundQueue d soundTXQueue = Some q ->
  offered (Mem t) q (zget (s_lastAvail d) soundTXQueue) (p :: ps) -> zlen (p :: ps) <= soundQueueSize q ->
  pop soundTXQueue (t, d) =
    (Ok (Some (p_head p)), (t, setLastAvail soundTXQueue (u16 (zget (s_lastAvail d) soundTXQueue + 1)) d)).
Proof.
  intros B Eq Ho Hn. pose proof (soundQueue_ok _ _ _ _ _ B Eq) as Hq. destruct (soundQueueSize_ok _ _ Hq) as [_ Hqs].
  destruct (so_last _ _ _ B) as [L1 L2]. unfold soundNumQueues in L1.
  pose proof (is_u16_zget _ soundTXQueue L2 ltac:(unfold soundTXQueue; lia)) as Hl. pose proof (offered_idx _ _ Hl Ho) as Hi.
  unfold pop, getS, gget. unfold gbind at 1 2, ret at 1. cbn [snd]. rewrite Eq. cbv zeta. set (last := zget _ _) in *.
  unfold gbind at 1. rewrite loadAvailIdx_quiet by done. rewrite Hi.
  assert (Hc : 0 < zlen (p :: ps) <= QueueSize) by (rewrite zlen_cons in *; pose proof (zlen_nonneg ps); lia).
  destruct (count_waiting _ _ _ eq_refl Hl Hc) as [Ha _].
  rewrite Ha. rewrite zlen_cons in *. pose proof (zlen_nonneg ps).
  replace (1 + zlen ps =? 0) with false by lia. replace (soundQueueSize q <? 1 + zlen ps) with false by lia.
  pose proof (Z.mod_pos_bound last (soundQueueSize q)). cbv iota.
  unfold gbind at 1. rewrite loadAvailRing_quiet by (done || lia). destruct Ho as [-> _]. done.
Qed.

Lemma pop_quiet_none d :
  soundOk ram (Mem t) d -> soundQueue d soundTXQueue = Some q -> offered (Mem t) q (zget (s_lastAvail d) soundTXQueue) [] ->
  pop soundTXQueue (t, d) = (Ok None, (t, d)).
Proof.
  intros B Eq Ho. pose proof (soundQueue_ok _ _ _ _ _ B Eq) as Hq. unfold pop, getS, gget. unfold gbind at 1 2, ret at 1. cbn [snd]. rewrite Eq. cbv zeta.
  unfold gbind at 1. rewrite loadAvailIdx_quiet by done. cbn [offered] in Ho. rewrite Ho, Z.sub_diag. done.
Qed.

(** Every period that was offered is queued, in order. *)
Lemma txRounds_quiet ps : forall n d,
  soundOk ram (Mem t) d -> soundQueue d soundTXQueue = Some q ->
  offered (Mem t) q (zget (s_lastAvail d) soundTXQueue) ps -> zlen ps <= soundQueueSize q -> (length ps <= n)%nat -> room d ps ->
  exists d', txRounds n false (t, d) = (Ok tt, (t, d')) /\ s_pending d' = s_pending d ++ map periodBuffer ps.
Proof.
  induction ps as [|p ps IH]; intros n d B Eq Ho Hz Hn Hr.
  - exists d. cbn [map]. rewrite app_nil_r. split; [|done]. destruct n as [|n]; [done|]. cbn [txRounds]. unfold gbind.
    by rewrite pop_quiet_none.
  - destruct n as [|n]; [cbn in Hn; lia|]. cbn [txRounds]. unfold gbind at 1. rewrite (pop_quiet d p ps) by done.
    set (d1 := setLastAvail _ _ d). destruct Ho as (_ & Hp & Ho). pose proof (offered_total _ _ _ _ Ho) as Ht.
    assert (B1 : soundOk ram (Mem t) d1) by (apply setLast_sound; [done|apply u16_range]).
    destruct Hr as [R1 R2 R3 R4]. unfold gbind at 1. rewrite (txRequest_quiet p ps d1 B1 Eq Hp Ht) by (by constructor).
    assert (B2 : soundOk ram (Mem t) (queued p d1)).
    { pose proof (tp_chain _ _ _ Hp) as (ids & _ & _ & Hi & _). apply Forall_cons_1 in Hi as [Hi _].
      destruct (wp_Ok _ _ _ (txRequest_spec ram false (p_head p) (t, d1) (conj Hwf B1) ltac:(lia) ltac:(change (soundQueue d soundTXQueue <> None); by rewrite Eq))) as ([] & s' & E & [_ Hb] & _).
      rewrite (txRequest_quiet p ps d1 B1 Eq Hp Ht) in E by (by constructor). by injection E as <-. }
    rewrite zlen_cons in *. apply Forall_cons_1 in R2 as [R2 R2']. change (total (p :: ps)) with (p_size p + total ps) in R3.
    destruct (IH n (queued p d1)) as (d' & E & Hd'); try done.
    + change (s_lastAvail (queued p d1)) with (s_lastAvail d1). unfold d1, setLastAvail. cbn [s_lastAvail set_field soundDev_eta].
      destruct (so_last _ _ _ B) as [L1 _]. rewrite zget_insert by (rewrite L1; done). done.
    + lia.
    + cbn in Hn. lia.
    + constructor; cbn [queued pendingSize bufferBytes s_pending periodBytes set_field soundDev_eta]; try done; [cbn; lia|].
      rewrite zlen_app. change (zlen [periodBuffer p]) with 1. cbn. lia.
    + exists d'. split; [exact E|]. rewrite Hd'. cbn. by rewrite <- app_assoc.
Qed.
End Transmit.

(** ** Returning a period *)

(** A response in one segment beside the used ring: it holds the status, and
    the used ring has one more element. *)
Lemma complete_quiet idx head a n data q t d :
  guest t = [] -> queue_ok (Mem t) q -> soundQueue d idx = Some q -> seg_ok (Mem t) (a, n) -> 0 < zlen data <= n ->
  apart a (zlen data) (sq_Used q) sizeofSplitUsed ->
  exists t', complete idx head [(a, n)] data (t, d) = (Ok tt, (t', d)) /\
    Mem t' = usedMem (zwrite (Mem t) a data) q head (zlen data).
Proof.
  intros Hg Hq Eq [[Ha Hv] Hn] Hd Hap. cbn [fst snd] in *. destruct (ValidRange_spec _ _ _ Ha Hn Hv) as [Hend _].
  destruct (soundQueueSize_ok _ _ Hq) as [Hsz _]. unfold complete. cbn [storeSegments]. rewrite Z.min_r by lia.
  replace (0 <? zlen data) with true by lia. unfold gbind at 1 2.
  assert (Htake : take (Z.to_nat (zlen data)) data = data) by (apply take_ge; unfold zlen; lia).
  assert (Hdrop : drop (Z.to_nat (zlen data)) data = []) by (apply drop_ge; unfold zlen; lia).
  rewrite Htake, Hdrop. rewrite store_quiet by (done || apply (ValidRange_sub _ a n); (done || lia)).
  change (zlen [] =? 0) with true. unfold ret at 1. cbv iota. set (t1 := t <| Mem := _ |>).
  assert (Hl1 : zlen (Mem t1) = zlen (Mem t)) by (apply zlen_write_in; lia).
  assert (Hq1 : queue_ok (Mem t1) q) by (by apply (queue_ok_len _ _ _ Hl1)).
  unfold getS, gget. unfold gbind at 1 2, ret at 1. cbn [snd]. rewrite Eq. unfold gbind at 1. rewrite (loadUsedIdx_quiet q t1 d Hg Hq1). rewrite Hsz.
  pose proof (putUsed_quiet q head (0 + zlen data) t1 d Hg Hq1) as Hput. unfold gbind in Hput.
  unfold gbind at 1. destruct (onT (storeUsedRing _ _ _) (t1, d)) as [[[]| | |] s2]; try done.
  unfold gbind at 1. rewrite Hput. set (t3 := t1 <| Mem := _ |>) in *.
  assert (Hq3 : queue_ok (Mem t3) q) by (apply (queue_ok_len (Mem t1)); [by apply zlen_usedMem|done]).
  unfold gbind at 1. rewrite load_quiet; [|done|].
  2:{ rewrite <- (Z.add_0_r (sq_Avail q)). apply (avail_ram _ _ Hq3); unfold sizeofSplitAvail, QueueSize; lia. }
  destruct (_ =? 0); [|by exists t3].
  destruct (wp_Ok _ _ _ (logged_stays Interrupt (t3, d) (Interrupt_touches t3))) as ([] & [t4 d4] & E & Ed & T & _).
  cbn in Ed. subst d4. exists t4. split; [exact E|]. destruct (to_quiet _ _ _ T Hg) as [_ Hm].
  pose proof (to_len _ _ _ T) as Hl4. cbn [fst] in Hl4. rewrite <- (zslice_all (Mem t4) _ eq_refl), <- (zslice_all (usedMem _ _ _ _) _ eq_refl).
  change (usedMem _ _ _ _) with (Mem t3). rewrite <- Hl4. pose proof (zlen_nonneg (Mem t4)).
  apply zslice_agree; try lia. intros x Hx. apply Hm; [lia|by intros []].
Qed.

(** ** Properties *)

(** C31: whatever the guest stores in its memory while the card works, and in
    whatever order the driver accesses the registers and the worker passes,
    either every call returns, or the execution ends in the one panic the card
    has, a guest write to a register of the transport that is shorter than the
    register.  When every call returns, the periods that wait lie in guest memory, have whole
    frames, and together fit the buffer of the stream; there are at most as
    many as the queue has entries, and none without a prepared stream. *)
Theorem sound_execution_safe sink mem guest line l :
  bytes_ok mem -> zlen mem < 2 ^ 63 -> Forall sound_action_ok l ->
  let rs := fst (runSounds l (NewSound sink mem guest line)) in
  let s := snd (runSounds l (NewSound sink mem guest line)) in
  sound_ends_in_panic l (NewSound sink mem guest line) \/
  Forall (eq (Ok tt)) rs /\ zlen (Mem (fst s)) = zlen mem /\ bytes_ok (Mem (fst s)) /\
  Forall (buffer_ok (Mem (fst s)) (periodBytes (snd s))) (s_pending (snd s)) /\
  pendingSize (snd s) = sizes (s_pending (snd s)) /\ pendingSize (snd s) <= bufferBytes (snd s) <= soundMaxBuffer /\
  zlen (s_pending (snd s)) <= QueueSize /\
  (s_pending (snd s) <> [] -> streamReady (snd s) = true /\ soundQueue (snd s) soundTXQueue <> None).
Proof.
  intros Hb Hm Hl rs s. destruct (runSounds_spec (zlen mem) l _ (NewSound_inv sink mem guest line Hb Hm) Hl) as [[Hr [W H]]|Hp]; [right|by left]. fold rs s in Hr, W, H.
  pose proof (so_size _ _ _ H). pose proof (so_params _ _ _ H). splits; try apply H; try done; [by apply W|lia..].
Qed.

(** C30: the periods a driver makes available while the stream runs are queued
    and played. After enough passes of the worker, none of them early, the sink
    has got what was waiting and then the samples of each period, complete and
    in order, and no period waits any more. *)
Theorem sound_plays_what_is_queued ram clock k q ps t d :
  soundInv ram (t, d) -> guest t = [] -> s_sink d <> None -> s_state d = soundRunning ->
  soundQueue d soundTXQueue = Some q -> offered (Mem t) q (zget (s_lastAvail d) soundTXQueue) ps ->
  zlen ps <= soundQueueSize q -> room d ps -> separate (d <| s_pending := s_pending d ++ map periodBuffer ps |>) ->
  punctual clock -> zlen (remaining (Mem t) d) + total ps + zlen (s_pending d) + zlen ps <= Z.of_nat k ->
  exists s', (do! processTX false in passes clock k) (t, d) = (Ok tt, s') /\
    played (snd s') = played d ++ remaining (Mem t) d ++ concat (map (samples (Mem t)) ps) /\ s_pending (snd s') = [].
Proof.
  intros B Hg Hk Hr Eq Ho Hn Hroom Hsep Hc Hw. pose proof B as [W H]. pose proof (soundQueue_ok _ _ _ _ _ H Eq) as Hq.
  destruct (soundQueueSize_ok _ _ Hq) as [_ Hqs].
  destruct (txRounds_quiet ram q t Hg W ps (Z.to_nat QueueSize) d H Eq Ho Hn ltac:(unfold zlen in *; lia) Hroom) as (d' & E & Hp).
  destruct (wp_Ok _ _ _ (txRounds_spec ram (Z.to_nat QueueSize) false (t, d) B)) as ([] & s1 & E1 & B1 & F1 & _).
  rewrite E in E1. injection E1 as <-. cbn [snd] in F1.
  assert (Hk1 : s_sink d' <> None) by (by rewrite (tf_sink _ _ F1)). assert (Hr1 : s_state d' = soundRunning) by (by rewrite (tf_state _ _ F1)).
  assert (Hrem : remaining (Mem t) d' = remaining (Mem t) d ++ concat (map (samples (Mem t)) ps)).
  { unfold remaining. rewrite Hp, map_app, concat_app, map_map. do 2 f_equal. apply map_ext. intros p. unfold unplayed, periodBuffer, samples.
    cbn [b_request b_sent b_size]. by rewrite Z.sub_0_r. }
  assert (Hwork : work (t, d') <= Z.of_nat k).
  { unfold work. cbn [fst snd]. rewrite Hrem, Hp, !zlen_app, (zlen_samples _ _ _ _ Ho). unfold zlen in *. rewrite length_map. lia. }
  assert (Hs1 : separate d'). { intros q' x Hq'. rewrite Hp. apply (Hsep q' x). rewrite <- Hq'. symmetry. exact (txFrame_queue _ _ _ F1). }
  destruct (wp_Ok _ _ _ (passes_spec ram clock k (t, d') B1 Hg Hs1 Hk1 Hr1 Hc Hwork))
    as ([] & s2 & E2 & S2 & P2).
  exists s2. split; [unfold gbind, processTX; by rewrite E|]. split; [|done].
  destruct (ps_flow _ _ _ S2 Hg Hs1 Hk1) as [_ Hf]. unfold remaining at 1 in Hf. rewrite P2 in Hf. cbn [map concat] in Hf.
  rewrite app_nil_r in Hf. rewrite Hf. cbn [fst snd]. rewrite Hrem. unfold played. by rewrite (tf_sink _ _ F1).
Qed.

(** C32: a period that was played goes back to its driver: the status in its
    response is OK, the used ring has one more element with the head of its
    chain and the length of the status, and the room it took is free again. *)
Theorem sound_period_returned ram q a n b l t d :
  soundInv ram (t, d) -> guest t = [] -> s_pending d = b :: l -> b_response b = [(a, n)] -> 8 <= n ->
  soundQueue d soundTXQueue = Some q -> apart a 8 (sq_Used q) sizeofSplitUsed ->
  exists t', finishBuffer b (t, d) = (Ok tt, (t', d <| pendingSize := pendingSize d - b_size b |> <| s_pending := l |>)) /\
    zslice (Mem t') a 8 = le_bytes 4 soundOK ++ zeros 4 /\
    usedIdxAt (Mem t') q = u16 (usedIdxAt (Mem t) q + 1) /\
    usedElemAt (Mem t') q (usedIdxAt (Mem t) q mod ringSize q) = (u32 (b_head b), 8) /\
    pendingSize d - b_size b = sizes l.
Proof.
  intros [W B] Hg Hp Hr Hn Eq Hap. cbn [fst snd] in B. pose proof (soundQueue_ok _ _ _ _ _ B Eq) as Hq.
  pose proof (so_pending _ _ _ B) as Hb. rewrite Hp in Hb. apply Forall_cons_1 in Hb as [Hb Hl]. pose proof (bo_response _ _ _ Hb) as Hseg.
  rewrite Hr in Hseg. apply Forall_cons_1 in Hseg as [Hseg _]. pose proof Hseg as [[Ha Hv] _]. cbn [fst snd] in *.
  destruct (ValidRange_spec (Mem t) a n Ha ltac:(lia) Hv) as [Hend _]. pose proof (so_params _ _ _ B). pose proof (bo_size _ _ _ Hb).
  destruct (so_size _ _ _ B) as [Hs Hs']. rewrite Hp in Hs, Hs'. change (sizes (b :: l)) with (b_size b + sizes l) in *. pose proof (sizes_nonneg _ _ _ Hl).
  set (data := le_bytes 4 soundOK ++ zeros 4). assert (Hlen : zlen data = 8) by done.
  destruct (complete_quiet soundTXQueue (b_head b) a n data q t d Hg Hq Eq Hseg) as (t' & E & Hm); [lia|by rewrite Hlen|]. rewrite Hlen in Hm.
  set (m1 := zwrite (Mem t) a data) in *. assert (Hl1 : zlen m1 = zlen (Mem t)) by (apply zlen_write_in; lia).
  assert (Hq1 : queue_ok m1 q) by (by apply (queue_ok_len _ _ _ Hl1)).
  assert (Hi : usedIdxAt m1 q = usedIdxAt (Mem t) q) by (apply usedIdxAt_out; try done; lia).
  exists t'. rewrite Hm. splits.
  - unfold finishBuffer, completePCM, gbind. rewrite Hr. fold data. rewrite E. unfold updS, gupd. cbn [fst snd]. rewrite Hp. cbn [tail].
    rewrite u32_small; [done|]. unfold soundMaxBuffer in *. lia.
  - transitivity (zslice m1 a 8); [|rewrite <- Hlen; by apply zslice_write].
    apply zslice_agree; try lia; [rewrite (zlen_usedMem _ _ _ _ Hq1); lia|]. intros i Hx. apply usedMem_out; [done|lia|].
    unfold apart in Hap. lia.
  - by rewrite usedMem_idx, Hi.
  - rewrite <- Hi. by rewrite usedMem_elem.
  - lia.
Qed.

(** ** Samples *)

Definition sampleQueue : SplitQueue := mkSplitQueue 0 512 768 4.

(** One period of two frames: the request in descriptor 0, its status in 1. *)
Definition sampleRam : list Z :=
  fold_left (fun m w => zwrite m (fst w) (snd w))
    [(0, le_bytes 8 1104 ++ le_bytes 4 12 ++ le_bytes 2 1 ++ le_bytes 2 1);
     (16, le_bytes 8 1200 ++ le_bytes 4 8 ++ le_bytes 2 2 ++ le_bytes 2 0);
     (514, le_bytes 2 1); (1108, [11; 12; 13; 14; 15; 16; 17; 18])] (zeros 2048).

Definition sampleTransport : ModernTransport := fst (NewSound true sampleRam [] (mkIrqLine false 0 [])).
Definition sampleCard : soundDev :=
  mkSound [None; None; Some sampleQueue; None] [0; 0; 0; 0] soundRunning 16 8 [] 0 None (zeros soundChunkBytes) (Some []) false false.
Definition samplePeriod : period := mkPeriod 0 [(1104, 12)] [(1200, 8)] 8.

Lemma sampleQueue_ok : queue_ok sampleRam sampleQueue.
Proof. constructor; [by exists 2|by split..]. Qed.

Lemma sampleRam_ok : bytes_ok sampleRam.
Proof. apply bytes_okb_ok. vm_compute. reflexivity. Qed.

Lemma sampleCard_ok : soundInv 2048 (sampleTransport, sampleCard).
Proof.
  split; [exact (proj1 (NewSound_inv true sampleRam [] (mkIrqLine false 0 []) sampleRam_ok ltac:(done)))|].
  constructor; try done.
  - split; [done|]. intros q [|[|[[= <-]|[|[]]]]]; [done|done|exact sampleQueue_ok|done].
  - split; [done|]. repeat constructor; cbn; lia.
Qed.

Lemma samplePeriod_ok : txPeriod sampleRam sampleQueue samplePeriod.
Proof.
  constructor; try done.
  - exists [1]. splits; [|by apply (bool_decide_unpack _)|repeat constructor; cbn; lia|done].
    apply (chained_read _ _ _ _ _ 1 []); [by vm_compute|]. apply (chained_last _ _ _ _ _ 0). by vm_compute.
  - by repeat constructor.
  - by repeat constructor.
Qed.

Lemma samplePeriod_apart : separate (sampleCard <| s_pending := [periodBuffer samplePeriod] |>).
Proof.
  intros q x [= <-] Hx Ho. cbn in Hx, Ho. unfold rused, rng in Ho.
  repeat (apply Exists_cons in Hx as [Hx|Hx]; [|by apply Exists_nil in Hx]). unfold rng in Hx. cbn in Hx.
  destruct Ho as [Ho|Ho]; [unfold sizeofSplitUsed, QueueSize in Ho; cbn in Ho; lia|].
  repeat (apply Exists_cons in Ho as [Ho|Ho]; [|by apply Exists_nil in Ho]). unfold rng in Ho. cbn in Ho. lia.
Qed.

(** The same card when the period was played. *)
Definition sampleBuffer : soundBuffer := periodBuffer samplePeriod <| b_sent := 8 |>.
Definition sampleDone : soundDev := sampleCard <| pendingSize := 8 |> <| s_pending := [sampleBuffer] |>.

Lemma sampleDone_ok : soundInv 2048 (sampleTransport, sampleDone).
Proof.
  destruct sampleCard_ok as [W [H0 H1 H2 H3 _ _ _ _ H8 _]]. split; [exact W|]. change (Mem _) with sampleRam in *.
  assert (Hs : forall a n, 0 <= a -> 0 <= n -> ValidRange sampleRam a n = true -> Forall (seg_ok sampleRam) [(a, n)]) by (by repeat constructor).
  constructor; [exact H0|exact H1|exact H2|exact H3| |by split|done|by split|exact H8|constructor].
  constructor; [|constructor]. constructor; [by vm_compute|by vm_compute|by vm_compute|exact (Hs 1104 12 ltac:(done) ltac:(done) ltac:(vm_compute; reflexivity))|by vm_compute|].
  exact (Hs 1200 8 ltac:(done) ltac:(done) ltac:(vm_compute; reflexivity)).
Qed.

Lemma sound_plays_what_is_queued_witness :
  exists s', (do! processTX false in passes (fun d => default 0 (s_next d)) 9) (sampleTransport, sampleCard) = (Ok tt, s') /\
    played (snd s') = [11; 12; 13; 14; 15; 16; 17; 18] /\ s_pending (snd s') = [].
Proof.
  apply (sound_plays_what_is_queued 2048 _ 9 sampleQueue [samplePeriod]); try done.
  - exact sampleCard_ok.
  - split; [by vm_compute|]. split; [exact samplePeriod_ok|by vm_compute].
  - constructor; try done. by repeat constructor.
  - exact samplePeriod_apart.
  - intros d next Hn. by rewrite Hn.
Defined.

Lemma sound_period_returned_witness :
  exists t', finishBuffer sampleBuffer (sampleTransport, sampleDone) =
      (Ok tt, (t', sampleDone <| pendingSize := 0 |> <| s_pending := [] |>)) /\
    zslice (Mem t') 1200 8 = [0; 128; 0; 0; 0; 0; 0; 0] /\ usedIdxAt (Mem t') sampleQueue = 1 /\
    usedElemAt (Mem t') sampleQueue 0 = (0, 8) /\ 0 = sizes [].
Proof.
  apply (sound_period_returned 2048 sampleQueue 1200 8 sampleBuffer []); try done.
  - exact sampleDone_ok.
  - right. by vm_compute.
Defined.

(** The driver negotiates, the worker passes twice while the guest scribbles
    over the descriptors, and the machine stops. *)
Definition sampleActions : list soundAction :=
  [SndAccess 20 [1] true; SndAccess 22 [2; 0] true; SndAccess 0x1c [0; 0] false; SndProcess 10; SndProcess 20; SndClose].

Lemma sound_execution_safe_witness :
  let s := snd (runSounds sampleActions (NewSound true sampleRam [[(0, 255); (1, 255)]] (mkIrqLine false 0 []))) in
  Forall (eq (Ok tt)) (fst (runSounds sampleActions (NewSound true sampleRam [[(0, 255); (1, 255)]] (mkIrqLine false 0 [])))) /\
  zlen (Mem (fst s)) = zlen sampleRam /\ bytes_ok (Mem (fst s)).
Proof.
  assert (Hl : Forall sound_action_ok sampleActions) by (repeat constructor; cbn; try lia; done).
  pose proof (sound_execution_safe true sampleRam [[(0, 255); (1, 255)]] (mkIrqLine false 0 []) sampleActions sampleRam_ok ltac:(done) Hl) as H.
  destruct H as [(l1 & a & l2 & He & Hs & _)|(H1 & H2 & H3 & _)]; [exfalso|exact (conj H1 (conj H2 H3))].
  assert (Hno : existsb short_sound_action sampleActions = false) by (vm_compute; reflexivity).
  rewrite He, existsb_app in Hno. cbn [existsb] in Hno. rewrite Hs, orb_true_r in Hno. discriminate.
Defined.
