(* ===== verification/Framebuffer.v ===== *)
(** * The framebuffer of the remote displays
      (src/internal/virtio/framebuffer.go, framebuffer_damage.go)

    The display keeps the last image the graphics device or a console published,
    with a version for every tile of 64 by 64 pixels.  Each remote client owns a
    copy that it refreshes from the tiles that changed since its last visit.

    Go slices alias: [changedFrame] hands out the pixels themselves, and
    [flushDamage] writes into the pixels of the last publication unless they were
    handed out.  [buffers] are the pixel slices that were allocated, and [frame]
    is the index of the current one.

    The methods hold [mu] or [textMu]: they are single steps.  Condition
    variables, channels and timers only decide when a step is taken; [notified]
    counts the notifications.  Rendering of characters uses a third-party font and
    is a parameter. *)

From S2P Require Import Prelude Bytes GpuImage.

Definition framebufferTileSize : Z := 64.
Definition maxFrameDamageRects : Z := 128.
Definition vncDefaultWidth : Z := 1024.
Definition vncDefaultHeight : Z := 768.
Definition vncTextCols : Z := 100.
Definition vncTextRows : Z := 40.
Definition vgaTextBase : Z := 0xb8000.
Definition vgaTextCols : Z := 80.
Definition vgaTextRows : Z := 25.

Definition errInvalidFramebuffer : error := EMsg "invalid framebuffer image or dimensions".

(** ** The console for serial output *)

Record vncTextConsole := mkConsole {
  cols : Z;
  rows : Z;
  cells : list (list Z);
  row : Z;
  col : Z;
  escape : list Z
}.
#[export] Instance eta_vncTextConsole : Settable vncTextConsole := fun c =>
  mkConsole (cols c) (rows c) (cells c) (row c) (col c) (escape c).

Definition blankRow (n : Z) : list Z := replicate (Z.to_nat n) 32.

Definition newVNCTextConsole : vncTextConsole :=
  mkConsole vncTextCols vncTextRows (replicate (Z.to_nat vncTextRows) (blankRow vncTextCols)) 0 0 [].

Abbreviation T := (M vncTextConsole).

(** [c.cells[y][x] = r]. *)
Definition setCell (y x r : Z) : T unit :=
  let! c := gget in
  let! line := gindex (cells c) y in
  let! _ := gindex line x in
  gupd (fun c => c <| cells := zinsert y (zinsert x r line) (cells c) |>).

(** The last line becomes blank, the others move up. *)
Definition newline : T unit :=
  do! gupd (fun c => c <| col := 0 |> <| row := row c + 1 |>) in
  let! c := gget in
  if row c <? rows c then ret tt
  else
    let! _ := gindex (cells c) (rows c - 1) in
    gupd (fun c => c <| cells := zinsert (rows c - 1) (blankRow (cols c)) (drop 1 (cells c) ++ drop (length (cells c) - 1) (cells c)) |>
                     <| row := rows c - 1 |>).

Definition putRune (r : Z) : T unit :=
  let! c := gget in
  do! (if cols c <=? col c then newline else ret tt) in
  let! c := gget in
  do! setCell (row c) (col c) r in
  gupd (fun c => c <| col := col c + 1 |>).

Definition clear : T unit :=
  gupd (fun c => c <| cells := map (fun line => blankRow (zlen line)) (cells c) |> <| row := 0 |> <| col := 0 |>).

(** The cells from [x] to the end of the line. *)
Fixpoint eraseFromCol (n : nat) (x : Z) : T unit :=
  match n with
  | O => ret tt
  | S n => let! c := gget in do! setCell (row c) x 32 in eraseFromCol n (x + 1)
  end.

Definition handleCSI (params : list Z) (final : Z) : T unit :=
  if (final =? 72) || (final =? 102) then gupd (fun c => c <| row := 0 |> <| col := 0 |>)
  else if final =? 74 then
    (if (zlen params =? 0) || bool_decide (params = [50]) then clear else ret tt)
  else if final =? 75 then
    let! c := gget in eraseFromCol (Z.to_nat (cols c - col c)) (col c)
  else ret tt.

Definition putEscapeByte (b : Z) : T unit :=
  do! gupd (fun c => c <| escape := escape c ++ [b] |>) in
  let! c := gget in
  if (zlen (escape c) =? 2) && negb (b =? 91) then gupd (fun c => c <| escape := [] |>)
  else if zlen (escape c) <? 3 then ret tt
  else if (b <? 0x40) || (0x7e <? b) then ret tt
  else
    do! handleCSI (zslice (escape c) 2 (zlen (escape c) - 3)) b in
    gupd (fun c => c <| escape := [] |>).

(** Blanks up to the next tab stop: the column moves by at most eight blanks,
    and by at most eight more after a new line. *)
Fixpoint tabLoop (fuel : nat) : T unit :=
  match fuel with
  | O => fun c => (OutOfFuel, c)
  | S fuel => do! putRune 32 in let! c := gget in if col c mod 8 =? 0 then ret tt else tabLoop fuel
  end.

Definition putByte (b : Z) : T unit :=
  let! c := gget in
  if 0 <? zlen (escape c) then putEscapeByte b
  else if b =? 0x1b then gupd (fun c => c <| escape := [b] |>)
  else if b =? 13 then gupd (fun c => c <| col := 0 |>)
  else if b =? 10 then newline
  else if b =? 8 then (if 0 <? col c then gupd (fun c => c <| col := col c - 1 |>) else ret tt)
  else if b =? 9 then tabLoop 16
  else if (0x20 <=? b) && (b <? 0x7f) then putRune b
  else ret tt.

Fixpoint consoleWrite (p : list Z) : T unit :=
  match p with
  | [] => ret tt
  | b :: p => do! putByte b in consoleWrite p
  end.

(** ** Frames *)

Record vncFrame := mkFrame { f_width : Z; f_height : Z; f_pix : list Z; f_seq : Z }.

Record framebuffer := mkFb {
  width : Z;
  height : Z;
  buffers : list (list Z);
  frame : nat;
  frameShared : bool;
  tileVersions : list Z;
  seq : Z;
  notified : Z;
  textConsole : option vncTextConsole;
  textDirty : bool;
  serialRunning : bool;
  textDisabled : bool;
  legacyFallbackDisabled : bool;
  serialMuted : bool;
  stopped : bool
}.
#[export] Instance eta_framebuffer : Settable framebuffer := fun d =>
  mkFb (width d) (height d) (buffers d) (frame d) (frameShared d) (tileVersions d) (seq d) (notified d)
    (textConsole d) (textDirty d) (serialRunning d) (textDisabled d) (legacyFallbackDisabled d) (serialMuted d) (stopped d).

Definition newFramebuffer : framebuffer :=
  mkFb vncDefaultWidth vncDefaultHeight [[]] 0 false [] 0 0 None false false false false false false.

Abbreviation F := (M framebuffer).

Definition orPanic {S A} (o : option A) : M S A := match o with Some a => ret a | None => panic end.

(** The pixels of the slice [d.frame]. *)
Definition framePix (d : framebuffer) : list Z := nth (frame d) (buffers d) [].

(** [d.frame] becomes a new slice. *)
Definition newBuffer (pix : list Z) (d : framebuffer) : framebuffer :=
  d <| buffers := buffers d ++ [pix] |> <| frame := length (buffers d) |>.

(** [d.frame] is written in place. *)
Definition writeBuffer (pix : list Z) (d : framebuffer) : framebuffer :=
  d <| buffers := <[frame d := pix]> (buffers d) |>.

(** [copy(dst[a:b], src[c:d])]; [None] is a slice bounds panic. *)
Definition copySpan (dst : list Z) (a b : Z) (src : list Z) (c d : Z) : option (list Z) :=
  match slice dst a b, slice src c d with
  | Some _, Some s => Some (zwrite dst a (take (Z.to_nat (b - a)) s))
  | _, _ => None
  end.

Definition clearSpan (dst : list Z) (a b : Z) : option (list Z) :=
  match slice dst a b with
  | Some _ => Some (zwrite dst a (zeros (b - a)))
  | None => None
  end.

(** [n] rows of [len] bytes from row [y] on, to [di y] from [si y]. *)
Fixpoint copyRows (n : nat) (y : Z) (di si : Z -> Z) (len : Z) (dst src : list Z) : option (list Z) :=
  match n with
  | O => Some dst
  | S n =>
      match copySpan dst (di y) (di y + len) src (si y) (si y + len) with
      | Some dst => copyRows n (y + 1) di si len dst src
      | None => None
      end
  end.

Definition invalidImage (width height : Z) (img : option RGBA) : bool :=
  match img with
  | None => true
  | Some img =>
      (maxInt64 / 4 <? width) || (maxInt64 / (width * 4) <? height) || (Dx (Bounds img) <? width) ||
      (Dy (Bounds img) <? height) || (Stride img <? width * 4) || (zlen (Pix img) <? width * 4) ||
      ((zlen (Pix img) - width * 4) / Stride img <? height - 1)
  end.

(** *** Tiles *)

Definition tilesFor (n : Z) : Z := (n + framebufferTileSize - 1) / framebufferTileSize.

Fixpoint markRow (n : nat) (i v : Z) (tiles : list Z) : option (list Z) :=
  match n with
  | O => Some tiles
  | S n => if (0 <=? i) && (i <? zlen tiles) then markRow n (i + 1) v (zinsert i v tiles) else None
  end.

(** Tiles [x0] to [x1] of the rows from [y] on. *)
Fixpoint markRows (n : nat) (y cols x0 x1 v : Z) (tiles : list Z) : option (list Z) :=
  match n with
  | O => Some tiles
  | S n =>
      match markRow (Z.to_nat (x1 + 1 - x0)) (y * cols + x0) v tiles with
      | Some tiles => markRows n (y + 1) cols x0 x1 v tiles
      | None => None
      end
  end.

Fixpoint markRects (damage : list Rectangle) (bounds : Rectangle) (cols v : Z) (tiles : list Z) : option (list Z) :=
  match damage with
  | [] => Some tiles
  | rect :: damage =>
      let rect := Intersect rect bounds in
      if Empty rect then markRects damage bounds cols v tiles
      else
        let y0 := minY rect / framebufferTileSize in
        let y1 := (maxY rect - 1) / framebufferTileSize in
        match markRows (Z.to_nat (y1 + 1 - y0)) y0 cols (minX rect / framebufferTileSize)
                ((maxX rect - 1) / framebufferTileSize) v tiles with
        | Some tiles => markRects damage bounds cols v tiles
        | None => None
        end
  end.

(** [damage] is [None] for a nil slice: the whole image. *)
Definition markFrameDamageLocked (damage : option (list Rectangle)) : F unit :=
  let! d := gget in
  let cols := tilesFor (width d) in
  let rows := tilesFor (height d) in
  let fresh := negb (zlen (tileVersions d) =? cols * rows) in
  do! (if fresh then gupd (fun d => d <| tileVersions := zeros (cols * rows) |>) else ret tt) in
  let! d := gget in
  match (if fresh then None else damage) with
  | None => gupd (fun d => d <| tileVersions := map (fun _ => seq d) (tileVersions d) |>)
  | Some damage =>
      let! tiles := orPanic (markRects damage (Rect 0 0 (width d) (height d)) cols (seq d) (tileVersions d)) in
      gupd (fun d => d <| tileVersions := tiles |>)
  end.

Definition notify (d : framebuffer) : framebuffer := d <| notified := notified d + 1 |>.

Definition flush (w h : Z) (img : option RGBA) : F unit :=
  if (w <=? 0) || (h <=? 0) then ret tt
  else if invalidImage w h img then throw errInvalidFramebuffer
  else
    match img with
    | None => throw errInvalidFramebuffer
    | Some img =>
        let rowBytes := w * 4 in
        let! pix := orPanic (copyRows (Z.to_nat h) 0 (fun y => y * rowBytes) (fun y => y * Stride img) rowBytes
                               (zeros (rowBytes * h)) (Pix img)) in
        do! gupd (fun d => newBuffer pix (d <| width := w |> <| height := h |>) <| frameShared := false |>
                             <| seq := u64 (seq d + 1) |>) in
        do! markFrameDamageLocked None in
        gupd notify
    end.

Fixpoint copyRects (damage : list Rectangle) (bounds : Rectangle) (w : Z) (img : RGBA) (pix : list Z) : option (list Z) :=
  match damage with
  | [] => Some pix
  | rect :: damage =>
      let rect := Intersect rect bounds in
      match (if Empty rect then Some pix
             else copyRows (Z.to_nat (Dy rect)) (minY rect) (fun y => (y * w + minX rect) * 4)
                    (fun y => y * Stride img + minX rect * 4) (Dx rect * 4) pix (Pix img)) with
      | Some pix => copyRects damage bounds w img pix
      | None => None
      end
  end.

Definition flushDamage (w h : Z) (img : option RGBA) (damage : option (list Rectangle)) : F unit :=
  if (w <=? 0) || (h <=? 0) then ret tt
  else if invalidImage w h img then throw errInvalidFramebuffer
  else
    match img with
    | None => throw errInvalidFramebuffer
    | Some img =>
        let! d := gget in
        let bounds := Rect 0 0 w h in
        let resized := negb (zlen (framePix d) =? w * h * 4) in
        let full := match damage with None => true | Some _ => false end
                    || negb (width d =? w) || negb (height d =? h) || resized in
        let rects := if full then [bounds] else default [] damage in
        if negb (existsb (fun rect => negb (Empty (Intersect rect bounds))) rects) then ret tt
        else
          do! gupd (fun d => (if resized then newBuffer (zeros (w * h * 4)) d
                              else if frameShared d then newBuffer (framePix d) d else d)
                             <| frameShared := false |> <| width := w |> <| height := h |>) in
          let! d := gget in
          let! pix := orPanic (copyRects rects bounds w img (framePix d)) in
          do! gupd (fun d => writeBuffer pix d <| seq := u64 (seq d + 1) |>) in
          do! markFrameDamageLocked (if full then None else damage) in
          gupd notify
    end.

(** *** Readers *)

(** The end of the run of changed tiles that starts before [x] in the row at [base]. *)
Fixpoint runEnd (fuel : nat) (base cols x sequence : Z) : F Z :=
  if x <? cols then
    let! d := gget in
    let! v := gindex (tileVersions d) (base + x) in
    if sequence <? v then
      match fuel with O => fun d => (OutOfFuel, d) | S fuel => runEnd fuel base cols (x + 1) sequence end
    else ret x
  else ret x.

(** The last rectangle that ends where [rect] begins and has its columns grows
    down; [rects] is newest first.  [None] when there is none. *)
Fixpoint mergeRect (rects : list Rectangle) (rect : Rectangle) : option (list Rectangle) :=
  match rects with
  | [] => None
  | r :: rects =>
      if (maxY r =? minY rect) && (minX r =? minX rect) && (maxX r =? maxX rect)
      then Some (mkRect (minX r) (minY r) (maxX r) (maxY rect) :: rects)
      else match mergeRect rects rect with Some rects => Some (r :: rects) | None => None end
  end.

(** A row of tiles from [x] on; [inr] when there are too many rectangles. *)
Fixpoint scanTiles (fuel : nat) (x y cols sequence : Z) (rects : list Rectangle) : F (list Rectangle + unit) :=
  if x <? cols then
    match fuel with
    | O => fun d => (OutOfFuel, d)
    | S fuel =>
        let! d := gget in
        let! v := gindex (tileVersions d) (y * cols + x) in
        if v <=? sequence then scanTiles fuel (x + 1) y cols sequence rects
        else
          let! x' := runEnd (Z.to_nat cols) (y * cols) cols x sequence in
          let rect := Rect (x * framebufferTileSize) (y * framebufferTileSize)
                        (Z.min (x' * framebufferTileSize) (width d)) (Z.min ((y + 1) * framebufferTileSize) (height d)) in
          match mergeRect rects rect with
          | Some rects => scanTiles fuel x' y cols sequence rects
          | None =>
              let rects := rect :: rects in
              if maxFrameDamageRects <? zlen rects then ret (inr tt)
              else scanTiles fuel x' y cols sequence rects
          end
    end
  else ret (inl rects).

Fixpoint scanTileRows (n : nat) (y cols sequence : Z) (rects : list Rectangle) : F (list Rectangle + unit) :=
  match n with
  | O => ret (inl rects)
  | S n =>
      let! r := scanTiles (Z.to_nat cols) 0 y cols sequence rects in
      match r with
      | inl rects => scanTileRows n (y + 1) cols sequence rects
      | inr _ => ret (inr tt)
      end
  end.

Definition changedTileRectsLocked (sequence : Z) : F (list Rectangle) :=
  let! d := gget in
  let! r := scanTileRows (Z.to_nat (tilesFor (height d))) 0 (tilesFor (width d)) sequence [] in
  ret (match r with inl rects => rev rects | inr _ => [Rect 0 0 (width d) (height d)] end).

(** The rows of a rectangle of the reader's copy; rows the frame does not have are cleared. *)
Fixpoint refreshRows (n : nat) (y w : Z) (rect : Rectangle) (pix src : list Z) : option (list Z) :=
  match n with
  | O => Some pix
  | S n =>
      let start := (y * w + minX rect) * 4 in
      let stop := start + Dx rect * 4 in
      match (if stop <=? zlen src then copySpan pix start stop src start stop
             else clearSpan pix start stop) with
      | Some pix => refreshRows n (y + 1) w rect pix src
      | None => None
      end
  end.

Fixpoint refreshRects (damage : list Rectangle) (w : Z) (pix src : list Z) : option (list Z) :=
  match damage with
  | [] => Some pix
  | rect :: damage =>
      match refreshRows (Z.to_nat (Dy rect)) (minY rect) w rect pix src with
      | Some pix => refreshRects damage w pix src
      | None => None
      end
  end.

(** The reader's copy afterwards, and the rectangles that were refreshed. *)
Definition copyFrameChanges (f : vncFrame) (force : bool) : F (vncFrame * list Rectangle) :=
  let! d := gget in
  let size := width d * height d * 4 in
  let bounds := Rect 0 0 (width d) (height d) in
  let full := force || negb (f_width f =? width d) || negb (f_height f =? height d) || negb (zlen (f_pix f) =? size) in
  let pix := if zlen (f_pix f) =? size then f_pix f else zeros size in
  let! damage := (if full || (zlen (tileVersions d) =? 0) then ret [bounds] else changedTileRectsLocked (f_seq f)) in
  let! pix := orPanic (refreshRects damage (width d) pix (framePix d)) in
  ret (mkFrame (width d) (height d) pix (seq d), damage).

(** [changedFrame]: the index of the slice that is handed out, with its geometry;
    [None] when there is nothing new. *)
Definition changedFrame (sequence : Z) (force : bool) : F (option (Z * Z * nat * Z)) :=
  let! d := gget in
  if negb force && (seq d =? sequence) then ret None
  else
    do! gupd (fun d => d <| frameShared := true |>) in
    ret (Some (width d, height d, frame d, seq d)).

Definition frameChanged (sequence : Z) (force : bool) (d : framebuffer) : bool := force || negb (seq d =? sequence).

Definition snapshotLocked (d : framebuffer) : vncFrame := mkFrame (width d) (height d) (framePix d) (seq d).

(** ** Publication and the fallback consoles *)

Definition GraphicsReset (d : framebuffer) : framebuffer :=
  if stopped d || negb (textDisabled d) then d
  else d <| textDisabled := false |> <| serialMuted := false |> <| textConsole := None |> <| textDirty := false |>.

Definition Flush (w h : Z) (img : option RGBA) : F unit :=
  let! d := gget in
  if stopped d then ret tt
  else
    do! flush w h img in
    if (0 <? w) && (0 <? h) then gupd (fun d => d <| textDisabled := true |> <| legacyFallbackDisabled := true |>)
    else ret tt.

(** [FlushDamage] of the RDP display (rdp_cursor.go). *)
Definition FlushDamage (w h : Z) (img : option RGBA) (rects : option (list Rectangle)) : F unit :=
  let! d := gget in
  if stopped d then ret tt
  else
    let unchanged := match rects with
                     | None => false
                     | Some rs => negb (existsb (fun rect => negb (Empty (Intersect rect (Rect 0 0 w h)))) rs)
                     end in
    if unchanged then ret tt
    else
      let rects := match rects with None => None | Some rs => if negb (textDisabled d) then None else Some rs end in
      let before := seq d in
      do! flushDamage w h img rects in
      let! d := gget in
      if negb (seq d =? before) then gupd (fun d => d <| textDisabled := true |> <| legacyFallbackDisabled := true |>)
      else ret tt.

Definition shutdown (d : framebuffer) : framebuffer := d <| stopped := true |>.

(** An operation of the console inside the framebuffer. *)
Definition onConsole (c : vncTextConsole) (m : T unit) : F unit := fun d =>
  let '(r, c) := m c in
  (match r with Ok _ => Ok tt | Err e => Err e | Panic => Panic | OutOfFuel => OutOfFuel end, d <| textConsole := Some c |>).

Section Render.
(** The characters of the console and of the VGA text mode, drawn with a font. *)
Context (renderConsole : vncTextConsole -> RGBA) (renderVGAText : list Z -> RGBA).

Definition flushImage (img : RGBA) : F unit := flush (Dx (Bounds img)) (Dy (Bounds img)) (Some img).

(** [writeSerial]; the bytes it reports as written. *)
Definition writeSerial (p : list Z) : F Z :=
  let! d := gget in
  if (zlen p =? 0) || stopped d || textDisabled d || serialMuted d then ret (zlen p)
  else
    let first := match textConsole d with None => true | Some _ => false end in
    do! onConsole (default newVNCTextConsole (textConsole d)) (consoleWrite p) in
    do! gupd (fun d => d <| serialRunning := true |>) in
    if negb first then do! gupd (fun d => d <| textDirty := true |>) in ret (zlen p)
    else
      let! d := gget in
      match textConsole d with
      | None => panic
      | Some c => do! flushImage (renderConsole c) in ret (zlen p)
      end.

Definition refreshSerialLocked : F bool :=
  let! d := gget in
  if stopped d || textDisabled d || serialMuted d then ret false
  else
    do! (if textDirty d then
           match textConsole d with
           | None => panic
           | Some c =>
               let! _ := gtry (flushImage (renderConsole c)) in
               gupd (fun d => d <| textDirty := false |>)
           end
         else ret tt) in
    ret true.

(** A round of the worker that renders serial output. *)
Definition renderSerialFrames : F bool :=
  let! active := refreshSerialLocked in
  do! (if active then ret tt else gupd (fun d => d <| serialRunning := false |>)) in
  ret active.

Record fallback := mkFallback { last : list Z; rendered : bool }.

Definition refreshFallback (mem : list Z) (isBlank : list Z -> bool) (render : list Z -> RGBA) (b : fallback) : F (bool * fallback) :=
  let! d := gget in
  if stopped d || legacyFallbackDisabled d then ret (false, b)
  else if bool_decide (mem = last b) then ret (true, b)
  else if negb (rendered b) && isBlank mem then ret (true, mkFallback mem (rendered b))
  else
    do! gupd (fun d => d <| serialMuted := true |>) in
    let! _ := gtry (flushImage (render mem)) in
    ret (true, mkFallback mem true).

End Render.

Fixpoint vgaTextBlank (text : list Z) : bool :=
  match text with
  | ch :: _ :: text => if negb (ch =? 0) && negb (ch =? 32) then false else vgaTextBlank text
  | _ => true
  end.

Definition framebufferBlank (pix : list Z) : bool := forallb (fun b => b =? 0) pix.

(** BGRX pixels, [stride] bytes apart, as RGBA. *)
Definition linearPixel (pix : list Z) (o : Z) : list Z := [zget pix (o + 2); zget pix (o + 1); zget pix o; 0xff].

Definition renderLinearFramebuffer (pix : list Z) (w h stride : Z) : RGBA :=
  mkRGBA (concat (map (fun y => concat (map (fun x => linearPixel pix (y * stride + x * 4)) (seqZ 0 w))) (seqZ 0 h)))
    (4 * w) (Rect 0 0 w h).
