(* ===== verification/FramebufferSpec.v ===== *)
(** * What the framebuffer promises its readers

    A reader that refreshes its copy has the published image, whatever was
    published and however long it did not look; it is told at most 128 rectangles,
    which hold every pixel that changed.  Pixels that were handed out never change
    again.  No image makes a publication panic. *)

From S2P Require Import Prelude Bytes GpuImage Framebuffer.

(** ** Pixels in a slice of rows

    [bpp] bytes for a pixel, [w] pixels for a row. *)

Definition px (bpp w : Z) (l : list Z) (x y ch : Z) : Z := zget l ((y * w + x) * bpp + ch).

Lemma span_out bpp p q n ch :
  0 < bpp -> 0 <= ch < bpp -> p < q \/ q + n <= p -> p * bpp + ch < q * bpp \/ q * bpp + n * bpp <= p * bpp + ch.
Proof. intros ? ? [?|?]; [left|right]; nia. Qed.

Lemma px_write bpp w l y x0 n s x' y' ch :
  0 < bpp -> 0 <= y -> 0 <= x0 -> 0 <= n -> x0 + n <= w -> zlen s = n * bpp ->
  0 <= x' < w -> 0 <= y' -> 0 <= ch < bpp ->
  px bpp w (zwrite l ((y * w + x0) * bpp) s) x' y' ch =
  if (y' =? y) && (x0 <=? x') && (x' <? x0 + n) then zget s ((x' - x0) * bpp + ch) else px bpp w l x' y' ch.
Proof.
  intros Hb Hy Hx Hn Hw Hs Hx' Hy' Hch. unfold px.
  assert (0 <= y * w) by nia. assert (0 <= y' * w) by nia. assert (Ho : 0 <= (y * w + x0) * bpp) by nia.
  destruct ((y' =? y) && (x0 <=? x') && (x' <? x0 + n)) eqn:E; zbool.
  - subst y'. rewrite zget_write_in; [f_equal; lia|done|]. rewrite Hs.
    assert (x0 * bpp <= x' * bpp /\ x' * bpp + bpp <= (x0 + n) * bpp) by nia. lia.
  - apply zget_write_out; [done|nia|]. rewrite Hs. apply (span_out bpp (y' * w + x') (y * w + x0) n ch); [lia|lia|].
    assert (y' < y \/ y < y' \/ (y' = y /\ (x' < x0 \/ x0 + n <= x'))) as [?|[?|[-> [?|?]]]] by lia; [left|right|left|right]; nia.
Qed.

(** Slices with the same pixels are equal. *)
Lemma px_ext bpp w h l1 l2 :
  0 < bpp -> 0 <= w -> zlen l1 = w * h * bpp -> zlen l2 = w * h * bpp ->
  (forall x y ch, 0 <= x < w -> 0 <= y < h -> 0 <= ch < bpp -> px bpp w l1 x y ch = px bpp w l2 x y ch) -> l1 = l2.
Proof.
  intros Hb Hw H1 H2 H. apply zlist_eq; [lia|]. intros i Hi. rewrite H1 in Hi.
  assert (0 < w) by (destruct (decide (w = 0)) as [->|]; lia).
  pose proof (Z.div_mod i bpp). pose proof (Z.mod_pos_bound i bpp). set (p := i / bpp) in *.
  pose proof (Z.div_mod p w). pose proof (Z.mod_pos_bound p w).
  assert (0 <= p < w * h) by (split; [apply Z.div_pos; lia|apply Z.div_lt_upper_bound; nia]).
  assert (0 <= p / w < h) by (split; [apply Z.div_pos; lia|apply Z.div_lt_upper_bound; nia]).
  specialize (H (p mod w) (p / w) (i mod bpp)). unfold px in H.
  replace ((p / w * w + p mod w) * bpp + i mod bpp) with i in H by lia. apply H; lia.
Qed.

Lemma slice_Some l a b s : slice l a b = Some s -> 0 <= a <= b /\ b <= zlen l /\ s = zslice l a (b - a).
Proof. unfold slice. destruct (_ && _) eqn:E; [|done]. intros [= <-]. zbool. splits; try done; lia. Qed.

Lemma copySpan_ok dst a b src c d :
  0 <= a <= b -> b <= zlen dst -> 0 <= c <= d -> d <= zlen src -> b - a = d - c ->
  copySpan dst a b src c d = Some (zwrite dst a (zslice src c (d - c))).
Proof.
  intros. unfold copySpan. rewrite !slice_ok by lia. f_equal. f_equal. apply take_ge.
  pose proof (zlen_slice src c (d - c)). unfold zlen in *. lia.
Qed.

Section CopyRows.
Variables (bpp w x0 n : Z) (si : Z -> Z) (src : list Z).
Hypotheses (Hbpp : 0 < bpp) (Hx0 : 0 <= x0) (Hn : 0 <= n) (Hw : x0 + n <= w).

Lemma copyRows_spec k : forall y dst,
  0 <= y ->
  (forall y', y <= y' < y + Z.of_nat k ->
     (y' * w + x0 + n) * bpp <= zlen dst /\ 0 <= si y' /\ si y' + n * bpp <= zlen src) ->
  exists dst', copyRows k y (fun y => (y * w + x0) * bpp) si (n * bpp) dst src = Some dst' /\ zlen dst' = zlen dst /\
    (bytes_ok dst -> bytes_ok src -> bytes_ok dst') /\
    forall x' y' ch, 0 <= x' < w -> 0 <= y' -> 0 <= ch < bpp ->
      px bpp w dst' x' y' ch =
      if (y <=? y') && (y' <? y + Z.of_nat k) && (x0 <=? x') && (x' <? x0 + n)
      then zget src (si y' + (x' - x0) * bpp + ch) else px bpp w dst x' y' ch.
Proof using Hbpp Hx0 Hn Hw.
  induction k as [|k IH]; intros y dst Hy Hr.
  { exists dst. splits; try done. intros x' y' ch _ _ _.
    change (Z.of_nat 0) with 0. replace ((y <=? y') && (y' <? y + 0)) with false by lia. done. }
  cbn [copyRows]. destruct (Hr y ltac:(lia)) as (R1 & R2 & R3).
  assert (0 <= n * bpp) by nia. assert (0 <= y * w) by nia. assert (0 <= (y * w + x0) * bpp) by nia.
  rewrite copySpan_ok by lia. replace (si y + n * bpp - si y) with (n * bpp) by lia.
  assert (Hsl : zlen (zslice src (si y) (n * bpp)) = n * bpp) by (apply zlen_slice; lia).
  assert (Hl : zlen (zwrite dst ((y * w + x0) * bpp) (zslice src (si y) (n * bpp))) = zlen dst).
  { apply zlen_write_in; [lia|]. rewrite Hsl. lia. }
  destruct (IH (y + 1) (zwrite dst ((y * w + x0) * bpp) (zslice src (si y) (n * bpp)))) as (dst' & E1 & E2 & E3 & E4);
    [lia|intros y' Hy'; rewrite Hl; apply Hr; lia|].
  exists dst'. splits; [done|lia| |].
  - intros Hd Hs. apply E3; [|done]. apply bytes_ok_write; [done|by apply bytes_ok_slice].
  - intros x' y' ch Hx' Hy' Hch. rewrite E4 by done. rewrite (px_write bpp w dst y x0 n) by (done || lia).
    rewrite Nat2Z.inj_succ. unfold Z.succ. pose proof (Nat2Z.is_nonneg k). generalize dependent (Z.of_nat k). intros K _ _ HK.
    destruct (Z.eqb_spec y' y) as [->|Hne].
    + replace ((y + 1 <=? y) && (y <? y + 1 + K)) with false by lia.
      replace ((y <=? y) && (y <? y + (K + 1))) with true by lia. cbn [andb].
      destruct ((x0 <=? x') && (x' <? x0 + n)) eqn:E; zbool; [|done].
      assert ((x' - x0) * bpp + bpp <= n * bpp) by nia. rewrite zget_slice by nia. f_equal. lia.
    + replace ((y <=? y') && (y' <? y + (K + 1))) with ((y + 1 <=? y') && (y' <? y + 1 + K)) by lia. done.
Qed.
End CopyRows.

Lemma copyRows_ext n di di' si len src : (forall y, di y = di' y) -> forall y dst,
  copyRows n y di si len dst src = copyRows n y di' si len dst src.
Proof.
  intros He. induction n as [|n IH]; intros y dst; [done|]. cbn [copyRows]. rewrite He.
  destruct (copySpan _ _ _ _ _ _); [apply IH|done].
Qed.

(** ** Publication: the pixels *)

Definition covered (rects : list Rectangle) (x y : Z) : bool := existsb (fun r => insideb r x y) rects.

Definition inFrame (w h x y : Z) : Prop := 0 <= x < w /\ 0 <= y < h.

(** An image with at least [h] rows of [w] pixels. *)
Record usable (w h : Z) (img : RGBA) : Prop := {
  us_w : 0 < w;
  us_h : 0 < h;
  us_stride : w * 4 <= Stride img;
  us_len : (h - 1) * Stride img + w * 4 <= zlen (Pix img);
  us_max : w * h * 4 < 2 ^ 63
}.

Definition imgPx (img : RGBA) (x y ch : Z) : Z := zget (Pix img) (y * Stride img + x * 4 + ch).

Lemma invalidImage_usable w h img :
  0 < w -> 0 < h -> invalidImage w h (Some img) = false -> usable w h img.
Proof.
  intros Hw Hh. unfold invalidImage, maxInt64. rewrite !orb_false_iff, !Z.ltb_ge. intros ((((((H1 & H2) & _) & _) & H5) & H6) & H7).
  assert (Hd : Stride img * (h - 1) <= zlen (Pix img) - w * 4).
  { etransitivity; [apply Z.mul_le_mono_nonneg_l; [lia|exact H7]|]. apply Z.mul_div_le. lia. }
  constructor; try lia. pose proof (Z.mul_div_le (2 ^ 63 - 1) (w * 4) ltac:(lia)). nia.
Qed.

Lemma usable_row w h img y x0 n :
  usable w h img -> 0 <= y < h -> 0 <= x0 -> x0 + n <= w ->
  0 <= y * Stride img + x0 * 4 /\ y * Stride img + x0 * 4 + n * 4 <= zlen (Pix img).
Proof. intros [] ? ? ?. split; [nia|]. assert (y * Stride img <= (h - 1) * Stride img) by nia. lia. Qed.

Lemma Rect_frame w h : 0 < w -> 0 < h -> Rect 0 0 w h = mkRect 0 0 w h.
Proof. intros. unfold Rect. f_equal; lia. Qed.

Lemma insideb_frame w h x y : 0 < w -> 0 < h -> insideb (Rect 0 0 w h) x y = true <-> inFrame w h x y.
Proof. intros. rewrite Rect_frame by done. unfold insideb, inFrame. cbn. lia. Qed.

Section CopyRects.
Variables (w h : Z) (img : RGBA).
Hypothesis Hu : usable w h img.

Lemma copyRect_spec rect pix :
  Empty rect = false -> 0 <= minX rect -> maxX rect <= w -> 0 <= minY rect -> maxY rect <= h -> zlen pix = w * h * 4 ->
  exists pix', copyRows (Z.to_nat (Dy rect)) (minY rect) (fun y => (y * w + minX rect) * 4)
                 (fun y => y * Stride img + minX rect * 4) (Dx rect * 4) pix (Pix img) = Some pix' /\
    zlen pix' = w * h * 4 /\ (bytes_ok pix -> bytes_ok (Pix img) -> bytes_ok pix') /\
    forall x y ch, inFrame w h x y -> 0 <= ch < 4 ->
      px 4 w pix' x y ch = if insideb rect x y then imgPx img x y ch else px 4 w pix x y ch.
Proof using Hu.
  intros He Hx0 Hx1 Hy0 Hy1 Hl. apply Empty_spec in He. unfold Dx, Dy.
  destruct (copyRows_spec 4 w (minX rect) (maxX rect - minX rect) (fun y => y * Stride img + minX rect * 4) (Pix img)
    ltac:(lia) Hx0 ltac:(lia) ltac:(lia) (Z.to_nat (maxY rect - minY rect)) (minY rect) pix Hy0) as (pix' & E1 & E2 & E3 & E4).
  { intros y' Hy'. destruct (usable_row w h img y' (minX rect) (maxX rect - minX rect) Hu) as [? ?]; [lia..|].
    splits; try lia. rewrite Hl. assert ((y' + 1) * w <= h * w) by nia. nia. }
  exists pix'. splits; [done|lia|done|]. intros x y ch [Hx Hy] Hch. rewrite E4 by lia.
  rewrite Z2Nat.id by lia. unfold insideb, imgPx.
  replace ((minY rect <=? y) && (y <? minY rect + (maxY rect - minY rect)) && (minX rect <=? x) &&
           (x <? minX rect + (maxX rect - minX rect)))
    with ((minX rect <=? x) && (x <? maxX rect) && (minY rect <=? y) && (y <? maxY rect)) by lia.
  destruct (_ && _); [|done]. f_equal. lia.
Qed.

Lemma copyRects_spec damage : forall pix,
  zlen pix = w * h * 4 ->
  exists pix', copyRects damage (Rect 0 0 w h) w img pix = Some pix' /\ zlen pix' = w * h * 4 /\
    (bytes_ok pix -> bytes_ok (Pix img) -> bytes_ok pix') /\
    forall x y ch, inFrame w h x y -> 0 <= ch < 4 ->
      px 4 w pix' x y ch = if covered damage x y then imgPx img x y ch else px 4 w pix x y ch.
Proof using Hu.
  pose proof Hu as [Hw Hh _ _ _]. induction damage as [|r damage IH]; intros pix Hl.
  { exists pix. by splits. }
  cbn [copyRects covered existsb]. cbv zeta.
  assert (Hin : forall x y, inFrame w h x y -> insideb (Intersect r (Rect 0 0 w h)) x y = insideb r x y).
  { intros x y Hxy. rewrite insideb_Intersect. apply (insideb_frame w h) in Hxy; [|done..]. by rewrite Hxy, andb_true_r. }
  destruct (Intersect_cases r (Rect 0 0 w h)) as [E|(E & _ & _ & _ & _ & C1 & C2 & C3 & C4)].
  - rewrite E in *. change (Empty ZR) with true. cbv iota. destruct (IH pix Hl) as (pix' & E1 & E2 & E3 & E4).
    exists pix'. splits; try done. intros x y ch Hxy Hch. rewrite E4 by done. rewrite <- (Hin x y Hxy).
    replace (insideb ZR x y) with false; [done|]. unfold insideb, ZR. cbn. lia.
  - rewrite E. rewrite (Rect_frame w h) in * by done. cbn in C1, C2, C3, C4.
    destruct (copyRect_spec _ pix E C1 C2 C3 C4 Hl) as (p1 & E1 & E2 & E3 & E4). rewrite E1.
    destruct (IH p1 E2) as (pix' & F1 & F2 & F3 & F4). exists pix'. splits; [done|done|auto|].
    intros x y ch Hxy Hch. rewrite F4, E4, Hin by done. destruct (insideb r x y); cbn [orb]; [|done].
    by destruct (covered damage x y).
Qed.
End CopyRects.

(** ** Tiles *)

Definition tileOf (w x y : Z) : Z := y / 64 * tilesFor w + x / 64.

Lemma tilesFor_spec n : 0 < n -> 64 * tilesFor n - 64 < n <= 64 * tilesFor n.
Proof.
  intros. unfold tilesFor, framebufferTileSize. pose proof (Z.div_mod (n + 64 - 1) 64).
  pose proof (Z.mod_pos_bound (n + 64 - 1) 64). lia.
Qed.

Lemma tile_in w x : 0 <= x < w -> 0 <= x / 64 < tilesFor w.
Proof.
  intros. pose proof (tilesFor_spec w). pose proof (Z.div_mod x 64). pose proof (Z.mod_pos_bound x 64). lia.
Qed.

Lemma tileOf_in w h x y : inFrame w h x y -> 0 <= tileOf w x y < tilesFor w * tilesFor h.
Proof.
  intros [Hx Hy]. pose proof (tile_in w x Hx). pose proof (tile_in h y Hy). unfold tileOf. nia.
Qed.

Lemma markRow_spec v n : forall i tiles,
  0 <= i -> i + Z.of_nat n <= zlen tiles ->
  exists tiles', markRow n i v tiles = Some tiles' /\ zlen tiles' = zlen tiles /\
    forall j, 0 <= j < zlen tiles ->
      (i <= j < i + Z.of_nat n -> zget tiles' j = v) /\ (j < i \/ i + Z.of_nat n <= j -> zget tiles' j = zget tiles j).
Proof.
  induction n as [|n IH]; intros i tiles Hi Hn.
  { exists tiles. splits; try done. intros j Hj. split; [lia|done]. }
  cbn [markRow]. replace ((0 <=? i) && (i <? zlen tiles)) with true
    by (symmetry; apply andb_true_iff; rewrite Z.leb_le, Z.ltb_lt; lia).
  destruct (IH (i + 1) (zinsert i v tiles)) as (t & E1 & E2 & E3); [lia|rewrite zlen_insert; lia|].
  rewrite zlen_insert in E2, E3. exists t. splits; [done|done|]. intros j Hj. destruct (E3 j Hj) as [E4 E5]. split.
  - intros Hr. destruct (decide (j = i)) as [->|]; [|apply E4; lia].
    rewrite E5, zget_insert by lia. by rewrite Z.eqb_refl.
  - intros Hr. rewrite E5, zget_insert by lia. by rewrite (proj2 (Z.eqb_neq j i)) by lia.
Qed.

(** What marking tiles leaves of the versions. *)
Definition raised (v : Z) (tiles tiles' : list Z) : Prop :=
  zlen tiles' = zlen tiles /\ forall i, 0 <= i < zlen tiles -> zget tiles' i = v \/ zget tiles' i = zget tiles i.

Lemma raised_refl v tiles : raised v tiles tiles.
Proof. split; [done|]. by right. Qed.

Lemma raised_trans v t1 t2 t3 : raised v t1 t2 -> raised v t2 t3 -> raised v t1 t3.
Proof.
  intros [L1 H1] [L2 H2]. split; [lia|]. intros i Hi. destruct (H2 i ltac:(lia)) as [->| ->]; [by left|]. by apply H1.
Qed.

Lemma raised_keeps v t1 t2 i : raised v t1 t2 -> 0 <= i < zlen t1 -> zget t1 i = v -> zget t2 i = v.
Proof. intros [_ H] Hi E. destruct (H i Hi) as [->| ->]; done. Qed.

Lemma markRows_spec v cols x0 x1 n : forall y tiles,
  0 <= x0 <= x1 -> x1 < cols -> 0 <= y -> (y + Z.of_nat n) * cols <= zlen tiles ->
  exists tiles', markRows n y cols x0 x1 v tiles = Some tiles' /\ raised v tiles tiles' /\
    forall tx ty, x0 <= tx <= x1 -> y <= ty < y + Z.of_nat n -> zget tiles' (ty * cols + tx) = v.
Proof.
  induction n as [|n IH]; intros y tiles Hx Hc Hy Hl.
  { exists tiles. splits; [done|apply raised_refl|lia]. }
  cbn [markRows]. assert (0 <= y * cols) by nia. assert (Hn : (y + 1) * cols <= zlen tiles) by nia.
  destruct (markRow_spec v (Z.to_nat (x1 + 1 - x0)) (y * cols + x0) tiles) as (t & E1 & E2 & E3); [lia|lia|].
  rewrite E1. rewrite Z2Nat.id in E3 by lia.
  assert (Hr : raised v tiles t).
  { split; [done|]. intros i Hi. destruct (E3 i Hi) as [A B].
    destruct (decide (y * cols + x0 <= i < y * cols + x0 + (x1 + 1 - x0))); [left; by apply A|right; apply B; lia]. }
  destruct (IH (y + 1) t) as (t' & F1 & F2 & F3); [done|done|lia|rewrite E2; lia|].
  exists t'. splits; [done|by eapply raised_trans|]. intros tx ty Htx Hty.
  destruct (decide (ty = y)) as [->|]; [|apply F3; lia].
  apply (raised_keeps v t); [done|lia|]. apply E3; lia.
Qed.

Lemma div64_mono a b : a <= b -> a / 64 <= b / 64.
Proof. apply Z.div_le_mono. lia. Qed.

Lemma markRects_spec w h v damage : 0 < w -> 0 < h -> forall tiles,
  zlen tiles = tilesFor w * tilesFor h ->
  exists tiles', markRects damage (Rect 0 0 w h) (tilesFor w) v tiles = Some tiles' /\ raised v tiles tiles' /\
    forall x y, inFrame w h x y -> covered damage x y = true -> zget tiles' (tileOf w x y) = v.
Proof.
  intros Hw Hh. rewrite Rect_frame by done. induction damage as [|r damage IH]; intros tiles Hl.
  { exists tiles. splits; [done|apply raised_refl|done]. }
  cbn [markRects covered existsb]. cbv zeta.
  assert (Hin : forall x y, inFrame w h x y -> insideb (Intersect r (mkRect 0 0 w h)) x y = insideb r x y).
  { intros x y Hxy. rewrite insideb_Intersect. rewrite <- (Rect_frame w h) by done.
    apply (insideb_frame w h) in Hxy; [|done..]. by rewrite Hxy, andb_true_r. }
  destruct (Intersect_cases r (mkRect 0 0 w h)) as [E|(E & _ & _ & _ & _ & C1 & C2 & C3 & C4)].
  - rewrite E in *. change (Empty ZR) with true. cbv iota. destruct (IH tiles Hl) as (t & E1 & E2 & E3).
    exists t. splits; try done. intros x y Hxy Hcov. apply E3; [done|]. rewrite <- (Hin x y Hxy) in Hcov.
    replace (insideb ZR x y) with false in Hcov; [done|]. unfold insideb, ZR. cbn. lia.
  - rewrite E. cbn in C1, C2, C3, C4. set (c := Intersect r (mkRect 0 0 w h)) in *. apply Empty_spec in E.
    pose proof (tile_in w (maxX c - 1) ltac:(lia)). pose proof (tile_in h (maxY c - 1) ltac:(lia)).
    pose proof (tile_in w (minX c) ltac:(lia)). pose proof (tile_in h (minY c) ltac:(lia)).
    pose proof (div64_mono (minX c) (maxX c - 1) ltac:(lia)). pose proof (div64_mono (minY c) (maxY c - 1) ltac:(lia)).
    unfold framebufferTileSize.
    destruct (markRows_spec v (tilesFor w) (minX c / 64) ((maxX c - 1) / 64) (Z.to_nat ((maxY c - 1) / 64 + 1 - minY c / 64))
      (minY c / 64) tiles) as (t & E1 & E2 & E3); [lia|lia|lia|rewrite Z2Nat.id by lia; nia|].
    rewrite E1. pose proof E2 as [L _]. destruct (IH t ltac:(lia)) as (t' & F1 & F2 & F3).
    exists t'. splits; [done|by eapply raised_trans|]. intros x y Hxy Hcov.
    apply orb_true_iff in Hcov as [Hcov|Hcov]; [|by apply F3]. rewrite <- (Hin x y Hxy) in Hcov.
    apply (raised_keeps v t); [done|rewrite L, Hl; by apply tileOf_in|].
    destruct (insideb_spec c x y) as [[Hx Hy]|]; [|done]. unfold tileOf. apply E3.
    + pose proof (div64_mono (minX c) x ltac:(lia)). pose proof (div64_mono x (maxX c - 1) ltac:(lia)). lia.
    + pose proof (div64_mono (minY c) y ltac:(lia)). pose proof (div64_mono y (maxY c - 1) ltac:(lia)). lia.
Qed.

(** ** The rectangles a reader is told *)

Lemma gindex_at {S} (l : list Z) i (s : S) : 0 <= i < zlen l -> gindex l i s = (Ok (zget l i), s).
Proof.
  intros Hi. unfold gindex. by rewrite (zlookup_zget l i Hi).
Qed.

Lemma runEnd_spec d base cols sequence fuel : forall x,
  0 <= base -> base + cols <= zlen (tileVersions d) -> 0 <= x <= cols -> cols <= x + Z.of_nat fuel ->
  exists x', runEnd fuel base cols x sequence d = (Ok x', d) /\ x <= x' <= cols /\
    (forall k, x <= k < x' -> sequence < zget (tileVersions d) (base + k)) /\
    (x < cols -> sequence < zget (tileVersions d) (base + x) -> x < x').
Proof.
  induction fuel as [|fuel IH]; intros x Hb Hl Hx Hf; unfold runEnd; fold runEnd.
  - rewrite (proj2 (Z.ltb_ge x cols)) by lia. exists x. splits; try done; lia.
  - destruct (Z.ltb_spec x cols) as [Hlt|Hge]; [|exists x; splits; try done; lia].
    unfold gbind, gget. rewrite gindex_at by lia. cbv iota beta.
    destruct (Z.ltb_spec sequence (zget (tileVersions d) (base + x))) as [Hv|Hv].
    + destruct (IH (x + 1)) as (x' & E1 & E2 & E3 & _); [lia..|]. exists x'. splits; [done|lia..| |lia].
      intros k Hk. destruct (decide (k = x)) as [->|]; [done|]. apply E3. lia.
    + exists x. splits; try done; lia.
Qed.

(** Rectangles of the image, none of them empty. *)
Definition proper (w h : Z) (r : Rectangle) : Prop :=
  0 <= minX r < maxX r /\ maxX r <= w /\ 0 <= minY r < maxY r /\ maxY r <= h.

Lemma mergeRect_spec w h rects rect rects' :
  Forall (proper w h) rects -> proper w h rect -> mergeRect rects rect = Some rects' ->
  Forall (proper w h) rects' /\ zlen rects' = zlen rects /\
  forall x y, covered rects' x y = covered rects x y || insideb rect x y.
Proof.
  intros Hr Hp. revert rects'. induction Hr as [|r rects Hr Hrs IH]; intros rects'; cbn [mergeRect]; [done|].
  destruct ((maxY r =? minY rect) && (minX r =? minX rect) && (maxX r =? maxX rect)) eqn:E.
  - intros [= <-]. zbool. unfold proper in *. splits.
    + constructor; [cbn; lia|done].
    + by rewrite !zlen_cons.
    + intros x y. cbn [covered existsb]. replace (insideb _ x y) with (insideb r x y || insideb rect x y).
      { destruct (insideb r x y), (insideb rect x y), (existsb _ _); done. }
      unfold insideb. cbn. lia.
  - destruct (mergeRect rects rect) as [l|] eqn:El; [|done]. intros [= <-]. destruct (IH l eq_refl) as (I1 & I2 & I3).
    splits; [by constructor|by rewrite !zlen_cons, I2|]. intros x y. unfold covered in *. cbn [existsb]. by rewrite I3, orb_assoc.
Qed.

(** A run of tiles as a rectangle. *)
Lemma tileRect_spec w h x x' y :
  0 < w -> 0 < h -> 0 <= x < x' -> x' <= tilesFor w -> 0 <= y < tilesFor h ->
  let r := Rect (x * 64) (y * 64) (Z.min (x' * 64) w) (Z.min ((y + 1) * 64) h) in
  proper w h r /\ forall px py, inFrame w h px py -> insideb r px py = (x <=? px / 64) && (px / 64 <? x') && (py / 64 =? y).
Proof.
  intros Hw Hh Hx Hx' Hy. pose proof (tilesFor_spec w Hw). pose proof (tilesFor_spec h Hh). cbv zeta.
  assert (E : Rect (x * 64) (y * 64) (Z.min (x' * 64) w) (Z.min ((y + 1) * 64) h) =
    mkRect (x * 64) (y * 64) (Z.min (x' * 64) w) (Z.min ((y + 1) * 64) h)) by (unfold Rect; f_equal; lia).
  rewrite E. split; [unfold proper; cbn; lia|]. intros px py [Hpx Hpy]. unfold insideb. cbn.
  pose proof (Z.div_mod px 64). pose proof (Z.mod_pos_bound px 64). pose proof (Z.div_mod py 64). pose proof (Z.mod_pos_bound py 64).
  lia.
Qed.

Section Scan.
Variables (d : framebuffer) (sequence : Z).
#[local] Abbreviation w := (width d).
#[local] Abbreviation h := (height d).
Hypotheses (Hw : 0 < w) (Hh : 0 < h) (Htiles : zlen (tileVersions d) = tilesFor w * tilesFor h).

(** The tile of the pixel was published after [sequence]. *)
Definition newer (x y : Z) : bool := sequence <? zget (tileVersions d) (tileOf w x y).

(** The rectangles so far are the newer tiles before tile [tx] of row [ty]. *)
Definition scanned (tx ty : Z) (rects : list Rectangle) : Prop :=
  Forall (proper w h) rects /\ zlen rects <= 128 /\
  forall x y, inFrame w h x y -> covered rects x y = ((y / 64 <? ty) || ((y / 64 =? ty) && (x / 64 <? tx))) && newer x y.

Lemma scanTiles_spec ty fuel : 0 <= ty < tilesFor h -> forall tx rects,
  0 <= tx <= tilesFor w -> tilesFor w <= tx + Z.of_nat fuel -> scanned tx ty rects ->
  exists r, scanTiles fuel tx ty (tilesFor w) sequence rects d = (Ok r, d) /\
    match r with inl rects' => scanned (tilesFor w) ty rects' | inr _ => True end.
Proof using Hw Hh Htiles.
  intros Hty. pose proof (tilesFor_spec w Hw).
  assert (Hrow : 0 <= ty * tilesFor w /\ ty * tilesFor w + tilesFor w <= zlen (tileVersions d)) by (rewrite Htiles; nia).
  induction fuel as [|fuel IH]; intros tx rects Htx Hf Hs; unfold scanTiles; fold scanTiles.
  { rewrite (proj2 (Z.ltb_ge tx (tilesFor w))) by lia. exists (inl rects). split; [done|].
    by replace (tilesFor w) with tx by lia. }
  destruct (Z.ltb_spec tx (tilesFor w)) as [Hlt|]; [|exists (inl rects); split; [done|by replace (tilesFor w) with tx by lia]].
  unfold gbind, gget. rewrite gindex_at by lia. cbv iota beta.
  destruct (Z.leb_spec (zget (tileVersions d) (ty * tilesFor w + tx)) sequence) as [Hv|Hv].
  - apply IH; [lia|lia|]. destruct Hs as (S1 & S2 & S3). unfold scanned. splits; [done|done|]. intros x y Hxy. rewrite S3 by done.
    unfold newer, tileOf. destruct (decide (y / 64 = ty /\ x / 64 = tx)) as [[-> ->]|].
    + rewrite (proj2 (Z.ltb_ge sequence _)) by lia. by rewrite !andb_false_r.
    + f_equal. lia.
  - destruct (runEnd_spec d (ty * tilesFor w) (tilesFor w) sequence (Z.to_nat (tilesFor w)) tx) as (x' & E1 & E2 & E3 & E4);
      [lia..|]. specialize (E4 Hlt Hv). rewrite E1. cbv zeta. unfold framebufferTileSize.
    destruct (tileRect_spec w h tx x' ty Hw Hh ltac:(lia) ltac:(lia) Hty) as [P1 P2]. set (rect := Rect _ _ _ _) in *.
    destruct Hs as (S1 & S2 & S3).
    assert (Hgrow : forall rects', (forall x y, covered rects' x y = covered rects x y || insideb rect x y) ->
      forall x y, inFrame w h x y -> covered rects' x y = ((y / 64 <? ty) || ((y / 64 =? ty) && (x / 64 <? x'))) && newer x y).
    { intros rects' Hc x y Hxy. rewrite Hc, S3, P2 by done.
      destruct (decide (y / 64 = ty /\ tx <= x / 64 < x')) as [[Ey Ex]|Hn].
      - assert (newer x y = true) as ->; [|lia]. unfold newer, tileOf. rewrite Ey. apply Z.ltb_lt, E3. lia.
      - replace ((tx <=? x / 64) && (x / 64 <? x') && (y / 64 =? ty)) with false by lia. rewrite orb_false_r. f_equal. lia. }
    destruct (mergeRect rects rect) as [rects'|] eqn:Em.
    + destruct (mergeRect_spec w h _ _ _ S1 P1 Em) as (M1 & M2 & M3). apply IH; [lia|lia|]. unfold scanned. splits; [done|lia|by apply Hgrow].
    + unfold maxFrameDamageRects. destruct (Z.ltb_spec 128 (zlen (rect :: rects))); [by exists (inr tt)|].
      apply IH; [lia|lia|]. unfold scanned. splits; [by constructor|done|]. apply Hgrow. intros x y. cbn [covered existsb]. apply orb_comm.
Qed.

Lemma scanTileRows_spec n : forall ty rects,
  0 <= ty -> ty + Z.of_nat n = tilesFor h -> scanned 0 ty rects ->
  exists r, scanTileRows n ty (tilesFor w) sequence rects d = (Ok r, d) /\
    match r with inl rects' => scanned 0 (tilesFor h) rects' | inr _ => True end.
Proof using Hw Hh Htiles.
  induction n as [|n IH]; intros ty rects Hty Hn Hs; cbn [scanTileRows].
  { exists (inl rects). split; [done|]. by replace (tilesFor h) with ty by lia. }
  pose proof (tilesFor_spec w Hw).
  destruct (scanTiles_spec ty (Z.to_nat (tilesFor w)) ltac:(lia) 0 rects) as (r & E1 & E2); [lia|lia|done|].
  unfold gbind. rewrite E1. destruct r as [rects'|]; [|by exists (inr tt)]. apply IH; [lia|lia|].
  destruct E2 as (S1 & S2 & S3). unfold scanned. splits; [done|done|]. intros x y Hxy. rewrite S3 by done. f_equal.
  pose proof (tile_in w x). destruct Hxy. pose proof (Z.div_mod x 64). lia.
Qed.

(** The rectangles hold exactly the newer tiles, or the whole image. *)
Lemma changedTileRects_spec :
  exists rects, changedTileRectsLocked sequence d = (Ok rects, d) /\ Forall (proper w h) rects /\ zlen rects <= 128 /\
    ((forall x y, inFrame w h x y -> covered rects x y = newer x y) \/ rects = [Rect 0 0 w h]).
Proof using Hw Hh Htiles.
  unfold changedTileRectsLocked, gbind, gget. pose proof (tilesFor_spec h Hh).
  destruct (scanTileRows_spec (Z.to_nat (tilesFor h)) 0 []) as (r & E1 & E2); [lia|lia| |].
  { unfold scanned. splits; [constructor|done|]. intros x y [Hx Hy]. pose proof (tile_in h y Hy). pose proof (tile_in w x Hx).
    replace ((y / 64 <? 0) || ((y / 64 =? 0) && (x / 64 <? 0))) with false by lia. done. }
  rewrite E1. eexists. split; [done|]. destruct r as [rects|].
  - destruct E2 as (S1 & S2 & S3). splits; [by apply Forall_rev|unfold zlen in *; by rewrite length_rev|]. left.
    intros x y Hxy. replace (covered (rev rects) x y) with (covered rects x y).
    { rewrite S3 by done. pose proof (tile_in h y). destruct Hxy. replace (y / 64 <? tilesFor h) with true by lia. done. }
    unfold covered. apply eq_true_iff_eq. rewrite !existsb_exists. setoid_rewrite <- in_rev. done.
  - splits; [|done|by right]. rewrite Rect_frame by done. constructor; [|constructor]. unfold proper. cbn. lia.
Qed.
End Scan.

(** ** The copy of a reader *)

Section Refresh.
Variables (w h : Z) (src : list Z).
Hypotheses (Hw : 0 < w) (Hh : 0 < h) (Hsrc : zlen src = w * h * 4 \/ src = []).

Lemma refreshRow_spec x0 n y pix :
  0 <= x0 -> 0 < n -> x0 + n <= w -> 0 <= y < h -> zlen pix = w * h * 4 ->
  let start := (y * w + x0) * 4 in
  exists pix', (if start + n * 4 <=? zlen src then copySpan pix start (start + n * 4) src start (start + n * 4)
                else clearSpan pix start (start + n * 4)) = Some pix' /\ zlen pix' = w * h * 4 /\
    (bytes_ok pix -> bytes_ok src -> bytes_ok pix') /\
    forall x' y' ch, inFrame w h x' y' -> 0 <= ch < 4 ->
      px 4 w pix' x' y' ch =
      if (y' =? y) && (x0 <=? x') && (x' <? x0 + n) then px 4 w src x' y' ch else px 4 w pix x' y' ch.
Proof using Hw Hh Hsrc.
  intros Hx Hn Hxn Hy Hl. cbv zeta. assert (0 <= y * w) by nia. assert ((y + 1) * w <= h * w) by nia.
  destruct (Z.leb_spec ((y * w + x0) * 4 + n * 4) (zlen src)) as [Hle|Hgt].
  - rewrite copySpan_ok by lia. eexists. split; [done|].
    assert (Hs : zlen (zslice src ((y * w + x0) * 4) ((y * w + x0) * 4 + n * 4 - (y * w + x0) * 4)) = n * 4)
      by (rewrite zlen_slice; lia).
    splits; [rewrite zlen_write_in; lia|intros; apply bytes_ok_write; [done|by apply bytes_ok_slice]|].
    intros x' y' ch [Hx' Hy'] Hch. rewrite (px_write 4 w pix y x0 n) by (done || lia).
    destruct (_ && _) eqn:E; zbool; [|done]. subst y'. rewrite zget_slice by lia. unfold px. f_equal. lia.
  - destruct Hsrc as [Hs|Hs]; [lia|]. unfold clearSpan. rewrite slice_ok by lia. eexists. split; [done|].
    replace ((y * w + x0) * 4 + n * 4 - (y * w + x0) * 4) with (n * 4) by lia.
    assert (Hz : zlen (zeros (n * 4)) = n * 4) by (rewrite zlen_zeros; lia).
    splits; [rewrite zlen_write_in; lia|intros; apply bytes_ok_write; [done|apply bytes_ok_zeros]|].
    intros x' y' ch [Hx' Hy'] Hch. rewrite (px_write 4 w pix y x0 n) by (done || lia).
    destruct (_ && _); [|done]. rewrite zget_zeros, Hs. unfold px. symmetry. apply zget_out. right.
    change (zlen []) with 0. nia.
Qed.

Lemma refreshRows_spec rect n : forall y pix,
  proper w h rect -> 0 <= y -> y + Z.of_nat n <= h -> zlen pix = w * h * 4 ->
  exists pix', refreshRows n y w rect pix src = Some pix' /\ zlen pix' = w * h * 4 /\
    (bytes_ok pix -> bytes_ok src -> bytes_ok pix') /\
    forall x' y' ch, inFrame w h x' y' -> 0 <= ch < 4 ->
      px 4 w pix' x' y' ch =
      if (y <=? y') && (y' <? y + Z.of_nat n) && (minX rect <=? x') && (x' <? maxX rect)
      then px 4 w src x' y' ch else px 4 w pix x' y' ch.
Proof using Hw Hh Hsrc.
  induction n as [|n IH]; intros y pix Hp Hy Hn Hl.
  { exists pix. splits; try done. intros x' y' ch _ _. change (Z.of_nat 0) with 0.
    replace ((y <=? y') && (y' <? y + 0)) with false by lia. done. }
  cbn [refreshRows]. destruct Hp as (P1 & P2 & P3 & P4). cbv zeta. unfold Dx.
  destruct (refreshRow_spec (minX rect) (maxX rect - minX rect) y pix) as (p1 & E1 & E2 & E3 & E4); [lia..|]. rewrite E1.
  destruct (IH (y + 1) p1) as (pix' & F1 & F2 & F3 & F4); [by unfold proper|lia|lia|lia|].
  exists pix'. splits; [done|done|auto|]. intros x' y' ch Hxy Hch. rewrite F4, E4 by done.
  rewrite Nat2Z.inj_succ. unfold Z.succ. pose proof (Nat2Z.is_nonneg n). set (K := Z.of_nat n) in *. clearbody K.
  replace (minX rect + (maxX rect - minX rect)) with (maxX rect) by lia.
  destruct (Z.eqb_spec y' y) as [->|Hne].
  - replace ((y + 1 <=? y) && (y <? y + 1 + K)) with false by lia.
    replace ((y <=? y) && (y <? y + (K + 1))) with true by lia. done.
  - replace ((y <=? y') && (y' <? y + (K + 1))) with ((y + 1 <=? y') && (y' <? y + 1 + K)) by lia. done.
Qed.

Lemma refreshRects_spec rects : Forall (proper w h) rects -> forall pix,
  zlen pix = w * h * 4 ->
  exists pix', refreshRects rects w pix src = Some pix' /\ zlen pix' = w * h * 4 /\
    (bytes_ok pix -> bytes_ok src -> bytes_ok pix') /\
    forall x y ch, inFrame w h x y -> 0 <= ch < 4 ->
      px 4 w pix' x y ch = if covered rects x y then px 4 w src x y ch else px 4 w pix x y ch.
Proof using Hw Hh Hsrc.
  induction 1 as [|r rects Hr _ IH]; intros pix Hl; [exists pix; by splits|].
  cbn [refreshRects covered existsb]. pose proof Hr as (P1 & P2 & P3 & P4). unfold Dy.
  destruct (refreshRows_spec r (Z.to_nat (maxY r - minY r)) (minY r) pix) as (p1 & E1 & E2 & E3 & E4); [done|lia|lia|done|].
  rewrite E1. destruct (IH p1 E2) as (pix' & F1 & F2 & F3 & F4). exists pix'. splits; [done|done|auto|].
  intros x y ch Hxy Hch. rewrite F4, E4 by done. rewrite Z2Nat.id by lia.
  replace ((minY r <=? y) && (y <? minY r + (maxY r - minY r)) && (minX r <=? x) && (x <? maxX r)) with (insideb r x y)
    by (unfold insideb; lia).
  destruct (insideb r x y); cbn [orb]; [|done]. by destruct (covered rects x y).
Qed.
End Refresh.

(** ** Publications *)

Record fbOk (d : framebuffer) : Prop := {
  o_w : 0 < width d;
  o_h : 0 < height d;
  o_frame : (frame d < length (buffers d))%nat;
  o_pix : (zlen (framePix d) = width d * height d * 4 /\ zlen (tileVersions d) = tilesFor (width d) * tilesFor (height d)) \/
          (framePix d = [] /\ tileVersions d = []);
  o_versions : forall i, 0 <= i < zlen (tileVersions d) -> zget (tileVersions d) i <= seq d;
  o_seq : 0 <= seq d
}.

(** The copy of a reader agrees with the frame in the tiles it is not told about. *)
Definition readerOk (d : framebuffer) (f : vncFrame) : Prop :=
  0 <= f_seq f <= seq d /\
  (f_width f = width d -> f_height f = height d -> zlen (f_pix f) = width d * height d * 4 ->
   zlen (tileVersions d) <> 0 ->
   forall x y ch, inFrame (width d) (height d) x y -> 0 <= ch < 4 ->
     zget (tileVersions d) (tileOf (width d) x y) <= f_seq f ->
     px 4 (width d) (f_pix f) x y ch = px 4 (width d) (framePix d) x y ch).

(** The slices that were handed out, with the pixels they had. *)
Definition handedOk (d : framebuffer) (l : list (nat * list Z)) : Prop :=
  Forall (fun '(i, pix) => (i < length (buffers d))%nat /\ nth i (buffers d) [] = pix /\
                           (i = frame d -> frameShared d = true)) l.

(** What the readers rely on: the frame only changes with its sequence number. *)
Definition carries (d d' : framebuffer) : Prop :=
  seq d <= seq d' <= seq d + 1 /\ (forall f, readerOk d f -> readerOk d' f) /\
  (seq d' = seq d -> width d' = width d /\ height d' = height d /\ framePix d' = framePix d).

(** What any publication preserves. *)
Definition keeps (d d' : framebuffer) : Prop :=
  fbOk d' /\ carries d d' /\ (forall l, handedOk d l -> handedOk d' l).

Lemma carries_refl d : carries d d.
Proof. unfold carries. splits; try done; lia. Qed.

Lemma fbKeeps_refl d : fbOk d -> keeps d d.
Proof. intros. unfold keeps. splits; try done. apply carries_refl. Qed.

(** Changes of the fields that do not concern the frame. *)
Definition sameFrame (d d' : framebuffer) : Prop :=
  width d' = width d /\ height d' = height d /\ buffers d' = buffers d /\ frame d' = frame d /\
  frameShared d' = frameShared d /\ tileVersions d' = tileVersions d /\ seq d' = seq d.

Lemma keeps_same d d1 d2 : keeps d d1 -> sameFrame d1 d2 -> keeps d d2.
Proof.
  intros (H1 & (H2 & H3 & H5) & H4) (E1 & E2 & E3 & E4 & E5 & E6 & E7).
  assert (Ep : framePix d2 = framePix d1) by (unfold framePix; by rewrite E3, E4). unfold keeps, carries. splits.
  - destruct H1. constructor; rewrite ?Ep, ?E1, ?E2, ?E3, ?E4, ?E6, ?E7; done.
  - lia.
  - lia.
  - intros f Hf. specialize (H3 f Hf). unfold readerOk in *. by rewrite Ep, E1, E2, E6, E7.
  - by rewrite Ep, E1, E2, E7.
  - intros l Hl. specialize (H4 l Hl). unfold handedOk in *. by rewrite E3, E4, E5.
Qed.

Lemma same_keeps d d1 d2 : fbOk d1 -> sameFrame d d1 -> keeps d1 d2 -> keeps d d2.
Proof.
  intros Hok (E1 & E2 & E3 & E4 & E5 & E6 & E7) (H1 & (H2 & H3 & H5) & H4).
  assert (Ep : framePix d1 = framePix d) by (unfold framePix; by rewrite E3, E4). unfold keeps, carries. splits; [done|lia|lia| | |].
  - intros f Hf. apply H3. unfold readerOk in *. by rewrite Ep, E1, E2, E6, E7.
  - by rewrite <- Ep, <- E1, <- E2, <- E7.
  - intros l Hl. apply H4. unfold handedOk in *. by rewrite E3, E4, E5.
Qed.

Lemma framePix_new pix d : framePix (newBuffer pix d) = pix.
Proof. unfold framePix, newBuffer. cbn. apply nth_middle. Qed.

Lemma framePix_write pix d : (frame d < length (buffers d))%nat -> framePix (writeBuffer pix d) = pix.
Proof.
  intros Hf. unfold framePix, writeBuffer. cbn. rewrite (nth_lookup (<[frame d:=pix]> (buffers d))).
  by rewrite list_lookup_insert_eq.
Qed.

Lemma mark_all d : 0 < width d -> 0 < height d ->
  exists d', markFrameDamageLocked None d = (Ok tt, d') /\
    d' = d <| tileVersions := replicate (Z.to_nat (tilesFor (width d) * tilesFor (height d))) (seq d) |>.
Proof.
  intros Hw Hh. pose proof (tilesFor_spec _ Hw). pose proof (tilesFor_spec _ Hh).
  unfold markFrameDamageLocked, gbind, gget, gupd, ret.
  assert (Hm : forall l, map (fun _ : Z => seq d) l = replicate (length l) (seq d)).
  { induction l as [|a l IH]; [done|]. cbn. by rewrite IH. }
  destruct (Z.eqb_spec (zlen (tileVersions d)) (tilesFor (width d) * tilesFor (height d))) as [E|E]; cbn [negb].
  - eexists. split; [done|]. destruct d. cbn in *. rewrite Hm. do 3 f_equal. unfold zlen in E. lia.
  - eexists. split; [done|]. destruct d. cbn in *. rewrite Hm. unfold zeros. rewrite length_replicate. done.
Qed.

Lemma mark_some d damage :
  0 < width d -> 0 < height d -> zlen (tileVersions d) = tilesFor (width d) * tilesFor (height d) ->
  exists tiles, markFrameDamageLocked (Some damage) d = (Ok tt, d <| tileVersions := tiles |>) /\
    raised (seq d) (tileVersions d) tiles /\
    forall x y, inFrame (width d) (height d) x y -> covered damage x y = true -> zget tiles (tileOf (width d) x y) = seq d.
Proof.
  intros Hw Hh Hl. unfold markFrameDamageLocked, gbind, gget, gupd, ret.
  rewrite (proj2 (Z.eqb_eq _ _) Hl). cbn [negb].
  destruct (markRects_spec (width d) (height d) (seq d) damage Hw Hh (tileVersions d) Hl) as (t & E1 & E2 & E3).
  rewrite E1. cbn. by exists t.
Qed.

(** What makes a new state a publication. *)
Lemma publish_keeps d d' :
  fbOk d -> 0 < width d' -> 0 < height d' -> seq d' = seq d + 1 -> (frame d' < length (buffers d'))%nat ->
  zlen (framePix d') = width d' * height d' * 4 -> zlen (tileVersions d') = tilesFor (width d') * tilesFor (height d') ->
  (forall i, 0 <= i < zlen (tileVersions d') -> zget (tileVersions d') i <= seq d') ->
  (forall x y, inFrame (width d') (height d') x y ->
     zget (tileVersions d') (tileOf (width d') x y) = seq d' \/
     (width d = width d' /\ height d = height d' /\ zlen (tileVersions d) <> 0 /\
      zget (tileVersions d') (tileOf (width d') x y) = zget (tileVersions d) (tileOf (width d') x y) /\
      forall ch, 0 <= ch < 4 -> px 4 (width d') (framePix d') x y ch = px 4 (width d') (framePix d) x y ch)) ->
  ((frame d' = frame d /\ frameShared d = false) \/ (length (buffers d) <= frame d')%nat) ->
  (forall i, (i < length (buffers d))%nat -> (i < length (buffers d'))%nat /\
     ((i = frame d /\ frameShared d = false) \/ nth i (buffers d') [] = nth i (buffers d) [])) ->
  keeps d d'.
Proof.
  intros Hok Hw Hh Hs Hf Hp Ht Hv Hpx Hfr Hb. unfold keeps, carries. pose proof (o_seq _ Hok). splits; [|lia|lia| |lia|].
  - constructor; try done; [by left|lia].
  - intros f [Hfs Hf']. split; [lia|]. intros Ew Eh El _ x y ch Hxy Hch Hle.
    destruct (Hpx x y Hxy) as [E|(E1 & E2 & E3 & E4 & E5)]; [lia|]. rewrite E5 by done. rewrite E4 in Hle.
    rewrite <- E1 in *. rewrite <- E2 in *. by apply Hf'.
  - intros l. unfold handedOk. apply Forall_impl. intros [i pix] (H1 & H2 & H3). destruct (Hb i H1) as [Hl Hn].
    assert (Hne : ~ (i = frame d /\ frameShared d = false)) by (intros [E1 E2]; rewrite H3 in E2; done).
    splits; [done|destruct Hn as [|Hn]; [done|by rewrite Hn]|]. intros E. destruct Hfr as [[E1 E2]|E1]; [|lia].
    exfalso. apply Hne. split; [congruence|done].
Qed.

(** The frame shows the upper left part of the image. *)
Definition shows (w h : Z) (img : RGBA) (d : framebuffer) : Prop :=
  width d = w /\ height d = h /\ zlen (framePix d) = w * h * 4 /\
  forall x y ch, inFrame w h x y -> 0 <= ch < 4 -> px 4 w (framePix d) x y ch = imgPx img x y ch.

(** The fields a publication does not concern. *)
Definition sameConsole (d d' : framebuffer) : Prop :=
  textConsole d' = textConsole d /\ textDirty d' = textDirty d /\ serialRunning d' = serialRunning d /\
  textDisabled d' = textDisabled d /\ legacyFallbackDisabled d' = legacyFallbackDisabled d /\
  serialMuted d' = serialMuted d /\ stopped d' = stopped d.

Lemma tiles_all w h v i :
  0 < w -> 0 < h -> 0 <= i < tilesFor w * tilesFor h -> zget (replicate (Z.to_nat (tilesFor w * tilesFor h)) v) i = v.
Proof.
  intros Hw Hh Hi. rewrite zget_lookup. unfold zlookup. destruct (i <? 0) eqn:?; zbool; [lia|].
  rewrite lookup_replicate_2 by lia. done.
Qed.

Lemma zlen_tiles w h (v : Z) : 0 < w -> 0 < h ->
  zlen (replicate (Z.to_nat (tilesFor w * tilesFor h)) v) = tilesFor w * tilesFor h.
Proof.
  intros Hw Hh. pose proof (tilesFor_spec w Hw). pose proof (tilesFor_spec h Hh). unfold zlen. rewrite length_replicate. nia.
Qed.

Lemma flush_publishes w h img d :
  fbOk d -> seq d + 1 < 2 ^ 64 -> usable w h img ->
  invalidImage w h (Some img) = false ->
  exists d', flush w h (Some img) d = (Ok tt, d') /\ keeps d d' /\ shows w h img d' /\ sameConsole d d'.
Proof.
  intros Hok Hs Hu Hi. pose proof Hu as [Hw Hh _ _ _]. pose proof (o_seq _ Hok). unfold flush.
  replace ((w <=? 0) || (h <=? 0)) with false by lia. rewrite Hi. unfold gbind.
  destruct (copyRows_spec 4 w 0 w (fun y => y * Stride img) (Pix img) ltac:(lia) ltac:(lia) ltac:(lia) ltac:(lia)
    (Z.to_nat h) 0 (zeros (w * 4 * h)) ltac:(lia)) as (pix & E1 & E2 & _ & E4).
  { intros y Hy. pose proof (usable_row w h img y 0 w Hu ltac:(lia) ltac:(lia) ltac:(lia)).
    rewrite zlen_zeros. assert ((y + 1) * w <= h * w) by nia. lia. }
  assert (Ec : copyRows (Z.to_nat h) 0 (fun y => y * (w * 4)) (fun y => y * Stride img) (w * 4) (zeros (w * 4 * h)) (Pix img) = Some pix).
  { rewrite <- E1. apply copyRows_ext. intros y. lia. }
  rewrite Ec. cbn [orPanic ret gupd].
  set (d1 := newBuffer pix _ <| frameShared := false |> <| seq := _ |>).
  destruct (mark_all d1) as (d2 & M1 & ->); [done|done|]. rewrite M1. eexists. split; [done|].
  assert (Hpix : zlen pix = w * h * 4) by (rewrite E2, zlen_zeros; nia).
  assert (Hseq : u64 (seq d + 1) = seq d + 1) by (apply u64_small; lia).
  assert (Ef : framePix (notify (d1 <| tileVersions := replicate (Z.to_nat (tilesFor (width d1) * tilesFor (height d1))) (seq d1) |>)) = pix).
  { unfold framePix. cbn. apply nth_middle. }
  splits.
  - pose proof (o_frame _ Hok). apply publish_keeps; rewrite ?Ef; cbn [notify set_field eta_framebuffer width height seq frame buffers tileVersions frameShared d1 newBuffer];
      try done.
    + rewrite length_app. cbn. lia.
    + by apply zlen_tiles.
    + intros i. rewrite zlen_tiles by done. intros Hi'. rewrite tiles_all by done. lia.
    + intros x y Hxy. left. apply tiles_all; [done|done|by apply tileOf_in].
    + by right.
    + intros i Hi'. split; [rewrite length_app; cbn; lia|right]. by rewrite app_nth1 by done.
  - unfold shows. rewrite Ef. splits; try done. intros x y ch [Hx Hy] Hch. rewrite E4 by lia.
    rewrite Z2Nat.id by lia. replace (_ && _) with true by lia. unfold imgPx. f_equal. lia.
  - by splits.
Qed.

(** The slice [flushDamage] writes into. *)
Definition target (w h : Z) (d : framebuffer) : framebuffer :=
  (if negb (zlen (framePix d) =? w * h * 4) then newBuffer (zeros (w * h * 4)) d
   else if frameShared d then newBuffer (framePix d) d else d)
  <| frameShared := false |> <| width := w |> <| height := h |>.

Lemma target_spec w h d :
  fbOk d -> 0 < w -> 0 < h ->
  let d1 := target w h d in
  width d1 = w /\ height d1 = h /\ seq d1 = seq d /\ tileVersions d1 = tileVersions d /\ sameConsole d d1 /\
  zlen (framePix d1) = w * h * 4 /\ (zlen (framePix d) = w * h * 4 -> framePix d1 = framePix d) /\
  (frame d1 < length (buffers d1))%nat /\
  ((frame d1 = frame d /\ frameShared d = false /\ buffers d1 = buffers d) \/
   (frame d1 = length (buffers d) /\ exists p, buffers d1 = buffers d ++ [p])).
Proof.
  intros Hok Hw Hh. pose proof (o_frame _ Hok). cbv zeta. unfold target.
  destruct (Z.eqb_spec (zlen (framePix d)) (w * h * 4)) as [E|E]; cbn [negb].
  - destruct (frameShared d) eqn:Es.
    + assert (Ef : framePix (newBuffer (framePix d) d <| frameShared := false |> <| width := w |> <| height := h |>) = framePix d)
        by (exact (framePix_new (framePix d) d)).
      rewrite Ef. splits; try done; [cbn; rewrite length_app; cbn; lia|]. right. split; [done|]. by eexists.
    + splits; try done. by left.
  - assert (Ef : framePix (newBuffer (zeros (w * h * 4)) d <| frameShared := false |> <| width := w |> <| height := h |>) = zeros (w * h * 4))
      by (exact (framePix_new (zeros (w * h * 4)) d)).
    rewrite Ef. splits; try done; [rewrite zlen_zeros; nia|cbn; rewrite length_app; cbn; lia|]. right. split; [done|]. by eexists.
Qed.

(** The pixels are written and the sequence number raised. *)
Lemma target_keeps w h d d1 pix tiles v n :
  fbOk d -> 0 < w -> 0 < h -> d1 = target w h d -> zlen pix = w * h * 4 ->
  v = seq d + 1 -> zlen tiles = tilesFor w * tilesFor h -> (forall i, 0 <= i < zlen tiles -> zget tiles i <= v) ->
  (forall x y, inFrame w h x y ->
     zget tiles (tileOf w x y) = v \/
     (width d = w /\ height d = h /\ zlen (tileVersions d) <> 0 /\
      zget tiles (tileOf w x y) = zget (tileVersions d) (tileOf w x y) /\
      forall ch, 0 <= ch < 4 -> px 4 w pix x y ch = px 4 w (framePix d) x y ch)) ->
  let d' := (writeBuffer pix d1) <| seq := v |> <| tileVersions := tiles |> <| notified := n |> in
  keeps d d' /\ framePix d' = pix.
Proof.
  intros Hok Hw Hh -> Hpix Hv Ht Hle Hpx. cbv zeta.
  destruct (target_spec w h d Hok Hw Hh) as (T1 & T2 & T3 & T4 & _ & _ & _ & T8 & T9).
  set (d' := writeBuffer pix (target w h d) <| seq := v |> <| tileVersions := tiles |> <| notified := n |>).
  assert (Ef : framePix d' = pix) by (exact (framePix_write pix (target w h d) T8)). split; [|done].
  assert (Eb : buffers d' = <[frame (target w h d) := pix]> (buffers (target w h d))) by done.
  apply publish_keeps; try done.
  - rewrite Eb. change (frame d') with (frame (target w h d)). by rewrite length_insert.
  - by rewrite Ef.
  - intros x y Hxy. destruct (Hpx x y Hxy) as [E|(E1 & E2 & E3 & E4 & E5)]; [by left|right]. splits; try done.
    intros ch Hch. rewrite Ef. by apply E5.
  - change (frame d') with (frame (target w h d)). destruct T9 as [(E1 & E2 & _)|(E1 & _)]; [left; by split|right; lia].
  - intros i Hi. rewrite Eb, length_insert. destruct T9 as [(E1 & E2 & E3)|(E1 & p & E3)]; rewrite E3, E1.
    + split; [done|]. destruct (decide (i = frame d)) as [->|]; [by left|right].
      by rewrite !nth_lookup, list_lookup_insert_ne by done.
    + split; [rewrite length_app; lia|right].
      rewrite !nth_lookup, list_lookup_insert_ne by lia. by rewrite lookup_app_l by lia.
Qed.

(** The pixels of the frame after [flushDamage]: those of the image in the damage,
    and everywhere when there is no frame of this size to keep. *)
Definition showsDamage (w h : Z) (img : RGBA) (damage : option (list Rectangle)) (d d' : framebuffer) : Prop :=
  width d' = w /\ height d' = h /\ zlen (framePix d') = w * h * 4 /\
  forall x y ch, inFrame w h x y -> 0 <= ch < 4 ->
    px 4 w (framePix d') x y ch =
    match damage with
    | Some rects =>
        if (width d =? w) && (height d =? h) && (zlen (framePix d) =? w * h * 4) && negb (covered rects x y)
        then px 4 w (framePix d) x y ch else imgPx img x y ch
    | None => imgPx img x y ch
    end.

Lemma covered_frame w h x y : 0 < w -> 0 < h -> inFrame w h x y -> covered [Rect 0 0 w h] x y = true.
Proof. intros Hw Hh Hxy. cbn [covered existsb]. apply (insideb_frame w h) in Hxy; [|done..]. by rewrite Hxy. Qed.

(** The last part of [flushDamage]: [rects] are copied, [marks] are marked. *)
Lemma damage_written w h img rects marks d d1 :
  fbOk d -> seq d + 1 < 2 ^ 64 -> usable w h img -> d1 = target w h d ->
  marks = None \/ (marks = Some rects /\ width d = w /\ height d = h /\ zlen (framePix d) = w * h * 4) ->
  (marks = None -> rects = [Rect 0 0 w h]) ->
  exists d', (let! pix := orPanic (copyRects rects (Rect 0 0 w h) w img (framePix d1)) in
              do! gupd (fun d => writeBuffer pix d <| seq := u64 (seq d + 1) |>) in
              do! markFrameDamageLocked marks in
              gupd notify) d1 = (Ok tt, d') /\
    keeps d d' /\ sameConsole d d' /\ width d' = w /\ height d' = h /\ zlen (framePix d') = w * h * 4 /\ seq d' = seq d + 1 /\
    forall x y ch, inFrame w h x y -> 0 <= ch < 4 ->
      px 4 w (framePix d') x y ch =
      match marks with Some _ => if covered rects x y then imgPx img x y ch else px 4 w (framePix d) x y ch | None => imgPx img x y ch end.
Proof.
  intros Hok Hs Hu Hd1 Hmarks Hnone. pose proof Hu as [Hw Hh _ _ _]. pose proof (o_seq _ Hok).
  destruct (target_spec w h d Hok Hw Hh) as (T1 & T2 & T3 & T4 & T5 & T6 & T7 & _). rewrite <- Hd1 in *.
  destruct (copyRects_spec w h img Hu rects (framePix d1) T6) as (pix & C1 & C2 & _ & C4).
  unfold gbind, gupd. rewrite C1. cbn [orPanic ret].
  set (d2 := writeBuffer pix d1 <| seq := u64 (seq d1 + 1) |>).
  assert (Hseq : u64 (seq d1 + 1) = seq d + 1) by (rewrite T3; apply u64_small; lia).
  assert (W2 : width d2 = w) by done. assert (H2 : height d2 = h) by done.
  destruct Hmarks as [->|(-> & Ew & Eh & El)].
  - destruct (mark_all d2) as (d3 & M1 & ->); [by rewrite W2|by rewrite H2|]. rewrite M1. eexists. split; [done|].
    rewrite W2, H2. change (seq d2) with (u64 (seq d1 + 1)). rewrite Hseq.
    destruct (target_keeps w h d d1 pix (replicate (Z.to_nat (tilesFor w * tilesFor h)) (seq d + 1)) (seq d + 1) (notified d1 + 1)
      Hok Hw Hh Hd1 C2 eq_refl) as [K1 K2].
    + by apply zlen_tiles.
    + intros i. rewrite zlen_tiles by done. intros Hi. rewrite tiles_all by done. lia.
    + intros x y Hxy. left. apply tiles_all; [done|done|by apply tileOf_in].
    + unfold d2. rewrite Hseq.
      change (notify (writeBuffer pix d1 <| seq := seq d + 1 |> <| tileVersions := replicate (Z.to_nat (tilesFor w * tilesFor h)) (seq d + 1) |>))
        with (writeBuffer pix d1 <| seq := seq d + 1 |> <| tileVersions := replicate (Z.to_nat (tilesFor w * tilesFor h)) (seq d + 1) |> <| notified := notified d1 + 1 |>).
      rewrite K2. splits; try done. intros x y ch Hxy Hch. rewrite C4, Hnone, covered_frame by done. done.
  - assert (Hl : zlen (tileVersions d2) = tilesFor (width d2) * tilesFor (height d2)).
    { change (tileVersions d2) with (tileVersions d1). rewrite T4, W2, H2.
      destruct (o_pix _ Hok) as [[_ E]|[E _]]; [by rewrite Ew, Eh in E|]. rewrite E in El. change (zlen []) with 0 in El. nia. }
    destruct (mark_some d2 rects) as (t & M1 & M2 & M3); [by rewrite W2|by rewrite H2|done|]. rewrite M1. eexists. split; [done|].
    change (seq d2) with (u64 (seq d1 + 1)) in *. rewrite Hseq in *. rewrite W2, H2 in *. change (tileVersions d2) with (tileVersions d1) in *.
    rewrite T4 in *. destruct M2 as [L2 M2].
    destruct (target_keeps w h d d1 pix t (seq d + 1) (notified d1 + 1) Hok Hw Hh Hd1 C2 eq_refl) as [K1 K2].
    + lia.
    + intros i Hi. rewrite L2 in Hi. destruct (M2 i Hi) as [->| ->]; [lia|]. pose proof (o_versions _ Hok i Hi). lia.
    + intros x y Hxy. destruct (covered rects x y) eqn:Ec; [left; by apply M3|].
      pose proof (tileOf_in w h x y Hxy). destruct (M2 (tileOf w x y)) as [E|E]; [lia|by left|right].
      splits; try done; [lia|]. intros ch Hch. rewrite C4, Ec, T7 by done. done.
    + unfold d2. rewrite Hseq.
      change (notify (writeBuffer pix d1 <| seq := seq d + 1 |> <| tileVersions := t |>))
        with (writeBuffer pix d1 <| seq := seq d + 1 |> <| tileVersions := t |> <| notified := notified d1 + 1 |>).
      rewrite K2. splits; try done. intros x y ch Hxy Hch. rewrite C4, T7 by done. done.
Qed.

(** Nothing to publish. *)
Definition noDamage (w h : Z) (damage : option (list Rectangle)) : Prop :=
  w <= 0 \/ h <= 0 \/ exists rects, damage = Some rects /\ forall x y, inFrame w h x y -> covered rects x y = false.

Lemma covered_none w h rects : 0 < w -> 0 < h ->
  existsb (fun rect => negb (Empty (Intersect rect (Rect 0 0 w h)))) rects = false ->
  forall x y, inFrame w h x y -> covered rects x y = false.
Proof.
  intros Hw Hh He x y Hxy. unfold covered. induction rects as [|r rects IH]; [done|]. cbn [existsb] in *.
  apply orb_false_iff in He as [He1 He2]. rewrite IH by done. rewrite orb_false_r. apply negb_false_iff in He1.
  apply not_true_is_false. intros Hin. apply (insideb_frame w h) in Hxy; [|done..].
  assert (Hi : insideb (Intersect r (Rect 0 0 w h)) x y = true) by (by rewrite insideb_Intersect, Hin, Hxy).
  destruct (insideb_spec (Intersect r (Rect 0 0 w h)) x y) as [[? ?]|]; [|done].
  unfold Empty in He1. apply orb_true_iff in He1. rewrite !Z.leb_le in He1. lia.
Qed.

(** The frame itself always meets its bounds. *)
Lemma frame_damaged w h : 0 < w -> 0 < h ->
  existsb (fun rect => negb (Empty (Intersect rect (Rect 0 0 w h)))) [Rect 0 0 w h] = true.
Proof.
  intros Hw Hh. apply not_false_is_true. intros E.
  pose proof (covered_none w h _ Hw Hh E 0 0 ltac:(unfold inFrame; lia)) as H. rewrite covered_frame in H; [done..|].
  unfold inFrame. lia.
Qed.

Lemma fbFlushDamage_spec w h img damage d :
  fbOk d -> seq d + 1 < 2 ^ 64 ->
  exists r d', flushDamage w h img damage d = (r, d') /\ keeps d d' /\ sameConsole d d' /\
    match r with
    | Ok _ => (d' = d /\ noDamage w h damage) \/
              exists im, img = Some im /\ seq d' = seq d + 1 /\ showsDamage w h im damage d d'
    | Err e => e = errInvalidFramebuffer /\ d' = d
    | _ => False
    end.
Proof.
  intros Hok Hs. unfold flushDamage.
  destruct ((w <=? 0) || (h <=? 0)) eqn:E0.
  { exists (Ok tt), d. splits; try done; [by apply fbKeeps_refl|]. left. split; [done|]. unfold noDamage. lia. }
  assert (Hw : 0 < w) by lia. assert (Hh : 0 < h) by lia.
  destruct (invalidImage w h img) eqn:Ei; [exists (Err errInvalidFramebuffer), d; splits; try done; by apply fbKeeps_refl|].
  destruct img as [im|]; [|done]. pose proof (invalidImage_usable w h im Hw Hh Ei) as Hu.
  unfold gbind at 1. unfold gget at 1. cbv zeta.
  set (full := match damage with None => true | Some _ => false end || negb (width d =? w) || negb (height d =? h) ||
                 negb (zlen (framePix d) =? w * h * 4)).
  destruct (negb (existsb _ _)) eqn:Ed.
  { exists (Ok tt), d. splits; try done; [by apply fbKeeps_refl|]. left. split; [done|]. right. right.
    apply negb_true_iff in Ed. destruct full eqn:Ef; [by rewrite frame_damaged in Ed|].
    destruct damage as [rects|]; [|done]. exists rects. split; [done|]. by apply covered_none. }
  unfold gbind at 1. unfold gupd at 1. unfold gbind at 1. unfold gget at 1. fold (target w h d).
  destruct (damage_written w h im (if full then [Rect 0 0 w h] else default [] damage) (if full then None else damage) d (target w h d)
    Hok Hs Hu eq_refl) as (d' & W1 & W2 & W3 & W4 & W5 & W6 & W7 & W8).
  - destruct full eqn:Ef; [by left|]. unfold full in Ef. destruct damage as [rects|]; [|done]. right. cbn [orb] in Ef.
    splits; try done; lia.
  - by destruct full, damage.
  - exists (Ok tt), d'. splits; try done. right. exists im. unfold showsDamage. splits; try done.
    intros x y ch Hxy Hch. rewrite W8 by done.
    unfold full. destruct damage as [rects|]; [|done]. cbn [orb default].
    destruct (width d =? w), (height d =? h), (zlen (framePix d) =? w * h * 4); cbn [orb negb andb default]; try done.
    unfold id. by destruct (covered rects x y).
Qed.

Lemma flush_spec w h img d :
  fbOk d -> seq d + 1 < 2 ^ 64 ->
  exists r d', flush w h img d = (r, d') /\ keeps d d' /\ sameConsole d d' /\
    match r with
    | Ok _ => (d' = d /\ (w <= 0 \/ h <= 0)) \/ exists im, img = Some im /\ shows w h im d'
    | Err e => e = errInvalidFramebuffer /\ d' = d
    | _ => False
    end.
Proof.
  intros Hok Hs. destruct ((w <=? 0) || (h <=? 0)) eqn:E0.
  { exists (Ok tt), d. unfold flush. rewrite E0. splits; try done; [by apply fbKeeps_refl|]. left. split; [done|lia]. }
  destruct (invalidImage w h img) eqn:Ei.
  { exists (Err errInvalidFramebuffer), d. unfold flush. rewrite E0, Ei. splits; try done. by apply fbKeeps_refl. }
  destruct img as [im|]; [|done].
  destruct (flush_publishes w h im d Hok Hs) as (d' & F1 & F2 & F3 & F4); [apply invalidImage_usable; [lia|lia|done]|done|].
  exists (Ok tt), d'. splits; try done. right. by exists im.
Qed.

(** ** Readers *)

(** What a reader sees when it refreshes its copy. *)
Record refreshed (d : framebuffer) (f f' : vncFrame) (rects : list Rectangle) : Prop := {
  rf_width : f_width f' = width d;
  rf_height : f_height f' = height d;
  rf_seq : f_seq f' = seq d;
  rf_len : zlen (f_pix f') = width d * height d * 4;
  rf_pix : forall x y ch, inFrame (width d) (height d) x y -> 0 <= ch < 4 ->
    px 4 (width d) (f_pix f') x y ch = px 4 (width d) (framePix d) x y ch;
  rf_rects : Forall (proper (width d) (height d)) rects /\ zlen rects <= 128;
  rf_told : f_width f = width d -> f_height f = height d -> zlen (f_pix f) = width d * height d * 4 ->
    forall x y ch, inFrame (width d) (height d) x y -> 0 <= ch < 4 -> covered rects x y = false ->
    px 4 (width d) (f_pix f') x y ch = px 4 (width d) (f_pix f) x y ch
}.

Lemma copyFrameChanges_spec d f force :
  fbOk d -> readerOk d f ->
  exists f' rects, copyFrameChanges f force d = (Ok (f', rects), d) /\ refreshed d f f' rects /\ readerOk d f' /\
    (force = true -> forall x y, inFrame (width d) (height d) x y -> covered rects x y = true).
Proof.
  intros Hok Hr. pose proof (o_w _ Hok) as Hw. pose proof (o_h _ Hok) as Hh.
  unfold copyFrameChanges, gbind at 1, gget at 1. cbv zeta.
  set (full := force || negb (f_width f =? width d) || negb (f_height f =? height d) ||
                 negb (zlen (f_pix f) =? width d * height d * 4)).
  set (pix0 := if zlen (f_pix f) =? width d * height d * 4 then f_pix f else zeros (width d * height d * 4)).
  assert (H0 : zlen pix0 = width d * height d * 4) by (unfold pix0; destruct (Z.eqb_spec (zlen (f_pix f)) (width d * height d * 4)); [done|rewrite zlen_zeros; nia]).
  assert (Hsrc : zlen (framePix d) = width d * height d * 4 \/ framePix d = []) by (destruct (o_pix _ Hok) as [[? _]|[? _]]; auto).
  assert (Hfr : proper (width d) (height d) (Rect 0 0 (width d) (height d))).
  { rewrite Rect_frame by done. unfold proper. cbn. lia. }
  assert (Hrects : exists rects, (if full || (zlen (tileVersions d) =? 0) then ret [Rect 0 0 (width d) (height d)]
      else changedTileRectsLocked (f_seq f)) d = (Ok rects, d) /\ Forall (proper (width d) (height d)) rects /\ zlen rects <= 128 /\
      (rects = [Rect 0 0 (width d) (height d)] \/
       (full || (zlen (tileVersions d) =? 0) = false /\ forall x y, inFrame (width d) (height d) x y ->
          covered rects x y = newer d (f_seq f) x y))).
  { destruct (full || (zlen (tileVersions d) =? 0)) eqn:Ef.
    - eexists. split; [done|]. splits; [by constructor|done|by left].
    - apply orb_false_iff in Ef as [_ Ef]. apply Z.eqb_neq in Ef.
      assert (Ht : zlen (tileVersions d) = tilesFor (width d) * tilesFor (height d)).
      { destruct (o_pix _ Hok) as [[_ ?]|[_ E]]; [done|]. by rewrite E in Ef. }
      destruct (changedTileRects_spec d (f_seq f) Hw Hh Ht) as (rects & E1 & E2 & E3 & E4). exists rects. splits; try done.
      destruct E4 as [E4| ->]; [right; by split|by left]. }
  destruct Hrects as (rects & R1 & R2 & R3 & R4). unfold gbind. rewrite R1.
  destruct (refreshRects_spec (width d) (height d) (framePix d) Hw Hh Hsrc rects R2 pix0 H0) as (pix & P1 & P2 & _ & P4).
  rewrite P1. cbn [orPanic ret]. do 2 eexists. split; [done|].
  assert (Hall : forall x y ch, inFrame (width d) (height d) x y -> 0 <= ch < 4 ->
    px 4 (width d) pix x y ch = px 4 (width d) (framePix d) x y ch).
  { intros x y ch Hxy Hch. rewrite P4 by done. destruct R4 as [->|[Ef R4]]; [by rewrite covered_frame|]. rewrite R4 by done.
    destruct (newer d (f_seq f) x y) eqn:En; [done|]. unfold newer in En. apply Z.ltb_ge in En.
    unfold full in Ef. repeat (apply orb_false_iff in Ef as [Ef ?]). zbool. unfold pix0.
    rewrite (proj2 (Z.eqb_eq _ _)) by lia. by apply Hr. }
  splits.
  - constructor; try done. cbn [f_pix]. intros Ew Eh El x y ch Hxy Hch Hc. rewrite P4, Hc by done. unfold pix0.
    by rewrite El, Z.eqb_refl.
  - destruct Hr as [? _]. split; [cbn; lia|]. cbn [f_pix]. intros _ _ _ _ x y ch Hxy Hch _. by apply Hall.
  - intros ->. destruct R4 as [->|[Ef _]]; [intros x y Hxy; by apply covered_frame|done].
Qed.
