(* ===== verification/FramebufferConsole.v ===== *)
(** * The consoles of the framebuffer

    The console for serial output stays within its grid whatever the guest sends,
    and every sequence of publications, console output, resets and readers keeps
    the promises of the framebuffer. *)

From S2P Require Import Prelude Bytes GpuImage Framebuffer FramebufferSpec.

(** ** The grid *)

Record consoleOk (c : vncTextConsole) : Prop := {
  co_cols : cols c = 100;
  co_rows : rows c = 40;
  co_cells : zlen (cells c) = 40 /\ Forall (fun line => zlen line = 100) (cells c);
  co_row : 0 <= row c < 40;
  co_col : 0 <= col c <= 100
}.

#[local] Abbreviation good := (fun (_ : unit) => consoleOk).
#[local] Abbreviation never := (fun (_ : error) (_ : vncTextConsole) => False).

Lemma zlen_blankRow n : 0 <= n -> zlen (blankRow n) = n.
Proof. intros. unfold blankRow, zlen. rewrite length_replicate. lia. Qed.

Lemma newConsole_ok : consoleOk newVNCTextConsole.
Proof. constructor; try done. split; [done|]. by apply Forall_replicate. Qed.

Lemma zlookup_ex {A} (l : list A) i : 0 <= i < zlen l -> exists x, zlookup l i = Some x.
Proof.
  intros Hi. unfold zlookup. destruct (i <? 0) eqn:E; zbool; [lia|]. apply lookup_lt_is_Some_2. unfold zlen in Hi. lia.
Qed.

Lemma zlen_zinsert {A} (l : list A) i x : zlen (zinsert i x l) = zlen l.
Proof. unfold zinsert, zlen. destruct (i <? 0); [done|]. by rewrite length_insert. Qed.

Lemma Forall_zinsert_line {A} (P : A -> Prop) (l : list A) i x : Forall P l -> P x -> Forall P (zinsert i x l).
Proof. intros. unfold zinsert. destruct (i <? 0); [done|]. by apply Forall_insert. Qed.

Lemma setCell_ok y x r c : consoleOk c -> 0 <= y < 40 -> 0 <= x < 100 ->
  wp (setCell y x r) c (fun _ c' => consoleOk c' /\ row c' = row c /\ col c' = col c) never.
Proof.
  intros Hc Hy Hx. destruct Hc as [H1 H2 [H3 H4] H5 H6]. unfold setCell. wsteps.
  destruct (zlookup_ex (cells c) y ltac:(lia)) as [line El]. apply (wp_gindex _ _ line); [done|].
  pose proof (Forall_zlookup _ _ _ _ H4 El) as Hl. cbv beta in Hl. apply wp_bind.
  destruct (zlookup_ex line x ltac:(lia)) as [v Ev]. apply (wp_gindex _ _ v); [done|]. wsteps. split; [|done].
  constructor; cbn; try done. rewrite zlen_zinsert. split; [done|]. apply Forall_zinsert_line; [done|]. by rewrite zlen_zinsert.
Qed.

Lemma newline_ok c : consoleOk c -> wp newline c (fun _ c' => consoleOk c' /\ col c' = 0) never.
Proof.
  intros [H1 H2 [H3 H4] H5 H6]. unfold newline. wsteps. cbn [row rows set_field].
  destruct (Z.ltb_spec (row c + 1) (rows c)) as [Hlt|Hge]; wsteps.
  - split; [|done]. constructor; cbn; try done; lia.
  - destruct (zlookup_ex (cells c) (rows c - 1) ltac:(lia)) as [line El].
    apply (wp_gindex _ _ line); [done|]. wsteps. split; [|done]. constructor; cbn; try done; [|lia].
    rewrite H1, H2. split.
    + rewrite zlen_zinsert. unfold zlen in *. rewrite length_app, !length_drop. lia.
    + apply Forall_zinsert_line; [|done]. apply Forall_app. split; by apply Forall_drop.
Qed.

(** The column after a character. *)
Definition nextCol (x : Z) : Z := if 100 <=? x then 1 else x + 1.

Lemma putRune_ok r c : consoleOk c -> wp (putRune r) c (fun _ c' => consoleOk c' /\ col c' = nextCol (col c)) never.
Proof.
  intros Hc. unfold putRune. apply wp_bind. wstep. rewrite (co_cols _ Hc).
  assert (H : wp (if 100 <=? col c then newline else ret tt) c
    (fun _ c' => consoleOk c' /\ col c' = (if 100 <=? col c then 0 else col c)) never).
  { destruct (100 <=? col c); [by apply newline_ok|by wsteps]. }
  apply wp_bind. wcall H; [|done]. intros _ c1 [Hc1 E1]. cbv beta in *. wsteps. pose proof (co_col _ Hc). pose proof (co_row _ Hc1).
  wcall (setCell_ok (row c1) (col c1) r c1 Hc1); [done|destruct (Z.leb_spec 100 (col c)); lia| |done].
  intros _ c2 (Hc2 & E2 & E3). cbv beta in *. wsteps. destruct Hc2 as [? ? ? ? ?]. unfold nextCol. cbn.
  destruct (Z.leb_spec 100 (col c)); (split; [constructor; cbn; try done; lia|cbn; lia]).
Qed.

(** How many blanks a tab still needs. *)
Definition tabNeed (x : Z) : Z := if x <? 96 then 8 - x mod 8 else 108 - x.

Lemma tabLoop_ok fuel : forall c, consoleOk c -> tabNeed (col c) <= Z.of_nat fuel -> wp (tabLoop fuel) c good never.
Proof.
  induction fuel as [|fuel IH]; intros c Hc Hf; pose proof (co_col _ Hc).
  { exfalso. unfold tabNeed in Hf. pose proof (Z.mod_pos_bound (col c) 8). destruct (Z.ltb_spec (col c) 96); lia. }
  cbn [tabLoop]. apply wp_bind. wcall (putRune_ok 32 c Hc); [|done]. intros _ c1 [Hc1 E1]. cbv beta in *. wsteps.
  destruct (Z.eqb_spec (col c1 mod 8) 0) as [Em|Em]; [by wsteps|]. apply IH; [done|].
  rewrite E1 in *. unfold nextCol, tabNeed in *. pose proof (Z.div_mod (col c) 8). pose proof (Z.mod_pos_bound (col c) 8).
  pose proof (Z.div_mod (col c + 1) 8). pose proof (Z.mod_pos_bound (col c + 1) 8).
  revert Em Hf. destruct (Z.leb_spec 100 (col c)).
  - replace (col c) with 100 by lia. change (1 <? 96) with true. change (100 <? 96) with false. change (1 mod 8) with 1. lia.
  - destruct (Z.ltb_spec (col c + 1) 96), (Z.ltb_spec (col c) 96); lia.
Qed.

Lemma eraseFromCol_ok n : forall x c, consoleOk c -> 0 <= x -> x + Z.of_nat n <= 100 -> wp (eraseFromCol n x) c good never.
Proof.
  induction n as [|n IH]; intros x c Hc Hx Hn; [by wsteps|]. cbn [eraseFromCol]. wsteps.
  wcall (setCell_ok (row c) x 32 c Hc); [by apply co_row|lia| |done]. intros _ c1 (Hc1 & _). cbv beta. apply IH; [done|lia|lia].
Qed.

Lemma handleCSI_ok params final c : consoleOk c -> wp (handleCSI params final) c good never.
Proof.
  intros Hc. pose proof Hc as [H1 H2 [H3 H4] H5 H6]. unfold handleCSI.
  destruct ((final =? 72) || (final =? 102)); [wsteps; constructor; cbn; try done; lia|].
  destruct (final =? 74).
  { destruct ((zlen params =? 0) || bool_decide (params = [50])); wsteps; [|done].
    constructor; cbn; try done. split; [unfold zlen in *; by rewrite length_map|].
    apply Forall_map. revert H4. apply Forall_impl. intros line Hl. cbn. by rewrite zlen_blankRow, Hl by lia. }
  destruct (final =? 75); wsteps; [|done]. apply eraseFromCol_ok; [done|lia|lia].
Qed.

Lemma console_escape c e : consoleOk c -> consoleOk (c <| escape := e |>).
Proof. intros []. by constructor. Qed.

Lemma putByte_ok b c : consoleOk c -> wp (putByte b) c good never.
Proof.
  intros Hc. pose proof Hc as [H1 H2 H3 H5 H6]. unfold putByte. wsteps. destruct (0 <? zlen (escape c)).
  { unfold putEscapeByte. wsteps. pose proof (console_escape c (escape c ++ [b]) Hc) as Hc1.
    set (c1 := c <| escape := escape c ++ [b] |>) in *.
    destruct ((zlen (escape c1) =? 2) && negb (b =? 91)); [wsteps; by apply console_escape|].
    destruct (zlen (escape c1) <? 3); [by wsteps|]. destruct ((b <? 0x40) || (0x7e <? b)); [by wsteps|].
    apply wp_bind. wcall (handleCSI_ok (zslice (escape c1) 2 (zlen (escape c1) - 3)) b c1 Hc1); [|done].
    intros [] c2 Hc2. cbv beta in *. wsteps. by apply console_escape. }
  destruct (b =? 27); [wsteps; by apply console_escape|].
  destruct (b =? 13); [wsteps; constructor; cbn; try done; lia|].
  destruct (b =? 10); [wcall (newline_ok c Hc); [by intros _ c1 [? _]|done]|].
  destruct (b =? 8). { destruct (Z.ltb_spec 0 (col c)); wsteps; [constructor; cbn; try done; lia|done]. }
  destruct (b =? 9).
  { apply tabLoop_ok; [done|]. unfold tabNeed. pose proof (Z.mod_pos_bound (col c) 8). destruct (Z.ltb_spec (col c) 96); lia. }
  destruct ((32 <=? b) && (b <? 127)); [|by wsteps]. wcall (putRune_ok b c Hc); [by intros _ c1 [? _]|done].
Qed.

(** The console stays within its grid, whatever is written to it. *)
Lemma consoleWrite_ok p : forall c, consoleOk c -> wp (consoleWrite p) c good never.
Proof.
  induction p as [|b p IH]; intros c Hc; [by wsteps|]. cbn [consoleWrite]. apply wp_bind.
  wcall (putByte_ok b c Hc); [|done]. intros [] c1 Hc1. by apply IH.
Qed.

(** ** All callers together *)

Section System.
Context (renderConsole : vncTextConsole -> RGBA).

(** What is done with the framebuffer: publications of the graphics device and of
    the VNC and RDP displays, serial output and its worker, a fallback for a linear
    framebuffer or VGA text, reset, shutdown; a new reader, a refresh of reader
    [i], and a slice handed out. *)
Inductive fbOp :=
| OFlush (w h : Z) (img : option RGBA)
| OFlushDamage (w h : Z) (img : option RGBA) (rects : option (list Rectangle))
| OSerial (p : list Z)
| ORenderSerial
| OFallback (mem : list Z) (isBlank : list Z -> bool) (render : list Z -> RGBA) (b : fallback)
| OReset
| OShutdown
| OJoin
| ORefresh (i : nat) (force : bool)
| OHandOut (sequence : Z) (force : bool).

Record sys := mkSys { fb : framebuffer; readers : list vncFrame; handed : list (nat * list Z) }.

Definition newSys : sys := mkSys newFramebuffer [] [].

(** The framebuffer changes; a panic or a loop without end is [None]. *)
Definition step_fb {A} (m : F A) (s : sys) : option (option A * sys) :=
  match m (fb s) with
  | (Ok a, d) => Some (Some a, mkSys d (readers s) (handed s))
  | (Err _, d) => Some (None, mkSys d (readers s) (handed s))
  | (Panic, _) | (OutOfFuel, _) => None
  end.

Definition ignore {A} (r : option (option A * sys)) : option sys := option_map snd r.

Definition fbStep (o : fbOp) (s : sys) : option sys :=
  match o with
  | OFlush w h img => ignore (step_fb (Flush w h img) s)
  | OFlushDamage w h img rects => ignore (step_fb (FlushDamage w h img rects) s)
  | OSerial p => ignore (step_fb (writeSerial renderConsole p) s)
  | ORenderSerial => ignore (step_fb (renderSerialFrames renderConsole) s)
  | OFallback mem isBlank render b => ignore (step_fb (refreshFallback mem isBlank render b) s)
  | OReset => Some (mkSys (GraphicsReset (fb s)) (readers s) (handed s))
  | OShutdown => Some (mkSys (shutdown (fb s)) (readers s) (handed s))
  | OJoin => Some (mkSys (fb s) (readers s ++ [mkFrame 0 0 [] 0]) (handed s))
  | ORefresh i force =>
      match readers s !! i with
      | None => Some s
      | Some f =>
          match step_fb (copyFrameChanges f force) s with
          | Some (Some (f, _), s) => Some (mkSys (fb s) (<[i := f]> (readers s)) (handed s))
          | Some (None, s) => Some s
          | None => None
          end
      end
  | OHandOut sequence force =>
      match step_fb (changedFrame sequence force) s with
      | Some (Some (Some (_, _, i, _)), s) => Some (mkSys (fb s) (readers s) ((i, nth i (buffers (fb s)) []) :: handed s))
      | Some (_, s) => Some s
      | None => None
      end
  end.

Fixpoint fbRun (l : list fbOp) (s : sys) : option sys :=
  match l with
  | [] => Some s
  | o :: l => match fbStep o s with Some s => fbRun l s | None => None end
  end.

(** The invariant. *)
Record sysOk (s : sys) : Prop := {
  so_fb : fbOk (fb s);
  so_readers : Forall (readerOk (fb s)) (readers s);
  so_handed : handedOk (fb s) (handed s);
  so_console : match textConsole (fb s) with Some c => consoleOk c | None => textDirty (fb s) = false end
}.

Definition consoleFine (d : framebuffer) : Prop :=
  match textConsole d with Some c => consoleOk c | None => textDirty d = false end.

Definition fine (d d' : framebuffer) : Prop := keeps d d' /\ consoleFine d'.

Lemma fine_sys s d : sysOk s -> fine (fb s) d -> sysOk (mkSys d (readers s) (handed s)) /\ carries (fb s) d.
Proof.
  intros [H1 H2 H3 H4] [(K1 & K2 & K4) K5]. split; [|done]. constructor; try done; [|by apply K4].
  revert H2. apply Forall_impl, K2.
Qed.

Lemma step_fine {A} (m : F A) s :
  sysOk s -> wp m (fb s) (fun _ d => fine (fb s) d) (fun _ d => fine (fb s) d) ->
  exists a s', step_fb m s = Some (a, s') /\ sysOk s' /\ carries (fb s) (fb s') /\ readers s' = readers s /\ handed s' = handed s.
Proof.
  intros Hs. unfold wp, step_fb. destruct (m (fb s)) as [[a|e| |] d]; try done; intros Hf;
    destruct (fine_sys s d Hs Hf); do 2 eexists; by split.
Qed.

Lemma consoleFine_same d d' : consoleFine d -> sameConsole d d' -> consoleFine d'.
Proof. intros H (E1 & E2 & _). unfold consoleFine in *. by rewrite E1, E2. Qed.

Lemma flushImage_wp img d :
  fbOk d -> seq d + 1 < 2 ^ 64 -> consoleFine d ->
  wp (flushImage img) d (fun _ d' => fine d d' /\ sameConsole d d') (fun _ d' => fine d d' /\ sameConsole d d').
Proof.
  intros Hok Hs Hc. unfold flushImage. destruct (flush_spec (Dx (Bounds img)) (Dy (Bounds img)) (Some img) d Hok Hs)
    as (r & d' & E & K1 & K2 & K3). unfold wp. rewrite E.
  assert (fine d d' /\ sameConsole d d') by (split; [split; [done|by eapply consoleFine_same]|done]). by destruct r.
Qed.

Lemma fine_same d d1 d2 : fine d d1 -> sameFrame d1 d2 -> consoleFine d2 -> fine d d2.
Proof. intros [K _] Hs Hc. split; [by eapply keeps_same|done]. Qed.

Lemma fine_refl d : fbOk d -> consoleFine d -> fine d d.
Proof. intros. split; [by apply fbKeeps_refl|done]. Qed.

Lemma fine_pre d d1 d2 : fbOk d -> sameFrame d d1 -> fine d1 d2 -> fine d d2.
Proof.
  intros Hok Hs [K Hc]. split; [|done]. apply (same_keeps d d1); [|done|done]. by eapply keeps_same; [apply fbKeeps_refl|].
Qed.

Lemma sameFrame_ok d d1 : fbOk d -> sameFrame d d1 -> fbOk d1.
Proof. intros Hok Hs. by eapply keeps_same; [apply fbKeeps_refl|]. Qed.

Lemma Flush_fine w h img d : fbOk d -> seq d + 1 < 2 ^ 64 -> consoleFine d ->
  wp (Flush w h img) d (fun _ d' => fine d d') (fun _ d' => fine d d').
Proof.
  intros Hok Hs Hc. unfold Flush. wsteps. destruct (stopped d); [wsteps; by apply fine_refl|].
  destruct (flush_spec w h img d Hok Hs) as (r & d' & E & K1 & K2 & K3). apply wp_bind. unfold wp at 1. rewrite E.
  assert (Hf : fine d d') by (split; [done|by eapply consoleFine_same]).
  destruct r; try done. destruct (_ && _); wsteps; [|done]. eapply fine_same; [done|done|]. exact (proj2 Hf).
Qed.

Lemma FlushDamage_fine w h img rects d : fbOk d -> seq d + 1 < 2 ^ 64 -> consoleFine d ->
  wp (FlushDamage w h img rects) d (fun _ d' => fine d d') (fun _ d' => fine d d').
Proof.
  intros Hok Hs Hc. unfold FlushDamage. wsteps. destruct (stopped d); [wsteps; by apply fine_refl|]. cbv zeta.
  destruct (match rects with None => false | Some _ => _ end); [wsteps; by apply fine_refl|].
  destruct (fbFlushDamage_spec w h img (match rects with None => None | Some rs => if negb (textDisabled d) then None else Some rs end)
    d Hok Hs) as (r & d' & E & K1 & K2 & K3). apply wp_bind. unfold wp at 1. rewrite E.
  assert (Hf : fine d d') by (split; [done|by eapply consoleFine_same]).
  destruct r; try done. wsteps. destruct (negb (seq d' =? seq d)); wsteps; [|done]. eapply fine_same; [done|done|]. exact (proj2 Hf).
Qed.

Lemma writeSerial_fine p d : fbOk d -> seq d + 1 < 2 ^ 64 -> consoleFine d ->
  wp (writeSerial renderConsole p) d (fun _ d' => fine d d') (fun _ d' => fine d d').
Proof.
  intros Hok Hs Hc. unfold writeSerial. wsteps. destruct (_ || _); [wsteps; by apply fine_refl|]. cbv zeta.
  assert (Hcon : consoleOk (default newVNCTextConsole (textConsole d))).
  { unfold consoleFine in Hc. destruct (textConsole d); [done|apply newConsole_ok]. }
  apply wp_bind. unfold wp at 1, onConsole. pose proof (consoleWrite_ok p _ Hcon) as Hw. unfold wp in Hw.
  destruct (consoleWrite p _) as [[[]|e| |] c]; try done. apply wp_bind, wp_gupd.
  set (d1 := (d <| textConsole := Some c |>) <| serialRunning := true |>).
  assert (Hsame : sameFrame d d1) by done. pose proof (sameFrame_ok d d1 Hok Hsame) as Hok1. assert (Hc1 : consoleFine d1) by done.
  destruct (negb _).
  - wsteps. eapply fine_same; [by apply fine_refl|done|done].
  - wsteps. change (textConsole d1) with (Some c). cbv iota. apply wp_bind.
    wcall (flushImage_wp (renderConsole c) d1 Hok1 Hs Hc1); [intros ? d2 [Hf _]; wsteps; by eapply fine_pre|].
    intros e d2 [Hf _]. by eapply fine_pre.
Qed.

Lemma refreshSerial_fine d : fbOk d -> seq d + 1 < 2 ^ 64 -> consoleFine d ->
  wp (refreshSerialLocked renderConsole) d (fun _ d' => fine d d') (fun _ d' => fine d d').
Proof.
  intros Hok Hs Hc. unfold refreshSerialLocked. wsteps. destruct (_ || _); [wsteps; by apply fine_refl|].
  destruct (textDirty d) eqn:Ed; [|wsteps; by apply fine_refl]. unfold consoleFine in Hc. rewrite Ed in Hc.
  destruct (textConsole d) as [c|] eqn:Ec; [|done]. assert (Hc' : consoleFine d) by (unfold consoleFine; by rewrite Ec).
  apply wp_bind, wp_bind, wp_try.
  assert (Hend : forall d2, fine d d2 -> sameConsole d d2 -> fine d (d2 <| textDirty := false |>)).
  { intros d2 Hf (E & _). eapply fine_same; [done|done|]. unfold consoleFine.
    change (textConsole (d2 <| textDirty := false |>)) with (textConsole d2). by rewrite E, Ec. }
  wcall (flushImage_wp (renderConsole c) d Hok Hs Hc'); intros ? d2 [Hf Hcs]; wsteps; by apply Hend.
Qed.

Lemma renderSerial_fine d : fbOk d -> seq d + 1 < 2 ^ 64 -> consoleFine d ->
  wp (renderSerialFrames renderConsole) d (fun _ d' => fine d d') (fun _ d' => fine d d').
Proof.
  intros Hok Hs Hc. unfold renderSerialFrames. apply wp_bind. wcall (refreshSerial_fine d Hok Hs Hc); [|done].
  intros [] d1 Hf; wsteps; [done|]. eapply fine_same; [done|done|]. exact (proj2 Hf).
Qed.

Lemma fallback_fine mem isBlank render b d : fbOk d -> seq d + 1 < 2 ^ 64 -> consoleFine d ->
  wp (refreshFallback mem isBlank render b) d (fun _ d' => fine d d') (fun _ d' => fine d d').
Proof.
  intros Hok Hs Hc. unfold refreshFallback. wsteps. destruct (_ || _); [wsteps; by apply fine_refl|].
  destruct (bool_decide _); [wsteps; by apply fine_refl|]. destruct (_ && _); [wsteps; by apply fine_refl|].
  wsteps. set (d1 := d <| serialMuted := true |>). assert (Hsame : sameFrame d d1) by done.
  pose proof (sameFrame_ok d d1 Hok Hsame) as Hok1.
  wcall (flushImage_wp (render mem) d1 Hok1 Hs Hc); intros ? d2 [Hf _]; wsteps; by eapply fine_pre.
Qed.

Lemma fbStep_ok o s : sysOk s -> seq (fb s) + 1 < 2 ^ 64 ->
  exists s', fbStep o s = Some s' /\ sysOk s' /\ carries (fb s) (fb s').
Proof.
  intros Hs Hq. pose proof Hs as [H1 H2 H3 H4]. fold (consoleFine (fb s)) in H4.
  assert (Hgo : forall A (m : F A), wp m (fb s) (fun _ d => fine (fb s) d) (fun _ d => fine (fb s) d) ->
    exists s', ignore (step_fb m s) = Some s' /\ sysOk s' /\ carries (fb s) (fb s')).
  { intros A m Hm. destruct (step_fine m s Hs Hm) as (a & s' & E & K1 & K2 & _). rewrite E. by exists s'. }
  destruct o; cbn [fbStep].
  - apply Hgo. by apply Flush_fine.
  - apply Hgo. by apply FlushDamage_fine.
  - apply Hgo. by apply writeSerial_fine.
  - apply Hgo. by apply renderSerial_fine.
  - apply Hgo. by apply fallback_fine.
  - eexists. split; [done|]. apply fine_sys; [done|]. unfold GraphicsReset. destruct (_ || _); [by apply fine_refl|].
    eapply fine_same; [by apply fine_refl|done|done].
  - eexists. split; [done|]. apply fine_sys; [done|]. eapply fine_same; [by apply fine_refl|done|done].
  - eexists. split; [done|]. split; [|apply carries_refl]. constructor; try done. apply Forall_app. split; [done|].
    constructor; [|constructor]. pose proof (o_seq _ H1). split; [cbn; lia|]. cbn. intros E. pose proof (o_w _ H1). lia.
  - destruct (readers s !! i) as [f|] eqn:Ei; [|by exists s; splits; [..|apply carries_refl]].
    destruct (copyFrameChanges_spec (fb s) f force H1 (Forall_lookup_1 _ _ _ _ H2 Ei)) as (f' & rects & E & _ & K & _).
    unfold step_fb. rewrite E. eexists. split; [done|]. split; [|apply carries_refl]. constructor; try done. by apply Forall_insert.
  - unfold step_fb, changedFrame, gbind, gget. destruct (negb force && (seq (fb s) =? sequence)).
    { eexists. split; [done|]. split; [by destruct s|apply carries_refl]. }
    eexists. split; [done|]. split; [|by unfold carries; cbn; splits; [lia|lia|..]].
    assert (Hh : forall l, handedOk (fb s) l -> handedOk (fb s <| frameShared := true |>) l).
    { intros l. unfold handedOk. apply Forall_impl. by intros [i pix] (? & ? & ?). }
    constructor; cbn [fb readers handed].
    + destruct H1. by constructor.
    + exact H2.
    + constructor; [|by apply Hh]. splits; try done. exact (o_frame _ H1).
    + exact H4.
Qed.

Lemma fbRun_ok l : forall s, sysOk s -> seq (fb s) + zlen l < 2 ^ 64 ->
  exists s', fbRun l s = Some s' /\ sysOk s'.
Proof.
  induction l as [|o l IH]; intros s Hs Hq; [by exists s|]. cbn [fbRun]. rewrite zlen_cons in Hq. pose proof (zlen_nonneg l).
  destruct (fbStep_ok o s Hs ltac:(lia)) as (s1 & E & K1 & (K2 & _)). rewrite E. apply IH; [done|lia].
Qed.

Lemma newSys_ok : sysOk newSys.
Proof.
  constructor; [|constructor|constructor|done]. constructor; cbn; try done; [lia|by right|]. intros i. change (zlen []) with 0. lia.
Qed.

(** Handed-out slices stay as they are, also through later steps. *)
Lemma fbStep_handed o s s' : fbStep o s = Some s' -> incl (handed s) (handed s').
Proof.
  assert (Hgo : forall A (m : F A), ignore (step_fb m s) = Some s' -> incl (handed s) (handed s')).
  { intros A m. unfold ignore, step_fb. destruct (m (fb s)) as [[] ?]; cbn; intros [= <-]; apply incl_refl. }
  destruct o; cbn [fbStep]; try (apply Hgo); try (intros [= <-]; apply incl_refl).
  - destruct (readers s !! i); [|intros [= <-]; apply incl_refl]. unfold step_fb.
    destruct (copyFrameChanges v force (fb s)) as [[[? ?]| | |] ?]; intros [= <-]; apply incl_refl.
  - unfold step_fb. destruct (changedFrame sequence force (fb s)) as [[[[[[? ?] ?] ?]|]| | |] ?]; intros [= <-];
      try apply incl_refl. by apply incl_tl, incl_refl.
Qed.

End System.

(** C34: every reader sees the frame.  After any sequence of publications, with or
    without damage, of any sizes and with any images, of console output, resets
    and other readers, nothing has panicked, and a reader that refreshes its copy,
    however long it did not look, has exactly the pixels of the current frame,
    black where nothing was published; it is told at most 128 rectangles, within
    the image, and outside them its old copy was already right. *)
Theorem readers_see_frame renderConsole l i f force :
  zlen l < 2 ^ 64 ->
  exists s, fbRun renderConsole l newSys = Some s /\
    (readers s !! i = Some f ->
     exists f' rects, copyFrameChanges f force (fb s) = (Ok (f', rects), fb s) /\ refreshed (fb s) f f' rects).
Proof.
  intros Hl. destruct (fbRun_ok renderConsole l newSys newSys_ok Hl) as (s & E & [H1 H2 _ _]). exists s. split; [done|].
  intros Hi. destruct (copyFrameChanges_spec (fb s) f force H1 (Forall_lookup_1 _ _ _ _ H2 Hi)) as (f' & rects & E1 & E2 & _).
  by exists f', rects.
Qed.

(** C35: pixels that were handed out are immutable.  Whatever is published after
    [changedFrame] returned a slice, in any sequence of operations, the slice keeps
    the pixels it had then. *)
Theorem handed_out_immutable renderConsole l1 l2 :
  zlen (l1 ++ l2) < 2 ^ 64 ->
  exists s1 s2, fbRun renderConsole l1 newSys = Some s1 /\ fbRun renderConsole l2 s1 = Some s2 /\
    forall i pix, In (i, pix) (handed s1) -> nth i (buffers (fb s2)) [] = pix.
Proof.
  intros Hl. rewrite zlen_app in Hl.
  assert (Hq : forall l s s', sysOk s -> seq (fb s) + zlen l < 2 ^ 64 -> fbRun renderConsole l s = Some s' ->
    sysOk s' /\ seq (fb s') <= seq (fb s) + zlen l /\ incl (handed s) (handed s')).
  { induction l as [|o l IH]; intros s s' Hs Hb; cbn [fbRun]; [intros [= <-]; splits; [done|change (zlen []) with 0; lia|apply incl_refl]|].
    rewrite zlen_cons in *. pose proof (zlen_nonneg l). destruct (fbStep_ok renderConsole o s Hs ltac:(lia)) as (s0 & E & K1 & (K2 & _)).
    rewrite E. intros E'. destruct (IH s0 s' K1 ltac:(lia) E') as (I1 & I2 & I3). splits; [done|lia|].
    eapply incl_tran; [by eapply fbStep_handed|done]. }
  pose proof (zlen_nonneg l1). pose proof (zlen_nonneg l2).
  destruct (fbRun_ok renderConsole l1 newSys newSys_ok ltac:(cbn; lia)) as (s1 & E1 & Hs1).
  destruct (Hq l1 newSys s1 newSys_ok ltac:(cbn; lia) E1) as (_ & Hb & _).
  destruct (fbRun_ok renderConsole l2 s1 Hs1 ltac:(cbn in Hb; lia)) as (s2 & E2 & Hs2).
  destruct (Hq l2 s1 s2 Hs1 ltac:(cbn in Hb; lia) E2) as (_ & _ & Hincl).
  exists s1, s2. splits; [done|done|]. intros i pix Hin. apply Hincl in Hin.
  pose proof (so_handed _ Hs2) as Hh. unfold handedOk in Hh. rewrite List.Forall_forall in Hh. by destruct (Hh _ Hin) as (_ & ? & _).
Qed.

(** A 2 by 1 image of one colour, and a console that renders nothing. *)
Definition sampleImage (v : Z) : RGBA := mkRGBA [v; v; v; 255; v; v; v; 255] 8 (mkRect 0 0 2 1).
Definition noConsole (_ : vncTextConsole) : RGBA := NewRGBA ZR.

Definition sampleRun : list fbOp :=
  [OFlush 2 1 (Some (sampleImage 7)); OJoin; ORefresh 0 false; OFlushDamage 2 1 (Some (sampleImage 9)) (Some [mkRect 1 0 2 1])].

Definition sampleSys : sys := default newSys (fbRun noConsole sampleRun newSys).

Lemma readers_see_frame_witness :
  exists f f' rects, fbRun noConsole sampleRun newSys = Some sampleSys /\ readers sampleSys !! 0%nat = Some f /\
    copyFrameChanges f false (fb sampleSys) = (Ok (f', rects), fb sampleSys) /\ refreshed (fb sampleSys) f f' rects.
Proof.
  assert (E0 : fbRun noConsole sampleRun newSys = Some sampleSys) by (vm_compute; reflexivity).
  destruct (readers sampleSys !! 0%nat) as [f|] eqn:Hf; [|vm_compute in Hf; discriminate].
  destruct (readers_see_frame noConsole sampleRun 0 f false ltac:(vm_compute; reflexivity)) as (s & E & K).
  rewrite E0 in E. apply (inj Some) in E. subst s. destruct (K Hf) as (f' & rects & K1 & K2).
  exists f, f', rects. exact (conj E0 (conj eq_refl (conj K1 K2))).
Defined.

Definition sampleRun1 : list fbOp := [OFlush 2 1 (Some (sampleImage 7)); OHandOut 0 true].
Definition sampleRun2 : list fbOp := [OFlushDamage 2 1 (Some (sampleImage 9)) (Some [mkRect 1 0 2 1])].
Definition sampleSys1 : sys := default newSys (fbRun noConsole sampleRun1 newSys).
Definition sampleSys2 : sys := default newSys (fbRun noConsole sampleRun2 sampleSys1).

Lemma handed_out_immutable_witness :
  fbRun noConsole sampleRun1 newSys = Some sampleSys1 /\ fbRun noConsole sampleRun2 sampleSys1 = Some sampleSys2 /\
  nth 1 (buffers (fb sampleSys2)) [] = [7; 7; 7; 255; 7; 7; 7; 255] /\
  framePix (fb sampleSys2) = [7; 7; 7; 255; 9; 9; 9; 255].
Proof.
  assert (E1 : fbRun noConsole sampleRun1 newSys = Some sampleSys1) by (vm_compute; reflexivity).
  assert (E2 : fbRun noConsole sampleRun2 sampleSys1 = Some sampleSys2) by (vm_compute; reflexivity).
  destruct (handed_out_immutable noConsole sampleRun1 sampleRun2 ltac:(vm_compute; reflexivity)) as (s1 & s2 & F1 & F2 & K).
  rewrite E1 in F1. apply (inj Some) in F1. subst s1. rewrite E2 in F2. apply (inj Some) in F2. subst s2.
  refine (conj E1 (conj E2 (conj (K 1%nat _ _) _))); vm_compute; [by left|reflexivity].
Defined.
