(* ===== verification/RdpBitmap.v ===== *)
(** * Bitmap updates of the RDP server
      (src/internal/rdp/damage/region.go, src/internal/rdp/bitmap.go)

    The encoder keeps the desktop of a client as packed pixels, scales the changed
    regions of the guest's image into it and sends the tiles that differ from what
    it sent before.  [send] is a connection with a schedule of failures; a failed
    send may or may not have reached the client.  Slices that are never allocated
    empty are nil when they are empty. *)

From S2P Require Import Prelude Bytes GpuImage Framebuffer.

(** ** Damage (damage/region.go) *)

Definition mapCeil (value scale divisor : Z) : Z := i64 (Z.quot (i64 (value * scale + divisor - 1)) divisor).

(** [damage.Map]. *)
Definition damageMap (rect source output : Rectangle) : Rectangle :=
  if Empty source || Empty output then ZR
  else
    let rect := Intersect rect source in
    if Empty rect then ZR
    else
      Rect (minX output + mapCeil (minX rect - minX source) (Dx output) (Dx source))
           (minY output + mapCeil (minY rect - minY source) (Dy output) (Dy source))
           (minX output + mapCeil (maxX rect - minX source) (Dx output) (Dx source))
           (minY output + mapCeil (maxY rect - minY source) (Dy output) (Dy source)).

(** [damage.Align]. *)
Definition damageAlign (rect : Rectangle) (block : Z) (bounds : Rectangle) : Rectangle :=
  let rect := Intersect rect bounds in
  if Empty rect || (block <? 1) then ZR
  else
    let rect := Sub rect (Min bounds) in
    let rect := mkRect (Z.quot (minX rect) block * block) (Z.quot (minY rect) block * block)
                  (Z.quot (maxX rect + block - 1) block * block) (Z.quot (maxY rect + block - 1) block * block) in
    Intersect (Add rect (Min bounds)) bounds.

(** [damage.ValidRGBA]. *)
Definition ValidRGBA (img : option RGBA) : bool :=
  match img with
  | None => false
  | Some img =>
      if Empty (Bounds img) then false
      else
        let w := Dx (Bounds img) in
        let h := Dy (Bounds img) in
        if (w <=? 0) || (h <=? 0) then false
        else (w <=? Z.quot (zlen (Pix img)) 4) && (w * 4 <=? Stride img) &&
             (h - 1 <=? Z.quot (zlen (Pix img) - w * 4) (Stride img))
  end.

(** ** The encoder (bitmap.go) *)

Definition ErrBitmapFormat : error := EMsg "unsupported RDP bitmap geometry or color depth".
Definition bitmapTileSize : Z := 64.

Record BitmapEncoder := mkEnc {
  e_width : Z;
  e_height : Z;
  bytesPerPixel : Z;
  e_pixels : list Z;
  previous : list Z;
  e_source : Rectangle;
  pending : list bool;
  refresh : bool
}.
#[export] Instance eta_BitmapEncoder : Settable BitmapEncoder := fun e =>
  mkEnc (e_width e) (e_height e) (bytesPerPixel e) (e_pixels e) (previous e) (e_source e) (pending e) (refresh e).

Definition NewBitmapEncoder (width height bitsPerPixel : Z) : BitmapEncoder + error :=
  if (width <=? 0) || (height <=? 0) || (4096 <? width) || (4096 <? height) ||
     (negb (bitsPerPixel =? 16) && negb (bitsPerPixel =? 24) && negb (bitsPerPixel =? 32))
  then inr ErrBitmapFormat
  else inl (mkEnc width height (bitsPerPixel / 8) [] [] ZR [] false).

(** The connection: the payloads that reached the client, and what happens to the
    next ones; [Some b] is an error, with [b] telling whether the payload arrived. *)
Record conn := mkConn { received : list (list Z); faults : list (option bool) }.


Abbreviation EM := (M (BitmapEncoder * conn)).

Definition getEnc : EM BitmapEncoder := let! s := gget in ret (fst s).
Definition updEnc (f : BitmapEncoder -> BitmapEncoder) : EM unit := gupd (fun s => (f (fst s), snd s)).

Definition send (data : list Z) : EM unit :=
  let! s := gget in
  let c := snd s in
  match faults c with
  | [] => gupd (fun s => (fst s, mkConn (received c ++ [data]) []))
  | None :: rest => gupd (fun s => (fst s, mkConn (received c ++ [data]) rest))
  | Some arrived :: rest =>
      do! gupd (fun s => (fst s, mkConn (if arrived then received c ++ [data] else received c) rest)) in
      throw EIO
  end.

Definition columns (e : BitmapEncoder) : Z := Z.quot (e_width e + bitmapTileSize - 1) bitmapTileSize.

(** [tileBounds]: left, top, width and height. *)
Definition tileBounds (e : BitmapEncoder) (index : Z) : Z * Z * Z * Z :=
  let lf := Z.rem index (columns e) * bitmapTileSize in
  let top := Z.quot index (columns e) * bitmapTileSize in
  (lf, top, Z.min bitmapTileSize (e_width e - lf), Z.min bitmapTileSize (e_height e - top)).

Fixpoint pendingRow (n : nat) (i : Z) (p : list bool) : option (list bool) :=
  match n with
  | O => Some p
  | S n => if (0 <=? i) && (i <? zlen p) then pendingRow n (i + 1) (zinsert i true p) else None
  end.

Fixpoint pendingRows (n : nat) (y cols x0 x1 : Z) (p : list bool) : option (list bool) :=
  match n with
  | O => Some p
  | S n =>
      match pendingRow (Z.to_nat (x1 + 1 - x0)) (y * cols + x0) p with
      | Some p => pendingRows n (y + 1) cols x0 x1 p
      | None => None
      end
  end.

Definition markPending (region : Rectangle) : EM unit :=
  if Empty region then ret tt
  else
    let! e := getEnc in
    let y0 := Z.quot (minY region) bitmapTileSize in
    let y1 := Z.quot (maxY region - 1) bitmapTileSize in
    let! p := orPanic (pendingRows (Z.to_nat (y1 + 1 - y0)) y0 (columns e) (Z.quot (minX region) bitmapTileSize)
                         (Z.quot (maxX region - 1) bitmapTileSize) (pending e)) in
    updEnc (fun e => e <| pending := p |>).

(** The bytes of a pixel of the desktop. *)
Definition packPixel (bpp r g b : Z) : list Z :=
  if bpp =? 2 then le_bytes 2 (((r ≫ 3) ≪ 11) ||| ((g ≫ 2) ≪ 5) ||| (b ≫ 3)) else [b; g; r].

(** Pixel [x] of a row of the desktop; [None] is an index out of range. *)
Definition scalePixel (e : BitmapEncoder) (img : RGBA) (srcY x y : Z) (pixels : list Z) : option (list Z) :=
  let src := srcY * Stride img + Z.quot (x * Dx (Bounds img)) (e_width e) * 4 in
  let dst := (y * e_width e + x) * bytesPerPixel e in
  match slice (Pix img) src (src + 3) with
  | Some p =>
      let packed := packPixel (bytesPerPixel e) (zget p 0) (zget p 1) (zget p 2) in
      copySpan pixels dst (dst + zlen packed) packed 0 (zlen packed)
  | None => None
  end.

Fixpoint scaleRow (n : nat) (e : BitmapEncoder) (img : RGBA) (srcY x y : Z) (pixels : list Z) : option (list Z) :=
  match n with
  | O => Some pixels
  | S n =>
      match scalePixel e img srcY x y pixels with
      | Some pixels => scaleRow n e img srcY (x + 1) y pixels
      | None => None
      end
  end.

Fixpoint scaleRows (n : nat) (e : BitmapEncoder) (img : RGBA) (region : Rectangle) (y : Z) (pixels : list Z) : option (list Z) :=
  match n with
  | O => Some pixels
  | S n =>
      match scaleRow (Z.to_nat (Dx region)) e img (Z.quot (y * Dy (Bounds img)) (e_height e)) (minX region) y pixels with
      | Some pixels => scaleRows n e img region (y + 1) pixels
      | None => None
      end
  end.

Definition scaleRegion (img : RGBA) (region : Rectangle) : EM unit :=
  let! e := getEnc in
  let! p := orPanic (scaleRows (Z.to_nat (Dy region)) e img region (minY region) (e_pixels e)) in
  updEnc (fun e => e <| e_pixels := p |>).

(** The rows of a tile are the same in both images. *)
Fixpoint sameRows (n : nat) (y w lf len bpp : Z) (a b : list Z) : option bool :=
  match n with
  | O => Some true
  | S n =>
      let start := (y * w + lf) * bpp in
      match slice a start (start + len), slice b start (start + len) with
      | Some p, Some q => if bool_decide (p = q) then sameRows n (y + 1) w lf len bpp a b else Some false
      | _, _ => None
      end
  end.

Definition unchanged (e : BitmapEncoder) (lf top width height : Z) : option bool :=
  if negb (zlen (previous e) =? zlen (e_pixels e)) then Some false
  else sameRows (Z.to_nat height) top (e_width e) lf (width * bytesPerPixel e) (bytesPerPixel e) (e_pixels e) (previous e).

Definition tileHeader (e : BitmapEncoder) (lf top width height stride : Z) : list Z :=
  concat (map (le_bytes 2)
    [1; 1; u16 lf; u16 top; u16 (lf + width - 1); u16 (top + height - 1); u16 width; u16 height;
     u16 (bytesPerPixel e * 8); 0; u16 (stride * height)]).

(** The rows of a tile, bottom up, each padded to [stride]. *)
Fixpoint tileRows (n : nat) (row : Z) (e : BitmapEncoder) (lf top width height stride : Z) (data : list Z) : option (list Z) :=
  match n with
  | O => Some data
  | S n =>
      let src := ((top + height - 1 - row) * e_width e + lf) * bytesPerPixel e in
      match copySpan data (22 + row * stride) (22 + row * stride + width * bytesPerPixel e)
              (e_pixels e) src (src + width * bytesPerPixel e) with
      | Some data => tileRows n (row + 1) e lf top width height stride data
      | None => None
      end
  end.

Definition tile (e : BitmapEncoder) (lf top width height : Z) : option (list Z) :=
  let stride := Z.ldiff (width * bytesPerPixel e + 3) 3 in
  tileRows (Z.to_nat height) 0 e lf top width height stride
    (tileHeader e lf top width height stride ++ zeros (stride * height)).

(** The loop that sends the pending tiles, from [index] on. *)
Fixpoint sendTiles (l : list bool) (index : Z) : EM unit :=
  match l with
  | [] => ret tt
  | false :: l => sendTiles l (index + 1)
  | true :: l =>
      let! e := getEnc in
      let '(lf, top, width, height) := tileBounds e index in
      let! same := (if refresh e then ret false else orPanic (unchanged e lf top width height)) in
      do! (if same then ret tt
           else let! data := orPanic (tile e lf top width height) in send data) in
      sendTiles l (index + 1)
  end.

(** The loop that commits them. *)
Fixpoint commitTiles (l : list bool) (index : Z) : EM unit :=
  match l with
  | [] => ret tt
  | false :: l => commitTiles l (index + 1)
  | true :: l =>
      let! e := getEnc in
      let '(lf, top, width, height) := tileBounds e index in
      let start y := (y * e_width e + lf) * bytesPerPixel e in
      let! p := orPanic (copyRows (Z.to_nat height) top start start (width * bytesPerPixel e) (previous e) (e_pixels e)) in
      do! updEnc (fun e => e <| previous := p |> <| pending := zinsert index false (pending e) |>) in
      commitTiles l (index + 1)
  end.

Fixpoint scaleRegions (img : RGBA) (output : Rectangle) (regions : list Rectangle) : EM unit :=
  match regions with
  | [] => ret tt
  | region :: regions =>
      let mapped := damageMap region (Bounds img) output in
      do! scaleRegion img mapped in
      do! markPending mapped in
      scaleRegions img output regions
  end.

(** [regions] is [None] for a nil slice: the whole image. *)
Definition WriteFrameDamage (img : option RGBA) (regions : option (list Rectangle)) (force : bool) : EM unit :=
  match img with
  | None => ret tt
  | Some img =>
      if Empty (Bounds img) then ret tt
      else if negb (ValidRGBA (Some img)) then throw ErrBitmapFormat
      else
        let! e := getEnc in
        let output := Rect 0 0 (e_width e) (e_height e) in
        let size := e_width e * e_height e * bytesPerPixel e in
        do! (if zlen (e_pixels e) =? 0 then
               updEnc (fun e => e <| e_pixels := zeros size |> <| previous := zeros size |>
                 <| pending := replicate (Z.to_nat (columns e * Z.quot (e_height e + bitmapTileSize - 1) bitmapTileSize)) false |>
                 <| refresh := true |>)
             else ret tt) in
        let! e := getEnc in
        do! (if force || negb (bool_decide (e_source e = Bounds img)) then updEnc (fun e => e <| refresh := true |>) else ret tt) in
        let! e := getEnc in
        do! (match regions with
             | Some regions =>
                 if refresh e then do! scaleRegion img output in markPending output
                 else scaleRegions img output regions
             | None => do! scaleRegion img output in markPending output
             end) in
        do! updEnc (fun e => e <| e_source := Bounds img |>) in
        let! e := getEnc in
        do! sendTiles (pending e) 0 in
        let! e := getEnc in
        do! commitTiles (pending e) 0 in
        updEnc (fun e => e <| refresh := false |>)
  end.
