(* ===== verification/RdpBitmapSpec.v ===== *)
(** * What an RDP client sees

    A damaged region of the guest's image maps to exactly the pixels of the desktop
    that show it; a frame that was written without error is on the screen of the
    client, tile by tile. *)

From S2P Require Import Prelude Bytes GpuImage Framebuffer FramebufferSpec FramebufferConsole RdpBitmap.

(** ** Damage *)

(** The column (or row) of the source that is shown at [x] of [size] pixels. *)
Definition sample (x srcSize size : Z) : Z := x * srcSize / size.

Lemma mapCeil_le v s d x :
  0 <= v <= d -> 0 < s < 2 ^ 31 -> 0 < d < 2 ^ 31 -> 0 <= x ->
  0 <= mapCeil v s d <= s /\ (mapCeil v s d <= x <-> v <= sample x d s).
Proof.
  intros Hv Hs Hd Hx. assert (0 <= v * s <= d * s) by nia. assert (d * s < 2 ^ 62) by nia.
  assert (E : mapCeil v s d = (v * s + d - 1) / d).
  { unfold mapCeil. rewrite (i64_small (v * s + d - 1)) by lia. rewrite Z.quot_div_nonneg by lia.
    apply i64_small. split; [pose proof (Z.div_pos (v * s + d - 1) d); lia|].
    assert ((v * s + d - 1) / d <= v * s + d - 1) by (apply Z.div_le_upper_bound; nia). lia. }
  rewrite E. unfold sample. split; [split; [apply Z.div_pos; lia|]|split; intros H1].
  - apply Z.lt_succ_r. apply Z.div_lt_upper_bound; nia.
  - apply Z.div_le_lower_bound; [lia|]. pose proof (Z.mul_succ_div_gt (v * s + d - 1) d). nia.
  - apply Z.lt_succ_r. apply Z.div_lt_upper_bound; [lia|]. pose proof (Z.mul_div_le (x * d) s). nia.
Qed.

(** Sizes the display path handles. *)
Definition sizeOk (r : Rectangle) : Prop := Empty r = false /\ Dx r < 2 ^ 31 /\ Dy r < 2 ^ 31.

Lemma damageMap_cases rect source output :
  sizeOk source -> sizeOk output ->
  (forall x y, ~ inside (Intersect rect source) x y) /\ damageMap rect source output = ZR \/
  Empty (Intersect rect source) = false /\ contained (damageMap rect source output) output /\
  minX (damageMap rect source output) <= maxX (damageMap rect source output) /\
  minY (damageMap rect source output) <= maxY (damageMap rect source output) /\
  forall x y, inside output x y ->
    (inside (damageMap rect source output) x y <->
     inside (Intersect rect source) (minX source + sample (x - minX output) (Dx source) (Dx output))
       (minY source + sample (y - minY output) (Dy source) (Dy output))).
Proof.
  intros (Hs & Hsx & Hsy) (Ho & Hox & Hoy). unfold damageMap. rewrite Hs, Ho. cbn [orb]. cbv zeta.
  destruct (Empty (Intersect rect source)) eqn:E.
  { left. split; [|done]. intros x y [? ?]. unfold Empty in E. apply orb_true_iff in E. rewrite !Z.leb_le in E. lia. }
  right. destruct (Intersect_cases rect source) as [E'|(_ & _ & _ & _ & _ & C1 & C2 & C3 & C4)]; [by rewrite E' in E|].
  set (c := Intersect rect source) in *. apply Empty_spec in E, Hs, Ho. unfold Dx, Dy in *.
  pose proof (fun x => mapCeil_le (minX c - minX source) (maxX output - minX output) (maxX source - minX source) x) as A1.
  pose proof (fun x => mapCeil_le (maxX c - minX source) (maxX output - minX output) (maxX source - minX source) x) as A2.
  pose proof (fun y => mapCeil_le (minY c - minY source) (maxY output - minY output) (maxY source - minY source) y) as A3.
  pose proof (fun y => mapCeil_le (maxY c - minY source) (maxY output - minY output) (maxY source - minY source) y) as A4.
  set (m1 := mapCeil (minX c - minX source) _ _) in *. set (m2 := mapCeil (maxX c - minX source) _ _) in *.
  set (m3 := mapCeil (minY c - minY source) _ _) in *. set (m4 := mapCeil (maxY c - minY source) _ _) in *.
  destruct (A1 0) as [? _]; [lia..|]. destruct (A2 0) as [? _]; [lia..|]. destruct (A3 0) as [? _]; [lia..|]. destruct (A4 0) as [? _]; [lia..|].
  assert (m1 <= m2).
  { destruct (A1 m2) as [_ I1]; [lia..|]. destruct (A2 m2) as [_ I2]; [lia..|]. lia. }
  assert (m3 <= m4).
  { destruct (A3 m4) as [_ I3]; [lia..|]. destruct (A4 m4) as [_ I4]; [lia..|]. lia. }
  splits; try done; unfold Rect; cbn; try (unfold contained; cbn; lia).
  intros x y [Hx Hy]. unfold inside. cbn. rewrite !Z.min_l, !Z.max_r by lia.
  destruct (A1 (x - minX output)) as [_ B1]; [lia..|]. destruct (A2 (x - minX output)) as [_ B2]; [lia..|].
  destruct (A3 (y - minY output)) as [_ B3]; [lia..|]. destruct (A4 (y - minY output)) as [_ B4]; [lia..|].
  lia.
Qed.

Lemma sample_range x srcSize size : 0 <= x < size -> 0 < srcSize -> 0 <= sample x srcSize size < srcSize.
Proof. intros. unfold sample. split; [apply Z.div_pos; nia|apply Z.div_lt_upper_bound; nia]. Qed.

Lemma damageMap_iff rect source output x y :
  sizeOk source -> sizeOk output -> inside output x y ->
  inside (damageMap rect source output) x y <->
  inside rect (minX source + sample (x - minX output) (Dx source) (Dx output))
    (minY source + sample (y - minY output) (Dy source) (Dy output)).
Proof.
  intros Hs Ho Hxy. pose proof Hs as (Es & _). apply Empty_spec in Es. destruct Hxy as [Hx Hy].
  pose proof (sample_range (x - minX output) (Dx source) (Dx output) ltac:(unfold Dx; lia) ltac:(unfold Dx; lia)).
  pose proof (sample_range (y - minY output) (Dy source) (Dy output) ltac:(unfold Dy; lia) ltac:(unfold Dy; lia)).
  assert (Hin : inside source (minX source + sample (x - minX output) (Dx source) (Dx output))
    (minY source + sample (y - minY output) (Dy source) (Dy output))) by (unfold inside, Dx, Dy in *; lia).
  destruct (damageMap_cases rect source output Hs Ho) as [[Hn E]|(_ & _ & _ & _ & H1)].
  - rewrite E. split; [unfold inside, ZR; cbn; lia|]. intros Hr. exfalso. eapply Hn. by apply Intersect_inside.
  - rewrite H1 by done. rewrite Intersect_inside. tauto.
Qed.

(** A damaged region maps to exactly the pixels that show it: a pixel of the
    output is in the mapped rectangle iff its nearest-neighbour sample is in the
    region, for any position and scale of source and output. *)
Theorem damage_map_exact rect source output x y :
  sizeOk source -> sizeOk output -> inside output x y ->
  inside (damageMap rect source output) x y <->
  inside rect (minX source + sample (x - minX output) (Dx source) (Dx output))
    (minY source + sample (y - minY output) (Dy source) (Dy output)).
Proof. apply damageMap_iff. Qed.

Lemma damage_map_exact_witness :
  inside (damageMap (mkRect 10 0 20 5) (mkRect 0 0 100 100) (mkRect 0 0 50 50)) 7 1 /\
  inside (mkRect 10 0 20 5) (0 + sample (7 - 0) 100 50) (0 + sample (1 - 0) 100 50).
Proof.
  assert (H : inside (damageMap (mkRect 10 0 20 5) (mkRect 0 0 100 100) (mkRect 0 0 50 50)) 7 1) by (by vm_compute).
  split; [done|]. apply (damage_map_exact (mkRect 10 0 20 5) (mkRect 0 0 100 100) (mkRect 0 0 50 50) 7 1); [by vm_compute..|done].
Defined.

(** Alignment covers the region, stays within the bounds and starts and ends on
    blocks, or at the edge of the bounds. *)
Lemma align_covers rect block bounds :
  0 < block ->
  let r := damageAlign rect block bounds in
  (forall x y, inside rect x y -> inside bounds x y -> inside r x y) /\
  (forall x y, inside r x y -> inside bounds x y) /\
  (Empty r = false ->
   (minX r - minX bounds) mod block = 0 /\ (minY r - minY bounds) mod block = 0 /\
   ((maxX r - minX bounds) mod block = 0 \/ maxX r = maxX bounds) /\
   ((maxY r - minY bounds) mod block = 0 \/ maxY r = maxY bounds)).
Proof.
  intros Hb. cbv zeta. unfold damageAlign. cbv zeta.
  destruct (Intersect_cases rect bounds) as [E|(E & _ & _ & _ & _ & C1 & C2 & C3 & C4)].
  { rewrite E. change (Empty ZR) with true. cbn [orb]. splits; [|unfold inside, ZR; cbn; lia|done].
    intros x y H1 H2. assert (H : inside (Intersect rect bounds) x y) by (by apply Intersect_inside). by rewrite E in H. }
  rewrite E, (proj2 (Z.ltb_ge block 1)) by lia. cbn [orb].
  assert (Hin : forall x y, inside rect x y -> inside bounds x y -> inside (Intersect rect bounds) x y) by (intros; by apply Intersect_inside).
  set (c := Intersect rect bounds) in *. apply Empty_spec in E. unfold Sub, Add, Min. cbn [minX minY maxX maxY p_X p_Y].
  rewrite !Z.quot_div_nonneg by lia.
  assert (F : forall a, 0 <= a -> a / block * block <= a < a / block * block + block).
  { intros a Ha. pose proof (Z.div_mod a block). pose proof (Z.mod_pos_bound a block). lia. }
  assert (G : forall a, 0 < a -> a <= (a + block - 1) / block * block).
  { intros a Ha. pose proof (F (a + block - 1) ltac:(lia)). lia. }
  pose proof (F (minX c - minX bounds) ltac:(lia)). pose proof (F (minY c - minY bounds) ltac:(lia)).
  pose proof (G (maxX c - minX bounds) ltac:(lia)). pose proof (G (maxY c - minY bounds) ltac:(lia)).
  set (a1 := (minX c - minX bounds) / block) in *. set (a2 := (minY c - minY bounds) / block) in *.
  set (a3 := (maxX c - minX bounds + block - 1) / block) in *. set (a4 := (maxY c - minY bounds + block - 1) / block) in *.
  assert (0 <= a1 /\ 0 <= a2) by (split; apply Z.div_pos; lia).
  assert (0 <= a1 * block /\ 0 <= a2 * block) by nia.
  splits.
  - intros x y Hr Hbo. apply Intersect_inside. split; [|done]. specialize (Hin x y Hr Hbo). unfold inside in *. cbn. lia.
  - intros x y Hr. by apply Intersect_inside in Hr as [_ ?].
  - unfold Intersect. destruct (Empty (mkRect _ _ _ _)) eqn:Ee; [done|]. intros _. cbn [minX minY maxX maxY].
    assert (M : forall a, (a * block) mod block = 0) by (intros; apply Z.mod_mul; lia).
    splits.
    + replace (Z.max _ _ - minX bounds) with (a1 * block) by lia. apply M.
    + replace (Z.max _ _ - minY bounds) with (a2 * block) by lia. apply M.
    + destruct (Z.le_ge_cases (a3 * block + minX bounds) (maxX bounds)); [left|right; lia].
      rewrite Z.min_l by lia. replace (_ - _) with (a3 * block) by lia. apply M.
    + destruct (Z.le_ge_cases (a4 * block + minY bounds) (maxY bounds)); [left|right; lia].
      rewrite Z.min_l by lia. replace (_ - _) with (a4 * block) by lia. apply M.
Qed.

(** ** The desktop of a client *)

Record encOk (e : BitmapEncoder) : Prop := {
  en_w : 0 < e_width e <= 4096;
  en_h : 0 < e_height e <= 4096;
  en_bpp : 2 <= bytesPerPixel e <= 4;
  en_len : (zlen (e_pixels e) = e_width e * e_height e * bytesPerPixel e /\
            zlen (previous e) = e_width e * e_height e * bytesPerPixel e /\
            zlen (pending e) = tilesFor (e_width e) * tilesFor (e_height e)) \/
           (e_pixels e = [] /\ refresh e = false);
  en_pad : forall x y, inFrame (e_width e) (e_height e) x y -> 3 < bytesPerPixel e ->
             px (bytesPerPixel e) (e_width e) (e_pixels e) x y 3 = 0
}.

(** An image whose pixels are all there. *)
Record validImage (img : RGBA) : Prop := {
  va_size : 0 < Dx (Bounds img) /\ 0 < Dy (Bounds img);
  va_stride : Dx (Bounds img) * 4 <= Stride img;
  va_len : (Dy (Bounds img) - 1) * Stride img + Dx (Bounds img) * 4 <= zlen (Pix img)
}.

Lemma ValidRGBA_valid img : ValidRGBA (Some img) = true -> validImage img.
Proof.
  unfold ValidRGBA. destruct (Empty (Bounds img)); [done|]. cbv zeta.
  destruct ((Dx (Bounds img) <=? 0) || (Dy (Bounds img) <=? 0)) eqn:E; [done|]. intros H. zbool.
  pose proof (zlen_nonneg (Pix img)). rewrite Z.quot_div_nonneg in * by lia.
  pose proof (Z.mul_div_le (zlen (Pix img)) 4 ltac:(lia)).
  rewrite Z.quot_div_nonneg in * by lia.
  pose proof (Z.mul_div_le (zlen (Pix img) - Dx (Bounds img) * 4) (Stride img) ltac:(lia)). constructor; [lia|lia|nia].
Qed.

(** The bytes of pixel [x], [y] of the desktop when it shows the image. *)
Definition deskPx (e : BitmapEncoder) (img : RGBA) (x y ch : Z) : Z :=
  let src := sample y (Dy (Bounds img)) (e_height e) * Stride img + sample x (Dx (Bounds img)) (e_width e) * 4 in
  zget (packPixel (bytesPerPixel e) (zget (Pix img) src) (zget (Pix img) (src + 1)) (zget (Pix img) (src + 2))) ch.

Lemma packPixel_len bpp r g b : 2 <= bpp <= 4 -> zlen (packPixel bpp r g b) = Z.min bpp 3.
Proof.
  intros Hb. unfold packPixel. destruct (Z.eqb_spec bpp 2) as [->|]; [done|]. change (zlen [b; g; r]) with 3. lia.
Qed.

Lemma px_write_part bpp w l x y s x' y' ch :
  0 < bpp -> 0 <= x < w -> 0 <= y -> 0 <= x' < w -> 0 <= y' -> 0 <= ch < bpp -> zlen s <= bpp ->
  px bpp w (zwrite l ((y * w + x) * bpp) s) x' y' ch =
  if (x' =? x) && (y' =? y) && (ch <? zlen s) then zget s ch else px bpp w l x' y' ch.
Proof.
  intros Hb Hx Hy Hx' Hy' Hch Hs. unfold px. assert (0 <= y * w) by nia. assert (0 <= y' * w) by nia.
  assert (0 <= (y * w + x) * bpp) by nia.
  destruct ((x' =? x) && (y' =? y) && (ch <? zlen s)) eqn:E; zbool.
  - subst. rewrite zget_write_in by lia. f_equal. lia.
  - apply zget_write_out; [done|nia|].
    assert (x' = x /\ y' = y /\ zlen s <= ch \/ y' * w + x' < y * w + x \/ y * w + x < y' * w + x') as [(-> & -> & ?)|[?|?]].
    { destruct (decide (y' = y)) as [->|]; [lia|]. right. assert (y' < y \/ y < y') as [?|?] by lia; [left|right]; nia. }
    + lia.
    + left. nia.
    + right. nia.
Qed.

Section Scale.
Variables (e : BitmapEncoder) (img : RGBA).
#[local] Abbreviation w := (e_width e).
#[local] Abbreviation h := (e_height e).
#[local] Abbreviation bpp := (bytesPerPixel e).
Hypotheses (Hok : encOk e) (Hv : validImage img).

Lemma scalePixel_spec x y pixels :
  inFrame w h x y -> zlen pixels = w * h * bpp ->
  exists pixels', scalePixel e img (sample y (Dy (Bounds img)) h) x y pixels = Some pixels' /\ zlen pixels' = w * h * bpp /\
    forall x' y' ch, inFrame w h x' y' -> 0 <= ch < bpp ->
      px bpp w pixels' x' y' ch =
      if (x' =? x) && (y' =? y) && (ch <? Z.min bpp 3) then deskPx e img x y ch else px bpp w pixels x' y' ch.
Proof using Hok Hv.
  intros [Hx Hy] Hl. destruct Hok as [Hw Hh Hb _ _]. destruct Hv as [[Hdx Hdy] Hst Hlen].
  unfold scalePixel. cbv zeta. rewrite Z.quot_div_nonneg by nia. fold (sample x (Dx (Bounds img)) w).
  pose proof (sample_range x (Dx (Bounds img)) w Hx Hdx). pose proof (sample_range y (Dy (Bounds img)) h Hy Hdy).
  set (sx := sample x (Dx (Bounds img)) w) in *. set (sy := sample y (Dy (Bounds img)) h) in *.
  assert (sy * Stride img <= (Dy (Bounds img) - 1) * Stride img) by nia. assert (0 <= sy * Stride img) by nia.
  rewrite slice_ok by lia. replace (sy * Stride img + sx * 4 + 3 - (sy * Stride img + sx * 4)) with 3 by lia.
  rewrite !zget_slice by lia. rewrite Z.add_0_r.
  set (p := packPixel _ _ _ _). assert (Hp : zlen p = Z.min bpp 3) by (by apply packPixel_len).
  assert (0 <= y * w) by nia. assert ((y + 1) * w <= h * w) by nia. assert ((y * w + x + 1) * bpp <= w * h * bpp) by nia.
  rewrite copySpan_ok; [|nia|lia|lia|lia|lia]. rewrite zslice_all by lia. eexists. split; [done|].
  split; [rewrite zlen_write_in; lia || nia|]. intros x' y' ch [Hx' Hy'] Hch.
  rewrite px_write_part by lia. rewrite Hp. done.
Qed.

Lemma scaleRow_spec y n : 0 <= y < h -> forall x pixels,
  0 <= x -> x + Z.of_nat n <= w -> zlen pixels = w * h * bpp ->
  exists pixels', scaleRow n e img (sample y (Dy (Bounds img)) h) x y pixels = Some pixels' /\ zlen pixels' = w * h * bpp /\
    forall x' y' ch, inFrame w h x' y' -> 0 <= ch < bpp ->
      px bpp w pixels' x' y' ch =
      if (x <=? x') && (x' <? x + Z.of_nat n) && (y' =? y) && (ch <? Z.min bpp 3) then deskPx e img x' y' ch
      else px bpp w pixels x' y' ch.
Proof using Hok Hv.
  intros Hy. induction n as [|n IH]; intros x pixels Hx Hn Hl.
  { exists pixels. splits; try done. intros x' y' ch _ _. change (Z.of_nat 0) with 0.
    replace ((x <=? x') && (x' <? x + 0)) with false by lia. done. }
  cbn [scaleRow]. destruct (scalePixel_spec x y pixels) as (p1 & E1 & E2 & E3); [unfold inFrame; lia|done|]. rewrite E1.
  destruct (IH (x + 1) p1) as (p2 & F1 & F2 & F3); [lia|lia|done|]. exists p2. splits; [done|done|].
  intros x' y' ch Hxy Hch. rewrite F3, E3 by done. rewrite Nat2Z.inj_succ. unfold Z.succ.
  pose proof (Nat2Z.is_nonneg n). set (K := Z.of_nat n) in *. clearbody K.
  destruct (Z.eqb_spec y' y) as [->|Hne]; [|rewrite !andb_false_r; cbn [andb]; rewrite ?andb_false_r; done].
  destruct (Z.eqb_spec x' x) as [->|Hnx].
  - replace ((x + 1 <=? x) && (x <? x + 1 + K)) with false by lia. replace ((x <=? x) && (x <? x + (K + 1))) with true by lia. done.
  - replace ((x <=? x') && (x' <? x + (K + 1))) with ((x + 1 <=? x') && (x' <? x + 1 + K)) by lia. cbn [andb]. done.
Qed.

Lemma scaleRows_spec region n : 0 <= minX region <= maxX region -> maxX region <= w -> forall y pixels,
  0 <= y -> y + Z.of_nat n <= h -> zlen pixels = w * h * bpp ->
  exists pixels', scaleRows n e img region y pixels = Some pixels' /\ zlen pixels' = w * h * bpp /\
    forall x' y' ch, inFrame w h x' y' -> 0 <= ch < bpp ->
      px bpp w pixels' x' y' ch =
      if (y <=? y') && (y' <? y + Z.of_nat n) && ((minX region <=? x') && (x' <? maxX region)) && (ch <? Z.min bpp 3)
      then deskPx e img x' y' ch else px bpp w pixels x' y' ch.
Proof using Hok Hv.
  intros Hr Hrw. destruct Hv as [[Hdx Hdy] _ _]. induction n as [|n IH]; intros y pixels Hy Hn Hl.
  { exists pixels. splits; try done. intros x' y' ch _ _. change (Z.of_nat 0) with 0.
    replace ((y <=? y') && (y' <? y + 0)) with false by lia. done. }
  cbn [scaleRows]. rewrite Z.quot_div_nonneg by nia. fold (sample y (Dy (Bounds img)) h). unfold Dx.
  destruct (scaleRow_spec y (Z.to_nat (maxX region - minX region)) ltac:(lia) (minX region) pixels) as (p1 & E1 & E2 & E3);
    [lia|lia|done|]. rewrite E1. destruct (IH (y + 1) p1) as (p2 & F1 & F2 & F3); [lia|lia|done|]. exists p2. splits; [done|done|].
  intros x' y' ch Hxy Hch. rewrite F3, E3 by done. rewrite Nat2Z.inj_succ, Z2Nat.id by lia. unfold Z.succ.
  pose proof (Nat2Z.is_nonneg n). set (K := Z.of_nat n) in *. clearbody K.
  replace (minX region + (maxX region - minX region)) with (maxX region) by lia.
  destruct (Z.eqb_spec y' y) as [->|Hne].
  - replace ((y + 1 <=? y) && (y <? y + 1 + K)) with false by lia. replace ((y <=? y) && (y <? y + (K + 1))) with true by lia.
    cbn [andb]. by rewrite andb_true_r.
  - replace ((y <=? y') && (y' <? y + (K + 1))) with ((y + 1 <=? y') && (y' <? y + 1 + K)) by lia.
    rewrite andb_false_r. cbn [andb]. done.
Qed.

(** Within the desktop, or empty. *)
Definition regionOk (r : Rectangle) : Prop :=
  (0 <= minX r <= maxX r /\ maxX r <= w /\ 0 <= minY r <= maxY r /\ maxY r <= h).

(** The pixels of the region show the image afterwards. *)
Lemma scaleRegion_spec region c :
  regionOk region -> zlen (e_pixels e) = w * h * bpp ->
  exists pixels, scaleRegion img region (e, c) = (Ok tt, (e <| e_pixels := pixels |>, c)) /\ zlen pixels = w * h * bpp /\
    (forall x y, inFrame w h x y -> 3 < bpp -> px bpp w pixels x y 3 = 0) /\
    forall x y ch, inFrame w h x y -> 0 <= ch < bpp ->
      px bpp w pixels x y ch = if insideb region x y then deskPx e img x y ch else px bpp w (e_pixels e) x y ch.
Proof using Hok Hv.
  intros (R1 & R2 & R3 & R4) Hl. unfold scaleRegion, getEnc, updEnc, gbind, gget, gupd, ret. cbn [fst].
  destruct (scaleRows_spec region (Z.to_nat (Dy region)) R1 R2 (minY region) (e_pixels e)) as (p & E1 & E2 & E3);
    [lia|unfold Dy; lia|done|]. rewrite E1. cbn [orPanic ret fst snd]. exists p. pose proof (en_bpp _ Hok) as Hb.
  assert (Hin : forall x y, (minY region <=? y) && (y <? minY region + Z.of_nat (Z.to_nat (Dy region))) &&
      ((minX region <=? x) && (x <? maxX region)) = insideb region x y).
  { intros x y. unfold Dy. rewrite Z2Nat.id by lia. unfold insideb. lia. }
  splits; [done|done| |].
  - intros x y Hxy H4. rewrite E3 by (done || lia). replace (3 <? Z.min bpp 3) with false by lia. rewrite andb_false_r.
    by apply (en_pad _ Hok).
  - intros x y ch Hxy Hch. rewrite E3, Hin by done. destruct (Z.ltb_spec ch (Z.min bpp 3)).
    + by rewrite andb_true_r.
    + rewrite andb_false_r. destruct (insideb region x y); [|done]. assert (ch = 3) as -> by lia.
      rewrite (en_pad _ Hok) by (done || lia). unfold deskPx. cbv zeta. symmetry. apply zget_out. right. rewrite packPixel_len; lia.
Qed.
End Scale.

(** ** Pending tiles *)

Definition pend (p : list bool) (i : Z) : bool := default false (zlookup p i).

(** Tiles may become pending. *)
Definition grown (p p' : list bool) : Prop := zlen p' = zlen p /\ forall i, pend p i = true -> pend p' i = true.

Lemma grown_refl p : grown p p.
Proof. by split. Qed.

Lemma grown_trans p1 p2 p3 : grown p1 p2 -> grown p2 p3 -> grown p1 p3.
Proof. intros [L1 H1] [L2 H2]. split; [lia|auto]. Qed.

Lemma pend_insert p i j b : 0 <= i < zlen p -> pend (zinsert i b p) j = if j =? i then b else pend p j.
Proof. intros Hi. unfold pend. rewrite zlookup_insert by done. by destruct (j =? i). Qed.

Lemma pendingRow_spec n : forall i p,
  0 <= i -> i + Z.of_nat n <= zlen p ->
  exists p', pendingRow n i p = Some p' /\ grown p p' /\ forall j, i <= j < i + Z.of_nat n -> pend p' j = true.
Proof.
  induction n as [|n IH]; intros i p Hi Hn; [exists p; splits; [done|apply grown_refl|lia]|].
  cbn [pendingRow]. replace ((0 <=? i) && (i <? zlen p)) with true
    by (symmetry; apply andb_true_iff; rewrite Z.leb_le, Z.ltb_lt; lia).
  destruct (IH (i + 1) (zinsert i true p)) as (p' & E1 & [L2 E2] & E3); [lia|rewrite zlen_zinsert; lia|].
  exists p'. splits; [done|split; [by rewrite zlen_zinsert in L2|]|].
  - intros j Hj. apply E2. rewrite pend_insert by lia. by destruct (j =? i).
  - intros j Hj. destruct (decide (j = i)) as [->|]; [|apply E3; lia]. apply E2. rewrite pend_insert by lia. by rewrite Z.eqb_refl.
Qed.

Lemma pendingRows_spec cols x0 x1 n : forall y p,
  0 <= x0 <= x1 -> x1 < cols -> 0 <= y -> (y + Z.of_nat n) * cols <= zlen p ->
  exists p', pendingRows n y cols x0 x1 p = Some p' /\ grown p p' /\
    forall tx ty, x0 <= tx <= x1 -> y <= ty < y + Z.of_nat n -> pend p' (ty * cols + tx) = true.
Proof.
  induction n as [|n IH]; intros y p Hx Hc Hy Hl; [exists p; splits; [done|apply grown_refl|lia]|].
  cbn [pendingRows]. assert (0 <= y * cols) by nia. assert ((y + 1) * cols <= zlen p) by nia.
  destruct (pendingRow_spec (Z.to_nat (x1 + 1 - x0)) (y * cols + x0) p) as (p1 & E1 & E2 & E3); [lia|lia|]. rewrite E1.
  pose proof E2 as [L2 _]. destruct (IH (y + 1) p1) as (p2 & F1 & F2 & F3); [done|done|lia|rewrite L2; lia|].
  exists p2. splits; [done|by eapply grown_trans|]. intros tx ty Htx Hty.
  destruct (decide (ty = y)) as [->|]; [|apply F3; lia]. apply F2, E3. lia.
Qed.

Lemma columns_tiles e : 0 < e_width e -> columns e = tilesFor (e_width e).
Proof.
  intros. unfold columns, tilesFor, bitmapTileSize, framebufferTileSize. by rewrite Z.quot_div_nonneg by lia.
Qed.

Lemma markPending_spec e c region :
  encOk e -> regionOk e region -> zlen (pending e) = tilesFor (e_width e) * tilesFor (e_height e) ->
  exists p, markPending region (e, c) = (Ok tt, (e <| pending := p |>, c)) /\ grown (pending e) p /\
    forall x y, inside region x y -> pend p (tileOf (e_width e) x y) = true.
Proof.
  intros Hok (R1 & R2 & R3 & R4) Hl. destruct (en_w _ Hok) as [Hw _], (en_h _ Hok) as [Hh _]. unfold markPending.
  destruct (Empty region) eqn:E.
  { exists (pending e). splits; [by destruct e|apply grown_refl|]. intros x y [? ?]. unfold Empty in E. lia. }
  apply Empty_spec in E. unfold getEnc, updEnc, gbind, gget, gupd, ret. cbn [fst snd]. rewrite columns_tiles by done.
  unfold bitmapTileSize. rewrite !Z.quot_div_nonneg by lia.
  pose proof (tile_in (e_width e) (maxX region - 1) ltac:(lia)). pose proof (tile_in (e_height e) (maxY region - 1) ltac:(lia)).
  pose proof (tile_in (e_width e) (minX region) ltac:(lia)). pose proof (tile_in (e_height e) (minY region) ltac:(lia)).
  pose proof (div64_mono (minX region) (maxX region - 1) ltac:(lia)). pose proof (div64_mono (minY region) (maxY region - 1) ltac:(lia)).
  destruct (pendingRows_spec (tilesFor (e_width e)) (minX region / 64) ((maxX region - 1) / 64)
    (Z.to_nat ((maxY region - 1) / 64 + 1 - minY region / 64)) (minY region / 64) (pending e)) as (p & E1 & E2 & E3);
    [lia|lia|lia|rewrite Z2Nat.id by lia; nia|].
  rewrite E1. cbn [orPanic ret]. exists p. splits; [done|done|]. intros x y [Hx Hy]. unfold tileOf. apply E3.
  - pose proof (div64_mono (minX region) x ltac:(lia)). pose proof (div64_mono x (maxX region - 1) ltac:(lia)). lia.
  - pose proof (div64_mono (minY region) y ltac:(lia)). pose proof (div64_mono y (maxY region - 1) ltac:(lia)). lia.
Qed.

(** ** Tiles on the wire *)

(** The tile with this index. *)
Definition tileRect (e : BitmapEncoder) (i : Z) : Rectangle :=
  let '(lf, top, width, height) := tileBounds e i in mkRect lf top (lf + width) (top + height).

Lemma tileBounds_spec e i :
  encOk e -> 0 <= i < tilesFor (e_width e) * tilesFor (e_height e) ->
  let '(lf, top, width, height) := tileBounds e i in
  0 <= lf /\ 0 < width <= 64 /\ lf + width <= e_width e /\ 0 <= top /\ 0 < height <= 64 /\ top + height <= e_height e /\
  forall x y, inFrame (e_width e) (e_height e) x y ->
    (i =? tileOf (e_width e) x y) = (lf <=? x) && (x <? lf + width) && (top <=? y) && (y <? top + height).
Proof.
  intros Hok Hi. destruct (en_w _ Hok) as [Hw _], (en_h _ Hok) as [Hh _]. unfold tileBounds. rewrite columns_tiles by done.
  pose proof (tilesFor_spec _ Hw). pose proof (tilesFor_spec _ Hh). set (W := tilesFor (e_width e)) in *. set (H' := tilesFor (e_height e)) in *.
  unfold bitmapTileSize. rewrite Z.rem_mod_nonneg, Z.quot_div_nonneg by lia.
  pose proof (Z.div_mod i W). pose proof (Z.mod_pos_bound i W). assert (0 <= i / W < H') by (split; [apply Z.div_pos; lia|apply Z.div_lt_upper_bound; nia]).
  splits; try lia. intros x y [Hx Hy]. unfold tileOf. fold W.
  pose proof (tile_in (e_width e) x Hx) as Tx. fold W in Tx. pose proof (Z.div_mod x 64). pose proof (Z.mod_pos_bound x 64).
  pose proof (Z.div_mod y 64). pose proof (Z.mod_pos_bound y 64).
  destruct (Z.eqb_spec i (y / 64 * W + x / 64)) as [Ei|Ei].
  - assert (i / W = y / 64) as -> by (rewrite Ei; rewrite Z.div_add_l by lia; rewrite (Z.div_small (x / 64) W); lia).
    assert (i mod W = x / 64) as -> by (rewrite Ei, Z.add_comm, Z.mod_add by lia; apply Z.mod_small; lia). lia.
  - symmetry. apply not_true_is_false. intros Hb. apply Ei. zbool.
    assert (x / 64 = i mod W) as -> by lia. assert (y / 64 = i / W) as -> by lia. lia.
Qed.

(** The client of MS-RDPBCGR: an update names the rectangle it fills and carries
    its rows, bottom up, each padded to four bytes. *)
Definition field (data : list Z) (o : Z) : Z := le_val (zslice data o 2).

Fixpoint clientRows (n : nat) (row w lf bottom width bpp stride : Z) (data screen : list Z) : list Z :=
  match n with
  | O => screen
  | S n =>
      clientRows n (row + 1) w lf bottom width bpp stride data
        (zwrite screen (((bottom - row) * w + lf) * bpp) (zslice data (22 + row * stride) (width * bpp)))
  end.

Definition clientApply (w : Z) (data screen : list Z) : list Z :=
  let width := field data 12 in
  let bpp := field data 16 / 8 in
  clientRows (Z.to_nat (field data 14)) 0 w (field data 4) (field data 10) width bpp (Z.ldiff (width * bpp + 3) 3) data screen.

Section Tile.
Variables (e : BitmapEncoder) (lf top width height : Z).
#[local] Abbreviation w := (e_width e).
#[local] Abbreviation h := (e_height e).
#[local] Abbreviation bpp := (bytesPerPixel e).
Hypotheses (Hok : encOk e) (Hlen : zlen (e_pixels e) = w * h * bpp)
  (Hlf : 0 <= lf) (Hwd : 0 < width <= 64) (Hr : lf + width <= w) (Htop : 0 <= top) (Hht : 0 < height <= 64) (Hbt : top + height <= h).
#[local] Abbreviation stride := (Z.ldiff (width * bpp + 3) 3).

Lemma stride_spec : width * bpp <= stride <= width * bpp + 3.
Proof using.
  change 3 with (2 ^ 2 - 1) at 2 4. rewrite ldiff_low by lia. change (2 ^ 2) with 4.
  pose proof (Z.div_mod (width * bpp + 3) 4). pose proof (Z.mod_pos_bound (width * bpp + 3) 4). lia.
Qed.

Lemma header_len : zlen (tileHeader e lf top width height stride) = 22.
Proof using. done. Qed.

(** What is in the rows of the payload. *)
Lemma tileRows_spec n : forall row data,
  0 <= row -> row + Z.of_nat n = height -> zlen data = 22 + stride * height ->
  exists data', tileRows n row e lf top width height stride data = Some data' /\ zlen data' = zlen data /\
    zslice data' 0 22 = zslice data 0 22 /\
    (forall k, row <= k < height -> zslice data' (22 + k * stride) (width * bpp) =
       zslice (e_pixels e) (((top + height - 1 - k) * w + lf) * bpp) (width * bpp)) /\
    (forall k, 0 <= k < row -> zslice data' (22 + k * stride) (width * bpp) = zslice data (22 + k * stride) (width * bpp)).
Proof using Hok Hlen Hlf Hwd Hr Htop Hht Hbt.
  pose proof stride_spec as Hst. destruct Hok as [Hw _ Hb _ _]. assert (0 < width * bpp) by nia.
  induction n as [|n IH]; intros row data Hrow Hn Hd; [exists data; splits; try done; lia|].
  cbn [tileRows]. set (src := ((top + height - 1 - row) * w + lf) * bpp).
  assert (0 <= (top + height - 1 - row) * w) by nia.
  assert (Hsrc : 0 <= src /\ src + width * bpp <= zlen (e_pixels e)).
  { rewrite Hlen. unfold src. assert ((top + height - 1 - row + 1) * w <= h * w) by nia. nia. }
  assert (0 <= row * stride) by nia. assert ((row + 1) * stride <= height * stride) by nia.
  rewrite copySpan_ok by lia. replace (src + width * bpp - src) with (width * bpp) by lia.
  set (data1 := zwrite data (22 + row * stride) (zslice (e_pixels e) src (width * bpp))).
  assert (Hs : zlen (zslice (e_pixels e) src (width * bpp)) = width * bpp) by (apply zlen_slice; lia).
  assert (Hl1 : zlen data1 = zlen data) by (apply zlen_write_in; lia).
  assert (Hout : forall o m, 0 <= o -> 0 <= m -> o + m <= zlen data -> o + m <= 22 + row * stride \/ 22 + row * stride + width * bpp <= o ->
    zslice data1 o m = zslice data o m).
  { intros o m Ho Hm Hom Hdis. apply zslice_agree; try lia. intros i Hi. apply zget_write_out; lia. }
  destruct (IH (row + 1) data1) as (d' & E1 & E2 & E3 & E4 & E5); [lia|lia|lia|].
  exists d'. splits; [done|lia|rewrite E3; apply Hout; lia| |].
  - intros k Hk. destruct (decide (k = row)) as [->|]; [|apply E4; lia]. rewrite E5 by lia. fold src. unfold data1.
    pose proof (zslice_write data (22 + row * stride) (zslice (e_pixels e) src (width * bpp)) ltac:(lia)) as Hz.
    by rewrite Hs in Hz.
  - intros k Hk. rewrite E5 by lia. assert ((k + 1) * stride <= row * stride) by (apply Z.mul_le_mono_nonneg_r; lia).
    assert (0 <= k * stride) by (apply Z.mul_nonneg_nonneg; lia). apply Hout; lia.
Qed.

Lemma clientRows_spec data n : forall row screen,
  0 <= row -> row + Z.of_nat n = height -> zlen screen = w * h * bpp ->
  (forall k, row <= k < height -> zslice data (22 + k * stride) (width * bpp) =
       zslice (e_pixels e) (((top + height - 1 - k) * w + lf) * bpp) (width * bpp)) ->
  let screen' := clientRows n row w lf (top + height - 1) width bpp stride data screen in
  zlen screen' = w * h * bpp /\
  forall x y ch, inFrame w h x y -> 0 <= ch < bpp ->
    px bpp w screen' x y ch =
    if (lf <=? x) && (x <? lf + width) && (top <=? y) && (y <? top + Z.of_nat n) then px bpp w (e_pixels e) x y ch
    else px bpp w screen x y ch.
Proof using Hok Hlen Hlf Hwd Hr Htop Hht Hbt.
  pose proof Hok as [Hw _ Hb _ _]. assert (0 < width * bpp) by nia.
  induction n as [|n IH]; intros row screen Hrow Hn Hs Hd; cbv zeta; cbn [clientRows].
  { split; [done|]. intros x y ch _ _. change (Z.of_nat 0) with 0. replace ((top <=? y) && (y <? top + 0)) with false by lia.
    by replace ((lf <=? x) && (x <? lf + width) && (top <=? y) && (y <? top + 0)) with false by lia. }
  rewrite Hd by lia. set (y0 := top + height - 1 - row).
  assert (0 <= y0 * w) by nia. assert ((y0 + 1) * w <= h * w) by nia.
  assert (Ha : 0 <= (y0 * w + lf) * bpp) by nia. assert (y0 * w + lf + width <= w * h) by lia.
  assert (Hb' : (y0 * w + lf) * bpp + width * bpp <= w * h * bpp) by nia.
  assert (Hsl : zlen (zslice (e_pixels e) ((y0 * w + lf) * bpp) (width * bpp)) = width * bpp) by (apply zlen_slice; lia).
  set (s1 := zwrite screen _ _). assert (Hl1 : zlen s1 = w * h * bpp) by (unfold s1; rewrite zlen_write_in; lia).
  destruct (IH (row + 1) s1) as [I1 I2]; [lia|lia|done|intros k Hk; apply Hd; lia|]. split; [done|].
  intros x y ch Hxy Hch. rewrite I2 by done. unfold s1. assert (0 <= y0) by (unfold y0; lia).
  rewrite (px_write bpp w screen y0 lf width) by (destruct Hxy; lia).
  replace (top + Z.of_nat (S n)) with (y0 + 1) by (unfold y0; lia). replace (top + Z.of_nat n) with y0 by (unfold y0; lia).
  assert (top <= y0) by (unfold y0; lia). clearbody y0.
  destruct (Z.eqb_spec y y0) as [->|Hne].
  - replace ((lf <=? x) && (x <? lf + width) && (top <=? y0) && (y0 <? y0)) with false by lia. cbn [andb].
    replace ((lf <=? x) && (x <? lf + width) && (top <=? y0) && (y0 <? y0 + 1)) with ((lf <=? x) && (x <? lf + width)) by lia.
    destruct ((lf <=? x) && (x <? lf + width)) eqn:E; [|done]. zbool. assert ((x - lf) * bpp + bpp <= width * bpp) by nia.
    rewrite zget_slice by nia. unfold px. f_equal. lia.
  - replace ((lf <=? x) && (x <? lf + width) && (top <=? y) && (y <? y0 + 1)) with ((lf <=? x) && (x <? lf + width) && (top <=? y) && (y <? y0)) by lia.
    done.
Qed.

Lemma field_header data o v :
  zslice data 0 22 = tileHeader e lf top width height stride -> 0 <= o <= 20 -> 0 <= v < 2 ^ 16 ->
  zslice (tileHeader e lf top width height stride) o 2 = le_bytes 2 v -> field data o = v.
Proof using.
  intros Hh Ho Hv E. unfold field. replace o with (0 + o) by lia. rewrite <- (zslice_slice data 0 22 o 2) by lia.
  rewrite Hh, E, le_val_bytes. apply Z.mod_small. change (256 ^ Z.of_nat 2) with (2 ^ 16). lia.
Qed.

(** The client that receives the payload of a tile has its pixels there. *)
Lemma tile_spec :
  exists data, tile e lf top width height = Some data /\
    forall screen, zlen screen = w * h * bpp ->
      zlen (clientApply w data screen) = w * h * bpp /\
      forall x y ch, inFrame w h x y -> 0 <= ch < bpp ->
        px bpp w (clientApply w data screen) x y ch =
        if (lf <=? x) && (x <? lf + width) && (top <=? y) && (y <? top + height) then px bpp w (e_pixels e) x y ch
        else px bpp w screen x y ch.
Proof using Hok Hlen Hlf Hwd Hr Htop Hht Hbt.
  pose proof stride_spec as Hst. pose proof Hok as [Hw Hh Hb _ _]. assert (0 < width * bpp <= 64 * 4) by nia.
  assert (0 <= stride * height) by (apply Z.mul_nonneg_nonneg; lia).
  destruct (tileRows_spec (Z.to_nat height) 0 (tileHeader e lf top width height stride ++ zeros (stride * height)))
    as (data & E1 & E2 & E3 & E4 & _); [lia|lia|rewrite zlen_app, header_len, zlen_zeros; lia|].
  exists data. split; [exact E1|]. intros screen Hs. rewrite zslice_app_l in E3 by apply header_len.
  assert (u16 lf = lf /\ u16 top = top /\ u16 (top + height - 1) = top + height - 1 /\ u16 width = width /\ u16 height = height /\
          u16 (bpp * 8) = bpp * 8) as (U1 & U2 & U3 & U4 & U5 & U6) by (splits; apply u16_small; lia).
  assert (F4 : field data 4 = lf) by (apply field_header; [done|lia|lia|transitivity (le_bytes 2 (u16 lf)); [reflexivity|by rewrite U1]]).
  assert (F10 : field data 10 = top + height - 1) by (apply field_header; [done|lia|lia|transitivity (le_bytes 2 (u16 (top + height - 1))); [reflexivity|by rewrite U3]]).
  assert (F12 : field data 12 = width) by (apply field_header; [done|lia|lia|transitivity (le_bytes 2 (u16 width)); [reflexivity|by rewrite U4]]).
  assert (F14 : field data 14 = height) by (apply field_header; [done|lia|lia|transitivity (le_bytes 2 (u16 height)); [reflexivity|by rewrite U5]]).
  assert (F16 : field data 16 = bpp * 8) by (apply field_header; [done|lia|lia|transitivity (le_bytes 2 (u16 (bpp * 8))); [reflexivity|by rewrite U6]]).
  unfold clientApply. rewrite F4, F10, F12, F14, F16, Z.div_mul by lia.
  pose proof (clientRows_spec data (Z.to_nat height) 0 screen ltac:(lia) ltac:(lia) Hs E4) as [C1 C2]. split; [exact C1|].
  intros x y ch Hxy Hch. rewrite C2 by done. by rewrite Z2Nat.id by lia.
Qed.
End Tile.

(** ** Sending and committing the tiles *)

(** The screen of the client after the payloads it received. *)
Definition screenOf (w : Z) (scr0 : list Z) (c : conn) : list Z :=
  fold_left (fun screen data => clientApply w data screen) (received c) scr0.

Lemma screenOf_snoc w scr0 l data f :
  screenOf w scr0 (mkConn (l ++ [data]) f) = clientApply w data (screenOf w scr0 (mkConn l f)).
Proof. unfold screenOf. cbn. by rewrite fold_left_app. Qed.

Section Send.
Variables (e : BitmapEncoder) (scr0 : list Z).
#[local] Abbreviation w := (e_width e).
#[local] Abbreviation h := (e_height e).
#[local] Abbreviation bpp := (bytesPerPixel e).
#[local] Abbreviation tiles := (tilesFor w * tilesFor h).
Hypotheses (Hok : encOk e) (Hlen : zlen (e_pixels e) = w * h * bpp) (Hprev : zlen (previous e) = w * h * bpp).

Lemma sameRows_spec lf n width : 0 <= lf -> 0 < width -> lf + width <= w -> forall y,
  0 <= y -> y + Z.of_nat n <= h ->
  exists b, sameRows n y w lf (width * bpp) bpp (e_pixels e) (previous e) = Some b /\
    (b = true -> forall x' y' ch, lf <= x' < lf + width -> y <= y' < y + Z.of_nat n -> 0 <= ch < bpp ->
       px bpp w (e_pixels e) x' y' ch = px bpp w (previous e) x' y' ch).
Proof using Hok Hlen Hprev.
  intros Hlf Hwd Hr. pose proof Hok as [Hw Hh Hb _ _]. assert (0 < width * bpp) by nia.
  induction n as [|n IH]; intros y Hy Hn; [exists true; split; [done|lia]|]. cbn [sameRows]. cbv zeta.
  assert (0 <= y * w) by nia. assert ((y + 1) * w <= h * w) by nia. assert (0 <= (y * w + lf) * bpp) by nia.
  assert ((y * w + lf) * bpp + width * bpp <= w * h * bpp) by nia. rewrite !slice_ok by lia.
  case_bool_decide as E; [|exists false; by split].
  destruct (IH (y + 1) ltac:(lia) ltac:(lia)) as (b & E1 & E2). exists b. split; [done|]. intros Hb' x' y' ch Hx' Hy' Hch.
  destruct (decide (y' = y)) as [->|]; [|apply E2; [done|done|lia|done]].
  replace ((y * w + lf) * bpp + width * bpp - (y * w + lf) * bpp) with (width * bpp) in E by lia.
  apply (f_equal (fun l => zget l ((x' - lf) * bpp + ch))) in E. assert ((x' - lf) * bpp + bpp <= width * bpp) by nia.
  rewrite !zget_slice in E by nia. unfold px. replace ((y * w + x') * bpp + ch) with ((y * w + lf) * bpp + ((x' - lf) * bpp + ch)) by lia.
  done.
Qed.

Definition onScreen (c : conn) : Prop := zlen (screenOf w scr0 c) = w * h * bpp.

Lemma sendTiles_spec l : forall index c,
  0 <= index -> index + zlen l = tiles -> onScreen c ->
  (refresh e = false -> forall x y ch, inFrame w h x y -> index <= tileOf w x y -> 0 <= ch < bpp ->
     px bpp w (screenOf w scr0 c) x y ch = px bpp w (previous e) x y ch) ->
  wp (sendTiles l index) (e, c)
    (fun _ s => exists c', s = (e, c') /\ onScreen c' /\
       forall x y ch, inFrame w h x y -> 0 <= ch < bpp ->
         px bpp w (screenOf w scr0 c') x y ch =
         if (index <=? tileOf w x y) && pend l (tileOf w x y - index) then px bpp w (e_pixels e) x y ch
         else px bpp w (screenOf w scr0 c) x y ch)
    (fun err s => err = EIO /\ exists c', s = (e, c')).
Proof using Hok Hlen Hprev.
  induction l as [|b l IH]; intros index c Hi Hl Hon Hpre.
  { apply wp_ret. exists c. splits; try done. intros. unfold pend. replace (zlookup [] _) with (@None bool).
    { by rewrite andb_false_r. } unfold zlookup. by destruct (_ <? 0). }
  rewrite zlen_cons in Hl. pose proof (zlen_nonneg l).
  assert (Hpend : forall t, t <> index -> (index <=? t) && pend (b :: l) (t - index) = (index + 1 <=? t) && pend l (t - (index + 1))).
  { intros t Ht. destruct (Z.leb_spec index t), (Z.leb_spec (index + 1) t); try lia; try done.
    cbn [andb]. unfold pend. rewrite zlookup_cons, (proj2 (Z.eqb_neq (t - index) 0)) by lia. do 2 f_equal. lia. }
  assert (Hhere : pend (b :: l) (index - index) = b) by (unfold pend; by rewrite Z.sub_diag, zlookup_cons).
  destruct b; cbn [sendTiles].
  2:{ assert (Hpre' : refresh e = false -> forall x y ch, inFrame w h x y -> index + 1 <= tileOf w x y -> 0 <= ch < bpp ->
        px bpp w (screenOf w scr0 c) x y ch = px bpp w (previous e) x y ch) by (intros; apply Hpre; [done|done|lia|done]).
      eapply wp_mono; [exact (IH (index + 1) c ltac:(lia) ltac:(lia) Hon Hpre')| |done].
      intros _ s (c' & -> & On' & Hpx). exists c'. splits; [done|done|]. intros x y ch Hxy Hch. rewrite Hpx by done.
      destruct (Z.eq_dec (tileOf w x y) index) as [->|Hne]; [|by rewrite Hpend].
      rewrite Hhere, andb_false_r. by replace (index + 1 <=? index) with false by lia. }
  unfold getEnc. wsteps. cbn [fst]. pose proof (tileBounds_spec e index Hok ltac:(lia)) as Hb.
  destruct (tileBounds e index) as [[[lf top] width] height]. destruct Hb as (B1 & B2 & B3 & B4 & B5 & B6 & B7).
  apply wp_bind.
  assert (Hsame : wp (if refresh e then ret false else orPanic (unchanged e lf top width height)) (e, c)
    (fun b s => s = (e, c) /\ (b = true -> refresh e = false /\
       forall x y ch, inFrame w h x y -> tileOf w x y = index -> 0 <= ch < bpp ->
         px bpp w (e_pixels e) x y ch = px bpp w (previous e) x y ch)) (fun _ _ => False)).
  { destruct (refresh e) eqn:Er; [by wsteps|]. unfold unchanged. rewrite Hlen, Hprev, Z.eqb_refl. cbn [negb].
    destruct (sameRows_spec lf (Z.to_nat height) width B1 ltac:(lia) B3 top B4 ltac:(lia)) as (b & E1 & E2). rewrite E1.
    apply wp_ret. split; [done|]. intros ->. split; [done|]. intros x y ch Hxy Ht Hch. specialize (B7 x y Hxy).
    rewrite Ht, Z.eqb_refl in B7. symmetry in B7. zbool. apply E2; [done|lia|lia|done]. }
  eapply wp_mono; [exact Hsame| |done]. intros same s [-> Hsm]. cbv beta. apply wp_bind.
  assert (Hone : wp (if same then ret tt else let! data := orPanic (tile e lf top width height) in send data) (e, c)
    (fun _ s => exists c', s = (e, c') /\ onScreen c' /\
       forall x y ch, inFrame w h x y -> 0 <= ch < bpp ->
         px bpp w (screenOf w scr0 c') x y ch =
         if index =? tileOf w x y then px bpp w (e_pixels e) x y ch else px bpp w (screenOf w scr0 c) x y ch)
    (fun err s => err = EIO /\ exists c', s = (e, c'))).
  { destruct same.
    - apply wp_ret. exists c. splits; try done. intros x y ch Hxy Hch. destruct (Z.eqb_spec index (tileOf w x y)) as [Et|]; [|done].
      destruct (Hsm eq_refl) as [Hrf Hp]. rewrite Hp by done. apply Hpre; [done|done|lia|done].
    - destruct (tile_spec e lf top width height Hok Hlen B1 B2 B3 B4 B5 B6) as (data & T1 & T2). rewrite T1.
      assert (Harr : forall f, let c' := mkConn (received c ++ [data]) f in onScreen c' /\
        forall x y ch, inFrame w h x y -> 0 <= ch < bpp ->
          px bpp w (screenOf w scr0 c') x y ch =
          if index =? tileOf w x y then px bpp w (e_pixels e) x y ch else px bpp w (screenOf w scr0 c) x y ch).
      { intros f. cbv zeta. unfold onScreen. rewrite screenOf_snoc. destruct (T2 (screenOf w scr0 (mkConn (received c) f)) Hon) as [T3 T4].
        split; [done|]. intros x y ch Hxy Hch. rewrite T4 by done. by rewrite B7. }
      apply wp_bind, wp_ret. unfold send. wsteps. cbn [snd fst]. destruct (faults c) as [|[ar|] rest]; wsteps; cbn [fst snd].
      + eexists. split; [done|]. apply Harr.
      + split; [done|]. by eexists.
      + eexists. split; [done|]. apply Harr. }
  eapply wp_mono; [exact Hone| |done]. intros _ s (c1 & -> & On1 & Hpx1). cbv beta.
  assert (Hpre' : refresh e = false -> forall x y ch, inFrame w h x y -> index + 1 <= tileOf w x y -> 0 <= ch < bpp ->
    px bpp w (screenOf w scr0 c1) x y ch = px bpp w (previous e) x y ch).
  { intros Hrf x y ch Hxy Ht Hch. rewrite Hpx1 by done. rewrite (proj2 (Z.eqb_neq index (tileOf w x y))) by lia. apply Hpre; [done|done|lia|done]. }
  eapply wp_mono; [exact (IH (index + 1) c1 ltac:(lia) ltac:(lia) On1 Hpre')| |done].
  - intros _ s (c' & -> & On' & Hpx). exists c'. splits; [done|done|]. intros x y ch Hxy Hch. rewrite Hpx, Hpx1 by done.
    destruct (Z.eq_dec (tileOf w x y) index) as [->|Hne].
    + rewrite Hhere, Z.eqb_refl, Z.leb_refl. cbn [andb]. by replace (index + 1 <=? index) with false by lia.
    + rewrite Hpend by done. by rewrite (proj2 (Z.eqb_neq index (tileOf w x y))) by lia.
Qed.
End Send.

Definition committed (e : BitmapEncoder) (prev : list Z) (p : list bool) : BitmapEncoder := e <| previous := prev |> <| pending := p |>.

Lemma commitTiles_spec (c : conn) l : forall e index,
  encOk e -> zlen (e_pixels e) = e_width e * e_height e * bytesPerPixel e -> zlen (previous e) = e_width e * e_height e * bytesPerPixel e ->
  zlen (pending e) = tilesFor (e_width e) * tilesFor (e_height e) -> 0 <= index -> index + zlen l = zlen (pending e) ->
  exists prev p, commitTiles l index (e, c) = (Ok tt, (committed e prev p, c)) /\
    zlen prev = e_width e * e_height e * bytesPerPixel e /\ zlen p = zlen (pending e) /\
    (forall x y ch, inFrame (e_width e) (e_height e) x y -> 0 <= ch < bytesPerPixel e ->
       px (bytesPerPixel e) (e_width e) prev x y ch =
       if (index <=? tileOf (e_width e) x y) && pend l (tileOf (e_width e) x y - index)
       then px (bytesPerPixel e) (e_width e) (e_pixels e) x y ch else px (bytesPerPixel e) (e_width e) (previous e) x y ch) /\
    (forall j, pend p j = if (index <=? j) && pend l (j - index) then false else pend (pending e) j).
Proof.
  induction l as [|b l IH]; intros e index Hok Hlen Hprev Hpl Hi Hl.
  { exists (previous e), (pending e). assert (Hn : forall j, pend [] j = false) by (intros j; unfold pend, zlookup; by destruct (j <? 0)).
    splits; try done; [by destruct e|..]; intros; by rewrite Hn, andb_false_r. }
  rewrite zlen_cons in Hl. pose proof (zlen_nonneg l).
  assert (Hpend : forall t, t <> index -> (index <=? t) && pend (b :: l) (t - index) = (index + 1 <=? t) && pend l (t - (index + 1))).
  { intros t Ht. destruct (Z.leb_spec index t), (Z.leb_spec (index + 1) t); try lia; try done.
    cbn [andb]. unfold pend. rewrite zlookup_cons, (proj2 (Z.eqb_neq (t - index) 0)) by lia. do 2 f_equal. lia. }
  assert (Hhere : pend (b :: l) (index - index) = b) by (unfold pend; by rewrite Z.sub_diag, zlookup_cons).
  destruct b; cbn [commitTiles].
  2:{ destruct (IH e (index + 1)) as (prev & p & E1 & E2 & E3 & E4 & E5); try done; [lia|lia|]. exists prev, p. splits; try done.
      - intros x y ch Hxy Hch. rewrite E4 by done. destruct (Z.eq_dec (tileOf (e_width e) x y) index) as [->|Hne]; [|by rewrite Hpend].
        rewrite Hhere, andb_false_r. by replace (index + 1 <=? index) with false by lia.
      - intros j. rewrite E5. destruct (Z.eq_dec j index) as [->|Hne]; [|by rewrite Hpend].
        rewrite Hhere, andb_false_r. by replace (index + 1 <=? index) with false by lia. }
  unfold getEnc, updEnc, gbind, gget, gupd, ret. cbn [fst snd].
  pose proof (tileBounds_spec e index Hok ltac:(lia)) as Hb.
  destruct (tileBounds e index) as [[[lf top] width] height]. destruct Hb as (B1 & B2 & B3 & B4 & B5 & B6 & B7).
  pose proof Hok as [Hw Hh Hbpp _ _]. cbv zeta.
  destruct (copyRows_spec (bytesPerPixel e) (e_width e) lf width (fun y => (y * e_width e + lf) * bytesPerPixel e) (e_pixels e)
    ltac:(lia) B1 ltac:(lia) B3 (Z.to_nat height) top (previous e) B4) as (p1 & C1 & C2 & _ & C4).
  { intros y Hy. assert (0 <= y * e_width e) by nia. assert ((y + 1) * e_width e <= e_height e * e_width e) by nia.
    rewrite Hprev, Hlen. assert ((y * e_width e + lf + width) * bytesPerPixel e <= e_width e * e_height e * bytesPerPixel e)
      by (apply Z.mul_le_mono_nonneg_r; lia).
    assert (0 <= (y * e_width e + lf) * bytesPerPixel e) by (apply Z.mul_nonneg_nonneg; lia). splits; lia. }
  rewrite C1. cbn [orPanic ret].
  set (e1 := e <| previous := p1 |> <| pending := zinsert index false (pending e) |>).
  assert (Hok1 : encOk e1).
  { destruct Hok as [? ? ? Hal ?]. constructor; try done. cbn. destruct Hal as [(? & ? & ?)|[? ?]]; [left|by right].
    rewrite zlen_zinsert. splits; [done|lia|done]. }
  destruct (IH e1 (index + 1) Hok1 Hlen ltac:(cbn; lia)) as (prev & p & E1 & E2 & E3 & E4 & E5);
    [cbn; by rewrite zlen_zinsert|lia|cbn; rewrite zlen_zinsert; lia|].
  exists prev, p. splits; [by destruct e|done|cbn in E3; by rewrite zlen_zinsert in E3| |].
  - intros x y ch Hxy Hch. rewrite E4 by done. change (previous e1) with p1. change (e_width e1) with (e_width e).
    change (bytesPerPixel e1) with (bytesPerPixel e). change (e_pixels e1) with (e_pixels e).
    rewrite C4 by (destruct Hxy; lia). rewrite Z2Nat.id by lia.
    replace ((top <=? y) && (y <? top + height) && (lf <=? x) && (x <? lf + width)) with (index =? tileOf (e_width e) x y)
      by (rewrite B7 by done; lia).
    destruct (Z.eqb_spec index (tileOf (e_width e) x y)) as [<-|Hne].
    + rewrite Hhere, Z.leb_refl. cbn [andb]. replace (index + 1 <=? index) with false by lia. cbn [andb]. unfold px. f_equal. lia.
    + by rewrite Hpend by lia.
  - intros j. rewrite E5. change (pending e1) with (zinsert index false (pending e)). rewrite pend_insert by lia.
    destruct (Z.eqb_spec j index) as [->|Hne]; [|by rewrite Hpend]. rewrite Hhere, Z.leb_refl. cbn [andb].
    by replace (index + 1 <=? index) with false by lia.
Qed.

(** ** Writing a frame *)

Definition allocated (e : BitmapEncoder) : Prop :=
  zlen (e_pixels e) = e_width e * e_height e * bytesPerPixel e /\ zlen (previous e) = e_width e * e_height e * bytesPerPixel e /\
  zlen (pending e) = tilesFor (e_width e) * tilesFor (e_height e).

(** The pixel has the same bytes in both. *)
Definition samePx (e : BitmapEncoder) (l1 l2 : list Z) (x y : Z) : Prop :=
  forall ch, 0 <= ch < bytesPerPixel e -> px (bytesPerPixel e) (e_width e) l1 x y ch = px (bytesPerPixel e) (e_width e) l2 x y ch.

(** Tiles that are not pending were sent as they are. *)
Definition tidy (e : BitmapEncoder) : Prop :=
  forall x y, inFrame (e_width e) (e_height e) x y -> pend (pending e) (tileOf (e_width e) x y) = false ->
    samePx e (e_pixels e) (previous e) x y.

Definition deskShows (e : BitmapEncoder) (img : RGBA) (l : list Z) : Prop :=
  forall x y ch, inFrame (e_width e) (e_height e) x y -> 0 <= ch < bytesPerPixel e ->
    px (bytesPerPixel e) (e_width e) l x y ch = deskPx e img x y ch.

(** Only the pixels, the pending tiles and the source of the encoder changed. *)
Definition sameDesk (e e' : BitmapEncoder) : Prop :=
  e_width e' = e_width e /\ e_height e' = e_height e /\ bytesPerPixel e' = bytesPerPixel e.

Definition scaled (e : BitmapEncoder) (pixels : list Z) (p : list bool) : BitmapEncoder := e <| e_pixels := pixels |> <| pending := p |>.

Definition output (e : BitmapEncoder) : Rectangle := Rect 0 0 (e_width e) (e_height e).

Lemma scaled_ok e pixels p :
  encOk e -> allocated e -> zlen pixels = e_width e * e_height e * bytesPerPixel e -> zlen p = zlen (pending e) ->
  (forall x y, inFrame (e_width e) (e_height e) x y -> 3 < bytesPerPixel e -> px (bytesPerPixel e) (e_width e) pixels x y 3 = 0) ->
  encOk (scaled e pixels p) /\ allocated (scaled e pixels p).
Proof.
  intros [? ? ? ? ?] (A1 & A2 & A3) Hp Hq Hpad. assert (allocated (scaled e pixels p)) by (unfold allocated; cbn; splits; lia).
  split; [|done]. constructor; try done. by left.
Qed.

(** One region: its pixels show the image and its tiles are pending. *)
Lemma region_spec e c img region :
  encOk e -> allocated e -> validImage img -> regionOk e region ->
  exists pixels p, (do! scaleRegion img region in markPending region) (e, c) = (Ok tt, (scaled e pixels p, c)) /\
    encOk (scaled e pixels p) /\ allocated (scaled e pixels p) /\ grown (pending e) p /\
    (forall x y, inside region x y -> pend p (tileOf (e_width e) x y) = true) /\
    forall x y ch, inFrame (e_width e) (e_height e) x y -> 0 <= ch < bytesPerPixel e ->
      px (bytesPerPixel e) (e_width e) pixels x y ch =
      if insideb region x y then deskPx e img x y ch else px (bytesPerPixel e) (e_width e) (e_pixels e) x y ch.
Proof.
  intros Hok Hal Hv Hr. pose proof Hal as (A1 & A2 & A3).
  destruct (scaleRegion_spec e img Hok Hv region c Hr A1) as (pixels & E1 & E2 & E3 & E4).
  destruct (scaled_ok e pixels (pending e) Hok Hal E2 eq_refl E3) as [Hok1 _].
  assert (Es : e <| e_pixels := pixels |> = scaled e pixels (pending e)) by (by destruct e).
  destruct (markPending_spec (scaled e pixels (pending e)) c region Hok1 Hr A3) as (p & M1 & M2 & M3).
  pose proof M2 as [L _]. destruct (scaled_ok e pixels p Hok Hal E2 L E3) as [Hok2 Hal2].
  exists pixels, p. splits; try done. unfold gbind. rewrite E1, Es, M1. by destruct e.
Qed.

Lemma output_size e : encOk e -> sizeOk (output e).
Proof.
  intros [Hw Hh _ _ _]. unfold sizeOk, output. rewrite Rect_frame by lia.
  splits; [apply Empty_spec; cbn; lia|unfold Dx; cbn [minX maxX]; lia|unfold Dy; cbn [minY maxY]; lia].
Qed.

Lemma mapped_ok e img region :
  encOk e -> sizeOk (Bounds img) -> regionOk e (damageMap region (Bounds img) (output e)).
Proof.
  intros Hok Hs. pose proof Hok as [Hw Hh _ _ _]. unfold regionOk.
  destruct (damageMap_cases region (Bounds img) (output e) Hs (output_size e Hok)) as [[_ ->]|(_ & (C1 & C2 & C3 & C4) & ? & ? & _)];
    [cbn; lia|]. unfold output in *. rewrite Rect_frame in * by lia. cbn in C1, C2, C3, C4. lia.
Qed.

Lemma scaleRegions_spec img regions c : validImage img -> sizeOk (Bounds img) -> forall e,
  encOk e -> allocated e ->
  exists pixels p, scaleRegions img (output e) regions (e, c) = (Ok tt, (scaled e pixels p, c)) /\
    encOk (scaled e pixels p) /\ allocated (scaled e pixels p) /\ grown (pending e) p /\
    let cov := covered (map (fun r => damageMap r (Bounds img) (output e)) regions) in
    (forall x y, cov x y = true -> pend p (tileOf (e_width e) x y) = true) /\
    forall x y ch, inFrame (e_width e) (e_height e) x y -> 0 <= ch < bytesPerPixel e ->
      px (bytesPerPixel e) (e_width e) pixels x y ch =
      if cov x y then deskPx e img x y ch else px (bytesPerPixel e) (e_width e) (e_pixels e) x y ch.
Proof.
  intros Hv Hs. induction regions as [|r regions IH]; intros e Hok Hal; cbv zeta.
  { exists (e_pixels e), (pending e). assert (Es : scaled e (e_pixels e) (pending e) = e) by (by destruct e). rewrite Es.
    splits; try done; apply grown_refl. }
  destruct (region_spec e c img (damageMap r (Bounds img) (output e)) Hok Hal Hv (mapped_ok e img r Hok Hs))
    as (p1 & q1 & E1 & Hok1 & Hal1 & G1 & E2 & E3).
  destruct (IH (scaled e p1 q1) Hok1 Hal1) as (p2 & q2 & F1 & Hok2 & Hal2 & G2 & F2 & F3).
  change (output (scaled e p1 q1)) with (output e) in *. cbv zeta in F2, F3.
  change (bytesPerPixel (scaled e p1 q1)) with (bytesPerPixel e) in F3. change (e_width (scaled e p1 q1)) with (e_width e) in *.
  change (e_height (scaled e p1 q1)) with (e_height e) in F3. change (e_pixels (scaled e p1 q1)) with p1 in F3.
  assert (Es : scaled (scaled e p1 q1) p2 q2 = scaled e p2 q2) by (by destruct e). rewrite Es in *.
  exists p2, q2. cbn [map covered existsb].
  splits; [|done|done|by eapply grown_trans| |].
  - cbn [scaleRegions]. unfold gbind in E1 |- *. destruct (scaleRegion img _ (e, c)) as [[[]| | |] s]; try done.
    destruct (markPending _ s) as [[[]| | |] s']; try done. injection E1 as ->. by rewrite F1.
  - intros x y Hc. apply orb_true_iff in Hc as [Hc|Hc]; [|by apply F2]. apply G2, E2.
    by destruct (insideb_spec (damageMap r (Bounds img) (output e)) x y).
  - intros x y ch Hxy Hch. rewrite F3, E3 by done. change (deskPx (scaled e p1 q1) img x y ch) with (deskPx e img x y ch).
    destruct (insideb _ x y); cbn [orb]; [|done]. by destruct (covered _ x y).
Qed.

(** The stages of [WriteFrameDamage]. *)
Definition prepared (e : BitmapEncoder) (img : RGBA) (force : bool) : BitmapEncoder :=
  let size := e_width e * e_height e * bytesPerPixel e in
  let e := if zlen (e_pixels e) =? 0
           then e <| e_pixels := zeros size |> <| previous := zeros size |>
                  <| pending := replicate (Z.to_nat (columns e * Z.quot (e_height e + bitmapTileSize - 1) bitmapTileSize)) false |>
                  <| refresh := true |>
           else e in
  if force || negb (bool_decide (e_source e = Bounds img)) then e <| refresh := true |> else e.

Definition paint (img : RGBA) (regions : option (list Rectangle)) : EM unit :=
  let! e := getEnc in
  match regions with
  | Some regions =>
      if refresh e then do! scaleRegion img (output e) in markPending (output e)
      else scaleRegions img (output e) regions
  | None => do! scaleRegion img (output e) in markPending (output e)
  end.

Definition publish (img : RGBA) : EM unit :=
  do! updEnc (fun e => e <| e_source := Bounds img |>) in
  let! e := getEnc in
  do! sendTiles (pending e) 0 in
  let! e := getEnc in
  do! commitTiles (pending e) 0 in
  updEnc (fun e => e <| refresh := false |>).

Lemma WriteFrameDamage_stages img regions force e c :
  Empty (Bounds img) = false -> ValidRGBA (Some img) = true ->
  WriteFrameDamage (Some img) regions force (e, c) = (do! paint img regions in publish img) (prepared e img force, c).
Proof.
  intros He Hv. unfold WriteFrameDamage. rewrite He, Hv. cbn [negb].
  unfold paint, publish, prepared, output, getEnc, updEnc, gbind, gget, gupd, ret. cbn [fst snd].
  destruct (zlen (e_pixels e) =? 0); cbn [fst snd].
  - set (e1 := e <| e_pixels := _ |> <| previous := _ |> <| pending := _ |> <| refresh := true |>).
    change (e_source e1) with (e_source e). change (e_width e1) with (e_width e). change (e_height e1) with (e_height e).
    destruct (force || negb (bool_decide (e_source e = Bounds img))); reflexivity.
  - destruct (force || negb (bool_decide (e_source e = Bounds img))); reflexivity.
Qed.

(** The state between calls. *)
Record encState (e : BitmapEncoder) : Prop := {
  es_ok : encOk e;
  es_tidy : allocated e -> tidy e
}.

Lemma prepared_spec e img force :
  encState e ->
  let e1 := prepared e img force in
  encOk e1 /\ allocated e1 /\ tidy e1 /\ sameDesk e e1 /\
  (refresh e1 = false -> e1 = e /\ allocated e /\ force = false /\ e_source e = Bounds img) /\
  (force = true \/ e_pixels e = [] \/ e_source e <> Bounds img -> refresh e1 = true).
Proof.
  intros [Hok Ht]. cbv zeta. unfold prepared. pose proof Hok as [Hw Hh Hb Hl Hp].
  assert (Hal' : zlen (e_pixels e) <> 0 -> allocated e) by (intros Hn; destruct Hl as [?|[Hn' _]]; [done|by rewrite Hn' in Hn]).
  assert (Hsz : 0 < e_width e * e_height e * bytesPerPixel e) by nia.
  assert (Hnil : zlen (e_pixels e) <> 0 -> e_pixels e <> []) by (intros Hn Hn'; by rewrite Hn' in Hn).
  destruct (Z.eqb_spec (zlen (e_pixels e)) 0) as [E|E].
  - set (e1 := e <| e_pixels := _ |> <| previous := _ |> <| pending := _ |> <| refresh := true |>).
    assert (Ha1 : allocated e1).
    { unfold allocated. cbn. rewrite !zlen_zeros. splits; [lia|lia|]. rewrite columns_tiles by lia.
      unfold bitmapTileSize. rewrite Z.quot_div_nonneg by lia. change ((e_height e + 64 - 1) / 64) with (tilesFor (e_height e)).
      pose proof (tilesFor_spec (e_width e) ltac:(lia)). pose proof (tilesFor_spec (e_height e) ltac:(lia)).
      unfold zlen. rewrite length_replicate. nia. }
    assert (Hok1 : encOk e1).
    { constructor; try done; [by left|]. intros x y _ _. unfold px. apply zget_zeros. }
    assert (Ht1 : tidy e1) by done.
    destruct (force || _); splits; try done; by constructor.
  - specialize (Hal' E). specialize (Hnil E). destruct (force || negb (bool_decide (e_source e = Bounds img))) eqn:Ef.
    + splits; try done; [|by apply Ht]. constructor; try done. by left.
    + apply orb_false_iff in Ef as [-> Ef]. apply negb_false_iff, bool_decide_eq_true in Ef. splits; try done; [by apply Ht|].
      intros [?|[?|?]]; done.
Qed.

(** The regions cover what differs between the images. *)
Definition told (img0 img : RGBA) (regions : option (list Rectangle)) : Prop :=
  Bounds img0 = Bounds img /\
  match regions with
  | None => True
  | Some rs =>
      forall x y ch, inFrame (Dx (Bounds img)) (Dy (Bounds img)) x y -> 0 <= ch < 3 ->
        covered rs (minX (Bounds img) + x) (minY (Bounds img) + y) = false -> imgPx img0 x y ch = imgPx img x y ch
  end.

(** The pixel of the desktop shows one pixel of the image. *)
Lemma deskPx_sample e img0 img x y ch :
  Bounds img0 = Bounds img ->
  let sx := sample x (Dx (Bounds img)) (e_width e) in
  let sy := sample y (Dy (Bounds img)) (e_height e) in
  (forall ch, 0 <= ch < 3 -> imgPx img0 sx sy ch = imgPx img sx sy ch) ->
  deskPx e img0 x y ch = deskPx e img x y ch.
Proof.
  intros Hb. cbv zeta. intros H. unfold deskPx. rewrite Hb. cbv zeta. pose proof (H 0 ltac:(lia)) as H0.
  pose proof (H 1 ltac:(lia)) as H1. pose proof (H 2 ltac:(lia)) as H2. unfold imgPx in H0, H1, H2.
  rewrite !Z.add_0_r in H0. by rewrite H0, H1, H2.
Qed.

Lemma covered_map rs img e x y :
  encOk e -> sizeOk (Bounds img) -> inFrame (e_width e) (e_height e) x y ->
  covered (map (fun r => damageMap r (Bounds img) (output e)) rs) x y =
  covered rs (minX (Bounds img) + sample x (Dx (Bounds img)) (e_width e)) (minY (Bounds img) + sample y (Dy (Bounds img)) (e_height e)).
Proof.
  intros Hok Hs Hxy. pose proof (output_size e Hok) as Ho. destruct (en_w _ Hok) as [Hw _], (en_h _ Hok) as [Hh _].
  assert (Hin : inside (output e) x y) by (unfold output; rewrite Rect_frame by lia; exact Hxy).
  unfold covered. induction rs as [|r rs IH]; cbn [map existsb]; [done|]. rewrite IH. f_equal.
  pose proof (damageMap_iff r (Bounds img) (output e) x y Hs Ho Hin) as H.
  assert (Eo : output e = mkRect 0 0 (e_width e) (e_height e)) by (unfold output; by rewrite Rect_frame by lia).
  replace (minX (output e)) with 0 in H by (by rewrite Eo). replace (minY (output e)) with 0 in H by (by rewrite Eo).
  replace (Dx (output e)) with (e_width e) in H by (rewrite Eo; unfold Dx; cbn; lia).
  replace (Dy (output e)) with (e_height e) in H by (rewrite Eo; unfold Dy; cbn; lia). rewrite !Z.sub_0_r in H.
  destruct (insideb_spec (damageMap r (Bounds img) (output e)) x y), (insideb_spec r
    (minX (Bounds img) + sample x (Dx (Bounds img)) (e_width e)) (minY (Bounds img) + sample y (Dy (Bounds img)) (e_height e))); tauto.
Qed.

(** The first stage: the desktop shows the image. *)
Lemma paint_spec e c img regions :
  encOk e -> allocated e -> tidy e -> validImage img -> sizeOk (Bounds img) ->
  (refresh e = false -> exists img0, told img0 img regions /\ deskShows e img0 (e_pixels e)) ->
  exists pixels p, paint img regions (e, c) = (Ok tt, (scaled e pixels p, c)) /\
    encOk (scaled e pixels p) /\ allocated (scaled e pixels p) /\ tidy (scaled e pixels p) /\
    deskShows e img pixels /\
    (refresh e = true -> forall x y, inFrame (e_width e) (e_height e) x y -> pend p (tileOf (e_width e) x y) = true).
Proof.
  intros Hok Hal Ht Hv Hs Htold. destruct (en_w _ Hok) as [Hw _], (en_h _ Hok) as [Hh _].
  assert (Hfull : exists pixels p, (do! scaleRegion img (output e) in markPending (output e)) (e, c) = (Ok tt, (scaled e pixels p, c)) /\
    encOk (scaled e pixels p) /\ allocated (scaled e pixels p) /\ tidy (scaled e pixels p) /\ deskShows e img pixels /\
    (refresh e = true -> forall x y, inFrame (e_width e) (e_height e) x y -> pend p (tileOf (e_width e) x y) = true)).
  { assert (Hr : regionOk e (output e)) by (unfold regionOk, output; rewrite Rect_frame by lia; cbn; lia).
    destruct (region_spec e c img (output e) Hok Hal Hv Hr) as (pixels & p & E1 & E2 & E3 & _ & E4 & E5).
    assert (Hp : forall x y, inFrame (e_width e) (e_height e) x y -> pend p (tileOf (e_width e) x y) = true).
    { intros x y Hxy. apply E4. unfold output. rewrite Rect_frame by lia. exact Hxy. }
    exists pixels, p. splits; try done.
    - intros x y Hxy Hn. cbn in Hn. rewrite Hp in Hn by done. done.
    - intros x y ch Hxy Hch. rewrite E5 by done. replace (insideb (output e) x y) with true; [done|].
      symmetry. unfold output. by apply insideb_frame; [lia..|]. }
  unfold paint, getEnc, gbind at 1, gbind at 1, gget. cbn [fst ret].
  destruct regions as [rs|]; [|exact Hfull]. destruct (refresh e) eqn:Er; [exact Hfull|]. clear Hfull.
  destruct (Htold eq_refl) as (img0 & [Hb Hold] & Hd). cbn [fst].
  destruct (scaleRegions_spec img rs c Hv Hs e Hok Hal) as (pixels & p & E1 & E2 & E3 & [_ Hg] & E4 & E5). cbv zeta in E4, E5.
  exists pixels, p. splits; try done.
  - intros x y Hxy Hn ch Hch. cbn in Hn, Hch |- *. rewrite E5 by done.
    destruct (covered _ x y) eqn:Ec; [by rewrite E4 in Hn|]. apply (Ht x y Hxy); [|done].
    destruct (pend (pending e) (tileOf (e_width e) x y)) eqn:Ep; [|done]. apply Hg in Ep. congruence.
  - intros x y ch Hxy Hch. rewrite E5 by done. rewrite covered_map by done.
    destruct (covered rs _ _) eqn:Ec; [done|]. rewrite Hd by done. apply deskPx_sample; [done|]. cbv zeta. intros ch' Hch'.
    apply Hold; [|done|done]. destruct Hxy as [Hx Hy]. destruct Hs as (Hs & _). apply Empty_spec in Hs.
    split; apply sample_range; unfold Dx, Dy; lia.
Qed.

(** The screen of the client shows the image, and the encoder knows it. *)
Record current (e : BitmapEncoder) (img : RGBA) (screen : list Z) : Prop := {
  cu_alloc : allocated e;
  cu_refresh : refresh e = false;
  cu_pending : forall i, pend (pending e) i = false;
  cu_source : e_source e = Bounds img;
  cu_pixels : deskShows e img (e_pixels e);
  cu_screen : deskShows e img screen
}.

Lemma pend_negative p i : i < 0 -> pend p i = false.
Proof. intros. unfold pend, zlookup. by destruct (Z.ltb_spec i 0); [|lia]. Qed.

Definition written (e0 : BitmapEncoder) (img : RGBA) (scr0 : list Z) (s : BitmapEncoder * conn) : Prop :=
  encState (fst s) /\ sameDesk e0 (fst s) /\ onScreen e0 scr0 (snd s) /\ current (fst s) img (screenOf (e_width e0) scr0 (snd s)).

(** The second stage: so does the screen. *)
Lemma publish_spec e c img scr0 :
  encOk e -> allocated e -> tidy e -> deskShows e img (e_pixels e) -> onScreen e scr0 c ->
  (refresh e = true -> forall x y, inFrame (e_width e) (e_height e) x y -> pend (pending e) (tileOf (e_width e) x y) = true) ->
  (refresh e = false -> forall x y, inFrame (e_width e) (e_height e) x y -> samePx e (screenOf (e_width e) scr0 c) (previous e) x y) ->
  wp (publish img) (e, c) (fun _ s => written e img scr0 s)
    (fun err s => err = EIO /\ encState (fst s) /\ sameDesk e (fst s)).
Proof.
  intros Hok Hal Ht Hd Hon Hall Hprev. pose proof Hal as (A1 & A2 & A3). unfold publish.
  set (e0 := e <| e_source := Bounds img |>). assert (Hok0 : encOk e0) by (destruct Hok; by constructor).
  assert (Hst0 : encState e0) by (by constructor).
  apply wp_bind. unfold updEnc at 1. apply wp_gupd. cbn [fst snd]. fold e0. apply wp_bind. unfold getEnc at 1. wsteps. cbn [fst].
  wcall (sendTiles_spec e0 scr0 Hok0 A1 A2 (pending e0) 0 c); [lia|exact A3|done| | |].
  { intros Hr x y ch Hxy _ Hch. by apply Hprev. }
  2: { intros err s (-> & c' & ->). splits; [done|exact Hst0|done]. }
  intros [] s (c' & -> & Hon' & Hscr). apply wp_bind. unfold getEnc at 1. wsteps. cbn [fst].
  destruct (commitTiles_spec c' (pending e0) e0 0 Hok0 A1 A2 A3 ltac:(lia) ltac:(lia)) as (prev & p & E1 & E2 & E3 & E4 & E5).
  unfold wp at 1. rewrite E1. unfold updEnc. apply wp_gupd. cbn [fst snd].
  set (e' := committed e0 prev p <| refresh := false |>).
  assert (Hnone : forall i, pend p i = false).
  { intros i. rewrite E5, Z.sub_0_r. destruct (Z.leb_spec 0 i); [|by apply pend_negative]. by destruct (pend (pending e0) i). }
  assert (Hal' : allocated e') by (unfold allocated; cbn; rewrite E3; splits; [exact A1|exact E2|exact A3]).
  assert (Htile : forall x y, inFrame (e_width e) (e_height e) x y -> (0 <=? tileOf (e_width e) x y) = true).
  { intros x y Hxy. pose proof (tileOf_in (e_width e) (e_height e) x y Hxy). lia. }
  unfold written. cbn [fst snd]. splits; [|done|done|].
  - constructor; [destruct Hok0; constructor; try done; by left|]. intros _ x y Hxy _ ch Hch. cbn. rewrite E4 by done.
    rewrite Htile by done. rewrite Z.sub_0_r. destruct (pend (pending e0) _) eqn:Ep; [done|]. by apply (Ht x y Hxy).
  - constructor; try done. intros x y ch Hxy Hch. change (px _ _ _ x y ch) with (px (bytesPerPixel e) (e_width e) (screenOf (e_width e) scr0 c') x y ch).
    change (deskPx e' img x y ch) with (deskPx e img x y ch). rewrite <- Hd by done. etransitivity; [by apply Hscr|].
    change (e_width e0) with (e_width e). rewrite Htile by done. rewrite Z.sub_0_r.
    destruct (pend (pending e0) (tileOf (e_width e) x y)) eqn:Ep; [done|]. destruct (refresh e) eqn:Er.
    + by rewrite (Hall eq_refl) in Ep.
    + etransitivity; [by apply (Hprev eq_refl)|]. symmetry. by apply (Ht x y Hxy).
Qed.

(** A frame is written: the whole image when the writer asks for it, the encoder
    has sent nothing yet or the last frame was not sent or had another size; else
    what changed since the image the screen shows. *)
Lemma WriteFrameDamage_spec e c img regions force scr0 :
  encState e -> onScreen e scr0 c -> ValidRGBA (Some img) = true -> sizeOk (Bounds img) ->
  (force = true \/ e_pixels e = [] \/ e_source e <> Bounds img \/ refresh e = true \/
   exists img0, told img0 img regions /\ current e img0 (screenOf (e_width e) scr0 c)) ->
  wp (WriteFrameDamage (Some img) regions force) (e, c) (fun _ s => written e img scr0 s)
    (fun err s => err = EIO /\ encState (fst s) /\ sameDesk e (fst s)).
Proof.
  intros Hst Hon Hv Hs Hwhy. unfold wp. rewrite WriteFrameDamage_stages by (done || apply Hs).
  destruct (prepared_spec e img force Hst) as (Hok1 & Hal1 & Ht1 & Hsd & Hkeep & Hset). cbv zeta in *.
  set (e1 := prepared e img force) in *. pose proof Hsd as (W1 & W2 & W3).
  assert (Hcur : refresh e1 = false -> e1 = e /\ exists img0, told img0 img regions /\ current e img0 (screenOf (e_width e) scr0 c)).
  { intros Hr. destruct (Hkeep Hr) as (E & _ & Hf & Hsrc). split; [done|].
    destruct Hwhy as [Hw|[Hw|[Hw|[Hw|Hw]]]]; [rewrite Hset in Hr by auto; done.. | |done]. congruence. }
  destruct (paint_spec e1 c img regions Hok1 Hal1 Ht1 (ValidRGBA_valid _ Hv) Hs) as (pixels & p & E1 & P1 & P2 & P3 & P4 & P5).
  { intros Hr. destruct (Hcur Hr) as (-> & img0 & T & [_ _ _ _ C _]). by exists img0. }
  unfold gbind at 1. rewrite E1.
  change (wp (publish img) (scaled e1 pixels p, c) (fun _ s => written e img scr0 s)
    (fun err s => err = EIO /\ encState (fst s) /\ sameDesk e (fst s))).
  wcall (publish_spec (scaled e1 pixels p) c img scr0 P1 P2 P3 P4); [|done| | |].
  - unfold onScreen in *. cbn. by rewrite W1, W2, W3.
  - intros Hr x y Hxy ch Hch. cbn in *. destruct (Hcur Hr) as (Ee & img0 & T & [C1 C2 C3 C4 C5 C6]). rewrite Ee in *.
    rewrite C6 by done. rewrite <- C5 by done. apply (es_tidy e Hst C1 x y Hxy (C3 _) ch Hch).
  - intros _ s (K1 & K2 & K3 & K4). unfold written, onScreen, sameDesk in *. cbn in K2, K3, K4. rewrite W1, W2, W3 in *. done.
  - intros err s (K1 & K2 & K3). unfold sameDesk in *. cbn in K3. rewrite W1, W2, W3 in *. done.
Qed.

(** ** A connection without faults *)

(** No error, and there will be none. *)
Definition reliable {A} (m : EM A) : Prop :=
  forall e c, faults c = [] -> match m (e, c) with (Err _, _) => False | (_, s) => faults (snd s) = [] end.

Lemma reliable_ret {A} (a : A) : reliable (ret a).
Proof. by intros e c. Qed.

Lemma reliable_bind {A B} (m : EM A) (k : A -> EM B) : reliable m -> (forall a, reliable (k a)) -> reliable (let! a := m in k a).
Proof.
  intros Hm Hk e c Hc. specialize (Hm e c Hc). unfold gbind. destruct (m (e, c)) as [[a|err| |] [e' c']]; try done. by apply Hk.
Qed.

Lemma reliable_orPanic {A} (o : option A) : reliable (orPanic o).
Proof. by destruct o; intros e c. Qed.

Lemma reliable_getEnc : reliable getEnc.
Proof. by intros e c. Qed.

Lemma reliable_updEnc f : reliable (updEnc f).
Proof. by intros e c. Qed.

Lemma reliable_send data : reliable (send data).
Proof. intros e c Hc. unfold send, gbind, gget, gupd. cbn. by rewrite Hc. Qed.

Create HintDb reliable.
#[export] Hint Resolve reliable_ret reliable_orPanic reliable_getEnc reliable_updEnc reliable_send : reliable.

Ltac reliably :=
  repeat (first [ solve [eauto with reliable] | simple apply reliable_bind; [|intros ?]
                | match goal with |- reliable (if ?b then _ else _) => destruct b end
                | match goal with |- reliable (match ?x with _ => _ end) => destruct x end ]).

Lemma reliable_sendTiles l : forall index, reliable (sendTiles l index).
Proof. induction l as [|b l IH]; intros index; cbn [sendTiles]; reliably. Qed.

Lemma reliable_commitTiles l : forall index, reliable (commitTiles l index).
Proof. induction l as [|b l IH]; intros index; cbn [commitTiles]; reliably. Qed.

Lemma reliable_scaleRegion img region : reliable (scaleRegion img region).
Proof. unfold scaleRegion. reliably. Qed.

Lemma reliable_markPending region : reliable (markPending region).
Proof. unfold markPending. reliably. Qed.

#[export] Hint Resolve reliable_sendTiles reliable_commitTiles reliable_scaleRegion reliable_markPending : reliable.

Lemma reliable_scaleRegions img out regions : reliable (scaleRegions img out regions).
Proof. induction regions; cbn [scaleRegions]; reliably. Qed.

#[export] Hint Resolve reliable_scaleRegions : reliable.

Lemma reliable_frame img regions force : ValidRGBA (Some img) = true -> reliable (WriteFrameDamage (Some img) regions force).
Proof. intros Hv. unfold WriteFrameDamage. rewrite Hv. cbn [negb]. cbv zeta. reliably. Qed.

(** ** A retry after a failed send *)

(** A desktop of two tiles; the frame is black, then its first and last pixels are
    white: the first tile reaches the client, the second does not; then it is black
    again.  The retry succeeds, but does not send the first tile: its pixels are
    those of the last frame that was sent as a whole.  The client keeps a white pixel. *)
Definition rowImage (v : Z) : RGBA :=
  mkRGBA ([v; v; v; 255] ++ concat (replicate 63 [0; 0; 0; 255]) ++ [v; v; v; 255]) 260 (mkRect 0 0 65 1).

Definition twoTiles : BitmapEncoder := mkEnc 65 1 2 [] [] ZR [] false.
Definition stale1 : result unit * (BitmapEncoder * conn) :=
  WriteFrameDamage (Some (rowImage 0)) None false (twoTiles, mkConn [] [None; None; None; Some false]).
Definition stale2 : result unit * (BitmapEncoder * conn) := WriteFrameDamage (Some (rowImage 255)) None false (snd stale1).
Definition stale3 : result unit * (BitmapEncoder * conn) := WriteFrameDamage (Some (rowImage 0)) None false (snd stale2).

Example retry_leaves_stale_tile :
  fst stale1 = Ok tt /\ fst stale2 = Err EIO /\ fst stale3 = Ok tt /\
  px 2 65 (e_pixels (fst (snd stale3))) 0 0 0 = 0 /\ px 2 65 (screenOf 65 (zeros 130) (snd (snd stale3))) 0 0 0 = 255.
Proof. vm_compute. by splits. Qed.
