(* ===== verification/RdpClient.v ===== *)
(** * The frame writer of an RDP session

    [rdpFrameWriter] of [src/internal/virtio/rdp.go] without the graphics channel:
    each turn of the loop of [writeFrames] may resize the desktop, and sends the
    client the bitmap of the frame when there is a new one, the display is ready,
    the output not suppressed and the frame due.  The framebuffer goes on changing
    between two turns.  The file shows that the client's screen shows the guest's
    frame after every turn that might send and ended without an error. *)
From S2P Require Import Prelude Bytes GpuImage Framebuffer FramebufferSpec FramebufferConsole RdpBitmap RdpBitmapSpec.

(** ** The writer *)

Record rdpFrameWriter := mkWriter {
  bitmap : BitmapEncoder;
  w_frame : vncFrame;
  w_width : Z;
  w_height : Z;
  sequence : Z;
  w_force : bool;
  nextFrame : option Z;   (* instants in nanoseconds; [None] is the zero time *)
  lastFrame : option Z
}.
#[export] Instance eta_writer : Settable rdpFrameWriter := fun w =>
  mkWriter (bitmap w) (w_frame w) (w_width w) (w_height w) (sequence w) (w_force w)
    (nextFrame w) (lastFrame w).

(** A session: its size and depth, its writer, what reached the client since its
    desktop was made, and what the desktop showed then. *)
Record session := mkSession {
  r_sys : sys;
  r_width : Z;
  r_height : Z;
  BitsPerPixel : Z;
  r_writer : rdpFrameWriter;
  r_conn : conn;
  r_surface : list Z;
  r_running : bool
}.
#[export] Instance eta_session : Settable session := fun s =>
  mkSession (r_sys s) (r_width s) (r_height s) (BitsPerPixel s) (r_writer s) (r_conn s) (r_surface s) (r_running s).

Abbreviation W := (M session).

Definition r_fb (s : session) : framebuffer := fb (r_sys s).

Definition updWriter (f : rdpFrameWriter -> rdpFrameWriter) : W unit := gupd (fun s => s <| r_writer := f (r_writer s) |>).

Definition onFramebuffer {A} (m : M framebuffer A) : W A := fun s =>
  let '(r, d) := m (r_fb s) in (r, s <| r_sys := mkSys d (readers (r_sys s)) (handed (r_sys s)) |>).

Definition onBitmap {A} (m : EM A) : W A := fun s =>
  let '(r, (b, c)) := m (bitmap (r_writer s), r_conn s) in
  (r, s <| r_writer := r_writer s <| bitmap := b |> |> <| r_conn := c |>).

(** What the encoder of the desktop is, or why there is none. *)
Definition newEncoder (width height bpp : Z) : W BitmapEncoder :=
  match NewBitmapEncoder width height bpp with inl b => ret b | inr e => throw e end.

Definition updateSize : W unit :=
  let! s := gget in
  let w := r_writer s in
  if (r_width s =? w_width w) && (r_height s =? w_height w) then ret tt
  else
    let! b := newEncoder (r_width s) (r_height s) (BitsPerPixel s) in
    updWriter (fun w => w <| bitmap := b |> <| w_width := r_width s |> <| w_height := r_height s |> <| w_force := true |>
                          <| nextFrame := None |> <| lastFrame := None |>).

(** The image of the frame, [write]. *)
Definition frameImage (f : vncFrame) : RGBA :=
  let rect := Rect 0 0 (f_width f) (f_height f) in
  if zlen (f_pix f) =? 0 then NewRGBA rect else mkRGBA (f_pix f) (f_width f * 4) rect.

Definition write (f : vncFrame) (damage : list Rectangle) (force : bool) : W unit :=
  onBitmap (WriteFrameDamage (Some (frameImage f)) (Some damage) force).

(** Thirty frames a second. *)
Definition frameInterval : Z := 1000000000 / 30.

Definition frameDeadline (w : rdpFrameWriter) : option Z :=
  match lastFrame w with Some t => Some (t + frameInterval) | None => nextFrame w end.

(** The deadline is past. *)
Definition due (now : Z) (w : rdpFrameWriter) : bool :=
  match frameDeadline w with Some t => t <=? now | None => true end.

(** [writeWhenReady] at the instant [now]; the result is the instant the timer
    was set to when the frame is not due. *)
Definition writeWhenReady (now : Z) : W (option Z) :=
  let! s := gget in
  let w := r_writer s in
  if negb (due now w) then ret (frameDeadline w)
  else
  do! updWriter (fun w => w <| lastFrame := Some now |> <| nextFrame := Some (now + frameInterval) |>) in
  let! p := onFramebuffer (copyFrameChanges (w_frame w) (w_force w)) in
  let '(f, damage) := p in
  do! updWriter (fun w => w <| w_frame := f |>) in
  do! write f damage (w_force w) in
  do! updWriter (fun w => w <| w_force := false |> <| sequence := f_seq f |>) in
  ret None.

(** ** The session *)

Section Session.
Context (renderConsole : vncTextConsole -> RGBA).

(** The desktop the client makes; [fill] is what it shows at first. *)
Definition surfaceOf (fill : Z -> Z) (width height bpp : Z) : list Z := map fill (seqZ 0 (width * height * (bpp / 8))).

(** [Session.Resize], on a session that may be resized: a new size is a new desktop. *)
Definition Resize (width height : Z) (fill : Z -> Z) : W unit :=
  let! s := gget in
  if (r_width s =? width) && (r_height s =? height) then ret tt
  else gupd (fun s => s <| r_width := width |> <| r_height := height |>
                        <| r_surface := surfaceOf fill width height (BitsPerPixel s) |>
                        <| r_conn := mkConn [] (faults (r_conn s)) |>).

(** What a turn finds when it comes to the frame: whether the display is ready,
    whether the client has suppressed the output, and the clock. *)
Record moment := mkMoment { DisplayReady : bool; suppressed : bool; now : Z }.

(** One turn of the loop.  [resize] is the size of the desktop asked for, when
    the delay of the request is over and the display ready. *)
Definition turn (resize : option (Z * Z * (Z -> Z))) (m : moment) : W (option Z) :=
  do! (match resize with Some (width, height, fill) => Resize width height fill | None => ret tt end) in
  do! updateSize in
  let! s := gget in
  let changed := frameChanged (sequence (r_writer s)) (w_force (r_writer s)) (r_fb s) in
  let pendingFrame := changed && DisplayReady m && negb (suppressed m) in
  if pendingFrame then writeWhenReady (now m) else ret None.

(** The start of [writeFrames]. *)
Definition startSession (s : sys) (width height bpp : Z) (fill : Z -> Z) (f : list (option bool)) : session + error :=
  match NewBitmapEncoder width height bpp with
  | inl b => inl (mkSession s width height bpp (mkWriter b (mkFrame 0 0 [] 0) width height 0 true None None) (mkConn [] f)
                    (surfaceOf fill width height bpp) true)
  | inr e => inr e
  end.

(** What happens: something with the framebuffer, the client asking for a refresh,
    a turn of the loop, until it ends with an error. *)
Inductive rdpOp :=
| RFramebuffer (o : fbOp)
| RRefresh
| RTurn (resize : option (Z * Z * (Z -> Z))) (m : moment).

Definition rdpStep (o : rdpOp) (s : session) : option session :=
  match o with
  | RFramebuffer o => option_map (fun y => s <| r_sys := y |>) (fbStep renderConsole o (r_sys s))
  | RRefresh => Some (s <| r_writer := r_writer s <| w_force := true |> |>)
  | RTurn resize m =>
      if r_running s then
        match turn resize m s with
        | (Ok _, s) => Some s
        | (Err _, s) => Some (s <| r_running := false |>)
        | (Panic, _) | (OutOfFuel, _) => None
        end
      else Some s
  end.

(** Frames have less than 2^31 columns and rows, and fewer than 2^64 were published. *)
Definition bounded (s : session) : Prop :=
  width (r_fb s) < 2 ^ 31 /\ height (r_fb s) < 2 ^ 31 /\ seq (r_fb s) + 1 < 2 ^ 64.

Inductive reaches : session -> Prop :=
| reaches_start l y width height bpp fill f s :
    fbRun renderConsole l newSys = Some y -> zlen l < 2 ^ 63 -> startSession y width height bpp fill f = inl s -> reaches s
| reaches_step o s s' : reaches s -> bounded s -> rdpStep o s = Some s' -> reaches s'.

(** The screen of the client. *)
Definition screen (s : session) : list Z := screenOf (r_width s) (r_surface s) (r_conn s).

(** It shows the frame: each pixel the one of the frame at its place, in the depth of
    the session. *)
Definition showsFrame (s : session) : Prop :=
  forall x y ch, inFrame (r_width s) (r_height s) x y -> 0 <= ch < BitsPerPixel s / 8 ->
    let d := r_fb s in
    let at_ k := px 4 (width d) (framePix d) (sample x (width d) (r_width s)) (sample y (height d) (r_height s)) k in
    px (BitsPerPixel s / 8) (r_width s) (screen s) x y ch =
    zget (packPixel (BitsPerPixel s / 8) (at_ 0) (at_ 1) (at_ 2)) ch.

(** ** Invariant *)

(** A copy with the sequence number of the frame is the frame. *)
Definition synced (d : framebuffer) (f : vncFrame) : Prop :=
  f_seq f = seq d ->
  f_width f = width d /\ f_height f = height d /\
  forall x y ch, inFrame (width d) (height d) x y -> 0 <= ch < 4 ->
    px 4 (width d) (f_pix f) x y ch = px 4 (width d) (framePix d) x y ch.

Lemma carries_synced d d' f : carries d d' -> readerOk d f -> synced d f -> synced d' f.
Proof.
  intros (H1 & _ & H2) [Hr _] Hs E. destruct (H2 ltac:(lia)) as (E1 & E2 & E3). rewrite E1, E2, E3. apply Hs. lia.
Qed.

(** A copy of a frame. *)
Record frameOk (f : vncFrame) : Prop := {
  fo_w : 0 < f_width f;
  fo_h : 0 < f_height f;
  fo_len : zlen (f_pix f) = f_width f * f_height f * 4
}.

Lemma frameImage_ok f : frameOk f ->
  frameImage f = mkRGBA (f_pix f) (f_width f * 4) (mkRect 0 0 (f_width f) (f_height f)).
Proof.
  intros [Hw Hh Hl]. unfold frameImage. cbv zeta. rewrite Rect_frame by done. destruct (Z.eqb_spec (zlen (f_pix f)) 0); [nia|done].
Qed.

Lemma frameImage_px f x y ch : frameOk f -> imgPx (frameImage f) x y ch = px 4 (f_width f) (f_pix f) x y ch.
Proof. intros Hf. rewrite frameImage_ok by done. unfold imgPx, px. cbn. f_equal. lia. Qed.

Lemma frameImage_valid f : frameOk f -> ValidRGBA (Some (frameImage f)) = true.
Proof.
  intros Hf. rewrite frameImage_ok by done. destruct Hf as [Hw Hh Hl]. unfold ValidRGBA, Dx, Dy, Empty.
  cbn [Bounds Pix Stride minX minY maxX maxY]. rewrite !Z.sub_0_r, Hl.
  assert (E0 : (f_width f <=? 0) || (f_height f <=? 0) = false) by lia. rewrite E0.
  assert (Eq : Z.quot (f_width f * f_height f * 4 - f_width f * 4) (f_width f * 4) = f_height f - 1).
  { replace (f_width f * f_height f * 4 - f_width f * 4) with ((f_height f - 1) * (f_width f * 4)) by lia. apply Z.quot_mul. lia. }
  rewrite Eq, Z.quot_mul by lia. nia.
Qed.

(** What holds between two turns. *)
Record connected (s : session) : Prop := {
  co_size : r_width s = w_width (r_writer s) /\ r_height s = w_height (r_writer s);
  co_enc : encState (bitmap (r_writer s));
  co_desk : e_width (bitmap (r_writer s)) = r_width s /\ e_height (bitmap (r_writer s)) = r_height s /\
            bytesPerPixel (bitmap (r_writer s)) = BitsPerPixel s / 8;
  co_screen : onScreen (bitmap (r_writer s)) (r_surface s) (r_conn s);
  co_reader : readerOk (r_fb s) (w_frame (r_writer s));
  co_sent : w_force (r_writer s) = true \/
    (frameOk (w_frame (r_writer s)) /\ current (bitmap (r_writer s)) (frameImage (w_frame (r_writer s))) (screen s) /\
     sequence (r_writer s) = f_seq (w_frame (r_writer s)) /\ synced (r_fb s) (w_frame (r_writer s)))
}.

Record sessionOk (s : session) : Prop := {
  sn_sys : sysOk (r_sys s);
  sn_connected : r_running s = true -> connected s
}.

(** A client that was sent the frame shows it. *)
Lemma sent_shows s :
  connected s -> w_force (r_writer s) = false -> sequence (r_writer s) = seq (r_fb s) -> showsFrame s.
Proof.
  intros [[S1 S2] _ (D1 & D2 & D3) _ _ C] Hf Hq. destruct C as [C|(Hok & [_ _ _ _ _ C] & C2 & C3)]; [congruence|].
  destruct C3 as (E1 & E2 & E3); [lia|]. pose proof Hok as [Hw Hh _]. intros x y ch Hxy Hch. cbv zeta.
  rewrite <- D1, <- D2, <- D3 in *. rewrite C by done. unfold deskPx. cbv zeta. rewrite (frameImage_ok _ Hok). unfold Dx, Dy.
  cbn [Bounds Pix Stride minX minY maxX maxY]. rewrite !Z.sub_0_r, E1, E2.
  assert (Hin : inFrame (width (r_fb s)) (height (r_fb s)) (sample x (width (r_fb s)) (e_width (bitmap (r_writer s))))
    (sample y (height (r_fb s)) (e_height (bitmap (r_writer s))))) by (destruct Hxy; split; apply sample_range; lia).
  rewrite <- !E3 by (done || lia). unfold px. f_equal. f_equal; f_equal; lia.
Qed.

(** ** Turns *)

Lemma NewBitmapEncoder_spec w h bpp b :
  NewBitmapEncoder w h bpp = inl b ->
  encState b /\ e_width b = w /\ e_height b = h /\ bytesPerPixel b = bpp / 8 /\ 0 < w /\ 0 < h /\ 0 < bpp / 8.
Proof.
  unfold NewBitmapEncoder. destruct ((w <=? 0) || _ || _ || _ || _) eqn:E; [done|]. intros [= <-].
  assert (Hb : bpp = 16 \/ bpp = 24 \/ bpp = 32) by lia.
  assert (2 <= bpp / 8 <= 4) by (destruct Hb as [->|[->| ->]]; vm_compute; split; congruence).
  splits; try done; try lia. constructor.
  - constructor; cbn; try lia; [by right|]. intros x y _ _. unfold px. cbn. exact (zget_zeros 0 _).
  - intros (A & _). cbn in A. change (zlen []) with 0 in A. nia.
Qed.

Lemma surface_len fill w h bpp : 0 < w -> 0 < h -> 0 < bpp / 8 -> zlen (surfaceOf fill w h bpp) = w * h * (bpp / 8).
Proof. intros. unfold surfaceOf, zlen. rewrite length_map, length_seqZ. nia. Qed.

(** A new desktop, with a new encoder. *)
Definition newDesk (s : session) (b : BitmapEncoder) (w h : Z) (surface : list Z) (f : list (option bool)) : session :=
  s <| r_width := w |> <| r_height := h |> <| r_surface := surface |> <| r_conn := mkConn [] f |>
    <| r_writer := r_writer s <| bitmap := b |> <| w_width := w |> <| w_height := h |> <| w_force := true |>
                               <| nextFrame := None |> <| lastFrame := None |> |>.

Lemma newDesk_connected s b w h fill f :
  NewBitmapEncoder w h (BitsPerPixel s) = inl b -> readerOk (r_fb s) (w_frame (r_writer s)) ->
  connected (newDesk s b w h (surfaceOf fill w h (BitsPerPixel s)) f).
Proof.
  intros Hb Hr. destruct (NewBitmapEncoder_spec _ _ _ _ Hb) as (K1 & K2 & K3 & K4 & K5 & K6 & K7).
  constructor; cbn; try done; [|by left]. unfold onScreen, screenOf. cbn. rewrite K2, K3, K4. by apply surface_len.
Qed.

(** What a turn leaves of the framebuffer. *)
Definition sameFb (s s' : session) : Prop := r_sys s' = r_sys s /\ r_running s' = r_running s.

Lemma updateSize_spec s :
  connected s -> wp updateSize s (fun _ s' => s' = s) (fun _ _ => False).
Proof. intros [[E1 E2] _ _ _ _ _]. unfold updateSize. wsteps. rewrite E1, E2, !Z.eqb_refl. cbn [andb]. by wsteps. Qed.

Lemma resize_spec s resize :
  connected s -> r_running s = true ->
  wp (do! (match resize with Some (w, h, fill) => Resize w h fill | None => ret tt end) in updateSize) s
    (fun _ s' => connected s' /\ sameFb s s' /\ forall now, due now (r_writer s) = true -> due now (r_writer s') = true)
    (fun _ s' => sameFb s s' /\ exists w h fill, resize = Some (w, h, fill) /\
       exists e, NewBitmapEncoder w h (BitsPerPixel s) = inr e).
Proof.
  intros Hc Hrun. destruct resize as [[[w h] fill]|].
  2:{ wsteps. wcall (updateSize_spec s Hc); [|done]. by intros [] ? ->. }
  unfold Resize. wsteps. destruct ((r_width s =? w) && (r_height s =? h)) eqn:E.
  { wsteps. wcall (updateSize_spec s Hc); [|done]. by intros [] ? ->. }
  wsteps. unfold updateSize. wsteps. pose proof Hc as [[E1 E2] _ _ _ _ _]. cbn. rewrite <- E1, <- E2.
  assert (En : (w =? r_width s) && (h =? r_height s) = false) by lia. rewrite En. unfold newEncoder.
  destruct (NewBitmapEncoder w h (BitsPerPixel s)) as [b|e] eqn:Eb; wsteps.
  - split; [|done]. exact (newDesk_connected s b w h fill (faults (r_conn s)) Eb (co_reader _ Hc)).
  - split; [done|]. by exists w, h, fill; split; [|exists e].
Qed.

Definition setBitmap (s : session) (bc : BitmapEncoder * conn) : session :=
  s <| r_writer := r_writer s <| bitmap := fst bc |> |> <| r_conn := snd bc |>.

Lemma wp_onBitmap {A} (m : EM A) s (Q : A -> session -> Prop) E :
  wp m (bitmap (r_writer s), r_conn s) (fun a bc => Q a (setBitmap s bc)) (fun e bc => E e (setBitmap s bc)) ->
  wp (onBitmap m) s Q E.
Proof. unfold wp, onBitmap. by destruct (m _) as [[] [? ?]]. Qed.

Lemma wp_onFramebuffer {A} (m : M framebuffer A) s a (Q : A -> session -> Prop) E :
  m (r_fb s) = (Ok a, r_fb s) -> Q a s -> wp (onFramebuffer m) s Q E.
Proof. intros Hm HQ. unfold wp, onFramebuffer. rewrite Hm. by destruct s as [[] ? ? ? ? ? ? ?]. Qed.

(** The refreshed copy is a frame, and what it is told covers its changes. *)
Lemma refreshed_frame d f f' rects : fbOk d -> refreshed d f f' rects -> frameOk f' /\ synced d f'.
Proof.
  intros Hok [R1 R2 R3 R4 R5 _ _]. pose proof (o_w _ Hok). pose proof (o_h _ Hok).
  split; [constructor; by rewrite ?R1, ?R2|]. intros _. by splits.
Qed.

Lemma refreshed_told d f f' rects :
  refreshed d f f' rects -> frameOk f -> frameOk f' -> f_width f = f_width f' -> f_height f = f_height f' ->
  told (frameImage f) (frameImage f') (Some rects).
Proof.
  intros [R1 R2 R3 R4 R5 _ R7] Hf Hf' Ew Eh. pose proof (fo_len _ Hf) as L. split; [rewrite !frameImage_ok by done; cbn; congruence|].
  intros x y ch Hxy Hch Hc. rewrite (frameImage_ok f' Hf') in Hxy, Hc. unfold Dx, Dy in Hxy. cbn [Bounds minX minY maxX maxY] in Hxy, Hc.
  rewrite !Z.sub_0_r in Hxy. rewrite !Z.add_0_l in Hc. rewrite !frameImage_px by done. rewrite Ew, R1. symmetry.
  rewrite Ew, Eh, R1, R2 in L. rewrite R1, R2 in Hxy. apply R7; first [congruence | lia | done].
Qed.

(** The times of the writer are its own. *)
Lemma connected_times s a b :
  connected s -> connected (s <| r_writer := r_writer s <| lastFrame := a |> <| nextFrame := b |> |>).
Proof. intros [C1 C2 C3 C4 C5 C6]. by constructor. Qed.

(** A frame that is due is sent, and none that is not. *)
Lemma writeWhenReady_spec now s :
  sysOk (r_sys s) -> connected s -> width (r_fb s) < 2 ^ 31 -> height (r_fb s) < 2 ^ 31 ->
  wp (writeWhenReady now) s
    (fun r s' => connected s' /\ sameFb s s' /\
       if due now (r_writer s) then w_force (r_writer s') = false /\ sequence (r_writer s') = seq (r_fb s')
       else s' = s /\ r = frameDeadline (r_writer s))
    (fun err s' => err = EIO /\ sameFb s s').
Proof.
  intros Hsys Hc Hw Hh. unfold writeWhenReady. wsteps. destruct (due now (r_writer s)); cbn [negb]; [|by wsteps].
  unfold updWriter at 1. wsteps. apply (connected_times s (Some now) (Some (now + frameInterval))) in Hc.
  set (s0 := s <| r_writer := _ |>) in *. change (sameFb s) with (sameFb s0). change (r_sys s) with (r_sys s0) in Hsys.
  change (r_fb s) with (r_fb s0) in Hw, Hh. change (w_frame (r_writer s)) with (w_frame (r_writer s0)).
  change (w_force (r_writer s)) with (w_force (r_writer s0)). clearbody s0. clear s. rename s0 into s.
  pose proof Hc as [C1 C2 (D1 & D2 & D3) C4 C5 C6]. pose proof (so_fb _ Hsys) as Hfb. fold (r_fb s) in Hfb.
  destruct (copyFrameChanges_spec (r_fb s) (w_frame (r_writer s)) (w_force (r_writer s)) Hfb C5) as (f & rects & E1 & Hrf & Hrd & _).
  apply (wp_onFramebuffer _ s (f, rects)); [done|]. wsteps. unfold updWriter. wsteps.
  destruct (refreshed_frame _ _ _ _ Hfb Hrf) as [Hfo Hsy]. pose proof Hfo as [F1 F2 _]. pose proof Hrf as [R1 R2 R3 _ _ _ _].
  unfold write. apply wp_onBitmap. cbn [r_writer set_field eta_session eta_writer bitmap r_conn].
  wcall (WriteFrameDamage_spec (bitmap (r_writer s)) (r_conn s) (frameImage f) (Some rects) (w_force (r_writer s)) (r_surface s) C2 C4
    (frameImage_valid f Hfo)).
  - rewrite frameImage_ok by done. unfold sizeOk, Empty, Dx, Dy. cbn [Bounds minX minY maxX maxY]. splits; lia.
  - destruct C6 as [->|(G1 & G2 & _)]; [by left|].
    destruct (decide (f_width (w_frame (r_writer s)) = f_width f /\ f_height (w_frame (r_writer s)) = f_height f)) as [[Ew Eh]|Hne].
    + do 4 right. exists (frameImage (w_frame (r_writer s))). split; [by eapply refreshed_told|]. by rewrite D1.
    + right. right. left. rewrite (cu_source _ _ _ G2), !frameImage_ok by done. cbn. intros [= ? ?]. apply Hne. by split.
  - intros [] [b c] (K1 & (K2 & K3 & K4) & K5 & K6). cbn [fst snd] in *. unfold updWriter. wsteps. splits; try done.
    constructor; cbn; try done; [by rewrite K2, K3, K4|unfold onScreen in *; by rewrite K2, K3, K4|].
    right. splits; try done. unfold screen. cbn. by rewrite <- D1.
  - intros err bc (K1 & _). by split.
Qed.

Lemma wp_bind3 {S A B C} (a : M S A) (b : M S B) (c : M S C) s (Q : C -> S -> Prop) E :
  wp (do! a in b) s (fun _ s' => wp c s' Q E) E -> wp (do! a in do! b in c) s Q E.
Proof. unfold wp, gbind. destruct (a s) as [[] ?]; try done. by destruct (b _) as [[] ?]. Qed.

Lemma turn_spec s resize m :
  sysOk (r_sys s) -> connected s -> r_running s = true -> width (r_fb s) < 2 ^ 31 -> height (r_fb s) < 2 ^ 31 ->
  wp (turn resize m) s
    (fun _ s' => connected s' /\ sameFb s s' /\
       (DisplayReady m = true -> suppressed m = false -> due (now m) (r_writer s) = true -> showsFrame s'))
    (fun _ s' => sameFb s s').
Proof.
  intros Hsys Hc Hrun Hw Hh. unfold turn. apply wp_bind3. wcall (resize_spec s resize Hc Hrun); [|by intros ? ? [? _]].
  intros [] s1 (Hc1 & [Hs1 Hr1] & Hdue). wsteps. assert (Hfb : r_fb s1 = r_fb s) by (unfold r_fb; by rewrite Hs1).
  destruct (frameChanged _ _ _ && _ && _) eqn:Ech.
  - wcall (writeWhenReady_spec (now m) s1); [by rewrite Hs1|done|by rewrite Hfb|by rewrite Hfb| |].
    + intros r s2 (K1 & [K2 K3] & K4). splits; [done|split; congruence|]. intros _ _ Hd%Hdue. rewrite Hd in K4.
      destruct K4. by apply sent_shows.
    + intros err s2 (_ & K2 & K3). split; congruence.
  - wsteps. splits; try done. intros Hd Hs _. rewrite Hd, Hs in Ech. cbn [negb] in Ech. rewrite !andb_true_r in Ech. unfold frameChanged in Ech. apply orb_false_iff in Ech as [E1 E2].
    apply negb_false_iff, Z.eqb_eq in E2. by apply sent_shows.
Qed.

(** Without faults and without a resize, a turn ends without an error. *)
Lemma turn_runs s m :
  sysOk (r_sys s) -> connected s -> faults (r_conn s) = [] -> forall e s', turn None m s <> (Err e, s').
Proof.
  intros Hsys Hc Hf e s' Ht. pose proof (so_fb _ Hsys) as Hfb.
  assert (Hu : updateSize s = (Ok tt, s)).
  { pose proof (updateSize_spec s Hc) as H. unfold wp in H. destruct (updateSize s) as [[[]| | |] s1]; try done. by rewrite H. }
  unfold turn, gbind at 1, ret at 1, gbind at 1 in Ht. rewrite Hu in Ht. unfold gbind at 1, gget at 1 in Ht.
  destruct (_ && _ && _); [|done].
  destruct (copyFrameChanges_spec (fb (r_sys s)) (w_frame (r_writer s)) (w_force (r_writer s)) Hfb (co_reader _ Hc)) as (f & rects & E1 & Hrf & _).
  unfold writeWhenReady, gbind at 1, gget at 1 in Ht. destruct (negb _); [done|].
  unfold gbind at 1, updWriter at 1, gupd at 1, gbind at 1, onFramebuffer, r_fb in Ht.
  cbn [r_sys r_writer set_field eta_session eta_writer w_frame w_force] in Ht. rewrite E1 in Ht.
  unfold gbind at 1, updWriter at 1, gupd at 1, gbind at 1, write, onBitmap in Ht. cbn [r_writer set_field eta_session eta_writer bitmap r_conn] in Ht.
  pose proof (reliable_frame (frameImage f) (Some rects) (w_force (r_writer s)) (frameImage_valid f (proj1 (refreshed_frame _ _ _ _ Hfb Hrf)))
    (bitmap (r_writer s)) (r_conn s) Hf) as Hr.
  destruct (WriteFrameDamage _ _ _ _) as [[[]| | |] [b c]]; try done.
Qed.

(** ** Sessions *)

Lemma connected_fb s y :
  connected s -> carries (r_fb s) (fb y) -> connected (s <| r_sys := y |>).
Proof.
  intros [C1 C2 C3 C4 C5 C6] K. constructor; try done; [by apply K|]. destruct C6 as [|(G1 & G2 & G3 & G4)]; [by left|right].
  splits; try done. exact (carries_synced _ _ _ K C5 G4).
Qed.

Lemma connected_force s : connected s -> connected (s <| r_writer := r_writer s <| w_force := true |> |>).
Proof. intros [C1 C2 C3 C4 C5 C6]. constructor; try done. by left. Qed.

Lemma rdpStep_ok o s : sessionOk s -> bounded s -> exists s', rdpStep o s = Some s' /\ sessionOk s'.
Proof.
  intros [Hsys Hc] (B1 & B2 & B3). destruct o as [o| |resize m]; cbn [rdpStep].
  - destruct (fbStep_ok renderConsole o (r_sys s) Hsys B3) as (y & E & K1 & K2). rewrite E. eexists. split; [done|].
    constructor; [done|]. intros Hr. apply connected_fb; [by apply Hc|done].
  - eexists. split; [done|]. constructor; [done|]. intros Hr. by apply connected_force, Hc.
  - destruct (r_running s) eqn:Er; [|exists s; split; [done|constructor; [done|congruence]]].
    pose proof (turn_spec s resize m Hsys (Hc eq_refl) Er B1 B2) as Ht. unfold wp in Ht.
    destruct (turn resize m s) as [[r|e| |] s']; try done.
    + destruct Ht as (K1 & [K2 K3] & _). exists s'. split; [done|]. constructor; [by rewrite K2|done].
    + destruct Ht as [K2 K3]. eexists. split; [done|]. constructor; [cbn; by rewrite K2|done].
Qed.

Lemma reaches_ok s : reaches s -> sessionOk s.
Proof.
  induction 1 as [l y w h bpp fill f s Hl Hn Hst|o s s' Hr IH Hb Hst].
  - destruct (fbRun_ok renderConsole l newSys newSys_ok ltac:(cbn; lia)) as (y' & E & Hy). rewrite E in Hl. injection Hl as ->.
    unfold startSession in Hst. destruct (NewBitmapEncoder w h bpp) as [b|] eqn:Eb; [|done]. injection Hst as <-.
    constructor; [done|]. intros _. pose proof (so_fb _ Hy) as Hfb.
    apply (newDesk_connected (mkSession y w h bpp (mkWriter b (mkFrame 0 0 [] 0) w h 0 true None None) (mkConn [] f) [] true) b w h fill f Eb).
    split; [cbn; pose proof (o_seq _ Hfb); unfold r_fb; cbn; lia|]. cbn. intros E0. pose proof (o_w _ Hfb). unfold r_fb in E0. cbn in E0. lia.
  - destruct (rdpStep_ok o s IH Hb) as (s1 & E & K). rewrite E in Hst. by injection Hst as <-.
Qed.
End Session.

(** C33: the client shows the guest's frame.  However the framebuffer changed before
    and during the session, whatever the sizes of the frames and of the desktop, the
    resizes and the refreshes: a turn of the writer does not panic, and when it ends
    without an error the screen of the client, built from the bitmap updates it
    received, shows the current frame pixel by pixel, scaled to the desktop and in
    its depth, also when nothing had to be sent, provided the turn may send: the
    display is ready, the client does not suppress the output, and a thirtieth of a
    second has passed since the last frame.  A turn can only fail for a fault of
    the connection or a resize to a desktop no encoder supports. *)
Theorem client_shows_frame renderConsole s resize m :
  reaches renderConsole s -> bounded s -> r_running s = true ->
  exists s', rdpStep renderConsole (RTurn resize m) s = Some s' /\
    (r_running s' = true -> DisplayReady m = true -> suppressed m = false -> due (now m) (r_writer s) = true ->
     showsFrame s') /\
    (faults (r_conn s) = [] -> resize = None -> r_running s' = true).
Proof.
  intros Hr (B1 & B2 & B3) Hrun. destruct (reaches_ok _ s Hr) as [Hsys Hc]. specialize (Hc Hrun). cbn [rdpStep]. rewrite Hrun.
  pose proof (turn_spec s resize m Hsys Hc Hrun B1 B2) as Ht. unfold wp in Ht.
  destruct (turn resize m s) as [[r|e| |] s'] eqn:E; try done.
  - destruct Ht as (_ & [_ K2] & K3). exists s'. splits; [done|intros _; by apply K3|]. intros _ _. by rewrite K2.
  - eexists. splits; [done|done|]. intros Hf ->. exfalso. by apply (turn_runs s m Hsys Hc Hf e s').
Qed.

(** The session of a client with a 3 by 2 desktop of 16 bits, a frame of which was
    published before. *)
Definition sampleSystem : sys := default newSys (fbRun noConsole [OFlush 2 1 (Some (sampleImage 7))] newSys).

Definition sampleSession : session :=
  match startSession sampleSystem 3 2 16 (fun _ => 85) [] with
  | inl s => s
  | inr _ => mkSession newSys 0 0 0 (mkWriter (mkEnc 0 0 0 [] [] ZR [] false) (mkFrame 0 0 [] 0) 0 0 0 false None None) (mkConn [] []) [] false
  end.

Definition sampleMoment : moment := mkMoment true false 1000.

Definition sampleAfter : session := default sampleSession (rdpStep noConsole (RTurn None sampleMoment) sampleSession).

Lemma client_shows_frame_witness :
  rdpStep noConsole (RTurn None sampleMoment) sampleSession = Some sampleAfter /\ r_running sampleAfter = true /\
  showsFrame sampleAfter /\ screen sampleAfter = concat (replicate 6 (packPixel 2 7 7 7)).
Proof.
  assert (Hr : reaches noConsole sampleSession).
  { apply (reaches_start noConsole [OFlush 2 1 (Some (sampleImage 7))] sampleSystem 3 2 16 (fun _ => 85) []); vm_compute; reflexivity. }
  assert (Hb : bounded sampleSession) by (vm_compute; by splits).
  assert (E0 : rdpStep noConsole (RTurn None sampleMoment) sampleSession = Some sampleAfter) by (vm_compute; reflexivity).
  destruct (client_shows_frame noConsole sampleSession None sampleMoment Hr Hb eq_refl) as (s & E & K1 & K2).
  rewrite E0 in E. apply (inj Some) in E. subst s. pose proof (K2 eq_refl eq_refl) as Hrun.
  refine (conj E0 (conj Hrun (conj (K1 Hrun eq_refl eq_refl eq_refl) _))). vm_compute. reflexivity.
Defined.
