(* ===== verification/Pci.v ===== *)
(** The PCI configuration mechanism (src/internal/pci/pci.go): configuration
    space of the registered functions, BAR sizing and assignment, and the
    lookup of the device that decodes a guest-physical address.

    A device is any type with the operations of [PciDevice], the interface
    [Device] together with the optional [CapsAndMMIO]. *)

From S2P Require Import Prelude Bytes.

(** ** Configuration addresses *)

Definition getRegisterOffset (a : Z) : Z := a &&& 0xfc.
Definition getFunctionNumber (a : Z) : Z := (a ≫ 8) &&& 0x7.
Definition getDeviceNumber (a : Z) : Z := (a ≫ 11) &&& 0x1f.
Definition getBusNumber (a : Z) : Z := (a ≫ 16) &&& 0xff.
Definition isEnable (a : Z) : bool := ((a ≫ 31) ||| 0x1) =? 0x1.

(** ** Number conversions *)

Definition SizeToBits (size : Z) : Z :=
  if size =? 0 then 0 else u32 (0xfffffffe - u32 (u64 (size - 2))).

Fixpoint bytesToNumFrom (i : Z) (bytes : list Z) : Z :=
  match bytes with
  | [] => 0
  | x :: rest => u64 (x ≪ (i * 8)) ||| bytesToNumFrom (i + 1) rest
  end.
Definition BytesToNum (bytes : list Z) : Z := bytesToNumFrom 0 bytes.

(** [NumToBytes] of an integer of [l] bytes. *)
Fixpoint NumToBytes (l : nat) (y : Z) : list Z :=
  match l with
  | O => []
  | S l => u8 y :: NumToBytes l (y ≫ 8)
  end.

(** ** Devices *)

Record DeviceHeader : Type := mkDeviceHeader {
  VendorID : Z;
  DeviceID : Z;
  Command : Z;
  Status : Z;
  RevisionID : Z;
  ProgIF : Z;
  Subclass : Z;
  ClassCode : Z;
  HeaderType : Z;
  BAR : list Z;
  SubsystemVendorID : Z;
  SubsystemID : Z;
  CapabilitiesPointer : Z;
  InterruptLine : Z;
  InterruptPin : Z
}.
#[export] Instance deviceHeader_eta : Settable DeviceHeader := fun r =>
  mkDeviceHeader (VendorID r) (DeviceID r) (Command r) (Status r) (RevisionID r) (ProgIF r) (Subclass r)
    (ClassCode r) (HeaderType r) (BAR r) (SubsystemVendorID r) (SubsystemID r) (CapabilitiesPointer r)
    (InterruptLine r) (InterruptPin r).

(** The zero value of a header. *)
Definition noHeader : DeviceHeader := mkDeviceHeader 0 0 0 0 0 0 0 0 0 (replicate 6 0) 0 0 0 0 0.

(** The 64 bytes of a header, the unnamed fields being 0. *)
Definition headerBytes (h : DeviceHeader) : list Z :=
  le_bytes 2 (VendorID h) ++ le_bytes 2 (DeviceID h) ++ le_bytes 2 (Command h) ++ le_bytes 2 (Status h) ++
  le_bytes 1 (RevisionID h) ++ le_bytes 1 (ProgIF h) ++ le_bytes 1 (Subclass h) ++ le_bytes 1 (ClassCode h) ++
  zeros 2 ++ le_bytes 1 (HeaderType h) ++ zeros 1 ++
  flat_map (le_bytes 4) (BAR h) ++
  zeros 4 ++ le_bytes 2 (SubsystemVendorID h) ++ le_bytes 2 (SubsystemID h) ++ zeros 4 ++
  le_bytes 1 (CapabilitiesPointer h) ++ zeros 7 ++
  le_bytes 1 (InterruptLine h) ++ le_bytes 1 (InterruptPin h) ++ zeros 2.

(** What a device with a capability list and a memory BAR adds. *)
Record CapsAndMMIO : Type := mkCapsAndMMIO { cm_Capabilities : list Z; cm_MMIOBARIndex : Z; cm_MMIOSize : Z }.

Class PciDevice (D : Type) := {
  GetDeviceHeader : D -> DeviceHeader;
  IOSize : D -> Z;
  AsCapsAndMMIO : D -> option CapsAndMMIO
}.

(** ** The bus *)

Record registeredDevice (D : Type) : Type := mkRegistered {
  rd_dev : D;
  rd_header : DeviceHeader;
  rd_caps : list Z;
  rd_barSizes : list Z;
  rd_mmio : bool;
  rd_mmioBAR : Z;
  rd_slot : Z;
  rd_function : Z
}.
Arguments mkRegistered {D}.
Arguments rd_dev {D}. Arguments rd_header {D}. Arguments rd_caps {D}. Arguments rd_barSizes {D}.
Arguments rd_mmio {D}. Arguments rd_mmioBAR {D}. Arguments rd_slot {D}. Arguments rd_function {D}.
#[export] Instance registeredDevice_eta {D : Type} : Settable (registeredDevice D) := fun r =>
  mkRegistered (rd_dev r) (rd_header r) (rd_caps r) (rd_barSizes r) (rd_mmio r) (rd_mmioBAR r) (rd_slot r) (rd_function r).

(** [functions] maps device and function numbers to positions in [devices];
    the overrides are keyed by position. *)
Record PCI (D : Type) : Type := mkPCI {
  p_addr : Z;
  devices : list (registeredDevice D);
  functions : gmap Z Z;
  nextSlot : Z;
  probeSlot : Z;
  probeBar : Z;
  barOverride : gmap Z (gmap Z Z);
  configOverride : gmap Z (gmap Z Z)
}.
Arguments mkPCI {D}.
Arguments p_addr {D}. Arguments devices {D}. Arguments functions {D}. Arguments nextSlot {D}.
Arguments probeSlot {D}. Arguments probeBar {D}. Arguments barOverride {D}. Arguments configOverride {D}.
#[export] Instance pci_eta {D : Type} : Settable (PCI D) := fun r =>
  mkPCI (p_addr r) (devices r) (functions r) (nextSlot r) (probeSlot r) (probeBar r) (barOverride r) (configOverride r).

Definition ErrDeviceAddress : error := EMsg "invalid PCI slot or function".
Definition ErrDeviceOccupied : error := EMsg "PCI function is already occupied".

Definition override (m : gmap Z (gmap Z Z)) (slot k : Z) : option Z := m !! slot ≫= fun o => o !! k.

Definition setOverride (m : gmap Z (gmap Z Z)) (slot k v : Z) : gmap Z (gmap Z Z) :=
  <[slot := <[k := v]> (default ∅ (m !! slot))]> m.

Section PCI.
Context {D : Type} `{PciDevice D}.

Definition registerDevice (dev : D) : registeredDevice D :=
  let sizes := zinsert 0 (IOSize dev) (replicate 6 0) in
  match AsCapsAndMMIO dev with
  | None => mkRegistered dev (GetDeviceHeader dev) [] sizes false 0 0 0
  | Some cm =>
      let bar := cm_MMIOBARIndex cm in
      if (0 <=? bar) && (bar <? 6)
      then mkRegistered dev (GetDeviceHeader dev) (cm_Capabilities cm) (zinsert bar (cm_MMIOSize cm) sizes) true bar 0 0
      else mkRegistered dev (GetDeviceHeader dev) (cm_Capabilities cm) sizes false 0 0 0
  end.

Definition setMultifunction (e : registeredDevice D) : registeredDevice D :=
  e <| rd_header := rd_header e <| HeaderType := HeaderType (rd_header e) ||| 0x80 |> |>.

Definition registerAt (slot function : Z) (entry : registeredDevice D) : M (PCI D) unit :=
  do! gupd (fun p => if zlen (devices p) =? 0 then p <| probeSlot := -1 |> else p) in
  let! p := gget in
  let! entry :=
    if negb (function =? 0) then
      match functions p !! (slot * 8) with
      | Some index =>
          let! e := gindex (devices p) index in
          do! gupd (fun p => p <| devices := zinsert index (setMultifunction e) (devices p) |>) in
          ret entry
      | None => ret entry
      end
    else
      ret (if existsb (fun fn => bool_decide (is_Some (functions p !! (slot * 8 + fn)))) [1; 2; 3; 4; 5; 6; 7]
           then setMultifunction entry else entry) in
  gupd (fun p =>
    p <| functions := <[slot * 8 + function := zlen (devices p)]> (functions p) |>
      <| devices := devices p ++ [entry <| rd_slot := slot |> <| rd_function := function |>] |>
      <| nextSlot := if nextSlot p <=? slot then slot + 1 else nextSlot p |>).

Fixpoint registerAll (entries : list (registeredDevice D)) : M (PCI D) unit :=
  match entries with
  | [] => ret tt
  | e :: rest =>
      let! p := gget in
      do! registerAt (nextSlot p) 0 e in
      registerAll rest
  end.

Definition AddDevices (devs : list D) : M (PCI D) unit := registerAll (map registerDevice devs).

Definition emptyPCI : PCI D := mkPCI 0 [] ∅ 0 (-1) 0 ∅ ∅.

(** A [D] is a device: the check for a nil interface has no counterpart. *)
Definition AddDeviceAt (slot function : Z) (dev : D) : M (PCI D) unit :=
  if (slot <? 0) || (32 <=? slot) || (function <? 0) || (8 <=? function) then throw ErrDeviceAddress
  else
    let! p := gget in
    match functions p !! (slot * 8 + function) with
    | Some _ => throw ErrDeviceOccupied
    | None => registerAt slot function (registerDevice dev)
    end.

Definition Devices (p : PCI D) : list D := map rd_dev (devices p).

Definition barAtOffset (offset : Z) : Z :=
  if (offset <? 0x10) || (0x28 <=? offset) then -1 else offset / 4 - 4.

(** The value of a BAR register: the guest's, or that of the header. *)
Definition barRaw (p : PCI D) (slot : Z) (e : registeredDevice D) (bar : Z) : Z :=
  match override (barOverride p) slot bar with
  | Some v => v
  | None => zget (BAR (rd_header e)) bar
  end.

Definition barBase (p : PCI D) (slot : Z) (e : registeredDevice D) (bar : Z) : Z :=
  let raw := barRaw p slot e bar in
  if raw &&& 0x1 =? 0x1 then raw &^ 0x3 else raw &^ 0xf.

Definition configSpace (p : PCI D) (slot : Z) (e : registeredDevice D) : list Z :=
  let cfg := zcopy (zeros 256) (headerBytes (rd_header e)) in
  let cfg := zwrite cfg 0x40 (take 192 (rd_caps e)) in
  let cfg := map_fold (fun bar v cfg => zwrite cfg (0x10 + bar * 4) (NumToBytes 4 v)) cfg
               (default ∅ (barOverride p !! slot)) in
  map_fold (fun off v cfg => if (0 <=? off) && (off <? 256) then zinsert off v cfg else cfg) cfg
    (default ∅ (configOverride p !! slot)).

Fixpoint lookupFrom (p : PCI D) (slot : Z) (es : list (registeredDevice D)) (addr : Z) : option (Z * Z) :=
  match es with
  | [] => None
  | e :: rest =>
      if negb (rd_mmio e) then lookupFrom p (slot + 1) rest addr
      else
        let base := barBase p slot e (rd_mmioBAR e) in
        let size := zget (rd_barSizes e) (rd_mmioBAR e) in
        if (base <=? addr) && (addr - base <? size) then Some (slot, addr - base)
        else lookupFrom p (slot + 1) rest addr
  end.

(** The position of the device that decodes [addr], and the offset in its BAR. *)
Definition LookupMMIO (p : PCI D) (addr : Z) : option (Z * Z) := lookupFrom p 0 (devices p) addr.

(** ** Port handlers *)

Definition confOffset (p : PCI D) (port : Z) : Z :=
  u32 (getRegisterOffset (p_addr p) + u32 (u64 (port - 0xCFC))).

Definition confFunction (p : PCI D) : Z := getDeviceNumber (p_addr p) * 8 + getFunctionNumber (p_addr p).

Definition fillAbsent (values : list Z) : list Z := replicate (length values) 0xff.

(** The handlers return the bytes the guest sees in [values]. *)
Definition PciConfDataIn (port : Z) (values : list Z) : M (PCI D) (list Z) :=
  let! p := gget in
  let offset := confOffset p port in
  if negb (isEnable (p_addr p)) then ret values
  else if negb (getBusNumber (p_addr p) =? 0) then ret (fillAbsent values)
  else match functions p !! confFunction p with
  | None => ret (fillAbsent values)
  | Some slot =>
      let! e := gindex (devices p) slot in
      let bar := barAtOffset offset in
      if (0 <=? bar) && (probeSlot p =? slot) && (probeBar p =? bar) then
        let barOffset := 0x10 + bar * 4 in
        let! size := gindex (rd_barSizes e) bar in
        let mask := NumToBytes 4 (SizeToBits size) in
        do! (if barOffset + 4 <=? offset + zlen values
             then gupd (fun p => p <| probeSlot := -1 |> <| probeBar := 0 |>) else ret tt) in
        ret (zcopy values (drop (Z.to_nat (offset - barOffset)) mask))
      else
        let b := configSpace p slot e in
        if zlen b <=? offset then ret (fillAbsent values)
        else
          let end_ := Z.min (offset + zlen values) (zlen b) in
          ret (zslice b offset (end_ - offset) ++ replicate (length values - Z.to_nat (end_ - offset)) 0xff)
  end.

Fixpoint overrideBytes (slot off : Z) (values : list Z) (m : gmap Z (gmap Z Z)) : gmap Z (gmap Z Z) :=
  match values with
  | [] => m
  | v :: rest =>
      overrideBytes slot (off + 1) rest
        (if (0 <=? off) && (off <? 256) then setOverride m slot off v else m)
  end.

Definition PciConfDataOut (port : Z) (values : list Z) : M (PCI D) unit :=
  let! p := gget in
  let offset := confOffset p port in
  if negb (isEnable (p_addr p)) then ret tt
  else if negb (getBusNumber (p_addr p) =? 0) then ret tt
  else match functions p !! confFunction p with
  | None => ret tt
  | Some slot =>
      let bar := barAtOffset offset in
      if bar <? 0 then gupd (fun p => p <| configOverride := overrideBytes slot offset values (configOverride p) |>)
      else
        let barOffset := 0x10 + bar * 4 in
        if (offset =? barOffset) && (zlen values =? 4) && (BytesToNum values =? 0xffffffff)
        then gupd (fun p => p <| probeSlot := slot |> <| probeBar := bar |>)
        else
          let! e := gindex (devices p) slot in
          if rd_mmio e && (bar =? rd_mmioBAR e) then
            let raw := NumToBytes 4 (barRaw p slot e bar) in
            let n := Z.to_nat (offset - barOffset) in
            let raw := take n raw ++ zcopy (drop n raw) values in
            gupd (fun p => p <| barOverride := setOverride (barOverride p) slot bar (u32 (BytesToNum raw)) |>)
          else ret tt
  end.

Definition PciConfAddrIn (values : list Z) (p : PCI D) : list Z :=
  if negb (zlen values =? 4) then values else NumToBytes 4 (p_addr p).

Definition PciConfAddrOut (values : list Z) (p : PCI D) : PCI D :=
  if negb (zlen values =? 4) then p else p <| p_addr := u32 (BytesToNum values) |>.

End PCI.
