(* ===== verification/PciSpec.v ===== *)
(** Properties of the PCI configuration mechanism (src/internal/pci/pci.go):
    the invariant of the bus, BAR sizing and assignment, and the configuration
    registers of a function. *)

From S2P Require Import Prelude Bytes Pci.

(** ** Number conversions *)

Lemma NumToBytes_le n y : NumToBytes n y = le_bytes n y.
Proof.
  revert y. induction n as [|n IH]; intros y; [done|]. cbn [NumToBytes le_bytes]. rewrite IH, Z.shiftr_div_pow2 by lia. done.
Qed.

Lemma bytesToNumFrom_le l i :
  bytes_ok l -> 0 <= i -> i + zlen l <= 8 -> bytesToNumFrom i l = le_val l * 256 ^ i.
Proof.
  intros Hl. revert i. induction Hl as [|x l Hx Hl IH]; intros i Hi Hn; [done|]. rewrite zlen_cons in Hn.
  pose proof (zlen_nonneg l). cbn [bytesToNumFrom le_val]. rewrite IH by lia. unfold is_u8 in Hx.
  rewrite Z.shiftl_mul_pow2 by lia. replace (2 ^ (i * 8)) with (256 ^ i) by (rewrite Z.mul_comm, Z.pow_mul_r by lia; done).
  assert (0 < 256 ^ i) by (apply Z.pow_pos_nonneg; lia).
  assert (256 ^ (i + 1) <= 256 ^ 8) by (apply Z.pow_le_mono_r; lia).
  rewrite Z.pow_add_r in * by lia. change (256 ^ 1) with 256 in *. change (256 ^ 8) with (2 ^ 64) in *.
  assert (Hp : 2 ^ (8 * (i + 1)) = 256 ^ i * 256) by (rewrite Z.pow_mul_r, Z.pow_add_r by lia; done).
  set (q := 256 ^ i) in *. change (2 ^ 8) with 256 in Hx.
  assert (x * q <= 255 * q) by (apply Z.mul_le_mono_nonneg_r; lia). assert (0 <= x * q) by (apply Z.mul_nonneg_nonneg; lia).
  rewrite u64_small by lia. rewrite Z.lor_comm, <- Hp, lor_low by lia. lia.
Qed.

Lemma BytesToNum_le l : bytes_ok l -> zlen l <= 8 -> BytesToNum l = le_val l.
Proof. intros Hl Hn. unfold BytesToNum. rewrite bytesToNumFrom_le by (done || lia). rewrite Z.pow_0_r. lia. Qed.

Lemma SizeToBits_compl size : 0 < size < 2 ^ 32 -> SizeToBits size = 2 ^ 32 - size.
Proof.
  intros Hs. unfold SizeToBits. destruct (size =? 0) eqn:?; zbool; [lia|].
  unfold u32, u64. rewrite Z.mod_mod_divide by (by exists (2 ^ 32)).
  change 0xfffffffe with (2 ^ 32 - 2). rewrite Zminus_mod_idemp_r.
  replace (2 ^ 32 - 2 - (size - 2)) with (2 ^ 32 - size) by lia. apply Z.mod_small. lia.
Qed.

(** ** Overrides *)

Lemma override_set m slot k v s j :
  override (setOverride m slot k v) s j = if (s =? slot) && (j =? k) then Some v else override m s j.
Proof.
  unfold override, setOverride. destruct (s =? slot) eqn:Es; zbool; cbn [andb].
  - subst. rewrite lookup_insert_eq. cbn. destruct (j =? k) eqn:Ej; zbool.
    + subst. by rewrite lookup_insert_eq.
    + rewrite lookup_insert_ne by done. destruct (m !! slot); [done|]. apply lookup_empty.
  - by rewrite lookup_insert_ne.
Qed.

Lemma override_bytes slot values off m s k :
  0 <= off ->
  override (overrideBytes slot off values m) s k =
    if (s =? slot) && (off <=? k) && (k <? off + zlen values) && (k <? 256)
    then Some (zget values (k - off)) else override m s k.
Proof.
  revert off m. induction values as [|v values IH]; intros off m Ho; cbn [overrideBytes].
  - rewrite zlen_nil. destruct (s =? slot), (off <=? k) eqn:?, (k <? off + 0) eqn:?; zbool; try lia; done.
  - rewrite IH, zlen_cons by lia. pose proof (zlen_nonneg values).
    assert (Hz : zget (v :: values) (k - off) = if k =? off then v else zget values (k - (off + 1))).
    { change (v :: values) with ([v] ++ values). rewrite zget_app. change (zlen [v]) with 1.
      destruct (k =? off) eqn:?, (k - off <? 1) eqn:?; zbool.
      - subst. by rewrite Z.sub_diag.
      - lia.
      - rewrite !zget_out by lia. done.
      - f_equal. lia. }
    rewrite Hz. clear Hz.
    destruct (0 <=? off) eqn:?, (off <? 256) eqn:?; zbool; cbn [andb]; try lia; rewrite ?override_set;
      destruct (s =? slot) eqn:?, (off <=? k) eqn:?, (off + 1 <=? k) eqn:?, (k <? off + 1 + zlen values) eqn:?,
        (k <? off + (1 + zlen values)) eqn:?, (k <? 256) eqn:?, (k =? off) eqn:?; zbool; cbn [andb]; try lia; done.
Qed.

(** ** The configuration space *)

Lemma fold_bytes (m : gmap Z Z) cfg :
  zlen cfg = 256 ->
  let r := map_fold (fun off v cfg => if (0 <=? off) && (off <? 256) then zinsert off v cfg else cfg) cfg m in
  zlen r = 256 /\ forall i, 0 <= i < 256 -> zget r i = match m !! i with Some v => v | None => zget cfg i end.
Proof.
  intros Hc. cbv zeta. apply (map_fold_weak_ind (fun r m => zlen r = 256 /\
    forall i, 0 <= i < 256 -> zget r i = match m !! i with Some v => v | None => zget cfg i end)).
  - split; [done|]. intros i Hi. by rewrite lookup_empty.
  - intros off v m' r Hn [Hl Hg]. destruct (_ && _) eqn:E; zbool.
    + split; [by rewrite zlen_insert|]. intros i Hi. rewrite zget_insert by lia. destruct (i =? off) eqn:?; zbool.
      * subst. by rewrite lookup_insert_eq.
      * rewrite lookup_insert_ne by done. by apply Hg.
    + split; [done|]. intros i Hi. rewrite lookup_insert_ne; [by apply Hg|].
      apply andb_false_iff in E as [?|?]; zbool; lia.
Qed.

(** The byte a BAR override shows at [i]. *)
Definition barByte (m : gmap Z Z) (i : Z) : option Z :=
  if barAtOffset i <? 0 then None
  else option_map (fun v => zget (le_bytes 4 v) ((i - 0x10) mod 4)) (m !! barAtOffset i).

Lemma barAtOffset_spec i bar :
  0 <= bar < 6 -> (0x10 + bar * 4 <= i < 0x10 + bar * 4 + 4 <-> barAtOffset i = bar).
Proof.
  intros Hb. unfold barAtOffset. destruct (_ || _) eqn:E; zbool.
  - apply orb_true_iff in E as [?|?]; zbool; lia.
  - pose proof (Z.div_mod i 4). pose proof (Z.mod_pos_bound i 4). lia.
Qed.

Lemma barAtOffset_cases i : barAtOffset i = -1 \/ (0 <= barAtOffset i < 6 /\ i = 0x10 + barAtOffset i * 4 + (i - 0x10) mod 4).
Proof.
  unfold barAtOffset. destruct (_ || _) eqn:E; zbool; [by left|]. right.
  pose proof (Z.div_mod i 4). pose proof (Z.mod_pos_bound i 4).
  assert ((i - 16) mod 4 = i mod 4) by (symmetry; rewrite <- (Z.mod_add (i - 16) 4 4) by lia; f_equal; lia). lia.
Qed.

Lemma fold_bars (m : gmap Z Z) cfg :
  (forall bar v, m !! bar = Some v -> 0 <= bar < 6) -> zlen cfg = 256 ->
  let r := map_fold (fun bar v cfg => zwrite cfg (0x10 + bar * 4) (NumToBytes 4 v)) cfg m in
  zlen r = 256 /\ forall i, 0 <= i < 256 -> zget r i = default (zget cfg i) (barByte m i).
Proof.
  intros Hk Hc. cbv zeta. revert Hk. apply (map_fold_weak_ind (fun r m => (forall bar v, m !! bar = Some v -> 0 <= bar < 6) ->
    zlen r = 256 /\ forall i, 0 <= i < 256 -> zget r i = default (zget cfg i) (barByte m i))).
  - intros _. split; [done|]. intros i Hi. unfold barByte. rewrite lookup_empty. by destruct (_ <? 0).
  - intros bar v m' r Hn IH Hk.
    assert (Hb : 0 <= bar < 6) by (apply (Hk bar v), lookup_insert_eq).
    destruct IH as [Hl Hg].
    { intros bar' v' Hv. apply (Hk bar' v'). rewrite lookup_insert_ne; [done|]. intros ->. congruence. }
    assert (Hz : zlen (NumToBytes 4 v) = 4) by (by rewrite NumToBytes_le, zlen_le_bytes).
    split; [rewrite zlen_write, Hz, Hl by lia; cbn [Z.eqb]; lia|].
    intros i Hi. rewrite zget_write, Hz by lia. rewrite Hg by done. unfold barByte.
    pose proof (barAtOffset_spec i bar Hb). pose proof (barAtOffset_cases i) as Hcase.
    destruct (_ && _) eqn:E; zbool.
    + assert (Hi' : barAtOffset i = bar) by lia. rewrite Hi'. destruct (bar <? 0) eqn:?; zbool; [lia|].
      rewrite lookup_insert_eq. cbn [option_map default from_option id]. rewrite NumToBytes_le. f_equal. lia.
    + destruct (barAtOffset i <? 0) eqn:?; [done|]. zbool. rewrite lookup_insert_ne; [done|]. intros Hi'.
      apply andb_false_iff in E as [?|?]; zbool; lia.
Qed.

(** ** The invariant of the bus *)

(** Headers carry an array of six 32-bit BARs. *)
Class PciDeviceLaws (D : Type) `{PciDevice D} := {
  header_bars : forall d, zlen (BAR (GetDeviceHeader d)) = 6 /\ Forall is_u32 (BAR (GetDeviceHeader d))
}.

Section Bus.
Context {D : Type} `{HL : PciDeviceLaws D}.
Implicit Types (p : PCI D) (e : registeredDevice D) (d : D).

Record entry_ok e : Prop := {
  eo_bars : zlen (BAR (rd_header e)) = 6 /\ Forall is_u32 (BAR (rd_header e));
  eo_sizes : zlen (rd_barSizes e) = 6;
  eo_mmio : rd_mmio e = true -> 0 <= rd_mmioBAR e < 6;
  eo_dev : let r := registerDevice (rd_dev e) in
    BAR (rd_header e) = BAR (rd_header r) /\ rd_caps e = rd_caps r /\ rd_barSizes e = rd_barSizes r /\
    rd_mmio e = rd_mmio r /\ rd_mmioBAR e = rd_mmioBAR r
}.

Definition key e : Z := rd_slot e * 8 + rd_function e.

Record pci_wf p : Prop := {
  pw_fun : forall k i, functions p !! k = Some i -> exists e, zlookup (devices p) i = Some e /\ key e = k;
  pw_dev : forall i e, zlookup (devices p) i = Some e ->
    entry_ok e /\ functions p !! key e = Some i /\ 0 <= rd_slot e < nextSlot p /\ 0 <= rd_function e < 8;
  pw_multi : forall i j ei ej, zlookup (devices p) i = Some ei -> zlookup (devices p) j = Some ej ->
    rd_slot ei = rd_slot ej -> rd_function ei = 0 -> rd_function ej <> 0 ->
    Z.testbit (HeaderType (rd_header ei)) 7 = true;
  pw_bar : forall slot bar v, override (barOverride p) slot bar = Some v ->
    is_u32 v /\ exists e, zlookup (devices p) slot = Some e /\ rd_mmio e = true /\ bar = rd_mmioBAR e;
  pw_cfg : forall slot off v, override (configOverride p) slot off = Some v ->
    is_u8 v /\ 0 <= off < 256 /\ slot < zlen (devices p);
  pw_next : 0 <= nextSlot p;
  pw_addr : is_u32 (p_addr p)
}.

Lemma emptyPCI_wf : pci_wf (emptyPCI (D := D)).
Proof.
  constructor; cbn; try done; try (intros ? ? ?; rewrite ?lookup_empty; done); try (unfold is_u32; lia).
  - intros i e Hi. apply zlookup_range in Hi. change (zlen []) with 0 in Hi. lia.
  - intros i j ei ej Hi. apply zlookup_range in Hi. change (zlen []) with 0 in Hi. lia.
Qed.

Lemma registerDevice_ok d : entry_ok (registerDevice d).
Proof using HL.
  unfold registerDevice. pose proof (header_bars d) as Hb.
  destruct (AsCapsAndMMIO d) as [cm|] eqn:Hcm; [destruct (_ && _) eqn:Hbar; [pose proof (proj1 (andb_true_iff _ _) Hbar) as [?%Z.leb_le ?%Z.ltb_lt]|]|]; constructor; cbn [rd_header rd_barSizes rd_mmio rd_mmioBAR];
    try done; try (rewrite ?zlen_insert; done).
  all: unfold registerDevice; cbn [rd_dev]; rewrite Hcm; rewrite ?Hbar; cbv zeta; by splits.
Qed.

Lemma zlookup_app_last {A} (l : list A) x i :
  zlookup (l ++ [x]) i = if i =? zlen l then Some x else zlookup l i.
Proof.
  unfold zlookup, zlen. destruct (i <? 0) eqn:?, (i =? Z.of_nat (length l)) eqn:?; zbool; try lia; [done|..].
  - subst. rewrite Nat2Z.id. apply list_lookup_middle. done.
  - destruct (decide (Z.to_nat i < length l)%nat).
    + by rewrite lookup_app_l.
    + rewrite lookup_app_r by lia. rewrite !lookup_ge_None_2; [done|lia|]. cbn. lia.
Qed.

Definition same_place e e' : Prop :=
  rd_slot e' = rd_slot e /\ rd_function e' = rd_function e /\ (entry_ok e -> entry_ok e') /\
  rd_mmio e' = rd_mmio e /\ rd_mmioBAR e' = rd_mmioBAR e /\
  (Z.testbit (HeaderType (rd_header e)) 7 = true -> Z.testbit (HeaderType (rd_header e')) 7 = true).

Lemma setMultifunction_place e : same_place e (setMultifunction e).
Proof.
  unfold same_place, setMultifunction. splits; try done.
  - intros [? ? ?]. by constructor.
  - cbn -[Z.testbit Z.lor]. intros Ht. rewrite Z.lor_spec, Ht. done.
Qed.

Lemma setMultifunction_bit e : Z.testbit (HeaderType (rd_header (setMultifunction e))) 7 = true.
Proof. unfold setMultifunction. cbn -[Z.testbit Z.lor]. rewrite Z.lor_spec. apply orb_true_r. Qed.

(** The multifunction bit of function 0, set when another function of the slot
    is registered. *)
Lemma mark_wf p slot i e0 :
  pci_wf p -> functions p !! (slot * 8) = Some i -> zlookup (devices p) i = Some e0 ->
  pci_wf (p <| devices := zinsert i (setMultifunction e0) (devices p) |>).
Proof.
  intros W Hf He. pose proof (zlookup_range _ _ _ He) as Hr.
  assert (Hl : forall j, zlookup (zinsert i (setMultifunction e0) (devices p)) j =
    if j =? i then Some (setMultifunction e0) else zlookup (devices p) j) by (intros j; by apply zlookup_insert).
  assert (Hp : forall j e', zlookup (zinsert i (setMultifunction e0) (devices p)) j = Some e' ->
    exists e, zlookup (devices p) j = Some e /\ same_place e e').
  { intros j e'. rewrite Hl. destruct (j =? i) eqn:E; zbool.
    - subst. intros [= <-]. exists e0. split; [done|apply setMultifunction_place].
    - intros Hj. exists e'. split; [done|]. by unfold same_place; splits. }
  constructor; cbn -[zlookup zinsert zlen].
  - intros k j Hk. destruct (pw_fun p W k j Hk) as (e & He1 & Hk1). rewrite Hl. destruct (j =? i) eqn:E; zbool; [|by exists e].
    subst j. rewrite He in He1. injection He1 as <-. eexists. split; [done|]. exact Hk1.
  - intros j e' Hj. destruct (Hp j e' Hj) as (e & He1 & Hs & Hfn & Ho & _). destruct (pw_dev p W j e He1) as (? & ? & ? & ?).
    unfold key. rewrite Hs, Hfn. splits; auto; lia.
  - intros j k ej ek Hj Hk Hs Hf0 Hf1. destruct (Hp j ej Hj) as (e1 & He1 & Hs1 & Hfn1 & _ & _ & _ & Hb).
    destruct (Hp k ek Hk) as (e2 & He2 & Hs2 & Hfn2 & _). apply Hb. eapply (pw_multi p W j k e1 e2); congruence.
  - intros s bar v Hv. destruct (pw_bar p W s bar v Hv) as (Hu & e & He1 & Hm & Hb). split; [done|]. rewrite Hl.
    destruct (s =? i) eqn:E; zbool; [|by exists e]. subst s. rewrite He in He1. injection He1 as <-. by eexists.
  - intros s off v Hv. rewrite zlen_insert. by apply (pw_cfg p W s off v).
  - apply (pw_next p W).
  - apply (pw_addr p W).
Qed.

Definition appended (slot fn : Z) e p : PCI D :=
  p <| functions := <[slot * 8 + fn := zlen (devices p)]> (functions p) |>
    <| devices := devices p ++ [e <| rd_slot := slot |> <| rd_function := fn |>] |>
    <| nextSlot := if nextSlot p <=? slot then slot + 1 else nextSlot p |>.

Lemma append_wf p slot fn e :
  pci_wf p -> entry_ok e -> 0 <= slot -> 0 <= fn < 8 -> functions p !! (slot * 8 + fn) = None ->
  (forall j ej, zlookup (devices p) j = Some ej -> rd_slot ej = slot -> fn = 0 -> rd_function ej <> 0 ->
     Z.testbit (HeaderType (rd_header e)) 7 = true) ->
  (forall i ei, zlookup (devices p) i = Some ei -> rd_slot ei = slot -> fn <> 0 -> rd_function ei = 0 ->
     Z.testbit (HeaderType (rd_header ei)) 7 = true) ->
  pci_wf (appended slot fn e p).
Proof.
  intros W He Hs Hf Hn Hnew Hold. set (e1 := e <| rd_slot := slot |> <| rd_function := fn |>).
  assert (Hl : forall j, zlookup (devices p ++ [e1]) j = if j =? zlen (devices p) then Some e1 else zlookup (devices p) j)
    by (intros j; apply zlookup_app_last).
  assert (Hk1 : key e1 = slot * 8 + fn) by done.
  constructor; cbn -[zlookup zlen Z.mul]; fold e1.
  - intros k j. destruct (decide (k = slot * 8 + fn)) as [->|Hne].
    + rewrite lookup_insert_eq. intros [= <-]. exists e1. by rewrite Hl, Z.eqb_refl.
    + rewrite lookup_insert_ne by done. intros Hk. destruct (pw_fun p W k j Hk) as (e2 & He2 & Hk2). exists e2. split; [|done].
      rewrite Hl. pose proof (zlookup_range _ _ _ He2). destruct (_ =? _) eqn:?; zbool; [lia|done].
  - intros j e2. rewrite Hl. destruct (j =? _) eqn:E; zbool.
    + intros [= <-]. subst j. splits; try (cbn; lia).
      * by destruct He; constructor.
      * rewrite Hk1. apply lookup_insert_eq.
      * change (rd_slot e1) with slot. destruct (_ <=? _) eqn:?; zbool; lia.
    + intros Hj. destruct (pw_dev p W j e2 Hj) as (? & Hfn & ? & ?). splits; try done; try lia.
      * rewrite lookup_insert_ne; [done|]. intros Hk. rewrite <- Hk in Hfn. congruence.
      * destruct (_ <=? _) eqn:?; zbool; lia.
  - intros i j ei ej. rewrite !Hl. destruct (i =? _) eqn:E1, (j =? _) eqn:E2; zbool.
    + intros [= <-] [= <-]. done.
    + intros [= <-] Hj Hss H0 H1. by apply (Hnew j ej).
    + intros Hi [= <-] Hss H0 H1. by apply (Hold i ei).
    + apply (pw_multi p W).
  - intros s bar v Hv. destruct (pw_bar p W s bar v Hv) as (Hu & e2 & He2 & ?). split; [done|]. exists e2. split; [|done].
    rewrite Hl. pose proof (zlookup_range _ _ _ He2). destruct (_ =? _) eqn:?; zbool; [lia|done].
  - intros s off v Hv. destruct (pw_cfg p W s off v Hv) as (? & ? & ?). rewrite zlen_app. change (zlen [_]) with 1. unfold is_u8 in *. splits; lia.
  - pose proof (pw_next p W). destruct (_ <=? _) eqn:?; zbool; lia.
  - apply (pw_addr p W).
Qed.

(** Function 0 of a slot is the device its function map names. *)
Lemma function0 p i ei slot :
  pci_wf p -> zlookup (devices p) i = Some ei -> rd_slot ei = slot -> rd_function ei = 0 ->
  functions p !! (slot * 8) = Some i.
Proof.
  intros W Hi <- Hf. destruct (pw_dev p W i ei Hi) as (_ & Hk & _). unfold key in Hk. by rewrite Hf, Z.add_0_r in Hk.
Qed.

Lemma wp_registerAt slot fn e p :
  pci_wf p -> entry_ok e -> 0 <= slot -> 0 <= fn < 8 -> functions p !! (slot * 8 + fn) = None ->
  wp (registerAt slot fn e) p
    (fun _ p' => pci_wf p' /\ barOverride p' = barOverride p /\ Devices p' = Devices p ++ [rd_dev e] /\
       functions p' = <[slot * 8 + fn := zlen (devices p)]> (functions p) /\ configOverride p' = configOverride p)
    (fun _ _ => False).
Proof.
  intros W He Hs Hf Hn. unfold registerAt. wstep. wstep. set (p0 := if zlen (devices p) =? 0 then _ else _).
  assert (W0 : pci_wf p0) by (unfold p0; destruct (_ =? 0); [by destruct W; constructor|done]).
  assert (Hd0 : devices p0 = devices p /\ functions p0 = functions p /\ barOverride p0 = barOverride p /\
    configOverride p0 = configOverride p) by (unfold p0; by destruct (_ =? 0)). destruct Hd0 as (Hd0 & Hf0 & Hx0 & Hc0).
  clearbody p0. do 2 wstep. cbv beta.
  assert (Hend : forall e1 p1, pci_wf p1 -> entry_ok e1 -> functions p1 = functions p0 -> barOverride p1 = barOverride p0 -> configOverride p1 = configOverride p0 ->
    zlen (devices p1) = zlen (devices p0) -> Devices p1 = Devices p0 -> rd_dev e1 = rd_dev e ->
    (forall j ej, zlookup (devices p1) j = Some ej -> rd_slot ej = slot -> fn = 0 -> rd_function ej <> 0 ->
       Z.testbit (HeaderType (rd_header e1)) 7 = true) ->
    (forall i ei, zlookup (devices p1) i = Some ei -> rd_slot ei = slot -> fn <> 0 -> rd_function ei = 0 ->
       Z.testbit (HeaderType (rd_header ei)) 7 = true) ->
    pci_wf (appended slot fn e1 p1) /\ barOverride (appended slot fn e1 p1) = barOverride p /\ Devices (appended slot fn e1 p1) = Devices p ++ [rd_dev e] /\
    functions (appended slot fn e1 p1) = <[slot * 8 + fn := zlen (devices p)]> (functions p) /\
    configOverride (appended slot fn e1 p1) = configOverride p).
  { intros e1 p1 W1 He1 Hf1 Hx1 Hcf1 Hz1 HD1 Hr1 Hc1 Hc2. splits.
    - apply append_wf; try done. by rewrite Hf1, Hf0.
    - unfold appended. cbn. congruence.
    - unfold Devices in *. cbn. rewrite map_app, HD1, Hd0. cbn. by rewrite Hr1.
    - unfold appended. cbn -[Z.mul]. congruence.
    - unfold appended. cbn. congruence. }
  destruct (fn =? 0) eqn:E; zbool; cbn [negb].
  - wstep. wstep. wstep. cbv beta. fold (appended slot fn (if existsb (fun fn => bool_decide (is_Some (functions p0 !! (slot * 8 + fn))))
      [1; 2; 3; 4; 5; 6; 7] then setMultifunction e else e) p0).
    apply Hend; try done; try (by destruct (existsb _ _); [apply setMultifunction_place|]).
    + by destruct (existsb _ _).
    + intros j ej Hj Hss _ Hnz. replace (existsb _ _) with true; [apply setMultifunction_bit|]. symmetry.
      destruct (pw_dev p0 W0 j ej Hj) as (_ & Hk & _ & Hr). apply existsb_exists. exists (rd_function ej). split.
      * assert (Hc : rd_function ej = 1 \/ rd_function ej = 2 \/ rd_function ej = 3 \/ rd_function ej = 4 \/
          rd_function ej = 5 \/ rd_function ej = 6 \/ rd_function ej = 7) by lia. cbn. intuition.
      * apply bool_decide_eq_true. unfold key in Hk. rewrite Hss in Hk. by eexists.
  - destruct (functions p0 !! (slot * 8)) as [i|] eqn:Hfn.
    + destruct (pw_fun p0 W0 _ _ Hfn) as (e0 & He0 & Hk0). pose proof (zlookup_range _ _ _ He0).
      wstep. wstep. eapply wp_gindex; [exact He0|]. do 3 wstep. wstep.
      apply Hend; try done.
      * by apply (mark_wf p0 slot).
      * cbn -[zlen]. by rewrite zlen_insert.
      * unfold Devices. cbn. unfold zinsert, zlookup in *. destruct (i <? 0); [done|]. rewrite list_fmap_insert.
        apply list_insert_id. by rewrite list_lookup_fmap, He0.
      * intros j ej. cbn -[zlookup]. rewrite zlookup_insert by done. destruct (j =? i) eqn:Ej; zbool.
        -- intros [= <-] _ _ _. apply setMultifunction_bit.
        -- intros Hj Hss _ Hz. pose proof (function0 p0 j ej slot W0 Hj Hss Hz). congruence.
    + wstep. wstep. wstep. apply Hend; try done. intros i ei Hi Hss _ Hz.
      pose proof (function0 p0 i ei slot W0 Hi Hss Hz). congruence.
Qed.

Lemma nextSlot_free p fn : pci_wf p -> 0 <= fn < 8 -> functions p !! (nextSlot p * 8 + fn) = None.
Proof.
  intros W Hf. destruct (functions p !! _) as [i|] eqn:Hk; [|done].
  destruct (pw_fun p W _ _ Hk) as (e & He & Hke). destruct (pw_dev p W i e He) as (_ & _ & Hs & Hfn).
  unfold key in Hke. lia.
Qed.

Lemma wp_AddDevices devs p :
  pci_wf p -> wp (AddDevices devs) p (fun _ p' => pci_wf p' /\ barOverride p' = barOverride p /\ Devices p' = Devices p ++ devs) (fun _ _ => False).
Proof using HL.
  unfold AddDevices. revert p. induction devs as [|d devs IH]; intros p W; cbn [map registerAll].
  { wstep. by rewrite app_nil_r. }
  do 3 wstep. wcall wp_registerAt; try done; [apply registerDevice_ok|by apply pw_next|by apply nextSlot_free|].
  intros [] p1 (W1 & Ho1 & Hd1 & _). wcall IH; [done| |done]. intros [] p2 (W2 & Ho2 & Hd2). splits; [done|congruence|].
  rewrite Hd2, Hd1, <- app_assoc. do 2 f_equal. unfold registerDevice. destruct (AsCapsAndMMIO d); [|done]. by destruct (_ && _).
Qed.

Lemma wp_AddDeviceAt slot fn d p :
  pci_wf p ->
  wp (AddDeviceAt slot fn d) p (fun _ p' => pci_wf p')
    (fun (err : error) p' => p' = p /\ (err = ErrDeviceAddress \/ (err = ErrDeviceOccupied /\ is_Some (functions p !! (slot * 8 + fn))))).
Proof using HL.
  intros W. unfold AddDeviceAt. destruct (_ || _) eqn:E; [wstep; auto|]. zbool. do 2 wstep. cbv beta.
  destruct (functions p !! _) eqn:Hf; [wstep; split; [done|]; right; split; [done|by eexists]|].
  wcall wp_registerAt; try done; try lia; [apply registerDevice_ok|]. by intros [] p' (? & _).
Qed.

(** What the guest reads from a function. *)
Definition configByte p (slot : Z) e (i : Z) : Z :=
  match override (configOverride p) slot i with
  | Some v => v
  | None => default (zget (zwrite (zcopy (zeros 256) (headerBytes (rd_header e))) 0x40 (take 192 (rd_caps e))) i)
              (barByte (default ∅ (barOverride p !! slot)) i)
  end.

Lemma zlen_headerBytes h : zlen (BAR h) = 6 -> zlen (headerBytes h) = 64.
Proof.
  intros Hb. assert (Hf : forall l, zlen (flat_map (le_bytes 4) l) = 4 * zlen l).
  { induction l as [|x l IH]; [done|]. cbn [flat_map]. rewrite zlen_app, IH, zlen_cons, zlen_le_bytes. lia. }
  unfold headerBytes. autorewrite with golen. rewrite Hf, Hb. done.
Qed.

Lemma zlen_configBase e :
  entry_ok e -> zlen (zwrite (zcopy (zeros 256) (headerBytes (rd_header e))) 0x40 (take 192 (rd_caps e))) = 256.
Proof.
  intros He. pose proof (zlen_headerBytes _ (proj1 (eo_bars e He))) as Hh.
  assert (Hc : zlen (zcopy (zeros 256) (headerBytes (rd_header e))) = 256).
  { unfold zcopy, zlen in *. rewrite length_app, length_take, length_drop. unfold zeros. rewrite length_replicate. lia. }
  assert (Ht : zlen (take 192 (rd_caps e)) <= 192) by (unfold zlen; rewrite length_take; lia).
  rewrite zlen_write, Hc by lia. destruct (_ =? 0); lia.
Qed.

Lemma configSpace_spec p slot e :
  pci_wf p -> zlookup (devices p) slot = Some e ->
  zlen (configSpace p slot e) = 256 /\ forall i, 0 <= i < 256 -> zget (configSpace p slot e) i = configByte p slot e i.
Proof.
  intros W He. destruct (pw_dev p W slot e He) as (Ho & _). unfold configSpace.
  set (cfg := zwrite _ _ _). assert (Hc : zlen cfg = 256) by (by apply zlen_configBase).
  destruct (fold_bars (default ∅ (barOverride p !! slot)) cfg) as [Hl1 Hg1]; [|done|].
  { intros bar v Hv. destruct (pw_bar p W slot bar v) as (_ & e' & He' & Hm & ->).
    - unfold override. by destruct (barOverride p !! slot).
    - assert (e' = e) by congruence. subst. by apply (eo_mmio e Ho). }
  destruct (fold_bytes (default ∅ (configOverride p !! slot)) _ Hl1) as [Hl2 Hg2].
  split; [done|]. intros i Hi. rewrite Hg2, Hg1 by done. unfold configByte, override.
  destruct (configOverride p !! slot) as [m|]; cbn; [by destruct (m !! i)|]. by rewrite lookup_empty.
Qed.

Lemma isEnable_true a : is_u32 a -> isEnable a = true.
Proof.
  unfold is_u32, isEnable. intros Ha. rewrite Z.shiftr_div_pow2 by lia. apply Z.eqb_eq.
  assert (0 <= a / 2 ^ 31 < 2) by (split; [apply Z.div_pos; lia|apply Z.div_lt_upper_bound; lia]).
  assert (Hc : a / 2 ^ 31 = 0 \/ a / 2 ^ 31 = 1) by lia. by destruct Hc as [-> | ->].
Qed.

Lemma zlen_zcopy dst src : zlen (zcopy dst src) = zlen dst.
Proof. unfold zcopy, zlen. rewrite length_app, length_take, length_drop. lia. Qed.

(** A function is addressed at register [off]. *)
Record selected p (slot : Z) e (off : Z) : Prop := {
  sel_bus : getBusNumber (p_addr p) = 0;
  sel_fun : functions p !! confFunction p = Some slot;
  sel_dev : zlookup (devices p) slot = Some e;
  sel_off : getRegisterOffset (p_addr p) = off
}.

Definition probing p (slot bar : Z) : bool := (probeSlot p =? slot) && (probeBar p =? bar).

Definition unprobed p : PCI D := p <| probeSlot := -1 |> <| probeBar := 0 |>.

Lemma unprobed_wf p : pci_wf p -> pci_wf (unprobed p).
Proof. intros []. by constructor. Qed.

Lemma confOffset_eq p off k :
  is_u32 (p_addr p) -> getRegisterOffset (p_addr p) = off -> 0 <= k < 4 ->
  confOffset p (0xCFC + k) = off + k /\ 0 <= off < 2 ^ 8.
Proof.
  intros Ha Ho Hk. unfold confOffset. rewrite Ho. replace (0xCFC + k - 0xCFC) with k by lia.
  rewrite (u64_small k), (u32_small k) by lia.
  assert (0 <= off < 2 ^ 8).
  { rewrite <- Ho. unfold getRegisterOffset, is_u32 in *. rewrite Z.land_comm. apply land_range; lia. }
  split; [apply u32_small; lia|done].
Qed.

Lemma zlookup_sizes e bar : entry_ok e -> 0 <= bar < 6 -> zlookup (rd_barSizes e) bar = Some (zget (rd_barSizes e) bar).
Proof. intros He Hb. apply zlookup_zget. rewrite (eo_sizes e He). done. Qed.

(** Reading configuration data. *)
Lemma wp_PciConfDataIn port values p :
  pci_wf p ->
  wp (PciConfDataIn port values) p
    (fun v p' => zlen v = zlen values /\ (p' = p \/ p' = unprobed p)) (fun _ _ => False).
Proof.
  intros W. assert (Hfill : zlen (fillAbsent values) = zlen values) by (unfold fillAbsent, zlen; by rewrite length_replicate).
  unfold PciConfDataIn. do 2 wstep. cbv beta zeta. rewrite (isEnable_true _ (pw_addr p W)). cbn [negb].
  destruct (negb _); [wstep; auto|]. destruct (functions p !! _) as [slot|] eqn:Hf; [|wstep; auto].
  destruct (pw_fun p W _ _ Hf) as (e & He & _). destruct (pw_dev p W slot e He) as (Ho & _).
  wstep. eapply wp_gindex; [exact He|]. destruct (_ && _) eqn:E; zbool.
  - pose proof (barAtOffset_cases (confOffset p port)) as Hb.
    wstep. eapply wp_gindex; [apply (zlookup_sizes e); [done|lia]|].
    wstep. destruct (_ <=? _); wsteps; (split; [apply zlen_zcopy|auto]).
  - destruct (configSpace_spec p slot e W He) as [Hl _]. rewrite Hl.
    cbv zeta. destruct (256 <=? confOffset p port) eqn:E2; [wstep; auto|]. zbool. wstep. split; [|auto].
    pose proof (u32_range (getRegisterOffset (p_addr p) + u32 (u64 (port - 0xCFC)))). fold (confOffset p port) in *.
    pose proof (zlen_nonneg values). rewrite zlen_app, zlen_slice by lia. unfold zlen. rewrite length_replicate. unfold zlen in *. lia.
Qed.

(** Reading registers of a function when no size probe is pending. *)
Lemma read_registers p slot e off k values :
  pci_wf p -> selected p slot e off -> 0 <= k < 4 -> off + k + zlen values <= 256 ->
  barAtOffset (off + k) = -1 \/ probing p slot (barAtOffset (off + k)) = false ->
  exists v, PciConfDataIn (0xCFC + k) values p = (Ok v, p) /\ zlen v = zlen values /\
    forall i, 0 <= i < zlen values -> zget v i = configByte p slot e (off + k + i).
Proof.
  intros W S Hk Hn Hp. destruct (confOffset_eq p off k (pw_addr p W) (sel_off _ _ _ _ S) Hk) as [Ho Hr].
  destruct (configSpace_spec p slot e W (sel_dev _ _ _ _ S)) as [Hl Hg]. pose proof (zlen_nonneg values).
  unfold PciConfDataIn. unfold gbind at 1, gget. rewrite Ho, (isEnable_true _ (pw_addr p W)), (sel_bus _ _ _ _ S), (sel_fun _ _ _ _ S).
  cbn [negb Z.eqb]. unfold gbind, gindex. rewrite (sel_dev _ _ _ _ S). unfold ret at 1.
  assert (Hnp : (0 <=? barAtOffset (off + k)) && (probeSlot p =? slot) && (probeBar p =? barAtOffset (off + k)) = false).
  { destruct Hp as [-> |Hp]; [done|]. unfold probing in Hp. by rewrite <- andb_assoc, Hp, andb_false_r. }
  rewrite Hnp, Hl.
  destruct (256 <=? off + k) eqn:E; zbool.
  - assert (Hz : zlen values = 0) by lia. exists (fillAbsent values). unfold ret. splits; [done| |lia].
    unfold fillAbsent, zlen. by rewrite length_replicate.
  - rewrite Z.min_l by lia. replace (off + k + zlen values - (off + k)) with (zlen values) by lia.
    replace (length values - Z.to_nat (zlen values))%nat with 0%nat by (unfold zlen; lia). cbn [replicate]. rewrite app_nil_r.
    eexists. split; [done|]. split; [apply zlen_slice; lia|]. intros i Hi. rewrite zget_slice by lia.
    apply Hg. lia.
Qed.

(** ** Writing configuration data *)

Lemma override_config_wf p slot off values :
  pci_wf p -> bytes_ok values -> 0 <= off -> slot < zlen (devices p) ->
  pci_wf (p <| configOverride := overrideBytes slot off values (configOverride p) |>).
Proof.
  intros W Hb Ho Hs. destruct W as [? ? ? ? Hc ? ?]. constructor; try done. cbn -[override overrideBytes zlen].
  intros s k v. rewrite override_bytes by done. destruct (_ && _) eqn:E; [|apply Hc]. zbool. intros [= <-]. subst s.
  splits; try lia; try done. unfold is_u8. pose proof (bytes_ok_zget values (k - off) Hb). lia.
Qed.

Lemma override_bar_wf p slot e v :
  pci_wf p -> zlookup (devices p) slot = Some e -> rd_mmio e = true -> is_u32 v ->
  pci_wf (p <| barOverride := setOverride (barOverride p) slot (rd_mmioBAR e) v |>).
Proof.
  intros W He Hm Hv. destruct W as [? ? ? Hb ? ? ?]. constructor; try done. cbn -[override setOverride zlookup].
  intros s k w. rewrite override_set. destruct (_ && _) eqn:E; [|apply Hb]. zbool. subst. intros [= <-]. split; [done|]. by exists e.
Qed.

Lemma wp_PciConfDataOut port values p :
  pci_wf p -> bytes_ok values ->
  wp (PciConfDataOut port values) p
    (fun _ p' => pci_wf p' /\ devices p' = devices p /\ functions p' = functions p) (fun _ _ => False).
Proof.
  intros W Hb. unfold PciConfDataOut. do 2 wstep. cbv beta zeta. rewrite (isEnable_true _ (pw_addr p W)). cbn [negb].
  destruct (negb _); [by wstep|]. destruct (functions p !! _) as [slot|] eqn:Hf; [|by wstep].
  destruct (pw_fun p W _ _ Hf) as (e & He & _). destruct (pw_dev p W slot e He) as (Ho & _).
  pose proof (u32_range (getRegisterOffset (p_addr p) + u32 (u64 (port - 0xCFC)))) as Hr. fold (confOffset p port) in Hr.
  destruct (barAtOffset (confOffset p port) <? 0).
  { wstep. split; [|done]. apply override_config_wf; try done; [lia|]. apply (zlookup_range _ _ _ He). }
  destruct (_ && _); [wstep; split; [by destruct W; constructor|done]|].
  wstep. eapply wp_gindex; [exact He|]. destruct (rd_mmio e && _) eqn:E; [|by wstep]. apply andb_true_iff in E as [Hm ->%Z.eqb_eq].
  wstep. split; [|done]. apply override_bar_wf; try done. apply u32_range.
Qed.

Lemma write_config p slot e off k values :
  pci_wf p -> selected p slot e off -> 0 <= k < 4 -> barAtOffset (off + k) = -1 ->
  PciConfDataOut (0xCFC + k) values p =
    (Ok tt, p <| configOverride := overrideBytes slot (off + k) values (configOverride p) |>).
Proof.
  intros W S Hk Hb. destruct (confOffset_eq p off k (pw_addr p W) (sel_off _ _ _ _ S) Hk) as [Ho _].
  unfold PciConfDataOut. unfold gbind at 1, gget. rewrite Ho, (isEnable_true _ (pw_addr p W)), (sel_bus _ _ _ _ S), (sel_fun _ _ _ _ S).
  cbn [negb Z.eqb]. by rewrite Hb.
Qed.

Lemma barAtOffset_reg bar : 0 <= bar < 6 -> barAtOffset (0x10 + bar * 4) = bar.
Proof. intros Hb. apply barAtOffset_spec; lia. Qed.

Lemma write_probe p slot e bar :
  pci_wf p -> selected p slot e (0x10 + bar * 4) -> 0 <= bar < 6 ->
  PciConfDataOut 0xCFC [0xff; 0xff; 0xff; 0xff] p = (Ok tt, p <| probeSlot := slot |> <| probeBar := bar |>).
Proof.
  intros W S Hb. destruct (confOffset_eq p _ 0 (pw_addr p W) (sel_off _ _ _ _ S) ltac:(lia)) as [Ho _].
  change (0xCFC + 0) with 0xCFC in Ho. rewrite Z.add_0_r in Ho.
  unfold PciConfDataOut. unfold gbind at 1, gget. rewrite Ho, (isEnable_true _ (pw_addr p W)), (sel_bus _ _ _ _ S), (sel_fun _ _ _ _ S).
  cbn [negb Z.eqb]. rewrite barAtOffset_reg by done. destruct (bar <? 0) eqn:?; zbool; [lia|]. rewrite Z.eqb_refl. done.
Qed.

Lemma write_bar p slot e base :
  pci_wf p -> selected p slot e (0x10 + rd_mmioBAR e * 4) -> rd_mmio e = true -> is_u32 base -> base <> 2 ^ 32 - 1 ->
  PciConfDataOut 0xCFC (le_bytes 4 base) p =
    (Ok tt, p <| barOverride := setOverride (barOverride p) slot (rd_mmioBAR e) base |>).
Proof.
  intros W S Hm Hu Hne. destruct (confOffset_eq p _ 0 (pw_addr p W) (sel_off _ _ _ _ S) ltac:(lia)) as [Ho _].
  change (0xCFC + 0) with 0xCFC in Ho. rewrite Z.add_0_r in Ho.
  destruct (pw_dev p W slot e (sel_dev _ _ _ _ S)) as (Hok & _). pose proof (eo_mmio e Hok Hm) as Hb.
  assert (Hn : BytesToNum (le_bytes 4 base) = base).
  { rewrite BytesToNum_le, le_val_bytes by (apply le_bytes_ok || by rewrite zlen_le_bytes). by apply Z.mod_small. }
  unfold PciConfDataOut. unfold gbind at 1, gget. rewrite Ho, (isEnable_true _ (pw_addr p W)), (sel_bus _ _ _ _ S), (sel_fun _ _ _ _ S).
  cbn [negb Z.eqb]. rewrite barAtOffset_reg by done. destruct (_ <? 0) eqn:?; zbool; [lia|]. rewrite Hn, Z.eqb_refl.
  destruct (base =? 0xffffffff) eqn:E; zbool; [lia|]. rewrite andb_false_r.
  unfold gbind, gindex. rewrite (sel_dev _ _ _ _ S). unfold ret at 1. rewrite Hm, Z.eqb_refl, Z.sub_diag. change (Z.to_nat 0) with 0%nat. cbn [andb]. rewrite take_0. cbn [app].
  assert (Hz : forall l, zcopy (drop 0 (NumToBytes 4 l)) (le_bytes 4 base) = le_bytes 4 base) by reflexivity.
  rewrite Hz, Hn, u32_small by done. done.
Qed.

(** ** Decoding *)

(** The device at [slot] decodes the guest-physical address [a]. *)
Definition decodes p (slot : Z) e (a : Z) : bool :=
  let base := barBase p slot e (rd_mmioBAR e) in
  rd_mmio e && (base <=? a) && (a - base <? zget (rd_barSizes e) (rd_mmioBAR e)).

Lemma lookupFrom_unique p a slot e es n :
  zlookup es (slot - n) = Some e -> decodes p slot e a = true ->
  (forall j ej, zlookup es j = Some ej -> n + j <> slot -> decodes p (n + j) ej a = false) ->
  lookupFrom p n es a = Some (slot, a - barBase p slot e (rd_mmioBAR e)).
Proof.
  revert n. induction es as [|e0 es IH]; intros n He Hd Ho.
  { apply zlookup_range in He. change (zlen []) with 0 in He. lia. }
  rewrite zlookup_cons in He. cbn [lookupFrom].
  assert (Hrest : forall j ej, zlookup es j = Some ej -> n + 1 + j <> slot -> decodes p (n + 1 + j) ej a = false).
  { intros j ej Hj Hn. pose proof (zlookup_range _ _ _ Hj). rewrite <- Z.add_assoc. apply Ho; [|lia].
    rewrite zlookup_cons. destruct (1 + j =? 0) eqn:?; zbool; [lia|]. rewrite <- Hj. f_equal. lia. }
  destruct (slot - n =? 0) eqn:E; zbool.
  - injection He as ->. assert (n = slot) as -> by lia. unfold decodes in Hd. cbv zeta in Hd. rewrite <- andb_assoc in Hd.
    apply andb_true_iff in Hd as [-> Hd]. cbn [negb]. by rewrite Hd.
  - pose proof (Ho 0 e0 ltac:(rewrite zlookup_cons; done) ltac:(lia)) as Hf. rewrite Z.add_0_r in Hf.
    unfold decodes in Hf. cbv zeta in Hf. rewrite <- andb_assoc in Hf.
    assert (Hnext : lookupFrom p (n + 1) es a = Some (slot, a - barBase p slot e (rd_mmioBAR e))).
    { apply IH; try done. rewrite <- He. f_equal. lia. }
    destruct (rd_mmio e0); cbn [negb andb] in *; [|done]. by rewrite Hf.
Qed.

Lemma LookupMMIO_unique p a slot e :
  zlookup (devices p) slot = Some e -> decodes p slot e a = true ->
  (forall j ej, zlookup (devices p) j = Some ej -> j <> slot -> decodes p j ej a = false) ->
  LookupMMIO p a = Some (slot, a - barBase p slot e (rd_mmioBAR e)).
Proof.
  intros He Hd Ho. apply lookupFrom_unique; [by rewrite Z.sub_0_r|done|]. intros j ej Hj Hn. by apply Ho.
Qed.

Lemma base_mask raw : raw mod 16 = 0 -> (if raw &&& 0x1 =? 0x1 then raw &^ 0x3 else raw &^ 0xf) = raw.
Proof.
  intros Ha. assert (Hb : raw = raw / 16 * 2 ^ 4) by (pose proof (Z.div_mod raw 16); lia).
  assert (Hl : raw &&& 1 = 0).
  { change 1 with (2 ^ 1 - 1). rewrite land_mask_mod by lia. rewrite Hb. change (2 ^ 4) with (8 * 2 ^ 1).
    rewrite Z.mul_assoc. apply Z.mod_mul. lia. }
  rewrite Hl. cbn [Z.eqb]. change 0xf with (2 ^ 4 - 1). rewrite ldiff_low by lia. by symmetry.
Qed.

Lemma barBase_aligned p slot e bar base :
  barRaw p slot e bar = base -> base mod 16 = 0 -> barBase p slot e bar = base.
Proof. intros Ho Ha. unfold barBase. rewrite Ho. by apply base_mask. Qed.

(** ** Properties *)

(** Steps of the bus: the machine registers devices, the guest accesses the
    address and data ports. *)
Inductive pci_step : PCI D -> PCI D -> Prop :=
| step_AddDevices devs p p' : AddDevices devs p = (Ok tt, p') -> pci_step p p'
| step_AddDeviceAt slot fn d p r p' : AddDeviceAt slot fn d p = (r, p') -> pci_step p p'
| step_AddrOut values p : bytes_ok values -> pci_step p (PciConfAddrOut values p)
| step_DataIn port values p r p' : PciConfDataIn port values p = (r, p') -> pci_step p p'
| step_DataOut port values p r p' : bytes_ok values -> PciConfDataOut port values p = (r, p') -> pci_step p p'.

Lemma step_wf p p' : pci_step p p' -> pci_wf p -> pci_wf p'.
Proof using HL.
  intros [devs q q' Hr|slot fn d q r q' Hr|values q Hb|port values q r q' Hr|port values q r q' Hb Hr] W.
  - pose proof (wp_AddDevices devs q W) as Hw. unfold wp in Hw. rewrite Hr in Hw. apply Hw.
  - pose proof (wp_AddDeviceAt slot fn d q W) as Hw. unfold wp in Hw. rewrite Hr in Hw. destruct r; try done. by destruct Hw as [-> _].
  - unfold PciConfAddrOut. destruct (negb _); [done|]. destruct W. constructor; try done. apply u32_range.
  - pose proof (wp_PciConfDataIn port values q W) as Hw. unfold wp in Hw. rewrite Hr in Hw.
    destruct r; try done. destruct Hw as [_ [-> | ->]]; [done|by apply unprobed_wf].
  - pose proof (wp_PciConfDataOut port values q W Hb) as Hw. unfold wp in Hw. rewrite Hr in Hw. destruct r; try done. apply Hw.
Qed.

Lemma steps_wf p p' : rtc pci_step p p' -> pci_wf p -> pci_wf p'.
Proof using HL. induction 1 as [|a b c Hs _ IH]; [done|]. intros Ha. by apply IH, (step_wf a). Qed.

(** C36: in every state a bus reaches by registering devices and serving guest
    accesses, the function map and the device list describe each other, function
    0 of a slot with several functions has the multifunction bit, guest-assigned
    addresses exist only for memory BARs, and every guest access to the data
    port returns without a panic, a read with as many bytes as were asked for. *)
Theorem pci_reachable_safe p :
  rtc pci_step (emptyPCI (D := D)) p ->
  pci_wf p /\
  (forall port values, exists v p', PciConfDataIn port values p = (Ok v, p') /\ zlen v = zlen values) /\
  (forall port values, bytes_ok values -> exists p', PciConfDataOut port values p = (Ok tt, p')).
Proof using HL.
  intros Hr. pose proof (steps_wf _ p Hr emptyPCI_wf) as W.
  split; [done|split].
  - intros port values. pose proof (wp_PciConfDataIn port values p W) as Hw. unfold wp in Hw.
    destruct (PciConfDataIn port values p) as [[v| | |] p']; try done. exists v, p'. by split; [|apply Hw].
  - intros port values Hb. pose proof (wp_PciConfDataOut port values p W Hb) as Hw. unfold wp in Hw.
    destruct (PciConfDataOut port values p) as [[[]| | |] p']; try done. by exists p'.
Qed.

(** The sizing protocol: after writing all ones to a BAR the next read returns
    a mask whose complement plus one is the size of the BAR; afterwards the bus is
    as before, with no probe pending, and every address is decoded as before. *)
Theorem bar_size_probe p slot e bar values :
  let size := zget (rd_barSizes e) bar in
  pci_wf p -> selected p slot e (0x10 + bar * 4) -> 0 <= bar < 6 -> 0 < size < 2 ^ 32 -> zlen values = 4 ->
  exists p1 mask,
    PciConfDataOut 0xCFC [0xff; 0xff; 0xff; 0xff] p = (Ok tt, p1) /\
    PciConfDataIn 0xCFC values p1 = (Ok mask, unprobed p) /\
    u32 (2 ^ 32 - 1 - le_val mask + 1) = size /\
    forall a, LookupMMIO (unprobed p) a = LookupMMIO p a.
Proof.
  intros size W S Hb Hs Hv. rewrite (write_probe p slot e bar W S Hb). eexists _, _. split; [done|].
  destruct (confOffset_eq p _ 0 (pw_addr p W) (sel_off _ _ _ _ S) ltac:(lia)) as [Ho _].
  change (0xCFC + 0) with 0xCFC in Ho. rewrite Z.add_0_r in Ho.
  destruct (pw_dev p W slot e (sel_dev _ _ _ _ S)) as (Hok & _).
  set (p1 := p <| probeSlot := slot |> <| probeBar := bar |>).
  assert (Hc : zcopy values (NumToBytes 4 (SizeToBits size)) = NumToBytes 4 (SizeToBits size)).
  { unfold zcopy, zlen in *. rewrite (drop_ge values) by (cbn; lia). rewrite app_nil_r. apply take_ge. cbn. lia. }
  splits.
  - unfold PciConfDataIn. unfold gbind at 1, gget. change (confOffset p1 0xCFC) with (confOffset p 0xCFC).
    change (p_addr p1) with (p_addr p). change (functions p1 !! confFunction p1) with (functions p !! confFunction p).
    rewrite Ho, (isEnable_true _ (pw_addr p W)), (sel_bus _ _ _ _ S), (sel_fun _ _ _ _ S).
    cbn [negb Z.eqb]. unfold gbind at 1, gindex at 1. change (devices p1) with (devices p). rewrite (sel_dev _ _ _ _ S). unfold ret at 1.
    rewrite barAtOffset_reg by done. change (probeSlot p1) with slot. change (probeBar p1) with bar. rewrite !Z.eqb_refl.
    destruct (0 <=? bar) eqn:?; zbool; [|lia]. cbn [andb]. unfold gbind at 1, gindex at 1. rewrite (zlookup_sizes e bar Hok Hb).
    unfold ret at 1. fold size. destruct (_ <=? _) eqn:E; zbool; [|lia]. rewrite Z.sub_diag. unfold gbind, gupd, ret.
    change (drop (Z.to_nat 0)) with (@drop Z 0). rewrite drop_0, Hc. done.
  - rewrite NumToBytes_le, le_val_bytes, SizeToBits_compl by done. change (256 ^ Z.of_nat 4) with (2 ^ 32).
    rewrite Z.mod_small by lia. rewrite u32_small by lia. lia.
  - intros a. unfold LookupMMIO. change (devices (unprobed p)) with (devices p).
    generalize (devices p) as es, 0 as n. induction es as [|e0 es IH]; intros n; [done|]. cbn [lookupFrom]. by rewrite !IH.
Qed.

(** A driver that assigns a base address to the memory BAR of a device reads
    the address back, every address in the BAR is then decoded by that device at
    its offset, provided no other device decodes it, and the BARs of all other
    devices decode as before. *)
Theorem bar_assignment_decodes p slot e base values :
  pci_wf p -> selected p slot e (0x10 + rd_mmioBAR e * 4) -> rd_mmio e = true ->
  is_u32 base -> base mod 16 = 0 -> probing p slot (rd_mmioBAR e) = false ->
  (forall k, 0 <= k < 4 -> override (configOverride p) slot (0x10 + rd_mmioBAR e * 4 + k) = None) -> zlen values = 4 ->
  exists p1,
    PciConfDataOut 0xCFC (le_bytes 4 base) p = (Ok tt, p1) /\
    PciConfDataIn 0xCFC values p1 = (Ok (le_bytes 4 base), p1) /\
    (forall j ej a, zlookup (devices p) j = Some ej -> j <> slot -> decodes p1 j ej a = decodes p j ej a) /\
    forall a, base <= a < base + zget (rd_barSizes e) (rd_mmioBAR e) ->
      (forall j ej, zlookup (devices p) j = Some ej -> j <> slot -> decodes p j ej a = false) ->
      LookupMMIO p1 a = Some (slot, a - base).
Proof.
  intros W S Hm Hu Ha Hp Hc Hv. set (bar := rd_mmioBAR e) in *.
  assert (base <> 2 ^ 32 - 1) by (intros ->; discriminate).
  rewrite (write_bar p slot e base W S Hm Hu) by done. eexists. split; [done|]. fold bar.
  set (p1 := p <| barOverride := _ |>).
  assert (W1 : pci_wf p1) by (apply (override_bar_wf p slot e base W); [apply S|done|done]).
  destruct (pw_dev p W slot e (sel_dev _ _ _ _ S)) as (Hok & _). pose proof (eo_mmio e Hok Hm) as Hb. fold bar in Hb.
  assert (S1 : selected p1 slot e (0x10 + bar * 4)) by (destruct S; by constructor).
  assert (Ho1 : override (barOverride p1) slot bar = Some base).
  { unfold p1. cbn -[override setOverride]. rewrite override_set, !Z.eqb_refl. done. }
  assert (Hraw : barRaw p1 slot e bar = base) by (unfold barRaw; by rewrite Ho1).
  assert (Hother : forall j ej a, j <> slot -> decodes p1 j ej a = decodes p j ej a).
  { intros j ej a Hj. unfold decodes, barBase, barRaw, p1. cbn -[override setOverride]. rewrite override_set.
    destruct (j =? slot) eqn:?; zbool; [lia|done]. }
  splits.
  - destruct (read_registers p1 slot e (0x10 + bar * 4) 0 values W1 S1) as (v & Hr & Hl & Hg); try lia.
    { right. rewrite Z.add_0_r, barAtOffset_reg by done. exact Hp. }
    change (0xCFC + 0) with 0xCFC in Hr. rewrite Hr. do 2 f_equal. apply zlist_eq; [by rewrite Hl, zlen_le_bytes|].
    intros i Hi. rewrite Hl in Hi. rewrite Hg by lia. rewrite Z.add_0_r. unfold configByte.
    change (configOverride p1) with (configOverride p). rewrite Hc by lia. unfold barByte.
    assert (Hbi : barAtOffset (0x10 + bar * 4 + i) = bar) by (apply barAtOffset_spec; lia). rewrite Hbi.
    destruct (bar <? 0) eqn:?; zbool; [lia|]. unfold override in Ho1. destruct (barOverride p1 !! slot) as [m|]; [|done].
    cbn in Ho1 |- *. rewrite Ho1. cbn -[Z.modulo zget le_bytes]. f_equal.
    replace (16 + bar * 4 + i - 16) with (i + bar * 4) by lia. rewrite Z.mod_add by lia. apply Z.mod_small. lia.
  - intros j ej a _ Hj. by apply Hother.
  - intros a Har Hno. rewrite (LookupMMIO_unique p1 a slot e); [|apply S1| |].
    + fold bar. by rewrite (barBase_aligned p1 slot e bar base).
    + unfold decodes. fold bar. rewrite (barBase_aligned p1 slot e bar base) by done. rewrite Hm. cbn [andb].
      apply andb_true_iff. split; [apply Z.leb_le|apply Z.ltb_lt]; lia.
    + intros j ej Hj Hn. rewrite Hother by done. by apply Hno.
Qed.

(** Bytes written to registers outside the BARs are read back, by any aligned
    or unaligned access of the same place, and no other register of any function
    and no decoded address changes. *)
Theorem config_registers_isolated p slot e off k values :
  pci_wf p -> bytes_ok values -> selected p slot e off -> 0 <= k < 4 -> off + k + zlen values <= 256 ->
  barAtOffset (off + k) = -1 ->
  exists p1,
    PciConfDataOut (0xCFC + k) values p = (Ok tt, p1) /\
    PciConfDataIn (0xCFC + k) (zeros (zlen values)) p1 = (Ok values, p1) /\
    (forall s es i, zlookup (devices p) s = Some es -> s <> slot \/ i < off + k \/ off + k + zlen values <= i ->
       configByte p1 s es i = configByte p s es i) /\
    forall a, LookupMMIO p1 a = LookupMMIO p a.
Proof.
  intros W Hb S Hk Hn Hbar. rewrite (write_config p slot e off k values W S Hk Hbar). eexists. split; [done|].
  destruct (confOffset_eq p off k (pw_addr p W) (sel_off _ _ _ _ S) Hk) as [_ Hr]. pose proof (zlen_nonneg values).
  set (p1 := p <| configOverride := _ |>).
  assert (W1 : pci_wf p1).
  { apply override_config_wf; try done; [lia|]. apply (zlookup_range _ _ _ (sel_dev _ _ _ _ S)). }
  assert (S1 : selected p1 slot e off) by (destruct S; by constructor).
  assert (Hov : forall s i, override (configOverride p1) s i = if (s =? slot) && (off + k <=? i) && (i <? off + k + zlen values) && (i <? 256)
    then Some (zget values (i - (off + k))) else override (configOverride p) s i) by (intros s i; apply override_bytes; lia).
  splits.
  - destruct (read_registers p1 slot e off k (zeros (zlen values)) W1 S1 Hk) as (v & Hrd & Hl & Hg).
    + rewrite zlen_zeros, Z.max_r by done. done.
    + by left.
    + rewrite zlen_zeros, Z.max_r in Hl, Hg by done. rewrite Hrd. do 2 f_equal. apply zlist_eq; [done|].
      intros i Hi. rewrite Hl in Hi. rewrite Hg by done. unfold configByte. rewrite Hov, Z.eqb_refl.
      destruct (_ && _) eqn:E; zbool.
      * f_equal. lia.
      * destruct (off + k <=? off + k + i) eqn:?, (off + k + i <? off + k + zlen values) eqn:?, (off + k + i <? 256) eqn:?; zbool; try lia; done.
  - intros s es i _ Ho. unfold configByte. rewrite Hov. destruct (_ && _) eqn:E; [|done]. zbool. lia.
  - intros a. unfold LookupMMIO. change (devices p1) with (devices p).
    generalize (devices p) as es, 0 as n. induction es as [|e0 es IH]; intros n; [done|]. cbn [lookupFrom]. by rewrite !IH.
Qed.

(** The enable bit of the configuration address is ignored: with bit 31 clear
    a read of the data port still returns the registers of the addressed
    function. *)
Theorem config_enable_ignored p slot e off values :
  pci_wf p -> selected p slot e off -> Z.testbit (p_addr p) 31 = false ->
  off + zlen values <= 256 -> barAtOffset off = -1 ->
  exists v, PciConfDataIn 0xCFC values p = (Ok v, p) /\
    forall i, 0 <= i < zlen values -> zget v i = configByte p slot e (off + i).
Proof.
  intros W S _ Hn Hb. destruct (read_registers p slot e off 0 values W S) as (v & Hr & _ & Hg); try lia.
  - left. by rewrite Z.add_0_r.
  - exists v. split; [exact Hr|]. intros i Hi. rewrite Hg by done. f_equal. lia.
Qed.

End Bus.
