(* ===== verification/MachineDevices.v ===== *)
(** The PCI functions of a machine (the headers of src/internal/pci/bridge.go,
    ide.go, uefi.go and of the virtio devices) and how
    src/internal/machine/machine.go attaches them, with the addresses their
    memory BARs start at. *)

From S2P Require Import Prelude Bytes VirtioModern Pci PciSpec.

(** ** Headers *)

Definition bridgeHeader : DeviceHeader :=
  noHeader <| DeviceID := 0x1237 |> <| VendorID := 0x8086 |> <| ClassCode := 0x06 |>
    <| SubsystemVendorID := 0x1af4 |> <| SubsystemID := 0x1100 |>.

Definition ideHeader : DeviceHeader :=
  noHeader <| DeviceID := 0x7010 |> <| VendorID := 0x8086 |> <| ClassCode := 0x01 |> <| Subclass := 0x01 |>
    <| Command := 0x1 |> <| InterruptLine := 14 |> <| InterruptPin := 1 |>.

Definition isaHeader : DeviceHeader :=
  noHeader <| VendorID := 0x8086 |> <| DeviceID := 0x7000 |> <| ClassCode := 0x06 |> <| Subclass := 0x01 |>
    <| HeaderType := 0x80 |> <| Command := 0x0007 |>.

Definition pmHeader : DeviceHeader :=
  noHeader <| VendorID := 0x8086 |> <| DeviceID := 0x7113 |> <| RevisionID := 0x03 |> <| ClassCode := 0x06 |>
    <| Subclass := 0x80 |> <| InterruptLine := 9 |> <| InterruptPin := 1 |>.

(** The fields the virtio devices have in common. *)
Definition virtioHeader (id class subclass base irq : Z) : DeviceHeader :=
  noHeader <| DeviceID := id |> <| VendorID := 0x1AF4 |> <| RevisionID := 1 |> <| ClassCode := class |>
    <| Subclass := subclass |> <| SubsystemID := id |> <| Command := 0x6 |> <| Status := 0x10 |>
    <| CapabilitiesPointer := capCommonAt |> <| BAR := [u32 base; 0; 0; 0; 0; 0] |>
    <| InterruptPin := 1 |> <| InterruptLine := irq |>.

Definition NetMMIOBase : Z := 0xd0000000.
Definition BlkMMIOBase : Z := 0xd0010000.
Definition GPUMMIOBase : Z := 0xd0020000.
Definition InputKeyboardMMIOBase : Z := 0xd0030000.
Definition InputPointerMMIOBase : Z := 0xd0040000.
Definition SoundMMIOBase : Z := 0xd0050000.

Definition netDeviceHeader (irq : Z) : DeviceHeader := virtioHeader 0x1041 0x02 0x00 NetMMIOBase irq.

Definition blkDeviceHeader (mmioBase irq : Z) : DeviceHeader :=
  virtioHeader 0x1042 0x01 0x00 (if mmioBase =? 0 then BlkMMIOBase else mmioBase) irq.

Definition gpuDeviceHeader (irq : Z) : DeviceHeader := virtioHeader 0x1050 0x03 0x80 GPUMMIOBase irq.

Definition soundDeviceHeader (irq : Z) : DeviceHeader := virtioHeader 0x1059 0x04 0x01 SoundMMIOBase irq.

Definition inputDeviceHeader (mmioBase irq : Z) : DeviceHeader := virtioHeader (0x1040 + 18) 0x09 0x80 mmioBase irq.

(** ** Devices *)

(** The virtio devices carry the capability list of their transport. *)
Inductive machineDev : Type :=
| BridgeDev
| IdeDev
| ChipsetISA
| ChipsetPM
| NetDev (irq : Z) (caps : list Z)
| BlkDev (mmioBase irq : Z) (caps : list Z)
| GpuDev (irq : Z) (caps : list Z)
| SoundDev (irq : Z) (caps : list Z)
| KeyboardDev (irq : Z) (caps : list Z)
| PointerDev (irq : Z) (caps : list Z).

Definition devHeader (d : machineDev) : DeviceHeader :=
  match d with
  | BridgeDev => bridgeHeader
  | IdeDev => ideHeader
  | ChipsetISA => isaHeader
  | ChipsetPM => pmHeader
  | NetDev irq _ => netDeviceHeader irq
  | BlkDev base irq _ => blkDeviceHeader base irq
  | GpuDev irq _ => gpuDeviceHeader irq
  | SoundDev irq _ => soundDeviceHeader irq
  | KeyboardDev irq _ => inputDeviceHeader InputKeyboardMMIOBase irq
  | PointerDev irq _ => inputDeviceHeader InputPointerMMIOBase irq
  end.

Definition devCaps (d : machineDev) : option CapsAndMMIO :=
  match d with
  | BridgeDev | IdeDev | ChipsetISA | ChipsetPM => None
  | NetDev _ caps | BlkDev _ _ caps | GpuDev _ caps | SoundDev _ caps | KeyboardDev _ caps | PointerDev _ caps =>
      Some (mkCapsAndMMIO caps 0 modernBARSize)
  end.

#[export] Instance machine_device : PciDevice machineDev := {
  GetDeviceHeader := devHeader;
  IOSize := fun _ => 0;
  AsCapsAndMMIO := devCaps
}.

#[export] Instance machine_device_laws : PciDeviceLaws machineDev.
Proof.
  constructor. intros d. destruct d; cbn [GetDeviceHeader machine_device devHeader]; (split; [reflexivity|]);
    repeat constructor; first [apply u32_range|cbn; lia].
Qed.

(** ** The chipset of the UEFI platform *)

(** Both addresses must be free; the power-management base register is marked
    as an I/O range. *)
Definition AddUEFIChipset : M (PCI machineDev) unit :=
  let! p := gget in
  if existsb (fun fn => bool_decide (is_Some (functions p !! (8 + fn)))) [0; 3] then throw ErrDeviceOccupied
  else
    do! registerAt 1 0 (registerDevice ChipsetISA) in
    do! registerAt 1 3 (registerDevice ChipsetPM) in
    gupd (fun p => match functions p !! 11 with
                   | Some i => p <| configOverride := <[i := {[0x40 := 0x01]}]> (configOverride p) |>
                   | None => p <| configOverride := <[0 := {[0x40 := 0x01]}]> (configOverride p) |>
                   end).

(** ** The machine *)

Definition virtioNetIRQ : Z := 9.
Definition virtioBlkIRQ : Z := 10.
Definition virtioGPUIRQ : Z := 11.
Definition virtioInputKeyboardIRQ : Z := 5.
Definition virtioInputPointerIRQ : Z := 6.
Definition virtioSoundIRQ : Z := 7.

(** The part of a machine that attaches PCI devices. *)
Record Machine : Type := mkMachine { m_pci : PCI machineDev; blockCount : Z }.
#[export] Instance machine_eta : Settable Machine := fun r => mkMachine (m_pci r) (blockCount r).

Definition onPci {A} (m : M (PCI machineDev) A) : M Machine A := fun s =>
  let '(r, p) := m (m_pci s) in (r, s <| m_pci := p |>).

Definition newMachine : M Machine unit := onPci (AddDevices [BridgeDev]).

Definition addNetwork (caps : list Z) : M Machine unit := onPci (AddDevices [NetDev virtioNetIRQ caps]).

(** The first disk keeps the base of its header, the others get one each. *)
Definition addBlockDevice (caps : list Z) : M Machine unit :=
  let! m := gget in
  let base := if negb (blockCount m =? 0) then u32 (0xd0100000 + u32 (u32 (blockCount m - 1) * 0x10000)) else 0 in
  do! gupd (fun m => m <| blockCount := u32 (blockCount m + 1) |>) in
  onPci (AddDevices [BlkDev base virtioBlkIRQ caps]).

Definition AddReadOnlyCDROM : M Machine unit := onPci (AddDevices [IdeDev]).

Definition AddGPUDisplay (caps : list Z) : M Machine unit := onPci (AddDevices [GpuDev virtioGPUIRQ caps]).

Definition AddSound (caps : list Z) : M Machine unit := onPci (AddDevices [SoundDev virtioSoundIRQ caps]).

Definition AddUEFIInput (caps : list Z) : M Machine unit := onPci (AddDevices [PointerDev virtioInputPointerIRQ caps]).

Definition AddVirtioInput (kcaps pcaps : list Z) : M Machine unit :=
  onPci (AddDevices [KeyboardDev virtioInputKeyboardIRQ kcaps; PointerDev virtioInputPointerIRQ pcaps]).

(** ** Address windows *)

(** The base of a device's memory BAR before the guest assigns another. *)
Definition initialBase (d : machineDev) : option Z :=
  match devCaps d with Some _ => Some (zget (BAR (devHeader d)) 0) | None => None end.

(** The devices of a machine, in the order they were attached. *)
Inductive attach : Type :=
| AttachNet (caps : list Z)
| AttachDisk (caps : list Z)
| AttachCDROM
| AttachGPU (caps : list Z)
| AttachSound (caps : list Z)
| AttachTablet (caps : list Z)
| AttachInput (kcaps pcaps : list Z).

Definition runAttach (a : attach) : M Machine unit :=
  match a with
  | AttachNet caps => addNetwork caps
  | AttachDisk caps => addBlockDevice caps
  | AttachCDROM => AddReadOnlyCDROM
  | AttachGPU caps => AddGPUDisplay caps
  | AttachSound caps => AddSound caps
  | AttachTablet caps => AddUEFIInput caps
  | AttachInput kcaps pcaps => AddVirtioInput kcaps pcaps
  end.

Fixpoint runAttaches (l : list attach) : M Machine unit :=
  match l with
  | [] => ret tt
  | a :: l => do! runAttach a in runAttaches l
  end.

Definition bootMachine (l : list attach) : M Machine unit := do! newMachine in runAttaches l.

(** The windows of 64 KiB, counted from 0xd0000000, that the devices take when
    [disks] disks are attached already. *)
Fixpoint windows (disks : nat) (l : list attach) : list Z :=
  match l with
  | [] => []
  | AttachNet _ :: l => 0 :: windows disks l
  | AttachDisk _ :: l => match disks with O => 1 | S n => 16 + Z.of_nat n end :: windows (S disks) l
  | AttachCDROM :: l => windows disks l
  | AttachGPU _ :: l => 2 :: windows disks l
  | AttachSound _ :: l => 5 :: windows disks l
  | AttachTablet _ :: l => 4 :: windows disks l
  | AttachInput _ _ :: l => 3 :: 4 :: windows disks l
  end.

Definition isDisk (a : attach) : bool := match a with AttachDisk _ => true | _ => false end.

Definition windowBase (w : Z) : Z := 0xd0000000 + w * 0x10000.

Definition basesOf (m : Machine) : list Z := omap initialBase (Devices (m_pci m)).

Lemma wp_onPci {A} (m : M (PCI machineDev) A) s Q E :
  wp m (m_pci s) (fun a p => Q a (s <| m_pci := p |>)) (fun e p => E e (s <| m_pci := p |>)) -> wp (onPci m) s Q E.
Proof. unfold wp, onPci. by destruct (m (m_pci s)) as [[] p]. Qed.

(** Attaching devices appends them to the bus. *)
Lemma wp_attachDevs devs s :
  pci_wf (m_pci s) ->
  wp (onPci (AddDevices devs)) s
    (fun _ s' => pci_wf (m_pci s') /\ barOverride (m_pci s') = barOverride (m_pci s) /\ blockCount s' = blockCount s /\
       basesOf s' = basesOf s ++ omap initialBase devs)
    (fun _ _ => False).
Proof.
  intros W. apply wp_onPci. wcall wp_AddDevices; [done| |done]. intros [] p (W' & Ho & Hd). cbn. splits; try done.
  unfold basesOf. cbn [m_pci set_field]. by rewrite Hd, omap_app.
Qed.

Lemma wp_runAttaches l s n :
  pci_wf (m_pci s) -> blockCount s = Z.of_nat n -> Z.of_nat n + zlen (filter isDisk l) <= 0x2ff0 ->
  wp (runAttaches l) s
    (fun _ s' => pci_wf (m_pci s') /\ barOverride (m_pci s') = barOverride (m_pci s) /\
       basesOf s' = basesOf s ++ map windowBase (windows n l))
    (fun _ _ => False).
Proof.
  revert s n. induction l as [|a l IH]; intros s n W Hb Hn; cbn [runAttaches].
  { wstep. cbn [windows map]. by rewrite app_nil_r. }
  assert (Hone : forall devs ws s1, pci_wf (m_pci s1) -> barOverride (m_pci s1) = barOverride (m_pci s) ->
    basesOf s1 = basesOf s -> omap initialBase devs = map windowBase ws ->
    forall n', blockCount s1 = Z.of_nat n' -> Z.of_nat n' + zlen (filter isDisk l) <= 0x2ff0 ->
    wp (onPci (AddDevices devs)) s1 (fun _ s2 => wp (runAttaches l) s2
      (fun _ s' => pci_wf (m_pci s') /\ barOverride (m_pci s') = barOverride (m_pci s) /\
         basesOf s' = basesOf s ++ map windowBase (ws ++ windows n' l)) (fun _ _ => False)) (fun _ _ => False)).
  { intros devs ws s1 W1 Ho1 Hs1 Hw n' Hb1 Hn1. wcall wp_attachDevs; [done| |done].
    intros [] s2 (W2 & Ho2 & Hb2 & Hs2). wcall (IH s2 n'); [done|congruence|done| |done].
    intros [] s3 (W3 & Ho3 & Hs3). splits; [done|congruence|]. by rewrite Hs3, Hs2, Hs1, Hw, map_app, app_assoc. }
  destruct a; cbn [isDisk filter] in Hn; wstep; cbn [runAttach windows].
  - apply (Hone _ [0]); done.
  - unfold addBlockDevice. do 2 wstep. cbv beta zeta. rewrite Hb. wstep. wstep.
    rewrite filter_cons_True in Hn by done. rewrite zlen_cons in Hn. pose proof (zlen_nonneg (filter isDisk l)).
    apply (Hone _ [match n with O => 1 | S k => 16 + Z.of_nat k end]); try done; cbn [blockCount set_field].
    + destruct n as [|k]; [reflexivity|]. cbn [omap list_omap map]. unfold initialBase. cbn [devCaps devHeader].
      replace (Z.of_nat (S k) =? 0) with false by (symmetry; apply Z.eqb_neq; lia). cbn [negb].
      replace (Z.of_nat (S k) - 1) with (Z.of_nat k) by lia. rewrite (u32_small (Z.of_nat k)) by lia.
      rewrite (u32_small (_ * _)) by lia. rewrite u32_small by lia.
      unfold blkDeviceHeader. destruct (_ =? 0) eqn:E; zbool; [lia|].
      change (zget (BAR (virtioHeader 0x1042 0x01 0x00 ?b virtioBlkIRQ)) 0) with (u32 b).
      cbn -[u32 Z.mul Z.add]. rewrite u32_small by lia. unfold windowBase. f_equal. lia.
    + rewrite Hb, u32_small by lia. lia.
    + lia.
  - apply (Hone _ []); done.
  - apply (Hone _ [2]); done.
  - apply (Hone _ [5]); done.
  - apply (Hone _ [4]); done.
  - apply (Hone _ [3; 4]); done.
Qed.

(** The windows of the devices other than disks. *)
Definition singles (l : list attach) : list Z := windows 0 (filter (fun a => negb (isDisk a)) l).

(** The windows of [c] disks when [n] disks are attached already. *)
Definition diskWindows (n c : nat) : list Z :=
  map (fun k => match k with O => 1 | S k => 16 + Z.of_nat k end) (seq n c).

Lemma windows_split n l :
  windows n l ≡ₚ singles l ++ diskWindows n (length (filter isDisk l)).
Proof.
  unfold singles. revert n. induction l as [|a l IH]; intros n; [done|].
  destruct (isDisk a) eqn:Hd.
  - rewrite filter_cons_False, filter_cons_True by (rewrite Hd; naive_solver).
    destruct a as [ |caps| | | | | ]; try done. cbn [windows length]. rewrite IH. unfold diskWindows. cbn [seq map].
    by rewrite <- Permutation_middle.
  - rewrite filter_cons_True, filter_cons_False by (rewrite Hd; naive_solver).
    destruct a; try done; cbn [windows app]; by rewrite IH.
Qed.

Lemma singles_range l w : w ∈ singles l -> w ∈ [0; 2; 3; 4; 5].
Proof.
  unfold singles. generalize 0%nat. induction l as [|a l IH]; intros n; [by intros Hw%elem_of_nil|].
  destruct (isDisk a) eqn:Hd; [rewrite filter_cons_False by (rewrite Hd; naive_solver); apply IH|].
  rewrite filter_cons_True by (rewrite Hd; naive_solver).
  destruct a; try done; cbn [windows]; rewrite ?elem_of_cons; intros Hw; specialize (IH n); set_solver.
Qed.

Lemma NoDup_windows l : NoDup (singles l) -> NoDup (windows 0 l).
Proof.
  intros Hs. rewrite windows_split. apply list.NoDup_app. splits; [done| |].
  - intros w Hw Hd. apply singles_range in Hw. unfold diskWindows in Hd.
    apply list_elem_of_fmap in Hd as (k & -> & _). destruct k; set_unfold; lia.
  - unfold diskWindows. apply NoDup_fmap; [|apply NoDup_seq]. intros [|i] [|j] He; lia.
Qed.

Lemma windows_range n l w : w ∈ windows n l -> Z.of_nat n + zlen (filter isDisk l) <= 0x2ff0 -> 0 <= w <= 0x2fff.
Proof.
  rewrite windows_split, elem_of_app. intros [Hw|Hw] Hn.
  - apply singles_range in Hw. set_unfold. lia.
  - unfold diskWindows in Hw. apply list_elem_of_fmap in Hw as (k & -> & Hk). apply elem_of_seq in Hk. unfold zlen in Hn. destruct k; lia.
Qed.

Lemma NoDup_omap_lookup {A B} (f : A -> option B) l i j x y a b :
  NoDup (omap f l) -> i <> j -> l !! i = Some x -> l !! j = Some y -> f x = Some a -> f y = Some b -> a <> b.
Proof.
  intros Hd Hij Hi Hj Hx Hy ->.
  assert (Hw : forall l i j x y, (i < j)%nat -> NoDup (omap f l) -> l !! i = Some x -> l !! j = Some y -> f x = Some b -> f y = Some b -> False).
  { clear. induction l as [|z l IH]; intros i j x y Hij Hd Hi Hj Hx Hy; [done|].
    destruct j as [|j]; [lia|]. cbn in Hj. destruct i as [|i]; cbn in Hi.
    - injection Hi as ->. cbn in Hd. rewrite Hx in Hd. apply list.NoDup_cons in Hd as [Hn _]. apply Hn.
      apply list_elem_of_omap. exists y. split; [by eapply list_elem_of_lookup_2|done].
    - apply (IH i j x y); try done; [lia|]. cbn in Hd. destruct (f z); [by apply list.NoDup_cons in Hd as [_ ?]|done]. }
  assert (Hc : (i < j \/ j < i)%nat) by lia. destruct Hc as [Hc|Hc]; [by eapply (Hw l i j x y)|by eapply (Hw l j i y x)].
Qed.

(** The registered metadata of a machine's device. *)
Lemma machine_entry p i e :
  pci_wf p -> zlookup (devices p) i = Some e -> rd_mmio e = true ->
  initialBase (rd_dev e) = Some (zget (BAR (rd_header e)) 0) /\ rd_mmioBAR e = 0 /\ zget (rd_barSizes e) 0 = modernBARSize.
Proof.
  intros W He Hm. destruct (pw_dev p W i e He) as (Ho & _). destruct (eo_dev e Ho) as (Hb & _ & Hs & Hmm & Hbar).
  rewrite Hm in Hmm. rewrite Hb, Hs, Hbar. clear -Hmm. unfold initialBase.
  destruct (rd_dev e); cbn in Hmm; try done; splits; reflexivity.
Qed.

Lemma zlookup_Devices (p : PCI machineDev) i e :
  zlookup (devices p) i = Some e -> Devices p !! Z.to_nat i = Some (rd_dev e) /\ 0 <= i.
Proof.
  intros He. pose proof (zlookup_range _ _ _ He). split; [|lia]. unfold Devices. unfold zlookup in He.
  destruct (i <? 0); [done|]. by rewrite list_lookup_fmap, He.
Qed.

(** C37: a machine with at most one network, graphics, sound, keyboard and tablet
    device and any number of disks that fit below 4 GiB: attaching them never
    fails, and before the guest assigns addresses every device with a memory BAR
    decodes exactly its own window: an access at any offset of the BAR reaches
    that device at that offset. *)
Theorem machine_bars_disjoint l :
  NoDup (singles l) -> zlen (filter isDisk l) <= 0x2ff0 ->
  exists m, bootMachine l (mkMachine emptyPCI 0) = (Ok tt, m) /\
    forall i e off, zlookup (devices (m_pci m)) i = Some e -> rd_mmio e = true -> 0 <= off < modernBARSize ->
      LookupMMIO (m_pci m) (zget (BAR (rd_header e)) 0 + off) = Some (i, off).
Proof.
  intros Hnd Hdisk.
  assert (Hboot : wp (bootMachine l) (mkMachine emptyPCI 0)
    (fun _ m => pci_wf (m_pci m) /\ barOverride (m_pci m) = ∅ /\ basesOf m = map windowBase (windows 0 l)) (fun _ _ => False)).
  { unfold bootMachine, newMachine. wstep. wcall wp_attachDevs; [apply emptyPCI_wf| |done].
    intros [] m1 (W1 & Ho1 & Hb1 & Hs1). wcall (wp_runAttaches l m1 0); [done|done|lia| |done].
    intros [] m2 (W2 & Ho2 & Hs2). splits; [done|by rewrite Ho2, Ho1|]. by rewrite Hs2, Hs1. }
  unfold wp in Hboot. destruct (bootMachine l _) as [[[]| | |] m]; try done. destruct Hboot as (W & Hov & Hbases).
  exists m. split; [done|].
  assert (Hbase : forall i e, zlookup (devices (m_pci m)) i = Some e -> rd_mmio e = true ->
    exists w, barBase (m_pci m) i e 0 = windowBase w /\ zget (BAR (rd_header e)) 0 = windowBase w /\ initialBase (rd_dev e) = Some (windowBase w)).
  { intros i e He Hm. destruct (machine_entry _ i e W He Hm) as (Hi & _ & _). destruct (zlookup_Devices _ i e He) as [Hd _].
    assert (Hin : zget (BAR (rd_header e)) 0 ∈ basesOf m).
    { unfold basesOf. apply list_elem_of_omap. exists (rd_dev e). split; [by eapply list_elem_of_lookup_2|done]. }
    rewrite Hbases in Hin. apply list_elem_of_fmap in Hin as (w & Hw & _). exists w. rewrite Hw in Hi. splits; try done.
    apply barBase_aligned; [|unfold windowBase; rewrite Z.add_mod by lia; change 0x10000 with (0x1000 * 16); by rewrite Z.mul_assoc, Z.mod_mul].
    unfold barRaw, override. by rewrite Hov, lookup_empty. }
  intros i e off He Hm Ho. destruct (Hbase i e He Hm) as (w & Hb & Hz & Hi). destruct (machine_entry _ i e W He Hm) as (_ & Hbar & Hsz).
  rewrite Hz. rewrite (LookupMMIO_unique _ _ i e); try done.
  - rewrite Hbar, Hb. do 2 f_equal. lia.
  - unfold decodes. rewrite Hbar, Hb, Hsz, Hm. cbn [andb]. apply andb_true_iff. split; [apply Z.leb_le|apply Z.ltb_lt]; lia.
  - intros j ej Hj Hij. unfold decodes. destruct (rd_mmio ej) eqn:Hmj; [|done]. cbn [andb].
    destruct (Hbase j ej Hj Hmj) as (wj & Hbj & _ & Hij'). destruct (machine_entry _ j ej W Hj Hmj) as (_ & Hbarj & Hszj).
    rewrite Hbarj, Hbj, Hszj. destruct (zlookup_Devices _ i e He) as [Hdi Hi0]. destruct (zlookup_Devices _ j ej Hj) as [Hdj Hj0].
    assert (Hne : windowBase w <> windowBase wj).
    { apply (NoDup_omap_lookup initialBase (Devices (m_pci m)) (Z.to_nat i) (Z.to_nat j) (rd_dev e) (rd_dev ej)); try done; [|lia].
      fold (basesOf m). rewrite Hbases. apply NoDup_fmap; [|by apply NoDup_windows]. intros x y. unfold windowBase. lia. }
    unfold windowBase, modernBARSize in *. apply andb_false_iff.
    destruct (Z_lt_ge_dec wj w); [right; apply Z.ltb_ge; lia|left; apply Z.leb_gt; lia].
Qed.

(** The chipset registers both functions or changes nothing. *)
Lemma wp_AddUEFIChipset p :
  pci_wf p ->
  wp AddUEFIChipset p
    (fun _ p' => pci_wf p' /\ Devices p' = Devices p ++ [ChipsetISA; ChipsetPM])
    (fun err p' => err = ErrDeviceOccupied /\ p' = p).
Proof.
  intros W. unfold AddUEFIChipset. do 2 wstep. cbv beta.
  destruct (existsb _ _) eqn:E; [by wstep|]. cbn [existsb] in E. rewrite orb_false_r in E. apply orb_false_iff in E as [E0 E3].
  assert (Hn : forall o : option Z, bool_decide (is_Some o) = false -> o = None).
  { intros [x|] Ho; [|done]. apply bool_decide_eq_false in Ho. exfalso. apply Ho. by eexists. }
  apply Hn in E0, E3.
  wstep. wcall wp_registerAt; [done|apply registerDevice_ok|lia|lia|done| |done]. intros [] p1 (W1 & _ & Hd1 & Hf1 & Hc1).
  wstep. wcall wp_registerAt; [done|apply registerDevice_ok|lia|lia| | |done].
  { rewrite Hf1, lookup_insert_ne by done. exact E3. }
  intros [] p2 (W2 & _ & Hd2 & Hf2 & Hc2). wstep. change (1 * 8 + 3) with 11 in Hf2. rewrite Hf2, lookup_insert_eq.
  split; [|change (Devices p2 = Devices p ++ [ChipsetISA; ChipsetPM]); by rewrite Hd2, Hd1, <- app_assoc].
  assert (Hl : zlen (devices p2) = zlen (devices p1) + 1).
  { apply (f_equal (@length machineDev)) in Hd2. unfold Devices in Hd2. rewrite length_app, !length_map in Hd2. cbn in Hd2. unfold zlen. lia. }
  destruct W2 as [? ? ? ? Hc ? ?]. constructor; try done. cbn -[override zlen].
  intros s off v. unfold override. destruct (decide (s = zlen (devices p1))) as [->|Hne].
  - rewrite lookup_insert_eq. cbn. intros [<- <-]%lookup_singleton_Some. unfold is_u8. lia.
  - rewrite lookup_insert_ne by done. apply Hc.
Qed.

(** ** A concrete bus *)

(** A bridge, a network card at slot 1 and a disk at slot 2. *)
Definition sampleDevs : list machineDev := [BridgeDev; NetDev 9 [1; 2; 3]; BlkDev 0 10 [4; 5]].
Definition sampleBus : PCI machineDev := snd (AddDevices sampleDevs emptyPCI).

(** The register at [off] of the device at [slot] is addressed. *)
Definition sampleAt (slot off : Z) : PCI machineDev := sampleBus <| p_addr := 0x80000000 + slot * 2048 + off |>.

Lemma sampleBus_steps : rtc pci_step (emptyPCI (D := machineDev)) sampleBus.
Proof. apply rtc_once. apply (step_AddDevices sampleDevs). vm_compute. reflexivity. Qed.

Lemma sampleAt_wf slot off : is_u32 (0x80000000 + slot * 2048 + off) -> pci_wf (sampleAt slot off).
Proof.
  intros Hu. destruct (steps_wf _ _ sampleBus_steps emptyPCI_wf). by constructor.
Qed.

Definition sampleEntry (slot : Z) : registeredDevice machineDev :=
  default (registerDevice BridgeDev) (zlookup (devices sampleBus) slot).

Lemma pci_reachable_safe_witness : pci_wf sampleBus.
Proof. exact (proj1 (pci_reachable_safe sampleBus sampleBus_steps)). Defined.

Lemma sample_selected off :
  off = 0x10 \/ off = 0x3c -> selected (sampleAt 2 off) 2 (sampleEntry 2) off /\ pci_wf (sampleAt 2 off).
Proof.
  intros Ho. split; [|apply sampleAt_wf; unfold is_u32; lia].
  destruct Ho as [-> | ->]; constructor; vm_compute; reflexivity.
Qed.

Lemma bar_size_probe_witness :
  exists p1 mask, PciConfDataOut 0xCFC [0xff; 0xff; 0xff; 0xff] (sampleAt 2 0x10) = (Ok tt, p1) /\
    PciConfDataIn 0xCFC [0; 0; 0; 0] p1 = (Ok mask, unprobed (sampleAt 2 0x10)) /\ u32 (2 ^ 32 - 1 - le_val mask + 1) = 0x4000.
Proof.
  destruct (sample_selected 0x10 (or_introl eq_refl)) as [S W].
  destruct (bar_size_probe (sampleAt 2 0x10) 2 (sampleEntry 2) 0 [0; 0; 0; 0] W S) as (p1 & mask & H1 & H2 & H3 & _).
  - lia.
  - vm_compute. split; reflexivity.
  - reflexivity.
  - exists p1, mask. splits; [exact H1|exact H2|exact H3].
Defined.

Lemma bar_assignment_decodes_witness :
  exists p1, PciConfDataOut 0xCFC (le_bytes 4 0xe0000000) (sampleAt 2 0x10) = (Ok tt, p1) /\
    LookupMMIO p1 0xe0000008 = Some (2, 0xe0000008 - 0xe0000000).
Proof.
  destruct (sample_selected 0x10 (or_introl eq_refl)) as [S W].
  destruct (bar_assignment_decodes (sampleAt 2 0x10) 2 (sampleEntry 2) 0xe0000000 [0; 0; 0; 0] W S) as (p1 & H1 & _ & _ & H4).
  - reflexivity.
  - unfold is_u32. lia.
  - reflexivity.
  - reflexivity.
  - intros k Hk. reflexivity.
  - reflexivity.
  - exists p1. split; [exact H1|]. apply H4; [vm_compute; split; [discriminate|reflexivity]|].
    intros j ej Hj Hn. pose proof (zlookup_range _ _ _ Hj) as Hr. change (zlen (devices (sampleAt 2 0x10))) with 3 in Hr.
    assert (Hc : j = 0 \/ j = 1) by lia. destruct Hc as [-> | ->]; vm_compute in Hj; injection Hj as <-; vm_compute; reflexivity.
Defined.

Lemma config_registers_isolated_witness :
  exists p1, PciConfDataOut 0xCFC [11] (sampleAt 2 0x3c) = (Ok tt, p1) /\
    PciConfDataIn 0xCFC [0] p1 = (Ok [11], p1).
Proof.
  destruct (sample_selected 0x3c (or_intror eq_refl)) as [S W].
  destruct (config_registers_isolated (sampleAt 2 0x3c) 2 (sampleEntry 2) 0x3c 0 [11] W) as (p1 & H1 & H2 & _);
    [by apply bytes_okb_ok|exact S|lia|vm_compute; discriminate|reflexivity|].
  exists p1. split; [exact H1|exact H2].
Defined.

Lemma config_enable_ignored_witness :
  let p := sampleBus <| p_addr := 2 * 2048 |> in exists v, PciConfDataIn 0xCFC [0; 0] p = (Ok v, p) /\ zget v 0 = 0xf4.
Proof.
  intros p. assert (W : pci_wf p) by (destruct (steps_wf _ _ sampleBus_steps emptyPCI_wf); constructor; try done; unfold is_u32; cbn; lia).
  assert (S : selected p 2 (sampleEntry 2) 0) by (constructor; vm_compute; reflexivity).
  destruct (config_enable_ignored p 2 (sampleEntry 2) 0 [0; 0] W S) as (v & H1 & H2); [reflexivity|vm_compute; discriminate|reflexivity|].
  exists v. split; [exact H1|]. rewrite H2 by (vm_compute; split; [discriminate|reflexivity]). vm_compute. reflexivity.
Defined.

Lemma machine_bars_disjoint_witness :
  exists m, bootMachine [AttachNet []; AttachDisk []; AttachCDROM; AttachDisk []; AttachInput [] []] (mkMachine emptyPCI 0) = (Ok tt, m).
Proof.
  destruct (machine_bars_disjoint [AttachNet []; AttachDisk []; AttachCDROM; AttachDisk []; AttachInput [] []]) as (m & Hm & _).
  - by apply (bool_decide_unpack _).
  - vm_compute. discriminate.
  - exists m. exact Hm.
Defined.
