(* ===== verification/SharedIrq.v ===== *)
(** Interrupt lines shared by several devices (src/internal/machine/pci_irq.go).

    Each device drives the line through a closure with a flag of its own; the
    line of the interrupt controller ([sl_wire]) is set through a call that can
    fail, in the order of [sl_faults]. *)

From S2P Require Import Prelude GuestMem VirtioModern VirtioModernSpec.

(** [sl_sources] holds the flag [asserted] of every closure that [source]
    returned; [sl_asserted] and [sl_high] are the fields of the line. *)
Record sharedIRQLine : Type := mkSharedLine {
  sl_asserted : Z;
  sl_high : bool;
  sl_sources : list bool;
  sl_wire : bool;
  sl_faults : list bool
}.
#[export] Instance sharedIRQLine_eta : Settable sharedIRQLine := fun r =>
  mkSharedLine (sl_asserted r) (sl_high r) (sl_sources r) (sl_wire r) (sl_faults r).

Definition newLine (faults : list bool) : sharedIRQLine := mkSharedLine 0 false [] false faults.

(** The call of the interrupt controller. *)
Definition lineSetLevel (level : bool) : M sharedIRQLine unit := fun l =>
  match sl_faults l with
  | true :: rest => (Err EIO, l <| sl_faults := rest |>)
  | faults => (Ok tt, l <| sl_wire := level |> <| sl_faults := tail faults |>)
  end.

(** [source]: a new closure; its position identifies it. *)
Definition source (l : sharedIRQLine) : Z * sharedIRQLine :=
  (zlen (sl_sources l), l <| sl_sources := sl_sources l ++ [false] |>).

(** A call of the closure [i]. *)
Definition callSource (i : Z) (level : bool) : M sharedIRQLine unit :=
  let! l := gget in
  let! asserted := gindex (sl_sources l) i in
  do! (if negb (Bool.eqb level asserted) then
         gupd (fun l => l <| sl_asserted := if level then sl_asserted l + 1 else sl_asserted l - 1 |>
                          <| sl_sources := zinsert i level (sl_sources l) |>)
       else ret tt) in
  let! l := gget in
  let high := negb (sl_asserted l =? 0) in
  if Bool.eqb high (sl_high l) then ret tt
  else
    do! lineSetLevel high in
    gupd (fun l => l <| sl_high := high |>).

(** ** Invariant *)

Fixpoint countTrue (l : list bool) : Z :=
  match l with [] => 0 | b :: l => (if b then 1 else 0) + countTrue l end.

Record line_wf (l : sharedIRQLine) : Prop := {
  lw_count : sl_asserted l = countTrue (sl_sources l);
  lw_high : sl_high l = sl_wire l
}.

Definition anySource (l : sharedIRQLine) : bool := existsb id (sl_sources l).

Lemma countTrue_app a b : countTrue (a ++ b) = countTrue a + countTrue b.
Proof. induction a as [|x a IH]; [done|]. cbn [app countTrue]. rewrite IH. lia. Qed.

Lemma countTrue_nonneg l : 0 <= countTrue l.
Proof. induction l as [|[] l IH]; cbn [countTrue]; lia. Qed.

Lemma countTrue_any l : negb (countTrue l =? 0) = existsb id l.
Proof.
  induction l as [|b l IH]; [done|]. cbn [countTrue existsb]. rewrite <- IH. pose proof (countTrue_nonneg l).
  destruct b; cbn [id orb]; [|by rewrite Z.add_0_l]. apply negb_true_iff, Z.eqb_neq. lia.
Qed.

Lemma countTrue_insert l i old new :
  zlookup l i = Some old ->
  countTrue (zinsert i new l) = countTrue l - (if old then 1 else 0) + (if new then 1 else 0).
Proof.
  intros Hi. pose proof (zlookup_range _ _ _ Hi) as Hr. unfold zlookup, zinsert in *. destruct (i <? 0); [done|].
  rewrite <- (take_drop_middle l (Z.to_nat i) old Hi) at 2. rewrite insert_take_drop by (unfold zlen in Hr; lia).
  rewrite !countTrue_app. cbn [countTrue]. lia.
Qed.

Lemma newLine_wf faults : line_wf (newLine faults).
Proof. done. Qed.

Lemma source_wf l : line_wf l -> line_wf (snd (source l)).
Proof.
  intros [Hc Hh]. constructor; [|done]. cbn. rewrite countTrue_app, Hc. cbn. lia.
Qed.

(** A call either fails, with the wire unchanged and the source's request kept
    for the next call, or leaves the wire at the disjunction of the sources. *)
Lemma callSource_spec i level l :
  line_wf l -> 0 <= i < zlen (sl_sources l) ->
  exists r l', callSource i level l = (r, l') /\ line_wf l' /\ sl_sources l' = zinsert i level (sl_sources l) /\
    ((r = Ok tt /\ sl_wire l' = anySource l') \/ (r = Err EIO /\ sl_wire l' = sl_wire l)) /\
    (Forall (fun b => b = false) (sl_faults l) -> r = Ok tt /\ Forall (fun b => b = false) (sl_faults l')).
Proof.
  intros [Hc Hh] Hi. destruct (zlookup_Some _ _ Hi) as [old Ho]. unfold callSource, gbind at 1, gget at 1.
  unfold gbind at 1, gindex. rewrite Ho. unfold ret at 1.
  set (l1 := if negb (Bool.eqb level old) then
    l <| sl_asserted := if level then sl_asserted l + 1 else sl_asserted l - 1 |> <| sl_sources := zinsert i level (sl_sources l) |> else l).
  assert (H1 : sl_asserted l1 = countTrue (zinsert i level (sl_sources l)) /\ sl_sources l1 = zinsert i level (sl_sources l) /\
    sl_high l1 = sl_high l /\ sl_wire l1 = sl_wire l /\ sl_faults l1 = sl_faults l).
  { rewrite (countTrue_insert _ _ _ level Ho). unfold l1, zlookup, zinsert in *. destruct (i <? 0); [done|].
    destruct level, old; cbn; rewrite ?Hc, ?list_insert_id by done; splits; try done; lia. }
  destruct H1 as (Ha & Hs & Hh1 & Hw1 & Hf1).
  assert (Hrun : forall k, gbind (if negb (Bool.eqb level old) then gupd (fun l => l <| sl_asserted := if level then sl_asserted l + 1 else sl_asserted l - 1 |>
      <| sl_sources := zinsert i level (sl_sources l) |>) else ret tt) k l = k tt l1 :> (result unit * sharedIRQLine)).
  { intros k. unfold l1. by destruct (negb _). }
  rewrite Hrun. clear Hrun. clearbody l1. unfold gbind at 1, gget. cbv zeta. rewrite Ha, countTrue_any, Hh1, Hh.
  destruct (Bool.eqb _ (sl_wire l)) eqn:E.
  - apply eqb_prop in E. eexists _, l1. split; [reflexivity|]. unfold anySource. rewrite Hs, Hw1, Hf1. splits; try done.
    + constructor; congruence.
    + left. by rewrite E.
  - unfold lineSetLevel, gbind. rewrite Hf1. destruct (sl_faults l) as [|[] rest] eqn:Hf.
    + eexists _, _. split; [reflexivity|]. unfold anySource. cbn. rewrite Hs. splits; try done. all: first [by left|constructor; cbn; congruence].
    + eexists _, _. split; [reflexivity|]. cbn. rewrite Hs, Hw1. splits; try done. all: first [by right|constructor; cbn; congruence|intros Hall; by inversion Hall].
    + eexists _, _. split; [reflexivity|]. unfold anySource. cbn. rewrite Hs. splits; try done.
      all: first [by left|constructor; cbn; congruence|intros Hall; split; [done|]; by inversion Hall].
Qed.

(** ** Sequences of calls *)

(** Calls of the closures in order; the errors are returned to the devices. *)
Fixpoint runCalls (cs : list (Z * bool)) : M sharedIRQLine (list (option error)) :=
  match cs with
  | [] => ret []
  | (i, level) :: cs =>
      let! r := gtry (callSource i level) in
      let! rs := runCalls cs in
      ret (match r with inl _ => None | inr e => Some e end :: rs)
  end.

(** The levels the devices asked for. *)
Definition requested (cs : list (Z * bool)) (sources : list bool) : list bool :=
  fold_left (fun s c => zinsert (fst c) (snd c) s) cs sources.

Lemma zlen_requested cs s : zlen (requested cs s) = zlen s.
Proof. revert s. induction cs as [|c cs IH]; intros s; [done|]. cbn. rewrite IH. apply zlen_insert. Qed.

(** C38: interrupt lines shared by several devices, whatever calls of the
    interrupt controller fail: every call returns; the line remembers what each
    device asked for; and whenever the last call succeeded, or there was none and
    no device asked for anything, the line of the interrupt controller is high
    exactly when some device asserts it, so no acknowledgement of one device
    hides the interrupt of another, and a failed update is made up for by the
    next successful call. *)
Theorem shared_line_is_or cs l :
  line_wf l -> sl_wire l = anySource l -> Forall (fun c => 0 <= fst c < zlen (sl_sources l)) cs ->
  exists rs l', runCalls cs l = (Ok rs, l') /\ line_wf l' /\ length rs = length cs /\
    sl_sources l' = requested cs (sl_sources l) /\
    (list.last rs = None \/ list.last rs = Some None -> sl_wire l' = existsb id (requested cs (sl_sources l))).
Proof.
  revert l. induction cs as [|[i level] cs IH] using rev_ind; intros l W Hw Hc.
  { exists [], l. by splits. }
  assert (Happ : forall cs1 cs2 l1 r1 l2, runCalls cs1 l1 = (Ok r1, l2) ->
    runCalls (cs1 ++ cs2) l1 = (let! r2 := runCalls cs2 in ret (r1 ++ r2)) l2).
  { clear. induction cs1 as [|[i level] cs1 IH]; intros cs2 l1 r1 l2 Hr.
    - injection Hr as <- <-. unfold gbind, ret. cbn. by destruct (runCalls cs2 l1) as [[] ?].
    - cbn [app runCalls] in *. unfold gbind at 1 in Hr. unfold gbind at 1.
      destruct (gtry (callSource i level) l1) as [[r| | |] l1']; try done.
      unfold gbind at 1 in Hr. unfold gbind at 1. destruct (runCalls cs1 l1') as [[rs| | |] l3] eqn:E; try done.
      injection Hr as <- <-. rewrite (IH cs2 l1' rs l3 E). unfold gbind, ret. by destruct (runCalls cs2 l3) as [[] ?]. }
  apply list.Forall_app in Hc as [Hc Hi]. apply list.Forall_cons in Hi as [Hi _]. cbn in Hi.
  destruct (IH l W Hw Hc) as (rs & l1 & Hr & W1 & Hl & Hs & _). rewrite (Happ _ _ _ _ _ Hr).
  assert (Hi1 : 0 <= i < zlen (sl_sources l1)) by (rewrite Hs, zlen_requested; done).
  destruct (callSource_spec i level l1 W1 Hi1) as (r & l2 & Hcall & W2 & Hs2 & Hcase & _).
  assert (Hreq : requested (cs ++ [(i, level)]) (sl_sources l) = zinsert i level (sl_sources l1)).
  { unfold requested. rewrite fold_left_app. cbn. by rewrite Hs. }
  cbn [runCalls]. unfold gbind, ret, gtry. rewrite Hcall, Hreq. destruct Hcase as [[-> Hwire]|[-> Hwire]];
    (eexists _, l2; split; [reflexivity|]; rewrite !length_app, Hl, list.last_snoc; splits; try done).
  - intros _. rewrite Hwire. unfold anySource. by rewrite Hs2.
  - by intros [?|?].
Qed.

(** ** Devices on one line *)

(** Virtio devices whose transports drive the sources of one line: an operation
    of a device ends with its source at the level its transport holds. *)
Definition sysStep (i : Z) (op : irqOp) : M (list ModernTransport * sharedIRQLine) unit := fun s =>
  match zlookup (fst s) i with
  | None => (Panic, s)
  | Some t =>
      let '(r, t') := runIrqOp op t in
      let '(r2, l') := callSource i (irq_level (irq t')) (snd s) in
      (match r with Ok _ => r2 | Err e => Err e | Panic => Panic | OutOfFuel => OutOfFuel end, (zinsert i t' (fst s), l'))
  end.

Fixpoint sysRun (ops : list (Z * irqOp)) : M (list ModernTransport * sharedIRQLine) unit :=
  match ops with
  | [] => ret tt
  | (i, op) :: ops => do! sysStep i op in sysRun ops
  end.

Record sys_ok (s : list ModernTransport * sharedIRQLine) : Prop := {
  so_line : line_wf (snd s);
  so_faults : Forall (fun b => b = false) (sl_faults (snd s));
  so_devs : Forall line_follows (fst s);
  so_levels : sl_sources (snd s) = map (fun t => irq_level (irq t)) (fst s);
  so_wire : sl_wire (snd s) = existsb interruptPending (fst s)
}.

Lemma existsb_levels ts : Forall line_follows ts ->
  existsb id (map (fun t => irq_level (irq t)) ts) = existsb interruptPending ts.
Proof. induction 1 as [|t ts (_ & _ & Ht) _ IH]; [done|]. cbn. by rewrite IH, Ht. Qed.

Lemma sysStep_ok i op s :
  sys_ok s -> 0 <= i < zlen (fst s) -> exists s', sysStep i op s = (Ok tt, s') /\ sys_ok s' /\ zlen (fst s') = zlen (fst s).
Proof.
  intros [W Hf Hd Hl Hw] Hi. destruct s as [ts l]. cbn [fst snd] in *. destruct (zlookup_Some ts i Hi) as [t Ht].
  assert (Hti : ts !! Z.to_nat i = Some t) by (unfold zlookup in Ht; by destruct (i <? 0)).
  assert (Hft : line_follows t) by (by eapply Forall_lookup_1).
  destruct (runIrqOp_follows op t Hft) as (out & t' & Hr & Hft' & _).
  assert (Hi2 : 0 <= i < zlen (sl_sources l)) by (rewrite Hl; unfold zlen in *; rewrite length_map; done).
  destruct (callSource_spec i (irq_level (irq t')) l W Hi2) as (r & l' & Hc & W' & Hs' & Hcase & Hok).
  destruct (Hok Hf) as [-> Hf']. destruct Hcase as [[_ Hwire]|[? _]]; [|done].
  unfold sysStep; cbn [fst snd]. rewrite Ht, Hr, Hc. eexists. split; [reflexivity|]. split; [|apply zlen_insert].
  assert (Hd' : Forall line_follows (zinsert i t' ts)).
  { unfold zinsert. destruct (i <? 0); [done|]. by apply Forall_insert. }
  assert (Hlev : sl_sources l' = map (fun t => irq_level (irq t)) (zinsert i t' ts)).
  { rewrite Hs', Hl. unfold zinsert. destruct (i <? 0); [done|]. symmetry. apply (list_fmap_insert (fun t : ModernTransport => irq_level (irq t))). }
  constructor; cbn [fst snd]; try done. rewrite Hwire. unfold anySource. rewrite Hlev. by apply existsb_levels.
Qed.

(** For every interleaving of interrupts, configuration changes,
    re-assertions and acknowledgements of the virtio devices on one line, the
    line is high exactly while some device has a pending cause. *)
Theorem devices_share_line ops s :
  sys_ok s -> Forall (fun o => 0 <= fst o < zlen (fst s)) ops ->
  exists s', sysRun ops s = (Ok tt, s') /\ sys_ok s'.
Proof.
  revert s. induction ops as [|[i op] ops IH]; intros s Ho Hi.
  { by exists s. }
  apply list.Forall_cons in Hi as [Hi Hrest]. cbn in Hi. destruct (sysStep_ok i op s Ho Hi) as (s1 & Hs1 & Ho1 & Hl1).
  destruct (IH s1 Ho1) as (s2 & Hs2 & Ho2); [by rewrite Hl1|]. exists s2. split; [|done].
  cbn [sysRun]. unfold gbind. by rewrite Hs1.
Qed.

(** ** Witnesses *)

Definition twoSources : sharedIRQLine := snd (source (snd (source (newLine [true; false])))).

Lemma shared_line_is_or_witness :
  exists rs l', runCalls [(0, true); (1, true); (0, false)] twoSources = (Ok rs, l') /\
    (list.last rs = None \/ list.last rs = Some None -> sl_wire l' = true).
Proof.
  destruct (shared_line_is_or [(0, true); (1, true); (0, false)] twoSources) as (rs & l' & Hr & _ & _ & _ & Hw).
  - apply source_wf, source_wf, newLine_wf.
  - reflexivity.
  - repeat constructor; vm_compute; congruence.
  - exists rs, l'. split; [exact Hr|exact Hw].
Defined.

(** A transport with no queues on a working line. *)
Definition idleTransport : ModernTransport :=
  mkModernTransport true None false (mkIrqLine false 0 []) [] [] 0 0 0 0 [0; 0] 0 0 0 0 [] 0.

Lemma devices_share_line_witness :
  exists s', sysRun [(0, OpInterrupt); (1, OpConfigChanged); (0, OpReadISR)]
    ([idleTransport; idleTransport], snd (source (snd (source (newLine []))))) = (Ok tt, s') /\ sys_ok s'.
Proof.
  destruct (devices_share_line [(0, OpInterrupt); (1, OpConfigChanged); (0, OpReadISR)]
    ([idleTransport; idleTransport], snd (source (snd (source (newLine [])))))) as (s' & Hr & Hs).
  - assert (Hi : line_follows idleTransport) by (unfold line_follows, line_works, is_u8; cbn; splits; try done; lia).
    constructor; [apply source_wf, source_wf, newLine_wf|constructor|by repeat constructor|reflexivity|reflexivity].
  - repeat constructor; vm_compute; congruence.
  - exists s'. split; [exact Hr|exact Hs].
Defined.
