(* ===== verification/Serial.v ===== *)
(** The serial console (src/internal/serial/serial.go and input.go).

    The channel of input bytes is a list of at most [inputCap] bytes; the
    writer behind [output] is the list of bytes it was given.  The interrupt
    injector answers with an error or not, as the caller of an operation says. *)

From S2P Require Import Prelude Bytes.

Definition COM1Addr : Z := 0x03f8.
Definition inputCap : Z := 10000.

Record Serial : Type := mkSerial {
  IER : Z;
  LCR : Z;
  inputChan : list Z;
  s_output : list Z
}.
#[export] Instance serial_eta : Settable Serial := fun r => mkSerial (IER r) (LCR r) (inputChan r) (s_output r).

Definition newSerial : Serial := mkSerial 0 0 [] [].

Definition dlab (s : Serial) : bool := negb (LCR s &&& 0x80 =? 0).

(** What the verb %c prints for a byte: the character of that code point in
    UTF-8. *)
Definition printChar (b : Z) : list Z :=
  if b <? 0x80 then [b] else [0xc0 ||| (b ≫ 6); 0x80 ||| (b &&& 0x3f)].

(** [In] returns the bytes the guest sees; an access without a byte panics. *)
Definition serialIn (port : Z) (values : list Z) : M Serial (list Z) :=
  let! s := gget in
  let port := u64 (port - COM1Addr) in
  if (port =? 0) && negb (dlab s) then
    match inputChan s with
    | b :: rest =>
        do! gupd (fun s => s <| inputChan := rest |>) in
        let! _ := gindex values 0 in
        ret (zinsert 0 b values)
    | [] => ret values
    end
  else if (port =? 0) && dlab s then let! _ := gindex values 0 in ret (zinsert 0 0xc values)
  else if (port =? 1) && negb (dlab s) then let! _ := gindex values 0 in ret (zinsert 0 (IER s) values)
  else if (port =? 1) && dlab s then let! _ := gindex values 0 in ret (zinsert 0 0 values)
  else if port =? 5 then
    let! v := gindex values 0 in
    let v := v ||| 0x20 ||| 0x40 in
    let v := if zlen (inputChan s) =? 0 then v else v ||| 0x1 in
    ret (zinsert 0 v values)
  else ret values.

(** [Out]; [inject] is the answer of the interrupt injector. *)
Definition serialOut (port : Z) (values : list Z) (inject : option error) : M Serial unit :=
  let! s := gget in
  let port := u64 (port - COM1Addr) in
  if (port =? 0) && negb (dlab s) then
    let! v := gindex values 0 in
    gupd (fun s => s <| s_output := s_output s ++ printChar v |>)
  else if (port =? 0) && dlab s then ret tt
  else if (port =? 1) && negb (dlab s) then
    let! v := gindex values 0 in
    do! gupd (fun s => s <| IER := v |>) in
    if negb (v =? 0) then match inject with Some e => throw e | None => ret tt end else ret tt
  else if (port =? 1) && dlab s then ret tt
  else if port =? 3 then
    let! v := gindex values 0 in gupd (fun s => s <| LCR := v |>)
  else ret tt.

(** A byte of the terminal enters the channel when it has room; otherwise the
    reader waits. *)
Definition pushInput (b : Z) (s : Serial) : option Serial :=
  if zlen (inputChan s) <? inputCap then Some (s <| inputChan := inputChan s ++ [b] |>) else None.

(** The reader of the terminal stops at the end of its input, and after the
    byte x that follows Ctrl-A.  [typed] gives the bytes it passes on. *)
Fixpoint typed (before : Z) (bytes : list Z) : list Z :=
  match bytes with
  | [] => []
  | b :: rest => if (before =? 0x1) && (b =? 0x78) then [b] else b :: typed b rest
  end.

(** ** The console as a system *)

(** The terminal delivers a byte, or the guest accesses a port. *)
Inductive consoleEvent : Type :=
| Typed (b : Z)
| GuestIn (port : Z)
| GuestOut (port v : Z).

(** One event; the byte a guest takes from the receive register is returned. *)
Definition consoleStep (e : consoleEvent) (s : Serial) : list Z * Serial :=
  match e with
  | Typed b => ([], default s (pushInput b s))
  | GuestIn port =>
      let ready := (u64 (port - COM1Addr) =? 0) && negb (dlab s) && negb (zlen (inputChan s) =? 0) in
      let '(r, s') := serialIn port [0] s in
      (if ready then match r with Ok v => v | _ => [] end else [], s')
  | GuestOut port v => ([], snd (serialOut port [v] None s))
  end.

Fixpoint runConsole (es : list consoleEvent) (s : Serial) : list Z * Serial :=
  match es with
  | [] => ([], s)
  | e :: es =>
      let '(a, s1) := consoleStep e s in
      let '(b, s2) := runConsole es s1 in
      (a ++ b, s2)
  end.

(** The bytes that entered the channel. *)
Fixpoint delivered (es : list consoleEvent) (s : Serial) : list Z :=
  match es with
  | [] => []
  | e :: es =>
      let rest := delivered es (snd (consoleStep e s)) in
      match e with
      | Typed b => if zlen (inputChan s) <? inputCap then b :: rest else rest
      | _ => rest
      end
  end.

(** ** Lemmas *)

Lemma serialOut_input port v s : inputChan (snd (serialOut port [v] None s)) = inputChan s.
Proof.
  unfold serialOut, gbind, gget, gupd, ret, gindex. change (zlookup [v] 0) with (Some v). unfold ret. cbv beta iota zeta.
  repeat match goal with |- context [if ?b then _ else _] => destruct b end; done.
Qed.

Lemma serialIn_receive port s :
  (u64 (port - COM1Addr) =? 0) = true -> dlab s = false ->
  serialIn port [0] s = match inputChan s with
    | [] => (Ok [0], s)
    | b :: rest => (Ok [b], s <| inputChan := rest |>)
    end.
Proof.
  intros Hp Hd. unfold serialIn, gbind, gget. rewrite Hp, Hd. cbn [negb andb]. by destruct (inputChan s).
Qed.

Lemma serialIn_other port s :
  (u64 (port - COM1Addr) =? 0) && negb (dlab s) = false -> snd (serialIn port [0] s) = s.
Proof.
  intros Hp. unfold serialIn, gbind, gget, ret. rewrite Hp.
  repeat match goal with |- context [if ?b then _ else _] => destruct b end; done.
Qed.

(** Every byte is passed on, up to the escape sequence. *)
Lemma typed_prefix before bytes :
  exists rest, bytes = typed before bytes ++ rest /\
    (rest <> [] -> exists pre, before :: typed before bytes = pre ++ [0x1; 0x78]).
Proof.
  revert before. induction bytes as [|b bytes IH]; intros before; [by exists []|]. cbn [typed].
  destruct ((before =? 0x1) && (b =? 0x78)) eqn:E.
  - zbool. subst. exists bytes. split; [done|]. intros _. by exists [].
  - destruct (IH b) as (rest & Hr & He). exists rest. split; [cbn; by rewrite <- Hr|].
    intros Hn. destruct (He Hn) as [pre Hp]. exists (before :: pre). cbn. by rewrite <- Hp.
Qed.

(** One event adds its byte at the end or takes one from the front. *)
Lemma consoleStep_conserves e s :
  let pushed := match e with Typed b => if zlen (inputChan s) <? inputCap then [b] else [] | _ => [] end in
  inputChan s ++ pushed = fst (consoleStep e s) ++ inputChan (snd (consoleStep e s)).
Proof.
  destruct e as [b|port|port v]; cbn [consoleStep fst snd]; cbv zeta.
  - unfold pushInput. destruct (_ <? _); [done|]. by rewrite app_nil_r.
  - rewrite app_nil_r. destruct ((u64 (port - COM1Addr) =? 0) && negb (dlab s)) eqn:E; cbn [andb].
    + apply andb_true_iff in E as [Hp Hd]. apply negb_true_iff in Hd. rewrite serialIn_receive by done.
      destruct (inputChan s) as [|b rest] eqn:Hi; cbn [fst snd]; [by rewrite Hi|]. rewrite zlen_cons.
      pose proof (zlen_nonneg rest). destruct (1 + zlen rest =? 0) eqn:?; zbool; [lia|done].
    + pose proof (serialIn_other port s E) as Hs. destruct (serialIn port [0] s) as [r s']. cbn in *. by rewrite Hs.
  - by rewrite app_nil_r, serialOut_input.
Qed.

(** ** Properties *)

(** The console never loses, duplicates or reorders input: in every
    interleaving of terminal bytes and guest accesses, the bytes that entered
    the channel are those the guest read from the receive register, in order,
    followed by those still waiting. *)
Theorem console_input_fifo es s :
  inputChan s ++ delivered es s = fst (runConsole es s) ++ inputChan (snd (runConsole es s)).
Proof.
  revert s. induction es as [|e es IH]; intros s; [cbn; by rewrite app_nil_r|].
  cbn [delivered runConsole]. pose proof (consoleStep_conserves e s) as Hc. cbv zeta in Hc.
  destruct (consoleStep e s) as [a s1] eqn:E. cbn [fst snd] in *. specialize (IH s1).
  destruct (runConsole es s1) as [b s2]. cbn [fst snd] in *. rewrite <- app_assoc, <- IH, app_assoc, <- Hc.
  rewrite <- app_assoc. f_equal. destruct e; try done. by destruct (_ <? _).
Qed.

(** The line status register says data is ready exactly when a byte waits,
    and the transmitter is always ready. *)
Theorem line_status_ready s :
  exists v, serialIn (COM1Addr + 5) [0] s = (Ok [v], s) /\
    Z.testbit v 0 = negb (zlen (inputChan s) =? 0) /\ Z.testbit v 5 = true /\ Z.testbit v 6 = true.
Proof.
  unfold serialIn, gbind, gget. change (u64 (COM1Addr + 5 - COM1Addr)) with 5. cbn [Z.eqb andb Pos.eqb].
  destruct (zlen (inputChan s) =? 0); eexists; (split; [reflexivity|done]).
Qed.

(** Bytes below 128 are printed as they are, but a byte above 127 is not
    passed on: it is printed as the two bytes of the character with that code
    point, so the UTF-8 output of a guest arrives encoded twice. *)
Theorem serial_output_reencoded s b inject :
  dlab s = false -> 0 <= b < 0x100 ->
  serialOut COM1Addr [b] inject s =
    (Ok tt, s <| s_output := s_output s ++
       (if b <? 0x80 then [b] else [0xc0 + b / 0x40; 0x80 + b mod 0x40]) |>).
Proof.
  intros Hd Hb. unfold serialOut, gbind, gget, gindex. change (u64 (COM1Addr - COM1Addr)) with 0. rewrite Hd.
  cbn [Z.eqb andb negb]. change (zlookup [b] 0) with (Some b). unfold ret, gupd, printChar.
  destruct (b <? 0x80) eqn:?; zbool; [done|].
  assert (Hc : 0xc0 ||| (b ≫ 6) = 0xc0 + b / 0x40).
  { rewrite Z.shiftr_div_pow2 by lia. change (2 ^ 6) with 0x40. change 0xc0 with (6 * 2 ^ 5). apply lor_low; [lia|].
    assert (b / 0x40 < 4) by (apply Z.div_lt_upper_bound; lia). pose proof (Z.div_pos b 0x40). lia. }
  assert (Hl : 0x80 ||| (b &&& 0x3f) = 0x80 + b mod 0x40).
  { change 0x3f with (2 ^ 6 - 1). rewrite land_mask_mod by lia. change 0x80 with (2 * 2 ^ 6). apply lor_low; [lia|].
    apply Z.mod_pos_bound. lia. }
  by rewrite Hc, Hl.
Qed.

Lemma serial_output_reencoded_witness : snd (serialOut COM1Addr [0xe9] None newSerial) = newSerial <| s_output := [0xc3; 0xa9] |>.
Proof. rewrite (serial_output_reencoded newSerial 0xe9 None eq_refl) by lia. reflexivity. Defined.
