(* ===== verification/IoDevices.v ===== *)
(** Legacy devices on I/O ports (src/internal/iodev): the CMOS with its clock,
    the ACPI power-management timer, the shutdown, debug and POST-code ports.

    The time of day and the elapsed time are arguments: the device reads them
    from the host. *)

From S2P Require Import Prelude Bytes.

Definition errDataLenInvalid : error := EMsg "invalid data size on port".

(** ** CMOS (cmos.go) *)

Module CMOS.

Definition indexMask : Z := 0x7F.
Definition indexOffset : Z := 0x70.
Definition dataOffset : Z := 0x71.
Definition dataLen : Z := 128.
Definition kib : Z := 1024.
Definition mib : Z := 1024 * kib.

Record CMOS : Type := mkCMOS { Index : Z; Data : list Z }.
#[export] Instance cmos_eta : Settable CMOS := fun r => mkCMOS (Index r) (Data r).

(** The time the host clock shows, as [time.Time] gives it: [weekday] counts
    from 0 for Sunday, [month] from 1. *)
Record clock : Type := mkClock { sec : Z; minute : Z; hour : Z; weekday : Z; day : Z; month : Z; year : Z }.

Definition clampMax (v max : Z) : Z := if max <? v then max else v.
Definition saturatingSub (v sub : Z) : Z := if v <? sub then 0 else v - sub.

Definition setUint16 (index v : Z) (data : list Z) : list Z :=
  zinsert (index + 1) (u8 (v ≫ 8)) (zinsert index (u8 v) data).

Definition NewCMOS (memBelow4G memAbove4G : Z) : CMOS :=
  let data := zinsert 0x0b 0x02 (zeros dataLen) in
  let data := setUint16 0x15 640 data in
  let extendedKiB := saturatingSub memBelow4G (1 * mib) / kib in
  let data := setUint16 0x17 (u16 (clampMax extendedKiB 0xffff)) data in
  let data := setUint16 0x30 (u16 (clampMax extendedKiB 0xffff)) data in
  let extMem64K := u16 (clampMax (saturatingSub memBelow4G (16 * mib) / (64 * kib)) 0xffff) in
  let data := setUint16 0x34 extMem64K data in
  let above4G64K := clampMax (memAbove4G / (64 * kib)) 0xffffff in
  let data := zinsert 0x5b (u8 above4G64K) data in
  let data := zinsert 0x5c (u8 (above4G64K ≫ 8)) data in
  let data := zinsert 0x5d (u8 (above4G64K ≫ 16)) data in
  mkCMOS 0 data.

Definition toBCD (v : Z) : Z := u8 ((v / 10) ≪ 4) ||| (v mod 10).

(** The byte of the data port. *)
Definition readData (t : clock) (c : CMOS) : Z :=
  let encode v := if Data c !!! 0x0b%nat &&& 0x04 =? 0 then toBCD v else v in
  let i := Index c &&& indexMask in
  if i =? 0x00 then encode (u8 (sec t))
  else if i =? 0x02 then encode (u8 (minute t))
  else if i =? 0x04 then
    if Data c !!! 0x0b%nat &&& 0x02 =? 0 then
      let d := encode (u8 ((hour t + 11) mod 12 + 1)) in
      if 12 <=? hour t then d ||| 0x80 else d
    else encode (u8 (hour t))
  else if i =? 0x06 then encode (u8 (u8 (weekday t) + 1))
  else if i =? 0x07 then encode (u8 (day t))
  else if i =? 0x08 then encode (u8 (month t))
  else if i =? 0x09 then encode (u8 (year t mod 100))
  else if i =? 0x0A then 1 ≪ 5
  else if i =? 0x0D then 1 ≪ 7
  else if i =? 0x32 then encode (u8 (year t / 100))
  else zget (Data c) i.

Definition Read (t : clock) (base : Z) (data : list Z) : M CMOS (list Z) :=
  if negb (zlen data =? 1) then throw errDataLenInvalid
  else
    let! c := gget in
    if base =? indexOffset then ret [Index c]
    else if base =? dataOffset then ret [readData t c]
    else ret data.

Definition Write (base : Z) (data : list Z) : M CMOS unit :=
  match data with
  | [v] =>
      let! c := gget in
      if base =? indexOffset then gupd (fun c => c <| Index := v |>)
      else if base =? dataOffset then
        if (Index c =? 0x8F) && (v =? 0) then ret tt
        else gupd (fun c => c <| Data := zinsert (Index c &&& indexMask) v (Data c) |>)
      else ret tt
  | _ => throw errDataLenInvalid
  end.

End CMOS.

(** ** The ACPI timer (acpi_pm_timer.go) *)

Definition pmTimerFreqHz : Z := 3579545.
Definition nanosPerSecond : Z := 1000000000.

(** [elapsed] is a duration in nanoseconds. *)
Definition pmTimerTicks (elapsed : Z) : Z :=
  if elapsed <=? 0 then 0
  else
    let seconds := elapsed / nanosPerSecond in
    let nanos := elapsed mod nanosPerSecond in
    u32 (u64 (u64 (seconds * pmTimerFreqHz) + u64 (nanos * pmTimerFreqHz) / nanosPerSecond)).

Definition pmTimerRead (elapsed : Z) (data : list Z) : result (list Z) :=
  if negb (zlen data =? 4) then Err errDataLenInvalid else Ok (le_bytes 4 (pmTimerTicks elapsed)).

(** ** Small ports *)

Inductive portEvent : Type := Reboot | Shutdown | Printed (b : list Z).

(** [ACPIShutDown.Write] (acpi_shutdown.go) reports what it recognizes. *)
Definition shutdownWrite (data : list Z) : result (list portEvent) :=
  match data with
  | [] => Panic
  | b :: _ =>
      Ok ((if b =? 1 then [Reboot] else []) ++ (if b =? (u8 (5 ≪ 2) ||| u8 (1 ≪ 5)) then [Shutdown] else []))
  end.

Definition shutdownRead (data : list Z) : result (list Z) :=
  match data with [] => Panic | _ :: rest => Ok (0 :: rest) end.

(** [FWDebug] (fw_debug.go) and [PostCode] (postcode.go) print a byte, as a
    character, or a line break for 0. *)
Definition printPort (data : list Z) : result (list portEvent) :=
  match data with
  | [b] => Ok [Printed (if b =? 0 then [0x0d; 0x0a] else if b <? 0x80 then [b] else [0xc0 ||| (b ≫ 6); 0x80 ||| (b &&& 0x3f)])]
  | _ => Err errDataLenInvalid
  end.

Definition fwDebugRead (data : list Z) : result (list Z) :=
  match data with [_] => Ok [0xE9] | _ => Err errDataLenInvalid end.

(** ** Properties of the timer *)

(** The timer counts 3,579,545 ticks per second without drift: the value
    read is the exact number of whole ticks since the start, modulo 2^32, for
    every duration the host can measure; no intermediate product overflows. *)
Theorem pm_timer_exact elapsed :
  0 <= elapsed <= maxInt64 -> pmTimerTicks elapsed = u32 (elapsed * pmTimerFreqHz / nanosPerSecond).
Proof.
  intros He. unfold pmTimerTicks, maxInt64 in *. destruct (elapsed <=? 0) eqn:E; zbool.
  { assert (elapsed = 0) as -> by lia. reflexivity. }
  pose proof (Z.div_mod elapsed nanosPerSecond ltac:(done)) as Hd.
  pose proof (Z.mod_pos_bound elapsed nanosPerSecond ltac:(done)) as Hm.
  assert (Hs : 0 <= elapsed / nanosPerSecond <= 9223372037).
  { split; [apply Z.div_pos; unfold nanosPerSecond; lia|].
    apply Z.lt_succ_r, Z.div_lt_upper_bound; unfold nanosPerSecond; lia. }
  set (s := elapsed / nanosPerSecond) in *. set (n := elapsed mod nanosPerSecond) in *.
  unfold nanosPerSecond, pmTimerFreqHz in *.
  rewrite (u64_small (s * _)), (u64_small (n * _)) by lia.
  assert (0 <= n * 3579545 / 1000000000 <= n * 3579545) by (split; [apply Z.div_pos; lia|apply Z.div_le_upper_bound; lia]).
  rewrite u64_small by lia. f_equal. rewrite Hd, Z.mul_add_distr_r.
  replace (1000000000 * s * 3579545) with (s * 3579545 * 1000000000) by lia. rewrite Z.div_add_l by lia. done.
Qed.

Lemma pm_timer_exact_witness : pmTimerTicks 1500000001 = u32 (1500000001 * pmTimerFreqHz / nanosPerSecond).
Proof. apply (pm_timer_exact 1500000001). unfold maxInt64. lia. Defined.

(** ** Properties of the CMOS *)

Module CMOSSpec.
Import CMOS.

(** How a driver reads a clock register, given register B. *)
Definition fromBCD (b : Z) : Z := b / 16 * 10 + b mod 16.
Definition decodeVal (regB b : Z) : Z := if regB &&& 0x04 =? 0 then fromBCD b else b.
Definition decodeHour (regB b : Z) : Z :=
  if regB &&& 0x02 =? 0 then decodeVal regB (b mod 128) mod 12 + (if 128 <=? b then 12 else 0) else decodeVal regB b.

Definition clock_ok (t : clock) : Prop :=
  0 <= sec t < 60 /\ 0 <= minute t < 60 /\ 0 <= hour t < 24 /\ 0 <= weekday t < 7 /\ 1 <= day t <= 31 /\
  1 <= month t <= 12 /\ 0 <= year t < 10000.

Lemma toBCD_range v : 0 <= v < 100 -> 0 <= toBCD v <= v / 10 * 16 + v mod 10 /\ fromBCD (toBCD v) = v.
Proof.
  intros Hv. pose proof (Z.div_mod v 10). pose proof (Z.mod_pos_bound v 10).
  assert (0 <= v / 10 < 10) by (split; [apply Z.div_pos; lia|apply Z.div_lt_upper_bound; lia]).
  unfold toBCD. rewrite Z.shiftl_mul_pow2 by lia. rewrite u8_small by lia. rewrite lor_low by lia.
  change (2 ^ 4) with 16. unfold fromBCD. rewrite Z.div_add_l, (Z.div_small (v mod 10) 16) by lia.
  rewrite (Z.add_comm (v / 10 * 16)), Z.mod_add, (Z.mod_small (v mod 10)) by lia. lia.
Qed.

Definition regB (c : CMOS) : Z := Data c !!! 0x0b%nat.

Lemma decode_encode B v :
  0 <= v < 100 -> decodeVal B (if B &&& 0x04 =? 0 then toBCD (u8 v) else u8 v) = v.
Proof.
  intros Hv. rewrite u8_small by lia. unfold decodeVal. destruct (_ =? 0); [|done]. by apply toBCD_range.
Qed.

Lemma decode_hour B h :
  0 <= h < 24 ->
  let enc v := if B &&& 0x04 =? 0 then toBCD v else v in
  let d := enc (u8 ((h + 11) mod 12 + 1)) in
  decodeHour B (if B &&& 0x02 =? 0 then (if 12 <=? h then d ||| 0x80 else d) else enc (u8 h)) = h.
Proof.
  intros Hh. cbv zeta. unfold decodeHour. destruct (B &&& 0x02 =? 0); [|by apply decode_encode; lia].
  unfold decodeVal. destruct (B &&& 0x04 =? 0).
  - assert (Hc : forall n : nat, (n < 24)%nat ->
      let d := toBCD (u8 ((Z.of_nat n + 11) mod 12 + 1)) in
      let b := if 12 <=? Z.of_nat n then d ||| 0x80 else d in
      fromBCD (b mod 128) mod 12 + (if 128 <=? b then 12 else 0) = Z.of_nat n).
    { intros n Hn. do 24 (destruct n as [|n]; [reflexivity|]). lia. }
    specialize (Hc (Z.to_nat h) ltac:(lia)). by rewrite Z2Nat.id in Hc by lia.
  - assert (Hc : forall n : nat, (n < 24)%nat ->
      let d := u8 ((Z.of_nat n + 11) mod 12 + 1) in
      let b := if 12 <=? Z.of_nat n then d ||| 0x80 else d in
      (b mod 128) mod 12 + (if 128 <=? b then 12 else 0) = Z.of_nat n).
    { intros n Hn. do 24 (destruct n as [|n]; [reflexivity|]). lia. }
    specialize (Hc (Z.to_nat h) ltac:(lia)). by rewrite Z2Nat.id in Hc by lia.
Qed.

(** A driver that decodes the clock registers the way register B says, in
    binary or BCD and in 12- or 24-hour mode, gets the date and time of the host
    clock; the day of the week counts from 1 for Sunday. *)
Theorem rtc_time_readable t c :
  clock_ok t ->
  let at_ r := readData t (c <| Index := r |>) in
  decodeVal (regB c) (at_ 0x00) = sec t /\ decodeVal (regB c) (at_ 0x02) = minute t /\
  decodeHour (regB c) (at_ 0x04) = hour t /\ decodeVal (regB c) (at_ 0x06) = weekday t + 1 /\
  decodeVal (regB c) (at_ 0x07) = day t /\ decodeVal (regB c) (at_ 0x08) = month t /\
  decodeVal (regB c) (at_ 0x32) * 100 + decodeVal (regB c) (at_ 0x09) = year t.
Proof.
  intros (Hs & Hm & Hh & Hw & Hd & Hmo & Hy). cbv zeta.
  unfold readData; cbn [Index Data set_field]. fold (regB c).
  pose proof (Z.div_mod (year t) 100). pose proof (Z.mod_pos_bound (year t) 100).
  assert (0 <= year t / 100 < 100) by (split; [apply Z.div_pos; lia|apply Z.div_lt_upper_bound; lia]).
  change (0 &&& indexMask) with 0. change (2 &&& indexMask) with 2. change (4 &&& indexMask) with 4.
  change (6 &&& indexMask) with 6. change (7 &&& indexMask) with 7. change (8 &&& indexMask) with 8.
  change (9 &&& indexMask) with 9. change (50 &&& indexMask) with 50. cbn [Z.eqb Pos.eqb].
  rewrite (u8_small (weekday t)) by lia. rewrite !decode_encode by lia.
  splits; try done; [by apply decode_hour|lia].
Qed.

Definition sampleClock : clock := mkClock 59 30 23 6 31 12 2026.

Lemma rtc_time_readable_witness :
  decodeHour (regB (NewCMOS 0 0)) (readData sampleClock (NewCMOS 0 0 <| Index := 0x04 |>)) = 23.
Proof.
  assert (Hc : clock_ok sampleClock) by (unfold clock_ok; cbn; lia).
  exact (proj1 (proj2 (proj2 (rtc_time_readable sampleClock (NewCMOS 0 0) Hc)))).
Defined.

(** What firmware computes from the memory registers. *)
Definition reportedBelow (c : CMOS) : Z := (zget (Data c) 0x35 * 256 + zget (Data c) 0x34) * 0x10000 + 16 * mib.
Definition reportedAbove (c : CMOS) : Z :=
  (zget (Data c) 0x5d * 65536 + zget (Data c) 0x5c * 256 + zget (Data c) 0x5b) * 0x10000.

Lemma zget_setUint16 i v l j :
  0 <= i -> i + 1 < zlen l ->
  zget (setUint16 i v l) j = if j =? i + 1 then u8 (v ≫ 8) else if j =? i then u8 v else zget l j.
Proof.
  intros Hi Hl. unfold setUint16. rewrite zget_insert by (rewrite zlen_insert; lia). destruct (j =? i + 1); [done|].
  apply zget_insert. lia.
Qed.

Lemma zlen_setUint16 i v l : zlen (setUint16 i v l) = zlen l.
Proof. unfold setUint16. by rewrite !zlen_insert. Qed.

Lemma mib_val : mib = 1048576.
Proof. reflexivity. Qed.

Lemma split_bytes2 v : 0 <= v < 2 ^ 16 -> u8 (v ≫ 8) * 256 + u8 v = v.
Proof.
  intros. rewrite Z.shiftr_div_pow2 by lia. unfold u8. pose proof (Z.div_mod v 256).
  rewrite (Z.mod_small (v / 2 ^ 8)) by (split; [apply Z.div_pos; lia|apply Z.div_lt_upper_bound; lia]).
  change (2 ^ 8) with 256. lia.
Qed.

Lemma split_bytes3 v : 0 <= v < 2 ^ 24 -> u8 (v ≫ 16) * 65536 + u8 (v ≫ 8) * 256 + u8 v = v.
Proof.
  intros. rewrite !Z.shiftr_div_pow2 by lia. unfold u8. pose proof (Z.div_mod v 256). pose proof (Z.div_mod (v / 256) 256).
  rewrite (Z.mod_small (v / 2 ^ 16)) by (split; [apply Z.div_pos; lia|apply Z.div_lt_upper_bound; lia]).
  change (2 ^ 16) with (256 * 256). change (2 ^ 8) with 256. rewrite <- Z.div_div by lia. lia.
Qed.

(** The memory registers report the memory of the machine: below 4 GiB
    rounded down to 64 KiB, above it likewise, up to the 1 TiB the registers can
    express. *)
Theorem cmos_reports_memory below above :
  16 * mib <= below < 2 ^ 32 -> 0 <= above < 2 ^ 40 ->
  reportedBelow (NewCMOS below above) = below / 0x10000 * 0x10000 /\
  reportedAbove (NewCMOS below above) = above / 0x10000 * 0x10000.
Proof.
  intros Hb Ha. pose proof mib_val as Hmib. unfold reportedBelow, reportedAbove, NewCMOS; cbn [Data].
  repeat (rewrite zget_setUint16 || rewrite zget_insert);
    repeat (rewrite zlen_insert || rewrite zlen_setUint16); try lia; try (change (zlen (zeros dataLen)) with 128; lia).
  change (0x34 + 1) with 0x35. change (0x30 + 1) with 0x31. change (0x17 + 1) with 0x18. change (0x15 + 1) with 0x16.
  cbn [Z.eqb Pos.eqb].
  replace (64 * kib) with 65536 by reflexivity. unfold saturatingSub, clampMax.
  assert (Hd : (below - 16 * mib) / 65536 = below / 65536 - 256).
  { rewrite Hmib. replace (below - 16 * 1048576) with (below + (-256) * 65536) by lia. rewrite Z.div_add by lia. lia. }
  destruct (below <? 16 * mib) eqn:E; zbool; [lia|]. rewrite Hd.
  assert (0 <= below / 65536 < 65536) by (split; [apply Z.div_pos; lia|apply Z.div_lt_upper_bound; lia]).
  assert (256 <= below / 65536) by (apply Z.div_le_lower_bound; lia).
  assert (0 <= above / 65536 < 16777216) by (split; [apply Z.div_pos; lia|apply Z.div_lt_upper_bound; lia]).
  set (b := below / 65536) in *. set (a := above / 65536) in *.
  destruct (65535 <? b - 256) eqn:?; zbool; [lia|]. destruct (16777215 <? a) eqn:?; zbool; [lia|].
  rewrite (u16_small (b - 256)) by lia. rewrite split_bytes2, split_bytes3 by lia. lia.
Qed.

Lemma cmos_reports_memory_witness :
  reportedBelow (NewCMOS 0xC0000000 0x40000000) = 0xC0000000 /\ reportedAbove (NewCMOS 0xC0000000 0x40000000) = 0x40000000.
Proof. apply (cmos_reports_memory 0xC0000000 0x40000000); unfold mib, kib; lia. Defined.

End CMOSSpec.
