(* ===== verification/UefiFlash.v ===== *)
(** The UEFI variable store (src/internal/machine/uefi_flash.go): a flash chip
    with the byte-program command set, backed by a file.

    The file is the one of OsFile.v, with its schedule of faults; opening,
    locking and closing it are the host's and their outcomes are arguments.
    The store is held under an exclusive lock, so its contents change by the
    chip's own writes only. *)

From S2P Require Import Prelude Bytes OsFile.

Definition uefiFlashBlockSize : Z := 4096.

Definition errUEFIVarsImage : error :=
  EMsg "invalid UEFI variable store: expected a separate, page-aligned OVMF_VARS file".
Definition errUEFIVarsHeader : error := EMsg "invalid UEFI variable store: missing firmware volume header".
Definition errUEFIFlashBoundary : error := EMsg "UEFI flash access crosses the variable store boundary".
Definition ErrClosed : error := EMsg "file already closed".

Record uefiFlash : Type := mkFlash {
  v_file : osFile;
  v_data : list Z;
  v_base : Z;
  v_command : Z;
  v_status : Z;
  v_dirty : bool;
  v_closed : bool;
  v_closeErr : option error   (** what the host answers to [file.Close] *)
}.
#[export] Instance uefiFlash_eta : Settable uefiFlash :=
  fun r => mkFlash (v_file r) (v_data r) (v_base r) (v_command r) (v_status r) (v_dirty r) (v_closed r) (v_closeErr r).

(** [openUEFIVars]: [f] is the opened file; [sameFile] says that it is the
    firmware code, [regular] that it is a regular file, [locked] is the outcome
    of [flock]. *)
Definition openUEFIVars (f : osFile) (sameFile regular : bool) (locked closeErr : option error) : result uefiFlash :=
  match f_stat f with
  | (Ok size, f) =>
      if sameFile || negb regular || (size <? uefiFlashBlockSize) || ((16 ≪ 20) <? size) ||
         negb (size mod uefiFlashBlockSize =? 0)
      then Err errUEFIVarsImage
      else
        match locked with
        | Some e => Err (EWrap "lock UEFI variable store" e)
        | None =>
            match f_readAt f (zeros size) 0 with
            | (data, _, None, f) =>
                if bool_decide (zslice data 40 4 = [0x5f; 0x46; 0x56; 0x48])
                then Ok (mkFlash f data 0 0 0x80 false false closeErr)
                else Err errUEFIVarsHeader
            | (_, _, Some e, _) => Err e
            end
        end
  | (Err e, _) => Err e
  | (Panic, _) => Panic
  | (OutOfFuel, _) => OutOfFuel
  end.

Definition syncLocked : M uefiFlash unit := fun s =>
  if negb (v_dirty s) then (Ok tt, s)
  else
    match f_writeAt (v_file s) (v_data s) 0 with
    | (_, Some e, f) => (Err (EWrap "write UEFI variables" e), s <| v_file := f |>)
    | (_, None, f) =>
        match f_sync f with
        | (Ok _, f) => (Ok tt, s <| v_file := f |> <| v_dirty := false |>)
        | (Err e, f) => (Err (EWrap "sync UEFI variables" e), s <| v_file := f |>)
        | (Panic, f) => (Panic, s <| v_file := f |>)
        | (OutOfFuel, f) => (OutOfFuel, s <| v_file := f |>)
        end
    end.

(** The loop that erases a block: [n] bytes from [j]. *)
Fixpoint eraseFrom (n : nat) (j : Z) : M uefiFlash unit :=
  match n with
  | O => ret tt
  | S n =>
      let! s := gget in
      let! _ := gindex (v_data s) j in
      do! gupd (fun s => s <| v_data := zinsert j 0xff (v_data s) |>) in
      eraseFrom n (j + 1)
  end.

(** A command byte, outside of an operation. *)
Definition flashCommand (value : Z) : M uefiFlash unit :=
  if value =? 0xff then
    do! gupd (fun s => s <| v_command := 0 |>) in
    syncLocked
  else if value =? 0x50 then gupd (fun s => s <| v_status := 0 |> <| v_command := 0 |>)
  else if (value =? 0x10) || (value =? 0x40) || (value =? 0x20) || (value =? 0x70) || (value =? 0x90) then
    gupd (fun s => s <| v_command := value |>)
  else gupd (fun s => s <| v_status := 0x90 |> <| v_command := 0x70 |>).

(** One byte written at [pos]. *)
Definition flashWriteByte (pos value : Z) : M uefiFlash unit :=
  let! s := gget in
  if (v_command s =? 0x10) || (v_command s =? 0x40) then
    let! old := gindex (v_data s) pos in
    gupd (fun s => s <| v_data := zinsert pos (old &&& value) (v_data s) |> <| v_dirty := true |>
                     <| v_status := 0x80 |> <| v_command := 0x70 |>)
  else if v_command s =? 0x20 then
    do! (if value =? 0xd0 then
           do! eraseFrom (Z.to_nat uefiFlashBlockSize) (Z.ldiff pos (uefiFlashBlockSize - 1)) in
           gupd (fun s => s <| v_dirty := true |> <| v_status := 0x80 |>)
         else gupd (fun s => s <| v_status := 0xb0 |>)) in
    gupd (fun s => s <| v_command := 0x70 |>)
  else flashCommand value.

Fixpoint flashWrite (pos : Z) (data : list Z) : M uefiFlash unit :=
  match data with
  | [] => ret tt
  | value :: rest => do! flashWriteByte pos value in flashWrite (pos + 1) rest
  end.

(** One byte read at [pos]. *)
Definition flashReadByte (s : uefiFlash) (pos : Z) : M uefiFlash Z :=
  if v_command s =? 0x70 then ret (v_status s)
  else if v_command s =? 0x90 then ret 0
  else gindex (v_data s) pos.

Fixpoint flashRead (pos : Z) (n : nat) : M uefiFlash (list Z) :=
  match n with
  | O => ret []
  | S n =>
      let! s := gget in
      let! b := flashReadByte s pos in
      let! rest := flashRead (pos + 1) n in
      ret (b :: rest)
  end.

(** [access]: whether the address is the chip's, and the data after the call.
    The code returns [true] with every error. *)
Definition access (addr : Z) (data : list Z) (write : bool) : M uefiFlash (bool * list Z) :=
  let! s := gget in
  if (addr <? v_base s) || (zlen (v_data s) <=? addr - v_base s) then ret (false, data)
  else
    let off := addr - v_base s in
    check! zlen (v_data s) - off <? zlen data else errUEFIFlashBoundary in
    check! v_closed s else ErrClosed in
    if negb write then
      let! got := flashRead off (length data) in
      ret (true, got)
    else
      do! flashWrite off data in
      ret (true, data).

Definition join (e1 e2 : option error) : option error :=
  match e1, e2 with
  | Some e1, Some e2 => Some (EJoin e1 e2)
  | Some e, None | None, Some e => Some e
  | None, None => None
  end.

Definition flashClose : M uefiFlash unit :=
  let! s := gget in
  if v_closed s then ret tt
  else
    do! gupd (fun s => s <| v_closed := true |>) in
    let! r := gtry syncLocked in
    match join (match r with inl _ => None | inr e => Some e end) (v_closeErr s) with
    | Some e => throw e
    | None => ret tt
    end.

Definition errUEFIFirmwarePair : error := EMsg "UEFI CODE and VARS sizes must form a matching power-of-two firmware image".

(** [LoadUEFI] (uefi.go) places the store and the code at the top of the first
    4 GiB; the result is the address of the code. *)
Definition placeUEFI (codeSize : Z) : M uefiFlash Z :=
  let! s := gget in
  let total := u64 (codeSize + zlen (v_data s)) in
  if ((16 ≪ 20) <? total) || negb (total &&& (total - 1) =? 0) then
    let! r := gtry flashClose in
    throw (match r with inl _ => errUEFIFirmwarePair | inr e => EJoin errUEFIFirmwarePair e end)
  else
    do! gupd (fun s => s <| v_base := u64 (2 ^ 32 - total) |>) in
    ret (u64 (2 ^ 32 - codeSize)).

(** [uefiMMIO] (uefi.go): the store, then the code, whose writes are ignored. *)
Definition uefiMMIO (codeBase codeLen addr : Z) (data : list Z) (write : bool) : M uefiFlash (bool * list Z) :=
  let! r := access addr data write in
  match r with
  | (true, got) => ret (true, got)
  | (false, _) => ret ((codeBase <=? addr) && (addr - codeBase <? codeLen), data)
  end.

(** ** Invariant *)

(** The file holds what the chip shows, unless the chip has unsaved changes. *)
Record flash_ok (s : uefiFlash) : Prop := {
  fo_blocks : zlen (v_data s) mod uefiFlashBlockSize = 0;
  fo_bytes : bytes_ok (v_data s);
  fo_size : zlen (f_data (v_file s)) = zlen (v_data s);
  fo_saved : v_dirty s = false -> f_data (v_file s) = v_data s
}.

(** What an operation of the chip leaves alone. *)
Definition same_chip (s s' : uefiFlash) : Prop :=
  zlen (v_data s') = zlen (v_data s) /\ v_base s' = v_base s /\ v_closed s' = v_closed s.

Definition chip_step (s s' : uefiFlash) : Prop := flash_ok s' /\ same_chip s s'.

Lemma chip_step_refl s : flash_ok s -> chip_step s s.
Proof. unfold chip_step, same_chip. auto. Qed.

Lemma chip_step_trans s1 s2 s3 : chip_step s1 s2 -> chip_step s2 s3 -> chip_step s1 s3.
Proof. unfold chip_step, same_chip. intros (? & ? & ? & ?) (? & ? & ? & ?). splits; congruence. Qed.

Lemma wp_syncLocked s :
  flash_ok s ->
  wp syncLocked s (fun _ s' => chip_step s s' /\ v_dirty s' = false /\ v_data s' = v_data s /\ v_command s' = v_command s)
    (fun _ s' => chip_step s s').
Proof.
  intros Hok. unfold wp, syncLocked. destruct (v_dirty s) eqn:Hd; cbn [negb].
  2: { splits; auto using chip_step_refl. }
  pose proof (fo_size s Hok) as Hs.
  destruct (f_writeAt (v_file s) (v_data s) 0) as [[n err] f] eqn:Hw.
  assert (H0 : 0 <= 0) by lia. destruct (f_writeAt_effect _ _ _ _ _ _ H0 Hw) as (m & Hm & Hget & Hsz & Hall & _).
  assert (Hf : zlen (f_data f) = zlen (v_data s)).
  { unfold f_size in Hsz. rewrite Hsz. destruct (m =? 0) eqn:?; zbool; lia. }
  assert (Hstep : forall f', f_data f' = f_data f -> chip_step s (s <| v_file := f' |>)).
  { intros f' Hf'. split; [|done]. destruct Hok. constructor; cbn; [done..|congruence|congruence]. }
  destruct err as [e|]; [by apply Hstep|].
  unfold f_sync. destruct (next_fault f); [by apply Hstep|]. cbn.
  assert (Hd' : f_data f = v_data s).
  { apply zlist_eq; [done|]. intros i Hi. destruct (Hall eq_refl) as [-> _].
    rewrite Hget by lia. rewrite Hf in Hi. destruct (_ && _) eqn:E; [by rewrite Z.sub_0_r|].
    apply andb_false_iff in E as [E|E]; zbool; lia. }
  splits; [|done..]. split; [|done]. destruct Hok. constructor; cbn; auto.
Qed.

(** What erasing a block does: the bytes of the block become 0xff. *)
Lemma wp_eraseFrom n j s :
  0 <= j -> j + Z.of_nat n <= zlen (v_data s) ->
  wp (eraseFrom n j) s
    (fun _ s' => exists d, s' = s <| v_data := d |> /\ zlen d = zlen (v_data s) /\
       (forall i, zget d i = if (j <=? i) && (i <? j + Z.of_nat n) then 0xff else zget (v_data s) i) /\
       (bytes_ok (v_data s) -> bytes_ok d))
    (fun _ _ => False).
Proof.
  revert j s. induction n as [|n IH]; intros j s Hj Hn; cbn [eraseFrom].
  - wsteps. exists (v_data s). splits; [by destruct s|done| |done].
    intros i. destruct (_ && _) eqn:E; zbool; [lia|done].
  - wsteps. destruct (zlookup_Some (v_data s) j ltac:(lia)) as [x Hx]. eapply wp_gindex; [done|]. wsteps.
    eapply wp_mono; [apply IH; cbn; rewrite ?zlen_insert; lia| |done]. cbn.
    intros _ s' (d & -> & Hd & Hget & Hb). rewrite zlen_insert in Hd. exists d. splits; [done|done| |].
    + intros i. rewrite Hget, zget_insert by lia.
      zcases; subst; try done; lia.
    + intros Hok. apply Hb. by apply bytes_ok_insert.
Qed.

(** The block of a position lies in the store. *)
Lemma block_in_store s pos :
  flash_ok s -> 0 <= pos < zlen (v_data s) ->
  0 <= Z.ldiff pos (uefiFlashBlockSize - 1) /\
  Z.ldiff pos (uefiFlashBlockSize - 1) + uefiFlashBlockSize <= zlen (v_data s) /\
  Z.ldiff pos (uefiFlashBlockSize - 1) = pos / uefiFlashBlockSize * uefiFlashBlockSize.
Proof.
  intros Hok Hp. pose proof (fo_blocks s Hok) as Hb. unfold uefiFlashBlockSize in *.
  change (4096 - 1) with (2 ^ 12 - 1). rewrite ldiff_low by lia. change (2 ^ 12) with 4096.
  pose proof (Z.div_mod (zlen (v_data s)) 4096). pose proof (Z.div_mod pos 4096). pose proof (Z.mod_pos_bound pos 4096).
  assert (0 <= pos / 4096) by (apply Z.div_pos; lia).
  assert (pos / 4096 < zlen (v_data s) / 4096) by (apply Z.div_lt_upper_bound; lia). lia.
Qed.

(** A dirty chip promises nothing about the file but its size. *)
Lemma chip_step_dirty s d st cmd :
  flash_ok s -> zlen d = zlen (v_data s) -> bytes_ok d ->
  chip_step s (s <| v_data := d |> <| v_dirty := true |> <| v_status := st |> <| v_command := cmd |>).
Proof. intros [] Hd Hb. split; [|done]. constructor; cbn; rewrite ?Hd; done. Qed.

Lemma chip_step_regs s st cmd : flash_ok s -> chip_step s (s <| v_status := st |> <| v_command := cmd |>).
Proof. intros []. split; [|done]. by constructor. Qed.

Lemma chip_step_cmd s cmd : flash_ok s -> chip_step s (s <| v_command := cmd |>).
Proof. intros []. split; [|done]. by constructor. Qed.

Lemma bytes_ok_and d s pos value :
  bytes_ok (v_data s) -> is_u8 value -> zlookup (v_data s) pos = Some d ->
  bytes_ok (zinsert pos (d &&& value) (v_data s)).
Proof.
  intros Hb Hv Hx. apply bytes_ok_insert; [done|]. pose proof (zlookup_range _ _ _ Hx).
  rewrite zlookup_zget in Hx by lia. injection Hx as <-. pose proof (bytes_ok_zget (v_data s) pos Hb).
  unfold is_u8 in *. apply land_range; lia.
Qed.

Lemma wp_flashCommand value s : flash_ok s -> wp (flashCommand value) s (fun _ => chip_step s) (fun _ => chip_step s).
Proof.
  intros Hok. unfold flashCommand. destruct (value =? 0xff).
  { wsteps. pose proof (chip_step_cmd s 0 Hok) as H1. wcall (wp_syncLocked _ (proj1 H1)).
    - cbn. intros _ s' [H2 _]. exact (chip_step_trans _ _ _ H1 H2).
    - cbn. intros _ s' H2. exact (chip_step_trans _ _ _ H1 H2). }
  destruct (value =? 0x50); [wsteps; by apply chip_step_regs|].
  destruct (_ || _); wsteps; [by apply chip_step_cmd|by apply chip_step_regs].
Qed.

Lemma wp_flashWriteByte pos value s :
  flash_ok s -> 0 <= pos < zlen (v_data s) -> is_u8 value ->
  wp (flashWriteByte pos value) s (fun _ => chip_step s) (fun _ => chip_step s).
Proof.
  intros Hok Hp Hv. unfold flashWriteByte. wsteps. destruct (_ || _).
  { wsteps. destruct (zlookup_Some (v_data s) pos ltac:(lia)) as [x Hx]. eapply wp_gindex; [done|]. wsteps.
    apply chip_step_dirty; [done|apply zlen_insert|]. apply bytes_ok_and; [apply Hok|done|done]. }
  destruct (v_command s =? 0x20); [|by apply wp_flashCommand].
  destruct (value =? 0xd0); wsteps; [|by apply chip_step_regs].
  destruct (block_in_store s pos Hok Hp) as (H1 & H2 & _).
  eapply wp_mono; [apply wp_eraseFrom; [done|by rewrite Z2Nat.id by done]| |done].
  cbn. intros _ s' (d & -> & Hd & _ & Hb). wsteps. apply chip_step_dirty; [done|done|]. apply Hb, Hok.
Qed.

Lemma wp_flashWrite data pos s :
  flash_ok s -> 0 <= pos -> pos + zlen data <= zlen (v_data s) -> bytes_ok data ->
  wp (flashWrite pos data) s (fun _ => chip_step s) (fun _ => chip_step s).
Proof.
  revert pos s. induction data as [|v data IH]; intros pos s Hok Hp Hn Hb; cbn [flashWrite].
  { wsteps. by apply chip_step_refl. }
  rewrite zlen_cons in Hn. pose proof (zlen_nonneg data). apply list.Forall_cons in Hb as [Hv Hb].
  wsteps. wcall (wp_flashWriteByte pos v s Hok ltac:(lia) Hv); [|done].
  cbn. intros _ s1 H1. destruct (H1) as [Hok1 (Hl1 & _)].
  wcall (IH (pos + 1) s1 Hok1 ltac:(lia) ltac:(lia) Hb); cbn; intros; by eapply chip_step_trans.
Qed.

Lemma wp_flashRead n pos s :
  0 <= pos -> pos + Z.of_nat n <= zlen (v_data s) ->
  wp (flashRead pos n) s
    (fun got s' => s' = s /\ length got = n /\
       (v_command s <> 0x70 -> v_command s <> 0x90 -> got = zslice (v_data s) pos (Z.of_nat n)))
    (fun _ _ => False).
Proof.
  revert pos. induction n as [|n IH]; intros pos Hp Hn; cbn [flashRead].
  { wsteps. splits; [done|done|]. intros. unfold zslice. by rewrite take_0. }
  wsteps. unfold flashReadByte. destruct (zlookup_Some (v_data s) pos ltac:(lia)) as [x Hx].
  eapply wp_mono with (Q := fun b s' => s' = s /\ (v_command s <> 0x70 -> v_command s <> 0x90 -> b = x)) (E := fun _ _ => False);
    [|cbn|done].
  { destruct (v_command s =? 0x70) eqn:?; zbool; [by wsteps|].
    destruct (v_command s =? 0x90) eqn:?; zbool; [by wsteps|]. by eapply wp_gindex. }
  intros b s' [-> Hb]. wsteps. wcall (IH (pos + 1) ltac:(lia) ltac:(lia)); [|done].
  cbn. intros rest s' (-> & Hl & Hr). wsteps. splits; [done|by rewrite <- Hl|]. intros H1 H2.
  rewrite (Hb H1 H2), (Hr H1 H2). replace (Z.of_nat (S n)) with (1 + Z.of_nat n) by lia. by rewrite (zslice_cons _ _ x) by (done || lia).
Qed.

Lemma wp_access addr data write s :
  flash_ok s -> bytes_ok data ->
  wp (access addr data write) s (fun _ => chip_step s) (fun _ => chip_step s).
Proof.
  intros Hok Hb. unfold access. wsteps. destruct (_ || _) eqn:E; [wsteps; by apply chip_step_refl|]. zbool.
  wsteps; [by apply chip_step_refl..|]. zbool. destruct write; cbn [negb]; wsteps.
  - wcall (wp_flashWrite data (addr - v_base s) s Hok ltac:(lia) ltac:(lia) Hb); [|done]. cbn. intros _ s' Hstep. by wsteps.
  - wcall (wp_flashRead (length data) (addr - v_base s) s ltac:(lia)); [unfold zlen in *; lia| |done].
    cbn. intros got s' (-> & _). wsteps. by apply chip_step_refl.
Qed.

(** A store that closes without an error is saved. *)
Lemma wp_flashClose s :
  flash_ok s ->
  wp flashClose s
    (fun _ s' => flash_ok s' /\ v_data s' = v_data s /\ (v_closed s = false -> f_data (v_file s') = v_data s))
    (fun _ s' => flash_ok s').
Proof.
  intros Hok. unfold flashClose. wsteps. destruct (v_closed s) eqn:Hc; [by wsteps|]. wsteps.
  assert (Hok1 : flash_ok (s <| v_closed := true |>)) by (destruct Hok; by constructor).
  wcall (wp_syncLocked _ Hok1).
  - cbn. intros _ s' ((Hok' & _) & Hd & Hdata & _). destruct (v_closeErr s); cbn; wsteps; [done|].
    splits; [done|done|]. intros _. rewrite <- Hdata. by apply Hok'.
  - cbn. intros e s' [Hok' _]. destruct (v_closeErr s); cbn; by wsteps.
Qed.

Lemma openUEFIVars_ok f same reg locked ce s :
  openUEFIVars f same reg locked ce = Ok s -> bytes_ok (f_data f) ->
  flash_ok s /\ v_data s = f_data f /\ v_closed s = false.
Proof.
  unfold openUEFIVars. destruct (f_stat f) as [[size| | |] f1] eqn:Hs; try done.
  destruct (f_stat_effect _ _ _ Hs) as [Hd [[= ->]|?]]; [|done].
  destruct (_ || _) eqn:E; [done|]. destruct locked; [done|].
  destruct (f_readAt f1 _ 0) as [[[data n] [e|]] f2] eqn:Hr; [done|].
  destruct (bool_decide _); [|done]. intros [= <-] Hb.
  pose proof (f_readAt_data _ _ _ _ _ _ _ Hr) as Hd2. destruct (f_readAt_None _ _ _ _ _ _ Hr) as (_ & _ & Hdat & _).
  rewrite zlen_zeros in Hdat. pose proof (zlen_nonneg (f_data f)).
  assert (Hfull : data = f_data f).
  { rewrite Hdat, Hd. apply zslice_all. unfold f_size in *. lia. }
  clear Hdat. subst data. splits; [|done|done].
  apply orb_false_iff in E as [_ Hm%negb_false_iff%Z.eqb_eq]. unfold f_size in Hm.
  constructor; cbn; [done|done|congruence|congruence].
Qed.

(** ** The store over a run *)

Inductive flash_step : uefiFlash -> uefiFlash -> Prop :=
| Step_place codeSize s : flash_step s (snd (placeUEFI codeSize s))
| Step_access addr data write s : bytes_ok data -> flash_step s (snd (access addr data write s))
| Step_close s : flash_step s (snd (flashClose s)).

Lemma wp_placeUEFI codeSize s : flash_ok s -> wp (placeUEFI codeSize) s (fun _ => flash_ok) (fun _ => flash_ok).
Proof.
  intros Hok. unfold placeUEFI. wsteps. destruct (_ || _); wsteps; [|destruct Hok; by constructor].
  wcall (wp_flashClose s Hok); cbn; intros; wsteps; tauto.
Qed.

Lemma wp_state {S A} (m : M S A) s (P : S -> Prop) :
  wp m s (fun _ => P) (fun _ => P) -> returns (fst (m s)) /\ P (snd (m s)).
Proof. unfold wp. destruct (m s) as [[] ?]; cbn; tauto. Qed.

Lemma flash_step_ok s s' : flash_ok s -> flash_step s s' -> flash_ok s'.
Proof.
  intros Hok Hst. inversion Hst; subst; apply wp_state.
  - by apply wp_placeUEFI.
  - eapply wp_mono; [by apply wp_access|by intros _ ? []..].
  - eapply wp_mono; [by apply wp_flashClose|by intros ? ? []|done].
Qed.

(** C14: from an opened variable store, whatever the guest writes, whenever the
    host fails a write of the file, and however often the store is closed, no
    access panics; the file keeps its size, and it holds exactly what the chip
    shows whenever the chip has no unsaved change, in particular after a close
    that reports no error. *)
Theorem flash_store_consistent f same reg locked ce s0 s :
  openUEFIVars f same reg locked ce = Ok s0 -> bytes_ok (f_data f) -> rtc flash_step s0 s ->
  (forall addr data write, bytes_ok data -> returns (fst (access addr data write s))) /\
  (v_dirty s = false -> f_data (v_file s) = v_data s) /\
  zlen (f_data (v_file s)) = zlen (v_data s) /\
  wp flashClose s (fun _ s' => v_closed s = false -> f_data (v_file s') = v_data s) (fun _ _ => True).
Proof.
  intros Ho Hb Hr. destruct (openUEFIVars_ok _ _ _ _ _ _ Ho Hb) as [Hok _].
  assert (Hs : flash_ok s) by (clear Ho; induction Hr; eauto using flash_step_ok).
  splits; [|apply Hs..|].
  - intros addr data write Hd. by eapply wp_run, wp_access.
  - wcall (wp_flashClose s Hs); cbn; tauto.
Qed.

(** ** Updating a byte *)

(** The accesses of a driver that replaces a byte: erase its block, program the
    byte, return to reading, and read it. *)
Definition updateByte (addr v : Z) : M uefiFlash (bool * list Z) :=
  do! access addr [0x20] true in
  do! access addr [0xd0] true in
  do! access addr [0x40] true in
  do! access addr [v] true in
  do! access addr [0xff] true in
  access addr [0] false.

Lemma wp_sync_fault_free s :
  flash_ok s -> fault_free (v_file s) ->
  wp syncLocked s
    (fun _ s' => flash_ok s' /\ v_dirty s' = false /\ v_data s' = v_data s /\ v_command s' = v_command s /\
                 v_base s' = v_base s /\ v_closed s' = v_closed s)
    (fun _ _ => False).
Proof.
  intros Hok Hf. pose proof (wp_syncLocked s Hok) as H. unfold wp in *.
  destruct (syncLocked s) as [[a|e| |] s'] eqn:E; [|exfalso|done|done].
  { destruct H as ((? & ? & ? & ?) & ? & ? & ?). by splits. }
  clear H. revert E. unfold syncLocked. destruct (negb _); [done|].
  rewrite f_writeAt_ok by (lia || auto with go). unfold f_sync. by rewrite fault_free_next by auto with go.
Qed.

(** One byte written at an address of the store. *)
Lemma wp_access_write1 off v s Q E :
  0 <= off < zlen (v_data s) -> v_closed s = false ->
  wp (flashWriteByte off v) s (fun _ => Q) E ->
  wp (access (v_base s + off) [v] true) s (fun _ => Q) E.
Proof.
  intros Ho Hc H. unfold access. wsteps. replace (v_base s + off - v_base s) with off by lia.
  destruct (_ || _) eqn:E1; [apply orb_true_iff in E1 as [E1|E1]; zbool; lia|].
  rewrite Hc. destruct (_ <? zlen [v]) eqn:E2; [change (zlen [v]) with 1 in E2; zbool; lia|].
  cbn [negb flashWrite]. wsteps. eapply wp_mono; [exact H| |done]. cbn. intros _ s' HQ. by wsteps.
Qed.

Lemma wp_access_read1 off s (Q : bool * list Z -> uefiFlash -> Prop) E :
  0 <= off < zlen (v_data s) -> v_closed s = false -> v_command s = 0 ->
  Q (true, [zget (v_data s) off]) s ->
  wp (access (v_base s + off) [0] false) s Q E.
Proof.
  intros Ho Hc Hcmd HQ. unfold access. wsteps. replace (v_base s + off - v_base s) with off by lia.
  destruct (_ || _) eqn:E1; [apply orb_true_iff in E1 as [E1|E1]; zbool; lia|].
  rewrite Hc. destruct (_ <? zlen [0]) eqn:E2; [change (zlen [0]) with 1 in E2; zbool; lia|].
  cbn [negb length flashRead]. wsteps. unfold flashReadByte. rewrite Hcmd. cbn [Z.eqb].
  eapply wp_gindex; [by apply zlookup_zget|]. by wsteps.
Qed.

Lemma land_ff v : is_u8 v -> 0xff &&& v = v.
Proof. unfold is_u8. intros. rewrite Z.land_comm. change 0xff with (2 ^ 8 - 1). rewrite land_mask_mod by lia. by apply Z.mod_small. Qed.

(** A chip that is not in the middle of an operation. *)
Definition idle (s : uefiFlash) : Prop := v_command s = 0 \/ v_command s = 0x70.

Lemma wp_opcode pos c s (Q : uefiFlash -> Prop) E :
  idle s -> c = 0x20 \/ c = 0x40 -> Q (s <| v_command := c |>) -> wp (flashWriteByte pos c) s (fun _ => Q) E.
Proof. intros Hi Hc HQ. unfold wp, flashWriteByte, gbind, gget. by destruct Hi as [-> | ->], Hc as [-> | ->]. Qed.

(** The state of the chip after an erase or program operation that leaves the
    bytes [d]. *)
Definition after_op (d : list Z) (s : uefiFlash) : uefiFlash :=
  s <| v_data := d |> <| v_dirty := true |> <| v_status := 0x80 |> <| v_command := 0x70 |>.

Lemma wp_erase pos s :
  flash_ok s -> 0 <= pos < zlen (v_data s) -> v_command s = 0x20 ->
  wp (flashWriteByte pos 0xd0) s
    (fun _ s' => exists d, s' = after_op d s /\ flash_ok s' /\ zlen d = zlen (v_data s) /\
       (forall i, zget d i = if i / uefiFlashBlockSize =? pos / uefiFlashBlockSize then 0xff else zget (v_data s) i))
    (fun _ _ => False).
Proof.
  intros Hok Hp Hcmd. unfold flashWriteByte. wsteps. rewrite Hcmd. cbn [Z.eqb orb Pos.eqb]. wsteps.
  destruct (block_in_store s pos Hok Hp) as (H1 & H2 & H3).
  eapply wp_mono; [apply wp_eraseFrom; [done|by rewrite Z2Nat.id by done]| |done].
  cbn. intros _ s' (d & -> & Hd & Hget & Hb). wsteps. exists d. splits; [done|by apply chip_step_dirty, Hb, Hok|done|].
  intros i. rewrite Hget, H3, Z2Nat.id by done. unfold uefiFlashBlockSize in *.
  pose proof (Z.div_mod i 4096). pose proof (Z.mod_pos_bound i 4096). zcases; try done; lia.
Qed.

Lemma wp_program pos v s :
  flash_ok s -> 0 <= pos < zlen (v_data s) -> is_u8 v -> v_command s = 0x40 ->
  wp (flashWriteByte pos v) s
    (fun _ s' => s' = after_op (zinsert pos (zget (v_data s) pos &&& v) (v_data s)) s /\ flash_ok s') (fun _ _ => False).
Proof.
  intros Hok Hp Hv Hcmd. unfold flashWriteByte. wsteps. rewrite Hcmd. cbn [Z.eqb orb Pos.eqb]. wsteps.
  eapply wp_gindex; [by apply zlookup_zget|]. wsteps. split; [done|].
  apply chip_step_dirty; [done|apply zlen_insert|]. apply bytes_ok_and; [apply Hok|done|by apply zlookup_zget].
Qed.

Lemma wp_readArray pos s :
  flash_ok s -> idle s -> fault_free (v_file s) ->
  wp (flashWriteByte pos 0xff) s
    (fun _ s' => f_data (v_file s') = v_data s' /\ v_data s' = v_data s /\ v_command s' = 0 /\
                 v_base s' = v_base s /\ v_closed s' = v_closed s) (fun _ _ => False).
Proof.
  intros Hok Hi Hf. unfold flashWriteByte. wsteps.
  assert (Hc : flashCommand 0xff = (do! gupd (fun s => s <| v_command := 0 |>) in syncLocked)) by done.
  destruct Hi as [-> | ->]; cbn [Z.eqb orb Pos.eqb]; rewrite Hc; wsteps;
    (wcall wp_sync_fault_free; [by apply chip_step_cmd|done| |done]);
    cbn; intros _ s' (Hok' & Hd & Hdata & Hcmd & Hb & Hcl); splits; try done; by apply Hok'.
Qed.

(** Erasing a block and programming a byte replaces the byte, sets the
    others of its block to 0xff, leaves every other byte as it was, reads back
    as the new value, and has reached the file when the chip returns to
    reading. *)
Theorem flash_update_persists s off v :
  flash_ok s -> v_closed s = false -> v_command s = 0 -> fault_free (v_file s) ->
  0 <= off < zlen (v_data s) -> is_u8 v ->
  wp (updateByte (v_base s + off) v) s
    (fun r s' => r = (true, [v]) /\ f_data (v_file s') = v_data s' /\
       (forall i, zget (v_data s') i =
          if i =? off then v
          else if i / uefiFlashBlockSize =? off / uefiFlashBlockSize then 0xff else zget (v_data s) i))
    (fun _ _ => False).
Proof.
  intros Hok Hc Hcmd Hf Ho Hv. unfold updateByte.
  wsteps. apply wp_access_write1; [done..|]. apply wp_opcode; [by left|by left|].
  set (s1 := s <| v_command := 0x20 |>). assert (Hok1 : flash_ok s1) by by apply chip_step_cmd.
  wsteps. apply (wp_access_write1 off 0xd0 s1); [done..|]. wcall (wp_erase off s1 Hok1 Ho); [done| |done].
  intros _ s2 (d & -> & Hok2 & Hd & Hget). set (s2 := after_op d s1) in *.
  assert (Ho2 : 0 <= off < zlen (v_data s2)) by (cbn; rewrite Hd; done).
  wsteps. apply (wp_access_write1 off 0x40 s2); [done..|]. apply wp_opcode; [by right|by right|].
  set (s3 := s2 <| v_command := 0x40 |>). assert (Hok3 : flash_ok s3) by by apply chip_step_cmd.
  wsteps. apply (wp_access_write1 off v s3); [done..|]. wcall (wp_program off v s3 Hok3 Ho2 Hv); [done| |done].
  intros _ s4 [-> Hok4]. set (s4 := after_op _ s3) in *.
  assert (Ho4 : 0 <= off < zlen (v_data s4)) by (cbn; rewrite zlen_insert; done).
  wsteps. apply (wp_access_write1 off 0xff s4); [done..|]. wcall (wp_readArray off s4 Hok4); [by right|done| |done].
  intros _ s5 (Hfile & Hdata & Hcmd5 & Hb & Hcl).
  change (v_base s) with (v_base s4). rewrite <- Hb. apply wp_access_read1; [by rewrite Hdata|by rewrite Hcl|done|].
  assert (Hz : forall i, zget (v_data s5) i = if i =? off then v
     else if i / uefiFlashBlockSize =? off / uefiFlashBlockSize then 0xff else zget (v_data s) i).
  { intros i. rewrite Hdata. change (v_data s4) with (zinsert off (zget d off &&& v) d).
    rewrite zget_insert, Hget, Z.eqb_refl by done. rewrite land_ff by done. by rewrite Hget. }
  splits; [|done|done]. by rewrite Hz, Z.eqb_refl.
Qed.

(** A store of one block with a firmware-volume header. *)
Definition sampleVars : osFile := mkFile (zwrite (zeros 4096) 40 [0x5f; 0x46; 0x56; 0x48]) [].

Definition sampleStore : uefiFlash := mkFlash sampleVars (f_data sampleVars) 0xffc00000 0 0x80 false false None.

Lemma sampleVars_bytes : bytes_ok (f_data sampleVars).
Proof. apply bytes_okb_ok. vm_compute. reflexivity. Qed.

Lemma sampleStore_ok : flash_ok sampleStore.
Proof. constructor; [vm_compute; reflexivity|exact sampleVars_bytes|exact eq_refl|exact (fun _ => eq_refl)]. Qed.

Lemma sampleStore_len : zlen (v_data sampleStore) = 4096.
Proof. vm_compute. reflexivity. Qed.

Lemma flash_update_persists_witness :
  wp (updateByte (0xffc00000 + 100) 0x5a) sampleStore
    (fun r s' => r = (true, [0x5a]) /\ f_data (v_file s') = v_data s' /\
       (forall i, zget (v_data s') i =
          if i =? 100 then 0x5a
          else if i / uefiFlashBlockSize =? 100 / uefiFlashBlockSize then 0xff else zget (v_data sampleStore) i))
    (fun _ _ => False).
Proof.
  apply (flash_update_persists sampleStore 100 0x5a);
    [exact sampleStore_ok|exact eq_refl|exact eq_refl|exact (list.Forall_nil_2 _)|rewrite sampleStore_len; lia|unfold is_u8; lia].
Defined.

Definition openedSample : uefiFlash := sampleStore <| v_base := 0 |>.

(** The sample after a program command, before it is saved. *)
Definition programmedSample : uefiFlash := snd (access 100 [0x40; 0x5a] true openedSample).

Lemma flash_store_consistent_witness :
  v_dirty programmedSample = true /\
  zlen (f_data (v_file programmedSample)) = zlen (v_data programmedSample).
Proof.
  split; [vm_compute; reflexivity|].
  refine (proj1 (proj2 (proj2 (flash_store_consistent sampleVars false true None None openedSample programmedSample _ _ _)))).
  - vm_compute. reflexivity.
  - exact sampleVars_bytes.
  - apply rtc_once. exact (Step_access 100 [0x40; 0x5a] true openedSample (bytes_okb_ok [0x40; 0x5a] eq_refl)).
Defined.
