(* ===== verification/UefiPower.v ===== *)
(** The ACPI power-management registers of UEFI guests
    (src/internal/machine/uefi_power.go): power button, system control
    interrupt (SCI) and soft-off.

    The SCI drives a shared interrupt line (SharedIrq.v), which other devices
    drive too and whose updates can fail. *)

From S2P Require Import Prelude Bytes GuestMem VirtioModern VirtioModernSpec SharedIrq IoDevices UefiFlash.

Definition ErrShutdownUnsupported : error := EMsg "graceful shutdown requires UEFI ACPI power management".
Definition ErrMachineStopped : error := EMsg "machine stopped".

(** [p_irq] is the source of the line that [sharedIRQSource] returned, if any;
    [p_stops] counts the calls of [stop], which answer [p_stopErr]. *)
Record uefiPower : Type := mkPower {
  p_status : Z;
  p_enable : Z;
  p_control : Z;
  p_irq : option Z;
  p_sciHigh : bool;
  p_sciPending : bool;
  p_line : sharedIRQLine;
  p_stops : Z;
  p_stopErr : option error
}.
#[export] Instance uefiPower_eta : Settable uefiPower := fun r =>
  mkPower (p_status r) (p_enable r) (p_control r) (p_irq r) (p_sciHigh r) (p_sciPending r) (p_line r) (p_stops r) (p_stopErr r).

(** A call on the line. *)
Definition onLine {A} (m : M sharedIRQLine A) : M uefiPower A := fun p =>
  let '(r, l) := m (p_line p) in (r, p <| p_line := l |>).

Definition sciCondition (p : uefiPower) : bool :=
  has_bits (p_control p) 1 && has_bits (p_status p &&& p_enable p) (1 ≪ 8).

Definition updateSCILocked : M uefiPower unit :=
  let! p := gget in
  let high := sciCondition p in
  match p_irq p with
  | None => ret tt
  | Some i =>
      if Bool.eqb high (p_sciHigh p) && negb (p_sciPending p) then ret tt
      else
        let! r := gtry (onLine (callSource i high)) in
        match r with
        | inr e =>
            do! gupd (fun p => p <| p_sciPending := true |>) in
            throw (EWrap "ACPI SCI level" e)
        | inl _ => gupd (fun p => p <| p_sciHigh := high |> <| p_sciPending := false |>)
        end
  end.

(** [Read]; [elapsed] is what the timer measured. *)
Definition powerRead (elapsed port : Z) (data : list Z) : M uefiPower (list Z) :=
  let! p := gget in
  if (port =? 0xb008) && (zlen data =? 4) then
    match pmTimerRead elapsed (zeros 4) with
    | Ok d => ret d
    | Err e => throw e
    | _ => panic
    end
  else
    let registers := le_bytes 2 (p_status p) ++ le_bytes 2 (p_enable p) ++ le_bytes 2 (p_control p) in
    ret (imap (fun i _ =>
           let addr := u64 (port + Z.of_nat i) in
           if (0xb000 <=? addr) && (addr <? 0xb006) then zget registers (addr - 0xb000) else 0) data).

Definition shl16 (b shift : Z) : Z := u16 (b ≪ shift).

(** One byte of a write. *)
Definition powerByte (addr b : Z) (p : uefiPower) : uefiPower :=
  if (0xb000 <=? addr) && (addr <? 0xb002) then
    p <| p_status := Z.ldiff (p_status p) (shl16 b (8 * (addr - 0xb000))) |>
  else if (0xb002 <=? addr) && (addr <? 0xb004) then
    let shift := 8 * (addr - 0xb002) in
    p <| p_enable := Z.ldiff (p_enable p) (shl16 0xff shift) ||| shl16 b shift |>
  else if (0xb004 <=? addr) && (addr <? 0xb006) then
    let shift := 8 * (addr - 0xb004) in
    p <| p_control := Z.ldiff (p_control p) (shl16 0xff shift) ||| shl16 b shift |>
  else p.

Fixpoint powerBytes (port : Z) (i : Z) (data : list Z) (p : uefiPower) : uefiPower :=
  match data with
  | [] => p
  | b :: rest => powerBytes port (i + 1) rest (powerByte (u64 (port + i)) b p)
  end.

(** The call of [stop]. *)
Definition callStop : M uefiPower unit :=
  let! p := gget in
  do! gupd (fun p => p <| p_stops := p_stops p + 1 |>) in
  match p_stopErr p with Some e => throw e | None => ret tt end.

Definition errOf {A} (r : A + error) : option error := match r with inl _ => None | inr e => Some e end.
Definition throwOpt (e : option error) : M uefiPower unit := match e with Some e => throw e | None => ret tt end.

Definition powerWrite (port : Z) (data : list Z) : M uefiPower unit :=
  do! gupd (powerBytes port 0 data) in
  let! p := gget in
  let shutdown := has_bits (p_control p) (1 ≪ 13) && ((p_control p ≫ 10) &&& 7 =? 0) in
  do! gupd (fun p => p <| p_control := Z.ldiff (p_control p) (1 ≪ 13) |>) in
  let! irqErr := gtry updateSCILocked in
  if shutdown then
    let! stopErr := gtry callStop in
    throwOpt (join (errOf irqErr) (errOf stopErr))
  else throwOpt (errOf irqErr).

Definition smi (data : list Z) : M uefiPower unit :=
  do! (match data with
       | b :: _ =>
           if b =? 0xf1 then gupd (fun p => p <| p_control := p_control p ||| 1 |>)
           else if b =? 0xf0 then gupd (fun p => p <| p_control := Z.ldiff (p_control p) 1 |>)
           else ret tt
       | [] => ret tt
       end) in
  updateSCILocked.

Definition pressPowerButton : M uefiPower unit :=
  do! gupd (fun p => p <| p_status := p_status p ||| (1 ≪ 8) |>) in
  updateSCILocked.

(** [Machine.RequestShutdown], of a machine that has stopped or not, with the
    registers or without them. *)
Definition RequestShutdown (stopped : bool) : M (option uefiPower) unit := fun o =>
  if stopped then (Err ErrMachineStopped, o)
  else
    match o with
    | None => (Err ErrShutdownUnsupported, o)
    | Some p => let '(r, p) := pressPowerButton p in (r, Some p)
    end.

(** ** Invariant *)

(** The line remembers the SCI condition of the registers, also after a failed
    update, and [p_sciHigh] is current unless an update is pending. *)
Record power_ok (i : Z) (p : uefiPower) : Prop := {
  po_irq : p_irq p = Some i;
  po_line : line_wf (p_line p);
  po_request : zlookup (sl_sources (p_line p)) i = Some (sciCondition p);
  po_high : p_sciPending p = false -> p_sciHigh p = sciCondition p
}.

(** The wire of the interrupt controller is what the devices ask for. *)
Definition current (p : uefiPower) : Prop := sl_wire (p_line p) = anySource (p_line p).

(** States that differ in the registers only. *)
Definition same_sci (p p' : uefiPower) : Prop :=
  p_irq p' = p_irq p /\ p_sciHigh p' = p_sciHigh p /\ p_sciPending p' = p_sciPending p /\ p_line p' = p_line p.

Definition same_regs (p p' : uefiPower) : Prop :=
  p_status p' = p_status p /\ p_enable p' = p_enable p /\ p_control p' = p_control p /\ p_stops p' = p_stops p.

Lemma same_regs_condition p p' : same_regs p p' -> sciCondition p' = sciCondition p.
Proof. unfold sciCondition. by intros (-> & -> & -> & _). Qed.

Lemma zlookup_insert_same {A} (l : list A) i x : 0 <= i < zlen l -> zlookup (zinsert i x l) i = Some x.
Proof. intros. rewrite zlookup_insert by done. by rewrite Z.eqb_refl. Qed.

(** What [updateSCILocked] achieves after a change of the registers. *)
Lemma wp_updateSCI i p p1 :
  power_ok i p -> same_sci p p1 ->
  wp updateSCILocked p1
    (fun _ p' => power_ok i p' /\ same_regs p1 p' /\ (p_sciPending p = true \/ current p -> current p') /\ p_sciPending p' = false)
    (fun _ p' => power_ok i p' /\ same_regs p1 p' /\ p_sciPending p' = true).
Proof.
  intros [Hirq Hl Hr Hh] (E1 & E2 & E3 & E4). unfold updateSCILocked. wsteps. rewrite E1, Hirq.
  pose proof (zlookup_range _ _ _ Hr) as Hrange.
  destruct (Bool.eqb _ _ && _) eqn:Hq.
  { apply andb_true_iff in Hq as [Hq%eqb_prop Hp%negb_true_iff]. rewrite E3 in Hp.
    wsteps. splits; [|done|unfold current; rewrite E4; intros [?|?]; [congruence|done]|congruence].
    constructor; [congruence|by rewrite E4| |congruence]. rewrite E4, Hr, Hq, E2. by rewrite (Hh Hp). }
  wsteps. unfold wp, onLine. rewrite E4.
  destruct (callSource_spec i (sciCondition p1) (p_line p) Hl Hrange) as (r & l' & -> & Hl' & Hs & Hres & _).
  destruct Hres as [[-> Hw]|[-> Hw]]; cbn; splits; try done.
  - constructor; cbn; [congruence|done|rewrite Hs; by apply zlookup_insert_same|done].
  - constructor; cbn; [congruence|done|rewrite Hs; by apply zlookup_insert_same|done].
Qed.

(** ** Operations *)

(** The operations that change the state; [POther] is another device of the
    line. *)
Inductive power_op : Type :=
| PWrite (port : Z) (data : list Z)
| PSmi (data : list Z)
| PPress
| POther (j : Z) (level : bool).

Definition run_op (o : power_op) : M uefiPower unit :=
  match o with
  | PWrite port data => powerWrite port data
  | PSmi data => smi data
  | PPress => pressPowerButton
  | POther j level => onLine (callSource j level)
  end.

Definition op_ok (i : Z) (p : uefiPower) (o : power_op) : Prop :=
  match o with POther j _ => j <> i /\ 0 <= j < zlen (sl_sources (p_line p)) | _ => True end.

Lemma same_sci_powerBytes data port k p : same_sci p (powerBytes port k data p).
Proof.
  revert k p. induction data as [|b data IH]; intros k p; [done|]. cbn [powerBytes]. unfold same_sci.
  destruct (IH (k + 1) (powerByte (u64 (port + k)) b p)) as (-> & -> & -> & ->).
  unfold powerByte. by repeat case_match.
Qed.

Lemma power_ok_stops i p n : power_ok i p -> power_ok i (p <| p_stops := n |>).
Proof. intros []. by constructor. Qed.

(** What every operation ensures, from [p]. *)
Definition op_post (i : Z) (p : uefiPower) (p' : uefiPower) : Prop :=
  power_ok i p' /\ (p_sciPending p = true \/ current p -> current p').

Lemma wp_powerWrite i p port data :
  power_ok i p -> wp (powerWrite port data) p (fun _ => op_post i p) (fun _ => power_ok i).
Proof.
  intros Hok. unfold powerWrite. wsteps. cbv zeta.
  set (p1 := powerBytes port 0 data p). set (p2 := p1 <| p_control := _ |>).
  assert (H2 : same_sci p p2) by apply (same_sci_powerBytes data port 0 p).
  assert (Hstop : forall p' e, power_ok i p' -> (e = None -> op_post i p p') ->
    wp (let! stopErr := gtry callStop in throwOpt (join e (errOf stopErr))) p' (fun _ => op_post i p) (fun _ => power_ok i)).
  { intros p' e Hok' Hpost. unfold callStop. wsteps.
    destruct (p_stopErr p') as [se|]; wsteps; destruct e; cbn; wsteps; try by apply power_ok_stops.
    destruct (Hpost eq_refl) as [H3 H4]. split; [by apply power_ok_stops|exact H4]. }
  wcall (wp_updateSCI i p p2 Hok H2).
  - intros u p' (Hok' & _ & Hcur & _). destruct (_ && _); [apply Hstop; done|]. by wsteps.
  - intros e p' (Hok' & _). destruct (_ && _); [apply Hstop; done|]. by cbn; wsteps.
Qed.

Lemma wp_run_op i p o :
  power_ok i p -> op_ok i p o -> wp (run_op o) p (fun _ => op_post i p) (fun _ => power_ok i).
Proof.
  intros Hok Ho. destruct o as [port data|data| |j level]; cbn [run_op].
  - by apply wp_powerWrite.
  - unfold smi. apply wp_bind.
    apply wp_mono with (Q := fun _ p1 => same_sci p p1) (E := fun _ _ => False); [|cbn|done].
    { destruct data as [|b data]; [by wsteps|]. destruct (b =? _); [by wsteps|]. destruct (b =? _); by wsteps. }
    intros _ p1 H1. wcall (wp_updateSCI i p p1 Hok H1); cbn; [unfold op_post|]; tauto.
  - unfold pressPowerButton. wsteps. wcall (wp_updateSCI i p _ Hok); [done|cbn; unfold op_post; tauto|cbn; tauto].
  - destruct Ho as [Hj Hrange]. destruct Hok as [Hirq Hl Hr Hh].
    destruct (callSource_spec j level (p_line p) Hl Hrange) as (r & l' & Hc & Hl' & Hs & Hres & _).
    assert (Hok' : power_ok i (p <| p_line := l' |>)).
    { constructor; cbn; [done|done| |done]. rewrite Hs, zlookup_insert by done.
      destruct (i =? j) eqn:?; zbool; [congruence|done]. }
    unfold wp, onLine. rewrite Hc. destruct Hres as [[-> Hw]|[-> Hw]]; cbn; [|done]. split; [done|]. intros _. exact Hw.
Qed.

Inductive power_step (i : Z) : uefiPower -> uefiPower -> Prop :=
| Power_step o p : op_ok i p o -> power_step i p (snd (run_op o p)).

(** The registers as [uefiDevices] creates them, on a line. *)
Definition newPower (l : sharedIRQLine) (stopErr : option error) : uefiPower :=
  let '(i, l) := source l in mkPower 0 0 0 (Some i) false false l 0 stopErr.

Lemma newPower_ok l stopErr : line_wf l -> power_ok (zlen (sl_sources l)) (newPower l stopErr).
Proof.
  intros Hl. constructor; [done|by apply source_wf| |done]. cbn. unfold zlookup, zlen.
  destruct (_ <? 0) eqn:?; zbool; [lia|]. rewrite Nat2Z.id. by rewrite list_lookup_middle.
Qed.

(** C39: whatever the guest writes, whenever the power button is pressed, and
    whatever updates of the interrupt line fail, for this device or for another
    one: the line holds a request of the SCI exactly when SCI_EN, PWRBTN_EN and
    PWRBTN_STS are set; no operation panics; and an operation that reports no
    error, from a state with a pending update or a current line, leaves the line
    current, so an SCI that could not be raised is raised by the next
    successful operation. *)
Theorem sci_follows_registers l stopErr p o :
  line_wf l -> let i := zlen (sl_sources l) in
  rtc (power_step i) (newPower l stopErr) p -> op_ok i p o ->
  zlookup (sl_sources (p_line p)) i = Some (sciCondition p) /\
  wp (run_op o) p
    (fun _ p' => p_sciPending p = true \/ current p -> current p' /\ (sciCondition p' = true -> sl_wire (p_line p') = true))
    (fun _ _ => True).
Proof.
  intros Hl i Hr Ho.
  assert (Hok : power_ok i p).
  { pose proof (newPower_ok l stopErr Hl) as H0. fold i in H0. induction Hr as [|p1 p2 p3 Hs _ IH]; [done|]. apply IH; [done|].
    inversion Hs; subst. apply wp_state. eapply wp_mono; [by apply wp_run_op|by intros _ ? []|done]. }
  split; [apply Hok|]. wcall (wp_run_op i p o Hok Ho); [|done]. cbn. intros _ p' [Hok' Hc] Hpre.
  specialize (Hc Hpre). split; [done|]. intros Hcond. unfold current in Hc. rewrite Hc. unfold anySource.
  pose proof (po_request i p' Hok') as Hq. rewrite Hcond in Hq. unfold zlookup in Hq. destruct (i <? 0); [done|].
  apply existsb_exists. exists true. split; [|done]. apply list_elem_of_In. by eapply list_elem_of_lookup_2.
Qed.

Definition sampleLine : sharedIRQLine := newLine [true].

(** The button pressed with the SCI enabled, when the first update of the line
    fails: the next operation raises the line. *)
Definition pressedSample : uefiPower :=
  snd (run_op PPress (snd (run_op (PWrite 0xb003 [1; 1]) (newPower sampleLine None)))).

Lemma sci_follows_registers_witness :
  p_sciPending pressedSample = true /\ sl_wire (p_line pressedSample) = false /\
  wp (run_op (PSmi [])) pressedSample
    (fun _ p' => p_sciPending pressedSample = true \/ current pressedSample ->
                 current p' /\ (sciCondition p' = true -> sl_wire (p_line p') = true))
    (fun _ _ => True).
Proof.
  split; [reflexivity|]. split; [reflexivity|].
  apply (sci_follows_registers sampleLine None pressedSample (PSmi []) (newLine_wf _)); [|exact I].
  eapply rtc_l; [apply (Power_step _ (PWrite 0xb003 [1; 1])); exact I|].
  apply rtc_once. apply (Power_step _ PPress). exact I.
Defined.

(** ** The status register *)

(** A write of [data] at [port] has bit [k] set in the register whose first
    byte is at [base]. *)
Fixpoint writesBit (port i : Z) (data : list Z) (base k : Z) : bool :=
  match data with
  | [] => false
  | b :: rest => ((u64 (port + i) =? base + k / 8) && Z.testbit b (k mod 8)) || writesBit port (i + 1) rest base k
  end.

Lemma testbit_shl16 b n k :
  is_u8 b -> n = 0 \/ n = 1 -> 0 <= k < 16 -> Z.testbit (shl16 b (8 * n)) k = (k / 8 =? n) && Z.testbit b (k mod 8).
Proof.
  unfold is_u8. intros Hb Hn Hk. unfold shl16, u16. rewrite Z.mod_pow2_bits_low by lia. rewrite Z.shiftl_spec by lia.
  pose proof (Z.div_mod k 8). pose proof (Z.mod_pos_bound k 8).
  destruct (k / 8 =? n) eqn:E; zbool; cbn [andb].
  - by replace (k - 8 * n) with (k mod 8) by lia.
  - destruct (Z.lt_ge_cases k (8 * n)); [apply Z.testbit_neg_r; lia|]. apply (testbit_high b 8); lia.
Qed.

Lemma powerBytes_status data port i p k :
  bytes_ok data -> 0 <= k < 16 ->
  Z.testbit (p_status (powerBytes port i data p)) k = Z.testbit (p_status p) k && negb (writesBit port i data 0xb000 k).
Proof.
  intros Hb Hk. revert i p. induction Hb as [|b data Hx _ IH]; intros i p; cbn [powerBytes writesBit].
  { by rewrite andb_true_r. }
  rewrite IH, negb_orb, andb_assoc. f_equal. set (addr := u64 (port + i)). unfold powerByte.
  assert (k / 8 = 0 \/ k / 8 = 1) as Hd by (pose proof (Z.div_mod k 8); pose proof (Z.mod_pos_bound k 8); lia).
  destruct ((0xb000 <=? addr) && (addr <? 0xb002)) eqn:E.
  - zbool. cbn [p_status set_field]. rewrite Z.ldiff_spec. f_equal. f_equal.
    rewrite testbit_shl16 by (lia || done). f_equal. zcases; lia.
  - replace (addr =? 0xb000 + k / 8) with false by (symmetry; apply Z.eqb_neq; intros ->; apply andb_false_iff in E as [E|E]; zbool; lia).
    cbn [andb negb]. rewrite andb_true_r. by repeat case_match.
Qed.

Lemma updateSCI_regs p : same_regs p (snd (updateSCILocked p)).
Proof.
  unfold updateSCILocked, gbind, gget. destruct (p_irq p); [|done]. destruct (_ && _); [done|].
  unfold gtry, onLine. destruct (callSource _ _ _) as [[] l]; done.
Qed.

(** The status register is write-one-to-clear, byte by byte: after a guest
    write of any width at any port, a status bit is set exactly when it was set
    and the write did not carry a one in its place; so the power button stays
    pressed until the guest acknowledges it. *)
Theorem status_write_one_clears port data p k :
  bytes_ok data -> 0 <= k < 16 ->
  Z.testbit (p_status (snd (powerWrite port data p))) k =
    Z.testbit (p_status p) k && negb (writesBit port 0 data 0xb000 k).
Proof.
  intros Hb Hk. rewrite <- powerBytes_status by done. f_equal.
  unfold powerWrite. unfold gbind at 1, gupd at 1, gbind at 1, gget at 1. cbv zeta. unfold gbind at 1, gupd at 1.
  set (p1 := powerBytes port 0 data p). set (p2 := p1 <| p_control := _ |>).
  destruct (updateSCI_regs p2) as (Hs & _). change (p_status p1) with (p_status p2). rewrite <- Hs.
  unfold gbind at 1, gtry at 1. destruct (updateSCILocked p2) as [[] p3]; cbn [snd]; try done.
  all: destruct (_ && _); [|by repeat case_match].
  all: unfold callStop, gbind, gtry, gget, gupd, ret, throw, throwOpt, join, errOf; by destruct (p_stopErr p3).
Qed.

Lemma status_write_one_clears_witness :
  Z.testbit (p_status (snd (powerWrite 0xb001 [1] pressedSample))) 8 =
    Z.testbit (p_status pressedSample) 8 && negb (writesBit 0xb001 0 [1] 0xb000 8) /\
  Z.testbit (p_status pressedSample) 8 = true.
Proof.
  split; [|reflexivity]. apply (status_write_one_clears 0xb001 [1] pressedSample 8); [|lia].
  apply bytes_okb_ok. reflexivity.
Defined.
