(* ===== verification/FwCfg.v ===== *)
(** The firmware configuration device (src/internal/iodev/fw_cfg.go).

    Go iterates over its maps in no fixed order; the model takes the order of
    [map_to_list], which matters only for which of several errors is reported.
    File names are their bytes. *)

From stdpp Require Import gmap sorting.
From S2P Require Import Prelude Bytes IoDevices.

Definition FWCfgSignature : Z := 0x00.
Definition FWCfgID : Z := 0x01.
Definition FWCfgFileDir : Z := 0x19.
Definition FWCfgFileFirst : Z := 0x20.
Definition fwCfgSelectorPort : Z := 0x510.
Definition fwCfgDataPort : Z := 0x511.
Definition fwCfgWriteChannel : Z := 0x4000.
Definition fwCfgArchLocal : Z := 0x8000.
Definition fwCfgFileNameSize : Z := 56.
Definition fwCfgFileSize : Z := 64.
Definition maxUint32 : Z := 2 ^ 32 - 1.

Definition errFWCfg (what : string) : error := EWrap what (EMsg "fw_cfg").

Record FWCfg : Type := mkFWCfg {
  items : gmap Z (list Z);
  fw_selected : Z;
  fw_offset : Z
}.
#[export] Instance FWCfg_eta : Settable FWCfg := fun r => mkFWCfg (items r) (fw_selected r) (fw_offset r).

Definition printable (b : Z) : bool := negb ((b <? 0x20) || (0x7e <? b)).

Definition validateFWCfgFileName (name : list Z) : result unit :=
  if (zlen name =? 0) || (fwCfgFileNameSize <=? zlen name) then Err (errFWCfg "file name must contain 1 to 55 ASCII bytes")
  else if forallb printable name then Ok tt
  else Err (errFWCfg "file name contains a non-printable ASCII byte").

(** The loop over the entries of the caller. *)
Fixpoint addEntries (l : list (Z * list Z)) (m : gmap Z (list Z)) : result (gmap Z (list Z)) :=
  match l with
  | [] => Ok m
  | (selector, data) :: l =>
      if has_bits selector fwCfgWriteChannel then Err (errFWCfg "selector uses the unsupported write channel")
      else
        let reserved := (selector =? FWCfgSignature) || (selector =? FWCfgID) || (selector =? FWCfgFileDir) in
        let fileSelector := (FWCfgFileFirst <=? selector) && negb (has_bits selector fwCfgArchLocal) in
        if reserved || fileSelector then Err (errFWCfg "selector is reserved")
        else if maxUint32 <? zlen data then Err (errFWCfg "item exceeds the 32-bit size limit")
        else addEntries l (<[selector := data]> m)
  end.

(** The loop that validates the files. *)
Fixpoint validateFiles (l : list (list Z * list Z)) : result unit :=
  match l with
  | [] => Ok tt
  | (name, data) :: l =>
      match validateFWCfgFileName name with
      | Ok _ => if maxUint32 <? zlen data then Err (errFWCfg "file exceeds the 32-bit size limit") else validateFiles l
      | r => r
      end
  end.

(** The order of Go strings. *)
Fixpoint name_leb (a b : list Z) : bool :=
  match a, b with
  | [], _ => true
  | _, [] => false
  | x :: a, y :: b => (x <? y) || ((x =? y) && name_leb a b)
  end.

(** A directory entry: size, selector, two reserved bytes and the name padded
    with zeros. *)
Definition dirEntry (selector : Z) (name data : list Z) : list Z :=
  be_bytes 4 (u32 (zlen data)) ++ be_bytes 2 selector ++ [0; 0] ++ name ++ zeros (fwCfgFileNameSize - zlen name).

(** The loop over the sorted names: the directory entries and the items. *)
Fixpoint addFiles (files : gmap (list Z) (list Z)) (i : Z) (names : list (list Z)) (m : gmap Z (list Z)) :
    list Z * gmap Z (list Z) :=
  match names with
  | [] => ([], m)
  | name :: names =>
      let selector := u16 (FWCfgFileFirst + i) in
      let data := default [] (files !! name) in
      let '(dir, m) := addFiles files (i + 1) names (<[selector := data]> m) in
      (dirEntry selector name data ++ dir, m)
  end.

Definition name_le (a b : list Z) : Prop := name_leb a b = true.
#[export] Instance name_le_dec a b : Decision (name_le a b) := decide (name_leb a b = true).

Definition sortNames (names : list (list Z)) : list (list Z) := merge_sort name_le names.

Definition NewFWCfg (entries : gmap Z (list Z)) (files : gmap (list Z) (list Z)) : result FWCfg :=
  if fwCfgWriteChannel - FWCfgFileFirst <? Z.of_nat (size files) then Err (errFWCfg "too many files")
  else
    let m := <[FWCfgID := [1; 0; 0; 0]]> (<[FWCfgSignature := [0x51; 0x45; 0x4d; 0x55]]> ∅) in
    match addEntries (map_to_list entries) m with
    | Ok m =>
        match validateFiles (map_to_list files) with
        | Ok _ =>
            let names := sortNames (map fst (map_to_list files)) in
            let '(dir, m) := addFiles files 0 names m in
            Ok (mkFWCfg (<[FWCfgFileDir := be_bytes 4 (zlen names) ++ dir]> m) 0 0)
        | Err e => Err e
        | Panic => Panic
        | OutOfFuel => OutOfFuel
        end
    | Err e => Err e
    | Panic => Panic
    | OutOfFuel => OutOfFuel
    end.

Definition fwRead (port : Z) (data : list Z) : M FWCfg (list Z) :=
  if port =? fwCfgSelectorPort then
    if negb (zlen data =? 2) then throw errDataLenInvalid else ret [0; 0]
  else if negb (port =? fwCfgDataPort) then throw (errFWCfg "invalid read port")
  else if negb (zlen data =? 1) then throw errDataLenInvalid
  else
    let! f := gget in
    let item := default [] (items f !! fw_selected f) in
    if fw_offset f <? zlen item then
      do! gupd (fun f => f <| fw_offset := fw_offset f + 1 |>) in
      ret [zget item (fw_offset f)]
    else ret [0].

Definition fwWrite (port : Z) (data : list Z) : M FWCfg unit :=
  if port =? fwCfgDataPort then
    if negb (zlen data =? 1) then throw errDataLenInvalid else ret tt
  else if negb (port =? fwCfgSelectorPort) then throw (errFWCfg "invalid write port")
  else if negb (zlen data =? 2) then throw errDataLenInvalid
  else gupd (fun f => f <| fw_selected := Z.ldiff (le_uint16 data 0) fwCfgWriteChannel |> <| fw_offset := 0 |>).

(** ** What firmware finds *)

(** Select an item and read [n] bytes of it. *)
Fixpoint readBytes (n : nat) : M FWCfg (list Z) :=
  match n with
  | O => ret []
  | S n =>
      let! b := fwRead fwCfgDataPort [0] in
      let! rest := readBytes n in
      ret (b ++ rest)
  end.

Definition readItem (selector n : Z) : M FWCfg (list Z) :=
  do! fwWrite fwCfgSelectorPort (le_bytes 2 selector) in
  readBytes (Z.to_nat n).

Lemma fwRead_data f item :
  items f !! fw_selected f = Some item -> fw_offset f < zlen item ->
  fwRead fwCfgDataPort [0] f = (Ok [zget item (fw_offset f)], f <| fw_offset := fw_offset f + 1 |>).
Proof.
  intros Hi Ho. apply Z.ltb_lt in Ho.
  change (fwRead fwCfgDataPort [0] f) with
    ((if fw_offset f <? zlen (default [] (items f !! fw_selected f)) then
        do! gupd (fun f => f <| fw_offset := fw_offset f + 1 |>) in
        ret [zget (default [] (items f !! fw_selected f)) (fw_offset f)]
      else ret [0]) f).
  rewrite Hi. cbn [default from_option id]. by rewrite Ho.
Qed.

Lemma readBytes_spec n f item :
  items f !! fw_selected f = Some item -> 0 <= fw_offset f -> fw_offset f + Z.of_nat n <= zlen item ->
  fst (readBytes n f) = Ok (zslice item (fw_offset f) (Z.of_nat n)).
Proof.
  revert f. induction n as [|n IH]; intros f Hi Ho Hn; [unfold zslice; by rewrite take_0|].
  cbn [readBytes]. unfold gbind at 1. rewrite (fwRead_data f item) by (done || lia). unfold gbind.
  set (f1 := f <| fw_offset := fw_offset f + 1 |>). specialize (IH f1 Hi). cbn [fw_offset f1 set_field] in IH.
  specialize (IH ltac:(lia) ltac:(lia)). destruct (readBytes n f1) as [[] ?]; cbn [fst] in IH; try done.
  injection IH as ->. cbn [fst ret app]. replace (Z.of_nat (S n)) with (1 + Z.of_nat n) by lia.
  rewrite (zslice_cons item _ (zget item (fw_offset f))); [done|apply zlookup_zget; lia|lia].
Qed.

(** Reading an item returns it, whatever was selected before. *)
Lemma readItem_spec f selector item n :
  items f !! selector = Some item -> is_u16 selector -> has_bits selector fwCfgWriteChannel = false ->
  0 <= n <= zlen item ->
  fst (readItem selector n f) = Ok (zslice item 0 n).
Proof.
  intros Hi Hs Hw Hn. unfold readItem, gbind at 1, fwWrite, gupd.
  change (fwCfgSelectorPort =? fwCfgDataPort) with false. change (negb (fwCfgSelectorPort =? fwCfgSelectorPort)) with false.
  rewrite zlen_le_bytes. change (negb (Z.of_nat 2 =? 2)) with false. cbv iota.
  assert (Hsel : Z.ldiff (le_uint16 (le_bytes 2 selector) 0) fwCfgWriteChannel = selector).
  { unfold le_uint16. rewrite zslice_all by apply zlen_le_bytes. rewrite le_val_bytes, Z.mod_small by (unfold is_u16 in Hs; cbn; lia).
    apply Z.bits_inj'. intros k Hk. rewrite Z.ldiff_spec. destruct (Z.eq_dec k 14) as [->|Hne].
    - change fwCfgWriteChannel with (2 ^ 14) in Hw. rewrite has_bits_testbit in Hw by lia. by rewrite Hw.
    - change fwCfgWriteChannel with (2 ^ 14). rewrite Z.pow2_bits_false by lia. by rewrite andb_true_r. }
  rewrite Hsel. rewrite (readBytes_spec _ _ item); cbn; rewrite ?Z2Nat.id by lia; done || lia.
Qed.

Lemma zlen_dirEntry selector name data : zlen name < fwCfgFileNameSize -> zlen (dirEntry selector name data) = fwCfgFileSize.
Proof.
  unfold dirEntry, fwCfgFileNameSize, fwCfgFileSize. intros Hn. rewrite !zlen_app, !zlen_be_bytes, zlen_zeros.
  change (zlen [0; 0]) with 2. lia.
Qed.

(** What the loop over the names adds. *)
Record files_added (files : gmap (list Z) (list Z)) (i : Z) (names : list (list Z))
    (m : gmap Z (list Z)) (dir : list Z) (m' : gmap Z (list Z)) : Prop := {
  fa_len : zlen dir = fwCfgFileSize * zlen names;
  fa_entry : forall k name, zlookup names k = Some name ->
    zslice dir (fwCfgFileSize * k) fwCfgFileSize = dirEntry (FWCfgFileFirst + i + k) name (default [] (files !! name)) /\
    m' !! (FWCfgFileFirst + i + k) = Some (default [] (files !! name));
  fa_other : forall s, s < FWCfgFileFirst + i \/ FWCfgFileFirst + i + zlen names <= s -> m' !! s = m !! s
}.

Lemma zslice_app_r {A} (a b : list A) o n : zlen a <= o -> zslice (a ++ b) o n = zslice b (o - zlen a) n.
Proof.
  unfold zslice, zlen. intros. f_equal. rewrite drop_app_ge by lia. f_equal. lia.
Qed.

Lemma addFiles_spec files i names m dir m' :
  0 <= i -> i + zlen names <= fwCfgWriteChannel - FWCfgFileFirst -> Forall (fun n => zlen n < fwCfgFileNameSize) names ->
  addFiles files i names m = (dir, m') -> files_added files i names m dir m'.
Proof.
  intros Hi Hn Hnames. revert i m dir m' Hi Hn. induction Hnames as [|name names Hname _ IH]; intros i m dir m' Hi Hn.
  { intros [= <- <-]. constructor; [done|intros k ? Hk; apply zlookup_range in Hk; unfold zlen in Hk; cbn in Hk; lia|done]. }
  rewrite zlen_cons in Hn. pose proof (zlen_nonneg names). cbn [addFiles].
  assert (Hu : u16 (FWCfgFileFirst + i) = FWCfgFileFirst + i)
    by (apply u16_small; unfold FWCfgFileFirst, fwCfgWriteChannel in *; lia).
  rewrite Hu. set (data := default [] (files !! name)).
  destruct (addFiles _ _ _ _) as [dir0 m0] eqn:E.
  destruct (IH (i + 1) _ _ _ ltac:(lia) ltac:(lia) E) as [Hlen Hent Hoth].
  pose proof (zlen_dirEntry (FWCfgFileFirst + i) name data Hname) as Hde.
  remember (dirEntry (FWCfgFileFirst + i) name data) as de eqn:Hdef. intros [= <- <-].
  constructor.
  - rewrite zlen_app, zlen_cons, Hde, Hlen. lia.
  - intros k nm Hk. pose proof (zlookup_range _ _ _ Hk) as Hr. destruct (Z.eq_dec k 0) as [->|Hk0].
    + injection Hk as <-. rewrite Z.mul_0_r, Z.add_0_r, zslice_app_l by done. split; [done|].
      rewrite Hoth by lia. by rewrite lookup_insert_eq.
    + rewrite zlookup_cons in Hk. replace (k =? 0) with false in Hk by (symmetry; by apply Z.eqb_neq). destruct (Hent _ _ Hk) as [He Hm].
      replace (FWCfgFileFirst + i + k) with (FWCfgFileFirst + (i + 1) + (k - 1)) by lia. split; [|done].
      rewrite zslice_app_r by (rewrite Hde; unfold fwCfgFileSize; lia). rewrite Hde, <- He. f_equal. lia.
  - intros s Hs. rewrite zlen_cons in Hs. rewrite Hoth by lia. by rewrite lookup_insert_ne by lia.
Qed.

Lemma validateFiles_ok l name data :
  validateFiles l = Ok tt -> (name, data) ∈ l -> zlen name < fwCfgFileNameSize /\ zlen data <= maxUint32.
Proof.
  induction l as [|[n d] l IH]; [by intros _ ?%not_elem_of_nil|]. cbn [validateFiles].
  unfold validateFWCfgFileName. destruct (_ || _) eqn:E; [done|]. destruct (forallb _ _); [|done].
  destruct (_ <? zlen d) eqn:E2; [done|]. intros Hv [[= -> ->]|Hin]%elem_of_cons; [zbool; lia|auto].
Qed.

(** A guest that has used the device: only the position changed. *)
Definition same_items (f0 f : FWCfg) : Prop := items f = items f0.

(** The fields of a directory entry. *)
Lemma dirEntry_fields selector name data :
  zlen name < fwCfgFileNameSize -> zlen data <= maxUint32 -> is_u16 selector ->
  let e := dirEntry selector name data in
  be_val (zslice e 0 4) = zlen data /\ be_val (zslice e 4 2) = selector /\
  zslice e 8 fwCfgFileNameSize = name ++ zeros (fwCfgFileNameSize - zlen name).
Proof.
  unfold is_u16, maxUint32. intros Hn Hd Hs. cbv zeta. unfold dirEntry. pose proof (zlen_nonneg data).
  assert (H4 : zlen (be_bytes 4 (u32 (zlen data))) = 4) by apply zlen_be_bytes.
  assert (H2 : zlen (be_bytes 2 selector) = 2) by apply zlen_be_bytes. splits.
  - rewrite zslice_app_l by done. rewrite u32_small by lia. apply be_val_bytes. lia.
  - rewrite zslice_app_r, H4 by lia. rewrite zslice_app_l by done. apply be_val_bytes. lia.
  - rewrite zslice_app_r, H4 by lia. rewrite zslice_app_r, H2 by lia. rewrite zslice_app_r by (unfold zlen; cbn; lia).
    apply zslice_all. rewrite zlen_app, zlen_zeros. lia.
Qed.

(** What a successful construction holds. *)
Lemma NewFWCfg_items entries files f0 :
  NewFWCfg entries files = Ok f0 ->
  exists names m dir m', Permutation names (map fst (map_to_list files)) /\ files_added files 0 names m dir m' /\
    items f0 = <[FWCfgFileDir := be_bytes 4 (zlen names) ++ dir]> m' /\
    zlen names <= fwCfgWriteChannel - FWCfgFileFirst /\
    (forall name data, files !! name = Some data -> zlen name < fwCfgFileNameSize /\ zlen data <= maxUint32).
Proof.
  unfold NewFWCfg. destruct (_ <? Z.of_nat _) eqn:Hsz; [done|]. zbool.
  destruct (addEntries _ _) as [m| | |]; try done. destruct (validateFiles _) as [[]| | |] eqn:Hv; try done.
  set (names := sortNames _).
  assert (Hp : Permutation names (map fst (map_to_list files))) by apply merge_sort_Permutation.
  assert (Hvalid : forall name data, files !! name = Some data -> zlen name < fwCfgFileNameSize /\ zlen data <= maxUint32).
  { intros name data Hf. apply (validateFiles_ok _ _ _ Hv). by apply elem_of_map_to_list. }
  assert (Hlen : zlen names = Z.of_nat (size files)).
  { unfold zlen. by rewrite Hp, length_map, length_map_to_list. }
  destruct (addFiles files 0 names m) as [dir m'] eqn:Ha. intros [= <-]. exists names, m, dir, m'. splits; [done| |done|lia|done].
  apply (addFiles_spec files 0 names m dir m'); [lia|lia| |done].
  rewrite Hp. apply list.Forall_forall. intros name Hin. apply list_elem_of_fmap in Hin as ([n d] & -> & Hin%elem_of_map_to_list).
  by apply (Hvalid n d).
Qed.

(** C15: firmware finds every file of the configuration: the directory has their
    number, and for each file an entry with its name padded with zeros, its
    size, and a selector under which the device delivers exactly the contents of
    the file, whatever the firmware has selected and read before. *)
Theorem fw_cfg_files_found entries files f0 f name data :
  NewFWCfg entries files = Ok f0 -> same_items f0 f -> files !! name = Some data ->
  exists dir k, let e := 4 + fwCfgFileSize * k in
    0 <= k < Z.of_nat (size files) /\
    fst (readItem FWCfgFileDir (4 + fwCfgFileSize * Z.of_nat (size files)) f) = Ok dir /\
    be_uint32 dir 0 = Z.of_nat (size files) /\
    be_uint32 dir e = zlen data /\
    zslice dir (e + 8) fwCfgFileNameSize = name ++ zeros (fwCfgFileNameSize - zlen name) /\
    fst (readItem (be_uint16 dir (e + 4)) (zlen data) f) = Ok data.
Proof.
  intros Hnew Hsame Hf. destruct (NewFWCfg_items _ _ _ Hnew) as (names & m & dir & m' & Hp & [Hlen Hent Hoth] & Hit & Hmax & Hvalid).
  destruct (Hvalid _ _ Hf) as [Hname Hdata].
  assert (Hn : Z.of_nat (size files) = zlen names).
  { unfold zlen. by rewrite Hp, length_map, length_map_to_list. }
  assert (Hin : name ∈ names).
  { rewrite Hp. apply list_elem_of_fmap. exists (name, data). split; [done|]. by apply elem_of_map_to_list. }
  apply list_elem_of_lookup in Hin as [kn Hk].
  assert (Hzk : zlookup names (Z.of_nat kn) = Some name).
  { unfold zlookup. destruct (_ <? 0) eqn:?; zbool; [lia|]. by rewrite Nat2Z.id. }
  set (k := Z.of_nat kn) in *. pose proof (zlookup_range _ _ _ Hzk) as Hr.
  destruct (Hent _ _ Hzk) as [He Hm]. rewrite Hf, Z.add_0_r in He, Hm. cbn [default from_option id] in He, Hm.
  set (full := be_bytes 4 (zlen names) ++ dir). rewrite Hn.
  assert (H4 : zlen (be_bytes 4 (zlen names)) = 4) by apply zlen_be_bytes.
  assert (Hfull : zlen full = 4 + fwCfgFileSize * zlen names) by (unfold full; rewrite zlen_app; lia).
  unfold FWCfgFileFirst, fwCfgWriteChannel, fwCfgFileSize, fwCfgFileNameSize in *.
  assert (Hsl : forall o n, 0 <= o -> 0 <= n -> o + n <= 64 ->
    zslice full (4 + 64 * k + o) n = zslice (dirEntry (32 + k) name data) o n).
  { intros o n Ho Hn0 Hon. rewrite <- He. rewrite zslice_slice by lia. unfold full. rewrite zslice_app_r, H4 by lia. f_equal. lia. }
  assert (Hu : is_u16 (32 + k)) by (unfold is_u16; lia).
  destruct (dirEntry_fields (32 + k) name data Hname Hdata Hu) as (F1 & F2 & F3).
  exists full, k. cbv zeta. splits; [lia|lia|..].
  - rewrite (readItem_spec f _ full); [by rewrite zslice_all by lia|by rewrite Hsame, Hit, lookup_insert_eq|done|done|lia].
  - unfold be_uint32, full. rewrite zslice_app_l by done. apply be_val_bytes. cbn. lia.
  - unfold be_uint32. rewrite <- (Z.add_0_r (4 + _)), Hsl by lia. exact F1.
  - rewrite Hsl by lia. exact F3.
  - unfold be_uint16. rewrite Hsl, F2 by lia. pose proof (zlen_nonneg data).
    rewrite (readItem_spec f _ data); [by rewrite zslice_all| |done| |lia].
    + rewrite Hsame, Hit, lookup_insert_ne by (unfold FWCfgFileDir; lia). done.
    + change fwCfgWriteChannel with (2 ^ 14). rewrite has_bits_testbit by lia. apply (testbit_high _ 14); lia.
Qed.

(** A configuration with two files. *)
Definition sampleFiles : gmap (list Z) (list Z) := <[[0x62; 0x2f] := [1; 2; 3]]> (<[[0x61] := []]> ∅).

Lemma fw_cfg_files_found_witness :
  exists f0, NewFWCfg (<[3 := [0; 1]]> ∅) sampleFiles = Ok f0 /\
  exists dir k, let e := 4 + fwCfgFileSize * k in
    0 <= k < Z.of_nat (size sampleFiles) /\
    fst (readItem FWCfgFileDir (4 + fwCfgFileSize * Z.of_nat (size sampleFiles)) f0) = Ok dir /\
    be_uint32 dir 0 = Z.of_nat (size sampleFiles) /\
    be_uint32 dir e = zlen [1; 2; 3] /\
    zslice dir (e + 8) fwCfgFileNameSize = [0x62; 0x2f] ++ zeros (fwCfgFileNameSize - zlen [0x62; 0x2f]) /\
    fst (readItem (be_uint16 dir (e + 4)) (zlen [1; 2; 3]) f0) = Ok [1; 2; 3].
Proof.
  eexists. split; [vm_compute; reflexivity|].
  eapply (fw_cfg_files_found (<[3 := [0; 1]]> ∅) sampleFiles); [vm_compute; reflexivity|reflexivity|reflexivity].
Defined.
