(* ===== verification/Ps2.v ===== *)
(** * The PS/2 controller (src/internal/iodev/ps2.go, ps2_keymap.go, ps2_pointer.go)

    An 8042 with a keyboard and a mouse behind it.  The guest reads and writes
    the data and the status port; the remote display delivers key and pointer
    events.  [irqs] is the list of interrupts that were injected, newest last,
    [true] for the mouse.

    The methods take the mutex several times; the sections between its locking
    and unlocking are the definitions [appendLocked], [popLocked] and the updates
    of the other fields.  An interrupt is injected by [injectIRQ] after the mutex
    was released, so that other callers may run between a section and the
    interrupt it calls for.  The theorem on interrupts holds for every sequence
    of sections and injections, hence for every interleaving of the callers. *)

From S2P Require Import Prelude Bytes IoDevices.

Definition ps2DataPort : Z := 0x60.
Definition ps2StatusPort : Z := 0x64.
Definition ps2ACK : Z := 0xfa.
Definition ps2BATPass : Z := 0xaa.
Definition ps2Resend : Z := 0xfe.
Definition ps2StatusOutputFull : Z := 1.
Definition ps2StatusSystemFlag : Z := 4.
Definition ps2StatusAuxData : Z := 32.
Definition ps2CmdKeyboardIRQ : Z := 1.
Definition ps2CmdMouseIRQ : Z := 2.
Definition ps2CmdSystemFlag : Z := 4.
Definition ps2CmdKeyboardOff : Z := 16.
Definition ps2CmdMouseOff : Z := 32.
Definition ps2CmdTranslate : Z := 64.

Record ps2Pending := mkPending { pd_data : Z; pd_aux : bool }.

Inductive ps2Expect :=
| ps2ExpectNone
| ps2ExpectControllerConfig
| ps2ExpectKeyboardParam
| ps2ExpectKeyboardOutput
| ps2ExpectMouseOutput
| ps2ExpectMouseCommand.

Record PS2Controller := mkPs2 {
  commandByte : Z;
  queue : list ps2Pending;
  expect : ps2Expect;
  keyboardEnabled : bool;
  keyboardScan : bool;
  mouseEnabled : bool;
  mouseReporting : bool;
  mouseParam : bool;
  mouseParamCmd : Z;
  mouseID : Z;
  mouseSamples : list Z;
  mouseButtons : Z;
  mouseX : Z;
  mouseY : Z;
  mouseInit : bool;
  keyboardWired : bool;   (* injectKeyboardIRQ is not nil *)
  mouseWired : bool;      (* injectMouseIRQ is not nil *)
  irqs : list bool
}.

#[export] Instance eta_PS2Controller : Settable PS2Controller := fun r =>
  mkPs2 (commandByte r) (queue r) (expect r) (keyboardEnabled r) (keyboardScan r) (mouseEnabled r)
    (mouseReporting r) (mouseParam r) (mouseParamCmd r) (mouseID r) (mouseSamples r) (mouseButtons r)
    (mouseX r) (mouseY r) (mouseInit r) (keyboardWired r) (mouseWired r) (irqs r).

Definition NewPS2Controller (injectKeyboardIRQ injectMouseIRQ : bool) : PS2Controller :=
  mkPs2 (ps2CmdKeyboardIRQ ||| ps2CmdMouseIRQ ||| ps2CmdSystemFlag ||| ps2CmdTranslate) [] ps2ExpectNone
    true true true false false 0 0 [0; 0; 0] 0 0 0 false injectKeyboardIRQ injectMouseIRQ [].

Abbreviation P := (M PS2Controller).

(** ** The queue and the interrupts *)

Definition irqEnabledLocked (p : PS2Controller) (aux : bool) : bool :=
  if aux then negb (commandByte p &&& ps2CmdMouseIRQ =? 0) else negb (commandByte p &&& ps2CmdKeyboardIRQ =? 0).

(** The errors of the injectors are ignored. *)
Definition injectIRQ (aux : bool) : P unit :=
  gupd (fun p => if (if aux then mouseWired p else keyboardWired p) then p <| irqs := irqs p ++ [aux] |> else p).

(** The part of [enqueue] that holds the mutex; the answer is [inject]. *)
Definition appendLocked (data : list Z) (aux : bool) : P bool :=
  let! p := gget in
  let queueEmpty := zlen (queue p) =? 0 in
  do! gupd (fun p => p <| queue := queue p ++ map (fun b => mkPending b aux) data |>) in
  let! p := gget in
  let! head := gindex (queue p) 0 in
  ret (queueEmpty && irqEnabledLocked p (pd_aux head)).

Definition enqueue (data : list Z) (aux : bool) : P unit :=
  if zlen data =? 0 then ret tt
  else
    let! inject := appendLocked data aux in
    if inject then injectIRQ aux else ret tt.

(** The byte, whether the next one is announced, and whether it is of the mouse. *)
Definition popLocked : P (Z * bool * bool) :=
  let! p := gget in
  match queue p with
  | [] => ret (0, false, false)
  | x :: rest =>
      do! gupd (fun p => p <| queue := rest |>) in
      match rest with
      | [] => ret (pd_data x, false, false)
      | y :: _ => ret (pd_data x, irqEnabledLocked p (pd_aux y), pd_aux y)
      end
  end.

(** ** Accesses of the guest *)

Definition ps2Read (port : Z) (data : list Z) : P (list Z) :=
  if negb (zlen data =? 1) then throw errDataLenInvalid
  else if port =? ps2DataPort then
    let! r := popLocked in
    let '(v, injectNext, nextAux) := r in
    do! (if injectNext then injectIRQ nextAux else ret tt) in
    ret [v]
  else if port =? ps2StatusPort then
    let! p := gget in
    ret [match queue p with
         | [] => ps2StatusSystemFlag
         | x :: _ => if pd_aux x then ps2StatusSystemFlag ||| ps2StatusOutputFull ||| ps2StatusAuxData
                     else ps2StatusSystemFlag ||| ps2StatusOutputFull
         end]
  else ret [0].

Definition writeCommand (cmd : Z) : P unit :=
  if cmd =? 0x20 then let! p := gget in enqueue [commandByte p] false
  else if cmd =? 0x60 then gupd (fun p => p <| expect := ps2ExpectControllerConfig |>)
  else if cmd =? 0xaa then enqueue [0x55] false
  else if (cmd =? 0xab) || (cmd =? 0xa9) then enqueue [0x00] false
  else if cmd =? 0xad then
    gupd (fun p => p <| keyboardEnabled := false |> <| commandByte := commandByte p ||| ps2CmdKeyboardOff |>)
  else if cmd =? 0xae then
    gupd (fun p => p <| keyboardEnabled := true |> <| commandByte := Z.ldiff (commandByte p) ps2CmdKeyboardOff |>)
  else if cmd =? 0xa7 then
    gupd (fun p => p <| mouseEnabled := false |> <| commandByte := commandByte p ||| ps2CmdMouseOff |>)
  else if cmd =? 0xa8 then
    gupd (fun p => p <| mouseEnabled := true |> <| commandByte := Z.ldiff (commandByte p) ps2CmdMouseOff |>)
  else if cmd =? 0xd4 then gupd (fun p => p <| expect := ps2ExpectMouseCommand |>)
  else if cmd =? 0xd2 then gupd (fun p => p <| expect := ps2ExpectKeyboardOutput |>)
  else if cmd =? 0xd3 then gupd (fun p => p <| expect := ps2ExpectMouseOutput |>)
  else ret tt.

Definition handleKeyboardCommand (cmd : Z) : P unit :=
  if cmd =? 0xff then enqueue [ps2ACK; ps2BATPass] false
  else if cmd =? 0xf2 then enqueue [ps2ACK; 0xab; 0x83] false
  else if (cmd =? 0xf3) || (cmd =? 0xed) || (cmd =? 0xf0) then
    do! gupd (fun p => p <| expect := ps2ExpectKeyboardParam |>) in enqueue [ps2ACK] false
  else if cmd =? 0xf4 then do! gupd (fun p => p <| keyboardScan := true |>) in enqueue [ps2ACK] false
  else if cmd =? 0xf5 then do! gupd (fun p => p <| keyboardScan := false |>) in enqueue [ps2ACK] false
  else if cmd =? 0xee then enqueue [0xee] false
  else enqueue [ps2ACK] false.

Definition recordMouseSampleLocked (sample : Z) (p : PS2Controller) : PS2Controller :=
  let samples := [zget (mouseSamples p) 1; zget (mouseSamples p) 2; sample] in
  let p := p <| mouseSamples := samples |> in
  if bool_decide (samples = [200; 100; 80]) then p <| mouseID := 3 |>
  else if bool_decide (samples = [200; 200; 80]) then p <| mouseID := 4 |>
  else p.

(** [flags], the two movements and, for a mouse with a wheel, its movement. *)
Definition ps2MousePacket (buttons dx dy mouseID wheel : Z) : list Z :=
  let flags := 0x08 ||| (buttons &&& 0x07) in
  let flags := if dx <? 0 then flags ||| 0x10 else flags in
  let flags := if dy <? 0 then flags ||| 0x20 else flags in
  let packet := [flags; u8 (i8 dx); u8 (i8 dy)] in
  if (mouseID =? 3) || (mouseID =? 4) then packet ++ [u8 (i8 wheel)] else packet.

Definition handleMouseCommand (cmd : Z) : P unit :=
  let! p := gget in
  if mouseParam p then
    let paramCmd := mouseParamCmd p in
    do! gupd (fun p => p <| mouseParam := false |> <| mouseParamCmd := 0 |>) in
    do! (if paramCmd =? 0xf3 then gupd (recordMouseSampleLocked cmd) else ret tt) in
    enqueue [ps2ACK] true
  else if cmd =? 0xff then
    do! gupd (fun p => p <| mouseReporting := false |> <| mouseID := 0 |> <| mouseSamples := [0; 0; 0] |>) in
    enqueue [ps2ACK; ps2BATPass; 0x00] true
  else if cmd =? 0xf2 then enqueue [ps2ACK; mouseID p] true
  else if (cmd =? 0xf3) || (cmd =? 0xe8) then
    do! gupd (fun p => p <| mouseParam := true |> <| mouseParamCmd := cmd |>) in enqueue [ps2ACK] true
  else if cmd =? 0xf4 then do! gupd (fun p => p <| mouseReporting := true |>) in enqueue [ps2ACK] true
  else if cmd =? 0xf5 then do! gupd (fun p => p <| mouseReporting := false |>) in enqueue [ps2ACK] true
  else if cmd =? 0xe9 then enqueue [ps2ACK; 0x00; 0x02; 100] true
  else if (cmd =? 0xe6) || (cmd =? 0xe7) || (cmd =? 0xea) || (cmd =? 0xec) || (cmd =? 0xee) ||
          (cmd =? 0xf0) || (cmd =? 0xf6) then
    do! (if cmd =? 0xf6 then gupd (fun p => p <| mouseReporting := false |>) else ret tt) in
    enqueue [ps2ACK] true
  else if cmd =? 0xeb then enqueue (ps2ACK :: ps2MousePacket (mouseButtons p) 0 0 (mouseID p) 0) true
  else enqueue [ps2Resend] true.

Definition writeData (v : Z) : P unit :=
  let! p := gget in
  do! gupd (fun p => p <| expect := ps2ExpectNone |>) in
  match expect p with
  | ps2ExpectControllerConfig =>
      gupd (fun p => p <| commandByte := v |> <| keyboardEnabled := v &&& ps2CmdKeyboardOff =? 0 |>
                       <| mouseEnabled := v &&& ps2CmdMouseOff =? 0 |>)
  | ps2ExpectKeyboardParam => enqueue [ps2ACK] false
  | ps2ExpectKeyboardOutput => enqueue [v] false
  | ps2ExpectMouseOutput => enqueue [v] true
  | ps2ExpectMouseCommand => handleMouseCommand v
  | ps2ExpectNone => handleKeyboardCommand v
  end.

Definition ps2Write (port : Z) (data : list Z) : P unit :=
  if negb (zlen data =? 1) then throw errDataLenInvalid
  else
    let v := zget data 0 in
    if port =? ps2DataPort then writeData v
    else if port =? ps2StatusPort then writeCommand v
    else ret tt.

(** ** Keys (ps2_keymap.go) *)

Record ps2Scan := mkScan { sc_code : Z; sc_extended : bool }.

(** A map literal, looked up. *)
Fixpoint assoc {A} (k : Z) (l : list (Z * A)) : option A :=
  match l with
  | [] => None
  | (k', v) :: l' => if k =? k' then Some v else assoc k l'
  end.

Definition specialKeys : list (Z * ps2Scan) := [
  (0xff08, mkScan 0x0e false);
  (0xff09, mkScan 0x0f false);
  (0xff0d, mkScan 0x1c false);
  (0xff1b, mkScan 0x01 false);
  (0xffff, mkScan 0x53 true);
  (0xff50, mkScan 0x47 true);
  (0xff51, mkScan 0x4b true);
  (0xff52, mkScan 0x48 true);
  (0xff53, mkScan 0x4d true);
  (0xff54, mkScan 0x50 true);
  (0xff55, mkScan 0x49 true);
  (0xff56, mkScan 0x51 true);
  (0xff57, mkScan 0x4f true);
  (0xff63, mkScan 0x52 true);
  (0xffe1, mkScan 0x2a false);
  (0xffe2, mkScan 0x36 false);
  (0xffe3, mkScan 0x1d false);
  (0xffe4, mkScan 0x1d true);
  (0xffe9, mkScan 0x38 false);
  (0xffea, mkScan 0x38 true);
  (0xffeb, mkScan 0x5b true);
  (0xffec, mkScan 0x5c true);
  (0xffe5, mkScan 0x3a false);
  (0xff14, mkScan 0x46 false);
  (0xff7f, mkScan 0x45 false);
  (0xff61, mkScan 0x52 true);
  (0xff13, mkScan 0x45 false) ].

Definition asciiKeys : list (Z * Z) := [
  (97, 0x1e); (98, 0x30); (99, 0x2e); (100, 0x20); (101, 0x12); (102, 0x21);
  (103, 0x22); (104, 0x23); (105, 0x17); (106, 0x24); (107, 0x25); (108, 0x26);
  (109, 0x32); (110, 0x31); (111, 0x18); (112, 0x19); (113, 0x10); (114, 0x13);
  (115, 0x1f); (116, 0x14); (117, 0x16); (118, 0x2f); (119, 0x11); (120, 0x2d);
  (121, 0x15); (122, 0x2c); (49, 0x02); (50, 0x03); (51, 0x04); (52, 0x05);
  (53, 0x06); (54, 0x07); (55, 0x08); (56, 0x09); (57, 0x0a); (48, 0x0b);
  (32, 0x39); (45, 0x0c); (61, 0x0d); (91, 0x1a); (93, 0x1b); (92, 0x2b);
  (59, 0x27); (39, 0x28); (96, 0x29); (44, 0x33); (46, 0x34); (47, 0x35) ].

Definition ps2ASCIIKey (keysym : Z) : option ps2Scan :=
  let keysym := if (65 <=? keysym) && (keysym <=? 90) then u32 (keysym + (97 - 65)) else keysym in
  match assoc keysym asciiKeys with Some c => Some (mkScan c false) | None => None end.

Definition functionCodes : list Z := [0x3b; 0x3c; 0x3d; 0x3e; 0x3f; 0x40; 0x41; 0x42; 0x43; 0x44; 0x57; 0x58].

(** The scan of an RFB keysym; [None] when the key is not known. *)
Definition ps2ScanCode (keysym : Z) : option ps2Scan :=
  match ps2ASCIIKey keysym with
  | Some s => Some s
  | None =>
      if (0xffbe <=? keysym) && (keysym <=? 0xffc9)
      then Some (mkScan (zget functionCodes (keysym - 0xffbe)) false)
      else assoc keysym specialKeys
  end.

Definition ps2KeySequence (makeSeq : ps2Scan) (down : bool) : list Z :=
  let code := if down then sc_code makeSeq else sc_code makeSeq ||| 0x80 in
  if sc_extended makeSeq then [0xe0; code] else [code].

(** ** Events of the remote display *)

Definition KeyEvent (down : bool) (keysym : Z) : P unit :=
  match ps2ScanCode keysym with
  | None => ret tt
  | Some makeSeq =>
      let! p := gget in
      if keyboardEnabled p && keyboardScan p then enqueue (ps2KeySequence makeSeq down) false else ret tt
  end.

Definition clampMouseDelta (v : Z) : Z := if 127 <? v then 127 else if v <? -127 then -127 else v.
Definition clampMouseWheel (v : Z) : Z := if 7 <? v then 7 else if v <? -8 then -8 else v.

Definition ps2Buttons (mask : Z) : Z :=
  let buttons := if negb (mask &&& 0x01 =? 0) then 0 ||| 0x01 else 0 in
  let buttons := if negb (mask &&& 0x04 =? 0) then buttons ||| 0x02 else buttons in
  if negb (mask &&& 0x02 =? 0) then buttons ||| 0x04 else buttons.

Definition ps2WheelDelta (mask : Z) : Z :=
  if negb (mask &&& 0x08 =? 0) then 1 else if negb (mask &&& 0x10 =? 0) then -1 else 0.

(** The loop sends one packet per round until nothing is left. *)
Fixpoint motionLoop (fuel : nat) (buttons oldButtons dx dy mouseID wheel : Z) : P unit :=
  if negb (dx =? 0) || negb (dy =? 0) || negb (wheel =? 0) || negb (buttons =? oldButtons) then
    match fuel with
    | O => fun p => (OutOfFuel, p)
    | S fuel' =>
        let chunkX := clampMouseDelta dx in
        let chunkY := clampMouseDelta dy in
        let chunkWheel := clampMouseWheel wheel in
        do! enqueue (ps2MousePacket buttons chunkX chunkY mouseID chunkWheel) true in
        motionLoop fuel' buttons buttons (dx - chunkX) (dy - chunkY) mouseID (wheel - chunkWheel)
    end
  else ret tt.

(** Movements are differences of 16-bit coordinates: 65535 is at most 517 times
    127, and a round more may only send the buttons. *)
Definition enqueueMouseMotion (buttons oldButtons dx dy mouseID wheel : Z) : P unit :=
  motionLoop 600 buttons oldButtons dx dy mouseID wheel.

Definition PointerEvent (buttonMask x y : Z) : P unit :=
  let! p := gget in
  if negb (mouseEnabled p) || negb (mouseReporting p) then
    gupd (fun p => p <| mouseX := x |> <| mouseY := y |> <| mouseInit := true |>)
  else
    let '(dx, dy) := if mouseInit p then (x - mouseX p, mouseY p - y) else (0, 0) in
    let buttons := ps2Buttons buttonMask in
    do! gupd (fun p => p <| mouseX := x |> <| mouseY := y |> <| mouseInit := true |> <| mouseButtons := buttons |>) in
    enqueueMouseMotion buttons (mouseButtons p) dx dy (mouseID p) (ps2WheelDelta buttonMask).

Definition RebasePointer (x y : Z) : P unit :=
  gupd (fun p => p <| mouseX := x |> <| mouseY := y |> <| mouseInit := true |>).
