(* ===== verification/Ps2Spec.v ===== *)
(** * What the PS/2 controller promises

    Bytes reach the guest once and in order, each announced by one interrupt
    when it becomes readable while the guest keeps interrupts on; key events and pointer movements can be decoded
    from the bytes the way a driver does. *)

From S2P Require Import Prelude Bytes IoDevices Ps2.

Definition pend (aux : bool) (data : list Z) : list ps2Pending := map (fun b => mkPending b aux) data.

Lemma zlen_pend aux data : zlen (pend aux data) = zlen data.
Proof. unfold zlen, pend. by rewrite length_map. Qed.

(** What [enqueue] does, as a function. *)
Definition enqueued (data : list Z) (aux : bool) (p : PS2Controller) : PS2Controller :=
  let p' := p <| queue := queue p ++ pend aux data |> in
  if (zlen (queue p) =? 0) && irqEnabledLocked p aux && (if aux then mouseWired p else keyboardWired p)
  then p' <| irqs := irqs p ++ [aux] |> else p'.

Lemma append_run data aux p : data <> [] ->
  appendLocked data aux p = (Ok ((zlen (queue p) =? 0) && irqEnabledLocked p aux), p <| queue := queue p ++ pend aux data |>).
Proof.
  destruct data as [|b data]; [done|]. intros _. unfold appendLocked, gbind, gget, gupd, gindex, irqEnabledLocked.
  destruct p as [cb [|x q] ? ? ? ? ? ? ? ? ? ? ? ? ? kw mw log]; [by destruct aux|]. cbn -[pend].
  rewrite (proj2 (Z.eqb_neq (zlen (x :: q)) _)) by (rewrite zlen_cons; pose proof (zlen_nonneg q); lia). reflexivity.
Qed.

Lemma enqueue_run data aux p : data <> [] -> enqueue data aux p = (Ok tt, enqueued data aux p).
Proof.
  intros Hd. unfold enqueue, enqueued, gbind.
  rewrite (proj2 (Z.eqb_neq _ _)) by (destruct data as [|b data]; [done|rewrite zlen_cons; pose proof (zlen_nonneg data); lia]).
  rewrite append_run by done. destruct (_ && _); [|done]. unfold injectIRQ, gupd.
  destruct p as [? ? ? ? ? ? ? ? ? ? ? ? ? ? ? kw mw ?]. by destruct aux, kw, mw.
Qed.

(** ** Delivery and interrupts *)

(** Both interrupts are on and wired. *)
Definition announcing (p : PS2Controller) : bool :=
  irqEnabledLocked p true && irqEnabledLocked p false && mouseWired p && keyboardWired p.

(** A run of the callers: the controller, the bytes the guest has read, the
    bytes queued since the controller was made, and the interrupts that a
    section has called for and its caller has not injected yet. *)
Record run := mkRun {
  ctl : PS2Controller;
  delivered : list ps2Pending;
  queued : list ps2Pending;
  owed : list bool
}.

(** The steps of the callers: the sections between locking and unlocking the
    mutex, and the injections, which need not come in the order of the sections. *)
Inductive section : run -> run -> Prop :=
| S_append p d e o data aux inject p' :
    data <> [] -> appendLocked data aux p = (Ok inject, p') ->
    section (mkRun p d e o) (mkRun p' d (e ++ pend aux data) (o ++ if inject then [aux] else []))
| S_pop p d e o v inject aux p' :
    popLocked p = (Ok (v, inject, aux), p') ->
    section (mkRun p d e o)
      (mkRun p' (d ++ match queue p with [] => [] | x :: _ => [mkPending v (pd_aux x)] end) e
         (o ++ if inject then [aux] else []))
| S_inject p d e o1 aux o2 p' :
    injectIRQ aux p = (Ok tt, p') -> section (mkRun p d e (o1 ++ aux :: o2)) (mkRun p' d e (o1 ++ o2))
| S_update p d e o p' :
    queue p' = queue p -> irqs p' = irqs p -> section (mkRun p d e o) (mkRun p' d e o).

(** The runs of a new controller; the flag says that its interrupts were on
    all the time. *)
Inductive reaches : bool -> run -> Prop :=
| R_new k m : reaches (announcing (NewPS2Controller k m)) (mkRun (NewPS2Controller k m) [] [] [])
| R_section on r r' : reaches on r -> section r r' -> reaches (on && announcing (ctl r')) r'.

(** The lines of the bytes that were or are readable. *)
Definition readable (r : run) : list bool := map pd_aux (delivered r ++ take 1 (queue (ctl r))).

Record delivery (on : bool) (r : run) : Prop := {
  dl_on : on = true -> announcing (ctl r) = true;
  dl_order : delivered r ++ queue (ctl r) = queued r;
  dl_sound : irqs (ctl r) ++ owed r ⊆+ readable r;
  dl_exact : on = true -> irqs (ctl r) ++ owed r ≡ₚ readable r
}.

Lemma announcing_line p aux : announcing p = true ->
  irqEnabledLocked p aux = true /\ (if aux then mouseWired p else keyboardWired p) = true.
Proof. unfold announcing. intros H. zbool. by destruct aux. Qed.

(** A byte becomes readable, and an interrupt for it may be owed. *)
Lemma announce_byte (l o R : list bool) x (inject : bool) :
  (l ++ o ⊆+ R -> l ++ o ++ (if inject then [x] else []) ⊆+ R ++ [x]) /\
  (inject = true -> l ++ o ≡ₚ R -> l ++ o ++ (if inject then [x] else []) ≡ₚ R ++ [x]).
Proof.
  split.
  - intros H. rewrite app_assoc. apply submseteq_app; [done|]. destruct inject; [done|apply submseteq_nil_l].
  - intros -> H. by rewrite app_assoc, H.
Qed.

Lemma pop_run p : exists inject aux, popLocked p =
  (Ok (match queue p with x :: _ => pd_data x | [] => 0 end, inject, aux), p <| queue := drop 1 (queue p) |>) /\
  match drop 1 (queue p) with [] => inject = false | y :: _ => inject = irqEnabledLocked p (pd_aux y) /\ aux = pd_aux y end.
Proof.
  unfold popLocked, gbind, gget, gupd. destruct p as [cb [|x [|y q]] ? ? ? ? ? ? ? ? ? ? ? ? ? kw mw log]; cbn.
  - by exists false, false.
  - by exists false, false.
  - by eexists _, _.
Qed.

Lemma append_delivery on p d e o data aux inject p' :
  delivery on (mkRun p d e o) -> data <> [] -> appendLocked data aux p = (Ok inject, p') ->
  delivery on (mkRun p' d (e ++ pend aux data) (o ++ if inject then [aux] else [])).
Proof.
  intros [Ha Ho Hs He] Hd H. rewrite append_run in H by done. injection H as <- <-. unfold readable in *. cbn in *.
  destruct data as [|b data]; [done|]. clear Hd. destruct (queue p) as [|x q] eqn:E.
  - change (zlen [] =? 0) with true. cbn [andb app take pend map] in *. rewrite app_nil_r in *.
    destruct (announce_byte (irqs p) o (map pd_aux d) aux (irqEnabledLocked p aux)) as [A1 A2].
    constructor; unfold readable; cbn; rewrite ?map_app; cbn; auto; [by rewrite <- Ho|].
    intros Hon. apply A2; [by apply announcing_line, Ha|by apply He].
  - rewrite (proj2 (Z.eqb_neq (zlen (x :: q)) _)) by (rewrite zlen_cons; pose proof (zlen_nonneg q); lia).
    cbn [andb]. rewrite app_nil_r. constructor; unfold readable; cbn; rewrite ?E; auto.
    rewrite <- Ho, <- app_assoc. done.
Qed.

Lemma pop_delivery on p d e o v inject aux p' :
  delivery on (mkRun p d e o) -> popLocked p = (Ok (v, inject, aux), p') ->
  delivery on (mkRun p' (d ++ match queue p with [] => [] | x :: _ => [mkPending v (pd_aux x)] end) e
    (o ++ if inject then [aux] else [])).
Proof.
  intros [Ha Ho Hs He] H. destruct (pop_run p) as (i & a & Hr & Hn). rewrite Hr in H. injection H as <- <- <- <-.
  unfold readable in *. cbn in *. destruct (queue p) as [|x q]; cbn in *.
  { rewrite !app_nil_r in *. subst i. cbn. rewrite !app_nil_r in *. constructor; unfold readable; cbn; auto;
      rewrite ?app_nil_r; auto. }
  assert (mkPending (pd_data x) (pd_aux x) = x) as -> by (by destruct x).
  assert (Ho' : (d ++ [x]) ++ q = e) by (by rewrite <- Ho, <- app_assoc).
  destruct q as [|y q]; cbn in *.
  - subst i. cbn. rewrite app_nil_r. constructor; unfold readable; cbn; rewrite ?app_nil_r; auto.
  - destruct Hn as [-> ->].
    destruct (announce_byte (irqs p) o (map pd_aux (d ++ [x])) (pd_aux y) (irqEnabledLocked p (pd_aux y))) as [A1 A2].
    constructor; unfold readable; cbn; rewrite ?map_app in *; cbn in *; auto.
    intros Hon. apply A2; [by apply announcing_line, Ha|by apply He].
Qed.

Lemma inject_delivery on p d e o1 aux o2 p' :
  delivery on (mkRun p d e (o1 ++ aux :: o2)) -> injectIRQ aux p = (Ok tt, p') -> delivery on (mkRun p' d e (o1 ++ o2)).
Proof.
  intros [Ha Ho Hs He] H. unfold injectIRQ, gupd in H. injection H as <-. unfold readable in *. cbn in *.
  assert (Hp : irqs p ++ o1 ++ aux :: o2 ≡ₚ (irqs p ++ [aux]) ++ o1 ++ o2).
  { rewrite <- app_assoc. apply Permutation_app_head. cbn. symmetry. apply Permutation_middle. }
  destruct (if aux then mouseWired p else keyboardWired p) eqn:Hw.
  - constructor; unfold readable; cbn; auto; [by rewrite <- Hp|]. intros Hon. rewrite <- Hp. auto.
  - constructor; unfold readable; cbn; auto.
    + etrans; [|exact Hs]. rewrite Hp, <- app_assoc. apply submseteq_app; [done|]. by apply submseteq_cons.
    + intros Hon. destruct (announcing_line p aux (Ha Hon)). congruence.
Qed.

Lemma delivery_on on b r : delivery on r -> (b = true -> announcing (ctl r) = true) -> delivery (on && b) r.
Proof. intros [Ha Ho Hs He] Hb. constructor; auto; intros [? ?]%andb_true_iff; auto. Qed.

Lemma section_delivery on r r' : delivery on r -> section r r' -> delivery (on && announcing (ctl r')) r'.
Proof.
  intros Hd Hs. destruct Hs.
  - apply delivery_on; [by eapply append_delivery|done].
  - apply delivery_on; [by eapply pop_delivery|done].
  - apply delivery_on; [by eapply inject_delivery|done].
  - destruct Hd as [Ha Ho Hsd He]. unfold readable in *. cbn in *. constructor; unfold readable; cbn;
      repeat match goal with H : queue p' = _ |- _ => rewrite H | H : irqs p' = _ |- _ => rewrite H end; auto.
    + by intros [_ ?]%andb_true_iff.
    + intros [? _]%andb_true_iff. auto.
Qed.

(** C18: delivery.  In every interleaving of the guest's accesses with key and
    pointer events, where callers may run between the moment a byte becomes
    readable and the interrupt injected for it: the bytes the guest has read and
    those still in the queue are the bytes queued, in their order; no interrupt
    is injected without a byte that became readable on its line; and while the
    guest keeps both interrupts of the controller on, the interrupts injected and
    those still to be injected by a caller are exactly one per byte that was or
    is readable, on the line of the device the byte came from. *)
Theorem ps2_delivery on r :
  reaches on r ->
  delivered r ++ queue (ctl r) = queued r /\
  irqs (ctl r) ++ owed r ⊆+ map pd_aux (delivered r ++ take 1 (queue (ctl r))) /\
  (on = true -> irqs (ctl r) ++ owed r ≡ₚ map pd_aux (delivered r ++ take 1 (queue (ctl r)))).
Proof.
  intros H. cut (delivery on r); [by intros [_ ? ? ?]|].
  induction H as [k m|on r r' _ IH Hs]; [|by eapply section_delivery].
  by constructor.
Qed.

(** ** The methods are made of these sections *)

(** Alone, a caller has injected what its sections called for when it returns. *)
Definition bySections {A} (m : P A) : Prop :=
  forall r, exists r', rtc section r r' /\ ctl r' = snd (m (ctl r)) /\ owed r' = owed r.

Lemma by_ret {A} (a : A) : bySections (ret a).
Proof. intros r. by exists r. Qed.

Lemma by_throw {A} (x : error) : bySections (throw x : P A).
Proof. intros r. by exists r. Qed.

Lemma by_fuel {A} : bySections ((fun p => (OutOfFuel, p)) : P A).
Proof. intros r. by exists r. Qed.

Lemma by_bind {A B} (m : P A) (k : A -> P B) : bySections m -> (forall a, bySections (k a)) -> bySections (gbind m k).
Proof.
  intros Hm Hk r. destruct (Hm r) as (r1 & H1 & E1 & O1). unfold gbind.
  destruct (m (ctl r)) as [[a|x| |] p1]; cbn [snd] in *; try (by exists r1).
  destruct (Hk a r1) as (r2 & H2 & E2 & O2). exists r2. splits; [by etrans|by rewrite E2, E1|congruence].
Qed.

Lemma by_get {B} (k : PS2Controller -> P B) : (forall p, bySections (k p)) -> bySections (gbind gget k).
Proof. intros Hk r. exact (Hk (ctl r) r). Qed.

Lemma by_if {A} (b : bool) (m1 m2 : P A) : bySections m1 -> bySections m2 -> bySections (if b then m1 else m2).
Proof. by destruct b. Qed.

Lemma by_upd f : (forall p, queue (f p) = queue p /\ irqs (f p) = irqs p) -> bySections (gupd f).
Proof.
  intros Hf [p d e o]. destruct (Hf p). exists (mkRun (f p) d e o). splits; [|done..]. apply rtc_once. by apply S_update.
Qed.

(** A section followed by the interrupt it calls for. *)
Lemma section_inject r p d e o (inject : bool) aux :
  section r (mkRun p d e (o ++ if inject then [aux] else [])) ->
  exists r', rtc section r r' /\ ctl r' = snd ((if inject then injectIRQ aux else ret tt) p) /\ owed r' = o.
Proof.
  intros Hs. destruct inject.
  - exists (mkRun (snd (injectIRQ aux p)) d e (o ++ [])). splits; [|done|apply app_nil_r].
    eapply rtc_l; [exact Hs|]. apply rtc_once. by apply S_inject.
  - exists (mkRun p d e o). rewrite app_nil_r in Hs. splits; [by apply rtc_once|done..].
Qed.

Lemma by_enqueue data aux : bySections (enqueue data aux).
Proof.
  intros [p d e o]. destruct data as [|b data]; [by eexists|]. unfold enqueue, gbind.
  rewrite (proj2 (Z.eqb_neq (zlen (b :: data)) _)) by (rewrite zlen_cons; pose proof (zlen_nonneg data); lia).
  cbn [ctl owed]. pose proof (append_run (b :: data) aux p ltac:(done)) as Hr. rewrite Hr. eapply section_inject.
  by apply (S_append p d e o (b :: data) aux).
Qed.

Lemma by_read data : bySections (ps2Read ps2DataPort data).
Proof.
  intros [p d e o]. unfold ps2Read. destruct (negb (zlen data =? 1)); [by eexists|]. rewrite Z.eqb_refl.
  destruct (pop_run p) as (inject & aux & Hr & _). unfold gbind at 1. cbn [ctl owed]. rewrite Hr.
  destruct (section_inject _ _ _ _ _ _ _ (S_pop p d e o _ _ _ _ Hr)) as (r' & H1 & H2 & H3).
  exists r'. splits; [done| |done]. rewrite H2. by destruct inject, aux.
Qed.

Ltac sections :=
  repeat lazymatch goal with
  | |- bySections (if _ then _ else _) => apply by_if
  | |- bySections (gbind gget _) => apply by_get; intros
  | |- bySections (gbind _ _) => apply by_bind; [|intros]
  | |- bySections (ret _) => apply by_ret
  | |- bySections (throw _) => apply by_throw
  | |- bySections (enqueue _ _) => apply by_enqueue
  | |- bySections (gupd _) => apply by_upd; intros; split; reflexivity
  end.

Lemma by_record v : bySections (gupd (recordMouseSampleLocked v)).
Proof. apply by_upd. intros q. unfold recordMouseSampleLocked. by repeat case_match. Qed.

Lemma by_handleMouseCommand cmd : bySections (handleMouseCommand cmd).
Proof.
  unfold handleMouseCommand. apply by_get. intros p. apply by_if; [|sections].
  apply by_bind; [sections|intros _]. apply by_bind; [apply by_if; [apply by_record|sections]|intros _; sections].
Qed.

Lemma by_handleKeyboardCommand cmd : bySections (handleKeyboardCommand cmd).
Proof. unfold handleKeyboardCommand. sections. Qed.

Lemma by_writeData v : bySections (writeData v).
Proof.
  unfold writeData. sections. destruct (expect _); sections; [apply by_handleKeyboardCommand|apply by_handleMouseCommand].
Qed.

Lemma by_writeCommand v : bySections (writeCommand v).
Proof. unfold writeCommand. sections. Qed.

Lemma by_motionLoop fuel : forall b o dx dy id w, bySections (motionLoop fuel b o dx dy id w).
Proof.
  induction fuel as [|fuel IH]; intros; cbn [motionLoop]; cbv zeta; sections; [apply by_fuel|apply IH].
Qed.

(** Every method of the controller is a sequence of sections. *)
Lemma methods_bySections :
  (forall port data, bySections (ps2Read port data)) /\ (forall port data, bySections (ps2Write port data)) /\
  (forall down keysym, bySections (KeyEvent down keysym)) /\ (forall m x y, bySections (PointerEvent m x y)) /\
  (forall x y, bySections (RebasePointer x y)).
Proof.
  splits; intros.
  - destruct (Z.eqb_spec port ps2DataPort) as [->|Hp]; [apply by_read|]. unfold ps2Read.
    rewrite (proj2 (Z.eqb_neq _ _) Hp). sections.
  - unfold ps2Write. sections; [apply by_writeData|apply by_writeCommand].
  - unfold KeyEvent. destruct (ps2ScanCode keysym); sections.
  - unfold PointerEvent. apply by_get. intros p. apply by_if; [sections|].
    destruct (if mouseInit p then _ else _) as [dx dy]. apply by_bind; [sections|]. intros _. apply by_motionLoop.
  - unfold RebasePointer. sections.
Qed.

(** A key is queued by the display, and before its interrupt is injected the
    guest reads it and another caller has queued an answer of the mouse: the
    interrupts come in the other order. *)
Definition samplePs2 (n : nat) : PS2Controller :=
  let p1 := snd (appendLocked [0x1e] false (NewPS2Controller true true)) in
  let p2 := snd (popLocked p1) in
  let p3 := snd (appendLocked [0xfa] true p2) in
  match n with
  | O => p1
  | 1%nat => p2
  | 2%nat => p3
  | _ => snd (injectIRQ true p3)
  end.

Lemma reaches_on r r' : reaches true r -> announcing (ctl r') = true -> section r r' -> reaches true r'.
Proof. intros Hr Ha Hs. rewrite <- Ha. by apply (R_section true r). Qed.

Lemma samplePs2_reaches :
  reaches true (mkRun (samplePs2 3) [mkPending 0x1e false] [mkPending 0x1e false; mkPending 0xfa true] [false]).
Proof.
  apply (reaches_on (mkRun (samplePs2 2) [mkPending 0x1e false] [mkPending 0x1e false; mkPending 0xfa true] [false; true])).
  2: { reflexivity. }
  2: { by apply (S_inject _ _ _ [false] true []). }
  apply (reaches_on (mkRun (samplePs2 1) [mkPending 0x1e false] [mkPending 0x1e false] [false])).
  2: { reflexivity. }
  2: { by apply (S_append (samplePs2 1) [mkPending 0x1e false] [mkPending 0x1e false] [false] [0xfa] true true). }
  apply (reaches_on (mkRun (samplePs2 0) [] [mkPending 0x1e false] [false])).
  2: { reflexivity. }
  2: { by apply (S_pop (samplePs2 0) [] [mkPending 0x1e false] [false] 0x1e false false). }
  apply (reaches_on (mkRun (NewPS2Controller true true) [] [] [])); [apply (R_new true true)|reflexivity|].
  by apply (S_append (NewPS2Controller true true) [] [] [] [0x1e] false true).
Qed.

Lemma ps2_delivery_witness :
  irqs (samplePs2 3) = [true] /\
  [mkPending 0x1e false] ++ queue (samplePs2 3) = [mkPending 0x1e false; mkPending 0xfa true] /\
  irqs (samplePs2 3) ++ [false] ≡ₚ [false; true].
Proof.
  destruct (ps2_delivery true _ samplePs2_reaches) as (H1 & _ & H2).
  split; [reflexivity|]. split; [exact H1|exact (H2 eq_refl)].
Defined.

(** A byte queued while the interrupts are off is not announced when they are
    turned on, and neither are the bytes queued behind it. *)
Example ps2_late_enable_silent :
  let p := snd ((do! ps2Write ps2StatusPort [0x60] in do! ps2Write ps2DataPort [0x44] in
                 do! KeyEvent true 97 in
                 do! ps2Write ps2StatusPort [0x60] in do! ps2Write ps2DataPort [0x47] in
                 KeyEvent true 98) (NewPS2Controller true true)) in
  map pd_data (queue p) = [0x1e; 0x30] /\ irqs p = [].
Proof. by vm_compute. Qed.

(** ** Movements of the pointer *)

(** A packet as a driver reads it: nine-bit movements with the sign in the
    flags, and the buttons. *)
Definition motionOf (pkt : list Z) : Z * Z :=
  (zget pkt 1 - (if zget pkt 0 &&& 0x10 =? 0 then 0 else 256),
   zget pkt 2 - (if zget pkt 0 &&& 0x20 =? 0 then 0 else 256)).

Definition buttonsOf (pkt : list Z) : Z := zget pkt 0 &&& 0x07.

Definition totalMotion (pkts : list (list Z)) : Z * Z :=
  foldr (fun k s => (fst (motionOf k) + fst s, snd (motionOf k) + snd s)) (0, 0) pkts.

(** The flags of a packet. *)
Definition packetFlags (b : Z) (nx ny : bool) : Z :=
  let flags := 0x08 ||| (b &&& 0x07) in
  let flags := if nx then flags ||| 0x10 else flags in
  if ny then flags ||| 0x20 else flags.

Lemma packetFlags_spec b nx ny : 0 <= b < 8 ->
  (packetFlags b nx ny &&& 0x10 =? 0) = negb nx /\ (packetFlags b nx ny &&& 0x20 =? 0) = negb ny /\
  packetFlags b nx ny &&& 0x07 = b.
Proof.
  intros Hb. assert (b = 0 \/ b = 1 \/ b = 2 \/ b = 3 \/ b = 4 \/ b = 5 \/ b = 6 \/ b = 7) as Hc by lia.
  destruct Hc as [->|[->|[->|[->|[->|[->|[->| ->]]]]]]]; by destruct nx, ny.
Qed.

Lemma u8_i8 v : -127 <= v <= 127 -> u8 (i8 v) = if v <? 0 then v + 256 else v.
Proof.
  intros Hv. unfold u8, i8. rewrite (Z.mod_small (v + 2 ^ 7)) by lia.
  replace (v + 2 ^ 7 - 2 ^ 7) with v by lia. destruct (Z.ltb_spec v 0).
  - symmetry. apply (Z.mod_unique v (2 ^ 8) (-1)); lia.
  - apply Z.mod_small. lia.
Qed.

Lemma packet_shape b cx cy id w : exists tail,
  ps2MousePacket b cx cy id w = packetFlags b (cx <? 0) (cy <? 0) :: u8 (i8 cx) :: u8 (i8 cy) :: tail /\
  zlen tail = if (id =? 3) || (id =? 4) then 1 else 0.
Proof. unfold ps2MousePacket. cbv zeta. destruct (_ || _); by eexists. Qed.

Lemma packet_decodes b cx cy id w :
  0 <= b < 8 -> -127 <= cx <= 127 -> -127 <= cy <= 127 ->
  motionOf (ps2MousePacket b cx cy id w) = (cx, cy) /\ buttonsOf (ps2MousePacket b cx cy id w) = b.
Proof.
  intros Hb Hx Hy. destruct (packet_shape b cx cy id w) as (t & -> & _).
  unfold motionOf, buttonsOf. change (zget (?a :: _) 0) with a. change (zget (_ :: ?a :: _) 1) with a.
  change (zget (_ :: _ :: ?a :: _) 2) with a.
  destruct (packetFlags_spec b (cx <? 0) (cy <? 0) Hb) as (-> & -> & ->). rewrite !u8_i8 by done.
  split; [|done]. destruct (cx <? 0), (cy <? 0); cbn [negb]; f_equal; lia.
Qed.

(** What an event leaves alone, and what it does to the queue. *)
Record sent (p p' : PS2Controller) (bytes : list Z) : Prop := {
  st_queue : queue p' = queue p ++ pend true bytes;
  st_enabled : mouseEnabled p' = mouseEnabled p;
  st_reporting : mouseReporting p' = mouseReporting p;
  st_init : mouseInit p' = mouseInit p;
  st_id : mouseID p' = mouseID p;
  st_pos : mouseX p' = mouseX p /\ mouseY p' = mouseY p;
  st_buttons : mouseButtons p' = mouseButtons p
}.

Lemma sent_nil p : sent p p [].
Proof. constructor; try done. unfold pend. cbn. by rewrite app_nil_r. Qed.

Lemma sent_enqueued p data : sent p (enqueued data true p) data.
Proof. unfold enqueued. destruct (_ && _); by constructor. Qed.

Lemma sent_trans p1 p2 p3 a b : sent p1 p2 a -> sent p2 p3 b -> sent p1 p3 (a ++ b).
Proof.
  intros [Q E R I D [X Y] B] [Q' E' R' I' D' [X' Y'] B']. constructor; try congruence; [|split; congruence].
  rewrite Q', Q. unfold pend. by rewrite map_app, app_assoc.
Qed.

(** The packets of a mouse with the id [id]. *)
Definition packetSize (id : Z) : Z := if (id =? 3) || (id =? 4) then 4 else 3.

Record packets (id b old dx dy : Z) (pkts : list (list Z)) : Prop := {
  pk_size : Forall (fun k => zlen k = packetSize id) pkts;
  pk_motion : totalMotion pkts = (dx, dy);
  pk_buttons : fold_left (fun _ k => buttonsOf k) pkts old = b
}.

Lemma packets_cons id b old dx dy k pkts :
  zlen k = packetSize id -> buttonsOf k = b -> packets id b b (dx - fst (motionOf k)) (dy - snd (motionOf k)) pkts ->
  packets id b old dx dy (k :: pkts).
Proof.
  intros Hs Hb [H1 H2 H3]. constructor.
  - by constructor.
  - cbn [totalMotion foldr]. fold (totalMotion pkts). rewrite H2. cbn [fst snd]. f_equal; lia.
  - cbn [fold_left]. by rewrite Hb.
Qed.

Lemma motionLoop_spec fuel : forall b old dx dy id w p,
  0 <= b < 8 -> Z.abs dx <= 127 * Z.of_nat fuel -> Z.abs dy <= 127 * Z.of_nat fuel -> -8 <= w <= 7 ->
  (fuel = O -> w = 0 /\ b = old) ->
  exists p' pkts, motionLoop fuel b old dx dy id w p = (Ok tt, p') /\ sent p p' (concat pkts) /\ packets id b old dx dy pkts.
Proof.
  induction fuel as [|fuel IH]; intros b old dx dy id w p Hb Hx Hy Hw H0; cbn [motionLoop].
  - destruct (H0 eq_refl) as [-> ->]. assert (dx = 0 /\ dy = 0) as [-> ->] by lia. rewrite !Z.eqb_refl. cbn [negb orb].
    exists p, []. split; [done|]. split; [apply sent_nil|by constructor].
  - destruct (_ || _) eqn:Hgo.
    + cbv zeta. set (cx := clampMouseDelta dx). set (cy := clampMouseDelta dy). set (k := ps2MousePacket b cx cy id _).
      assert (Hcx : -127 <= cx <= 127 /\ Z.abs (dx - cx) <= 127 * Z.of_nat fuel).
      { unfold cx, clampMouseDelta. destruct (Z.ltb_spec 127 dx), (Z.ltb_spec dx (-127)); lia. }
      assert (Hcy : -127 <= cy <= 127 /\ Z.abs (dy - cy) <= 127 * Z.of_nat fuel).
      { unfold cy, clampMouseDelta. destruct (Z.ltb_spec 127 dy), (Z.ltb_spec dy (-127)); lia. }
      assert (Hcw : w - clampMouseWheel w = 0).
      { unfold clampMouseWheel. destruct (Z.ltb_spec 7 w), (Z.ltb_spec w (-8)); lia. }
      destruct (packet_decodes b cx cy id (clampMouseWheel w)) as [Hm Hbt]; [done|tauto|tauto|]. fold k in Hm, Hbt.
      destruct (packet_shape b cx cy id (clampMouseWheel w)) as (t & Hk & Ht). fold k in Hk.
      assert (Hz : zlen k = packetSize id).
      { rewrite Hk, !zlen_cons, Ht. unfold packetSize. destruct ((id =? 3) || (id =? 4)); lia. }
      unfold gbind at 1. rewrite enqueue_run by (by rewrite Hk). rewrite Hcw.
      destruct (IH b b (dx - cx) (dy - cy) id 0 (enqueued k true p)) as (p' & pkts & Hrun & Hs & Hp);
        [done|tauto|tauto|lia|done|].
      exists p', (k :: pkts). split; [exact Hrun|]. split; [eapply sent_trans; [apply sent_enqueued|exact Hs]|].
      apply packets_cons; [done|done|]. by rewrite Hm.
    + apply orb_false_iff in Hgo as [Hgo Hbt]. apply orb_false_iff in Hgo as [Hgo _]. apply orb_false_iff in Hgo as [Hgx Hgy].
      apply negb_false_iff, Z.eqb_eq in Hgx, Hgy, Hbt. subst.
      exists p, []. split; [done|]. split; [apply sent_nil|by constructor].
Qed.

Lemma ps2Buttons_range m : 0 <= ps2Buttons m < 8.
Proof. unfold ps2Buttons. cbv zeta. repeat (case_match; try (vm_compute; by split)). Qed.

Lemma ps2WheelDelta_range m : -1 <= ps2WheelDelta m <= 1.
Proof. unfold ps2WheelDelta. destruct (negb _); [lia|]. destruct (negb _); lia. Qed.

Definition coord (v : Z) : Prop := 0 <= v < 65536.

(** A mouse whose movements are reported, with a known position. *)
Record moving (p : PS2Controller) : Prop := {
  mv_on : mouseEnabled p = true /\ mouseReporting p = true /\ mouseInit p = true;
  mv_pos : coord (mouseX p) /\ coord (mouseY p)
}.

Lemma PointerEvent_spec m x y p :
  moving p -> coord x -> coord y ->
  exists p' pkts, PointerEvent m x y p = (Ok tt, p') /\ moving p' /\
    queue p' = queue p ++ pend true (concat pkts) /\ mouseID p' = mouseID p /\
    (mouseX p' = x /\ mouseY p' = y /\ mouseButtons p' = ps2Buttons m) /\
    packets (mouseID p) (ps2Buttons m) (mouseButtons p) (x - mouseX p) (mouseY p - y) pkts.
Proof.
  intros [(He & Hr & Hi) [Hx Hy]] Cx Cy. unfold PointerEvent, gbind, gget, gupd. rewrite He, Hr, Hi. cbn [negb orb].
  set (p1 := p <| mouseX := x |> <| mouseY := y |> <| mouseInit := true |> <| mouseButtons := ps2Buttons m |>).
  destruct (motionLoop_spec 600 (ps2Buttons m) (mouseButtons p) (x - mouseX p) (mouseY p - y) (mouseID p)
    (ps2WheelDelta m) p1 (ps2Buttons_range m)) as (p' & pkts & Hrun & [Q E R I D [X Y] B] & Hp); unfold coord in *.
  - change (127 * Z.of_nat 600) with 76200. lia.
  - change (127 * Z.of_nat 600) with 76200. lia.
  - pose proof (ps2WheelDelta_range m). lia.
  - done.
  - exists p', pkts. split; [exact Hrun|]. split; [|by splits].
    constructor; [rewrite E, R, I; by splits|rewrite X, Y; by split].
Qed.

Fixpoint pointerEvents (evs : list (Z * Z * Z)) : P unit :=
  match evs with
  | [] => ret tt
  | (m, x, y) :: evs' => do! PointerEvent m x y in pointerEvents evs'
  end.

Lemma packets_app id b1 b2 old dx1 dy1 dx2 dy2 k1 k2 :
  packets id b1 old dx1 dy1 k1 -> packets id b2 b1 dx2 dy2 k2 -> packets id b2 old (dx1 + dx2) (dy1 + dy2) (k1 ++ k2).
Proof.
  intros [S1 M1 B1] [S2 M2 B2]. constructor.
  - by apply Forall_app.
  - clear - M1 M2. revert dx1 dy1 M1. induction k1 as [|k k1 IH]; intros dx1 dy1 M1; cbn [app totalMotion foldr] in *.
    + injection M1 as <- <-. exact M2.
    + fold (totalMotion k1) in M1. fold (totalMotion (k1 ++ k2)). destruct (totalMotion k1) as [x y] eqn:E.
      rewrite (IH x y eq_refl). injection M1 as <- <-. unfold motionOf. cbn [fst snd]. apply f_equal2; lia.
  - rewrite fold_left_app, B1. exact B2.
Qed.

(** C19: the pointer of the guest follows the remote pointer.  For every sequence
    of pointer events, however far apart, the packets queued for the mouse are
    of the size its id asks for; a driver that adds up their nine-bit movements
    has moved exactly from the first to the last position, and the buttons of
    the last packet are those held. *)
Theorem ps2_pointer_tracks evs p :
  moving p -> Forall (fun '(_, x, y) => coord x /\ coord y) evs ->
  exists p' pkts, pointerEvents evs p = (Ok tt, p') /\
    queue p' = queue p ++ pend true (concat pkts) /\
    Forall (fun k => zlen k = packetSize (mouseID p)) pkts /\
    totalMotion pkts = (mouseX p' - mouseX p, mouseY p - mouseY p') /\
    fold_left (fun _ k => buttonsOf k) pkts (mouseButtons p) = mouseButtons p' /\
    (forall before m x y, evs = before ++ [(m, x, y)] -> mouseX p' = x /\ mouseY p' = y).
Proof.
  intros Hp Hevs.
  cut (exists p' pkts, pointerEvents evs p = (Ok tt, p') /\ queue p' = queue p ++ pend true (concat pkts) /\
    packets (mouseID p) (mouseButtons p') (mouseButtons p) (mouseX p' - mouseX p) (mouseY p - mouseY p') pkts /\
    (forall before m x y, evs = before ++ [(m, x, y)] -> mouseX p' = x /\ mouseY p' = y)).
  { intros (p' & pkts & H1 & H2 & [H3 H4 H5] & H6). exists p', pkts. by splits. }
  revert p Hp. induction Hevs as [|[[m x] y] evs [Cx Cy] Hevs IH]; intros p Hp; cbn [pointerEvents].
  - exists p, []. splits; [done|cbn; by rewrite app_nil_r|constructor; cbn; [done|apply f_equal2; lia|done]|by intros [] ? ? ?].
  - destruct (PointerEvent_spec m x y p Hp Cx Cy) as (p1 & k1 & Hrun & Hp1 & Q1 & I1 & (X1 & Y1 & B1) & K1).
    destruct (IH p1 Hp1) as (p2 & k2 & Hrun2 & Q2 & K2 & L2). exists p2, (k1 ++ k2).
    unfold gbind. rewrite Hrun. split; [exact Hrun2|]. split; [|split].
    + rewrite Q2, Q1, <- app_assoc. unfold pend. by rewrite concat_app, map_app.
    + rewrite I1, B1, X1, Y1 in K2. pose proof (packets_app _ _ _ _ _ _ _ _ _ _ K1 K2) as K.
      replace (x - mouseX p + (mouseX p2 - x)) with (mouseX p2 - mouseX p) in K by lia.
      by replace (mouseY p - y + (y - mouseY p2)) with (mouseY p - mouseY p2) in K by lia.
    + intros [|ev before] m' x' y' [= E1 E2]; [|exact (L2 before m' x' y' E2)]. subst.
      cbn in Hrun2. injection Hrun2 as <-. done.
Qed.

Definition sampleMouse : PS2Controller :=
  NewPS2Controller true true <| mouseReporting := true |> <| mouseInit := true |> <| mouseX := 100 |> <| mouseY := 100 |>.

Lemma ps2_pointer_tracks_witness :
  exists p' pkts, pointerEvents [(0, 400, 100); (1, 390, 700)] sampleMouse = (Ok tt, p') /\
    queue p' = pend true (concat pkts) /\ totalMotion pkts = (290, -600).
Proof.
  destruct (ps2_pointer_tracks [(0, 400, 100); (1, 390, 700)] sampleMouse) as (p' & pkts & Hr & Hq & _ & Hm & _ & Hl).
  - constructor; [by splits|split; vm_compute; by split].
  - repeat (apply list.Forall_cons; split; [split; vm_compute; by split|]). apply Forall_nil_2.
  - exists p', pkts. split; [exact Hr|]. split; [exact Hq|]. destruct (Hl [(0, 400, 100)] 1 390 700 eq_refl) as [Hx Hy].
    rewrite Hm, Hx, Hy. reflexivity.
Defined.

(** ** Keys *)

(** The bytes as a driver for scan code set 1 reads them: a prefix marks the
    extended keys, bit 7 a key that is released. *)
Fixpoint decodeKeys (bytes : list Z) : list (ps2Scan * bool) :=
  match bytes with
  | [] => []
  | c :: rest =>
      if c =? 0xe0 then
        match rest with
        | [] => []
        | c' :: rest' => (mkScan (c' &&& 0x7f) true, c' <? 0x80) :: decodeKeys rest'
        end
      else (mkScan (c &&& 0x7f) false, c <? 0x80) :: decodeKeys rest
  end.

(** Codes that the encoding of the tables tells apart. *)
Definition scanOk (s : ps2Scan) : bool := (1 <=? sc_code s) && (sc_code s <? 0x60).

Lemma assoc_Forall {A} (Q : A -> Prop) k l v : Forall (fun x => Q (snd x)) l -> assoc k l = Some v -> Q v.
Proof.
  induction 1 as [|[k' v'] l Hx _ IH]; cbn; [done|]. destruct (_ =? _); [by intros [= <-]|done].
Qed.

Lemma forallb_Forall {A} (f : A -> bool) l : forallb f l = true -> Forall (fun x => f x = true) l.
Proof. intros H. apply List.Forall_forall. by apply forallb_forall. Qed.

Lemma scanCode_ok keysym s : ps2ScanCode keysym = Some s -> scanOk s = true.
Proof.
  unfold ps2ScanCode, ps2ASCIIKey. cbv zeta. intros H.
  destruct (assoc _ asciiKeys) as [c|] eqn:E.
  - injection H as <-. change (scanOk (mkScan c false)) with ((1 <=? c) && (c <? 0x60)).
    eapply (assoc_Forall (fun c => (1 <=? c) && (c <? 0x60) = true) _ asciiKeys c); [|exact E].
    by apply forallb_Forall.
  - destruct ((0xffbe <=? keysym) && (keysym <=? 0xffc9)) eqn:F.
    + injection H as <-. zbool. assert (Hall : forallb (fun i => scanOk (mkScan (zget functionCodes (Z.of_nat i)) false)) (seq 0 12) = true) by reflexivity.
      rewrite forallb_forall in Hall. specialize (Hall (Z.to_nat (keysym - 0xffbe))). rewrite Z2Nat.id in Hall by lia.
      apply Hall, in_seq. lia.
    + apply (assoc_Forall (fun s => scanOk s = true) keysym specialKeys s); [|exact H]. by apply forallb_Forall.
Qed.

Lemma decode_sequence s down rest :
  scanOk s = true -> decodeKeys (ps2KeySequence s down ++ rest) = (s, down) :: decodeKeys rest.
Proof.
  destruct s as [c ext]. unfold scanOk, ps2KeySequence. cbn [sc_code sc_extended]. cbv zeta. intros Hc. zbool.
  assert (Hall : forallb (fun i => let c := Z.of_nat i in
     ((c &&& 0x7f) =? c) && (((c ||| 0x80) &&& 0x7f) =? c) && (c <? 0x80) && negb ((c ||| 0x80) <? 0x80) &&
     negb ((c ||| 0x80) =? 0xe0)) (seq 0 0x60) = true) by reflexivity.
  rewrite forallb_forall in Hall. specialize (Hall (Z.to_nat c)). cbv zeta in Hall. rewrite Z2Nat.id in Hall by lia.
  assert (Hin : In (Z.to_nat c) (seq 0 0x60)) by (apply in_seq; lia). specialize (Hall Hin). zbool.
  destruct ext; cbn [app decodeKeys].
  - rewrite Z.eqb_refl. destruct down; cbn [app]; [|rewrite (proj2 (Z.ltb_ge _ _)) by done]; repeat f_equal; try done.
    by apply Z.ltb_lt.
  - destruct down.
    + rewrite (proj2 (Z.eqb_neq _ _)) by lia. repeat f_equal; [done|by apply Z.ltb_lt].
    + rewrite (proj2 (Z.eqb_neq _ _)) by done. repeat f_equal; [done|by apply Z.ltb_ge].
Qed.

Fixpoint keyEvents (evs : list (bool * Z)) : P unit :=
  match evs with
  | [] => ret tt
  | (down, keysym) :: evs' => do! KeyEvent down keysym in keyEvents evs'
  end.

(** The events of known keys. *)
Definition knownKeys (evs : list (bool * Z)) : list (ps2Scan * bool) :=
  omap (fun '(down, keysym) => match ps2ScanCode keysym with Some s => Some (s, down) | None => None end) evs.

(** Key events reach the guest.  While the keyboard is enabled and scans, the
    bytes queued for a sequence of key events are decoded by a driver for scan
    code set 1 to exactly the presses and releases of the known keys, in order;
    keysyms without a scan code are left out. *)
Theorem ps2_keys_decode evs p :
  keyboardEnabled p = true -> keyboardScan p = true ->
  exists p' bytes, keyEvents evs p = (Ok tt, p') /\ queue p' = queue p ++ pend false bytes /\
    decodeKeys bytes = knownKeys evs.
Proof.
  revert p. induction evs as [|[down k] evs IH]; intros p He Hs; cbn [keyEvents].
  - exists p, []. splits; [done|cbn; by rewrite app_nil_r|done].
  - unfold KeyEvent, knownKeys. cbn [omap list_omap]. destruct (ps2ScanCode k) as [s|] eqn:E.
    + set (q := ps2KeySequence s down).
      assert (Hq : q <> []) by (unfold q, ps2KeySequence; cbv zeta; by destruct (sc_extended s)).
      unfold gbind, gget. rewrite He, Hs. cbn [andb]. rewrite (enqueue_run _ _ _ Hq).
      destruct (IH (enqueued q false p)) as (p' & bytes & Hrun & HQ & HD).
      * unfold enqueued. by destruct (_ && _).
      * unfold enqueued. by destruct (_ && _).
      * exists p', (q ++ bytes). split; [exact Hrun|]. split.
        -- rewrite HQ. unfold pend. rewrite map_app, app_assoc. f_equal. unfold enqueued. by destruct (_ && _).
        -- unfold q. rewrite decode_sequence by (by eapply scanCode_ok). by rewrite HD.
    + destruct (IH p He Hs) as (p' & bytes & Hrun & HQ & HD). exists p', bytes. by splits.
Qed.

Lemma ps2_keys_decode_witness :
  exists p' bytes, keyEvents [(true, 0xffe3); (true, 0xffff); (false, 0xffff); (true, 0x1234)] (NewPS2Controller true true) = (Ok tt, p') /\
    queue p' = pend false bytes /\
    decodeKeys bytes = [(mkScan 0x1d false, true); (mkScan 0x53 true, true); (mkScan 0x53 true, false)].
Proof.
  exact (ps2_keys_decode [(true, 0xffe3); (true, 0xffff); (false, 0xffff); (true, 0x1234)] (NewPS2Controller true true)
    eq_refl eq_refl).
Defined.
