(* ===== verification/Atapi.v ===== *)
(** * The ATAPI CD-ROM drive (src/internal/iodev/atapi_cdrom.go)

    The task-file registers of the primary master, the PACKET protocol and the
    packet commands a BIOS uses to boot from a disc.  The drive never fails an
    access, so its operations are functions on its state.  The medium is an
    io.ReaderAt: [ReadAt off n] is the bytes it delivers, at most [n], and its
    error.  [interrupts] counts the interrupts that were injected. *)

From S2P Require Import Prelude Bytes.

Definition ataPrimaryBase : Z := 0x1f0.
Definition ataPrimaryControl : Z := 0x3f6.
Definition ataRegData : Z := 0x1f0.
Definition ataRegError : Z := 0x1f1.
Definition ataRegFeatures : Z := 0x1f1.
Definition ataRegSectorCnt : Z := 0x1f2.
Definition ataRegLBALow : Z := 0x1f3.
Definition ataRegLBAMid : Z := 0x1f4.
Definition ataRegLBAHigh : Z := 0x1f5.
Definition ataRegDriveHead : Z := 0x1f6.
Definition ataRegStatus : Z := 0x1f7.
Definition ataRegCommand : Z := 0x1f7.
Definition ataRegAltStatus : Z := 0x3f6.
Definition ataRegDevControl : Z := 0x3f6.

Definition ataStatusErr : Z := 0x01.
Definition ataStatusDRQ : Z := 0x08.
Definition ataStatusDSC : Z := 0x10.
Definition ataStatusDRDY : Z := 0x40.
Definition ataErrABRT : Z := 0x04.

Definition ataCmdDeviceReset : Z := 0x08.
Definition ataCmdExecuteDiag : Z := 0x90.
Definition ataCmdPacket : Z := 0xa0.
Definition ataCmdIdentifyPacket : Z := 0xa1.
Definition ataCmdIdentifyDevice : Z := 0xec.

Definition atapiSectorSize : Z := 2048.

Record ATAPICDROM := mkCdrom {
  a_size : Z;
  a_wired : bool;            (* inject is not nil *)
  errorReg : Z;
  featuresReg : Z;
  sectorCount : Z;
  lbaLow : Z;
  lbaMid : Z;
  lbaHigh : Z;
  driveHead : Z;
  a_status : Z;
  devControl : Z;
  a_data : list Z;
  dataOffset : Z;
  awaitingPacket : bool;
  packet : list Z;
  senseKey : Z;
  senseASC : Z;
  senseASCQ : Z;
  interrupts : Z
}.

#[export] Instance eta_ATAPICDROM : Settable ATAPICDROM := fun r =>
  mkCdrom (a_size r) (a_wired r) (errorReg r) (featuresReg r) (sectorCount r) (lbaLow r) (lbaMid r) (lbaHigh r)
    (driveHead r) (a_status r) (devControl r) (a_data r) (dataOffset r) (awaitingPacket r) (packet r) (senseKey r)
    (senseASC r) (senseASCQ r) (interrupts r).

Definition clearSense (c : ATAPICDROM) : ATAPICDROM :=
  c <| senseKey := 0 |> <| senseASC := 0 |> <| senseASCQ := 0 |>.

Definition setSense (key asc : Z) (c : ATAPICDROM) : ATAPICDROM :=
  c <| senseKey := key |> <| senseASC := asc |> <| senseASCQ := 0 |>.

(** nIEN of the device control register masks the interrupt. *)
Definition atapiInterrupt (c : ATAPICDROM) : ATAPICDROM :=
  if negb (devControl c &&& 0x02 =? 0) || negb (a_wired c) then c else c <| interrupts := interrupts c + 1 |>.

Definition atapiReset (c : ATAPICDROM) : ATAPICDROM :=
  clearSense (c
    <| errorReg := 0x01 |> <| featuresReg := 0 |> <| sectorCount := 0x01 |> <| lbaLow := 0x01 |>
    <| lbaMid := 0x14 |> <| lbaHigh := 0xeb |> <| driveHead := 0xa0 |>
    <| a_status := ataStatusDRDY ||| ataStatusDSC |> <| a_data := [] |> <| dataOffset := 0 |>
    <| awaitingPacket := false |> <| packet := [] |>).

Definition NewATAPICDROM (size : Z) (inject : bool) : ATAPICDROM :=
  atapiReset (mkCdrom size inject 0 0 0 0 0 0 0 0 0 [] 0 false [] 0 0 0 0).

Definition slaveSelected (c : ATAPICDROM) : bool := negb (driveHead c &&& 0x10 =? 0).

Definition atapiFailed (c : ATAPICDROM) : ATAPICDROM :=
  c <| errorReg := ataErrABRT |> <| a_status := ataStatusDRDY ||| ataStatusDSC ||| ataStatusErr |>.

Definition abort (c : ATAPICDROM) : ATAPICDROM := atapiInterrupt (setSense 0x05 0x20 (atapiFailed c)).

Definition prepareData (data : list Z) (alloc : Z) (c : ATAPICDROM) : ATAPICDROM :=
  let data := if (0 <? alloc) && (alloc <? zlen data) then take (Z.to_nat alloc) data else data in
  let maxTransfer := lbaMid c ||| (lbaHigh c ≪ 8) in
  let maxTransfer := if maxTransfer =? 0 then 65536 else maxTransfer in
  let data := if maxTransfer <? zlen data then take (Z.to_nat maxTransfer) data else data in
  let c := c <| a_data := data |> <| dataOffset := 0 |> <| lbaMid := u8 (zlen data) |>
             <| lbaHigh := u8 (zlen data ≫ 8) |> in
  let c :=
    if zlen data =? 0
    then c <| a_status := ataStatusDRDY ||| ataStatusDSC |> <| sectorCount := 0x03 |>
    else c <| a_status := ataStatusDRDY ||| ataStatusDRQ |> <| sectorCount := 0x02 |> in
  atapiInterrupt c.

Definition finishPacket (data : list Z) (alloc : Z) (c : ATAPICDROM) : ATAPICDROM :=
  prepareData data alloc (c <| errorReg := 0 |>).

(** ** The data of the commands *)

Definition ascii_bytes (s : string) : list Z := map (fun a => Z.of_N (Ascii.N_of_ascii a)) (list_ascii_of_string s).

(** The first [n] bytes of the string, padded with spaces. *)
Definition copyPadded (n : nat) (s : string) : list Z :=
  let b := take n (ascii_bytes s) in b ++ replicate (n - length b) 32.

Fixpoint swapPairs (l : list Z) : list Z :=
  match l with
  | a :: b :: l' => b :: a :: swapPairs l'
  | _ => l
  end.

Definition copyATAString (n : nat) (s : string) : list Z := swapPairs (copyPadded n s).

Definition putWord (data : list Z) (idx v : Z) : list Z := zwrite data (idx * 2) (le_bytes 2 v).

Definition identifyPacket : list Z :=
  let data := zeros 512 in
  let data := putWord data 0 0x85c0 in
  let data := putWord data 49 0x0200 in
  let data := putWord data 53 0x0003 in
  let data := putWord data 64 0x0003 in
  let data := putWord data 80 0x007e in
  let data := putWord data 82 0x4000 in
  let data := putWord data 83 0x4000 in
  let data := putWord data 84 0x4000 in
  let data := putWord data 93 0x4041 in
  let data := zwrite data (23 * 2) (copyATAString 8 "1.0") in
  zwrite data (27 * 2) (copyATAString 40 "gokvm ATAPI CD-ROM").

Definition inquiry : list Z :=
  [0x05; 0x80; 0x05; 0x02; 31; 0; 0; 0] ++ copyPadded 8 "GOKVM" ++ copyPadded 16 "VIRTUAL CD-ROM" ++ copyPadded 4 "1.0".

Definition requestSense (c : ATAPICDROM) : list Z :=
  [0x70; 0; senseKey c; 0; 0; 0; 0; 10; 0; 0; 0; 0; senseASC c; senseASCQ c; 0; 0; 0; 0].

Definition blockCount (c : ATAPICDROM) : Z :=
  if a_size c <=? 0 then 0
  else
    let blocks := Z.quot (u64 (a_size c + atapiSectorSize - 1)) atapiSectorSize in
    if 2 ^ 32 - 1 <? blocks then 2 ^ 32 - 1 else blocks.

Definition readCapacity (c : ATAPICDROM) : list Z :=
  let blocks := blockCount c in
  let lastBlock := if 0 <? blocks then blocks - 1 else 0 in
  be_bytes 4 lastBlock ++ be_bytes 4 atapiSectorSize.

Definition lbaToMSF (lba : Z) : Z * Z * Z :=
  let minutes := lba / (60 * 75) in
  let lba := lba mod (60 * 75) in
  (u8 minutes, u8 (lba / 75), u8 (lba mod 75)).

Definition putTOCAddress (lba : Z) (msf : bool) : list Z :=
  if negb msf then be_bytes 4 lba
  else let '(minutes, seconds, frames) := lbaToMSF (u32 (lba + 150)) in [0; minutes; seconds; frames].

Definition readTOC (msf : bool) (c : ATAPICDROM) : list Z :=
  be_bytes 2 18 ++ [1; 1; 0; 0x14; 1; 0] ++ putTOCAddress 0 msf ++ [0; 0x14; 0xaa; 0] ++ putTOCAddress (blockCount c) msf.

Definition getConfiguration : list Z := be_bytes 4 4 ++ [0; 0] ++ be_bytes 2 0x0008.

Definition readDiscInformation : list Z := be_bytes 2 32 ++ [0x0e; 1; 1; 1] ++ zeros 28.

(** ** Packets *)

Section Drive.
Context (ReadAt : Z -> Z -> list Z * option error).

Definition readBlocks (lba blocks : Z) (c : ATAPICDROM) : ATAPICDROM :=
  if blocks =? 0 then finishPacket [] 0 (clearSense c)
  else
    let byteCount := u64 (blocks * atapiSectorSize) in
    if 2 ^ 63 - 1 <? byteCount then atapiInterrupt (atapiFailed (setSense 0x05 0x21 c))
    else
      let off := i64 (lba * atapiSectorSize) in
      let '(got, err) := ReadAt off byteCount in
      match err with
      | Some EEOF | None => finishPacket (got ++ zeros (byteCount - zlen got)) 0 (clearSense c)
      | Some _ => atapiInterrupt (atapiFailed (setSense 0x03 0x11 c))
      end.

(** [cmd] has 12 bytes. *)
Definition handlePacket (cmd : list Z) (c : ATAPICDROM) : ATAPICDROM :=
  let op := zget cmd 0 in
  let alloc8 := zget cmd 4 in
  let alloc16 := be_val (zslice cmd 7 2) in
  if op =? 0x00 then finishPacket [] 0 (clearSense c)
  else if op =? 0x03 then clearSense (finishPacket (requestSense c) alloc8 c)
  else if op =? 0x12 then finishPacket inquiry alloc8 (clearSense c)
  else if op =? 0x1a then finishPacket [3; 0; 0; 0] alloc8 (clearSense c)
  else if (op =? 0x1b) || (op =? 0x1e) then finishPacket [] 0 (clearSense c)
  else if op =? 0x25 then let c := clearSense c in finishPacket (readCapacity c) 8 c
  else if op =? 0x28 then readBlocks (be_val (zslice cmd 2 4)) alloc16 c
  else if op =? 0x43 then
    let c := clearSense c in finishPacket (readTOC (negb (zget cmd 1 &&& 0x02 =? 0)) c) alloc16 c
  else if op =? 0x46 then finishPacket getConfiguration alloc16 (clearSense c)
  else if op =? 0x51 then finishPacket readDiscInformation alloc16 (clearSense c)
  else if op =? 0xa8 then readBlocks (be_val (zslice cmd 2 4)) (be_val (zslice cmd 6 4)) c
  else atapiInterrupt (atapiFailed (setSense 0x05 0x20 c) <| sectorCount := 0x03 |>).

Definition command (cmd : Z) (c : ATAPICDROM) : ATAPICDROM :=
  if slaveSelected c then c
  else if cmd =? ataCmdDeviceReset then atapiInterrupt (atapiReset c)
  else if cmd =? ataCmdExecuteDiag then
    atapiInterrupt (c <| errorReg := 0x01 |> <| a_status := ataStatusDRDY ||| ataStatusDSC |>)
  else if cmd =? ataCmdIdentifyDevice then abort c
  else if cmd =? ataCmdIdentifyPacket then prepareData identifyPacket 0 c
  else if cmd =? ataCmdPacket then
    c <| awaitingPacket := true |> <| packet := [] |> <| errorReg := 0 |>
      <| a_status := ataStatusDRDY ||| ataStatusDRQ |> <| sectorCount := 0x01 |>
  else abort c.

(** ** Accesses of the guest *)

(** [readData]: the bytes copied to the guest, zero where there are none. *)
Definition readData (n : Z) (c : ATAPICDROM) : list Z * ATAPICDROM :=
  let avail := zslice (a_data c) (dataOffset c) n in
  let c := c <| dataOffset := dataOffset c + zlen avail |> in
  let c :=
    if zlen (a_data c) <=? dataOffset c
    then c <| a_data := [] |> <| dataOffset := 0 |> <| a_status := ataStatusDRDY ||| ataStatusDSC |>
           <| sectorCount := 0x03 |>
    else c in
  (avail ++ zeros (n - zlen avail), c).

Definition writeData (src : list Z) (c : ATAPICDROM) : ATAPICDROM :=
  if negb (awaitingPacket c) then c
  else
    let p := packet c ++ src in
    if zlen p <? 12 then c <| packet := p |>
    else handlePacket (take 12 p) (c <| awaitingPacket := false |> <| packet := [] |>).

(** [Read] on [data]: what the guest sees. *)
Definition atapiRead (port : Z) (data : list Z) (c : ATAPICDROM) : list Z * ATAPICDROM :=
  let reg v := (zinsert 0 v data, c) in
  if zlen data =? 0 then (data, c)
  else if slaveSelected c then (zeros (zlen data), c)
  else if port =? ataRegData then readData (zlen data) c
  else if port =? ataRegError then reg (errorReg c)
  else if port =? ataRegSectorCnt then reg (sectorCount c)
  else if port =? ataRegLBALow then reg (lbaLow c)
  else if port =? ataRegLBAMid then reg (lbaMid c)
  else if port =? ataRegLBAHigh then reg (lbaHigh c)
  else if port =? ataRegDriveHead then reg (driveHead c)
  else if (port =? ataRegStatus) || (port =? ataRegAltStatus) then reg (a_status c)
  else (replicate (length data) 0xff, c).

Definition atapiWrite (port : Z) (data : list Z) (c : ATAPICDROM) : ATAPICDROM :=
  let b := zget data 0 in
  if zlen data =? 0 then c
  else if port =? ataRegData then writeData data c
  else if port =? ataRegFeatures then c <| featuresReg := b |>
  else if port =? ataRegSectorCnt then c <| sectorCount := b |>
  else if port =? ataRegLBALow then c <| lbaLow := b |>
  else if port =? ataRegLBAMid then c <| lbaMid := b |>
  else if port =? ataRegLBAHigh then c <| lbaHigh := b |>
  else if port =? ataRegDriveHead then c <| driveHead := b |>
  else if port =? ataRegCommand then command b c
  else if port =? ataRegDevControl then
    let c := c <| devControl := b |> in
    if negb (b &&& 0x04 =? 0) then atapiReset c else c
  else c.

End Drive.
