(* ===== verification/AtapiSpec.v ===== *)
(** * What the CD-ROM drive promises

    Its state stays in bounds whatever the guest does; a READ command delivers
    the sectors of the disc through the PACKET protocol; errors reach the guest
    through REQUEST SENSE; capacity and table of contents describe the disc. *)

From S2P Require Import Prelude Bytes Atapi.

(** ** The state stays in bounds *)

Record cdromOk (c : ATAPICDROM) : Prop := {
  k_data : bytes_ok (a_data c) /\ zlen (a_data c) <= 65536;
  k_offset : 0 <= dataOffset c /\ (dataOffset c < zlen (a_data c) \/ (a_data c = [] /\ dataOffset c = 0));
  k_regs : is_u8 (errorReg c) /\ is_u8 (sectorCount c) /\ is_u8 (lbaLow c) /\ is_u8 (lbaMid c) /\ is_u8 (lbaHigh c) /\
           is_u8 (driveHead c) /\ is_u8 (a_status c);
  k_packet : bytes_ok (packet c) /\ zlen (packet c) < 12;
  k_sense : is_u8 (senseKey c) /\ is_u8 (senseASC c) /\ is_u8 (senseASCQ c)
}.

Lemma take_bytes_ok n l : bytes_ok l -> bytes_ok (take n l).
Proof. apply Forall_take. Qed.

Lemma zlen_take_le n (l : list Z) : zlen (take n l) <= zlen l.
Proof. unfold zlen. rewrite length_take. lia. Qed.

Lemma zlen_take_lim n (l : list Z) : 0 <= n -> zlen (take (Z.to_nat n) l) <= n.
Proof. intros. unfold zlen. rewrite length_take. lia. Qed.

(** What [prepareData] hands to the guest. *)
Definition transferLimit (c : ATAPICDROM) : Z :=
  let m := lbaMid c ||| (lbaHigh c ≪ 8) in if m =? 0 then 65536 else m.

Definition handedOver (data : list Z) (alloc : Z) (c : ATAPICDROM) : list Z :=
  let data := if (0 <? alloc) && (alloc <? zlen data) then take (Z.to_nat alloc) data else data in
  if transferLimit c <? zlen data then take (Z.to_nat (transferLimit c)) data else data.

Lemma transferLimit_range c : is_u8 (lbaMid c) -> is_u8 (lbaHigh c) -> 1 <= transferLimit c <= 65536.
Proof.
  intros Hm Hh. unfold transferLimit, is_u8 in *. cbv zeta.
  assert (0 <= lbaMid c ||| (lbaHigh c ≪ 8) < 2 ^ 16) by (apply lor_range; [lia|rewrite Z.shiftl_mul_pow2 by lia; lia|lia]).
  destruct (Z.eqb_spec (lbaMid c ||| (lbaHigh c ≪ 8)) 0); lia.
Qed.

Lemma handedOver_ok data alloc c :
  bytes_ok data -> is_u8 (lbaMid c) -> is_u8 (lbaHigh c) ->
  bytes_ok (handedOver data alloc c) /\ zlen (handedOver data alloc c) <= 65536.
Proof.
  intros Hd Hm Hh. pose proof (transferLimit_range c Hm Hh). unfold handedOver. cbv zeta.
  set (d := if _ && _ then _ else data).
  assert (Hdok : bytes_ok d) by (unfold d; destruct (_ && _); auto using take_bytes_ok).
  destruct (Z.ltb_spec (transferLimit c) (zlen d)); [|split; [done|lia]].
  split; [by apply take_bytes_ok|]. pose proof (zlen_take_lim (transferLimit c) d). lia.
Qed.

(** The fields an operation on the result of a command may change. *)
Lemma interrupt_ok c : cdromOk c -> cdromOk (atapiInterrupt c).
Proof. intros []. unfold atapiInterrupt. destruct (_ || _); by constructor. Qed.

Lemma sense_ok c k a : cdromOk c -> is_u8 k -> is_u8 a -> cdromOk (setSense k a c).
Proof. intros [] ? ?. by constructor. Qed.

Lemma clear_ok c : cdromOk c -> cdromOk (clearSense c).
Proof. intros []. by constructor. Qed.

Lemma failed_ok c : cdromOk c -> cdromOk (atapiFailed c).
Proof. intros [? ? (? & ? & ? & ? & ? & ? & ?) ? ?]. by constructor. Qed.

Lemma reset_ok c : cdromOk (atapiReset c).
Proof.
  constructor; try done; (split; [apply Forall_nil_2|done]) || (split; [done|by right]).
Qed.

Lemma prepareData_fields data alloc c :
  let d := handedOver data alloc c in
  let c' := prepareData data alloc c in
  a_data c' = d /\ dataOffset c' = 0 /\ lbaMid c' = u8 (zlen d) /\ lbaHigh c' = u8 (zlen d ≫ 8) /\
  a_status c' = (if zlen d =? 0 then 0x50 else 0x48) /\ sectorCount c' = (if zlen d =? 0 then 3 else 2) /\
  (errorReg c' = errorReg c /\ lbaLow c' = lbaLow c /\ driveHead c' = driveHead c /\ packet c' = packet c /\
   awaitingPacket c' = awaitingPacket c) /\
  (senseKey c' = senseKey c /\ senseASC c' = senseASC c /\ senseASCQ c' = senseASCQ c).
Proof.
  cbv zeta. unfold prepareData. fold (transferLimit c). cbv zeta. fold (handedOver data alloc c).
  unfold atapiInterrupt. destruct (zlen (handedOver data alloc c) =? 0); destruct (_ || _); by splits.
Qed.

Lemma prepareData_ok data alloc c : bytes_ok data -> cdromOk c -> cdromOk (prepareData data alloc c).
Proof.
  intros Hd [_ _ (R1 & R2 & R3 & R4 & R5 & R6 & R7) Hp Hs].
  destruct (handedOver_ok data alloc c Hd R4 R5) as [Hb Hl].
  destruct (prepareData_fields data alloc c) as (E1 & E2 & E3 & E4 & E5 & E6 & (E7 & E8 & E9 & E10 & _) & E11 & E12 & E13).
  pose proof (zlen_nonneg (handedOver data alloc c)).
  constructor; rewrite ?E1, ?E2, ?E3, ?E4, ?E5, ?E6, ?E7, ?E8, ?E9, ?E10, ?E11, ?E12, ?E13; try done.
  - split; [lia|]. destruct (handedOver data alloc c); [by right|left; rewrite zlen_cons in *; pose proof (zlen_nonneg l); lia].
  - splits; try done; unfold is_u8; try apply u8_range; destruct (_ =? 0); lia.
Qed.

(** The data of the commands are bytes. *)
Lemma ascii_bytes_ok s : bytes_ok (ascii_bytes s).
Proof.
  unfold ascii_bytes. apply Forall_map, Forall_true. intros a. unfold is_u8.
  pose proof (Ascii.N_ascii_bounded a). cbn. lia.
Qed.

Lemma copyPadded_ok n s : bytes_ok (copyPadded n s).
Proof.
  unfold copyPadded. apply Forall_app. split; [apply take_bytes_ok, ascii_bytes_ok|].
  apply Forall_replicate. unfold is_u8. lia.
Qed.

Lemma commandData_ok c : cdromOk c ->
  bytes_ok identifyPacket /\ bytes_ok inquiry /\ bytes_ok (requestSense c) /\ bytes_ok (readCapacity c) /\
  (forall msf, bytes_ok (readTOC msf c)) /\ bytes_ok getConfiguration /\ bytes_ok readDiscInformation.
Proof.
  intros H. assert (Hlit : forall l, forallb (fun b => (0 <=? b) && (b <? 256)) l = true -> bytes_ok l).
  { intros l Hl. apply List.Forall_forall. rewrite forallb_forall in Hl. intros x Hx. specialize (Hl x Hx). unfold is_u8. lia. }
  splits.
  - by apply Hlit.
  - by apply Hlit.
  - destruct (k_sense _ H) as (? & ? & ?). unfold requestSense, bytes_ok.
    repeat (apply list.Forall_cons; split; [first [done|unfold is_u8; lia]|]). apply Forall_nil_2.
  - unfold readCapacity. apply Forall_app. split; apply be_bytes_ok.
  - intros msf. assert (Ht : forall lba, bytes_ok (putTOCAddress lba msf)).
    { intros lba. unfold putTOCAddress. destruct msf; [|apply be_bytes_ok]. cbn [negb lbaToMSF]. unfold lbaToMSF. cbv zeta.
      unfold bytes_ok. repeat (apply list.Forall_cons; split; [unfold is_u8; try apply u8_range; lia|]). apply Forall_nil_2. }
    unfold readTOC. repeat (apply Forall_app; split); try apply be_bytes_ok; try apply Ht; by apply Hlit.
  - by apply Hlit.
  - by apply Hlit.
Qed.

Section Reader.
Context (ReadAt : Z -> Z -> list Z * option error).

(** What io.ReaderAt documents: at most the bytes asked for. *)
Definition medium_ok : Prop :=
  forall off n, 0 <= n -> bytes_ok (fst (ReadAt off n)) /\ zlen (fst (ReadAt off n)) <= n.

Hypothesis Hreader : medium_ok.

Lemma finishPacket_ok data alloc c : bytes_ok data -> cdromOk c -> cdromOk (finishPacket data alloc c).
Proof.
  intros Hd Hc. apply prepareData_ok; [done|]. destruct Hc as [? ? (? & ? & ? & ? & ? & ? & ?) ? ?]. by constructor.
Qed.

Lemma readBlocks_ok lba blocks c : 0 <= blocks -> cdromOk c -> cdromOk (readBlocks ReadAt lba blocks c).
Proof.
  intros Hb Hc. unfold readBlocks. destruct (blocks =? 0); [apply finishPacket_ok; [apply Forall_nil_2|by apply clear_ok]|].
  cbv zeta. destruct (_ <? _); [apply interrupt_ok, failed_ok, sense_ok; [done|unfold is_u8; lia..]|].
  pose proof (u64_range (blocks * atapiSectorSize)).
  destruct (Hreader (i64 (lba * atapiSectorSize)) (u64 (blocks * atapiSectorSize))) as [Hg _]; [lia|].
  destruct (ReadAt _ _) as [got err]. cbn [fst] in Hg.
  assert (Hd : bytes_ok (got ++ zeros (u64 (blocks * atapiSectorSize) - zlen got))).
  { apply Forall_app. split; [done|]. apply Forall_replicate. unfold is_u8. lia. }
  assert (Hf : cdromOk (atapiInterrupt (atapiFailed (setSense 0x03 0x11 c)))).
  { apply interrupt_ok, failed_ok, sense_ok; [done|unfold is_u8; lia..]. }
  assert (Hok : cdromOk (finishPacket (got ++ zeros (u64 (blocks * atapiSectorSize) - zlen got)) 0 (clearSense c))).
  { apply finishPacket_ok; [done|by apply clear_ok]. }
  destruct err as [[]|]; done.
Qed.

Lemma be_val_nonneg l : bytes_ok l -> 0 <= be_val l.
Proof. intros H. unfold be_val. apply le_val_range. by apply Forall_rev. Qed.

Lemma handlePacket_ok cmd c : bytes_ok cmd -> cdromOk c -> cdromOk (handlePacket ReadAt cmd c).
Proof.
  intros Hcmd Hc. destruct (commandData_ok c Hc) as (_ & Hi & Hs & _ & _ & Hg & Hr).
  destruct (commandData_ok _ (clear_ok _ Hc)) as (_ & _ & _ & Hcap & Htoc & _ & _).
  assert (Hz : forall o n, 0 <= be_val (zslice cmd o n)) by (intros; apply be_val_nonneg; by apply bytes_ok_slice).
  assert (Hm : bytes_ok [3; 0; 0; 0]) by (unfold bytes_ok; repeat (apply list.Forall_cons; split; [unfold is_u8; lia|]); apply Forall_nil_2).
  pose proof (clear_ok _ Hc) as Hk. pose proof (Forall_nil_2 is_u8) as Hn.
  unfold handlePacket. cbv zeta.
  repeat match goal with |- cdromOk (if ?b then _ else _) => destruct b end;
    auto using finishPacket_ok, clear_ok, readBlocks_ok.
  apply interrupt_ok.
  destruct (failed_ok _ (sense_ok c 0x05 0x20 Hc ltac:(unfold is_u8; lia) ltac:(unfold is_u8; lia))) as [? ? (? & ? & ? & ? & ? & ? & ?) ? ?].
  by constructor.
Qed.

Lemma command_ok cmd c : cdromOk c -> cdromOk (command cmd c).
Proof.
  intros Hc. destruct (commandData_ok c Hc) as (Hi & _).
  assert (Ha : cdromOk (abort c)).
  { apply interrupt_ok, sense_ok; [by apply failed_ok|unfold is_u8; lia..]. }
  unfold command. repeat match goal with |- cdromOk (if ?b then _ else _) => destruct b end;
    auto using prepareData_ok, interrupt_ok, reset_ok.
  - apply interrupt_ok. destruct Hc as [? ? (? & ? & ? & ? & ? & ? & ?) ? ?]. by constructor.
  - destruct Hc as [? ? (? & ? & ? & ? & ? & ? & ?) [? ?] ?]. constructor; try done. split; [apply Forall_nil_2|done].
Qed.

Lemma readData_spec n c : 0 <= n -> cdromOk c ->
  cdromOk (snd (readData n c)) /\ bytes_ok (fst (readData n c)) /\ zlen (fst (readData n c)) = n.
Proof.
  intros Hn [[Hd Hl] [Ho Hoff] (? & ? & ? & ? & ? & ? & ?) ? ?]. unfold readData. cbv zeta.
  set (avail := zslice (a_data c) (dataOffset c) n).
  assert (Ha : bytes_ok avail) by (by apply bytes_ok_slice).
  assert (Hlen : zlen avail <= n /\ zlen avail <= zlen (a_data c) - dataOffset c).
  { unfold avail, zslice, zlen in *. rewrite length_take, length_drop. destruct Hoff as [?|[E ->]]; [lia|rewrite E in *; cbn in *; lia]. }
  cbn [fst snd]. pose proof (zlen_nonneg avail). splits.
  - destruct (_ <=? _) eqn:E.
    + constructor; try done; [split; [apply Forall_nil_2|done]|split; [done|by right]].
    + apply Z.leb_gt in E. change (dataOffset c + zlen avail < zlen (a_data c)) in E.
      constructor; try done. split; [cbn; lia|by left].
  - apply Forall_app. split; [done|]. apply Forall_replicate. unfold is_u8. lia.
  - rewrite zlen_app, zlen_zeros by lia. lia.
Qed.

Lemma atapiRead_ok port data c : bytes_ok data -> cdromOk c ->
  let r := atapiRead port data c in cdromOk (snd r) /\ bytes_ok (fst r) /\ zlen (fst r) = zlen data.
Proof.
  intros Hd Hc. cbv zeta. unfold atapiRead. cbv zeta. pose proof (zlen_nonneg data).
  pose proof (k_regs _ Hc) as (? & ? & ? & ? & ? & ? & ?).
  assert (Hreg : forall v, is_u8 v -> bytes_ok (zinsert 0 v data) /\ zlen (zinsert 0 v data) = zlen data).
  { intros v Hv. split; [by apply Forall_insert|apply zlen_insert]. }
  destruct (zlen data =? 0); [done|]. destruct (slaveSelected c).
  { splits; [done|apply Forall_replicate; unfold is_u8; lia|]. cbn [fst]. rewrite zlen_zeros; lia. }
  destruct (port =? ataRegData); [by apply readData_spec|].
  repeat match goal with |- context [if ?b then _ else _] => destruct b; [cbn [fst snd]; split; [done|by apply Hreg]|] end.
  cbn [fst snd]. splits; [done|apply Forall_replicate; unfold is_u8; lia|].
  unfold zlen. by rewrite length_replicate.
Qed.

Lemma atapiWrite_ok port data c : bytes_ok data -> cdromOk c -> cdromOk (atapiWrite ReadAt port data c).
Proof.
  intros Hd Hc. assert (Hb : is_u8 (zget data 0)) by (by apply bytes_ok_zget).
  unfold atapiWrite. cbv zeta. destruct (zlen data =? 0); [done|].
  destruct (port =? ataRegData).
  { unfold writeData. destruct (negb _); [done|]. destruct Hc as [? ? (? & ? & ? & ? & ? & ? & ?) [Hp1 Hp2] ?]. cbv zeta.
    assert (Hp : bytes_ok (packet c ++ data)) by (by apply Forall_app).
    destruct (zlen (packet c ++ data) <? 12) eqn:E; [zbool; by constructor|].
    apply handlePacket_ok; [by apply take_bytes_ok|]. constructor; try done. split; [apply Forall_nil_2|done]. }
  repeat match goal with |- cdromOk (if ?b then _ else _) => destruct b end; try apply reset_ok; try (by apply command_ok);
    destruct Hc as [? ? (? & ? & ? & ? & ? & ? & ?) ? ?]; by constructor.
Qed.

(** An access of the guest. *)
Inductive portAccess :=
| ARead (port : Z) (data : list Z)
| AWrite (port : Z) (data : list Z).

Definition access_ok (a : portAccess) : Prop :=
  match a with ARead _ d | AWrite _ d => bytes_ok d end.

(** The accesses one after the other: the answers of the reads. *)
Fixpoint accesses (l : list portAccess) (c : ATAPICDROM) : list (list Z) * ATAPICDROM :=
  match l with
  | [] => ([], c)
  | ARead port d :: l' =>
      let '(v, c) := atapiRead port d c in let '(vs, c) := accesses l' c in (v :: vs, c)
  | AWrite port d :: l' => accesses l' (atapiWrite ReadAt port d c)
  end.

End Reader.

Definition readLengths (l : list portAccess) : list Z :=
  omap (fun a => match a with ARead _ d => Some (zlen d) | AWrite _ _ => None end) l.

(** The drive stays well formed.  After any sequence of accesses to its ports,
    of any width and with any disc, the registers are bytes, the data phase is
    within its buffer of at most 64 KiB and the packet buffer is not full; every
    read was answered with as many bytes as it asked for. *)
Theorem atapi_stays_ok ReadAt l size inject :
  medium_ok ReadAt -> Forall access_ok l ->
  let r := accesses ReadAt l (NewATAPICDROM size inject) in
  cdromOk (snd r) /\ Forall bytes_ok (fst r) /\ map zlen (fst r) = readLengths l.
Proof.
  intros Hr Hl. cbv zeta. assert (H : cdromOk (NewATAPICDROM size inject)) by apply reset_ok.
  revert H. generalize (NewATAPICDROM size inject). induction Hl as [|[port d|port d] l Ha _ IH]; intros c H; cbn [accesses].
  - by splits.
  - destruct (atapiRead_ok port d c Ha H) as (H1 & H2 & H3). destruct (atapiRead port d c) as [v c1]. cbn [fst snd] in *.
    destruct (IH c1 H1) as (I1 & I2 & I3). destruct (accesses ReadAt l c1) as [vs c2]. cbn [fst snd] in *.
    splits; [done|by constructor|]. cbn. by rewrite H3, I3.
  - exact (IH _ (atapiWrite_ok ReadAt Hr port d c Ha H)).
Qed.

Definition atapi_stays_ok_disc (off n : Z) : list Z * option error := (zslice [1; 2; 3] off n, Some EEOF).

Lemma atapi_stays_ok_witness :
  let l := [AWrite 0x1f7 [0xa0]; AWrite 0x1f0 [0x25; 0; 0; 0; 0; 0; 0; 0; 0; 0; 0; 0]; ARead 0x1f0 [0; 0; 0; 0]] in
  fst (accesses atapi_stays_ok_disc l (NewATAPICDROM 6000 true)) = [[0; 0; 0; 2]] /\
  map zlen (fst (accesses atapi_stays_ok_disc l (NewATAPICDROM 6000 true))) = [4].
Proof.
  cbv zeta. split; [by vm_compute|].
  refine (proj2 (proj2 (atapi_stays_ok atapi_stays_ok_disc _ 6000 true _ _))).
  - intros off n Hn. split; [apply bytes_ok_slice|unfold atapi_stays_ok_disc, zslice, zlen; cbn [fst]; rewrite length_take; lia].
    repeat (apply list.Forall_cons; split; [unfold is_u8; lia|]). apply Forall_nil_2.
  - repeat (apply list.Forall_cons; split; [repeat (apply list.Forall_cons; split; [unfold is_u8; lia|]); apply Forall_nil_2|]).
    apply Forall_nil_2.
Defined.

(** ** The PACKET protocol *)

Lemma accesses_app ReadAt l1 l2 c :
  accesses ReadAt (l1 ++ l2) c =
  (fst (accesses ReadAt l1 c) ++ fst (accesses ReadAt l2 (snd (accesses ReadAt l1 c))),
   snd (accesses ReadAt l2 (snd (accesses ReadAt l1 c)))).
Proof.
  revert c. induction l1 as [|[port d|port d] l1 IH]; intros c; cbn [accesses app].
  - cbn [fst snd app]. by destruct (accesses ReadAt l2 c).
  - destruct (atapiRead port d c) as [v c1]. rewrite IH. by destruct (accesses ReadAt l1 c1).
  - apply IH.
Qed.

(** The driver sets the byte count limit, issues PACKET and writes the twelve
    bytes of the packet to the data port in any pieces. *)
Definition sendPacket (lo hi : Z) (pieces : list (list Z)) : list portAccess :=
  [AWrite ataRegLBAMid [lo]; AWrite ataRegLBAHigh [hi]; AWrite ataRegCommand [ataCmdPacket]] ++
  map (AWrite ataRegData) pieces.

Definition pieces_of (pieces : list (list Z)) (n : Z) : Prop :=
  zlen (concat pieces) = n /\ Forall (fun p => p <> []) pieces.

Lemma packet_pieces ReadAt pieces : forall c,
  awaitingPacket c = true -> zlen (packet c ++ concat pieces) = 12 -> zlen (packet c) < 12 ->
  Forall (fun p => p <> []) pieces ->
  accesses ReadAt (map (AWrite ataRegData) pieces) c =
  ([], handlePacket ReadAt (packet c ++ concat pieces) (c <| awaitingPacket := false |> <| packet := [] |>)).
Proof.
  induction pieces as [|p pieces IH]; intros c Hw Hlen Hlt Hne.
  { cbn [concat] in Hlen. rewrite app_nil_r in Hlen. lia. }
  apply list.Forall_cons in Hne as [Hp Hne]. cbn [map accesses].
  assert (Hpl : 0 < zlen p) by (destruct p; [done|rewrite zlen_cons; pose proof (zlen_nonneg p); lia]).
  unfold atapiWrite at 1. cbv zeta. rewrite (proj2 (Z.eqb_neq (zlen p) 0)) by lia.
  change (ataRegData =? ataRegData) with true. cbv iota. unfold writeData. rewrite Hw. cbn [negb]. cbv zeta iota.
  cbn [concat] in Hlen |- *. rewrite app_assoc in Hlen |- *.
  destruct (Z.ltb_spec (zlen (packet c ++ p)) 12) as [Hs|Hs].
  - rewrite IH; [done|done|exact Hlen|exact Hs|done].
  - rewrite zlen_app in Hlen. assert (pieces = []) as ->.
    { destruct pieces as [|q pieces]; [done|]. apply list.Forall_cons in Hne as [Hq _].
      cbn [concat] in Hlen. rewrite (zlen_app q) in Hlen. destruct q; [done|]. rewrite zlen_cons in Hlen.
      pose proof (zlen_nonneg q). pose proof (zlen_nonneg (concat pieces)). lia. }
    cbn [map accesses concat] in *. rewrite app_nil_r. change (zlen []) with 0 in Hlen.
    rewrite take_ge by (unfold zlen in *; lia). done.
Qed.

(** The drive when the packet has arrived. *)
Definition packetState (lo hi : Z) (c : ATAPICDROM) : ATAPICDROM :=
  c <| lbaMid := lo |> <| lbaHigh := hi |> <| awaitingPacket := false |> <| packet := [] |> <| errorReg := 0 |>
    <| a_status := ataStatusDRDY ||| ataStatusDRQ |> <| sectorCount := 0x01 |>.

Lemma sendPacket_spec ReadAt lo hi pieces c :
  slaveSelected c = false -> pieces_of pieces 12 ->
  accesses ReadAt (sendPacket lo hi pieces) c =
  ([], handlePacket ReadAt (concat pieces) (packetState lo hi c)).
Proof.
  intros Hm [Hl Hne]. unfold sendPacket. rewrite accesses_app.
  assert (E : accesses ReadAt [AWrite ataRegLBAMid [lo]; AWrite ataRegLBAHigh [hi]; AWrite ataRegCommand [ataCmdPacket]] c =
    ([], packetState lo hi c <| awaitingPacket := true |>)).
  { transitivity (@nil (list Z), command ataCmdPacket (c <| lbaMid := lo |> <| lbaHigh := hi |>)); [reflexivity|].
    unfold command. change (slaveSelected (_ <| lbaHigh := hi |>)) with (slaveSelected c). by rewrite Hm. }
  assert (Ep : (packetState lo hi c <| awaitingPacket := true |>) <| awaitingPacket := false |> <| packet := [] |> =
               packetState lo hi c) by (destruct c; vm_compute; reflexivity).
  rewrite E. cbn [fst snd app]. rewrite packet_pieces, Ep; [reflexivity|reflexivity|exact Hl|reflexivity|exact Hne].
Qed.

(** A read of the data port within the data phase. *)
Definition dataDone (c : ATAPICDROM) : ATAPICDROM :=
  c <| a_data := [] |> <| dataOffset := 0 |> <| a_status := ataStatusDRDY ||| ataStatusDSC |> <| sectorCount := 0x03 |>.

Lemma dataRead_step p c :
  slaveSelected c = false -> 0 <= dataOffset c -> p <> [] -> dataOffset c + zlen p <= zlen (a_data c) ->
  atapiRead ataRegData p c =
  (zslice (a_data c) (dataOffset c) (zlen p),
   if dataOffset c + zlen p =? zlen (a_data c) then dataDone c else c <| dataOffset := dataOffset c + zlen p |>).
Proof.
  intros Hm Ho Hp Hl.
  assert (Hpl : 0 < zlen p) by (destruct p; [done|rewrite zlen_cons; pose proof (zlen_nonneg p); lia]).
  unfold atapiRead. cbv zeta. rewrite (proj2 (Z.eqb_neq (zlen p) 0)), Hm by lia.
  change (ataRegData =? ataRegData) with true. cbv iota. unfold readData. cbv zeta.
  rewrite zlen_slice, Z.sub_diag by lia. change (zeros 0) with (@nil Z). rewrite app_nil_r.
  change (zlen (a_data (c <| dataOffset := dataOffset c + zlen p |>))) with (zlen (a_data c)).
  change (dataOffset (c <| dataOffset := dataOffset c + zlen p |>)) with (dataOffset c + zlen p).
  destruct (Z.leb_spec (zlen (a_data c)) (dataOffset c + zlen p)), (Z.eqb_spec (dataOffset c + zlen p) (zlen (a_data c)));
    try lia; reflexivity.
Qed.

(** The data phase: the guest empties the buffer in any pieces. *)
Lemma data_phase ReadAt bufs : forall c,
  slaveSelected c = false -> 0 <= dataOffset c < zlen (a_data c) ->
  pieces_of bufs (zlen (a_data c) - dataOffset c) ->
  let r := accesses ReadAt (map (ARead ataRegData) bufs) c in
  concat (fst r) = drop (Z.to_nat (dataOffset c)) (a_data c) /\ snd r = dataDone c.
Proof.
  induction bufs as [|p bufs IH]; intros c Hm Ho [Hlen Hne]; [change (zlen (concat [])) with 0 in Hlen; lia|]. cbv zeta.
  apply list.Forall_cons in Hne as [Hp Hne]. cbn [map accesses]. cbn [concat] in Hlen. rewrite zlen_app in Hlen.
  pose proof (zlen_nonneg (concat bufs)). pose proof (zlen_nonneg p). rewrite dataRead_step by (done || lia).
  destruct (Z.eqb_spec (dataOffset c + zlen p) (zlen (a_data c))) as [E|E].
  - assert (bufs = []) as ->.
    { destruct bufs as [|q bufs]; [done|]. apply list.Forall_cons in Hne as [Hq _]. cbn [concat] in Hlen.
      rewrite zlen_app in Hlen. destruct q; [done|]. rewrite zlen_cons in Hlen.
      pose proof (zlen_nonneg q). pose proof (zlen_nonneg (concat bufs)). lia. }
    cbn [map accesses fst snd concat]. rewrite app_nil_r. split; [|done].
    unfold zslice. apply take_ge. rewrite length_drop. unfold zlen in *. lia.
  - specialize (IH (c <| dataOffset := dataOffset c + zlen p |>)).
    destruct IH as [I1 I2]; [done|cbn; lia|split; [cbn; lia|done]|].
    destruct (accesses _ _ _) as [vs c']. cbn [fst snd concat] in *. split; [|exact I2].
    rewrite I1. cbn [a_data dataOffset]. unfold zslice.
    rewrite <- (take_drop (Z.to_nat (zlen p)) (drop (Z.to_nat (dataOffset c)) (a_data c))) at 2.
    f_equal. rewrite drop_drop. f_equal. cbn. lia.
Qed.

(** ** Reading sectors *)

(** The packet asks for [blocks] sectors from [lba]: READ(10) or READ(12). *)
Definition readRequest (pkt : list Z) (lba blocks : Z) : Prop :=
  be_val (zslice pkt 2 4) = lba /\
  (zget pkt 0 = 0x28 /\ be_val (zslice pkt 7 2) = blocks \/ zget pkt 0 = 0xa8 /\ be_val (zslice pkt 6 4) = blocks).

(** The medium holds the bytes of [image]; a read past its end is short, with or
    without io.EOF. *)
Definition holds (ReadAt : Z -> Z -> list Z * option error) (image : list Z) : Prop :=
  forall off n, 0 <= off -> 0 <= n ->
    fst (ReadAt off n) = zslice image off n /\ (snd (ReadAt off n) = None \/ snd (ReadAt off n) = Some EEOF).

(** The sectors of a disc: the image, continued with zeros. *)
Definition sectors (image : list Z) (lba blocks : Z) : list Z :=
  map (zget image) (seqZ (lba * 2048) (blocks * 2048)).

Lemma zlen_sectors image lba blocks : 0 <= blocks -> zlen (sectors image lba blocks) = blocks * 2048.
Proof. intros. unfold sectors, zlen. rewrite length_map, length_seqZ. lia. Qed.

Lemma sectors_slice image lba blocks :
  0 <= lba -> 0 <= blocks ->
  let got := zslice image (lba * 2048) (blocks * 2048) in
  got ++ zeros (blocks * 2048 - zlen got) = sectors image lba blocks.
Proof.
  intros Hl Hb got. assert (Hg : 0 <= zlen got <= blocks * 2048).
  { unfold got, zslice, zlen. rewrite length_take. lia. }
  apply zlist_eq; [rewrite zlen_sectors, zlen_app, zlen_zeros by lia; lia|].
  intros i. rewrite zlen_app, zlen_zeros by lia. intros Hi.
  assert (E : zget (sectors image lba blocks) i = zget image (lba * 2048 + i)).
  { rewrite zget_lookup. unfold zlookup, sectors. destruct (i <? 0) eqn:?; zbool; [lia|].
    rewrite list_lookup_fmap, lookup_seqZ_lt by lia. cbn. f_equal. lia. }
  rewrite E, zget_app, zget_zeros. destruct (Z.ltb_spec i (zlen got)); [unfold got; rewrite zget_slice; [done|lia..]|].
  symmetry. apply zget_out. right. unfold got, zslice, zlen in *. rewrite length_take, length_drop in *. lia.
Qed.

Lemma readRequest_blocks ReadAt pkt lba blocks c :
  readRequest pkt lba blocks -> handlePacket ReadAt pkt c = readBlocks ReadAt lba blocks c.
Proof. intros [<- [[E <-]|[E <-]]]; unfold handlePacket; cbv zeta; by rewrite E. Qed.

Lemma readBlocks_spec ReadAt image lba blocks c :
  holds ReadAt image -> 0 <= lba < 2 ^ 32 -> 0 < blocks < 2 ^ 32 ->
  readBlocks ReadAt lba blocks c = finishPacket (sectors image lba blocks) 0 (clearSense c).
Proof.
  intros Hh Hl Hb. unfold readBlocks, atapiSectorSize. rewrite (proj2 (Z.eqb_neq blocks 0)) by lia. cbv zeta.
  rewrite (u64_small (blocks * 2048)), (i64_small (lba * 2048)) by lia.
  rewrite (proj2 (Z.ltb_ge (2 ^ 63 - 1) (blocks * 2048))) by lia.
  destruct (Hh (lba * 2048) (blocks * 2048)) as [E1 E2]; [lia..|].
  destruct (ReadAt _ _) as [got err]. cbn [fst snd] in *. subst got. rewrite sectors_slice by lia.
  by destruct E2 as [->| ->].
Qed.

(** What the registers say about a data phase of [n] bytes, read over the ports. *)
Definition readRegs : list portAccess := [ARead ataRegStatus [0]; ARead ataRegLBAMid [0]; ARead ataRegLBAHigh [0]].

Lemma readRegs_spec ReadAt c : slaveSelected c = false ->
  accesses ReadAt readRegs c = ([[a_status c]; [lbaMid c]; [lbaHigh c]], c).
Proof.
  intros Hm. unfold readRegs. cbn [accesses].
  assert (E : atapiRead ataRegStatus [0] c = ([a_status c], c) /\ atapiRead ataRegLBAMid [0] c = ([lbaMid c], c) /\
              atapiRead ataRegLBAHigh [0] c = ([lbaHigh c], c)) by (unfold atapiRead; by rewrite Hm).
  destruct E as (E1 & E2 & E3). by rewrite E1, E2, E3.
Qed.

(** The drive has handed over [data]. *)
Definition inDataPhase (data : list Z) (c : ATAPICDROM) : Prop :=
  a_data c = data /\ dataOffset c = 0 /\ a_status c = 0x48 /\ lbaMid c = u8 (zlen data) /\ lbaHigh c = u8 (zlen data ≫ 8) /\
  slaveSelected c = false.

Lemma finishPacket_phase data alloc c :
  0 < zlen data -> handedOver data alloc c = data -> slaveSelected c = false -> inDataPhase data (finishPacket data alloc c).
Proof.
  intros Hn Hd Hm. unfold inDataPhase.
  destruct (prepareData_fields data alloc (c <| errorReg := 0 |>)) as (E1 & E2 & E3 & E4 & E5 & _ & (_ & _ & E9 & _) & _).
  change (prepareData data alloc (c <| errorReg := 0 |>)) with (finishPacket data alloc c) in *.
  change (handedOver data alloc (c <| errorReg := 0 |>)) with (handedOver data alloc c) in *. rewrite Hd in *.
  unfold slaveSelected in *. rewrite E1, E2, E3, E4, E5, E9, (proj2 (Z.eqb_neq (zlen data) 0)) by lia. by splits.
Qed.

Lemma phase_clear data c : inDataPhase data c -> inDataPhase data (clearSense c).
Proof. done. Qed.

Lemma phase_done data c : inDataPhase data c ->
  slaveSelected (dataDone c) = false /\ senseKey (dataDone c) = senseKey c /\ senseASC (dataDone c) = senseASC c /\
  senseASCQ (dataDone c) = senseASCQ c.
Proof. by intros (_ & _ & _ & _ & _ & Hm). Qed.

(** A packet command that answers with [data]: what the guest sees of it, and the
    drive afterwards. *)
Lemma packet_answers ReadAt lo hi pieces bufs data c :
  slaveSelected c = false -> pieces_of pieces 12 -> pieces_of bufs (zlen data) -> 0 < zlen data ->
  let c1 := handlePacket ReadAt (concat pieces) (packetState lo hi c) in
  inDataPhase data c1 ->
  let r := accesses ReadAt (sendPacket lo hi pieces ++ readRegs ++ map (ARead ataRegData) bufs) c in
  exists vs, fst r = [[0x48]; [u8 (zlen data)]; [u8 (zlen data ≫ 8)]] ++ vs /\ concat vs = data /\ snd r = dataDone c1.
Proof.
  intros Hm Hp Hb Hn c1 (E1 & E2 & E3 & E4 & E5 & E6). cbv zeta. rewrite accesses_app, sendPacket_spec by done.
  fold c1. cbn [fst snd app]. rewrite accesses_app, readRegs_spec by done. cbn [fst snd]. rewrite E3, E4, E5.
  destruct (data_phase ReadAt bufs c1) as [D1 D2]; [done|rewrite E1, E2; lia|by rewrite E1, E2, Z.sub_0_r|].
  rewrite E1, E2 in D1. eexists. splits; [done|exact D1|exact D2].
Qed.

Lemma handedOver_all data c : zlen data <= transferLimit c -> handedOver data 0 c = data.
Proof.
  intros H. unfold handedOver. change (0 <? 0) with false. cbn [andb]. cbv zeta.
  by rewrite (proj2 (Z.ltb_ge (transferLimit c) (zlen data))) by lia.
Qed.

Lemma finishPacket_done data alloc c :
  let c' := dataDone (finishPacket data alloc c) in
  errorReg c' = 0 /\ senseKey c' = senseKey c /\
  interrupts c' = interrupts c + (if negb (devControl c &&& 0x02 =? 0) || negb (a_wired c) then 0 else 1).
Proof.
  cbv zeta. unfold finishPacket, prepareData. cbv zeta. fold (transferLimit (c <| errorReg := 0 |>)).
  fold (handedOver data alloc (c <| errorReg := 0 |>)).
  unfold atapiInterrupt. destruct (zlen (handedOver _ _ _) =? 0); simpl devControl; simpl a_wired;
    destruct (negb (devControl c &&& 0x02 =? 0) || negb (a_wired c)); cbn; splits; try done; lia.
Qed.

(** C16: the sectors of the disc reach the guest.  The guest sets the byte count
    limit, issues PACKET and writes a READ(10) or READ(12) for sectors that fit the
    limit, in any pieces; it then reads status and byte count and empties the data
    port in any pieces.  It sees DRQ, the number of bytes, and exactly the sectors
    of the image, zero past its end; the drive is ready again, without sense, and
    has injected one interrupt unless the guest masked it. *)
Theorem atapi_read_sectors ReadAt image c lo hi pieces lba blocks bufs :
  holds ReadAt image -> slaveSelected c = false ->
  pieces_of pieces 12 -> readRequest (concat pieces) lba blocks -> 0 <= lba < 2 ^ 32 -> 0 < blocks < 2 ^ 32 ->
  blocks * 2048 <= transferLimit (c <| lbaMid := lo |> <| lbaHigh := hi |>) -> pieces_of bufs (blocks * 2048) ->
  let r := accesses ReadAt (sendPacket lo hi pieces ++ readRegs ++ map (ARead ataRegData) bufs) c in
  exists vs,
    fst r = [[ataStatusDRDY ||| ataStatusDRQ]; [u8 (blocks * 2048)]; [u8 ((blocks * 2048) ≫ 8)]] ++ vs /\
    concat vs = sectors image lba blocks /\
    a_status (snd r) = ataStatusDRDY ||| ataStatusDSC /\ errorReg (snd r) = 0 /\ senseKey (snd r) = 0 /\
    interrupts (snd r) =
      interrupts c + (if negb (devControl c &&& 0x02 =? 0) || negb (a_wired c) then 0 else 1).
Proof.
  intros Hh Hm Hp Hr Hl Hb Ht Hbufs. cbv zeta.
  assert (Hc : handlePacket ReadAt (concat pieces) (packetState lo hi c) =
    finishPacket (sectors image lba blocks) 0 (clearSense (packetState lo hi c))).
  { rewrite (readRequest_blocks _ _ lba blocks) by done. by apply readBlocks_spec. }
  destruct (packet_answers ReadAt lo hi pieces bufs (sectors image lba blocks) c)
    as (vs & E1 & E2 & E3); rewrite ?zlen_sectors by lia; try done; [lia|..].
  - rewrite Hc. apply finishPacket_phase; [rewrite zlen_sectors; lia| |done].
    apply handedOver_all. rewrite zlen_sectors by lia. exact Ht.
  - rewrite zlen_sectors in E1 by lia. rewrite E1, E3, Hc. exists vs.
    destruct (finishPacket_done (sectors image lba blocks) 0 (clearSense (packetState lo hi c))) as (F1 & F2 & F3).
    splits; [reflexivity|exact E2|reflexivity|exact F1|exact F2|exact F3].
Qed.

Definition tinyDisc (off n : Z) : list Z * option error := (zslice [7; 8; 9] off n, Some EEOF).

Lemma atapi_read_sectors_witness :
  exists vs, concat vs = 7 :: 8 :: 9 :: replicate 2045 0 /\
    fst (accesses tinyDisc (sendPacket 0 0x08 [[0x28; 0; 0; 0; 0]; [0; 0; 0; 1; 0; 0; 0]] ++ readRegs ++
      map (ARead ataRegData) [replicate 1000 0; replicate 1048 0]) (NewATAPICDROM 3 true)) = [[0x48]; [0]; [8]] ++ vs.
Proof.
  destruct (atapi_read_sectors tinyDisc [7; 8; 9] (NewATAPICDROM 3 true) 0 0x08 [[0x28; 0; 0; 0; 0]; [0; 0; 0; 1; 0; 0; 0]]
    0 1 [replicate 1000 0; replicate 1048 0]) as (vs & E1 & E2 & _).
  - intros off n _ _. split; [reflexivity|by right].
  - reflexivity.
  - split; [reflexivity|]. by repeat (apply list.Forall_cons; split; [done|]).
  - split; [reflexivity|]. by left.
  - lia.
  - lia.
  - by vm_compute.
  - split; [by vm_compute|]. by repeat (apply list.Forall_cons; split; [done|]).
  - exists vs. split; [rewrite E2; vm_compute; reflexivity|exact E1].
Defined.

(** ** Errors *)

Definition packetCommands : list Z := [0x00; 0x03; 0x12; 0x1a; 0x1b; 0x1e; 0x25; 0x28; 0x43; 0x46; 0x51; 0xa8].

(** The packet fails: an unknown operation, or a read the medium refuses. *)
Inductive packetFails (ReadAt : Z -> Z -> list Z * option error) (pkt : list Z) : Z -> Z -> Prop :=
| FailUnknown : ~ In (zget pkt 0) packetCommands -> packetFails ReadAt pkt 0x05 0x20
| FailMedium lba blocks e :
    readRequest pkt lba blocks -> 0 <= lba < 2 ^ 32 -> 0 < blocks < 2 ^ 32 ->
    snd (ReadAt (lba * 2048) (blocks * 2048)) = Some e -> e <> EEOF -> packetFails ReadAt pkt 0x03 0x11.

Lemma packetFails_state ReadAt pkt key asc c : packetFails ReadAt pkt key asc ->
  let c' := handlePacket ReadAt pkt c in
  errorReg c' = ataErrABRT /\ a_status c' = ataStatusDRDY ||| ataStatusDSC ||| ataStatusErr /\
  senseKey c' = key /\ senseASC c' = asc /\ senseASCQ c' = 0 /\ driveHead c' = driveHead c.
Proof.
  intros [Hu|lba blocks e Hr Hl Hb He Hne]; cbv zeta.
  - unfold handlePacket. cbv zeta. unfold packetCommands in Hu. cbn [In] in Hu.
    repeat match goal with |- context [zget pkt 0 =? ?v] => rewrite (proj2 (Z.eqb_neq (zget pkt 0) v)) by lia end.
    cbn [orb]. unfold atapiInterrupt. destruct (_ || _); by splits.
  - rewrite (readRequest_blocks _ _ lba blocks) by done. unfold readBlocks, atapiSectorSize.
    rewrite (proj2 (Z.eqb_neq blocks 0)) by lia. cbv zeta.
    rewrite (u64_small (blocks * 2048)), (i64_small (lba * 2048)) by lia.
    rewrite (proj2 (Z.ltb_ge (2 ^ 63 - 1) (blocks * 2048))) by lia.
    destruct (ReadAt _ _) as [got err]. cbn [snd] in He. subst err.
    unfold atapiInterrupt. destruct e; try done; destruct (_ || _); by splits.
Qed.

(** REQUEST SENSE, with room for the 18 bytes of the answer. *)
Definition senseRequest (pkt : list Z) : Prop := zget pkt 0 = 0x03 /\ (zget pkt 4 = 0 \/ 18 <= zget pkt 4).

Definition senseData (key asc : Z) : list Z := [0x70; 0; key; 0; 0; 0; 0; 10; 0; 0; 0; 0; asc; 0; 0; 0; 0; 0].

Lemma sense_phase ReadAt pkt lo hi c :
  senseRequest pkt -> slaveSelected c = false -> senseASCQ c = 0 ->
  18 <= transferLimit (c <| lbaMid := lo |> <| lbaHigh := hi |>) ->
  let c1 := handlePacket ReadAt pkt (packetState lo hi c) in
  inDataPhase (senseData (senseKey c) (senseASC c)) c1 /\ senseKey c1 = 0 /\ senseASC c1 = 0 /\ senseASCQ c1 = 0.
Proof.
  intros [Hop Ha] Hm Hq Ht. unfold handlePacket. cbv zeta. rewrite Hop. change (3 =? 0) with false. change (3 =? 3) with true.
  cbv iota. splits; try done.
  assert (E : requestSense (packetState lo hi c) = senseData (senseKey c) (senseASC c)).
  { unfold requestSense, senseData. cbn [packetState]. change (senseASCQ (packetState lo hi c)) with (senseASCQ c). by rewrite Hq. }
  assert (H : inDataPhase (senseData (senseKey c) (senseASC c))
    (finishPacket (requestSense (packetState lo hi c)) (zget pkt 4) (packetState lo hi c))).
  { rewrite E. apply finishPacket_phase; [done| |done]. unfold handedOver. change (zlen (senseData _ _)) with 18.
    replace ((0 <? zget pkt 4) && (zget pkt 4 <? 18)) with false by lia. cbv iota zeta. change (zlen (senseData _ _)) with 18.
    change (transferLimit (packetState lo hi c)) with (transferLimit (c <| lbaMid := lo |> <| lbaHigh := hi |>)).
    by rewrite (proj2 (Z.ltb_ge (transferLimit (c <| lbaMid := lo |> <| lbaHigh := hi |>)) 18)) by lia. }
  by apply phase_clear.
Qed.

(** The driver asks for the sense data. *)
Definition askSense (lo hi : Z) (pieces bufs : list (list Z)) : list portAccess :=
  sendPacket lo hi pieces ++ readRegs ++ map (ARead ataRegData) bufs.

(** C17: an error reaches the guest once.  A packet with an unknown operation, or a
    read the medium refuses, ends with ERR in the status and ABRT in the error
    register; the next REQUEST SENSE delivers the sense key and code of that
    error, and the one after it delivers no sense. *)
Theorem atapi_error_sense ReadAt c lo hi pieces key asc askPieces bufs bufs' :
  slaveSelected c = false -> pieces_of pieces 12 -> packetFails ReadAt (concat pieces) key asc ->
  pieces_of askPieces 12 -> senseRequest (concat askPieces) ->
  18 <= transferLimit (c <| lbaMid := lo |> <| lbaHigh := hi |>) -> pieces_of bufs 18 -> pieces_of bufs' 18 ->
  let r := accesses ReadAt
    (sendPacket lo hi pieces ++ [ARead ataRegStatus [0]; ARead ataRegError [0]] ++
     askSense lo hi askPieces bufs ++ askSense lo hi askPieces bufs') c in
  exists vs vs',
    fst r = [[ataStatusDRDY ||| ataStatusDSC ||| ataStatusErr]; [ataErrABRT]] ++
            ([[0x48]; [18]; [0]] ++ vs) ++ ([[0x48]; [18]; [0]] ++ vs') /\
    concat vs = senseData key asc /\ concat vs' = senseData 0 0.
Proof.
  intros Hm Hp Hf Hap Hs Ht Hb Hb'. cbv zeta. rewrite accesses_app, sendPacket_spec by done. cbn [fst snd]. rewrite app_nil_l.
  destruct (packetFails_state ReadAt (concat pieces) key asc (packetState lo hi c) Hf) as (F1 & F2 & F3 & F4 & F5 & F6).
  set (c1 := handlePacket ReadAt (concat pieces) (packetState lo hi c)) in *.
  assert (Hm1 : slaveSelected c1 = false) by (unfold slaveSelected; rewrite F6; exact Hm).
  assert (R : accesses ReadAt [ARead ataRegStatus [0]; ARead ataRegError [0]] c1 = ([[a_status c1]; [errorReg c1]], c1)).
  { cbn [accesses]. assert (E : atapiRead ataRegStatus [0] c1 = ([a_status c1], c1) /\
      atapiRead ataRegError [0] c1 = ([errorReg c1], c1)) by (unfold atapiRead; by rewrite Hm1).
    destruct E as [E1 E2]. by rewrite E1, E2. }
  rewrite accesses_app, R. cbn [fst snd]. rewrite F1, F2, accesses_app. unfold askSense.
  destruct (sense_phase ReadAt (concat askPieces) lo hi c1 Hs Hm1 F5 Ht) as (P1 & P2 & P3 & P4).
  destruct (packet_answers ReadAt lo hi askPieces bufs (senseData (senseKey c1) (senseASC c1)) c1 Hm1 Hap Hb eq_refl P1) as (vs & E1 & E2 & E3).
  rewrite E1, E3, F3, F4 in *. destruct (phase_done _ _ P1) as (Hm2 & S1 & S2 & S3).
  rewrite P2 in S1. rewrite P3 in S2. rewrite P4 in S3.
  generalize dependent (dataDone (handlePacket ReadAt (concat askPieces) (packetState lo hi c1))). intros c2 _ Hm2 S1 S2 S3.
  destruct (sense_phase ReadAt (concat askPieces) lo hi c2 Hs Hm2 S3 Ht) as (Q1 & _).
  destruct (packet_answers ReadAt lo hi askPieces bufs' (senseData (senseKey c2) (senseASC c2)) c2 Hm2 Hap Hb' eq_refl Q1) as (vs' & G1 & G2 & _).
  exists vs, vs'. rewrite G1. splits; [reflexivity|exact E2|]. by rewrite G2, S1, S2.
Qed.

Definition brokenDisc (off n : Z) : list Z * option error := ([], Some (EMsg "input/output error")).

Lemma atapi_error_sense_witness :
  let ask := askSense 0 0x08 [[0x03; 0; 0; 0]; [18; 0; 0; 0; 0; 0; 0; 0]] [replicate 18 0] in
  exists vs vs', concat vs = senseData 0x03 0x11 /\ concat vs' = senseData 0 0 /\
    fst (accesses brokenDisc (sendPacket 0 0x08 [[0x28; 0; 0; 0; 0; 16; 0; 0; 1; 0; 0; 0]] ++
      [ARead ataRegStatus [0]; ARead ataRegError [0]] ++ ask ++ ask) (NewATAPICDROM 40960 true)) =
    [[0x51]; [4]] ++ ([[0x48]; [18]; [0]] ++ vs) ++ ([[0x48]; [18]; [0]] ++ vs').
Proof.
  cbv zeta. destruct (atapi_error_sense brokenDisc (NewATAPICDROM 40960 true) 0 0x08 [[0x28; 0; 0; 0; 0; 16; 0; 0; 1; 0; 0; 0]]
    0x03 0x11 [[0x03; 0; 0; 0]; [18; 0; 0; 0; 0; 0; 0; 0]] [replicate 18 0] [replicate 18 0]) as (vs & vs' & E1 & E2 & E3).
  - reflexivity.
  - split; [reflexivity|]. by repeat (apply list.Forall_cons; split; [done|]).
  - apply (FailMedium _ _ 16 1 (EMsg "input/output error")); [split; [reflexivity|by left]|lia|lia|reflexivity|done].
  - split; [reflexivity|]. by repeat (apply list.Forall_cons; split; [done|]).
  - split; [reflexivity|by right].
  - by vm_compute.
  - split; [reflexivity|]. by repeat (apply list.Forall_cons; split; [done|]).
  - split; [reflexivity|]. by repeat (apply list.Forall_cons; split; [done|]).
  - exists vs, vs'. split; [exact E2|split; [exact E3|exact E1]].
Defined.

(** ** The size of the disc *)

(** READ CAPACITY and the table of contents describe a disc that holds the image:
    the last block is the one with its last byte, and the lead-out follows it, as
    a block number and, for discs below 256 minutes, in minutes, seconds and frames
    after the two-second pregap. *)
Theorem atapi_disc_size c :
  0 < a_size c <= 2048 * (2 ^ 32 - 1) ->
  let last := be_val (zslice (readCapacity c) 0 4) in
  last * 2048 < a_size c <= (last + 1) * 2048 /\ be_val (zslice (readCapacity c) 4 4) = 2048 /\
  be_val (zslice (readTOC false c) 16 4) = last + 1 /\
  (last + 1 + 150 < 256 * 60 * 75 ->
   let t := zslice (readTOC true c) 16 4 in zget t 1 * 60 * 75 + zget t 2 * 75 + zget t 3 = last + 1 + 150).
Proof.
  intros Hs. pose proof (Z.div_mod (a_size c + 2047) 2048). pose proof (Z.mod_pos_bound (a_size c + 2047) 2048).
  assert (Hb : blockCount c = (a_size c + 2047) / 2048).
  { unfold blockCount, atapiSectorSize. rewrite (proj2 (Z.leb_gt (a_size c) 0)) by lia. cbv zeta.
    rewrite u64_small by lia. rewrite Z.quot_div_nonneg by lia.
    replace (a_size c + 2048 - 1) with (a_size c + 2047) by lia.
    destruct (Z.ltb_spec (2 ^ 32 - 1) ((a_size c + 2047) / 2048)); [lia|done]. }
  unfold readCapacity, readTOC. rewrite Hb. set (n := (a_size c + 2047) / 2048) in *.
  assert (Hn : 0 < n < 2 ^ 32) by lia. rewrite (proj2 (Z.ltb_lt 0 n)) by lia. cbv zeta.
  assert (E1 : be_val (zslice (be_bytes 4 (n - 1) ++ be_bytes 4 atapiSectorSize) 0 4) = n - 1).
  { change (be_val (be_bytes 4 (n - 1)) = n - 1). apply be_val_bytes. lia. }
  rewrite E1. splits; [lia|lia|reflexivity| |].
  - change (be_val (be_bytes 4 n) = n - 1 + 1). rewrite be_val_bytes; lia.
  - intros Hm. unfold putTOCAddress. cbn [negb]. unfold lbaToMSF. rewrite (u32_small (n + 150)) by lia. cbv zeta.
    change (u8 ((n + 150) / 4500) * 60 * 75 + u8 ((n + 150) mod 4500 / 75) * 75 + u8 ((n + 150) mod 4500 mod 75) = n - 1 + 1 + 150).
    pose proof (Z.div_mod (n + 150) 4500). pose proof (Z.mod_pos_bound (n + 150) 4500).
    pose proof (Z.div_mod ((n + 150) mod 4500) 75). pose proof (Z.mod_pos_bound ((n + 150) mod 4500) 75).
    rewrite !u8_small by lia. lia.
Qed.

(** A read of two sectors under a byte count limit of one sector ends after the
    first: the drive does not start a second data phase. *)
Example read_beyond_limit_ends :
  let c := snd (accesses tinyDisc (sendPacket 0 0x08 [[0x28; 0; 0; 0; 0; 0; 0; 0; 2; 0; 0; 0]] ++
    map (ARead ataRegData) [replicate 2048 0]) (NewATAPICDROM 4096 true)) in
  a_status c = ataStatusDRDY ||| ataStatusDSC /\ a_data c = [] /\ interrupts c = 1.
Proof. by vm_compute. Qed.

(** The byte count the drive announced for one command bounds the answer to the
    next IDENTIFY PACKET DEVICE, which has 512 bytes otherwise. *)
Example identify_cut_short :
  let ask := askSense 0 0x08 [[0x03; 0; 0; 0; 18; 0; 0; 0; 0; 0; 0; 0]] [replicate 18 0] in
  zlen (a_data (command ataCmdIdentifyPacket (NewATAPICDROM 4096 true))) = 512 /\
  zlen (a_data (command ataCmdIdentifyPacket (snd (accesses tinyDisc ask (NewATAPICDROM 4096 true))))) = 18.
Proof. by vm_compute. Qed.
