(* ===== verification/BootParam.v ===== *)
(** The boot parameters of Linux, the "zero page"
    (src/internal/bootparam/bootparam.go).

    [encoding/binary] writes the fields of a struct one after the other, without
    the padding the compiler adds in memory; the array sizes of the struct are
    those of the compiled program. *)

From S2P Require Import Prelude Bytes.

(** ** Fields in sequence *)

(** [binary.Write] of fields of the given widths, little-endian. *)
Fixpoint packVals (widths : list nat) (vals : list Z) : list Z :=
  match widths, vals with
  | w :: ws, v :: vs => le_bytes w v ++ packVals ws vs
  | _, _ => []
  end.

(** [binary.Read]: [None] when the input is too short. *)
Fixpoint parseVals (widths : list nat) (b : list Z) : option (list Z) :=
  match widths with
  | [] => Some []
  | w :: ws =>
      if zlen b <? Z.of_nat w then None
      else
        match parseVals ws (drop w b) with
        | Some vs => Some (le_val (take w b) :: vs)
        | None => None
        end
  end.

(** Values that fit their fields. *)
Definition vals_fit (widths : list nat) (vals : list Z) : Prop :=
  Forall2 (fun w v => 0 <= v < 256 ^ Z.of_nat w) widths vals.

Lemma parse_pack widths vals rest :
  vals_fit widths vals -> parseVals widths (packVals widths vals ++ rest) = Some vals.
Proof.
  induction 1 as [|w v ws vs Hv _ IH]; [done|]. cbn [packVals parseVals]. rewrite <- app_assoc.
  rewrite zlen_app, zlen_le_bytes. pose proof (zlen_nonneg (packVals ws vs ++ rest)).
  destruct (_ <? _) eqn:?; zbool; [lia|].
  rewrite drop_app_length' by (by rewrite length_le_bytes). rewrite IH.
  rewrite take_app_length' by (by rewrite length_le_bytes). by rewrite le_val_bytes, Z.mod_small.
Qed.

Lemma zlen_packVals widths vals :
  vals_fit widths vals -> zlen (packVals widths vals) = foldr (fun w n => Z.of_nat w + n) 0 widths.
Proof. induction 1 as [|w v ws vs _ _ IH]; [done|]. cbn [packVals foldr]. by rewrite zlen_app, zlen_le_bytes, IH. Qed.

(** ** The setup header *)

Definition MagicSignature : Z := 0x53726448.
Definition LoadedHigh : Z := 1 ≪ 0.
Definition KeepSegments : Z := 1 ≪ 6.
Definition CanUseHeap : Z := 1 ≪ 7.
Definition EddMbrSigMax : Z := 16.
Definition E820Max : Z := 128.
Definition E820Ram : Z := 1.
Definition E820Reserved : Z := 2.
Definition EBDAStart : Z := 0x0009fc00.

Record SetupHeader : Type := mkSetupHeader {
  SetupSects : Z; RootFlags : Z; SysSize : Z; RAMSize : Z; VidMode : Z; RootDev : Z; BootFlag : Z; Jump : Z;
  Header : Z; Version : Z; ReadModeSwitch : Z; StartSysSeg : Z; KernelVersion : Z; TypeOfLoader : Z;
  LoadFlags : Z; SetupMoveSize : Z; Code32Start : Z; RamdiskImage : Z; RamdiskSize : Z; BootsectKludge : Z;
  HeapEndPtr : Z; ExtLoaderVer : Z; ExtLoaderType : Z; CmdlinePtr : Z; InitrdAddrMax : Z; KernelAlignment : Z;
  RelocatableKernel : Z; MinAlignment : Z; XloadFlags : Z; CmdlineSize : Z; HardwareSubarch : Z;
  HardwareSubarchData : Z; PayloadOffset : Z; PayloadLength : Z; SetupData : Z; PrefAddress : Z; InitSize : Z;
  HandoverOffset : Z; KernelInfoOffset : Z
}.
#[export] Instance SetupHeader_eta : Settable SetupHeader := fun r => mkSetupHeader
  (SetupSects r) (RootFlags r) (SysSize r) (RAMSize r) (VidMode r) (RootDev r) (BootFlag r) (Jump r) (Header r)
  (Version r) (ReadModeSwitch r) (StartSysSeg r) (KernelVersion r) (TypeOfLoader r) (LoadFlags r)
  (SetupMoveSize r) (Code32Start r) (RamdiskImage r) (RamdiskSize r) (BootsectKludge r) (HeapEndPtr r)
  (ExtLoaderVer r) (ExtLoaderType r) (CmdlinePtr r) (InitrdAddrMax r) (KernelAlignment r) (RelocatableKernel r)
  (MinAlignment r) (XloadFlags r) (CmdlineSize r) (HardwareSubarch r) (HardwareSubarchData r) (PayloadOffset r)
  (PayloadLength r) (SetupData r) (PrefAddress r) (InitSize r) (HandoverOffset r) (KernelInfoOffset r).

Definition zeroHeader : SetupHeader := mkSetupHeader
  0 0 0 0 0 0 0 0 0 0 0 0 0 0 0 0 0 0 0 0 0 0 0 0 0 0 0 0 0 0 0 0 0 0 0 0 0 0 0.

Definition hdrWidths : list nat :=
  [1; 2; 4; 2; 2; 2; 2; 2; 4; 2; 4; 2; 2; 1; 1; 2; 4; 4; 4; 4; 2; 1; 1; 4; 4; 4; 1; 1; 2; 4; 4; 8; 4; 4; 8; 8;
   4; 4; 4]%nat.

Definition hdrVals (h : SetupHeader) : list Z :=
  [SetupSects h; RootFlags h; SysSize h; RAMSize h; VidMode h; RootDev h; BootFlag h; Jump h; Header h;
   Version h; ReadModeSwitch h; StartSysSeg h; KernelVersion h; TypeOfLoader h; LoadFlags h; SetupMoveSize h;
   Code32Start h; RamdiskImage h; RamdiskSize h; BootsectKludge h; HeapEndPtr h; ExtLoaderVer h;
   ExtLoaderType h; CmdlinePtr h; InitrdAddrMax h; KernelAlignment h; RelocatableKernel h; MinAlignment h;
   XloadFlags h; CmdlineSize h; HardwareSubarch h; HardwareSubarchData h; PayloadOffset h; PayloadLength h;
   SetupData h; PrefAddress h; InitSize h; HandoverOffset h; KernelInfoOffset h].

Definition hdrOfVals (vs : list Z) : option SetupHeader :=
  match vs with
  | [a0; a1; a2; a3; a4; a5; a6; a7; a8; a9; a10; a11; a12; a13; a14; a15; a16; a17; a18; a19; a20; a21; a22;
     a23; a24; a25; a26; a27; a28; a29; a30; a31; a32; a33; a34; a35; a36; a37; a38] => Some (mkSetupHeader
      a0 a1 a2 a3 a4 a5 a6 a7 a8 a9 a10 a11 a12 a13 a14 a15 a16 a17 a18 a19 a20 a21 a22 a23 a24 a25 a26 a27 a28
      a29 a30 a31 a32 a33 a34 a35 a36 a37 a38)
  | _ => None
  end.

(** ** The zero page *)

Record E820Entry : Type := mkE820 { Addr : Z; Size : Z; Type_ : Z }.

Record BootParam : Type := mkBootParam {
  E820Entries : Z;
  Hdr : SetupHeader;
  E820Map : list E820Entry   (** the first [E820Entries] of [E820Max]; the others are zero *)
}.
#[export] Instance BootParam_eta : Settable BootParam := fun r => mkBootParam (E820Entries r) (Hdr r) (E820Map r).

Definition emptyBootParam : BootParam := mkBootParam 0 zeroHeader [].

Definition ErrorSignatureNotMatch : error := EMsg "signature not match in bzImage".
Definition ErrorOldProtocolVersion : error := EMsg "old protocol version".

Definition isValid (b : BootParam) : result unit :=
  if negb (Header (Hdr b) =? MagicSignature) then Err ErrorSignatureNotMatch
  else if Version (Hdr b) <? 0x0206 then Err ErrorOldProtocolVersion
  else Ok tt.

(** [New] on the contents of the kernel file. *)
Definition newBootParam (file : list Z) : result BootParam :=
  match parseVals hdrWidths (zslice file 0x1f1 0x1000) with
  | Some vs =>
      match hdrOfVals vs with
      | Some h =>
          let b := mkBootParam 0 h [] in
          match isValid b with Ok _ => Ok b | Err e => Err e | Panic => Panic | OutOfFuel => OutOfFuel end
      | None => Err EEOF
      end
  | None => Err EEOF
  end.

(** The counter is one byte; the index expression panics past the array. *)
Definition AddE820Entry (addr size typ : Z) (b : BootParam) : result BootParam :=
  if E820Max <=? E820Entries b then Panic
  else Ok (b <| E820Map := E820Map b ++ [mkE820 addr size typ] |> <| E820Entries := u8 (E820Entries b + 1) |>).

Definition e820Bytes (e : E820Entry) : list Z := packVals [8; 8; 4]%nat [Addr e; Size e; Type_ e].

(** The size of a setup header in memory, with the padding of the compiler. *)
Definition sizeofSetupHeader : Z := 136.

Definition bootParamBytes (b : BootParam) : list Z :=
  zeros 0x1e8 ++ [E820Entries b; 0; 0; 0] ++ zeros 5 ++ packVals hdrWidths (hdrVals (Hdr b)) ++
  zeros (0x290 - 0x1f1 - sizeofSetupHeader) ++ zeros 0x3d ++ zeros EddMbrSigMax ++
  concat (map e820Bytes (E820Map b)) ++ zeros (20 * (E820Max - zlen (E820Map b))).

(** ** What the kernel finds *)

Definition e820_fit (e : E820Entry) : Prop := is_u64 (Addr e) /\ is_u64 (Size e) /\ is_u32 (Type_ e).

Record bp_ok (b : BootParam) : Prop := {
  bo_hdr : vals_fit hdrWidths (hdrVals (Hdr b));
  bo_count : E820Entries b = zlen (E820Map b);
  bo_max : zlen (E820Map b) <= E820Max;
  bo_map : Forall e820_fit (E820Map b)
}.

Lemma AddE820Entry_ok addr size typ b :
  bp_ok b -> zlen (E820Map b) < E820Max -> e820_fit (mkE820 addr size typ) ->
  exists b', AddE820Entry addr size typ b = Ok b' /\ bp_ok b' /\ Hdr b' = Hdr b /\
    E820Map b' = E820Map b ++ [mkE820 addr size typ].
Proof.
  intros [Hh Hc Hm Hf] Hlt He. unfold AddE820Entry. destruct (_ <=? _) eqn:E; zbool; [lia|].
  eexists. split; [reflexivity|]. splits; [|done..]. unfold E820Max in *. pose proof (zlen_nonneg (E820Map b)).
  constructor; cbn; [done| | |].
  - rewrite zlen_app, Hc, u8_small by lia. reflexivity.
  - rewrite zlen_app. change (zlen [mkE820 addr size typ]) with 1. unfold E820Max. lia.
  - apply list.Forall_app. split; [done|]. by apply list.Forall_singleton.
Qed.

Lemma e820_vals_fit e : e820_fit e -> vals_fit [8; 8; 4]%nat [Addr e; Size e; Type_ e].
Proof. unfold e820_fit, is_u64, is_u32. intros (? & ? & ?). repeat constructor; cbn; lia. Qed.

Lemma zlen_e820Bytes e : e820_fit e -> zlen (e820Bytes e) = 20.
Proof. intros H. unfold e820Bytes. by rewrite zlen_packVals by by apply e820_vals_fit. Qed.

(** The [i]-th entry of the table starts at 20 * i. *)
Lemma e820_at es i e rest :
  Forall e820_fit es -> zlookup es i = Some e ->
  parseVals [8; 8; 4]%nat (drop (Z.to_nat (20 * i)) (concat (map e820Bytes es) ++ rest)) = Some [Addr e; Size e; Type_ e].
Proof.
  intros Hf. revert i. induction Hf as [|x es Hx Hes IH]; intros i Hi.
  { apply zlookup_range in Hi. change (zlen []) with 0 in Hi. lia. }
  pose proof (zlookup_range _ _ _ Hi) as Hr. cbn [map concat]. rewrite <- app_assoc.
  pose proof (zlen_e820Bytes x Hx) as H20. destruct (Z.eq_dec i 0) as [->|Hi0].
  - injection Hi as ->. rewrite Z.mul_0_r, drop_0. apply parse_pack. by apply e820_vals_fit.
  - unfold zlookup in Hi. destruct (i <? 0); [done|]. replace (Z.to_nat i) with (S (Z.to_nat (i - 1))) in Hi by lia. cbn in Hi.
    rewrite drop_app_ge by (unfold zlen in H20; lia).
    replace (Z.to_nat (20 * i) - length (e820Bytes x))%nat with (Z.to_nat (20 * (i - 1))) by (unfold zlen in H20; lia).
    apply IH. unfold zlookup. by destruct (i - 1 <? 0) eqn:?; zbool; [lia|].
Qed.

Lemma zlen_e820s es : Forall e820_fit es -> zlen (concat (map e820Bytes es)) = 20 * zlen es.
Proof.
  induction 1 as [|e es He _ IH]; [done|]. cbn [map concat]. rewrite zlen_app, zlen_cons, IH, zlen_e820Bytes by done. lia.
Qed.

(** The zero page has the layout the Linux boot protocol prescribes,
    although the struct it is written from has another size in memory: it fits a
    page; the setup header is at 0x1f1 and reads back as it was; the number of
    memory-map entries is at 0x1e8 and the entries are at 0x2d0, 20 bytes each,
    in order. *)
Theorem zero_page_layout b :
  bp_ok b ->
  let page := bootParamBytes b in
  zlen page = 0xcd0 /\
  parseVals hdrWidths (drop (Z.to_nat 0x1f1) page) = Some (hdrVals (Hdr b)) /\
  hdrOfVals (hdrVals (Hdr b)) = Some (Hdr b) /\
  zget page 0x1e8 = zlen (E820Map b) /\
  (forall i e, zlookup (E820Map b) i = Some e ->
     parseVals [8; 8; 4]%nat (drop (Z.to_nat (0x2d0 + 20 * i)) page) = Some [Addr e; Size e; Type_ e]).
Proof.
  intros [Hh Hc Hm Hf]. cbv zeta. unfold bootParamBytes, sizeofSetupHeader, EddMbrSigMax.
  set (tail := concat _ ++ _). set (hb := packVals hdrWidths (hdrVals (Hdr b))) in *.
  assert (Hhb : zlen hb = 123) by (unfold hb; by rewrite zlen_packVals).
  assert (Htail : zlen tail = 2560).
  { unfold tail, E820Max in *. rewrite zlen_app, zlen_e820s, zlen_zeros by done. lia. }
  set (pre := zeros 0x1e8). assert (Hpre : length pre = Z.to_nat 0x1e8) by apply length_replicate.
  set (p3 := zeros (0x290 - 0x1f1 - 136)). set (p4 := zeros 0x3d). set (p5 := zeros 16). set (p2 := zeros 5).
  assert (H3 : length p3 = 23%nat) by apply length_replicate. assert (H4 : length p4 = 61%nat) by apply length_replicate.
  assert (H5 : length p5 = 16%nat) by apply length_replicate. assert (H2 : length p2 = 5%nat) by apply length_replicate.
  splits.
  - rewrite !zlen_app, Hhb, Htail. unfold zlen. rewrite Hpre, H2, H3, H4, H5. cbn. lia.
  - rewrite drop_app_ge by lia. rewrite Hpre. rewrite drop_app_ge by (cbn; lia). rewrite drop_app_ge by (cbn [length]; lia).
    rewrite H2. cbn [length]. replace (_ - _ - 4 - 5)%nat with 0%nat by lia. rewrite drop_0. by apply parse_pack.
  - by destruct (Hdr b).
  - rewrite zget_app. unfold zlen at 1. rewrite Hpre. cbn [Z.of_nat]. destruct (0x1e8 <? _) eqn:?; zbool; [lia|].
    unfold zlen at 1. rewrite Hpre, Z2Nat.id by lia. rewrite Z.sub_diag. exact Hc.
  - intros i e Hi. pose proof (zlookup_range _ _ _ Hi) as Hr. unfold zlen in Hhb.
    repeat (rewrite drop_app_ge by (cbn [length]; lia)). unfold tail. rewrite <- (e820_at _ _ _ (zeros (20 * (E820Max - zlen (E820Map b)))) Hf Hi).
    f_equal. f_equal. cbn [length]. lia.
Qed.

Definition sampleBoot : BootParam :=
  mkBootParam 1 (zeroHeader <| Header := MagicSignature |> <| PrefAddress := 0x1000000 |>) [mkE820 0x100000 0x1f00000 E820Ram].

Lemma sampleBoot_ok : bp_ok sampleBoot.
Proof.
  constructor; [|reflexivity|cbn; unfold E820Max, zlen; cbn; lia|].
  - unfold vals_fit, hdrWidths, hdrVals. cbn. repeat (apply Forall2_cons_2; [unfold MagicSignature; cbn; lia|]). apply Forall2_nil_2.
  - apply list.Forall_singleton. unfold e820_fit, is_u64, is_u32, E820Ram. cbn. lia.
Qed.

Lemma zero_page_layout_witness :
  parseVals [8; 8; 4]%nat (drop (Z.to_nat (0x2d0 + 20 * 0)) (bootParamBytes sampleBoot)) = Some [0x100000; 0x1f00000; E820Ram].
Proof.
  refine (proj2 (proj2 (proj2 (proj2 (zero_page_layout sampleBoot sampleBoot_ok)))) 0 (mkE820 0x100000 0x1f00000 E820Ram) _).
  reflexivity.
Defined.
