(* ===== verification/Ebda.v ===== *)
(** The extended BIOS data area with the MP table
    (src/internal/ebda/ebda.go), which tells the guest its processors. *)

From S2P Require Import Prelude Bytes BootParam.

Definition MaxVCPUs : Z := 64.
Definition mpcTableOffset : Z := 0x40.
Definition mpcTableHeaderSize : Z := 44.
Definition mpcCPUEntrySize : Z := 20.
Definition apicDefaultPhysBase : Z := 0xfee00000.
Definition apicBaseAddrStep : Z := 0x00400000.
Definition mpfIntelSignature : Z := (0x5f ≪ 24) ||| (0x50 ≪ 16) ||| (0x4d ≪ 8) ||| 0x5f.
Definition mpcTableSignature : Z := (0x50 ≪ 24) ||| (0x4d ≪ 16) ||| (0x43 ≪ 8) ||| 0x50.
Definition mpEntryTypeProcessor : Z := 0.
Definition cpuFlagEnabled : Z := 1.
Definition cpuFlagBP : Z := 2.
Definition cpuStepping : Z := 0x600.
Definition cpuFeatureAPIC : Z := 0x200.
Definition cpuFeatureFPU : Z := 0x001.
Definition mpAPICVersion : Z := 0x14.

Definition errInvalidVCPUNumber : error := EMsg "the number of vCPUs must be between 1 and 64".

Record mpfIntel : Type := mkMPF { mpf_signature : Z; physPtr : Z; mpf_length : Z; specification : Z; mpf_checkSum : Z }.
#[export] Instance mpfIntel_eta : Settable mpfIntel :=
  fun r => mkMPF (mpf_signature r) (physPtr r) (mpf_length r) (specification r) (mpf_checkSum r).

Record mpcCPU : Type := mkMPCCPU { typ : Z; apicID : Z; apicVer : Z; cpuFlag : Z; sig : Z; featureFlag : Z }.

(** [mpcCPUs] are the processors that are set; the others are zero. *)
Record mpcTable : Type := mkMPC {
  mpc_signature : Z; mpc_length : Z; mpc_spec : Z; mpc_checkSum : Z; OEMId : list Z; entryCount : Z; lapic : Z;
  mpcCPUs : list mpcCPU
}.
#[export] Instance mpcTable_eta : Settable mpcTable := fun r =>
  mkMPC (mpc_signature r) (mpc_length r) (mpc_spec r) (mpc_checkSum r) (OEMId r) (entryCount r) (lapic r) (mpcCPUs r).

Record EBDA : Type := mkEBDA { e_mpfIntel : mpfIntel; e_mpcTable : mpcTable }.

Definition mpfBytes (m : mpfIntel) : list Z :=
  packVals [4; 4; 1; 1; 1]%nat [mpf_signature m; physPtr m; mpf_length m; specification m; mpf_checkSum m] ++ zeros 5.

Definition cpuBytes (m : mpcCPU) : list Z :=
  packVals [1; 1; 1; 1; 4; 4]%nat [typ m; apicID m; apicVer m; cpuFlag m; sig m; featureFlag m] ++ zeros 8.

Definition mpcAllBytes (m : mpcTable) : list Z :=
  packVals [4; 2; 1; 1]%nat [mpc_signature m; mpc_length m; mpc_spec m; mpc_checkSum m] ++ OEMId m ++ zeros 12 ++ zeros 6 ++
  packVals [2; 4]%nat [entryCount m; lapic m] ++ zeros 4 ++
  concat (map cpuBytes (mpcCPUs m)) ++ zeros (mpcCPUEntrySize * (MaxVCPUs - zlen (mpcCPUs m))).

(** [mpcTable.bytes]: the configured part. *)
Definition mpcBytes (m : mpcTable) : list Z := take (Z.to_nat (mpc_length m)) (mpcAllBytes m).

Definition sumBytes (b : list Z) : Z := fold_left (fun tmp x => u32 (tmp + x)) b 0.
Definition calcCheckSum (b : list Z) : Z := u8 (sumBytes b &&& 0xff).
Definition complement (c : Z) : Z := u8 (Z.lxor c 0xff + 1).

Definition newMPFIntel : mpfIntel :=
  let m := mkMPF mpfIntelSignature (EBDAStart + mpcTableOffset) 1 4 0 in
  m <| mpf_checkSum := complement (calcCheckSum (mpfBytes m)) |>.

Definition apicAddr (apic : Z) : Z := u32 (apicDefaultPhysBase + u32 (apic * apicBaseAddrStep)).

Definition newMPCCpu (i : Z) : mpcCPU :=
  let f := if i =? 0 then cpuFlagEnabled ||| cpuFlagBP else cpuFlagEnabled in
  mkMPCCPU mpEntryTypeProcessor (u8 i) mpAPICVersion f (u32 (cpuStepping ≪ 16)) (cpuFeatureAPIC ||| cpuFeatureFPU).

Definition newMPCTable (nCPUs : Z) : result mpcTable :=
  if (nCPUs <? 1) || (MaxVCPUs <? nCPUs) then Err errInvalidVCPUNumber
  else
    let m := mkMPC mpcTableSignature (u16 (mpcTableHeaderSize + nCPUs * mpcCPUEntrySize)) 4 0
      [0x47; 0x4F; 0x4B; 0x56; 0x4D; 0; 0; 0] (u16 nCPUs) (apicAddr 0) (map newMPCCpu (seqZ 0 nCPUs)) in
    Ok (m <| mpc_checkSum := complement (calcCheckSum (mpcBytes m)) |>).

Definition newEBDA (nCPUs : Z) : result EBDA :=
  match newMPCTable nCPUs with
  | Ok t => Ok (mkEBDA newMPFIntel t)
  | Err e => Err e
  | Panic => Panic
  | OutOfFuel => OutOfFuel
  end.

Definition ebdaBytes (e : EBDA) : list Z :=
  take (Z.to_nat (mpcTableOffset + mpc_length (e_mpcTable e)))
    (zeros (16 * 3) ++ mpfBytes (e_mpfIntel e) ++ mpcAllBytes (e_mpcTable e)).

(** ** What the guest finds *)

(** How a guest reads the table: the floating pointer at a multiple of 16, its
    checksum, the configuration table it points to, that table's checksum and
    the processor entries. *)
Definition checksumOK (b : list Z) : bool := sumBytes b mod 256 =? 0.

Definition entryMatches (ebda : list Z) (table i : Z) : bool :=
  let e := table + 44 + 20 * i in
  (zget ebda e =? 0) && (zget ebda (e + 1) =? i) &&
  (zget ebda (e + 3) =? if i =? 0 then cpuFlagEnabled + cpuFlagBP else cpuFlagEnabled).

Definition describes (n : Z) (ebda : list Z) : bool :=
  let p := 0x30 in
  let table := le_uint32 ebda (p + 4) - EBDAStart in
  (le_uint32 ebda p =? mpfIntelSignature) && checksumOK (zslice ebda p 16) &&
  (le_uint32 ebda table =? mpcTableSignature) &&
  (table + le_uint16 ebda (table + 4) =? zlen ebda) && checksumOK (zslice ebda table (le_uint16 ebda (table + 4))) &&
  (le_uint16 ebda (table + 34) =? n) && forallb (entryMatches ebda table) (seqZ 0 n).

Lemma describes_all :
  forallb (fun n => match newEBDA n with Ok e => describes n (ebdaBytes e) | _ => false end) (seqZ 1 64) = true.
Proof. vm_compute. reflexivity. Qed.

(** For every number of processors the MP table can describe, the area that
    is written has valid signatures and checksums, its floating pointer leads to
    the table, the table ends where the area ends, and its entries are exactly
    the processors with their APIC identifiers, the first one being the boot
    processor. *)
Theorem ebda_describes_cpus n :
  1 <= n <= MaxVCPUs -> exists e, newEBDA n = Ok e /\ describes n (ebdaBytes e) = true.
Proof.
  intros Hn. pose proof describes_all as H. rewrite forallb_forall in H.
  specialize (H n). destruct (newEBDA n) as [e| | |].
  - exists e. split; [done|]. apply H. apply list_elem_of_In, elem_of_seqZ. unfold MaxVCPUs in Hn. lia.
  - exfalso. discriminate H. apply list_elem_of_In, elem_of_seqZ. unfold MaxVCPUs in Hn. lia.
  - exfalso. discriminate H. apply list_elem_of_In, elem_of_seqZ. unfold MaxVCPUs in Hn. lia.
  - exfalso. discriminate H. apply list_elem_of_In, elem_of_seqZ. unfold MaxVCPUs in Hn. lia.
Qed.

Lemma ebda_describes_cpus_witness : exists e, newEBDA 64 = Ok e /\ describes 64 (ebdaBytes e) = true.
Proof. apply (ebda_describes_cpus 64). unfold MaxVCPUs. lia. Defined.

(** The comment of the struct asks for less than 1 KiB, but with 46
    processors and more the area is larger and runs past 0xa0000. *)
Theorem ebda_exceeds_1k :
  exists e, newEBDA 46 = Ok e /\ 1024 < zlen (ebdaBytes e) /\ 0xa0000 < EBDAStart + zlen (ebdaBytes e).
Proof. eexists. split; [reflexivity|]. vm_compute. done. Qed.
