(* ===== verification/Loader.v ===== *)
(** Guest memory and the Linux loader (src/internal/machine/memory.go and
    loader.go).

    The images are readers of the host: [rd_size] is what the reader says its
    size is (or the error of asking), [rd_data] what reading delivers; they need
    not agree.  Parsing an ELF file is the standard library's; its outcome is
    part of the input. *)

From S2P Require Import Prelude Bytes GuestMem BootParam Ebda.

(** ** Guest memory (memory.go) *)

Definition highMemBase : Z := 0x100000.
Definition MinMemSize : Z := 1 ≪ 25.
Definition bootParamAddr : Z := 0x10000.
Definition cmdlineAddr : Z := 0x20000.
Definition pageTableBase : Z := 0x30000.
Definition KVMTSSStart : Z := 0xC0000000 + (640 ≪ 20) + (256 ≪ 20).
Definition vesaFramebufferBase : Z := 0x01000000.
Definition vesaFramebufferReserveSize : Z := 4 ≪ 20.
Definition vesaFramebufferEnd : Z := vesaFramebufferBase + vesaFramebufferReserveSize.
Definition guestMemoryAlignment : Z := 2 ≪ 20.

(** [mapGuestMemory]: the length of the slice that is indexed by guest-physical
    addresses; [EIO] stands for [EINVAL]. *)
Definition mapGuestMemory (size : Z) : result Z :=
  let padding := guestMemoryAlignment - 1 in
  let holeSize := HighRAMStart - MMIOStart in
  if (size <=? 0) || (maxInt64 - padding - holeSize <? size) then Err EIO
  else Ok (if MMIOStart <? size then size + holeSize else size).

Record bootMachine : Type := mkBootMachine { b_mem : list Z; vesaEnabled : bool; nCPUs : Z }.
#[export] Instance bootMachine_eta : Settable bootMachine := fun r => mkBootMachine (b_mem r) (vesaEnabled r) (nCPUs r).

Definition ramSizesOf (span : Z) : Z * Z :=
  (Z.min span MMIOStart, if HighRAMStart <? span then span - HighRAMStart else 0).

Definition ramSizes (m : bootMachine) : Z * Z := ramSizesOf (zlen (b_mem m)).

(** [memoryRegions]: guest address, size and offset in the slice of each slot. *)
Definition memoryRegions (span : Z) : list (Z * Z * Z) :=
  let '(low, high) := ramSizesOf span in
  [(0, low, 0)] ++ (if negb (high =? 0) then [(HighRAMStart, high, HighRAMStart)] else []).

Definition memoryMapOf (span : Z) (vesa : bool) : list E820Entry :=
  let '(low, high) := ramSizesOf span in
  [mkE820 0 EBDAStart E820Ram; mkE820 EBDAStart (highMemBase - EBDAStart) E820Reserved] ++
  (if vesa then
     [mkE820 highMemBase (vesaFramebufferBase - highMemBase) E820Ram;
      mkE820 vesaFramebufferBase vesaFramebufferReserveSize E820Reserved;
      mkE820 vesaFramebufferEnd (u64 (low - vesaFramebufferEnd)) E820Ram]
   else [mkE820 highMemBase (u64 (low - highMemBase)) E820Ram]) ++
  [mkE820 KVMTSSStart (HighRAMStart - KVMTSSStart) E820Reserved] ++
  (if negb (high =? 0) then [mkE820 HighRAMStart high E820Ram] else []).

Definition memoryMap (m : bootMachine) : list E820Entry := memoryMapOf (zlen (b_mem m)) (vesaEnabled m).

(** ** Images (loader.go) *)

Definition errBootImage (what : string) : error := EWrap what (EMsg "invalid boot image").
Definition ErrZeroSizeKernel : error := EMsg "kernel is 0 bytes".
Definition ErrMemTooSmall : error := EMsg "mem request must be at least 1<<20".
Definition maxBootCommandLine : Z := pageTableBase - cmdlineAddr - 1.

Record bootRange : Type := mkRange { r_addr : Z; r_size : Z }.

Definition overlaps (r other : bootRange) : bool :=
  negb (r_size r =? 0) && negb (r_size other =? 0) &&
  (r_addr r <? u64 (r_addr other + r_size other)) && (r_addr other <? u64 (r_addr r + r_size r)).

Record reader : Type := mkReader { rd_data : list Z; rd_size : Z + error }.

Record bootImage : Type := mkImage { i_reader : reader; i_offset : Z; i_addr : Z; i_size : Z; i_memory : Z }.
#[export] Instance bootImage_eta : Settable bootImage :=
  fun r => mkImage (i_reader r) (i_offset r) (i_addr r) (i_size r) (i_memory r).

Definition noReader : reader := mkReader [] (inl 0).
Definition noImage : bootImage := mkImage noReader 0 0 0 0.

Definition framebuffer : bootRange := mkRange vesaFramebufferBase vesaFramebufferReserveSize.

Definition readerSize (r : reader) (limit : Z) : result Z :=
  match rd_size r with
  | inr e => Err (EWrap "image size" e)
  | inl size => if (size <? 0) || (limit <? size) then Err (errBootImage "image size exceeds available boot memory") else Ok size
  end.

(** [io.ReadFull] of [n] bytes at [off] into the memory at [a]; a short image
    leaves what it delivered. *)
Definition readFull (r : reader) (off n a : Z) : M bootMachine unit := fun m =>
  let got := zslice (rd_data r) off n in
  let m' := m <| b_mem := zwrite (b_mem m) a got |> in
  if zlen got =? n then (Ok tt, m') else (Err (EWrap "read image" EEOF), m').

Definition readBootImage (image : bootImage) : M bootMachine unit :=
  let! m := gget in
  check! (i_memory image <? i_size image) || negb (ValidRange (b_mem m) (i_addr image) (i_memory image))
    else errBootImage "image is outside guest RAM" in
  do! (if negb (i_size image =? 0) then readFull (i_reader image) (i_offset image) (i_size image) (i_addr image) else ret tt) in
  gupd (fun m => m <| b_mem := zwrite (b_mem m) (i_addr image + i_size image) (zeros (i_memory image - i_size image)) |>).

Definition validateCommandLine (params : list Z) (limit : Z) : result unit :=
  if existsb (fun b => b =? 0) params then Err (errBootImage "kernel command line contains a NUL byte")
  else if Z.min maxBootCommandLine limit <? zlen params then Err (errBootImage "kernel command line is too long")
  else Ok tt.

(** The scan of the occupied ranges for one candidate: the new limit and
    whether there was a conflict. *)
Fixpoint scanOccupied (candidate : bootRange) (occupied : list bootRange) (limit : Z) (conflict : bool) : Z * bool :=
  match occupied with
  | [] => (limit, conflict)
  | reserved :: occupied =>
      if overlaps candidate reserved
      then scanOccupied candidate occupied (Z.min limit (r_addr reserved)) true
      else scanOccupied candidate occupied limit conflict
  end.

(** The search of the highest free range; [Some None] when it ends without one. *)
Fixpoint placeInitrd (fuel : nat) (size limit : Z) (occupied : list bootRange) : option (option Z) :=
  match fuel with
  | O => None
  | S fuel =>
      if size <=? limit then
        let addr := Z.ldiff (limit - size) 4095 in
        if addr <? highMemBase then Some None
        else
          let '(limit', conflict) := scanOccupied (mkRange addr size) occupied limit false in
          if conflict then placeInitrd fuel size limit' occupied else Some (Some addr)
      else Some None
  end.

Definition initrdImage (m : bootMachine) (r : option reader) (maxAddr : Z) (occupied : list bootRange) : result bootImage :=
  match r with
  | None => Ok noImage
  | Some r =>
      let '(low, _) := ramSizes m in
      let limit := Z.min low (Z.min maxAddr (HighRAMStart - 1) + 1) in
      match readerSize r limit with
      | Ok size =>
          if size =? 0 then Err (errBootImage "initrd is empty")
          else
            let occupied := if vesaEnabled m then occupied ++ [framebuffer] else occupied in
            match placeInitrd (S (length occupied)) size limit occupied with
            | Some (Some addr) => Ok (mkImage r 0 addr size size)
            | Some None => Err (errBootImage "initrd does not fit without overlapping the kernel or reserved memory")
            | None => OutOfFuel
            end
      | Err e => Err (EWrap "initrd" e)
      | Panic => Panic
      | OutOfFuel => OutOfFuel
      end
  end.

(** ** Kernels (loader.go) *)

Definition EM_386 : Z := 3.
Definition EM_X86_64 : Z := 62.
Definition PT_LOAD : Z := 1.

Record elfProg : Type := mkProg { p_type : Z; Paddr : Z; Filesz : Z; Memsz : Z; p_reader : reader }.
Record elfFile : Type := mkElf { e_machine : Z; e_class64 : bool; e_entry : Z; progs : list elfProg }.

(** A kernel file: what [elf.NewFile] makes of it, if it is an ELF file, and the
    reader. *)
Record kernelFile : Type := mkKernel { k_elf : option elfFile; k_reader : reader }.

Fixpoint elfLoop (m : bootMachine) (ps : list elfProg) (images : list bootImage) (occupied : list bootRange) :
    result (list bootImage * list bootRange) :=
  match ps with
  | [] => Ok (images, occupied)
  | p :: ps =>
      if negb (p_type p =? PT_LOAD) || (Memsz p =? 0) then elfLoop m ps images occupied
      else if (Memsz p <? Filesz p) || (Paddr p <? highMemBase) || negb (ValidRange (b_mem m) (Paddr p) (Memsz p))
      then Err (errBootImage "ELF segment does not fit in guest RAM")
      else
        let r := mkRange (Paddr p) (Memsz p) in
        if vesaEnabled m && overlaps r framebuffer then Err (errBootImage "ELF segment overlaps the VESA framebuffer")
        else if existsb (overlaps r) occupied then Err (errBootImage "ELF segment overlaps another loadable segment")
        else elfLoop m ps (images ++ [mkImage (p_reader p) 0 (Paddr p) (Filesz p) (Memsz p)]) (occupied ++ [r])
  end.

Definition elfImages (m : bootMachine) (k : elfFile) : result (list bootImage * list bootRange) :=
  if negb (e_machine k =? EM_X86_64) && negb (e_machine k =? EM_386) then Err (errBootImage "unsupported ELF architecture")
  else
    match elfLoop m (progs k) [] [] with
    | Ok ([], _) => Err ErrZeroSizeKernel
    | r => r
    end.

Definition kernelRuntime (m : bootMachine) (image : bootImage) (hdr : SetupHeader) : result (bootImage * list bootRange) :=
  let '(low, _) := ramSizes m in
  if (Version hdr <? 0x020a) || (InitSize hdr =? 0) then Ok (image, [mkRange (i_addr image) (i_size image)])
  else
    let runtimeStart := if PrefAddress hdr =? 0 then highMemBase else PrefAddress hdr in
    let fits image runtimeStart :=
      if (runtimeStart <? highMemBase) || (low <? runtimeStart) || (low - runtimeStart <? InitSize hdr)
      then Err (errBootImage "kernel runtime does not fit in guest RAM")
      else Ok (image, [mkRange (i_addr image) (i_size image); mkRange runtimeStart (InitSize hdr)]) in
    if negb (RelocatableKernel hdr =? 0) then
      let alignment := KernelAlignment hdr in
      if (alignment =? 0) || negb (alignment &&& (alignment - 1) =? 0) then Err (errBootImage "invalid kernel alignment")
      else
        let runtimeStart := Z.max runtimeStart highMemBase in
        let runtimeWindow := mkRange runtimeStart (Z.max (i_size image) (InitSize hdr)) in
        let runtimeStart :=
          if vesaEnabled m && overlaps runtimeWindow framebuffer then Z.max runtimeStart vesaFramebufferEnd else runtimeStart in
        if (low <? runtimeStart) || (low <? alignment)
        then Err (errBootImage "kernel runtime address or alignment exceeds low RAM")
        else
          let runtimeStart := Z.ldiff (u64 (runtimeStart + alignment - 1)) (alignment - 1) in
          fits (image <| i_addr := runtimeStart |>) runtimeStart
    else fits image runtimeStart.

Definition bzImage (m : bootMachine) (kernel : reader) (hdr : SetupHeader) : result (bootImage * list bootRange * SetupHeader) :=
  let '(low, _) := ramSizes m in
  match readerSize kernel low with
  | Err e => Err (EWrap "kernel" e)
  | Panic => Panic
  | OutOfFuel => OutOfFuel
  | Ok size =>
      let sects := if SetupSects hdr =? 0 then 4 else SetupSects hdr in
      let setupSize := (sects + 1) * 512 in
      if size <=? setupSize then Err (EWrap "kernel has no protected-mode payload" ErrZeroSizeKernel)
      else
        let size := size - setupSize in
        if size <? SysSize hdr * 16 then Err (errBootImage "kernel protected-mode payload is truncated")
        else
          match kernelRuntime m (mkImage kernel setupSize highMemBase size size) hdr with
          | Ok (image, occupied) =>
              if (2 ^ 32 - 1 <? i_addr image) || negb (ValidRange (b_mem m) (i_addr image) (i_memory image))
              then Err (errBootImage "kernel does not fit in low RAM")
              else if vesaEnabled m && existsb (fun r => overlaps r framebuffer) occupied
              then Err (errBootImage "kernel overlaps the VESA framebuffer")
              else Ok (image, occupied, hdr <| Code32Start := u32 (i_addr image) |>)
          | Err e => Err e
          | Panic => Panic
          | OutOfFuel => OutOfFuel
          end
  end.

Record linuxBootPlan : Type := mkPlan {
  pl_params : BootParam;
  pl_images : list bootImage;
  pl_occupied : list bootRange;
  pl_entry : Z;
  pl_amd64 : bool;
  maxInitrdAddr : Z;
  commandLineLimit : Z
}.

Definition entryInImages (entry : Z) (images : list bootImage) : bool :=
  existsb (fun image => (i_addr image <=? entry) && (entry - i_addr image <? i_memory image)) images.

Definition planLinuxBoot (m : bootMachine) (kernel : kernelFile) : result linuxBootPlan :=
  match k_elf kernel with
  | Some k =>
      match elfImages m k with
      | Ok (images, occupied) =>
          if (MMIOStart <=? e_entry k) || negb (entryInImages (e_entry k) images)
          then Err (errBootImage "ELF entry is outside bootable low RAM")
          else Ok (mkPlan emptyBootParam images occupied (e_entry k) (e_class64 k) (2 ^ 32 - 1) maxBootCommandLine)
      | Err e => Err e
      | Panic => Panic
      | OutOfFuel => OutOfFuel
      end
  | None =>
      match newBootParam (rd_data (k_reader kernel)) with
      | Ok bp =>
          match bzImage m (k_reader kernel) (Hdr bp) with
          | Ok (image, ranges, hdr) =>
              let bp := bp <| Hdr := hdr |> in
              Ok (mkPlan bp [image] ranges (i_addr image) false
                    (if InitrdAddrMax hdr =? 0 then 0x37ffffff else InitrdAddrMax hdr)
                    (if CmdlineSize hdr =? 0 then 255 else CmdlineSize hdr))
          | Err e => Err e
          | Panic => Panic
          | OutOfFuel => OutOfFuel
          end
      | Err e => Err (EWrap "kernel boot header" e)
      | Panic => Panic
      | OutOfFuel => OutOfFuel
      end
  end.

(** Lift a call that does not touch the machine. *)
Definition lift {S A} (r : result A) : M S A := fun s => (r, s).

Fixpoint readImages (images : list bootImage) : M bootMachine unit :=
  match images with
  | [] => ret tt
  | image :: images => do! readBootImage image in readImages images
  end.

Fixpoint addEntriesE820 (es : list E820Entry) (b : BootParam) : result BootParam :=
  match es with
  | [] => Ok b
  | e :: es =>
      match AddE820Entry (Addr e) (Size e) (Type_ e) b with
      | Ok b => addEntriesE820 es b
      | r => r
      end
  end.

(** The fields the loader fills in. *)
Definition fillHeader (rd : bootImage) (h : SetupHeader) : SetupHeader :=
  h <| VidMode := 0xffff |> <| TypeOfLoader := 0xff |> <| RamdiskImage := u32 (i_addr rd) |> <| RamdiskSize := u32 (i_size rd) |>
    <| LoadFlags := LoadFlags h ||| (CanUseHeap ||| LoadedHigh ||| KeepSegments) |> <| HeapEndPtr := 0xfe00 |>
    <| ExtLoaderVer := 0 |> <| CmdlinePtr := cmdlineAddr |>.

(** [copy(m.mem[a:], b)]. *)
Definition copyAt (a : Z) (b : list Z) : M bootMachine unit :=
  gupd (fun m => m <| b_mem := zwrite (b_mem m) a (take (Z.to_nat (zlen (b_mem m) - a)) b) |>).

(** [m.mem[a] = v]. *)
Definition storeAt (a v : Z) : M bootMachine unit :=
  let! m := gget in
  let! _ := gindex (b_mem m) a in
  gupd (fun m => m <| b_mem := zinsert a v (b_mem m) |>).

Definition prepareLinuxBoot (kernel : option kernelFile) (initrd : option reader) (params : list Z) : M bootMachine (Z * bool) :=
  let! m := gget in
  check! zlen (b_mem m) <? MinMemSize else ErrMemTooSmall in
  match kernel with
  | None => throw (errBootImage "missing kernel image")
  | Some kernel =>
      let! plan := lift (planLinuxBoot m kernel) in
      do! lift (validateCommandLine params (commandLineLimit plan)) in
      let! rd := lift (initrdImage m initrd (maxInitrdAddr plan) (pl_occupied plan)) in
      do! readImages (pl_images plan) in
      do! (match initrd with Some _ => readBootImage rd | None => ret tt end) in
      let! bp := lift (addEntriesE820 (memoryMap m) (pl_params plan)) in
      let bp := bp <| Hdr := fillHeader rd (Hdr bp) |> in
      do! copyAt bootParamAddr (bootParamBytes bp) in
      do! copyAt cmdlineAddr params in
      do! storeAt (cmdlineAddr + zlen params) 0 in
      let! e := lift (newEBDA (nCPUs m)) in
      do! copyAt EBDAStart (ebdaBytes e) in
      ret (pl_entry plan, pl_amd64 plan)
  end.
