(* ===== verification/LoaderSpec.v ===== *)
(** Properties of guest memory and of the Linux loader: the memory map
    describes the RAM, the initial ramdisk is placed as high as possible, and
    after a successful load the guest memory holds the images, the command line
    and the tables. *)

From S2P Require Import Prelude Bytes GuestMem BootParam Ebda Loader.

(** ** The memory map *)

(** Guest-physical addresses backed by RAM, in a slice of length [span]. *)
Definition ram_addr (span a : Z) : Prop := 0 <= a < span /\ (a < MMIOStart \/ HighRAMStart <= a).

Definition in_entry (a : Z) (e : E820Entry) : Prop := Addr e <= a < Addr e + Size e.

(** Entries in ascending order that do not overlap. *)
Fixpoint ascending (from : Z) (es : list E820Entry) : Prop :=
  match es with
  | [] => True
  | e :: es => from <= Addr e /\ 0 < Size e /\ ascending (Addr e + Size e) es
  end.

Lemma span_range size span :
  MinMemSize <= size -> mapGuestMemory size = Ok span ->
  MinMemSize <= span <= maxInt64 /\ (MMIOStart < span -> HighRAMStart < span) /\
  fst (ramSizesOf span) + snd (ramSizesOf span) = size.
Proof.
  unfold mapGuestMemory, MinMemSize, ramSizesOf, guestMemoryAlignment, MMIOStart, HighRAMStart, maxInt64. cbn [fst snd].
  change (1 ≪ 25) with 33554432. change (2 ≪ 20) with 2097152.
  intros Hs. destruct (_ || _) eqn:E; [done|]. zbool. intros [= <-].
  destruct (3489660928 <? size) eqn:?; zbool; zcases; lia.
Qed.

Lemma vesa_consts : vesaFramebufferReserveSize = 4194304 /\ KVMTSSStart = 4160749568 /\ MinMemSize = 33554432.
Proof. repeat split. Qed.

(** The map, entry by entry, without the wrap-around. *)
Lemma memoryMapOf_eq span vesa low high :
  ramSizesOf span = (low, high) -> MinMemSize <= low < 2 ^ 64 ->
  memoryMapOf span vesa =
    [mkE820 0 0x9fc00 E820Ram; mkE820 0x9fc00 0x60400 E820Reserved] ++
    (if vesa then [mkE820 0x100000 0xf00000 E820Ram; mkE820 0x1000000 0x400000 E820Reserved; mkE820 0x1400000 (low - 0x1400000) E820Ram]
     else [mkE820 0x100000 (low - 0x100000) E820Ram]) ++
    [mkE820 0xf8000000 0x8000000 E820Reserved] ++
    (if negb (high =? 0) then [mkE820 HighRAMStart high E820Ram] else []).
Proof.
  intros Hr Hl. unfold MinMemSize in Hl. change (1 ≪ 25) with 33554432 in Hl. unfold memoryMapOf. rewrite Hr.
  change vesaFramebufferEnd with 0x1400000. change highMemBase with 0x100000. rewrite !u64_small by lia. by destruct vesa.
Qed.

(** Low RAM ends below the window of the devices, or the memory goes on above
    4 GiB. *)
Lemma ramSizes_cases span :
  0 <= span -> (MMIOStart < span -> HighRAMStart < span) ->
  ramSizesOf span = (span, 0) /\ span <= MMIOStart \/
  ramSizesOf span = (MMIOStart, span - HighRAMStart) /\ HighRAMStart < span.
Proof.
  unfold ramSizesOf. intros H0 H. destruct (Z.le_gt_cases span MMIOStart) as [Hc|Hc].
  - left. rewrite Z.min_l by done. unfold HighRAMStart, MMIOStart in *. destruct (_ <? _) eqn:?; zbool; [lia|done].
  - right. rewrite Z.min_r by lia. specialize (H Hc). destruct (_ <? _) eqn:?; zbool; [done|lia].
Qed.

(** Lists given by their elements: [Forall] and [Exists] as formulas. *)
Ltac each := repeat first [rewrite list.Forall_cons | rewrite List.Exists_cons | rewrite list.Forall_nil | rewrite List.Exists_nil].

(** C40: the memory map of a machine is in ascending order without overlaps, every
    RAM entry is backed by RAM, every byte of RAM is in an entry, and no entry
    covers the window of the PCI devices; the slots the hypervisor is given are
    exactly the RAM, at the offset of their own address, and their size is the
    memory that was asked for. *)
Theorem e820_describes_ram size span vesa :
  MinMemSize <= size -> mapGuestMemory size = Ok span ->
  let es := memoryMapOf span vesa in
  ascending 0 es /\
  (forall a, Forall (fun e => Type_ e = E820Ram -> in_entry a e -> ram_addr span a) es) /\
  (forall a, ram_addr span a -> Exists (in_entry a) es) /\
  (forall a, Forall (fun e => in_entry a e -> ~ (MMIOStart <= a < KVMTSSStart)) es) /\
  (forall a, ram_addr span a <-> Exists (fun '(g, n, o) => g <= a < g + n /\ o = g) (memoryRegions span)) /\
  fst (ramSizesOf span) + snd (ramSizesOf span) = size.
Proof.
  intros Hs Hm. destruct (span_range _ _ Hs Hm) as ((H1 & H2) & H3 & H4). cbv zeta. rewrite H4.
  pose proof vesa_consts as (_ & _ & Hmin). rewrite Hmin in *.
  assert (Hmm : MMIOStart = 3489660928) by reflexivity. assert (Hh : HighRAMStart = 4294967296) by reflexivity.
  assert (Hk : KVMTSSStart = 0xf8000000) by reflexivity. unfold maxInt64 in H2.
  destruct (ramSizes_cases span ltac:(lia) H3) as [[Hr Hc]|[Hr Hc]].
  - pose proof (memoryMapOf_eq span vesa _ _ Hr) as ->; [|rewrite Hmin; lia]. unfold memoryRegions. rewrite Hr.
    unfold ram_addr, in_entry, E820Ram, E820Reserved. cbn [negb Z.eqb].
    destruct vesa; cbn [app]; splits; intros; each; cbn; lia.
  - pose proof (memoryMapOf_eq span vesa _ _ Hr) as ->; [|rewrite Hmin; lia]. unfold memoryRegions. rewrite Hr.
    destruct (span - HighRAMStart =? 0) eqn:E0; zbool; [lia|].
    unfold ram_addr, in_entry, E820Ram, E820Reserved. cbn [negb].
    destruct vesa; cbn [app]; splits; intros; each; cbn; lia.
Qed.

Lemma e820_describes_ram_witness :
  ascending 0 (memoryMapOf (0x140000000 + 0x30000000) true) /\
  fst (ramSizesOf (0x140000000 + 0x30000000)) + snd (ramSizesOf (0x140000000 + 0x30000000)) = 0x140000000.
Proof.
  assert (H : MinMemSize <= 0x140000000) by (pose proof vesa_consts; lia).
  pose proof (e820_describes_ram 0x140000000 (0x140000000 + 0x30000000) true H eq_refl) as (Ha & _ & _ & _ & _ & He).
  split; [exact Ha|exact He].
Defined.

(** ** Placement of the initial ramdisk *)

(** A range that the 64-bit arithmetic does not wrap around. *)
Definition range_ok (r : bootRange) : Prop := 0 <= r_addr r /\ 0 <= r_size r /\ r_addr r + r_size r < 2 ^ 64.

Definition disjoint (r r' : bootRange) : Prop :=
  r_size r = 0 \/ r_size r' = 0 \/ r_addr r + r_size r <= r_addr r' \/ r_addr r' + r_size r' <= r_addr r.

Lemma overlaps_false r r' : range_ok r -> range_ok r' -> overlaps r r' = false <-> disjoint r r'.
Proof.
  unfold range_ok, disjoint, overlaps. intros. rewrite !u64_small by lia. zcases; split; intros; try done; lia.
Qed.

(** A place for [size] bytes: page-aligned, above 1 MiB, below the limit and
    clear of the occupied ranges. *)
Definition slot (occupied : list bootRange) (size limit a : Z) : Prop :=
  a mod 4096 = 0 /\ highMemBase <= a /\ a + size <= limit /\ Forall (disjoint (mkRange a size)) occupied.

Lemma slot_below size limit a : a mod 4096 = 0 -> a + size <= limit -> a <= Z.ldiff (limit - size) 4095.
Proof.
  intros Ha Hl. change 4095 with (2 ^ 12 - 1). rewrite ldiff_low by lia. change (2 ^ 12) with 4096.
  pose proof (Z.div_mod a 4096). rewrite Ha in H. assert (a / 4096 <= (limit - size) / 4096) by (apply Z.div_le_mono; lia). lia.
Qed.

Lemma candidate_fits size limit :
  let addr := Z.ldiff (limit - size) 4095 in addr mod 4096 = 0 /\ addr + size <= limit.
Proof.
  cbv zeta. change 4095 with (2 ^ 12 - 1). rewrite ldiff_low by lia. change (2 ^ 12) with 4096. split; [apply Z_mod_mult|].
  pose proof (Z.div_mod (limit - size) 4096). pose proof (Z.mod_pos_bound (limit - size) 4096). lia.
Qed.

(** The scan: without a conflict the candidate is free; with one the limit is
    lowered to the start of an occupied range below it, and no free place at or
    below the candidate is lost. *)
Lemma scanOccupied_spec c occ limit conflict limit' conflict' :
  range_ok c -> Forall range_ok occ -> scanOccupied c occ limit conflict = (limit', conflict') ->
  limit' <= limit /\
  (conflict' = false -> conflict = false /\ limit' = limit /\ Forall (disjoint c) occ) /\
  (conflict' = true -> conflict = true \/ exists r, r ∈ occ /\ limit' <= r_addr r < r_addr c + r_size c) /\
  (forall a, a <= r_addr c -> a + r_size c <= limit -> Forall (disjoint (mkRange a (r_size c))) occ -> a + r_size c <= limit').
Proof.
  intros Hc Hocc. revert limit conflict. induction Hocc as [|r occ Hr _ IH]; intros limit conflict; cbn [scanOccupied].
  { intros [= <- <-]. splits; auto with lia. }
  destruct (overlaps c r) eqn:E.
  - intros (H1 & H2 & H3 & H4)%IH. splits; [lia|intros Hf; by destruct (H2 Hf)| |].
    + intros Ht. right. unfold overlaps, range_ok in *. rewrite !u64_small in E by lia. zbool.
      exists r. split; [left|lia].
    + intros a Ha Hl [Hd Hall]%list.Forall_cons. apply H4; [done| |done].
      unfold overlaps, range_ok, disjoint in *. cbn in Hd. rewrite !u64_small in E by lia. zbool. lia.
  - apply overlaps_false in E; [|done|done]. intros (H1 & H2 & H3 & H4)%IH. splits; [done| | |].
    + intros Hf. destruct (H2 Hf) as (? & ? & ?). splits; [done..|]. by apply list.Forall_cons.
    + intros Ht. destruct (H3 Ht) as [?|(r' & ? & ?)]; [by left|]. right. exists r'. split; [by right|done].
    + intros a Ha Hl [_ Hall]%list.Forall_cons. by apply H4.
Qed.

(** The occupied ranges that start below the limit bound the number of rounds. *)
Definition startsBelow (limit : Z) (occ : list bootRange) : nat := length (filter (fun r => r_addr r < limit) occ).

Lemma startsBelow_cons limit r occ :
  startsBelow limit (r :: occ) = ((if (r_addr r <? limit)%Z then 1 else 0) + startsBelow limit occ)%nat.
Proof.
  unfold startsBelow. destruct (r_addr r <? limit) eqn:E; zbool.
  - by rewrite filter_cons_True by done.
  - by rewrite filter_cons_False by lia.
Qed.

Lemma startsBelow_mono limit limit' occ : limit' <= limit -> (startsBelow limit' occ <= startsBelow limit occ)%nat.
Proof.
  intros Hl. induction occ as [|y occ IH]; [done|]. rewrite !startsBelow_cons. zcases; lia.
Qed.

Lemma startsBelow_decreases limit limit' occ r :
  limit' <= r_addr r < limit -> r ∈ occ -> (startsBelow limit' occ < startsBelow limit occ)%nat.
Proof.
  intros Hl. induction occ as [|x occ IH]; [by intros ?%not_elem_of_nil|]. rewrite !startsBelow_cons.
  pose proof (startsBelow_mono limit limit' occ ltac:(lia)). intros [<-|Hin]%elem_of_cons; [|specialize (IH Hin)]; zcases; lia.
Qed.

(** The search finds the highest place, and fails only when there is none. *)
Lemma placeInitrd_spec fuel size limit occ :
  0 < size -> limit < 2 ^ 64 -> Forall range_ok occ -> (startsBelow limit occ < fuel)%nat ->
  match placeInitrd fuel size limit occ with
  | Some (Some addr) => slot occ size limit addr /\ forall a, slot occ size limit a -> a <= addr
  | Some None => forall a, ~ slot occ size limit a
  | None => False
  end.
Proof.
  intros Hs. revert limit. induction fuel as [|fuel IH]; intros limit Hl Hocc Hf; [lia|]. cbn [placeInitrd].
  unfold slot. destruct (size <=? limit) eqn:E; zbool.
  2: { intros a (_ & ? & ? & _). unfold highMemBase in *. lia. }
  destruct (candidate_fits size limit) as [Hal Hfit]. set (addr := Z.ldiff _ _) in *.
  destruct (addr <? highMemBase) eqn:E1; zbool.
  { intros a (Ha & Hh & Hle & _). pose proof (slot_below size limit a Ha Hle). fold addr in H. lia. }
  assert (Hc : range_ok (mkRange addr size)) by (unfold range_ok, highMemBase in *; cbn; lia).
  destruct (scanOccupied _ _ _ _) as [limit' conflict] eqn:Hsc.
  destruct (scanOccupied_spec _ _ _ _ _ _ Hc Hocc Hsc) as (H1 & H2 & H3 & H4). cbn in H3, H4. destruct conflict.
  - destruct (H3 eq_refl) as [?|(r & Hr & Hlt)]; [done|].
    assert (Hf' : (startsBelow limit' occ < fuel)%nat).
    { pose proof (startsBelow_decreases limit limit' occ r ltac:(lia) Hr). lia. }
    assert (Hiff : forall a, slot occ size limit' a <-> slot occ size limit a).
    { intros a. unfold slot. split; intros (Ha & Hh & Hle & Hd); splits; try done; [lia|]. apply H4; [|done|done].
      by apply slot_below. }
    specialize (IH limit' ltac:(lia) Hocc Hf'). destruct (placeInitrd fuel size limit' occ) as [[addr'|]|]; [|..|done].
    + destruct IH as [Hsl Hmax]. split; [by apply Hiff|]. intros a Ha. by apply Hmax, Hiff.
    + intros a Ha. by apply (IH a), Hiff.
  - destruct (H2 eq_refl) as (_ & _ & Hd). split; [done|]. intros a (Ha & _ & Hle & _). by apply slot_below.
Qed.

Definition initrdLimit (m : bootMachine) (maxAddr : Z) : Z := Z.min (fst (ramSizes m)) (Z.min maxAddr (HighRAMStart - 1) + 1).

(** The ranges the ramdisk must avoid. *)
Definition avoided (m : bootMachine) (occupied : list bootRange) : list bootRange :=
  if vesaEnabled m then occupied ++ [framebuffer] else occupied.

Lemma avoided_ok m occupied : Forall range_ok occupied -> Forall range_ok (avoided m occupied).
Proof.
  intros H. unfold avoided. destruct (vesaEnabled m); [|done]. apply list.Forall_app. split; [done|].
  apply list.Forall_singleton. pose proof vesa_consts. unfold range_ok, framebuffer, vesaFramebufferBase. cbn [r_addr r_size]. lia.
Qed.

Lemma initrdLimit_bound m maxAddr : initrdLimit m maxAddr <= HighRAMStart /\ initrdLimit m maxAddr <= zlen (b_mem m) /\ initrdLimit m maxAddr <= MMIOStart.
Proof. unfold initrdLimit, ramSizes, ramSizesOf, HighRAMStart, MMIOStart. cbn [fst]. lia. Qed.

Lemma initrdImage_spec m r maxAddr occupied size :
  rd_size r = inl size -> 0 < size <= initrdLimit m maxAddr -> Forall range_ok occupied ->
  match initrdImage m (Some r) maxAddr occupied with
  | Ok img => img = mkImage r 0 (i_addr img) size size /\
      slot (avoided m occupied) size (initrdLimit m maxAddr) (i_addr img) /\
      (forall a, slot (avoided m occupied) size (initrdLimit m maxAddr) a -> a <= i_addr img)
  | Err _ => forall a, ~ slot (avoided m occupied) size (initrdLimit m maxAddr) a
  | _ => False
  end.
Proof.
  intros Hr Hs Hocc. unfold initrdImage. destruct (ramSizes m) as [low high] eqn:Hram.
  assert (Hlim : Z.min low (Z.min maxAddr (HighRAMStart - 1) + 1) = initrdLimit m maxAddr) by (unfold initrdLimit; by rewrite Hram).
  rewrite Hlim. unfold readerSize. rewrite Hr. destruct (_ || _) eqn:E.
  { apply orb_true_iff in E as [E|E]; zbool; lia. }
  destruct (size =? 0) eqn:?; zbool; [lia|]. fold (avoided m occupied).
  pose proof (initrdLimit_bound m maxAddr) as [Hb _]. unfold HighRAMStart in Hb.
  pose proof (placeInitrd_spec (S (length (avoided m occupied))) size (initrdLimit m maxAddr) (avoided m occupied)
    ltac:(lia) ltac:(lia) (avoided_ok m _ Hocc)) as Hp.
  assert (Hfuel : (startsBelow (initrdLimit m maxAddr) (avoided m occupied) < S (length (avoided m occupied)))%nat).
  { unfold startsBelow. apply Nat.lt_succ_r. apply length_filter. }
  specialize (Hp Hfuel). destruct (placeInitrd _ _ _ _) as [[addr|]|]; [|done|done]. cbn. tauto.
Qed.

(** A ramdisk is placed at the highest page-aligned address above 1 MiB where
    it fits below the limit of the kernel and of low RAM without overlapping the
    kernel, its run-time area or the framebuffer; it is refused only when there
    is no such address; and the search ends after at most one round per occupied
    range. *)
Theorem initrd_placed_highest m r maxAddr occupied size :
  rd_size r = inl size -> 0 < size <= initrdLimit m maxAddr -> Forall range_ok occupied ->
  match initrdImage m (Some r) maxAddr occupied with
  | Ok img => img = mkImage r 0 (i_addr img) size size /\
      slot (avoided m occupied) size (initrdLimit m maxAddr) (i_addr img) /\
      (forall a, slot (avoided m occupied) size (initrdLimit m maxAddr) a -> a <= i_addr img)
  | Err _ => forall a, ~ slot (avoided m occupied) size (initrdLimit m maxAddr) a
  | _ => False
  end.
Proof. apply initrdImage_spec. Qed.

(** ** Loading *)

(** An image that the loader accepts. *)
Definition image_ok (mem : list Z) (img : bootImage) : Prop :=
  highMemBase <= i_addr img /\ 0 <= i_size img <= i_memory img /\ 0 <= i_offset img /\ i_addr img + i_memory img <= zlen mem.

(** The memory holds the bytes of the image, followed by zeros. *)
Definition loaded (mem : list Z) (img : bootImage) : Prop :=
  zslice mem (i_addr img) (i_size img) = zslice (rd_data (i_reader img)) (i_offset img) (i_size img) /\
  zlen (zslice (rd_data (i_reader img)) (i_offset img) (i_size img)) = i_size img /\
  (forall a, i_addr img + i_size img <= a < i_addr img + i_memory img -> zget mem a = 0).

Definition image_range (img : bootImage) : bootRange := mkRange (i_addr img) (i_memory img).

Definition in_image (a : Z) (img : bootImage) : Prop := i_addr img <= a < i_addr img + i_memory img.

(** Memories of a machine that agree outside of some images. *)
Definition changed_in (imgs : list bootImage) (m m' : bootMachine) : Prop :=
  zlen (b_mem m') = zlen (b_mem m) /\ vesaEnabled m' = vesaEnabled m /\ nCPUs m' = nCPUs m /\
  (forall a, 0 <= a -> Forall (fun img => ~ in_image a img) imgs -> zget (b_mem m') a = zget (b_mem m) a).

Lemma loaded_agree mem mem' img :
  image_ok mem img -> zlen mem' = zlen mem -> (forall a, in_image a img -> zget mem' a = zget mem a) -> loaded mem img -> loaded mem' img.
Proof.
  unfold image_ok, loaded, in_image, highMemBase. intros Hok Hl Hag (H1 & H2 & H3). splits; [|done|].
  - rewrite <- H1. apply zslice_agree; [lia..|]. intros i Hi. apply Hag. lia.
  - intros a Ha. rewrite Hag by lia. by apply H3.
Qed.

Lemma wp_readBootImage img m :
  image_ok (b_mem m) img ->
  wp (readBootImage img) m (fun _ m' => changed_in [img] m m' /\ loaded (b_mem m') img) (fun _ _ => True).
Proof.
  intros (Ha & Hs & Ho & Hm). unfold highMemBase in Ha. unfold readBootImage. wsteps; [done|].
  set (got := zslice (rd_data (i_reader img)) (i_offset img) (i_size img)).
  assert (Hfin : forall m1, zlen (b_mem m1) = zlen (b_mem m) -> vesaEnabled m1 = vesaEnabled m -> nCPUs m1 = nCPUs m ->
    (forall a, 0 <= a -> zget (b_mem m1) a = if (i_addr img <=? a) && (a <? i_addr img + i_size img) then zget got (a - i_addr img) else zget (b_mem m) a) ->
    zlen got = i_size img ->
    let m' := m1 <| b_mem := zwrite (b_mem m1) (i_addr img + i_size img) (zeros (i_memory img - i_size img)) |> in
    changed_in [img] m m' /\ loaded (b_mem m') img).
  { intros m1 Hl Hv Hn Hget Hgot. cbv zeta. cbn [b_mem set_field].
    assert (Hg2 : forall a, 0 <= a -> zget (zwrite (b_mem m1) (i_addr img + i_size img) (zeros (i_memory img - i_size img))) a =
      if (i_addr img + i_size img <=? a) && (a <? i_addr img + i_memory img) then 0 else zget (b_mem m1) a).
    { intros a Ha0. rewrite zget_write, zlen_zeros by lia. rewrite zget_zeros. zcases; try done; lia. }
    assert (Hl2 : zlen (zwrite (b_mem m1) (i_addr img + i_size img) (zeros (i_memory img - i_size img))) = zlen (b_mem m)).
    { rewrite zlen_write, zlen_zeros by lia. zcases; lia. }
    unfold changed_in, loaded. cbn. fold got. rewrite Hl2. splits; [done..| | |done|].
    - intros a Ha0 [Hni _]%list.Forall_cons. unfold in_image in Hni. rewrite Hg2, Hget by lia. zcases; try done; lia.
    - apply zlist_eq; [rewrite zlen_slice by lia; lia|]. intros i Hi. rewrite zlen_slice in Hi by lia.
      rewrite zget_slice by lia. rewrite Hg2, Hget by lia. zcases; try lia. f_equal. lia.
    - intros a Haa. rewrite Hg2 by lia. zcases; try done; lia. }
  destruct (i_size img =? 0) eqn:E; zbool; cbn [negb].
  - wsteps. apply Hfin; [done..| |unfold got; rewrite E; unfold zslice; by rewrite take_0].
    intros a Ha0. zcases; try done; lia.
  - unfold wp, readFull. fold got. destruct (zlen got =? i_size img) eqn:Eg; zbool; [|done].
    apply Hfin; cbn; [|done|done| |done].
    + rewrite zlen_write by lia. zcases; lia.
    + intros a Ha0. rewrite zget_write by lia. by rewrite Eg.
Qed.

(** Images that do not share memory. *)
Definition apart (i j : bootImage) : Prop := disjoint (image_range i) (image_range j).

Fixpoint all_apart (imgs : list bootImage) : Prop :=
  match imgs with [] => True | i :: imgs => Forall (apart i) imgs /\ all_apart imgs end.

Lemma apart_not_in i j a : apart i j -> in_image a i -> ~ in_image a j.
Proof. unfold apart, disjoint, in_image. cbn. lia. Qed.

Lemma apart_sym i j : apart i j -> apart j i.
Proof. unfold apart, disjoint. tauto. Qed.

Lemma all_apart_app l1 l2 :
  all_apart (l1 ++ l2) <-> all_apart l1 /\ all_apart l2 /\ Forall (fun i => Forall (apart i) l2) l1.
Proof.
  induction l1 as [|i l1 IH]; cbn [app all_apart]; [split; [intros H; splits; [done|done|constructor]|tauto]|].
  rewrite IH, list.Forall_app, list.Forall_cons. tauto.
Qed.

Lemma changed_in_trans l1 l2 m1 m2 m3 : changed_in l1 m1 m2 -> changed_in l2 m2 m3 -> changed_in (l1 ++ l2) m1 m3.
Proof.
  intros (H1 & H2 & H3 & H4) (G1 & G2 & G3 & G4). unfold changed_in. splits; [congruence..|].
  intros a Ha [Hn1 Hn2]%list.Forall_app. by rewrite G4, H4.
Qed.

Lemma image_ok_len mem mem' img : zlen mem' = zlen mem -> image_ok mem img -> image_ok mem' img.
Proof. unfold image_ok. by intros ->. Qed.

Lemma image_pos img mem a : image_ok mem img -> in_image a img -> 0 <= a.
Proof. unfold image_ok, in_image, highMemBase. lia. Qed.

(** A loaded image stays so while images apart from it change. *)
Lemma loaded_kept imgs m m' img :
  image_ok (b_mem m) img -> changed_in imgs m m' -> Forall (apart img) imgs -> loaded (b_mem m) img -> loaded (b_mem m') img.
Proof.
  intros Hok (Hl & _ & _ & Hag) Hap. apply loaded_agree; [done|done|]. intros a Ha. apply Hag; [by eapply image_pos|].
  eapply list.Forall_impl; [exact Hap|]. intros j Hj. by eapply apart_not_in.
Qed.

Lemma wp_readImages imgs m :
  Forall (image_ok (b_mem m)) imgs -> all_apart imgs ->
  wp (readImages imgs) m (fun _ m' => changed_in imgs m m' /\ Forall (loaded (b_mem m')) imgs) (fun _ _ => True).
Proof.
  revert m. induction imgs as [|img imgs IH]; intros m Hok Hap; cbn [readImages].
  { wsteps. split; [done|constructor]. }
  apply list.Forall_cons in Hok as [Hi Hok]. destruct Hap as [Ha Hap]. wsteps. wcall (wp_readBootImage img m Hi); [|done].
  cbn. intros _ m1 [Hch Hld]. assert (Hlen : zlen (b_mem m1) = zlen (b_mem m)) by apply Hch.
  assert (Hok1 : Forall (image_ok (b_mem m1)) imgs) by (eapply list.Forall_impl; [exact Hok|]; intros ?; by apply image_ok_len).
  wcall (IH m1 Hok1 Hap); [|done]. cbn. intros _ m2 [Hch2 Hld2]. split; [exact (changed_in_trans [img] imgs _ _ _ Hch Hch2)|].
  apply list.Forall_cons. split; [|done]. eapply loaded_kept; [by eapply image_ok_len|done|done|done].
Qed.

(** ** Planning *)

Definition reader_ok (r : reader) : Prop := bytes_ok (rd_data r).

Definition prog_ok (p : elfProg) : Prop := 0 <= Paddr p /\ 0 <= Filesz p /\ 0 <= Memsz p.

Definition kernel_ok (k : kernelFile) : Prop :=
  reader_ok (k_reader k) /\ match k_elf k with Some e => Forall prog_ok (progs e) | None => True end.

(** The slice of guest memory has a Go length. *)
Definition machine_ok (m : bootMachine) : Prop := MinMemSize <= zlen (b_mem m) <= maxInt64.

Record plan_ok (m : bootMachine) (images : list bootImage) (occupied : list bootRange) : Prop := {
  pk_images : Forall (image_ok (b_mem m)) images;
  pk_apart : all_apart images;
  pk_ranges : Forall range_ok occupied;
  pk_covered : forall r, Forall (disjoint r) occupied -> Forall (fun i => disjoint r (image_range i)) images
}.

Lemma ValidRange_end mem a n : ValidRange mem a n = true -> a + n <= zlen mem.
Proof. unfold ValidRange. destruct (_ || _) eqn:E; [done|]. zbool. lia. Qed.

Lemma image_range_ok m img : machine_ok m -> image_ok (b_mem m) img -> range_ok (image_range img).
Proof. unfold machine_ok, image_ok, range_ok, maxInt64, highMemBase. cbn. lia. Qed.

Lemma elfLoop_ok m ps images occupied images' occupied' :
  machine_ok m -> Forall prog_ok ps ->
  Forall (image_ok (b_mem m)) images -> all_apart images -> occupied = map image_range images ->
  elfLoop m ps images occupied = Ok (images', occupied') ->
  Forall (image_ok (b_mem m)) images' /\ all_apart images' /\ occupied' = map image_range images'.
Proof.
  intros Hm Hps. revert images occupied. induction Hps as [|p ps Hp _ IH]; intros images occupied Hok Hap Hocc; cbn [elfLoop].
  { intros [= <- <-]. done. }
  destruct (_ || (Memsz p =? 0)) eqn:E0; [by apply IH|].
  destruct ((Memsz p <? Filesz p) || _ || _) eqn:E1; [done|]. destruct (_ && _); [done|].
  destruct (existsb _ _) eqn:E2; [done|].
  apply orb_false_iff in E1 as [E1 Hv%negb_false_iff%ValidRange_end]. zbool. unfold prog_ok in Hp.
  set (img := mkImage (p_reader p) 0 (Paddr p) (Filesz p) (Memsz p)).
  assert (Hi : image_ok (b_mem m) img) by (unfold image_ok; cbn; lia).
  assert (Hnew : Forall (fun i => apart i img) images).
  { subst occupied. apply list.Forall_forall. intros i Hin. apply apart_sym. unfold apart.
    apply overlaps_false; [by eapply image_range_ok|eapply image_range_ok; [done|]; by eapply list.Forall_forall in Hok|].
    apply not_true_is_false. intros Hov. rewrite <- not_true_iff_false in E2. apply E2, existsb_exists. exists (image_range i).
    split; [|done]. by apply in_map, list_elem_of_In. }
  apply IH.
  - apply list.Forall_app. split; [done|by apply list.Forall_singleton].
  - apply all_apart_app. splits; [done|done|]. eapply list.Forall_impl; [exact Hnew|]. intros i Hap'. by apply list.Forall_singleton.
  - subst occupied. by rewrite map_app.
Qed.

Lemma elfImages_ok m k images occupied :
  machine_ok m -> Forall prog_ok (progs k) -> elfImages m k = Ok (images, occupied) -> plan_ok m images occupied.
Proof.
  intros Hm Hps. unfold elfImages. destruct (_ && _); [done|].
  destruct (elfLoop m (progs k) [] []) as [[imgs occ]| | |] eqn:E; try done.
  intros Heq. assert (imgs = images /\ occ = occupied) as [-> ->] by (destruct imgs; [done|by injection Heq as <- <-]).
  destruct (elfLoop_ok m _ [] [] _ _ Hm Hps ltac:(constructor) ltac:(done) eq_refl E) as (Hok & Hap & ->).
  constructor; [done|done| |].
  - apply list.Forall_forall. intros r (i & -> & Hin)%list_elem_of_fmap. eapply image_range_ok; [done|].
    by eapply list.Forall_forall in Hok.
  - intros r Hr. rewrite list.Forall_fmap in Hr. exact Hr.
Qed.

(** ** Kernels with a boot header *)

Lemma parseVals_fit ws b vs : bytes_ok b -> parseVals ws b = Some vs -> vals_fit ws vs.
Proof.
  revert b vs. induction ws as [|w ws IH]; intros b vs Hb; cbn [parseVals].
  { intros [= <-]. constructor. }
  destruct (_ <? _) eqn:E; [done|]. zbool. destruct (parseVals ws (drop w b)) as [vs'|] eqn:Ep; [|done]. intros [= <-].
  constructor; [|eapply IH; [|exact Ep]; by apply Forall_drop].
  assert (Ht : bytes_ok (take w b)) by by apply Forall_take. pose proof (le_val_range _ Ht) as Hr.
  replace (zlen (take w b)) with (Z.of_nat w) in Hr; [done|]. unfold zlen in *. rewrite length_take. lia.
Qed.

Lemma hdrOfVals_inv vs h : hdrOfVals vs = Some h -> hdrVals h = vs.
Proof. unfold hdrOfVals. intros H. repeat (destruct vs as [|? vs]; [done|]). destruct vs; [|done]. by injection H as <-. Qed.

Lemma newBootParam_ok file bp :
  bytes_ok file -> newBootParam file = Ok bp -> vals_fit hdrWidths (hdrVals (Hdr bp)) /\ E820Map bp = [] /\ E820Entries bp = 0.
Proof.
  intros Hf. unfold newBootParam. destruct (parseVals _ _) as [vs|] eqn:Hp; [|done].
  destruct (hdrOfVals vs) as [h|] eqn:Hh; [|done]. destruct (isValid _) as [[]| | |]; try done. intros [= <-]. cbn.
  rewrite (hdrOfVals_inv _ _ Hh). splits; [|done|done]. eapply parseVals_fit; [|exact Hp]. by apply bytes_ok_slice.
Qed.

(** The header fields the loader computes with. *)
Lemma hdr_fields h :
  vals_fit hdrWidths (hdrVals h) ->
  0 <= SetupSects h < 256 /\ 0 <= InitSize h < 2 ^ 32 /\ 0 <= PrefAddress h < 2 ^ 64 /\ 0 <= KernelAlignment h < 2 ^ 32 /\
  0 <= InitrdAddrMax h < 2 ^ 32.
Proof.
  intros H. assert (Hn : forall k w v, hdrWidths !! k = Some w -> hdrVals h !! k = Some v -> 0 <= v < 256 ^ Z.of_nat w).
  { intros k w v Hw Hv. by apply (Forall2_lookup_lr _ _ _ _ _ _ H Hw Hv). }
  pose proof (Hn 0%nat _ _ eq_refl eq_refl). pose proof (Hn 36%nat _ _ eq_refl eq_refl). pose proof (Hn 35%nat _ _ eq_refl eq_refl).
  pose proof (Hn 25%nat _ _ eq_refl eq_refl). pose proof (Hn 24%nat _ _ eq_refl eq_refl). cbn in *. tauto.
Qed.

Lemma kernelRuntime_ok m img hdr img' occ :
  vals_fit hdrWidths (hdrVals hdr) -> i_addr img = highMemBase -> kernelRuntime m img hdr = Ok (img', occ) ->
  highMemBase <= i_addr img' /\ img' = img <| i_addr := i_addr img' |> /\
  exists more, occ = mkRange (i_addr img') (i_size img') :: more /\
    Forall (fun r => highMemBase <= r_addr r /\ 0 <= r_size r /\ r_addr r + r_size r <= fst (ramSizes m)) more.
Proof.
  intros Hh Ha. destruct (hdr_fields _ Hh) as (_ & Hi & Hp & Hal & _). unfold kernelRuntime.
  destruct (ramSizes m) as [low high]. cbn [fst].
  destruct (_ || _).
  { intros [= <- <-]. splits; [lia|by destruct img|]. exists []. split; [done|constructor]. }
  assert (Hfit : forall image rs, i_addr image = highMemBase \/ i_addr image = rs -> image = img <| i_addr := i_addr image |> ->
    (if (rs <? highMemBase) || (low <? rs) || (low - rs <? InitSize hdr)
     then Err (errBootImage "kernel runtime does not fit in guest RAM")
     else Ok (image, [mkRange (i_addr image) (i_size image); mkRange rs (InitSize hdr)])) = Ok (img', occ) ->
    highMemBase <= i_addr img' /\ img' = img <| i_addr := i_addr img' |> /\
    exists more, occ = mkRange (i_addr img') (i_size img') :: more /\
      Forall (fun r => highMemBase <= r_addr r /\ 0 <= r_size r /\ r_addr r + r_size r <= low) more).
  { intros image rs Hrs Hup. destruct (_ || _) eqn:E; [done|]. zbool. intros [= <- <-]. splits; [lia|done|].
    exists [mkRange rs (InitSize hdr)]. split; [done|]. apply list.Forall_singleton. cbn. lia. }
  destruct (negb (RelocatableKernel hdr =? 0)).
  - destruct (_ || negb _); [done|]. destruct (_ || _); [done|]. apply Hfit; [by right|done].
  - apply Hfit; [by left|]. by destruct img.
Qed.

Lemma bzImage_ok m k hdr img occ hdr' :
  machine_ok m -> vals_fit hdrWidths (hdrVals hdr) -> bzImage m k hdr = Ok (img, occ, hdr') ->
  plan_ok m [img] occ /\ in_image (i_addr img) img /\ InitrdAddrMax hdr' = InitrdAddrMax hdr.
Proof.
  intros Hm Hh. unfold bzImage. destruct (ramSizes m) as [low high] eqn:Hram.
  assert (Hlow : low <= zlen (b_mem m)) by (unfold ramSizes, ramSizesOf in Hram; injection Hram as <- _; lia).
  unfold readerSize. destruct (rd_size k) as [size|]; [|done]. destruct (_ || _) eqn:E0; [done|].
  destruct (hdr_fields _ Hh) as (Hss & _). set (setup := (_ + 1) * 512).
  assert (Hset : 512 <= setup) by (unfold setup; destruct (SetupSects hdr =? 0); lia).
  destruct (size <=? setup) eqn:E1; [done|]. destruct (_ <? SysSize hdr * 16); [done|].
  destruct (kernelRuntime _ _ _) as [[img0 occ0]| | |] eqn:Hk; try done.
  assert (Hbase : i_addr (mkImage k setup highMemBase (size - setup) (size - setup)) = highMemBase) by reflexivity.
  destruct (kernelRuntime_ok _ _ _ _ _ Hh Hbase Hk) as (Ha & Himg & more & -> & Hmore). rewrite Hram in Hmore. cbn [fst] in Hmore.
  destruct (_ || negb _) eqn:E2; [done|]. destruct (_ && _); [done|]. intros [= <- <- <-].
  apply orb_false_iff in E2 as [_ Hv%negb_false_iff%ValidRange_end]. zbool. rewrite Himg. cbn. splits; [|unfold in_image; cbn; lia|done].
  rewrite Himg in Hv. cbn in Hv. unfold machine_ok, maxInt64, highMemBase in *.
  constructor; cbn.
  - apply list.Forall_singleton. unfold image_ok, highMemBase. cbn. lia.
  - by split.
  - rewrite Himg. cbn. apply list.Forall_cons. split; [unfold range_ok; cbn; lia|].
    eapply list.Forall_impl; [exact Hmore|]. intros r Hr. unfold range_ok. cbn in Hr. lia.
  - intros r [Hr _]%list.Forall_cons. apply list.Forall_singleton. rewrite Himg in Hr. exact Hr.
Qed.

Lemma planLinuxBoot_ok m kernel plan :
  machine_ok m -> kernel_ok kernel -> planLinuxBoot m kernel = Ok plan ->
  plan_ok m (pl_images plan) (pl_occupied plan) /\ Exists (in_image (pl_entry plan)) (pl_images plan) /\
  E820Map (pl_params plan) = [] /\ E820Entries (pl_params plan) = 0.
Proof.
  intros Hm [Hr Hk]. unfold planLinuxBoot. destruct (k_elf kernel) as [e|].
  - destruct (elfImages m e) as [[images occ]| | |] eqn:He; try done.
    destruct (_ || _) eqn:E; [done|]. intros [= <-]. cbn. splits; [by eapply elfImages_ok| |done|done].
    apply orb_false_iff in E as [_ Hin%negb_false_iff]. unfold entryInImages in Hin. apply existsb_exists in Hin as (i & Hi & Hb).
    apply list.Exists_exists. exists i. split; [by apply list_elem_of_In|]. unfold in_image. zbool. lia.
  - destruct (newBootParam _) as [bp| | |] eqn:Hb; try done. destruct (newBootParam_ok _ _ Hr Hb) as (Hfit & Hm0 & Hn0).
    destruct (bzImage _ _ _) as [[[img ranges] hdr]| | |] eqn:Hz; try done. intros [= <-]. cbn.
    destruct (bzImage_ok _ _ _ _ _ _ Hm Hfit Hz) as (Hp & Hin & _). splits; [done|by left|done|done].
Qed.

(** ** Tables below 1 MiB *)

Definition changed_range (lo hi : Z) (m m' : bootMachine) : Prop :=
  zlen (b_mem m') = zlen (b_mem m) /\ (forall i, 0 <= i -> i < lo \/ hi <= i -> zget (b_mem m') i = zget (b_mem m) i).

Lemma slice_kept lo hi m m' o b :
  changed_range lo hi m m' -> 0 <= o -> o + zlen b <= zlen (b_mem m) -> o + zlen b <= lo \/ hi <= o ->
  zslice (b_mem m) o (zlen b) = b -> zslice (b_mem m') o (zlen b) = b.
Proof.
  intros [Hl Hg] Ho Hn Hd <-. pose proof (zlen_nonneg b). rewrite zlen_slice by lia. apply zslice_agree; [lia..|].
  intros i Hi. apply Hg; lia.
Qed.

Lemma loaded_low lo hi m m' imgs :
  changed_range lo hi m m' -> hi <= highMemBase -> Forall (image_ok (b_mem m)) imgs ->
  Forall (loaded (b_mem m)) imgs -> Forall (loaded (b_mem m')) imgs.
Proof.
  intros [Hl Hg] Hh Hok Hld. apply list.Forall_forall. intros i Hi.
  eapply list.Forall_forall in Hok; [|exact Hi]. eapply list.Forall_forall in Hld; [|exact Hi].
  eapply loaded_agree; [exact Hok|done| |done]. intros a Ha. pose proof (image_pos _ _ _ Hok Ha).
  apply Hg; [done|]. unfold image_ok, in_image in *. lia.
Qed.

Lemma images_ok_len m m' imgs : zlen (b_mem m') = zlen (b_mem m) -> Forall (image_ok (b_mem m)) imgs -> Forall (image_ok (b_mem m')) imgs.
Proof. intros Hl H. eapply list.Forall_impl; [exact H|]. intros i. by apply image_ok_len. Qed.

Lemma wp_copyAt a b m :
  0 <= a -> a + zlen b <= zlen (b_mem m) ->
  wp (copyAt a b) m (fun _ m' => changed_range a (a + zlen b) m m' /\ zslice (b_mem m') a (zlen b) = b) (fun _ _ => False).
Proof.
  intros Ha Hb. unfold copyAt. wsteps. pose proof (zlen_nonneg b). cbn.
  rewrite take_ge by (unfold zlen in *; lia). unfold changed_range. cbn. splits.
  - rewrite zlen_write by lia. zcases; lia.
  - intros i Hi Ho. rewrite zget_write by lia. zcases; try done; lia.
  - by apply zslice_write.
Qed.

Lemma wp_storeAt a v m :
  0 <= a < zlen (b_mem m) ->
  wp (storeAt a v) m (fun _ m' => changed_range a (a + 1) m m' /\ zget (b_mem m') a = v) (fun _ _ => False).
Proof.
  intros Ha. unfold storeAt. wsteps. eapply wp_gindex; [by apply zlookup_zget|]. wsteps. unfold changed_range. cbn. splits.
  - apply zlen_insert.
  - intros i Hi Ho. rewrite zget_insert by lia. zcases; [lia|done].
  - rewrite zget_insert by lia. by rewrite Z.eqb_refl.
Qed.

Lemma addEntriesE820_ok es b :
  E820Entries b = zlen (E820Map b) -> zlen (E820Map b) + zlen es <= E820Max ->
  exists b', addEntriesE820 es b = Ok b' /\ E820Map b' = E820Map b ++ es /\ Hdr b' = Hdr b /\ E820Entries b' = zlen (E820Map b').
Proof.
  revert b. induction es as [|[a s t] es IH]; intros b Hc Hn; cbn [addEntriesE820].
  { exists b. by rewrite app_nil_r. }
  rewrite zlen_cons in Hn. pose proof (zlen_nonneg es). pose proof (zlen_nonneg (E820Map b)). unfold AddE820Entry, E820Max in *.
  destruct (_ <=? _) eqn:E; zbool; [lia|].
  edestruct (IH (b <| E820Map := E820Map b ++ [mkE820 a s t] |> <| E820Entries := u8 (E820Entries b + 1) |>)) as (b' & Hb' & Hm & Hh & Hc');
    cbn; rewrite ?zlen_app; change (zlen [mkE820 a s t]) with 1; [rewrite u8_small; lia|lia|].
  exists b'. splits; [done| |done|done]. rewrite Hm. cbn. by rewrite <- app_assoc.
Qed.

Lemma zlen_memoryMap m : zlen (memoryMap m) <= 7.
Proof. unfold memoryMap, memoryMapOf. destruct (ramSizesOf _). destruct (vesaEnabled m), (negb _); cbv; done. Qed.

Lemma length_packVals ws vs : length ws = length vs -> zlen (packVals ws vs) = foldr (fun w n => Z.of_nat w + n) 0 ws.
Proof.
  revert vs. induction ws as [|w ws IH]; intros [|v vs]; try done. intros [= H]. cbn [packVals foldr].
  by rewrite zlen_app, zlen_le_bytes, IH.
Qed.

Lemma zlen_bootParamBytes b : zlen (E820Map b) <= E820Max -> zlen (bootParamBytes b) = 0xcd0.
Proof.
  intros Hm. unfold bootParamBytes. rewrite !zlen_app, !zlen_zeros.
  assert (zlen (concat (map e820Bytes (E820Map b))) = 20 * zlen (E820Map b)) as ->.
  { clear Hm. induction (E820Map b) as [|e es IH]; [done|]. cbn [map concat]. rewrite zlen_app, zlen_cons, IH.
    unfold e820Bytes. rewrite length_packVals by done. cbn. lia. }
  rewrite length_packVals by done. change (foldr _ 0 hdrWidths) with 123. change (zlen [E820Entries b; 0; 0; 0]) with 4.
  unfold E820Max, EddMbrSigMax, sizeofSetupHeader in *. lia.
Qed.

Lemma zlen_ebdaBytes n e : newEBDA n = Ok e -> zlen (ebdaBytes e) <= 1388.
Proof.
  unfold newEBDA, newMPCTable. destruct (_ || _) eqn:E; [done|]. zbool. unfold MaxVCPUs in *. intros [= <-].
  unfold ebdaBytes, zlen. rewrite length_take. cbn [e_mpcTable mpc_length set_field].
  unfold mpcTableHeaderSize, mpcCPUEntrySize, mpcTableOffset. rewrite u16_small by lia. lia.
Qed.

(** ** The booted machine *)

(** The memory of a machine that is ready to run Linux. *)
Record booted (m : bootMachine) (initrd : option reader) (params : list Z) (plan : linuxBootPlan) (rd : bootImage)
    (bp : BootParam) (e : EBDA) (m' : bootMachine) : Prop := {
  bt_images : Forall (loaded (b_mem m')) (pl_images plan);
  bt_entry : Exists (in_image (pl_entry plan)) (pl_images plan);
  bt_initrd : forall r, initrd = Some r -> loaded (b_mem m') rd /\ i_reader rd = r /\ Forall (apart rd) (pl_images plan) /\
    RamdiskImage (Hdr bp) = i_addr rd /\ RamdiskSize (Hdr bp) = i_size rd;
  bt_params : zslice (b_mem m') bootParamAddr (zlen (bootParamBytes bp)) = bootParamBytes bp;
  bt_map : E820Map bp = memoryMap m /\ E820Entries bp = zlen (memoryMap m);
  bt_cmdline : zslice (b_mem m') cmdlineAddr (zlen params) = params /\ zget (b_mem m') (cmdlineAddr + zlen params) = 0;
  bt_ebda : zslice (b_mem m') EBDAStart (zlen (ebdaBytes e)) = ebdaBytes e
}.

(** The tables written over loaded images. *)
Lemma wp_tables m imgs page params e :
  Forall (image_ok (b_mem m)) imgs -> Forall (loaded (b_mem m)) imgs -> machine_ok m ->
  zlen page = 0xcd0 -> zlen params <= maxBootCommandLine -> zlen (ebdaBytes e) <= 1388 ->
  wp (do! copyAt bootParamAddr page in do! copyAt cmdlineAddr params in do! storeAt (cmdlineAddr + zlen params) 0 in
      copyAt EBDAStart (ebdaBytes e)) m
    (fun _ m' => Forall (loaded (b_mem m')) imgs /\ zslice (b_mem m') bootParamAddr (zlen page) = page /\
       zslice (b_mem m') cmdlineAddr (zlen params) = params /\ zget (b_mem m') (cmdlineAddr + zlen params) = 0 /\
       zslice (b_mem m') EBDAStart (zlen (ebdaBytes e)) = ebdaBytes e)
    (fun _ _ => False).
Proof.
  intros Hok Hld [Hmin _] Hp Hc He. pose proof vesa_consts as (_ & _ & Hmm). rewrite Hmm in Hmin.
  unfold maxBootCommandLine, pageTableBase, bootParamAddr, cmdlineAddr, EBDAStart in *. set (eb := ebdaBytes e) in *.
  pose proof (zlen_nonneg params). pose proof (zlen_nonneg eb). assert (Hhm : highMemBase = 0x100000) by reflexivity.
  wsteps. wcall (wp_copyAt 0x10000 page m); [lia|lia| |done]. cbv beta. intros _ m1 [C1 S1]. assert (L1 := proj1 C1).
  wsteps. wcall (wp_copyAt 0x20000 params m1); [lia|lia| |done]. cbv beta. intros _ m2 [C2 S2]. assert (L2 := proj1 C2).
  wsteps. wcall (wp_storeAt (0x20000 + zlen params) 0 m2); [lia| |done]. cbv beta. intros _ m3 [C3 S3]. assert (L3 := proj1 C3).
  wcall (wp_copyAt 0x9fc00 eb m3); [lia|lia| |done]. cbv beta. intros _ m4 [C4 S4].
  assert (K1 := images_ok_len _ _ _ L1 Hok). assert (K2 := images_ok_len _ _ _ L2 K1). assert (K3 := images_ok_len _ _ _ L3 K2).
  splits; [| | | |done].
  - eapply loaded_low; [exact C4|lia|exact K3|]. eapply loaded_low; [exact C3|lia|exact K2|].
    eapply loaded_low; [exact C2|lia|exact K1|]. eapply loaded_low; [exact C1|lia|exact Hok|exact Hld].
  - eapply slice_kept; [exact C4|lia..|]. eapply slice_kept; [exact C3|lia..|]. eapply slice_kept; [exact C2|lia..|exact S1].
  - eapply slice_kept; [exact C4|lia..|]. eapply slice_kept; [exact C3|lia..|exact S2].
  - rewrite <- S3. apply (proj2 C4); lia.
Qed.

(** The ramdisk is apart from the kernel and in low RAM. *)
Lemma initrd_apart m r maxAddr images occupied rd :
  machine_ok m -> plan_ok m images occupied -> initrdImage m (Some r) maxAddr occupied = Ok rd ->
  image_ok (b_mem m) rd /\ Forall (apart rd) images /\ i_reader rd = r /\ 0 <= i_addr rd < 2 ^ 32 /\ 0 <= i_size rd < 2 ^ 32.
Proof.
  intros Hm [Hok Hap Hr Hcov] Hrd. pose proof (initrdLimit_bound m maxAddr) as (Hb1 & Hb2 & Hb3). unfold HighRAMStart in Hb1.
  assert (Hsz : exists size, rd_size r = inl size /\ 0 < size <= initrdLimit m maxAddr).
  { revert Hrd. unfold initrdImage. destruct (ramSizes m) as [low high] eqn:Hram.
    replace (Z.min low (Z.min maxAddr (HighRAMStart - 1) + 1)) with (initrdLimit m maxAddr) by (unfold initrdLimit; by rewrite Hram).
    unfold readerSize. destruct (rd_size r) as [size|e]; [|done]. destruct (_ || _) eqn:E; [done|]. zbool.
    destruct (size =? 0) eqn:?; [done|]. zbool. intros _. exists size. split; [done|lia]. }
  destruct Hsz as (size & Hsize & Hrange). pose proof (initrdImage_spec m r maxAddr occupied size Hsize Hrange Hr) as Hspec.
  rewrite Hrd in Hspec. destruct Hspec as (Himg & (Hal & Hh & Hle & Hd) & _).
  assert (Hdocc : Forall (disjoint (mkRange (i_addr rd) size)) occupied).
  { unfold avoided in Hd. destruct (vesaEnabled m); [by apply list.Forall_app in Hd as [Hd _]|done]. }
  specialize (Hcov _ Hdocc). assert (E1 : i_size rd = size) by (rewrite Himg; done). assert (E2 : i_memory rd = size) by (rewrite Himg; done).
  assert (E3 : i_offset rd = 0) by (rewrite Himg; done). unfold highMemBase in Hh. splits.
  - unfold image_ok, highMemBase. rewrite E1, E2, E3. lia.
  - eapply list.Forall_impl; [exact Hcov|]. intros i Hi. unfold apart, image_range at 1. by rewrite E2.
  - by rewrite Himg.
  - lia.
  - lia.
  - lia.
  - lia.
Qed.

Lemma wp_lift {S A} (r : result A) (s : S) (Q : A -> S -> Prop) E :
  match r with Ok a => Q a s | Err e => E e s | _ => False end -> wp (lift r) s Q E.
Proof. unfold wp, lift. by destruct r. Qed.

(** The four writes, when the tables can be made. *)
Lemma wp_writes m imgs page params n {B} (k : EBDA -> B) Q :
  Forall (image_ok (b_mem m)) imgs -> Forall (loaded (b_mem m)) imgs -> machine_ok m ->
  zlen page = 0xcd0 -> zlen params <= maxBootCommandLine ->
  (forall e m', newEBDA n = Ok e -> Forall (loaded (b_mem m')) imgs ->
     zslice (b_mem m') bootParamAddr (zlen page) = page ->
     zslice (b_mem m') cmdlineAddr (zlen params) = params -> zget (b_mem m') (cmdlineAddr + zlen params) = 0 ->
     zslice (b_mem m') EBDAStart (zlen (ebdaBytes e)) = ebdaBytes e -> Q (k e) m') ->
  wp (do! copyAt bootParamAddr page in do! copyAt cmdlineAddr params in do! storeAt (cmdlineAddr + zlen params) 0 in
      let! e := lift (newEBDA n) in do! copyAt EBDAStart (ebdaBytes e) in ret (k e)) m Q (fun _ _ => True).
Proof.
  intros Hok Hld Hm Hp Hc HQ. destruct (newEBDA n) as [e|e| |] eqn:He.
  - pose proof (wp_tables m imgs page params e Hok Hld Hm Hp Hc (zlen_ebdaBytes _ _ He)) as Hw. revert Hw.
    unfold wp, gbind, lift, ret. destruct (copyAt bootParamAddr page m) as [[] m1]; [|done..].
    destruct (copyAt cmdlineAddr params m1) as [[] m2]; [|done..]. destruct (storeAt _ _ m2) as [[] m3]; [|done..].
    destruct (copyAt EBDAStart _ m3) as [[] m4]; [|done..]. intros (? & ? & ? & ? & ?). by apply HQ.
  - destruct Hm as [Hmin _]. pose proof vesa_consts as (_ & _ & Hmm). pose proof (zlen_nonneg params).
    unfold maxBootCommandLine, pageTableBase, bootParamAddr, cmdlineAddr in *.
    wsteps. wcall (wp_copyAt 0x10000 page m); [lia|lia| |done]. cbv beta. intros _ m1 [[L1 _] _].
    wsteps. wcall (wp_copyAt 0x20000 params m1); [lia|lia| |done]. cbv beta. intros _ m2 [[L2 _] _].
    wsteps. wcall (wp_storeAt (0x20000 + zlen params) 0 m2); [lia| |done]. cbv beta. intros _ m3 _. wsteps. by apply wp_lift.
  - exfalso. revert He. unfold newEBDA, newMPCTable. by destruct (_ || _).
  - exfalso. revert He. unfold newEBDA, newMPCTable. by destruct (_ || _).
Qed.

Lemma kernelRuntime_returns m img hdr : match kernelRuntime m img hdr with Ok _ | Err _ => True | _ => False end.
Proof.
  unfold kernelRuntime. destruct (ramSizes m). destruct (_ || _); [done|]. destruct (negb (RelocatableKernel hdr =? 0)).
  - destruct (_ || negb _); [done|]. destruct (_ || _); [done|]. by destruct (_ || _).
  - by destruct (_ || _).
Qed.

Lemma bzImage_returns m k hdr : match bzImage m k hdr with Ok _ | Err _ => True | _ => False end.
Proof.
  unfold bzImage, readerSize. destruct (ramSizes m). destruct (rd_size k) as [size|]; [|done]. destruct (_ || _); [done|].
  destruct (size <=? _); [done|]. destruct (_ <? SysSize hdr * 16); [done|].
  match goal with |- context [kernelRuntime ?a ?b ?c] => pose proof (kernelRuntime_returns a b c); destruct (kernelRuntime a b c) as [[]| | |] end;
    try done.
  destruct (_ || _); [done|]. by destruct (_ && _).
Qed.

Lemma lift_no_panic_plan m k : match planLinuxBoot m k with Ok _ | Err _ => True | _ => False end.
Proof.
  unfold planLinuxBoot. destruct (k_elf k) as [e|].
  - unfold elfImages. destruct (_ && _); [done|].
    assert (He : forall ps imgs occ, match elfLoop m ps imgs occ with Ok _ | Err _ => True | _ => False end).
    { induction ps as [|p ps IH]; intros imgs occ; cbn [elfLoop]; [done|].
      destruct (_ || (Memsz p =? 0)); [apply IH|]. destruct (_ || _); [done|]. destruct (_ && _); [done|].
      destruct (existsb _ _); [done|apply IH]. }
    specialize (He (progs e) [] []). destruct (elfLoop _ _ _ _) as [[[] occ]| | |]; try done. by destruct (_ || _).
  - unfold newBootParam. destruct (parseVals _ _); [|done]. destruct (hdrOfVals _) as [s|]; [|done]. unfold isValid. cbn [Hdr].
    destruct (negb _); [done|]. destruct (_ <? _); [done|]. set (bp := mkBootParam _ _ _). change (Hdr bp) with s.
    pose proof (bzImage_returns m (k_reader k) s) as Hz. by destruct (bzImage _ _ _) as [[[]]| | |].
Qed.

Lemma lift_no_panic_cmdline params limit :
  match validateCommandLine params limit with Ok _ => zlen params <= maxBootCommandLine | Err _ => True | _ => False end.
Proof. unfold validateCommandLine. destruct (existsb _ _); [done|]. destruct (_ <? _) eqn:E; [done|]. zbool. lia. Qed.

Lemma initrdImage_returns m initrd maxAddr occupied :
  Forall range_ok occupied -> match initrdImage m initrd maxAddr occupied with Ok _ | Err _ => True | _ => False end.
Proof.
  intros Hr. destruct initrd as [r|]; [|done].
  destruct (rd_size r) as [size|e] eqn:Hs; [|unfold initrdImage, readerSize; by rewrite Hs; destruct (ramSizes m)].
  destruct (decide (0 < size <= initrdLimit m maxAddr)) as [Hin|Hout].
  { pose proof (initrdImage_spec m r maxAddr occupied size Hs Hin Hr) as H. by destruct (initrdImage _ _ _ _). }
  unfold initrdImage. destruct (ramSizes m) as [low high] eqn:Hram.
  replace (Z.min low (Z.min maxAddr (HighRAMStart - 1) + 1)) with (initrdLimit m maxAddr) by (unfold initrdLimit; by rewrite Hram).
  unfold readerSize. rewrite Hs. destruct (_ || _) eqn:E; [done|]. zbool. destruct (size =? 0) eqn:?; [done|]. zbool. lia.
Qed.

(** C13: preparing to boot Linux never panics, whatever the kernel file, the
    ramdisk and the command line; and when it succeeds, the guest memory holds
    every segment of the kernel, zero-filled to its size in memory, with the
    entry point inside one of them, the ramdisk apart from the kernel and
    announced in the header, the zero page with the memory map of the machine,
    the command line with its terminator, and the MP table: nothing that was
    written overwrote anything else. *)
Theorem linux_boot_memory kernel initrd params m :
  machine_ok m -> kernel_ok kernel ->
  wp (prepareLinuxBoot (Some kernel) initrd params) m
    (fun r m' => exists plan rd bp e, planLinuxBoot m kernel = Ok plan /\ newEBDA (nCPUs m) = Ok e /\
       r = (pl_entry plan, pl_amd64 plan) /\ booted m initrd params plan rd bp e m')
    (fun _ _ => True).
Proof.
  intros Hm Hk. unfold prepareLinuxBoot. wsteps; [done|].
  pose proof (lift_no_panic_plan m kernel) as Hplan. destruct (planLinuxBoot m kernel) as [plan| | |] eqn:Ep; [|by apply wp_lift|done..].
  apply wp_lift. destruct (planLinuxBoot_ok m kernel plan Hm Hk Ep) as (Hpk & Hent & Hmap0 & Hn0).
  wsteps. apply wp_lift. pose proof (lift_no_panic_cmdline params (commandLineLimit plan)) as Hcl.
  destruct (validateCommandLine _ _) as [[]| | |]; [|done..].
  wsteps. apply wp_lift. pose proof (initrdImage_returns m initrd (maxInitrdAddr plan) (pl_occupied plan) (pk_ranges _ _ _ Hpk)) as Hret.
  destruct (initrdImage _ _ _ _) as [rd| | |] eqn:Erd; [|done..]. clear Hret.
  wsteps. wcall (wp_readImages (pl_images plan) m (pk_images _ _ _ Hpk) (pk_apart _ _ _ Hpk)); [|done]. cbv beta. intros _ m1 [Hch Hld].
  assert (L1 := proj1 Hch). assert (Hok1 := images_ok_len _ _ _ L1 (pk_images _ _ _ Hpk)).
  set (all := match initrd with Some _ => rd :: pl_images plan | None => pl_images plan end).
  wsteps. eapply wp_mono with (E := fun _ _ => True)
    (Q := fun _ m2 => zlen (b_mem m2) = zlen (b_mem m) /\ Forall (image_ok (b_mem m2)) all /\ Forall (loaded (b_mem m2)) all); [|cbv beta|done].
  { unfold all. destruct initrd as [r|]; [|by wsteps].
    destruct (initrd_apart m r _ _ _ rd Hm Hpk Erd) as (Hrok & Hrap & _).
    wcall (wp_readBootImage rd m1 (image_ok_len _ _ _ L1 Hrok)); [|done]. cbv beta. intros _ m2 [Hch2 Hld2].
    assert (L2 := proj1 Hch2). splits; [congruence| |].
    - apply list.Forall_cons. split; [eapply image_ok_len; [|exact Hrok]; congruence|by eapply images_ok_len].
    - apply list.Forall_cons. split; [done|]. apply list.Forall_forall. intros i Hi.
      eapply loaded_kept; [by eapply list.Forall_forall in Hok1|exact Hch2| |by eapply list.Forall_forall in Hld].
      apply list.Forall_singleton, apart_sym. by eapply list.Forall_forall in Hrap. }
  intros _ m2 (L2 & Hok2 & Hld2). wsteps.
  pose proof (zlen_memoryMap m) as Hmm. destruct (addEntriesE820_ok (memoryMap m) (pl_params plan)) as (bp & Hbp & Hbm & Hbh & Hbc);
    [by rewrite Hn0, Hmap0|rewrite Hmap0, zlen_nil; unfold E820Max; lia|].
  apply wp_lift. rewrite Hbp. rewrite Hmap0 in Hbm. cbn [app] in Hbm.
  set (bp' := bp <| Hdr := fillHeader rd (Hdr bp) |>).
  apply (wp_writes m2 all (bootParamBytes bp') params (nCPUs m) (fun _ => (pl_entry plan, pl_amd64 plan)));
    [done|done|unfold machine_ok in *; by rewrite L2|apply zlen_bootParamBytes; cbn; rewrite Hbm; unfold E820Max; lia|done|].
  intros e m' He Hl Hpage Hcmd Hnul Hebda. exists plan, rd, bp', e. splits; [done..|].
  constructor; [by unfold all in Hl; destruct initrd; [apply list.Forall_cons in Hl as [_ Hl]|]|done| |done| |done|done].
  - intros r ->. destruct (initrd_apart m r _ _ _ rd Hm Hpk Erd) as (_ & Hrap & Hrr & Hra & Hrs).
    apply list.Forall_cons in Hl as [Hl _]. splits; [done..| |]; cbn; apply u32_small; lia.
  - cbn. by rewrite Hbc, Hbm.
Qed.

(** ** A machine with 32 MiB and a kernel of one segment *)

Definition sampleMachine : bootMachine := mkBootMachine (zeros MinMemSize) true 2.

Definition sampleSegment : elfProg := mkProg PT_LOAD 0x200000 3 8 (mkReader [0x90; 0x90; 0xf4] (inl 3)).

Definition sampleKernel : kernelFile := mkKernel (Some (mkElf EM_X86_64 true 0x200000 [sampleSegment])) noReader.

Lemma sampleMachine_len : zlen (b_mem sampleMachine) = 33554432.
Proof. unfold sampleMachine. cbn [b_mem]. rewrite zlen_zeros. reflexivity. Qed.

Lemma sampleMachine_ok : machine_ok sampleMachine.
Proof. pose proof vesa_consts as (_ & _ & Hm). unfold machine_ok, maxInt64. rewrite sampleMachine_len, Hm. lia. Qed.

Lemma sampleKernel_ok : kernel_ok sampleKernel.
Proof. split; [constructor|]. apply list.Forall_singleton. unfold prog_ok. cbn. lia. Qed.

Lemma samplePlan : exists plan, planLinuxBoot sampleMachine sampleKernel = Ok plan /\ pl_occupied plan = [mkRange 0x200000 8].
Proof.
  unfold planLinuxBoot, elfImages. cbn [k_elf sampleKernel e_machine progs]. cbn [elfLoop]. unfold ValidRange. rewrite sampleMachine_len.
  eexists. split; reflexivity.
Qed.

Lemma linux_boot_memory_witness :
  wp (prepareLinuxBoot (Some sampleKernel) None [0x71]) sampleMachine
    (fun r m' => exists plan rd bp e, planLinuxBoot sampleMachine sampleKernel = Ok plan /\ newEBDA (nCPUs sampleMachine) = Ok e /\
       r = (pl_entry plan, pl_amd64 plan) /\ booted sampleMachine None [0x71] plan rd bp e m')
    (fun _ _ => True).
Proof. exact (linux_boot_memory sampleKernel None [0x71] sampleMachine sampleMachine_ok sampleKernel_ok). Defined.

Definition sampleInitrd : reader := mkReader (zeros 5000) (inl 5000).

Lemma sampleLimit : initrdLimit sampleMachine (2 ^ 32 - 1) = 33554432.
Proof. unfold initrdLimit, ramSizes, ramSizesOf. rewrite sampleMachine_len. reflexivity. Qed.

Lemma initrd_placed_highest_witness :
  match initrdImage sampleMachine (Some sampleInitrd) (2 ^ 32 - 1) [mkRange 0x200000 8] with
  | Ok img => img = mkImage sampleInitrd 0 (i_addr img) 5000 5000 /\
      slot (avoided sampleMachine [mkRange 0x200000 8]) 5000 (initrdLimit sampleMachine (2 ^ 32 - 1)) (i_addr img) /\
      (forall a, slot (avoided sampleMachine [mkRange 0x200000 8]) 5000 (initrdLimit sampleMachine (2 ^ 32 - 1)) a -> a <= i_addr img)
  | Err _ => forall a, ~ slot (avoided sampleMachine [mkRange 0x200000 8]) 5000 (initrdLimit sampleMachine (2 ^ 32 - 1)) a
  | _ => False
  end.
Proof.
  apply (initrd_placed_highest sampleMachine sampleInitrd (2 ^ 32 - 1) [mkRange 0x200000 8] 5000); [reflexivity|rewrite sampleLimit; lia|].
  apply list.Forall_singleton. unfold range_ok. cbn. lia.
Defined.
