(* ===== verification/H264Bits.v ===== *)
(** * The H.264 bit strings

    The two ends of every H.264 bitstream of the codec under [src/pkg/h264]:
    the encoder's bit writer with its exp-Golomb codes
    (internal/common/golomb_common_h.go, internal/encoder/svc_enc_golomb_h.go)
    and the decoder's bit reader (internal/decoder/bit_stream.go and
    internal/decoder/dec_golomb_h.go).  Both work on an [SBitStringAux]: a
    buffer, offsets into it, and a 32-bit cache.  The writer fills the cache
    from the left and stores it as a big-endian word when it is full; the
    reader keeps between 16 and 32 unread bits at the top of the cache.

    The byte offsets and [ILeftBits] are Go [int]s and [int32]s that stay far
    below their bounds and are plain integers here; the cache is a [uint32]
    and every operation on it is written with its wrap-around. *)

From S2P Require Import Prelude Bytes.

(** ** Go shifts of [uint32] values: a count of 32 or more gives 0 *)

Definition shl32 (x n : Z) : Z := if (0 <=? n) && (n <? 32) then u32 (Z.shiftl x n) else 0.
Definition shr32 (x n : Z) : Z := if (0 <=? n) && (n <? 32) then Z.shiftr x n else 0.

(** ** The bit string

    [IIndex], the position of the CAVLC coefficient reader, is not used by the
    operations of this file. *)

Record SBitStringAux := mkBs {
  PBuf : list Z;
  PStartBuf : Z;
  PEndBuf : Z;
  IBits : Z;
  PCurBuf : Z;
  UiCurBits : Z;
  ILeftBits : Z
}.

#[export] Instance eta_SBitStringAux : Settable SBitStringAux := fun s =>
  mkBs (PBuf s) (PStartBuf s) (PEndBuf s) (IBits s) (PCurBuf s) (UiCurBits s) (ILeftBits s).

Abbreviation BS := (M SBitStringAux).

(** ** The writer *)

(** [ptr[off] = b] on the buffer of the bit string. *)
Definition putByte (off b : Z) : BS unit :=
  let! s := gget in
  if (0 <=? off) && (off <? zlen (PBuf s))
  then gupd (fun s => s <| PBuf := zinsert off b (PBuf s) |>)
  else panic.

Definition WRITE_BE_32 (off val : Z) : BS unit :=
  do! putByte (off + 0) (u8 (shr32 val 24)) in
  do! putByte (off + 1) (u8 (shr32 val 16)) in
  do! putByte (off + 2) (u8 (shr32 val 8)) in
  putByte (off + 3) (u8 (shr32 val 0)).

Definition InitBits (kpBuf : list Z) (kiOff kiSize : Z) : BS Z :=
  do! gupd (fun s => s <| PBuf := kpBuf |> <| PStartBuf := kiOff |> <| PCurBuf := kiOff |>
                       <| PEndBuf := kiOff + kiSize |> <| ILeftBits := 32 |>
                       <| UiCurBits := 0 |>) in
  ret kiSize.

Definition BsWriteBits (iLen kuiValue : Z) : BS unit :=
  let! s := gget in
  if iLen <? ILeftBits s then
    gupd (fun s => s <| UiCurBits := Z.lor (shl32 (UiCurBits s) iLen) kuiValue |>
                     <| ILeftBits := ILeftBits s - iLen |>)
  else
    let iLen := iLen - ILeftBits s in
    do! gupd (fun s => s <| UiCurBits := Z.lor (shl32 (UiCurBits s) (ILeftBits s))
                                               (shr32 kuiValue iLen) |>) in
    let! s := gget in
    do! WRITE_BE_32 (PCurBuf s) (UiCurBits s) in
    gupd (fun s => s <| PCurBuf := PCurBuf s + 4 |>
                     <| UiCurBits := Z.land kuiValue (u32 (shl32 1 iLen - 1)) |>
                     <| ILeftBits := 32 - iLen |>).

Definition BsWriteOneBit (kuiValue : Z) : BS unit := BsWriteBits 1 kuiValue.

Definition BsFlush : BS unit :=
  let! s := gget in
  if ILeftBits s <? 32 then
    do! WRITE_BE_32 (PCurBuf s) (shl32 (UiCurBits s) (ILeftBits s)) in
    gupd (fun s => s <| PCurBuf := PCurBuf s + (4 - Z.quot (ILeftBits s) 8) |>
                     <| ILeftBits := 32 |> <| UiCurBits := 0 |>)
  else ret tt.

(** The lengths of the exp-Golomb codes of the values below 256. *)
Definition G_kuiGolombUELength : list Z := [
  1; 3; 3; 5; 5; 5; 5; 7; 7; 7; 7; 7; 7; 7; 7; 9;
  9; 9; 9; 9; 9; 9; 9; 9; 9; 9; 9; 9; 9; 9; 9; 11;
  11; 11; 11; 11; 11; 11; 11; 11; 11; 11; 11; 11; 11; 11; 11; 11;
  11; 11; 11; 11; 11; 11; 11; 11; 11; 11; 11; 11; 11; 11; 11; 13;
  13; 13; 13; 13; 13; 13; 13; 13; 13; 13; 13; 13; 13; 13; 13; 13;
  13; 13; 13; 13; 13; 13; 13; 13; 13; 13; 13; 13; 13; 13; 13; 13;
  13; 13; 13; 13; 13; 13; 13; 13; 13; 13; 13; 13; 13; 13; 13; 13;
  13; 13; 13; 13; 13; 13; 13; 13; 13; 13; 13; 13; 13; 13; 13; 15;
  15; 15; 15; 15; 15; 15; 15; 15; 15; 15; 15; 15; 15; 15; 15; 15;
  15; 15; 15; 15; 15; 15; 15; 15; 15; 15; 15; 15; 15; 15; 15; 15;
  15; 15; 15; 15; 15; 15; 15; 15; 15; 15; 15; 15; 15; 15; 15; 15;
  15; 15; 15; 15; 15; 15; 15; 15; 15; 15; 15; 15; 15; 15; 15; 15;
  15; 15; 15; 15; 15; 15; 15; 15; 15; 15; 15; 15; 15; 15; 15; 15;
  15; 15; 15; 15; 15; 15; 15; 15; 15; 15; 15; 15; 15; 15; 15; 15;
  15; 15; 15; 15; 15; 15; 15; 15; 15; 15; 15; 15; 15; 15; 15; 15;
  15; 15; 15; 15; 15; 15; 15; 15; 15; 15; 15; 15; 15; 15; 15; 17 ].

(** The two halving steps that bring a value above 255 into the table's range:
    the shifted value and the number of bits dropped. *)
Definition ueReduce (iTmpValue : Z) : Z * Z :=
  let '(t, n) := if negb (Z.land iTmpValue 0xffff0000 =? 0) then (Z.shiftr iTmpValue 16, 16)
                 else (iTmpValue, 0) in
  if negb (Z.land t 0xff00 =? 0) then (Z.shiftr t 8, n + 8) else (t, n).

Definition BsWriteUE (kuiValue : Z) : BS unit :=
  let iTmpValue := u32 (kuiValue + 1) in
  if kuiValue <? 256 then
    let! len := gindex G_kuiGolombUELength kuiValue in
    BsWriteBits len (u32 (kuiValue + 1))
  else
    let '(t, n) := ueReduce iTmpValue in
    let! len := gindex G_kuiGolombUELength (u32 (t - 1)) in
    let n := n + Z.shiftr len 1 in
    BsWriteBits (Z.shiftl n 1 + 1) (u32 (kuiValue + 1)).

Definition BsWriteSE (kiValue : Z) : BS unit :=
  if 0 =? kiValue then BsWriteOneBit 1
  else if 0 <? kiValue then BsWriteUE (u32 (i32 (i32 (Z.shiftl kiValue 1) - 1)))
  else BsWriteUE (u32 (i32 (Z.shiftl (i32 (- kiValue)) 1))).

Definition BsRbspTrailingBits : BS unit :=
  do! BsWriteOneBit 1 in
  BsFlush.

(** *** The encoder's additions (svc_enc_golomb_h.go) *)

(** The size of a code, without writing it; [None] is an index out of range. *)
Definition BsSizeUE (kiValue : Z) : option Z :=
  if kiValue <? 256 then zlookup G_kuiGolombUELength kiValue
  else
    let '(t, n) := ueReduce (u32 (kiValue + 1)) in
    len ← zlookup G_kuiGolombUELength (u32 (t - 1));
    Some (Z.shiftl (n + Z.shiftr len 1) 1 + 1).

Definition BsSizeSE (kiValue : Z) : option Z :=
  if 0 =? kiValue then Some 1
  else if 0 <? kiValue then BsSizeUE (u32 (i32 (i32 (Z.shiftl kiValue 1) - 1)))
  else BsSizeUE (u32 (i32 (Z.shiftl (i32 (- kiValue)) 1))).

Definition BsWriteTE (kiX kuiValue : Z) : BS unit :=
  if 1 =? kiX then BsWriteOneBit (if kuiValue =? 0 then 1 else 0)
  else BsWriteUE kuiValue.

Definition BsGetBitsPos (pBs : SBitStringAux) : Z :=
  i32 (Z.shiftl (PCurBuf pBs - PStartBuf pBs) 3 + 32 - ILeftBits pBs).

Definition BsAlign : BS unit :=
  let! s := gget in
  do! (if negb (Z.land (ILeftBits s) 7 =? 0) then
         let k := Z.land (ILeftBits s) 7 in
         gupd (fun s => s <| UiCurBits := Z.lor (shl32 (UiCurBits s) k) (u32 (shl32 1 k - 1)) |>
                          <| ILeftBits := Z.ldiff (ILeftBits s) 7 |>)
       else ret tt) in
  BsFlush.

(** ** The reader *)

(** Error codes of the decoder (error_code_h.go). *)
Definition ERR_INFO_INVALID_ACCESS : Z := 2.
Definition ERR_INFO_READ_OVERFLOW : Z := 11.
Definition ERR_INFO_READ_LEADING_ZERO : Z := 12.

(** The four rounds of [GetValue4BytesSafe] on the sub-slice that starts at
    [off]; [fuel] rounds are left. *)
Fixpoint value4Loop (buf : list Z) (off iAvailableBytes : Z) (fuel : nat) (i uiValue : Z) : BS Z :=
  match fuel with
  | O => ret uiValue
  | S fuel' =>
      let uiValue := shl32 uiValue 8 in
      if i <? iAvailableBytes then
        let! b := gindex buf (off + i) in
        value4Loop buf off iAvailableBytes fuel' (i + 1) (Z.lor uiValue b)
      else value4Loop buf off iAvailableBytes fuel' (i + 1) uiValue
  end.

Definition GetValue4BytesSafe (buf : list Z) (off iAvailableBytes : Z) : BS Z :=
  value4Loop buf off iAvailableBytes 4 0 0.

Definition InitReadBits (iEndOffset : Z) : BS unit :=
  let! s := gget in
  let kiAllowedBytes := (PEndBuf s - PStartBuf s) - iEndOffset in
  let kiReadBytes := PCurBuf s - PStartBuf s in
  let kiRemainBytes := kiAllowedBytes - kiReadBytes in
  check! kiRemainBytes <=? 0 else ECode ERR_INFO_INVALID_ACCESS in
  let kiSeedBytes := if 4 <? kiRemainBytes then 4 else kiRemainBytes in
  if (PCurBuf s <? 0) || (zlen (PBuf s) <? PCurBuf s) then panic
  else
    let! v := GetValue4BytesSafe (PBuf s) (PCurBuf s) kiSeedBytes in
    gupd (fun s => s <| UiCurBits := v |> <| PCurBuf := PCurBuf s + 4 |> <| ILeftBits := -16 |>).

(** The buffer is a Go slice that is not nil. *)
Definition DecInitBits (kpBuf : list Z) (kiBufOff kiSize : Z) : BS unit :=
  let kiSizeBuf := Z.shiftr (kiSize + 7) 3 in
  do! gupd (fun s => s <| PBuf := kpBuf |> <| PStartBuf := kiBufOff |>
                       <| PEndBuf := kiBufOff + kiSizeBuf |> <| IBits := kiSize |>
                       <| PCurBuf := kiBufOff |>) in
  InitReadBits 0.

Definition GET_WORD (iAllowedBytes iReadBytes : Z) : BS unit :=
  check! iAllowedBytes + 1 <? iReadBytes else ECode ERR_INFO_READ_OVERFLOW in
  let! s := gget in
  let! hi := (if iReadBytes <? iAllowedBytes then
                let! b := gindex (PBuf s) (PCurBuf s) in ret (shl32 b 8)
              else ret 0) in
  let! lo := (if iReadBytes + 1 <? iAllowedBytes then gindex (PBuf s) (PCurBuf s + 1)
              else ret 0) in
  let uiWord := Z.lor hi lo in
  gupd (fun s => s <| UiCurBits := Z.lor (UiCurBits s) (shl32 uiWord (ILeftBits s)) |>
                   <| ILeftBits := ILeftBits s - 16 |> <| PCurBuf := PCurBuf s + 2 |>).

Definition NEED_BITS (iAllowedBytes iReadBytes : Z) : BS unit :=
  let! s := gget in
  if 0 <? ILeftBits s then GET_WORD iAllowedBytes iReadBytes else ret tt.

Definition UBITS (iCurBits iNumBits : Z) : Z := shr32 iCurBits (32 - iNumBits).

Definition DUMP_BITS (iNumBits iAllowedBytes iReadBytes : Z) : BS unit :=
  do! gupd (fun s => s <| UiCurBits := shl32 (UiCurBits s) iNumBits |>
                       <| ILeftBits := ILeftBits s + iNumBits |>) in
  NEED_BITS iAllowedBytes iReadBytes.

Definition BsGetBits (iNumBits : Z) : BS Z :=
  let! s := gget in
  let iRc := UBITS (UiCurBits s) iNumBits in
  do! DUMP_BITS iNumBits (PEndBuf s - PStartBuf s) (PCurBuf s - PStartBuf s) in
  ret iRc.

Definition BsGetOneBit : BS Z := BsGetBits 1.

(** The number of leading zeros of a byte. *)
Definition g_kuiLeadingZeroTable : list Z := [
  8; 7; 6; 6; 5; 5; 5; 5; 4; 4; 4; 4; 4; 4; 4; 4;
  3; 3; 3; 3; 3; 3; 3; 3; 3; 3; 3; 3; 3; 3; 3; 3;
  2; 2; 2; 2; 2; 2; 2; 2; 2; 2; 2; 2; 2; 2; 2; 2;
  2; 2; 2; 2; 2; 2; 2; 2; 2; 2; 2; 2; 2; 2; 2; 2;
  1; 1; 1; 1; 1; 1; 1; 1; 1; 1; 1; 1; 1; 1; 1; 1;
  1; 1; 1; 1; 1; 1; 1; 1; 1; 1; 1; 1; 1; 1; 1; 1;
  1; 1; 1; 1; 1; 1; 1; 1; 1; 1; 1; 1; 1; 1; 1; 1;
  1; 1; 1; 1; 1; 1; 1; 1; 1; 1; 1; 1; 1; 1; 1; 1;
  0; 0; 0; 0; 0; 0; 0; 0; 0; 0; 0; 0; 0; 0; 0; 0;
  0; 0; 0; 0; 0; 0; 0; 0; 0; 0; 0; 0; 0; 0; 0; 0;
  0; 0; 0; 0; 0; 0; 0; 0; 0; 0; 0; 0; 0; 0; 0; 0;
  0; 0; 0; 0; 0; 0; 0; 0; 0; 0; 0; 0; 0; 0; 0; 0;
  0; 0; 0; 0; 0; 0; 0; 0; 0; 0; 0; 0; 0; 0; 0; 0;
  0; 0; 0; 0; 0; 0; 0; 0; 0; 0; 0; 0; 0; 0; 0; 0;
  0; 0; 0; 0; 0; 0; 0; 0; 0; 0; 0; 0; 0; 0; 0; 0;
  0; 0; 0; 0; 0; 0; 0; 0; 0; 0; 0; 0; 0; 0; 0; 0 ].

Definition GetLeadingZeroBits (iCurBits : Z) : BS Z :=
  let v8 := UBITS iCurBits 8 in
  if negb (v8 =? 0) then gindex g_kuiLeadingZeroTable v8
  else
    let v16 := UBITS iCurBits 16 in
    if negb (v16 =? 0) then let! t := gindex g_kuiLeadingZeroTable v16 in ret (t + 8)
    else
      let v24 := UBITS iCurBits 24 in
      if negb (v24 =? 0) then let! t := gindex g_kuiLeadingZeroTable v24 in ret (t + 16)
      else if negb (iCurBits =? 0) then
        let! t := gindex g_kuiLeadingZeroTable iCurBits in ret (t + 24)
      else ret (-1).

Definition BsGetUe : BS Z :=
  let! s := gget in
  let! iLeadingZeroBits := GetLeadingZeroBits (UiCurBits s) in
  let iAllowedBytes := PEndBuf s - PStartBuf s in
  check! iLeadingZeroBits =? -1 else ECode ERR_INFO_READ_LEADING_ZERO in
  do! (if 16 <? iLeadingZeroBits then
         do! DUMP_BITS 16 iAllowedBytes (PCurBuf s - PStartBuf s) in
         let! s := gget in
         DUMP_BITS (iLeadingZeroBits + 1 - 16) iAllowedBytes (PCurBuf s - PStartBuf s)
       else DUMP_BITS (iLeadingZeroBits + 1) iAllowedBytes (PCurBuf s - PStartBuf s)) in
  let! s := gget in
  let! iValue := (if negb (iLeadingZeroBits =? 0) then
                    let v := UBITS (UiCurBits s) iLeadingZeroBits in
                    do! DUMP_BITS iLeadingZeroBits iAllowedBytes (PCurBuf s - PStartBuf s) in
                    ret v
                  else ret 0) in
  ret (u32 (u32 (shl32 1 iLeadingZeroBits - 1) + iValue)).

Definition BsGetSe : BS Z :=
  let! uiCodeNum := BsGetUe in
  if negb (Z.land uiCodeNum 1 =? 0) then ret (i32 (Z.shiftr (u32 (uiCodeNum + 1)) 1))
  else ret (i32 (- i32 (Z.shiftr uiCodeNum 1))).

Definition BsGetTe0 (iRange : Z) : BS Z :=
  if iRange =? 1 then ret 0
  else if iRange =? 2 then let! b := BsGetOneBit in ret (Z.lxor b 1)
  else BsGetUe.

(** The trailing zeros of a byte: [for { ... }] with at most nine rounds. *)
Fixpoint trailingBitsLoop (fuel : nat) (uiValue iRetNum : Z) : Z :=
  match fuel with
  | O => 0
  | S fuel' =>
      if negb (Z.land uiValue 1 =? 0) then iRetNum
      else if negb (iRetNum + 1 <? 9) then 0
      else trailingBitsLoop fuel' (Z.shiftr uiValue 1) (iRetNum + 1)
  end.

Definition BsGetTrailingBits (b : Z) : Z := trailingBitsLoop 9 b 0.

Definition CheckMoreRBSPData (pBsAux : SBitStringAux) : bool :=
  1 <? IBits pBsAux - Z.shiftl (PCurBuf pBsAux - PStartBuf pBsAux - 2) 3 - ILeftBits pBsAux.
