(* ===== verification/H264BitsSpec.v ===== *)
(** * What the H.264 bit writer and reader do

    The bits of a stream are a [list bool].  [writes cap s l] says that the
    bit string [s] has written exactly the bits [l] since [InitBits];
    [reads s all p] says that a reader over the bits [all] stands at bit [p].
    The lemmas below give each operation of [H264Bits] its effect on these
    two views, and the theorems at the end connect the two sides: whatever
    sequence of syntax elements the encoder writes, the decoder reads back. *)

From S2P Require Import Prelude Bytes H264Bits.

(** ** Bits of numbers and of bytes *)

(** The [n] low bits of [v], most significant first. *)
Fixpoint bits (n : nat) (v : Z) : list bool :=
  match n with
  | O => []
  | S k => Z.testbit v (Z.of_nat k) :: bits k v
  end.

Definition bytes_bits (l : list Z) : list bool := concat (map (bits 8) l).

Lemma length_bits n v : length (bits n v) = n.
Proof. induction n; cbn; [done|]. by rewrite IHn. Qed.

Lemma bits_ext n v w :
  (forall i, 0 <= i < Z.of_nat n -> Z.testbit v i = Z.testbit w i) -> bits n v = bits n w.
Proof.
  induction n; intros H; cbn [bits]; [done|]. f_equal; [apply H; lia|].
  apply IHn. intros. apply H. lia.
Qed.

Lemma bits_app n m v : bits (n + m) v = bits n (Z.shiftr v (Z.of_nat m)) ++ bits m v.
Proof.
  induction n; cbn [bits Nat.add app]; [done|]. f_equal; [|done].
  rewrite Z.shiftr_spec by lia. f_equal; lia.
Qed.

Lemma bits_mod n v : bits n (v mod 2 ^ Z.of_nat n) = bits n v.
Proof. apply bits_ext. intros. apply Z.mod_pow2_bits_low. lia. Qed.

Lemma bits_inj n v w :
  0 <= v < 2 ^ Z.of_nat n -> 0 <= w < 2 ^ Z.of_nat n -> bits n v = bits n w -> v = w.
Proof.
  intros Hv Hw H. zbits. destruct (Z.lt_ge_cases n0 (Z.of_nat n)) as [Hl|].
  - clear Hv Hw. induction n as [|n IH]; [lia|]. cbn in H. injection H as H1 H2.
    destruct (Z.eq_dec n0 (Z.of_nat n)) as [->|]; [done|]. apply IH; [done|lia].
  - rewrite !(testbit_high _ (Z.of_nat n)) by done. done.
Qed.

Lemma bits_zero n : bits n 0 = replicate n false.
Proof. induction n; cbn [bits replicate]; [done|]. by rewrite Z.bits_0, IHn. Qed.

(** The leading bits of a number below [2^m] are zeros. *)
Lemma bits_high n m v :
  0 <= v < 2 ^ Z.of_nat m -> bits (n + m) v = replicate n false ++ bits m v.
Proof.
  intros Hv. rewrite bits_app. f_equal. rewrite <- bits_zero. apply bits_ext. intros i Hi.
  rewrite Z.shiftr_spec, Z.bits_0 by lia. apply (testbit_high _ (Z.of_nat m)); lia.
Qed.

Lemma bytes_bits_app l1 l2 : bytes_bits (l1 ++ l2) = bytes_bits l1 ++ bytes_bits l2.
Proof. unfold bytes_bits. by rewrite map_app, concat_app. Qed.

Lemma length_bytes_bits l : length (bytes_bits l) = (8 * length l)%nat.
Proof.
  induction l; cbn [bytes_bits map concat length] in *; [done|].
  fold (bytes_bits l). rewrite length_app, length_bits, IHl. lia.
Qed.

Lemma zlen_bytes_bits l : zlen (bytes_bits l) = 8 * zlen l.
Proof. unfold zlen. rewrite length_bytes_bits. lia. Qed.

Lemma zlen_bits n v : zlen (bits n v) = Z.of_nat n.
Proof. unfold zlen. by rewrite length_bits. Qed.

#[export] Hint Rewrite zlen_bytes_bits zlen_bits : golen.

Lemma bits_shiftr_app n m v :
  0 <= m -> bits n (Z.shiftr v m) ++ bits (Z.to_nat m) v = bits (n + Z.to_nat m) v.
Proof. intros. rewrite bits_app, Z2Nat.id by lia. done. Qed.

Lemma bits_mod_Z m v : 0 <= m -> bits (Z.to_nat m) (v mod 2 ^ m) = bits (Z.to_nat m) v.
Proof. intros. rewrite <- (bits_mod _ v), Z2Nat.id by lia. done. Qed.

(** The bits of a word are those of its four big-endian bytes. *)
Definition be4 (v : Z) : list Z :=
  [u8 (shr32 v 24); u8 (shr32 v 16); u8 (shr32 v 8); u8 (shr32 v 0)].

Lemma bits_u8 v : bits 8 (u8 v) = bits 8 v.
Proof. apply (bits_mod 8). Qed.

Lemma bytes_bits_be4 v : bytes_bits (be4 v) = bits 32 v.
Proof.
  unfold be4, bytes_bits, shr32. cbn [map concat andb Z.leb Z.ltb Z.compare Pos.compare Pos.compare_cont].
  rewrite !bits_u8, app_nil_r, Z.shiftr_0_r.
  replace 24 with (8 + 16) by done. replace 16 with (8 + 8) by done.
  change 8 with (Z.of_nat 8) at 2 3 4 5.
  rewrite (bits_app 24 8), (bits_app 16 8), (bits_app 8 8), <- !app_assoc.
  rewrite !Z.shiftr_shiftr by lia. repeat f_equal; lia.
Qed.

Lemma be4_ok v : bytes_ok (be4 v).
Proof. unfold be4. repeat constructor; apply u8_range. Qed.

(** Appending bits to a number that is shifted left. *)
Lemma bits_lor_shift n m c v :
  0 <= m -> 0 <= v < 2 ^ m ->
  bits (n + Z.to_nat m) (Z.lor (Z.shiftl c m) v) = bits n c ++ bits (Z.to_nat m) v.
Proof.
  intros Hm Hv. rewrite bits_app, Z2Nat.id by lia. f_equal; apply bits_ext; intros i Hi.
  - rewrite Z.shiftr_spec, Z.lor_spec, Z.shiftl_spec by lia.
    rewrite (testbit_high v m), orb_false_r by lia. f_equal; lia.
  - rewrite Z.lor_spec, Z.shiftl_spec_low by lia. done.
Qed.

(** ** The writer *)

(** Project the fields of an updated bit string. *)
Ltac bs_simpl := cbn [PBuf PStartBuf PEndBuf IBits PCurBuf UiCurBits ILeftBits set_field].

Record writes (cap : Z) (s : SBitStringAux) (l : list bool) : Prop := {
  w_range : 0 <= PStartBuf s <= PCurBuf s;
  w_cur_range : PCurBuf s <= zlen (PBuf s);
  w_cap : zlen (PBuf s) = PStartBuf s + cap;
  w_left : 1 <= ILeftBits s <= 32;
  w_cache : 0 <= UiCurBits s < 2 ^ (32 - ILeftBits s);
  w_bytes : bytes_ok (PBuf s);
  w_bits : bytes_bits (zslice (PBuf s) (PStartBuf s) (PCurBuf s - PStartBuf s)) ++
           bits (Z.to_nat (32 - ILeftBits s)) (UiCurBits s) = l
}.

Lemma writes_len cap s l :
  writes cap s l -> zlen l = 8 * (PCurBuf s - PStartBuf s) + 32 - ILeftBits s.
Proof.
  intros [? ? ? ? ? ? <-]. autorewrite with golen. rewrite zlen_slice by lia. lia.
Qed.

Lemma writes_init cap buf off size s :
  zlen buf = off + cap -> 0 <= off -> 0 <= cap -> bytes_ok buf ->
  wp (InitBits buf off size) s (fun _ s' => writes cap s' [] /\ PStartBuf s' = off /\ PBuf s' = buf)
     (fun _ _ => False).
Proof.
  intros. unfold InitBits. wsteps. cbn. splits; [|done..]. constructor; cbn; try lia; try done.
  rewrite Z.sub_diag. unfold zslice. by rewrite take_0.
Qed.

Lemma wp_putByte off b s Q E :
  0 <= off < zlen (PBuf s) -> Q tt (s <| PBuf := zinsert off b (PBuf s) |>) ->
  wp (putByte off b) s Q E.
Proof.
  intros Ho HQ. unfold putByte. wsteps.
  rewrite (proj2 (Z.leb_le 0 off)), (proj2 (Z.ltb_lt off _)) by lia. cbn [andb]. by wstep.
Qed.

(** Storing four bytes at [off] overwrites that range of the buffer. *)
Lemma zinsert_4 (l : list Z) off a b c d :
  0 <= off -> off + 4 <= zlen l ->
  zinsert (off + 3) d (zinsert (off + 2) c (zinsert (off + 1) b (zinsert (off + 0) a l)))
  = zwrite l off [a; b; c; d].
Proof.
  intros Ho Hl. apply zlist_eq.
  - rewrite !zlen_insert, zlen_write by lia. change (zlen [a; b; c; d]) with 4. cbn. lia.
  - rewrite !zlen_insert. intros i Hi. rewrite zget_write by lia.
    rewrite !zget_insert by (rewrite ?zlen_insert; lia).
    change (zlen [a; b; c; d]) with 4.
    destruct (i =? off + 3) eqn:?, (i =? off + 2) eqn:?, (i =? off + 1) eqn:?, (i =? off + 0) eqn:?,
      (off <=? i) eqn:?, (i <? off + 4) eqn:?; zbool; try lia; cbn [andb]; try done;
      match goal with
      | H : i = off + ?k |- _ => replace (i - off) with k by lia; done
      end.
Qed.

Lemma wp_WRITE_BE_32 off v s Q E :
  0 <= off -> off + 4 <= zlen (PBuf s) ->
  Q tt (s <| PBuf := zwrite (PBuf s) off (be4 v) |>) ->
  wp (WRITE_BE_32 off v) s Q E.
Proof.
  intros Ho Hl HQ. unfold WRITE_BE_32. wsteps.
  do 3 (apply wp_putByte; [cbn; rewrite ?zlen_insert; lia|]; wsteps).
  apply wp_putByte; [cbn; rewrite ?zlen_insert; lia|].
  cbn. rewrite zinsert_4 by lia. done.
Qed.

Lemma zslice_write_take (l b : list Z) a o k :
  0 <= a <= o -> o + zlen b <= zlen l -> 0 <= k <= zlen b ->
  zslice (zwrite l o b) a (o + k - a) = zslice l a (o - a) ++ take (Z.to_nat k) b.
Proof.
  intros Ha Hl Hk.
  assert (Hw : zlen (zwrite l o b) = zlen l).
  { rewrite zlen_write by lia. destruct (zlen b =? 0); lia. }
  apply zlist_eq.
  - rewrite zlen_app, !zlen_slice, zlen_take by lia. lia.
  - rewrite zlen_slice by lia. intros i Hi.
    rewrite zget_slice, zget_write, zget_app, zlen_slice, zget_take by lia.
    destruct (i <? o - a) eqn:?, (o <=? a + i) eqn:?, (a + i <? o + zlen b) eqn:?,
      (i - (o - a) <? k) eqn:?; zbool; try lia; cbn [andb].
    + rewrite zget_slice by lia. done.
    + f_equal; lia.
Qed.

Lemma take_bytes_bits m b : take (8 * m) (bytes_bits b) = bytes_bits (take m b).
Proof.
  revert m; induction b as [|x b IH]; intros [|m]; [done..|].
  replace (8 * S m)%nat with (length (bits 8 x) + 8 * m)%nat by (rewrite length_bits; lia).
  cbn [take]. change (bytes_bits (x :: b)) with (bits 8 x ++ bytes_bits b).
  change (bytes_bits (x :: take m b)) with (bits 8 x ++ bytes_bits (take m b)).
  by rewrite take_app_add, IH.
Qed.

Lemma shl32_small c n k :
  0 <= c < 2 ^ (32 - k) -> 0 <= n <= k -> k <= 32 -> shl32 c n = Z.shiftl c n.
Proof.
  intros Hc Hn Hk. unfold shl32. destruct (n <? 32) eqn:E; zbool.
  - rewrite (proj2 (Z.leb_le 0 n)) by lia. cbn [andb]. apply u32_small.
    rewrite Z.shiftl_mul_pow2 by lia. split; [lia|].
    apply Z.lt_le_trans with (2 ^ (32 - k) * 2 ^ n); [nia|].
    rewrite <- Z.pow_add_r by lia. apply Z.pow_le_mono_r; lia.
  - replace k with 32 in Hc by lia. assert (c = 0) as -> by lia.
    rewrite Z.shiftl_0_l. by destruct (0 <=? n).
Qed.

Lemma shiftl_lor_range c v n m :
  0 <= c < 2 ^ n -> 0 <= v < 2 ^ m -> 0 <= n -> 0 <= m ->
  0 <= Z.lor (Z.shiftl c m) v < 2 ^ (n + m).
Proof.
  intros Hc Hv Hn Hm. rewrite Z.shiftl_mul_pow2, lor_low by lia.
  rewrite Z.pow_add_r by lia. nia.
Qed.

Lemma u32_mask k : 0 <= k <= 32 -> u32 (shl32 1 k - 1) = 2 ^ k - 1.
Proof.
  intros Hk. unfold shl32. destruct (k <? 32) eqn:?; zbool.
  - rewrite (proj2 (Z.leb_le 0 k)) by lia. cbn [andb]. rewrite Z.shiftl_1_l.
    assert (2 ^ k < 2 ^ 32) by (apply Z.pow_lt_mono_r; lia).
    assert (0 < 2 ^ k) by lia. rewrite (u32_small (2 ^ k)) by lia. apply u32_small; lia.
  - replace k with 32 by lia. done.
Qed.

Section WriteBits.
Context (cap : Z) (s : SBitStringAux) (l : list bool).
Context (W : writes cap s l).

(** Bits that fit in the cache. *)
Lemma writes_cache n v :
  0 <= n < ILeftBits s -> 0 <= v < 2 ^ n ->
  writes cap (s <| UiCurBits := Z.lor (shl32 (UiCurBits s) n) v |> <| ILeftBits := ILeftBits s - n |>)
         (l ++ bits (Z.to_nat n) v).
Proof.
  intros Hn Hv. destruct W as [? ? ? ? Hc ? <-]. rewrite (shl32_small _ _ (ILeftBits s)) by lia.
  constructor; bs_simpl; try lia; try done.
  - replace (32 - (ILeftBits s - n)) with ((32 - ILeftBits s) + n) by lia.
    apply shiftl_lor_range; lia.
  - rewrite <- app_assoc. f_equal.
    replace (Z.to_nat (32 - (ILeftBits s - n))) with (Z.to_nat (32 - ILeftBits s) + Z.to_nat n)%nat by lia.
    apply bits_lor_shift; lia.
Qed.

(** Bits that complete the word: it is stored and the rest goes to the cache. *)
Lemma writes_word n v :
  ILeftBits s <= n <= 32 -> 0 <= v < 2 ^ n -> PCurBuf s + 4 <= zlen (PBuf s) ->
  writes cap
    (s <| PBuf := zwrite (PBuf s) (PCurBuf s)
                    (be4 (Z.lor (shl32 (UiCurBits s) (ILeftBits s)) (shr32 v (n - ILeftBits s)))) |>
       <| PCurBuf := PCurBuf s + 4 |>
       <| UiCurBits := Z.land v (u32 (shl32 1 (n - ILeftBits s) - 1)) |>
       <| ILeftBits := 32 - (n - ILeftBits s) |>)
    (l ++ bits (Z.to_nat n) v).
Proof.
  intros Hn Hv Hroom. destruct W as [? ? ? ? Hc ? <-].
  set (k := n - ILeftBits s). assert (0 <= k <= 31) by lia.
  rewrite (shl32_small (UiCurBits s) _ (ILeftBits s)), u32_mask, land_mask_mod by lia.
  assert (Hshr : shr32 v k = Z.shiftr v k).
  { unfold shr32. by rewrite (proj2 (Z.leb_le 0 k)), (proj2 (Z.ltb_lt k 32)) by lia. }
  rewrite Hshr. set (w := Z.lor _ _).
  assert (Hz : zlen (zwrite (PBuf s) (PCurBuf s) (be4 w)) = zlen (PBuf s)).
  { rewrite zlen_write by lia. change (zlen (be4 w)) with 4. cbn. lia. }
  assert (Hr : 0 <= Z.shiftr v k < 2 ^ ILeftBits s).
  { rewrite Z.shiftr_div_pow2 by lia. split; [apply Z.div_pos; lia|].
    apply Z.div_lt_upper_bound; [lia|]. rewrite <- Z.pow_add_r by lia.
    replace (k + ILeftBits s) with n by lia. lia. }
  constructor; bs_simpl; try lia.
  - replace (32 - (32 - k)) with k by lia. apply Z.mod_pos_bound. lia.
  - apply bytes_ok_write; [done|apply be4_ok].
  - replace (PCurBuf s + 4 - PStartBuf s) with (PCurBuf s + zlen (be4 w) - PStartBuf s) by done.
    rewrite zslice_write_take by (change (zlen (be4 w)) with 4; lia).
    rewrite (take_ge (be4 w)) by done.
    rewrite bytes_bits_app, bytes_bits_be4, <- !app_assoc. f_equal.
    replace 32%nat with (Z.to_nat (32 - ILeftBits s) + Z.to_nat (ILeftBits s))%nat by lia.
    unfold w. rewrite bits_lor_shift by lia. rewrite <- app_assoc. f_equal.
    replace (Z.to_nat (32 - (32 - k))) with (Z.to_nat k) by lia.
    rewrite bits_mod_Z, bits_shiftr_app by lia. f_equal. lia.
Qed.

Lemma wp_BsWriteBits n v :
  0 <= n <= 32 -> 0 <= v < 2 ^ n -> zlen l + n + 32 <= 8 * cap ->
  wp (BsWriteBits n v) s (fun _ s' => writes cap s' (l ++ bits (Z.to_nat n) v)) (fun _ _ => False).
Proof.
  intros Hn Hv Hroom. pose proof (writes_len _ _ _ W). pose proof (w_cap _ _ _ W).
  pose proof (w_left _ _ _ W). pose proof (w_range _ _ _ W).
  unfold BsWriteBits. wsteps. destruct (n <? ILeftBits s) eqn:E; zbool.
  - wsteps. apply writes_cache; lia.
  - wsteps. apply wp_WRITE_BE_32; [cbn; lia..|]. wsteps. cbn. apply writes_word; [lia..|].
    lia.
Qed.

End WriteBits.

(** Shifting in zeros. *)
Lemma bits_shiftl n m c :
  0 <= m -> bits (n + Z.to_nat m) (Z.shiftl c m) = bits n c ++ replicate (Z.to_nat m) false.
Proof.
  intros Hm. rewrite <- (Z.lor_0_r (Z.shiftl c m)), bits_lor_shift, bits_zero by lia. done.
Qed.

(** The zero bits that pad [l] to a whole number of bytes. *)
Definition pad8 (l : list bool) : list bool := replicate (Z.to_nat (- zlen l mod 8)) false.

Lemma wp_BsFlush cap s l :
  writes cap s l -> zlen l + 32 <= 8 * cap ->
  wp BsFlush s (fun _ s' => writes cap s' (l ++ pad8 l) /\ ILeftBits s' = 32) (fun _ _ => False).
Proof.
  intros W Hroom. pose proof (writes_len _ _ _ W) as Hlen. unfold BsFlush. wsteps.
  destruct (ILeftBits s <? 32) eqn:E; zbool.
  2:{ assert (ILeftBits s = 32) as El by (destruct W; lia). wsteps. split; [|done].
      unfold pad8. rewrite Hlen, El. replace (- _) with ((- (PCurBuf s - PStartBuf s)) * 8) by lia.
      rewrite Z.mod_mul by lia. cbn. by rewrite app_nil_r. }
  destruct W as [? ? ? Hleft Hc Hb <-]. wsteps.
  apply wp_WRITE_BE_32; [bs_simpl; lia..|]. wsteps. bs_simpl. split; [|done].
  rewrite (shl32_small (UiCurBits s) _ (ILeftBits s)), Z.quot_div_nonneg by lia.
  set (w := Z.shiftl _ _). set (q := ILeftBits s / 8).
  assert (Hq : 0 <= q < 4 /\ ILeftBits s = 8 * q + ILeftBits s mod 8).
  { unfold q. split; [split; [apply Z.div_pos|apply Z.div_lt_upper_bound]; lia|apply Z.div_mod; lia]. }
  pose proof (Z.mod_pos_bound (ILeftBits s) 8 ltac:(lia)).
  assert (Hz : zlen (zwrite (PBuf s) (PCurBuf s) (be4 w)) = zlen (PBuf s)).
  { rewrite zlen_write by lia. change (zlen (be4 w)) with 4. cbn [Z.eqb]. lia. }
  constructor; bs_simpl; try lia.
  { apply bytes_ok_write; [done|apply be4_ok]. }
  change (Z.to_nat (32 - 32)) with O. cbn [bits]. rewrite app_nil_r.
  rewrite zslice_write_take by (change (zlen (be4 w)) with 4; lia).
  rewrite bytes_bits_app, <- take_bytes_bits, bytes_bits_be4, <- app_assoc. f_equal.
  replace 32%nat with (Z.to_nat (32 - ILeftBits s) + Z.to_nat (ILeftBits s))%nat by lia.
  unfold w. rewrite bits_shiftl by lia.
  rewrite take_app_ge by (rewrite length_bits; lia). f_equal. rewrite take_replicate, length_bits.
  unfold pad8. rewrite Hlen. f_equal.
  replace (- _) with (ILeftBits s + (- (PCurBuf s - PStartBuf s) - 4) * 8) by lia.
  rewrite Z.mod_add by lia. lia.
Qed.

Lemma wp_BsRbspTrailingBits cap s l :
  writes cap s l -> zlen l + 33 <= 8 * cap ->
  wp BsRbspTrailingBits s
     (fun _ s' => writes cap s' (l ++ [true] ++ pad8 (l ++ [true])) /\ ILeftBits s' = 32)
     (fun _ _ => False).
Proof.
  intros W Hroom. unfold BsRbspTrailingBits, BsWriteOneBit. wsteps.
  wcall (wp_BsWriteBits _ _ _ W 1 1); [lia..| |done]. intros [] s' W'. cbv beta in W'.
  wcall (wp_BsFlush _ _ _ W'); [rewrite zlen_app, zlen_bits; lia| |done].
  intros [] s'' [W'' ?]. split; [|done]. by rewrite <- app_assoc in W''.
Qed.

(** ** Exp-Golomb codes

    [ueBits v] is the unsigned code of the H.264 standard: [n] zeros and the
    [n + 1] bits of [v + 1], where [n] is the number of bits of [v + 1] less
    one. *)

Definition ueLen (v : Z) : Z := 2 * Z.log2 (v + 1) + 1.
Definition ueBits (v : Z) : list bool := bits (Z.to_nat (ueLen v)) (v + 1).

(** The code number of a signed value. *)
Definition seNum (k : Z) : Z := if 0 <? k then 2 * k - 1 else - 2 * k.

(** A mask of [j] bits above bit [k] tests for [2^k]. *)
Lemma land_high t j k :
  0 <= j -> 0 <= k -> 0 <= t < 2 ^ (k + j) ->
  negb (Z.land t (Z.shiftl (Z.ones j) k) =? 0) = (2 ^ k <=? t).
Proof.
  intros Hj Hk Ht.
  assert (Z.land t (Z.shiftl (Z.ones j) k) = t / 2 ^ k * 2 ^ k) as ->.
  { rewrite <- Z.shiftr_div_pow2, <- Z.shiftl_mul_pow2 by lia. zbits.
    rewrite Z.land_spec. destruct (Z.lt_ge_cases n k).
    - rewrite !Z.shiftl_spec_low by lia. apply andb_false_r.
    - rewrite !Z.shiftl_spec, Z.shiftr_spec by lia. replace (n - k + k) with n by lia.
      destruct (Z.lt_ge_cases n (k + j)).
      + rewrite Z.ones_spec_low by lia. apply andb_true_r.
      + rewrite (testbit_high t (k + j)) by lia. done. }
  destruct (Z.lt_ge_cases t (2 ^ k)) as [Hlt|Hge].
  - rewrite Z.div_small by lia. cbn. symmetry. apply Z.leb_gt. lia.
  - rewrite (proj2 (Z.leb_le _ _)) by lia. apply negb_true_iff, Z.eqb_neq.
    assert (1 <= t / 2 ^ k) by (apply Z.div_le_lower_bound; lia). nia.
Qed.

Lemma golomb_table t :
  1 <= t <= 256 -> zlookup G_kuiGolombUELength (t - 1) = Some (2 * Z.log2 t + 1).
Proof.
  intros Ht. assert (Hall : forallb (fun i => match zlookup G_kuiGolombUELength (Z.of_nat i) with
      | Some l => l =? 2 * Z.log2 (Z.of_nat i + 1) + 1 | None => false end) (seq 0 256) = true)
    by (vm_compute; reflexivity).
  rewrite forallb_forall in Hall. specialize (Hall (Z.to_nat (t - 1))).
  rewrite in_seq, Z2Nat.id in Hall by lia. specialize (Hall ltac:(lia)).
  destruct (zlookup _ _); [|done]. zbool. subst. repeat f_equal. lia.
Qed.

Lemma golomb_table' v : 0 <= v < 256 -> zlookup G_kuiGolombUELength v = Some (ueLen v).
Proof. intros Hv. rewrite <- (Z.add_simpl_r v 1) at 1. apply golomb_table. lia. Qed.

Lemma log2_shiftr t k : 0 <= k -> 2 ^ k <= t -> Z.log2 (Z.shiftr t k) = Z.log2 t - k.
Proof.
  intros Hk Ht. rewrite Z.log2_shiftr by lia. apply Z.max_r.
  assert (k <= Z.log2 t) by (apply Z.log2_le_pow2; lia). lia.
Qed.

(** The reduced value lies in the table and its logarithm tells the length. *)
Lemma ueReduce_spec t :
  1 <= t < 2 ^ 32 ->
  1 <= fst (ueReduce t) < 256 /\ Z.log2 (fst (ueReduce t)) + snd (ueReduce t) = Z.log2 t.
Proof.
  intros Ht. unfold ueReduce. change 0xffff0000 with (Z.shiftl (Z.ones 16) 16).
  change 0xff00 with (Z.shiftl (Z.ones 8) 8). rewrite (land_high t 16 16) by lia.
  assert (H : exists u n, (if 2 ^ 16 <=? t then (Z.shiftr t 16, 16) else (t, 0)) = (u, n) /\
                          1 <= u < 2 ^ 16 /\ Z.log2 u + n = Z.log2 t).
  { destruct (2 ^ 16 <=? t) eqn:E; zbool; eexists _, _; (split; [reflexivity|]).
    - rewrite log2_shiftr by lia. rewrite Z.shiftr_div_pow2 by lia.
      split; [split|lia]; [apply Z.div_le_lower_bound|apply Z.div_lt_upper_bound]; lia.
    - lia. }
  destruct H as (u & n & -> & Hu & <-). rewrite (land_high u 8 8) by lia.
  destruct (2 ^ 8 <=? u) eqn:E; zbool; cbn [fst snd].
  - rewrite log2_shiftr by lia. rewrite Z.shiftr_div_pow2 by lia.
    split; [split|lia]; [apply Z.div_le_lower_bound|apply Z.div_lt_upper_bound]; lia.
  - lia.
Qed.

Lemma ue_index v :
  256 <= v < 2 ^ 32 - 1 ->
  exists len, zlookup G_kuiGolombUELength (u32 (fst (ueReduce (u32 (v + 1))) - 1)) = Some len /\
              Z.shiftl (snd (ueReduce (u32 (v + 1))) + Z.shiftr len 1) 1 + 1 = ueLen v.
Proof.
  intros Hv. rewrite (u32_small (v + 1)) by lia.
  destruct (ueReduce_spec (v + 1)) as [Ht Hlog]; [lia|].
  destruct (ueReduce (v + 1)) as [t n]. cbn [fst snd] in *.
  rewrite u32_small, golomb_table by lia. eexists; split; [done|].
  rewrite Z.shiftl_mul_pow2, Z.shiftr_div_pow2 by lia. unfold ueLen.
  replace ((2 * Z.log2 t + 1) / 2 ^ 1) with (Z.log2 t) by (apply Z.div_unique with 1; lia).
  lia.
Qed.

Lemma BsWriteUE_eq v s :
  0 <= v < 2 ^ 32 - 1 -> BsWriteUE v s = BsWriteBits (ueLen v) (v + 1) s.
Proof.
  intros Hv. unfold BsWriteUE. rewrite (u32_small (v + 1)) by lia.
  destruct (v <? 256) eqn:E; zbool.
  - unfold gindex. rewrite golomb_table' by lia. done.
  - destruct (ue_index v ltac:(lia)) as (len & Hlen & Hn). rewrite (u32_small (v + 1)) in Hlen, Hn by lia.
    destruct (ueReduce (v + 1)) as [t n]. cbn [fst snd] in *.
    unfold gindex. rewrite Hlen. unfold gbind. cbn [ret]. by rewrite Hn.
Qed.

(** The encoder's size estimate of a code is its length, for every
    value but the largest. *)
Lemma BsSizeUE_len v : 0 <= v < 2 ^ 32 - 1 -> BsSizeUE v = Some (ueLen v).
Proof.
  intros Hv. unfold BsSizeUE. destruct (v <? 256) eqn:E; zbool.
  - rewrite golomb_table' by lia. done.
  - destruct (ue_index v ltac:(lia)) as (len & Hlen & Hn).
    destruct (ueReduce (u32 (v + 1))) as [t n]. cbn [fst snd] in *. rewrite Hlen. cbn. by rewrite Hn.
Qed.

Lemma se_code k :
  - 2 ^ 30 < k < 2 ^ 30 -> k <> 0 ->
  (if 0 <? k then u32 (i32 (i32 (Z.shiftl k 1) - 1)) else u32 (i32 (Z.shiftl (i32 (- k)) 1))) = seNum k.
Proof.
  intros Hk Hk0. unfold seNum. destruct (0 <? k) eqn:?; zbool.
  - rewrite Z.shiftl_mul_pow2, (i32_small (k * 2 ^ 1)), i32_small, u32_small by lia. lia.
  - rewrite (i32_small (- k)), Z.shiftl_mul_pow2, i32_small, u32_small by lia. lia.
Qed.

Lemma seNum_range k : - 2 ^ 30 < k < 2 ^ 30 -> 0 <= seNum k < 2 ^ 32 - 1.
Proof. unfold seNum. destruct (0 <? k) eqn:?; zbool; lia. Qed.

Lemma BsWriteSE_eq k s :
  - 2 ^ 30 < k < 2 ^ 30 -> BsWriteSE k s = BsWriteBits (ueLen (seNum k)) (seNum k + 1) s.
Proof.
  intros Hk. rewrite <- BsWriteUE_eq by (by apply seNum_range). unfold BsWriteSE.
  destruct (0 =? k) eqn:E0; zbool; [by subst|].
  rewrite <- (se_code k) by lia. by destruct (0 <? k).
Qed.

Lemma BsSizeSE_len k : - 2 ^ 30 < k < 2 ^ 30 -> BsSizeSE k = Some (ueLen (seNum k)).
Proof.
  intros Hk. rewrite <- BsSizeUE_len by (by apply seNum_range). unfold BsSizeSE.
  destruct (0 =? k) eqn:E0; zbool; [by subst|].
  rewrite <- (se_code k) by lia. by destruct (0 <? k).
Qed.

Lemma ueLen_range v : 0 <= v < 65535 -> 1 <= ueLen v <= 31 /\ v + 1 < 2 ^ (ueLen v).
Proof.
  intros Hv. unfold ueLen. pose proof (Z.log2_nonneg (v + 1)).
  assert (Z.log2 (v + 1) < 16) by (apply Z.log2_lt_pow2; lia).
  destruct (Z.log2_spec (v + 1) ltac:(lia)) as [_ Hs]. split; [lia|].
  eapply Z.lt_le_trans; [exact Hs|]. apply Z.pow_le_mono_r; lia.
Qed.
