(* ===== verification/H264ReadSpec.v ===== *)
(** * What the H.264 bit reader does

    [reads ib s all p]: the reader [s] works on the bits [all] of its buffer,
    [ib] of which are announced by [DecInitBits], and stands at bit [p]; its
    cache holds the next 16 to 32 of them (zeros past the end).  Each
    operation is specified by the bits that follow the position. *)

From S2P Require Import Prelude Bytes H264Bits H264BitsSpec.

Definition zbit (l : list bool) (i : Z) : bool := nth (Z.to_nat i) l false.

Record reads (ib : Z) (s : SBitStringAux) (all : list bool) (p : Z) : Prop := {
  r_range : 0 <= PStartBuf s <= PEndBuf s /\ PEndBuf s <= zlen (PBuf s);
  r_bytes : bytes_ok (PBuf s);
  r_all : bytes_bits (zslice (PBuf s) (PStartBuf s) (PEndBuf s - PStartBuf s)) = all;
  r_left : -16 <= ILeftBits s <= 0;
  r_pos : p = 8 * (PCurBuf s - PStartBuf s) - 16 + ILeftBits s /\ 0 <= p;
  r_cache : 0 <= UiCurBits s < 2 ^ 32;
  r_bits : forall i, 0 <= i < 32 ->
    Z.testbit (UiCurBits s) (31 - i) = (i <? 16 - ILeftBits s) && zbit all (p + i);
  r_ibits : IBits s = ib
}.

Lemma reads_zlen ib s all p : reads ib s all p -> zlen all = 8 * (PEndBuf s - PStartBuf s).
Proof. intros [? ? <- ? ? ? ?]. rewrite zlen_bytes_bits, zlen_slice by lia. lia. Qed.

(** ** Bits of the buffer *)

Lemma zbit_bits n v i : 0 <= i < Z.of_nat n -> zbit (bits n v) i = Z.testbit v (Z.of_nat n - 1 - i).
Proof.
  unfold zbit. revert i. induction n as [|n IH]; intros i Hi; [lia|]. cbn [bits].
  destruct (Z.eq_dec i 0) as [->|Hne]; [cbn [nth Z.to_nat]; f_equal; lia|].
  replace (Z.to_nat i) with (S (Z.to_nat (i - 1))) by lia. cbn [nth]. rewrite IH by lia. f_equal; lia.
Qed.

Lemma zbit_app_l l1 l2 i : 0 <= i < zlen l1 -> zbit (l1 ++ l2) i = zbit l1 i.
Proof. unfold zbit, zlen. intros. apply app_nth1. lia. Qed.

Lemma zbit_app_r l1 l2 i : zlen l1 <= i -> zbit (l1 ++ l2) i = zbit l2 (i - zlen l1).
Proof. unfold zbit, zlen. intros. rewrite app_nth2 by lia. f_equal; lia. Qed.

Lemma zbit_out l i : zlen l <= i -> zbit l i = false.
Proof. unfold zbit, zlen. intros. apply nth_overflow. lia. Qed.

Lemma zbit_drop l p i : 0 <= p -> 0 <= i -> zbit (drop (Z.to_nat p) l) i = zbit l (p + i).
Proof. intros. unfold zbit. rewrite nth_skipn. f_equal; lia. Qed.

(** Bit [j] of byte [k], counted from the most significant. *)
Lemma zbit_bytes l k j :
  0 <= k -> 0 <= j < 8 -> zbit (bytes_bits l) (8 * k + j) = Z.testbit (zget l k) (7 - j).
Proof.
  intros Hk Hj. destruct (Z.lt_ge_cases k (zlen l)) as [Hlt|Hge].
  2:{ rewrite zbit_out, zget_out, Z.bits_0 by (rewrite ?zlen_bytes_bits; lia). done. }
  revert k Hk Hlt. induction l as [|x l IH]; intros k Hk Hlt; [rewrite zlen_nil in Hlt; lia|].
  change (bytes_bits (x :: l)) with (bits 8 x ++ bytes_bits l). rewrite zlen_cons in Hlt.
  destruct (Z.eq_dec k 0) as [->|Hne].
  - rewrite zbit_app_l, zbit_bits by (rewrite ?zlen_bits; lia). cbn. f_equal; lia.
  - rewrite zbit_app_r, zlen_bits by (rewrite zlen_bits; lia).
    replace (8 * k + j - Z.of_nat 8) with (8 * (k - 1) + j) by lia. rewrite IH by lia.
    f_equal. change (x :: l) with ([x] ++ l). rewrite zget_app. change (zlen [x]) with 1.
    rewrite (proj2 (Z.ltb_ge _ _)) by lia. done.
Qed.

Lemma testbit_shl32 x n i :
  0 <= n < 32 -> 0 <= i < 32 -> Z.testbit (shl32 x n) i = (n <=? i) && Z.testbit x (i - n).
Proof.
  intros Hn Hi. unfold shl32. rewrite (proj2 (Z.leb_le 0 n)), (proj2 (Z.ltb_lt n 32)) by lia. cbn [andb].
  unfold u32. rewrite Z.mod_pow2_bits_low by lia. destruct (n <=? i) eqn:?; zbool.
  - by rewrite Z.shiftl_spec by lia.
  - by rewrite Z.shiftl_spec_low by lia.
Qed.

Lemma shl32_range x n : 0 <= shl32 x n < 2 ^ 32.
Proof. unfold shl32. destruct (_ && _); [apply u32_range|lia]. Qed.

(** The 16 bits that [GET_WORD] fetches from byte [k]. *)
Definition fetch (l : list Z) (k : Z) : Z := Z.lor (shl32 (zget l k) 8) (zget l (k + 1)).

Lemma fetch_bits l k m :
  bytes_ok l -> 0 <= k -> 0 <= m < 32 ->
  Z.testbit (fetch l k) m = (m <? 16) && zbit (bytes_bits l) (8 * k + 15 - m).
Proof.
  intros Hl Hk Hm. unfold fetch. rewrite Z.lor_spec, testbit_shl32 by lia.
  pose proof (bytes_ok_zget l k Hl). pose proof (bytes_ok_zget l (k + 1) Hl).
  destruct (m <? 16) eqn:E16; zbool; cbn [andb].
  - destruct (8 <=? m) eqn:E8; zbool; cbn [andb].
    + rewrite (testbit_high (zget l (k + 1)) 8), orb_false_r by lia.
      replace (8 * k + 15 - m) with (8 * k + (15 - m)) by lia. rewrite zbit_bytes by lia. f_equal; lia.
    + replace (8 * k + 15 - m) with (8 * (k + 1) + (7 - m)) by lia. rewrite zbit_bytes by lia.
      cbn [orb]. f_equal; lia.
  - rewrite (testbit_high (zget l k) 8), (testbit_high (zget l (k + 1)) 8), andb_false_r by lia. done.
Qed.

(** ** The cache *)

Section Reader.
Context (ib : Z) (s : SBitStringAux) (all : list bool) (p : Z).
Context (R : reads ib s all p).

(** The bits at the top of the cache are the next bits of the stream. *)
Lemma UBITS_next n v rest :
  1 <= n <= 16 -> 0 <= v < 2 ^ n -> drop (Z.to_nat p) all = bits (Z.to_nat n) v ++ rest ->
  UBITS (UiCurBits s) n = v.
Proof.
  intros Hn Hv Hd. destruct R as [? ? ? ? ? Hc Hb]. unfold UBITS, shr32.
  rewrite (proj2 (Z.leb_le 0 (32 - n))), (proj2 (Z.ltb_lt (32 - n) 32)) by lia. cbn [andb].
  zbits. rename n0 into j. rewrite Z.shiftr_spec by lia. destruct (Z.lt_ge_cases j n) as [Hj|Hj].
  - replace (j + (32 - n)) with (31 - (n - 1 - j)) by lia. rewrite Hb by lia.
    rewrite (proj2 (Z.ltb_lt _ _)) by lia. cbn [andb].
    rewrite <- zbit_drop, Hd, zbit_app_l, zbit_bits by (rewrite ?zlen_bits; lia). f_equal; lia.
  - rewrite (testbit_high _ 32), (testbit_high v n) by lia. done.
Qed.

(** What the buffer holds at the next byte, zeros past the end. *)
Lemma fetched :
  let d := zslice (PBuf s) (PStartBuf s) (PEndBuf s - PStartBuf s) in
  let k := PCurBuf s - PStartBuf s in
  0 <= k /\
  (forall i, zlen d <= i -> zget d i = 0) /\
  (forall i, 0 <= i < PEndBuf s - PStartBuf s ->
     zlookup (PBuf s) (PStartBuf s + i) = Some (zget d i)).
Proof.
  destruct R as [? ? ? ? ? ? ?]. cbn. splits; [lia|intros; apply zget_out; lia|].
  intros i Hi. rewrite zlookup_zget, zget_slice by lia. done.
Qed.

Lemma wp_GET_WORD Q E :
  forall cur left,
  let k := PCurBuf s - PStartBuf s in
  let s1 := s <| UiCurBits := cur |> <| ILeftBits := left |> in
  k <= PEndBuf s - PStartBuf s + 1 ->
  Q tt (s1 <| UiCurBits := Z.lor cur (shl32 (fetch (zslice (PBuf s) (PStartBuf s) (PEndBuf s - PStartBuf s)) k) left) |>
           <| ILeftBits := left - 16 |> <| PCurBuf := PCurBuf s + 2 |>) ->
  wp (GET_WORD (PEndBuf s - PStartBuf s) k) s1 Q E.
Proof.
  intros cur left k s1 Hk HQ. destruct fetched as (Hk0 & Hout & Hin). fold k in Hk0.
  pose proof (r_range _ _ _ _ R).
  set (d := zslice _ _ _) in *. assert (Hd : zlen d = PEndBuf s - PStartBuf s).
  { unfold d. apply zlen_slice; lia. }
  unfold GET_WORD. wstep; [zbool; lia|]. wsteps.
  apply wp_mono with (Q := fun hi s' => hi = shl32 (zget d k) 8 /\ s' = s1) (E := E); [| |done].
  { destruct (k <? _) eqn:?; zbool; wsteps.
    - eapply wp_gindex; [unfold s1; bs_simpl; rewrite <- (Hin k) by lia; f_equal; lia|].
      wsteps. done.
    - split; [|done]. rewrite Hout by lia. done. }
  intros hi ? [-> ->]. wsteps.
  apply wp_mono with (Q := fun lo s' => lo = zget d (k + 1) /\ s' = s1) (E := E); [| |done].
  { destruct (k + 1 <? _) eqn:?; zbool; wsteps.
    - eapply wp_gindex; [unfold s1; bs_simpl; rewrite <- (Hin (k + 1)) by lia; f_equal; lia|]. done.
    - split; [|done]. rewrite Hout by lia. done. }
  intros lo ? [-> ->]. wsteps. exact HQ.
Qed.

(** Dropping up to 16 bits, with the refill. *)
Lemma wp_DUMP_BITS n :
  0 <= n <= 16 -> p + n <= zlen all ->
  wp (DUMP_BITS n (PEndBuf s - PStartBuf s) (PCurBuf s - PStartBuf s)) s
     (fun _ s' => reads ib s' all (p + n)) (fun _ _ => False).
Proof.
  intros Hn Hp. pose proof (reads_zlen _ _ _ _ R) as Hlen. pose proof fetched as (Hk0 & _ & _).
  destruct R as [? Hbytes Hall Hleft [Hpos Hp0] Hc Hb Hib] eqn:ER. clear ER.
  assert (Hcur : forall i, 0 <= i < 32 ->
    Z.testbit (shl32 (UiCurBits s) n) (31 - i) = (i <? 16 - (ILeftBits s + n)) && zbit all (p + n + i)).
  { intros i Hi. rewrite testbit_shl32 by lia. destruct (n <=? 31 - i) eqn:?; zbool; cbn [andb].
    - replace (31 - i - n) with (31 - (n + i)) by lia. rewrite Hb, Z.add_assoc by lia. f_equal.
      zcases; done || lia.
    - rewrite (proj2 (Z.ltb_ge _ _)) by lia. done. }
  unfold DUMP_BITS, NEED_BITS. wsteps. bs_simpl. destruct (0 <? ILeftBits s + n) eqn:E; zbool.
  2:{ wsteps. constructor; bs_simpl; try lia; try done. apply shl32_range. }
  apply wp_GET_WORD; [lia|]. set (k := PCurBuf s - PStartBuf s).
  set (d := zslice _ _ _) in *. set (left := ILeftBits s + n) in *.
  assert (Hd : bytes_ok d) by (unfold d; by apply bytes_ok_slice).
  constructor; bs_simpl; try lia; try done.
  { apply lor_range; [apply shl32_range..|lia]. }
  intros i Hi. rewrite Z.lor_spec, Hcur, testbit_shl32 by lia.
  destruct (i <? 16 - left) eqn:E1; zbool.
  - destruct (left <=? 31 - i) eqn:?; zbool; [|lia]. rewrite fetch_bits by (done || lia).
    rewrite (proj2 (Z.ltb_ge _ 16)), (proj2 (Z.ltb_lt i (16 - (left - 16)))) by lia.
    cbn [andb]. by rewrite orb_false_r.
  - destruct (left <=? 31 - i) eqn:?; zbool; cbn [andb orb].
    + rewrite fetch_bits by (done || lia).
      rewrite (proj2 (Z.ltb_lt _ 16)), (proj2 (Z.ltb_lt i (16 - (left - 16)))) by lia.
      cbn [andb]. rewrite Hall. f_equal. lia.
    + rewrite (proj2 (Z.ltb_ge i _)) by lia. done.
Qed.

End Reader.

(** ** Reading syntax elements

    The next element of the stream is known by its bits; [rest] are the bits
    after it. *)

Lemma reads_extent ib s s' all p p' :
  reads ib s all p -> reads ib s' all p' -> PEndBuf s - PStartBuf s = PEndBuf s' - PStartBuf s'.
Proof. intros ?%reads_zlen ?%reads_zlen. lia. Qed.

Lemma drop_bits all p n v rest :
  0 <= p -> 1 <= n -> drop (Z.to_nat p) all = bits (Z.to_nat n) v ++ rest ->
  drop (Z.to_nat (p + n)) all = rest /\ p + n <= zlen all.
Proof.
  intros Hp Hn Hd. split.
  - replace (Z.to_nat (p + n)) with (Z.to_nat p + Z.to_nat n)%nat by lia.
    rewrite <- drop_drop, Hd. replace (Z.to_nat n) with (length (bits (Z.to_nat n) v)) at 1
      by (by rewrite length_bits). apply drop_app_length.
  - apply (f_equal length) in Hd. rewrite length_drop, length_app, length_bits in Hd. unfold zlen. lia.
Qed.

Lemma wp_BsGetBits ib s all p n v rest :
  reads ib s all p -> 1 <= n <= 16 -> 0 <= v < 2 ^ n ->
  drop (Z.to_nat p) all = bits (Z.to_nat n) v ++ rest ->
  wp (BsGetBits n) s
     (fun x s' => x = v /\ reads ib s' all (p + n) /\ drop (Z.to_nat (p + n)) all = rest)
     (fun _ _ => False).
Proof.
  intros R Hn Hv Hd. assert (0 <= p) by apply R.
  destruct (drop_bits all p n v rest) as [Hrest Hend]; [lia..|done|].
  unfold BsGetBits. wsteps. wcall (wp_DUMP_BITS _ _ _ _ R n); [lia..| |done].
  intros [] s' R'. wsteps. splits; [|done..]. eapply UBITS_next; [apply R|lia..|done].
Qed.

Lemma leading_zero_table x :
  1 <= x < 256 -> zlookup g_kuiLeadingZeroTable x = Some (7 - Z.log2 x).
Proof.
  intros Hx. assert (Hall : forallb (fun i => match zlookup g_kuiLeadingZeroTable (Z.of_nat i) with
      | Some l => l =? 7 - Z.log2 (Z.of_nat i) | None => false end) (seq 1 255) = true)
    by (vm_compute; reflexivity).
  rewrite forallb_forall in Hall. specialize (Hall (Z.to_nat x)).
  rewrite in_seq, Z2Nat.id in Hall by lia. specialize (Hall ltac:(lia)).
  destruct (zlookup _ _); [|done]. zbool. by subst.
Qed.

Lemma UBITS_div c n : 1 <= n <= 32 -> UBITS c n = c / 2 ^ (32 - n).
Proof.
  intros Hn. unfold UBITS, shr32. rewrite (proj2 (Z.leb_le 0 _)), (proj2 (Z.ltb_lt _ 32)) by lia.
  apply Z.shiftr_div_pow2. lia.
Qed.

(** The logarithm of a number from that of its leading part. *)
Lemma log2_div c k : 0 <= k -> 0 < c / 2 ^ k -> Z.log2 (c / 2 ^ k) = Z.log2 c - k.
Proof.
  intros Hk Hc. rewrite <- Z.shiftr_div_pow2 by lia. apply log2_shiftr; [done|].
  destruct (Z.lt_ge_cases c (2 ^ k)) as [Hlt|]; [|done].
  destruct (Z.lt_ge_cases c 0) as [Hneg|]; [|rewrite Z.div_small in Hc; lia].
  exfalso. assert (c / 2 ^ k < 0) by (apply Z.div_lt_upper_bound; lia). lia.
Qed.

Lemma wp_GetLeadingZeroBits c s (Q : Z -> SBitStringAux -> Prop) E :
  0 <= c < 2 ^ 32 -> Q (if c =? 0 then -1 else 31 - Z.log2 c) s ->
  wp (GetLeadingZeroBits c) s Q E.
Proof.
  intros Hc HQ. unfold GetLeadingZeroBits. rewrite !UBITS_div by lia.
  change (32 - 8) with 24. change (32 - 16) with 16. change (32 - 24) with 8.
  assert (Hk : forall k, 0 <= k -> 0 <= c / 2 ^ k) by (intros; apply Z.div_pos; lia).
  assert (Hidx : forall k, 0 <= k -> 0 <> c / 2 ^ k -> c / 2 ^ k < 256 ->
            c <> 0 /\ zlookup g_kuiLeadingZeroTable (c / 2 ^ k) = Some (7 - (Z.log2 c - k))).
  { intros k Hk0 Hne Hlt. specialize (Hk k Hk0). rewrite leading_zero_table, log2_div by lia.
    split; [|done]. intros ->. rewrite Z.div_0_l in Hne; lia. }
  assert (Hlt : forall k, 0 <= k -> c < 2 ^ (k + 8) -> c / 2 ^ k < 256).
  { intros k Hk0 ?. apply Z.div_lt_upper_bound; [lia|]. rewrite Z.pow_add_r in * by lia. lia. }
  assert (Hz : forall k, 0 <= k -> c / 2 ^ k = 0 -> c < 2 ^ k).
  { intros k Hk0 Hz0. apply Z.div_small_iff in Hz0; lia. }
  destruct (c / 2 ^ 24 =? 0) eqn:E24; zbool; cbn [negb].
  2:{ destruct (Hidx 24) as [? Hi]; [lia|lia|apply Hlt; lia|]. eapply wp_gindex; [exact Hi|].
      rewrite (proj2 (Z.eqb_neq c 0)) in HQ by lia. by replace (7 - _) with (31 - Z.log2 c) by lia. }
  destruct (c / 2 ^ 16 =? 0) eqn:E16; zbool; cbn [negb].
  2:{ destruct (Hidx 16) as [? Hi]; [lia|lia|apply Hlt; [lia|by apply Hz]|]. wsteps.
      eapply wp_gindex; [exact Hi|]. wsteps.
      rewrite (proj2 (Z.eqb_neq c 0)) in HQ by lia. by replace (7 - _ + _) with (31 - Z.log2 c) by lia. }
  destruct (c / 2 ^ 8 =? 0) eqn:E8; zbool; cbn [negb].
  2:{ destruct (Hidx 8) as [? Hi]; [lia|lia|apply Hlt; [lia|by apply Hz]|]. wsteps.
      eapply wp_gindex; [exact Hi|]. wsteps.
      rewrite (proj2 (Z.eqb_neq c 0)) in HQ by lia. by replace (7 - _ + _) with (31 - Z.log2 c) by lia. }
  apply Hz in E8; [|lia]. destruct (c =? 0) eqn:E0; zbool; cbn [negb]; wsteps; [done|].
  eapply wp_gindex; [apply leading_zero_table; lia|]. wsteps.
  by replace (7 - _ + _) with (31 - Z.log2 c) by lia.
Qed.

(** An exp-Golomb code is a prefix of zeros ended by a one, and a suffix. *)
Lemma ueBits_split v :
  0 <= v ->
  ueBits v = bits (Z.to_nat (Z.log2 (v + 1) + 1)) 1 ++ bits (Z.to_nat (Z.log2 (v + 1))) (v + 1).
Proof.
  intros Hv. unfold ueBits, ueLen. set (n := Z.log2 (v + 1)).
  pose proof (Z.log2_nonneg (v + 1)). pose proof (Z.log2_spec (v + 1) ltac:(lia)) as Hs. fold n in Hs.
  replace (Z.to_nat (2 * n + 1)) with (Z.to_nat (n + 1) + Z.to_nat n)%nat by lia.
  rewrite bits_app, Z2Nat.id, Z.shiftr_div_pow2 by lia. do 2 f_equal.
  symmetry. apply Z.div_unique with (v + 1 - 2 ^ n); [|lia].
  rewrite Z.pow_succ_r in Hs by lia. lia.
Qed.

Lemma ue_value v : 0 <= v -> 2 ^ Z.log2 (v + 1) - 1 + (v + 1) mod 2 ^ Z.log2 (v + 1) = v.
Proof.
  intros Hv. pose proof (Z.log2_spec (v + 1) ltac:(lia)) as Hs. pose proof (Z.log2_nonneg (v + 1)).
  rewrite Z.pow_succ_r in Hs by lia.
  replace ((v + 1) mod 2 ^ Z.log2 (v + 1)) with (v + 1 - 2 ^ Z.log2 (v + 1)); [lia|].
  apply Z.mod_unique with 1; lia.
Qed.

(** The cache begins with the prefix of the code: its leading zeros. *)
Lemma ue_leading ib s all p v rest :
  reads ib s all p -> 0 <= v < 65535 -> drop (Z.to_nat p) all = ueBits v ++ rest ->
  UiCurBits s <> 0 /\ 31 - Z.log2 (UiCurBits s) = Z.log2 (v + 1).
Proof.
  intros R Hv Hd. rewrite ueBits_split in Hd by lia. rewrite <- app_assoc in Hd.
  pose proof (Z.log2_nonneg (v + 1)). assert (Z.log2 (v + 1) < 16) by (apply Z.log2_lt_pow2; lia).
  set (n := Z.log2 (v + 1)) in *.
  assert (H1 : UBITS (UiCurBits s) (n + 1) = 1).
  { eapply UBITS_next; [apply R|lia| |apply Hd]. split; [lia|]. apply Z.pow_gt_1; lia. }
  rewrite UBITS_div in H1 by lia. replace (32 - (n + 1)) with (31 - n) in H1 by lia.
  assert (UiCurBits s <> 0) by (intros E0; rewrite E0, Z.div_0_l in H1; lia). split; [done|].
  assert (Hl : Z.log2 (UiCurBits s / 2 ^ (31 - n)) = 0) by (by rewrite H1).
  rewrite log2_div in Hl by lia. lia.
Qed.

Lemma wp_BsGetUe ib s all p v rest :
  reads ib s all p -> 0 <= v < 65535 -> drop (Z.to_nat p) all = ueBits v ++ rest ->
  wp BsGetUe s
     (fun x s' => x = v /\ reads ib s' all (p + ueLen v) /\ drop (Z.to_nat (p + ueLen v)) all = rest)
     (fun _ _ => False).
Proof.
  intros R Hv Hd. destruct (ue_leading _ _ _ _ _ _ R Hv Hd) as [Hne Hlog].
  rewrite ueBits_split in Hd by lia. rewrite <- app_assoc in Hd.
  pose proof (Z.log2_nonneg (v + 1)). assert (Z.log2 (v + 1) < 16) by (apply Z.log2_lt_pow2; lia).
  assert (0 <= p) by apply R. pose proof (ue_value v ltac:(lia)) as Hval.
  pose proof (Z.log2_spec (v + 1) ltac:(lia)) as Hspec. unfold ueLen.
  set (n := Z.log2 (v + 1)) in *. 
  destruct (drop_bits all p (n + 1) 1 _ ltac:(lia) ltac:(lia) Hd) as [Hd1 Hend1].
  unfold BsGetUe. wsteps. apply wp_GetLeadingZeroBits; [apply R|].
  rewrite (proj2 (Z.eqb_neq _ 0)), Hlog by done. wstep; [zbool; lia|]. wsteps.
  rewrite (proj2 (Z.ltb_ge 16 n)) by lia.
  wcall (wp_DUMP_BITS _ _ _ _ R (n + 1)); [lia..| |done]. intros [] s1 R1. cbv beta in R1. wsteps.
  rewrite (reads_extent _ _ _ _ _ _ R R1).
  apply wp_mono with (Q := fun x s' => x = (v + 1) mod 2 ^ n /\ reads ib s' all (p + (2 * n + 1)) /\
                              drop (Z.to_nat (p + (2 * n + 1))) all = rest) (E := fun _ _ => False); [| |done].
  - destruct (n =? 0) eqn:En; zbool; cbn [negb]; wsteps.
    + rewrite En in *. cbn [Z.to_nat bits app] in Hd1. splits; [by rewrite Z.mod_1_r|exact R1|exact Hd1].
    + pose proof (bits_mod_Z n (v + 1) ltac:(lia)) as Hm. rewrite <- Hm in Hd1.
      destruct (drop_bits all (p + (n + 1)) n ((v + 1) mod 2 ^ n) rest ltac:(lia) ltac:(lia) Hd1) as [Hd2 Hend2].
      wcall (wp_DUMP_BITS _ _ _ _ R1 n); [lia..| |done]. intros [] s2 R2. cbv beta in R2. wsteps.
      replace (p + (2 * n + 1)) with (p + (n + 1) + n) by lia. splits; [|done..].
      eapply UBITS_next; [apply R1|lia| |apply Hd1]. apply Z.mod_pos_bound. lia.
  - intros x s2 (-> & R2 & Hd2). wsteps. splits; [|done..].
    rewrite u32_mask, u32_small by (rewrite ?Hval; lia). done.
Qed.

Lemma wp_BsGetSe ib s all p k rest :
  reads ib s all p -> -32768 < k < 32768 -> drop (Z.to_nat p) all = ueBits (seNum k) ++ rest ->
  wp BsGetSe s
     (fun x s' => x = k /\ reads ib s' all (p + ueLen (seNum k)) /\
                  drop (Z.to_nat (p + ueLen (seNum k))) all = rest)
     (fun _ _ => False).
Proof.
  intros R Hk Hd. assert (Hr : 0 <= seNum k < 65535) by (unfold seNum; destruct (0 <? k) eqn:?; zbool; lia).
  unfold BsGetSe. wsteps. wcall (wp_BsGetUe _ _ _ _ _ _ R Hr Hd); [|done].
  intros x s' (-> & R' & Hd'). unfold seNum in *.
  assert (Hl : forall y, Z.land y 1 = y mod 2 ^ 1) by (intros y; apply (Z.land_ones y 1); lia). rewrite Hl.
  destruct (0 <? k) eqn:E; zbool.
  - replace ((2 * k - 1) mod 2 ^ 1) with 1 by (apply Z.mod_unique with (k - 1); lia). cbn [Z.eqb negb]. wsteps.
    splits; [|done..]. rewrite u32_small, Z.shiftr_div_pow2 by lia.
    replace ((2 * k - 1 + 1) / 2 ^ 1) with k by (apply Z.div_unique with 0; lia). apply i32_small; lia.
  - replace ((-2 * k) mod 2 ^ 1) with 0 by (apply Z.mod_unique with (- k); lia). cbn [Z.eqb negb]. wsteps.
    splits; [|done..]. rewrite Z.shiftr_div_pow2 by lia.
    replace ((-2 * k) / 2 ^ 1) with (- k) by (apply Z.div_unique with 0; lia).
    rewrite (i32_small (- k)), i32_small by lia. lia.
Qed.

Lemma wp_BsGetTe0 ib s all p x v rest :
  reads ib s all p -> 1 <= x -> 0 <= v < 65535 -> (x = 1 -> v <= 1) ->
  drop (Z.to_nat p) all = (if x =? 1 then bits 1 (1 - v) else ueBits v) ++ rest ->
  wp (BsGetTe0 (x + 1)) s
     (fun y s' => y = v /\ reads ib s' all (p + (if x =? 1 then 1 else ueLen v)) /\
                  drop (Z.to_nat (p + (if x =? 1 then 1 else ueLen v))) all = rest)
     (fun _ _ => False).
Proof.
  intros R Hx Hv Hx1 Hd. unfold BsGetTe0. rewrite (proj2 (Z.eqb_neq (x + 1) 1)) by lia.
  destruct (x =? 1) eqn:E; zbool.
  - subst x. change (1 + 1 =? 2) with true. cbv iota. specialize (Hx1 eq_refl). wsteps. unfold BsGetOneBit.
    wcall (wp_BsGetBits _ _ _ _ 1 (1 - v) _ R); [lia..|exact Hd| |done].
    intros y s' (-> & R' & Hd'). wsteps. splits; [|done..].
    assert (v = 0 \/ v = 1) as [-> | ->] by lia; done.
  - rewrite (proj2 (Z.eqb_neq (x + 1) 2)) by lia. wcall (wp_BsGetUe _ _ _ _ _ _ R Hv Hd); done.
Qed.

(** ** Starting to read *)

(** Four bytes shifted into a word. *)
Lemma shift_in u n b :
  0 <= u < 2 ^ n -> 0 <= n <= 24 -> is_u8 b ->
  0 <= Z.lor (shl32 u 8) b < 2 ^ (n + 8) /\
  bits (Z.to_nat (n + 8)) (Z.lor (shl32 u 8) b) = bits (Z.to_nat n) u ++ bits 8 b.
Proof.
  intros Hu Hn Hb. unfold is_u8 in Hb.
  assert (2 ^ n <= 2 ^ 24) by (apply Z.pow_le_mono_r; lia).
  rewrite (shl32_small u 8 8) by lia. split; [apply shiftl_lor_range; lia|].
  replace (Z.to_nat (n + 8)) with (Z.to_nat n + Z.to_nat 8)%nat by lia. by apply bits_lor_shift.
Qed.

Lemma word_of_bytes b0 b1 b2 b3 :
  is_u8 b0 -> is_u8 b1 -> is_u8 b2 -> is_u8 b3 ->
  let v := Z.lor (shl32 (Z.lor (shl32 (Z.lor (shl32 (Z.lor (shl32 0 8) b0) 8) b1) 8) b2) 8) b3 in
  0 <= v < 2 ^ 32 /\ bits 32 v = bytes_bits [b0; b1; b2; b3].
Proof.
  intros H0 H1 H2 H3. cbv zeta.
  destruct (shift_in 0 0 b0) as [R0 E0]; [lia..|done|].
  destruct (shift_in _ 8 b1 R0) as [R1 E1]; [lia|done|].
  destruct (shift_in _ 16 b2 R1) as [R2 E2]; [lia|done|].
  destruct (shift_in _ 24 b3 R2) as [R3 E3]; [lia|done|].
  split; [exact R3|]. change 32%nat with (Z.to_nat (24 + 8)). rewrite E3.
  change (Z.to_nat 24) with (Z.to_nat (16 + 8)). rewrite E2.
  change (Z.to_nat 16) with (Z.to_nat (8 + 8)). rewrite E1.
  change (Z.to_nat 8) with (Z.to_nat (0 + 8)) at 1. rewrite E0.
  unfold bytes_bits. cbn [map concat]. by rewrite app_nil_r, <- !app_assoc.
Qed.

Lemma wp_GetValue4BytesSafe buf off n s (Q : Z -> SBitStringAux -> Prop) E :
  bytes_ok buf -> 0 <= off -> 0 <= n -> off + n <= zlen buf ->
  (forall v, 0 <= v < 2 ^ 32 ->
     (forall i, 0 <= i < 32 -> Z.testbit v (31 - i) = zbit (bytes_bits (zslice buf off n)) i) -> Q v s) ->
  wp (GetValue4BytesSafe buf off (if 4 <? n then 4 else n)) s Q E.
Proof.
  intros Hb Ho Hn Hl HQ. set (d := zslice buf off n) in *.
  assert (Hd : bytes_ok d) by (by apply bytes_ok_slice).
  assert (Hget : forall fuel k v Q' E', 0 <= k < 4 ->
     wp (value4Loop buf off (if 4 <? n then 4 else n) fuel (k + 1) (Z.lor (shl32 v 8) (zget d k))) s Q' E' ->
     wp (value4Loop buf off (if 4 <? n then 4 else n) (S fuel) k v) s Q' E').
  { intros fuel k v Q' E' Hk Hm. cbn [value4Loop].
    assert (Ek : (k <? (if 4 <? n then 4 else n)) = (k <? n))
      by (destruct (4 <? n) eqn:?; zcases; done || lia).
    rewrite Ek. destruct (k <? n) eqn:?; zbool.
    - wsteps. eapply wp_gindex; [apply zlookup_zget; lia|]. by rewrite <- (zget_slice _ _ n) by lia.
    - unfold d in Hm. by rewrite zget_out, Z.lor_0_r in Hm by (rewrite zlen_slice; lia). }
  unfold GetValue4BytesSafe. do 4 (apply Hget; [lia|]). cbn [value4Loop]. wsteps.
  change (0 + 1 + 1 + 1) with 3. change (0 + 1 + 1) with 2. change (0 + 1) with 1.
  pose proof (fun k => bytes_ok_zget d k Hd) as Hz.
  destruct (word_of_bytes (zget d 0) (zget d 1) (zget d 2) (zget d 3)) as [Hr Hbits]; [apply Hz..|].
  apply HQ; [exact Hr|]. intros i Hi. rewrite <- (zbit_bits 32) by lia. rewrite Hbits.
  pose proof (Z.div_mod i 8 ltac:(lia)) as Hdm. pose proof (Z.mod_pos_bound i 8 ltac:(lia)).
  assert (0 <= i / 8 < 4) by (split; [apply Z.div_pos|apply Z.div_lt_upper_bound]; lia).
  rewrite Hdm, !zbit_bytes by lia. f_equal.
  assert (i / 8 = 0 \/ i / 8 = 1 \/ i / 8 = 2 \/ i / 8 = 3) as [-> | [-> | [-> | ->]]] by lia; done.
Qed.

Lemma wp_DecInitBits buf off size s :
  bytes_ok buf -> 0 <= off -> 0 < size -> off + (size + 7) / 8 <= zlen buf ->
  wp (DecInitBits buf off size) s
     (fun _ s' => reads size s' (bytes_bits (zslice buf off ((size + 7) / 8))) 0) (fun _ _ => False).
Proof.
  intros Hb Ho Hs Hl. unfold DecInitBits. rewrite Z.shiftr_div_pow2 by lia. change (2 ^ 3) with 8.
  set (n := (size + 7) / 8) in *. assert (1 <= n) by (apply Z.div_le_lower_bound; lia).
  wsteps. unfold InitReadBits. wstep. wstep. bs_simpl. wstep; [zbool; lia|].
  rewrite (proj2 (Z.ltb_ge off 0)), (proj2 (Z.ltb_ge (zlen buf) off)) by lia. cbn [orb].
  replace (off + n - off - 0 - (off - off)) with n by lia. wsteps.
  apply wp_GetValue4BytesSafe; [done|lia..|]. intros v Hv Hbits. wsteps.
  constructor; bs_simpl; try lia; try done.
  - by replace (off + n - off) with n by lia.
  - intros i Hi. rewrite Hbits by lia. rewrite (proj2 (Z.ltb_lt _ _)) by lia. done.
Qed.

(** The number of trailing zeros that [BsGetTrailingBits] finds. *)
Lemma BsGetTrailingBits_spec b x k :
  is_u8 b -> bits 8 b = x ++ true :: replicate k false -> BsGetTrailingBits b = Z.of_nat k.
Proof.
  intros Hb Hx. unfold is_u8 in Hb.
  assert (Hk : (k < 8)%nat).
  { apply (f_equal length) in Hx. rewrite length_bits, length_app in Hx. cbn [length] in Hx.
    rewrite length_replicate in Hx. lia. }
  assert (Hall : forallb (fun b => forallb (fun k =>
     implb (bool_decide (drop (7 - k) (bits 8 (Z.of_nat b)) = true :: replicate k false))
           (BsGetTrailingBits (Z.of_nat b) =? Z.of_nat k)) (seq 0 8)) (seq 0 256) = true)
    by (vm_compute; reflexivity).
  rewrite forallb_forall in Hall. specialize (Hall (Z.to_nat b)). rewrite in_seq in Hall.
  specialize (Hall ltac:(lia)). rewrite forallb_forall in Hall. specialize (Hall k).
  rewrite in_seq, Z2Nat.id in Hall by lia. specialize (Hall ltac:(lia)).
  rewrite bool_decide_eq_true_2 in Hall; [cbn in Hall; by zbool|].
  rewrite Hx. apply (f_equal length) in Hx. rewrite length_bits, length_app in Hx. cbn [length] in Hx.
  rewrite length_replicate in Hx. replace (7 - k)%nat with (length x) by lia. apply drop_app_length.
Qed.

(** At the end of the elements only the stop bit is left. *)
Lemma CheckMoreRBSPData_spec ib s all p :
  reads ib s all p -> CheckMoreRBSPData s = (p + 1 <? ib).
Proof.
  intros [? ? ? ? [Hp ?] ? ? <-]. unfold CheckMoreRBSPData. rewrite Z.shiftl_mul_pow2 by lia.
  zcases; done || lia.
Qed.
