(* ===== verification/H264Syntax.v ===== *)
(** * Syntax elements from the encoder to the decoder

    A syntax element of an H.264 payload is a fixed number of bits or an
    unsigned, signed or truncated exp-Golomb code.  [write_elem] and
    [read_elem] are the calls the encoder and the decoder make for it.  The
    theorem of this file takes any sequence of elements through the writer,
    the stop bit of [BsRbspTrailingBits], the bytes, [DecInitBits] with the bit
    size the decoder computes, and the reader. *)

From S2P Require Import Prelude Bytes H264Bits H264BitsSpec H264ReadSpec.

Inductive elem : Type :=
| EBits (n v : Z)
| EUe (v : Z)
| ESe (k : Z)
| ETe (x v : Z).

(** The values for which both sides handle the code: at most 15 leading zeros,
    since the reader's cache may hold no more than 16 unread bits. *)
Definition elem_ok (e : elem) : Prop :=
  match e with
  | EBits n v => 1 <= n <= 16 /\ 0 <= v < 2 ^ n
  | EUe v => 0 <= v < 65535
  | ESe k => -32768 < k < 32768
  | ETe x v => 1 <= x /\ 0 <= v < 65535 /\ (x = 1 -> v <= 1)
  end.

Definition elem_bits (e : elem) : list bool :=
  match e with
  | EBits n v => bits (Z.to_nat n) v
  | EUe v => ueBits v
  | ESe k => ueBits (seNum k)
  | ETe x v => if x =? 1 then bits 1 (1 - v) else ueBits v
  end.

Definition elem_val (e : elem) : Z :=
  match e with EBits _ v | EUe v | ETe _ v => v | ESe k => k end.

Definition write_elem (e : elem) : BS unit :=
  match e with
  | EBits n v => BsWriteBits n v
  | EUe v => BsWriteUE v
  | ESe k => BsWriteSE k
  | ETe x v => BsWriteTE x v
  end.

(** The decoder knows the kind of the next element, not its value. *)
Definition read_elem (e : elem) : BS Z :=
  match e with
  | EBits n _ => BsGetBits n
  | EUe _ => BsGetUe
  | ESe _ => BsGetSe
  | ETe x _ => BsGetTe0 (x + 1)
  end.

Fixpoint write_elems (es : list elem) : BS unit :=
  match es with
  | [] => ret tt
  | e :: es => do! write_elem e in write_elems es
  end.

Fixpoint read_elems (es : list elem) : BS (list Z) :=
  match es with
  | [] => ret []
  | e :: es => let! v := read_elem e in let! vs := read_elems es in ret (v :: vs)
  end.

Definition elems_bits (es : list elem) : list bool := concat (map elem_bits es).

Lemma elems_bits_cons e es : elems_bits (e :: es) = elem_bits e ++ elems_bits es.
Proof. done. Qed.

Lemma elems_bits_app es1 es2 : elems_bits (es1 ++ es2) = elems_bits es1 ++ elems_bits es2.
Proof. unfold elems_bits. by rewrite map_app, concat_app. Qed.

Lemma zlen_ueBits v : 0 <= v -> zlen (ueBits v) = ueLen v.
Proof. intros. unfold ueBits, ueLen. rewrite zlen_bits. pose proof (Z.log2_nonneg (v + 1)). lia. Qed.

Lemma wp_write_elem cap s l e :
  writes cap s l -> elem_ok e -> zlen l + zlen (elem_bits e) + 32 <= 8 * cap ->
  wp (write_elem e) s (fun _ s' => writes cap s' (l ++ elem_bits e)) (fun _ _ => False).
Proof.
  intros W He Hroom.
  assert (Hue : forall v, 0 <= v < 65535 -> zlen l + zlen (ueBits v) + 32 <= 8 * cap ->
     wp (BsWriteUE v) s (fun _ s' => writes cap s' (l ++ ueBits v)) (fun _ _ => False)).
  { intros v Hv Hr. destruct (ueLen_range v Hv). rewrite zlen_ueBits in Hr by lia.
    unfold wp. rewrite BsWriteUE_eq by lia. apply (wp_BsWriteBits _ _ _ W); lia. }
  destruct e as [n v|v|k|x v]; cbn [elem_ok elem_bits write_elem] in *.
  - destruct He. apply (wp_BsWriteBits _ _ _ W); [lia..|]. rewrite zlen_bits in Hroom. lia.
  - by apply Hue.
  - assert (0 <= seNum k < 65535) by (unfold seNum; destruct (0 <? k) eqn:?; zbool; lia).
    specialize (Hue _ H Hroom). unfold wp in *. rewrite BsWriteUE_eq in Hue by lia.
    rewrite BsWriteSE_eq by lia. done.
  - destruct He as (Hx & Hv & Hx1). unfold BsWriteTE. rewrite Z.eqb_sym.
    destruct (x =? 1) eqn:E; zbool; [|by apply Hue].
    replace (if v =? 0 then 1 else 0) with (1 - v) by (destruct (v =? 0) eqn:?; zbool; lia).
    apply (wp_BsWriteBits _ _ _ W); [lia..|]. rewrite zlen_bits in Hroom. lia.
Qed.

Lemma wp_write_elems es : forall cap s l,
  writes cap s l -> Forall elem_ok es -> zlen l + zlen (elems_bits es) + 32 <= 8 * cap ->
  wp (write_elems es) s (fun _ s' => writes cap s' (l ++ elems_bits es)) (fun _ _ => False).
Proof.
  induction es as [|e es IH]; intros cap s l W Hok Hroom; cbn [write_elems].
  - wsteps. by rewrite app_nil_r.
  - apply list.Forall_cons in Hok as [He Hes]. rewrite elems_bits_cons, zlen_app in Hroom.
    pose proof (zlen_nonneg (elems_bits es)). wsteps.
    wcall (wp_write_elem _ _ _ e W He); [lia| |done]. intros [] s' W'. cbv beta in W'.
    wcall (IH _ _ _ W' Hes); [rewrite zlen_app; lia| |done].
    intros [] s'' W''. by rewrite <- app_assoc in W''.
Qed.

Lemma wp_read_elem ib s all p e rest :
  reads ib s all p -> elem_ok e -> drop (Z.to_nat p) all = elem_bits e ++ rest ->
  wp (read_elem e) s
     (fun x s' => x = elem_val e /\ reads ib s' all (p + zlen (elem_bits e)) /\
                  drop (Z.to_nat (p + zlen (elem_bits e))) all = rest) (fun _ _ => False).
Proof.
  intros R He Hd.
  destruct e as [n v|v|k|x v]; cbn [elem_ok elem_bits read_elem elem_val] in *.
  - destruct He. rewrite zlen_bits, Z2Nat.id by lia. by apply wp_BsGetBits.
  - rewrite zlen_ueBits by lia. by apply wp_BsGetUe.
  - rewrite zlen_ueBits by (unfold seNum; destruct (0 <? k) eqn:?; zbool; lia). by apply wp_BsGetSe.
  - destruct He as (Hx & Hv & Hx1).
    replace (zlen (if x =? 1 then bits 1 (1 - v) else ueBits v)) with (if x =? 1 then 1 else ueLen v)
      by (destruct (x =? 1); [done|by rewrite zlen_ueBits by lia]).
    by apply wp_BsGetTe0.
Qed.

Lemma wp_read_elems ib all es : forall s p rest,
  reads ib s all p -> Forall elem_ok es -> drop (Z.to_nat p) all = elems_bits es ++ rest ->
  wp (read_elems es) s
     (fun vs s' => vs = map elem_val es /\ reads ib s' all (p + zlen (elems_bits es)) /\
                   drop (Z.to_nat (p + zlen (elems_bits es))) all = rest) (fun _ _ => False).
Proof.
  induction es as [|e es IH]; intros s p rest R Hok Hd; cbn [read_elems].
  - wsteps. rewrite Z.add_0_r. done.
  - apply list.Forall_cons in Hok as [He Hes]. rewrite elems_bits_cons, <- app_assoc in Hd. wsteps.
    wcall (wp_read_elem _ _ _ _ e _ R He Hd); [|done]. intros x s' (-> & R' & Hd'). wsteps.
    wcall (IH _ _ _ R' Hes Hd'); [|done]. intros vs s'' (-> & R'' & Hd''). wsteps.
    rewrite elems_bits_cons, zlen_app, Z.add_assoc. done.
Qed.

(** ** From the payload's bytes back to its bits *)

(** The bit size that [ParseNonVclNal] and [ParseNalHeader] hand to
    [DecInitBits]: the trailing zeros of the last byte do not count. *)
Definition rbspBits (payload : list Z) : Z :=
  Z.shiftl (zlen payload) 3 - BsGetTrailingBits (zget payload (zlen payload - 1)).

Lemma rbspBits_spec payload l k :
  bytes_ok payload -> bytes_bits payload = l ++ true :: replicate k false -> (k < 8)%nat ->
  rbspBits payload = zlen l + 1 /\ (rbspBits payload + 7) / 8 = zlen payload.
Proof.
  intros Hok Hb Hk. destruct payload as [|b init _] using rev_ind.
  { apply (f_equal length) in Hb. rewrite length_app in Hb. cbn in Hb. lia. }
  pose proof (zlen_bytes_bits (init ++ [b])) as Hlen. rewrite Hb in Hlen.
  rewrite zlen_app, zlen_cons in Hlen. unfold zlen in Hlen at 2. rewrite length_replicate in Hlen.
  rewrite bytes_bits_app in Hb. change (bytes_bits [b]) with (bits 8 b ++ []) in Hb. rewrite app_nil_r in Hb.
  assert (Hx : exists x, bits 8 b = x ++ true :: replicate k false).
  { apply app_eq_inv in Hb as [(x & _ & Hx)|(x & _ & Hx)]; [|by exists x].
    exists []. assert (length x = 0)%nat as ->%nil_length_inv; [|done].
    apply (f_equal length) in Hx. rewrite length_app, length_bits in Hx. cbn [length] in Hx.
    rewrite length_replicate in Hx. lia. }
  destruct Hx as [x Hx].
  assert (Hlast : zget (init ++ [b]) (zlen (init ++ [b]) - 1) = b).
  { rewrite zget_app, zlen_app. change (zlen [b]) with 1.
    rewrite (proj2 (Z.ltb_ge _ _)) by lia. replace (zlen init + 1 - 1 - zlen init) with 0 by lia. done. }
  assert (is_u8 b) by (apply Forall_app in Hok as [_ Hb1]; by apply list.Forall_cons in Hb1 as [? _]).
  assert (Hs : rbspBits (init ++ [b]) = zlen l + 1).
  { unfold rbspBits. rewrite Hlast, (BsGetTrailingBits_spec b x k), Z.shiftl_mul_pow2 by (done || lia). lia. }
  split; [done|]. rewrite Hs. symmetry. apply Z.div_unique with (7 - Z.of_nat k); lia.
Qed.

Lemma pad8_short l : exists k, pad8 l = replicate k false /\ (k < 8)%nat.
Proof. exists (Z.to_nat (- zlen l mod 8)). split; [done|]. pose proof (Z.mod_pos_bound (- zlen l) 8). lia. Qed.

(** What the encoder has written of a payload, as bytes. *)
Definition written (s : SBitStringAux) : list Z :=
  zslice (PBuf s) (PStartBuf s) (PCurBuf s - PStartBuf s).

Lemma writes_bytes cap s l :
  writes cap s l -> ILeftBits s = 32 -> bytes_bits (written s) = l /\ bytes_ok (written s).
Proof.
  intros [? ? ? ? ? Hb <-] El. rewrite El. cbn [Z.sub Z.opp Z.add Z.pos_sub Z.to_nat bits].
  rewrite app_nil_r. split; [done|]. by apply bytes_ok_slice.
Qed.

Lemma wp_read_payload payload l k rbuf roff s :
  bytes_ok rbuf -> 0 <= roff -> roff + zlen payload <= zlen rbuf ->
  zslice rbuf roff (zlen payload) = payload ->
  bytes_bits payload = l ++ true :: replicate k false -> (k < 8)%nat ->
  wp (DecInitBits rbuf roff (rbspBits payload)) s
     (fun _ s' => reads (zlen l + 1) s' (l ++ true :: replicate k false) 0) (fun _ _ => False).
Proof.
  intros Hb Ho Hl Hp Hbits Hk. assert (Hpo : bytes_ok payload) by (rewrite <- Hp; by apply bytes_ok_slice).
  destruct (rbspBits_spec payload l k Hpo Hbits Hk) as [Hs Hd].
  pose proof (zlen_nonneg l). wcall (wp_DecInitBits rbuf roff (rbspBits payload) s); [done|lia|lia|lia| |done].
  intros [] s' R. cbv beta in R. by rewrite Hd, Hp, Hs, Hbits in R.
Qed.

(** C11: every sequence of syntax elements (fixed-length codes of up to 16 bits and
    the Exp-Golomb codes of values below 65535) written into a buffer with room
    for it and closed by the trailing bits is written without an error; wherever
    its bytes stand in a buffer of the decoder, [DecInitBits] and the readers
    give the values back, and no more data is left before the stop bit. *)
Theorem elements_roundtrip es buf off cap s0 rbuf roff s2 :
  Forall elem_ok es -> bytes_ok buf -> 0 <= off -> zlen buf = off + cap ->
  zlen (elems_bits es) + 33 <= 8 * cap ->
  bytes_ok rbuf -> 0 <= roff ->
  exists s1,
    (do! InitBits buf off cap in do! write_elems es in BsRbspTrailingBits) s0 = (Ok tt, s1) /\
    (roff + zlen (written s1) <= zlen rbuf -> zslice rbuf roff (zlen (written s1)) = written s1 ->
     exists s3,
       (do! DecInitBits rbuf roff (rbspBits (written s1)) in read_elems es) s2
         = (Ok (map elem_val es), s3) /\
       CheckMoreRBSPData s3 = false).
Proof.
  intros Hok Hbuf Hoff Hcap Hroom Hrb Hro. pose proof (zlen_nonneg (elems_bits es)).
  assert (Hw : wp (do! InitBits buf off cap in do! write_elems es in BsRbspTrailingBits) s0
     (fun _ s1 => bytes_bits (written s1) = elems_bits es ++ [true] ++ pad8 (elems_bits es ++ [true]))
     (fun _ _ => False)).
  { wsteps. wcall (writes_init cap buf off cap s0); [done|lia..|done| |done].
    intros _ s1 (W1 & _ & _). wsteps.
    wcall (wp_write_elems es _ _ _ W1 Hok); [rewrite zlen_nil; lia| |done].
    intros [] s2' W2. cbn [app] in W2. wcall (wp_BsRbspTrailingBits _ _ _ W2); [lia| |done].
    intros [] s3 [W3 E3]. by apply (writes_bytes _ _ _ W3 E3). }
  destruct (wp_Ok _ _ _ Hw) as ([] & s1 & Hrun & Hbits). clear Hw. exists s1. split; [done|].
  intros Hr Hp. destruct (pad8_short (elems_bits es ++ [true])) as (k & Hk & Hk8). rewrite Hk in Hbits.
  assert (Hread : wp (do! DecInitBits rbuf roff (rbspBits (written s1)) in read_elems es) s2
     (fun vs s3 => vs = map elem_val es /\ CheckMoreRBSPData s3 = false) (fun _ _ => False)).
  { wsteps. wcall (wp_read_payload (written s1) _ k rbuf roff s2 Hrb Hro Hr Hp Hbits Hk8); [|done].
    intros [] s3 R3. cbv beta in R3.
    wcall (wp_read_elems _ _ es _ _ _ R3 Hok eq_refl); [|done].
    intros vs s4 (-> & R4 & _). split; [done|]. rewrite (CheckMoreRBSPData_spec _ _ _ _ R4).
    apply Z.ltb_ge. lia. }
  destruct (wp_Ok _ _ _ Hread) as (vs & s3 & Hrun2 & -> & ?). by exists s3.
Qed.

Lemma elements_roundtrip_witness :
  exists s3,
    (do! DecInitBits [160; 164; 123; 128] 0 25 in read_elems [EBits 3 5; EUe 40; ESe (-7); ETe 3 2])
      (mkBs [] 0 0 0 0 0 0) = (Ok [5; 40; -7; 2], s3) /\ CheckMoreRBSPData s3 = false.
Proof.
  destruct (elements_roundtrip [EBits 3 5; EUe 40; ESe (-7); ETe 3 2] (replicate 12 0) 0 12 (mkBs [] 0 0 0 0 0 0)
    [160; 164; 123; 128] 0 (mkBs [] 0 0 0 0 0 0)) as (s1 & Hw & Hr).
  - repeat constructor; cbn; lia.
  - by apply Forall_replicate.
  - lia.
  - reflexivity.
  - vm_compute. discriminate.
  - repeat constructor; unfold is_u8; lia.
  - lia.
  - vm_compute in Hw. injection Hw as <-. apply Hr; [vm_compute; discriminate|reflexivity].
Defined.
