(* ===== verification/H264Nal.v ===== *)
(** * H.264 network abstraction layer units

    The encoder wraps a payload into a NAL unit: a start code, a header and the
    payload with emulation-prevention bytes (internal/encoder/nal_encap.go).
    The decoder finds the start codes of a byte stream, takes the prevention
    bytes out into its raw-data buffer and hands every unit on
    (internal/decoder/decoder.go [WelsDecodeBs], internal/decoder/au_parser.go
    [DetectStartCodePrefix], [ParseNalHeader]).

    What the decoder does with a unit once it is in the buffer (parsing,
    reconstruction of access units) is an argument of [WelsDecodeBs]:
    [onNal last nal (err, ctx)] returns a status to leave with or [None] to go
    on, and the error code and context it leaves. *)

From S2P Require Import Prelude Bytes H264Bits.

Definition NAL_UNIT_SPS : Z := 7.
Definition NAL_UNIT_PPS : Z := 8.
Definition NAL_UNIT_PREFIX : Z := 14.
Definition NAL_UNIT_SUBSET_SPS : Z := 15.
Definition NAL_UNIT_CODED_SLICE_EXT : Z := 20.

Record SNalUnitHeader := mkNalHeader {
  UiForbiddenZeroBit : Z;
  UiNalRefIdc : Z;
  ENalUnitType : Z
}.

(** The fields of the scalable extension that the encoder writes or the
    decoder reads. *)
Record SNalUnitHeaderExt := mkNalHeaderExt {
  BIdrFlag : bool;
  UiPriorityId : Z;
  INoInterLayerPredFlag : Z;
  UiDependencyId : Z;
  UiQualityId : Z;
  UiTemporalId : Z;
  BUseRefBasePicFlag : bool;
  BDiscardableFlag : bool;
  BOutputFlag : bool;
  UiReservedThree2Bits : Z;
  UiLayerDqId : Z
}.

(** ** The encoder *)

Module Encoder.

Record SWelsNalRaw := mkNalRaw {
  pRawData : list Z;
  iPayloadSize : Z;
  sNalHeader : SNalUnitHeader
}.

Definition ENC_RETURN_SUCCESS : Z := 0.
Definition ENC_RETURN_MEMALLOCERR : Z := 1.
Definition ENC_RETURN_UNEXPECTED : Z := 4.

(** [pDst[i] = b] *)
Definition put (i b : Z) : M (list Z) unit := fun d =>
  if (0 <=? i) && (i <? zlen d) then (Ok tt, zinsert i b d) else (Panic, d).

Definition nalB2U8 (b : bool) : Z := if b then 1 else 0.

(** The loop over the payload: [iDst] is the position in the destination. *)
Fixpoint escapeLoop (pSrc : list Z) (iDst iZeroCount : Z) : M (list Z) Z :=
  match pSrc with
  | [] => ret iDst
  | b :: pSrc =>
      let! (iDst, iZeroCount) :=
        (if (iZeroCount =? 2) && (b <=? 3) then
           do! put iDst 3 in ret (iDst + 1, 0)
         else ret (iDst, iZeroCount)) in
      let iZeroCount := if b =? 0 then iZeroCount + 1 else 0 in
      do! put iDst b in
      escapeLoop pSrc (iDst + 1) iZeroCount
  end.

(** The header byte and, for the units that have it, the three bytes of the
    scalable extension. *)
Definition nalHeaderByte (h : SNalUnitHeader) : Z :=
  u8 (Z.lor (Z.shiftl (UiNalRefIdc h) 5) (Z.land (ENalUnitType h) 0x1f)).

Definition nalExtBytes (e : SNalUnitHeaderExt) : list Z :=
  [ Z.lor 0x80 (u8 (Z.shiftl (nalB2U8 (BIdrFlag e)) 6));
    Z.lor 0x80 (u8 (Z.shiftl (UiDependencyId e) 4));
    Z.lor (Z.lor (u8 (Z.shiftl (UiTemporalId e) 5)) (u8 (Z.shiftl (nalB2U8 (BDiscardableFlag e)) 3))) 0x07 ].

Definition kbNALExt (h : SNalUnitHeader) : bool :=
  (ENalUnitType h =? NAL_UNIT_PREFIX) || (ENalUnitType h =? NAL_UNIT_CODED_SLICE_EXT).

Fixpoint putAll (i : Z) (l : list Z) : M (list Z) unit :=
  match l with
  | [] => ret tt
  | b :: l => do! put i b in putAll (i + 1) l
  end.

(** The return code and the length of the unit.  A unit of an extended type
    dereferences [pNalHeaderExt]; the payload is [pRawData[:iPayloadSize]]. *)
Definition WelsEncodeNal (pRawNal : SWelsNalRaw) (pNalHeaderExt : option SNalUnitHeaderExt)
    (kiDstBufferLen : Z) : M (list Z) (Z * option Z) :=
  let h := sNalHeader pRawNal in
  let iExt := if kbNALExt h then 3 else 0 in
  let iAssumedNeededLength := 4 + iExt + iPayloadSize pRawNal + 1 in
  if iAssumedNeededLength <=? 0 then ret (ENC_RETURN_UNEXPECTED, None)
  else if kiDstBufferLen <? iAssumedNeededLength + Z.shiftr iAssumedNeededLength 1 then
    ret (ENC_RETURN_MEMALLOCERR, None)
  else if (iPayloadSize pRawNal <? 0) || (zlen (pRawData pRawNal) <? iPayloadSize pRawNal) then panic
  else
    let pSrc := zslice (pRawData pRawNal) 0 (iPayloadSize pRawNal) in
    do! putAll 0 [0; 0; 0; 1] in
    do! put 4 (nalHeaderByte h) in
    let! iDst :=
      (if kbNALExt h then
         match pNalHeaderExt with
         | None => panic
         | Some e => do! putAll 5 (nalExtBytes e) in ret 8
         end
       else ret 5) in
    let! iDst := escapeLoop pSrc iDst 0 in
    ret (ENC_RETURN_SUCCESS, Some iDst).

End Encoder.

(** ** The decoder *)

Module Decoder.

Definition DsBitstreamError : Z := 0x04.
Definition DsOutOfMemory : Z := 0x4000.

(** The inner loop of [DetectStartCodePrefix]: skip zeros from [pBits]. *)
Fixpoint skipZeros (fuel : nat) (kpBuf : list Z) (pBits iIdx iBufSize : Z) : option (Z * Z) :=
  match fuel with
  | O => None
  | S fuel' =>
      if iIdx <? iBufSize then
        match zlookup kpBuf pBits with
        | None => None
        | Some b => if b =? 0 then skipZeros fuel' kpBuf (pBits + 1) (iIdx + 1) iBufSize
                    else Some (pBits, iIdx)
        end
      else Some (pBits, iIdx)
  end.

(** [Some None] is the nil result, [Some (Some offset)] a start code that ends
    before [offset]; [None] is an index out of range or a loop of the model
    that did not end. *)
Fixpoint detectLoop (fuel : nat) (kpBuf : list Z) (pBits iBufSize : Z) : option (option Z) :=
  match fuel with
  | O => None
  | S fuel' =>
      match skipZeros (S (length kpBuf)) kpBuf pBits 0 iBufSize with
      | None => None
      | Some (pBits, iIdx) =>
          if iBufSize <=? iIdx then Some None
          else
            let iIdx := iIdx + 1 in
            let pBits := pBits + 1 in
            match zlookup kpBuf (pBits - 1) with
            | None => None
            | Some b => if (3 <=? iIdx) && (b =? 1) then Some (Some pBits)
                        else detectLoop fuel' kpBuf pBits (iBufSize - iIdx)
            end
      end
  end.

Definition DetectStartCodePrefix (kpBuf : list Z) (iBufSize : Z) : option (option Z) :=
  detectLoop (S (length kpBuf)) kpBuf 0 iBufSize.

(** The decoder's own escaping, used when it rewrites a parameter set. *)
Fixpoint rbspLoop (fuel : nat) (pSrcBuf : list Z) (iSrc iSrcEnd iDst iZeroCount : Z) : M (list Z) unit :=
  if iSrc <? iSrcEnd then
    match fuel with
    | O => fun s => (OutOfFuel, s)
    | S fuel' =>
        let! b := gindex pSrcBuf iSrc in
        let! (iDst, iZeroCount) :=
          (if (iZeroCount =? 2) && (b <=? 3) then
             do! Encoder.put iDst 3 in ret (iDst + 1, 0)
           else ret (iDst, iZeroCount)) in
        let iZeroCount := if b =? 0 then iZeroCount + 1 else 0 in
        do! Encoder.put iDst b in
        rbspLoop fuel' pSrcBuf (iSrc + 1) iSrcEnd (iDst + 1) iZeroCount
    end
  else ret tt.

Definition RBSP2EBSP (pSrcBuf : list Z) (kiSize : Z) : M (list Z) unit :=
  rbspLoop (Z.to_nat kiSize) pSrcBuf 0 kiSize 0 0.

(** The three bytes of the scalable extension header. *)
Definition DecodeNalHeaderExt (pSrc : list Z) : option SNalUnitHeaderExt :=
  c0 ← zlookup pSrc 0;
  c1 ← zlookup pSrc 1;
  c2 ← zlookup pSrc 2;
  let uiDependencyId := Z.shiftr (Z.land c1 0x70) 4 in
  let uiQualityId := Z.land c1 0x0F in
  Some (mkNalHeaderExt (has_bits c0 0x40) (Z.land c0 0x3F) (i8 (Z.shiftr c1 7)) uiDependencyId
          uiQualityId (Z.shiftr c2 5) (has_bits c2 0x10) (has_bits c2 0x08) (has_bits c2 0x04)
          (Z.land c2 0x03) (Z.lor (u8 (Z.shiftl uiDependencyId 4)) uiQualityId)).

(** The raw-data buffer. *)
Record SDataBuffer := mkDataBuffer { pHead : list Z; pEnd : Z; pCurPos : Z }.

#[export] Instance eta_SDataBuffer : Settable SDataBuffer := fun r =>
  mkDataBuffer (pHead r) (pEnd r) (pCurPos r).

Section DecodeBs.
Context {C : Type}.
(** What the decoder does with a unit. *)
Context (onNal : bool -> list Z -> Z * C -> option Z * (Z * C)).
(** The units that wait in the access unit: where the bit reader of each starts
    in the raw-data buffer, [None] for one that reads another buffer. *)
Context (queuedStarts : C -> list (option Z)).

(** No unit that waits starts in the first [iNewBytes] bytes of the buffer. *)
Definition RawDataWrapIsClean (c : C) (iNewBytes : Z) : bool :=
  forallb (fun start => match start with
                        | Some pStartBuf => negb ((0 <=? pStartBuf) && (pStartBuf <? iNewBytes))
                        | None => true
                        end) (queuedStarts c).

Record decState := mkDec { sRawData : SDataBuffer; iErrorCode : Z; ctx : C }.

#[export] Instance eta_decState : Settable decState := fun r =>
  mkDec (sRawData r) (iErrorCode r) (ctx r).

Definition D := M decState.

(** [pDst[i] = b] on the raw-data buffer. *)
Definition putRaw (i b : Z) : D unit :=
  let! s := gget in
  if (0 <=? i) && (i <? zlen (pHead (sRawData s)))
  then gupd (fun s => s <| sRawData := sRawData s <| pHead := zinsert i b (pHead (sRawData s)) |> |>)
  else panic.

(** The loop's variables. *)
Record scan := mkScan {
  pSrcNal : Z; iSrcIdx : Z; iSrcConsumed : Z; pDstNal : Z; iDstIdx : Z; bNalStartBytes : bool
}.

#[export] Instance eta_scan : Settable scan := fun v =>
  mkScan (pSrcNal v) (iSrcIdx v) (iSrcConsumed v) (pDstNal v) (iDstIdx v) (bNalStartBytes v).

(** Hand the unit at [pDstNal] on. *)
Definition emitNal (last : bool) (v : scan) : D (option Z) :=
  let! s := gget in
  let '(r, (e, c)) := onNal last (zslice (pHead (sRawData s)) (pDstNal v) (iDstIdx v))
                            (iErrorCode s, ctx s) in
  do! gupd (fun s => s <| iErrorCode := e |> <| ctx := c |>) in
  ret r.

(** [pDst[d], ..., pDst[d+3] = 0] *)
Definition putZeros4 (d : Z) : D unit :=
  do! putRaw d 0 in do! putRaw (d + 1) 0 in do! putRaw (d + 2) 0 in putRaw (d + 3) 0.

Definition bitstreamError : D (scan + Z) :=
  do! gupd (fun s => s <| iErrorCode := Z.lor (iErrorCode s) DsBitstreamError |>) in
  let! s := gget in ret (inr (iErrorCode s)).

(** The end of a unit: a start code was met. *)
Definition endNal (iSrcLength : Z) (v : scan) : D (scan + Z) :=
  do! putZeros4 (pDstNal v + iDstIdx v) in
  let! r := emitNal false v in
  match r with
  | Some code => ret (inr code)
  | None =>
      let pDstNal' := pDstNal v + (iDstIdx v + 4) in
      let! s := gget in
      let next p := v <| bNalStartBytes := false |> <| pDstNal := p |>
                      <| pSrcNal := pSrcNal v + (iSrcIdx v + 3) |>
                      <| iSrcConsumed := iSrcConsumed v + 3 |>
                      <| iSrcIdx := 0 |> <| iDstIdx := 0 |> in
      if pEnd (sRawData s) - pDstNal' <? iSrcLength - iSrcConsumed v + 4 then
        if negb (RawDataWrapIsClean (ctx s) (iSrcLength - iSrcConsumed v + 4)) then
          do! gupd (fun s => s <| iErrorCode := Z.lor (iErrorCode s) DsOutOfMemory |>) in
          let! s := gget in ret (inr (iErrorCode s))
        else
          do! gupd (fun s => s <| sRawData := sRawData s <| pCurPos := 0 |> |>) in
          ret (inl (next 0))
      else
        do! gupd (fun s => s <| sRawData := sRawData s <| pCurPos := pDstNal' |> |>) in
        ret (inl (next pDstNal'))
  end.

(** One round of the loop of [WelsDecodeBs]; [inr] leaves the function. *)
Definition scanStep (kpBsBuf : list Z) (iSrcLength : Z) (v : scan) : D (scan + Z) :=
  let at_ k := gindex kpBsBuf (pSrcNal v + k + iSrcIdx v) in
  let copyByte (v' : scan) : D (scan + Z) :=
    let! b := at_ 0 in
    do! putRaw (pDstNal v + iDstIdx v) b in
    ret (inl (v' <| iDstIdx := iDstIdx v + 1 |> <| iSrcIdx := iSrcIdx v + 1 |>
                 <| iSrcConsumed := iSrcConsumed v + 1 |>)) in
  if 2 + iSrcConsumed v <? iSrcLength then
    let! b0 := at_ 0 in
    let! b1 := at_ 1 in
    let! b2 := at_ 2 in
    if (b0 =? 0) && (b1 =? 0) && (b2 <=? 3) then
      if bNalStartBytes v && negb (b2 =? 0) && negb (b2 =? 1) then bitstreamError
      else if b2 =? 2 then bitstreamError
      else if b2 =? 0 then copyByte (v <| bNalStartBytes := true |>)
      else if b2 =? 3 then
        let! v' :=
          (let! skip := (if 3 + iSrcConsumed v <? iSrcLength
                         then let! b3 := at_ 3 in ret (3 <? b3) else ret false) in
           if skip then ret v
           else
             do! putRaw (pDstNal v + iDstIdx v) 0 in
             do! putRaw (pDstNal v + iDstIdx v + 1) 0 in
             ret (v <| iDstIdx := iDstIdx v + 2 |>)) in
        ret (inl (v' <| iSrcIdx := iSrcIdx v + 3 |> <| iSrcConsumed := iSrcConsumed v + 3 |>))
      else endNal iSrcLength v
    else copyByte v
  else copyByte v.

Fixpoint scanLoop (fuel : nat) (kpBsBuf : list Z) (iSrcLength : Z) (v : scan) : D (scan + Z) :=
  if iSrcConsumed v <? iSrcLength then
    match fuel with
    | O => fun s => (OutOfFuel, s)
    | S fuel' =>
        let! r := scanStep kpBsBuf iSrcLength v in
        match r with
        | inl v' => scanLoop fuel' kpBsBuf iSrcLength v'
        | inr code => ret (inr code)
        end
    end
  else ret (inl v).

(** [WelsDecodeBs] on a stream that is not at its end, without the parse-only
    mode.  The wrap-around of the buffer at entry and the scan; each round
    consumes a byte of the source, so its length bounds the rounds. *)
Definition WelsDecodeBs (kpBsBuf : list Z) (kiBsLen : Z) : D Z :=
  match DetectStartCodePrefix kpBsBuf kiBsLen with
  | None => panic
  | Some None =>
      do! gupd (fun s => s <| iErrorCode := Z.lor (iErrorCode s) DsBitstreamError |>) in
      ret DsBitstreamError
  | Some (Some iOffset) =>
      let iSrcLength := kiBsLen - iOffset in
      let! s := gget in
      let wrap := pEnd (sRawData s) - pCurPos (sRawData s) <? kiBsLen + 4 in
      if wrap && negb (RawDataWrapIsClean (ctx s) (kiBsLen + 4)) then
        do! gupd (fun s => s <| iErrorCode := Z.lor (iErrorCode s) DsOutOfMemory |>) in
        let! s := gget in ret (iErrorCode s)
      else
        do! (if wrap then gupd (fun s => s <| sRawData := sRawData s <| pCurPos := 0 |> |>)
             else ret tt) in
        let! s := gget in
        let! r := scanLoop (Z.to_nat iSrcLength) kpBsBuf iSrcLength
                    (mkScan iOffset 0 0 (pCurPos (sRawData s)) 0 false) in
        match r with
        | inr code => ret code
        | inl v =>
            do! putZeros4 (pDstNal v + iDstIdx v) in
            do! gupd (fun s => s <| sRawData := sRawData s
                                      <| pCurPos := pDstNal v + iDstIdx v + 4 |> |>) in
            let! r := emitNal true v in
            match r with
            | Some code => ret code
            | None => let! s := gget in ret (iErrorCode s)
            end
        end
  end.

End DecodeBs.
End Decoder.
