(* ===== verification/H264NalSpec.v ===== *)
(** * From the payload to the NAL unit and back

    [escape] is the list the encoder's loop writes and [unescape] the list the
    decoder's loop recovers; the theorems connect the encoder's units with what
    the decoder hands on, and show that the decoder scans any byte string
    without leaving its buffer. *)

From S2P Require Import Prelude Bytes H264Bits H264Nal.
Import Encoder Decoder.

(** ** Emulation prevention *)

Fixpoint escape (zeros_ : Z) (l : list Z) : list Z :=
  match l with
  | [] => []
  | b :: l =>
      if (zeros_ =? 2) && (b <=? 3) then 3 :: b :: escape (if b =? 0 then 1 else 0) l
      else b :: escape (if b =? 0 then zeros_ + 1 else 0) l
  end.

(** At most one byte in two is added. *)
Lemma escape_length l : forall z,
  0 <= z <= 2 -> 2 * zlen (escape z l) <= 3 * zlen l + z.
Proof.
  induction l as [|b l IH]; intros z Hz; cbn [escape]; [autorewrite with golen; lia|].
  destruct ((z =? 2) && (b <=? 3)) eqn:E; zbool; autorewrite with golen.
  - destruct (b =? 0); [specialize (IH 1)|specialize (IH 0)]; lia.
  - destruct (b =? 0) eqn:Eb; zbool.
    + specialize (IH (z + 1)). destruct (z =? 2) eqn:Ez; zbool; [|lia]. subst.
      apply andb_false_iff in E as [E|E]; zbool; [done|lia].
    + specialize (IH 0). lia.
Qed.

(** Two zeros are never followed by a byte below 3: neither a start code nor a
    reserved pattern occurs. *)
Fixpoint noEmulation (l : list Z) : bool :=
  match l with
  | [] => true
  | a :: tl =>
      match tl with
      | b :: c :: _ => negb ((a =? 0) && (b =? 0) && (c <? 3))
      | _ => true
      end && noEmulation tl
  end.

Lemma noEmulation_cons a l : a <> 0 -> noEmulation (a :: l) = noEmulation l.
Proof.
  intros Ha. cbn [noEmulation]. rewrite (proj2 (Z.eqb_neq a 0)) by done.
  by destruct l as [|? [|? ?]].
Qed.

Lemma noEmulation_cons2 a b l : b <> 0 -> noEmulation (a :: b :: l) = noEmulation l.
Proof.
  intros Hb. rewrite <- (noEmulation_cons b l Hb). cbn [noEmulation].
  rewrite (proj2 (Z.eqb_neq b 0)), andb_false_r by done. by destruct l as [|? [|? ?]].
Qed.

Lemma noEmulation_cons3 a b c l : 3 <= c -> noEmulation (a :: b :: c :: l) = noEmulation l.
Proof.
  intros Hc. rewrite <- (noEmulation_cons2 b c l) by lia. cbn [noEmulation].
  rewrite (proj2 (Z.ltb_ge c 3)), andb_false_r by done. done.
Qed.

Lemma escape_noEmulation l : bytes_ok l -> forall z,
  0 <= z <= 2 -> noEmulation (zeros z ++ escape z l) = true.
Proof.
  induction l as [|b l IH]; intros Hok z Hz.
  { assert (z = 0 \/ z = 1 \/ z = 2) as [-> | [-> | ->]] by lia; done. }
  apply list.Forall_cons in Hok as [Hb Hok]. unfold is_u8 in Hb. specialize (IH Hok). cbn [escape].
  pose proof (IH 0 ltac:(lia)) as IH0. pose proof (IH 1 ltac:(lia)) as IH1. pose proof (IH 2 ltac:(lia)) as IH2.
  change (zeros 0) with (@nil Z) in *. change (zeros 1) with [0] in *. change (zeros 2) with [0; 0] in *.
  cbn [app] in *.
  assert (z = 0 \/ z = 1 \/ z = 2) as [-> | [-> | ->]] by lia.
  - change (zeros 0) with (@nil Z). cbn [app Z.eqb andb].
    destruct (b =? 0) eqn:E; zbool; [by subst|]. by rewrite noEmulation_cons.
  - change (zeros 1) with [0]. cbn [app Z.eqb Pos.eqb andb].
    destruct (b =? 0) eqn:E; zbool; [by subst|]. by rewrite noEmulation_cons2.
  - change (zeros 2) with [0; 0]. cbn [app Z.eqb Pos.eqb andb]. destruct (b <=? 3) eqn:E3; zbool.
    + rewrite noEmulation_cons3 by lia. destruct (b =? 0) eqn:E; zbool; [by subst|].
      by rewrite noEmulation_cons.
    + rewrite (proj2 (Z.eqb_neq b 0)), noEmulation_cons3 by lia. done.
Qed.

(** ** The scan of the decoder on lists *)

Inductive absRes : Type :=
| AGo (start : bool) (nal rem : list Z)
| ANal (nal rem : list Z)
| AErr.

(** One round of the loop: [nal] is the unit collected so far, [rem] the bytes
    not yet consumed. *)
Definition absStep (start : bool) (nal rem : list Z) : absRes :=
  match rem with
  | a :: b :: c :: tl =>
      if (a =? 0) && (b =? 0) && (c <=? 3) then
        if start && negb (c =? 0) && negb (c =? 1) then AErr
        else if c =? 2 then AErr
        else if c =? 0 then AGo true (nal ++ [a]) (b :: c :: tl)
        else if c =? 3 then
          AGo start (if match tl with d :: _ => 3 <? d | [] => false end then nal else nal ++ [0; 0]) tl
        else ANal nal tl
      else AGo start (nal ++ [a]) (b :: c :: tl)
  | a :: tl => AGo start (nal ++ [a]) tl
  | [] => AErr
  end.

(** A sequence of rounds within one unit. *)
Inductive asteps : bool * list Z * list Z -> bool * list Z * list Z -> Prop :=
| asteps_refl c : asteps c c
| asteps_step st nal rem st' nal' rem' c :
    absStep st nal rem = AGo st' nal' rem' -> asteps (st', nal', rem') c ->
    asteps (st, nal, rem) c.

Lemma asteps_trans c1 c2 c3 : asteps c1 c2 -> asteps c2 c3 -> asteps c1 c3.
Proof. induction 1; [done|]. intros. eapply asteps_step; eauto. Qed.

Lemma asteps_copy st nal a tl c :
  a <> 0 -> asteps (st, nal ++ [a], tl) c -> asteps (st, nal, a :: tl) c.
Proof.
  intros Ha Hc. eapply asteps_step; [|exact Hc]. unfold absStep.
  destruct tl as [|b [|c' tl]]; [done..|]. by rewrite (proj2 (Z.eqb_neq a 0)).
Qed.

Lemma asteps_copy2 st nal a b tl c :
  b <> 0 -> asteps (st, nal ++ [a; b], tl) c -> asteps (st, nal, a :: b :: tl) c.
Proof.
  intros Hb Hc. eapply asteps_step with (st' := st) (nal' := nal ++ [a]) (rem' := b :: tl).
  - unfold absStep. destruct tl as [|c' tl]; [done|].
    rewrite (proj2 (Z.eqb_neq b 0)), andb_false_r by done. done.
  - apply asteps_copy; [done|]. by rewrite <- app_assoc.
Qed.

(** A list whose last byte, if any, is not zero. *)
Definition endsNonzero (l : list Z) : Prop := forall l' b, l = l' ++ [b] -> b <> 0.

Lemma endsNonzero_tail a l : endsNonzero (a :: l) -> endsNonzero l.
Proof. intros H l' b ->. by apply (H (a :: l') b). Qed.

(** The scan takes the prevention bytes out again. *)
Lemma asteps_unescape n : forall l nal tail,
  (length l <= n)%nat -> bytes_ok l -> endsNonzero l ->
  asteps (false, nal, escape 0 l ++ tail) (false, nal ++ l, tail).
Proof.
  induction n as [|n IH]; intros l nal tail Hn Hok Hend.
  { destruct l; [|cbn in Hn; lia]. rewrite app_nil_r. apply asteps_refl. }
  destruct l as [|a l]; [rewrite app_nil_r; apply asteps_refl|].
  apply list.Forall_cons in Hok as [Ha Hok]. cbn [length] in Hn. cbn [escape Z.eqb andb].
  pose proof (endsNonzero_tail _ _ Hend) as Hend1.
  destruct (a =? 0) eqn:Ea; zbool.
  2:{ apply asteps_copy; [done|]. replace (nal ++ a :: l) with ((nal ++ [a]) ++ l) by (by rewrite <- app_assoc). apply IH; [lia|done..]. }
  subst a. destruct l as [|b l]; [by destruct (Hend [] 0)|].
  apply list.Forall_cons in Hok as [Hb Hok]. cbn [length] in Hn. cbn [escape]. change (0 + 1 =? 2) with false. cbn [andb app].
  pose proof (endsNonzero_tail _ _ Hend1) as Hend2.
  destruct (b =? 0) eqn:Eb; zbool.
  2:{ apply asteps_copy2; [done|]. replace (nal ++ 0 :: b :: l) with ((nal ++ [0; b]) ++ l) by (by rewrite <- app_assoc). apply IH; [lia|done..]. }
  subst b. destruct l as [|c l]; [by destruct (Hend [0] 0)|].
  cbn [length] in Hn. cbn [escape]. change (0 + 1 + 1 =? 2) with true. cbn [andb app].
  replace (nal ++ 0 :: 0 :: c :: l) with ((nal ++ [0; 0]) ++ c :: l) by (by rewrite <- app_assoc). destruct (c <=? 3) eqn:Ec; zbool.
  - eapply asteps_step with (st' := false) (nal' := nal ++ [0; 0]).
    + cbn [absStep app]. rewrite (proj2 (Z.ltb_ge 3 c)) by lia. reflexivity.
    + specialize (IH (c :: l) (nal ++ [0; 0]) tail). cbn [escape Z.eqb andb app] in IH.
      apply IH; [cbn; lia|done..].
  - rewrite (proj2 (Z.eqb_neq c 0)) by lia. eapply asteps_step with (st' := false) (nal' := nal ++ [0]).
    + cbn [absStep app]. rewrite (proj2 (Z.leb_gt c 3)), andb_false_r by lia. reflexivity.
    + apply list.Forall_cons in Hok as [Hc Hok].
      apply asteps_copy2; [lia|]. specialize (IH l (nal ++ [0; 0; c]) tail).
      rewrite <- !app_assoc in IH. rewrite <- !app_assoc. apply IH; [lia|done|].
      by eapply endsNonzero_tail.
Qed.

(** ** What the encoder writes *)

Lemma zwrite_cons (d : list Z) i b l :
  0 <= i -> i + 1 + zlen l <= zlen d -> zwrite (zinsert i b d) (i + 1) l = zwrite d i (b :: l).
Proof.
  intros Hi Hl. pose proof (zlen_nonneg l). apply zlist_eq.
  - rewrite !zlen_write, zlen_insert, zlen_cons by lia.
    destruct (zlen l =? 0) eqn:?, (1 + zlen l =? 0) eqn:?; zbool; lia.
  - rewrite zlen_write, zlen_insert by lia. intros j Hj.
    assert (0 <= j) by lia. rewrite !zget_write, zlen_cons by lia.
    rewrite zget_insert by lia. change (b :: l) with ([b] ++ l). rewrite zget_app. change (zlen [b]) with 1.
    destruct (i + 1 <=? j) eqn:?, (j <? i + 1 + zlen l) eqn:?, (i <=? j) eqn:?, (j <? i + (1 + zlen l)) eqn:?,
      (j - i <? 1) eqn:?, (j =? i) eqn:?; zbool; try lia; cbn [andb]; try done.
    + f_equal; lia.
    + subst j. replace (i - i) with 0 by lia. done.
Qed.

Lemma wp_put i b d (Q : unit -> list Z -> Prop) E :
  0 <= i < zlen d -> Q tt (zinsert i b d) -> wp (put i b) d Q E.
Proof.
  intros Hi HQ. unfold wp, put. by rewrite (proj2 (Z.leb_le 0 i)), (proj2 (Z.ltb_lt i _)) by lia.
Qed.

Lemma wp_putAll l : forall i d (Q : unit -> list Z -> Prop) E,
  0 <= i -> i + zlen l <= zlen d -> Q tt (zwrite d i l) -> wp (putAll i l) d Q E.
Proof.
  induction l as [|b l IH]; intros i d Q E Hi Hl HQ; cbn [putAll]; [by wstep|].
  rewrite zlen_cons in Hl. pose proof (zlen_nonneg l). wsteps. apply wp_put; [lia|].
  apply IH; [lia|rewrite zlen_insert; lia|]. by rewrite zwrite_cons by lia.
Qed.

Lemma wp_escapeLoop l : forall i z d (Q : Z -> list Z -> Prop) E,
  0 <= i -> i + zlen (escape z l) <= zlen d ->
  Q (i + zlen (escape z l)) (zwrite d i (escape z l)) -> wp (escapeLoop l i z) d Q E.
Proof.
  induction l as [|b l IH]; intros i z d Q E Hi Hl HQ; cbn [escapeLoop escape] in *.
  { wsteps. by rewrite Z.add_0_r in HQ. }
  destruct ((z =? 2) && (b <=? 3)); wsteps.
  - rewrite !zlen_cons in *. set (e := escape _ l) in *. pose proof (zlen_nonneg e).
    apply wp_put; [lia|]. wsteps. apply wp_put; [rewrite zlen_insert; lia|].
    apply IH; change (if b =? 0 then 0 + 1 else 0) with (if b =? 0 then 1 else 0); fold e;
      [lia|rewrite !zlen_insert; lia|].
    rewrite zwrite_cons, zwrite_cons by (rewrite ?zlen_insert, ?zlen_cons; lia).
    by replace (i + 1 + 1 + zlen e) with (i + (1 + (1 + zlen e))) by lia.
  - rewrite !zlen_cons in *. set (e := escape _ l) in *. pose proof (zlen_nonneg e).
    apply wp_put; [lia|]. apply IH; fold e; [lia|rewrite zlen_insert; lia|].
    rewrite zwrite_cons by lia. by replace (i + 1 + zlen e) with (i + (1 + zlen e)) by lia.
Qed.

(** The bytes of a unit: header, extension and escaped payload. *)
Definition nalUnit (h : SNalUnitHeader) (ext : option SNalUnitHeaderExt) (payload : list Z) : list Z :=
  nalHeaderByte h ::
  (if kbNALExt h then match ext with Some e => nalExtBytes e | None => [] end else []) ++
  escape 0 payload.

Lemma zwrite_app (d : list Z) i a b :
  0 <= i -> i + zlen a + zlen b <= zlen d -> zwrite (zwrite d i a) (i + zlen a) b = zwrite d i (a ++ b).
Proof.
  intros Hi. revert i d Hi. induction a as [|x a IH]; intros i d Hi Hl.
  { by rewrite Z.add_0_r. }
  rewrite zlen_cons in *. pose proof (zlen_nonneg a). pose proof (zlen_nonneg b).
  rewrite <- zwrite_cons by lia. replace (i + (1 + zlen a)) with (i + 1 + zlen a) by lia.
  rewrite IH by (rewrite ?zlen_insert; lia). cbn [app]. apply zwrite_cons; [done|]. rewrite zlen_app. lia.
Qed.

Definition extBytes (h : SNalUnitHeader) (ext : option SNalUnitHeaderExt) : list Z :=
  if kbNALExt h then match ext with Some e => nalExtBytes e | None => [] end else [].

Lemma zlen_extBytes h ext :
  (kbNALExt h = true -> ext <> None) -> zlen (extBytes h ext) = if kbNALExt h then 3 else 0.
Proof.
  intros Hext. unfold extBytes. destruct (kbNALExt h); [|done].
  destruct ext; [done|]. by specialize (Hext eq_refl).
Qed.

Lemma zlen_nalUnit h ext payload :
  zlen (nalUnit h ext payload) = 1 + zlen (extBytes h ext) + zlen (escape 0 payload).
Proof. unfold nalUnit. fold (extBytes h ext). rewrite zlen_cons, zlen_app. lia. Qed.

(** The space [WelsEncodeNal] asks for. *)
Definition nalNeeded (h : SNalUnitHeader) (size : Z) : Z :=
  4 + (if kbNALExt h then 3 else 0) + size + 1.

(** One and a half times the plain length is enough. *)
Lemma nalUnit_fits h ext payload len :
  (kbNALExt h = true -> ext <> None) ->
  nalNeeded h (zlen payload) + nalNeeded h (zlen payload) / 2 <= len ->
  4 + zlen (nalUnit h ext payload) <= len.
Proof.
  intros Hext Hlen. rewrite zlen_nalUnit, zlen_extBytes by done. set (n := nalNeeded _ _) in *.
  pose proof (escape_length payload 0 ltac:(lia)). pose proof (Z.div_mod n 2 ltac:(lia)).
  pose proof (Z.mod_pos_bound n 2 ltac:(lia)). pose proof (zlen_nonneg payload).
  unfold n, nalNeeded in *. destruct (kbNALExt h); lia.
Qed.

Lemma put_putAll i b : forall d, put i b d = putAll i [b] d.
Proof. intros d. cbn [putAll]. unfold gbind, put, ret. by destruct (_ && _). Qed.

(** Writing on after a prefix. *)
Lemma wp_putAll_after d pre l (Q : unit -> list Z -> Prop) E :
  zlen pre + zlen l <= zlen d -> Q tt (zwrite d 0 (pre ++ l)) ->
  wp (putAll (zlen pre) l) (zwrite d 0 pre) Q E.
Proof.
  intros Hl HQ. pose proof (zlen_nonneg pre). pose proof (zlen_nonneg l).
  apply wp_putAll; [lia|rewrite zlen_write_in; lia|].
  change (zlen pre) with (0 + zlen pre). by rewrite zwrite_app by lia.
Qed.

Lemma wp_WelsEncodeNal raw ext len d :
  0 <= iPayloadSize raw <= zlen (pRawData raw) -> len <= zlen d ->
  (kbNALExt (sNalHeader raw) = true -> ext <> None) ->
  let needed := nalNeeded (sNalHeader raw) (iPayloadSize raw) in
  let unit_ := nalUnit (sNalHeader raw) ext (zslice (pRawData raw) 0 (iPayloadSize raw)) in
  wp (WelsEncodeNal raw ext len) d
     (fun r d' =>
        if len <? needed + needed / 2 then r = (ENC_RETURN_MEMALLOCERR, None) /\ d' = d
        else r = (ENC_RETURN_SUCCESS, Some (4 + zlen unit_)) /\
             d' = zwrite d 0 ([0; 0; 0; 1] ++ unit_) /\ 4 + zlen unit_ <= len)
     (fun _ _ => False).
Proof.
  intros Hsize Hlen Hext needed unit_. unfold WelsEncodeNal.
  set (h := sNalHeader raw) in *. set (ps := iPayloadSize raw) in *.
  set (payload := zslice (pRawData raw) 0 ps) in *.
  assert (Hp : zlen payload = ps) by (apply zlen_slice; lia).
  change (4 + (if kbNALExt h then 3 else 0) + ps + 1) with needed.
  rewrite Z.shiftr_div_pow2 by lia. change (2 ^ 1) with 2.
  rewrite (proj2 (Z.leb_gt needed 0)) by (unfold needed, nalNeeded; destruct (kbNALExt h); lia).
  destruct (len <? needed + needed / 2) eqn:E; zbool; [by wsteps|].
  rewrite (proj2 (Z.ltb_ge ps 0)), (proj2 (Z.ltb_ge (zlen (pRawData raw)) ps)) by lia. cbn [orb].
  assert (Hfit : 4 + zlen unit_ <= len).
  { unfold unit_. apply nalUnit_fits; [done|]. by rewrite Hp. }
  assert (Hu := zlen_nalUnit h ext payload). fold unit_ in Hu.
  pose proof (zlen_nonneg (escape 0 payload)). pose proof (zlen_nonneg (extBytes h ext)).
  wsteps. apply wp_putAll; [lia|change (zlen [0; 0; 0; 1]) with 4; lia|]. wsteps.
  unfold wp at 1. rewrite put_putAll.
  apply (wp_putAll_after d [0; 0; 0; 1] [nalHeaderByte h]);
    [change (zlen [0; 0; 0; 1]) with 4; change (zlen [nalHeaderByte h]) with 1; lia|].
  set (pre := [0; 0; 0; 1] ++ [nalHeaderByte h]). wsteps.
  apply wp_mono with (Q := fun i d2 => i = zlen (pre ++ extBytes h ext) /\
      d2 = zwrite d 0 (pre ++ extBytes h ext)) (E := fun _ _ => False); [| |done].
  - unfold extBytes in *. destruct (kbNALExt h) eqn:Ek; [|by wsteps; rewrite app_nil_r].
    destruct ext as [e|]; [|by specialize (Hext eq_refl)]. wsteps.
    apply (wp_putAll_after d pre); [change (zlen pre) with 5; lia|]. wsteps. done.
  - intros i d2 [-> ->]. wsteps.
    assert (Hpre : zlen (pre ++ extBytes h ext) = 5 + zlen (extBytes h ext)) by (rewrite zlen_app; done).
    apply wp_escapeLoop; [lia|rewrite zlen_write_in; lia|]. wsteps. splits; [| |done].
    + rewrite Hpre, Hu. do 2 f_equal; lia.
    + change (zlen (pre ++ extBytes h ext)) with (0 + zlen (pre ++ extBytes h ext)).
      by rewrite zwrite_app by lia.
Qed.

(** ** What the decoder's loop does *)

Section DecodeBs.
Context {C : Type} (onNal : bool -> list Z -> Z * C -> option Z * (Z * C)).
Context (queuedStarts : C -> list (option Z)).
Context (kpBsBuf : list Z) (kiBsLen iSrcLength : Z).
Implicit Types (v : scan) (s : decState (C := C)).

(** The loop's variables describe a unit [nal] collected in the buffer and the
    bytes [rem] that are left; the buffer has room for all of them. *)
Record scanning v s (nal rem : list Z) : Prop := {
  sc_src : 0 <= pSrcNal v /\ 0 <= iSrcIdx v /\
           pSrcNal v + iSrcIdx v + (iSrcLength - iSrcConsumed v) = kiBsLen;
  sc_len : kiBsLen <= zlen kpBsBuf;
  sc_rem : zslice kpBsBuf (pSrcNal v + iSrcIdx v) (iSrcLength - iSrcConsumed v) = rem;
  sc_left : zlen rem = iSrcLength - iSrcConsumed v;
  sc_dst : 0 <= pDstNal v /\ 0 <= iDstIdx v;
  sc_room : pDstNal v + iDstIdx v + zlen rem + 4 <= zlen (pHead (sRawData s));
  sc_nal : zslice (pHead (sRawData s)) (pDstNal v) (iDstIdx v) = nal;
  sc_end : pEnd (sRawData s) = zlen (pHead (sRawData s));
  sc_size : kiBsLen + 4 <= zlen (pHead (sRawData s))
}.

(** The raw-data buffer keeps its size and its position stays in it. *)
Definition rawKept s s' : Prop :=
  zlen (pHead (sRawData s')) = zlen (pHead (sRawData s)) /\
  pEnd (sRawData s') = pEnd (sRawData s) /\
  (0 <= pCurPos (sRawData s) -> 0 <= pCurPos (sRawData s')).

(** The parts of the decoder's state that a round leaves alone. *)
Definition sameCtx s s' : Prop := iErrorCode s' = iErrorCode s /\ ctx s' = ctx s.

Lemma scanning_at v s nal rem k b :
  scanning v s nal rem -> rem !! k = Some b ->
  zlookup kpBsBuf (pSrcNal v + Z.of_nat k + iSrcIdx v) = Some b.
Proof.
  intros H Hk. destruct H as [? ? <- ? ? ? ? ? ?].
  unfold zslice in Hk. apply lookup_take_Some in Hk as [Hk _]. rewrite lookup_drop in Hk.
  unfold zlookup. destruct (_ <? 0) eqn:?; zbool; [lia|]. rewrite <- Hk. f_equal. lia.
Qed.

Lemma wp_putRaw i b s (Q : unit -> decState -> Prop) E :
  0 <= i < zlen (pHead (sRawData s)) ->
  Q tt (s <| sRawData := sRawData s <| pHead := zinsert i b (pHead (sRawData s)) |> |>) ->
  wp (putRaw i b) s Q E.
Proof.
  intros Hi HQ. unfold putRaw. wsteps.
  rewrite (proj2 (Z.leb_le 0 i)), (proj2 (Z.ltb_lt i _)) by lia. cbn [andb]. by wstep.
Qed.

Lemma zslice_insert_app (l : list Z) a n b :
  0 <= a -> 0 <= n -> a + n < zlen l -> zslice (zinsert (a + n) b l) a (n + 1) = zslice l a n ++ [b].
Proof.
  intros Ha Hn Hl. apply zlist_eq.
  - rewrite zlen_app, !zlen_slice by (rewrite ?zlen_insert; lia). done.
  - rewrite zlen_slice by (rewrite ?zlen_insert; lia). intros i Hi.
    rewrite zget_slice, zget_insert, zget_app, zlen_slice by lia.
    destruct (a + i =? a + n) eqn:?, (i <? n) eqn:?; zbool; try lia.
    + replace (i - n) with 0 by lia. done.
    + by rewrite zget_slice by lia.
Qed.

(** The bytes that remain after the first [k]. *)
Lemma zslice_suffix {A} (l : list A) o n k l1 l2 :
  0 <= o -> 0 <= k <= n -> zslice l o n = l1 ++ l2 -> zlen l1 = k -> zslice l (o + k) (n - k) = l2.
Proof.
  intros Ho Hk H Hl. unfold zslice, zlen in *.
  replace (Z.to_nat (o + k)) with (Z.to_nat o + length l1)%nat by lia.
  replace (Z.to_nat (n - k)) with (Z.to_nat n - length l1)%nat by lia.
  rewrite <- drop_drop, <- skipn_firstn_comm, H. apply drop_app_length.
Qed.

(** After [k] source bytes were consumed and the buffer was changed from the
    unit's end on. *)
Lemma scanning_advance v s nal rem taken rem' out v' s' :
  scanning v s nal rem -> rem = taken ++ rem' -> zlen out <= zlen taken ->
  pSrcNal v' = pSrcNal v -> iSrcIdx v' = iSrcIdx v + zlen taken ->
  iSrcConsumed v' = iSrcConsumed v + zlen taken ->
  pDstNal v' = pDstNal v -> iDstIdx v' = iDstIdx v + zlen out ->
  zlen (pHead (sRawData s')) = zlen (pHead (sRawData s)) -> pEnd (sRawData s') = pEnd (sRawData s) ->
  zslice (pHead (sRawData s')) (pDstNal v) (iDstIdx v + zlen out) = nal ++ out ->
  scanning v' s' (nal ++ out) rem'.
Proof.
  intros H -> Hout E1 E2 E3 E4 E5 E6 E7 E8. destruct H as [Hs ? Hrem Hleft ? ? ? ? ?].
  pose proof (zlen_nonneg taken). pose proof (zlen_nonneg rem'). pose proof (zlen_nonneg out).
  rewrite zlen_app in *. constructor; rewrite ?E1, ?E2, ?E3, ?E4, ?E5, ?E6, ?E7; try lia; try done.
  rewrite Z.add_assoc, Z.sub_add_distr. eapply zslice_suffix; [lia|lia|exact Hrem|done].
Qed.

Lemma wp_copyByte v s nal a tl (st : bool) :
  scanning v s nal (a :: tl) ->
  wp (let! b := gindex kpBsBuf (pSrcNal v + 0 + iSrcIdx v) in
      do! putRaw (pDstNal v + iDstIdx v) b in
      ret (inl ((v <| bNalStartBytes := st |>) <| iDstIdx := iDstIdx v + 1 |>
                 <| iSrcIdx := iSrcIdx v + 1 |> <| iSrcConsumed := iSrcConsumed v + 1 |>))) s
     (fun (r : scan + Z) s' => exists v', r = inl v' /\ bNalStartBytes v' = st /\
        scanning v' s' (nal ++ [a]) tl /\ sameCtx s s' /\ rawKept s s') (fun _ _ => False).
Proof.
  intros H. wsteps. eapply wp_gindex; [exact (scanning_at _ _ _ _ 0 a H eq_refl)|].
  pose proof H as [_ _ _ _ Hd Hroom Hnal _ _]. rewrite zlen_cons in Hroom. pose proof (zlen_nonneg tl).
  wsteps. apply wp_putRaw; [lia|]. wsteps. eexists; splits; [done|done| |done|].
  2:{ unfold rawKept. cbn. by rewrite zlen_insert. }
  eapply (scanning_advance v s nal (a :: tl) [a] tl [a]); cbn; try done.
  - apply zlen_insert.
  - rewrite zslice_insert_app by lia. by rewrite Hnal.
Qed.

Lemma zslice_insert_out (l : list Z) a n i b :
  0 <= a -> 0 <= n -> a + n <= i < zlen l -> zslice (zinsert i b l) a n = zslice l a n.
Proof.
  intros Ha Hn Hi. apply zlist_eq.
  - rewrite !zlen_slice by (rewrite ?zlen_insert; lia). done.
  - rewrite zlen_slice by (rewrite ?zlen_insert; lia). intros j Hj.
    rewrite !zget_slice, zget_insert by lia. rewrite (proj2 (Z.eqb_neq _ _)) by lia. done.
Qed.

Lemma wp_putZeros4 s a n :
  0 <= a -> 0 <= n -> a + n + 4 <= zlen (pHead (sRawData s)) ->
  wp (putZeros4 (a + n)) s
     (fun _ s' => sameCtx s s' /\ zlen (pHead (sRawData s')) = zlen (pHead (sRawData s)) /\
        pEnd (sRawData s') = pEnd (sRawData s) /\ pCurPos (sRawData s') = pCurPos (sRawData s) /\
        zslice (pHead (sRawData s')) a n = zslice (pHead (sRawData s)) a n) (fun _ _ => False).
Proof.
  intros Ha Hn Hl. unfold putZeros4. wsteps.
  do 3 (apply wp_putRaw; [cbn; rewrite ?zlen_insert; lia|]; wsteps).
  apply wp_putRaw; [cbn; rewrite ?zlen_insert; lia|]. cbn. rewrite !zlen_insert.
  splits; [done|done|done|done|]. rewrite !zslice_insert_out by (rewrite ?zlen_insert; lia). done.
Qed.

Lemma wp_endNal v s nal b tl :
  scanning v s nal (0 :: 0 :: b :: tl) ->
  wp (endNal onNal queuedStarts iSrcLength v) s
     (fun r s' => rawKept s s' /\
        match onNal false nal (iErrorCode s, ctx s) with
        | (Some code, _) => r = inr code
        | (None, (e, c)) =>
            (exists v', r = inl v' /\ bNalStartBytes v' = false /\ scanning v' s' [] tl /\
                        iErrorCode s' = e /\ ctx s' = c) \/
            (exists code n, r = inr code /\ RawDataWrapIsClean queuedStarts c n = false)
        end) (fun _ _ => False).
Proof.
  intros H. pose proof H as [Hs ? Hrem Hleft Hd Hroom Hnal He Hsz]. rewrite !zlen_cons in *.
  pose proof (zlen_nonneg tl). unfold endNal. wsteps.
  wcall (wp_putZeros4 s (pDstNal v) (iDstIdx v)); [lia..| |done].
  intros [] s1 ([E1 E2] & Hl1 & He1 & Hc1 & Hn1). unfold emitNal. wsteps. rewrite Hn1, Hnal, E1, E2.
  destruct (onNal false nal (iErrorCode s, ctx s)) as [[code|] [e c]]; wsteps;
    [split; [|done]; unfold rawKept; cbn; rewrite ?Hl1, ?He1, ?Hc1; done|].
  cbn [sRawData iErrorCode ctx set_field].
  assert (Hnext : forall p s2, zlen (pHead (sRawData s2)) = zlen (pHead (sRawData s1)) ->
      pEnd (sRawData s2) = pEnd (sRawData s1) -> 0 <= p -> p + zlen tl + 4 <= zlen (pHead (sRawData s1)) ->
      scanning (mkScan (pSrcNal v + (iSrcIdx v + 3)) 0 (iSrcConsumed v + 3) p 0 false) s2 [] tl).
  { intros p s2 Hl2 He2 Hp Hroom2. constructor; cbn; try lia.
    - rewrite Z.add_0_r, Z.add_assoc. replace (iSrcLength - (iSrcConsumed v + 3)) with (iSrcLength - iSrcConsumed v - 3) by lia.
      eapply (zslice_suffix _ _ _ 3 [0; 0; b]); [lia|lia|exact Hrem|done].
    - unfold zslice. by rewrite take_0. }
  destruct (_ <? _) eqn:Ew; zbool.
  - destruct (RawDataWrapIsClean _ _ _) eqn:Ec; cbn [negb]; wsteps.
    + split; [by unfold rawKept; cbn; rewrite ?Hl1, ?He1|].
      left. eexists; splits; [done|done| |done|done]. apply Hnext; cbn; lia.
    + split; [by unfold rawKept; cbn; rewrite ?Hl1, ?He1, ?Hc1|]. right. by eexists _, _.
  - wsteps. split; [unfold rawKept; cbn; rewrite ?Hl1, ?He1; splits; [done|done|lia]|].
    left. eexists; splits; [done|done| |done|done]. apply Hnext; cbn; lia.
Qed.

(** A round of the loop is a step on lists. *)
Lemma scanStep_refines v s nal rem :
  scanning v s nal rem -> rem <> [] ->
  wp (scanStep onNal queuedStarts kpBsBuf iSrcLength v) s
     (fun r s' =>
        match absStep (bNalStartBytes v) nal rem with
        | AGo st nal' rem' =>
            exists v', r = inl v' /\ bNalStartBytes v' = st /\ scanning v' s' nal' rem' /\
                       sameCtx s s' /\ rawKept s s'
        | AErr => (exists code, r = inr code) /\ rawKept s s'
        | ANal nal' tl =>
            rawKept s s' /\
            match onNal false nal' (iErrorCode s, ctx s) with
            | (Some code, _) => r = inr code
            | (None, (e, c)) =>
                (exists v', r = inl v' /\ bNalStartBytes v' = false /\ scanning v' s' [] tl /\
                            iErrorCode s' = e /\ ctx s' = c) \/
                (exists code n, r = inr code /\ RawDataWrapIsClean queuedStarts c n = false)
            end
        end) (fun _ _ => False).
Proof.
  intros H Hne. pose proof H as [Hs Hl _ Hleft Hd Hroom Hnal _ _]. unfold scanStep.
  destruct rem as [|a [|b [|c tl]]]; [done| | |].
  1,2: rewrite !zlen_cons in Hleft; rewrite (proj2 (Z.ltb_ge _ _)) by (change (zlen (@nil Z)) with 0 in *; lia);
       exact (wp_copyByte _ _ _ _ _ (bNalStartBytes v) H).
  rewrite !zlen_cons in Hleft, Hroom. pose proof (zlen_nonneg tl).
  rewrite (proj2 (Z.ltb_lt _ _)) by lia. wsteps.
  eapply wp_gindex; [exact (scanning_at _ _ _ _ 0 a H eq_refl)|]. wsteps.
  eapply wp_gindex; [exact (scanning_at _ _ _ _ 1 b H eq_refl)|]. wsteps.
  eapply wp_gindex; [exact (scanning_at _ _ _ _ 2 c H eq_refl)|]. cbn [absStep].
  destruct ((a =? 0) && (b =? 0) && (c <=? 3)) eqn:Ew; [|exact (wp_copyByte _ _ _ _ _ (bNalStartBytes v) H)].
  zbool. subst a b.
  assert (Herr : wp bitstreamError s (fun (r : scan + Z) s' => (exists code, r = inr code) /\ rawKept s s')
    (fun _ _ => False)).
  { unfold bitstreamError. wsteps. split; [by eexists|done]. }
  destruct (bNalStartBytes v && negb (c =? 0) && negb (c =? 1)); [exact Herr|].
  destruct (c =? 2) eqn:E2; [exact Herr|].
  destruct (c =? 0) eqn:E0; zbool; [exact (wp_copyByte _ _ _ _ _ true H)|].
  destruct (c =? 3) eqn:E3; zbool.
  - subst c. wsteps.
    apply wp_mono with (Q := fun skip s' => s' = s /\ skip = match tl with d :: _ => 3 <? d | [] => false end)
      (E := fun _ _ => False); [| |done].
    + destruct tl as [|d tl].
      * change (zlen (@nil Z)) with 0 in *. rewrite (proj2 (Z.ltb_ge _ _)) by lia. by wsteps.
      * rewrite zlen_cons in *. rewrite (proj2 (Z.ltb_lt _ _)) by (pose proof (zlen_nonneg tl); lia). wsteps.
        eapply wp_gindex; [exact (scanning_at _ _ _ _ 3 d H eq_refl)|]. by wsteps.
    + intros skip s' [-> ->]. destruct (match tl with d :: _ => 3 <? d | [] => false end); wsteps.
      * eexists; splits; [done|done| |done|done]. rewrite <- (app_nil_r nal).
        eapply (scanning_advance v s nal _ [0; 0; 3] tl []); cbn; try done; try (change (zlen (@nil Z)) with 0; lia).
        by rewrite !Z.add_0_r, app_nil_r.
      * apply wp_putRaw; [lia|]. wsteps. apply wp_putRaw; [cbn; rewrite zlen_insert; lia|]. wsteps.
        eexists; splits; [done|done| |done|by unfold rawKept; cbn; rewrite !zlen_insert].
        eapply (scanning_advance v s nal _ [0; 0; 3] tl [0; 0]); cbn; try done.
        -- by rewrite !zlen_insert.
        -- change (zlen [0; 0]) with 2. replace (iDstIdx v + 2) with (iDstIdx v + 1 + 1) by lia.
           replace (pDstNal v + iDstIdx v + 1) with (pDstNal v + (iDstIdx v + 1)) by lia.
           rewrite zslice_insert_app, zslice_insert_app, Hnal by (rewrite ?zlen_insert; lia).
           by rewrite <- app_assoc.
  - exact (wp_endNal _ _ _ _ _ H).
Qed.
End DecodeBs.

(** ** Finding the first start code *)

(** A start code of the first [n] bytes that ends before [o]. *)
Definition startCodeAt (buf : list Z) (n o : Z) : Prop :=
  3 <= o <= n /\ zget buf (o - 3) = 0 /\ zget buf (o - 2) = 0 /\ zget buf (o - 1) = 1.

Lemma skipZeros_spec buf p n fuel : forall i,
  0 <= p -> 0 <= i <= n -> p + n <= zlen buf -> n - i < Z.of_nat fuel ->
  exists i', skipZeros fuel buf (p + i) i n = Some (p + i', i') /\ i <= i' <= n /\
    (forall j, p + i <= j < p + i' -> zget buf j = 0) /\ (i' < n -> zget buf (p + i') <> 0).
Proof.
  induction fuel as [|fuel IH]; intros i Hp Hi Hl Hf; [lia|]. cbn [skipZeros].
  destruct (i <? n) eqn:E; zbool; [|exists i; splits; [done|lia|lia|lia|lia]].
  rewrite zlookup_zget by lia. destruct (zget buf (p + i) =? 0) eqn:E0; zbool.
  - rewrite <- Z.add_assoc. destruct (IH (i + 1)) as (i' & Hs & Hr & Hz & Hn); [lia..|].
    exists i'. splits; [done|lia|lia| |done]. intros j Hj.
    destruct (Z.eq_dec j (p + i)) as [->|]; [done|]. apply Hz. lia.
  - exists i. splits; [done|lia|lia|lia|done].
Qed.

Lemma detectLoop_spec buf n fuel : forall p,
  0 <= p <= n -> n <= zlen buf -> n - p < Z.of_nat fuel ->
  (forall o, o <= p -> ~ startCodeAt buf n o) -> (0 < p -> zget buf (p - 1) <> 0) ->
  exists r, detectLoop fuel buf p (n - p) = Some r /\
    match r with
    | Some o => startCodeAt buf n o /\ (forall o', o' < o -> ~ startCodeAt buf n o')
    | None => forall o, ~ startCodeAt buf n o
    end.
Proof.
  induction fuel as [|fuel IH]; intros p Hp Hl Hf Hno Hprev; [lia|]. cbn [detectLoop].
  destruct (skipZeros_spec buf p (n - p) (S (length buf)) 0) as (k & Hs & Hk & Hz & Hnz);
    [lia|lia|lia|unfold zlen in Hl; lia|]. rewrite Z.add_0_r in Hs, Hz. rewrite Hs.
  destruct (n - p <=? k) eqn:E; zbool.
  { exists None. split; [done|]. intros o Ho. destruct (Z.le_gt_cases o p); [by apply (Hno o)|].
    destruct Ho as (? & _ & _ & H1). rewrite Hz in H1 by lia. done. }
  specialize (Hnz ltac:(lia)). replace (p + k + 1 - 1) with (p + k) by lia. rewrite zlookup_zget by lia.
  assert (Hbefore : forall o, o < p + k + 1 -> ~ startCodeAt buf n o).
  { intros o Ho Hc. destruct (Z.le_gt_cases o p); [by apply (Hno o)|].
    destruct Hc as (? & _ & _ & H1). rewrite Hz in H1 by lia. done. }
  destruct ((3 <=? k + 1) && (zget buf (p + k) =? 1)) eqn:Ef.
  - zbool. exists (Some (p + k + 1)). splits; [done| |done]. unfold startCodeAt.
    replace (p + k + 1 - 1) with (p + k) by lia. rewrite !Hz by lia. splits; [lia|lia|done..].
  - replace (n - p - (k + 1)) with (n - (p + k + 1)) by lia.
    apply IH; [lia|lia|lia| |by replace (p + k + 1 - 1) with (p + k) by lia].
    intros o Ho Hc. destruct (Z.eq_dec o (p + k + 1)) as [->|]; [|apply (Hbefore o); [lia|done]].
    destruct Hc as (Hr & H3 & H2 & H1). replace (p + k + 1 - 1) with (p + k) in H1 by lia.
    rewrite H1 in Ef. cbn [Z.eqb Pos.eqb] in Ef. rewrite andb_true_r in Ef. zbool.
    assert (k = 0 \/ k = 1) as [-> | ->] by lia; apply Hprev; [lia| |lia|].
    + rewrite <- H2. f_equal; lia.
    + rewrite <- H3. f_equal; lia.
Qed.

(** [DetectStartCodePrefix] returns the position after the first start code of
    the buffer, or nil when there is none; it reads nothing outside. *)
Lemma detect_start_code buf n :
  0 <= n <= zlen buf ->
  exists r, DetectStartCodePrefix buf n = Some r /\
    match r with
    | Some o => startCodeAt buf n o /\ (forall o', o' < o -> ~ startCodeAt buf n o')
    | None => forall o, ~ startCodeAt buf n o
    end.
Proof.
  intros Hn. pose proof (detectLoop_spec buf n (S (length buf)) 0) as Hd. rewrite Z.sub_0_r in Hd.
  apply Hd; [lia|lia|unfold zlen in Hn; lia| |lia]. intros o Ho (? & _). lia.
Qed.

(** ** The whole scan *)

Section Stream.
Context {C : Type} (onNal : bool -> list Z -> Z * C -> option Z * (Z * C)).
Context (queuedStarts : C -> list (option Z)).
Context (kpBsBuf : list Z) (kiBsLen iSrcLength : Z).
Abbreviation scans := (scanning (C := C) kpBsBuf kiBsLen iSrcLength).
Abbreviation loop := (scanLoop onNal queuedStarts).

Lemma absStep_shorter st nal rem :
  match absStep st nal rem with
  | AGo _ _ rem' => (length rem' < length rem)%nat
  | ANal _ rem' => (length rem' < length rem)%nat
  | AErr => True
  end.
Proof.
  unfold absStep. destruct rem as [|a [|b [|c tl]]]; [done|cbn; lia..|].
  repeat match goal with |- context [if ?c then _ else _] => destruct c end; cbn; lia || done.
Qed.

Lemma rawKept_trans (s1 s2 s3 : decState (C := C)) : rawKept s1 s2 -> rawKept s2 s3 -> rawKept s1 s3.
Proof. unfold rawKept. intros (? & ? & ?) (? & ? & ?). splits; [congruence|congruence|auto]. Qed.

(** The scan never leaves its buffers and comes to an end. *)
Lemma scanLoop_safe fuel : forall v s nal rem,
  scans v s nal rem -> (length rem <= fuel)%nat ->
  wp (loop fuel kpBsBuf iSrcLength v) s
     (fun r s' => rawKept s s' /\
        match r with inl v' => exists nal', scans v' s' nal' [] | inr _ => True end)
     (fun _ _ => False).
Proof.
  induction fuel as [|fuel IH]; intros v s nal rem H Hf; cbn [scanLoop];
    pose proof (sc_left _ _ _ _ _ _ _ H) as Hleft; unfold zlen in Hleft.
  { rewrite (proj2 (Z.ltb_ge _ _)) by lia. wsteps. split; [done|].
    destruct rem; [by exists nal|cbn in Hf; lia]. }
  destruct (iSrcConsumed v <? iSrcLength) eqn:E; zbool.
  2:{ wsteps. split; [done|]. destruct rem; [by exists nal|cbn in Hleft; lia]. }
  wsteps. wcall (scanStep_refines onNal queuedStarts _ _ _ v s nal rem H); [by intros ->; cbn in Hleft; lia| |done].
  pose proof (absStep_shorter (bNalStartBytes v) nal rem) as Hsh. intros r s' Hr. cbv beta in Hr.
  assert (Hgo : forall v' nal' rem', (length rem' < length rem)%nat -> scans v' s' nal' rem' -> rawKept s s' ->
     wp (loop fuel kpBsBuf iSrcLength v') s' (fun r s' => rawKept s s' /\
        match r with inl v' => exists nal', scans v' s' nal' [] | inr _ => True end) (fun _ _ => False)).
  { intros v' nal' rem' Hl H' Hk. wcall (IH _ _ _ _ H'); [lia| |done]. intros r' s2 [Hk2 ?].
    split; [exact (rawKept_trans _ _ _ Hk Hk2)|done]. }
  destruct (absStep _ _ _) as [st nal' rem'|nal' rem'|].
  - destruct Hr as (v' & -> & _ & H' & _ & Hk). by eapply Hgo.
  - destruct Hr as [Hk Hr]. destruct (onNal _ _ _) as [[code|] [e c]]; [by subst r; wsteps|].
    destruct Hr as [(v' & -> & _ & H' & _)|(code & n & -> & _)]; [|by wsteps]. by eapply Hgo.
  - destruct Hr as [[code ->] Hk]. by wsteps.
Qed.

(** Rounds within a unit bring the loop from one configuration to the next. *)
Lemma scanLoop_asteps c1 c2 Q :
  asteps c1 c2 ->
  forall s0 : decState (C := C),
  (forall fuel v s, (length (snd c2) <= fuel)%nat -> bNalStartBytes v = fst (fst c2) ->
     scans v s (snd (fst c2)) (snd c2) -> sameCtx s0 s -> rawKept s0 s ->
     wp (loop fuel kpBsBuf iSrcLength v) s Q (fun _ _ => False)) ->
  forall fuel v s, (length (snd c1) <= fuel)%nat -> bNalStartBytes v = fst (fst c1) ->
     scans v s (snd (fst c1)) (snd c1) -> sameCtx s0 s -> rawKept s0 s ->
     wp (loop fuel kpBsBuf iSrcLength v) s Q (fun _ _ => False).
Proof.
  intros Hc s0 Hend. induction Hc as [c|st nal rem st' nal' rem' c Hstep Hc IH]; [exact Hend|].
  specialize (IH Hend). cbn [fst snd] in *. intros fuel v s Hf Hv H Hctx Hk.
  pose proof (sc_left _ _ _ _ _ _ _ H) as Hleft. pose proof (absStep_shorter st nal rem) as Hsh.
  rewrite Hstep in Hsh. unfold zlen in Hleft. destruct fuel as [|fuel]; [lia|]. cbn [scanLoop].
  rewrite (proj2 (Z.ltb_lt _ _)) by lia. wsteps.
  wcall (scanStep_refines onNal queuedStarts _ _ _ v s nal rem H); [by intros ->; cbn in Hsh; lia| |done].
  intros r s' Hr. cbv beta in Hr. rewrite Hv, Hstep in Hr. destruct Hr as (v' & -> & ? & ? & [? ?] & ?).
  apply IH; [lia|done|done| |].
  - destruct Hctx. split; congruence.
  - by eapply rawKept_trans.
Qed.

End Stream.

(** ** Whole streams *)

Section Whole.
Context {C : Type} (onNal : bool -> list Z -> Z * C -> option Z * (Z * C)).
Context (queuedStarts : C -> list (option Z)).
Implicit Types s : decState (C := C).

(** The raw-data buffer can take a stream of [n] bytes. *)
Definition rawOk (n : Z) s : Prop :=
  pEnd (sRawData s) = zlen (pHead (sRawData s)) /\ n + 4 <= zlen (pHead (sRawData s)) /\
  0 <= pCurPos (sRawData s).

Lemma rawOk_kept n s s' : rawOk n s -> rawKept s s' -> rawOk n s'.
Proof. unfold rawOk, rawKept. intros (? & ? & ?) (-> & -> & ?). auto. Qed.

(** The loop's variables when the scan starts. *)
Lemma scanning_init buf n o s p :
  rawOk n s -> startCodeAt buf n o -> n <= zlen buf -> 0 <= p -> p + n + 4 <= zlen (pHead (sRawData s)) ->
  scanning buf n (n - o) (mkScan o 0 0 p 0 false) s [] (zslice buf o (n - o)).
Proof.
  intros (He & Hsz & _) ([? ?] & _) Hn Hp Hroom.
  assert (Hl : zlen (zslice buf o (n - o)) = n - o) by (apply zlen_slice; lia).
  constructor; cbn; rewrite ?Z.add_0_r, ?Z.sub_0_r; try done; try lia.
Qed.

(** [WelsDecodeBs] on any byte string: from the start code on, the loop and the
    last unit. *)
Lemma wp_WelsDecodeBs buf n s Q :
  0 <= n <= zlen buf -> rawOk n s ->
  (forall code s', rawKept s s' -> (forall o, ~ startCodeAt buf n o) -> Q code s') ->
  (forall code s', rawKept s s' -> (exists m, RawDataWrapIsClean queuedStarts (ctx s) m = false) -> Q code s') ->
  (forall o s1 v, rawKept s s1 -> sameCtx s s1 ->
     startCodeAt buf n o -> (forall o', o' < o -> ~ startCodeAt buf n o') ->
     bNalStartBytes v = false -> scanning buf n (n - o) v s1 [] (zslice buf o (n - o)) ->
     wp (scanLoop onNal queuedStarts (Z.to_nat (n - o)) buf (n - o) v) s1
        (fun r s2 => rawKept s s2 /\
           match r with
           | inr code => Q code s2
           | inl v' => exists nal, scanning buf n (n - o) v' s2 nal [] /\
               forall s3, rawKept s s3 ->
               match onNal true nal (iErrorCode s2, ctx s2) with
               | (Some code, (e, c)) => iErrorCode s3 = e -> ctx s3 = c -> Q code s3
               | (None, (e, c)) => iErrorCode s3 = e -> ctx s3 = c -> Q e s3
               end
           end) (fun _ _ => False)) ->
  wp (WelsDecodeBs onNal queuedStarts buf n) s Q (fun _ _ => False).
Proof.
  intros Hn Hraw Hnone Hdirty Hloop. unfold WelsDecodeBs.
  destruct (detect_start_code buf n Hn) as (r & -> & Hr). destruct r as [o|].
  2:{ wsteps. apply Hnone; done. }
  destruct Hr as [Ho Hfirst]. pose proof Ho as ([? ?] & _). pose proof Hraw as (He & Hsz & Hcur).
  wsteps. set (wrap := pEnd (sRawData s) - pCurPos (sRawData s) <? n + 4).
  destruct (wrap && negb (RawDataWrapIsClean queuedStarts (ctx s) (n + 4))) eqn:Ew; zbool.
  { wsteps. apply Hdirty; [done|]. by eexists. }
  wsteps. set (p := if wrap then 0 else pCurPos (sRawData s)).
  assert (Hp : 0 <= p /\ p + n + 4 <= zlen (pHead (sRawData s))).
  { unfold p, wrap. destruct (_ <? _) eqn:?; zbool; lia. }
  apply wp_mono with (Q := fun _ s1 => s1 = s <| sRawData := sRawData s <| pCurPos := p |> |>)
    (E := fun _ _ => False); [| |done].
  { unfold p. destruct wrap; wsteps.
    - done.
    - clear. destruct s as [[] ? ?]. reflexivity. }
  intros _ s1 ->. wsteps. cbn [sRawData pCurPos set_field].
  wcall (Hloop o _ (mkScan o 0 0 p 0 false)); [|done|done|done|done| | |done].
  { unfold rawKept. cbn. splits; [done|done|lia]. }
  { apply scanning_init; [unfold rawOk; cbn; lia|done|lia|lia|cbn; lia]. }
  intros r s2 (Hk2 & Hr). destruct r as [v|code]; [|by wsteps]. destruct Hr as (nal & H2 & Hfin).
  pose proof H2 as [_ _ _ _ Hd Hroom Hnal _ _]. rewrite zlen_nil in Hroom. wsteps.
  wcall (wp_putZeros4 s2 (pDstNal v) (iDstIdx v)); [lia..| |done].
  intros _ s3 ([E3 E3'] & Hl3 & He3 & Hc3 & Hn3). unfold emitNal. wsteps.
  cbn [sRawData iErrorCode ctx pHead set_field]. rewrite Hn3, Hnal, E3, E3'.
  set (s4 := s3 <| sRawData := sRawData s3 <| pCurPos := pDstNal v + iDstIdx v + 4 |> |>).
  assert (Hk4 : rawKept s s4).
  { destruct Hk2 as (? & ? & ?). unfold rawKept, s4. cbn. splits; [congruence|congruence|lia]. }
  destruct (onNal true nal (iErrorCode s2, ctx s2)) as [[code|] [e c]] eqn:Eon; wsteps.
  - specialize (Hfin (s4 <| iErrorCode := e |> <| ctx := c |>)). apply Hfin; done.
  - specialize (Hfin (s4 <| iErrorCode := e |> <| ctx := c |>)). apply Hfin; done.
Qed.

End Whole.
