(* ===== verification/H264NalStream.v ===== *)
(** * Byte streams of NAL units

    The encoder appends its units to a frame buffer, as [WelsWriteOneSPS] and
    the other writers of internal/encoder/encoder_ext.go do; the decoder scans
    the buffer.  The theorems: the units that are handed on are those that were
    written, and any byte string at all is scanned within the buffers. *)

From S2P Require Import Prelude Bytes H264Bits H264Nal H264NalSpec.
Import Encoder Decoder.

(** ** The frame buffer *)

Record frame := mkFrame { pFrameBs : list Z; iPosBsBuffer : Z }.

(** Encode a unit at the end of what the frame holds: the call of
    [WelsEncodeNal] and the position's update.  The frame buffer has
    [iFrameBsSize] bytes, its length. *)
Definition writeNal (raw : SWelsNalRaw) (ext : option SNalUnitHeaderExt) : M frame Z := fun f =>
  if (iPosBsBuffer f <? 0) || (zlen (pFrameBs f) <? iPosBsBuffer f) then (Panic, f)
  else
    let pre := take (Z.to_nat (iPosBsBuffer f)) (pFrameBs f) in
    let d := drop (Z.to_nat (iPosBsBuffer f)) (pFrameBs f) in
    match WelsEncodeNal raw ext (zlen (pFrameBs f) - iPosBsBuffer f) d with
    | (Ok (iReturn, iNalSize), d') =>
        let f' := mkFrame (pre ++ d') (iPosBsBuffer f) in
        if negb (iReturn =? ENC_RETURN_SUCCESS) then (Ok iReturn, f')
        else
          match iNalSize with
          | Some n => (Ok ENC_RETURN_SUCCESS, mkFrame (pre ++ d') (iPosBsBuffer f + n))
          | None => (Panic, f')
          end
    | (Err e, d') => (Err e, mkFrame (pre ++ d') (iPosBsBuffer f))
    | (Panic, d') => (Panic, mkFrame (pre ++ d') (iPosBsBuffer f))
    | (OutOfFuel, d') => (OutOfFuel, mkFrame (pre ++ d') (iPosBsBuffer f))
    end.

(** What the frame holds. *)
Definition frameBytes (f : frame) : list Z := take (Z.to_nat (iPosBsBuffer f)) (pFrameBs f).

(** ** Units *)

Record nalu := mkNalu { nHeader : SNalUnitHeader; nExt : option SNalUnitHeaderExt; nPayload : list Z }.

Definition extOk (e : SNalUnitHeaderExt) : Prop :=
  0 <= UiDependencyId e < 8 /\ 0 <= UiTemporalId e < 8.

(** A unit the encoder writes: a type and a reference idc in range, an
    extension header where the type has one, and a payload of bytes that is
    empty or ends with the byte of the stop bit. *)
Record naluOk (u : nalu) : Prop := {
  n_ref : 0 <= UiNalRefIdc (nHeader u) < 4;
  n_type : 1 <= ENalUnitType (nHeader u) < 32;
  n_ext : kbNALExt (nHeader u) = true -> exists e, nExt u = Some e /\ extOk e;
  n_bytes : bytes_ok (nPayload u);
  n_stop : endsNonzero (nPayload u)
}.

(** The unit without prevention bytes, as the decoder parses it. *)
Definition rawUnit (u : nalu) : list Z :=
  nalHeaderByte (nHeader u) :: extBytes (nHeader u) (nExt u) ++ nPayload u.

Definition unitBytes (u : nalu) : list Z := nalUnit (nHeader u) (nExt u) (nPayload u).

Definition streamOf (us : list nalu) : list Z := concat (map (fun u => [0; 0; 0; 1] ++ unitBytes u) us).

Lemma lor_nonzero_r a b : 0 < b -> Z.lor a b <> 0.
Proof. intros Hb H. apply Z.lor_eq_0_iff in H as [_ ->]. lia. Qed.

Lemma u8_shiftl_range x k : 0 <= u8 (Z.shiftl x k) < 2 ^ 8.
Proof. apply u8_range. Qed.

Lemma header_nonzero h : 1 <= ENalUnitType h < 32 -> nalHeaderByte h <> 0.
Proof.
  intros Ht H. unfold nalHeaderByte, u8 in H. apply (f_equal (fun x => x mod 2 ^ 5)) in H.
  rewrite Z.mod_mod_divide in H by (by exists (2 ^ 3)).
  assert (Hm : Z.lor (Z.shiftl (UiNalRefIdc h) 5) (Z.land (ENalUnitType h) 31) mod 2 ^ 5 = ENalUnitType h).
  { rewrite <- (Z.mod_small (ENalUnitType h) (2 ^ 5)) at 2 by lia. rewrite <- !Z.land_ones by lia.
    change 31 with (Z.ones 5). zbits. rewrite !Z.land_spec, Z.lor_spec, Z.land_spec.
    destruct (Z.lt_ge_cases n 5).
    - rewrite Z.shiftl_spec_low by lia. by destruct (Z.testbit _ n), (Z.testbit (Z.ones 5) n).
    - rewrite Z.ones_spec_high by lia. by rewrite !andb_false_r. }
  rewrite Hm in H. rewrite Z.mod_0_l in H; lia.
Qed.

Lemma header_byte h : is_u8 (nalHeaderByte h).
Proof. apply u8_range. Qed.

Lemma extBytes_nonzero e : Forall (fun b => b <> 0) (nalExtBytes e).
Proof.
  unfold nalExtBytes. repeat constructor.
  - rewrite Z.lor_comm. by apply lor_nonzero_r.
  - rewrite Z.lor_comm. by apply lor_nonzero_r.
  - by apply lor_nonzero_r.
Qed.

Lemma extBytes_ok e : bytes_ok (nalExtBytes e).
Proof.
  unfold nalExtBytes, bytes_ok. repeat constructor;
    repeat (apply (lor_range _ _ 8); [| |lia]); try apply u8_range; lia.
Qed.

(** ** One unit *)

Lemma asteps_nonzero l : forall nal tail,
  Forall (fun b => b <> 0) l -> asteps (false, nal, l ++ tail) (false, nal ++ l, tail).
Proof.
  induction l as [|a l IH]; intros nal tail Hl; [rewrite app_nil_r; apply asteps_refl|].
  apply list.Forall_cons in Hl as [Ha Hl]. cbn [app]. apply asteps_copy; [done|].
  replace (nal ++ a :: l) with ((nal ++ [a]) ++ l) by (by rewrite <- app_assoc). by apply IH.
Qed.

Lemma asteps_unit u tail :
  naluOk u -> asteps (false, [], unitBytes u ++ tail) (false, rawUnit u, tail).
Proof.
  intros [Hr Ht He Hb Hs]. unfold unitBytes, rawUnit, nalUnit. fold (extBytes (nHeader u) (nExt u)).
  cbn [app]. apply asteps_copy; [by apply header_nonzero|]. rewrite <- app_assoc. cbn [app].
  eapply asteps_trans.
  - apply asteps_nonzero. unfold extBytes. destruct (kbNALExt (nHeader u)); [|done].
    destruct (nExt u); [apply extBytes_nonzero|done].
  - change (nalHeaderByte (nHeader u) :: extBytes (nHeader u) (nExt u) ++ nPayload u)
      with (([nalHeaderByte (nHeader u)] ++ extBytes (nHeader u) (nExt u)) ++ nPayload u).
    by apply (asteps_unescape (length (nPayload u))).
Qed.

(** The zero of the next four-byte start code joins the unit before it. *)
Lemma asteps_unit_next u tail :
  naluOk u ->
  asteps (false, [], unitBytes u ++ 0 :: 0 :: 0 :: 1 :: tail) (true, rawUnit u ++ [0], 0 :: 0 :: 1 :: tail).
Proof.
  intros Hu. eapply asteps_trans; [by apply asteps_unit|].
  eapply asteps_step; [reflexivity|]. apply asteps_refl.
Qed.

(** ** The decoder on a stream of units *)

Section Stream.
Context {C : Type} (onNal : bool -> list Z -> Z * C -> option Z * (Z * C)).
Context (queuedStarts : C -> list (option Z)).
Implicit Types s : decState (C := C).

(** The units handed on one after the other: all but the last carry the zero
    byte of the start code that ended them. *)
Fixpoint feed (us : list nalu) (ec : Z * C) : Z * C :=
  match us with
  | [] => ec
  | [u] => snd (onNal true (rawUnit u) ec)
  | u :: us => feed us (snd (onNal false (rawUnit u ++ [0]) ec))
  end.

(** The decoder goes on after each of the units. *)
Fixpoint goesOn (us : list nalu) (ec : Z * C) : Prop :=
  match us with
  | [] => True
  | [u] => fst (onNal true (rawUnit u) ec) = None
  | u :: us => fst (onNal false (rawUnit u ++ [0]) ec) = None /\
               goesOn us (snd (onNal false (rawUnit u ++ [0]) ec))
  end.

(** The decoder may reuse its buffer at the start of each of the units: no unit
    that waits to be decoded would be overwritten. *)
Fixpoint reusable (us : list nalu) (ec : Z * C) : Prop :=
  (forall n, RawDataWrapIsClean queuedStarts (snd ec) n = true) /\
  match us with
  | [] | [_] => True
  | u :: us => reusable us (snd (onNal false (rawUnit u ++ [0]) ec))
  end.

Lemma reusable_first us ec n : reusable us ec -> RawDataWrapIsClean queuedStarts (snd ec) n = true.
Proof. destruct us; intros [H _]; apply H. Qed.

Lemma scan_units buf n len us : forall u v s fuel,
  naluOk u -> Forall naluOk us ->
  scanning buf n len v s [] (unitBytes u ++ streamOf us) -> bNalStartBytes v = false ->
  (length (unitBytes u ++ streamOf us) <= fuel)%nat -> goesOn (u :: us) (iErrorCode s, ctx s) ->
  reusable (u :: us) (iErrorCode s, ctx s) ->
  wp (scanLoop onNal queuedStarts fuel buf len v) s
     (fun r s2 => rawKept s s2 /\
        exists v' nal, r = inl v' /\ scanning buf n len v' s2 nal [] /\
          fst (onNal true nal (iErrorCode s2, ctx s2)) = None /\
          snd (onNal true nal (iErrorCode s2, ctx s2)) = feed (u :: us) (iErrorCode s, ctx s))
     (fun _ _ => False).
Proof.
  induction us as [|u2 us IH]; intros u v s fuel Hu Hus H Hv Hf Hg Hre.
  - cbn [streamOf map concat goesOn] in *.
    eapply (scanLoop_asteps onNal queuedStarts buf n len _ _ _ (asteps_unit u [] Hu) s);
      [|exact Hf|exact Hv|exact H|done|done].
    cbn [fst snd]. intros fuel' v' s' _ _ H' [E1 E2] Hk.
    pose proof (sc_left _ _ _ _ _ _ _ H') as Hl. rewrite zlen_nil in Hl.
    destruct fuel' as [|fuel']; cbn [scanLoop]; rewrite (proj2 (Z.ltb_ge _ _)) by lia; wsteps;
      (split; [done|]); exists v', (rawUnit u); rewrite E1, E2; done.
  - apply list.Forall_cons in Hus as [Hu2 Hus].
    assert (Hst : streamOf (u2 :: us) = 0 :: 0 :: 0 :: 1 :: unitBytes u2 ++ streamOf us) by done.
    rewrite Hst in H, Hf. set (tail := unitBytes u2 ++ streamOf us) in *.
    eapply (scanLoop_asteps onNal queuedStarts buf n len _ _ _ (asteps_unit_next u tail Hu) s);
      [|exact Hf|exact Hv|exact H|done|done].
    cbn [fst snd]. intros fuel' v1 s1 Hf1 Hv1 H1 [E1 E2] Hk.
    pose proof (sc_left _ _ _ _ _ _ _ H1) as Hl. rewrite !zlen_cons in Hl. pose proof (zlen_nonneg tail).
    destruct fuel' as [|fuel']; [cbn [length] in Hf1; lia|]. cbn [scanLoop length] in *.
    rewrite (proj2 (Z.ltb_lt _ _)) by lia. wsteps.
    wcall (scanStep_refines onNal queuedStarts _ _ _ v1 s1 _ _ H1); [done| |done].
    intros r s2 Hr. cbv beta in Hr. rewrite Hv1 in Hr.
    change (absStep true (rawUnit u ++ [0]) (0 :: 0 :: 1 :: tail)) with (ANal (rawUnit u ++ [0]) tail) in Hr.
    destruct Hr as [Hk2 Hr]. rewrite E1, E2 in Hr.
    change (goesOn (u :: u2 :: us) (iErrorCode s, ctx s)) with
      (fst (onNal false (rawUnit u ++ [0]) (iErrorCode s, ctx s)) = None /\
       goesOn (u2 :: us) (snd (onNal false (rawUnit u ++ [0]) (iErrorCode s, ctx s)))) in Hg.
    destruct Hg as [Hgo Hg].
    change (reusable (u :: u2 :: us) (iErrorCode s, ctx s)) with
      ((forall n, RawDataWrapIsClean queuedStarts (ctx s) n = true) /\
       reusable (u2 :: us) (snd (onNal false (rawUnit u ++ [0]) (iErrorCode s, ctx s)))) in Hre.
    destruct Hre as [_ Hre].
    destruct (onNal false (rawUnit u ++ [0]) (iErrorCode s, ctx s)) as [r' [e c]] eqn:Eon.
    cbn [fst snd] in Hgo, Hg, Hre. subst r'.
    destruct Hr as [(v' & -> & Hv' & H' & Ee & Ec)|(code & m & _ & Hcl)]; [|exfalso].
    2: { pose proof (reusable_first _ _ m Hre) as Hc. cbn [snd] in Hc. congruence. }
    wcall (IH u2 v' s2 fuel' Hu2 Hus H' Hv'); [fold tail; lia|by rewrite Ee, Ec|by rewrite Ee, Ec| |done].
    intros r s3 (Hk3 & v3 & nal & -> & H3 & Hnone & Hfin). split.
    { eapply rawKept_trans; [exact Hk|]. by eapply rawKept_trans. }
    exists v3, nal. splits; [done|done|done|]. rewrite Hfin, Ee, Ec.
    change (feed (u :: u2 :: us) (iErrorCode s, ctx s))
      with (feed (u2 :: us) (snd (onNal false (rawUnit u ++ [0]) (iErrorCode s, ctx s)))).
    by rewrite Eon.
Qed.

(** The start code at the front of a stream is the first one. *)
Lemma stream_first us u :
  let buf := streamOf (u :: us) in
  startCodeAt buf (zlen buf) 4 /\ (forall o, o < 4 -> ~ startCodeAt buf (zlen buf) o) /\
  zslice buf 4 (zlen buf - 4) = unitBytes u ++ streamOf us.
Proof.
  intros buf. assert (Hb : buf = [0; 0; 0; 1] ++ unitBytes u ++ streamOf us) by done.
  assert (Hl : 4 <= zlen buf) by (rewrite Hb, zlen_app; pose proof (zlen_nonneg (unitBytes u ++ streamOf us));
    change (zlen [0; 0; 0; 1]) with 4; lia).
  splits.
  - split; [lia|]. by rewrite Hb.
  - intros o Ho (Ho3 & _ & _ & H1). replace o with 3 in H1 by lia. by rewrite Hb in H1.
  - eapply (zslice_suffix buf 0 (zlen buf) 4 [0; 0; 0; 1]); [lia|lia| |done].
    rewrite zslice_all by done. done.
Qed.

(** The decoder hands on exactly the units of the stream, in order. *)
Lemma decode_units us u s :
  Forall naluOk (u :: us) -> rawOk (zlen (streamOf (u :: us))) s -> goesOn (u :: us) (iErrorCode s, ctx s) ->
  reusable (u :: us) (iErrorCode s, ctx s) ->
  wp (WelsDecodeBs onNal queuedStarts (streamOf (u :: us)) (zlen (streamOf (u :: us)))) s
     (fun code s' => code = iErrorCode s' /\ (iErrorCode s', ctx s') = feed (u :: us) (iErrorCode s, ctx s))
     (fun _ _ => False).
Proof.
  intros Hus Hraw Hg Hre. apply list.Forall_cons in Hus as [Hu Hus].
  destruct (stream_first us u) as (H4 & Hno & Hsl). set (buf := streamOf (u :: us)) in *.
  apply wp_WelsDecodeBs; [pose proof (zlen_nonneg buf); lia|done| | |].
  - intros code s' _ Hnone. by destruct (Hnone 4).
  - intros code s' _ (m & Hc). pose proof (reusable_first _ _ m Hre). cbn [snd] in *. congruence.
  - intros o s1 v Hk1 [E1 E2] Ho Hfirst Hv Hsc.
    assert (o = 4) as ->.
    { destruct (Z.lt_trichotomy o 4) as [?|[?|?]]; [by destruct (Hno o)|done|by destruct (Hfirst 4)]. }
    rewrite Hsl in Hsc.
    wcall (scan_units _ _ _ us u v s1 (Z.to_nat (zlen buf - 4)) Hu Hus Hsc Hv); [|by rewrite E1, E2|by rewrite E1, E2| |done].
    + pose proof (sc_left _ _ _ _ _ _ _ Hsc) as Hl. rewrite <- Hsl.
      assert (zlen (zslice buf 4 (zlen buf - 4)) = zlen buf - 4) as Hz
        by (destruct H4 as [? _]; apply zlen_slice; lia).
      unfold zlen in Hz at 1. lia.
    + intros r s2 (Hk2 & v' & nal & -> & H2 & Hgo & Hfin). split; [by eapply rawKept_trans|].
      exists nal. split; [done|]. intros s3 _.
      destruct (onNal true nal _) as [r' [e c]]. cbn [fst snd] in *. subst r'. intros -> ->.
      rewrite <- E1, <- E2. done.
Qed.

End Stream.

(** ** The encoder's stream *)

Definition rawOf (u : nalu) : SWelsNalRaw := mkNalRaw (nPayload u) (zlen (nPayload u)) (nHeader u).

(** The writers of a frame, one after the other; the first failure ends it. *)
Fixpoint writeNals (us : list nalu) : M frame Z :=
  match us with
  | [] => ret ENC_RETURN_SUCCESS
  | u :: us =>
      let! r := writeNal (rawOf u) (nExt u) in
      if negb (r =? ENC_RETURN_SUCCESS) then ret r else writeNals us
  end.

(** The space a unit asks for. *)
Definition unitNeeded (u : nalu) : Z :=
  let n := nalNeeded (nHeader u) (zlen (nPayload u)) in n + n / 2.

Lemma unitNeeded_nonneg u : 0 <= unitNeeded u.
Proof.
  unfold unitNeeded. cbv zeta. set (n := nalNeeded _ _). pose proof (zlen_nonneg (nPayload u)).
  assert (0 <= n) by (unfold n, nalNeeded; destruct (kbNALExt _); lia).
  pose proof (Z.div_pos n 2). lia.
Qed.

Definition frameOk (f : frame) : Prop := 0 <= iPosBsBuffer f <= zlen (pFrameBs f).

Lemma take_zwrite_0 (d l : list Z) : zlen l <= zlen d -> take (length l) (zwrite d 0 l) = l.
Proof.
  intros Hl. destruct l as [|x l]; [done|]. cbn [zwrite]. rewrite take_0. cbn [app].
  change (x :: l ++ ?t) with ((x :: l) ++ t). apply take_app_length.
Qed.

Lemma wp_writeNal u f :
  naluOk u -> frameOk f -> unitNeeded u <= zlen (pFrameBs f) - iPosBsBuffer f ->
  wp (writeNal (rawOf u) (nExt u)) f
     (fun r f' => r = ENC_RETURN_SUCCESS /\ frameOk f' /\ zlen (pFrameBs f') = zlen (pFrameBs f) /\
        iPosBsBuffer f' <= iPosBsBuffer f + unitNeeded u /\
        frameBytes f' = frameBytes f ++ [0; 0; 0; 1] ++ unitBytes u) (fun _ _ => False).
Proof.
  intros Hu [Hp Hp'] Hroom. unfold writeNal, wp. cbv zeta.
  rewrite (proj2 (Z.ltb_ge (iPosBsBuffer f) 0)), (proj2 (Z.ltb_ge (zlen (pFrameBs f)) _)) by lia. cbn [orb].
  set (pre := take _ _). set (d := drop _ _). set (avail := zlen (pFrameBs f) - iPosBsBuffer f) in *.
  assert (Hpre : zlen pre = iPosBsBuffer f) by (apply zlen_take; lia).
  assert (Hd : zlen d = avail) by (apply zlen_drop; lia).
  assert (Hext : kbNALExt (sNalHeader (rawOf u)) = true -> nExt u <> None).
  { intros Hk. destruct (n_ext _ Hu Hk) as (e & -> & _). done. }
  pose proof (wp_WelsEncodeNal (rawOf u) (nExt u) avail d) as Hw. cbv zeta in Hw.
  cbn [rawOf sNalHeader iPayloadSize pRawData] in Hw. fold (unitNeeded u) in Hw.
  rewrite zslice_all in Hw by done. fold (unitBytes u) in Hw.
  specialize (Hw ltac:(pose proof (zlen_nonneg (nPayload u)); lia) ltac:(lia) Hext).
  rewrite (proj2 (Z.ltb_ge avail _)) in Hw by exact Hroom.
  assert (Hfit : 4 + zlen (unitBytes u) <= unitNeeded u) by (apply nalUnit_fits; [exact Hext|reflexivity]).
  destruct (wp_Ok _ _ _ Hw) as ([code n] & d' & -> & [= -> ->] & -> & Hl).
  change (negb (ENC_RETURN_SUCCESS =? ENC_RETURN_SUCCESS)) with false. cbv iota beta.
  set (l := [0; 0; 0; 1] ++ unitBytes u) in *.
  assert (Hll : zlen l = 4 + zlen (unitBytes u)) by (unfold l; rewrite zlen_app; done).
  pose proof (zlen_nonneg (unitBytes u)).
  assert (Hz : zlen (zwrite d 0 l) = avail) by (rewrite zlen_write_in; lia).
  unfold frameOk. cbn [iPosBsBuffer pFrameBs]. rewrite zlen_app, Hpre, Hz.
  splits; [done|lia|lia|lia|lia|]. unfold frameBytes. cbn [iPosBsBuffer pFrameBs]. fold pre.
  replace (Z.to_nat (iPosBsBuffer f + _)) with (length pre + length l)%nat by (unfold zlen in *; lia).
  rewrite take_app_add, take_zwrite_0 by lia. done.
Qed.

Lemma wp_writeNals us : forall f,
  Forall naluOk us -> frameOk f ->
  foldr (fun u n => unitNeeded u + n) 0 us <= zlen (pFrameBs f) - iPosBsBuffer f ->
  wp (writeNals us) f
     (fun r f' => r = ENC_RETURN_SUCCESS /\ frameOk f' /\ zlen (pFrameBs f') = zlen (pFrameBs f) /\
        frameBytes f' = frameBytes f ++ streamOf us) (fun _ _ => False).
Proof.
  induction us as [|u us IH]; intros f Hus Hf Hroom; cbn [writeNals foldr] in *.
  { wsteps. splits; [done..|]. by rewrite app_nil_r. }
  apply list.Forall_cons in Hus as [Hu Hus].
  assert (Hn : 0 <= foldr (fun u n => unitNeeded u + n) 0 us).
  { clear. induction us as [|u us IH]; cbn [foldr]; [lia|]. pose proof (unitNeeded_nonneg u). lia. }
  wsteps. wcall (wp_writeNal u f Hu Hf); [lia| |done].
  intros r f1 (-> & Hf1 & Hl1 & Hp1 & Hb1). cbn [Z.eqb negb].
  wcall (IH f1 Hus Hf1); [lia| |done]. intros r f2 (-> & Hf2 & Hl2 & Hb2).
  splits; [done|done|lia|]. rewrite Hb2, Hb1. by rewrite <- app_assoc.
Qed.

(** A frame written from its start. *)
Lemma stream_written us f :
  Forall naluOk us -> frameOk f -> iPosBsBuffer f = 0 ->
  foldr (fun u n => unitNeeded u + n) 0 us <= zlen (pFrameBs f) ->
  exists f', writeNals us f = (Ok ENC_RETURN_SUCCESS, f') /\ frameBytes f' = streamOf us /\
    iPosBsBuffer f' = zlen (streamOf us) /\ zlen (streamOf us) <= zlen (pFrameBs f).
Proof.
  intros Hus Hf H0 Hroom.
  destruct (wp_Ok _ _ _ (wp_writeNals us f Hus Hf ltac:(lia))) as (r & f' & Hrun & -> & [Hp Hp'] & Hl & Hb).
  assert (Hbs : frameBytes f' = streamOf us) by (rewrite Hb; unfold frameBytes; by rewrite H0).
  assert (Hlen : iPosBsBuffer f' = zlen (streamOf us)) by (rewrite <- Hbs; symmetry; apply zlen_take; lia).
  exists f'. splits; [done..|lia].
Qed.

(** C9: every sequence of NAL units the encoder appends to a frame buffer comes out
    of the decoder's scan unchanged: the writers succeed when the buffer has
    the space they ask for, and [WelsDecodeBs] then hands on the header and the
    payload of each unit, with the emulation-prevention bytes taken out, in the
    order written (a unit that is not the last with the zero byte of the start
    code that follows it), and returns the error code it is left with.  The
    handler accepts each unit ([goesOn]) and leaves none waiting in a part of
    the raw-data buffer that is to be reused ([reusable]). *)
Theorem nal_stream_roundtrip {C} (onNal : bool -> list Z -> Z * C -> option Z * (Z * C)) queuedStarts u us f s :
  Forall naluOk (u :: us) -> frameOk f -> iPosBsBuffer f = 0 ->
  foldr (fun u n => unitNeeded u + n) 0 (u :: us) <= zlen (pFrameBs f) ->
  rawOk (zlen (pFrameBs f)) s ->
  goesOn onNal (u :: us) (iErrorCode s, ctx s) -> reusable onNal queuedStarts (u :: us) (iErrorCode s, ctx s) ->
  exists f' s', writeNals (u :: us) f = (Ok ENC_RETURN_SUCCESS, f') /\
    WelsDecodeBs onNal queuedStarts (frameBytes f') (iPosBsBuffer f') s = (Ok (iErrorCode s'), s') /\
    (iErrorCode s', ctx s') = feed onNal (u :: us) (iErrorCode s, ctx s).
Proof.
  intros Hus Hf H0 Hroom Hraw Hgo Hre.
  destruct (stream_written (u :: us) f Hus Hf H0 Hroom) as (f' & Hw & Hb & Hp & Hl).
  assert (Hraw' : rawOk (zlen (streamOf (u :: us))) s) by (unfold rawOk in *; lia).
  destruct (wp_Ok _ _ _ (decode_units onNal queuedStarts us u s Hus Hraw' Hgo Hre)) as (code & s' & Hrun & -> & Hfin).
  exists f', s'. by rewrite Hb, Hp.
Qed.

(** C10: the decoder's scan is safe on every byte string: whatever is done with the
    units, [WelsDecodeBs] indexes neither the stream nor its raw-data buffer
    out of range, comes to an end, and leaves the buffer ready for another
    stream of that size. *)
Theorem decode_bs_safe {C} (onNal : bool -> list Z -> Z * C -> option Z * (Z * C)) queuedStarts buf n s :
  0 <= n <= zlen buf -> rawOk n s ->
  exists code s', WelsDecodeBs onNal queuedStarts buf n s = (Ok code, s') /\ rawOk n s'.
Proof.
  intros Hn Hraw. apply (wp_Ok (WelsDecodeBs onNal queuedStarts buf n) s (fun _ s' => rawOk n s')).
  apply wp_WelsDecodeBs; [done|done|by intros ? ? ?%(rawOk_kept n s)|by intros ? ? ?%(rawOk_kept n s)|].
  intros o s1 v Hk1 _ Ho _ _ Hsc.
  wcall (scanLoop_safe onNal queuedStarts _ _ _ (Z.to_nat (n - o)) _ _ _ _ Hsc); [| |done].
  - destruct Ho as [? _]. assert (zlen (zslice buf o (n - o)) = n - o) as Hz by (apply zlen_slice; lia).
    unfold zlen in Hz. lia.
  - intros r s2 [Hk2 Hr]. pose proof (rawKept_trans _ _ _ Hk1 Hk2) as Hk. split; [done|].
    destruct r as [v'|code]; [|by eapply rawOk_kept]. destruct Hr as [nal Hsc']. exists nal. split; [done|].
    intros s3 Hk3. destruct (onNal _ _ _) as [[code|] [e c]]; intros _ _; by eapply rawOk_kept.
Qed.

(** No start code inside a unit: when [WelsEncodeNal] succeeds, two zero bytes of
    the unit it wrote after the start code are never followed by a byte below
    3. *)
Theorem nal_no_start_code raw ext len d n d' :
  0 <= iPayloadSize raw <= zlen (pRawData raw) -> bytes_ok (pRawData raw) -> len <= zlen d ->
  1 <= ENalUnitType (sNalHeader raw) < 32 -> (kbNALExt (sNalHeader raw) = true -> ext <> None) ->
  WelsEncodeNal raw ext len d = (Ok (ENC_RETURN_SUCCESS, Some n), d') ->
  noEmulation (zslice d' 4 (n - 4)) = true.
Proof.
  intros Hsize Hok Hlen Ht Hext Hrun. pose proof (wp_WelsEncodeNal raw ext len d Hsize Hlen Hext) as Hw.
  cbv zeta in Hw. unfold wp in Hw. rewrite Hrun in Hw. set (u := nalUnit _ _ _) in *.
  destruct (len <? _); [by destruct Hw|]. destruct Hw as ([= ->] & -> & Hfit).
  assert (Hs : zslice (zwrite d 0 ([0; 0; 0; 1] ++ u)) 4 (4 + zlen u - 4) = u).
  { eapply (zslice_suffix _ 0 (4 + zlen u) 4 [0; 0; 0; 1]); [lia|pose proof (zlen_nonneg u); lia| |done].
    assert (Hl : zlen ([0; 0; 0; 1] ++ u) = 4 + zlen u) by (by rewrite zlen_app).
    unfold zslice. rewrite drop_0, <- Hl. unfold zlen at 1. rewrite Nat2Z.id. apply take_zwrite_0. lia. }
  rewrite Hs. unfold u, nalUnit. fold (extBytes (sNalHeader raw) ext).
  rewrite noEmulation_cons by (by apply header_nonzero).
  assert (He : Forall (fun b => b <> 0) (extBytes (sNalHeader raw) ext)).
  { unfold extBytes. destruct (kbNALExt _); [|done]. destruct ext; [apply extBytes_nonzero|done]. }
  induction He as [|b l Hb _ IH]; [|cbn [app]; by rewrite noEmulation_cons].
  apply (escape_noEmulation _ (bytes_ok_slice _ _ _ Hok) 0). lia.
Qed.

(** A decoder that keeps the units it is handed. *)
Definition keepUnits (_ : bool) (nal : list Z) (ec : Z * list (list Z)) : option Z * (Z * list (list Z)) :=
  (None, (fst ec, snd ec ++ [nal])).

Definition sampleUnits : list nalu :=
  [mkNalu (mkNalHeader 0 3 7) None [1; 0; 0; 1; 0; 0; 0; 128]; mkNalu (mkNalHeader 0 2 8) None [0; 0; 3; 128]].

Lemma endsNonzero_snoc l b : b <> 0 -> endsNonzero (l ++ [b]).
Proof. intros Hb l' b' [_ E]%app_inj_2; [|done]. by injection E as <-. Qed.

Lemma sampleUnits_ok : Forall naluOk sampleUnits.
Proof.
  apply list.Forall_cons. split; [|apply list.Forall_singleton];
    (constructor; [cbn; lia|cbn; lia|discriminate| |]); try (unfold bytes_ok; repeat (apply list.Forall_cons; split; [unfold is_u8; lia|]); apply Forall_nil_2).
  - by apply (endsNonzero_snoc [1; 0; 0; 1; 0; 0; 0]).
  - by apply (endsNonzero_snoc [0; 0; 3]).
Qed.

Definition sampleDecoder : decState (C := list (list Z)) := mkDec (mkDataBuffer (replicate 200 0) 200 0) 0 [].

Lemma nal_stream_roundtrip_witness :
  exists f' s', writeNals sampleUnits (mkFrame (replicate 64 0) 0) = (Ok ENC_RETURN_SUCCESS, f') /\
    WelsDecodeBs keepUnits (fun _ => []) (frameBytes f') (iPosBsBuffer f') sampleDecoder = (Ok (iErrorCode s'), s') /\
    (iErrorCode s', ctx s') = (0, [[103; 1; 0; 0; 1; 0; 0; 0; 128; 0]; [72; 0; 0; 3; 128]]).
Proof.
  apply (nal_stream_roundtrip keepUnits (fun _ => []) (mkNalu (mkNalHeader 0 3 7) None [1; 0; 0; 1; 0; 0; 0; 128])
    [mkNalu (mkNalHeader 0 2 8) None [0; 0; 3; 128]] (mkFrame (replicate 64 0) 0) sampleDecoder).
  - exact sampleUnits_ok.
  - vm_compute. split; discriminate.
  - reflexivity.
  - vm_compute. discriminate.
  - vm_compute. splits; try reflexivity; discriminate.
  - vm_compute. split; reflexivity.
  - by repeat split.
Defined.

Lemma decode_bs_safe_witness :
  exists code s', WelsDecodeBs keepUnits (fun _ => []) [0; 0; 0; 1; 9; 0; 0; 2; 0; 0] 10 sampleDecoder = (Ok code, s') /\
    rawOk 10 s'.
Proof.
  apply (decode_bs_safe keepUnits (fun _ => []) [0; 0; 0; 1; 9; 0; 0; 2; 0; 0] 10 sampleDecoder).
  - vm_compute. split; discriminate.
  - vm_compute. splits; try reflexivity; discriminate.
Defined.

Lemma nal_no_start_code_witness :
  noEmulation (zslice ([0; 0; 0; 1; 103; 0; 0; 3; 1; 0; 0; 3; 0; 128] ++ replicate 26 0) 4 10) = true.
Proof.
  apply (nal_no_start_code (mkNalRaw [0; 0; 1; 0; 0; 0; 128] 7 (mkNalHeader 0 3 7)) None 40 (replicate 40 0) 14
    ([0; 0; 0; 1; 103; 0; 0; 3; 1; 0; 0; 3; 0; 128] ++ replicate 26 0)).
  - vm_compute. split; discriminate.
  - repeat constructor; unfold is_u8; lia.
  - vm_compute. discriminate.
  - cbn. lia.
  - discriminate.
  - vm_compute. reflexivity.
Defined.
