(* ===== verification/H264ParamsEnc.v ===== *)
(** * The encoder's parameter sets

    The sequence and picture parameter sets of the encoder
    (internal/encoder/au_set.go, internal/encoder/parameter_sets_h.go): how
    they are filled from the configuration of a spatial layer, with the choice
    of a level, and how they are written as syntax elements into a bit string.
    The ids they are written with come from the strategy of
    internal/encoder/paraset_strategy.go.

    Fields of Go types up to 32 bits are integers kept at their width by the
    operations that compute them. *)

From S2P Require Import Prelude Bytes H264Bits.

(** ** Levels (internal/common) *)

Record SLevelLimits := mkLimits {
  UiLevelIdc : Z;
  UiMaxMBPS : Z;
  UiMaxFS : Z;
  UiMaxDPBMbs : Z;
  UiMaxBR : Z;
  UiMaxCPB : Z;
  IMinVmv : Z;
  IMaxVmv : Z;
  UiMinCR : Z;
  IMaxMvsPer2Mb : Z
}.

Definition LEVEL_NUMBER : Z := 17.
Definition LEVEL_UNKNOWN : Z := 0.
Definition LEVEL_1_B : Z := 9.
Definition LEVEL_1_1 : Z := 11.
Definition LEVEL_5_1 : Z := 51.

Definition G_ksLevelLimits : list SLevelLimits := [
  mkLimits 10 1485 99 396 64 175 (-256) 255 2 32767;
  mkLimits 9 1485 99 396 128 350 (-256) 255 2 32767;
  mkLimits 11 3000 396 900 192 500 (-512) 511 2 32767;
  mkLimits 12 6000 396 2376 384 1000 (-512) 511 2 32767;
  mkLimits 13 11880 396 2376 768 2000 (-512) 511 2 32767;
  mkLimits 20 11880 396 2376 2000 2000 (-512) 511 2 32767;
  mkLimits 21 19800 792 4752 4000 4000 (-1024) 1023 2 32767;
  mkLimits 22 20250 1620 8100 4000 4000 (-1024) 1023 2 32767;
  mkLimits 30 40500 1620 8100 10000 10000 (-1024) 1023 2 32;
  mkLimits 31 108000 3600 18000 14000 14000 (-2048) 2047 4 16;
  mkLimits 32 216000 5120 20480 20000 20000 (-2048) 2047 4 16;
  mkLimits 40 245760 8192 32768 20000 25000 (-2048) 2047 4 16;
  mkLimits 41 245760 8192 32768 50000 62500 (-2048) 2047 2 16;
  mkLimits 42 522240 8704 34816 50000 62500 (-2048) 2047 2 16;
  mkLimits 50 589824 22080 110400 135000 135000 (-2048) 2047 2 16;
  mkLimits 51 983040 36864 184320 240000 240000 (-2048) 2047 2 16;
  mkLimits 52 2073600 36864 184320 240000 240000 (-2048) 2047 2 16 ].

(** ** Profiles *)

Definition PRO_BASELINE : Z := 66.
Definition PRO_MAIN : Z := 77.
Definition PRO_SCALABLE_BASELINE : Z := 83.
Definition PRO_SCALABLE_HIGH : Z := 86.
Definition PRO_EXTENDED : Z := 88.
Definition PRO_HIGH : Z := 100.
Definition PRO_HIGH10 : Z := 110.
Definition PRO_HIGH422 : Z := 122.
Definition PRO_HIGH444 : Z := 144.
Definition PRO_CAVLC444 : Z := 244.

(** The profiles whose sequence parameter sets carry the chroma format. *)
Definition hasChromaFormat (uiProfileIdc : Z) : bool :=
  (PRO_SCALABLE_BASELINE =? uiProfileIdc) || (PRO_SCALABLE_HIGH =? uiProfileIdc) ||
  (PRO_HIGH =? uiProfileIdc) || (PRO_HIGH10 =? uiProfileIdc) ||
  (PRO_HIGH422 =? uiProfileIdc) || (PRO_HIGH444 =? uiProfileIdc) ||
  (PRO_CAVLC444 =? uiProfileIdc) || (44 =? uiProfileIdc).

Definition ASP_EXT_SAR : Z := 255.

Module PEnc.

(** ** The structures *)

Record SCropOffset := mkCrop {
  iCropLeft : Z;
  iCropRight : Z;
  iCropTop : Z;
  iCropBottom : Z
}.

#[export] Instance eta_SCropOffset : Settable SCropOffset := fun r =>
  mkCrop (iCropLeft r) (iCropRight r) (iCropTop r) (iCropBottom r).

Definition zeroSCropOffset : SCropOffset :=
  mkCrop 0 0 0 0.

Record SWelsSPS := mkSps {
  uiSpsId : Z;
  iMbWidth : Z;
  iMbHeight : Z;
  uiLog2MaxFrameNum : Z;
  uiPocType : Z;
  iLog2MaxPocLsb : Z;
  sFrameCrop : SCropOffset;
  iNumRefFrames : Z;
  uiProfileIdc : Z;
  iLevelIdc : Z;
  bGapsInFrameNumValueAllowedFlag : bool;
  bFrameCroppingFlag : bool;
  bVuiParamPresentFlag : bool;
  bVideoSignalTypePresent : bool;
  uiVideoFormat : Z;
  bFullRange : bool;
  bColorDescriptionPresent : bool;
  uiColorPrimaries : Z;
  uiTransferCharacteristics : Z;
  uiColorMatrix : Z;
  bConstraintSet0Flag : bool;
  bConstraintSet1Flag : bool;
  bConstraintSet2Flag : bool;
  bConstraintSet3Flag : bool;
  bAspectRatioPresent : bool;
  eAspectRatio : Z;
  sAspectRatioExtWidth : Z;
  sAspectRatioExtHeight : Z
}.

#[export] Instance eta_SWelsSPS : Settable SWelsSPS := fun r =>
  mkSps
    (uiSpsId r) (iMbWidth r) (iMbHeight r) (uiLog2MaxFrameNum r) (uiPocType r) (iLog2MaxPocLsb r)
    (sFrameCrop r) (iNumRefFrames r) (uiProfileIdc r) (iLevelIdc r)
    (bGapsInFrameNumValueAllowedFlag r) (bFrameCroppingFlag r) (bVuiParamPresentFlag r)
    (bVideoSignalTypePresent r) (uiVideoFormat r) (bFullRange r) (bColorDescriptionPresent r)
    (uiColorPrimaries r) (uiTransferCharacteristics r) (uiColorMatrix r) (bConstraintSet0Flag r)
    (bConstraintSet1Flag r) (bConstraintSet2Flag r) (bConstraintSet3Flag r)
    (bAspectRatioPresent r) (eAspectRatio r) (sAspectRatioExtWidth r) (sAspectRatioExtHeight r).

Definition zeroSWelsSPS : SWelsSPS :=
  mkSps
    0 0 0 0 0 0 zeroSCropOffset 0 0 0 false false false false 0 false false 0 0 0 false false
    false false false 0 0 0.

Record SSpsSvcExt := mkSvcExt {
  iExtendedSpatialScalability : Z;
  bSeqTcoeffLevelPredFlag : bool;
  bAdaptiveTcoeffLevelPredFlag : bool;
  bSliceHeaderRestrictionFlag : bool
}.

#[export] Instance eta_SSpsSvcExt : Settable SSpsSvcExt := fun r =>
  mkSvcExt
    (iExtendedSpatialScalability r) (bSeqTcoeffLevelPredFlag r) (bAdaptiveTcoeffLevelPredFlag r)
    (bSliceHeaderRestrictionFlag r).

Definition zeroSSpsSvcExt : SSpsSvcExt :=
  mkSvcExt 0 false false false.

Record SSubsetSps := mkSubset {
  pSps : SWelsSPS;
  sSpsSvcExt : SSpsSvcExt
}.

#[export] Instance eta_SSubsetSps : Settable SSubsetSps := fun r =>
  mkSubset (pSps r) (sSpsSvcExt r).

Definition zeroSSubsetSps : SSubsetSps :=
  mkSubset zeroSWelsSPS zeroSSpsSvcExt.

Record SWelsPPS := mkPps {
  iSpsId : Z;
  iPpsId : Z;
  iPicInitQp : Z;
  iPicInitQs : Z;
  uiChromaQpIndexOffset : Z;
  bEntropyCodingModeFlag : bool;
  bDeblockingFilterControlPresentFlag : bool
}.

#[export] Instance eta_SWelsPPS : Settable SWelsPPS := fun r =>
  mkPps
    (iSpsId r) (iPpsId r) (iPicInitQp r) (iPicInitQs r) (uiChromaQpIndexOffset r)
    (bEntropyCodingModeFlag r) (bDeblockingFilterControlPresentFlag r).

Definition zeroSWelsPPS : SWelsPPS :=
  mkPps 0 0 0 0 0 false false.

Definition auSetB2U (b : bool) : Z := if b then 1 else 0.

(** ** Writing *)

Definition WelsWriteVUI (pSps : SWelsSPS) : BS unit :=
  do! BsWriteOneBit (auSetB2U (bAspectRatioPresent pSps)) in
  do! (if bAspectRatioPresent pSps then
         do! BsWriteBits 8 (u32 (eAspectRatio pSps)) in
         if eAspectRatio pSps =? ASP_EXT_SAR then
           do! BsWriteBits 16 (u32 (sAspectRatioExtWidth pSps)) in
           BsWriteBits 16 (u32 (sAspectRatioExtHeight pSps))
         else ret tt
       else ret tt) in
  do! BsWriteOneBit 0 in
  do! BsWriteOneBit (auSetB2U (bVideoSignalTypePresent pSps)) in
  do! (if bVideoSignalTypePresent pSps then
         do! BsWriteBits 3 (u32 (uiVideoFormat pSps)) in
         do! BsWriteOneBit (auSetB2U (bFullRange pSps)) in
         do! BsWriteOneBit (auSetB2U (bColorDescriptionPresent pSps)) in
         if bColorDescriptionPresent pSps then
           do! BsWriteBits 8 (u32 (uiColorPrimaries pSps)) in
           do! BsWriteBits 8 (u32 (uiTransferCharacteristics pSps)) in
           BsWriteBits 8 (u32 (uiColorMatrix pSps))
         else ret tt
       else ret tt) in
  do! BsWriteOneBit 0 in
  do! BsWriteOneBit 0 in
  do! BsWriteOneBit 0 in
  do! BsWriteOneBit 0 in
  do! BsWriteOneBit 0 in
  do! BsWriteOneBit 1 in
  do! BsWriteOneBit 1 in
  do! BsWriteUE 0 in
  do! BsWriteUE 0 in
  do! BsWriteUE 16 in
  do! BsWriteUE 16 in
  do! BsWriteUE 0 in
  BsWriteUE (u32 (i32 (iNumRefFrames pSps))).

Definition WelsWriteSpsSyntax (pSps : SWelsSPS) (pSpsIdDelta : list Z) (bBaseLayer : bool) : BS unit :=
  do! BsWriteBits 8 (u32 (uiProfileIdc pSps)) in
  do! BsWriteOneBit (auSetB2U (bConstraintSet0Flag pSps)) in
  do! BsWriteOneBit (auSetB2U (bConstraintSet1Flag pSps)) in
  do! BsWriteOneBit (auSetB2U (bConstraintSet2Flag pSps)) in
  do! BsWriteOneBit (auSetB2U (bConstraintSet3Flag pSps)) in
  do! (if (PRO_HIGH =? uiProfileIdc pSps) || (PRO_EXTENDED =? uiProfileIdc pSps) ||
          (PRO_MAIN =? uiProfileIdc pSps) then
         do! BsWriteOneBit 1 in
         do! BsWriteOneBit 1 in
         BsWriteBits 2 0
       else BsWriteBits 4 0) in
  do! BsWriteBits 8 (u32 (iLevelIdc pSps)) in
  let! delta := gindex pSpsIdDelta (uiSpsId pSps) in
  do! BsWriteUE (u32 (uiSpsId pSps + u32 delta)) in
  do! (if hasChromaFormat (uiProfileIdc pSps) then
         do! BsWriteUE 1 in
         do! BsWriteUE 0 in
         do! BsWriteUE 0 in
         do! BsWriteOneBit 0 in
         BsWriteOneBit 0
       else ret tt) in
  do! BsWriteUE (u32 (uiLog2MaxFrameNum pSps - 4)) in
  do! BsWriteUE (uiPocType pSps) in
  do! (if uiPocType pSps =? 0 then BsWriteUE (u32 (i32 (iLog2MaxPocLsb pSps - 4)))
       else ret tt) in
  do! BsWriteUE (u32 (i32 (iNumRefFrames pSps))) in
  do! BsWriteOneBit (auSetB2U (bGapsInFrameNumValueAllowedFlag pSps)) in
  do! BsWriteUE (u32 (i32 (iMbWidth pSps - 1))) in
  do! BsWriteUE (u32 (i32 (iMbHeight pSps - 1))) in
  do! BsWriteOneBit 1 in
  let d8x8 := if 30 <=? iLevelIdc pSps then 1 else 0 in
  do! BsWriteOneBit d8x8 in
  do! BsWriteOneBit (auSetB2U (bFrameCroppingFlag pSps)) in
  do! (if bFrameCroppingFlag pSps then
         do! BsWriteUE (u32 (i32 (iCropLeft (sFrameCrop pSps)))) in
         do! BsWriteUE (u32 (i32 (iCropRight (sFrameCrop pSps)))) in
         do! BsWriteUE (u32 (i32 (iCropTop (sFrameCrop pSps)))) in
         BsWriteUE (u32 (i32 (iCropBottom (sFrameCrop pSps))))
       else ret tt) in
  if bBaseLayer then
    do! BsWriteOneBit 1 in
    WelsWriteVUI pSps
  else BsWriteOneBit 0.

Definition WelsWriteSpsNal (pSps : SWelsSPS) (pSpsIdDelta : list Z) : BS unit :=
  do! WelsWriteSpsSyntax pSps pSpsIdDelta true in
  BsRbspTrailingBits.

Definition WelsWriteSubsetSpsSyntax (pSubsetSps : SSubsetSps) (pSpsIdDelta : list Z) : BS unit :=
  let sps := pSps pSubsetSps in
  do! WelsWriteSpsSyntax sps pSpsIdDelta false in
  do! (if (uiProfileIdc sps =? PRO_SCALABLE_BASELINE) || (uiProfileIdc sps =? PRO_SCALABLE_HIGH) then
         let pSubsetSpsExt := sSpsSvcExt pSubsetSps in
         do! BsWriteOneBit 1 in
         do! BsWriteBits 2 (u32 (iExtendedSpatialScalability pSubsetSpsExt)) in
         do! BsWriteOneBit 0 in
         do! BsWriteBits 2 1 in
         do! (if iExtendedSpatialScalability pSubsetSpsExt =? 1 then
                do! BsWriteOneBit 0 in
                do! BsWriteBits 2 1 in
                do! BsWriteSE 0 in
                do! BsWriteSE 0 in
                do! BsWriteSE 0 in
                BsWriteSE 0
              else ret tt) in
         do! BsWriteOneBit (auSetB2U (bSeqTcoeffLevelPredFlag pSubsetSpsExt)) in
         do! (if bSeqTcoeffLevelPredFlag pSubsetSpsExt
              then BsWriteOneBit (auSetB2U (bAdaptiveTcoeffLevelPredFlag pSubsetSpsExt))
              else ret tt) in
         do! BsWriteOneBit (auSetB2U (bSliceHeaderRestrictionFlag pSubsetSpsExt)) in
         BsWriteOneBit 0
       else ret tt) in
  do! BsWriteOneBit 0 in
  BsRbspTrailingBits.

(** What the id strategy tells the writers: the offsets of the ids. *)
Record IWelsParametersetStrategy := mkStrategy {
  GetPpsIdOffset : Z -> Z;
  GetSpsIdOffset : Z -> Z -> Z
}.

Definition CWelsParametersetIdConstant : IWelsParametersetStrategy :=
  mkStrategy (fun _ => 0) (fun _ _ => 0).

Definition WelsWritePpsSyntax (pPps : SWelsPPS) (strategy : IWelsParametersetStrategy) : BS unit :=
  do! BsWriteUE (u32 (iPpsId pPps + u32 (GetPpsIdOffset strategy (i32 (iPpsId pPps))))) in
  do! BsWriteUE (u32 (iSpsId pPps +
                      u32 (GetSpsIdOffset strategy (i32 (iPpsId pPps)) (i32 (iSpsId pPps))))) in
  do! BsWriteOneBit (auSetB2U (bEntropyCodingModeFlag pPps)) in
  do! BsWriteOneBit 0 in
  do! BsWriteUE 0 in
  do! BsWriteUE 0 in
  do! BsWriteUE 0 in
  do! BsWriteOneBit 0 in
  do! BsWriteBits 2 0 in
  do! BsWriteSE (i32 (iPicInitQp pPps - 26)) in
  do! BsWriteSE (i32 (iPicInitQs pPps - 26)) in
  do! BsWriteSE (i32 (uiChromaQpIndexOffset pPps)) in
  do! BsWriteOneBit (auSetB2U (bDeblockingFilterControlPresentFlag pPps)) in
  do! BsWriteOneBit 0 in
  do! BsWriteOneBit 0 in
  BsRbspTrailingBits.

(** ** The level of a stream

    [mbRate] is [uint32(float32(uiPicInMBs) * fFrameRate)], the macroblocks per
    second as a function of the macroblocks of a picture: floating-point
    arithmetic is not modelled. *)

Definition UNSPECIFIED_BIT_RATE : Z := 0.

Definition WelsCheckLevelLimitation (kpSps : SWelsSPS) (kpLevelLimit : SLevelLimits)
    (mbRate : Z -> Z) (iTargetBitRate : Z) : bool :=
  let uiPicWidthInMBs := u32 (i32 (iMbWidth kpSps)) in
  let uiPicHeightInMBs := u32 (i32 (iMbHeight kpSps)) in
  let uiPicInMBs := u32 (uiPicWidthInMBs * uiPicHeightInMBs) in
  let uiNumRefFrames := u32 (i32 (iNumRefFrames kpSps)) in
  if UiMaxMBPS kpLevelLimit <? mbRate uiPicInMBs then false
  else if UiMaxFS kpLevelLimit <? uiPicInMBs then false
  else if u32 (Z.shiftl (UiMaxFS kpLevelLimit) 3) <? u32 (uiPicWidthInMBs * uiPicWidthInMBs) then false
  else if u32 (Z.shiftl (UiMaxFS kpLevelLimit) 3) <? u32 (uiPicHeightInMBs * uiPicHeightInMBs) then false
  else if UiMaxDPBMbs kpLevelLimit <? u32 (uiNumRefFrames * uiPicInMBs) then false
  else if negb (iTargetBitRate =? UNSPECIFIED_BIT_RATE) &&
          (i32 (i32 (UiMaxBR kpLevelLimit) * 1200) <? iTargetBitRate) then false
  else true.

(** The first level of the table whose limits the stream keeps, or 5.1. *)
Fixpoint levelSearch (limits : list SLevelLimits) (kpSps : SWelsSPS) (mbRate : Z -> Z)
    (iTargetBitRate : Z) : Z :=
  match limits with
  | [] => LEVEL_5_1
  | l :: limits' =>
      if WelsCheckLevelLimitation kpSps l mbRate iTargetBitRate then UiLevelIdc l
      else levelSearch limits' kpSps mbRate iTargetBitRate
  end.

Definition WelsGetLevelIdc (kpSps : SWelsSPS) (mbRate : Z -> Z) (iTargetBitRate : Z) : Z :=
  levelSearch G_ksLevelLimits kpSps mbRate iTargetBitRate.

(** [auSetLevelLimitsByIdc]: the index of the entry in the table. *)
Fixpoint levelIndex (limits : list SLevelLimits) (i uiLevelIdc : Z) : Z :=
  match limits with
  | [] => LEVEL_NUMBER - 1
  | l :: limits' => if UiLevelIdc l =? uiLevelIdc then i else levelIndex limits' (i + 1) uiLevelIdc
  end.

Definition auSetLevelLimitsByIdc (uiLevelIdc : Z) : Z :=
  let iIdx := uiLevelIdc - 1 in
  if (0 <=? iIdx) && (iIdx <? LEVEL_NUMBER) then iIdx
  else levelIndex G_ksLevelLimits 0 uiLevelIdc.

(** ** Filling the sets *)

(** The crop offsets and whether they are needed; [None] leaves them alone. *)
Definition WelsGetPaddingOffset (iActualWidth iActualHeight iWidth iHeight : Z) :
    bool * option SCropOffset :=
  if (iWidth <? iActualWidth) || (iHeight <? iActualHeight) then (false, None)
  else
    let iActualWidth := iActualWidth - Z.land iActualWidth 1 in
    let iActualHeight := iActualHeight - Z.land iActualHeight 1 in
    ((iActualWidth <? iWidth) || (iActualHeight <? iHeight),
     Some (mkCrop 0 (i16 (Z.quot (iWidth - iActualWidth) 2))
                  0 (i16 (Z.quot (iHeight - iActualHeight) 2)))).

(** The part of a spatial layer's configuration that reaches the set
    ([SSpatialLayerConfig], [SSpatialLayerInternal]); [outRate] is the product
    of [fOutputFrameRate] above. *)
Record SSpatialLayerConfig := mkLayer {
  IVideoWidth : Z;
  IVideoHeight : Z;
  iActualWidth : Z;
  iActualHeight : Z;
  outRate : Z -> Z;
  ISpatialBitrate : Z;
  UiProfileIdc : Z;
  UiLayerLevelIdc : Z;
  BVideoSignalTypePresent : bool;
  UiVideoFormat : Z;
  BFullRange : bool;
  BColorDescriptionPresent : bool;
  UiColorPrimaries : Z;
  UiTransferCharacteristics : Z;
  UiColorMatrix : Z;
  BAspectRatioPresent : bool;
  EAspectRatio : Z;
  SAspectRatioExtWidth : Z;
  SAspectRatioExtHeight : Z
}.

(** The first half of [WelsInitSps]: geometry, cropping, profile and its
    constraint flags. *)
Definition initSpsProfile (pLayerParam : SSpatialLayerConfig) (kiNumRefFrame kuiSpsId : Z)
    (kbEnableFrameCropping : bool) (kiDlayerCount : Z) (bSVCBaselayer : bool) : SWelsSPS :=
  let sps := zeroSWelsSPS
    <| uiSpsId := kuiSpsId |>
    <| iMbWidth := i16 (Z.shiftr (i32 (IVideoWidth pLayerParam + 15)) 4) |>
    <| iMbHeight := i16 (Z.shiftr (i32 (IVideoHeight pLayerParam + 15)) 4) |>
    <| uiLog2MaxFrameNum := 15 |>
    <| uiPocType := 2 |>
    <| iLog2MaxPocLsb := 16 |>
    <| iNumRefFrames := i16 kiNumRefFrame |> in
  let sps :=
    if kbEnableFrameCropping then
      let '(flag, crop) := WelsGetPaddingOffset (iActualWidth pLayerParam) (iActualHeight pLayerParam)
                             (IVideoWidth pLayerParam) (IVideoHeight pLayerParam) in
      let sps := match crop with Some c => sps <| sFrameCrop := c |> | None => sps end in
      sps <| bFrameCroppingFlag := flag |>
    else sps <| bFrameCroppingFlag := false |> in
  let sps := sps <| uiProfileIdc := if negb (UiProfileIdc pLayerParam =? 0)
                                    then u8 (UiProfileIdc pLayerParam) else PRO_BASELINE |> in
  let sps := if UiProfileIdc pLayerParam =? PRO_BASELINE
             then sps <| bConstraintSet0Flag := true |> else sps in
  let sps := if UiProfileIdc pLayerParam <=? PRO_MAIN
             then sps <| bConstraintSet1Flag := true |> else sps in
  if (1 <? kiDlayerCount) && bSVCBaselayer
  then sps <| bConstraintSet2Flag := true |> else sps.

(** The level of the set and the one written back to the layer. *)
Definition initSpsLevel (pLayerParam : SSpatialLayerConfig) (sps : SWelsSPS) : SWelsSPS * Z :=
  let uiLevel := WelsGetLevelIdc sps (outRate pLayerParam) (ISpatialBitrate pLayerParam) in
  let kuiProfile := uiProfileIdc sps in
  let '(uiLevel, sps) :=
    if (uiLevel =? LEVEL_1_B) &&
       ((kuiProfile =? PRO_BASELINE) || (kuiProfile =? PRO_MAIN) || (kuiProfile =? PRO_EXTENDED))
    then (LEVEL_1_1, sps <| bConstraintSet3Flag := true |>) else (uiLevel, sps) in
  let layerLevel := if (UiLayerLevelIdc pLayerParam =? LEVEL_UNKNOWN) || (UiLayerLevelIdc pLayerParam <? uiLevel)
                    then uiLevel else UiLayerLevelIdc pLayerParam in
  (sps <| iLevelIdc := u8 layerLevel |>, layerLevel).

(** The set and the level that is written back to the layer. *)
Definition WelsInitSps (pLayerParam : SSpatialLayerConfig) (kiNumRefFrame kuiSpsId : Z)
    (kbEnableFrameCropping : bool) (kiDlayerCount : Z) (bSVCBaselayer : bool) : SWelsSPS * Z :=
  let sps := initSpsProfile pLayerParam kiNumRefFrame kuiSpsId kbEnableFrameCropping kiDlayerCount bSVCBaselayer in
  let '(sps, layerLevel) := initSpsLevel pLayerParam sps in
  let sps := sps <| bGapsInFrameNumValueAllowedFlag :=
                      negb ((kiDlayerCount =? 1) && (iNumRefFrames sps =? 1)) |> in
  (sps <| bVuiParamPresentFlag := true |>
       <| bAspectRatioPresent := BAspectRatioPresent pLayerParam |>
       <| eAspectRatio := EAspectRatio pLayerParam |>
       <| sAspectRatioExtWidth := SAspectRatioExtWidth pLayerParam |>
       <| sAspectRatioExtHeight := SAspectRatioExtHeight pLayerParam |>
       <| bVideoSignalTypePresent := BVideoSignalTypePresent pLayerParam |>
       <| uiVideoFormat := UiVideoFormat pLayerParam |>
       <| bFullRange := BFullRange pLayerParam |>
       <| bColorDescriptionPresent := BColorDescriptionPresent pLayerParam |>
       <| uiColorPrimaries := UiColorPrimaries pLayerParam |>
       <| uiTransferCharacteristics := UiTransferCharacteristics pLayerParam |>
       <| uiColorMatrix := UiColorMatrix pLayerParam |>, layerLevel).

Definition WelsInitSubsetSps (pLayerParam : SSpatialLayerConfig) (kiNumRefFrame kuiSpsId : Z)
    (kbEnableFrameCropping : bool) (kiDlayerCount : Z) : SSubsetSps * Z :=
  let '(sps, layerLevel) := WelsInitSps pLayerParam kiNumRefFrame kuiSpsId kbEnableFrameCropping
                              kiDlayerCount false in
  (zeroSSubsetSps <| pSps := sps <| uiProfileIdc := u8 (UiProfileIdc pLayerParam) |> |>
                  <| sSpsSvcExt := mkSvcExt 0 false false true |>, layerLevel).

(** [pSps] and [pSubsetSps] are the sets the caller has, [None] for nil; the
    result is [None] when the function returns 1. *)
Definition WelsInitPps (pSps : option SWelsSPS) (pSubsetSps : option SSubsetSps) (kuiPpsId : Z)
    (kbDeblockingFilterPresentFlag kbUsingSubsetSps kbEntropyCodingModeFlag : bool) : option SWelsPPS :=
  let pUsedSps := if negb kbUsingSubsetSps then pSps
                  else match pSubsetSps with Some s => Some (PEnc.pSps s) | None => None end in
  match pUsedSps with
  | None => None
  | Some sps =>
      Some (zeroSWelsPPS <| iPpsId := kuiPpsId |> <| iSpsId := uiSpsId sps |>
              <| bEntropyCodingModeFlag := kbEntropyCodingModeFlag |>
              <| iPicInitQp := 26 |> <| iPicInitQs := 26 |> <| uiChromaQpIndexOffset := 0 |>
              <| bDeblockingFilterControlPresentFlag := kbDeblockingFilterPresentFlag |>)
  end.

Definition CheckMatchedSps (pSps1 pSps2 : SWelsSPS) : bool :=
  let c1 := sFrameCrop pSps1 in let c2 := sFrameCrop pSps2 in
  if negb (iMbWidth pSps1 =? iMbWidth pSps2) || negb (iMbHeight pSps1 =? iMbHeight pSps2) then false
  else if negb (uiLog2MaxFrameNum pSps1 =? uiLog2MaxFrameNum pSps2) ||
          negb (iLog2MaxPocLsb pSps1 =? iLog2MaxPocLsb pSps2) then false
  else if negb (iNumRefFrames pSps1 =? iNumRefFrames pSps2) then false
  else if negb (eqb (bFrameCroppingFlag pSps1) (bFrameCroppingFlag pSps2)) ||
          negb (iCropLeft c1 =? iCropLeft c2) || negb (iCropRight c1 =? iCropRight c2) ||
          negb (iCropTop c1 =? iCropTop c2) || negb (iCropBottom c1 =? iCropBottom c2) then false
  else if negb (uiProfileIdc pSps1 =? uiProfileIdc pSps2) ||
          negb (eqb (bConstraintSet0Flag pSps1) (bConstraintSet0Flag pSps2)) ||
          negb (eqb (bConstraintSet1Flag pSps1) (bConstraintSet1Flag pSps2)) ||
          negb (eqb (bConstraintSet2Flag pSps1) (bConstraintSet2Flag pSps2)) ||
          negb (eqb (bConstraintSet3Flag pSps1) (bConstraintSet3Flag pSps2)) ||
          negb (iLevelIdc pSps1 =? iLevelIdc pSps2) then false
  else true.

End PEnc.
