(* ===== verification/H264ParamsDec.v ===== *)
(** * The decoder's parameter sets

    The sequence and picture parameter sets of the decoder and their parser
    (internal/decoder/au_parser.go, internal/decoder/parameter_sets_h.go): the
    syntax of a set, with its VUI, SVC extension and scaling lists; the buffers
    of the sets received, with the rules for replacing a set in use; and what
    the decoder does with a unit that carries a set, from the header byte
    ([ParseNalHeader]) to the stored set ([ParseNonVclNal]) and the end of the
    unit ([DecodeFinishUpdate]).

    Log messages are left out, the parse-only mode is off. *)

From S2P Require Import Prelude Bytes H264Bits H264ParamsEnc.

Module PDec.

(** ** The structures *)

Record SPosOffset := mkPos {
  iLeftOffset : Z;
  iTopOffset : Z;
  iRightOffset : Z;
  iBottomOffset : Z
}.

#[export] Instance eta_SPosOffset : Settable SPosOffset := fun r =>
  mkPos (iLeftOffset r) (iTopOffset r) (iRightOffset r) (iBottomOffset r).

Definition zeroSPosOffset : SPosOffset :=
  mkPos 0 0 0 0.

Record SVui := mkVui {
  bAspectRatioInfoPresentFlag : bool;
  uiAspectRatioIdc : Z;
  uiSarWidth : Z;
  uiSarHeight : Z;
  bOverscanInfoPresentFlag : bool;
  bOverscanAppropriateFlag : bool;
  bVideoSignalTypePresentFlag : bool;
  uiVideoFormat : Z;
  bVideoFullRangeFlag : bool;
  bColourDescripPresentFlag : bool;
  uiColourPrimaries : Z;
  uiTransferCharacteristics : Z;
  uiMatrixCoeffs : Z;
  bChromaLocInfoPresentFlag : bool;
  uiChromaSampleLocTypeTopField : Z;
  uiChromaSampleLocTypeBottomField : Z;
  bTimingInfoPresentFlag : bool;
  uiNumUnitsInTick : Z;
  uiTimeScale : Z;
  bFixedFrameRateFlag : bool;
  bNalHrdParamPresentFlag : bool;
  bVclHrdParamPresentFlag : bool;
  bPicStructPresentFlag : bool;
  bBitstreamRestrictionFlag : bool;
  bMotionVectorsOverPicBoundariesFlag : bool;
  uiMaxBytesPerPicDenom : Z;
  uiMaxBitsPerMbDenom : Z;
  uiLog2MaxMvLengthHorizontal : Z;
  uiLog2MaxMvLengthVertical : Z;
  uiMaxNumReorderFrames : Z;
  uiMaxDecFrameBuffering : Z
}.

#[export] Instance eta_SVui : Settable SVui := fun r =>
  mkVui
    (bAspectRatioInfoPresentFlag r) (uiAspectRatioIdc r) (uiSarWidth r) (uiSarHeight r)
    (bOverscanInfoPresentFlag r) (bOverscanAppropriateFlag r) (bVideoSignalTypePresentFlag r)
    (uiVideoFormat r) (bVideoFullRangeFlag r) (bColourDescripPresentFlag r) (uiColourPrimaries r)
    (uiTransferCharacteristics r) (uiMatrixCoeffs r) (bChromaLocInfoPresentFlag r)
    (uiChromaSampleLocTypeTopField r) (uiChromaSampleLocTypeBottomField r)
    (bTimingInfoPresentFlag r) (uiNumUnitsInTick r) (uiTimeScale r) (bFixedFrameRateFlag r)
    (bNalHrdParamPresentFlag r) (bVclHrdParamPresentFlag r) (bPicStructPresentFlag r)
    (bBitstreamRestrictionFlag r) (bMotionVectorsOverPicBoundariesFlag r)
    (uiMaxBytesPerPicDenom r) (uiMaxBitsPerMbDenom r) (uiLog2MaxMvLengthHorizontal r)
    (uiLog2MaxMvLengthVertical r) (uiMaxNumReorderFrames r) (uiMaxDecFrameBuffering r).

Definition zeroSVui : SVui :=
  mkVui
    false 0 0 0 false false false 0 false false 0 0 0 false 0 0 false 0 0 false false false false
    false false 0 0 0 0 0 0.

(** [pSLevelLimits] points into the level table: its index. *)
Record SSps := mkSps {
  iSpsId : Z;
  iMbWidth : Z;
  iMbHeight : Z;
  uiTotalMbCount : Z;
  uiLog2MaxFrameNum : Z;
  uiPocType : Z;
  iLog2MaxPocLsb : Z;
  iOffsetForNonRefPic : Z;
  iOffsetForTopToBottomField : Z;
  iNumRefFramesInPocCycle : Z;
  iOffsetForRefFrame : list Z;
  iNumRefFrames : Z;
  sFrameCrop : SPosOffset;
  uiProfileIdc : Z;
  uiLevelIdc : Z;
  uiChromaFormatIdc : Z;
  uiChromaArrayType : Z;
  uiBitDepthLuma : Z;
  uiBitDepthChroma : Z;
  bDeltaPicOrderAlwaysZeroFlag : bool;
  bGapsInFrameNumValueAllowedFlag : bool;
  bFrameMbsOnlyFlag : bool;
  bMbaffFlag : bool;
  bDirect8x8InferenceFlag : bool;
  bFrameCroppingFlag : bool;
  bVuiParamPresentFlag : bool;
  bConstraintSet0Flag : bool;
  bConstraintSet1Flag : bool;
  bConstraintSet2Flag : bool;
  bConstraintSet3Flag : bool;
  bSeparateColorPlaneFlag : bool;
  bQpPrimeYZeroTransfBypassFlag : bool;
  bSeqScalingMatrixPresentFlag : bool;
  bSeqScalingListPresentFlag : list bool;
  iScalingList4x4 : list (list Z);
  iScalingList8x8 : list (list Z);
  sVui : SVui;
  pSLevelLimits : option Z
}.

#[export] Instance eta_SSps : Settable SSps := fun r =>
  mkSps
    (iSpsId r) (iMbWidth r) (iMbHeight r) (uiTotalMbCount r) (uiLog2MaxFrameNum r) (uiPocType r)
    (iLog2MaxPocLsb r) (iOffsetForNonRefPic r) (iOffsetForTopToBottomField r)
    (iNumRefFramesInPocCycle r) (iOffsetForRefFrame r) (iNumRefFrames r) (sFrameCrop r)
    (uiProfileIdc r) (uiLevelIdc r) (uiChromaFormatIdc r) (uiChromaArrayType r) (uiBitDepthLuma r)
    (uiBitDepthChroma r) (bDeltaPicOrderAlwaysZeroFlag r) (bGapsInFrameNumValueAllowedFlag r)
    (bFrameMbsOnlyFlag r) (bMbaffFlag r) (bDirect8x8InferenceFlag r) (bFrameCroppingFlag r)
    (bVuiParamPresentFlag r) (bConstraintSet0Flag r) (bConstraintSet1Flag r)
    (bConstraintSet2Flag r) (bConstraintSet3Flag r) (bSeparateColorPlaneFlag r)
    (bQpPrimeYZeroTransfBypassFlag r) (bSeqScalingMatrixPresentFlag r)
    (bSeqScalingListPresentFlag r) (iScalingList4x4 r) (iScalingList8x8 r) (sVui r)
    (pSLevelLimits r).

Definition zeroSSps : SSps :=
  mkSps
    0 0 0 0 0 0 0 0 0 0 (replicate 256 0) 0 zeroSPosOffset 0 0 0 0 0 0 false false false false
    false false false false false false false false false false (replicate 12 false)
    (replicate 6 (replicate 16 0)) (replicate 6 (replicate 64 0)) zeroSVui None.

Record SSpsSvcExt := mkSvcExt {
  sSeqScaledRefLayer : SPosOffset;
  uiExtendedSpatialScalability : Z;
  uiChromaPhaseXPlus1Flag : Z;
  uiChromaPhaseYPlus1 : Z;
  uiSeqRefLayerChromaPhaseXPlus1Flag : Z;
  uiSeqRefLayerChromaPhaseYPlus1 : Z;
  bInterLayerDeblockingFilterCtrlPresentFlag : bool;
  bSeqTCoeffLevelPredFlag : bool;
  bAdaptiveTCoeffLevelPredFlag : bool;
  bSliceHeaderRestrictionFlag : bool
}.

#[export] Instance eta_SSpsSvcExt : Settable SSpsSvcExt := fun r =>
  mkSvcExt
    (sSeqScaledRefLayer r) (uiExtendedSpatialScalability r) (uiChromaPhaseXPlus1Flag r)
    (uiChromaPhaseYPlus1 r) (uiSeqRefLayerChromaPhaseXPlus1Flag r)
    (uiSeqRefLayerChromaPhaseYPlus1 r) (bInterLayerDeblockingFilterCtrlPresentFlag r)
    (bSeqTCoeffLevelPredFlag r) (bAdaptiveTCoeffLevelPredFlag r) (bSliceHeaderRestrictionFlag r).

Definition zeroSSpsSvcExt : SSpsSvcExt :=
  mkSvcExt
    zeroSPosOffset 0 0 0 0 0 false false false false.

Record SSubsetSps := mkSubset {
  sSps : SSps;
  sSpsSvcExt : SSpsSvcExt;
  bSvcVuiParamPresentFlag : bool;
  bAdditionalExtension2Flag : bool;
  bAdditionalExtension2DataFlag : bool
}.

#[export] Instance eta_SSubsetSps : Settable SSubsetSps := fun r =>
  mkSubset
    (sSps r) (sSpsSvcExt r) (bSvcVuiParamPresentFlag r) (bAdditionalExtension2Flag r)
    (bAdditionalExtension2DataFlag r).

Definition zeroSSubsetSps : SSubsetSps :=
  mkSubset
    zeroSSps zeroSSpsSvcExt false false false.

(** The fields that a sequence parameter set has too carry a prefix. *)
Record SPps := mkPps {
  pps_iSpsId : Z;
  iPpsId : Z;
  uiNumSliceGroups : Z;
  uiSliceGroupMapType : Z;
  uiRunLength : list Z;
  uiTopLeft : list Z;
  uiBottomRight : list Z;
  uiSliceGroupChangeRate : Z;
  uiPicSizeInMapUnits : Z;
  uiSliceGroupId : list Z;
  uiNumRefIdxL0Active : Z;
  uiNumRefIdxL1Active : Z;
  iPicInitQp : Z;
  iPicInitQs : Z;
  iChromaQpIndexOffset : list Z;
  bEntropyCodingModeFlag : bool;
  bPicOrderPresentFlag : bool;
  bSliceGroupChangeDirectionFlag : bool;
  bDeblockingFilterControlPresentFlag : bool;
  bConstainedIntraPredFlag : bool;
  bRedundantPicCntPresentFlag : bool;
  bWeightedPredFlag : bool;
  uiWeightedBipredIdc : Z;
  bTransform8x8ModeFlag : bool;
  bPicScalingMatrixPresentFlag : bool;
  bPicScalingListPresentFlag : list bool;
  pps_iScalingList4x4 : list (list Z);
  pps_iScalingList8x8 : list (list Z);
  iSecondChromaQPIndexOffset : Z
}.

#[export] Instance eta_SPps : Settable SPps := fun r =>
  mkPps
    (pps_iSpsId r) (iPpsId r) (uiNumSliceGroups r) (uiSliceGroupMapType r) (uiRunLength r)
    (uiTopLeft r) (uiBottomRight r) (uiSliceGroupChangeRate r) (uiPicSizeInMapUnits r)
    (uiSliceGroupId r) (uiNumRefIdxL0Active r) (uiNumRefIdxL1Active r) (iPicInitQp r)
    (iPicInitQs r) (iChromaQpIndexOffset r) (bEntropyCodingModeFlag r) (bPicOrderPresentFlag r)
    (bSliceGroupChangeDirectionFlag r) (bDeblockingFilterControlPresentFlag r)
    (bConstainedIntraPredFlag r) (bRedundantPicCntPresentFlag r) (bWeightedPredFlag r)
    (uiWeightedBipredIdc r) (bTransform8x8ModeFlag r) (bPicScalingMatrixPresentFlag r)
    (bPicScalingListPresentFlag r) (pps_iScalingList4x4 r) (pps_iScalingList8x8 r)
    (iSecondChromaQPIndexOffset r).

Definition zeroSPps : SPps :=
  mkPps
    0 0 0 0 (replicate 8 0) (replicate 8 0) (replicate 8 0) 0 0 (replicate 8 0) 0 0 0 0
    (replicate 2 0) false false false false false false false 0 false false (replicate 12 false)
    (replicate 6 (replicate 16 0)) (replicate 6 (replicate 64 0)) 0.

#[export] Instance SPosOffset_eq_dec : EqDecision SPosOffset.
Proof. solve_decision. Defined.
#[export] Instance SVui_eq_dec : EqDecision SVui.
Proof. solve_decision. Defined.
#[export] Instance SSps_eq_dec : EqDecision SSps.
Proof. solve_decision. Defined.
#[export] Instance SSpsSvcExt_eq_dec : EqDecision SSpsSvcExt.
Proof. solve_decision. Defined.
#[export] Instance SSubsetSps_eq_dec : EqDecision SSubsetSps.
Proof. solve_decision. Defined.
#[export] Instance SPps_eq_dec : EqDecision SPps.
Proof. solve_decision. Defined.

(** ** Error codes and limits *)

Definition ERR_LEVEL_PARAM_SETS : Z := 4.
Definition ERR_INFO_SPS_ID_OVERFLOW : Z := 1004.
Definition ERR_INFO_PPS_ID_OVERFLOW : Z := 1005.
Definition ERR_INFO_INVALID_POC_TYPE : Z := 1008.
Definition ERR_INFO_REF_COUNT_OVERFLOW : Z := 1010.
Definition ERR_INFO_INVALID_CROPPING_DATA : Z := 1012.
Definition ERR_INFO_INVALID_SLICEGROUP : Z := 1014.
Definition ERR_INFO_INVALID_MAX_NUM_REF_FRAMES : Z := 1019.
Definition ERR_INFO_INVALID_MAX_MB_SIZE : Z := 1020.
Definition ERR_INFO_INVALID_PIC_INIT_QS : Z := 1030.
Definition ERR_INFO_INVALID_CHROMA_QP_INDEX_OFFSET : Z := 1031.
Definition ERR_INFO_INVALID_PIC_INIT_QP : Z := 1032.
Definition ERR_INFO_INVALID_LOG2_MAX_FRAME_NUM_MINUS4 : Z := 1033.
Definition ERR_INFO_INVALID_LOG2_MAX_PIC_ORDER_CNT_LSB_MINUS4 : Z := 1034.
Definition ERR_INFO_INVALID_NUM_REF_FRAME_IN_PIC_ORDER_CNT_CYCLE : Z := 1035.
Definition ERR_INFO_INVALID_SPS_ID : Z := 1039.
Definition ERR_INFO_UNSUPPORTED_NON_BASELINE : Z := 1062.
Definition ERR_INFO_UNSUPPORTED_FMOTYPE : Z := 1063.
Definition ERR_INFO_UNSUPPORTED_MBAFF : Z := 1064.
Definition ERR_INFO_INVALID_ESS : Z := 1079.
Definition ERR_SCALING_LIST_DELTA_SCALE : Z := 10016.

Definition GENERATE_ERROR_NO (iErrLevel iErrInfo : Z) : Z :=
  Z.lor (Z.shiftl iErrLevel 16) (Z.land iErrInfo 65535).

(** [GENERATE_ERROR_NO(ERR_LEVEL_PARAM_SETS, info)] *)
Definition paramSetsError (info : Z) : error := ECode (GENERATE_ERROR_NO ERR_LEVEL_PARAM_SETS info).

Definition MAX_SPS_COUNT : Z := 32.
Definition MAX_PPS_COUNT : Z := 256.
Definition MAX_MB_SIZE : Z := 36864.
Definition MAX_SLICEGROUP_IDS : Z := 8.
Definition MAX_REF_PIC_COUNT : Z := 16.
Definition SPS_LOG2_MAX_FRAME_NUM_MINUS4_MAX : Z := 12.
Definition SPS_LOG2_MAX_PIC_ORDER_CNT_LSB_MINUS4_MAX : Z := 12.
Definition SPS_NUM_REF_FRAMES_IN_PIC_ORDER_CNT_CYCLE_MAX : Z := 255.
Definition SPS_MAX_NUM_REF_FRAMES_MAX : Z := 16.
Definition PPS_PIC_INIT_QP_QS_MAX : Z := 51.
Definition PPS_CHROMA_QP_INDEX_OFFSET_MAX : Z := 12.
Definition EXTENDED_SAR : Z := 255.

(** [val < lower || val > upper] *)
Definition outside (val lower upper : Z) : bool := (val <? lower) || (upper <? val).

(** A one-bit flag; a call whose error is ignored. *)
Definition getFlag : BS bool := let! c := BsGetOneBit in ret (negb (c =? 0)).
Definition ignore (m : BS Z) : BS unit := do! gtry m in ret tt.

(** [a[i] = v] on an array held in a variable. *)
Definition gstore {S A} (l : list A) (i : Z) (v : A) : M S (list A) :=
  if (0 <=? i) && (i <? zlen l) then ret (zinsert i v l) else panic.

(** ** Levels *)

(** The index in the level table, [None] for nil. *)
Definition GetLevelLimits (iLevelIdx : Z) (bConstraint3 : bool) : option Z :=
  match iLevelIdx with
  | 9 => Some 1
  | 10 => Some 0
  | 11 => if bConstraint3 then Some 1 else Some 2
  | 12 => Some 3
  | 13 => Some 4
  | 20 => Some 5
  | 21 => Some 6
  | 22 => Some 7
  | 30 => Some 8
  | 31 => Some 9
  | 32 => Some 10
  | 40 => Some 11
  | 41 => Some 12
  | 42 => Some 13
  | 50 => Some 14
  | 51 => Some 15
  | 52 => Some 16
  | _ => None
  end.

(** ** Scaling lists *)

Definition g_kuiZigzagScan : list Z :=
  [0; 1; 4; 8; 5; 2; 3; 6; 9; 12; 13; 10; 7; 11; 14; 15].

Definition g_kuiZigzagScan8x8 : list Z := [
  0; 1; 8; 16; 9; 2; 3; 10;
  17; 24; 32; 25; 18; 11; 4; 5;
  12; 19; 26; 33; 40; 48; 41; 34;
  27; 20; 13; 6; 7; 14; 21; 28;
  35; 42; 49; 56; 57; 50; 43; 36;
  29; 22; 15; 23; 30; 37; 44; 51;
  58; 59; 52; 45; 38; 31; 39; 46;
  53; 60; 61; 54; 47; 55; 62; 63 ].

Definition G_kuiDequantScaling4x4Default : list (list Z) := [
  [6; 13; 20; 28; 13; 20; 28; 32; 20; 28; 32; 37; 28; 32; 37; 42];
  [10; 14; 20; 24; 14; 20; 24; 27; 20; 24; 27; 30; 24; 27; 30; 34] ].

Definition G_kuiDequantScaling8x8Default : list (list Z) := [
  [ 6; 10; 13; 16; 18; 23; 25; 27; 10; 11; 16; 18; 23; 25; 27; 29;
    13; 16; 18; 23; 25; 27; 29; 31; 16; 18; 23; 25; 27; 29; 31; 33;
    18; 23; 25; 27; 29; 31; 33; 36; 23; 25; 27; 29; 31; 33; 36; 38;
    25; 27; 29; 31; 33; 36; 38; 40; 27; 29; 31; 33; 36; 38; 40; 42];
  [ 9; 13; 15; 17; 19; 21; 22; 24; 13; 13; 17; 19; 21; 22; 24; 25;
    15; 17; 19; 21; 22; 24; 25; 27; 17; 19; 21; 22; 24; 25; 27; 28;
    19; 21; 22; 24; 25; 27; 28; 30; 21; 22; 24; 25; 27; 28; 30; 32;
    22; 24; 25; 27; 28; 30; 32; 33; 24; 25; 27; 28; 30; 32; 33; 35] ].

(** The rounds [j] to [iScalingListNum - 1]; [fuel] of them are left.  The
    result is the list and whether the default matrix is to be used. *)
Fixpoint scalingLoop (fuel : nat) (j iScalingListNum iLastScale iNextScale : Z)
    (pScalingList : list Z) : BS (list Z * bool) :=
  match fuel with
  | O => ret (pScalingList, false)
  | S fuel' =>
      let! iNextScale' :=
        (if negb (iNextScale =? 0) then
           let! iCode := BsGetSe in
           check! outside iCode (-128) 127 else ECode ERR_SCALING_LIST_DELTA_SCALE in
           ret (Z.rem (iLastScale + iCode + 256) 256)
         else ret iNextScale) in
      if negb (iNextScale =? 0) && (j =? 0) && (iNextScale' =? 0) then ret (pScalingList, true)
      else
        let! iIdx := gindex (if iScalingListNum =? 16 then g_kuiZigzagScan else g_kuiZigzagScan8x8) j in
        let v := u8 (if iNextScale' =? 0 then iLastScale else iNextScale') in
        let! pScalingList := gstore pScalingList iIdx v in
        scalingLoop fuel' (j + 1) iScalingListNum v iNextScale' pScalingList
  end.

Definition SetScalingListValue (pScalingList : list Z) (iScalingListNum : Z) : BS (list Z * bool) :=
  scalingLoop (Z.to_nat iScalingListNum) 0 iScalingListNum 8 8 pScalingList.

(** The arrays that [ParseScalingList] fills. *)
Record scaling := mkScaling {
  present : list bool;
  lists4x4 : list (list Z);
  lists8x8 : list (list Z)
}.

#[export] Instance eta_scaling : Settable scaling := fun r =>
  mkScaling (present r) (lists4x4 r) (lists8x8 r).

(** One list of [ParseScalingList]; [default4], [default8] are the entries of
    [defaultScaling]. *)
Definition scalingList (default4 default8 : list (list Z)) (i : Z) (a : scaling) : BS scaling :=
  let! flag := getFlag in
  let! p := gstore (present a) i flag in
  let a := a <| present := p |> in
  let! l :=
    (if flag then
       if i <? 6 then
         let! old := gindex (lists4x4 a) i in
         let! r := SetScalingListValue old 16 in
         let '(l, useDefault) := r in
         if useDefault then gindex G_kuiDequantScaling4x4Default (Z.quot i 3) else ret l
       else
         let! old := gindex (lists8x8 a) (i - 6) in
         let! r := SetScalingListValue old 64 in
         let '(l, useDefault) := r in
         if useDefault then gindex G_kuiDequantScaling8x8Default (Z.land (i - 6) 1) else ret l
     else
       if i <? 6 then
         if negb (i =? 0) && negb (i =? 3) then gindex (lists4x4 a) (i - 1)
         else gindex default4 (Z.quot i 3)
       else
         if (i =? 6) || (i =? 7) then gindex default8 (Z.land i 1)
         else gindex (lists8x8 a) (i - 8)) in
  if i <? 6 then let! l4 := gstore (lists4x4 a) i l in ret (a <| lists4x4 := l4 |>)
  else let! l8 := gstore (lists8x8 a) (i - 6) l in ret (a <| lists8x8 := l8 |>).

Fixpoint scalingLists (fuel : nat) (default4 default8 : list (list Z)) (i : Z) (a : scaling) : BS scaling :=
  match fuel with
  | O => ret a
  | S fuel' =>
      let! a := scalingList default4 default8 i a in
      scalingLists fuel' default4 default8 (i + 1) a
  end.

Definition ParseScalingList (pSps : SSps) (bPPS kbTrans8x8ModeFlag : bool) (a : scaling) : BS scaling :=
  let uiScalingListNum :=
    if negb bPPS then (if negb (uiChromaFormatIdc pSps =? 3) then 8 else 12)
    else 6 + (if kbTrans8x8ModeFlag then 1 else 0) * (if negb (uiChromaFormatIdc pSps =? 3) then 2 else 6) in
  let bInit := bPPS && bSeqScalingMatrixPresentFlag pSps in
  let! defaults :=
    (if bInit then
       let! l0 := gindex (iScalingList4x4 pSps) 0 in
       let! l3 := gindex (iScalingList4x4 pSps) 3 in
       let! m0 := gindex (iScalingList8x8 pSps) 0 in
       let! m1 := gindex (iScalingList8x8 pSps) 1 in
       ret ([l0; l3], [m0; m1])
     else ret (G_kuiDequantScaling4x4Default, G_kuiDequantScaling8x8Default)) in
  let '(default4, default8) := defaults in
  scalingLists (Z.to_nat uiScalingListNum) default4 default8 0 a.

(** ** VUI *)

Definition g_ksVuiSampleAspectRatio : list (Z * Z) := [
  (0, 0); (1, 1); (12, 11); (10, 11); (16, 11);
  (40, 33); (24, 11); (20, 11); (32, 11); (80, 33);
  (18, 11); (15, 11); (64, 33); (160, 99); (4, 3);
  (3, 2); (2, 1) ].

Fixpoint hrdLoop (fuel : nat) : BS unit :=
  match fuel with
  | O => ret tt
  | S fuel' =>
      do! ignore BsGetUe in
      do! ignore BsGetUe in
      do! ignore BsGetOneBit in
      hrdLoop fuel'
  end.

(** [cpb_cnt_minus1] is the return code of [BsGetUe]. *)
Definition parseVuiHrdParameters : BS unit :=
  let! r := gtry BsGetUe in
  let cpb_cnt_minus1 := match r with inr (ECode c) => i32 c | _ => 0 end in
  do! ignore (BsGetBits 4) in
  do! ignore (BsGetBits 4) in
  do! hrdLoop (Z.to_nat (cpb_cnt_minus1 + 1)) in
  do! ignore (BsGetBits 5) in
  do! ignore (BsGetBits 5) in
  do! ignore (BsGetBits 5) in
  ignore (BsGetBits 5).

(** [uiTmp = uiCode << 16; uiTmp |= uiCode'] *)
Definition get32 : BS Z :=
  let! hi := BsGetBits 16 in
  let! lo := BsGetBits 16 in
  ret (Z.lor (shl32 hi 16) lo).

Definition vuiAspectRatio (pVui : SVui) : BS SVui :=
  let! f := getFlag in
  let pVui := pVui <| bAspectRatioInfoPresentFlag := f |> in
  if f then
    let! idc := BsGetBits 8 in
    let pVui := pVui <| uiAspectRatioIdc := idc |> in
    if idc <? 17 then
      let! sar := gindex g_ksVuiSampleAspectRatio idc in
      ret (pVui <| uiSarWidth := fst sar |> <| uiSarHeight := snd sar |>)
    else if idc =? EXTENDED_SAR then
      let! w := BsGetBits 16 in
      let! h := BsGetBits 16 in
      ret (pVui <| uiSarWidth := w |> <| uiSarHeight := h |>)
    else ret pVui
  else ret pVui.

Definition vuiSignalType (pVui : SVui) : BS SVui :=
  let! f := getFlag in
  let pVui := pVui <| bOverscanInfoPresentFlag := f |> in
  let! pVui := (if f then let! g := getFlag in ret (pVui <| bOverscanAppropriateFlag := g |>)
                else ret pVui) in
  let! f := getFlag in
  let pVui := pVui <| bVideoSignalTypePresentFlag := f |> in
  if f then
    let! v := BsGetBits 3 in
    let! r := getFlag in
    let! d := getFlag in
    let pVui := pVui <| uiVideoFormat := u8 v |> <| bVideoFullRangeFlag := r |>
                     <| bColourDescripPresentFlag := d |> in
    if d then
      let! p := BsGetBits 8 in
      let! t := BsGetBits 8 in
      let! m := BsGetBits 8 in
      ret (pVui <| uiColourPrimaries := u8 p |> <| uiTransferCharacteristics := u8 t |>
                <| uiMatrixCoeffs := u8 m |>)
    else ret pVui
  else ret pVui.

Definition vuiTiming (pVui : SVui) : BS SVui :=
  let! f := getFlag in
  let pVui := pVui <| bChromaLocInfoPresentFlag := f |> in
  let! pVui :=
    (if f then
       let! t := BsGetUe in
       let! b := BsGetUe in
       ret (pVui <| uiChromaSampleLocTypeTopField := t |> <| uiChromaSampleLocTypeBottomField := b |>)
     else ret pVui) in
  let! f := getFlag in
  let pVui := pVui <| bTimingInfoPresentFlag := f |> in
  if f then
    let! n := get32 in
    let! t := get32 in
    let! x := getFlag in
    ret (pVui <| uiNumUnitsInTick := n |> <| uiTimeScale := t |> <| bFixedFrameRateFlag := x |>)
  else ret pVui.

Definition vuiHrd (pVui : SVui) : BS SVui :=
  let! n := getFlag in
  let pVui := pVui <| bNalHrdParamPresentFlag := n |> in
  do! (if n then parseVuiHrdParameters else ret tt) in
  let! v := getFlag in
  let pVui := pVui <| bVclHrdParamPresentFlag := v |> in
  do! (if v then parseVuiHrdParameters else ret tt) in
  do! (if n || v then ignore BsGetOneBit else ret tt) in
  let! p := getFlag in
  ret (pVui <| bPicStructPresentFlag := p |>).

Definition vuiRestriction (pVui : SVui) : BS SVui :=
  let! f := getFlag in
  let pVui := pVui <| bBitstreamRestrictionFlag := f |> in
  if f then
    let! m := getFlag in
    let! a := BsGetUe in
    let! b := BsGetUe in
    let! c := BsGetUe in
    let! d := BsGetUe in
    let! e := BsGetUe in
    let! g := BsGetUe in
    ret (pVui <| bMotionVectorsOverPicBoundariesFlag := m |>
              <| uiMaxBytesPerPicDenom := a |> <| uiMaxBitsPerMbDenom := b |>
              <| uiLog2MaxMvLengthHorizontal := c |> <| uiLog2MaxMvLengthVertical := d |>
              <| uiMaxNumReorderFrames := e |> <| uiMaxDecFrameBuffering := g |>)
  else ret pVui.

Definition ParseVui (pVui : SVui) : BS SVui :=
  let! pVui := vuiAspectRatio pVui in
  let! pVui := vuiSignalType pVui in
  let! pVui := vuiTiming pVui in
  let! pVui := vuiHrd pVui in
  vuiRestriction pVui.

(** ** The SVC extension *)

Definition DecodeSpsSvcExt (pExt : SSpsSvcExt) : BS SSpsSvcExt :=
  let! d := getFlag in
  let! ess := BsGetBits 2 in
  let pExt := pExt <| bInterLayerDeblockingFilterCtrlPresentFlag := d |>
                   <| uiExtendedSpatialScalability := u8 ess |> in
  check! 2 <? u8 ess else paramSetsError ERR_INFO_INVALID_ESS in
  let! cx := BsGetOneBit in
  let! cy := BsGetBits 2 in
  let pExt := pExt <| uiChromaPhaseXPlus1Flag := u8 cx |> <| uiChromaPhaseYPlus1 := u8 cy |>
                   <| uiSeqRefLayerChromaPhaseXPlus1Flag := u8 cx |>
                   <| uiSeqRefLayerChromaPhaseYPlus1 := u8 cy |>
                   <| sSeqScaledRefLayer := zeroSPosOffset |> in
  let! pExt :=
    (if u8 ess =? 1 then
       let! rx := BsGetOneBit in
       let! ry := BsGetBits 2 in
       let! l := BsGetSe in
       let! t := BsGetSe in
       let! r := BsGetSe in
       let! b := BsGetSe in
       ret (pExt <| uiSeqRefLayerChromaPhaseXPlus1Flag := u8 rx |>
                 <| uiSeqRefLayerChromaPhaseYPlus1 := u8 ry |>
                 <| sSeqScaledRefLayer := mkPos l t r b |>)
     else ret pExt) in
  let! q := getFlag in
  let pExt := pExt <| bSeqTCoeffLevelPredFlag := q |> <| bAdaptiveTCoeffLevelPredFlag := false |> in
  let! pExt := (if q then let! a := getFlag in ret (pExt <| bAdaptiveTCoeffLevelPredFlag := a |>)
                else ret pExt) in
  let! h := getFlag in
  ret (pExt <| bSliceHeaderRestrictionFlag := h |>).

(** ** The sequence parameter set

    [ParseSps] reads the set into a temporary one; the definitions below are
    the successive parts of its syntax. *)

Definition knownProfile (p : Z) : bool :=
  negb (negb (p =? PRO_BASELINE) && negb (p =? PRO_MAIN) && negb (p =? PRO_SCALABLE_BASELINE) &&
        negb (p =? PRO_SCALABLE_HIGH) && negb (p =? PRO_EXTENDED) && negb (p =? PRO_HIGH)).

Definition isScalable (p : Z) : bool := (PRO_SCALABLE_BASELINE =? p) || (PRO_SCALABLE_HIGH =? p).

(** constraint_set0_flag to constraint_set5_flag *)
Fixpoint getFlags (n : nat) : BS (list bool) :=
  match n with
  | O => ret []
  | S n' => let! b := getFlag in let! bs := getFlags n' in ret (b :: bs)
  end.

(** The profile, the constraint flags, the level and the id: [None] when the
    profile is not supported and the function returns without an error. *)
Definition spsHead : BS (option SSps) :=
  let! p := BsGetBits 8 in
  if negb (knownProfile p) then ret None
  else
    let! bConstraintSetFlags := getFlags 6 in
    do! BsGetBits 2 in
    let! l := BsGetBits 8 in
    let uiLevelIdc := u8 l in
    let! id := BsGetUe in
    check! MAX_SPS_COUNT <=? id else paramSetsError ERR_INFO_SPS_ID_OVERFLOW in
    let! c3 := gindex bConstraintSetFlags 3 in
    match GetLevelLimits uiLevelIdc c3 with
    | None => throw (paramSetsError ERR_INFO_UNSUPPORTED_NON_BASELINE)
    | Some lim =>
        ret (Some (zeroSSps <| pSLevelLimits := Some lim |>
                            <| uiChromaFormatIdc := 1 |> <| uiChromaArrayType := 1 |>
                            <| uiProfileIdc := p |> <| PDec.uiLevelIdc := uiLevelIdc |>
                            <| iSpsId := i32 id |>))
    end.

(** The chroma format, bit depths and scaling matrices of the high profiles. *)
Definition spsChroma (pSps : SSps) : BS SSps :=
  if hasChromaFormat (uiProfileIdc pSps) then
    let! c := BsGetUe in
    let pSps := pSps <| uiChromaFormatIdc := u8 c |> in
    check! 1 <? u8 c else paramSetsError ERR_INFO_UNSUPPORTED_NON_BASELINE in
    let pSps := pSps <| uiChromaArrayType := u8 c |> in
    let! d := BsGetUe in
    check! negb (d =? 0) else paramSetsError ERR_INFO_UNSUPPORTED_NON_BASELINE in
    let pSps := pSps <| uiBitDepthLuma := 8 |> in
    let! d := BsGetUe in
    check! negb (d =? 0) else paramSetsError ERR_INFO_UNSUPPORTED_NON_BASELINE in
    let pSps := pSps <| uiBitDepthChroma := 8 |> in
    let! q := getFlag in
    let! m := getFlag in
    let pSps := pSps <| bQpPrimeYZeroTransfBypassFlag := q |> <| bSeqScalingMatrixPresentFlag := m |> in
    if m then
      let! a := ParseScalingList pSps false false
                  (mkScaling (bSeqScalingListPresentFlag pSps) (iScalingList4x4 pSps) (iScalingList8x8 pSps)) in
      ret (pSps <| bSeqScalingListPresentFlag := present a |>
                <| iScalingList4x4 := lists4x4 a |> <| iScalingList8x8 := lists8x8 a |>)
    else ret pSps
  else ret pSps.

Fixpoint refFrameOffsets (fuel : nat) (i : Z) (a : list Z) : BS (list Z) :=
  match fuel with
  | O => ret a
  | S fuel' =>
      let! c := BsGetSe in
      let! a := gstore a i (i8 c) in
      refFrameOffsets fuel' (i + 1) a
  end.

(** Frame numbers and picture order counts. *)
Definition spsPoc (pSps : SSps) : BS SSps :=
  let! n := BsGetUe in
  check! SPS_LOG2_MAX_FRAME_NUM_MINUS4_MAX <? n
    else paramSetsError ERR_INFO_INVALID_LOG2_MAX_FRAME_NUM_MINUS4 in
  let! t := BsGetUe in
  let pSps := pSps <| uiLog2MaxFrameNum := u32 (4 + n) |> <| uiPocType := t |> in
  let! pSps :=
    (if 0 =? t then
       let! l := BsGetUe in
       check! SPS_LOG2_MAX_PIC_ORDER_CNT_LSB_MINUS4_MAX <? l
         else paramSetsError ERR_INFO_INVALID_LOG2_MAX_PIC_ORDER_CNT_LSB_MINUS4 in
       ret (pSps <| iLog2MaxPocLsb := i32 (u32 (4 + l)) |>)
     else if 1 =? t then
       let! z := getFlag in
       let! o1 := BsGetSe in
       let! o2 := BsGetSe in
       let! c := BsGetUe in
       check! SPS_NUM_REF_FRAMES_IN_PIC_ORDER_CNT_CYCLE_MAX <? c
         else paramSetsError ERR_INFO_INVALID_NUM_REF_FRAME_IN_PIC_ORDER_CNT_CYCLE in
       let! a := refFrameOffsets (Z.to_nat (i32 c)) 0 (iOffsetForRefFrame pSps) in
       ret (pSps <| bDeltaPicOrderAlwaysZeroFlag := z |> <| iOffsetForNonRefPic := o1 |>
                 <| iOffsetForTopToBottomField := o2 |> <| iNumRefFramesInPocCycle := i32 c |>
                 <| iOffsetForRefFrame := a |>)
     else ret pSps) in
  check! 2 <? t else paramSetsError ERR_INFO_INVALID_POC_TYPE in
  ret pSps.

(** One side of the picture against the levels: [fs] is the frame size limit of
    the set's level, [maxFs] that of level 5.2. *)
Definition mbSideError (mb fs maxFs : Z) : bool :=
  ((MAX_MB_SIZE <? mb) || (mb =? 0)) ||
  ((u32 (8 * fs) <? u64 (mb * mb)) && (u32 (8 * maxFs) <? u64 (mb * mb))).

(** The reference frames and the size of the picture. *)
Definition spsSize (pSps : SSps) : BS SSps :=
  let! maxLimits := (match GetLevelLimits 52 false with Some i => gindex G_ksLevelLimits i | None => panic end) in
  let! limits := (match pSLevelLimits pSps with Some i => gindex G_ksLevelLimits i | None => panic end) in
  let! n := BsGetUe in
  let! g := getFlag in
  let! w := BsGetUe in
  let iMbWidth := u32 (1 + w) in
  check! mbSideError iMbWidth (UiMaxFS limits) (UiMaxFS maxLimits)
    else paramSetsError ERR_INFO_INVALID_MAX_MB_SIZE in
  let! h := BsGetUe in
  let iMbHeight := u32 (1 + h) in
  check! mbSideError iMbHeight (UiMaxFS limits) (UiMaxFS maxLimits)
    else paramSetsError ERR_INFO_INVALID_MAX_MB_SIZE in
  let uiTmp64 := u64 (iMbWidth * iMbHeight) in
  check! (UiMaxFS limits <? uiTmp64) && (UiMaxFS maxLimits <? uiTmp64)
    else paramSetsError ERR_INFO_INVALID_MAX_MB_SIZE in
  check! SPS_MAX_NUM_REF_FRAMES_MAX <? i32 n else paramSetsError ERR_INFO_INVALID_MAX_NUM_REF_FRAMES in
  do! (if u32 uiTmp64 =? 0 then panic else ret tt) in (* uiMaxDpbMbs / uiTotalMbCount *)
  ret (pSps <| iNumRefFrames := i32 n |> <| bGapsInFrameNumValueAllowedFlag := g |>
            <| PDec.iMbWidth := iMbWidth |> <| PDec.iMbHeight := iMbHeight |>
            <| uiTotalMbCount := u32 uiTmp64 |>).

(** Frame or field coding and the cropping rectangle. *)
Definition spsCrop (pSps : SSps) : BS SSps :=
  let! m := getFlag in
  check! negb m else paramSetsError ERR_INFO_UNSUPPORTED_MBAFF in
  let! d := getFlag in
  let! c := getFlag in
  let pSps := pSps <| bFrameMbsOnlyFlag := m |> <| bDirect8x8InferenceFlag := d |>
                   <| bFrameCroppingFlag := c |> in
  if c then
    let! l := BsGetUe in
    let! r := BsGetUe in
    check! Z.quot (i32 (i32 (iMbWidth pSps) * 16)) 2 <? i32 (i32 l + i32 r)
      else paramSetsError ERR_INFO_INVALID_CROPPING_DATA in
    let! t := BsGetUe in
    let! b := BsGetUe in
    check! Z.quot (i32 (i32 (iMbHeight pSps) * 16)) 2 <? i32 (i32 t + i32 b)
      else paramSetsError ERR_INFO_INVALID_CROPPING_DATA in
    ret (pSps <| sFrameCrop := mkPos (i32 l) (i32 t) (i32 r) (i32 b) |>)
  else ret (pSps <| sFrameCrop := zeroSPosOffset |>).

(** [ParseVui] has no return with the code for which [ParseSps] goes on. *)
Definition spsVui (pSps : SSps) : BS SSps :=
  let! f := getFlag in
  let pSps := pSps <| bVuiParamPresentFlag := f |> in
  if f then let! v := ParseVui (sVui pSps) in ret (pSps <| sVui := v |>)
  else ret pSps.

(** The SVC extension of a subset. *)
Definition spsExt (kbUseSubsetFlag : bool) (sub : SSubsetSps) : BS (option SSubsetSps) :=
  if kbUseSubsetFlag && isScalable (uiProfileIdc (sSps sub)) then
    let! e := DecodeSpsSvcExt (sSpsSvcExt sub) in
    let! v := getFlag in
    ret (Some (sub <| sSpsSvcExt := e |> <| bSvcVuiParamPresentFlag := v |>))
  else ret (Some sub).

(** The syntax of [ParseSps] up to the stores. *)
Definition spsSyntax (kbUseSubsetFlag : bool) : BS (option SSubsetSps) :=
  let! o := spsHead in
  match o with
  | None => ret None
  | Some pSps =>
      let! pSps := spsChroma pSps in
      let! pSps := spsPoc pSps in
      let! pSps := spsSize pSps in
      let! pSps := spsCrop pSps in
      let! pSps := spsVui pSps in
      spsExt kbUseSubsetFlag (zeroSSubsetSps <| sSps := pSps |>)
  end.

(** ** The picture parameter set *)

Fixpoint runLengths (fuel : nat) (iTmp : Z) (a : list Z) : BS (list Z) :=
  match fuel with
  | O => ret a
  | S fuel' =>
      let! c := BsGetUe in
      check! MAX_MB_SIZE - 1 <? c else paramSetsError ERR_INFO_INVALID_SLICEGROUP in
      let! a := gstore a iTmp (u32 (1 + c)) in
      runLengths fuel' (iTmp + 1) a
  end.

(** The ids, the coding flags and the slice groups. *)
Definition ppsHead : BS SPps :=
  let! id := BsGetUe in
  check! MAX_PPS_COUNT <=? id else paramSetsError ERR_INFO_PPS_ID_OVERFLOW in
  let! sid := BsGetUe in
  check! MAX_SPS_COUNT <=? i32 sid else paramSetsError ERR_INFO_SPS_ID_OVERFLOW in
  let! e := getFlag in
  let! o := getFlag in
  let! n := BsGetUe in
  let groups := u32 (1 + n) in
  check! MAX_SLICEGROUP_IDS <? groups else paramSetsError ERR_INFO_INVALID_SLICEGROUP in
  let pPps := zeroSPps <| iPpsId := i32 id |> <| pps_iSpsId := i32 sid |>
                       <| bEntropyCodingModeFlag := e |> <| bPicOrderPresentFlag := o |>
                       <| uiNumSliceGroups := groups |> in
  if 1 <? groups then
    let! t := BsGetUe in
    check! 1 <? t else paramSetsError ERR_INFO_UNSUPPORTED_FMOTYPE in
    let pPps := pPps <| uiSliceGroupMapType := t |> in
    if t =? 0 then
      let! a := runLengths (Z.to_nat groups) 0 (uiRunLength pPps) in
      ret (pPps <| uiRunLength := a |>)
    else ret pPps
  else ret pPps.

(** Reference indices, prediction weights and quantisation. *)
Definition ppsQuant (pPps : SPps) : BS SPps :=
  let! n0 := BsGetUe in
  let! n1 := BsGetUe in
  let pPps := pPps <| uiNumRefIdxL0Active := u32 (1 + n0) |> <| uiNumRefIdxL1Active := u32 (1 + n1) |> in
  check! (MAX_REF_PIC_COUNT <? uiNumRefIdxL0Active pPps) || (MAX_REF_PIC_COUNT <? uiNumRefIdxL1Active pPps)
    else paramSetsError ERR_INFO_REF_COUNT_OVERFLOW in
  let! w := getFlag in
  let! b := BsGetBits 2 in
  let! qp := BsGetSe in
  check! outside (i32 (26 + qp)) 0 PPS_PIC_INIT_QP_QS_MAX else paramSetsError ERR_INFO_INVALID_PIC_INIT_QP in
  let! qs := BsGetSe in
  check! outside (i32 (26 + qs)) 0 PPS_PIC_INIT_QP_QS_MAX else paramSetsError ERR_INFO_INVALID_PIC_INIT_QS in
  let! c := BsGetSe in
  check! outside c (- PPS_CHROMA_QP_INDEX_OFFSET_MAX) PPS_CHROMA_QP_INDEX_OFFSET_MAX
    else paramSetsError ERR_INFO_INVALID_CHROMA_QP_INDEX_OFFSET in
  let! d := getFlag in
  let! i := getFlag in
  let! p := getFlag in
  ret (pPps <| bWeightedPredFlag := w |> <| uiWeightedBipredIdc := u8 b |>
            <| iPicInitQp := i32 (26 + qp) |> <| iPicInitQs := i32 (26 + qs) |>
            <| iChromaQpIndexOffset := [c; c] |>
            <| bDeblockingFilterControlPresentFlag := d |> <| bConstainedIntraPredFlag := i |>
            <| bRedundantPicCntPresentFlag := p |>).

(** The part after the fields of the baseline profile; [spsFor] is the set the
    decoder has under an id, if it has one. *)
Definition ppsMore (spsFor : Z -> option SSps) (pPps : SPps) : BS SPps :=
  let! s := gget in
  if CheckMoreRBSPData s then
    let! t := getFlag in
    let! m := getFlag in
    let pPps := pPps <| bTransform8x8ModeFlag := t |> <| bPicScalingMatrixPresentFlag := m |> in
    let! pPps :=
      (if m then
         match spsFor (pps_iSpsId pPps) with
         | Some pSps =>
             let! a := ParseScalingList pSps true t
                         (mkScaling (bPicScalingListPresentFlag pPps) (pps_iScalingList4x4 pPps)
                                    (pps_iScalingList8x8 pPps)) in
             ret (pPps <| bPicScalingListPresentFlag := present a |>
                       <| pps_iScalingList4x4 := lists4x4 a |> <| pps_iScalingList8x8 := lists8x8 a |>)
         | None => throw (paramSetsError ERR_INFO_INVALID_SPS_ID)
         end
       else ret pPps) in
    let! c := BsGetSe in
    let! cs := gstore (iChromaQpIndexOffset pPps) 1 c in
    check! outside c (- PPS_CHROMA_QP_INDEX_OFFSET_MAX) PPS_CHROMA_QP_INDEX_OFFSET_MAX
      else paramSetsError ERR_INFO_INVALID_CHROMA_QP_INDEX_OFFSET in
    ret (pPps <| iChromaQpIndexOffset := cs |>)
  else ret pPps.

Definition ppsSyntax (spsFor : Z -> option SSps) : BS SPps :=
  let! pPps := ppsHead in
  let! pPps := ppsQuant pPps in
  ppsMore spsFor pPps.

(** ** The decoder's context

    The buffers of the sets received and what decides whether a set is in use.
    A pointer to a sequence parameter set is a place in one of the two buffers,
    a pointer to a picture parameter set an index.  Of the units of the access
    unit that is being collected ([pAccessUnitList]) only the kind of slice
    header and the set of each matter here. *)

Definition NAL_UNIT_CODED_SLICE : Z := 1.
Definition NAL_UNIT_CODED_SLICE_IDR : Z := 5.
Definition NAL_UNIT_SEI : Z := 6.
Definition NAL_UNIT_SPS : Z := 7.
Definition NAL_UNIT_PPS : Z := 8.
Definition NAL_UNIT_AU_DELIMITER : Z := 9.
Definition NAL_UNIT_PREFIX : Z := 14.
Definition NAL_UNIT_SUBSET_SPS : Z := 15.
Definition NAL_UNIT_CODED_SLICE_EXT : Z := 20.

Definition IS_PARAM_SETS_NALS (t : Z) : bool :=
  (t =? NAL_UNIT_SPS) || (t =? NAL_UNIT_PPS) || (t =? NAL_UNIT_SUBSET_SPS).
Definition IS_SEI_NAL (t : Z) : bool := t =? NAL_UNIT_SEI.
Definition IS_SPS_NAL (t : Z) : bool := t =? NAL_UNIT_SPS.
Definition IS_AU_DELIMITER_NAL (t : Z) : bool := t =? NAL_UNIT_AU_DELIMITER.
Definition IS_SUBSET_SPS_NAL (t : Z) : bool := t =? NAL_UNIT_SUBSET_SPS.
Definition IS_VCL_NAL_AVC_BASE (t : Z) : bool := (t =? NAL_UNIT_CODED_SLICE) || (t =? NAL_UNIT_CODED_SLICE_IDR).
Definition IS_NEW_INTRODUCED_SVC_NAL (t : Z) : bool := (t =? NAL_UNIT_PREFIX) || (t =? NAL_UNIT_CODED_SLICE_EXT).

(** [G_keTypeMap[t][1] == VCL] *)
Definition IS_VCL_NAL (t : Z) : bool :=
  (t =? NAL_UNIT_CODED_SLICE) || (t =? NAL_UNIT_CODED_SLICE_IDR) || (t =? NAL_UNIT_CODED_SLICE_EXT).

Definition OVERWRITE_NONE : Z := 0.
Definition OVERWRITE_PPS : Z := 1.
Definition OVERWRITE_SPS : Z := 2.
Definition OVERWRITE_SUBSETSPS : Z := 4.
Definition MAX_LAYER_NUM : Z := 8.

Definition DsBitstreamError : Z := 4.
Definition DsNoParamSets : Z := 16.
Definition DsDataErrorConcealed : Z := 32.
Definition DsOutOfMemory : Z := 16384.

(** A place in [sSubsetSpsBuffer] (true) or [sSpsBuffer]. *)
Record spsRef := mkRef { inSubset : bool; spsIndex : Z }.

#[export] Instance spsRef_eq_dec : EqDecision spsRef.
Proof. solve_decision. Defined.

Record SWelsDecoderSpsPpsCTX := mkSets {
  sSpsBuffer : list SSps;
  sPpsBuffer : list SPps;
  sSubsetSpsBuffer : list SSubsetSps;
  pActiveLayerSps : list (option spsRef);
  bAvcBasedFlag : bool;
  bSpsExistAheadFlag : bool;
  bSubspsExistAheadFlag : bool;
  bPpsExistAheadFlag : bool;
  iSpsErrorIgnored : Z;
  iSubSpsErrorIgnored : Z;
  iPpsErrorIgnored : Z;
  bSpsAvailFlags : list bool;
  bSubspsAvailFlags : list bool;
  bPpsAvailFlags : list bool;
  iSeqId : Z;
  iOverwriteFlags : Z
}.

#[export] Instance eta_SWelsDecoderSpsPpsCTX : Settable SWelsDecoderSpsPpsCTX := fun r =>
  mkSets (sSpsBuffer r) (sPpsBuffer r) (sSubsetSpsBuffer r) (pActiveLayerSps r) (bAvcBasedFlag r)
    (bSpsExistAheadFlag r) (bSubspsExistAheadFlag r) (bPpsExistAheadFlag r) (iSpsErrorIgnored r)
    (iSubSpsErrorIgnored r) (iPpsErrorIgnored r) (bSpsAvailFlags r) (bSubspsAvailFlags r)
    (bPpsAvailFlags r) (iSeqId r) (iOverwriteFlags r).

Record auUnit := mkUnit { bSliceHeaderExtFlag : bool; unitSps : spsRef }.

Record decCtx := mkCtx {
  sSpsPpsCtx : SWelsDecoderSpsPpsCTX;
  sBs : SBitStringAux;
  ENalUnitType : Z;
  UiNalRefIdc : Z;
  iErrorCode : Z;
  bHasNewSps : bool;
  bAuReadyFlag : bool;
  pAccessUnitList : list auUnit;
  uiEndPos : Z;
  iTotalNumMbRec : Z;
  pSps : option spsRef;
  pPps : option Z;
  bErrorConDisable : bool;
  bPrintFrameErrorTraceFlag : bool;
  bNewSeqBegin : bool;
  bNextNewSeqBegin : bool;
  bParamSetsLostFlag : bool
}.

#[export] Instance eta_decCtx : Settable decCtx := fun r =>
  mkCtx (sSpsPpsCtx r) (sBs r) (ENalUnitType r) (UiNalRefIdc r) (iErrorCode r) (bHasNewSps r)
    (bAuReadyFlag r) (pAccessUnitList r) (uiEndPos r) (iTotalNumMbRec r) (pSps r) (pPps r)
    (bErrorConDisable r) (bPrintFrameErrorTraceFlag r) (bNewSeqBegin r) (bNextNewSeqBegin r)
    (bParamSetsLostFlag r).

Abbreviation DC := (M decCtx).

(** An operation on the bit string of the context. *)
Definition onBs {A} (m : BS A) : DC A := fun c =>
  let '(r, b) := m (sBs c) in (r, c <| sBs := b |>).

Definition updSets (f : SWelsDecoderSpsPpsCTX -> SWelsDecoderSpsPpsCTX) : DC unit :=
  gupd (fun c => c <| sSpsPpsCtx := f (sSpsPpsCtx c) |>).

Definition orError (e : Z) : DC unit := gupd (fun c => c <| iErrorCode := Z.lor (iErrorCode c) e |>).

Definition uiAvailUnitsNum (c : decCtx) : Z := zlen (pAccessUnitList c).

(** [*p] for a pointer to a sequence parameter set. *)
Definition derefSps (p : spsRef) : DC SSps :=
  let! c := gget in
  if inSubset p then
    let! sub := gindex (sSubsetSpsBuffer (sSpsPpsCtx c)) (spsIndex p) in ret (sSps sub)
  else gindex (sSpsBuffer (sSpsPpsCtx c)) (spsIndex p).

(** A unit of the access unit, with the kind of slice header asked for, that
    uses the set with this id. *)
Fixpoint unitUses (ext : bool) (id : Z) (us : list auUnit) : DC bool :=
  match us with
  | [] => ret false
  | u :: us' =>
      if eqb (bSliceHeaderExtFlag u) ext then
        let! sps := derefSps (unitSps u) in
        if iSpsId sps =? id then ret true else unitUses ext id us'
      else unitUses ext id us'
  end.

Definition CheckSpsActive (p : spsRef) (bUseSubsetFlag : bool) : DC bool :=
  let! c := gget in
  if existsb (fun a => bool_decide (a = Some p)) (pActiveLayerSps (sSpsPpsCtx c)) then ret true
  else
    let! sps := derefSps p in
    if (0 <? iMbWidth sps) && (0 <? iMbHeight sps) then
      let! avail := gindex (if bUseSubsetFlag then bSubspsAvailFlags (sSpsPpsCtx c)
                            else bSpsAvailFlags (sSpsPpsCtx c)) (iSpsId sps) in
      if avail then
        if 0 <? iTotalNumMbRec c then ret true
        else unitUses bUseSubsetFlag (iSpsId sps) (pAccessUnitList c)
      else ret false
    else ret false.

Definition storeSpsAt (i : Z) (sps : SSps) : DC unit :=
  let! c := gget in
  let! b := gstore (sSpsBuffer (sSpsPpsCtx c)) i sps in
  updSets (fun t => t <| sSpsBuffer := b |>).

Definition storeSubsetAt (i : Z) (sub : SSubsetSps) : DC unit :=
  let! c := gget in
  let! b := gstore (sSubsetSpsBuffer (sSpsPpsCtx c)) i sub in
  updSets (fun t => t <| sSubsetSpsBuffer := b |>).

Definition storePpsAt (i : Z) (pps : SPps) : DC unit :=
  let! c := gget in
  let! b := gstore (sPpsBuffer (sSpsPpsCtx c)) i pps in
  updSets (fun t => t <| sPpsBuffer := b |>).

Definition overwrite (flag : Z) : DC unit :=
  updSets (fun t => t <| iOverwriteFlags := Z.lor (iOverwriteFlags t) flag |>).

(** The access unit ends here: [bAuReadyFlag] and [uiEndPos]. *)
Definition auReady : DC unit :=
  gupd (fun c => c <| bAuReadyFlag := true |> <| uiEndPos := uiAvailUnitsNum c - 1 |>).

(** The id of the set [pCtx.pSps] points to is [id]. *)
Definition currentSpsIs (id : Z) : DC bool :=
  let! c := gget in
  match pSps c with
  | None => ret false
  | Some p => let! cur := derefSps p in ret (iSpsId cur =? id)
  end.

(** The end of [ParseSps]: where the set that was read goes. *)
Definition storeSps (kbUseSubsetFlag : bool) (sub : SSubsetSps) : DC unit :=
  let id := iSpsId (sSps sub) in
  let! active := CheckSpsActive (mkRef kbUseSubsetFlag id) kbUseSubsetFlag in
  let! c := gget in
  if active then
    let place i := if kbUseSubsetFlag then storeSubsetAt i sub else storeSpsAt i (sSps sub) in
    let flag := if kbUseSubsetFlag then OVERWRITE_SUBSETSPS else OVERWRITE_SPS in
    let! same :=
      (if kbUseSubsetFlag then
         let! old := gindex (sSubsetSpsBuffer (sSpsPpsCtx c)) id in ret (bool_decide (old = sub))
       else
         let! old := gindex (sSpsBuffer (sSpsPpsCtx c)) id in ret (bool_decide (old = sSps sub))) in
    if same then ret tt
    else if 0 <? uiAvailUnitsNum c then
      do! place MAX_SPS_COUNT in
      do! auReady in
      overwrite flag
    else
      let! cur := currentSpsIs id in
      if cur then
        do! place MAX_SPS_COUNT in
        overwrite flag
      else place id
  else if kbUseSubsetFlag then
    do! storeSubsetAt id sub in
    let! a := gstore (bSubspsAvailFlags (sSpsPpsCtx c)) id true in
    updSets (fun t => t <| bSubspsAvailFlags := a |> <| bSubspsExistAheadFlag := true |>)
  else
    do! storeSpsAt id (sSps sub) in
    let! a := gstore (bSpsAvailFlags (sSpsPpsCtx c)) id true in
    updSets (fun t => t <| bSpsAvailFlags := a |> <| bSpsExistAheadFlag := true |>).

Definition ParseSps : DC unit :=
  let! c := gget in
  let kbUseSubsetFlag := IS_SUBSET_SPS_NAL (ENalUnitType c) in
  let! o := onBs (spsSyntax kbUseSubsetFlag) in
  match o with
  | None => ret tt
  | Some sub =>
      do! (if isScalable (uiProfileIdc (sSps sub)) then updSets (fun t => t <| bAvcBasedFlag := false |>)
           else ret tt) in
      storeSps kbUseSubsetFlag sub
  end.

(** The set the decoder has under an id. *)
Definition spsAvailable (t : SWelsDecoderSpsPpsCTX) (id : Z) : option SSps :=
  match zlookup (bSpsAvailFlags t) id with
  | Some true => zlookup (sSpsBuffer t) id
  | _ => None
  end.

Definition storePps (pps : SPps) : DC unit :=
  let! c := gget in
  let! cur := (match pPps c with
               | None => ret None
               | Some i =>
                   let! p := gindex (sPpsBuffer (sSpsPpsCtx c)) i in
                   ret (if iPpsId p =? iPpsId pps then Some p else None)
               end) in
  match cur with
  | Some p =>
      if bool_decide (p = pps) then ret tt
      else
        do! storePpsAt MAX_PPS_COUNT pps in
        do! overwrite OVERWRITE_PPS in
        if 0 <? uiAvailUnitsNum c then auReady else ret tt
  | None =>
      do! storePpsAt (iPpsId pps) pps in
      let! a := gstore (bPpsAvailFlags (sSpsPpsCtx c)) (iPpsId pps) true in
      updSets (fun t => t <| bPpsAvailFlags := a |>)
  end.

Definition ParsePps : DC unit :=
  let! c := gget in
  let! pps := onBs (ppsSyntax (spsAvailable (sSpsPpsCtx c))) in
  storePps pps.

(** ** A unit that carries a set *)

(** [if ERR_NONE != iErr { pCtx.iErrorCode |= ...; return iErr }] *)
Definition paramSetFailed (iErr : Z) : DC Z :=
  let! c := gget in
  do! orError (if bErrorConDisable c then DsNoParamSets else DsBitstreamError) in
  ret iErr.

Definition codeOf (e : error) : Z := match e with ECode c => c | _ => 1 end.

(** [ParseNonVclNal] on [kiSrcLen] bytes at [iRbspOff]: the returned code. *)
Definition ParseNonVclNal (pRbsp : list Z) (iRbspOff kiSrcLen : Z) : DC Z :=
  if kiSrcLen <=? 0 then ret 0
  else
    let! b := gindex pRbsp (iRbspOff + kiSrcLen - 1) in
    let iBitSize := Z.shiftl kiSrcLen 3 - BsGetTrailingBits b in
    let! c := gget in
    let init := if 0 <? iBitSize then onBs (DecInitBits pRbsp iRbspOff iBitSize) else ret tt in
    if (ENalUnitType c =? NAL_UNIT_SPS) || (ENalUnitType c =? NAL_UNIT_SUBSET_SPS) then
      let! r := gtry init in
      match r with
      | inr e => paramSetFailed (codeOf e)
      | inl _ =>
          let! r := gtry ParseSps in
          match r with
          | inr e => paramSetFailed (codeOf e)
          | inl _ => do! gupd (fun c => c <| bHasNewSps := true |>) in ret 0
          end
      end
    else if ENalUnitType c =? NAL_UNIT_PPS then
      let! r := gtry init in
      match r with
      | inr e => paramSetFailed (codeOf e)
      | inl _ =>
          let! r := gtry ParsePps in
          match r with
          | inr e =>
              let! code := paramSetFailed (codeOf e) in
              do! gupd (fun c => c <| bHasNewSps := false |>) in ret code
          | inl _ =>
              do! updSets (fun t => t <| bPpsExistAheadFlag := true |> <| iSeqId := i32 (iSeqId t + 1) |>) in
              ret 0
          end
      end
    else ret 0.

(** The zero bytes at the end of a unit. *)
Fixpoint trailingZeros (rev : list Z) : Z :=
  match rev with
  | b :: rev' => if b =? 0 then 1 + trailingZeros rev' else 0
  | [] => 0
  end.

Section Unit.
(** What the decoder does beyond the parameter sets: the header and the slice
    header of a unit of the prefix and slice types (the result is false for
    nil), the comparison of a slice with the previous one, the decoding of the
    access unit collected so far, and the concealment of a picture that is
    incomplete. *)
Context (parseVcl : list Z -> Z -> DC bool).
Context (sliceBoundary : decCtx -> bool).
Context (ConstructAccessUnit : DC unit).
Context (needErrorCon : decCtx -> bool).
Context (finishPicture : DC unit).

(** [ParseNalHeader] on the unit [nal], which four zero bytes follow: the bytes
    consumed, [None] for nil. *)
Definition ParseNalHeader (nal : list Z) : DC (option Z) :=
  do! gupd (fun c => c <| ENalUnitType := 0 |>) in
  let zeros := trailingZeros (rev nal) in
  let iNalSize := zlen nal - zeros in
  let b := zget nal 0 in
  if negb (Z.shiftr b 7 =? 0) then do! orError DsBitstreamError in ret None
  else
    let t := Z.land b 31 in
    do! gupd (fun c => c <| UiNalRefIdc := Z.shiftr b 5 |> <| ENalUnitType := t |>) in
    let! c := gget in
    let sets := sSpsPpsCtx c in
    if negb (IS_SEI_NAL t || IS_SPS_NAL t || IS_AU_DELIMITER_NAL t || bSpsExistAheadFlag sets) then
      do! (if bPrintFrameErrorTraceFlag c && (iSpsErrorIgnored sets =? 0) then ret tt
           else updSets (fun t => t <| iSpsErrorIgnored := i32 (iSpsErrorIgnored t + 1) |>)) in
      do! gupd (fun c => c <| iErrorCode := DsNoParamSets |>) in ret None
    else
      do! updSets (fun t => t <| iSpsErrorIgnored := 0 |>) in
      if negb (IS_SEI_NAL t || IS_PARAM_SETS_NALS t || IS_AU_DELIMITER_NAL t || bPpsExistAheadFlag sets) then
        do! (if bPrintFrameErrorTraceFlag c && (iPpsErrorIgnored sets =? 0) then ret tt
             else updSets (fun t => t <| iPpsErrorIgnored := i32 (iPpsErrorIgnored t + 1) |>)) in
        do! gupd (fun c => c <| iErrorCode := DsNoParamSets |>) in ret None
      else
        do! updSets (fun t => t <| iPpsErrorIgnored := 0 |>) in
        if (IS_VCL_NAL_AVC_BASE t && negb (bSpsExistAheadFlag sets || bPpsExistAheadFlag sets)) ||
           (IS_NEW_INTRODUCED_SVC_NAL t && negb (bSpsExistAheadFlag sets || bSubspsExistAheadFlag sets ||
                                                 bPpsExistAheadFlag sets)) then
          do! (if bPrintFrameErrorTraceFlag c && (iSubSpsErrorIgnored sets =? 0) then ret tt
               else updSets (fun t => t <| iSubSpsErrorIgnored := i32 (iSubSpsErrorIgnored t + 1) |>)) in
          do! orError DsNoParamSets in ret None
        else
          do! updSets (fun t => t <| iSubSpsErrorIgnored := 0 |>) in
          if IS_AU_DELIMITER_NAL t || IS_SEI_NAL t then
            do! (if 0 <? uiAvailUnitsNum c then auReady else ret tt) in
            ret (Some (zeros + 1))
          else if IS_VCL_NAL_AVC_BASE t || IS_NEW_INTRODUCED_SVC_NAL t then
            let! ok := parseVcl nal (iNalSize - 1) in
            ret (if ok then Some (zeros + 1) else None)
          else ret (Some (zeros + 1)).

Definition hasFlag (flags f : Z) : bool := negb (Z.land flags f =? 0).

Definition CheckAndFinishLastPic : DC unit :=
  let! c := gget in
  let flags := iOverwriteFlags (sSpsPpsCtx c) in
  let t := ENalUnitType c in
  let bAuBoundaryFlag :=
    if IS_VCL_NAL t then negb (iTotalNumMbRec c =? 0) && sliceBoundary c
    else if IS_AU_DELIMITER_NAL t then true
    else if IS_SEI_NAL t then true
    else if t =? NAL_UNIT_SPS then hasFlag flags OVERWRITE_SPS
    else if t =? NAL_UNIT_SUBSET_SPS then hasFlag flags OVERWRITE_SUBSETSPS
    else if t =? NAL_UNIT_PPS then hasFlag flags OVERWRITE_PPS
    else false in
  do! (if negb (IS_VCL_NAL t) && bAuBoundaryFlag && negb (uiAvailUnitsNum c =? 0)
       then ConstructAccessUnit else ret tt) in
  let! c := gget in
  if bAuBoundaryFlag && negb (iTotalNumMbRec c =? 0) && needErrorCon c then finishPicture else ret tt.

(** Replace the sets in use by those that were kept aside. *)
Definition WriteBackActiveParameters : DC unit :=
  let! c := gget in
  let flags := iOverwriteFlags (sSpsPpsCtx c) in
  do! (if hasFlag flags OVERWRITE_PPS then
         let! p := gindex (sPpsBuffer (sSpsPpsCtx c)) MAX_PPS_COUNT in storePpsAt (iPpsId p) p
       else ret tt) in
  do! (if hasFlag flags OVERWRITE_SPS then
         let! p := gindex (sSpsBuffer (sSpsPpsCtx c)) MAX_SPS_COUNT in
         do! storeSpsAt (iSpsId p) p in
         gupd (fun c => c <| bNewSeqBegin := true |>)
       else ret tt) in
  do! (if hasFlag flags OVERWRITE_SUBSETSPS then
         let! p := gindex (sSubsetSpsBuffer (sSpsPpsCtx c)) MAX_SPS_COUNT in
         do! storeSubsetAt (iSpsId (sSps p)) p in
         gupd (fun c => c <| bNewSeqBegin := true |>)
       else ret tt) in
  updSets (fun t => t <| iOverwriteFlags := OVERWRITE_NONE |>).

Definition ResetActiveSPSForEachLayer : DC unit :=
  let! c := gget in
  if iTotalNumMbRec c =? 0
  then updSets (fun t => t <| pActiveLayerSps := replicate (Z.to_nat MAX_LAYER_NUM) None |>)
  else ret tt.

Definition DecodeFinishUpdate : DC unit :=
  do! gupd (fun c => c <| bNewSeqBegin := false |>) in
  do! WriteBackActiveParameters in
  do! gupd (fun c => c <| bNewSeqBegin := bNewSeqBegin c || bNextNewSeqBegin c |>
                       <| bNextNewSeqBegin := false |>) in
  let! c := gget in
  if bNewSeqBegin c then ResetActiveSPSForEachLayer else ret tt.

(** A unit in the loop of [WelsDecodeBs] ([last] is false) or after it: the
    code with which the function returns, [None] when it goes on.  There is one
    thread. *)
Definition decodeUnit (last : bool) (nal : list Z) : DC (option Z) :=
  let! o := ParseNalHeader nal in
  let! iRet :=
    (match o with
     | None => ret 0
     | Some consumed =>
         let! c := gget in
         let! iRet := (if IS_PARAM_SETS_NALS (ENalUnitType c)
                       then ParseNonVclNal nal 1 (zlen nal - consumed) else ret 0) in
         do! CheckAndFinishLastPic in
         let! c := gget in
         do! (if bAuReadyFlag c && negb (uiAvailUnitsNum c =? 0) then ConstructAccessUnit else ret tt) in
         ret iRet
     end) in
  do! DecodeFinishUpdate in
  let! c := gget in
  let e := iErrorCode c in
  do! (if hasFlag e (Z.lor DsOutOfMemory DsNoParamSets) || (negb (iRet =? 0) && hasFlag e DsNoParamSets)
       then gupd (fun c => c <| bParamSetsLostFlag := true |>) else ret tt) in
  if (if last then hasFlag e (Z.lor DsOutOfMemory DsNoParamSets) else hasFlag e DsOutOfMemory)
  then ret (Some e)
  else if negb (iRet =? 0) then ret (Some e)
  else if negb last && negb (e =? 0) && negb (hasFlag e DsDataErrorConcealed) then ret (Some e)
  else ret None.

End Unit.

End PDec.
