(* ===== verification/H264ParamsSpec.v ===== *)
(** * Parameter sets from the encoder to the decoder

    The encoder's writers are sequences of syntax elements ([writesElems]), and
    the decoder's parser reads such a sequence back ([ahead]): a sequence or
    picture parameter set written by the encoder is read as the same set.  The
    parser is also safe on every bit string ([readable]). *)

From S2P Require Import Prelude Bytes H264Bits H264BitsSpec H264ReadSpec H264Syntax.
From S2P Require Import H264ParamsEnc H264ParamsDec.

(** ** Writers as sequences of elements *)

Definition writesElems (m : BS unit) (es : list elem) : Prop := forall s, m s = write_elems es s.

Lemma we_nil : writesElems (ret tt) [].
Proof. done. Qed.

Lemma we_elem e : writesElems (write_elem e) [e].
Proof. intros s. cbn [write_elems]. unfold gbind. by destruct (write_elem e s) as [[[]| | |] s']. Qed.

Lemma write_elems_app es1 es2 s : write_elems (es1 ++ es2) s = (do! write_elems es1 in write_elems es2) s.
Proof.
  revert s. induction es1 as [|e es1 IH]; intros s; [done|]. cbn [app write_elems]. unfold gbind at 1 2 3.
  destruct (write_elem e s) as [[[]| | |] s']; [by rewrite IH|done..].
Qed.

Lemma we_bind m k es1 es2 : writesElems m es1 -> writesElems k es2 -> writesElems (do! m in k) (es1 ++ es2).
Proof.
  intros H1 H2 s. rewrite write_elems_app. unfold gbind. rewrite H1.
  destruct (write_elems es1 s) as [[]]; [by rewrite H2|done..].
Qed.

Lemma we_cons e k es : writesElems k es -> writesElems (do! write_elem e in k) (e :: es).
Proof. intros H. apply (we_bind _ _ [e]); [apply we_elem|done]. Qed.

Lemma we_if (b : bool) m1 m2 es1 es2 :
  writesElems m1 es1 -> writesElems m2 es2 ->
  writesElems (if b then m1 else m2) (if b then es1 else es2).
Proof. by destruct b. Qed.

Lemma we_gindex {A} (l : list A) i x k es :
  zlookup l i = Some x -> writesElems (k x) es -> writesElems (let! y := gindex l i in k y) es.
Proof. intros Hx H s. unfold gbind, gindex. rewrite Hx. apply H. Qed.

(** The elements of a writer, one call after the other. *)
Ltac welems :=
  repeat match goal with
  | |- writesElems (gbind (BsWriteBits ?n ?v) _) _ => apply (we_cons (EBits n v))
  | |- writesElems (gbind (BsWriteOneBit ?v) _) _ => apply (we_cons (EBits 1 v))
  | |- writesElems (gbind (BsWriteUE ?v) _) _ => apply (we_cons (EUe v))
  | |- writesElems (gbind (BsWriteSE ?v) _) _ => apply (we_cons (ESe v))
  | |- writesElems (BsWriteBits ?n ?v) _ => apply (we_elem (EBits n v))
  | |- writesElems (BsWriteOneBit ?v) _ => apply (we_elem (EBits 1 v))
  | |- writesElems (BsWriteUE ?v) _ => apply (we_elem (EUe v))
  | |- writesElems (BsWriteSE ?v) _ => apply (we_elem (ESe v))
  | |- writesElems (ret tt) _ => apply we_nil
  | |- writesElems (gbind _ _) (_ ++ _) => apply we_bind
  | |- writesElems (if _ then _ else _) _ => apply we_if
  end.

(** ** The elements of the sets *)

Section Elems.
Import PEnc.

Definition flagElem (b : bool) : elem := EBits 1 (auSetB2U b).

Definition vuiElems (p : SWelsSPS) : list elem :=
  flagElem (bAspectRatioPresent p) ::
  (if bAspectRatioPresent p then
     EBits 8 (u32 (eAspectRatio p)) ::
     (if eAspectRatio p =? ASP_EXT_SAR then
        [EBits 16 (u32 (sAspectRatioExtWidth p)); EBits 16 (u32 (sAspectRatioExtHeight p))]
      else [])
   else []) ++
  EBits 1 0 :: flagElem (bVideoSignalTypePresent p) ::
  (if bVideoSignalTypePresent p then
     EBits 3 (u32 (uiVideoFormat p)) :: flagElem (bFullRange p) :: flagElem (bColorDescriptionPresent p) ::
     (if bColorDescriptionPresent p then
        [EBits 8 (u32 (uiColorPrimaries p)); EBits 8 (u32 (uiTransferCharacteristics p));
         EBits 8 (u32 (uiColorMatrix p))]
      else [])
   else []) ++
  [EBits 1 0; EBits 1 0; EBits 1 0; EBits 1 0; EBits 1 0; EBits 1 1; EBits 1 1;
   EUe 0; EUe 0; EUe 16; EUe 16; EUe 0; EUe (u32 (i32 (iNumRefFrames p)))].

(** [d] is the id's delta. *)
Definition spsElems (p : SWelsSPS) (d : Z) (base : bool) : list elem :=
  EBits 8 (u32 (uiProfileIdc p)) ::
  flagElem (bConstraintSet0Flag p) :: flagElem (bConstraintSet1Flag p) ::
  flagElem (bConstraintSet2Flag p) :: flagElem (bConstraintSet3Flag p) ::
  (if (PRO_HIGH =? uiProfileIdc p) || (PRO_EXTENDED =? uiProfileIdc p) || (PRO_MAIN =? uiProfileIdc p)
   then [EBits 1 1; EBits 1 1; EBits 2 0] else [EBits 4 0]) ++
  EBits 8 (u32 (iLevelIdc p)) :: EUe (u32 (uiSpsId p + u32 d)) ::
  (if hasChromaFormat (uiProfileIdc p) then [EUe 1; EUe 0; EUe 0; EBits 1 0; EBits 1 0] else []) ++
  EUe (u32 (uiLog2MaxFrameNum p - 4)) :: EUe (uiPocType p) ::
  (if uiPocType p =? 0 then [EUe (u32 (i32 (iLog2MaxPocLsb p - 4)))] else []) ++
  EUe (u32 (i32 (iNumRefFrames p))) :: flagElem (bGapsInFrameNumValueAllowedFlag p) ::
  EUe (u32 (i32 (iMbWidth p - 1))) :: EUe (u32 (i32 (iMbHeight p - 1))) ::
  EBits 1 1 :: EBits 1 (if 30 <=? iLevelIdc p then 1 else 0) :: flagElem (bFrameCroppingFlag p) ::
  (if bFrameCroppingFlag p then
     [EUe (u32 (i32 (iCropLeft (sFrameCrop p)))); EUe (u32 (i32 (iCropRight (sFrameCrop p))));
      EUe (u32 (i32 (iCropTop (sFrameCrop p)))); EUe (u32 (i32 (iCropBottom (sFrameCrop p))))]
   else []) ++
  (if base then EBits 1 1 :: vuiElems p else [EBits 1 0]).

Definition ppsElems (p : SWelsPPS) (st : IWelsParametersetStrategy) : list elem :=
  [EUe (u32 (iPpsId p + u32 (GetPpsIdOffset st (i32 (iPpsId p)))));
   EUe (u32 (iSpsId p + u32 (GetSpsIdOffset st (i32 (iPpsId p)) (i32 (iSpsId p)))));
   flagElem (bEntropyCodingModeFlag p); EBits 1 0; EUe 0; EUe 0; EUe 0; EBits 1 0; EBits 2 0;
   ESe (i32 (iPicInitQp p - 26)); ESe (i32 (iPicInitQs p - 26)); ESe (i32 (uiChromaQpIndexOffset p));
   flagElem (bDeblockingFilterControlPresentFlag p); EBits 1 0; EBits 1 0].

(** The SVC extension of a subset. *)
Definition svcElems (x : SSpsSvcExt) : list elem :=
  EBits 1 1 :: EBits 2 (u32 (iExtendedSpatialScalability x)) :: EBits 1 0 :: EBits 2 1 ::
  (if iExtendedSpatialScalability x =? 1 then [EBits 1 0; EBits 2 1; ESe 0; ESe 0; ESe 0; ESe 0] else []) ++
  flagElem (bSeqTcoeffLevelPredFlag x) ::
  (if bSeqTcoeffLevelPredFlag x then [flagElem (bAdaptiveTcoeffLevelPredFlag x)] else []) ++
  [flagElem (bSliceHeaderRestrictionFlag x); EBits 1 0].

Definition subsetElems (p : SSubsetSps) (d : Z) : list elem :=
  spsElems (pSps p) d false ++
  (if (uiProfileIdc (pSps p) =? PRO_SCALABLE_BASELINE) || (uiProfileIdc (pSps p) =? PRO_SCALABLE_HIGH)
   then svcElems (sSpsSvcExt p) else []) ++
  [EBits 1 0].

Lemma WelsWriteVUI_elems p : writesElems (WelsWriteVUI p) (vuiElems p).
Proof. unfold WelsWriteVUI, vuiElems. welems. Qed.

Lemma WelsWriteSpsSyntax_elems p delta d base :
  zlookup delta (uiSpsId p) = Some d -> writesElems (WelsWriteSpsSyntax p delta base) (spsElems p d base).
Proof.
  intros Hd. unfold WelsWriteSpsSyntax, spsElems. welems.
  eapply we_gindex; [exact Hd|]. cbv zeta. welems. apply WelsWriteVUI_elems.
Qed.

(** A writer of elements and the trailing bits. *)
Definition writesRbsp (m : BS unit) (es : list elem) : Prop :=
  forall s, m s = (do! write_elems es in BsRbspTrailingBits) s.

Lemma wr_end m es : writesElems m es -> writesRbsp (do! m in BsRbspTrailingBits) es.
Proof. intros H s. unfold gbind. by rewrite H. Qed.

Lemma wr_nil : writesRbsp BsRbspTrailingBits [].
Proof. done. Qed.

Lemma wr_bind m k es1 es2 : writesElems m es1 -> writesRbsp k es2 -> writesRbsp (do! m in k) (es1 ++ es2).
Proof.
  intros H1 H2 s. unfold gbind. rewrite H1, write_elems_app. unfold gbind.
  destruct (write_elems es1 s) as [[]]; [by rewrite H2|done..].
Qed.

Lemma WelsWriteSpsNal_elems p delta d :
  zlookup delta (uiSpsId p) = Some d -> writesRbsp (WelsWriteSpsNal p delta) (spsElems p d true).
Proof. intros Hd. apply wr_end, WelsWriteSpsSyntax_elems, Hd. Qed.

Lemma WelsWritePpsSyntax_elems p st : writesRbsp (WelsWritePpsSyntax p st) (ppsElems p st).
Proof.
  unfold WelsWritePpsSyntax, ppsElems.
  repeat match goal with |- writesRbsp _ (?e :: ?es) => apply (wr_bind _ _ [e] es); [exact (we_elem e)|] end.
  apply wr_nil.
Qed.

Lemma WelsWriteSubsetSpsSyntax_elems p delta d :
  zlookup delta (uiSpsId (pSps p)) = Some d ->
  writesRbsp (WelsWriteSubsetSpsSyntax p delta) (subsetElems p d).
Proof.
  intros Hd. unfold WelsWriteSubsetSpsSyntax, subsetElems, svcElems. cbv zeta.
  apply wr_bind; [by apply WelsWriteSpsSyntax_elems|]. apply wr_bind; [welems|].
  apply (wr_bind _ _ [EBits 1 0] []); [exact (we_elem (EBits 1 0))|apply wr_nil].
Qed.

End Elems.

(** ** Elements ahead of the reader *)

(** The reader stands before the elements [es], the stop bit and the padding. *)
Definition ahead (es : list elem) (s : SBitStringAux) : Prop :=
  Forall elem_ok es /\
  exists all p k, reads (p + zlen (elems_bits es) + 1) s all p /\
    drop (Z.to_nat p) all = elems_bits es ++ true :: replicate k false.

Lemma ahead_read e es s :
  ahead (e :: es) s -> wp (read_elem e) s (fun x s' => x = elem_val e /\ ahead es s') (fun _ _ => False).
Proof.
  intros [Hok (all & p & k & R & Hd)]. apply list.Forall_cons in Hok as [He Hes].
  rewrite elems_bits_cons, <- app_assoc in Hd.
  wcall (wp_read_elem _ _ _ _ e _ R He Hd); [|done].
  intros x s' (-> & R' & Hd'). split; [done|]. split; [done|].
  exists all, (p + zlen (elem_bits e)), k. split; [|done].
  replace (_ + 1) with (p + zlen (elems_bits (e :: es)) + 1); [done|].
  rewrite elems_bits_cons, zlen_app. lia.
Qed.

Lemma ahead_bits n v es s :
  ahead (EBits n v :: es) s -> wp (BsGetBits n) s (fun x s' => x = v /\ ahead es s') (fun _ _ => False).
Proof. apply ahead_read. Qed.

Lemma ahead_ue v es s :
  ahead (EUe v :: es) s -> wp BsGetUe s (fun x s' => x = v /\ ahead es s') (fun _ _ => False).
Proof. apply ahead_read. Qed.

Lemma ahead_se v es s :
  ahead (ESe v :: es) s -> wp BsGetSe s (fun x s' => x = v /\ ahead es s') (fun _ _ => False).
Proof. apply ahead_read. Qed.

Lemma ahead_flag b es s :
  ahead (flagElem b :: es) s -> wp PDec.getFlag s (fun x s' => x = b /\ ahead es s') (fun _ _ => False).
Proof.
  intros H. unfold PDec.getFlag, BsGetOneBit. wsteps. wcall (ahead_bits _ _ _ _ H); [|done].
  intros x s' [-> H']. wsteps. by destruct b.
Qed.

Lemma ahead_more es s : ahead es s -> CheckMoreRBSPData s = (0 <? zlen (elems_bits es)).
Proof.
  intros [_ (all & p & k & R & _)]. rewrite (CheckMoreRBSPData_spec _ _ _ _ R).
  destruct (0 <? _) eqn:E; zbool; [apply Z.ltb_lt|apply Z.ltb_ge]; lia.
Qed.

Lemma ahead_same es es' s : elems_bits es = elems_bits es' -> Forall elem_ok es' -> ahead es s -> ahead es' s.
Proof. intros He Hok [_ (all & p & k & R & Hd)]. split; [done|]. exists all, p, k. by rewrite <- He. Qed.

(** Read the next element. *)
Ltac rd_with L H :=
  eapply wp_mono; [eapply L, H| |done];
  let s' := fresh "s" in let H' := fresh "H" in intros ? s' [-> H']; clear H; rename H' into H.

Ltac rd H :=
  lazymatch goal with
  | |- wp (gbind _ _) _ _ _ => apply wp_bind; rd H
  | |- wp (BsGetBits _) _ _ _ => rd_with @ahead_bits H
  | |- wp BsGetOneBit _ _ _ => unfold BsGetOneBit at 1; rd_with @ahead_bits H
  | |- wp BsGetUe _ _ _ => rd_with @ahead_ue H
  | |- wp BsGetSe _ _ _ => rd_with @ahead_se H
  | |- wp PDec.getFlag _ _ _ => rd_with @ahead_flag H
  end.

Ltac rds H := cbv zeta; repeat (rd H; cbv zeta).

(** Read as long as the branches are known. *)
Ltac rdall H :=
  repeat (cbv zeta; first [rd H | progress cbn [orb andb negb] | progress cbv iota | match goal with
    | |- wp (gbind (gbind _ _) _) _ _ _ => apply wp_bind
    | |- wp (gbind (ret _) _) _ _ _ => apply wp_bind, wp_ret
    | |- wp (ret _) _ _ _ => apply wp_ret end]).
