(* ===== verification/H264ParamsTrip.v ===== *)
(** * The round trip of the parameter sets

    What the decoder reads from a set the encoder wrote, field by field, for
    the sets within the limits of the syntax and of the levels ([spsOk],
    [ppsOk]). *)

From S2P Require Import Prelude Bytes H264Bits H264BitsSpec H264ReadSpec H264Syntax.
From S2P Require Import H264ParamsEnc H264ParamsDec H264ParamsSpec.

(** ** Sets the decoder accepts *)

(** [d] is the delta of the id, [lim] the entry of the level. *)
Record spsOk (p : PEnc.SWelsSPS) (d lim : Z) : Prop := {
  so_profile : PDec.knownProfile (PEnc.uiProfileIdc p) = true;
  so_level : PDec.GetLevelLimits (PEnc.iLevelIdc p) (PEnc.bConstraintSet3Flag p) = Some lim;
  so_id : 0 <= PEnc.uiSpsId p + d < 32;
  so_frame_num : 4 <= PEnc.uiLog2MaxFrameNum p <= 16;
  so_poc : PEnc.uiPocType p = 0 \/ PEnc.uiPocType p = 2;
  so_poc_lsb : 4 <= PEnc.iLog2MaxPocLsb p <= 16;
  so_refs : 0 <= PEnc.iNumRefFrames p <= 16;
  so_width : 1 <= PEnc.iMbWidth p /\ PEnc.iMbWidth p * PEnc.iMbWidth p <= 294912;
  so_height : 1 <= PEnc.iMbHeight p /\ PEnc.iMbHeight p * PEnc.iMbHeight p <= 294912;
  so_area : PEnc.iMbWidth p * PEnc.iMbHeight p <= 36864;
  so_crop : PEnc.bFrameCroppingFlag p = true ->
    let c := PEnc.sFrameCrop p in
    0 <= PEnc.iCropLeft c /\ 0 <= PEnc.iCropRight c /\ 0 <= PEnc.iCropTop c /\ 0 <= PEnc.iCropBottom c /\
    PEnc.iCropLeft c + PEnc.iCropRight c <= 8 * PEnc.iMbWidth p /\
    PEnc.iCropTop c + PEnc.iCropBottom c <= 8 * PEnc.iMbHeight p;
  so_aspect : 0 <= PEnc.eAspectRatio p < 256;
  so_sar : 0 <= PEnc.sAspectRatioExtWidth p < 65536 /\ 0 <= PEnc.sAspectRatioExtHeight p < 65536;
  so_format : 0 <= PEnc.uiVideoFormat p < 8;
  so_colour : 0 <= PEnc.uiColorPrimaries p < 256 /\ 0 <= PEnc.uiTransferCharacteristics p < 256 /\
              0 <= PEnc.uiColorMatrix p < 256
}.

Record ppsOk (p : PEnc.SWelsPPS) (st : PEnc.IWelsParametersetStrategy) : Prop := {
  po_pps : 0 <= PEnc.iPpsId p < 2 ^ 31 /\ 0 <= PEnc.iPpsId p + PEnc.GetPpsIdOffset st (PEnc.iPpsId p) < 256;
  po_sps : 0 <= PEnc.iSpsId p < 2 ^ 31 /\
           0 <= PEnc.iSpsId p + PEnc.GetSpsIdOffset st (PEnc.iPpsId p) (PEnc.iSpsId p) < 32;
  po_qp : 0 <= PEnc.iPicInitQp p <= 51;
  po_qs : 0 <= PEnc.iPicInitQs p <= 51;
  po_chroma : 0 <= PEnc.uiChromaQpIndexOffset p <= 12
}.

(** ** What the decoder reads *)

(** Values within their widths are written as they are. *)
Lemma u32_add_u32 a b : 0 <= a + b < 2 ^ 32 -> u32 (a + u32 b) = a + b.
Proof.
  intros. unfold u32. rewrite Z.add_mod_idemp_r by lia. by apply Z.mod_small.
Qed.

Ltac unwrap :=
  repeat match goal with
  | |- context [u32 (?a + u32 ?b)] => rewrite (u32_add_u32 a b) by lia
  | |- context [u32 ?x] => rewrite (u32_small x) by lia
  | |- context [i32 ?x] => rewrite (i32_small x) by lia
  end.

Section Read.
Import PEnc.
Implicit Types p : SWelsSPS.

Definition headRead p (d : Z) : list elem :=
  let hi := (PRO_HIGH =? uiProfileIdc p) || (PRO_EXTENDED =? uiProfileIdc p) || (PRO_MAIN =? uiProfileIdc p) in
  [EBits 8 (uiProfileIdc p); flagElem (bConstraintSet0Flag p); flagElem (bConstraintSet1Flag p);
   flagElem (bConstraintSet2Flag p); flagElem (bConstraintSet3Flag p); flagElem hi; flagElem hi;
   EBits 2 0; EBits 8 (iLevelIdc p); EUe (uiSpsId p + d)].

Definition chromaRead p : list elem :=
  if hasChromaFormat (uiProfileIdc p) then [EUe 1; EUe 0; EUe 0; flagElem false; flagElem false] else [].

Definition pocRead p : list elem :=
  EUe (uiLog2MaxFrameNum p - 4) :: EUe (uiPocType p) ::
  (if uiPocType p =? 0 then [EUe (iLog2MaxPocLsb p - 4)] else []).

Definition sizeRead p : list elem :=
  [EUe (iNumRefFrames p); flagElem (bGapsInFrameNumValueAllowedFlag p);
   EUe (iMbWidth p - 1); EUe (iMbHeight p - 1)].

Definition cropRead p : list elem :=
  flagElem true :: flagElem (30 <=? iLevelIdc p) :: flagElem (bFrameCroppingFlag p) ::
  (if bFrameCroppingFlag p then
     [EUe (iCropLeft (sFrameCrop p)); EUe (iCropRight (sFrameCrop p));
      EUe (iCropTop (sFrameCrop p)); EUe (iCropBottom (sFrameCrop p))] else []).

Definition aspectRead p : list elem :=
  flagElem (bAspectRatioPresent p) ::
  (if bAspectRatioPresent p then
     EBits 8 (eAspectRatio p) ::
     (if eAspectRatio p =? ASP_EXT_SAR then
        [EBits 16 (sAspectRatioExtWidth p); EBits 16 (sAspectRatioExtHeight p)] else [])
   else []).

Definition signalRead p : list elem :=
  flagElem false :: flagElem (bVideoSignalTypePresent p) ::
  (if bVideoSignalTypePresent p then
     EBits 3 (uiVideoFormat p) :: flagElem (bFullRange p) :: flagElem (bColorDescriptionPresent p) ::
     (if bColorDescriptionPresent p then
        [EBits 8 (uiColorPrimaries p); EBits 8 (uiTransferCharacteristics p); EBits 8 (uiColorMatrix p)]
      else [])
   else []).

Definition restRead p : list elem :=
  [flagElem false; flagElem false; flagElem false; flagElem false; flagElem false; flagElem true;
   flagElem true; EUe 0; EUe 0; EUe 16; EUe 16; EUe 0; EUe (iNumRefFrames p)].

Definition spsRead p (d : Z) (base : bool) : list elem :=
  headRead p d ++ chromaRead p ++ pocRead p ++ sizeRead p ++ cropRead p ++
  (if base then flagElem true :: aspectRead p ++ signalRead p ++ restRead p else [flagElem false]).

Definition ppsRead (p : SWelsPPS) (st : IWelsParametersetStrategy) : list elem :=
  [EUe (iPpsId p + GetPpsIdOffset st (iPpsId p)); EUe (iSpsId p + GetSpsIdOffset st (iPpsId p) (iSpsId p));
   flagElem (bEntropyCodingModeFlag p); flagElem false; EUe 0; EUe 0; EUe 0; flagElem false; EBits 2 0;
   ESe (iPicInitQp p - 26); ESe (iPicInitQs p - 26); ESe (uiChromaQpIndexOffset p);
   flagElem (bDeblockingFilterControlPresentFlag p); flagElem false; flagElem false].

Lemma known_profile x : PDec.knownProfile x = true -> 0 <= x < 256.
Proof.
  unfold PDec.knownProfile, PRO_BASELINE, PRO_MAIN, PRO_SCALABLE_BASELINE, PRO_SCALABLE_HIGH, PRO_EXTENDED, PRO_HIGH.
  rewrite negb_true_iff, !andb_false_iff, !negb_false_iff, !Z.eqb_eq. lia.
Qed.

Lemma level_known x b lim : PDec.GetLevelLimits x b = Some lim -> 9 <= x <= 52 /\ 0 <= lim < 17.
Proof.
  unfold PDec.GetLevelLimits. intros H.
  repeat match type of H with context [match ?y with _ => _ end] => destruct y; try discriminate H end;
    injection H as <-; lia.
Qed.

Lemma flag_ok b : elem_ok (flagElem b).
Proof. destruct b; cbn; lia. Qed.

Lemma square_bound x : 1 <= x -> x * x <= 294912 -> x <= 543.
Proof. nia. Qed.

(** The elements written are those of [spsRead], but for the four reserved
    bits that the decoder reads as two flags and two bits. *)
Lemma spsElems_read p d lim base :
  spsOk p d lim ->
  spsElems p d base = spsRead p d base \/
  exists l1 l2, spsElems p d base = l1 ++ EBits 4 0 :: l2 /\
    spsRead p d base = l1 ++ flagElem false :: flagElem false :: EBits 2 0 :: l2.
Proof.
  intros [Hp%known_profile Hl%level_known Hid Hfn Hpoc Hlsb Href [Hw Hw2] [Hh Hh2] _ Hcrop Has [Hsw Hsh] Hf (Hc1 & Hc2 & Hc3)].
  pose proof (square_bound _ Hw Hw2). pose proof (square_bound _ Hh Hh2).
  assert (Hcropr : (if bFrameCroppingFlag p then
     [EUe (u32 (i32 (iCropLeft (sFrameCrop p)))); EUe (u32 (i32 (iCropRight (sFrameCrop p))));
      EUe (u32 (i32 (iCropTop (sFrameCrop p)))); EUe (u32 (i32 (iCropBottom (sFrameCrop p))))] else []) =
     (if bFrameCroppingFlag p then
     [EUe (iCropLeft (sFrameCrop p)); EUe (iCropRight (sFrameCrop p));
      EUe (iCropTop (sFrameCrop p)); EUe (iCropBottom (sFrameCrop p))] else [])).
  { destruct (bFrameCroppingFlag p); [|done]. destruct (Hcrop eq_refl) as (? & ? & ? & ? & ? & ?).
    unwrap. done. }
  unfold spsElems, vuiElems, spsRead, headRead, chromaRead, pocRead, sizeRead, cropRead, aspectRead,
    signalRead, restRead. cbv zeta. rewrite Hcropr. unwrap.
  replace (if 30 <=? iLevelIdc p then 1 else 0) with (auSetB2U (30 <=? iLevelIdc p)) by done.
  destruct (_ || (PRO_MAIN =? _)).
  - left. repeat (cbn [app] || rewrite <- app_assoc). done.
  - right. exists [EBits 8 (uiProfileIdc p); flagElem (bConstraintSet0Flag p); flagElem (bConstraintSet1Flag p);
      flagElem (bConstraintSet2Flag p); flagElem (bConstraintSet3Flag p)].
    eexists. split; [cbn [app]; reflexivity|]. repeat (cbn [app] || rewrite <- app_assoc). done.
Qed.

Ltac elems_ok :=
  repeat first [apply Forall_app; split | apply list.Forall_cons; split | apply Forall_nil_2 | apply flag_ok |
    match goal with
    | H : ?b = true -> Forall elem_ok ?l |- Forall elem_ok (if ?b then ?l else []) =>
        destruct b; [exact (H eq_refl)|apply Forall_nil_2]
    | |- Forall elem_ok (if ?b then _ else _) => destruct b
    | |- elem_ok _ => cbn; lia
    end].

Lemma spsRead_ok p d lim base : spsOk p d lim -> Forall elem_ok (spsRead p d base).
Proof.
  intros [Hp%known_profile Hl%level_known Hid Hfn Hpoc Hlsb Href [Hw Hw2] [Hh Hh2] _ Hcrop Has [Hsw Hsh] Hf (Hc1 & Hc2 & Hc3)].
  pose proof (square_bound _ Hw Hw2). pose proof (square_bound _ Hh Hh2).
  unfold spsRead, headRead, chromaRead, pocRead, sizeRead, cropRead, aspectRead, signalRead, restRead. cbv zeta.
  assert (Hcrop' : bFrameCroppingFlag p = true -> Forall elem_ok
     [EUe (iCropLeft (sFrameCrop p)); EUe (iCropRight (sFrameCrop p));
      EUe (iCropTop (sFrameCrop p)); EUe (iCropBottom (sFrameCrop p))]).
  { intros E. destruct (Hcrop E) as (? & ? & ? & ? & ? & ?). elems_ok. }
  elems_ok.
Qed.

Lemma spsElems_bits p d lim base :
  spsOk p d lim ->
  elems_bits (spsElems p d base) = elems_bits (spsRead p d base) /\ Forall elem_ok (spsElems p d base).
Proof.
  intros Hok. pose proof (spsRead_ok p d lim base Hok) as Hr.
  destruct (spsElems_read p d lim base Hok) as [->|(l1 & l2 & -> & E)]; [done|]. rewrite E in *.
  split; [by rewrite !elems_bits_app, !elems_bits_cons|].
  apply Forall_app in Hr as [H1 H2]. rewrite !list.Forall_cons in H2. destruct H2 as (_ & _ & _ & H2).
  apply Forall_app. split; [done|]. apply list.Forall_cons. split; [cbn; lia|done].
Qed.

Lemma ppsElems_read (p : SWelsPPS) st : ppsOk p st -> ppsElems p st = ppsRead p st.
Proof.
  intros [[Hp Hp'] [Hs Hs'] Hq Hqs Hc]. unfold ppsElems, ppsRead.
  rewrite !(i32_small (iPpsId p)), !(i32_small (iSpsId p)) by lia. unwrap. done.
Qed.

Lemma ppsRead_ok (p : SWelsPPS) st : ppsOk p st -> Forall elem_ok (ppsRead p st).
Proof.
  intros [[Hp Hp'] [Hs Hs'] Hq Hqs Hc]. unfold ppsRead. elems_ok.
Qed.

End Read.

(** ** The sets the decoder ends with *)

Section Decoded.
Import PDec.
Implicit Types p : PEnc.SWelsSPS.

(** The aspect ratio: one of the table, the explicit one, or none. *)
Definition decodedSar p : Z * Z :=
  if PEnc.eAspectRatio p <? 17
  then (zget (map fst g_ksVuiSampleAspectRatio) (PEnc.eAspectRatio p),
        zget (map snd g_ksVuiSampleAspectRatio) (PEnc.eAspectRatio p))
  else if PEnc.eAspectRatio p =? EXTENDED_SAR
  then (PEnc.sAspectRatioExtWidth p, PEnc.sAspectRatioExtHeight p)
  else (0, 0).

Definition decodedAspect p : SVui :=
  let v := zeroSVui <| bAspectRatioInfoPresentFlag := PEnc.bAspectRatioPresent p |> in
  if PEnc.bAspectRatioPresent p then
    let v := v <| uiAspectRatioIdc := PEnc.eAspectRatio p |> in
    if (PEnc.eAspectRatio p <? 17) || (PEnc.eAspectRatio p =? EXTENDED_SAR)
    then v <| uiSarWidth := fst (decodedSar p) |> <| uiSarHeight := snd (decodedSar p) |> else v
  else v.

Definition decodedSignal p : SVui :=
  let v := decodedAspect p <| bOverscanInfoPresentFlag := false |>
             <| bVideoSignalTypePresentFlag := PEnc.bVideoSignalTypePresent p |> in
  if PEnc.bVideoSignalTypePresent p then
    let v := v <| uiVideoFormat := PEnc.uiVideoFormat p |> <| bVideoFullRangeFlag := PEnc.bFullRange p |>
               <| bColourDescripPresentFlag := PEnc.bColorDescriptionPresent p |> in
    if PEnc.bColorDescriptionPresent p then
      v <| uiColourPrimaries := PEnc.uiColorPrimaries p |>
        <| uiTransferCharacteristics := PEnc.uiTransferCharacteristics p |>
        <| uiMatrixCoeffs := PEnc.uiColorMatrix p |>
    else v
  else v.

Definition decodedVui p : SVui :=
  decodedSignal p <| bChromaLocInfoPresentFlag := false |> <| bTimingInfoPresentFlag := false |>
    <| bNalHrdParamPresentFlag := false |> <| bVclHrdParamPresentFlag := false |>
    <| bPicStructPresentFlag := false |> <| bBitstreamRestrictionFlag := true |>
    <| bMotionVectorsOverPicBoundariesFlag := true |>
    <| uiMaxBytesPerPicDenom := 0 |> <| uiMaxBitsPerMbDenom := 0 |>
    <| uiLog2MaxMvLengthHorizontal := 16 |> <| uiLog2MaxMvLengthVertical := 16 |>
    <| uiMaxNumReorderFrames := 0 |> <| uiMaxDecFrameBuffering := PEnc.iNumRefFrames p |>.

(** [base] tells whether the set carries a VUI. *)
Definition decodedSps p (d lim : Z) (base : bool) : SSps :=
  let high := hasChromaFormat (PEnc.uiProfileIdc p) in
  let s := zeroSSps
    <| iSpsId := PEnc.uiSpsId p + d |>
    <| iMbWidth := PEnc.iMbWidth p |> <| iMbHeight := PEnc.iMbHeight p |>
    <| uiTotalMbCount := PEnc.iMbWidth p * PEnc.iMbHeight p |>
    <| uiLog2MaxFrameNum := PEnc.uiLog2MaxFrameNum p |>
    <| uiPocType := PEnc.uiPocType p |>
    <| iLog2MaxPocLsb := if PEnc.uiPocType p =? 0 then PEnc.iLog2MaxPocLsb p else 0 |>
    <| iNumRefFrames := PEnc.iNumRefFrames p |>
    <| uiProfileIdc := PEnc.uiProfileIdc p |> <| uiLevelIdc := PEnc.iLevelIdc p |>
    <| uiChromaFormatIdc := 1 |> <| uiChromaArrayType := 1 |>
    <| uiBitDepthLuma := if high then 8 else 0 |> <| uiBitDepthChroma := if high then 8 else 0 |>
    <| bGapsInFrameNumValueAllowedFlag := PEnc.bGapsInFrameNumValueAllowedFlag p |>
    <| bFrameMbsOnlyFlag := true |> <| bDirect8x8InferenceFlag := 30 <=? PEnc.iLevelIdc p |>
    <| bFrameCroppingFlag := PEnc.bFrameCroppingFlag p |>
    <| sFrameCrop :=
         let c := PEnc.sFrameCrop p in
         if PEnc.bFrameCroppingFlag p
         then mkPos (PEnc.iCropLeft c) (PEnc.iCropTop c) (PEnc.iCropRight c) (PEnc.iCropBottom c)
         else zeroSPosOffset |>
    <| bVuiParamPresentFlag := base |>
    <| pSLevelLimits := Some lim |> in
  if base then s <| sVui := decodedVui p |> else s.

Definition decodedPps (p : PEnc.SWelsPPS) (st : PEnc.IWelsParametersetStrategy) : SPps :=
  zeroSPps
    <| iPpsId := PEnc.iPpsId p + PEnc.GetPpsIdOffset st (PEnc.iPpsId p) |>
    <| pps_iSpsId := PEnc.iSpsId p + PEnc.GetSpsIdOffset st (PEnc.iPpsId p) (PEnc.iSpsId p) |>
    <| bEntropyCodingModeFlag := PEnc.bEntropyCodingModeFlag p |> <| bPicOrderPresentFlag := false |>
    <| uiNumSliceGroups := 1 |> <| uiNumRefIdxL0Active := 1 |> <| uiNumRefIdxL1Active := 1 |>
    <| bWeightedPredFlag := false |> <| uiWeightedBipredIdc := 0 |>
    <| iPicInitQp := PEnc.iPicInitQp p |> <| iPicInitQs := PEnc.iPicInitQs p |>
    <| iChromaQpIndexOffset := [PEnc.uiChromaQpIndexOffset p; PEnc.uiChromaQpIndexOffset p] |>
    <| bDeblockingFilterControlPresentFlag := PEnc.bDeblockingFilterControlPresentFlag p |>
    <| bConstainedIntraPredFlag := false |> <| bRedundantPicCntPresentFlag := false |>.

(** ** Reading, part by part *)

Lemma read_head p d lim es s :
  spsOk p d lim -> ahead (headRead p d ++ es) s ->
  wp spsHead s (fun o s' => ahead es s' /\ o = Some (zeroSSps <| pSLevelLimits := Some lim |>
        <| uiChromaFormatIdc := 1 |> <| uiChromaArrayType := 1 |>
        <| uiProfileIdc := PEnc.uiProfileIdc p |> <| uiLevelIdc := PEnc.iLevelIdc p |>
        <| iSpsId := PEnc.uiSpsId p + d |>)) (fun _ _ => False).
Proof.
  intros Hok H. destruct (level_known _ _ _ (so_level _ _ _ Hok)) as [Hl _].
  pose proof (so_id _ _ _ Hok). unfold headRead in H. cbv zeta in H. cbn [app] in H. unfold spsHead.
  rd H. rewrite (so_profile _ _ _ Hok). cbn [negb].
  assert (Hflags : forall bs s, ahead (map flagElem bs ++ EBits 2 0 :: EBits 8 (PEnc.iLevelIdc p) ::
      EUe (PEnc.uiSpsId p + d) :: es) s -> wp (getFlags (length bs)) s
      (fun r s' => r = bs /\ ahead (EBits 2 0 :: EBits 8 (PEnc.iLevelIdc p) :: EUe (PEnc.uiSpsId p + d) :: es) s')
      (fun _ _ => False)).
  { clear. induction bs as [|b bs IH]; intros s H; cbn [length getFlags map app] in *; [by wsteps|].
    rd H. wsteps. wcall (IH _ H); [|done]. intros r s' [-> H']. by wsteps. }
  apply wp_bind.
  wcall (Hflags [PEnc.bConstraintSet0Flag p; PEnc.bConstraintSet1Flag p; PEnc.bConstraintSet2Flag p;
                 PEnc.bConstraintSet3Flag p; _; _] _ H); [|done].
  clear H Hflags. intros r s' [-> H]. rds H. rewrite (u8_small (PEnc.iLevelIdc p)) by lia.
  unfold MAX_SPS_COUNT. rewrite (proj2 (Z.leb_gt 32 _)) by lia.
  apply wp_bind. eapply wp_gindex; [reflexivity|]. rewrite (so_level _ _ _ Hok). wsteps.
  rewrite i32_small by lia. done.
Qed.

(** The parts that follow update the set they are given. *)
Lemma read_chroma p q es s :
  uiProfileIdc q = PEnc.uiProfileIdc p -> uiChromaFormatIdc q = 1 -> uiChromaArrayType q = 1 ->
  uiBitDepthLuma q = 0 -> uiBitDepthChroma q = 0 ->
  bQpPrimeYZeroTransfBypassFlag q = false -> bSeqScalingMatrixPresentFlag q = false ->
  ahead (chromaRead p ++ es) s ->
  wp (spsChroma q) s (fun r s' => ahead es s' /\
        let depth := if hasChromaFormat (PEnc.uiProfileIdc p) then 8 else 0 in
        r = q <| uiBitDepthLuma := depth |> <| uiBitDepthChroma := depth |>) (fun _ _ => False).
Proof.
  destruct q. cbn. intros -> -> -> -> -> -> -> H. unfold spsChroma, chromaRead in *. cbn [uiProfileIdc].
  destruct (hasChromaFormat _); cbn [app] in H; [|by wsteps].
  rds H. change (1 <? u8 1) with false. cbv iota. rds H. cbn [negb Z.eqb]. rds H. cbn [negb Z.eqb]. rds H.
  wsteps. done.
Qed.

Lemma read_poc p d lim q es s :
  spsOk p d lim -> iLog2MaxPocLsb q = 0 -> ahead (pocRead p ++ es) s ->
  wp (spsPoc q) s (fun r s' => ahead es s' /\
        r = q <| uiLog2MaxFrameNum := PEnc.uiLog2MaxFrameNum p |> <| uiPocType := PEnc.uiPocType p |>
              <| iLog2MaxPocLsb := if PEnc.uiPocType p =? 0 then PEnc.iLog2MaxPocLsb p else 0 |>)
     (fun _ _ => False).
Proof.
  intros Hok Hq H. pose proof (so_frame_num _ _ _ Hok). pose proof (so_poc_lsb _ _ _ Hok).
  unfold spsPoc, pocRead, SPS_LOG2_MAX_FRAME_NUM_MINUS4_MAX, SPS_LOG2_MAX_PIC_ORDER_CNT_LSB_MINUS4_MAX in *.
  cbn [app] in H. rds H. rewrite (proj2 (Z.ltb_ge 12 _)) by lia. rds H.
  replace (4 + _) with (PEnc.uiLog2MaxFrameNum p) by lia. rewrite (u32_small (PEnc.uiLog2MaxFrameNum p)) by lia.
  destruct (so_poc _ _ _ Hok) as [E|E]; rewrite E in H |- *; cbn [Z.eqb] in H |- *; cbn [app] in H.
  - apply wp_bind. rd H. rewrite (proj2 (Z.ltb_ge 12 _)) by lia. wsteps; [done|]. split; [done|].
    replace (4 + _) with (PEnc.iLog2MaxPocLsb p) by lia. rewrite u32_small, i32_small by lia. done.
  - wsteps. split; [done|]. destruct q. cbn in *. by subst.
Qed.

Lemma mbSide_fine mb fs : 1 <= mb -> mb * mb <= 294912 -> mbSideError mb fs 36864 = false.
Proof.
  intros H1 H2. pose proof (square_bound _ H1 H2). unfold mbSideError, MAX_MB_SIZE.
  rewrite (proj2 (Z.ltb_ge 36864 mb)), (proj2 (Z.eqb_neq mb 0)) by lia. cbn [orb].
  rewrite (u64_small (mb * mb)) by nia. change (u32 (8 * 36864)) with 294912.
  rewrite (proj2 (Z.ltb_ge 294912 _)) by lia. apply andb_false_r.
Qed.

Lemma read_size p d lim q es s :
  spsOk p d lim -> pSLevelLimits q = Some lim -> ahead (sizeRead p ++ es) s ->
  wp (spsSize q) s (fun r s' => ahead es s' /\
        r = q <| iNumRefFrames := PEnc.iNumRefFrames p |>
              <| bGapsInFrameNumValueAllowedFlag := PEnc.bGapsInFrameNumValueAllowedFlag p |>
              <| iMbWidth := PEnc.iMbWidth p |> <| iMbHeight := PEnc.iMbHeight p |>
              <| uiTotalMbCount := PEnc.iMbWidth p * PEnc.iMbHeight p |>) (fun _ _ => False).
Proof.
  intros Hok Hq H. destruct (level_known _ _ _ (so_level _ _ _ Hok)) as [_ Hlim].
  destruct (so_width _ _ _ Hok) as [Hw Hw2]. destruct (so_height _ _ _ Hok) as [Hh Hh2].
  pose proof (so_area _ _ _ Hok). pose proof (so_refs _ _ _ Hok).
  pose proof (square_bound _ Hw Hw2). pose proof (square_bound _ Hh Hh2).
  unfold spsSize, sizeRead in *. cbn [app] in H. apply wp_bind.
  eapply (wp_gindex G_ksLevelLimits 16); [reflexivity|]. rewrite Hq. apply wp_bind.
  destruct (zlookup_Some G_ksLevelLimits lim Hlim) as [l Hl]. eapply wp_gindex; [exact Hl|].
  rds H. replace (1 + (PEnc.iMbWidth p - 1)) with (PEnc.iMbWidth p) by lia.
  rewrite !(u32_small (PEnc.iMbWidth p)), mbSide_fine by lia. rds H.
  replace (1 + (PEnc.iMbHeight p - 1)) with (PEnc.iMbHeight p) by lia.
  rewrite !(u32_small (PEnc.iMbHeight p)), mbSide_fine by lia.
  rewrite (u64_small (_ * _)), (u32_small (_ * _)), (i32_small (PEnc.iNumRefFrames p)) by nia.
  cbn [UiMaxFS]. rewrite (proj2 (Z.ltb_ge 36864 _)), andb_false_r by lia.
  unfold SPS_MAX_NUM_REF_FRAMES_MAX. rewrite (proj2 (Z.ltb_ge 16 _)) by lia.
  rewrite (proj2 (Z.eqb_neq (_ * _) 0)) by nia. wsteps. done.
Qed.

Lemma read_crop p d lim q es s :
  spsOk p d lim -> iMbWidth q = PEnc.iMbWidth p -> iMbHeight q = PEnc.iMbHeight p ->
  ahead (cropRead p ++ es) s ->
  wp (spsCrop q) s (fun r s' => ahead es s' /\
        r = q <| bFrameMbsOnlyFlag := true |> <| bDirect8x8InferenceFlag := 30 <=? PEnc.iLevelIdc p |>
              <| bFrameCroppingFlag := PEnc.bFrameCroppingFlag p |>
              <| sFrameCrop := let c := PEnc.sFrameCrop p in
                   if PEnc.bFrameCroppingFlag p
                   then mkPos (PEnc.iCropLeft c) (PEnc.iCropTop c) (PEnc.iCropRight c) (PEnc.iCropBottom c)
                   else zeroSPosOffset |>) (fun _ _ => False).
Proof.
  intros Hok Ew Eh H. destruct (so_width _ _ _ Hok) as [Hw Hw2]. destruct (so_height _ _ _ Hok) as [Hh Hh2].
  pose proof (square_bound _ Hw Hw2). pose proof (square_bound _ Hh Hh2).
  unfold spsCrop, cropRead in *. cbn [app] in H. rds H. cbn [negb]. rds H.
  set (q' := q <| bFrameMbsOnlyFlag := _ |> <| bDirect8x8InferenceFlag := _ |> <| bFrameCroppingFlag := _ |>).
  change (iMbWidth q') with (iMbWidth q). change (iMbHeight q') with (iMbHeight q). rewrite Ew, Eh.
  destruct (PEnc.bFrameCroppingFlag p) eqn:Ec; cbn [app] in H; [|by wsteps].
  destruct (so_crop _ _ _ Hok Ec) as (? & ? & ? & ? & ? & ?). rds H. unwrap.
  replace (PEnc.iMbWidth p * 16) with (PEnc.iMbWidth p * 8 * 2) by lia.
  rewrite Z.quot_mul, (proj2 (Z.ltb_ge (PEnc.iMbWidth p * 8) _)) by lia. rds H. unwrap.
  replace (PEnc.iMbHeight p * 16) with (PEnc.iMbHeight p * 8 * 2) by lia.
  rewrite Z.quot_mul, (proj2 (Z.ltb_ge (PEnc.iMbHeight p * 8) _)) by lia. wsteps. done.
Qed.

Lemma aspect_entry i :
  0 <= i < 17 -> zlookup g_ksVuiSampleAspectRatio i =
    Some (zget (map fst g_ksVuiSampleAspectRatio) i, zget (map snd g_ksVuiSampleAspectRatio) i).
Proof.
  intros Hi. rewrite <- (Z2Nat.id i) by lia. assert (Hn : (Z.to_nat i < 17)%nat) by lia.
  revert Hn. generalize (Z.to_nat i). intros n Hn. do 17 (destruct n as [|n]; [done|]). lia.
Qed.

Lemma read_vui p d lim es s :
  spsOk p d lim -> ahead (aspectRead p ++ signalRead p ++ restRead p ++ es) s ->
  wp (ParseVui zeroSVui) s (fun r s' => ahead es s' /\ r = decodedVui p) (fun _ _ => False).
Proof.
  intros Hok H. pose proof (so_aspect _ _ _ Hok). pose proof (so_format _ _ _ Hok).
  destruct (so_colour _ _ _ Hok) as (? & ? & ?).
  unfold ParseVui. apply wp_bind.
  apply (wp_mono _ _ (fun v s' => ahead (signalRead p ++ restRead p ++ es) s' /\ v = decodedAspect p)
    _ (fun _ _ => False)); [| |done].
  { unfold vuiAspectRatio, aspectRead, decodedAspect in *. cbn [app] in H. rds H.
    destruct (PEnc.bAspectRatioPresent p); cbn [app] in H; [|by apply wp_ret]. rds H. unfold decodedSar.
    destruct (PEnc.eAspectRatio p <? 17) eqn:E17; zbool.
    - apply wp_bind. eapply wp_gindex; [apply aspect_entry; lia|].
      rewrite (proj2 (Z.eqb_neq _ ASP_EXT_SAR)) in H by (unfold ASP_EXT_SAR; lia). by apply wp_ret.
    - change ASP_EXT_SAR with EXTENDED_SAR in H. cbn [orb].
      destruct (PEnc.eAspectRatio p =? EXTENDED_SAR); cbn [app] in H; [rds H|]; by apply wp_ret. }
  clear H. intros v s1 [H ->]. apply wp_bind.
  apply (wp_mono _ _ (fun v s' => ahead (restRead p ++ es) s' /\ v = decodedSignal p)
    _ (fun _ _ => False)); [| |done].
  { unfold vuiSignalType, signalRead, decodedSignal in *. cbn [app] in H. rds H. apply wp_bind, wp_ret. rds H.
    destruct (PEnc.bVideoSignalTypePresent p); cbn [app] in H; [|by apply wp_ret]. rds H.
    rewrite (u8_small (PEnc.uiVideoFormat p)) by lia.
    destruct (PEnc.bColorDescriptionPresent p); cbn [app] in H; [|by apply wp_ret]. rds H.
    rewrite (u8_small (PEnc.uiColorPrimaries p)), (u8_small (PEnc.uiTransferCharacteristics p)),
      (u8_small (PEnc.uiColorMatrix p)) by lia. by apply wp_ret. }
  clear H. intros v s2 [H ->].
  unfold vuiTiming, vuiHrd, vuiRestriction, restRead in *. cbn [app] in H.
  rdall H.
  done.
Qed.

(** ** Whole sets *)

Lemma read_sps p d lim base kb es s Q E :
  spsOk p d lim -> ahead (spsRead p d base ++ es) s ->
  (forall s', ahead es s' -> wp (spsExt kb (zeroSSubsetSps <| sSps := decodedSps p d lim base |>)) s' Q E) ->
  wp (spsSyntax kb) s Q E.
Proof.
  intros Hok H HQ. unfold spsRead in H. rewrite <- !app_assoc in H. unfold spsSyntax. apply wp_bind.
  eapply wp_mono; [exact (read_head p d lim _ _ Hok H)| |done]. clear H. intros o s1 [H ->]. cbv iota.
  apply wp_bind. eapply wp_mono; [eapply (read_chroma p); [reflexivity..|exact H]| |done].
  clear H. intros q s2 [H ->]. cbv zeta.
  apply wp_bind. eapply wp_mono; [eapply (read_poc p d lim); [done|reflexivity|exact H]| |done].
  clear H. intros q s3 [H ->].
  apply wp_bind. eapply wp_mono; [eapply (read_size p d lim); [done|reflexivity|exact H]| |done].
  clear H. intros q s4 [H ->].
  apply wp_bind. eapply wp_mono; [eapply (read_crop p d lim); [done|reflexivity|reflexivity|exact H]| |done].
  clear H. intros q s5 [H ->].
  apply wp_bind. unfold spsVui. destruct base; cbn [app] in H; rds H.
  - rewrite <- !app_assoc in H.
    apply wp_bind. eapply wp_mono; [exact (read_vui p d lim _ _ Hok H)| |done]. intros v s6 [H6 ->].
    apply wp_ret, HQ, H6.
  - apply wp_ret, HQ, H.
Qed.

Lemma outside_in v lo hi : lo <= v <= hi -> outside v lo hi = false.
Proof. intros. unfold outside. rewrite (proj2 (Z.ltb_ge v lo)), (proj2 (Z.ltb_ge hi v)) by lia. done. Qed.

Lemma read_pps (p : PEnc.SWelsPPS) st spsFor s :
  ppsOk p st -> ahead (ppsRead p st) s ->
  wp (ppsSyntax spsFor) s (fun r _ => r = decodedPps p st) (fun _ _ => False).
Proof.
  intros [[Hp Hp'] [Hs Hs'] Hq Hqs Hc] H. unfold ppsSyntax, ppsHead, ppsQuant, ppsMore, ppsRead in *.
  rds H. unfold MAX_PPS_COUNT, MAX_SPS_COUNT, PPS_PIC_INIT_QP_QS_MAX, PPS_CHROMA_QP_INDEX_OFFSET_MAX.
  rewrite (proj2 (Z.leb_gt 256 _)) by lia. rds H. unwrap. rewrite (proj2 (Z.leb_gt 32 _)) by lia.
  rds H. change (u32 (1 + 0)) with 1. change (MAX_SLICEGROUP_IDS <? 1) with false.
  change (1 <? 1) with false. cbv iota. apply wp_ret. rds H. change (u32 (1 + 0)) with 1.
  match goal with |- wp (if ?c then _ else _) _ _ _ => change c with false end. cbv iota.
  rds H. replace (26 + _) with (PEnc.iPicInitQp p) by lia. rewrite (i32_small (PEnc.iPicInitQp p)), outside_in by lia.
  rds H. replace (26 + _) with (PEnc.iPicInitQs p) by lia. rewrite (i32_small (PEnc.iPicInitQs p)), outside_in by lia.
  rds H. rewrite outside_in by lia. rds H. apply wp_ret, wp_bind, wp_gget.
  rewrite (ahead_more _ _ H). apply wp_ret. reflexivity.
Qed.

(** ** The SVC extension *)

Definition decodedExt (x : PEnc.SSpsSvcExt) : SSpsSvcExt :=
  zeroSSpsSvcExt
    <| bInterLayerDeblockingFilterCtrlPresentFlag := true |>
    <| uiExtendedSpatialScalability := PEnc.iExtendedSpatialScalability x |>
    <| uiChromaPhaseXPlus1Flag := 0 |> <| uiChromaPhaseYPlus1 := 1 |>
    <| uiSeqRefLayerChromaPhaseXPlus1Flag := 0 |> <| uiSeqRefLayerChromaPhaseYPlus1 := 1 |>
    <| sSeqScaledRefLayer := zeroSPosOffset |>
    <| bSeqTCoeffLevelPredFlag := PEnc.bSeqTcoeffLevelPredFlag x |>
    <| bAdaptiveTCoeffLevelPredFlag := PEnc.bSeqTcoeffLevelPredFlag x && PEnc.bAdaptiveTcoeffLevelPredFlag x |>
    <| bSliceHeaderRestrictionFlag := PEnc.bSliceHeaderRestrictionFlag x |>.

Definition extRead (x : PEnc.SSpsSvcExt) : list elem :=
  flagElem true :: EBits 2 (PEnc.iExtendedSpatialScalability x) :: EBits 1 0 :: EBits 2 1 ::
  (if PEnc.iExtendedSpatialScalability x =? 1 then [EBits 1 0; EBits 2 1; ESe 0; ESe 0; ESe 0; ESe 0] else []) ++
  flagElem (PEnc.bSeqTcoeffLevelPredFlag x) ::
  (if PEnc.bSeqTcoeffLevelPredFlag x then [flagElem (PEnc.bAdaptiveTcoeffLevelPredFlag x)] else []) ++
  [flagElem (PEnc.bSliceHeaderRestrictionFlag x); flagElem false].

Lemma read_ext x es s :
  0 <= PEnc.iExtendedSpatialScalability x <= 2 -> ahead (extRead x ++ es) s ->
  wp (let! e := DecodeSpsSvcExt zeroSSpsSvcExt in let! v := getFlag in ret (e, v)) s
     (fun r _ => r = (decodedExt x, false)) (fun _ _ => False).
Proof.
  intros Hx H. unfold extRead, DecodeSpsSvcExt in *. cbn [app] in H. rewrite <- app_assoc in H.
  rds H. rewrite u8_small by lia. rewrite (proj2 (Z.ltb_ge 2 _)) by lia. rds H.
  set (e1 := zeroSSpsSvcExt <| bInterLayerDeblockingFilterCtrlPresentFlag := _ |> <| uiExtendedSpatialScalability := _ |>
     <| uiChromaPhaseXPlus1Flag := _ |> <| uiChromaPhaseYPlus1 := _ |>
     <| uiSeqRefLayerChromaPhaseXPlus1Flag := _ |> <| uiSeqRefLayerChromaPhaseYPlus1 := _ |>
     <| sSeqScaledRefLayer := _ |>).
  apply wp_bind. apply (wp_mono _ _ (fun r s' => r = e1 /\
     ahead (flagElem (PEnc.bSeqTcoeffLevelPredFlag x) ::
       ((if PEnc.bSeqTcoeffLevelPredFlag x then [flagElem (PEnc.bAdaptiveTcoeffLevelPredFlag x)] else []) ++
        [flagElem (PEnc.bSliceHeaderRestrictionFlag x); flagElem false]) ++ es) s') _ (fun _ _ => False)); [| |done].
  { destruct (PEnc.iExtendedSpatialScalability x =? 1); cbn [app] in H; [rds H|]; by apply wp_ret. }
  clear H. intros r s9 [-> H]. rds H. rewrite <- app_assoc in H.
  destruct (PEnc.bSeqTcoeffLevelPredFlag x) eqn:Eq; cbn [app] in H; rdall H;
    unfold decodedExt; rewrite Eq; reflexivity.
Qed.

End Decoded.
