(* ===== verification/H264ParamsUnit.v ===== *)
(** * Parameter sets through the whole codec

    A parameter set that the encoder writes becomes a NAL unit; the decoder
    takes the unit out of the byte stream, parses it and stores the set.  Here
    the parts are put together: for a decoder between pictures, a stream of
    parameter sets updates the buffers of the decoder exactly as the abstract
    [applySet] says. *)

From S2P Require Import Prelude Bytes H264Bits H264BitsSpec H264ReadSpec H264Syntax.
From S2P Require Import H264Nal H264NalSpec H264NalStream.
From S2P Require Import H264ParamsEnc H264ParamsDec H264ParamsSpec H264ParamsTrip.

(** ** The payload of a set *)

(** [bytes] is a payload of the elements [es]. *)
Definition payloadOf (es : list elem) (bytes : list Z) : Prop :=
  bytes_ok bytes /\
  exists k, bytes_bits bytes = elems_bits es ++ true :: replicate k false /\ (k < 8)%nat.

Lemma write_payload m es es' buf off cap s0 :
  writesRbsp m es -> Forall elem_ok es -> elems_bits es = elems_bits es' ->
  bytes_ok buf -> 0 <= off -> zlen buf = off + cap -> zlen (elems_bits es) + 33 <= 8 * cap ->
  exists s1, (do! InitBits buf off cap in m) s0 = (Ok tt, s1) /\ payloadOf es' (written s1).
Proof.
  intros Hm Hok Hes Hbuf Hoff Hcap Hroom. pose proof (zlen_nonneg (elems_bits es)).
  assert (Hw : wp (do! InitBits buf off cap in do! write_elems es in BsRbspTrailingBits) s0
     (fun _ s1 => payloadOf es' (written s1)) (fun _ _ => False)).
  { wsteps. wcall (writes_init cap buf off cap s0); [done|lia..|done| |done]. intros _ s1 (W1 & _ & _). wsteps.
    wcall (wp_write_elems es _ _ _ W1 Hok); [rewrite zlen_nil; lia| |done].
    intros [] s2 W2. cbn [app] in W2. wcall (wp_BsRbspTrailingBits _ _ _ W2); [lia| |done].
    intros [] s3 [W3 E3]. destruct (writes_bytes _ _ _ W3 E3) as [Hb Hbo]. split; [done|].
    destruct (pad8_short (elems_bits es ++ [true])) as (k & Hk & Hk8). exists k.
    rewrite Hb, Hk, Hes. done. }
  destruct (wp_Ok _ _ _ Hw) as ([] & s1 & Hrun & Hp). exists s1. split; [|done].
  rewrite <- Hrun. unfold gbind at 1 2. destruct (InitBits buf off cap s0) as [[]]; [apply Hm|done..].
Qed.

Lemma payload_nonempty es bytes : payloadOf es bytes -> bytes <> [].
Proof.
  intros [_ (k & Hb & _)] ->. apply (f_equal length) in Hb. rewrite length_app in Hb. cbn in Hb. lia.
Qed.

(** The last byte holds the stop bit. *)
Lemma payload_stop es bytes : payloadOf es bytes -> endsNonzero bytes.
Proof.
  intros [Hok (k & Hb & Hk)] init b ->. intros ->. rewrite bytes_bits_app in Hb.
  change (bytes_bits [0]) with (bits 8 0 ++ []) in Hb. rewrite app_nil_r in Hb.
  assert (Hlast : forall i, (i < 8)%nat -> (bytes_bits init ++ bits 8 0) !! (length (bytes_bits init) + i)%nat = Some false).
  { intros i Hi. rewrite lookup_app_r by lia. replace (_ + i - _)%nat with i by lia.
    do 8 (destruct i as [|i]; [done|]). lia. }
  pose proof (f_equal length Hb) as Hl. rewrite !length_app, length_bits in Hl. cbn [length] in Hl.
  rewrite length_replicate in Hl.
  specialize (Hlast (7 - k)%nat ltac:(lia)). rewrite Hb in Hlast.
  replace (length (bytes_bits init) + (7 - k))%nat with (length (elems_bits es)) in Hlast by lia.
  rewrite lookup_app_r, Nat.sub_diag in Hlast by lia. discriminate.
Qed.

(** The reader after [DecInitBits] on a payload inside a unit. *)
Lemma wp_read_init es bytes nal s :
  payloadOf es bytes -> Forall elem_ok es -> bytes_ok nal -> 1 + zlen bytes <= zlen nal ->
  zslice nal 1 (zlen bytes) = bytes ->
  wp (DecInitBits nal 1 (rbspBits bytes)) s (fun _ s' => ahead es s') (fun _ _ => False).
Proof.
  intros [Hok (k & Hb & Hk)] Hes Hn Hl Hs.
  wcall (wp_read_payload bytes _ k nal 1 s Hn ltac:(lia) Hl Hs Hb Hk); [|done].
  intros [] s' R. split; [done|]. by exists (elems_bits es ++ true :: replicate k false), 0, k.
Qed.

(** ** The sets and what they do to the decoder *)

Inductive paramSet : Type :=
| SetSps (p : PEnc.SWelsSPS) (d lim : Z)
| SetPps (p : PEnc.SWelsPPS) (st : PEnc.IWelsParametersetStrategy).

Definition setOk (u : paramSet) : Prop :=
  match u with SetSps p d lim => spsOk p d lim | SetPps p st => ppsOk p st end.

Definition setRead (u : paramSet) : list elem :=
  match u with SetSps p d _ => spsRead p d true | SetPps p st => ppsRead p st end.

Definition setType (u : paramSet) : Z :=
  match u with SetSps _ _ _ => PDec.NAL_UNIT_SPS | SetPps _ _ => PDec.NAL_UNIT_PPS end.

Section Apply.
Import PDec.

(** The set goes into its buffer. *)
Definition storedSet (u : paramSet) (t : SWelsDecoderSpsPpsCTX) : SWelsDecoderSpsPpsCTX :=
  match u with
  | SetSps p d lim =>
      let q := decodedSps p d lim true in
      let t := if isScalable (PEnc.uiProfileIdc p) then t <| bAvcBasedFlag := false |> else t in
      t <| sSpsBuffer := zinsert (iSpsId q) q (sSpsBuffer t) |>
        <| bSpsAvailFlags := zinsert (iSpsId q) true (bSpsAvailFlags t) |> <| bSpsExistAheadFlag := true |>
  | SetPps p st =>
      let q := decodedPps p st in
      t <| sPpsBuffer := zinsert (iPpsId q) q (sPpsBuffer t) |>
        <| bPpsAvailFlags := zinsert (iPpsId q) true (bPpsAvailFlags t) |>
  end.

(** A picture parameter set has been seen. *)
Definition seenSet (u : paramSet) (t : SWelsDecoderSpsPpsCTX) : SWelsDecoderSpsPpsCTX :=
  match u with
  | SetSps _ _ _ => t
  | SetPps _ _ => t <| bPpsExistAheadFlag := true |> <| iSeqId := i32 (iSeqId t + 1) |>
  end.

(** The decoder's buffers after a unit with a set. *)
Definition applySet (u : paramSet) (t : SWelsDecoderSpsPpsCTX) : SWelsDecoderSpsPpsCTX :=
  let t := t <| iSpsErrorIgnored := 0 |> <| iPpsErrorIgnored := 0 |> <| iSubSpsErrorIgnored := 0 |> in
  seenSet u (storedSet u t) <| iOverwriteFlags := OVERWRITE_NONE |>.

(** The buffers have their sizes and hold sets with ids in range. *)
Record setsOk (t : SWelsDecoderSpsPpsCTX) : Prop := {
  k_sps : zlen (sSpsBuffer t) = 33;
  k_pps : zlen (sPpsBuffer t) = 257;
  k_subset : zlen (sSubsetSpsBuffer t) = 33;
  k_sps_flags : zlen (bSpsAvailFlags t) = 32;
  k_subset_flags : zlen (bSubspsAvailFlags t) = 32;
  k_pps_flags : zlen (bPpsAvailFlags t) = 256;
  k_sps_ids : Forall (fun q => 0 <= iSpsId q < 32) (sSpsBuffer t);
  k_subset_ids : Forall (fun q => 0 <= iSpsId (sSps q) < 32) (sSubsetSpsBuffer t);
  k_pps_ids : Forall (fun q => 0 <= iPpsId q < 256) (sPpsBuffer t)
}.

(** A decoder between pictures: no access unit is being collected, no picture is
    being reconstructed, no set is active and none is waiting. *)
Record idle (c : decCtx) : Prop := {
  d_sets : setsOk (sSpsPpsCtx c);
  d_active : Forall (eq None) (pActiveLayerSps (sSpsPpsCtx c));
  d_over : iOverwriteFlags (sSpsPpsCtx c) = 0;
  d_units : pAccessUnitList c = [];
  d_mb : iTotalNumMbRec c = 0;
  d_pps : pPps c = None;
  d_next : bNextNewSeqBegin c = false;
  d_err : iErrorCode c = 0
}.

Lemma wp_onBs {A} (m : BS A) c (Q : A -> decCtx -> Prop) (E : error -> decCtx -> Prop) :
  wp m (sBs c) (fun a b => Q a (c <| sBs := b |>)) (fun e b => E e (c <| sBs := b |>)) -> wp (onBs m) c Q E.
Proof. unfold wp, onBs. by destruct (m (sBs c)) as [[] b]. Qed.

Lemma wp_gstore {S A} (l : list A) i (v : A) (s : S) (Q : list A -> S -> Prop) E :
  0 <= i < zlen l -> Q (zinsert i v l) s -> wp (gstore l i v) s Q E.
Proof.
  intros Hi HQ. unfold gstore. rewrite (proj2 (Z.leb_le _ _)), (proj2 (Z.ltb_lt _ _)) by lia. by apply wp_ret.
Qed.

Lemma not_active (p : spsRef) l : Forall (eq None) l -> existsb (fun a => bool_decide (a = Some p)) l = false.
Proof. induction 1 as [|a l <- _ IH]; [done|]. cbn [existsb]. by rewrite IH, bool_decide_false. Qed.

(** No set is in use between pictures. *)
Lemma idle_not_active c id :
  idle c -> 0 <= id < 32 ->
  wp (CheckSpsActive (mkRef false id) false) c (fun r c' => r = false /\ c' = c) (fun _ _ => False).
Proof.
  intros I Hid. destruct (d_sets _ I). unfold CheckSpsActive, derefSps. wsteps.
  rewrite not_active by apply I. wsteps. cbn [inSubset spsIndex].
  destruct (zlookup_Some (sSpsBuffer (sSpsPpsCtx c)) id) as [q Hq]; [lia|]. eapply wp_gindex; [exact Hq|].
  destruct ((0 <? iMbWidth q) && (0 <? iMbHeight q)); [|by wsteps]. wsteps.
  assert (0 <= iSpsId q < 32) as Hqi.
  { eapply list.Forall_forall in k_sps_ids0; [exact k_sps_ids0|]. eapply list_elem_of_lookup_2.
    unfold zlookup in Hq. destruct (id <? 0); [done|exact Hq]. }
  destruct (zlookup_Some (bSpsAvailFlags (sSpsPpsCtx c)) (iSpsId q)) as [a Ha]; [lia|].
  eapply wp_gindex; [exact Ha|]. rewrite (d_mb _ I), (d_units _ I). destruct a; by wsteps.
Qed.

Lemma Forall_zinsert {A} (P : A -> Prop) i x l : Forall P l -> P x -> Forall P (zinsert i x l).
Proof. intros Hl Hx. unfold zinsert. destruct (i <? 0); [done|]. by apply Forall_insert. Qed.

(** Where the parser's result goes. *)
Lemma wp_storeSps c q :
  idle c -> 0 <= iSpsId q < 32 ->
  wp (storeSps false (zeroSSubsetSps <| sSps := q |>)) c
     (fun _ c' => c' = c <| sSpsPpsCtx := sSpsPpsCtx c
        <| sSpsBuffer := zinsert (iSpsId q) q (sSpsBuffer (sSpsPpsCtx c)) |>
        <| bSpsAvailFlags := zinsert (iSpsId q) true (bSpsAvailFlags (sSpsPpsCtx c)) |>
        <| bSpsExistAheadFlag := true |> |>) (fun _ _ => False).
Proof.
  intros I Hq. destruct (d_sets _ I). unfold storeSps. cbv zeta.
  change (sSps (zeroSSubsetSps <| sSps := q |>)) with q. wsteps.
  wcall (idle_not_active c (iSpsId q) I Hq); [|done]. intros r c' [-> ->]. unfold storeSpsAt, updSets. wsteps.
  apply wp_gstore; [lia|]. wsteps. apply wp_gstore; [lia|]. wsteps. done.
Qed.

Lemma wp_storePps c q :
  idle c -> 0 <= iPpsId q < 256 ->
  wp (storePps q) c
     (fun _ c' => c' = c <| sSpsPpsCtx := sSpsPpsCtx c
        <| sPpsBuffer := zinsert (iPpsId q) q (sPpsBuffer (sSpsPpsCtx c)) |>
        <| bPpsAvailFlags := zinsert (iPpsId q) true (bPpsAvailFlags (sSpsPpsCtx c)) |> |>) (fun _ _ => False).
Proof.
  intros I Hq. destruct (d_sets _ I). unfold storePps, storePpsAt, updSets. wsteps. rewrite (d_pps _ I). wsteps.
  apply wp_gstore; [lia|]. wsteps. apply wp_gstore; [lia|]. wsteps. done.
Qed.

(** The state only matters up to the bit string. *)
Lemma idle_bs c b : idle c -> idle (c <| sBs := b |>).
Proof. intros []. by constructor. Qed.

Lemma idle_sets c t :
  idle c -> setsOk t -> pActiveLayerSps t = pActiveLayerSps (sSpsPpsCtx c) ->
  iOverwriteFlags t = 0 -> idle (c <| sSpsPpsCtx := t |>).
Proof. intros [] Ht Ha Ho. constructor; cbn; [done|by rewrite Ha|done..]. Qed.

Lemma setsOk_sps t q :
  setsOk t -> 0 <= iSpsId q < 32 -> setsOk (t <| sSpsBuffer := zinsert (iSpsId q) q (sSpsBuffer t) |>
    <| bSpsAvailFlags := zinsert (iSpsId q) true (bSpsAvailFlags t) |> <| bSpsExistAheadFlag := true |>).
Proof. intros [] Hq. constructor; cbn; rewrite ?zlen_insert; try done. by apply Forall_zinsert. Qed.

Lemma setsOk_pps t q :
  setsOk t -> 0 <= iPpsId q < 256 -> setsOk (t <| sPpsBuffer := zinsert (iPpsId q) q (sPpsBuffer t) |>
    <| bPpsAvailFlags := zinsert (iPpsId q) true (bPpsAvailFlags t) |>).
Proof. intros [] Hq. constructor; cbn; rewrite ?zlen_insert; try done. by apply Forall_zinsert. Qed.

(** The parser on a set of the encoder. *)
Lemma wp_parse u c :
  idle c -> setOk u -> ENalUnitType c = setType u -> ahead (setRead u) (sBs c) ->
  wp (match u with SetSps _ _ _ => ParseSps | SetPps _ _ => ParsePps end) c
     (fun _ c' => exists b, c' = c <| sBs := b |> <| sSpsPpsCtx := storedSet u (sSpsPpsCtx c) |>)
     (fun _ _ => False).
Proof.
  intros I Hok Ht H. destruct u as [p d lim|p st]; cbn [setOk setType setRead storedSet] in *; cbv zeta.
  - unfold ParseSps. wsteps. rewrite Ht. change (IS_SUBSET_SPS_NAL NAL_UNIT_SPS) with false. apply wp_onBs.
    eapply (read_sps p d lim true false []); [done|by rewrite app_nil_r|]. intros b _. apply wp_ret.
    cbv beta iota. set (q := decodedSps p d lim true).
    change (uiProfileIdc (sSps _)) with (PEnc.uiProfileIdc p).
    assert (0 <= iSpsId q < 32) as Hq by apply Hok.
    unfold updSets. destruct (isScalable _).
    + wsteps. wcall (wp_storeSps (c <| sBs := b |> <| sSpsPpsCtx := sSpsPpsCtx c <| bAvcBasedFlag := false |> |>) q);
        [|done| |done].
      * apply idle_sets; [by apply idle_bs|by destruct (d_sets _ I)|done|apply I].
      * intros [] c' ->. by exists b.
    + wsteps. wcall (wp_storeSps (c <| sBs := b |>) q (idle_bs _ _ I) Hq); [|done]. intros [] c' ->. by exists b.
  - unfold ParsePps. wsteps. apply wp_onBs. wcall (read_pps p st _ _ Hok H); [|done]. intros q b ->.
    wcall (wp_storePps (c <| sBs := b |>) (decodedPps p st) (idle_bs _ _ I)); [apply Hok| |done].
    intros [] c' ->. by exists b.
Qed.

(** ** The unit *)

Definition setHeader (u : paramSet) : SNalUnitHeader := mkNalHeader 0 3 (setType u).

(** The unit [payload] makes, with the zeros of the next start code. *)
Definition setUnit (u : paramSet) (payload zeros : list Z) : list Z :=
  Encoder.nalHeaderByte (setHeader u) :: payload ++ zeros.

Lemma trailingZeros_app payload zeros h :
  payload <> [] -> endsNonzero payload -> Forall (eq 0) zeros ->
  trailingZeros (rev (h :: payload ++ zeros)) = zlen zeros.
Proof.
  intros Hn He Hz. cbn [rev]. rewrite rev_app_distr, <- app_assoc.
  destruct payload as [|b init _] using rev_ind; [done|]. rewrite rev_app_distr. cbn [rev app].
  assert (b <> 0) by (by eapply He).
  assert (Hz' : Forall (eq 0) (rev zeros)) by (by apply Forall_rev).
  replace (zlen zeros) with (zlen (rev zeros)) by (unfold zlen; by rewrite length_rev).
  induction Hz' as [|z l <- _ IH]; cbn [app trailingZeros].
  - by rewrite (proj2 (Z.eqb_neq b 0)).
  - rewrite zlen_cons. cbn [Z.eqb]. lia.
Qed.

Lemma setUnit_payload u payload zeros :
  zslice (setUnit u payload zeros) 1 (zlen payload) = payload /\ 1 + zlen payload <= zlen (setUnit u payload zeros).
Proof.
  unfold setUnit. split.
  - unfold zslice, zlen. rewrite Nat2Z.id. cbn [Z.to_nat Pos.to_nat Pos.iter_op Nat.add drop]. apply take_app_length.
  - rewrite zlen_cons, zlen_app. pose proof (zlen_nonneg zeros). lia.
Qed.

Lemma zget_slice_last nal payload :
  zslice nal 1 (zlen payload) = payload -> payload <> [] -> 1 + zlen payload <= zlen nal ->
  zlookup nal (1 + zlen payload - 1) = Some (zget payload (zlen payload - 1)).
Proof.
  intros Hs Hn Hl. assert (0 < zlen payload) by (destruct payload; [done|]; rewrite zlen_cons; pose proof (zlen_nonneg payload); lia).
  rewrite <- Hs at 2. rewrite zget_slice by lia. replace (1 + (zlen payload - 1)) with (1 + zlen payload - 1) by lia.
  apply zlookup_zget. lia.
Qed.

Lemma wp_ParseNonVclNal u c payload zeros :
  idle c -> setOk u -> ENalUnitType c = setType u -> payloadOf (setRead u) payload -> bytes_ok zeros ->
  wp (ParseNonVclNal (setUnit u payload zeros) 1 (zlen payload)) c
     (fun r c' => r = 0 /\ exists b h, c' = c <| sBs := b |> <| bHasNewSps := h |>
        <| sSpsPpsCtx := seenSet u (storedSet u (sSpsPpsCtx c)) |>) (fun _ _ => False).
Proof.
  intros I Hok Ht Hp Hz. pose proof (payload_nonempty _ _ Hp) as Hn.
  destruct (setUnit_payload u payload zeros) as [Hs Hl].
  assert (Hpos : 0 < zlen payload) by (destruct payload; [done|]; rewrite zlen_cons; pose proof (zlen_nonneg payload); lia).
  assert (Hunit : bytes_ok (setUnit u payload zeros)).
  { destruct Hp as [Hp _]. apply list.Forall_cons. split; [apply header_byte|]. by apply Forall_app. }
  assert (Hre : Forall elem_ok (setRead u)).
  { destruct u; cbn [setOk setRead] in *; [by eapply spsRead_ok|by apply ppsRead_ok]. }
  unfold ParseNonVclNal. rewrite (proj2 (Z.leb_gt _ _)) by lia. wsteps.
  eapply wp_gindex; [by apply zget_slice_last|]. fold (rbspBits payload). cbv zeta. wsteps. rewrite Ht.
  assert (Hbits : 0 < rbspBits payload).
  { destruct Hp as [Hpo (k & Hb & Hk)]. destruct (rbspBits_spec payload _ k Hpo Hb Hk) as [-> _].
    pose proof (zlen_nonneg (elems_bits (setRead u))). lia. }
  rewrite (proj2 (Z.ltb_lt 0 _)) by lia.
  assert (Hinit : wp (onBs (DecInitBits (setUnit u payload zeros) 1 (rbspBits payload))) c
     (fun _ c' => exists b, c' = c <| sBs := b |> /\ ahead (setRead u) b) (fun _ _ => False)).
  { apply wp_onBs. wcall (wp_read_init _ _ _ _ Hp Hre Hunit Hl Hs); [|done]. intros [] b Hb. by exists b. }
  destruct u as [p d lim|p st]; cbn [setType].
  - change ((NAL_UNIT_SPS =? NAL_UNIT_SPS) || (NAL_UNIT_SPS =? NAL_UNIT_SUBSET_SPS)) with true. cbv iota. wsteps.
    eapply wp_mono; [exact Hinit| |done]. intros [] c1 (b & -> & Hb). wsteps.
    wcall (wp_parse (SetSps p d lim) (c <| sBs := b |>) (idle_bs _ _ I) Hok Ht Hb); [|done].
    intros [] c2 (b' & ->). wsteps. split; [done|]. by exists b', true.
  - change ((NAL_UNIT_PPS =? NAL_UNIT_SPS) || (NAL_UNIT_PPS =? NAL_UNIT_SUBSET_SPS)) with false.
    change (NAL_UNIT_PPS =? NAL_UNIT_PPS) with true. cbv iota. wsteps.
    eapply wp_mono; [exact Hinit| |done]. intros [] c1 (b & -> & Hb). wsteps.
    wcall (wp_parse (SetPps p st) (c <| sBs := b |>) (idle_bs _ _ I) Hok Ht Hb); [|done].
    intros [] c2 (b' & ->). unfold updSets. wsteps. split; [done|]. by exists b', (bHasNewSps c).
Qed.

Section Decode.
Context (parseVcl : list Z -> Z -> DC bool) (sliceBoundary : decCtx -> bool) (construct : DC unit)
        (needErrorCon : decCtx -> bool) (finishPicture : DC unit).

(** Branches whose condition has a value. *)
Ltac wtests :=
  repeat (wsteps; match goal with
    | |- wp (if ?b then _ else _) _ _ _ =>
        let v := eval vm_compute in b in
        match v with true => change b with true | false => change b with false end; cbv iota
    end); wsteps.

(** A set may come once a sequence parameter set has. *)
Definition mayCome (u : paramSet) (t : SWelsDecoderSpsPpsCTX) : Prop :=
  match u with SetSps _ _ _ => True | SetPps _ _ => bSpsExistAheadFlag t = true end.

Lemma wp_header u c payload zeros :
  mayCome u (sSpsPpsCtx c) -> payload <> [] -> endsNonzero payload -> Forall (eq 0) zeros ->
  wp (ParseNalHeader parseVcl (setUnit u payload zeros)) c
     (fun r c' => r = Some (zlen zeros + 1) /\
        c' = c <| ENalUnitType := setType u |> <| UiNalRefIdc := 3 |>
               <| sSpsPpsCtx := sSpsPpsCtx c <| iSpsErrorIgnored := 0 |> <| iPpsErrorIgnored := 0 |>
                                             <| iSubSpsErrorIgnored := 0 |> |>) (fun _ _ => False).
Proof.
  intros Hm Hn He Hz. unfold ParseNalHeader, updSets. wsteps. cbv zeta.
  unfold setUnit. rewrite trailingZeros_app by done. change (zget (?h :: ?l) 0) with h.
  destruct u as [p d lim|p st]; cbn [mayCome setType] in *.
  - change (Encoder.nalHeaderByte (setHeader (SetSps p d lim))) with 103. wtests. by destruct c.
  - change (Encoder.nalHeaderByte (setHeader (SetPps p st))) with 104. wtests.
    change (sSpsPpsCtx (c <| ENalUnitType := _ |> <| UiNalRefIdc := _ |> <| ENalUnitType := _ |>)) with (sSpsPpsCtx c).
    rewrite Hm. wtests. by destruct c.
Qed.

(** Between pictures there is nothing to finish. *)
Lemma wp_finish c :
  idle c -> IS_PARAM_SETS_NALS (ENalUnitType c) = true ->
  wp (CheckAndFinishLastPic sliceBoundary construct needErrorCon finishPicture) c
     (fun _ c' => c' = c) (fun _ _ => False).
Proof.
  intros I Ht. unfold CheckAndFinishLastPic, IS_PARAM_SETS_NALS, hasFlag in *. wsteps. cbv zeta.
  rewrite (d_over _ I). unfold uiAvailUnitsNum. rewrite (d_units _ I).
  change (zlen (@nil auUnit) =? 0) with true. rewrite andb_false_r. wsteps. rewrite (d_mb _ I).
  change (negb (0 =? 0)) with false. rewrite andb_false_r. by wsteps.
Qed.

Lemma wp_DecodeFinishUpdate c :
  idle c ->
  wp DecodeFinishUpdate c
     (fun _ c' => c' = c <| bNewSeqBegin := false |> <| bNextNewSeqBegin := false |>
        <| sSpsPpsCtx := sSpsPpsCtx c <| iOverwriteFlags := OVERWRITE_NONE |> |>) (fun _ _ => False).
Proof.
  intros I. unfold DecodeFinishUpdate, WriteBackActiveParameters, updSets. wsteps.
  change (iOverwriteFlags (sSpsPpsCtx (c <| bNewSeqBegin := false |>))) with (iOverwriteFlags (sSpsPpsCtx c)).
  rewrite (d_over _ I). cbv zeta. wtests. cbn [orb].
  match goal with |- context [bNextNewSeqBegin ?x] => change (bNextNewSeqBegin x) with (bNextNewSeqBegin c) end.
  rewrite (d_next _ I). wtests. by destruct c.
Qed.

Lemma set_id u : setOk u -> match u with
  | SetSps p d lim => 0 <= iSpsId (decodedSps p d lim true) < 32
  | SetPps p st => 0 <= iPpsId (decodedPps p st) < 256 end.
Proof. destruct u; intros H; apply H. Qed.

Lemma setsOk_stored u t : setsOk t -> setOk u -> setsOk (storedSet u t).
Proof.
  intros Ht Hu. pose proof (set_id u Hu) as Hid. destruct u as [p d lim|p st]; cbn [storedSet]; cbv zeta.
  - apply setsOk_sps; [|done]. by destruct Ht, (isScalable _).
  - by apply setsOk_pps.
Qed.

Lemma setsOk_seen u t : setsOk t -> setsOk (seenSet u t).
Proof. intros []. destruct u; by constructor. Qed.

Lemma seen_same u t :
  pActiveLayerSps (seenSet u t) = pActiveLayerSps t /\ iOverwriteFlags (seenSet u t) = iOverwriteFlags t.
Proof. by destruct u. Qed.

Lemma idle_rest c b n :
  idle c -> idle (c <| bNewSeqBegin := b |> <| bNextNewSeqBegin := false |>
                    <| sSpsPpsCtx := sSpsPpsCtx c <| iOverwriteFlags := OVERWRITE_NONE |> |> <| sBs := n |>).
Proof. intros [[] ? ? ? ? ? ? ?]. by constructor. Qed.

Lemma stored_same u t :
  pActiveLayerSps (storedSet u t) = pActiveLayerSps t /\ iOverwriteFlags (storedSet u t) = iOverwriteFlags t.
Proof. destruct u as [p d lim|]; [|done]. cbn [storedSet]. cbv zeta. by destruct (isScalable _). Qed.

(** The decoder on a unit with a set. *)
Lemma wp_decodeUnit u c payload zeros last :
  idle c -> setOk u -> mayCome u (sSpsPpsCtx c) -> payloadOf (setRead u) payload -> Forall (eq 0) zeros ->
  wp (decodeUnit parseVcl sliceBoundary construct needErrorCon finishPicture last (setUnit u payload zeros)) c
     (fun r c' => r = None /\ idle c' /\ sSpsPpsCtx c' = applySet u (sSpsPpsCtx c)) (fun _ _ => False).
Proof.
  intros I Hok Hm Hp Hz. unfold decodeUnit. wsteps.
  wcall (wp_header u c payload zeros Hm (payload_nonempty _ _ Hp) (payload_stop _ _ Hp) Hz); [|done].
  intros r c1 [-> ->]. set (c1 := c <| ENalUnitType := _ |> <| UiNalRefIdc := _ |> <| sSpsPpsCtx := _ |>).
  assert (I1 : idle c1).
  { unfold c1. destruct I as [[] ? ? ? ? ? ? ?]. by constructor. }
  assert (Ht1 : ENalUnitType c1 = setType u) by done.
  assert (Hset : IS_PARAM_SETS_NALS (ENalUnitType c1) = true) by (rewrite Ht1; by destruct u).
  wsteps. rewrite Hset.
  replace (zlen (setUnit u payload zeros) - (zlen zeros + 1)) with (zlen payload)
    by (unfold setUnit; rewrite zlen_cons, zlen_app; lia).
  assert (Hzb : bytes_ok zeros) by (apply (list.Forall_impl _ _ _ Hz); intros ? <-; unfold is_u8; lia).
  wcall (wp_ParseNonVclNal u c1 payload zeros I1 Hok Ht1 Hp Hzb); [|done].
  intros r c2 (-> & b & h & ->). set (t2 := seenSet u _).
  set (c2 := c1 <| sBs := b |> <| bHasNewSps := h |> <| sSpsPpsCtx := t2 |>). wsteps.
  assert (I2 : idle c2).
  { pose proof (setsOk_stored u _ (d_sets _ I1) Hok) as Hs. destruct (stored_same u (sSpsPpsCtx c1)) as [Ha Ho].
    destruct (seen_same u (storedSet u (sSpsPpsCtx c1))) as [Ha' Ho'].
    unfold c2. apply idle_sets; [destruct I1; by constructor|by apply setsOk_seen|..]; unfold t2.
    - by rewrite Ha', Ha.
    - rewrite Ho', Ho. apply I1. }
  wcall (wp_finish c2 I2 Hset); [|done]. intros [] c' ->. wsteps.
  unfold uiAvailUnitsNum. rewrite (d_units _ I2). change (zlen (@nil auUnit) =? 0) with true.
  rewrite andb_false_r. wsteps. wcall (wp_DecodeFinishUpdate c2 I2); [|done]. intros [] c3 ->. wsteps.
  pose proof (idle_rest c2 false (sBs c2) I2) as I3.
  set (c3 := c2 <| bNewSeqBegin := _ |> <| bNextNewSeqBegin := _ |> <| sSpsPpsCtx := _ |>) in *.
  change (c3 <| sBs := sBs c2 |>) with c3 in I3.
  change (iErrorCode c3) with (iErrorCode c2). rewrite (d_err _ I2). cbv zeta.
  assert (Hfin : sSpsPpsCtx c3 = applySet u (sSpsPpsCtx c)) by done.
  clearbody c3. destruct last; wtests; done.
Qed.

(** The decoder's handler of units, as the scan of the byte stream calls it. *)
Definition onUnit (last : bool) (nal : list Z) (ec : Z * decCtx) : option Z * (Z * decCtx) :=
  match decodeUnit parseVcl sliceBoundary construct needErrorCon finishPicture last nal
          (snd ec <| iErrorCode := fst ec |>) with
  | (Ok r, c) => (r, (iErrorCode c, c))
  | (_, c) => (Some (iErrorCode c), (iErrorCode c, c))
  end.

(** A set and its payload as a unit of the stream. *)
Definition setNalu (x : paramSet * list Z) : nalu := mkNalu (setHeader (fst x)) None (snd x).

Lemma setNalu_raw x zeros : rawUnit (setNalu x) ++ zeros = setUnit (fst x) (snd x) zeros.
Proof. destruct x as [[] pl]; unfold rawUnit, setUnit, extBytes; cbn; done. Qed.

Lemma setNalu_ok u pl : payloadOf (setRead u) pl -> naluOk (setNalu (u, pl)).
Proof.
  intros Hp. pose proof (payload_stop _ _ Hp). destruct Hp as [Hb _].
  constructor; cbn; [lia|by destruct u|by destruct u|done|done].
Qed.

Lemma onUnit_set u c pl zeros last :
  idle c -> setOk u -> mayCome u (sSpsPpsCtx c) -> payloadOf (setRead u) pl -> Forall (eq 0) zeros ->
  exists c', onUnit last (setUnit u pl zeros) (0, c) = (None, (0, c')) /\
    idle c' /\ sSpsPpsCtx c' = applySet u (sSpsPpsCtx c).
Proof.
  intros I Hok Hm Hp Hz.
  destruct (wp_Ok _ _ _ (wp_decodeUnit u c pl zeros last I Hok Hm Hp Hz)) as (r & c' & Hrun & -> & I' & Ht).
  exists c'. unfold onUnit. cbn [fst snd].
  assert (c <| iErrorCode := 0 |> = c) as -> by (pose proof (d_err _ I); destruct c; cbn in *; by subst).
  rewrite Hrun, (d_err _ I'). done.
Qed.

Lemma apply_seen u t : mayCome u t -> bSpsExistAheadFlag (applySet u t) = true.
Proof. intros H. by destruct u. Qed.

(** Between pictures no unit waits, wherever the units are read. *)
Lemma idle_reusable (sliceStart : auUnit -> option Z) c n :
  idle c -> Decoder.RawDataWrapIsClean (fun c => map sliceStart (pAccessUnitList c)) c n = true.
Proof. intros I. unfold Decoder.RawDataWrapIsClean. by rewrite (d_units _ I). Qed.

(** A sequence of sets, the first of which may come. *)
Lemma feed_sets (sliceStart : auUnit -> option Z) xs : forall x c,
  idle c -> mayCome (fst x) (sSpsPpsCtx c) ->
  Forall (fun y => setOk (fst y) /\ payloadOf (setRead (fst y)) (snd y)) (x :: xs) ->
  goesOn onUnit (map setNalu (x :: xs)) (0, c) /\
  reusable onUnit (fun c => map sliceStart (pAccessUnitList c)) (map setNalu (x :: xs)) (0, c) /\
  exists c', feed onUnit (map setNalu (x :: xs)) (0, c) = (0, c') /\ idle c' /\
    sSpsPpsCtx c' = fold_left (fun t u => applySet u t) (map fst (x :: xs)) (sSpsPpsCtx c).
Proof.
  induction xs as [|y xs IH]; intros x c I Hm Hall; apply list.Forall_cons in Hall as [[Hok Hp] Hall].
  - destruct (onUnit_set (fst x) c (snd x) [] true I Hok Hm Hp ltac:(done)) as (c' & E & I' & Ht).
    rewrite <- setNalu_raw, app_nil_r in E. cbn [map goesOn feed fold_left]. rewrite E. split; [done|].
    split; [|by exists c']. split; [|done]. intros n. by apply idle_reusable.
  - destruct (onUnit_set (fst x) c (snd x) [0] false I Hok Hm Hp ltac:(by constructor)) as (c' & E & I' & Ht).
    rewrite <- setNalu_raw in E.
    assert (Hm' : mayCome (fst y) (sSpsPpsCtx c')).
    { rewrite Ht. destruct (fst y); [done|]. cbn [mayCome]. by apply apply_seen. }
    destruct (IH y c' I' Hm' Hall) as [Hgo [Hre (c'' & Hf & I'' & Ht'')]].
    change (map setNalu (x :: y :: xs)) with (setNalu x :: setNalu y :: map setNalu xs).
    change (map setNalu (y :: xs)) with (setNalu y :: map setNalu xs) in Hgo, Hre, Hf.
    split; [|split].
    + cbn [goesOn]. rewrite E. cbn [fst snd]. split; [done|exact Hgo].
    + cbn [reusable]. rewrite E. cbn [fst snd]. split; [|exact Hre]. intros n. by apply idle_reusable.
    + exists c''. split; [|split; [done|]].
      * cbn [feed]. rewrite E. exact Hf.
      * rewrite Ht'', Ht. done.
Qed.

End Decode.

End Apply.

(** ** From the encoder *)

(** The writer of a set; [delta] are the id offsets of the strategy. *)
Definition writeSet (delta : list Z) (u : paramSet) : BS unit :=
  match u with
  | SetSps p _ _ => PEnc.WelsWriteSpsNal p delta
  | SetPps p st => PEnc.WelsWritePpsSyntax p st
  end.

(** The payload of a set, written into a buffer of its own. *)
Definition encodeSet (buf delta : list Z) (u : paramSet) : result (list Z) :=
  let '(r, s) := (do! InitBits buf 0 (zlen buf) in writeSet delta u) (mkBs [] 0 0 0 0 0 0) in
  match r with
  | Ok _ => Ok (written s)
  | Err e => Err e
  | Panic => Panic
  | OutOfFuel => OutOfFuel
  end.

Fixpoint encodeSets (buf delta : list Z) (us : list paramSet) : result (list (paramSet * list Z)) :=
  match us with
  | [] => Ok []
  | u :: us' =>
      match encodeSet buf delta u, encodeSets buf delta us' with
      | Ok pl, Ok rest => Ok ((u, pl) :: rest)
      | Ok _, r => r
      | Err e, _ => Err e
      | Panic, _ => Panic
      | OutOfFuel, _ => OutOfFuel
      end
  end.

(** The delta list has the offset of the set's id. *)
Definition deltaOk (delta : list Z) (u : paramSet) : Prop :=
  match u with SetSps p d _ => zlookup delta (PEnc.uiSpsId p) = Some d | SetPps _ _ => True end.

Lemma elem_bits_bound e : elem_ok e -> zlen (elem_bits e) <= 31.
Proof.
  assert (Hue : forall v, 0 <= v < 65535 -> zlen (ueBits v) <= 31).
  { intros v Hv. rewrite zlen_ueBits by lia. apply ueLen_range. lia. }
  destruct e as [n v|v|k|x v]; cbn [elem_ok elem_bits].
  - intros [? _]. rewrite zlen_bits. lia.
  - apply Hue.
  - intros. apply Hue. unfold seNum. destruct (0 <? k) eqn:?; zbool; lia.
  - intros (_ & Hv & _). destruct (x =? 1); [rewrite zlen_bits; lia|by apply Hue].
Qed.

Lemma elems_bits_bound es : Forall elem_ok es -> zlen (elems_bits es) <= 31 * zlen es.
Proof.
  induction 1 as [|e es He _ IH]; [done|]. rewrite elems_bits_cons, zlen_app, zlen_cons.
  pose proof (elem_bits_bound e He). lia.
Qed.

Lemma setRead_size u : zlen (setRead u) <= 60.
Proof.
  destruct u as [p d lim|p st]; cbn [setRead]; [|done].
  unfold spsRead, headRead, chromaRead, pocRead, sizeRead, cropRead, aspectRead, signalRead, restRead. cbv zeta.
  repeat (rewrite zlen_app || rewrite zlen_cons || rewrite zlen_nil ||
    match goal with |- context [zlen (if ?b then _ else _)] => destruct b end);
    change (zlen (@nil elem)) with 0; lia.
Qed.

(** Every valid set is encoded, as a payload of its elements. *)
Lemma encodeSet_ok buf delta u :
  setOk u -> deltaOk delta u -> bytes_ok buf -> 256 <= zlen buf ->
  exists pl, encodeSet buf delta u = Ok pl /\ payloadOf (setRead u) pl.
Proof.
  intros Hok Hd Hb Hl.
  assert (Hes : exists es, writesRbsp (writeSet delta u) es /\ Forall elem_ok es /\
    elems_bits es = elems_bits (setRead u)).
  { destruct u as [p d lim|p st]; cbn [setOk deltaOk writeSet setRead] in *.
    - destruct (spsElems_bits p d lim true Hok) as [Hbits Hel].
      exists (spsElems p d true). split; [by apply WelsWriteSpsNal_elems|done].
    - exists (ppsElems p st). split; [apply WelsWritePpsSyntax_elems|]. rewrite (ppsElems_read p st Hok).
      split; [by apply ppsRead_ok|done]. }
  destruct Hes as (es & Hw & Hel & Hbits).
  assert (Hre : Forall elem_ok (setRead u)).
  { destruct u; cbn [setOk setRead] in *; [by eapply spsRead_ok|by apply ppsRead_ok]. }
  pose proof (elems_bits_bound _ Hre). pose proof (setRead_size u).
  destruct (write_payload _ es (setRead u) buf 0 (zlen buf) (mkBs [] 0 0 0 0 0 0) Hw Hel Hbits Hb)
    as (s1 & Hrun & Hp); [lia|lia|rewrite Hbits; lia|].
  exists (written s1). unfold encodeSet. by rewrite Hrun.
Qed.

Lemma encodeSets_ok buf delta us :
  Forall setOk us -> Forall (deltaOk delta) us -> bytes_ok buf -> 256 <= zlen buf ->
  exists xs, encodeSets buf delta us = Ok xs /\ map fst xs = us /\
    Forall (fun y => setOk (fst y) /\ payloadOf (setRead (fst y)) (snd y)) xs.
Proof.
  intros Hus Hd Hb Hl. induction Hus as [|u us Hu Hus IH]; [by exists []|].
  apply list.Forall_cons in Hd as [Hd1 Hd]. destruct (IH Hd) as (xs & E & Hf & Hxs).
  destruct (encodeSet_ok buf delta u Hu Hd1 Hb Hl) as (pl & Epl & Hp).
  exists ((u, pl) :: xs). cbn [encodeSets]. rewrite Epl, E. split; [done|]. split; [cbn; by rewrite Hf|].
  apply list.Forall_cons. done.
Qed.


(** ** A decoder that was just opened and the sets of a small video *)

Definition openedSets : PDec.SWelsDecoderSpsPpsCTX :=
  PDec.mkSets (replicate 33 PDec.zeroSSps) (replicate 257 PDec.zeroSPps) (replicate 33 PDec.zeroSSubsetSps)
    (replicate 8 None) true false false false 0 0 0 (replicate 32 false) (replicate 32 false) (replicate 256 false) (-1) 0.

Definition openedCtx : PDec.decCtx :=
  PDec.mkCtx openedSets (mkBs [] 0 0 0 0 0 0) 0 0 0 false false [] 0 0 None None false false true false false.

Definition sampleSps : PEnc.SWelsSPS :=
  fst (PEnc.WelsInitSps (PEnc.mkLayer 1376 768 1366 768 (fun mbs => u32 (mbs * 30)) 0 PRO_HIGH LEVEL_UNKNOWN
         false 5 false false 2 2 2 false 0 0 0) 1 0 true 1 false).

Definition samplePps : PEnc.SWelsPPS := PEnc.mkPps 0 0 26 26 0 false true.

Lemma openedCtx_idle : idle openedCtx.
Proof.
  constructor; try reflexivity; [|by apply Forall_replicate].
  constructor; try reflexivity; apply Forall_replicate; cbn; lia.
Qed.

Lemma sampleSets_ok : Forall setOk [SetSps sampleSps 0 10; SetPps samplePps PEnc.CWelsParametersetIdConstant].
Proof.
  apply list.Forall_cons. split; [|apply list.Forall_singleton].
  - constructor; vm_compute; try reflexivity; intros; splits; try done; by right.
  - constructor; vm_compute; splits; try reflexivity; discriminate.
Qed.

Definition openedDecoder : Decoder.decState (C := PDec.decCtx) :=
  Decoder.mkDec (Decoder.mkDataBuffer (replicate 600 0) 600 0) 0 openedCtx.

