(* ===== verification/H264ParamsSafe.v ===== *)
(** * Parameter sets from any bytes

    The parser of the parameter sets on bytes that no encoder wrote: it never
    indexes a buffer, a table or an array out of range, whatever the bit string
    holds, and the sets it accepts keep the decoder's buffers well formed. *)

From S2P Require Import Prelude Bytes H264Bits H264BitsSpec H264ReadSpec H264Syntax.
From S2P Require Import H264ParamsEnc H264ParamsDec H264ParamsSpec H264ParamsTrip H264ParamsUnit.

Import PDec.

(** ** Bit strings that can be read *)

Record readable (s : SBitStringAux) : Prop := {
  rb_bytes : bytes_ok (PBuf s);
  rb_start : 0 <= PStartBuf s <= PCurBuf s;
  rb_end : PEndBuf s <= zlen (PBuf s);
  rb_cache : 0 <= UiCurBits s < 2 ^ 32
}.

(** [m] does not panic on such a string, ends with a value in [P] or with an
    error, and leaves the string readable. *)
Definition safe {A} (m : BS A) (P : A -> Prop) : Prop :=
  forall s, readable s -> wp m s (fun a s' => P a /\ readable s') (fun _ s' => readable s').

Lemma safe_ret {A} (a : A) (P : A -> Prop) : P a -> safe (ret a) P.
Proof. intros H s R. by apply wp_ret. Qed.

Lemma safe_throw {A} e (P : A -> Prop) : safe (throw e) P.
Proof. intros s R. by apply wp_throw. Qed.

Lemma safe_bind {A B} (m : BS A) (k : A -> BS B) (P : A -> Prop) (Q : B -> Prop) :
  safe m P -> (forall a, P a -> safe (k a) Q) -> safe (gbind m k) Q.
Proof.
  intros Hm Hk s R. apply wp_bind. eapply wp_mono; [by apply Hm|intros a s' [Ha R']; by apply Hk|done].
Qed.

Lemma safe_if {A} (b : bool) (m1 m2 : BS A) (P : A -> Prop) :
  (b = true -> safe m1 P) -> (b = false -> safe m2 P) -> safe (if b then m1 else m2) P.
Proof. destruct b; auto. Qed.

Lemma safe_mono {A} (m : BS A) (P Q : A -> Prop) : safe m P -> (forall a, P a -> Q a) -> safe m Q.
Proof. intros Hm HP s R. eapply wp_mono; [by apply Hm|intros a s' [? ?]; auto|done]. Qed.

Lemma safe_gindex {A} (l : list A) i (P : A -> Prop) :
  0 <= i < zlen l -> Forall P l -> safe (gindex l i) P.
Proof.
  intros Hi Hl s R. destruct (zlookup_Some l i Hi) as [x Hx]. eapply wp_gindex; [exact Hx|]. split; [|done].
  unfold zlookup in Hx. destruct (i <? 0); [done|]. by eapply Forall_lookup_1.
Qed.

Lemma safe_gstore {A} (l : list A) i x (P : list A -> Prop) :
  0 <= i < zlen l -> P (zinsert i x l) -> safe (gstore l i x) P.
Proof. intros Hi HP s R. by apply wp_gstore. Qed.

Lemma safe_gtry {A} (m : BS A) (P : A -> Prop) :
  safe m P -> safe (gtry m) (fun r => match r with inl a => P a | inr _ => True end).
Proof. intros Hm s R. apply wp_try. eapply wp_mono; [by apply Hm|done|done]. Qed.

(** ** The reader *)

Lemma shr32_range x n : 0 <= x < 2 ^ 32 -> 0 <= n -> 0 <= shr32 x n < 2 ^ (32 - n) \/ shr32 x n = 0.
Proof.
  intros Hx Hn. unfold shr32. destruct (_ && _) eqn:E; [|lia]. left. zbool.
  rewrite Z.shiftr_div_pow2 by lia. split; [apply Z.div_pos; lia|].
  apply Z.div_lt_upper_bound; [lia|]. rewrite <- Z.pow_add_r by lia. replace (n + (32 - n)) with 32 by lia. lia.
Qed.

Lemma UBITS_range c n : 0 <= c < 2 ^ 32 -> 0 <= n <= 32 -> 0 <= UBITS c n < 2 ^ n.
Proof.
  intros Hc Hn. unfold UBITS. destruct (shr32_range c (32 - n) Hc) as [H|H]; [lia| |rewrite H].
  - replace (32 - (32 - n)) with n in H by lia. lia.
  - pose proof (Z.pow_pos_nonneg 2 n). lia.
Qed.

Lemma readable_byte s i : readable s -> 0 <= i < zlen (PBuf s) -> exists b, zlookup (PBuf s) i = Some b /\ is_u8 b.
Proof.
  intros R Hi. destruct (zlookup_Some (PBuf s) i Hi) as [b Hb]. exists b. split; [done|].
  unfold zlookup in Hb. destruct (i <? 0); [done|]. eapply Forall_lookup_1; [apply R|exact Hb].
Qed.

Lemma safe_DUMP_BITS n s :
  readable s -> 0 <= n ->
  wp (DUMP_BITS n (PEndBuf s - PStartBuf s) (PCurBuf s - PStartBuf s)) s
     (fun _ s' => readable s' /\ PEndBuf s' = PEndBuf s /\ PStartBuf s' = PStartBuf s)
     (fun _ s' => readable s').
Proof.
  intros R Hn. assert (R1 : readable (s <| UiCurBits := shl32 (UiCurBits s) n |> <| ILeftBits := ILeftBits s + n |>)).
  { destruct R. constructor; bs_simpl; try done. apply shl32_range. }
  unfold DUMP_BITS, NEED_BITS, GET_WORD. wsteps. set (s1 := s <| UiCurBits := _ |> <| ILeftBits := _ |>) in *.
  destruct (0 <? ILeftBits s1); [|by wsteps]. wsteps; [done|].
  destruct (rb_start _ R). pose proof (rb_end _ R).
  change (PBuf s1) with (PBuf s). change (PCurBuf s1) with (PCurBuf s).
  apply (wp_mono _ _ (fun _ s' => s' = s1) _ (fun _ s' => readable s')); [| |done].
  { destruct (PCurBuf s - PStartBuf s <? PEndBuf s - PStartBuf s) eqn:E; zbool; [|by wsteps]. wsteps.
    destruct (readable_byte s (PCurBuf s) R) as (b & Hb & _); [lia|]. eapply wp_gindex; [exact Hb|]. by wsteps. }
  intros hi s' ->. apply wp_bind. apply (wp_mono _ _ (fun _ s' => s' = s1) _ (fun _ s' => readable s')); [| |done].
  { destruct (PCurBuf s - PStartBuf s + 1 <? PEndBuf s - PStartBuf s) eqn:E; zbool; [|by wsteps].
    destruct (readable_byte s (PCurBuf s + 1) R) as (b & Hb & _); [lia|]. by eapply wp_gindex. }
  intros lo s' ->. wsteps. split; [|done]. destruct R1. constructor; bs_simpl; try done.
  - change (PStartBuf s1) with (PStartBuf s). change (PCurBuf s1) with (PCurBuf s). lia.
  - apply lor_range; [done|apply shl32_range|lia].
Qed.

Lemma safe_BsGetBits n : 0 <= n <= 32 -> safe (BsGetBits n) (fun v => 0 <= v < 2 ^ n).
Proof.
  intros Hn s R. unfold BsGetBits. wsteps. wcall (safe_DUMP_BITS n s R); [lia| |done].
  intros [] s' (R' & _ & _). wsteps. split; [|done]. apply UBITS_range; [apply R|lia].
Qed.

Lemma safe_getFlag : safe getFlag (fun _ => True).
Proof.
  unfold getFlag, BsGetOneBit. eapply safe_bind; [apply safe_BsGetBits; lia|]. intros. by apply safe_ret.
Qed.

Lemma zeros_ok : zlen g_kuiLeadingZeroTable = 256 /\ Forall (fun z => 0 <= z <= 8) g_kuiLeadingZeroTable.
Proof.
  split; [done|]. apply Forall_forall. intros z Hz.
  assert (Hb : forallb (fun z => (0 <=? z) && (z <=? 8)) g_kuiLeadingZeroTable = true) by done.
  rewrite forallb_forall in Hb. specialize (Hb z Hz). lia.
Qed.

Lemma table_entry i s (Q : Z -> SBitStringAux -> Prop) E :
  0 <= i < 256 -> (forall z, 0 <= z <= 8 -> Q z s) -> wp (gindex g_kuiLeadingZeroTable i) s Q E.
Proof.
  intros Hi HQ. destruct zeros_ok as [Hl Hz]. destruct (zlookup_Some g_kuiLeadingZeroTable i) as [z E']; [lia|].
  eapply wp_gindex; [exact E'|]. apply HQ. unfold zlookup in E'. destruct (i <? 0); [done|].
  by eapply Forall_lookup_1 in Hz.
Qed.

Lemma safe_leading s c :
  0 <= c < 2 ^ 32 ->
  wp (GetLeadingZeroBits c) s (fun z s' => s' = s /\ -1 <= z <= 32) (fun _ _ => False).
Proof.
  intros Hc. unfold GetLeadingZeroBits.
  pose proof (UBITS_range c 8 Hc ltac:(lia)). pose proof (UBITS_range c 16 Hc ltac:(lia)).
  pose proof (UBITS_range c 24 Hc ltac:(lia)). cbv zeta.
  assert (H16 : UBITS c 8 = 0 -> UBITS c 16 < 256).
  { unfold UBITS, shr32. cbn. rewrite !Z.shiftr_div_pow2 by lia. intros E.
    apply Z.div_small_iff in E; [|lia]. apply Z.div_lt_upper_bound; lia. }
  assert (H24 : UBITS c 16 = 0 -> UBITS c 24 < 256).
  { unfold UBITS, shr32. cbn. rewrite !Z.shiftr_div_pow2 by lia. intros E.
    apply Z.div_small_iff in E; [|lia]. apply Z.div_lt_upper_bound; lia. }
  assert (H32 : UBITS c 24 = 0 -> c < 256).
  { unfold UBITS, shr32. cbn. rewrite !Z.shiftr_div_pow2 by lia. intros E.
    apply Z.div_small_iff in E; [|lia]. lia. }
  destruct (UBITS c 8 =? 0) eqn:E8; cbn [negb]; zbool; [|apply table_entry; [lia|]; intros; split; [done|lia]].
  destruct (UBITS c 16 =? 0) eqn:E16; cbn [negb]; zbool;
    [|wsteps; apply table_entry; [lia|]; intros; wsteps; split; [done|lia]].
  destruct (UBITS c 24 =? 0) eqn:E24; cbn [negb]; zbool;
    [|wsteps; apply table_entry; [lia|]; intros; wsteps; split; [done|lia]].
  destruct (c =? 0) eqn:E32; cbn [negb]; zbool; [wsteps; split; [done|lia]|].
  wsteps. apply table_entry; [lia|]. intros. wsteps. split; [done|lia].
Qed.

Lemma safe_BsGetUe : safe BsGetUe (fun v => 0 <= v < 2 ^ 32).
Proof.
  intros s R. unfold BsGetUe. wsteps. wcall (safe_leading s (UiCurBits s) (rb_cache _ R)); [|done].
  intros z s' [-> Hz]. cbv zeta. wsteps; [done|]. zbool.
  apply (wp_mono _ _ (fun _ s' => readable s' /\ PEndBuf s' = PEndBuf s /\ PStartBuf s' = PStartBuf s)
    _ (fun _ s' => readable s')); [| |done].
  { destruct (16 <? z) eqn:E16; zbool; [|by apply safe_DUMP_BITS; [|lia]]. wsteps.
    wcall (safe_DUMP_BITS 16 s R); [lia| |done]. intros [] s1 (R1 & E1 & E2). wsteps.
    rewrite <- E1, <- E2. wcall (safe_DUMP_BITS (z + 1 - 16) s1 R1); [lia| |done].
    intros [] s2 (R2 & E3 & E4). by rewrite E3, E4. }
  intros [] s1 (R1 & E1 & E2). wsteps.
  apply (wp_mono _ _ (fun _ s' => readable s') _ (fun _ s' => readable s')); [| |done].
  { destruct (z =? 0); cbn [negb]; wsteps; [done|]. rewrite <- E1, <- E2.
    wcall (safe_DUMP_BITS z s1 R1); [lia| |done]. intros [] s2 (R2 & _ & _). by wsteps. }
  intros v s2 R2. wsteps. split; [apply u32_range|done].
Qed.

Lemma i32_range x : - 2 ^ 31 <= i32 x < 2 ^ 31.
Proof. unfold i32. pose proof (Z.mod_pos_bound (x + 2 ^ 31) (2 ^ 32)). lia. Qed.

Lemma safe_BsGetSe : safe BsGetSe (fun v => - 2 ^ 31 <= v < 2 ^ 31).
Proof.
  unfold BsGetSe. eapply safe_bind; [apply safe_BsGetUe|]. intros v Hv. apply safe_if; intros _; apply safe_ret, i32_range.
Qed.

(** One call or test of a parser. *)
Ltac sfintro := let x := fresh "v" in let H := fresh "Hv" in intros x H; cbv beta in H.

Ltac sfstep :=
  cbv zeta; lazymatch goal with
  | |- safe (gbind getFlag _) _ => eapply safe_bind; [apply safe_getFlag|intros ? _]
  | |- safe (gbind BsGetUe _) _ => eapply safe_bind; [apply safe_BsGetUe|sfintro]
  | |- safe (gbind BsGetSe _) _ => eapply safe_bind; [apply safe_BsGetSe|sfintro]
  | |- safe (gbind (BsGetBits _) _) _ => eapply safe_bind; [apply safe_BsGetBits; lia|sfintro]
  | |- safe (gbind BsGetOneBit _) _ => eapply safe_bind; [apply safe_BsGetBits; lia|sfintro]
  | |- safe (if _ then throw _ else _) _ => apply safe_if; [intros _; apply safe_throw|intros ?]
  | |- safe (if _ then _ else _) _ => apply safe_if; intros ?
  | |- safe (throw _) _ => apply safe_throw
  | |- safe (ret _) _ => apply safe_ret
  end.
Ltac sfsteps := repeat sfstep.

(** ** Scaling lists *)

Lemma zigzag_ok num : num = 16 \/ num = 64 ->
  let t := if num =? 16 then g_kuiZigzagScan else g_kuiZigzagScan8x8 in
  zlen t = num /\ Forall (fun i => 0 <= i < num) t.
Proof.
  intros H. assert (Hb : forall n t, forallb (fun i => (0 <=? i) && (i <? n)) t = true -> Forall (fun i => 0 <= i < n) t).
  { intros n t Ht. apply Forall_forall. intros i Hi. rewrite forallb_forall in Ht. specialize (Ht i Hi). lia. }
  destruct H as [-> | ->]; (split; [done|by apply Hb]).
Qed.

Lemma safe_scalingLoop num : num = 16 \/ num = 64 -> forall fuel j last next l,
  0 <= j -> j + Z.of_nat fuel <= num -> zlen l = num ->
  safe (scalingLoop fuel j num last next l) (fun r => zlen (fst r) = num).
Proof.
  intros Hnum. destruct (zigzag_ok num Hnum) as [Hzl Hzi]. induction fuel as [|fuel IH]; intros j last next l Hj Hf Hl;
    cbn [scalingLoop]; [by sfsteps|].
  apply (safe_bind _ _ (fun _ => True)); [sfsteps; done|]. intros n _. sfstep; [by sfsteps|].
  eapply safe_bind; [apply (safe_gindex _ _ (fun i => 0 <= i < num)); [lia|done]|].
  intros i Hi. cbv beta in Hi. cbv zeta. eapply safe_bind; [apply (safe_gstore _ _ _ (fun l => zlen l = num)); [lia|by rewrite zlen_insert]|].
  intros l' Hl'. cbv beta in Hl'. apply IH; lia.
Qed.

Record scalingShape (a : scaling) : Prop := {
  sc_present : zlen (present a) = 12;
  sc_4 : zlen (lists4x4 a) = 6 /\ Forall (fun l => zlen l = 16) (lists4x4 a);
  sc_8 : zlen (lists8x8 a) = 6 /\ Forall (fun l => zlen l = 64) (lists8x8 a)
}.

Definition defaultsOk (d4 d8 : list (list Z)) : Prop :=
  zlen d4 = 2 /\ Forall (fun l => zlen l = 16) d4 /\ zlen d8 = 2 /\ Forall (fun l => zlen l = 64) d8.

Lemma tables_ok : defaultsOk G_kuiDequantScaling4x4Default G_kuiDequantScaling8x8Default.
Proof. by repeat constructor. Qed.

Lemma safe_SetScalingListValue num l :
  num = 16 \/ num = 64 -> zlen l = num -> safe (SetScalingListValue l num) (fun r => zlen (fst r) = num).
Proof. intros Hn Hl. apply safe_scalingLoop; [done|lia|destruct Hn; subst; lia|done]. Qed.

Lemma land1_range x : 0 <= Z.land x 1 < 2.
Proof. change 1 with (Z.ones 1). rewrite Z.land_ones by lia. apply Z.mod_pos_bound. lia. Qed.

Lemma quot3_range i : 0 <= i < 6 -> 0 <= Z.quot i 3 < 2.
Proof. intros. rewrite Z.quot_div_nonneg by lia. split; [apply Z.div_pos; lia|apply Z.div_lt_upper_bound; lia]. Qed.

Lemma safe_scalingList d4 d8 i a :
  defaultsOk d4 d8 -> 0 <= i < 12 -> scalingShape a -> safe (scalingList d4 d8 i a) scalingShape.
Proof.
  intros (H4 & H4' & H8 & H8') Hi [Hp [Ha4 Ha4'] [Ha8 Ha8']]. destruct tables_ok as (T4 & T4' & T8 & T8').
  unfold scalingList. sfstep. eapply safe_bind; [apply (safe_gstore _ _ _ (fun l => zlen l = 12)); [lia|by rewrite zlen_insert]|].
  intros p' Hp'. cbv zeta. change (lists4x4 (a <| present := p' |>)) with (lists4x4 a).
  change (lists8x8 (a <| present := p' |>)) with (lists8x8 a).
  apply (safe_bind _ _ (fun l => zlen l = if i <? 6 then 16 else 64)).
  - pose proof (land1_range i). pose proof (land1_range (i - 6)).
    destruct (i <? 6) eqn:E6; zbool.
    + pose proof (quot3_range i). sfstep.
      * eapply safe_bind; [apply (safe_gindex _ _ (fun l => zlen l = 16)); [lia|done]|]. intros old Hold.
        eapply safe_bind; [apply safe_SetScalingListValue; [by left|done]|]. intros [l u] Hl. cbn [fst] in Hl.
        sfstep; [apply safe_gindex; [lia|done]|by sfsteps].
      * sfstep; apply safe_gindex; first [lia|done].
    + sfstep.
      * eapply safe_bind; [apply (safe_gindex _ _ (fun l => zlen l = 64)); [lia|done]|]. intros old Hold.
        eapply safe_bind; [apply safe_SetScalingListValue; [by right|done]|]. intros [l u] Hl. cbn [fst] in Hl.
        sfstep; [apply safe_gindex; [lia|done]|by sfsteps].
      * sfstep; apply safe_gindex; first [lia|done].
  - intros l Hl. destruct (i <? 6) eqn:E6; zbool.
    + eapply safe_bind; [apply (safe_gstore _ _ _ (fun x => zlen x = 6 /\ Forall (fun l => zlen l = 16) x)); [lia|]|].
      * rewrite zlen_insert. split; [done|]. by apply Forall_zinsert.
      * intros l4 [? ?]. sfsteps. by constructor.
    + eapply safe_bind; [apply (safe_gstore _ _ _ (fun x => zlen x = 6 /\ Forall (fun l => zlen l = 64) x)); [lia|]|].
      * rewrite zlen_insert. split; [done|]. by apply Forall_zinsert.
      * intros l8 [? ?]. sfsteps. by constructor.
Qed.

Lemma safe_scalingLists d4 d8 : defaultsOk d4 d8 -> forall fuel i a,
  0 <= i -> i + Z.of_nat fuel <= 12 -> scalingShape a -> safe (scalingLists fuel d4 d8 i a) scalingShape.
Proof.
  intros Hd. induction fuel as [|fuel IH]; intros i a Hi Hf Ha; cbn [scalingLists]; [by sfsteps|].
  eapply safe_bind; [apply safe_scalingList; [done|lia|done]|]. intros a' Ha'. apply IH; [lia|lia|done].
Qed.

(** ** The sets *)

Definition spsScaling (q : SSps) : scaling :=
  mkScaling (bSeqScalingListPresentFlag q) (iScalingList4x4 q) (iScalingList8x8 q).

Definition ppsScaling (q : SPps) : scaling :=
  mkScaling (bPicScalingListPresentFlag q) (pps_iScalingList4x4 q) (pps_iScalingList8x8 q).

(** The arrays of a set have their sizes and its id is in range. *)
Record spsShape (q : SSps) : Prop := {
  sh_offsets : zlen (iOffsetForRefFrame q) = 256;
  sh_scaling : scalingShape (spsScaling q);
  sh_id : 0 <= iSpsId q < 32
}.

Record ppsShape (q : SPps) : Prop := {
  ph_runs : zlen (uiRunLength q) = 8;
  ph_scaling : scalingShape (ppsScaling q);
  ph_id : 0 <= iPpsId q < 256
}.

Lemma zeroSps_shape : spsShape zeroSSps.
Proof. constructor; [done| |done]. constructor; [done|split; [done|]..]; by repeat constructor. Qed.

Lemma zeroPps_shape : ppsShape zeroSPps.
Proof. constructor; [done| |done]. constructor; [done|split; [done|]..]; by repeat constructor. Qed.

Lemma safe_ParseScalingList q bPPS t a :
  spsShape q -> scalingShape a -> safe (ParseScalingList q bPPS t a) scalingShape.
Proof.
  intros [_ [_ [H4 H4'] [H8 H8']] _] Ha. cbn in *. unfold ParseScalingList. cbv zeta.
  apply (safe_bind _ _ (fun d => defaultsOk (fst d) (snd d))).
  - sfstep; [|sfsteps; apply tables_ok].
    eapply safe_bind; [apply (safe_gindex _ _ (fun l => zlen l = 16)); [lia|done]|intros l0 ?].
    eapply safe_bind; [apply (safe_gindex _ _ (fun l => zlen l = 16)); [lia|done]|intros l3 ?].
    eapply safe_bind; [apply (safe_gindex _ _ (fun l => zlen l = 64)); [lia|done]|intros m0 ?].
    eapply safe_bind; [apply (safe_gindex _ _ (fun l => zlen l = 64)); [lia|done]|intros m1 ?].
    sfsteps. by repeat constructor.
  - intros [d4 d8] Hd. apply safe_scalingLists; [done|lia| |done].
    destruct bPPS, t; cbn [negb andb]; destruct (uiChromaFormatIdc q =? 3); cbn; lia.
Qed.

(** An update of other fields keeps the shape. *)
Lemma spsShape_same q q' :
  spsShape q -> iOffsetForRefFrame q' = iOffsetForRefFrame q -> spsScaling q' = spsScaling q ->
  iSpsId q' = iSpsId q -> spsShape q'.
Proof. intros [] E1 E2 E3. constructor; [by rewrite E1|by rewrite E2|by rewrite E3]. Qed.

Ltac same_shape q := apply (spsShape_same q); [done|reflexivity..].

Lemma safe_getFlags n : safe (getFlags n) (fun l => zlen l = Z.of_nat n).
Proof.
  induction n as [|n IH]; cbn [getFlags]; [by sfsteps|]. sfstep.
  eapply safe_bind; [apply IH|]. intros l Hl. cbv beta in Hl. sfsteps. rewrite zlen_cons. lia.
Qed.

(** A set whose level is known. *)
Definition spsReadOk (q : SSps) : Prop :=
  spsShape q /\ exists lim, pSLevelLimits q = Some lim /\ 0 <= lim < 17.

Lemma safe_spsHead : safe spsHead (fun o => match o with Some q => spsReadOk q | None => True end).
Proof.
  unfold spsHead. sfstep. sfstep; [by sfsteps|].
  eapply safe_bind; [apply safe_getFlags|]. intros flags Hf. cbv beta in Hf. sfsteps. zbool.
  unfold MAX_SPS_COUNT in *. eapply safe_bind; [apply (safe_gindex _ _ (fun _ => True)); [lia|by apply Forall_true]|].
  intros c3 _. destruct (GetLevelLimits _ _) as [lim|] eqn:E; sfsteps.
  split; [|exists lim; split; [done|apply (level_known _ _ _ E)]].
  constructor; [done|exact (sh_scaling _ zeroSps_shape)|]. cbn. rewrite i32_small by lia. lia.
Qed.

Lemma safe_spsChroma q : spsReadOk q -> safe (spsChroma q) spsReadOk.
Proof.
  intros [Hq (lim & Hl & Hr)]. unfold spsChroma. sfstep; [|sfsteps; split; [done|by exists lim]]. sfsteps.
  - eapply safe_bind; [apply safe_ParseScalingList; [same_shape q|apply Hq]|].
    intros a' Ha'. sfsteps. split; [|by exists lim]. destruct Hq, a'. by constructor.
  - split; [same_shape q|by exists lim].
Qed.

Lemma safe_refFrameOffsets : forall fuel i l,
  0 <= i -> i + Z.of_nat fuel <= 256 -> zlen l = 256 -> safe (refFrameOffsets fuel i l) (fun l => zlen l = 256).
Proof.
  induction fuel as [|fuel IH]; intros i l Hi Hf Hl; cbn [refFrameOffsets]; [by sfsteps|]. sfstep.
  eapply safe_bind; [apply (safe_gstore _ _ _ (fun l => zlen l = 256)); [lia|by rewrite zlen_insert]|].
  intros l' Hl'. apply IH; [lia|lia|done].
Qed.

Lemma safe_spsPoc q : spsReadOk q -> safe (spsPoc q) spsReadOk.
Proof.
  intros [Hq (lim & Hl & Hr)]. unfold spsPoc. do 3 sfstep. cbv zeta.
  apply (safe_bind _ _ spsReadOk).
  - sfsteps.
    + split; [same_shape q|by exists lim].
    + zbool. unfold SPS_NUM_REF_FRAMES_IN_PIC_ORDER_CNT_CYCLE_MAX in *.
      eapply safe_bind; [apply safe_refFrameOffsets; [lia|rewrite i32_small by lia; lia|apply Hq]|].
      intros l Hl'. sfsteps. split; [|by exists lim]. destruct Hq. by constructor.
    + split; [same_shape q|by exists lim].
  - intros q' Hq'. by sfsteps.
Qed.

Lemma safe_spsSize q : spsReadOk q -> safe (spsSize q) spsReadOk.
Proof.
  intros [Hq (lim & Hl & Hr)]. unfold spsSize. rewrite Hl. cbn [GetLevelLimits].
  eapply safe_bind; [apply (safe_gindex _ _ (fun _ => True)); [done|by apply Forall_true]|]. intros maxl _.
  eapply safe_bind; [apply (safe_gindex _ _ (fun _ => True)); [done|by apply Forall_true]|]. intros liml _.
  sfsteps. apply (safe_bind _ _ (fun _ => True)).
  - assert (Hside : forall mb fs mfs, mbSideError mb fs mfs = false -> mb <> 0 /\ mb <= 36864).
    { intros mb fs mfs Hs. unfold mbSideError, MAX_MB_SIZE in Hs. zbool. lia. }
    repeat match goal with H : mbSideError _ _ _ = false |- _ => apply Hside in H as [? ?] end.
    match goal with |- context [u64 (u32 (1 + ?w) * u32 (1 + ?h))] =>
      pose proof (u32_range (1 + w)); pose proof (u32_range (1 + h)) end.
    rewrite u64_small, u32_small by nia. rewrite (proj2 (Z.eqb_neq _ _)) by nia. by sfsteps.
  - intros [] _. sfsteps. split; [same_shape q|by exists lim].
Qed.

Lemma safe_spsCrop q : spsReadOk q -> safe (spsCrop q) spsReadOk.
Proof.
  intros [Hq (lim & Hl & Hr)]. unfold spsCrop. sfsteps; (split; [same_shape q|by exists lim]).
Qed.

(** ** The VUI and the SVC extension *)

Lemma safe_ignore m P : safe m P -> safe (ignore m) (fun _ => True).
Proof. intros Hm. unfold ignore. eapply safe_bind; [by apply safe_gtry|]. intros. by sfsteps. Qed.

Lemma safe_hrd : safe parseVuiHrdParameters (fun _ => True).
Proof.
  assert (Hb : forall n, 0 <= n <= 32 -> safe (ignore (BsGetBits n)) (fun _ => True))
    by (intros; by eapply safe_ignore, safe_BsGetBits).
  assert (Hu : safe (ignore BsGetUe) (fun _ => True)) by (eapply safe_ignore, safe_BsGetUe).
  assert (Hloop : forall fuel, safe (hrdLoop fuel) (fun _ => True)).
  { induction fuel as [|fuel IH]; cbn [hrdLoop]; [by sfsteps|].
    do 2 (eapply safe_bind; [exact Hu|intros ? _]). eapply safe_bind; [apply (Hb 1); lia|intros ? _]. apply IH. }
  unfold parseVuiHrdParameters. eapply safe_bind; [apply safe_gtry, safe_BsGetUe|]. intros r _. cbv zeta.
  do 2 (eapply safe_bind; [apply Hb; lia|intros ? _]). eapply safe_bind; [apply Hloop|intros ? _].
  do 3 (eapply safe_bind; [apply Hb; lia|intros ? _]). apply Hb. lia.
Qed.

Lemma safe_get32 : safe get32 (fun _ => True).
Proof. unfold get32. by sfsteps. Qed.

Lemma safe_ParseVui v : safe (ParseVui v) (fun _ => True).
Proof.
  unfold ParseVui. apply (safe_bind _ _ (fun _ => True)).
  { unfold vuiAspectRatio. sfstep. sfstep; [|by sfsteps]. sfstep. sfstep; [|by sfsteps]. zbool.
    eapply safe_bind; [apply (safe_gindex _ _ (fun _ => True)); [change (zlen g_ksVuiSampleAspectRatio) with 17; lia|by apply Forall_true]|]. intros. by sfsteps. }
  intros v1 _. apply (safe_bind _ _ (fun _ => True)).
  { unfold vuiSignalType. sfstep. apply (safe_bind _ _ (fun _ => True)); [by sfsteps|]. intros. by sfsteps. }
  intros v2 _. apply (safe_bind _ _ (fun _ => True)).
  { unfold vuiTiming. sfstep. apply (safe_bind _ _ (fun _ => True)); [by sfsteps|]. intros. sfstep.
    sfstep; [|by sfsteps]. do 2 (eapply safe_bind; [apply safe_get32|intros ? _]). by sfsteps. }
  intros v3 _. apply (safe_bind _ _ (fun _ => True)).
  { unfold vuiHrd. sfstep. apply (safe_bind _ _ (fun _ => True)); [sfstep; [apply safe_hrd|by sfsteps]|]. intros. sfstep.
    apply (safe_bind _ _ (fun _ => True)); [sfstep; [apply safe_hrd|by sfsteps]|]. intros.
    apply (safe_bind _ _ (fun _ => True)); [sfstep; [|by sfsteps]|intros; by sfsteps].
    eapply safe_ignore, safe_BsGetBits. lia. }
  intros v4 _. unfold vuiRestriction. by sfsteps.
Qed.

Lemma safe_spsVui q : spsReadOk q -> safe (spsVui q) spsReadOk.
Proof.
  intros [Hq (lim & Hl & Hr)]. unfold spsVui. sfstep. sfstep.
  - eapply safe_bind; [apply safe_ParseVui|]. intros v _. sfsteps. split; [same_shape q|by exists lim].
  - sfsteps. split; [same_shape q|by exists lim].
Qed.

Lemma safe_DecodeSpsSvcExt x : safe (DecodeSpsSvcExt x) (fun _ => True).
Proof.
  unfold DecodeSpsSvcExt. do 5 sfstep. cbv zeta. apply (safe_bind _ _ (fun _ => True)); [by sfsteps|]. intros. sfstep.
  apply (safe_bind _ _ (fun _ => True)); [by sfsteps|]. intros. by sfsteps.
Qed.

(** The whole syntax of a sequence parameter set. *)
Lemma safe_spsSyntax kb :
  safe (spsSyntax kb) (fun o => match o with Some sub => spsShape (sSps sub) | None => True end).
Proof.
  unfold spsSyntax. eapply safe_bind; [apply safe_spsHead|]. intros [q|] Hq; [|by sfsteps].
  eapply safe_bind; [by apply safe_spsChroma|]. intros q1 H1. eapply safe_bind; [by apply safe_spsPoc|]. intros q2 H2.
  eapply safe_bind; [by apply safe_spsSize|]. intros q3 H3. eapply safe_bind; [by apply safe_spsCrop|]. intros q4 H4.
  eapply safe_bind; [by apply safe_spsVui|]. intros q5 [H5 _]. unfold spsExt. sfstep; [|by sfsteps].
  eapply safe_bind; [apply safe_DecodeSpsSvcExt|]. intros e _. by sfsteps.
Qed.

(** ** The picture parameter set *)

Lemma safe_runLengths : forall fuel i l,
  0 <= i -> i + Z.of_nat fuel <= 8 -> zlen l = 8 -> safe (runLengths fuel i l) (fun l => zlen l = 8).
Proof.
  induction fuel as [|fuel IH]; intros i l Hi Hf Hl; cbn [runLengths]; [by sfsteps|]. sfstep. sfstep.
  eapply safe_bind; [apply (safe_gstore _ _ _ (fun l => zlen l = 8)); [lia|by rewrite zlen_insert]|].
  intros l' Hl'. apply IH; [lia|lia|done].
Qed.

Lemma ppsShape_same q q' :
  ppsShape q -> uiRunLength q' = uiRunLength q -> ppsScaling q' = ppsScaling q ->
  iPpsId q' = iPpsId q -> ppsShape q'.
Proof. intros [] E1 E2 E3. constructor; [by rewrite E1|by rewrite E2|by rewrite E3]. Qed.

Lemma safe_ppsHead : safe ppsHead ppsShape.
Proof.
  assert (Hz : forall id sid e o g, 0 <= id < 256 ->
    ppsShape (zeroSPps <| iPpsId := id |> <| pps_iSpsId := sid |> <| bEntropyCodingModeFlag := e |>
      <| bPicOrderPresentFlag := o |> <| uiNumSliceGroups := g |>)).
  { intros. constructor; [done|exact (ph_scaling _ zeroPps_shape)|done]. }
  unfold ppsHead. sfsteps; zbool; unfold MAX_PPS_COUNT, MAX_SLICEGROUP_IDS in *.
  - eapply safe_bind; [apply safe_runLengths; [lia| |done]|].
    + pose proof (u32_range (1 + v1)). lia.
    + intros l Hl. sfsteps. constructor; [done|exact (ph_scaling _ zeroPps_shape)|]. cbn. rewrite i32_small by lia. lia.
  - assert (Hp := Hz (i32 v) (i32 v0) a a0 (u32 (1 + v1)) ltac:(rewrite i32_small by lia; lia)). revert Hp.
    generalize (zeroSPps <| iPpsId := i32 v |> <| pps_iSpsId := i32 v0 |> <| bEntropyCodingModeFlag := a |>
      <| bPicOrderPresentFlag := a0 |> <| uiNumSliceGroups := u32 (1 + v1) |>).
    intros q Hq. by apply (ppsShape_same q).
  - apply Hz. rewrite i32_small by lia. lia.
Qed.

(** The offsets of the two chroma components. *)
Definition ppsReadOk (q : SPps) : Prop := ppsShape q /\ zlen (iChromaQpIndexOffset q) = 2.

Lemma safe_ppsQuant q : ppsShape q -> safe (ppsQuant q) ppsReadOk.
Proof.
  intros Hq. unfold ppsQuant. sfsteps. split; [|done]. by apply (ppsShape_same q).
Qed.

Lemma safe_ppsMore spsFor q :
  (forall i sps, spsFor i = Some sps -> spsShape sps) -> ppsReadOk q -> safe (ppsMore spsFor q) ppsShape.
Proof.
  intros Hf [Hq Hc] s R. unfold ppsMore. apply wp_bind, wp_gget.
  destruct (CheckMoreRBSPData s); [|by apply wp_ret]. revert s R.
  match goal with |- forall s, readable s -> wp ?m s _ _ => change (safe m ppsShape) end.
  sfstep. sfstep. cbv zeta. set (q1 := q <| bTransform8x8ModeFlag := a |> <| bPicScalingMatrixPresentFlag := a0 |>).
  assert (Hq1 : ppsReadOk q1) by (split; [by apply (ppsShape_same q)|done]). clearbody q1.
  apply (safe_bind _ _ ppsReadOk).
  - destruct Hq1 as [Hq1 Hc1]. sfstep; [|by sfsteps]. destruct (spsFor _) as [sps|] eqn:E; [|by sfsteps].
    eapply safe_bind; [apply safe_ParseScalingList; [by eapply Hf|apply Hq1]|]. intros x Hx. sfsteps.
    split; [|done]. destruct Hq1, x. by constructor.
  - intros q2 [Hq2 Hc2]. sfstep.
    eapply safe_bind; [apply (safe_gstore _ _ _ (fun _ => True)); [lia|done]|]. intros cs _. sfsteps.
    by apply (ppsShape_same q2).
Qed.

Lemma safe_ppsSyntax spsFor :
  (forall i sps, spsFor i = Some sps -> spsShape sps) -> safe (ppsSyntax spsFor) ppsShape.
Proof.
  intros Hf. unfold ppsSyntax. eapply safe_bind; [apply safe_ppsHead|]. intros q Hq.
  eapply safe_bind; [by apply safe_ppsQuant|]. intros q1 Hq1. by apply safe_ppsMore.
Qed.

(** ** The decoder's context *)

Definition refOk (r : spsRef) : Prop := 0 <= spsIndex r < 33.

(** The buffers have their sizes, their sets are well formed and the pointers
    point into them. *)
Record ctxOk (c : decCtx) : Prop := {
  x_sps : zlen (sSpsBuffer (sSpsPpsCtx c)) = 33 /\ Forall spsShape (sSpsBuffer (sSpsPpsCtx c));
  x_subset : zlen (sSubsetSpsBuffer (sSpsPpsCtx c)) = 33 /\
             Forall (fun q => spsShape (sSps q)) (sSubsetSpsBuffer (sSpsPpsCtx c));
  x_pps : zlen (sPpsBuffer (sSpsPpsCtx c)) = 257 /\ Forall ppsShape (sPpsBuffer (sSpsPpsCtx c));
  x_sps_flags : zlen (bSpsAvailFlags (sSpsPpsCtx c)) = 32;
  x_subset_flags : zlen (bSubspsAvailFlags (sSpsPpsCtx c)) = 32;
  x_pps_flags : zlen (bPpsAvailFlags (sSpsPpsCtx c)) = 256;
  x_units : Forall (fun u => refOk (unitSps u)) (pAccessUnitList c);
  x_sps_ptr : match pSps c with Some r => refOk r | None => True end;
  x_pps_ptr : match pPps c with Some i => 0 <= i < 257 | None => True end
}.

(** The operations that only look at the context. *)
Definition looks {A} (m : DC A) (c : decCtx) (P : A -> Prop) : Prop :=
  wp m c (fun a c' => c' = c /\ P a) (fun _ _ => False).

Lemma looks_bind {A B} (m : DC A) (k : A -> DC B) c (P : A -> Prop) (Q : B -> Prop) :
  looks m c P -> (forall a, P a -> looks (k a) c Q) -> looks (gbind m k) c Q.
Proof.
  intros Hm Hk. apply wp_bind. eapply wp_mono; [exact Hm|intros a s' [-> Ha]; by apply Hk|done].
Qed.

Lemma looks_ret {A} (a : A) c (P : A -> Prop) : P a -> looks (ret a) c P.
Proof. intros H. by apply wp_ret. Qed.

Lemma looks_get {A} (k : decCtx -> DC A) c (P : A -> Prop) : looks (k c) c P -> looks (gbind gget k) c P.
Proof. intros H. by apply wp_bind, wp_gget. Qed.

Lemma looks_gindex {A} (l : list A) i c (P : A -> Prop) :
  0 <= i < zlen l -> Forall P l -> looks (gindex l i) c P.
Proof.
  intros Hi Hl. destruct (zlookup_Some l i Hi) as [x Hx]. eapply wp_gindex; [exact Hx|]. split; [done|].
  exact (Forall_zlookup _ _ _ _ Hl Hx).
Qed.

Lemma looks_if {A} (b : bool) (m1 m2 : DC A) c (P : A -> Prop) :
  looks m1 c P -> looks m2 c P -> looks (if b then m1 else m2) c P.
Proof. by destruct b. Qed.

Lemma looks_deref c r : ctxOk c -> refOk r -> looks (derefSps r) c spsShape.
Proof.
  intros R Hr. unfold refOk in Hr. destruct (x_sps _ R) as [E1 F1], (x_subset _ R) as [E2 F2].
  apply looks_get. destruct (inSubset r).
  - eapply looks_bind; [by apply (looks_gindex _ _ _ (fun q => spsShape (sSps q))); [lia|]|].
    intros q Hq. by apply looks_ret.
  - apply looks_gindex; [lia|done].
Qed.

Lemma looks_unitUses c ext id us :
  ctxOk c -> Forall (fun u => refOk (unitSps u)) us -> looks (unitUses ext id us) c (fun _ => True).
Proof.
  intros R. induction 1 as [|u us Hu _ IH]; cbn [unitUses]; [by apply looks_ret|].
  apply looks_if; [|done]. eapply looks_bind; [by apply looks_deref|]. intros q _.
  apply looks_if; [by apply looks_ret|done].
Qed.

Lemma looks_CheckSpsActive c r kb : ctxOk c -> refOk r -> looks (CheckSpsActive r kb) c (fun _ => True).
Proof.
  intros R Hr. apply looks_get, looks_if; [by apply looks_ret|].
  eapply looks_bind; [by apply looks_deref|]. intros q [_ _ Hid]. apply looks_if; [|by apply looks_ret].
  eapply looks_bind; [apply (looks_gindex _ _ _ (fun _ => True)); [|by apply Forall_true]|].
  - destruct kb; rewrite ?(x_sps_flags _ R), ?(x_subset_flags _ R); lia.
  - intros avail _. repeat apply looks_if; try by apply looks_ret. apply looks_unitUses; [done|apply R].
Qed.

Lemma looks_currentSpsIs c id : ctxOk c -> looks (currentSpsIs id) c (fun _ => True).
Proof.
  intros R. apply looks_get. pose proof (x_sps_ptr _ R) as H. destruct (pSps c); [|by apply looks_ret].
  eapply looks_bind; [by apply looks_deref|]. intros q _. by apply looks_ret.
Qed.

(** An operation that returns and keeps the context well formed. *)
Definition csafe {A} (m : DC A) (P : A -> Prop) : Prop :=
  forall c, ctxOk c -> wp m c (fun a c' => P a /\ ctxOk c') (fun _ c' => ctxOk c').

Lemma csafe_bind {A B} (m : DC A) (k : A -> DC B) (P : A -> Prop) (Q : B -> Prop) :
  csafe m P -> (forall a, P a -> csafe (k a) Q) -> csafe (gbind m k) Q.
Proof.
  intros Hm Hk c R. apply wp_bind. eapply wp_mono; [by apply Hm|intros a s' [Ha R']; by apply Hk|done].
Qed.

Lemma csafe_look {A B} (m : DC A) (k : A -> DC B) (P : A -> Prop) (Q : B -> Prop) :
  (forall c, ctxOk c -> looks m c P) -> (forall a, P a -> csafe (k a) Q) -> csafe (gbind m k) Q.
Proof.
  intros Hm. apply csafe_bind. intros c R. eapply wp_mono; [by apply Hm|by intros a s' [-> ?]|done].
Qed.

Lemma csafe_ret {A} (a : A) (P : A -> Prop) : P a -> csafe (ret a) P.
Proof. intros H c R. by apply wp_ret. Qed.

Lemma csafe_if {A} (b : bool) (m1 m2 : DC A) (P : A -> Prop) :
  csafe m1 P -> csafe m2 P -> csafe (if b then m1 else m2) P.
Proof. by destruct b. Qed.

Lemma csafe_upd f : (forall c, ctxOk c -> ctxOk (f c)) -> csafe (gupd f) (fun _ => True).
Proof. intros Hf c R. apply wp_gupd. auto. Qed.

(** The context that is read is well formed, as is any later one. *)
Lemma csafe_get {A} (k : decCtx -> DC A) (P : A -> Prop) :
  (forall c, ctxOk c -> csafe (k c) P) -> csafe (gbind gget k) P.
Proof. intros Hk c R. apply wp_bind, wp_gget. by apply Hk. Qed.

Lemma csafe_gstore {A} (l : list A) i x (P : list A -> Prop) :
  0 <= i < zlen l -> P (zinsert i x l) -> csafe (gstore l i x) P.
Proof. intros Hi HP c R. by apply wp_gstore. Qed.

Ltac ctx_upd := apply csafe_upd; intros ? []; by constructor.

Lemma csafe_storeSpsAt i q : 0 <= i < 33 -> spsShape q -> csafe (storeSpsAt i q) (fun _ => True).
Proof.
  intros Hi Hq. apply csafe_get. intros c R. destruct (x_sps _ R) as [E F].
  eapply csafe_bind; [apply (csafe_gstore _ _ _ (fun b => zlen b = 33 /\ Forall spsShape b)); [lia|]|].
  - rewrite zlen_insert. split; [done|by apply Forall_zinsert].
  - intros b Hb. ctx_upd.
Qed.

Lemma csafe_storeSubsetAt i q : 0 <= i < 33 -> spsShape (sSps q) -> csafe (storeSubsetAt i q) (fun _ => True).
Proof.
  intros Hi Hq. apply csafe_get. intros c R. destruct (x_subset _ R) as [E F].
  eapply csafe_bind; [apply (csafe_gstore _ _ _ (fun b => zlen b = 33 /\ Forall (fun q => spsShape (sSps q)) b)); [lia|]|].
  - rewrite zlen_insert. split; [done|by apply Forall_zinsert].
  - intros b Hb. ctx_upd.
Qed.

Lemma csafe_storePpsAt i q : 0 <= i < 257 -> ppsShape q -> csafe (storePpsAt i q) (fun _ => True).
Proof.
  intros Hi Hq. apply csafe_get. intros c R. destruct (x_pps _ R) as [E F].
  eapply csafe_bind; [apply (csafe_gstore _ _ _ (fun b => zlen b = 257 /\ Forall ppsShape b)); [lia|]|].
  - rewrite zlen_insert. split; [done|by apply Forall_zinsert].
  - intros b Hb. ctx_upd.
Qed.

Lemma csafe_overwrite flag : csafe (overwrite flag) (fun _ => True).
Proof. ctx_upd. Qed.

Lemma csafe_auReady : csafe auReady (fun _ => True).
Proof. ctx_upd. Qed.

(** The set is stored under its id, or aside when it replaces the one in use. *)
Lemma csafe_storeSps kb sub : spsShape (sSps sub) -> csafe (storeSps kb sub) (fun _ => True).
Proof.
  intros Hs. pose proof (sh_id _ Hs) as Hid. unfold storeSps.
  apply (csafe_look _ _ (fun _ => True)); [intros c R; apply looks_CheckSpsActive; [done|unfold refOk; cbn; lia]|].
  intros active _. apply csafe_get. intros c R.
  destruct (x_sps _ R) as [E1 F1], (x_subset _ R) as [E2 F2].
  assert (Hp : forall i, 0 <= i < 33 ->
    csafe (if kb then storeSubsetAt i sub else storeSpsAt i (sSps sub)) (fun _ => True)).
  { intros i Hi. apply csafe_if; [by apply csafe_storeSubsetAt|by apply csafe_storeSpsAt]. }
  apply csafe_if; [|apply csafe_if].
  - apply (csafe_look _ _ (fun _ => True)).
    { intros c' R'. apply looks_if; (eapply looks_bind; [apply (looks_gindex _ _ _ (fun _ => True)); [lia|by apply Forall_true]|]);
        intros old _; by apply looks_ret. }
    intros same _. apply csafe_if; [by apply csafe_ret|]. apply csafe_if.
    + eapply csafe_bind; [apply Hp; unfold MAX_SPS_COUNT; lia|]. intros _ _.
      eapply csafe_bind; [apply csafe_auReady|]. intros _ _. apply csafe_overwrite.
    + apply (csafe_look _ _ (fun _ => True)); [intros; by apply looks_currentSpsIs|]. intros cur _.
      apply csafe_if; [|apply Hp; lia]. eapply csafe_bind; [apply Hp; unfold MAX_SPS_COUNT; lia|]. intros _ _.
      apply csafe_overwrite.
  - eapply csafe_bind; [apply csafe_storeSubsetAt; [lia|done]|]. intros _ _.
    eapply csafe_bind; [apply (csafe_gstore _ _ _ (fun l => zlen l = 32))|].
    + rewrite (x_subset_flags _ R). lia.
    + rewrite zlen_insert. apply R.
    + intros a Ha. ctx_upd.
  - eapply csafe_bind; [apply csafe_storeSpsAt; [lia|done]|]. intros _ _.
    eapply csafe_bind; [apply (csafe_gstore _ _ _ (fun l => zlen l = 32))|].
    + rewrite (x_sps_flags _ R). lia.
    + rewrite zlen_insert. apply R.
    + intros a Ha. ctx_upd.
Qed.

Lemma csafe_storePps pps : ppsShape pps -> csafe (storePps pps) (fun _ => True).
Proof.
  intros Hs. pose proof (ph_id _ Hs) as Hid. apply csafe_get. intros c R.
  destruct (x_pps _ R) as [E F]. pose proof (x_pps_ptr _ R) as Hp.
  apply (csafe_look _ _ (fun _ => True)).
  { intros c' R'. destruct (pPps c) as [i|]; [|by apply looks_ret].
    eapply looks_bind; [apply (looks_gindex _ _ _ (fun _ => True)); [lia|by apply Forall_true]|].
    intros p _. by apply looks_ret. }
  intros [p|] _.
  - apply csafe_if; [by apply csafe_ret|].
    eapply csafe_bind; [apply csafe_storePpsAt; [unfold MAX_PPS_COUNT; lia|done]|]. intros _ _.
    eapply csafe_bind; [apply csafe_overwrite|]. intros _ _. apply csafe_if; [apply csafe_auReady|by apply csafe_ret].
  - eapply csafe_bind; [apply csafe_storePpsAt; [lia|done]|]. intros _ _.
    eapply csafe_bind; [apply (csafe_gstore _ _ _ (fun l => zlen l = 256))|].
    + rewrite (x_pps_flags _ R). lia.
    + rewrite zlen_insert. apply R.
    + intros a Ha. ctx_upd.
Qed.

(** ** A unit *)

(** An operation that starts with the bit string ready to be read. *)
Definition bsafe {A} (m : DC A) (P : A -> Prop) : Prop :=
  forall c, ctxOk c -> readable (sBs c) -> wp m c (fun a c' => P a /\ ctxOk c') (fun _ c' => ctxOk c').

Lemma ctxOk_bs c b : ctxOk c -> ctxOk (c <| sBs := b |>).
Proof. intros []. by constructor. Qed.

Lemma bsafe_onBs {A B} (m : BS A) (k : A -> DC B) P Q :
  safe m P -> (forall a, P a -> csafe (k a) Q) -> bsafe (gbind (onBs m) k) Q.
Proof.
  intros Hm Hk c R Hr. apply wp_bind, wp_onBs. eapply wp_mono; [by apply Hm| |].
  - intros a b [Ha _]. apply Hk; [done|]. by apply ctxOk_bs.
  - intros e b _. by apply ctxOk_bs.
Qed.

Lemma bsafe_ParseSps : bsafe ParseSps (fun _ => True).
Proof.
  intros c R Hr. unfold ParseSps. apply wp_bind, wp_gget. revert c R Hr.
  assert (H : forall kb, bsafe (let! o := onBs (spsSyntax kb) in match o with
    | None => ret tt
    | Some sub => do! (if isScalable (uiProfileIdc (sSps sub)) then updSets (fun t => t <| bAvcBasedFlag := false |>)
                       else ret tt) in storeSps kb sub end) (fun _ => True)).
  { intros kb. eapply bsafe_onBs; [apply safe_spsSyntax|]. intros [sub|] Hs; [|by apply csafe_ret].
    apply (csafe_bind _ _ (fun _ => True)); [|intros _ _; by apply csafe_storeSps].
    apply csafe_if; [ctx_upd|by apply csafe_ret]. }
  intros c. apply H.
Qed.

Lemma bsafe_ParsePps : bsafe ParsePps (fun _ => True).
Proof.
  intros c R Hr. unfold ParsePps. apply wp_bind, wp_gget.
  refine (bsafe_onBs _ _ ppsShape _ _ _ c R Hr); [|intros pps Hp; by apply csafe_storePps].
  apply safe_ppsSyntax. intros i sps Hs. unfold spsAvailable in Hs.
  destruct (zlookup (bSpsAvailFlags _) _) as [[]|]; [|done..]. exact (Forall_zlookup _ _ _ _ (proj2 (x_sps _ R)) Hs).
Qed.

Lemma BsGetTrailingBits_range b : is_u8 b -> 0 <= BsGetTrailingBits b <= 7.
Proof.
  intros Hb. unfold is_u8 in Hb.
  assert (Hall : forallb (fun b =>
    (0 <=? BsGetTrailingBits (Z.of_nat b)) && (BsGetTrailingBits (Z.of_nat b) <=? 7)) (seq 0 256) = true) by (vm_compute; reflexivity).
  rewrite forallb_forall in Hall. specialize (Hall (Z.to_nat b)). rewrite Z2Nat.id in Hall by lia.
  assert (Hin : In (Z.to_nat b) (seq 0 256)) by (apply in_seq; lia). specialize (Hall Hin). zbool. lia.
Qed.

(** The bit string of any bytes can be read. *)
Lemma wp_init_readable nal off n c :
  bytes_ok nal -> 0 <= off -> 0 < n -> off + n <= zlen nal ->
  forall b, is_u8 b -> ctxOk c ->
  wp (let bits := Z.shiftl n 3 - BsGetTrailingBits b in
      if 0 <? bits then onBs (DecInitBits nal off bits) else ret tt) c
     (fun _ c' => ctxOk c' /\ readable (sBs c')) (fun _ _ => False).
Proof.
  intros Hn Ho Hp Hl b Hb R. pose proof (BsGetTrailingBits_range b Hb).
  rewrite Z.shiftl_mul_pow2 by lia. change (2 ^ 3) with 8. cbv zeta.
  rewrite (proj2 (Z.ltb_lt _ _)) by lia.
  assert ((n * 8 - BsGetTrailingBits b + 7) / 8 < n + 1) by (apply Z.div_lt_upper_bound; lia).
  apply wp_onBs. eapply wp_mono; [apply wp_DecInitBits; [done|lia..]| |done].
  intros _ s' []. split; [by apply ctxOk_bs|]. constructor; cbn; [done|lia|lia|done].
Qed.

(** An operation that ends without an error on a well-formed context. *)
Definition total {A} (m : DC A) : Prop := forall c, ctxOk c -> wp m c (fun _ c' => ctxOk c') (fun _ _ => False).

Lemma total_ret {A} (a : A) : total (ret a).
Proof. intros c R. by apply wp_ret. Qed.

Lemma total_bind {A B} (m : DC A) (k : A -> DC B) : total m -> (forall a, total (k a)) -> total (gbind m k).
Proof. intros Hm Hk c R. apply wp_bind. eapply wp_mono; [by apply Hm|intros a c' R'; by apply Hk|done]. Qed.

Lemma total_upd f : (forall c, ctxOk c -> ctxOk (f c)) -> total (gupd f).
Proof. intros Hf c R. apply wp_gupd. auto. Qed.

Ltac total_upd := apply total_upd; intros ? []; by constructor.

Lemma total_failed e : total (paramSetFailed e).
Proof.
  intros c R. apply wp_bind, wp_gget. revert c R. cut (forall x, total (do! orError x in ret e)); [intros H c; apply H|].
  intros x. apply total_bind; [total_upd|]. intros _. apply total_ret.
Qed.

(** An operation that may fail, followed by what is done in both cases. *)
Lemma wp_catch {A B} (m : DC A) (k : A + error -> DC B) c :
  wp m c (fun _ c' => ctxOk c') (fun _ c' => ctxOk c') -> (forall r, total (k r)) ->
  wp (let! r := gtry m in k r) c (fun _ c' => ctxOk c') (fun _ _ => False).
Proof.
  intros Hm Hk. apply wp_bind, wp_try. eapply wp_mono; [exact Hm| |]; intros ? c' R; by apply Hk.
Qed.

Lemma wp_bsafe {A} (m : DC A) c :
  bsafe m (fun _ => True) -> ctxOk c -> readable (sBs c) -> wp m c (fun _ c' => ctxOk c') (fun _ c' => ctxOk c').
Proof. intros Hm R Hr. eapply wp_mono; [by apply Hm|by intros a c' [_ ?]|done]. Qed.

(** C8: a parameter set whose bytes are arbitrary is parsed without a panic: a code
    is returned and the context stays well formed. *)
Theorem param_sets_safe nal off n c :
  bytes_ok nal -> 0 <= off -> off + n <= zlen nal -> ctxOk c ->
  exists code c', ParseNonVclNal nal off n c = (Ok code, c') /\ ctxOk c'.
Proof.
  intros Hn Ho Hl R. apply wp_Ok. unfold ParseNonVclNal. destruct (Z.leb_spec n 0); [by apply wp_ret|].
  destruct (zlookup_Some nal (off + n - 1)) as [b Hb]; [lia|]. apply wp_bind. eapply wp_gindex; [exact Hb|].
  pose proof (Forall_zlookup _ _ _ _ Hn Hb) as Hu. apply wp_bind, wp_gget. cbv zeta.
  pose proof (wp_init_readable nal off n c Hn Ho ltac:(lia) Hl b Hu R) as Hinit. cbv zeta in Hinit.
  destruct (_ || _); [|destruct (ENalUnitType c =? NAL_UNIT_PPS); [|by apply wp_ret]];
    (apply wp_bind, wp_try; eapply wp_mono; [exact Hinit| |done]; intros [] c' [R' Hr]).
  - apply wp_catch; [by apply wp_bsafe; [apply bsafe_ParseSps| |]|]. intros [u|e]; [|apply total_failed].
    apply total_bind; [total_upd|]. intros _. apply total_ret.
  - apply wp_catch; [by apply wp_bsafe; [apply bsafe_ParsePps| |]|]. intros [u|e].
    + apply total_bind; [total_upd|]. intros _. apply total_ret.
    + apply total_bind; [apply total_failed|]. intros code. apply total_bind; [total_upd|]. intros _. apply total_ret.
Qed.

Lemma openedCtx_ok : ctxOk openedCtx.
Proof.
  constructor; try reflexivity; try (apply Forall_nil_2); try (split; [reflexivity|apply Forall_replicate]).
  - exact zeroSps_shape.
  - exact zeroSps_shape.
  - exact zeroPps_shape.
Qed.

(** A sequence parameter set that ends in the middle of its syntax. *)
Lemma param_sets_safe_witness :
  exists code c', ParseNonVclNal [103; 66; 0; 31; 149; 255; 255; 255] 1 7 (openedCtx <| ENalUnitType := NAL_UNIT_SPS |>) = (Ok code, c') /\
    ctxOk c'.
Proof.
  apply (param_sets_safe [103; 66; 0; 31; 149; 255; 255; 255] 1 7 (openedCtx <| ENalUnitType := NAL_UNIT_SPS |>)).
  - unfold bytes_ok. repeat (apply list.Forall_cons; split; [unfold is_u8; lia|]). apply Forall_nil_2.
  - lia.
  - vm_compute. discriminate.
  - destruct openedCtx_ok. by constructor.
Defined.

(** The same code of 33 bits, the value 65535: at bit 0 the reader decodes it,
    at bit 16 it finds seventeen leading zeros and fails. *)
Example ue_long_code_at_0 :
  fst ((do! DecInitBits [0; 0; 128; 0; 0; 0; 0; 0] 0 64 in BsGetUe) (mkBs [] 0 0 0 0 0 0)) = Ok 65535.
Proof. vm_compute. reflexivity. Qed.

Example ue_long_code_at_16 :
  fst ((do! DecInitBits [255; 255; 0; 0; 128; 0; 0; 0; 0; 0] 0 80 in let! _ := BsGetBits 16 in BsGetUe)
         (mkBs [] 0 0 0 0 0 0)) = Err (ECode ERR_INFO_READ_LEADING_ZERO).
Proof. vm_compute. reflexivity. Qed.
