(* ===== verification/H264Size.v ===== *)
(** * The size of the video

    How a picture size travels from the configuration of a spatial layer to
    the pictures the decoder hands out: the encoder aligns it to macroblocks
    ([SetActualPicResolution], internal/encoder/param_svc_h.go), fills a
    sequence parameter set with macroblocks, crop offsets, profile and level
    ([WelsInitSps]), and the decoder computes the visible size again
    ([DecodeFrameConstruction], internal/decoder/decoder_core.go). *)

From S2P Require Import Prelude Bytes H264Bits.
From S2P Require Import H264ParamsEnc H264ParamsDec H264ParamsTrip.
Import PEnc.

Definition WELS_ALIGN (x n : Z) : Z := Z.ldiff (x + n - 1) (n - 1).

(** One spatial layer. *)
Definition SetActualPicResolution (l : SSpatialLayerConfig) : SSpatialLayerConfig :=
  mkLayer (WELS_ALIGN (IVideoWidth l) 16) (WELS_ALIGN (IVideoHeight l) 16) (IVideoWidth l) (IVideoHeight l)
    (outRate l) (ISpatialBitrate l) (UiProfileIdc l) (UiLayerLevelIdc l) (BVideoSignalTypePresent l)
    (UiVideoFormat l) (BFullRange l) (BColorDescriptionPresent l) (UiColorPrimaries l)
    (UiTransferCharacteristics l) (UiColorMatrix l) (BAspectRatioPresent l) (EAspectRatio l)
    (SAspectRatioExtWidth l) (SAspectRatioExtHeight l).

(** The visible width and height of a picture that uses the set. *)
Definition actualSize (sps : PDec.SSps) : Z * Z :=
  let c := PDec.sFrameCrop sps in
  let kiWidth := i32 (Z.shiftl (PDec.iMbWidth sps) 4) in
  let kiHeight := i32 (Z.shiftl (PDec.iMbHeight sps) 4) in
  (i32 (kiWidth - i32 (i32 (PDec.iLeftOffset c + PDec.iRightOffset c) * 2)),
   i32 (kiHeight - i32 (i32 (PDec.iTopOffset c + PDec.iBottomOffset c) * 2))).

(** ** A layer within the limits *)

Record layerOk (l : SSpatialLayerConfig) : Prop := {
  ly_width : 1 <= IVideoWidth l <= 8688;
  ly_height : 1 <= IVideoHeight l <= 8688;
  ly_area : ((IVideoWidth l + 15) / 16) * ((IVideoHeight l + 15) / 16) <= 36864;
  ly_profile : UiProfileIdc l = 0 \/ PDec.knownProfile (UiProfileIdc l) = true;
  ly_level : UiLayerLevelIdc l = LEVEL_UNKNOWN \/ exists x, PDec.GetLevelLimits (UiLayerLevelIdc l) false = Some x;
  ly_aspect : 0 <= EAspectRatio l < 256;
  ly_sar : 0 <= SAspectRatioExtWidth l < 65536 /\ 0 <= SAspectRatioExtHeight l < 65536;
  ly_format : 0 <= UiVideoFormat l < 8;
  ly_colour : 0 <= UiColorPrimaries l < 256 /\ 0 <= UiTransferCharacteristics l < 256 /\ 0 <= UiColorMatrix l < 256
}.

Lemma align16 x : 0 <= x -> WELS_ALIGN x 16 = 16 * ((x + 15) / 16).
Proof.
  intros Hx. unfold WELS_ALIGN. replace (x + 16 - 1) with (x + 15) by lia. change (16 - 1) with (Z.ones 4).
  rewrite Z.ldiff_ones_r by lia. rewrite Z.shiftl_mul_pow2, Z.shiftr_div_pow2 by lia. change (2 ^ 4) with 16. lia.
Qed.

Lemma blocks_range x : 1 <= x <= 8688 -> 1 <= (x + 15) / 16 <= 543.
Proof.
  intros Hx. assert ((x + 15) / 16 < 544) by (apply Z.div_lt_upper_bound; lia).
  assert (1 <= (x + 15) / 16) by (apply Z.div_le_lower_bound; lia). lia.
Qed.

Lemma blocks_of x : 1 <= x <= 8688 -> i16 (Z.shiftr (i32 (16 * ((x + 15) / 16) + 15)) 4) = (x + 15) / 16.
Proof.
  intros Hx. pose proof (blocks_range x Hx).
  rewrite i32_small by lia. rewrite Z.shiftr_div_pow2 by lia. change (2 ^ 4) with 16.
  replace ((16 * ((x + 15) / 16) + 15) / 16) with ((x + 15) / 16); [apply i16_small; lia|].
  apply (Z.div_unique _ 16 _ 15); lia.
Qed.

(** The levels the encoder chooses are those the decoder knows. *)
Lemma levelSearch_known limits sps rate br :
  Forall (fun l => exists x, PDec.GetLevelLimits (UiLevelIdc l) false = Some x) limits ->
  exists x, PDec.GetLevelLimits (levelSearch limits sps rate br) false = Some x.
Proof.
  induction 1 as [|l limits Hl _ IH]; cbn [levelSearch]; [by exists 15|]. by destruct (WelsCheckLevelLimitation _ _ _ _).
Qed.

Lemma WelsGetLevelIdc_known sps rate br :
  exists x, PDec.GetLevelLimits (WelsGetLevelIdc sps rate br) false = Some x.
Proof. apply levelSearch_known. unfold G_ksLevelLimits. repeat constructor; by eexists. Qed.

Lemma known_level_range v x c : PDec.GetLevelLimits v c = Some x -> 9 <= v <= 52.
Proof. unfold PDec.GetLevelLimits. intros H. repeat (case_match; try discriminate); lia. Qed.

Lemma known_level_any v c x : PDec.GetLevelLimits v false = Some x -> exists y, PDec.GetLevelLimits v c = Some y.
Proof. destruct c; [|by exists x]. unfold PDec.GetLevelLimits. intros H. repeat (case_match; try discriminate); by eexists. Qed.

(** ** The set *)

(** The fields with the geometry of the pictures. *)
Record geometry (l : SSpatialLayerConfig) (n id : Z) (sps : SWelsSPS) : Prop := {
  g_id : uiSpsId sps = id;
  g_width : iMbWidth sps = i16 (Z.shiftr (i32 (IVideoWidth l + 15)) 4);
  g_height : iMbHeight sps = i16 (Z.shiftr (i32 (IVideoHeight l + 15)) 4);
  g_frame_num : uiLog2MaxFrameNum sps = 15;
  g_poc : uiPocType sps = 2 /\ iLog2MaxPocLsb sps = 16;
  g_refs : iNumRefFrames sps = i16 n;
  g_crop : WelsGetPaddingOffset (iActualWidth l) (iActualHeight l) (IVideoWidth l) (IVideoHeight l) =
             (bFrameCroppingFlag sps, Some (sFrameCrop sps));
  g_profile : uiProfileIdc sps = if negb (UiProfileIdc l =? 0) then u8 (UiProfileIdc l) else PRO_BASELINE
}.

Lemma geometry_same l n id sps sps' :
  geometry l n id sps ->
  uiSpsId sps' = uiSpsId sps -> iMbWidth sps' = iMbWidth sps -> iMbHeight sps' = iMbHeight sps ->
  uiLog2MaxFrameNum sps' = uiLog2MaxFrameNum sps -> uiPocType sps' = uiPocType sps ->
  iLog2MaxPocLsb sps' = iLog2MaxPocLsb sps -> iNumRefFrames sps' = iNumRefFrames sps ->
  bFrameCroppingFlag sps' = bFrameCroppingFlag sps -> sFrameCrop sps' = sFrameCrop sps ->
  uiProfileIdc sps' = uiProfileIdc sps -> geometry l n id sps'.
Proof. intros [] E1 E2 E3 E4 E5 E6 E7 E8 E9 E10. constructor; congruence. Qed.

Ltac same_geometry H := apply (geometry_same _ _ _ _ _ H); reflexivity.

Lemma geometry_flags l n id sps (b0 b1 b2 : bool) :
  geometry l n id sps ->
  geometry l n id
    (let sps := if b0 then sps <| bConstraintSet0Flag := true |> else sps in
     let sps := if b1 then sps <| bConstraintSet1Flag := true |> else sps in
     if b2 then sps <| bConstraintSet2Flag := true |> else sps).
Proof. intros H. by destruct b0, b1, b2; cbv zeta iota; [same_geometry H..|]. Qed.

Lemma padding_some w h aw ah : aw <= w -> ah <= h ->
  exists flag c, WelsGetPaddingOffset aw ah w h = (flag, Some c).
Proof.
  intros Hw Hh. unfold WelsGetPaddingOffset. rewrite (proj2 (Z.ltb_ge _ _) Hw), (proj2 (Z.ltb_ge _ _) Hh). by eexists _, _.
Qed.

Lemma initSpsProfile_geometry l n id count base :
  iActualWidth l <= IVideoWidth l -> iActualHeight l <= IVideoHeight l ->
  geometry l n id (initSpsProfile l n id true count base).
Proof.
  intros Hw Hh. destruct (padding_some _ _ _ _ Hw Hh) as (flag & c & E).
  unfold initSpsProfile. rewrite E. apply geometry_flags.
  constructor; [reflexivity..|by split|reflexivity|exact E|reflexivity].
Qed.

(** The level is one the decoder knows. *)
Lemma initSpsLevel_spec l n id sps :
  geometry l n id sps ->
  (UiLayerLevelIdc l = LEVEL_UNKNOWN \/ exists x, PDec.GetLevelLimits (UiLayerLevelIdc l) false = Some x) ->
  let sps' := fst (initSpsLevel l sps) in
  geometry l n id sps' /\ exists x, PDec.GetLevelLimits (iLevelIdc sps') (bConstraintSet3Flag sps') = Some x.
Proof.
  intros H Hl. unfold initSpsLevel. cbv zeta.
  destruct (WelsGetLevelIdc_known sps (outRate l) (ISpatialBitrate l)) as [x Hx]. revert Hx.
  generalize (WelsGetLevelIdc sps (outRate l) (ISpatialBitrate l)). intros v Hv.
  assert (Hlev : forall w c y, PDec.GetLevelLimits w false = Some y -> exists z,
    PDec.GetLevelLimits (u8 (if (UiLayerLevelIdc l =? LEVEL_UNKNOWN) || (UiLayerLevelIdc l <? w) then w else UiLayerLevelIdc l)) c = Some z).
  { intros w c y Hw. destruct (_ || _) eqn:E.
    - rewrite u8_small by (pose proof (known_level_range _ _ _ Hw); lia). by eapply known_level_any.
    - zbool. destruct Hl as [|[z Hz]]; [done|].
      rewrite u8_small by (pose proof (known_level_range _ _ _ Hz); lia). by eapply known_level_any. }
  destruct (_ && _); cbn [fst]; (split; [same_geometry H|]); eapply Hlev; [reflexivity|exact Hv].
Qed.

Lemma even_part w : 0 <= w -> w - Z.land w 1 = 2 * (w / 2).
Proof. intros. change 1 with (Z.ones 1) at 1. rewrite Z.land_ones by lia. change (2 ^ 1) with 2. pose proof (Z.div_mod w 2). lia. Qed.

(** Half the padding between a size and its macroblocks. *)
Lemma padding_half x : 1 <= x <= 8688 ->
  i16 (Z.quot (16 * ((x + 15) / 16) - (x - Z.land x 1)) 2) = 8 * ((x + 15) / 16) - x / 2 /\
  0 <= 8 * ((x + 15) / 16) - x / 2 <= 8.
Proof.
  intros Hx. pose proof (blocks_range x Hx). rewrite even_part by lia.
  pose proof (Z.div_mod (x + 15) 16 ltac:(lia)). pose proof (Z.mod_pos_bound (x + 15) 16 ltac:(lia)).
  pose proof (Z.div_mod x 2 ltac:(lia)). pose proof (Z.mod_pos_bound x 2 ltac:(lia)).
  replace (16 * ((x + 15) / 16) - 2 * (x / 2)) with ((8 * ((x + 15) / 16) - x / 2) * 2) by lia.
  rewrite Z.quot_mul by lia. split; [apply i16_small|]; lia.
Qed.

(** The macroblocks and the crop offsets of a layer that was aligned. *)
Record aligned (l : SSpatialLayerConfig) (sps : SWelsSPS) : Prop := {
  al_width : iMbWidth sps = (IVideoWidth l + 15) / 16;
  al_height : iMbHeight sps = (IVideoHeight l + 15) / 16;
  al_left : iCropLeft (sFrameCrop sps) = 0;
  al_right : iCropRight (sFrameCrop sps) = 8 * ((IVideoWidth l + 15) / 16) - IVideoWidth l / 2;
  al_top : iCropTop (sFrameCrop sps) = 0;
  al_bottom : iCropBottom (sFrameCrop sps) = 8 * ((IVideoHeight l + 15) / 16) - IVideoHeight l / 2;
  al_flag : bFrameCroppingFlag sps = false ->
    iCropRight (sFrameCrop sps) = 0 /\ iCropBottom (sFrameCrop sps) = 0
}.

Lemma geometry_aligned l n id sps :
  layerOk l -> geometry (SetActualPicResolution l) n id sps -> aligned l sps.
Proof.
  intros [Hw Hh _ _ _ _ _ _ _] [_ Gw Gh _ _ _ Gc _]. cbn [SetActualPicResolution IVideoWidth IVideoHeight iActualWidth iActualHeight] in *.
  rewrite align16 in Gw by lia. rewrite align16 in Gh by lia. rewrite !align16 in Gc by lia. rewrite blocks_of in Gw, Gh by done.
  pose proof (padding_half _ Hw) as [Ew Rw]. pose proof (padding_half _ Hh) as [Eh Rh].
  unfold WelsGetPaddingOffset in Gc. rewrite Ew in Gc. rewrite Eh in Gc.
  pose proof (Z.div_mod (IVideoWidth l + 15) 16 ltac:(lia)). pose proof (Z.mod_pos_bound (IVideoWidth l + 15) 16 ltac:(lia)).
  pose proof (Z.div_mod (IVideoHeight l + 15) 16 ltac:(lia)). pose proof (Z.mod_pos_bound (IVideoHeight l + 15) 16 ltac:(lia)).
  rewrite !(proj2 (Z.ltb_ge (16 * _) _)) in Gc by lia. cbn [orb] in Gc. injection Gc as Gf Gc.
  rewrite !even_part in Gf by lia.
  constructor; rewrite <- ?Gc; cbn; try done; try lia. rewrite <- Gf. intros [E1 E2]%orb_false_iff. zbool. lia.
Qed.

(** The decoder gets the size from macroblocks and crop offsets. *)
Lemma actualSize_aligned l sps lim :
  layerOk l -> aligned l sps ->
  actualSize (decodedSps sps 0 lim true) =
    (IVideoWidth l - Z.land (IVideoWidth l) 1, IVideoHeight l - Z.land (IVideoHeight l) 1).
Proof.
  intros [Hw Hh _ _ _ _ _ _ _] [Aw Ah Al Ar At Ab Af].
  pose proof (padding_half _ Hw) as [_ Rw]. pose proof (padding_half _ Hh) as [_ Rh].
  pose proof (blocks_range _ Hw). pose proof (blocks_range _ Hh).
  assert (Hc : PDec.sFrameCrop (decodedSps sps 0 lim true) =
    PDec.mkPos 0 0 (iCropRight (sFrameCrop sps)) (iCropBottom (sFrameCrop sps))).
  { transitivity (if bFrameCroppingFlag sps
      then PDec.mkPos (iCropLeft (sFrameCrop sps)) (iCropTop (sFrameCrop sps)) (iCropRight (sFrameCrop sps)) (iCropBottom (sFrameCrop sps))
      else PDec.zeroSPosOffset); [reflexivity|].
    rewrite Al, At. destruct (bFrameCroppingFlag sps); [done|]. destruct (Af eq_refl) as [-> ->]. reflexivity. }
  assert (Hmw : PDec.iMbWidth (decodedSps sps 0 lim true) = iMbWidth sps) by reflexivity.
  assert (Hmh : PDec.iMbHeight (decodedSps sps 0 lim true) = iMbHeight sps) by reflexivity.
  unfold actualSize. rewrite Hc, Hmw, Hmh. cbn [PDec.iLeftOffset PDec.iRightOffset PDec.iTopOffset PDec.iBottomOffset].
  rewrite Ar, Ab, Aw, Ah, !Z.shiftl_mul_pow2, !even_part by lia. change (2 ^ 4) with 16.
  rewrite !Z.add_0_l, !(i32_small (_ - _ / 2)), !(i32_small ((_ - _) * 2)), !(i32_small (_ * 16)) by lia.
  rewrite !i32_small by lia. f_equal; lia.
Qed.

Lemma profile_known p : p = 0 \/ PDec.knownProfile p = true ->
  PDec.knownProfile (if negb (p =? 0) then u8 p else PRO_BASELINE) = true.
Proof.
  intros [->|Hp]; [reflexivity|]. destruct (Z.eqb_spec p 0); [reflexivity|]. cbn [negb].
  rewrite u8_small; [done|]. unfold PDec.knownProfile, PRO_BASELINE, PRO_MAIN, PRO_SCALABLE_BASELINE,
    PRO_SCALABLE_HIGH, PRO_EXTENDED, PRO_HIGH in Hp. lia.
Qed.

(** C12: the size of the video reaches the decoder: for a layer within the limits of
    the syntax, the set that [WelsInitSps] fills is one the decoder accepts, and
    the pictures have the even part of the configured width and height. *)
Theorem video_size_announced l n id count base :
  layerOk l -> 0 <= n <= 16 -> 0 <= id < 32 ->
  let sps := fst (WelsInitSps (SetActualPicResolution l) n id true count base) in
  exists lim, spsOk sps 0 lim /\
    actualSize (decodedSps sps 0 lim true) =
      (IVideoWidth l - Z.land (IVideoWidth l) 1, IVideoHeight l - Z.land (IVideoHeight l) 1).
Proof.
  intros Hl Hn Hid. cbv zeta. unfold WelsInitSps.
  set (l' := SetActualPicResolution l).
  assert (Hg : geometry l' n id (initSpsProfile l' n id true count base)).
  { pose proof (ly_width _ Hl). pose proof (ly_height _ Hl). apply initSpsProfile_geometry;
      cbn; rewrite align16 by lia; pose proof (padding_half _ (ly_width _ Hl)); pose proof (padding_half _ (ly_height _ Hl)).
    - pose proof (Z.div_mod (IVideoWidth l + 15) 16). pose proof (Z.mod_pos_bound (IVideoWidth l + 15) 16). lia.
    - pose proof (Z.div_mod (IVideoHeight l + 15) 16). pose proof (Z.mod_pos_bound (IVideoHeight l + 15) 16). lia. }
  destruct (initSpsLevel_spec l' n id _ Hg (ly_level _ Hl)) as [H [lim Hlim]]. clear Hg.
  destruct (initSpsLevel l' _) as [s lv]. cbn [fst] in *.
  pose proof (geometry_aligned l n id s Hl H) as A.
  exists lim. split.
  - destruct H as [G1 G2 G3 G4 [G5 G5'] G6 G7 G8], A as [A1 A2 A3 A4 A5 A6 A7], Hl.
    pose proof (blocks_range _ ly_width0). pose proof (blocks_range _ ly_height0).
    pose proof (padding_half _ ly_width0). pose proof (padding_half _ ly_height0).
    constructor; try (cbn; lia).
    + change (PDec.knownProfile (uiProfileIdc s) = true). rewrite G8. by apply profile_known.
    + exact Hlim.
    + change (0 <= iNumRefFrames s <= 16). rewrite G6, i16_small; lia.
    + change (1 <= iMbWidth s /\ iMbWidth s * iMbWidth s <= 294912). nia.
    + change (1 <= iMbHeight s /\ iMbHeight s * iMbHeight s <= 294912). nia.
  - apply actualSize_aligned; [done|]. destruct A. by constructor.
Qed.

Definition sampleLayer : SSpatialLayerConfig :=
  mkLayer 1366 768 0 0 (fun mbs => u32 (mbs * 30)) 0 PRO_HIGH LEVEL_UNKNOWN false 5 false false 2 2 2 false 0 0 0.

Lemma video_size_announced_witness :
  exists lim, spsOk (fst (WelsInitSps (SetActualPicResolution sampleLayer) 1 0 true 1 false)) 0 lim /\
    actualSize (decodedSps (fst (WelsInitSps (SetActualPicResolution sampleLayer) 1 0 true 1 false)) 0 lim true)
      = (1366, 768).
Proof.
  apply (video_size_announced sampleLayer 1 0 1 false); [|lia|lia].
  constructor; cbn; try lia. vm_compute. discriminate.
Defined.
